(* ===== verification/_CoqProject ===== *)
-Q . S2P
Prelude.v
Bswap.v
Time.v
Timer.v
Bitmap.v
Sfs.v
SfsProof.v
SfsIo.v
SfsDir.v
SfsVol.v
SfsMount.v
Array.v
CopyInOut.v
Uio.v
Random.v
Vnode.v
VfsList.v
VfsPath.v
VfsRefs.v
VfsProps.v
VfsCwd.v
VfsNames.v
VfsAdd.v
Semfs.v
SemfsLaws.v
SemfsProps.v
ThreadList.v
KernTests.v
ListTests.v
SortProg.v
UserProgs.v
Spinlock.v
Synch.v
Hangman.v
Thread.v
ThreadInv.v
ThreadOps.v
ThreadSwitch.v
ThreadMigrate.v
ThreadProps.v
Segments.v
Tlb.v
PageTable.v
VmState.v
Ram.v
Kmalloc.v
KFrame.v
HeapInv.v
HeapProof.v
HeapOps.v
HeapTrans.v
HeapSafe.v
Swap.v
AddrSpace.v
Proc.v
LoadElf.v
VmFault.v
Machine.v
HeapBoot.v
VmProps.v
FaultProps.v
Isolation.v
Lamebus.v
LamebusProps.v
Attach.v
Trap.v
TrapProps.v
Console.v
ConsoleProps.v
Panic.v
Lhd.v
LhdProps.v
Serial.v
SerialProps.v
Screen.v
Kgets.v
Menu.v
MenuProps.v
Emu.v
EmuProps.v
