(* ===== verification/Prelude.v ===== *)
(** * A verification of the OS161-based kernel of this repository

    The program is a small MIPS kernel: OS/161 with a virtual memory system of
    its own (demand paging over an inverted page table, TLB management, a swap
    file), the OS/161 kernel heap, threads, the VFS layer with three file
    systems, the system bus and the drivers of its devices, traps and system
    calls, and a menu.  This library translates it into Rocq and proves what makes the parts
    correct; where the code does not do what it means to, the theorem states
    what it does.

    ** How the program is put together

    - Physical memory is handed out by arch/mips/vm/ram.c until [vm_bootstrap]
      has run, then frame by frame from the free-frame list (lib/list.c,
      vm/coremap.c) by [alloc_kpages] of vm/kmalloc.c.  The list's nodes are
      blocks of the kernel heap, whose pages come from [alloc_kpages]: page and
      block allocator call each other.
    - The inverted page table (vm/pt.c) has an entry per frame.  A TLB miss
      enters [vm_fault] (vm/vm.c), which reloads the TLB (vm/vm_tlb.c) for a
      resident page, brings the page back from the swap file (vm/swapfile.c),
      or loads it from the executable (syscall/loadelf.c), evicting a page of
      the process when no frame is free.  Address spaces (vm/addrspace.c,
      vm/segments.c) say what is code, data and bss; proc/proc.c owns them.
    - Traps (arch/mips/locore/trap.c) lead to [vm_fault], to the system calls
      (arch/mips/syscall/syscall.c), or by way of the main bus
      (arch/sys161/dev/lamebus_machdep.c, dev/lamebus/lamebus.c) to the
      interrupt handlers of the devices: disk, serial port, screen, timer and
      random generator (dev/lamebus), attached to their slots by the _att.c files.
    - thread/ has interrupt levels, spinlocks, thread lists, semaphores, the
      scheduler and a deadlock detector; lib/ has arrays, bitmaps, byte order,
      time, uio and the line editor; vm/copyinout.c moves bytes between user and
      kernel.
    - vfs/ keeps vnodes, named devices and path names; below it are the SFS disk
      file system (fs/sfs over dev/lamebus/lhd.c), the semaphore file system
      (fs/semfs) and the emulator file system (dev/lamebus/emu.c).  The console
      (dev/generic/console.c) serves the kernel's output and the menu
      (main/menu.c), from which programs are started, on the serial port
      (dev/lamebus/lser.c).

    ** Files

    - [Prelude]: machine integers, the outcome monad [M] (return, thread exit,
      panic, out of fuel), partial and total correctness, the rules and tactics
      for [keeps] and [preserves], array searches and counts.
    - [Bswap], [Time], [Bitmap], [Array], [Uio], [CopyInOut]: lib/bswap.c,
      lib/time.c, lib/bitmap.c, lib/array.c with include/array.h, lib/uio.c,
      vm/copyinout.c.  What the VM system makes of a load or store at an address
      (satisfied, refused, the process ended, the kernel dead) is a parameter of
      [CopyInOut].
    - [Sfs], [SfsProof], [SfsIo], [SfsDir], [SfsVol], [SfsMount]: fs/sfs.  Block
      allocation, block maps, directories, inodes and block I/O with the transfer
      loop of lhd.c; block maps on a reliable device; file I/O; directories as
      finite maps; volumes with their vnodes, vnode operations and mounting;
      unmounting and mounting again.  The class [BlockDev] is the device
      interface and [ReliableDev] the contract the theorems use.
    - [Vnode], [VfsList], [VfsPath]: vfs/.  The classes [Kernel] (heap and
      uiomove) and [FileSystem] (the operation tables) are what the layer needs.
      [VfsRefs], [VfsProps], [VfsCwd], [VfsNames], [VfsAdd]: reference counts,
      the path operations, the current directory, path names, and adding devices,
      proved against laws of these classes ([FsLaws] says which paths of the file
      systems do not keep them).  [Semfs], [SemfsLaws],
      [SemfsProps]: the semaphore file system, as an instance that obeys the
      laws while memory lasts, and the two together.
    - [ThreadList], [Spinlock], [Synch], [Hangman]: thread/threadlist.c;
      thread/spl.c and thread/spinlock.c as a step relation over all CPUs;
      thread/synch.c with the wait channels of thread/thread.c, where the class
      [ThreadQueue] is what semaphores need of a queue and [ThreadList] provides
      an instance; thread/hangman.c.  [Thread], [ThreadInv], [ThreadOps],
      [ThreadSwitch], [ThreadMigrate], [ThreadProps]: thread/thread.c and
      thread/clock.c as steps of several CPUs, the invariant, its preservation by
      every operation, and what follows.
    - [VmState]: the globals of the memory system as records, one [kstate] for
      all; physical memory as words by kseg0 address; pagerefs, processes and
      address spaces as typed objects by address.
    - [Segments], [Tlb], [PageTable], [Ram], [Kmalloc], [Swap], [AddrSpace],
      [Proc], [LoadElf], [VmFault]: vm/segments.c; vm/vm_tlb.c; vm/pt.c;
      arch/mips/vm/ram.c; vm/kmalloc.c with lib/list.c and vm/coremap.c;
      vm/swapfile.c; vm/addrspace.c; proc/proc.c; syscall/loadelf.c and
      runprogram.c; vm/vm.c, vm/vmstats.c and sys__exit of main/main.c.
      Module [UserRead] of [VmFault]: the read of load_segment into user memory, through uiomove,
      copyout, the TLB and the page faults it takes, an instance of the class
      [UserIO] of [LoadElf].
    - [KFrame]: the allocators touch no state but their own.  [HeapInv],
      [HeapProof], [HeapOps], [HeapTrans], [HeapSafe]: the invariant of heap,
      pageref pool and frame list over ghost ownership, its transitions, the
      theorems on [kmalloc] and [kfree], and its preservation by every function of
      the allocators.  [Machine]: a concrete booted machine on which the model is
      evaluated; [HeapBoot]: it satisfies the invariant.  [VmProps],
      [FaultProps]: theorems on swapping and on faults, address spaces and loading.
      [Isolation]: the invariant of page table and TLB over a step relation of the
      memory system.
    - [Lamebus], [LamebusProps]: dev/lamebus/lamebus.c.  [Attach]: the _att.c
      files, ltrace.c and lnet.c.  [Lhd], [LhdProps]: dev/lamebus/lhd.c, and
      [Serial], [SerialProps]: lser.c with the console attached to it (con_lser.c),
      each as a step relation over threads, interrupt handler and device; the
      classes [LhdHw], [SerHw] are the registers and [LhdHwLaws], [SerHwLaws] what is
      known of the hardware.  [Screen]: lscreen.c and con_lscreen.c.  [Timer]:
      ltimer.c, rtclock_ltimer.c, beep_ltimer.c and beep.c.  [Random]: random.c,
      lrandom.c and random_lrandom.c.
    - [Trap], [TrapProps]:
      trap.c, syscall.c, time_syscalls.c, lamebus_machdep.c, cpu.c, rtclock.c,
      and shutdown and sys_reboot of main.c, over a record [machine] that joins
      the states of the other components; the class [Scheduler] is what an
      interrupt may do to threads, [PhysIO] what a load beyond memory gives.
    - [Console], [ConsoleProps], [Kgets]: console.c, beep.c, kgets.c and
      console_send of kprintf.c, with the reports of the output device as a list; the
      class [Tty] is what the line editor needs of
      a terminal.  [Panic]: kprintf, panic and badassert of kprintf.c.
      [Menu], [MenuProps]: main/menu.c.  [Emu], [EmuProps]:
      dev/lamebus/emu.c, an instance of [FileSystem] over the class [EmuHw] of
      the device's registers.
    - [KernTests], [ListTests]: test/bitmaptest.c, arraytest.c and threadlisttest.c,
      run against the components.  [SortProg], [UserProgs]: the user programs of
      testbin_code (sort.c; palin.c, ctest.c, huge.c, matmult.c, bigexec.c).

    Definitions carry the names of the C functions; a function whose recursion
    is tied elsewhere has a trailing underscore ([kmalloc_]), and the menu's
    commands are [do_quit] for cmd_quit and so on.

    ** What the theorems show

    - Memory: along every sequence of calls of the allocators what their clients
      own is pairwise disjoint and keeps its contents; [kmalloc] returns when a
      block is free, and [kfree] undoes it when a page with free blocks was there; frames are handed out zeroed, stolen
      memory is disjoint.
    - Paging: along sequences of steps of the memory system that leave out the
      listed defects (activating pid 1, overlapping segments, segments outside of user
      space or in page 0) no TLB entry ever leads to memory of the kernel or of another
      process; insertion into and removal from the TLB as operations on the
      partial map from pages to frames, equivalence of the two removal routines,
      fairness of replacement, minimality of the victim, the page-table update,
      the reload path of [vm_fault] whoever else has the same page, conservation of its
      statistics, and that what is swapped out comes back, whatever else is swapped meanwhile.
    - Traps: a trap that returns is invisible to the interrupted program but for
      the result of its system call; page faults resume exactly when they are
      resolved; the effect of the time and write calls on every branch, write with the
      page faults its loads take.
    - Interrupts and devices: an interrupt gives the slots their turns in order and runs
      the handlers of those asserted at the last reading of the lines; too many that
      nobody serves end in a panic, each CPU starts with its own number, and every
      driver is given its own devices in slot order.  The disk driver's sector
      operations are atomic and its calls cannot deadlock; characters leave the
      serial port and come in through it in order, and no wakeup is lost; the screen
      shows what a terminal shows; times are exact although a reading takes three
      loads; reading the random device skips and repeats nothing.
    - Threads: mutual exclusion and absence of failed assertions in every
      interleaving on a spinlock; conservation and no lost wakeup for
      semaphores; the doubly linked lists; every thread in exactly one place, no
      failed assertion and first-in first-out turns in the scheduler; the deadlock
      detector reports exactly the cycles.
    - File systems: on the devices and the semaphore file system, with memory left,
      every path operation balances its vnode references and leaves
      the big lock as it was; names of devices stay unique; path names are parsed
      by their grammar; SFS block maps, file I/O, directories as finite maps, and
      remounting; semaphore files; reading host files.
    - Console and menu: the input ring is a bounded queue, output arrives in
      order, the line editor returns the line its keys edit and shows it, and a
      command line runs the commands it is made of; a panic ends however many
      further panics its own steps cause.
    - Data: functional behaviour of arrays, bitmaps, user copies and uio; the
      kernel's unit tests of its data structures that fit in a page pass; what the user programs print.
    - Divergences of the code from its purpose, each a theorem: a fault on a
      page of another process panics; the TLB is not flushed when process 1 is
      switched to; data pages are not demand-loaded; replaced TLB entries are
      writable; a bad pointer passed to write panics; a retried block write is
      lost; truncation keeps a block too many; the big lock is kept when a host
      file cannot be loaded; pids wrap; a second timer may drive the timer clock; a
      console on the screen prints one character.

    ** Bounds

    Integers are [Z] with their C wrap-around written out.  [alloc_kpages] and
    [free_kpages] are mutually recursive through the heap and take fuel, one
    unit per nested page-function call; the theorems hold for every fuel, those
    that say the code returns included, except that evaluations on concrete
    states use 10, which the booted machine never exhausts.  Walks along pageref
    lists are bounded by the number of pagerefs (proved enough on a well-formed
    heap), loops of uio and arrays by the lengths involved, the line editor by the
    number of keys, and the loops over a command line by its length.

    ** Not modelled

    The order of start-up in boot() (each component's own bootstrap function is
    modelled), stack and register set-up for context switches (assembly and the
    frames it uses), printf formatting, elapsed-time statistics, the code generated
    by config, and the remaining tests, which start threads and print.  Sleep locks and
    condition variables are stubs in the source and do nothing.  Code runs to
    completion between the steps named above: interrupts inside the VM code are not
    represented, and the allocators' contracts for more than a page at a time are
    not stated ([alloc_kpages] does not give adjacent frames).  Devices are hardware: their laws are assumptions, each with an
    instance that satisfies them. *)

From stdpp Require Import base list gmap numbers strings.
From Stdlib Require Import ZArith Lia Btauto.

#[local] Open Scope Z_scope.

(* ------------------------------------------------------------------ *)
(** ** Fixed-width integers

    A C unsigned integer of width [w] is a [Z] in [0, 2^w); arithmetic that
    may leave the range is written with the explicit wrap-around [wrap w].
    [s32] reads a 32-bit pattern as a two's complement [int]. *)

Definition wrap (w x : Z) : Z := x mod 2 ^ w.
Definition u8 (x : Z) : Z := wrap 8 x.
Definition u16 (x : Z) : Z := wrap 16 x.
Definition u32 (x : Z) : Z := wrap 32 x.
Definition u64 (x : Z) : Z := wrap 64 x.
Definition s32 (x : Z) : Z :=
  if u32 x <? 2 ^ 31 then u32 x else u32 x - 2 ^ 32.

(** [x] is representable in [w] unsigned bits. *)
Definition fits (w x : Z) : Prop := 0 <= x < 2 ^ w.

(** [_Bool] conversion: zero is false, anything else is true. *)
Definition c_bool (x : Z) : bool := negb (x =? 0).
Definition b2z (b : bool) : Z := if b then 1 else 0.

(** The mask that C writes as [~k] on a [w]-bit unsigned operand. *)
Definition notw (w k : Z) : Z := 2 ^ w - 1 - k.

(** [DIVROUNDUP(a,b)] of include/lib.h on non-negative operands. *)
Definition DIVROUNDUP (a b : Z) : Z := (a + b - 1) / b.

(* ------------------------------------------------------------------ *)
(** ** Machine constants (arch/mips/include/vm.h) *)

Definition PAGE_SIZE : Z := 4096.
Definition PAGE_FRAME : Z := 0xfffff000.
Definition MIPS_KSEG0 : Z := 0x80000000.
Definition MIPS_KSEG1 : Z := 0xa0000000.
Definition PADDR_TO_KVADDR (paddr : Z) : Z := u32 (paddr + MIPS_KSEG0).

(** Error numbers (include/kern/errno.h) used by the modelled code. *)
Definition ENOSYS : Z := 1.
Definition ENOMEM : Z := 3.
Definition EFAULT : Z := 6.
Definition ENAMETOOLONG : Z := 7.
Definition EINVAL : Z := 8.
Definition ENOEXEC : Z := 13.
Definition ENOTDIR : Z := 17.
Definition ENOENT : Z := 19.
Definition EEXIST : Z := 22.
Definition ENODEV : Z := 25.
Definition EBUSY : Z := 27.
Definition ENOSPC : Z := 36.
Definition EFBIG : Z := 38.

(* ------------------------------------------------------------------ *)
(** ** Outcomes of kernel code and the state monad

    [Done a s]: the function returned [a] in state [s].  [Exited s]: the
    calling thread ended inside (it reached [thread_exit]).  [Panic why]: a
    [panic] call, a failed [KASSERT], or the kernel-mode fault of a NULL or
    dangling dereference.  [NoFuel]: the recursion bound of the model was
    reached; no C execution corresponds to it. *)

Inductive outcome (S A : Type) : Type :=
| Done (a : A) (s : S)
| Exited (s : S)
| Panic (why : string)
| NoFuel.
Arguments Done {S A} a s.
Arguments Exited {S A} s.
Arguments Panic {S A} why.
Arguments NoFuel {S A}.

Definition M (S A : Type) : Type := S → outcome S A.

#[export] Instance M_ret S : MRet (M S) := λ A a s, Done a s.
#[export] Instance M_bind S : MBind (M S) := λ A B k m s,
  match m s with
  | Done a s' => k a s'
  | Exited s' => Exited s'
  | Panic w => Panic w
  | NoFuel => NoFuel
  end.

Definition gets {S A} (f : S → A) : M S A := λ s, Done (f s) s.
Definition modify {S} (f : S → S) : M S unit := λ s, Done tt (f s).
Definition panic {S A} (why : string) : M S A := λ _, Panic why.
Definition kassert {S} (b : bool) (why : string) : M S unit :=
  if b then mret tt else panic why.
Definition nofuel {S A} : M S A := λ _, NoFuel.
(** Dereference: a missing object is a kernel fault. *)
Definition deref {S A} (f : S → option A) (why : string) : M S A := λ s,
  match f s with Some a => Done a s | None => Panic why end.

(** Run a computation on a part of the state. *)
Definition zoom {S T A} (get : S → T) (set : T → S → S) (m : M T A) : M S A :=
  λ s, match m (get s) with
       | Done a t => Done a (set t s)
       | Exited t => Exited (set t s)
       | Panic w => Panic w
       | NoFuel => NoFuel
       end.

(** [for (i = from; i < from + n; i++) body(i)]. *)
Fixpoint for_loop {S} (n : nat) (from : Z) (body : Z → M S unit) : M S unit :=
  match n with
  | O => mret tt
  | S n' => body from ;; for_loop n' (from + 1) body
  end.

(* ------------------------------------------------------------------ *)
(** ** Running code on a concrete state

    [after o s]: the state an outcome leaves, [s] when there is none. *)

Definition after {S A} (o : outcome S A) (s : S) : S :=
  match o with Done _ s' | Exited s' => s' | _ => s end.

Lemma after_done {S A} (o : outcome S A) s a :
  match o with Done a' _ => a' = a | _ => False end → o = Done a (after o s).
Proof. destruct o; naive_solver. Qed.

Lemma after_exited {S A} (o : outcome S A) s :
  match o with Exited _ => True | _ => False end → o = Exited (after o s).
Proof. by destruct o. Qed.

(* ------------------------------------------------------------------ *)
(** ** Partial and total correctness of monadic code

    [wlp m Q X s]: if [m] returns from [s] then [Q] holds of the result and
    the final state, and if the thread exits then [X] holds of the final
    state; panics and fuel exhaustion are allowed.  [twp m Q s]: [m] does
    return from [s], with [Q]. *)

Definition wlp {S A} (m : M S A) (Q : A → S → Prop) (X : S → Prop) (s : S) : Prop :=
  match m s with
  | Done a s' => Q a s'
  | Exited s' => X s'
  | Panic _ | NoFuel => True
  end.

Definition twp {S A} (m : M S A) (Q : A → S → Prop) (s : S) : Prop :=
  match m s with Done a s' => Q a s' | _ => False end.

(** [m] preserves [I] whether it returns or exits. *)
Definition preserves {S A} (I : S → Prop) (m : M S A) : Prop :=
  ∀ s, I s → wlp m (λ _, I) I s.

Section wlp_rules.
Context {S A B : Type}.
Implicit Types (m : M S A) (k : A → M S B) (X : S → Prop).

Lemma wlp_ret (a : A) (Q : A → S → Prop) X s : Q a s → wlp (mret a) Q X s.
Proof. done. Qed.

Lemma wlp_bind m k (Q : B → S → Prop) X s :
  wlp m (λ a, wlp (k a) Q X) X s → wlp (m ≫= k) Q X s.
Proof. unfold wlp, mbind, M_bind. by destruct (m s). Qed.

Lemma wlp_mono m (Q Q' : A → S → Prop) (X X' : S → Prop) s :
  (∀ a s', Q a s' → Q' a s') → (∀ s', X s' → X' s') →
  wlp m Q X s → wlp m Q' X' s.
Proof. unfold wlp. destruct (m s); naive_solver. Qed.

Lemma wlp_gets (f : S → A) (Q : A → S → Prop) X s :
  Q (f s) s → wlp (gets f) Q X s.
Proof. done. Qed.

Lemma wlp_modify f (Q : unit → S → Prop) X s :
  Q tt (f s) → wlp (modify f) Q X s.
Proof. done. Qed.

Lemma wlp_panic why (Q : A → S → Prop) X s : wlp (panic why) Q X s.
Proof. done. Qed.

Lemma wlp_nofuel (Q : A → S → Prop) X s : wlp nofuel Q X s.
Proof. done. Qed.

Lemma wlp_kassert b why (Q : unit → S → Prop) X s :
  (b = true → Q tt s) → wlp (kassert b why) Q X s.
Proof. destruct b; unfold kassert, wlp; naive_solver. Qed.

Lemma wlp_deref (f : S → option A) why (Q : A → S → Prop) X s :
  (∀ a, f s = Some a → Q a s) → wlp (deref f why) Q X s.
Proof. unfold wlp, deref. destruct (f s); naive_solver. Qed.

Lemma wlp_done m (Q : A → S → Prop) X s a s' :
  m s = Done a s' → wlp m Q X s → Q a s'.
Proof. unfold wlp. by intros ->. Qed.

Lemma wlp_exited m (Q : A → S → Prop) X s s' :
  m s = Exited s' → wlp m Q X s → X s'.
Proof. unfold wlp. by intros ->. Qed.

Lemma twp_bind m k (Q : B → S → Prop) s :
  twp m (λ a, twp (k a) Q) s → twp (m ≫= k) Q s.
Proof. unfold twp, mbind, M_bind. by destruct (m s). Qed.

Lemma twp_mono m (Q Q' : A → S → Prop) s :
  (∀ a s', Q a s' → Q' a s') → twp m Q s → twp m Q' s.
Proof. unfold twp. destruct (m s); naive_solver. Qed.

Lemma twp_ex m (Q : A → S → Prop) s :
  twp m Q s ↔ ∃ a s', m s = Done a s' ∧ Q a s'.
Proof. unfold twp. destruct (m s); naive_solver. Qed.

Lemma bind_done_inv m k s b s' :
  (m ≫= k) s = Done b s' → ∃ a s1, m s = Done a s1 ∧ k a s1 = Done b s'.
Proof. unfold mbind, M_bind. destruct (m s); naive_solver. Qed.
End wlp_rules.

Lemma wlp_for_loop {S} (I : Z → S → Prop) (X : S → Prop) body n from s :
  I from s →
  (∀ i s', from <= i < from + Z.of_nat n → I i s' →
     wlp (body i) (λ _, I (i + 1)) X s') →
  wlp (for_loop n from body) (λ _, I (from + Z.of_nat n)) X s.
Proof.
  revert from s. induction n as [|n IH]; intros from s HI Hb; simpl.
  - apply wlp_ret. by rewrite Z.add_0_r.
  - apply wlp_bind. eapply wlp_mono; [| done | apply Hb; [lia | done]].
    intros [] s' HI'. rewrite Nat2Z.inj_succ, <- Z.add_1_l, Z.add_assoc.
    apply IH; [done |]. intros i s'' Hi. apply Hb. lia.
Qed.

(** Invariant steps: [wstep] applies the rule for the head of a computation. *)
Ltac wstep :=
  lazymatch goal with
  | |- wlp (mbind _ _) _ _ _ => apply wlp_bind
  | |- wlp (mret _) _ _ _ => apply wlp_ret
  | |- wlp (panic _) _ _ _ => apply wlp_panic
  | |- wlp nofuel _ _ _ => apply wlp_nofuel
  | |- wlp (gets _) _ _ _ => apply wlp_gets
  | |- wlp (modify _) _ _ _ => apply wlp_modify
  | |- wlp (kassert _ _) _ _ _ => apply wlp_kassert; intros ?
  | |- wlp (deref _ _) _ _ _ => apply wlp_deref; intros ? ?
  end.
Ltac wsteps := repeat wstep.

(** Unfold straight-line monadic code for evaluation. *)
Ltac mrun :=
  unfold gets, modify, kassert, deref, panic, zoom, mbind, M_bind, mret, M_ret, id.

(** Case analysis on the head conditional of a goal. *)
Ltac case_if :=
  match goal with
  | |- context [if ?b then _ else _] => destruct b eqn:?
  end.

(** Turn boolean comparisons among the hypotheses into propositions. *)
Ltac zbool :=
  repeat match goal with
  | H : _ && _ = true |- _ => apply andb_prop in H as [? ?]
  | H : (_ || _)%bool = false |- _ => apply orb_false_elim in H as [? ?]
  | H : negb _ = true |- _ => apply negb_true_iff in H
  | H : negb _ = false |- _ => apply negb_false_iff in H
  | H : (_ =? _) = true |- _ => apply Z.eqb_eq in H
  | H : (_ =? _) = false |- _ => apply Z.eqb_neq in H
  | H : (_ <? _) = true |- _ => apply Z.ltb_lt in H
  | H : (_ <? _) = false |- _ => apply Z.ltb_ge in H
  | H : (_ <=? _) = true |- _ => apply Z.leb_le in H
  | H : (_ <=? _) = false |- _ => apply Z.leb_gt in H
  end.

(** Linear arithmetic up to the page and segment constants. *)
Ltac zlia := unfold fits, PAGE_SIZE, MIPS_KSEG0, MIPS_KSEG1 in *; lia.

(** ** Code that does not change a part of the state

    [keeps v m]: whenever [m] returns or exits, the view [v] of the state is what
    it was.  The rules follow the structure of the code, and [keeps_auto] applies
    them, using the lemmas of the hint database [keeps] for calls. *)

Definition keeps {S A B} (v : S → B) (m : M S A) : Prop :=
  ∀ s, wlp m (λ _ s', v s' = v s) (λ s', v s' = v s) s.

Section keeps.
Context {S A B C : Type} (v : S → C).
Implicit Types m : M S A.

Lemma keeps_ret (a : A) : keeps v (mret a).
Proof. done. Qed.
Lemma keeps_gets (f : S → A) : keeps v (gets f).
Proof. done. Qed.
Lemma keeps_panic w : keeps v (panic w : M S A).
Proof. done. Qed.
Lemma keeps_nofuel : keeps v (nofuel : M S A).
Proof. done. Qed.
Lemma keeps_kassert b w : keeps v (kassert b w).
Proof. by destruct b. Qed.
Lemma keeps_deref (f : S → option A) w : keeps v (deref f w).
Proof. intros s. unfold wlp, deref. by destruct (f s). Qed.
Lemma keeps_modify f : (∀ s, v (f s) = v s) → keeps v (modify f).
Proof. intros H s. apply H. Qed.
Lemma keeps_bind m (k : A → M S B) :
  keeps v m → (∀ a, keeps v (k a)) → keeps v (m ≫= k).
Proof.
  intros Hm Hk s. apply wlp_bind. eapply wlp_mono; [| | apply Hm]; [| done].
  simpl. intros a s' <-. apply Hk.
Qed.
Lemma keeps_for n (body : Z → M S unit) :
  (∀ i, keeps v (body i)) → ∀ from, keeps v (for_loop n from body).
Proof.
  intros Hb. induction n as [|n IH]; intros from; simpl; [done |].
  intros s. apply wlp_bind. eapply wlp_mono; [| | apply Hb]; [| done].
  simpl. intros [] s' <-. apply IH.
Qed.
Lemma keeps_zoom {T} (get : S → T) (set : T → S → S) (m : M T A) :
  (∀ t s, v (set t s) = v s) → keeps v (zoom get set m).
Proof. intros H s. unfold wlp, zoom. destruct (m (get s)); done || apply H. Qed.
Lemma keeps_done m s a s' : keeps v m → m s = Done a s' → v s' = v s.
Proof. intros H E. specialize (H s). unfold wlp in H. by rewrite E in H. Qed.
End keeps.

Create HintDb keeps discriminated.
#[export] Hint Resolve keeps_ret keeps_gets keeps_panic keeps_nofuel keeps_kassert
  keeps_deref : keeps.
Ltac keeps_step :=
  match goal with
  | |- keeps _ (mbind _ _) => apply keeps_bind; [| intros ?]
  | |- keeps _ (for_loop _ _ _) => apply keeps_for; intros ?
  | |- keeps _ (if ?b then _ else _) => destruct b
  | |- keeps _ (match ?x with _ => _ end) => destruct x
  | |- keeps _ (let _ := _ in _) => intros ?
  end.
Ltac keeps_auto := repeat (keeps_step || solve [auto with keeps]).

(** ** Code that preserves an invariant

    The same structural rules for [preserves]; code that keeps the part of the
    state the invariant speaks of preserves it. *)

Section preserves.
Context {S A B : Type} (I : S → Prop).
Implicit Types m : M S A.

Lemma preserves_ret (a : A) : preserves I (mret a).
Proof. by intros s H. Qed.
Lemma preserves_bind m (k : A → M S B) :
  preserves I m → (∀ a, preserves I (k a)) → preserves I (m ≫= k).
Proof.
  intros Hm Hk s Hs. apply wlp_bind. eapply wlp_mono; [| | by apply Hm]; [| done].
  intros a s' Hs'. by apply Hk.
Qed.
Lemma preserves_modify f : (∀ s, I s → I (f s)) → preserves I (modify f).
Proof. intros H s Hs. by apply H. Qed.
Lemma preserves_for n (body : Z → M S unit) :
  (∀ i, preserves I (body i)) → ∀ from, preserves I (for_loop n from body).
Proof.
  intros Hb. induction n as [|n IH]; intros from s Hs; simpl; [done |].
  apply wlp_bind. eapply wlp_mono; [| | by apply Hb]; [| done]. intros [] s' Hs'. by apply IH.
Qed.
Lemma keeps_preserves {C} (v : S → C) (P : C → Prop) m :
  keeps v m → preserves (λ s, P (v s)) m.
Proof.
  intros Hm s Hs. eapply wlp_mono; [| | apply Hm]; simpl; [intros _ |]; by intros s' ->.
Qed.
Lemma preserves_done m s a s' : preserves I m → I s → m s = Done a s' → I s'.
Proof. intros Hm Hs E. specialize (Hm s Hs). unfold wlp in Hm. by rewrite E in Hm. Qed.
End preserves.

Create HintDb preserves discriminated.
#[export] Hint Resolve preserves_ret : preserves.
Ltac preserves_step :=
  match goal with
  | |- preserves _ (mbind _ _) => apply preserves_bind; [| intros ?]
  | |- preserves _ (for_loop _ _ _) => apply preserves_for; intros ?
  | |- preserves _ (if ?b then _ else _) => destruct b
  | |- preserves _ (match ?x with _ => _ end) => destruct x
  | |- preserves _ (let _ := _ in _) => intros ?
  end.
(** [keep] proves that a call keeps the part the invariant reads. *)
Ltac preserves_auto_with keep :=
  repeat (solve [auto with preserves] || solve [keep] || preserves_step).

(* ------------------------------------------------------------------ *)
(** ** First-match search: [for (i...) if (p(l[i])) return i;] *)

Fixpoint first_index {A} (p : A → bool) (l : list A) : option nat :=
  match l with
  | [] => None
  | x :: l' => if p x then Some O else S <$> first_index p l'
  end.

Section first_index.
Context {A : Type} (p : A → bool).
Implicit Types l : list A.

Lemma first_index_Some l i :
  first_index p l = Some i ↔
  ∃ x, l !! i = Some x ∧ p x = true ∧
       ∀ j y, (j < i)%nat → l !! j = Some y → p y = false.
Proof.
  revert i. induction l as [|a l IH]; intros i; simpl; [naive_solver |].
  destruct (p a) eqn:Ha.
  - split.
    + intros [= <-]. exists a. repeat split; [done | lia].
    + intros (x & Hx & Hp & Hall). destruct i as [|i]; [done |].
      assert (p a = false) by (apply (Hall O a); [lia | done]). congruence.
  - destruct i as [|i].
    + split; [destruct (first_index p l); simpl; congruence |].
      intros (x & [= <-] & Hp & _). congruence.
    + transitivity (first_index p l = Some i).
      { destruct (first_index p l); simpl; naive_solver. }
      rewrite IH. split; intros (x & Hx & Hp & Hall); exists x;
        (repeat split; [done | done |]).
      * intros [|j] y Hj Hy; simpl in Hy; [congruence |].
        apply (Hall j); [lia | done].
      * intros j y Hj Hy. apply (Hall (S j) y); [lia | done].
Qed.

Lemma first_index_None l :
  first_index p l = None ↔ ∀ x, x ∈ l → p x = false.
Proof.
  induction l as [|a l IH]; simpl.
  { split; [| done]. intros _ x Hx. by apply elem_of_nil in Hx. }
  destruct (p a) eqn:Ha.
  { split; [done |]. intros H. rewrite (H a) in Ha; [done | left]. }
  transitivity (first_index p l = None).
  { destruct (first_index p l); simpl; naive_solver. }
  rewrite IH. split; intros H x Hx.
  - apply elem_of_cons in Hx as [-> | Hx]; auto.
  - apply H. by right.
Qed.

Lemma first_index_lookup l i :
  first_index p l = Some i → ∃ x, l !! i = Some x ∧ p x = true.
Proof. rewrite first_index_Some. naive_solver. Qed.

Lemma first_index_lt l i : first_index p l = Some i → (i < length l)%nat.
Proof.
  intros (x & Hx & _)%first_index_lookup. by apply lookup_lt_Some in Hx.
Qed.

Lemma first_index_exists l :
  (∃ x, x ∈ l ∧ p x = true) → is_Some (first_index p l).
Proof.
  intros (x & Hx & Hp). destruct (first_index p l) eqn:E; [eauto |].
  rewrite first_index_None in E. rewrite (E _ Hx) in Hp. done.
Qed.
End first_index.

(* ------------------------------------------------------------------ *)
(** ** Counting the entries of an array that satisfy a test *)

Fixpoint countb {A} (p : A → bool) (l : list A) : Z :=
  match l with
  | [] => 0
  | x :: l' => b2z (p x) + countb p l'
  end.

Section countb.
Context {A : Type} (p : A → bool).
Implicit Types l : list A.

Lemma countb_range l : 0 <= countb p l <= Z.of_nat (length l).
Proof.
  induction l as [|x l IH]; cbn [countb length]; [lia |].
  unfold b2z. destruct (p x); lia.
Qed.

Lemma countb_insert l i x y :
  l !! i = Some y → countb p (<[i:=x]> l) = countb p l - b2z (p y) + b2z (p x).
Proof.
  revert i. induction l as [|a l IH]; intros [|i] Hi; try done.
  - injection Hi as ->. cbn. lia.
  - simpl in Hi. change (<[S i:=x]> (a :: l)) with (a :: <[i:=x]> l).
    cbn [countb]. rewrite (IH i) by done. lia.
Qed.

Lemma countb_zero l : countb p l = 0 ↔ ∀ x, x ∈ l → p x = false.
Proof.
  induction l as [|a l IH]; cbn [countb].
  { split; [| done]. intros _ x Hx. by apply elem_of_nil in Hx. }
  pose proof (countb_range l). unfold b2z. destruct (p a) eqn:Ha.
  - split; [lia |]. intros H'. rewrite (H' a) in Ha; [done | left].
  - rewrite Z.add_0_l, IH. split; intros H' x Hx.
    + apply elem_of_cons in Hx as [-> | Hx]; auto.
    + apply H'. by right.
Qed.

Lemma countb_all l :
  (∀ x, x ∈ l → p x = true) → countb p l = Z.of_nat (length l).
Proof.
  induction l as [|a l IH]; intros H; [done |]. cbn [countb length].
  rewrite (H a) by left. rewrite IH; [unfold b2z; lia |].
  intros x Hx. apply H. by right.
Qed.
End countb.

(* ------------------------------------------------------------------ *)
(** ** Arithmetic of words, pages and masks *)

Lemma wrap_small w x : fits w x → wrap w x = x.
Proof. unfold fits, wrap. apply Z.mod_small. Qed.

Lemma wrap_fits w x : 0 <= w → fits w (wrap w x).
Proof.
  intros Hw. unfold fits, wrap. apply Z.mod_pos_bound.
  by apply Z.pow_pos_nonneg.
Qed.

Lemma u32_small x : 0 <= x < 2 ^ 32 → u32 x = x.
Proof. apply wrap_small. Qed.

Lemma u32_fits x : 0 <= u32 x < 2 ^ 32.
Proof. apply (wrap_fits 32). lia. Qed.

Lemma u16_small x : 0 <= x < 2 ^ 16 → u16 x = x.
Proof. apply wrap_small. Qed.

Lemma u8_small x : 0 <= x < 2 ^ 8 → u8 x = x.
Proof. apply wrap_small. Qed.

(** [x & PAGE_FRAME] clears the page offset. *)
Lemma land_PAGE_FRAME x :
  0 <= x < 2 ^ 32 → Z.land x PAGE_FRAME = x - x mod PAGE_SIZE.
Proof.
  intros Hx. unfold PAGE_FRAME, PAGE_SIZE.
  change 0xfffff000 with (Z.shiftl (Z.ones 20) 12).
  rewrite <- (Z.mod_small x (2 ^ 32)) at 1 by done.
  rewrite <- Z.land_ones by lia.
  rewrite <- Z.land_assoc.
  replace (Z.land (Z.ones 32) (Z.shiftl (Z.ones 20) 12))
    with (Z.shiftl (Z.ones 20) 12) by done.
  transitivity (Z.shiftl (Z.shiftr x 12) 12).
  - apply Z.bits_inj'. intros i Hi.
    rewrite Z.land_spec, !Z.shiftl_spec by lia.
    destruct (Z.ltb_spec i 12).
    + rewrite !(Z.testbit_neg_r _ (i - 12)) by lia. by rewrite andb_false_r.
    + rewrite Z.shiftr_spec by lia. replace (i - 12 + 12) with i by lia.
      destruct (Z.ltb_spec i 32).
      * rewrite Z.ones_spec_low by lia. by rewrite andb_true_r.
      * rewrite Z.ones_spec_high by lia. rewrite andb_false_r. symmetry.
        rewrite <- (Z.mod_small x (2 ^ 32)) by done.
        apply Z.mod_pow2_bits_high. lia.
  - rewrite Z.shiftl_mul_pow2, Z.shiftr_div_pow2 by lia.
    pose proof (Z.div_mod x 4096). change (2 ^ 12) with 4096. lia.
Qed.

Lemma land_PAGE_FRAME_aligned x :
  0 <= x < 2 ^ 32 → x mod PAGE_SIZE = 0 → Z.land x PAGE_FRAME = x.
Proof. intros Hx Hm. rewrite land_PAGE_FRAME by done. lia. Qed.

Lemma page_addr_div i o :
  0 <= o < PAGE_SIZE → (i * PAGE_SIZE + o) / PAGE_SIZE = i.
Proof.
  intros Ho. rewrite Z.add_comm, Z.div_add by done.
  by rewrite Z.div_small.
Qed.

Create HintDb kernel discriminated.
#[export] Hint Resolve u32_small u32_fits : kernel.
