(* ===== verification/Bswap.v ===== *)
(** * Byte order (lib/bswap.c)

    [bswap16], [bswap32], [bswap64] and the 64-bit join/split helpers, with
    every mask and shift as the source writes it.  The platform is big-endian
    (the only one the file supports at present), so the [hton]/[ntoh] family is
    the identity and [join32to64] puts the first word in the high half. *)

From stdpp Require Import base numbers.
From Stdlib Require Import ZArith Lia.
From S2P Require Import Prelude.

#[local] Open Scope Z_scope.

Module Bswap.

Definition bswap16 (val : Z) : Z :=
  u16 (Z.lor (Z.shiftl (Z.land val 0x00ff) 8)
             (Z.shiftr (Z.land val 0xff00) 8)).

Definition bswap32 (val : Z) : Z :=
  Z.lor (Z.lor (Z.lor
    (u32 (Z.shiftl (Z.land val 0x000000ff) 24))
    (u32 (Z.shiftl (Z.land val 0x0000ff00) 8)))
    (Z.shiftr (Z.land val 0x00ff0000) 8))
    (Z.shiftr (Z.land val 0xff000000) 24).

Definition bswap64 (val : Z) : Z :=
  Z.lor (Z.lor (Z.lor (Z.lor (Z.lor (Z.lor (Z.lor
    (u64 (Z.shiftl (Z.land val 0x00000000000000ff) 56))
    (u64 (Z.shiftl (Z.land val 0x000000000000ff00) 40)))
    (u64 (Z.shiftl (Z.land val 0x0000000000ff0000) 24)))
    (u64 (Z.shiftl (Z.land val 0x00000000ff000000) 8)))
    (u64 (Z.shiftl (Z.land val 0x000000ff00000000) 8)))
    (u64 (Z.shiftl (Z.land val 0x0000ff0000000000) 24)))
    (Z.shiftr (Z.land val 0x00ff000000000000) 40))
    (Z.shiftr (Z.land val 0xff00000000000000) 56).

(** Big-endian host: network order is host order. *)
Definition ntohs (val : Z) : Z := val.
Definition htons (val : Z) : Z := val.
Definition ntohl (val : Z) : Z := val.
Definition htonl (val : Z) : Z := val.
Definition ntohll (val : Z) : Z := val.
Definition htonll (val : Z) : Z := val.

Definition join32to64 (x1 x2 : Z) : Z :=
  Z.lor (u64 (Z.shiftl x1 32)) x2.

Definition split64to32 (x : Z) : Z * Z :=
  (u32 (Z.shiftr x 32), u32 (Z.land x 0xffffffff)).

(** ** Byte-level specification *)

(** Byte [k] of [x], counted from the least significant one. *)
Definition byte (k x : Z) : Z := (x / 2 ^ (8 * k)) mod 256.

(** Bit [i] of [x] after reversing the order of the [n] bytes of a word. *)
Definition rev_bit (n i : Z) : Z := 8 * (n - 1 - i / 8) + i mod 8.

Lemma byte_testbit k x j :
  0 <= k → 0 <= j < 8 → Z.testbit (byte k x) j = Z.testbit x (8 * k + j).
Proof.
  intros Hk Hj. unfold byte. change 256 with (2 ^ 8).
  rewrite Z.mod_pow2_bits_low, Z.div_pow2_bits by lia. f_equal. lia.
Qed.

Lemma byte_high k x j : 8 <= j → Z.testbit (byte k x) j = false.
Proof.
  intros Hj. unfold byte. change 256 with (2 ^ 8).
  apply Z.mod_pow2_bits_high. lia.
Qed.

Lemma byte_ext k k' x y :
  0 <= k → 0 <= k' →
  (∀ j, 0 <= j < 8 → Z.testbit x (8 * k + j) = Z.testbit y (8 * k' + j)) →
  byte k x = byte k' y.
Proof.
  intros Hk Hk' H. apply Z.bits_inj'. intros j Hj.
  destruct (Z.ltb_spec j 8).
  - rewrite !byte_testbit by lia. apply H. lia.
  - by rewrite !byte_high.
Qed.

(** Push [Z.testbit] through the word operations at a concrete index. *)
Ltac push_testbit :=
  unfold u16, u32, u64, wrap;
  repeat first
    [ rewrite Z.lor_spec | rewrite Z.land_spec
    | rewrite Z.mod_pow2_bits_low by lia
    | rewrite Z.mod_pow2_bits_high by lia
    | rewrite Z.shiftl_spec by lia | rewrite Z.shiftr_spec by lia ].

(** Evaluate the test bits of the numeric masks, leaving those of [x]. *)
Ltac eval_masks :=
  repeat match goal with
  | |- context [Z.testbit (Zpos ?p) ?i] =>
      let b := eval vm_compute in (Z.testbit (Zpos p) i) in
      change (Z.testbit (Zpos p) i) with b
  end;
  rewrite ?andb_true_r, ?andb_false_r, ?orb_false_r, ?orb_false_l.

(** Split a bounded index into its concrete values. *)
Ltac enum_index j :=
  match goal with
  | H : ?a <= j < ?b |- _ =>
      let t := eval vm_compute in (Z.ltb a b) in
      lazymatch t with
      | true =>
        let a' := eval vm_compute in (a + 1) in
        destruct (decide (j = a)) as [-> | ?];
        [clear H | assert (a' <= j < b) by lia; clear H; enum_index j]
      | false => exfalso; lia
      end
  end.

Lemma bswap16_testbit x i :
  0 <= i < 16 → Z.testbit (bswap16 x) i = Z.testbit x (rev_bit 2 i).
Proof.
  intros Hi. enum_index i; unfold bswap16; push_testbit; simpl Z.sub;
    simpl Z.add; rewrite ?Z.testbit_neg_r by lia; eval_masks; done.
Qed.

Lemma bswap32_testbit x i :
  0 <= i < 32 → Z.testbit (bswap32 x) i = Z.testbit x (rev_bit 4 i).
Proof.
  intros Hi. enum_index i; unfold bswap32; push_testbit; simpl Z.sub;
    simpl Z.add; rewrite ?Z.testbit_neg_r by lia; eval_masks; done.
Qed.

Lemma bswap32_high x i :
  fits 32 x → 32 <= i → Z.testbit (bswap32 x) i = false.
Proof.
  intros Hx Hi. unfold bswap32. push_testbit.
  rewrite <- (wrap_small 32 x) by done. unfold wrap.
  rewrite !Z.mod_pow2_bits_high by lia. done.
Qed.

Lemma bswap16_high x i : 16 <= i → Z.testbit (bswap16 x) i = false.
Proof. intros Hi. unfold bswap16. push_testbit. done. Qed.

Lemma rev_bit_range n i : 0 <= i < 8 * n → 0 <= rev_bit n i < 8 * n.
Proof.
  intros Hi. unfold rev_bit.
  pose proof (Z.mod_pos_bound i 8). pose proof (Z.div_mod i 8). lia.
Qed.

Lemma rev_bit_invol n i : 0 <= i < 8 * n → rev_bit n (rev_bit n i) = i.
Proof.
  intros Hi. unfold rev_bit.
  pose proof (Z.mod_pos_bound i 8 ltac:(lia)) as Hm.
  set (q := n - 1 - i / 8).
  assert ((8 * q + i mod 8) / 8 = q) as ->.
  { symmetry. by apply (Z.div_unique _ _ _ (i mod 8)); [left |]. }
  assert ((8 * q + i mod 8) mod 8 = i mod 8) as ->.
  { symmetry. by apply (Z.mod_unique _ _ q); [left |]. }
  subst q. pose proof (Z.div_mod i 8). lia.
Qed.

Lemma fits_high w x i : fits w x → 0 <= w <= i → Z.testbit x i = false.
Proof.
  intros Hx Hi. rewrite <- (wrap_small w x) by done. unfold wrap.
  apply Z.mod_pow2_bits_high. lia.
Qed.

(** ** Properties *)

(** C: reversing the two bytes twice restores a 16-bit value. *)
Theorem bswap16_involutive x : fits 16 x → bswap16 (bswap16 x) = x.
Proof.
  intros Hx. apply Z.bits_inj'. intros i Hi. destruct (Z.ltb_spec i 16).
  - pose proof (rev_bit_range 2 i).
    rewrite !bswap16_testbit, rev_bit_invol by lia. done.
  - rewrite bswap16_high by lia. symmetry. apply (fits_high 16); [done | lia].
Qed.

Theorem bswap32_reverses_bytes x k :
  0 <= k < 4 → byte k (bswap32 x) = byte (3 - k) x.
Proof.
  intros Hk. apply byte_ext; [lia.. |]. intros j Hj.
  rewrite bswap32_testbit by lia. f_equal. unfold rev_bit.
  rewrite <- (Z.div_unique (8 * k + j) 8 k j) by lia.
  rewrite <- (Z.mod_unique (8 * k + j) 8 k j) by lia. lia.
Qed.

Lemma bswap32_fits x : fits 32 x → fits 32 (bswap32 x).
Proof.
  intros Hx. rewrite <- (wrap_small 32 (bswap32 x)) at 1.
  - by apply wrap_fits.
  - assert (bswap32 x = wrap 32 (bswap32 x)) as ->; [| by apply wrap_fits].
    apply Z.bits_inj'. intros i Hi. unfold wrap. destruct (Z.ltb_spec i 32).
    + by rewrite Z.mod_pow2_bits_low by lia.
    + rewrite Z.mod_pow2_bits_high by lia. by apply bswap32_high.
Qed.

Theorem bswap32_involutive x : fits 32 x → bswap32 (bswap32 x) = x.
Proof.
  intros Hx. apply Z.bits_inj'. intros i Hi. destruct (Z.ltb_spec i 32).
  - pose proof (rev_bit_range 4 i).
    rewrite !bswap32_testbit, rev_bit_invol by lia. done.
  - rewrite bswap32_high by (try apply bswap32_fits; done).
    symmetry. apply (fits_high 32); [done | lia].
Qed.

(** The shift directions of the middle two bytes are wrong in [bswap64]: byte
    4 of the argument is moved up to byte 5 and byte 5 is shifted out, so bytes
    2 and 3 of the result are zero for every argument. *)
Theorem bswap64_loses_bytes x :
  byte 2 (bswap64 x) = 0 ∧ byte 3 (bswap64 x) = 0.
Proof.
  assert (∀ i, 16 <= i < 32 → Z.testbit (bswap64 x) i = false) as Hz.
  { intros i Hi. enum_index i; unfold bswap64; push_testbit; simpl Z.sub;
      simpl Z.add; rewrite ?Z.testbit_neg_r by lia; eval_masks; done. }
  split; apply Z.bits_inj'; intros j Hj; rewrite Z.bits_0;
    (destruct (Z.ltb_spec j 8);
      [rewrite byte_testbit by lia; apply Hz; lia | by apply byte_high]).
Qed.

(** Splitting a 64-bit value and joining the halves gives the value back. *)
Theorem join_split_64 x :
  fits 64 x → let (y1, y2) := split64to32 x in join32to64 y1 y2 = x.
Proof.
  intros Hx. unfold split64to32, join32to64. apply Z.bits_inj'. intros i Hi.
  change 0xffffffff with (Z.ones 32).
  destruct (Z.ltb_spec i 32) as [Hlo | Hlo].
  - push_testbit. rewrite (Z.testbit_neg_r _ (i - 32)) by lia.
    rewrite Z.ones_spec_low by lia. by rewrite andb_true_r.
  - destruct (Z.ltb_spec i 64) as [Hm | Hm].
    + push_testbit. rewrite orb_false_r. f_equal. lia.
    + push_testbit. symmetry. apply (fits_high 64); [done | lia].
Qed.

Theorem split_join_64 x1 x2 :
  fits 32 x1 → fits 32 x2 → split64to32 (join32to64 x1 x2) = (x1, x2).
Proof.
  intros H1 H2. unfold split64to32, join32to64.
  change 0xffffffff with (Z.ones 32).
  f_equal; apply Z.bits_inj'; intros i Hi;
    (destruct (Z.ltb_spec i 32);
      [| push_testbit; symmetry; apply (fits_high 32); [done | lia]]).
  - push_testbit. rewrite (fits_high 32 x2 (i + 32)) by (done || lia).
    rewrite orb_false_r. f_equal. lia.
  - push_testbit. rewrite (Z.testbit_neg_r _ (i - 32)) by lia.
    rewrite Z.ones_spec_low by lia. by rewrite andb_true_r.
Qed.

End Bswap.
