(* ===== verification/Time.v ===== *)
(** * Time values (lib/time.c)

    A [timespec] is a number of seconds and nanoseconds; seconds are 64-bit and
    nanoseconds 32-bit signed integers.  The arithmetic is on unbounded
    integers; the theorems show that on normalised operands the intermediate
    nanoseconds stay within 32 bits. *)

From stdpp Require Import base numbers.
From Stdlib Require Import ZArith Lia.
From S2P Require Import Prelude.

#[local] Open Scope Z_scope.

Module Time.

Record timespec := mkTs { tv_sec : Z; tv_nsec : Z }.

Definition timespec_add (ts1 ts2 : timespec) : timespec :=
  let nsec := tv_nsec ts1 + tv_nsec ts2 in
  let sec := tv_sec ts1 + tv_sec ts2 in
  if 1000000000 <=? nsec then mkTs (sec + 1) (nsec - 1000000000) else mkTs sec nsec.

Definition timespec_sub (ts1 ts2 : timespec) : timespec :=
  let r := if tv_nsec ts1 <? tv_nsec ts2
           then mkTs (tv_sec ts1 - 1) (tv_nsec ts1 + 1000000000) else ts1 in
  mkTs (tv_sec r - tv_sec ts2) (tv_nsec r - tv_nsec ts2).

Definition normal (t : timespec) : Prop := 0 <= tv_nsec t < 1000000000.

(** The instant in nanoseconds. *)
Definition nanos (t : timespec) : Z := tv_sec t * 1000000000 + tv_nsec t.

Lemma normal_unique t t' : normal t → normal t' → nanos t = nanos t' → t = t'.
Proof. destruct t, t'. unfold normal, nanos. simpl. intros. f_equal; lia. Qed.

(** Both operations keep normalised values normalised, compute the sum and the
    difference of the instants, and need no more than 32 bits for the
    nanoseconds on the way. *)
Theorem timespec_arith a b :
  normal a → normal b →
  normal (timespec_add a b) ∧ nanos (timespec_add a b) = nanos a + nanos b ∧
  normal (timespec_sub a b) ∧ nanos (timespec_sub a b) = nanos a - nanos b ∧
  tv_nsec a + tv_nsec b < 2 ^ 31 ∧ tv_nsec a + 1000000000 < 2 ^ 31.
Proof.
  destruct a as [sa na], b as [sb nb].
  unfold normal, nanos, timespec_add, timespec_sub. simpl. intros Ha Hb.
  destruct (Z.leb_spec 1000000000 (na + nb)), (Z.ltb_spec na nb); simpl; lia.
Qed.

(** Subtracting what was added gives the value back. *)
Theorem timespec_add_sub a b :
  normal a → normal b → timespec_sub (timespec_add a b) b = a.
Proof.
  intros Ha Hb. destruct a as [sa na], b as [sb nb].
  unfold normal, timespec_add, timespec_sub in *. simpl in *.
  destruct (Z.leb_spec 1000000000 (na + nb)); simpl;
    [destruct (Z.ltb_spec (na + nb - 1000000000) nb) | destruct (Z.ltb_spec (na + nb) nb)];
    simpl; try lia; f_equal; lia.
Qed.

Lemma timespec_add_sub_witness :
  normal (mkTs 3 999999999) ∧ timespec_sub (timespec_add (mkTs 3 999999999) (mkTs 1 5)) (mkTs 1 5) = mkTs 3 999999999.
Proof.
  split; [unfold normal; simpl; lia |].
  apply (timespec_add_sub (mkTs 3 999999999) (mkTs 1 5)); unfold normal; simpl; lia.
Defined.

End Time.
