(* ===== verification/Timer.v ===== *)
(** * The timer card (dev/lamebus/ltimer.c) and the clock and beep devices attached to it
      (rtclock_ltimer.c, beep_ltimer.c, config_beep and beep of dev/generic/beep.c)

    The card is hardware: class [TimerHw] has its registers, and time passes between two
    loads.  The theorems: a reading of the clock is the exact time of one instant of the
    call, although it takes three loads, so that the difference of two readings is the
    time that passed; and which interrupts of which timers reach timerclock. *)

From stdpp Require Import base list numbers strings.
From Stdlib Require Import ZArith Lia.
From S2P Require Import Prelude Time.
Import Time.

#[local] Open Scope Z_scope.

Module Timer.

Definition LT_REG_SEC : Z := 0.
Definition LT_REG_NSEC : Z := 4.
Definition LT_REG_ROE : Z := 8.
Definition LT_REG_IRQ : Z := 12.
Definition LT_REG_COUNT : Z := 16.
Definition LT_REG_SPKR : Z := 20.
Definition LT_GRANULARITY : Z := 1000000.

Class TimerHw (D : Type) := {
  t_load : Z → D → Z * D;
  t_store : Z → Z → D → D
}.

(** A timer's record; [lt_card] is the card it is attached to. *)
Record ltimer := mkLt {
  lt_hardclock : Z;
  lt_timerclock : Z;
  lt_card : nat
}.

(** The cards, the static variable of ltimer.c, the timers' records, and how often
    hardclock and timerclock have been called. *)
Record world (D : Type) := mkW {
  cards : nat → D;
  havetimerclock : bool;
  timers : list ltimer;
  hardclocks : nat;
  timerclocks : nat
}.
Arguments mkW {D}. Arguments cards {D}. Arguments havetimerclock {D}. Arguments timers {D}.
Arguments hardclocks {D}. Arguments timerclocks {D}.

Section timer.
Context {D : Type} `{!TimerHw D}.
Abbreviation K := (M (world D)).
Implicit Types w : world D.

Definition with_cards (x : nat → D) (w : world D) := mkW x (havetimerclock w) (timers w) (hardclocks w) (timerclocks w).
Definition with_have x (w : world D) := mkW (cards w) x (timers w) (hardclocks w) (timerclocks w).
Definition with_timers x (w : world D) := mkW (cards w) (havetimerclock w) x (hardclocks w) (timerclocks w).
Definition set_card (i : nat) (d : D) (w : world D) := with_cards (λ j, if Nat.eqb j i then d else cards w j) w.

Definition bus_read_register (i : nat) (reg : Z) : K Z :=
  v ← gets (λ w, t_load reg (cards w i));
  modify (set_card i v.2) ;; mret v.1.
Definition bus_write_register (i : nat) (reg val : Z) : K unit :=
  modify (λ w, set_card i (t_store reg val (cards w i)) w).

Definition get_timer (lt : nat) : K ltimer := deref (λ w, timers w !! lt) "ltimer_softc".
Definition set_timer (lt : nat) (f : ltimer → ltimer) : K unit :=
  x ← get_timer lt; modify (λ w, with_timers (<[lt := f x]> (timers w)) w).

Definition config_ltimer (lt : nat) : K Z :=
  set_timer lt (λ x, mkLt 0 (lt_timerclock x) (lt_card x)) ;;
  have ← gets havetimerclock;
  (if (have : bool) then mret tt
   else
     modify (with_have true) ;;
     set_timer lt (λ x, mkLt (lt_hardclock x) 1 (lt_card x)) ;;
     x ← get_timer lt;
     bus_write_register (lt_card x) LT_REG_ROE 1 ;;
     bus_write_register (lt_card x) LT_REG_COUNT LT_GRANULARITY) ;;
  mret 0.

Definition hardclock : K unit :=
  modify (λ w, mkW (cards w) (havetimerclock w) (timers w) (S (hardclocks w)) (timerclocks w)).
Definition timerclock : K unit :=
  modify (λ w, mkW (cards w) (havetimerclock w) (timers w) (hardclocks w) (S (timerclocks w))).

Definition ltimer_irq (lt : nat) : K unit :=
  x ← get_timer lt;
  val ← bus_read_register (lt_card x) LT_REG_IRQ;
  if c_bool val then
    (if c_bool (lt_hardclock x) then hardclock else mret tt) ;;
    (if c_bool (lt_timerclock x) then timerclock else mret tt)
  else mret tt.

Definition ltimer_beep (lt : nat) : K unit :=
  x ← get_timer lt; bus_write_register (lt_card x) LT_REG_SPKR 440.

(** Interrupts are off on this CPU between the loads (splhigh, splx). *)
Definition ltimer_gettime (lt : nat) : K timespec :=
  x ← get_timer lt;
  secs1 ← bus_read_register (lt_card x) LT_REG_SEC;
  tv_nsec ← bus_read_register (lt_card x) LT_REG_NSEC;
  secs2 ← bus_read_register (lt_card x) LT_REG_SEC;
  mret (if tv_nsec <? 5000000 then mkTs secs2 tv_nsec else mkTs secs1 tv_nsec).

(** ** The generic devices; [mem] is the result of kmalloc. *)

Record rtclock := mkRtc { rtc_devdata : nat; rtc_gettime : nat → K timespec }.
Definition attach_rtclock_to_ltimer (rtclockno mem : Z) (ls : nat) : option rtclock :=
  if mem =? 0 then None else Some (mkRtc ls ltimer_gettime).

Record beeper := mkBeep { bs_devdata : nat; bs_beep : nat → K unit }.
Definition attach_beep_to_ltimer (beepno mem : Z) (ls : nat) : option beeper :=
  if mem =? 0 then None else Some (mkBeep ls ltimer_beep).

(** config_beep: the new value of the_beep, and the result. *)
Definition config_beep (bs : beeper) (unit_ : Z) (the_beep : option beeper) : outcome (option beeper) Z :=
  if negb (unit_ =? 0) then Done ENODEV the_beep
  else match the_beep with
       | None => Done 0 (Some bs)
       | Some _ => Panic "the_beep==NULL"
       end.
(** beep: whether the warning is printed. *)
Definition beep (the_beep : option beeper) : K bool :=
  match the_beep with
  | Some bs => bs_beep bs (bs_devdata bs) ;; mret false
  | None => mret true
  end.

(** menu.c, cmd_dispatch: what it computes of the times before and after a command. *)
Definition timed (rtc : rtclock) (command : K unit) : K timespec :=
  before ← rtc_gettime rtc (rtc_devdata rtc);
  command ;;
  after ← rtc_gettime rtc (rtc_devdata rtc);
  mret (timespec_sub after before).

(** ** Reading the clock *)

Context (clock : D → Z).

Definition NSEC : Z := 1000000000.

(** The clock of the card counts nanoseconds; time passes with every load, and a load
    gives the time when it is done. *)
Class TimerHwLaws : Prop := {
  load_later r d : clock d <= clock (t_load r d).2;
  load_sec d : (t_load LT_REG_SEC d).1 = u32 (clock (t_load LT_REG_SEC d).2 / NSEC);
  load_nsec d : (t_load LT_REG_NSEC d).1 = clock (t_load LT_REG_NSEC d).2 mod NSEC
}.
Context `{!TimerHwLaws}.

(** The three loads of ltimer_gettime, from the card [d]. *)
Definition after1 d := (t_load LT_REG_SEC d).2.
Definition after2 d := (t_load LT_REG_NSEC (after1 d)).2.
Definition after3 d := (t_load LT_REG_SEC (after2 d)).2.

(** The loads take at most 5 ms and the clock has not used up the 32 bits of seconds. *)
Definition prompt d : Prop :=
  clock (after3 d) - clock (after1 d) <= 5000000 ∧ 0 <= clock d ∧ clock (after3 d) < 2 ^ 32 * NSEC.

Lemma pick_seconds t1 t2 t3 :
  0 <= t1 <= t2 → t2 <= t3 → t3 - t1 <= 5000000 →
  (if t2 mod NSEC <? 5000000 then t3 / NSEC else t1 / NSEC) = t2 / NSEC.
Proof.
  intros H1 H2 H3. unfold NSEC.
  pose proof (Z.div_mod t1 1000000000 ltac:(lia)). pose proof (Z.mod_pos_bound t1 1000000000 ltac:(lia)).
  pose proof (Z.div_mod t2 1000000000 ltac:(lia)). pose proof (Z.mod_pos_bound t2 1000000000 ltac:(lia)).
  pose proof (Z.div_mod t3 1000000000 ltac:(lia)). pose proof (Z.mod_pos_bound t3 1000000000 ltac:(lia)).
  destruct (Z.ltb_spec (t2 mod 1000000000) 5000000); lia.
Qed.

(** A reading is the exact time of the load of the nanoseconds. *)
Lemma gettime_exact (w : world D) lt x :
  timers w !! lt = Some x → prompt (cards w (lt_card x)) →
  ∃ w' ts, ltimer_gettime lt w = Done ts w' ∧ timers w' = timers w ∧
    cards w' (lt_card x) = after3 (cards w (lt_card x)) ∧
    normal ts ∧ nanos ts = clock (after2 (cards w (lt_card x))).
Proof.
  intros Hx (Hp & H0 & Hb). set (d := cards w (lt_card x)) in *.
  unfold ltimer_gettime, get_timer, deref, bus_read_register, gets, modify, mbind, M_bind, mret, M_ret.
  rewrite Hx. cbn. rewrite Nat.eqb_refl. fold d.
  pose proof (load_later LT_REG_SEC d). pose proof (load_later LT_REG_NSEC (after1 d)).
  pose proof (load_later LT_REG_SEC (after2 d)). fold (after1 d) (after2 d) in *.
  change ((t_load LT_REG_SEC (after2 d)).2) with (after3 d) in *. change ((t_load LT_REG_NSEC (after1 d)).2) with (after2 d) in *.
  rewrite load_nsec, !load_sec. change (t_load LT_REG_NSEC (after1 d)).2 with (after2 d).
  change (t_load LT_REG_SEC d).2 with (after1 d). change (t_load LT_REG_SEC (after2 d)).2 with (after3 d) in *.
  assert (∀ t, 0 <= t < 2 ^ 32 * NSEC → u32 (t / NSEC) = t / NSEC) as Hu.
  { intros t Ht. apply u32_small. unfold NSEC in *. split; [apply Z.div_pos; lia | apply Z.div_lt_upper_bound; lia]. }
  pose proof (Z.mod_pos_bound (clock (after2 d)) NSEC ltac:(done)) as Hm.
  rewrite !Hu by lia.
  pose proof (pick_seconds (clock (after1 d)) (clock (after2 d)) (clock (after3 d)) ltac:(lia) ltac:(lia) Hp) as Hsec.
  do 2 eexists. split; [reflexivity |]. split; [done |]. split; [cbn; by rewrite Nat.eqb_refl |].
  assert (∀ s1 s2 n, (if n <? 5000000 then mkTs s2 n else mkTs s1 n) = mkTs (if n <? 5000000 then s2 else s1) n) as E
    by (intros s1 s2 n; by destruct (n <? 5000000)).
  rewrite E, Hsec. split; [exact Hm |]. unfold nanos. cbn. change 1000000000 with NSEC.
  pose proof (Z.div_mod (clock (after2 d)) NSEC ltac:(done)). lia.
Qed.

(** C32: The time cmd_dispatch reports for a command is exact to the nanosecond: when the
    clock is the timer's and neither of its readings is delayed by more than 5 ms, it is
    the time between two instants, one in the call before the command and one in the call
    after it, normalised; in particular it is never negative, whatever roll-overs of the
    seconds happen between the loads of the registers. *)
Theorem timed_exact mem lt rtc (command : K unit) w x w1 w2 :
  attach_rtclock_to_ltimer 0 mem lt = Some rtc →
  timers w !! lt = Some x → (rtc_gettime rtc lt ;; mret tt) w = Done tt w1 → command w1 = Done tt w2 →
  timers w2 = timers w1 → clock (cards w1 (lt_card x)) <= clock (cards w2 (lt_card x)) →
  prompt (cards w (lt_card x)) → prompt (cards w2 (lt_card x)) →
  ∃ w3 ts t1 t2, timed rtc command w = Done ts w3 ∧ normal ts ∧ nanos ts = t2 - t1 ∧
    clock (cards w (lt_card x)) <= t1 <= clock (cards w1 (lt_card x)) ∧
    clock (cards w2 (lt_card x)) <= t2 <= clock (cards w3 (lt_card x)) ∧ 0 <= nanos ts.
Proof using All.
  unfold attach_rtclock_to_ltimer. destruct (mem =? 0); [done |]. intros [= <-] Hx H1 Hc Ht Hle Hp1 Hp2.
  destruct (gettime_exact w lt x Hx Hp1) as (w1' & ts1 & E1 & T1 & C1 & N1 & V1).
  unfold rtc_gettime, mbind, M_bind in H1. rewrite E1 in H1. injection H1 as ->.
  destruct (gettime_exact w2 lt x) as (w3 & ts2 & E2 & T2 & C2 & N2 & V2); [by rewrite Ht, T1 | done |].
  exists w3, (timespec_sub ts2 ts1), (clock (after2 (cards w (lt_card x)))), (clock (after2 (cards w2 (lt_card x)))).
  destruct (timespec_arith ts2 ts1 N2 N1) as (_ & _ & N & V & _). unfold timed, rtc_gettime, rtc_devdata, mbind, M_bind.
  rewrite E1, Hc, E2, C2. rewrite C1 in Hle |- *. rewrite V, V1, V2.
  assert (∀ d, clock d <= clock (after2 d) <= clock (after3 d)) as Hmono.
  { intros d. pose proof (load_later LT_REG_SEC d). pose proof (load_later LT_REG_NSEC (after1 d)).
    pose proof (load_later LT_REG_SEC (after2 d)). unfold after3, after2, after1 in *. lia. }
  pose proof (Hmono (cards w (lt_card x))). pose proof (Hmono (cards w2 (lt_card x))). split_and!; done || lia.
Qed.
End timer.

(** ** Which timers drive the timer clock *)

Section clocks.
Context {D : Type} `{!TimerHw D}.

Fixpoint config_all (n k : nat) : M (world D) unit :=
  match n with O => mret tt | S n' => config_ltimer k ;; config_all n' (S k) end.

(** The record of timer [k] once all have been configured. *)
Definition configured (k : nat) (x : ltimer) : ltimer :=
  mkLt 0 (if Nat.eqb k 0 then 1 else lt_timerclock x) (lt_card x).

Lemma config_run k (w : world D) x :
  timers w !! k = Some x → havetimerclock w = negb (Nat.eqb k 0) →
  ∃ w', config_ltimer k w = Done 0 w' ∧ havetimerclock w' = true ∧
    timers w' = <[k := configured k x]> (timers w) ∧ hardclocks w' = hardclocks w ∧ timerclocks w' = timerclocks w.
Proof.
  intros Hx Hh. pose proof (lookup_lt_Some _ _ _ Hx) as Hlt.
  unfold config_ltimer, set_timer, get_timer, deref, bus_write_register, gets, modify, mbind, M_bind, mret, M_ret.
  rewrite Hx. cbn. rewrite Hh. destruct k as [|k]; cbn.
  - rewrite list_lookup_insert_eq by done. cbn. rewrite list_insert_insert_eq.
    rewrite list_lookup_insert_eq by done. eexists. split; [reflexivity |]. done.
  - eexists. split; [reflexivity |]. done.
Qed.

Lemma config_all_run n : ∀ k (w : world D),
  (k + n = length (timers w))%nat → havetimerclock w = negb (Nat.eqb k 0) →
  ∃ w', config_all n k w = Done tt w' ∧ hardclocks w' = hardclocks w ∧ timerclocks w' = timerclocks w ∧
    ∀ j x, timers w !! j = Some x → timers w' !! j = Some (if Nat.ltb j k then x else configured j x).
Proof.
  induction n as [|n IH]; intros k w Hn Hh.
  { exists w. split_and!; try done. intros j x Hx. pose proof (lookup_lt_Some _ _ _ Hx).
    by rewrite (proj2 (Nat.ltb_lt j k)) by lia. }
  destruct (lookup_lt_is_Some_2 (timers w) k ltac:(lia)) as [y Hy].
  destruct (config_run k w y Hy Hh) as (w1 & E1 & H1 & T1 & C1 & D1).
  destruct (IH (S k) w1) as (w' & E & C & Dc & Hj); [by rewrite T1, length_insert; lia | done |].
  exists w'. cbn [config_all]. unfold mbind, M_bind. rewrite E1, E. split_and!; [done | congruence.. |].
  intros j x Hx. destruct (decide (j = k)) as [-> | Hne].
  - rewrite (Hj k (configured k y)) by (rewrite T1, list_lookup_insert_eq; [done | lia]).
    destruct (Nat.ltb_spec k (S k)), (Nat.ltb_spec k k); lia || congruence.
  - rewrite (Hj j x) by (rewrite T1, list_lookup_insert_ne; done).
    destruct (Nat.ltb_spec j (S k)), (Nat.ltb_spec j k); done || lia.
Qed.

(** After the timers have been configured an interrupt never runs the hardclock; it runs
    the timer clock on the first timer, and on any other exactly when the memory of its
    record happened to hold a value other than 0: config_ltimer does not store
    lt_timerclock there. *)
Theorem ltimer_clocks (w : world D) k x w1 :
  havetimerclock w = false → timers w !! k = Some x →
  config_all (length (timers w)) 0 w = Done tt w1 →
  c_bool (t_load LT_REG_IRQ (cards w1 (lt_card x))).1 = true →
  ∃ w2, ltimer_irq k w1 = Done tt w2 ∧ hardclocks w2 = hardclocks w1 ∧
    timerclocks w2 = (timerclocks w1 + if Nat.eqb k 0 || c_bool (lt_timerclock x) then 1 else 0)%nat.
Proof.
  intros Hh Hx Hc Hirq. destruct (config_all_run (length (timers w)) 0 w) as (w' & E & _ & _ & Hj); [done | done |].
  rewrite E in Hc. injection Hc as ->. specialize (Hj k x Hx). cbn in Hj.
  unfold ltimer_irq, get_timer, deref, bus_read_register, gets, modify, mbind, M_bind, mret, M_ret. rewrite Hj. cbn.
  rewrite Hirq. destruct k as [|k]; cbn.
  - eexists. split; [reflexivity |]. cbn. lia.
  - destruct (c_bool (lt_timerclock x)); eexists; (split; [reflexivity |]); cbn; lia.
Qed.
End clocks.

(** ** A card whose loads take a microsecond *)

#[export] Instance w_card : TimerHw Z := {|
  t_load r d :=
    let d' := d + 1000 in
    (if r =? LT_REG_SEC then u32 (d' / NSEC) else if r =? LT_REG_NSEC then d' mod NSEC else 1, d');
  t_store r v d := d
|}.
#[export] Instance w_card_laws : TimerHwLaws (λ d : Z, d).
Proof. split; intros; cbn; done || lia. Qed.

(** A command that takes 3 s and 2 ns, begun 1.5 us before the clock turns to 8 seconds. *)
Definition w_world : world Z := mkW (λ _, 7999998500) true [mkLt 0 1 0] 0 0.
Definition w_command : M (world Z) unit := modify (λ w, set_card 0 (cards w 0%nat + 3000000002) w).

Definition post {A} (m : M (world Z) A) (w : world Z) : world Z :=
  match m w with Done _ w' => w' | _ => w end.

Lemma timed_exact_witness :
  ∃ w ts, timed (mkRtc 0 ltimer_gettime) w_command w_world = Done ts w ∧ ts = mkTs 3 3002 ∧ normal ts.
Proof.
  destruct (timed_exact (λ d : Z, d) 4096 0 (mkRtc 0 ltimer_gettime) w_command w_world (mkLt 0 1 0)
              (post (ltimer_gettime 0) w_world) (post w_command (post (ltimer_gettime 0) w_world))) as (w & ts & t1 & t2 & E & N & _).
  - done.
  - done.
  - vm_compute. reflexivity.
  - vm_compute. reflexivity.
  - done.
  - vm_compute. congruence.
  - vm_compute. by split_and!.
  - vm_compute. by split_and!.
  - exists w, ts. split; [exact E |]. split; [| done]. vm_compute in E. by injection E as <- _.
Defined.

End Timer.
