(* ===== verification/Bitmap.v ===== *)
(** * Fixed-size bit arrays (lib/bitmap.c)

    The bitmap keeps its bits in bytes, so that the image saved on disk by the
    file system does not depend on endianness.  The refinement of this file is
    to the set of marked indices: [marked b i] reads bit [i]. *)

From stdpp Require Import base list numbers strings.
From Stdlib Require Import ZArith Lia.
From S2P Require Import Prelude.

#[local] Open Scope Z_scope.

Module Bitmap.

Definition BITS_PER_WORD : Z := 8.
Definition WORD_ALLBITS : Z := 0xff.

Record bitmap := mkBitmap { nbits : Z; v : list Z }.

(** [b->v[ix]]; the index is in range wherever the code reads it. *)
Definition word (b : bitmap) (ix : Z) : Z := default 0 (v b !! Z.to_nat ix).
Definition set_word (b : bitmap) (ix w : Z) : bitmap :=
  mkBitmap (nbits b) (<[Z.to_nat ix := w]> (v b)).

(** [(WORD_TYPE)1 << j] *)
Definition bit_mask (j : Z) : Z := u8 (Z.shiftl 1 j).

(** The loop that marks the leftover bits of the last word in use. *)
Definition mark_leftover (b : bitmap) (ix overbits : Z) : bitmap :=
  foldl (λ b j, set_word b ix (Z.lor (word b ix) (bit_mask j)))
    b (seqZ overbits (BITS_PER_WORD - overbits)).

(** [mem1] and [mem2] say whether the two [kmalloc] calls succeed. *)
Definition bitmap_create (mem1 mem2 : bool) (nbits : Z) : M unit (option bitmap) :=
  let words := DIVROUNDUP nbits BITS_PER_WORD in
  if negb mem1 then mret None
  else if negb mem2 then mret None
  else
    let b := mkBitmap nbits (replicate (Z.to_nat words) 0) in
    if nbits / BITS_PER_WORD <? words then
      let ix := words - 1 in
      let overbits := nbits - ix * BITS_PER_WORD in
      kassert (nbits / BITS_PER_WORD =? words - 1) "nbits / BITS_PER_WORD == words-1" ;;
      kassert ((0 <? overbits) && (overbits <? BITS_PER_WORD)) "overbits" ;;
      mret (Some (mark_leftover b ix overbits))
    else mret (Some b).

Definition bitmap_getdata (b : bitmap) : list Z := v b.

(** Returns [inr index], or [inl ENOSPC] when every word is full. *)
Definition bitmap_alloc : M bitmap (Z + Z) := λ b,
  let maxix := DIVROUNDUP (nbits b) BITS_PER_WORD in
  match first_index (λ w, negb (w =? WORD_ALLBITS)) (take (Z.to_nat maxix) (v b)) with
  | None => Done (inl ENOSPC) b
  | Some n =>
      let ix := Z.of_nat n in
      match first_index (λ offset, Z.land (word b ix) (bit_mask offset) =? 0)
              (seqZ 0 BITS_PER_WORD) with
      | None => Panic "KASSERT(0)"
      | Some o =>
          let offset := Z.of_nat o in
          let index := ix * BITS_PER_WORD + offset in
          let b' := set_word b ix (Z.lor (word b ix) (bit_mask offset)) in
          if index <? nbits b then Done (inr index) b'
          else Panic "*index < b->nbits"
      end
  end.

Definition bitmap_translate (bitno : Z) : Z * Z :=
  let ix := bitno / BITS_PER_WORD in
  let offset := bitno mod BITS_PER_WORD in
  (ix, bit_mask offset).

Definition bitmap_mark (index : Z) : M bitmap unit :=
  n ← gets nbits;
  kassert (index <? n) "index < b->nbits" ;;
  let '(ix, mask) := bitmap_translate index in
  w ← gets (λ b, word b ix);
  kassert (Z.land w mask =? 0) "(b->v[ix] & mask)==0" ;;
  modify (λ b, set_word b ix (Z.lor w mask)).

Definition bitmap_unmark (index : Z) : M bitmap unit :=
  n ← gets nbits;
  kassert (index <? n) "index < b->nbits" ;;
  let '(ix, mask) := bitmap_translate index in
  w ← gets (λ b, word b ix);
  kassert (negb (Z.land w mask =? 0)) "(b->v[ix] & mask)!=0" ;;
  modify (λ b, set_word b ix (u8 (Z.land w (Z.lnot mask)))).

Definition bitmap_isset (b : bitmap) (index : Z) : Z :=
  let '(ix, mask) := bitmap_translate index in
  Z.land (word b ix) mask.

(** ** Abstraction and well-formedness *)

Definition marked (b : bitmap) (i : Z) : bool :=
  Z.testbit (word b (i / 8)) (i mod 8).

(** The word array has the size [bitmap_create] gave it, its entries are
    bytes, and the bits past [nbits] are in use. *)
Record wf (b : bitmap) : Prop := {
  wf_nbits : 0 <= nbits b;
  wf_len : Z.of_nat (length (v b)) = DIVROUNDUP (nbits b) 8;
  wf_byte : Forall (fits 8) (v b);
  wf_over : ∀ i, nbits b <= i < 8 * Z.of_nat (length (v b)) → marked b i = true
}.

(** ** Bit-level lemmas *)

Lemma bit_mask_pow j : 0 <= j < 8 → bit_mask j = 2 ^ j.
Proof.
  intros Hj. unfold bit_mask. rewrite Z.shiftl_1_l. apply u8_small.
  split; [lia |]. apply Z.pow_lt_mono_r; lia.
Qed.

Lemma land_mask_zero w j :
  0 <= j < 8 → (Z.land w (bit_mask j) =? 0) = negb (Z.testbit w j).
Proof.
  intros Hj. rewrite bit_mask_pow by done.
  destruct (Z.testbit w j) eqn:E; simpl.
  - apply Z.eqb_neq. intros H0.
    assert (Z.testbit (Z.land w (2 ^ j)) j = false) as H by (by rewrite H0, Z.bits_0).
    rewrite Z.land_spec, E, Z.pow2_bits_true in H by lia. done.
  - apply Z.eqb_eq. apply Z.bits_inj'. intros i Hi.
    rewrite Z.land_spec, Z.bits_0, Z.pow2_bits_eqb by lia.
    destruct (Z.eqb_spec j i) as [<- |]; [by rewrite E | by rewrite andb_false_r].
Qed.

Lemma lor_mask_testbit w j i :
  0 <= j < 8 → Z.testbit (Z.lor w (bit_mask j)) i = (j =? i) || Z.testbit w i.
Proof.
  intros Hj. rewrite bit_mask_pow, Z.lor_spec, Z.pow2_bits_eqb by lia.
  by rewrite orb_comm.
Qed.

Lemma clear_mask_testbit w j i :
  0 <= j < 8 → 0 <= i < 8 →
  Z.testbit (u8 (Z.land w (Z.lnot (bit_mask j)))) i
  = negb (j =? i) && Z.testbit w i.
Proof.
  intros Hj Hi. rewrite bit_mask_pow by done. unfold u8, wrap.
  rewrite Z.mod_pow2_bits_low, Z.land_spec, Z.lnot_spec, Z.pow2_bits_eqb by lia.
  by rewrite andb_comm.
Qed.

Lemma fits8_lor a b : fits 8 a → fits 8 b → fits 8 (Z.lor a b).
Proof.
  intros Ha Hb. assert (Z.lor a b = u8 (Z.lor a b)) as ->.
  { rewrite <- (u8_small a), <- (u8_small b) by done.
    unfold u8, wrap. apply Z.bits_inj'. intros i Hi.
    destruct (Z.ltb_spec i 8).
    - rewrite (Z.mod_pow2_bits_low (Z.lor _ _)) by lia. done.
    - rewrite (Z.mod_pow2_bits_high (Z.lor _ _)) by lia.
      rewrite Z.lor_spec, !Z.mod_pow2_bits_high by lia. done. }
  by apply wrap_fits.
Qed.

(** A byte that differs from [0xff] has a clear bit. *)
Lemma byte_clear_bit w :
  fits 8 w → w ≠ WORD_ALLBITS → ∃ j, 0 <= j < 8 ∧ Z.testbit w j = false.
Proof.
  intros Hw Hne.
  destruct (first_index (λ j, negb (Z.testbit w j)) (seqZ 0 8)) as [n|] eqn:E.
  - apply first_index_lookup in E as (j & Hj & Hb).
    apply lookup_seqZ in Hj. exists j. split; [lia |].
    by apply negb_true_iff in Hb.
  - exfalso. apply Hne. rewrite first_index_None in E.
    apply Z.bits_inj'. intros i Hi. destruct (Z.ltb_spec i 8).
    + assert (Z.testbit w i = true) as ->.
      { apply negb_false_iff. apply E. apply elem_of_seqZ. lia. }
      unfold WORD_ALLBITS. change 0xff with (Z.ones 8).
      by rewrite Z.ones_spec_low by lia.
    + unfold WORD_ALLBITS. change 0xff with (Z.ones 8).
      rewrite Z.ones_spec_high by lia.
      rewrite <- (u8_small w) by done. apply Z.mod_pow2_bits_high. lia.
Qed.

Lemma word_set b ix w ix' :
  0 <= ix < Z.of_nat (length (v b)) → 0 <= ix' →
  word (set_word b ix w) ix' = if ix =? ix' then w else word b ix'.
Proof.
  intros Hix Hix'. unfold word, set_word; simpl.
  destruct (Z.eqb_spec ix ix') as [<- | Hne].
  - by rewrite list_lookup_insert_eq by lia.
  - by rewrite list_lookup_insert_ne by lia.
Qed.

Lemma word_fits b ix : Forall (fits 8) (v b) → fits 8 (word b ix).
Proof.
  intros H. unfold word. destruct (v b !! Z.to_nat ix) eqn:E; simpl.
  - by eapply Forall_lookup_1 in E.
  - unfold fits. lia.
Qed.

Lemma index_split i : i = 8 * (i / 8) + i mod 8 ∧ 0 <= i mod 8 < 8.
Proof. split; [by apply Z.div_mod | by apply Z.mod_pos_bound]. Qed.

(** An in-range index falls in an existing word. *)
Lemma index_word b i :
  wf b → 0 <= i < nbits b → 0 <= i / 8 < Z.of_nat (length (v b)).
Proof.
  intros Hwf Hi. rewrite wf_len by done. unfold DIVROUNDUP.
  split; [apply Z.div_pos; lia |].
  apply Z.div_lt_upper_bound; [lia |].
  pose proof (Z.div_mod (nbits b + 8 - 1) 8).
  pose proof (Z.mod_pos_bound (nbits b + 8 - 1) 8). lia.
Qed.

(** The state after setting or clearing bit [i]. *)
Definition set_bit (b : bitmap) (i : Z) : bitmap :=
  set_word b (i / 8) (Z.lor (word b (i / 8)) (bit_mask (i mod 8))).
Definition clear_bit (b : bitmap) (i : Z) : bitmap :=
  set_word b (i / 8) (u8 (Z.land (word b (i / 8)) (Z.lnot (bit_mask (i mod 8))))).

Lemma same_index i j : (i / 8 =? j / 8) && (i mod 8 =? j mod 8) = (i =? j).
Proof.
  destruct (Z.eqb_spec i j) as [-> |]; [by rewrite !Z.eqb_refl |].
  destruct (Z.eqb_spec (i / 8) (j / 8)); [simpl | done].
  apply Z.eqb_neq. pose proof (index_split i). pose proof (index_split j). lia.
Qed.

Lemma marked_set_bit b i j :
  wf b → 0 <= i < nbits b → 0 <= j →
  marked (set_bit b i) j = (i =? j) || marked b j.
Proof.
  intros Hwf Hi Hj. pose proof (index_split i). unfold marked, set_bit.
  rewrite word_set; [| by apply index_word | apply Z.div_pos; lia].
  rewrite <- (same_index i j). destruct (Z.eqb_spec (i / 8) (j / 8)) as [E |]; simpl; [| done].
  rewrite lor_mask_testbit by lia. by rewrite E.
Qed.

Lemma marked_clear_bit b i j :
  wf b → 0 <= i < nbits b → 0 <= j →
  marked (clear_bit b i) j = negb (i =? j) && marked b j.
Proof.
  intros Hwf Hi Hj. pose proof (index_split i). pose proof (index_split j).
  unfold marked, clear_bit.
  rewrite word_set; [| by apply index_word | apply Z.div_pos; lia].
  rewrite <- (same_index i j). destruct (Z.eqb_spec (i / 8) (j / 8)) as [E |]; simpl; [| done].
  rewrite clear_mask_testbit by lia. by rewrite E.
Qed.

Lemma wf_set_bit b i : wf b → 0 <= i < nbits b → wf (set_bit b i).
Proof.
  intros Hwf Hi. pose proof (index_split i). split; simpl.
  - apply Hwf.
  - rewrite length_insert. apply Hwf.
  - apply Forall_insert; [apply Hwf |].
    apply fits8_lor; [apply word_fits, Hwf |]. by apply wrap_fits.
  - intros j Hj. rewrite length_insert in Hj. simpl in Hj.
    pose proof (wf_nbits _ Hwf). rewrite marked_set_bit by (done || lia).
    apply orb_true_iff. right. by apply Hwf.
Qed.

Lemma wf_clear_bit b i : wf b → 0 <= i < nbits b → wf (clear_bit b i).
Proof.
  intros Hwf Hi. pose proof (index_split i). split; simpl.
  - apply Hwf.
  - rewrite length_insert. apply Hwf.
  - apply Forall_insert; [apply Hwf |]. by apply wrap_fits.
  - intros j Hj. rewrite length_insert in Hj. simpl in Hj.
    pose proof (wf_nbits _ Hwf). rewrite marked_clear_bit by (done || lia).
    destruct (Z.eqb_spec i j); [lia |]. by apply Hwf.
Qed.

(** A well-formed bitmap is determined by its size and its marked bits. *)
Lemma bitmap_ext b b' :
  wf b → wf b' → nbits b = nbits b' →
  (∀ i, 0 <= i < 8 * Z.of_nat (length (v b)) → marked b i = marked b' i) → b = b'.
Proof.
  intros Hb Hb' Hn Hm. destruct b as [n l], b' as [n' l']. simpl in *. subst n'.
  f_equal. pose proof (wf_len _ Hb) as Hl. pose proof (wf_len _ Hb') as Hl'.
  simpl in *. apply list_eq_same_length with (length l); [lia | done |].
  intros i x y Hi Hx Hy.
  assert (∀ j, 0 <= j < 8 → Z.testbit x j = Z.testbit y j) as Hlow.
  { intros j Hj. specialize (Hm (8 * Z.of_nat i + j) ltac:(lia)).
    unfold marked, word in Hm.
    rewrite <- (Z.div_unique (8 * Z.of_nat i + j) 8 (Z.of_nat i) j) in Hm by lia.
    rewrite <- (Z.mod_unique (8 * Z.of_nat i + j) 8 (Z.of_nat i) j) in Hm by lia.
    simpl in Hm. rewrite Nat2Z.id, Hx, Hy in Hm. done. }
  assert (fits 8 x) as Fx by (by eapply Forall_lookup_1 in Hx; [| apply Hb]).
  assert (fits 8 y) as Fy by (by eapply Forall_lookup_1 in Hy; [| apply Hb']).
  apply Z.bits_inj'. intros j Hj. destruct (Z.ltb_spec j 8); [by apply Hlow |].
  rewrite <- (u8_small x), <- (u8_small y) by done.
  unfold u8, wrap. by rewrite !Z.mod_pow2_bits_high by lia.
Qed.

(** Some bit below [nbits] is clear exactly when some word is not full. *)
Lemma find_word_None b i :
  wf b →
  first_index (λ w, negb (w =? WORD_ALLBITS))
    (take (Z.to_nat (DIVROUNDUP (nbits b) 8)) (v b)) = None →
  0 <= i < nbits b → marked b i = true.
Proof.
  intros Hwf Hf Hi. rewrite first_index_None in Hf.
  pose proof (index_word b i Hwf Hi) as Hix. pose proof (wf_len _ Hwf) as Hl.
  rewrite take_ge in Hf by lia.
  destruct (lookup_lt_is_Some_2 (v b) (Z.to_nat (i / 8))) as [w Hw]; [lia |].
  unfold marked, word. rewrite Hw. simpl.
  assert (w = WORD_ALLBITS) as ->.
  { apply Z.eqb_eq, negb_false_iff, Hf. by eapply list_elem_of_lookup_2. }
  unfold WORD_ALLBITS. change 0xff with (Z.ones 8).
  apply Z.ones_spec_low. apply index_split.
Qed.

(** ** Properties *)

Lemma create_fresh nb :
  0 <= nb → nb / 8 < DIVROUNDUP nb 8 →
  DIVROUNDUP nb 8 - 1 = nb / 8 ∧ nb mod 8 = nb - nb / 8 * 8 ∧ 0 < nb mod 8.
Proof.
  intros Hn Hlt. unfold DIVROUNDUP in *. pose proof (index_split nb).
  assert ((nb + 8 - 1) / 8 = nb / 8 + 1) as E.
  { destruct (decide (nb mod 8 = 0)).
    - rewrite <- (Z.div_unique (nb + 8 - 1) 8 (nb / 8) 7) in Hlt by lia. lia.
    - symmetry. apply (Z.div_unique _ _ _ (nb mod 8 - 1)); lia. }
  rewrite E in *. repeat split; try lia.
  destruct (decide (nb mod 8 = 0)); [| lia].
  rewrite <- (Z.div_unique (nb + 8 - 1) 8 (nb / 8) 7) in E by lia. lia.
Qed.

Lemma mark_leftover_spec b ix o :
  0 <= o <= 8 → 0 <= ix < Z.of_nat (length (v b)) → Forall (fits 8) (v b) →
  let b' := mark_leftover b ix o in
  nbits b' = nbits b ∧ length (v b') = length (v b) ∧ Forall (fits 8) (v b') ∧
  ∀ i, 0 <= i → marked b' i = ((ix =? i / 8) && (o <=? i mod 8)) || marked b i.
Proof.
  intros Ho Hix Hf. unfold mark_leftover, BITS_PER_WORD.
  remember (Z.to_nat (8 - o)) as n eqn:En.
  assert (8 - o = Z.of_nat n) as -> by lia.
  revert o b Ho Hix Hf En. induction n as [|n IH]; intros o b Ho Hix Hf En.
  - simpl. repeat split; [done |]. intros i Hi.
    destruct (Z.leb_spec o (i mod 8)); [| by rewrite andb_false_r].
    pose proof (index_split i). lia.
  - rewrite seqZ_cons by lia. simpl.
    replace (Z.pred (Z.of_nat (S n))) with (Z.of_nat n) by lia.
    replace (Z.succ o) with (o + 1) by lia.
    set (b1 := set_word b ix (Z.lor (word b ix) (bit_mask o))).
    destruct (IH (o + 1) b1) as (Hn & Hl & Hf' & Hm); [lia | | | lia |].
    { unfold b1. simpl. by rewrite length_insert. }
    { unfold b1. simpl. apply Forall_insert; [done |].
      apply fits8_lor; [by apply word_fits | by apply wrap_fits]. }
    repeat split; [done | | done |].
    { rewrite Hl. unfold b1. simpl. apply length_insert. }
    intros i Hi. rewrite Hm by done. unfold marked, b1.
    rewrite word_set by (try apply Z.div_pos; lia).
    pose proof (index_split i).
    destruct (Z.eqb_spec ix (i / 8)) as [E |]; simpl; [| done].
    rewrite lor_mask_testbit, E by lia.
    destruct (Z.leb_spec (o + 1) (i mod 8)), (Z.leb_spec o (i mod 8)),
      (Z.eqb_spec o (i mod 8)); simpl; (done || lia).
Qed.

(** Creation gives a well-formed bitmap whose bits are all free. *)
Theorem bitmap_create_spec nb :
  0 <= nb →
  ∃ b, bitmap_create true true nb tt = Done (Some b) tt ∧ wf b ∧ nbits b = nb ∧
       ∀ i, 0 <= i < nb → marked b i = false.
Proof.
  intros Hn. unfold bitmap_create, BITS_PER_WORD. simpl.
  set (b := mkBitmap nb (replicate (Z.to_nat (DIVROUNDUP nb 8)) 0)).
  assert (0 <= DIVROUNDUP nb 8) as Hw by (apply Z.div_pos; lia).
  assert (Hlen : Z.of_nat (length (v b)) = DIVROUNDUP nb 8).
  { simpl. rewrite length_replicate. lia. }
  assert (Forall (fits 8) (v b)) as Hfit.
  { simpl. apply Forall_replicate. unfold fits. lia. }
  assert (∀ i, marked b i = false) as Hclear.
  { intros i. unfold marked, word. simpl.
    destruct (replicate _ 0 !! _) eqn:E; simpl; [| apply Z.bits_0].
    apply lookup_replicate in E as [-> _]. apply Z.bits_0. }
  destruct (Z.ltb_spec (nb / 8) (DIVROUNDUP nb 8)) as [Hlt | Hge].
  - destruct (create_fresh nb Hn Hlt) as (Hix & Hmod & Hpos).
    pose proof (index_split nb) as [_ Hb8].
    rewrite Hix, <- Hmod, Z.eqb_refl. unfold kassert.
    rewrite (proj2 (Z.ltb_lt 0 (nb mod 8))), (proj2 (Z.ltb_lt (nb mod 8) 8)) by lia.
    simpl. eexists. split; [reflexivity |].
    destruct (mark_leftover_spec b (nb / 8) (nb mod 8)) as (En & El & Ef & Em);
      [lia | rewrite Hlen; split; [apply Z.div_pos; lia | lia] | done |].
    split; [| split; [done |]].
    + split; [by rewrite En | by rewrite El, En, Hlen | done |].
      intros i. rewrite En, El, Hlen. simpl. intros Hi.
      rewrite Em by lia. pose proof (index_split i) as [Ei ?].
      assert (i / 8 = nb / 8) as E8.
      { symmetry. apply (Z.div_unique _ _ _ (i - 8 * (nb / 8))); lia. }
      rewrite E8, Z.eqb_refl. simpl.
      rewrite (proj2 (Z.leb_le _ _)) by lia. done.
    + intros i Hi. rewrite Em, Hclear, orb_false_r by lia.
      pose proof (index_split i).
      destruct (Z.eqb_spec (nb / 8) (i / 8)); simpl; [| done].
      apply Z.leb_gt. lia.
  - assert (DIVROUNDUP nb 8 = nb / 8) as E.
    { apply Z.le_antisymm; [done |]. apply Z.div_le_mono; lia. }
    assert (nb mod 8 = 0) as E0.
    { destruct (decide (nb mod 8 = 0)); [done |]. unfold DIVROUNDUP in E.
      pose proof (index_split nb).
      rewrite <- (Z.div_unique (nb + 8 - 1) 8 (nb / 8 + 1) (nb mod 8 - 1)) in E; lia. }
    exists b. split; [done |]. split; [| split; [done | by intros]].
    split; [done | by rewrite Hlen | done |].
    intros i Hi. rewrite Hlen, E in Hi. simpl in Hi. pose proof (index_split nb). lia.
Qed.

(** The word and offset that [bitmap_alloc] settles on. *)
Lemma find_bit b n :
  wf b →
  first_index (λ w, negb (w =? WORD_ALLBITS))
    (take (Z.to_nat (DIVROUNDUP (nbits b) 8)) (v b)) = Some n →
  ∃ o, first_index (λ offset, Z.land (word b (Z.of_nat n)) (bit_mask offset) =? 0)
         (seqZ 0 BITS_PER_WORD) = Some o ∧
       let i := Z.of_nat n * 8 + Z.of_nat o in
       (o < 8)%nat ∧ 0 <= i < nbits b ∧ marked b i = false ∧
       ∀ j, 0 <= j < i → marked b j = true.
Proof.
  intros Hwf Hn. pose proof (wf_len _ Hwf) as Hl.
  rewrite take_ge in Hn by lia.
  apply first_index_Some in Hn as (w & Hw & Hff & Hfirst).
  apply negb_true_iff, Z.eqb_neq in Hff.
  assert (word b (Z.of_nat n) = w) as Ew.
  { unfold word. by rewrite Nat2Z.id, Hw. }
  assert (fits 8 w) as Fw by (by eapply Forall_lookup_1 in Hw; [| apply Hwf]).
  assert (∀ o, 0 <= o < 8 → (Z.land (word b (Z.of_nat n)) (bit_mask o) =? 0)
          = negb (Z.testbit w o)) as Hmask.
  { intros o Ho. by rewrite land_mask_zero, Ew by lia. }
  destruct (first_index_exists (λ offset,
    Z.land (word b (Z.of_nat n)) (bit_mask offset) =? 0) (seqZ 0 BITS_PER_WORD))
    as [o Ho].
  { destruct (byte_clear_bit w Fw Hff) as (j & Hj & Hb). exists j.
    split; [apply elem_of_seqZ; unfold BITS_PER_WORD; lia |].
    by rewrite Hmask, Hb. }
  exists o. split; [done |].
  apply first_index_Some in Ho as (k & Hk & Hbit & Hbefore).
  apply lookup_seqZ in Hk as [Hk Ho]. unfold BITS_PER_WORD in Ho.
  assert (k = Z.of_nat o) as -> by lia.
  rewrite Hmask in Hbit by lia. apply negb_true_iff in Hbit.
  set (i := Z.of_nat n * 8 + Z.of_nat o).
  assert (i / 8 = Z.of_nat n) as Ed
    by (symmetry; apply (Z.div_unique _ _ _ (Z.of_nat o)); lia).
  assert (i mod 8 = Z.of_nat o) as Em
    by (symmetry; apply (Z.mod_unique _ _ (Z.of_nat n)); lia).
  assert (marked b i = false) as Hmk by (unfold marked; by rewrite Ed, Em, Ew).
  pose proof (lookup_lt_Some _ _ _ Hw) as Hnl.
  repeat split; [lia | lia | | done |].
  - destruct (decide (i < nbits b)); [done |].
    rewrite (wf_over _ Hwf i) in Hmk; [done | lia].
  - intros j Hj. pose proof (index_split j). unfold marked.
    destruct (decide (j / 8 = Z.of_nat n)) as [Ej | Ej].
    + rewrite Ej, Ew. apply negb_false_iff.
      rewrite <- Hmask by lia.
      apply (Hbefore (Z.to_nat (j mod 8)) (j mod 8)); [lia |].
      apply lookup_seqZ. unfold BITS_PER_WORD. lia.
    + assert (0 <= j / 8) by (apply Z.div_pos; lia).
      destruct (lookup_lt_is_Some_2 (v b) (Z.to_nat (j / 8))) as [w' Hw']; [lia |].
      assert (w' = WORD_ALLBITS) as ->.
      { apply Z.eqb_eq, negb_false_iff, (Hfirst (Z.to_nat (j / 8))); [lia | done]. }
      unfold word. rewrite Hw'. simpl. unfold WORD_ALLBITS.
      change 0xff with (Z.ones 8). apply Z.ones_spec_low. lia.
Qed.

(** Allocation from a well-formed bitmap never trips an assertion; it marks
    and returns the least free index, or reports [ENOSPC] exactly when every
    index is in use, leaving the bitmap unchanged. *)
Theorem bitmap_alloc_spec b :
  wf b →
  (∃ i b', bitmap_alloc b = Done (inr i) b' ∧ wf b' ∧ nbits b' = nbits b ∧
           0 <= i < nbits b ∧ marked b i = false ∧
           (∀ j, 0 <= j < i → marked b j = true) ∧
           ∀ j, 0 <= j → marked b' j = (i =? j) || marked b j) ∨
  (bitmap_alloc b = Done (inl ENOSPC) b ∧
   ∀ j, 0 <= j < nbits b → marked b j = true).
Proof.
  intros Hwf. unfold bitmap_alloc. unfold BITS_PER_WORD at 1.
  destruct (first_index _ (take _ _)) as [n|] eqn:Hn.
  - left. destruct (find_bit b n Hwf Hn) as (o & Ho & Ho8 & Hi & Hmk & Hmin).
    rewrite Ho. unfold BITS_PER_WORD. rewrite (proj2 (Z.ltb_lt _ _)) by lia.
    set (i := Z.of_nat n * 8 + Z.of_nat o) in *.
    assert (i / 8 = Z.of_nat n) as Ed
      by (symmetry; apply (Z.div_unique _ _ _ (Z.of_nat o)); lia).
    assert (i mod 8 = Z.of_nat o) as Em
      by (symmetry; apply (Z.mod_unique _ _ (Z.of_nat n)); lia).
    exists i, (set_bit b i). unfold set_bit at 1. rewrite Ed, Em.
    repeat split; [by apply wf_set_bit.. | lia | lia | done | done |].
    intros j Hj. by apply marked_set_bit.
  - right. split; [done |]. intros j Hj. by eapply find_word_None.
Qed.

(** [bitmap_mark] marks a free index and fails its assertion otherwise. *)
Theorem bitmap_mark_spec b i :
  wf b → 0 <= i < nbits b →
  bitmap_mark i b =
    if marked b i then Panic "(b->v[ix] & mask)==0" else Done tt (set_bit b i).
Proof.
  intros Hwf Hi. unfold bitmap_mark, bitmap_translate, BITS_PER_WORD, gets.
  unfold mbind, M_bind, kassert, modify. simpl.
  rewrite (proj2 (Z.ltb_lt _ _)) by lia. simpl.
  rewrite land_mask_zero by apply index_split. unfold marked.
  by destruct (Z.testbit (word b (i / 8)) (i mod 8)).
Qed.

(** [bitmap_unmark] frees a marked index and fails its assertion otherwise. *)
Theorem bitmap_unmark_spec b i :
  wf b → 0 <= i < nbits b →
  bitmap_unmark i b =
    if marked b i then Done tt (clear_bit b i) else Panic "(b->v[ix] & mask)!=0".
Proof.
  intros Hwf Hi. unfold bitmap_unmark, bitmap_translate, BITS_PER_WORD, gets.
  unfold mbind, M_bind, kassert, modify. simpl.
  rewrite (proj2 (Z.ltb_lt _ _)) by lia. simpl.
  rewrite land_mask_zero by apply index_split. unfold marked.
  by destruct (Z.testbit (word b (i / 8)) (i mod 8)).
Qed.

Theorem bitmap_isset_spec b i :
  0 <= i → c_bool (bitmap_isset b i) = marked b i.
Proof.
  intros Hi. unfold bitmap_isset, bitmap_translate, c_bool, BITS_PER_WORD.
  rewrite land_mask_zero by apply index_split. unfold marked.
  apply negb_involutive.
Qed.

(** Freeing the index just allocated restores the bitmap. *)
Theorem bitmap_alloc_unmark b i b' :
  wf b → bitmap_alloc b = Done (inr i) b' → bitmap_unmark i b' = Done tt b.
Proof.
  intros Hwf Ha.
  destruct (bitmap_alloc_spec b Hwf)
    as [(k & c & Hk & Hwf' & Hn & Hi & Hfree & _ & Hset) | [Hk _]];
    rewrite Hk in Ha; [| done].
  injection Ha as -> ->. rewrite bitmap_unmark_spec by (done || lia).
  rewrite Hset, Z.eqb_refl by lia. simpl. f_equal.
  apply bitmap_ext; [by apply wf_clear_bit; [| lia] | done | done |].
  intros j Hj. rewrite marked_clear_bit, Hset by (done || lia).
  destruct (Z.eqb_spec i j) as [<- |]; [by rewrite Hfree | done].
Qed.

Lemma bitmap_alloc_unmark_witness :
  ∃ b b', wf b ∧ bitmap_alloc b = Done (inr 0) b' ∧ bitmap_unmark 0 b' = Done tt b.
Proof.
  destruct (bitmap_create_spec 12 ltac:(lia)) as (b & Hb & Hwf & _).
  assert (b = mkBitmap 12 [0; 0xf0]) as -> by (vm_compute in Hb; congruence).
  exists (mkBitmap 12 [0; 0xf0]), (mkBitmap 12 [1; 0xf0]).
  split; [done |]. split; [reflexivity |].
  apply (bitmap_alloc_unmark (mkBitmap 12 [0; 0xf0]) 0); [done | reflexivity].
Defined.

Lemma bitmap_alloc_spec_witness :
  ∃ b, wf b ∧ bitmap_alloc b = Done (inl ENOSPC) b.
Proof.
  assert (wf (mkBitmap 2 [0xff])) as Hwf.
  { split; simpl; [lia | reflexivity | |].
    - apply Forall_singleton. unfold fits. lia.
    - intros i Hi. assert (i / 8 = 0) as E by (apply Z.div_small; lia).
      unfold marked. rewrite E, Z.mod_small by lia. unfold word. simpl.
      change 255 with (Z.ones 8). apply Z.ones_spec_low. lia. }
  exists (mkBitmap 2 [0xff]). split; [done |].
  destruct (bitmap_alloc_spec (mkBitmap 2 [0xff]) Hwf) as [(i & b' & Hb & _) | [Hb _]].
  - vm_compute in Hb. congruence.
  - exact Hb.
Defined.

End Bitmap.
