(* ===== verification/Sfs.v ===== *)
(** * The simple file system: blocks, block maps and directories
      (fs/sfs/sfs_balloc.c, sfs_bmap.c, sfs_io.c, sfs_dir.c, the inode
      functions of sfs_inode.c; lhd_io of dev/lamebus/lhd.c)

    A disk block is 128 32-bit words: an indirect block is an array of block
    numbers, an inode fills a block, and a directory entry is 16 words, the
    inode number and 60 bytes of name.  The device is used through the
    interface [BlockDev]; a request carries the part of the [struct uio] that
    the device changes, because a retried request is the request as the failed
    attempt left it. *)

From stdpp Require Import base list gmap numbers strings sets.
From Stdlib Require Import ZArith Lia.
From S2P Require Import Prelude Bitmap.
Import Bitmap.

#[local] Open Scope Z_scope.

Module Sfs.

Definition EIO : Z := 32.
Definition SFS_BLOCKSIZE : Z := 512.
Definition BLOCK_WORDS : Z := 128.
Definition SFS_NDIRECT : Z := 15.
Definition SFS_NINDIRECT : Z := 1.
Definition SFS_DBPERIDB : Z := 128.
Definition SFS_NOINO : Z := 0.
Definition SFS_NAMELEN : Z := 60.
Definition SFS_TYPE_INVAL : Z := 0.
Definition SFS_TYPE_FILE : Z := 1.
Definition SFS_TYPE_DIR : Z := 2.
Definition SIZEOF_DIRENTRY : Z := 64.

Definition zero_block : list Z := replicate 128 0.

(** ** Devices *)

(** A kernel-space transfer: position, bytes left, and the words still to be
    written, or the words read so far. *)
Record request := mkReq { rq_offset : Z; rq_resid : Z; rq_data : list Z }.

Class BlockDev (D : Type) := {
  DEVOP_IO : bool → request → D → Z * request * D     (* true: write *)
}.

(** ** The in-memory file system and a vnode of it *)

Record sfs_dinode := mkInode {
  sfi_size : Z;
  sfi_type : Z;
  sfi_linkcount : Z;
  sfi_direct : list Z;
  sfi_indirect : Z
}.

Record sfs_vnode := mkVnode { sv_i : sfs_dinode; sv_ino : Z; sv_dirty : bool }.

Record sfs_fs (D : Type) := mkFs {
  sb_nblocks : Z;
  sfs_freemap : bitmap;
  sfs_freemapdirty : bool;
  sfs_device : D;
  vfs_biglock_depth : Z
}.
Arguments mkFs {_}.
Arguments sb_nblocks {_} _.
Arguments sfs_freemap {_} _.
Arguments sfs_freemapdirty {_} _.
Arguments sfs_device {_} _.
Arguments vfs_biglock_depth {_} _.

(** The file system and the vnode the operation works on. *)
Record fstate (D : Type) := mkF { fs : sfs_fs D; sv : sfs_vnode }.
Arguments mkF {_}.
Arguments fs {_} _.
Arguments sv {_} _.

Definition set_size (n : Z) (i : sfs_dinode) :=
  mkInode n (sfi_type i) (sfi_linkcount i) (sfi_direct i) (sfi_indirect i).
Definition set_direct (l : list Z) (i : sfs_dinode) :=
  mkInode (sfi_size i) (sfi_type i) (sfi_linkcount i) l (sfi_indirect i).
Definition set_indirect (b : Z) (i : sfs_dinode) :=
  mkInode (sfi_size i) (sfi_type i) (sfi_linkcount i) (sfi_direct i) b.

Section Sfs.
Context {D : Type} `{!BlockDev D}.
Abbreviation F := (M (fstate D)).

Definition with_fs (x : sfs_fs D) (s : fstate D) := mkF x (sv s).
Definition with_sv (x : sfs_vnode) (s : fstate D) := mkF (fs s) x.
Definition with_freemap (b : bitmap) (x : sfs_fs D) :=
  mkFs (sb_nblocks x) b (sfs_freemapdirty x) (sfs_device x) (vfs_biglock_depth x).
Definition with_freemapdirty (b : bool) (x : sfs_fs D) :=
  mkFs (sb_nblocks x) (sfs_freemap x) b (sfs_device x) (vfs_biglock_depth x).
Definition with_device (d : D) (x : sfs_fs D) :=
  mkFs (sb_nblocks x) (sfs_freemap x) (sfs_freemapdirty x) d (vfs_biglock_depth x).
Definition with_depth (n : Z) (x : sfs_fs D) :=
  mkFs (sb_nblocks x) (sfs_freemap x) (sfs_freemapdirty x) (sfs_device x) n.
Definition upd_fs (f : sfs_fs D → sfs_fs D) : F unit := modify (λ s, with_fs (f (fs s)) s).

(** Change the in-memory inode; every such change sets [sv_dirty]. *)
Definition upd_inode (f : sfs_dinode → sfs_dinode) : F unit :=
  modify (λ s, with_sv (mkVnode (f (sv_i (sv s))) (sv_ino (sv s)) true) s).

Definition on_freemap {A} (m : M bitmap A) : F A :=
  zoom (λ s, sfs_freemap (fs s)) (λ b s, with_fs (with_freemap b (fs s)) s) m.

(** The big lock: the lock functions of synch.c are stubs and
    [lock_do_i_hold] is always true, so only the depth counter changes. *)
Definition vfs_biglock_acquire : F unit :=
  upd_fs (λ x, with_depth (u32 (vfs_biglock_depth x + 1)) x).
Definition vfs_biglock_release : F unit :=
  d ← gets (λ s, vfs_biglock_depth (fs s));
  kassert (0 <? d) "vfs_biglock_depth > 0" ;;
  upd_fs (λ x, with_depth (d - 1) x).

(** *** sfs_io.c: blocks *)

Definition devop_io (write : bool) (rq : request) : F (Z * request) := λ s,
  let '(r, rq', d) := DEVOP_IO write rq (sfs_device (fs s)) in
  Done (r, rq') (with_fs (with_device d (fs s)) s).

(** The [retry] loop: [n] attempts are left. *)
Fixpoint sfs_rwblock_try (n : nat) (write : bool) (rq : request) : F (Z * request) :=
  '(result, rq') ← devop_io write rq;
  if result =? EINVAL then panic "DEVOP_IO returned EINVAL"
  else if result =? EIO then
    match n with
    | O => mret (result, rq')
    | S n' => sfs_rwblock_try n' write rq'
    end
  else mret (result, rq').

(** One attempt and up to ten retries. *)
Definition sfs_rwblock (write : bool) (rq : request) : F (Z * request) :=
  sfs_rwblock_try 10 write rq.

(** [SFSUIO]: one block at [block * SFS_BLOCKSIZE]. *)
Definition SFSUIO (block : Z) (data : list Z) : request :=
  mkReq (block * SFS_BLOCKSIZE) SFS_BLOCKSIZE data.

Definition sfs_readblock (block : Z) : F (Z * list Z) :=
  '(r, rq) ← sfs_rwblock false (SFSUIO block []);
  mret (r, rq_data rq).

Definition sfs_writeblock (block : Z) (data : list Z) : F Z :=
  '(r, _) ← sfs_rwblock true (SFSUIO block data);
  mret r.

(** *** sfs_balloc.c *)

Definition sfs_clearblock (block : Z) : F Z := sfs_writeblock block zero_block.

(** The result and [*diskblock]. *)
Definition sfs_balloc : F (Z * Z) :=
  r ← on_freemap bitmap_alloc;
  match r with
  | inl result => mret (result, 0)
  | inr diskblock =>
      upd_fs (with_freemapdirty true) ;;
      n ← gets (λ s, sb_nblocks (fs s));
      if n <=? diskblock then panic "balloc: invalid block"
      else
        result ← sfs_clearblock diskblock;
        (if negb (result =? 0) then on_freemap (bitmap_unmark diskblock) else mret tt) ;;
        mret (result, diskblock)
  end.

Definition sfs_bfree (diskblock : Z) : F unit :=
  on_freemap (bitmap_unmark diskblock) ;;
  upd_fs (with_freemapdirty true).

Definition sfs_bused (diskblock : Z) : F bool :=
  n ← gets (λ s, sb_nblocks (fs s));
  if n <=? diskblock then panic "sfs_bused called on out of range block"
  else gets (λ s, c_bool (bitmap_isset (sfs_freemap (fs s)) diskblock)).

(** *** sfs_bmap.c *)

(** The check before a block is handed back. *)
Definition hand_back (block : Z) : F (Z * Z) :=
  (if negb (block =? 0) then
     used ← sfs_bused block;
     if negb used then panic "Data block marked free" else mret tt
   else mret tt) ;;
  mret (0, block).

(** The direct part of [sfs_bmap]. *)
Definition sfs_bmap_direct (fileblock : Z) (doalloc : bool) : F (Z * Z) :=
  block ← deref (λ s, sfi_direct (sv_i (sv s)) !! Z.to_nat fileblock) "sfi_direct";
  if (block =? 0) && doalloc then
    '(result, block) ← sfs_balloc;
    if negb (result =? 0) then mret (result, 0)
    else
      upd_inode (λ i, set_direct (<[Z.to_nat fileblock := block]> (sfi_direct i)) i) ;;
      hand_back block
  else hand_back block.

(** The indirect block to use with its contents, or the result to return. *)
Definition get_indirect : F (Z + Z * list Z) :=
  idblock ← gets (λ s, sfi_indirect (sv_i (sv s)));
  if idblock =? 0 then
    '(result, idblock) ← sfs_balloc;
    if negb (result =? 0) then mret (inl result)
    else upd_inode (set_indirect idblock) ;; mret (inr (idblock, zero_block))
  else
    '(result, idbuf) ← sfs_readblock idblock;
    if negb (result =? 0) then mret (inl result) else mret (inr (idblock, idbuf)).

(** The indirect part; [idoff] is the index in the indirect block. *)
Definition sfs_bmap_indirect (idoff : Z) (doalloc : bool) : F (Z * Z) :=
  idblock ← gets (λ s, sfi_indirect (sv_i (sv s)));
  if (idblock =? 0) && negb doalloc then mret (0, 0)
  else
    r ← get_indirect;
    match r with
    | inl result => mret (result, 0)
    | inr (idblock, idbuf) =>
        let block := default 0 (idbuf !! Z.to_nat idoff) in
        if (block =? 0) && doalloc then
          '(result, block) ← sfs_balloc;
          if negb (result =? 0) then mret (result, 0)
          else
            result ← sfs_writeblock idblock (<[Z.to_nat idoff := block]> idbuf);
            if negb (result =? 0) then mret (result, 0) else hand_back block
        else hand_back block
    end.

(** The result and [*diskblock]. *)
Definition sfs_bmap (fileblock : Z) (doalloc : bool) : F (Z * Z) :=
  if fileblock <? SFS_NDIRECT then sfs_bmap_direct fileblock doalloc
  else
    let fb := fileblock - SFS_NDIRECT in
    if SFS_NINDIRECT <=? fb / SFS_DBPERIDB then mret (EFBIG, 0)
    else sfs_bmap_indirect (fb mod SFS_DBPERIDB) doalloc.

(** The loop of [sfs_itrunc] over the direct blocks. *)
Definition trunc_direct (blocklen : Z) : F unit :=
  for_loop (Z.to_nat SFS_NDIRECT) 0 (λ i,
    block ← deref (λ s, sfi_direct (sv_i (sv s)) !! Z.to_nat i) "sfi_direct";
    if (blocklen <=? i) && negb (block =? 0) then
      sfs_bfree block ;;
      upd_inode (λ x, set_direct (<[Z.to_nat i := 0]> (sfi_direct x)) x)
    else mret tt).

(** The loop over the indirect block: the new contents, and whether it still
    has a block and was changed. *)
Fixpoint trunc_indirect (n : nat) (j blocklen : Z) (idbuf : list Z)
    (hasnonzero iddirty : bool) : F (list Z * bool * bool) :=
  match n with
  | O => mret (idbuf, hasnonzero, iddirty)
  | S n' =>
      let b := default 0 (idbuf !! Z.to_nat j) in
      if (blocklen <? SFS_NDIRECT + j) && negb (b =? 0) then
        sfs_bfree b ;;
        trunc_indirect n' (j + 1) blocklen (<[Z.to_nat j := 0]> idbuf) hasnonzero true
      else
        trunc_indirect n' (j + 1) blocklen idbuf (hasnonzero || negb (b =? 0)) iddirty
  end.

Definition sfs_itrunc (len : Z) : F Z :=
  let blocklen := u32 (DIVROUNDUP len SFS_BLOCKSIZE) in
  vfs_biglock_acquire ;;
  trunc_direct blocklen ;;
  idblock ← gets (λ s, sfi_indirect (sv_i (sv s)));
  let highblock := SFS_NDIRECT + SFS_DBPERIDB - 1 in
  r ← (if (blocklen <? highblock) && negb (idblock =? 0) then
         '(result, idbuf) ← sfs_readblock idblock;
         if negb (result =? 0) then mret result
         else
           '(idbuf, hasnonzero, iddirty) ←
             trunc_indirect (Z.to_nat SFS_DBPERIDB) 0 blocklen idbuf false false;
           if negb (hasnonzero : bool) then
             sfs_bfree idblock ;; upd_inode (set_indirect 0) ;; mret 0
           else if (iddirty : bool) then sfs_writeblock idblock idbuf
           else mret 0
       else mret 0);
  if negb (r =? 0) then vfs_biglock_release ;; mret r
  else
    upd_inode (set_size (u32 len)) ;;
    vfs_biglock_release ;;
    mret 0.

(** *** sfs_io.c: metadata *)

Definition words_at (off n : Z) (b : list Z) : list Z :=
  take (Z.to_nat (n / 4)) (drop (Z.to_nat (off / 4)) b).
Definition put_words (off : Z) (data b : list Z) : list Z :=
  take (Z.to_nat (off / 4)) b ++ data ++ drop (Z.to_nat (off / 4) + length data) b.

(** Reading [len] bytes at [actualpos]. *)
Definition sfs_metaio_read (actualpos len : Z) : F (Z * list Z) :=
  let vnblock := actualpos / SFS_BLOCKSIZE in
  let blockoffset := actualpos mod SFS_BLOCKSIZE in
  '(result, diskblock) ← sfs_bmap vnblock false;
  if negb (result =? 0) then mret (result, [])
  else if diskblock =? 0 then mret (0, replicate (Z.to_nat (len / 4)) 0)
  else
    '(result, buf) ← sfs_readblock diskblock;
    if negb (result =? 0) then mret (result, [])
    else mret (0, words_at blockoffset len buf).

Definition sfs_metaio_write (actualpos : Z) (data : list Z) : F Z :=
  let len := 4 * Z.of_nat (length data) in
  let vnblock := actualpos / SFS_BLOCKSIZE in
  let blockoffset := actualpos mod SFS_BLOCKSIZE in
  '(result, diskblock) ← sfs_bmap vnblock true;
  if negb (result =? 0) then mret result
  else if diskblock =? 0 then panic "rw == UIO_READ"
  else
    '(result, buf) ← sfs_readblock diskblock;
    if negb (result =? 0) then mret result
    else
      result ← sfs_writeblock diskblock (put_words blockoffset data buf);
      if negb (result =? 0) then mret result
      else
        let endpos := actualpos + len in
        size ← gets (λ s, sfi_size (sv_i (sv s)));
        (if size <? endpos then upd_inode (set_size (u32 endpos)) else mret tt) ;;
        mret 0.

(** *** sfs_dir.c *)

(** A name is the list of its bytes; [sfd_name] holds it padded with zeros. *)
Record sfs_direntry := mkDirent { sfd_ino : Z; sfd_name : list Z }.

Definition sfs_readdir (slot : Z) : F (Z * list Z) :=
  sfs_metaio_read (slot * SIZEOF_DIRENTRY) SIZEOF_DIRENTRY.

Definition sfs_writedir (slot : Z) (e : list Z) : F Z :=
  kassert (0 <=? slot) "slot>=0" ;;
  sfs_metaio_write (slot * SIZEOF_DIRENTRY) e.

Definition sfs_dir_nentries : F Z :=
  i ← gets (λ s, sv_i (sv s));
  kassert (sfi_type i =? SFS_TYPE_DIR) "sfi_type == SFS_TYPE_DIR" ;;
  if negb (sfi_size i mod SIZEOF_DIRENTRY =? 0) then panic "directory: Invalid size"
  else mret (sfi_size i / SIZEOF_DIRENTRY).

(** Bytes of a big-endian word, and the word of four bytes. *)
Definition bytes_of (w : Z) : list Z :=
  [Z.shiftr w 24 mod 256; Z.shiftr w 16 mod 256; Z.shiftr w 8 mod 256; w mod 256].
Fixpoint words_of (l : list Z) : list Z :=
  match l with
  | a :: b :: c :: d :: l' => (a * 2 ^ 24 + b * 2 ^ 16 + c * 2 ^ 8 + d) :: words_of l'
  | _ => []
  end.

(** The C string in the first [n] bytes, the last one forced to 0. *)
Fixpoint c_string (l : list Z) : list Z :=
  match l with
  | [] => []
  | b :: l' => if b =? 0 then [] else b :: c_string l'
  end.

Definition parse_dirent (ws : list Z) : sfs_direntry :=
  mkDirent (default 0 (head ws)) (c_string (take 59 (tail ws ≫= bytes_of))).

(** [bzero], the inode number and [strcpy] of the name. *)
Definition make_dirent (ino : Z) (name : list Z) : list Z :=
  ino :: words_of (name ++ replicate (60 - length name) 0).

(** The loop of [sfs_dir_findname]: slot [i], [n] slots left, with what was
    found so far. *)
Fixpoint findname_loop (n : nat) (i : Z) (name : list Z) (found : option (Z * Z))
    (emptyslot : Z) : F (Z * option (Z * Z) * Z) :=
  match n with
  | O => mret (match found with Some _ => 0 | None => ENOENT end, found, emptyslot)
  | S n' =>
      '(result, ws) ← sfs_readdir i;
      if negb (result =? 0) then mret (result, None, emptyslot)
      else
        let tsd := parse_dirent ws in
        if sfd_ino tsd =? SFS_NOINO then findname_loop n' (i + 1) name found i
        else if bool_decide (sfd_name tsd = name) then
          kassert (bool_decide (found = None)) "found==0" ;;
          findname_loop n' (i + 1) name (Some (i, sfd_ino tsd)) emptyslot
        else findname_loop n' (i + 1) name found emptyslot
  end.

(** The result, the slot and inode number found, and the last empty slot seen
    (-1 if none). *)
Definition sfs_dir_findname (name : list Z) : F (Z * option (Z * Z) * Z) :=
  nentries ← sfs_dir_nentries;
  findname_loop (Z.to_nat nentries) 0 name None (-1).

(** The result and [*slot]. *)
Definition sfs_dir_link (name : list Z) (ino : Z) : F (Z * Z) :=
  '(result, _, emptyslot) ← sfs_dir_findname name;
  if negb (result =? 0) && negb (result =? ENOENT) then mret (result, -1)
  else if result =? 0 then mret (EEXIST, -1)
  else if SFS_NAMELEN <? Z.of_nat (length name) + 1 then mret (ENAMETOOLONG, -1)
  else
    slot ← (if emptyslot <? 0 then sfs_dir_nentries else mret emptyslot);
    result ← sfs_writedir slot (make_dirent ino name);
    mret (result, slot).

Definition sfs_dir_unlink (slot : Z) : F Z :=
  sfs_writedir slot (make_dirent SFS_NOINO []).

(** *** sfs_inode.c: writing the inode back *)

(** The block image of an inode. *)
Definition inode_words (i : sfs_dinode) : list Z :=
  [sfi_size i; sfi_type i * 2 ^ 16 + sfi_linkcount i] ++ sfi_direct i ++ [sfi_indirect i]
  ++ replicate 110 0.
Definition parse_inode (ws : list Z) : sfs_dinode :=
  let w := default 0 (ws !! 1%nat) in
  mkInode (default 0 (head ws)) (w / 2 ^ 16) (w mod 2 ^ 16)
    (take 15 (drop 2 ws)) (default 0 (ws !! 17%nat)).

Definition sfs_sync_inode : F Z :=
  v ← gets sv;
  if sv_dirty v then
    result ← sfs_writeblock (sv_ino v) (inode_words (sv_i v));
    if negb (result =? 0) then mret result
    else modify (λ s, with_sv (mkVnode (sv_i (sv s)) (sv_ino (sv s)) false) s) ;; mret 0
  else mret 0.
End Sfs.

(** ** The LAMEbus disk (lhd_io)

    [lh_results n] is the result the hardware reports for its [n]-th
    operation. *)

Record lhd := mkLhd {
  d_blocks : Z;
  lh_sectors : Z → list Z;
  lh_results : nat → Z;
  lh_ops : nat
}.

Definition LHD_SECTSIZE : Z := 512.

(** The loop over the sectors, [n] left. *)
Fixpoint lhd_loop (n : nat) (write : bool) (sector : Z) (rq : request) (d : lhd)
    : Z * request * lhd :=
  match n with
  | O => (0, rq, d)
  | S n' =>
      let result := lh_results d (lh_ops d) in
      (* the transfer to the on-card buffer consumes the request first *)
      let rq1 := if write
        then mkReq (rq_offset rq + LHD_SECTSIZE) (rq_resid rq - LHD_SECTSIZE) (drop 128 (rq_data rq))
        else rq in
      let d1 := mkLhd (d_blocks d)
        (if write && (result =? 0)
         then λ x, if x =? sector then take 128 (rq_data rq) else lh_sectors d x
         else lh_sectors d) (lh_results d) (S (lh_ops d)) in
      let rq2 := if negb write && (result =? 0)
        then mkReq (rq_offset rq + LHD_SECTSIZE) (rq_resid rq - LHD_SECTSIZE)
               (rq_data rq ++ lh_sectors d sector)
        else rq1 in
      if negb (result =? 0) then (result, rq2, d1)
      else lhd_loop n' write (sector + 1) rq2 d1
  end.

Definition lhd_io (write : bool) (rq : request) (d : lhd) : Z * request * lhd :=
  let sector := rq_offset rq / LHD_SECTSIZE in
  let sectoff := rq_offset rq mod LHD_SECTSIZE in
  let len := rq_resid rq / LHD_SECTSIZE in
  let lenoff := rq_resid rq mod LHD_SECTSIZE in
  if negb (sectoff =? 0) || negb (lenoff =? 0) then (EINVAL, rq, d)
  else if d_blocks d <? u32 (sector + len) then (EINVAL, rq, d)
  else lhd_loop (Z.to_nat len) write sector rq d.

#[export] Instance lhd_dev : BlockDev lhd := {| DEVOP_IO := lhd_io |}.

(** A write whose first attempt fails is lost: the retry finds an empty
    request, so [sfs_writeblock] reports success although the block on disk has
    not changed. *)
Theorem retried_write_lost (s : fstate lhd) block data :
  let d := sfs_device (fs s) in
  0 <= block → block + 1 < 2 ^ 32 → block + 1 <= d_blocks d →
  lh_results d (lh_ops d) = EIO →
  ∃ s', sfs_writeblock block data s = Done 0 s' ∧
    lh_sectors (sfs_device (fs s')) = lh_sectors d.
Proof.
  intros d H0 H1 H2 Hr. unfold sfs_writeblock, sfs_rwblock, SFSUIO, SFS_BLOCKSIZE.
  assert (lhd_io true (mkReq (block * 512) 512 data) d =
    (EIO, mkReq (block * 512 + 512) 0 (drop 128 data),
     mkLhd (d_blocks d) (lh_sectors d) (lh_results d) (S (lh_ops d)))) as E1.
  { unfold lhd_io, LHD_SECTSIZE. cbn [rq_offset rq_resid rq_data].
    rewrite Z.mod_mul, Z.div_mul by done. change (512 mod 512) with 0. change (512 / 512) with 1.
    rewrite u32_small by lia. destruct (Z.ltb_spec (d_blocks d) (block + 1)); [lia |].
    simpl. by rewrite Hr. }
  set (d1 := mkLhd (d_blocks d) (lh_sectors d) (lh_results d) (S (lh_ops d))) in *.
  assert (lhd_io true (mkReq (block * 512 + 512) 0 (drop 128 data)) d1 =
    (0, mkReq (block * 512 + 512) 0 (drop 128 data), d1)) as E2.
  { unfold lhd_io, LHD_SECTSIZE. cbn [rq_offset rq_resid rq_data].
    replace (block * 512 + 512) with ((block + 1) * 512) by lia.
    rewrite Z.mod_mul, Z.div_mul by done. change (0 mod 512) with 0. change (0 / 512) with 0.
    rewrite Z.add_0_r, u32_small by lia. destruct (Z.ltb_spec (d_blocks d1) (block + 1)); [simpl in *; lia |].
    done. }
  simpl. unfold devop_io, mbind, M_bind. simpl. fold d. rewrite E1. simpl. rewrite E2. simpl.
  eexists. split; reflexivity.
Qed.
(** An eight-sector disk whose first operation fails. *)
Definition wit_disk : fstate lhd :=
  mkF (mkFs 8 (mkBitmap 8 [7]) false
         (mkLhd 8 (λ _, replicate 128 0) (λ n, if (n =? 0)%nat then EIO else 0) 0) 1)
    (mkVnode (mkInode 0 1 1 (replicate 15 0) 0) 5 false).

Lemma retried_write_lost_witness :
  ∃ s', sfs_writeblock 3 (replicate 128 9) wit_disk = Done 0 s' ∧
    lh_sectors (sfs_device (fs s')) = λ _, replicate 128 0.
Proof.
  apply (retried_write_lost wit_disk 3 (replicate 128 9)); [lia | lia | simpl; lia | reflexivity].
Defined.

End Sfs.
