(* ===== verification/SfsProof.v ===== *)
(** * Block allocation and block maps of SFS on a reliable device

    The theorems are proved against [ReliableDev], the contract of a device
    whose operations succeed, and discharged for an in-memory disk. *)

From stdpp Require Import base list gmap numbers strings sets.
From Stdlib Require Import ZArith Lia.
From S2P Require Import Prelude Bitmap Sfs.
Import Bitmap Sfs.

#[local] Open Scope Z_scope.

Module SfsProof.

Class ReliableDev (D : Type) `{!BlockDev D} := {
  contents : D → Z → list Z;
  dev_blocks : D → Z;
  contents_len d b : 0 <= b < dev_blocks d → length (contents d b) = 128%nat;
  read_law d b : 0 <= b < dev_blocks d →
    DEVOP_IO false (SFSUIO b []) d = (0, mkReq (b * 512 + 512) 0 (contents d b), d);
  write_law d b data : 0 <= b < dev_blocks d → length data = 128%nat →
    ∃ d', DEVOP_IO true (SFSUIO b data) d = (0, mkReq (b * 512 + 512) 0 [], d') ∧ dev_blocks d' = dev_blocks d ∧
      ∀ x, contents d' x = if x =? b then data else contents d x
}.

(** A disk in memory. *)
Record rdisk := mkRdisk { rd_blocks : Z; rd_data : Z → list Z }.
Definition rdisk_io (write : bool) (rq : request) (d : rdisk) : Z * request * rdisk :=
  let b := rq_offset rq / 512 in
  if write then
    (0, mkReq (rq_offset rq + 512) 0 [],
     mkRdisk (rd_blocks d) (λ x, if x =? b then rq_data rq else rd_data d x))
  else (0, mkReq (rq_offset rq + 512) 0 (take 128 (rd_data d b ++ zero_block)), d).
#[export] Instance rdisk_dev : BlockDev rdisk := {| DEVOP_IO := rdisk_io |}.
Definition rdisk_contents (d : rdisk) (b : Z) : list Z := take 128 (rd_data d b ++ zero_block).

Lemma rdisk_len d b : length (rdisk_contents d b) = 128%nat.
Proof.
  unfold rdisk_contents. rewrite length_take, length_app. unfold zero_block.
  rewrite length_replicate. lia.
Qed.

Lemma rdisk_read d b :
  rdisk_io false (SFSUIO b []) d = (0, mkReq (b * 512 + 512) 0 (rdisk_contents d b), d).
Proof.
  unfold rdisk_io, SFSUIO, SFS_BLOCKSIZE. cbn [rq_offset rq_resid rq_data].
  by rewrite Z.div_mul by done.
Qed.

Lemma rdisk_write d b data :
  length data = 128%nat →
  ∃ d', rdisk_io true (SFSUIO b data) d = (0, mkReq (b * 512 + 512) 0 [], d') ∧ rd_blocks d' = rd_blocks d ∧
    ∀ x, rdisk_contents d' x = if x =? b then data else rdisk_contents d x.
Proof.
  intros Hd. unfold rdisk_io, SFSUIO, SFS_BLOCKSIZE. cbn [rq_offset rq_resid rq_data].
  rewrite Z.div_mul by done. eexists. split; [reflexivity |]. split; [done |].
  intros x. unfold rdisk_contents. cbn [rd_data]. destruct (x =? b); [| done].
  rewrite take_app_le by lia. by rewrite take_ge by lia.
Qed.

#[export] Instance rdisk_reliable : ReliableDev rdisk := {|
  contents := rdisk_contents;
  dev_blocks := rd_blocks;
  contents_len d b _ := rdisk_len d b;
  read_law d b _ := rdisk_read d b;
  write_law d b data _ := rdisk_write d b data
|}.

Section proofs.
Context {D : Type} `{!BlockDev D} `{!ReliableDev D}.
Implicit Types s : fstate D.

Definition blk s (b : Z) : list Z := contents (sfs_device (fs s)) b.
Definition used s (b : Z) : bool := marked (sfs_freemap (fs s)) b.
Definition inode s : sfs_dinode := sv_i (sv s).

(** The state with another device. *)
Definition set_dev (d : D) s : fstate D := with_fs (with_device d (fs s)) s.

Lemma set_dev_id s : set_dev (sfs_device (fs s)) s = s.
Proof using. by destruct s as [[]]. Qed.

Lemma readblock_eq s b :
  0 <= b < dev_blocks (sfs_device (fs s)) → sfs_readblock b s = Done (0, blk s b) s.
Proof using.
  intros Hb. unfold sfs_readblock, sfs_rwblock. simpl. unfold devop_io, mbind, M_bind.
  rewrite read_law by done. simpl. f_equal. apply set_dev_id.
Qed.

Lemma writeblock_eq s b data :
  0 <= b < dev_blocks (sfs_device (fs s)) → length data = 128%nat →
  ∃ d', sfs_writeblock b data s = Done 0 (set_dev d' s) ∧
    dev_blocks d' = dev_blocks (sfs_device (fs s)) ∧
    ∀ x, contents d' x = if x =? b then data else blk s x.
Proof using.
  intros Hb Hd. destruct (write_law (sfs_device (fs s)) b data Hb Hd) as (d' & E & Hn & Hc).
  exists d'. split; [| done]. unfold sfs_writeblock, sfs_rwblock. simpl.
  unfold devop_io, mbind, M_bind. rewrite E. done.
Qed.

(** ** The volume *)

(** The freemap covers the volume, the superblock and the blocks past the end
    are in use, and the device holds all blocks. *)
Record vol_ok s : Prop := {
  vo_wf : wf (sfs_freemap (fs s));
  vo_bits : 0 < sb_nblocks (fs s) <= nbits (sfs_freemap (fs s));
  vo_past : ∀ b, sb_nblocks (fs s) <= b < nbits (sfs_freemap (fs s)) → used s b = true;
  vo_zero : used s 0 = true;
  vo_dev : sb_nblocks (fs s) <= dev_blocks (sfs_device (fs s))
}.

Lemma vol_ok_fs s s' : fs s' = fs s → vol_ok s → vol_ok s'.
Proof using. intros E []. split; unfold used in *; by rewrite E. Qed.

(** [s'] is [s] with block [b] newly allocated and cleared. *)
Record allocated s s' (b : Z) : Prop := {
  al_range : 0 < b < sb_nblocks (fs s);
  al_free : used s b = false;
  al_used : ∀ j, 0 <= j → used s' j = (b =? j) || used s j;
  al_blk : ∀ x, blk s' x = if x =? b then zero_block else blk s x;
  al_sv : sv s' = sv s;
  al_vol : vol_ok s';
  al_nblocks : sb_nblocks (fs s') = sb_nblocks (fs s);
  al_depth : vfs_biglock_depth (fs s') = vfs_biglock_depth (fs s)
}.

(** [sfs_balloc] hands out a block that was free, now in use and zeroed, or
    fails with ENOSPC when the volume is full and changes nothing. *)
Lemma balloc_ok s :
  vol_ok s →
  (∃ b s', sfs_balloc s = Done (0, b) s' ∧ allocated s s' b) ∨
  (sfs_balloc s = Done (ENOSPC, 0) s ∧ ∀ b, 0 <= b < sb_nblocks (fs s) → used s b = true).
Proof using.
  intros [Hwf Hbits Hpast Hzero Hdev]. unfold sfs_balloc, on_freemap, mbind, M_bind, zoom.
  destruct (bitmap_alloc_spec _ Hwf) as [(b & m' & E & Hwf' & Hn & Hb & Hfree & _ & Hset) | [E Hfull]];
    rewrite E; cbn beta iota.
  2:{ right. split; [by destruct s as [[]] | intros b Hb; apply Hfull; lia]. }
  left. assert (0 < b < sb_nblocks (fs s)) as Hr.
  { unfold used in *. destruct (decide (b = 0)) as [-> |]; [congruence |].
    destruct (Z.lt_ge_cases b (sb_nblocks (fs s))); [lia |].
    rewrite Hpast in Hfree by lia. done. }
  unfold upd_fs, modify, gets. cbn [fs with_fs sb_nblocks with_freemapdirty with_freemap].
  destruct (Z.leb_spec (sb_nblocks (fs s)) b); [lia |]. unfold sfs_clearblock.
  set (s1 := with_fs _ _). destruct (writeblock_eq s1 b zero_block) as (d' & E' & Hd' & Hc);
    [simpl; lia | done |]. rewrite E'. cbn. exists b, (set_dev d' s1). split; [done |].
  simpl in Hd'. split; try done; simpl.
  split; simpl; try done; [by rewrite Hn | | | lia].
  - intros j Hj. unfold used. simpl. rewrite Hset by lia. rewrite Hn in Hj.
    unfold used in Hpast. rewrite Hpast by lia. apply orb_true_r.
  - unfold used. simpl. rewrite Hset by lia. unfold used in Hzero. rewrite Hzero. apply orb_true_r.
Qed.

(** ** Files *)

Definition MAX_FILEBLOCK : Z := SFS_NDIRECT + SFS_DBPERIDB.

(** The disk block of file block [k], 0 for a hole. *)
Definition fmap s (k : Z) : Z :=
  if k <? SFS_NDIRECT then default 0 (sfi_direct (inode s) !! Z.to_nat k)
  else if sfi_indirect (inode s) =? 0 then 0
  else default 0 (blk s (sfi_indirect (inode s)) !! Z.to_nat (k - SFS_NDIRECT)).

Record file_ok s : Prop := {
  fo_vol : vol_ok s;
  fo_len : length (sfi_direct (inode s)) = 15%nat;
  fo_used : ∀ k, 0 <= k < MAX_FILEBLOCK → fmap s k ≠ 0 →
    0 < fmap s k < sb_nblocks (fs s) ∧ used s (fmap s k) = true;
  fo_inj : ∀ k k', 0 <= k < MAX_FILEBLOCK → 0 <= k' < MAX_FILEBLOCK →
    fmap s k ≠ 0 → fmap s k = fmap s k' → k = k';
  fo_indirect : sfi_indirect (inode s) ≠ 0 →
    0 < sfi_indirect (inode s) < sb_nblocks (fs s) ∧ used s (sfi_indirect (inode s)) = true ∧
    ∀ k, 0 <= k < MAX_FILEBLOCK → fmap s k ≠ sfi_indirect (inode s)
}.

Lemma hand_back_eq s b :
  (b ≠ 0 → 0 < b < sb_nblocks (fs s) ∧ used s b = true) → hand_back b s = Done (0, b) s.
Proof using.
  intros H. unfold hand_back, sfs_bused. mrun. destruct (Z.eqb_spec b 0) as [-> | Hb]; [done |].
  destruct (H Hb) as [Hr Hu]. simpl. destruct (Z.leb_spec (sb_nblocks (fs s)) b); [lia |].
  simpl. rewrite bitmap_isset_spec by lia. unfold used in Hu. by rewrite Hu.
Qed.

(** Nothing in use before has changed, except the indirect block. *)
Record kept s s' : Prop := {
  kp_blk : ∀ x, 0 <= x → used s x = true → x ≠ sfi_indirect (inode s) → blk s' x = blk s x;
  kp_used : ∀ x, 0 <= x → used s x = true → used s' x = true;
  kp_ind : sfi_indirect (inode s') = sfi_indirect (inode s) ∨
    sfi_indirect (inode s) = 0 ∧ 0 < sfi_indirect (inode s') ∧ used s (sfi_indirect (inode s')) = false;
  kp_inode : sfi_size (inode s') = sfi_size (inode s) ∧ sfi_type (inode s') = sfi_type (inode s) ∧
    sfi_linkcount (inode s') = sfi_linkcount (inode s) ∧ sv_ino (sv s') = sv_ino (sv s);
  kp_fs : sb_nblocks (fs s') = sb_nblocks (fs s) ∧ vfs_biglock_depth (fs s') = vfs_biglock_depth (fs s)
}.

Lemma kept_refl s : kept s s.
Proof using. split; try done. by left. Qed.
Lemma kept_trans s1 s2 s3 : kept s1 s2 → kept s2 s3 → kept s1 s3.
Proof using.
  intros [A1 A2 A3 A4 A5] [B1 B2 B3 B4 B5]. split.
  - intros x Hx Hu Hi. rewrite B1; auto. intros ->. destruct A3 as [A3 | (_ & _ & A3)]; congruence.
  - auto.
  - destruct B3 as [-> | (B3 & Hp & B3')]; [done |]. right.
    assert (used s1 (sfi_indirect (inode s3)) = false).
    { apply not_true_is_false. intros E. apply A2 in E; [congruence | lia]. }
    destruct A3 as [A3 | (A3 & A3' & _)]; split_and!; congruence.
  - intuition congruence.
  - intuition congruence.
Qed.

Lemma alloc_kept s s' b : allocated s s' b → kept s s'.
Proof using.
  intros Ha. split.
  - intros x Hx Hu Hi. rewrite (al_blk _ _ _ Ha). destruct (Z.eqb_spec x b) as [-> |]; [| done].
    by rewrite (al_free _ _ _ Ha) in Hu.
  - intros x Hx Hu. rewrite (al_used _ _ _ Ha), Hu by done. apply orb_true_r.
  - left. unfold inode. by rewrite (al_sv _ _ _ Ha).
  - unfold inode. by rewrite (al_sv _ _ _ Ha).
  - split; apply Ha.
Qed.

(** What [sfs_bmap] with allocation has done when it returns block [b] for file
    block [k]. *)
Definition bmap_post s s' (k r b : Z) : Prop :=
  file_ok s' ∧ kept s s' ∧ (∀ k', 0 <= k' < MAX_FILEBLOCK → k' ≠ k → fmap s' k' = fmap s k') ∧
  (r = 0 ∧ b ≠ 0 ∧ fmap s' k = b ∧ (fmap s k ≠ 0 → s' = s) ∧
     (fmap s k = 0 → used s b = false ∧ blk s' b = zero_block) ∨
   r = ENOSPC ∧ fmap s k = 0 ∧ fmap s' k = fmap s k).

Lemma alloc_fmap s s' b k :
  file_ok s → allocated s s' b → 0 <= k < MAX_FILEBLOCK → fmap s' k = fmap s k.
Proof using.
  intros Hf Ha Hk. unfold fmap, inode. rewrite (al_sv _ _ _ Ha).
  case_if; [done |]. destruct (Z.eqb_spec (sfi_indirect (sv_i (sv s))) 0) as [| Hi]; [done |].
  rewrite (al_blk _ _ _ Ha). destruct (Z.eqb_spec (sfi_indirect (sv_i (sv s))) b) as [<- |]; [| done].
  destruct (fo_indirect _ Hf Hi) as (_ & Hu & _). pose proof (al_free _ _ _ Ha). unfold inode in Hu.
  congruence.
Qed.

(** Allocating a block the file does not use yet keeps the file intact. *)
Lemma alloc_file_ok s s' b : file_ok s → allocated s s' b → file_ok s'.
Proof using.
  intros Hf Ha.
  assert (∀ x, 0 <= x → used s x = true → used s' x = true) as Hu.
  { intros x Hx Hux. rewrite (al_used _ _ _ Ha), Hux by done. apply orb_true_r. }
  split.
  - apply Ha.
  - unfold inode. rewrite (al_sv _ _ _ Ha). apply Hf.
  - intros k Hk. rewrite (alloc_fmap s s' b) by done. rewrite (al_nblocks _ _ _ Ha). intros Hne.
    destruct (fo_used _ Hf k Hk Hne). split; [done |]. apply Hu; [lia | done].
  - intros k k' Hk Hk'. rewrite !(alloc_fmap s s' b) by done. by apply Hf.
  - unfold inode. rewrite (al_sv _ _ _ Ha), (al_nblocks _ _ _ Ha). intros Hi.
    destruct (fo_indirect _ Hf Hi) as (Hr & Hub & Hne). split; [done |].
    split; [apply Hu; [unfold inode in Hr; lia | done] |].
    intros k Hk. rewrite (alloc_fmap s s' b) by done. by apply Hne.
Qed.

(** A file whose block map was changed at one place, from a hole to a block
    that nothing else uses, is still a good file. *)
Lemma file_ok_extend s s' k b :
  file_ok s → vol_ok s' → sb_nblocks (fs s') = sb_nblocks (fs s) →
  (∀ x, used s' x = used s x) → length (sfi_direct (inode s')) = 15%nat →
  sfi_indirect (inode s') = sfi_indirect (inode s) →
  0 <= k < MAX_FILEBLOCK → 0 < b < sb_nblocks (fs s) → used s b = true →
  (∀ k', 0 <= k' < MAX_FILEBLOCK → fmap s k' ≠ b) → sfi_indirect (inode s) ≠ b →
  (∀ k', 0 <= k' < MAX_FILEBLOCK → fmap s' k' = if k' =? k then b else fmap s k') →
  file_ok s'.
Proof using.
  intros Hf Hv Hn Hu Hl Hi Hk Hb Hub Hfresh Hib Hmap. split; try done.
  - intros k' Hk'. rewrite Hmap, Hn, Hu by done. case_if; [done |]. by apply Hf.
  - intros k1 k2 H1 H2. rewrite !Hmap by done.
    destruct (Z.eqb_spec k1 k), (Z.eqb_spec k2 k); subst; try done; intros Hne E.
    + destruct (Hfresh k2 H2). done.
    + destruct (Hfresh k1 H1). done.
    + by apply (fo_inj _ Hf).
  - rewrite Hi, Hn, Hu. intros Hi0. destruct (fo_indirect _ Hf Hi0) as (Hr & Hui & Hne).
    split; [done |]. split; [done |]. intros k' Hk'. rewrite Hmap by done.
    case_if; [done | by apply Hne].
Qed.

Lemma bmap_direct_ok s k :
  file_ok s → 0 <= k < SFS_NDIRECT →
  ∃ r b s', sfs_bmap_direct k true s = Done (r, b) s' ∧ bmap_post s s' k r b.
Proof using.
  intros Hf Hk. pose proof (fo_len _ Hf) as Hlen. unfold sfs_bmap_direct, deref, mbind, M_bind.
  assert (is_Some (sfi_direct (sv_i (sv s)) !! Z.to_nat k)) as [x Hx]
    by (apply lookup_lt_is_Some; unfold inode, SFS_NDIRECT in *; lia).
  assert (fmap s k = x) as Efm.
  { unfold fmap, inode. destruct (Z.ltb_spec k SFS_NDIRECT); [| lia]. by rewrite Hx. }
  assert (0 <= k < MAX_FILEBLOCK) as Hk' by (unfold MAX_FILEBLOCK, SFS_DBPERIDB; lia).
  rewrite Hx. destruct (Z.eqb_spec x 0) as [-> | Hx0]; simpl.
  2:{ rewrite hand_back_eq by (intros _; rewrite <- Efm; apply (fo_used _ Hf); congruence).
      exists 0, x, s. split; [done |]. split; [done |]. split; [apply kept_refl |]. split; [done |]. left. naive_solver. }
  destruct (balloc_ok s (fo_vol _ Hf)) as [(b & s1 & E & Ha) | [E _]]; rewrite E; simpl.
  2:{ exists ENOSPC, 0, s. split; [done |]. split; [done |]. split; [apply kept_refl |]. split; [done |]. by right. }
  pose proof (alloc_file_ok _ _ _ Hf Ha) as Hf1. pose proof (al_range _ _ _ Ha) as Hr.
  set (s2 := with_sv _ _).
  assert (used s1 b = true) as Hub.
  { rewrite (al_used _ _ _ Ha) by lia. by rewrite Z.eqb_refl. }
  assert (∀ k', 0 <= k' < MAX_FILEBLOCK → fmap s2 k' = if k' =? k then b else fmap s1 k') as Hmap.
  { intros k' Hk''. unfold fmap, inode, s2. simpl. unfold set_direct. simpl.
    rewrite (al_sv _ _ _ Ha). destruct (Z.ltb_spec k' SFS_NDIRECT).
    - destruct (Z.eqb_spec k' k) as [-> |]; [by rewrite list_lookup_insert_eq by
        (unfold inode, SFS_NDIRECT in *; lia) |]. rewrite list_lookup_insert_ne by lia. done.
    - destruct (Z.eqb_spec k' k); [lia | done]. }
  assert (file_ok s2) as Hf2.
  { apply (file_ok_extend s1 s2 k b); try done.
    - by eapply vol_ok_fs; [| apply Ha].
    - unfold inode, s2. simpl. rewrite length_insert. apply Hf1.
    - by rewrite (al_nblocks _ _ _ Ha).
    - intros k' Hk'' E'. rewrite (alloc_fmap s s1 b) in E' by done.
      destruct (fo_used _ Hf k' Hk'') as [_ Hu]; [lia |].
      rewrite E', (al_free _ _ _ Ha) in Hu. done.
    - intros E'. unfold inode in E'. rewrite (al_sv _ _ _ Ha) in E'.
      destruct (fo_indirect _ Hf) as (_ & Hu & _); unfold inode in *; [lia |].
      rewrite E', (al_free _ _ _ Ha) in Hu. done. }
  rewrite hand_back_eq by (intros _; split; [simpl; rewrite (al_nblocks _ _ _ Ha); lia | done]).
  exists 0, b, s2. split; [done |]. split; [done |]. split.
  { destruct (alloc_kept _ _ _ Ha) as [A1 A2 A3 A4 A5]. by split. }
  split.
  - intros k' Hk'' Hne. rewrite Hmap by done. apply Z.eqb_neq in Hne as ->. by apply (alloc_fmap s s1 b).
  - left. split_and!; [done | lia | rewrite Hmap, Z.eqb_refl by done; done | done |].
    intros _. split; [apply Ha |]. unfold blk, s2. simpl. change (contents (sfs_device (fs s1)) b) with (blk s1 b).
    rewrite (al_blk _ _ _ Ha). by rewrite Z.eqb_refl.
Qed.

(** The indirect block is there afterwards, and the map is what it was. *)
Lemma get_indirect_ok s :
  file_ok s →
  (∃ s1, get_indirect s = Done (inr (sfi_indirect (inode s1), blk s1 (sfi_indirect (inode s1)))) s1 ∧
     file_ok s1 ∧ sfi_indirect (inode s1) ≠ 0 ∧
     (∀ k, 0 <= k < MAX_FILEBLOCK → fmap s1 k = fmap s k) ∧
     (∀ x, 0 <= x → used s1 x = false → used s x = false) ∧
     (sfi_indirect (inode s) ≠ 0 → s1 = s) ∧ kept s s1) ∨
  get_indirect s = Done (inl ENOSPC) s ∧ sfi_indirect (inode s) = 0.
Proof using.
  intros Hf. unfold get_indirect, mbind, M_bind, gets.
  change (sfi_indirect (sv_i (sv s))) with (sfi_indirect (inode s)).
  destruct (Z.eqb_spec (sfi_indirect (inode s)) 0) as [Hi | Hi].
  2:{ left. exists s. destruct (fo_indirect _ Hf Hi) as (Hr & _).
      pose proof (vo_dev _ (fo_vol _ Hf)). rewrite readblock_eq by lia. simpl.
      split; [done |]. pose proof (kept_refl s). done. }
  destruct (balloc_ok s (fo_vol _ Hf)) as [(b & s1 & E & Ha) | [E _]]; rewrite E; simpl; [| by right].
  left. pose proof (alloc_file_ok _ _ _ Hf Ha) as Hf1. pose proof (al_range _ _ _ Ha) as Hr.
  set (s2 := with_sv _ _).
  assert (blk s2 b = zero_block) as Hz.
  { change (blk s2 b) with (blk s1 b). by rewrite (al_blk _ _ _ Ha), Z.eqb_refl. }
  assert (sfi_indirect (inode s2) = b) as Hib by done.
  assert (∀ k, 0 <= k < MAX_FILEBLOCK → fmap s2 k = fmap s k) as Hmap.
  { intros k Hk. rewrite <- (alloc_fmap s s1 b) by done. unfold fmap. rewrite Hib, Hz.
    unfold inode. simpl. rewrite (al_sv _ _ _ Ha). unfold inode in Hi. rewrite Hi. simpl.
    destruct (Z.ltb_spec k SFS_NDIRECT); [done |]. destruct (Z.eqb_spec b 0); [lia |].
    unfold zero_block. rewrite lookup_replicate_2; [done |].
    unfold MAX_FILEBLOCK, SFS_NDIRECT, SFS_DBPERIDB in *. lia. }
  exists s2. rewrite Hib, Hz. split; [done |]. split_and!; [| lia | done | | done |].
  - assert (∀ k, 0 <= k < MAX_FILEBLOCK → fmap s k ≠ b) as Hfresh.
    { intros k Hk E'. destruct (fo_used _ Hf k Hk) as [_ Hu]; [lia |].
      rewrite E', (al_free _ _ _ Ha) in Hu. done. }
    assert (∀ x, used s2 x = used s1 x) as Hu by done.
    split.
    + by eapply vol_ok_fs; [| apply Ha].
    + unfold inode. simpl. rewrite (al_sv _ _ _ Ha). apply Hf.
    + intros k Hk. rewrite Hmap, Hu by done. rewrite <- (alloc_fmap s s1 b) by done.
      by apply (fo_used _ Hf1).
    + intros k k' Hk Hk'. rewrite !Hmap by done. by apply (fo_inj _ Hf).
    + rewrite Hib. intros _. simpl. rewrite (al_nblocks _ _ _ Ha). split; [done |].
      split; [| intros k Hk; rewrite Hmap by done; by apply Hfresh].
      rewrite Hu, (al_used _ _ _ Ha), Z.eqb_refl by lia. done.
  - intros x Hx. change (used s2 x) with (used s1 x). rewrite (al_used _ _ _ Ha) by done.
    by destruct (b =? x).
  - destruct (alloc_kept _ _ _ Ha) as [A1 A2 A3 A4 A5]. split; try done.
    right. rewrite Hib. split_and!; [done | lia | apply Ha].
Qed.

(** Writing the entry of a new block into the indirect block. *)
Lemma indirect_write_ok s b idoff :
  file_ok s → sfi_indirect (inode s) ≠ 0 → 0 <= idoff < SFS_DBPERIDB →
  0 < b < sb_nblocks (fs s) → used s b = true →
  (∀ k', 0 <= k' < MAX_FILEBLOCK → fmap s k' ≠ b) → sfi_indirect (inode s) ≠ b →
  let idb := sfi_indirect (inode s) in
  ∃ s', sfs_writeblock idb (<[Z.to_nat idoff := b]> (blk s idb)) s = Done 0 s' ∧ file_ok s' ∧
    (∀ k', 0 <= k' < MAX_FILEBLOCK → fmap s' k' = if k' =? SFS_NDIRECT + idoff then b else fmap s k') ∧
    blk s' b = blk s b ∧ fs s' = with_device (sfs_device (fs s')) (fs s) ∧ kept s s'.
Proof using.
  intros Hf Hi Ho Hb Hub Hfresh Hib idb. destruct (fo_indirect _ Hf Hi) as (Hr & Hui & _).
  pose proof (vo_dev _ (fo_vol _ Hf)) as Hdev.
  assert (length (blk s idb) = 128%nat) as Hlen by (apply contents_len; unfold idb; lia).
  destruct (writeblock_eq s idb (<[Z.to_nat idoff := b]> (blk s idb))) as (d' & E & Hd & Hc);
    [unfold idb; lia | by rewrite length_insert |].
  exists (set_dev d' s). split; [done |].
  assert (∀ k', 0 <= k' < MAX_FILEBLOCK →
    fmap (set_dev d' s) k' = if k' =? SFS_NDIRECT + idoff then b else fmap s k') as Hmap.
  { intros k' Hk'. unfold fmap. change (inode (set_dev d' s)) with (inode s). fold idb.
    destruct (Z.ltb_spec k' SFS_NDIRECT); [destruct (Z.eqb_spec k' (SFS_NDIRECT + idoff)); [lia | done] |].
    destruct (Z.eqb_spec idb 0); [done |].
    change (blk (set_dev d' s) idb) with (contents d' idb). rewrite Hc, Z.eqb_refl.
    destruct (Z.eqb_spec k' (SFS_NDIRECT + idoff)) as [-> | Hne].
    - replace (SFS_NDIRECT + idoff - SFS_NDIRECT) with idoff by lia.
      rewrite list_lookup_insert_eq; [done |]. unfold SFS_DBPERIDB in Ho. lia.
    - rewrite list_lookup_insert_ne; [done |]. unfold SFS_NDIRECT in *. lia. }
  split_and!; [| done | | done |].
  - apply (file_ok_extend s _ (SFS_NDIRECT + idoff) b); try done.
    + destruct (fo_vol _ Hf) as []. split; try done. simpl. lia.
    + apply (fo_len _ Hf).
    + unfold MAX_FILEBLOCK, SFS_NDIRECT. lia.
  - change (blk (set_dev d' s) b) with (contents d' b). rewrite Hc.
    destruct (Z.eqb_spec b idb); [| done]. unfold idb in *. congruence.
  - split; try done; [| by left]. intros x Hx _ Hxi. change (blk (set_dev d' s) x) with (contents d' x).
    rewrite Hc. unfold idb. by apply Z.eqb_neq in Hxi as ->.
Qed.

Lemma bmap_indirect_ok s idoff :
  file_ok s → 0 <= idoff < SFS_DBPERIDB →
  ∃ r b s', sfs_bmap_indirect idoff true s = Done (r, b) s' ∧
    bmap_post s s' (SFS_NDIRECT + idoff) r b.
Proof using.
  intros Hf Ho. set (k := SFS_NDIRECT + idoff).
  assert (0 <= k < MAX_FILEBLOCK) as Hk by (unfold k, MAX_FILEBLOCK, SFS_NDIRECT; lia).
  unfold sfs_bmap_indirect, mbind, M_bind, gets. rewrite andb_false_r.
  destruct (get_indirect_ok s Hf) as [(s1 & E & Hf1 & Hi1 & Hm1 & Hu1 & Hsame & Kp1) | [E Hi]]; rewrite E.
  2:{ exists ENOSPC, 0, s. split; [done |]. split; [done |]. split; [apply kept_refl |]. split; [done |].
      right. split_and!; try done. unfold fmap. destruct (Z.ltb_spec k SFS_NDIRECT); [unfold k in *; lia | by rewrite Hi]. }
  cbn beta iota.
  assert (default 0 (blk s1 (sfi_indirect (inode s1)) !! Z.to_nat idoff) = fmap s1 k) as Efm.
  { unfold fmap. destruct (Z.ltb_spec k SFS_NDIRECT); [unfold k in *; lia |].
    destruct (Z.eqb_spec (sfi_indirect (inode s1)) 0); [done |].
    by replace (k - SFS_NDIRECT) with idoff by (unfold k; lia). }
  rewrite Efm. rewrite andb_true_r. destruct (Z.eqb_spec (fmap s1 k) 0) as [Hz | Hnz].
  2:{ rewrite hand_back_eq by (intros _; by apply (fo_used _ Hf1)).
      assert (s1 = s) as ->.
      { apply Hsame. intros H0. rewrite Hm1 in Hnz by done. apply Hnz. unfold fmap.
        destruct (Z.ltb_spec k SFS_NDIRECT); [unfold k in *; lia | by rewrite H0]. }
      exists 0, (fmap s k), s. split; [done |]. split; [done |]. split; [done |]. split; [done |]. left. naive_solver. }
  destruct (balloc_ok s1 (fo_vol _ Hf1)) as [(b & s2 & E2 & Ha) | [E2 _]]; rewrite E2; simpl.
  2:{ exists ENOSPC, 0, s1. split; [done |]. split; [done |]. split; [done |]. split; [auto |]. right. split; [done |].
      split; [by rewrite <- Hm1 | by apply Hm1]. }
  pose proof (alloc_file_ok _ _ _ Hf1 Ha) as Hf2. pose proof (al_range _ _ _ Ha) as Hr.
  assert (inode s2 = inode s1) as Ei by (unfold inode; by rewrite (al_sv _ _ _ Ha)).
  assert (used s2 b = true) as Hub by (rewrite (al_used _ _ _ Ha), Z.eqb_refl by lia; done).
  assert (sfi_indirect (inode s1) ≠ b) as Hib.
  { intros E'. destruct (fo_indirect _ Hf1 Hi1) as (_ & Hu & _).
    rewrite E', (al_free _ _ _ Ha) in Hu. done. }
  assert (blk s1 (sfi_indirect (inode s1)) = blk s2 (sfi_indirect (inode s2))) as ->.
  { rewrite Ei, (al_blk _ _ _ Ha). by apply Z.eqb_neq in Hib as ->. }
  destruct (indirect_write_ok s2 b idoff) as (s3 & E3 & Hf3 & Hm3 & Hb3 & Hfs3 & Kp3);
    rewrite ?Ei; try done.
  { by rewrite (al_nblocks _ _ _ Ha). }
  { intros k' Hk' E'. rewrite (alloc_fmap s1 s2 b) in E' by done.
    destruct (fo_used _ Hf1 k' Hk') as [_ Hu]; [lia |]. rewrite E', (al_free _ _ _ Ha) in Hu. done. }
  rewrite Ei in E3. rewrite ?Ei, E3. simpl.
  rewrite hand_back_eq by (intros _; unfold used; rewrite Hfs3; simpl;
    rewrite (al_nblocks _ _ _ Ha); done).
  exists 0, b, s3. split; [done |]. split; [done |]. split.
  { eapply kept_trans, kept_trans; [exact Kp1 | by eapply alloc_kept | exact Kp3]. }
  split.
  - intros k' Hk' Hne. rewrite Hm3 by done. fold k. apply Z.eqb_neq in Hne as ->.
    rewrite (alloc_fmap s1 s2 b) by done. by apply Hm1.
  - left. split_and!; [done | lia | | |].
    + rewrite Hm3 by done. fold k. by rewrite Z.eqb_refl.
    + rewrite <- Hm1 by done. done.
    + intros _. split; [apply Hu1; [lia | apply Ha] |].
      rewrite Hb3, (al_blk _ _ _ Ha). by rewrite Z.eqb_refl.
Qed.

Lemma bmap_alloc_ok s k :
  file_ok s → 0 <= k < MAX_FILEBLOCK →
  ∃ r b s', sfs_bmap k true s = Done (r, b) s' ∧ bmap_post s s' k r b.
Proof using.
  intros Hf Hk. unfold sfs_bmap. destruct (Z.ltb_spec k SFS_NDIRECT).
  { apply bmap_direct_ok; [done | lia]. }
  unfold MAX_FILEBLOCK, SFS_NINDIRECT, SFS_DBPERIDB in *.
  rewrite (Z.div_small (k - SFS_NDIRECT)), Z.mod_small by lia. simpl.
  destruct (bmap_indirect_ok s (k - SFS_NDIRECT)) as (r & b & s' & E & H');
    [done | unfold SFS_DBPERIDB; lia |].
  exists r, b, s'. split; [done |].
  by replace (SFS_NDIRECT + (k - SFS_NDIRECT)) with k in H' by lia.
Qed.

(** [sfs_bmap] with allocation: it returns the block of the file's map,
    allocating a fresh zeroed one for a hole, or ENOSPC; the rest of the file's
    map is unchanged and the file stays well formed: no block is handed to two
    places of the file and every block it uses is marked in use. *)
Theorem sfs_bmap_alloc s k :
  file_ok s → 0 <= k < MAX_FILEBLOCK →
  ∃ r b s', sfs_bmap k true s = Done (r, b) s' ∧ bmap_post s s' k r b.
Proof using. apply bmap_alloc_ok. Qed.

(** Without allocation it only reads the map. *)
Theorem sfs_bmap_lookup s k :
  file_ok s → 0 <= k →
  sfs_bmap k false s = Done (if k <? MAX_FILEBLOCK then (0, fmap s k) else (EFBIG, 0)) s.
Proof using.
  intros Hf Hk. unfold sfs_bmap. destruct (Z.ltb_spec k SFS_NDIRECT) as [Hlt | Hge].
  - assert (0 <= k < MAX_FILEBLOCK) as Hk' by (unfold MAX_FILEBLOCK, SFS_DBPERIDB; lia).
    destruct (Z.ltb_spec k MAX_FILEBLOCK); [| lia].
    unfold sfs_bmap_direct, deref, mbind, M_bind.
    assert (is_Some (sfi_direct (sv_i (sv s)) !! Z.to_nat k)) as [x Hx].
    { apply lookup_lt_is_Some. pose proof (fo_len _ Hf). unfold inode, SFS_NDIRECT in *. lia. }
    rewrite Hx, andb_false_r.
    assert (fmap s k = x) as <-.
    { unfold fmap, inode. destruct (Z.ltb_spec k SFS_NDIRECT); [| lia]. by rewrite Hx. }
    apply hand_back_eq. by apply (fo_used _ Hf).
  - unfold MAX_FILEBLOCK, SFS_NINDIRECT. destruct (Z.ltb_spec k (SFS_NDIRECT + SFS_DBPERIDB)) as [Hlt | Hge'].
    + unfold SFS_DBPERIDB in *. rewrite (Z.div_small (k - SFS_NDIRECT)), Z.mod_small by lia. simpl.
      unfold sfs_bmap_indirect, mbind, M_bind, gets. rewrite andb_true_r.
      change (sfi_indirect (sv_i (sv s))) with (sfi_indirect (inode s)).
      assert (fmap s k = if sfi_indirect (inode s) =? 0 then 0
        else default 0 (blk s (sfi_indirect (inode s)) !! Z.to_nat (k - SFS_NDIRECT))) as Efm.
      { unfold fmap. destruct (Z.ltb_spec k SFS_NDIRECT); [lia | done]. }
      destruct (Z.eqb_spec (sfi_indirect (inode s)) 0) as [| Hi]; [by rewrite Efm |].
      destruct (get_indirect_ok s Hf) as [(s1 & E & _ & _ & _ & _ & Hs & _) | [_ ?]]; [| done].
      rewrite (Hs Hi) in E. rewrite E. cbn beta iota. rewrite andb_false_r, <- Efm.
      apply hand_back_eq. apply (fo_used _ Hf). unfold MAX_FILEBLOCK, SFS_DBPERIDB. lia.
    + assert (1 <= (k - SFS_NDIRECT) / SFS_DBPERIDB) as Hd
        by (apply Z.div_le_lower_bound; unfold SFS_DBPERIDB in *; lia).
      apply Z.leb_le in Hd. by rewrite Hd.
Qed.
End proofs.

(** ** A concrete file: fifteen direct blocks, one indirect block with two
       entries *)

Definition wit_file : fstate rdisk :=
  mkF (mkFs 64 (mkBitmap 64 [0xff; 0xff; 0xff; 0x0f; 0; 0; 0; 0]) false
         (mkRdisk 64 (λ b, if b =? 19 then 20 :: 21 :: replicate 126 0 else replicate 128 b)) 0)
      (mkVnode (mkInode (17 * 512) SFS_TYPE_FILE 1 (seqZ 4 15) 19) 2 false).

Lemma forall_range (P : Z → bool) n :
  forallb P (seqZ 0 n) = true → ∀ k, 0 <= k < n → P k = true.
Proof.
  intros H k Hk. rewrite forallb_forall in H. apply H. apply list_elem_of_In, elem_of_seqZ. lia.
Qed.

Lemma wit_vol_ok : vol_ok wit_file.
Proof.
  split; try done.
  - split; try done; [| intros i Hi; simpl in Hi; lia].
    simpl. repeat (apply Forall_cons_2; [unfold fits; lia |]). apply Forall_nil_2.
  - intros b Hb. simpl in Hb. lia.
Qed.

Definition wit_map : list Z := (λ k, fmap wit_file k) <$> seqZ 0 143.

Lemma wit_map_eq : wit_map = seqZ 4 15 ++ [20; 21] ++ replicate 126 0.
Proof. vm_compute. reflexivity. Qed.

Lemma wit_fmap k :
  0 <= k < 143 → fmap wit_file k = default 0 ((seqZ 4 15 ++ [20; 21] ++ replicate 126 0) !! Z.to_nat k).
Proof.
  intros Hk. rewrite <- wit_map_eq. unfold wit_map. rewrite list_lookup_fmap, lookup_seqZ_lt by lia.
  simpl. f_equal. lia.
Qed.

(** The map is [4 .. 18; 20; 21] and then holes. *)
Lemma wit_fmap_cases k :
  0 <= k < 143 → fmap wit_file k = (if k <? 15 then 4 + k else if k <? 17 then 5 + k else 0).
Proof.
  intros Hk. rewrite wit_fmap by done.
  pose proof (forall_range (λ k, default 0 ((seqZ 4 15 ++ [20; 21] ++ replicate 126 0) !! Z.to_nat k)
    =? (if k <? 15 then 4 + k else if k <? 17 then 5 + k else 0)) 143 eq_refl k Hk) as H.
  by apply Z.eqb_eq in H.
Qed.

Lemma wit_used b : 0 <= b < 64 → used wit_file b = (b <? 28).
Proof.
  intros Hb. pose proof (forall_range (λ b, eqb (marked (sfs_freemap (fs wit_file)) b) (b <? 28)) 64 eq_refl b Hb) as H.
  by apply eqb_prop in H.
Qed.

Lemma wit_file_ok : file_ok wit_file.
Proof.
  split; [exact wit_vol_ok | done | | |]; change MAX_FILEBLOCK with 143.
  - intros k Hk. rewrite wit_fmap_cases by done. change (sb_nblocks (fs wit_file)) with 64.
    intros Hne. rewrite wit_used; repeat (case_if; zbool); lia.
  - intros k k' Hk Hk'. rewrite !wit_fmap_cases by done. repeat (case_if; zbool); lia.
  - intros _. split; [done |]. split; [by rewrite wit_used |]. intros k Hk.
    rewrite wit_fmap_cases by done. change (sfi_indirect (inode wit_file)) with 19.
    repeat (case_if; zbool); lia.
Qed.

Lemma sfs_bmap_alloc_witness :
  ∃ r b s', sfs_bmap 17 true wit_file = Done (r, b) s' ∧ bmap_post wit_file s' 17 r b.
Proof. apply (sfs_bmap_alloc wit_file 17); [exact wit_file_ok | unfold MAX_FILEBLOCK, SFS_NDIRECT, SFS_DBPERIDB; lia]. Defined.

Lemma sfs_bmap_lookup_witness :
  sfs_bmap 16 false wit_file = Done (if 16 <? MAX_FILEBLOCK then (0, fmap wit_file 16) else (EFBIG, 0)) wit_file.
Proof. apply (sfs_bmap_lookup wit_file 16); [exact wit_file_ok | lia]. Defined.

(** [sfs_itrunc] compares [blocklen < baseblock+j] where the direct blocks use
    [i >= blocklen]: truncating the 17-block file to 16 blocks leaves its last
    block, now past the end of the file, allocated and mapped, whereas cutting
    it to one block frees it. *)
Theorem itrunc_keeps_block_past_eof :
  (∃ s', sfs_itrunc (16 * 512) wit_file = Done 0 s' ∧ sfi_size (inode s') = 16 * 512 ∧
     fmap s' 16 = 21 ∧ used s' 21 = true) ∧
  (∃ s', sfs_itrunc 512 wit_file = Done 0 s' ∧ sfi_size (inode s') = 512 ∧
     fmap s' 16 = 0 ∧ used s' 21 = false).
Proof.
  split; eexists; (split; [vm_compute; reflexivity |]); vm_compute; done.
Qed.
End SfsProof.
