(* ===== verification/SfsIo.v ===== *)
(** * Reading and writing SFS files (fs/sfs/sfs_io.c: sfs_partialio, sfs_blockio, sfs_io)

    The transfer is to or from one region of kernel memory, as [uio_kinit] sets it
    up for the swap file, the executables and the kernel's own reads; Uio.v shows that
    [uiomove] then moves exactly the bytes asked for.  A [fuio] is what changes of the
    [struct uio]: the offset, the bytes left, and the bytes still to be written or
    read so far.  The theorems say that a file is an array of bytes: a write changes
    the bytes it covers and no others, and a read returns them. *)

From stdpp Require Import base list gmap numbers strings sets.
From Stdlib Require Import ZArith Lia.
From S2P Require Import Prelude Bitmap Sfs SfsProof.
Import Bitmap Sfs SfsProof.

#[local] Open Scope Z_scope.

Module SfsIo.

Record fuio := mkFuio { uio_offset : Z; uio_resid : Z; uio_data : list Z }.

(** [n] bytes have been moved. *)
Definition moved (n : Z) (data : list Z) (u : fuio) : fuio :=
  mkFuio (uio_offset u + n) (uio_resid u - n) data.

(** [uiomove] of [n] bytes out of, and into, a kernel buffer; [uiomovezeros]. *)
Definition uiomove_read (n : Z) (src : list Z) (u : fuio) : fuio :=
  let m := Z.min n (uio_resid u) in
  moved m (uio_data u ++ take (Z.to_nat m) src) u.
Definition uiomove_write (n : Z) (u : fuio) : list Z * fuio :=
  let m := Z.min n (uio_resid u) in
  (take (Z.to_nat m) (uio_data u), moved m (drop (Z.to_nat m) (uio_data u)) u).

(** The bytes of a block, and replacing some of them. *)
Definition bytes (ws : list Z) : list Z := ws ≫= bytes_of.
Definition splice (skip : Z) (new old : list Z) : list Z :=
  take (Z.to_nat skip) old ++ new ++ drop (Z.to_nat skip + length new) old.

Section io.
Context {D : Type} `{!BlockDev D}.
Abbreviation F := (M (fstate D)).

Definition sfs_partialio (write : bool) (u : fuio) (skipstart len : Z) : F (Z * fuio) :=
  kassert (u32 (skipstart + len) <=? SFS_BLOCKSIZE) "skipstart + len <= SFS_BLOCKSIZE" ;;
  let fileblock := u32 (Z.quot (uio_offset u) SFS_BLOCKSIZE) in
  '(result, diskblock) ← sfs_bmap fileblock write;
  if negb (result =? 0) then mret (result, u)
  else
    '(result, buf) ←
      (if diskblock =? 0 then kassert (negb write) "uio->uio_rw == UIO_READ" ;; mret (0, zero_block)
       else sfs_readblock diskblock);
    if negb (result =? 0) then mret (result, u)
    else if write then
      let '(new, u') := uiomove_write len u in
      result ← sfs_writeblock diskblock (words_of (splice skipstart new (bytes buf)));
      mret (result, u')
    else mret (0, uiomove_read len (drop (Z.to_nat skipstart) (bytes buf)) u).

(** The product [diskblock * SFS_BLOCKSIZE] is computed in 32 bits. *)
Definition sfs_blockio (write : bool) (u : fuio) : F (Z * fuio) :=
  let fileblock := u32 (Z.quot (uio_offset u) SFS_BLOCKSIZE) in
  '(result, diskblock) ← sfs_bmap fileblock write;
  if negb (result =? 0) then mret (result, u)
  else if diskblock =? 0 then
    kassert (negb write) "uio->uio_rw == UIO_READ" ;;
    mret (0, uiomove_read SFS_BLOCKSIZE (replicate 512 0) u)
  else
    let saveoff := uio_offset u in
    let diskoff := u32 (diskblock * SFS_BLOCKSIZE) in
    kassert (SFS_BLOCKSIZE <=? uio_resid u) "uio->uio_resid >= SFS_BLOCKSIZE" ;;
    let saveres := uio_resid u in
    let diskres := SFS_BLOCKSIZE in
    '(result, rq) ← sfs_rwblock write
       (mkReq diskoff diskres (if write then words_of (take 512 (uio_data u)) else []));
    let data := if write then drop (Z.to_nat (diskres - rq_resid rq)) (uio_data u)
                else uio_data u ++ bytes (rq_data rq) in
    mret (result, mkFuio (rq_offset rq - diskoff + saveoff) (rq_resid rq - diskres + saveres) data).

(** The loop over the whole blocks. *)
Fixpoint blocks_loop (nblocks : nat) (write : bool) (u : fuio) : F (Z * fuio) :=
  match nblocks with
  | O => mret (0, u)
  | S n =>
      '(result, u') ← sfs_blockio write u;
      if negb (result =? 0) then mret (result, u') else blocks_loop n write u'
  end.

(** The leading partial block. *)
Definition sfs_io_lead (write : bool) (u : fuio) : F (Z * fuio) :=
  let blkoff := u32 (Z.rem (uio_offset u) SFS_BLOCKSIZE) in
  if negb (blkoff =? 0) then
    let len := SFS_BLOCKSIZE - blkoff in
    sfs_partialio write u blkoff (if uio_resid u <? len then uio_resid u else len)
  else mret (0, u).

(** From there to the label [out]. *)
Definition sfs_io_parts (write : bool) (u : fuio) : F (Z * fuio) :=
  '(result, u) ← sfs_io_lead write u;
  if negb (result =? 0) then mret (result, u)
  else if uio_resid u =? 0 then mret (0, u)
  else
    kassert (Z.rem (uio_offset u) SFS_BLOCKSIZE =? 0) "uio->uio_offset % SFS_BLOCKSIZE == 0" ;;
    '(result, u) ← blocks_loop (Z.to_nat (uio_resid u / SFS_BLOCKSIZE)) write u;
    if negb (result =? 0) then mret (result, u)
    else
      kassert (uio_resid u <? SFS_BLOCKSIZE) "uio->uio_resid < SFS_BLOCKSIZE" ;;
      if 0 <? uio_resid u then sfs_partialio write u 0 (uio_resid u) else mret (0, u).

(** The label [out]. *)
Definition sfs_io_out (write : bool) (origresid extraresid result : Z) (u : fuio) : F (Z * fuio) :=
  size ← gets (λ s, sfi_size (sv_i (sv s)));
  (if negb (uio_resid u =? origresid) && write && (size <? uio_offset u)
   then upd_inode (set_size (u32 (uio_offset u))) else mret tt) ;;
  mret (result, mkFuio (uio_offset u) (uio_resid u + extraresid) (uio_data u)).

Definition sfs_io (write : bool) (u : fuio) : F (Z * fuio) :=
  let origresid := u32 (uio_resid u) in
  size ← gets (λ s, sfi_size (sv_i (sv s)));
  let endpos := uio_offset u + uio_resid u in
  if negb write && (size <=? uio_offset u) then mret (0, u)
  else
    let past := negb write && (size <? endpos) in
    let extraresid := if past then u32 (endpos - size) else 0 in
    kassert (negb past || (extraresid <? uio_resid u)) "uio->uio_resid > extraresid" ;;
    '(result, u) ← sfs_io_parts write (mkFuio (uio_offset u) (uio_resid u - extraresid) (uio_data u));
    sfs_io_out write origresid extraresid result u.
End io.

(** ** Bytes and words *)

Definition is_byte (b : Z) : Prop := 0 <= b < 256.

Lemma bytes_cons w ws : bytes (w :: ws) = bytes_of w ++ bytes ws.
Proof. reflexivity. Qed.
Lemma length_bytes ws : length (bytes ws) = (4 * length ws)%nat.
Proof. induction ws as [|w ws IH]; [done |]. rewrite bytes_cons, length_app, IH. simpl. lia. Qed.

Lemma bytes_range ws : Forall is_byte (bytes ws).
Proof.
  induction ws as [|w ws IH]; [constructor |]. rewrite bytes_cons. simpl.
  repeat (apply Forall_cons_2; [apply Z.mod_pos_bound; lia |]). exact IH.
Qed.

Lemma bytes_of_word a b c d :
  is_byte a → is_byte b → is_byte c → is_byte d →
  bytes_of (a * 2 ^ 24 + b * 2 ^ 16 + c * 2 ^ 8 + d) = [a; b; c; d].
Proof.
  unfold is_byte, bytes_of. intros Ha Hb Hc Hd. rewrite !Z.shiftr_div_pow2 by lia.
  assert (∀ x y, x = y → ∀ l l' : list Z, l = l' → x :: l = y :: l') as Hc' by (by intros x y -> l l' ->).
  repeat apply Hc'; try done; Z.to_euclidean_division_equations; lia.
Qed.

(** Induction on a list of bytes four at a time. *)
Lemma four_ind (P : list Z → Prop) :
  P [] → (∀ a b c d l, P l → P (a :: b :: c :: d :: l)) →
  ∀ n l, length l = (4 * n)%nat → P l.
Proof.
  intros H0 H4 n. induction n as [|n IH]; intros l Hl; [by destruct l |].
  destruct l as [|a [|b [|c [|d l]]]]; simpl in Hl; try lia. apply H4, IH. lia.
Qed.

Lemma length_words_of n l : length l = (4 * n)%nat → length (words_of l) = n.
Proof.
  intros Hl. assert (length l = (4 * length (words_of l))%nat); [| lia].
  pattern l. apply (four_ind _) with n; [done | | done]. intros a b c d l' IH. simpl. lia.
Qed.

Lemma bytes_words n l : length l = (4 * n)%nat → Forall is_byte l → bytes (words_of l) = l.
Proof.
  intros Hl. pattern l. apply (four_ind _) with n; [done | | done]. intros a b c d l' IH Hf.
  apply Forall_cons in Hf as [Ha Hf]. apply Forall_cons in Hf as [Hb Hf].
  apply Forall_cons in Hf as [Hc Hf]. apply Forall_cons in Hf as [Hd Hf].
  cbn [words_of]. rewrite bytes_cons, bytes_of_word, IH by done. done.
Qed.

Lemma bytes_zero : bytes zero_block = replicate 512 0.
Proof. reflexivity. Qed.

Lemma length_splice skip new old :
  0 <= skip → (Z.to_nat skip + length new <= length old)%nat → length (splice skip new old) = length old.
Proof. intros H0 H. unfold splice. rewrite !length_app, length_take, length_drop. lia. Qed.

Lemma lookup_splice skip new old i :
  0 <= skip → (Z.to_nat skip + length new <= length old)%nat →
  splice skip new old !! i =
  if decide (Z.to_nat skip <= i < Z.to_nat skip + length new)%nat then new !! (i - Z.to_nat skip)%nat else old !! i.
Proof.
  intros H0 H. unfold splice. destruct (decide (i < Z.to_nat skip)%nat).
  - rewrite lookup_app_l by (rewrite length_take; lia). rewrite lookup_take_lt by lia.
    by rewrite decide_False by lia.
  - rewrite lookup_app_r by (rewrite length_take; lia). rewrite length_take_le by lia.
    destruct (decide (i < Z.to_nat skip + length new)%nat).
    + by rewrite lookup_app_l, decide_True by lia.
    + rewrite lookup_app_r, decide_False by lia. rewrite lookup_drop. f_equal. lia.
Qed.

Lemma splice_range skip new old :
  Forall is_byte new → Forall is_byte old → Forall is_byte (splice skip new old).
Proof. intros Hn Ho. unfold splice. auto using Forall_app_2, Forall_take, Forall_drop. Qed.

(** ** A file as an array of bytes *)

Section content.
Context {D : Type} `{!BlockDev D} `{!ReliableDev D}.
Implicit Types s : fstate D.

Definition MAX_SIZE : Z := MAX_FILEBLOCK * SFS_BLOCKSIZE.

(** The words and the bytes of file block [k]. *)
Definition fwords s (k : Z) : list Z := if fmap s k =? 0 then zero_block else blk s (fmap s k).
Definition fbytes s (k : Z) : list Z := bytes (fwords s k).
Definition fbyte s (p : Z) : Z := default 0 (fbytes s (p / 512) !! Z.to_nat (p mod 512)).

Definition same_content s s' : Prop := ∀ k, 0 <= k < MAX_FILEBLOCK → fwords s' k = fwords s k.

Lemma length_fwords s k : file_ok s → 0 <= k < MAX_FILEBLOCK → length (fwords s k) = 128%nat.
Proof using.
  intros Hf Hk. unfold fwords. destruct (Z.eqb_spec (fmap s k) 0) as [| Hne]; [done |].
  destruct (fo_used _ Hf k Hk Hne) as [Hr _]. pose proof (vo_dev _ (fo_vol _ Hf)).
  unfold blk. rewrite contents_len by lia. done.
Qed.
Lemma length_fbytes s k : file_ok s → 0 <= k < MAX_FILEBLOCK → length (fbytes s k) = 512%nat.
Proof using. intros Hf Hk. unfold fbytes. by rewrite length_bytes, length_fwords. Qed.
Lemma fbytes_range s k : Forall is_byte (fbytes s k).
Proof using. apply bytes_range. Qed.

(** Whatever [sfs_bmap] allocates, the bytes of the file are what they were. *)
Lemma kept_content s s' :
  file_ok s → kept s s' → (∀ k, 0 <= k < MAX_FILEBLOCK → fmap s k ≠ 0 → fmap s' k = fmap s k) →
  (∀ k, 0 <= k < MAX_FILEBLOCK → fmap s k = 0 → fwords s' k = zero_block) → same_content s s'.
Proof using.
  intros Hf K Hm Hz k Hk. destruct (decide (fmap s k = 0)) as [E | Hne].
  { rewrite (Hz k) by done. unfold fwords. by rewrite E. }
  unfold fwords. rewrite (Hm k) by done. apply Z.eqb_neq in Hne as E. rewrite E.
  destruct (fo_used _ Hf k Hk Hne) as [Hr Hu]. apply (kp_blk _ _ K); [lia | done |].
  intros Hi. destruct (decide (sfi_indirect (inode s) = 0)); [lia |].
  destruct (fo_indirect _ Hf) as (_ & _ & Hd); [done |]. by apply (Hd k).
Qed.

Lemma bmap_content s s' k r b : file_ok s → 0 <= k < MAX_FILEBLOCK → bmap_post s s' k r b → same_content s s'.
Proof using.
  intros Hf Hk (_ & K & Ho & Hr). apply kept_content; try done.
  - intros k' Hk' Hne. destruct (decide (k' = k)) as [-> |]; [| by apply Ho].
    destruct Hr as [(_ & _ & _ & Hs & _) | (_ & _ & ?)]; [by rewrite (Hs Hne) | done].
  - intros k' Hk' Hz. unfold fwords. destruct (decide (k' = k)) as [-> |]; [| by rewrite Ho, Hz].
    destruct Hr as [(_ & Hb & <- & _ & Hn) | (_ & _ & Hr)]; [| by rewrite Hr, Hz].
    apply Z.eqb_neq in Hb as ->. by destruct (Hn Hz) as [_ ->].
Qed.

(** Block [b] of file block [k] has been overwritten. *)
Lemma overwrite_content s d' k ws :
  file_ok s → 0 <= k < MAX_FILEBLOCK → fmap s k ≠ 0 →
  dev_blocks d' = dev_blocks (sfs_device (fs s)) →
  (∀ x, contents d' x = if x =? fmap s k then ws else blk s x) →
  let s' := set_dev d' s in
  file_ok s' ∧ ∀ k', 0 <= k' < MAX_FILEBLOCK → fwords s' k' = if k' =? k then ws else fwords s k'.
Proof using.
  intros Hf Hk Hne Hd Hc s'. destruct (fo_used _ Hf k Hk Hne) as [Hr Hu].
  assert (Hm : ∀ k', 0 <= k' < MAX_FILEBLOCK → fmap s' k' = fmap s k').
  { intros k' Hk'. unfold fmap. change (inode s') with (inode s). destruct (k' <? SFS_NDIRECT); [done |].
    destruct (Z.eqb_spec (sfi_indirect (inode s)) 0) as [| Hi]; [done |].
    change (blk s' (sfi_indirect (inode s))) with (contents d' (sfi_indirect (inode s))). rewrite Hc.
    destruct (Z.eqb_spec (sfi_indirect (inode s)) (fmap s k)) as [E |]; [| done].
    destruct (fo_indirect _ Hf Hi) as (_ & _ & Hi'). by destruct (Hi' k Hk). }
  split.
  - destruct Hf as [Hv Hl Hus Hin Hind]. split; try done.
    + destruct Hv as [V1 V2 V3 V4 V5]. split; try done. simpl. by rewrite Hd.
    + intros k' Hk'. rewrite Hm by done. by apply Hus.
    + intros k1 k2 Hk1 Hk2. rewrite !Hm by done. by apply Hin.
    + intros Hi. destruct (Hind Hi) as (A & B & C). split; [exact A |]. split; [exact B |]. intros k' Hk'. rewrite Hm by done. by apply C.
  - intros k' Hk'. unfold fwords. rewrite Hm by done. destruct (Z.eqb_spec k' k) as [-> | Hkk].
    + apply Z.eqb_neq in Hne as ->. change (blk s' (fmap s k)) with (contents d' (fmap s k)). by rewrite Hc, Z.eqb_refl.
    + destruct (Z.eqb_spec (fmap s k') 0); [done |]. change (blk s' (fmap s k')) with (contents d' (fmap s k')). rewrite Hc.
      destruct (Z.eqb_spec (fmap s k') (fmap s k)) as [E |]; [| done]. destruct Hkk. by apply (fo_inj _ Hf).
Qed.

(** Bytes [off .. off + length new) have been replaced. *)
Definition wrote s s' (off : Z) (new : list Z) : Prop :=
  ∀ p, 0 <= p < MAX_SIZE →
    fbyte s' p = if decide (off <= p < off + Z.of_nat (length new)) then default 0 (new !! Z.to_nat (p - off)) else fbyte s p.

Lemma same_wrote s s' off : same_content s s' → wrote s s' off [].
Proof using.
  intros H p Hp. rewrite decide_False by (simpl; lia). unfold fbyte, fbytes. rewrite H; [done |].
  unfold MAX_SIZE, SFS_BLOCKSIZE in Hp. Z.to_euclidean_division_equations. lia.
Qed.

Lemma wrote_trans s1 s2 s3 off new1 new2 :
  wrote s1 s2 off new1 → wrote s2 s3 (off + Z.of_nat (length new1)) new2 → wrote s1 s3 off (new1 ++ new2).
Proof using.
  intros H1 H2 p Hp. rewrite H2, H1 by done. rewrite length_app, Nat2Z.inj_add.
  repeat case_decide; try lia; try done.
  - rewrite lookup_app_r by lia. do 2 f_equal. lia.
  - rewrite lookup_app_l by lia. done.
Qed.

Lemma wrote_same s1 s2 s3 off new : same_content s1 s2 → wrote s2 s3 off new → wrote s1 s3 off new.
Proof using.
  intros H1 H2. apply (wrote_trans s1 s2 s3 off [] new); [by apply same_wrote |]. simpl. by rewrite Z.add_0_r.
Qed.

(** One block of the file, spliced. *)
Lemma splice_wrote s s' k skip new :
  file_ok s → 0 <= k < MAX_FILEBLOCK → 0 <= skip → skip + Z.of_nat (length new) <= 512 →
  (∀ k', 0 <= k' < MAX_FILEBLOCK → fbytes s' k' = if k' =? k then splice skip new (fbytes s k) else fbytes s k') →
  wrote s s' (k * 512 + skip) new.
Proof using.
  intros Hf Hk Hs Hl H p Hp. assert (0 <= p / 512 < MAX_FILEBLOCK) as Hpk.
  { unfold MAX_SIZE, SFS_BLOCKSIZE in Hp. Z.to_euclidean_division_equations. lia. }
  pose proof (length_fbytes s k Hf Hk) as Hlen.
  pose proof (Z.div_mod p 512 ltac:(lia)) as Hdm. pose proof (Z.mod_pos_bound p 512 ltac:(lia)) as Hmb.
  unfold fbyte. rewrite H by done. destruct (Z.eqb_spec (p / 512) k) as [Hq | Hq].
  - rewrite lookup_splice by lia. rewrite Hq. destruct (decide (k * 512 + skip <= p < k * 512 + skip + Z.of_nat (length new))).
    + rewrite decide_True by lia. do 2 f_equal. lia.
    + by rewrite decide_False by lia.
  - rewrite decide_False; [done |]. intros Hin. apply Hq. lia.
Qed.

(** ** One block *)

(** What an operation on the file leaves alone. *)
Definition attrs s s' : Prop :=
  sfi_size (inode s') = sfi_size (inode s) ∧ sfi_type (inode s') = sfi_type (inode s) ∧
  sfi_linkcount (inode s') = sfi_linkcount (inode s) ∧ sv_ino (sv s') = sv_ino (sv s) ∧
  sb_nblocks (fs s') = sb_nblocks (fs s) ∧ vfs_biglock_depth (fs s') = vfs_biglock_depth (fs s).
Lemma kept_attrs s s' : kept s s' → attrs s s'.
Proof using. intros [_ _ _ A B]. unfold attrs. intuition. Qed.
Lemma attrs_trans s1 s2 s3 : attrs s1 s2 → attrs s2 s3 → attrs s1 s3.
Proof using. unfold attrs. intuition congruence. Qed.

(** The next [n] bytes have been written, or there was no room and none has. *)
Definition wchunk s s' (u : fuio) (n r : Z) (u' : fuio) : Prop :=
  file_ok s' ∧ attrs s s' ∧
  (r = 0 ∧ u' = moved n (drop (Z.to_nat n) (uio_data u)) u ∧
     wrote s s' (uio_offset u) (take (Z.to_nat n) (uio_data u)) ∨
   r = ENOSPC ∧ u' = u ∧ same_content s s').

Lemma fileblock_eq off : 0 <= off < MAX_SIZE → u32 (Z.quot off SFS_BLOCKSIZE) = off / 512.
Proof using.
  intros H. unfold MAX_SIZE, MAX_FILEBLOCK, SFS_NDIRECT, SFS_DBPERIDB, SFS_BLOCKSIZE in *.
  rewrite Z.quot_div_nonneg by lia. apply u32_small. Z.to_euclidean_division_equations. lia.
Qed.
Lemma block_range off : 0 <= off < MAX_SIZE → 0 <= off / 512 < MAX_FILEBLOCK.
Proof using. intros H. unfold MAX_SIZE, SFS_BLOCKSIZE in H. Z.to_euclidean_division_equations. lia. Qed.

(** The block of the file map with its new contents. *)
Lemma block_write_ok s d' k skip new :
  file_ok s → 0 <= k < MAX_FILEBLOCK → fmap s k ≠ 0 →
  0 <= skip → skip + Z.of_nat (length new) <= 512 → Forall is_byte new →
  dev_blocks d' = dev_blocks (sfs_device (fs s)) →
  (∀ x, contents d' x = if x =? fmap s k then words_of (splice skip new (bytes (blk s (fmap s k)))) else blk s x) →
  file_ok (set_dev d' s) ∧ wrote s (set_dev d' s) (k * 512 + skip) new.
Proof using.
  intros Hf Hk Hne Hs Hl Hb Hd Hc. destruct (overwrite_content s d' k _ Hf Hk Hne Hd Hc) as [Hf' Hw]. split; [done |].
  assert (Efb : fbytes s k = bytes (blk s (fmap s k))) by (unfold fbytes, fwords; by apply Z.eqb_neq in Hne as ->).
  pose proof (length_fbytes s k Hf Hk) as Hlen.
  apply splice_wrote; try done. intros k' Hk'. unfold fbytes at 1. rewrite Hw by done. destruct (k' =? k); [| done].
  rewrite <- Efb. apply (bytes_words 128).
  - rewrite length_splice; lia.
  - apply splice_range; [done | apply fbytes_range].
Qed.

Lemma partial_write_ok s u skip len :
  file_ok s → 0 <= uio_offset u < MAX_SIZE → skip = uio_offset u mod 512 → 0 <= len → skip + len <= 512 →
  len <= uio_resid u → Z.of_nat (length (uio_data u)) = uio_resid u → Forall is_byte (uio_data u) →
  ∃ r u' s', sfs_partialio true u skip len s = Done (r, u') s' ∧ wchunk s s' u len r u'.
Proof using.
  intros Hf Ho Hskip Hlen Hsl Hres Hdata Hbytes. pose proof (block_range _ Ho) as Hk. set (k := uio_offset u / 512) in *.
  pose proof (Z.mod_pos_bound (uio_offset u) 512 ltac:(lia)) as Hmb.
  unfold sfs_partialio, mbind, M_bind. rewrite u32_small by lia. unfold SFS_BLOCKSIZE at 1.
  rewrite (proj2 (Z.leb_le _ _) Hsl). cbn [kassert]. rewrite fileblock_eq by done. fold k.
  destruct (bmap_alloc_ok s k Hf Hk) as (r & b & s1 & E & Post). unfold kassert. cbv [mret M_ret]. cbv beta iota. rewrite E.
  pose proof (bmap_content s s1 k r b Hf Hk Post) as Hsame. destruct Post as (Hf1 & Kp & _ & Hr). pose proof (kept_attrs _ _ Kp) as Hat.
  destruct Hr as [(-> & Hb0 & Hm & _) | [-> _]].
  2:{ exists ENOSPC, u, s1. split; [done |]. split; [done |]. split; [done |]. by right. }
  cbn [Z.eqb negb]. assert (Hne : fmap s1 k ≠ 0) by congruence. destruct (fo_used _ Hf1 k Hk Hne) as [Hrange _].
  pose proof (vo_dev _ (fo_vol _ Hf1)) as Hdev. rewrite <- Hm. apply Z.eqb_neq in Hne as Hne'. rewrite Hne'.
  rewrite readblock_eq by lia. cbn [Z.eqb negb]. unfold uiomove_write. rewrite (Z.min_l len) by done.
  set (new := take (Z.to_nat len) (uio_data u)).
  assert (Hnew : Z.of_nat (length new) = len) by (unfold new; rewrite length_take_le; lia).
  assert (Hlb : length (bytes (blk s1 (fmap s1 k))) = 512%nat).
  { rewrite length_bytes. unfold blk. rewrite contents_len by lia. done. }
  destruct (writeblock_eq s1 (fmap s1 k) (words_of (splice skip new (bytes (blk s1 (fmap s1 k)))))) as (d' & Ew & Hd & Hc).
  { lia. }
  { apply length_words_of. rewrite length_splice; lia. }
  rewrite Ew. eexists 0, _, _. split; [reflexivity |].
  destruct (block_write_ok s1 d' k skip new) as [Hf2 Hw]; try done; [lia | lia | by apply Forall_take |].
  split; [done |]. split; [done |]. left. split_and!; try done. eapply wrote_same; [exact Hsame |].
  replace (uio_offset u) with (k * 512 + skip); [done |]. unfold k. rewrite Hskip.
  pose proof (Z.div_mod (uio_offset u) 512). lia.
Qed.

(** Byte offsets on the disk fit 32 bits. *)
Definition small_disk s : Prop := sb_nblocks (fs s) <= 2 ^ 23.

Lemma block_write_all s u :
  file_ok s → small_disk s → 0 <= uio_offset u < MAX_SIZE → uio_offset u mod 512 = 0 → 512 <= uio_resid u →
  Z.of_nat (length (uio_data u)) = uio_resid u → Forall is_byte (uio_data u) →
  ∃ r u' s', sfs_blockio true u s = Done (r, u') s' ∧ wchunk s s' u 512 r u'.
Proof using.
  intros Hf Hsm Ho Hal Hres Hdata Hbytes. pose proof (block_range _ Ho) as Hk. set (k := uio_offset u / 512) in *.
  unfold sfs_blockio, mbind, M_bind. rewrite fileblock_eq by done. fold k.
  destruct (bmap_alloc_ok s k Hf Hk) as (r & b & s1 & E & Post). rewrite E.
  pose proof (bmap_content s s1 k r b Hf Hk Post) as Hsame. destruct Post as (Hf1 & Kp & _ & Hr). pose proof (kept_attrs _ _ Kp) as Hat.
  destruct Hr as [(-> & Hb0 & Hm & _) | [-> _]].
  2:{ exists ENOSPC, u, s1. split; [done |]. split; [done |]. split; [done |]. by right. }
  cbn [Z.eqb negb]. assert (Hne : fmap s1 k ≠ 0) by congruence. destruct (fo_used _ Hf1 k Hk Hne) as [Hrange _].
  pose proof (vo_dev _ (fo_vol _ Hf1)) as Hdev. rewrite <- Hm. apply Z.eqb_neq in Hne as Hne'. rewrite Hne'.
  assert (Hnb : sb_nblocks (fs s1) <= 2 ^ 23) by (unfold small_disk in Hsm; destruct Hat as (_ & _ & _ & _ & -> & _); done).
  unfold SFS_BLOCKSIZE. rewrite u32_small by lia. rewrite (proj2 (Z.leb_le 512 _)) by done.
  set (new := take 512 (uio_data u)). assert (Hnew : length new = 512%nat) by (unfold new; rewrite length_take_le; lia).
  assert (Hlw : length (words_of new) = 128%nat) by (apply length_words_of; lia).
  destruct (write_law (sfs_device (fs s1)) (fmap s1 k) (words_of new)) as (d' & Ew & Hd & Hc); [lia | done |].
  unfold kassert, sfs_rwblock. cbv [mret M_ret]. cbv beta iota. cbn [sfs_rwblock_try]. unfold mbind, M_bind, devop_io.
  unfold SFSUIO, SFS_BLOCKSIZE in Ew. rewrite Ew. cbn [Z.eqb]. cbv [mret M_ret]. cbv beta iota.
  eexists 0, _, (set_dev d' s1). split; [reflexivity |].
  assert (Hlb : length (bytes (blk s1 (fmap s1 k))) = 512%nat).
  { rewrite length_bytes. unfold blk. rewrite contents_len by lia. done. }
  destruct (block_write_ok s1 d' k 0 new) as [Hf2 Hw]; try done; [lia | by apply Forall_take | |].
  { intros x. rewrite Hc. destruct (x =? fmap s1 k); [| done]. f_equal. unfold splice.
    rewrite take_0, drop_ge by (simpl; lia). by rewrite app_nil_r. }
  split; [done |]. split; [done |]. left. split_and!; try done.
  - unfold moved. cbn [rq_offset rq_resid]. f_equal; lia.
  - eapply wrote_same; [exact Hsame |].
    replace (uio_offset u) with (k * 512 + 0); [done |]. unfold k. pose proof (Z.div_mod (uio_offset u) 512). lia.
Qed.

(** The bytes [off .. off + n). *)
Definition frange s (off n : Z) : list Z := fbyte s <$> seqZ off n.

Lemma length_frange s off n : 0 <= n → Z.of_nat (length (frange s off n)) = n.
Proof using. intros. unfold frange. rewrite length_fmap, length_seqZ. lia. Qed.
Lemma frange_app s off n m : 0 <= n → 0 <= m → frange s off (n + m) = frange s off n ++ frange s (off + n) m.
Proof using. intros. unfold frange. by rewrite seqZ_app, fmap_app by lia. Qed.

(** A part of one block. *)
Lemma frange_block s off len :
  file_ok s → 0 <= off < MAX_SIZE → 0 <= len → off mod 512 + len <= 512 →
  take (Z.to_nat len) (drop (Z.to_nat (off mod 512)) (fbytes s (off / 512))) = frange s off len.
Proof using.
  intros Hf Ho Hl Hs. pose proof (length_fbytes s (off / 512) Hf (block_range _ Ho)) as Hlen.
  pose proof (Z.div_mod off 512 ltac:(lia)) as Hdm. pose proof (Z.mod_pos_bound off 512 ltac:(lia)) as Hmb.
  apply list_eq. intros i. unfold frange. rewrite list_lookup_fmap.
  destruct (decide (i < Z.to_nat len)%nat) as [Hi | Hi].
  - rewrite lookup_take_lt, lookup_drop, lookup_seqZ_lt by lia. simpl. unfold fbyte.
    assert ((off + Z.of_nat i) / 512 = off / 512) as -> by (Z.to_euclidean_division_equations; lia).
    assert ((off + Z.of_nat i) mod 512 = off mod 512 + Z.of_nat i) as -> by (Z.to_euclidean_division_equations; lia).
    replace (Z.to_nat (off mod 512 + Z.of_nat i)) with (Z.to_nat (off mod 512) + i)%nat by lia.
    destruct (lookup_lt_is_Some_2 (fbytes s (off / 512)) (Z.to_nat (off mod 512) + i)) as (x & ->); [lia | done].
  - rewrite lookup_take_ge, lookup_seqZ_ge by lia. done.
Qed.

(** The next [n] bytes have been read. *)
Definition rchunk s (u : fuio) (n : Z) : fuio := moved n (uio_data u ++ frange s (uio_offset u) n) u.

Lemma partial_read_ok s u skip len :
  file_ok s → 0 <= uio_offset u < MAX_SIZE → skip = uio_offset u mod 512 → 0 <= len → skip + len <= 512 →
  len <= uio_resid u → sfs_partialio false u skip len s = Done (0, rchunk s u len) s.
Proof using.
  intros Hf Ho Hskip Hlen Hsl Hres. pose proof (block_range _ Ho) as Hk. set (k := uio_offset u / 512) in *.
  pose proof (Z.mod_pos_bound (uio_offset u) 512 ltac:(lia)) as Hmb.
  unfold sfs_partialio, mbind, M_bind. rewrite u32_small by lia. unfold SFS_BLOCKSIZE at 1.
  rewrite (proj2 (Z.leb_le _ _) Hsl). unfold kassert. cbv [mret M_ret]. cbv beta iota. rewrite fileblock_eq by done. fold k.
  rewrite sfs_bmap_lookup, (proj2 (Z.ltb_lt _ _)) by (done || lia). cbn [Z.eqb negb].
  pose proof (frange_block s (uio_offset u) len Hf Ho Hlen) as Hfr. rewrite <- Hskip in Hfr. fold k in Hfr. unfold fbytes, fwords in Hfr.
  unfold rchunk, uiomove_read. rewrite (Z.min_l len) by done. rewrite <- Hfr by done.
  destruct (Z.eqb_spec (fmap s k) 0) as [Hz | Hne]; cbn [Z.eqb negb]; [done |].
  destruct (fo_used _ Hf k Hk Hne) as [Hrange _]. pose proof (vo_dev _ (fo_vol _ Hf)) as Hdev.
  rewrite readblock_eq by lia. done.
Qed.

Lemma block_read_ok s u :
  file_ok s → small_disk s → 0 <= uio_offset u < MAX_SIZE → uio_offset u mod 512 = 0 → 512 <= uio_resid u →
  sfs_blockio false u s = Done (0, rchunk s u 512) s.
Proof using.
  intros Hf Hsm Ho Hal Hres. pose proof (block_range _ Ho) as Hk. set (k := uio_offset u / 512) in *.
  unfold sfs_blockio, mbind, M_bind. rewrite fileblock_eq by done. fold k.
  rewrite sfs_bmap_lookup, (proj2 (Z.ltb_lt _ _)) by (done || lia). cbn [Z.eqb negb].
  pose proof (length_fbytes s k Hf Hk) as Hlen.
  pose proof (frange_block s (uio_offset u) 512 Hf Ho ltac:(lia)) as Hfr. rewrite Hal in Hfr. fold k in Hfr.
  rewrite drop_0, take_ge in Hfr by lia. unfold rchunk. rewrite <- Hfr by lia. unfold fbytes, fwords.
  destruct (Z.eqb_spec (fmap s k) 0) as [Hz | Hne].
  { unfold uiomove_read. change SFS_BLOCKSIZE with 512. rewrite (Z.min_l 512) by done. rewrite bytes_zero. by rewrite take_ge by (rewrite length_replicate; lia). }
  destruct (fo_used _ Hf k Hk Hne) as [Hrange _]. pose proof (vo_dev _ (fo_vol _ Hf)) as Hdev. unfold small_disk in Hsm.
  unfold SFS_BLOCKSIZE. rewrite u32_small by lia. rewrite (proj2 (Z.leb_le 512 _)) by done.
  pose proof (read_law (sfs_device (fs s)) (fmap s k)) as Er. unfold SFSUIO, SFS_BLOCKSIZE in Er.
  unfold kassert, sfs_rwblock. cbv [mret M_ret]. cbv beta iota. cbn [sfs_rwblock_try]. unfold mbind, M_bind, devop_io.
  rewrite Er by lia. cbn [Z.eqb]. cbv [mret M_ret]. cbv beta iota. change (with_fs (with_device (sfs_device (fs s)) (fs s)) s) with (set_dev (sfs_device (fs s)) s).
  rewrite set_dev_id. do 2 f_equal. unfold moved. cbn [rq_offset rq_resid rq_data]. f_equal; lia.
Qed.

(** ** Whole transfers *)

(** Of the next [total] bytes the first [n] have been written: all of them, or as many
    as there was room for. *)
Definition wrun s s' (u : fuio) (total r : Z) (u' : fuio) : Prop :=
  file_ok s' ∧ attrs s s' ∧ ∃ n, 0 <= n <= total ∧
    u' = moved n (drop (Z.to_nat n) (uio_data u)) u ∧
    wrote s s' (uio_offset u) (take (Z.to_nat n) (uio_data u)) ∧
    (r = 0 ∧ n = total ∨ r = ENOSPC ∧ n < total).

(** A region to be written. *)
Definition region (u : fuio) : Prop :=
  0 <= uio_offset u ∧ 0 <= uio_resid u ∧ uio_offset u + uio_resid u <= MAX_SIZE ∧
  Z.of_nat (length (uio_data u)) = uio_resid u ∧ Forall is_byte (uio_data u).

Lemma fuio_moved_0 u : moved 0 (drop (Z.to_nat 0) (uio_data u)) u = u.
Proof using. destruct u. unfold moved. simpl. f_equal; lia. Qed.

Lemma region_moved u n : region u → 0 <= n <= uio_resid u → region (moved n (drop (Z.to_nat n) (uio_data u)) u).
Proof using.
  intros (H1 & H2 & H3 & H4 & H5) Hn. unfold region, moved. simpl. split_and!; try lia.
  - rewrite length_drop. lia.
  - by apply Forall_drop.
Qed.

Lemma wchunk_run s s' u n r u' : 0 < n → wchunk s s' u n r u' → wrun s s' u n r u'.
Proof using.
  intros Hn (Hf & Ha & [(-> & -> & Hw) | (-> & -> & Hs)]); (split; [done |]); (split; [done |]).
  - exists n. split; [lia |]. split; [done |]. split; [done |]. by left.
  - exists 0. split; [lia |]. rewrite fuio_moved_0. split; [done |]. split; [by apply same_wrote | by right].
Qed.

Lemma wrun_app s s1 s2 u u1 u2 t1 t2 r :
  wrun s s1 u t1 0 u1 → wrun s1 s2 u1 t2 r u2 → Z.of_nat (length (uio_data u)) = uio_resid u → t1 + t2 <= uio_resid u →
  wrun s s2 u (t1 + t2) r u2.
Proof using.
  intros (_ & A1 & n1 & Hn1 & -> & W1 & R1) (F2 & A2 & n2 & Hn2 & -> & W2 & R2) Hl Ht.
  assert (n1 = t1) as -> by (destruct R1 as [[_ ?] | [? _]]; done).
  split; [done |]. split; [by eapply attrs_trans |]. exists (t1 + n2). split; [lia |]. split_and!.
  - unfold moved. simpl. rewrite drop_drop. f_equal; [lia | lia |]. f_equal. lia.
  - rewrite Z2Nat.inj_add by lia. rewrite <- take_take_drop. eapply wrote_trans; [exact W1 |].
    rewrite length_take_le by lia. rewrite Z2Nat.id by lia. exact W2.
  - destruct R2 as [[-> ->] | [-> ?]]; [by left | right; split; [done | lia]].
Qed.

Lemma wrun_fail s s' u t t' u' : t <= t' → wrun s s' u t ENOSPC u' → wrun s s' u t' ENOSPC u'.
Proof using.
  intros Ht (F & A & n & Hn & E & W & R). split; [done |]. split; [done |]. exists n.
  split; [lia |]. split; [done |]. split; [done |]. right. destruct R as [[? _] | [_ ?]]; [done | split; [done | lia]].
Qed.

Lemma attrs_small s s' : attrs s s' → small_disk s → small_disk s'.
Proof using. unfold small_disk. by intros (_ & _ & _ & _ & -> & _). Qed.

Lemma wrun_cases s s' u t r u' : wrun s s' u t r u' →
  r = 0 ∧ u' = moved t (drop (Z.to_nat t) (uio_data u)) u ∨ r = ENOSPC.
Proof using. intros (_ & _ & n & _ & -> & _ & [[-> ->] | [-> _]]); [by left | by right]. Qed.

Lemma wrun_nil s u : file_ok s → wrun s s u 0 0 u.
Proof using.
  intros Hf. split; [done |]. split; [done |]. exists 0. rewrite fuio_moved_0.
  split; [lia |]. split; [done |]. split; [by apply same_wrote | by left].
Qed.

Lemma blocks_write_ok n : ∀ s u,
  file_ok s → small_disk s → region u → uio_offset u mod 512 = 0 → Z.of_nat n * 512 <= uio_resid u →
  ∃ r u' s', blocks_loop n true u s = Done (r, u') s' ∧ wrun s s' u (Z.of_nat n * 512) r u'.
Proof using.
  induction n as [|n IH]; intros s u Hf Hsm Hreg Hal Hn.
  { exists 0, u, s. split; [done | by apply wrun_nil]. }
  destruct Hreg as (R1 & R2 & R3 & R4 & R5). cbn [blocks_loop]. unfold mbind, M_bind.
  destruct (block_write_all s u) as (r1 & u1 & s1 & E1 & W1); try done; try lia. rewrite E1.
  apply wchunk_run in W1; [| lia]. destruct (wrun_cases _ _ _ _ _ _ W1) as [[-> Hu1] | ->].
  2:{ exists ENOSPC, u1, s1. split; [done |]. eapply wrun_fail; [| exact W1]. lia. }
  cbn [Z.eqb negb]. destruct (IH s1 u1) as (r & u' & s' & E & W).
  - apply W1.
  - eapply attrs_small; [apply W1 | done].
  - rewrite Hu1. apply region_moved; [by split_and! | lia].
  - rewrite Hu1. simpl. rewrite Z.add_mod, Hal by lia. done.
  - rewrite Hu1. simpl. lia.
  - exists r, u', s'. split; [done |]. replace (Z.of_nat (S n) * 512) with (512 + Z.of_nat n * 512) by lia.
    eapply wrun_app; try done. lia.
Qed.

Lemma rchunk_app s u n m : 0 <= n → 0 <= m → rchunk s (rchunk s u n) m = rchunk s u (n + m).
Proof using.
  intros Hn Hm. unfold rchunk, moved. simpl. rewrite frange_app, app_assoc by done. f_equal; lia.
Qed.
Lemma rchunk_0 s u : rchunk s u 0 = u.
Proof using. destruct u. unfold rchunk, moved, frange. simpl. rewrite app_nil_r. f_equal; lia. Qed.

Lemma blocks_read_ok s n : ∀ u,
  file_ok s → small_disk s → 0 <= uio_offset u → uio_offset u + uio_resid u <= MAX_SIZE →
  uio_offset u mod 512 = 0 → Z.of_nat n * 512 <= uio_resid u →
  blocks_loop n false u s = Done (0, rchunk s u (Z.of_nat n * 512)) s.
Proof using.
  induction n as [|n IH]; intros u Hf Hsm R1 R2 Hal Hn.
  { simpl. by rewrite rchunk_0. }
  cbn [blocks_loop]. unfold mbind, M_bind. rewrite block_read_ok by (done || lia). cbn [Z.eqb negb].
  rewrite IH; try done; simpl; try lia; [| rewrite Z.add_mod, Hal by lia; done].
  rewrite rchunk_app by lia. do 3 f_equal. lia.
Qed.

Lemma blkoff_eq off : 0 <= off → u32 (Z.rem off SFS_BLOCKSIZE) = off mod 512.
Proof using.
  intros H. unfold SFS_BLOCKSIZE. rewrite Z.rem_mod_nonneg by lia. apply u32_small.
  pose proof (Z.mod_pos_bound off 512). lia.
Qed.

Lemma if_min a b : (if a <? b then a else b) = Z.min b a.
Proof using. destruct (Z.ltb_spec a b); lia. Qed.

(** The length of the leading part, and that it ends at a block boundary or at the end. *)
Definition lead (u : fuio) : Z :=
  if uio_offset u mod 512 =? 0 then 0 else Z.min (512 - uio_offset u mod 512) (uio_resid u).
Lemma lead_spec u : 0 <= uio_offset u → 0 <= uio_resid u →
  0 <= lead u <= uio_resid u ∧ uio_offset u mod 512 + lead u <= 512 ∧
  (uio_resid u - lead u ≠ 0 → (uio_offset u + lead u) mod 512 = 0).
Proof using.
  intros H0 H1. unfold lead. pose proof (Z.mod_pos_bound (uio_offset u) 512 ltac:(lia)).
  destruct (Z.eqb_spec (uio_offset u mod 512) 0) as [E | E]; [rewrite !Z.add_0_r; lia |].
  split; [lia |]. split; [lia |]. intros Hr. assert (Z.min (512 - uio_offset u mod 512) (uio_resid u) = 512 - uio_offset u mod 512) as -> by lia.
  replace (uio_offset u + (512 - uio_offset u mod 512)) with ((uio_offset u / 512 + 1) * 512); [by apply Z.mod_mul |].
  pose proof (Z.div_mod (uio_offset u) 512). lia.
Qed.

Lemma lead_write_ok s u :
  file_ok s → region u → 0 < uio_resid u →
  ∃ r u' s', sfs_io_lead true u s = Done (r, u') s' ∧ wrun s s' u (lead u) r u'.
Proof using.
  intros Hf (R1 & R2 & R3 & R4 & R5) Hpos. destruct (lead_spec u R1 R2) as (L1 & L2 & _).
  pose proof (Z.mod_pos_bound (uio_offset u) 512 ltac:(lia)). unfold sfs_io_lead. rewrite blkoff_eq by done. unfold lead in *.
  destruct (Z.eqb_spec (uio_offset u mod 512) 0) as [E | E]; cbn [negb].
  { exists 0, u, s. split; [done | by apply wrun_nil]. }
  cbv zeta. change SFS_BLOCKSIZE with 512. rewrite if_min.
  destruct (partial_write_ok s u (uio_offset u mod 512) (Z.min (512 - uio_offset u mod 512) (uio_resid u)))
    as (r & u' & s' & Ew & W); try done; try lia.
  exists r, u', s'. split; [done |]. apply wchunk_run; [lia | done].
Qed.

(** The parts of a write, up to the label [out]. *)
Lemma parts_write_ok s u :
  file_ok s → small_disk s → region u → 0 < uio_resid u →
  ∃ r u' s', sfs_io_parts true u s = Done (r, u') s' ∧ wrun s s' u (uio_resid u) r u'.
Proof using.
  intros Hf Hsm Hreg Hpos. pose proof Hreg as (R1 & R2 & R3 & R4 & R5). destruct (lead_spec u R1 R2) as (L1 & L2 & L3).
  unfold sfs_io_parts, mbind, M_bind. destruct (lead_write_ok s u Hf Hreg Hpos) as (r1 & u1 & s1 & E1 & W1). rewrite E1.
  destruct (wrun_cases _ _ _ _ _ _ W1) as [[-> Hu1] | ->].
  2:{ exists ENOSPC, u1, s1. split; [done |]. eapply wrun_fail; [| exact W1]. lia. }
  cbn [Z.eqb negb]. assert (Hres1 : uio_resid u1 = uio_resid u - lead u) by (by rewrite Hu1).
  assert (Hoff1 : uio_offset u1 = uio_offset u + lead u) by (by rewrite Hu1).
  assert (Hreg1 : region u1) by (rewrite Hu1; by apply region_moved). pose proof Hreg1 as (Q1 & Q2 & Q3 & Q4 & Q5).
  destruct (Z.eqb_spec (uio_resid u1) 0) as [Hz | Hnz].
  { exists 0, u1, s1. split; [done |]. replace (uio_resid u) with (lead u) by lia. exact W1. }
  assert (Hal : uio_offset u1 mod 512 = 0) by (rewrite Hoff1; apply L3; lia).
  unfold SFS_BLOCKSIZE. rewrite Z.rem_mod_nonneg, Hal by lia. cbn [Z.eqb]. unfold kassert. cbv [mret M_ret]. cbv beta iota.
  set (nb := uio_resid u1 / 512). assert (Hnb : 0 <= nb) by (apply Z.div_pos; lia).
  pose proof (Z.div_mod (uio_resid u1) 512 ltac:(lia)) as Hdm. pose proof (Z.mod_pos_bound (uio_resid u1) 512 ltac:(lia)) as Hmb. fold nb in Hdm.
  destruct (blocks_write_ok (Z.to_nat nb) s1 u1) as (r2 & u2 & s2 & E2 & W2); try done; try lia.
  { apply W1. } { eapply attrs_small; [apply W1 | done]. }
  rewrite Z2Nat.id in W2 by done. rewrite E2.
  assert (W12 : wrun s s2 u (lead u + nb * 512) r2 u2) by (eapply wrun_app; try done; lia).
  destruct (wrun_cases _ _ _ _ _ _ W2) as [[-> Hu2] | ->].
  2:{ exists ENOSPC, u2, s2. split; [done |]. eapply wrun_fail; [| exact W12]. lia. }
  cbn [Z.eqb negb]. assert (Hres2 : uio_resid u2 = uio_resid u1 mod 512) by (rewrite Hu2; simpl; lia).
  rewrite (proj2 (Z.ltb_lt _ 512)) by lia. cbv beta iota.
  assert (Hreg2 : region u2) by (rewrite Hu2; apply region_moved; [done | lia]). pose proof Hreg2 as (T1 & T2 & T3 & T4 & T5).
  destruct (Z.ltb_spec 0 (uio_resid u2)) as [Hp2 | Hp2].
  2:{ exists 0, u2, s2. split; [done |]. replace (uio_resid u) with (lead u + nb * 512) by lia. exact W12. }
  destruct (partial_write_ok s2 u2 0 (uio_resid u2)) as (r3 & u3 & s3 & E3 & W3); try done; try lia.
  { apply W2. } { rewrite Hu2. simpl. rewrite Z.add_mod, Hal, Z.mod_mul by lia. done. }
  exists r3, u3, s3. split; [done |]. apply wchunk_run in W3; [| done].
  replace (uio_resid u) with ((lead u + nb * 512) + uio_resid u2) by lia. eapply wrun_app; try done. lia.
Qed.

Lemma parts_read_ok s u :
  file_ok s → small_disk s → 0 <= uio_offset u → 0 < uio_resid u → uio_offset u + uio_resid u <= MAX_SIZE →
  sfs_io_parts false u s = Done (0, rchunk s u (uio_resid u)) s.
Proof using.
  intros Hf Hsm R1 R2 R3. destruct (lead_spec u R1 ltac:(lia)) as (L1 & L2 & L3).
  pose proof (Z.mod_pos_bound (uio_offset u) 512 ltac:(lia)).
  unfold sfs_io_parts, mbind, M_bind.
  assert (sfs_io_lead false u s = Done (0, rchunk s u (lead u)) s) as ->.
  { unfold sfs_io_lead. rewrite blkoff_eq by done. unfold lead in *. destruct (Z.eqb_spec (uio_offset u mod 512) 0) as [E | E]; cbn [negb].
    { by rewrite rchunk_0. }
    cbv zeta. change SFS_BLOCKSIZE with 512. rewrite if_min. by rewrite partial_read_ok by (done || lia). }
  cbn [Z.eqb negb]. set (u1 := rchunk s u (lead u)).
  assert (Hres1 : uio_resid u1 = uio_resid u - lead u) by done. assert (Hoff1 : uio_offset u1 = uio_offset u + lead u) by done.
  destruct (Z.eqb_spec (uio_resid u1) 0) as [Hz | Hnz].
  { replace (uio_resid u) with (lead u) by lia. done. }
  assert (Hal : uio_offset u1 mod 512 = 0) by (rewrite Hoff1; apply L3; lia).
  unfold SFS_BLOCKSIZE. rewrite Z.rem_mod_nonneg, Hal by lia. cbn [Z.eqb]. unfold kassert. cbv [mret M_ret]. cbv beta iota.
  set (nb := uio_resid u1 / 512). assert (Hnb : 0 <= nb) by (apply Z.div_pos; lia).
  pose proof (Z.div_mod (uio_resid u1) 512 ltac:(lia)) as Hdm. pose proof (Z.mod_pos_bound (uio_resid u1) 512 ltac:(lia)) as Hmb. fold nb in Hdm.
  rewrite blocks_read_ok by (done || lia). rewrite Z2Nat.id by done. cbn [Z.eqb negb].
  set (u2 := rchunk s u1 (nb * 512)). assert (Hres2 : uio_resid u2 = uio_resid u1 mod 512) by (change (uio_resid u2) with (uio_resid u1 - nb * 512); lia).
  assert (Hoff2 : uio_offset u2 = uio_offset u1 + nb * 512) by done.
  assert (Hu2 : u2 = rchunk s u (lead u + nb * 512)) by (unfold u2, u1; rewrite rchunk_app by lia; done).
  rewrite (proj2 (Z.ltb_lt _ 512)) by lia. cbv beta iota. destruct (Z.ltb_spec 0 (uio_resid u2)) as [Hp2 | Hp2].
  2:{ rewrite Hu2. do 3 f_equal. lia. }
  rewrite partial_read_ok; try done; try lia; [| rewrite Hoff2, Z.add_mod, Hal, Z.mod_mul by lia; done].
  rewrite Hu2 at 1. rewrite rchunk_app by lia. do 3 f_equal. lia.
Qed.

(** The size is not part of the map. *)
Lemma resize_ok s n :
  file_ok s → let s' := with_sv (mkVnode (set_size n (sv_i (sv s))) (sv_ino (sv s)) true) s in
  file_ok s' ∧ same_content s s'.
Proof using. intros [V L U J N] s'. split; [split; [exact (vol_ok_fs s s' eq_refl V) | exact L | exact U | exact J | exact N] | done]. Qed.

Lemma write_file s off data :
  file_ok s → small_disk s → 0 <= off → data ≠ [] → off + Z.of_nat (length data) <= MAX_SIZE → Forall is_byte data →
  ∃ r n s', sfs_io true (mkFuio off (Z.of_nat (length data)) data) s
              = Done (r, mkFuio (off + n) (Z.of_nat (length data) - n) (drop (Z.to_nat n) data)) s' ∧
    file_ok s' ∧ small_disk s' ∧ (r = 0 ∧ n = Z.of_nat (length data) ∨ r = ENOSPC ∧ 0 <= n < Z.of_nat (length data)) ∧
    sfi_size (inode s') = (if 0 <? n then Z.max (sfi_size (inode s)) (off + n) else sfi_size (inode s)) ∧
    wrote s s' off (take (Z.to_nat n) data).
Proof using.
  intros Hf Hsm Ho Hne Hmax Hb. assert (0 < length data)%nat by (destruct data; simpl; [done | lia]).
  set (u := mkFuio off (Z.of_nat (length data)) data). set (len := Z.of_nat (length data)) in *.
  assert (Hlen : MAX_SIZE < 2 ^ 32) by done.
  unfold sfs_io, mbind, M_bind, gets. cbn [uio_offset uio_resid uio_data negb andb orb].
  unfold kassert. cbv [mret M_ret]. cbv beta iota. rewrite Z.sub_0_r. fold len.
  destruct (parts_write_ok s u) as (r & u' & s1 & E & Hf1 & Ha1 & n & Hn & Hu' & W & R); try done; [unfold region; simpl; split_and!; (done || lia) | simpl; lia |].
  change (mkFuio (uio_offset u) (uio_resid u) (uio_data u)) with u. rewrite E. change (uio_resid u) with len in *.
  assert (Hn' : 0 <= n <= len) by exact Hn. simpl in W. unfold sfs_io_out, mbind, M_bind, gets. rewrite u32_small by lia. rewrite andb_true_r.
  assert (Hs1 : sfi_size (sv_i (sv s1)) = sfi_size (inode s)) by apply Ha1. rewrite Hs1, Hu'. cbn [moved uio_offset uio_resid uio_data u].
  assert (Ecase : negb (len - n =? len) && (sfi_size (inode s) <? off + n) = (0 <? n) && (sfi_size (inode s) <? off + n)).
  { f_equal. destruct (Z.eqb_spec (len - n) len), (Z.ltb_spec 0 n); try done; lia. }
  rewrite Ecase, Z.add_0_r. fold len.
  assert (Hr : r = 0 ∧ n = len ∨ r = ENOSPC ∧ 0 <= n < len) by (destruct R as [? | [-> ?]]; [by left | right; lia]).
  destruct (Z.ltb_spec 0 n) as [Hp | Hp]; cbn [andb].
  - destruct (Z.ltb_spec (sfi_size (inode s)) (off + n)) as [Hs | Hs].
    + destruct (resize_ok s1 (u32 (off + n)) Hf1) as [Hf2 Hc2]. eexists r, n, _. split; [reflexivity |].
      split; [exact Hf2 |]. split; [by eapply (attrs_small s s1) |]. split; [done |]. split.
      * unfold inode. simpl. rewrite u32_small, (proj2 (Z.ltb_lt 0 n)) by lia. fold (inode s). lia.
      * rewrite <- (app_nil_r (take _ _)). eapply wrote_trans; [exact W | by apply same_wrote].
    + exists r, n, s1. split; [done |]. split; [done |]. split; [by eapply attrs_small |]. split; [done |]. split; [| done].
      fold (inode s1) in Hs1. rewrite (proj2 (Z.ltb_lt 0 n)) by done. lia.
  - exists r, n, s1. split; [done |]. split; [done |]. split; [by eapply attrs_small |]. split; [done |].
    rewrite (proj2 (Z.ltb_ge 0 n)) by done. by split.
Qed.

Lemma read_file s off n :
  file_ok s → small_disk s → 0 <= off → 0 < n < 2 ^ 32 → 0 <= sfi_size (inode s) <= MAX_SIZE →
  let m := Z.max 0 (Z.min n (sfi_size (inode s) - off)) in
  sfs_io false (mkFuio off n []) s = Done (0, mkFuio (off + m) (n - m) (frange s off m)) s.
Proof using.
  intros Hf Hsm Ho Hn Hsz m. set (size := sfi_size (inode s)) in *. assert (Hlen : MAX_SIZE < 2 ^ 32) by done.
  unfold sfs_io, mbind, M_bind, gets. cbn [uio_offset uio_resid uio_data negb andb].
  change (sfi_size (sv_i (sv s))) with size. destruct (Z.leb_spec size off) as [Hle | Hlt].
  { replace m with 0 by lia. rewrite Z.add_0_r, Z.sub_0_r. done. }
  assert (Hx : (if size <? off + n then u32 (off + n - size) else 0) = n - m).
  { unfold m. destruct (Z.ltb_spec size (off + n)); [rewrite u32_small by lia | ]; lia. }
  rewrite Hx. assert (negb (size <? off + n) || (n - m <? n) = true) as ->.
  { destruct (Z.ltb_spec (n - m) n); [apply orb_true_r | lia]. }
  unfold kassert. cbv [mret M_ret]. cbv beta iota. replace (n - (n - m)) with m by lia.
  rewrite parts_read_ok; try done; cbn [uio_offset uio_resid]; try lia.
  unfold sfs_io_out, mbind, M_bind, gets. rewrite andb_false_r. cbv [mret M_ret]. cbv beta iota.
  cbn [rchunk moved uio_offset uio_resid uio_data]. do 3 f_equal. lia.
Qed.

(** C22: A file is an array of bytes to its writers: a write of kernel data anywhere in
    the range a file can have, aligned or not, across holes and into the indirect
    block, returns; it writes exactly the first [n] bytes of the data at their
    offset and changes no other byte of the file; all of them with result 0, or as
    many as there was room for with ENOSPC; the size grows to cover what was written;
    the file stays well formed. *)
Theorem sfs_io_write s off data :
  file_ok s → small_disk s → 0 <= off → data ≠ [] → off + Z.of_nat (length data) <= MAX_SIZE → Forall is_byte data →
  ∃ r n s', sfs_io true (mkFuio off (Z.of_nat (length data)) data) s
              = Done (r, mkFuio (off + n) (Z.of_nat (length data) - n) (drop (Z.to_nat n) data)) s' ∧
    file_ok s' ∧ (r = 0 ∧ n = Z.of_nat (length data) ∨ r = ENOSPC ∧ 0 <= n < Z.of_nat (length data)) ∧
    sfi_size (inode s') = (if 0 <? n then Z.max (sfi_size (inode s)) (off + n) else sfi_size (inode s)) ∧
    ∀ p, 0 <= p < MAX_SIZE →
      fbyte s' p = if decide (off <= p < off + n) then default 0 (data !! Z.to_nat (p - off)) else fbyte s p.
Proof using.
  intros Hf Hsm Ho Hne Hmax Hb. destruct (write_file s off data Hf Hsm Ho Hne Hmax Hb) as (r & n & s' & E & Hf' & _ & R & Hs & W).
  exists r, n, s'. split_and!; try done. intros p Hp. rewrite W by done.
  rewrite length_take_le by lia. rewrite Z2Nat.id by lia. destruct (decide _); [| done].
  rewrite lookup_take_lt by lia. done.
Qed.

(** C33: What a successful write has written is what a read of that range returns,
    and any range of the file that does not overlap it reads as it did before. *)
Theorem sfs_io_write_read s off data s' u' :
  file_ok s → small_disk s → 0 <= off → data ≠ [] → off + Z.of_nat (length data) <= MAX_SIZE → Forall is_byte data →
  0 <= sfi_size (inode s) <= MAX_SIZE →
  sfs_io true (mkFuio off (Z.of_nat (length data)) data) s = Done (0, u') s' →
  sfs_io false (mkFuio off (Z.of_nat (length data)) []) s'
    = Done (0, mkFuio (off + Z.of_nat (length data)) 0 data) s' ∧
  ∀ off' n, 0 <= off' → 0 < n → off' + n <= sfi_size (inode s) →
    (off' + n <= off ∨ off + Z.of_nat (length data) <= off') →
    ∃ old, sfs_io false (mkFuio off' n []) s = Done (0, mkFuio (off' + n) 0 old) s ∧
           sfs_io false (mkFuio off' n []) s' = Done (0, mkFuio (off' + n) 0 old) s'.
Proof using.
  intros Hf Hsm Ho Hne Hmax Hb Hsz Ew. assert (0 < length data)%nat by (destruct data; simpl; [done | lia]).
  assert (Hlen : MAX_SIZE < 2 ^ 32) by done. set (len := Z.of_nat (length data)) in *.
  destruct (write_file s off data Hf Hsm Ho Hne Hmax Hb) as (r & n & s1 & E & Hf' & Hsm' & R & Hs & W).
  fold len in E, R. rewrite Ew in E. injection E as <- -> <-.
  assert (n = len) as -> by (destruct R as [[_ ?] | [? _]]; done).
  rewrite (proj2 (Z.ltb_lt 0 len)) in Hs by lia. unfold len in W at 1. rewrite Nat2Z.id, take_ge in W by done.
  split.
  - rewrite read_file by (done || lia). replace (Z.max 0 (Z.min len (sfi_size (inode s') - off))) with len by lia.
    rewrite Z.sub_diag. do 3 f_equal. apply list_eq. intros i. unfold frange. rewrite list_lookup_fmap.
    destruct (decide (i < length data)%nat) as [Hi | Hi].
    + rewrite lookup_seqZ_lt by lia. simpl. rewrite W by lia. rewrite decide_True by lia.
      replace (Z.to_nat (off + Z.of_nat i - off)) with i by lia.
      destruct (lookup_lt_is_Some_2 data i Hi) as (x & ->). done.
    + rewrite lookup_seqZ_ge, lookup_ge_None_2 by lia. done.
  - intros off' m Ho' Hm Hend Hdis. exists (frange s off' m). rewrite !read_file by (done || lia).
    replace (Z.max 0 (Z.min m (sfi_size (inode s') - off'))) with m by lia.
    replace (Z.max 0 (Z.min m (sfi_size (inode s) - off'))) with m by lia. rewrite Z.sub_diag. split; [done |].
    do 3 f_equal. apply list_fmap_ext. intros i p Hp. apply list_elem_of_lookup_2, elem_of_seqZ in Hp.
    rewrite W by lia. by rewrite decide_False by (fold len; lia).
Qed.
End content.

(** Four bytes across the end of the first block of the file of SfsProof.v. *)
Definition w_data : list Z := [1; 2; 3; 4].
Definition w_written : fstate rdisk :=
  match sfs_io true (mkFuio 510 4 w_data) wit_file with Done _ s' => s' | _ => wit_file end.

Lemma w_data_bytes : Forall is_byte w_data.
Proof. repeat (apply Forall_cons_2; [unfold is_byte; lia |]). apply Forall_nil_2. Qed.

Lemma sfs_io_write_witness :
  ∃ r n s', sfs_io true (mkFuio 510 4 w_data) wit_file
              = Done (r, mkFuio (510 + n) (4 - n) (drop (Z.to_nat n) w_data)) s' ∧
    file_ok s' ∧ (r = 0 ∧ n = 4 ∨ r = ENOSPC ∧ 0 <= n < 4) ∧
    sfi_size (inode s') = (if 0 <? n then Z.max (sfi_size (inode wit_file)) (510 + n) else sfi_size (inode wit_file)) ∧
    ∀ p, 0 <= p < MAX_SIZE →
      fbyte s' p = if decide (510 <= p < 510 + n) then default 0 (w_data !! Z.to_nat (p - 510)) else fbyte wit_file p.
Proof.
  apply (sfs_io_write wit_file 510 w_data);
    [exact wit_file_ok | vm_compute; discriminate | lia | done | vm_compute; discriminate | exact w_data_bytes].
Defined.

Lemma sfs_io_write_read_witness :
  sfs_io false (mkFuio 510 4 []) w_written = Done (0, mkFuio 514 0 w_data) w_written ∧
  ∀ off' n, 0 <= off' → 0 < n → off' + n <= 8704 → (off' + n <= 510 ∨ 514 <= off') →
    ∃ old, sfs_io false (mkFuio off' n []) wit_file = Done (0, mkFuio (off' + n) 0 old) wit_file ∧
           sfs_io false (mkFuio off' n []) w_written = Done (0, mkFuio (off' + n) 0 old) w_written.
Proof.
  apply (sfs_io_write_read wit_file 510 w_data w_written (mkFuio 514 0 []));
    [exact wit_file_ok | vm_compute; discriminate | lia | done | vm_compute; discriminate | exact w_data_bytes
    | split; vm_compute; discriminate | vm_compute; reflexivity].
Defined.
End SfsIo.
