(* ===== verification/SfsDir.v ===== *)
(** * An SFS directory is a finite map from names to inodes

    The abstract directory is the map [dmap] of the entries in the slots of the
    directory file; the operations of sfs_dir.c (Sfs.v) refine lookup, insertion and
    deletion in it. *)

From stdpp Require Import base list gmap numbers strings sets.
From Stdlib Require Import ZArith Lia.
From S2P Require Import Prelude Bitmap Sfs SfsProof SfsIo.
Import Bitmap Sfs SfsProof SfsIo.

#[local] Open Scope Z_scope.

Module SfsDir.

Section dir.
Context {D : Type} `{!BlockDev D} `{!ReliableDev D}.
Implicit Types s : fstate D.

Definition MAX_SLOTS : Z := MAX_FILEBLOCK * 8.

(** The words of slot [i], and the entry in it. *)
Definition slotw s (i : Z) : list Z := take 16 (drop (Z.to_nat (16 * (i mod 8))) (fwords s (i / 8))).
Definition ent s (i : Z) : option (list Z * Z) :=
  let d := parse_dirent (slotw s i) in
  if sfd_ino d =? SFS_NOINO then None else Some (sfd_name d, sfd_ino d).

Lemma slot_block i : 0 <= i < MAX_SLOTS → 0 <= i / 8 < MAX_FILEBLOCK.
Proof using. unfold MAX_SLOTS. intros. Z.to_euclidean_division_equations. lia. Qed.

Lemma pos_block i : (i * SIZEOF_DIRENTRY) / SFS_BLOCKSIZE = i / 8.
Proof using. unfold SIZEOF_DIRENTRY, SFS_BLOCKSIZE. Z.to_euclidean_division_equations. lia. Qed.
Lemma pos_off i : (i * SIZEOF_DIRENTRY) mod SFS_BLOCKSIZE / 4 = 16 * (i mod 8).
Proof using. unfold SIZEOF_DIRENTRY, SFS_BLOCKSIZE. Z.to_euclidean_division_equations. lia. Qed.

Lemma readdir_ok s i : file_ok s → 0 <= i < MAX_SLOTS → sfs_readdir i s = Done (0, slotw s i) s.
Proof using.
  intros Hf Hi. pose proof (slot_block i Hi) as Hk. unfold sfs_readdir, sfs_metaio_read, mbind, M_bind.
  rewrite pos_block, sfs_bmap_lookup, (proj2 (Z.ltb_lt _ _)) by (done || lia). cbn [Z.eqb negb].
  unfold slotw, fwords. destruct (Z.eqb_spec (fmap s (i / 8)) 0) as [Hz | Hne].
  - unfold zero_block, mret, M_ret. rewrite drop_replicate, take_replicate. do 3 f_equal.
    pose proof (Z.mod_pos_bound i 8). change (Z.to_nat (SIZEOF_DIRENTRY / 4)) with 16%nat. lia.
  - destruct (fo_used _ Hf _ Hk Hne) as [Hr _]. pose proof (vo_dev _ (fo_vol _ Hf)).
    rewrite readblock_eq by lia. cbn [Z.eqb negb]. unfold words_at. rewrite pos_off. done.
Qed.

(** [e] has been put into slot [i], or there was no room. *)
Definition slot_post s s' (i r : Z) (e : list Z) : Prop :=
  file_ok s' ∧ small_disk s' ∧ sfi_type (inode s') = sfi_type (inode s) ∧
  (r = 0 ∧ sfi_size (inode s') = Z.max (sfi_size (inode s)) ((i + 1) * 64) ∧
     (∀ j, 0 <= j < MAX_SLOTS → slotw s' j = if j =? i then e else slotw s j) ∨
   r = ENOSPC ∧ fmap s (i / 8) = 0 ∧ sfi_size (inode s') = sfi_size (inode s) ∧ ∀ j, 0 <= j < MAX_SLOTS → slotw s' j = slotw s j).

(** Slots of a block whose slot [i] has been overwritten. *)
Lemma put_slot (b e : list Z) i j :
  length b = 128%nat → length e = 16%nat → 0 <= i < 8 → 0 <= j < 8 →
  take 16 (drop (Z.to_nat (16 * j)) (put_words (i * 64) e b)) =
  if j =? i then e else take 16 (drop (Z.to_nat (16 * j)) b).
Proof using.
  intros Hb He Hi Hj. unfold put_words. rewrite He.
  assert (Z.to_nat (i * 64 / 4) = Z.to_nat (16 * i)) as -> by (f_equal; Z.to_euclidean_division_equations; lia).
  set (o := Z.to_nat (16 * i)). assert (Ho : (o + 16 <= 128)%nat) by (unfold o; lia).
  apply list_eq. intros k. destruct (decide (k < 16)%nat) as [Hk | Hk].
  2:{ rewrite lookup_take_ge by lia. destruct (j =? i); [| by rewrite lookup_take_ge by lia].
      by rewrite lookup_ge_None_2 by lia. }
  rewrite lookup_take_lt, lookup_drop by done. destruct (Z.eqb_spec j i) as [-> | Hne].
  - rewrite lookup_app_r by (rewrite length_take; lia). rewrite length_take_le by lia.
    rewrite lookup_app_l by (unfold o; lia). f_equal. unfold o. lia.
  - rewrite lookup_take_lt, lookup_drop by done. destruct (decide (j < i)) as [Hlt | Hge].
    + rewrite lookup_app_l by (rewrite length_take; unfold o; lia). by rewrite lookup_take_lt by (unfold o; lia).
    + rewrite lookup_app_r by (rewrite length_take; unfold o; lia). rewrite length_take_le by lia.
      rewrite lookup_app_r by (unfold o; lia). rewrite lookup_drop. f_equal. unfold o. lia.
Qed.

Lemma same_slots s s' : same_content s s' → ∀ j, 0 <= j < MAX_SLOTS → slotw s' j = slotw s j.
Proof using. intros H j Hj. unfold slotw. rewrite H; [done |]. by apply slot_block. Qed.

Lemma bmap_efbig s k a : MAX_FILEBLOCK <= k → sfs_bmap k a s = Done (EFBIG, 0) s.
Proof using.
  intros Hk. unfold sfs_bmap, MAX_FILEBLOCK in *. rewrite (proj2 (Z.ltb_ge _ _)) by (unfold SFS_DBPERIDB in *; lia).
  rewrite (proj2 (Z.leb_le _ _)); [done |]. unfold SFS_NINDIRECT. apply Z.div_le_lower_bound; unfold SFS_DBPERIDB in *; lia.
Qed.

Lemma writedir_ok s i e :
  file_ok s → small_disk s → 0 <= i < MAX_SLOTS → length e = 16%nat →
  ∃ r s', sfs_writedir i e s = Done r s' ∧ slot_post s s' i r e.
Proof using.
  intros Hf Hsm Hi He. pose proof (slot_block i Hi) as Hk. unfold sfs_writedir, sfs_metaio_write, mbind, M_bind.
  rewrite (proj2 (Z.leb_le 0 i)) by lia. unfold kassert. cbv [mret M_ret]. cbv beta iota. rewrite pos_block, He.
  set (k := i / 8) in *. destruct (bmap_alloc_ok s k Hf Hk) as (r & b & s1 & E & Post). rewrite E.
  pose proof (bmap_content s s1 k r b Hf Hk Post) as Hsame. destruct Post as (Hf1 & Kp & _ & Hr). pose proof (kept_attrs _ _ Kp) as Hat.
  pose proof (attrs_small _ _ Hat Hsm) as Hsm1. destruct Hat as (A1 & A2 & _).
  destruct Hr as [(-> & Hb0 & Hm & _) | (-> & Hhole & _)].
  2:{ exists ENOSPC, s1. split; [done |]. split_and!; try done. right. split_and!; try done. by apply same_slots. }
  cbn [Z.eqb negb]. assert (Hne : fmap s1 k ≠ 0) by congruence. destruct (fo_used _ Hf1 k Hk Hne) as [Hrange _].
  pose proof (vo_dev _ (fo_vol _ Hf1)) as Hdev. rewrite <- Hm. apply Z.eqb_neq in Hne as Hne'. rewrite Hne'.
  rewrite readblock_eq by lia. cbn [Z.eqb negb].
  assert (Hlb : length (blk s1 (fmap s1 k)) = 128%nat) by (unfold blk; rewrite contents_len by lia; done).
  assert (Hoff : (i * SIZEOF_DIRENTRY) mod SFS_BLOCKSIZE = (i mod 8) * 64).
  { unfold SIZEOF_DIRENTRY, SFS_BLOCKSIZE. Z.to_euclidean_division_equations. lia. }
  rewrite Hoff. pose proof (Z.mod_pos_bound i 8 ltac:(lia)) as Hmb. set (ws := put_words _ _ _).
  assert (Hws : length ws = 128%nat).
  { unfold ws, put_words. rewrite !length_app, length_take, length_drop, He, Hlb. Z.to_euclidean_division_equations. lia. }
  destruct (writeblock_eq s1 (fmap s1 k) ws) as (d' & Ew & Hd & Hc); [lia | done |]. rewrite Ew. cbn [Z.eqb negb].
  destruct (overwrite_content s1 d' k ws Hf1 Hk Hne Hd Hc) as [Hf2 Hw].
  assert (Hslots : ∀ j, 0 <= j < MAX_SLOTS → slotw (set_dev d' s1) j = if j =? i then e else slotw s j).
  { intros j Hj. unfold slotw. pose proof (slot_block j Hj) as Hkj. pose proof (Z.mod_pos_bound j 8 ltac:(lia)) as Hmj.
    rewrite Hw by done. destruct (Z.eqb_spec (j / 8) k) as [Ej | Ej].
    - unfold ws. rewrite put_slot by done. rewrite <- Hsame, Ej by done. unfold fwords. rewrite Hne'.
      pose proof (Z.div_mod i 8). pose proof (Z.div_mod j 8).
      destruct (Z.eqb_spec (j mod 8) (i mod 8)), (Z.eqb_spec j i); try done; try (unfold k in *; lia).
    - rewrite Hsame by done. destruct (Z.eqb_spec j i) as [-> |]; [done |]. done. }
  cbv [gets]. cbv beta iota. change (sfi_size (sv_i (sv (set_dev d' s1)))) with (sfi_size (inode s1)). rewrite A1.
  change (4 * Z.of_nat 16) with 64. change SIZEOF_DIRENTRY with 64.
  assert (i * 64 + 64 < 2 ^ 32) by (unfold MAX_SLOTS, MAX_FILEBLOCK, SFS_NDIRECT, SFS_DBPERIDB in Hi; lia).
  destruct (Z.ltb_spec (sfi_size (inode s)) (i * 64 + 64)) as [Hs | Hs]; unfold upd_inode, modify; cbv beta iota.
  - rewrite u32_small by lia. destruct (resize_ok (set_dev d' s1) (i * 64 + 64) Hf2) as [Hf3 Hc3]. simpl in Hf3, Hc3.
    exists 0. eexists. split; [reflexivity |]. split; [exact Hf3 |]. split; [exact Hsm1 |]. split; [exact A2 |]. left.
    split; [done |]. split; [change (i * 64 + 64 = Z.max (sfi_size (inode s)) ((i + 1) * 64)); lia |].
    intros j Hj. rewrite <- (Hslots j) by done. by apply same_slots.
  - exists 0, (set_dev d' s1). split; [done |]. split; [done |]. split; [exact Hsm1 |]. split; [exact A2 |]. left.
    split; [done |]. split; [change (sfi_size (inode s1) = Z.max (sfi_size (inode s)) ((i + 1) * 64)); lia | done].
Qed.

Lemma writedir_full s i e : 0 <= i → MAX_SLOTS <= i → sfs_writedir i e s = Done EFBIG s.
Proof using.
  intros H0 Hi. unfold sfs_writedir, sfs_metaio_write, mbind, M_bind. rewrite (proj2 (Z.leb_le 0 i)) by lia.
  unfold kassert. cbv [mret M_ret]. cbv beta iota. rewrite pos_block, bmap_efbig; [done |].
  unfold MAX_SLOTS in Hi. Z.to_euclidean_division_equations. lia.
Qed.

(** *** Entries *)

(** A name that fits a slot: bytes, none of them zero. *)
Definition name_ok (name : list Z) : Prop :=
  (length name <= 59)%nat ∧ Forall (λ b, 0 < b < 256) name.

Lemma c_string_app name k : Forall (λ b, 0 < b < 256) name → c_string (name ++ replicate k 0) = name.
Proof using.
  induction 1 as [|b l Hb _ IH]; [by destruct k |]. cbn [app c_string].
  destruct (Z.eqb_spec b 0); [lia |]. by rewrite IH.
Qed.

Lemma length_dirent ino name : (length name <= 60)%nat → length (make_dirent ino name) = 16%nat.
Proof using.
  intros Hl. unfold make_dirent. simpl. f_equal. apply (length_words_of 15).
  rewrite length_app, length_replicate. lia.
Qed.

Lemma parse_make ino name : name_ok name → parse_dirent (make_dirent ino name) = mkDirent ino name.
Proof using.
  intros [Hl Hb]. unfold parse_dirent, make_dirent. simpl. f_equal.
  change (words_of (name ++ replicate (60 - length name) 0) ≫= bytes_of) with (bytes (words_of (name ++ replicate (60 - length name) 0))).
  rewrite (bytes_words 15).
  - rewrite take_app_ge, take_replicate by lia. by apply c_string_app.
  - rewrite length_app, length_replicate. lia.
  - apply Forall_app. split; [eapply Forall_impl; [exact Hb | unfold is_byte; simpl; lia] |].
    apply Forall_replicate. unfold is_byte. lia.
Qed.

Lemma make_empty : parse_dirent (make_dirent SFS_NOINO []) = mkDirent 0 [].
Proof using. reflexivity. Qed.

(** *** Directories *)

Definition nslots s : Z := sfi_size (inode s) / 64.

Record dir_ok s : Prop := {
  do_file : file_ok s;
  do_disk : small_disk s;
  do_type : sfi_type (inode s) = SFS_TYPE_DIR;
  do_size : 0 <= sfi_size (inode s) <= MAX_SIZE;
  do_whole : sfi_size (inode s) mod 64 = 0;
  do_uniq : ∀ i j name a b, 0 <= i < nslots s → 0 <= j < nslots s →
    ent s i = Some (name, a) → ent s j = Some (name, b) → i = j
}.

Definition entries s : list (list Z * Z) := omap (ent s) (seqZ 0 (nslots s)).
Definition dmap s : gmap (list Z) Z := list_to_map (entries s).

Lemma nslots_range s : dir_ok s → 0 <= nslots s <= MAX_SLOTS.
Proof using.
  intros H. pose proof (do_size _ H) as Hs. unfold nslots. unfold MAX_SIZE, MAX_SLOTS, SFS_BLOCKSIZE in *.
  Z.to_euclidean_division_equations. lia.
Qed.

Lemma entries_spec s name ino :
  (name, ino) ∈ entries s ↔ ∃ i, 0 <= i < nslots s ∧ ent s i = Some (name, ino).
Proof using.
  unfold entries. rewrite list_elem_of_omap. split.
  - intros (i & Hi%elem_of_seqZ & E). exists i. split; [lia | done].
  - intros (i & Hi & E). exists i. split; [apply elem_of_seqZ; lia | done].
Qed.

Lemma omap_keys (f : Z → option (list Z * Z)) l :
  NoDup l → (∀ i j name a b, i ∈ l → j ∈ l → f i = Some (name, a) → f j = Some (name, b) → i = j) →
  NoDup (omap f l).*1.
Proof using.
  induction l as [|x l IH]; intros Hnd Hu; [constructor |]. apply NoDup_cons in Hnd as [Hx Hnd].
  assert (NoDup (omap f l).*1) by (apply IH; [done |]; intros; eapply Hu; set_solver).
  simpl. destruct (f x) as [[name a]|] eqn:E; [| done]. simpl. apply NoDup_cons. split; [| done].
  intros ([name' b] & -> & Hin)%list_elem_of_fmap. apply list_elem_of_omap in Hin as (j & Hj & Ej).
  apply Hx. assert (x = j) as ->; [| done]. eapply Hu; [set_solver | set_solver | exact E | exact Ej].
Qed.

Lemma dmap_spec s name ino :
  dir_ok s → dmap s !! name = Some ino ↔ ∃ i, 0 <= i < nslots s ∧ ent s i = Some (name, ino).
Proof using.
  intros Hd. rewrite <- entries_spec. unfold dmap. symmetry. apply elem_of_list_to_map.
  apply omap_keys; [apply NoDup_seqZ |]. intros i j nm a b Hi%elem_of_seqZ Hj%elem_of_seqZ. apply (do_uniq _ Hd); lia.
Qed.

Lemma dmap_None s name :
  dir_ok s → dmap s !! name = None → ∀ i ino, 0 <= i < nslots s → ent s i ≠ Some (name, ino).
Proof using.
  intros Hd Hn i ino Hi E. assert (dmap s !! name = Some ino) by (apply dmap_spec; eauto). congruence.
Qed.

(** The search visits the slots from [i] on. *)
Lemma findname_ok s name n : ∀ i found e,
  file_ok s → 0 <= i → i + Z.of_nat n <= MAX_SLOTS →
  (∀ j k a b, i <= j < i + Z.of_nat n → i <= k < i + Z.of_nat n →
     ent s j = Some (name, a) → ent s k = Some (name, b) → j = k) →
  (found ≠ None → ∀ j a, i <= j < i + Z.of_nat n → ent s j ≠ Some (name, a)) →
  ∃ res e', findname_loop n i name found e s = Done (match res with Some _ => 0 | None => ENOENT end, res, e') s ∧
    (∀ slot ino, res = Some (slot, ino) ↔
       found = Some (slot, ino) ∨ i <= slot < i + Z.of_nat n ∧ ent s slot = Some (name, ino)) ∧
    (e' = e ∨ i <= e' < i + Z.of_nat n ∧ ent s e' = None).
Proof using.
  induction n as [|n IH]; intros i found e Hf Hi Hmax Huq Hfd.
  { exists found, e. split; [done |]. split; [| by left]. intros slot ino. split; [by left | intros [? | [? _]]; [done | lia]]. }
  cbn [findname_loop]. unfold mbind, M_bind. rewrite readdir_ok by (done || lia). cbn [Z.eqb negb].
  assert (Hent : ent s i = if sfd_ino (parse_dirent (slotw s i)) =? SFS_NOINO then None
    else Some (sfd_name (parse_dirent (slotw s i)), sfd_ino (parse_dirent (slotw s i)))) by done.
  set (d := parse_dirent (slotw s i)) in *.
  assert (Hrec : ∀ found' e0, (found' ≠ None → ∀ j a, i + 1 <= j < i + 1 + Z.of_nat n → ent s j ≠ Some (name, a)) →
    ∃ res e', findname_loop n (i + 1) name found' e0 s = Done (match res with Some _ => 0 | None => ENOENT end, res, e') s ∧
    (∀ slot ino, res = Some (slot, ino) ↔
       found' = Some (slot, ino) ∨ i + 1 <= slot < i + 1 + Z.of_nat n ∧ ent s slot = Some (name, ino)) ∧
    (e' = e0 ∨ i + 1 <= e' < i + 1 + Z.of_nat n ∧ ent s e' = None)).
  { intros found' e0 Hfd'. apply IH; try done; try lia. intros j k a b Hj Hk. apply Huq; lia. }
  destruct (sfd_ino d =? SFS_NOINO).
  { destruct (Hrec found i) as (res & e' & E & Hres & He). { intros H j a Hj. apply Hfd; [done | lia]. }
    exists res, e'. split; [done |]. split.
    - intros slot ino. rewrite Hres. split; (intros [? | [? ?]]; [by left |]); right.
      + split; [lia | done].
      + split; [| done]. destruct (decide (slot = i)) as [-> |]; [congruence | lia].
    - right. destruct He as [-> | [? ?]]; (split; [lia | done]). }
  case_bool_decide as Hname.
  - assert (found = None) as ->.
    { destruct found; [| done]. exfalso. eapply (Hfd ltac:(done) i); [lia |]. rewrite Hent, Hname. reflexivity. }
    unfold kassert. rewrite bool_decide_eq_true_2 by done. cbv [mret M_ret]. cbv beta iota. cbn [mret M_ret].
    destruct (Hrec (Some (i, sfd_ino d)) e) as (res & e' & E & Hres & He).
    { intros _ j a Hj Ej. assert (i = j); [| lia]. eapply Huq; [lia | lia | rewrite Hent, Hname; reflexivity | exact Ej]. }
    exists res, e'. split; [done |]. split.
    + intros slot ino. rewrite Hres. split.
      * intros [[= <- <-] | [? ?]]; right; [split; [lia | by rewrite Hent, Hname] | split; [lia | done]].
      * intros [? | [Hs Es]]; [done |]. destruct (decide (slot = i)) as [-> |].
        -- left. rewrite Hent, Hname in Es. by injection Es as <-.
        -- right. split; [lia | done].
    + destruct He as [-> | [? ?]]; [by left | right; split; [lia | done]].
  - destruct (Hrec found e) as (res & e' & E & Hres & He). { intros H j a Hj. apply Hfd; [done | lia]. }
    exists res, e'. split; [done |]. split.
    + intros slot ino. rewrite Hres. split; (intros [? | [? ?]]; [by left |]); right.
      * split; [lia | done].
      * split; [| done]. destruct (decide (slot = i)) as [-> |]; [congruence | lia].
    + destruct He as [-> | [? ?]]; [by left | right; split; [lia | done]].
Qed.

(** *** The operations on the map *)

Lemma nentries_ok s : dir_ok s → sfs_dir_nentries s = Done (nslots s) s.
Proof using.
  intros Hd. unfold sfs_dir_nentries, mbind, M_bind, gets. fold (inode s).
  rewrite (do_type _ Hd), Z.eqb_refl. unfold kassert. cbv [mret M_ret]. cbv beta iota.
  change SIZEOF_DIRENTRY with 64. rewrite (do_whole _ Hd). done.
Qed.

Lemma find_ok s name : dir_ok s →
  ∃ res e, sfs_dir_findname name s = Done (match res with Some _ => 0 | None => ENOENT end, res, e) s ∧
    (∀ slot ino, res = Some (slot, ino) ↔ 0 <= slot < nslots s ∧ ent s slot = Some (name, ino)) ∧
    dmap s !! name = snd <$> res ∧ (e = -1 ∨ 0 <= e < nslots s ∧ ent s e = None).
Proof using.
  intros Hd. pose proof (nslots_range s Hd) as Hn. unfold sfs_dir_findname, mbind, M_bind. rewrite nentries_ok by done.
  destruct (findname_ok s name (Z.to_nat (nslots s)) 0 None (-1)) as (res & e & E & Hres & He); try lia.
  { apply (do_file _ Hd). }
  { intros j k a b Hj Hk. apply (do_uniq _ Hd); lia. }
  { done. }
  rewrite Z2Nat.id in Hres, He by lia.
  assert (Hres' : ∀ slot ino, res = Some (slot, ino) ↔ 0 <= slot < nslots s ∧ ent s slot = Some (name, ino)).
  { intros slot ino. rewrite Hres. split; [intros [? | ?]; done | by right]. }
  exists res, e. split; [done |]. split; [done |]. split; [| done].
  destruct res as [[slot ino]|]; simpl.
  - apply dmap_spec; [done |]. exists slot. by apply Hres'.
  - apply eq_None_not_Some. intros (ino & Hm). apply dmap_spec in Hm as (i & Hi & Ei); [| done].
    assert (None = Some (i, ino)); [by apply Hres' | done].
Qed.

(** Slot [i], at most one past the end, now holds the entry [x]. *)
Lemma update_ok s s' i e (x : option (list Z * Z)) :
  dir_ok s → slot_post s s' i 0 e → 0 <= i <= nslots s → i < MAX_SLOTS →
  (if sfd_ino (parse_dirent e) =? SFS_NOINO then None else Some (sfd_name (parse_dirent e), sfd_ino (parse_dirent e))) = x →
  (∀ name ino, x = Some (name, ino) → ∀ j a, 0 <= j < nslots s → j ≠ i → ent s j ≠ Some (name, a)) →
  dir_ok s' ∧ nslots s' = Z.max (nslots s) (i + 1) ∧
  ∀ j, 0 <= j < MAX_SLOTS → ent s' j = if j =? i then x else ent s j.
Proof using.
  intros Hd (Hf & Hsm & Ht & [(_ & Hsz & Hsl) | [? _]]) Hi Hmax Hx Hnew; [| done].
  pose proof (do_size _ Hd) as Hs0. pose proof (do_whole _ Hd) as Hw0. pose proof (nslots_range s Hd) as Hn0.
  assert (Hent : ∀ j, 0 <= j < MAX_SLOTS → ent s' j = if j =? i then x else ent s j).
  { intros j Hj. unfold ent. rewrite Hsl by done. by destruct (j =? i). }
  assert (Hsz' : sfi_size (inode s) = nslots s * 64) by (unfold nslots; Z.to_euclidean_division_equations; lia).
  assert (Hn : nslots s' = Z.max (nslots s) (i + 1)).
  { unfold nslots at 1. rewrite Hsz, Hsz', Z.mul_max_distr_nonneg_r by lia. by rewrite Z.div_mul. }
  split; [| done]. split; try done.
  - by rewrite Ht, (do_type _ Hd).
  - rewrite Hsz. unfold MAX_SIZE, SFS_BLOCKSIZE in *. unfold MAX_SLOTS in *. lia.
  - rewrite Hsz, Hsz', Z.mul_max_distr_nonneg_r by lia. by apply Z.mod_mul.
  - rewrite Hn. intros j k name a b Hj Hk. rewrite !Hent by lia.
    destruct (Z.eqb_spec j i) as [-> |], (Z.eqb_spec k i) as [-> |]; [done | | |].
    + intros Ex Ek. exfalso. by eapply (Hnew name a Ex k b); [lia | done |].
    + intros Ej Ex. exfalso. by eapply (Hnew name b Ex j a); [lia | done |].
    + apply (do_uniq _ Hd); lia.
Qed.

(** A failed write leaves the directory what it was. *)
Lemma unchanged_ok s s' i e : dir_ok s → slot_post s s' i ENOSPC e → dir_ok s' ∧ dmap s' = dmap s.
Proof using.
  intros Hd (Hf & Hsm & Ht & [[? _] | (_ & _ & Hsz & Hsl)]); [done |].
  assert (Hn : nslots s' = nslots s) by (unfold nslots; by rewrite Hsz). pose proof (nslots_range s Hd) as Hn0.
  assert (Hent : ∀ j, 0 <= j < MAX_SLOTS → ent s' j = ent s j) by (intros j Hj; unfold ent; by rewrite Hsl).
  assert (Hd' : dir_ok s').
  { split; try done.
    - by rewrite Ht, (do_type _ Hd).
    - rewrite Hsz. apply (do_size _ Hd).
    - rewrite Hsz. apply (do_whole _ Hd).
    - rewrite Hn. intros j k name a b Hj Hk. rewrite !Hent by lia. by apply (do_uniq _ Hd). }
  split; [done |]. apply map_eq. intros name. apply option_eq. intros ino. rewrite !dmap_spec by done. rewrite Hn.
  split; intros (j & Hj & E); exists j; (split; [done |]); rewrite Hent in * by lia; done.
Qed.

(** The abstract directory after a link, and after an unlink. *)
Lemma link_dmap s s' i name ino :
  dir_ok s → dir_ok s' → nslots s' = Z.max (nslots s) (i + 1) → 0 <= i <= nslots s → i < MAX_SLOTS →
  (i < nslots s → ent s i = None) →
  (∀ j, 0 <= j < MAX_SLOTS → ent s' j = if j =? i then Some (name, ino) else ent s j) →
  dmap s' = <[name := ino]> (dmap s).
Proof using.
  intros Hd Hd' Hn Hi Hmax Hfree Hent. pose proof (nslots_range s Hd) as Hn0.
  apply map_eq. intros nm. apply option_eq. intros x. rewrite dmap_spec, Hn by done.
  destruct (decide (name = nm)) as [<- | Hne].
  - rewrite lookup_insert_eq. split.
    + intros (j & Hj & E). rewrite Hent in E by lia. destruct (Z.eqb_spec j i) as [-> |]; [by injection E as <- |].
      exfalso. assert (i = j); [| done].
      eapply (do_uniq _ Hd' i j name ino x); [lia | lia | by rewrite Hent, Z.eqb_refl by lia |].
      rewrite Hent by lia. destruct (Z.eqb_spec j i); [done | exact E].
    + intros [= ->]. exists i. split; [lia |]. by rewrite Hent, Z.eqb_refl by lia.
  - rewrite lookup_insert_ne, dmap_spec by done. split; intros (j & Hj & E); exists j.
    + rewrite Hent in E by lia. destruct (Z.eqb_spec j i) as [-> |]; [congruence |]. split; [lia | done].
    + split; [lia |]. rewrite Hent by lia. destruct (Z.eqb_spec j i) as [-> |]; [| done]. rewrite Hfree in E by lia. done.
Qed.

Lemma unlink_dmap s s' i name ino :
  dir_ok s → dir_ok s' → nslots s' = nslots s → 0 <= i < nslots s → ent s i = Some (name, ino) →
  (∀ j, 0 <= j < MAX_SLOTS → ent s' j = if j =? i then None else ent s j) →
  dmap s' = delete name (dmap s).
Proof using.
  intros Hd Hd' Hn Hi Ei Hent. pose proof (nslots_range s Hd) as Hn0.
  apply map_eq. intros nm. apply option_eq. intros x. rewrite dmap_spec, Hn by done.
  destruct (decide (name = nm)) as [<- | Hne].
  - rewrite lookup_delete_eq. split; [| done]. intros (j & Hj & E). rewrite Hent in E by lia.
    destruct (Z.eqb_spec j i); [done |]. assert (i = j); [| done]. by eapply (do_uniq _ Hd i j).
  - rewrite lookup_delete_ne, dmap_spec by done. split; intros (j & Hj & E); exists j; (split; [done |]).
    + rewrite Hent in E by lia. by destruct (j =? i).
    + rewrite Hent by lia. destruct (Z.eqb_spec j i) as [-> |]; [congruence | done].
Qed.

Lemma link_ok s name ino :
  dir_ok s → name_ok name → ino ≠ SFS_NOINO →
  ∃ r slot s', sfs_dir_link name ino s = Done (r, slot) s' ∧ dir_ok s' ∧
    match dmap s !! name with
    | Some _ => r = EEXIST ∧ s' = s
    | None => r = 0 ∧ dmap s' = <[name := ino]> (dmap s) ∧ 0 <= slot < nslots s' ∧ ent s' slot = Some (name, ino) ∨
              (r = ENOSPC ∨ r = EFBIG ∧ nslots s = MAX_SLOTS) ∧ dmap s' = dmap s
    end.
Proof using.
  intros Hd [Hl Hb] Hino. unfold sfs_dir_link, mbind, M_bind.
  destruct (find_ok s name Hd) as (res & e & E & Hres & Hm & He). rewrite E, Hm.
  destruct res as [[sl x]|]; cbn [Z.eqb negb andb fmap option_fmap option_map snd].
  { exists EEXIST, (-1), s. done. }
  change (ENOENT =? 0) with false. change (ENOENT =? ENOENT) with true. cbn [negb andb].
  rewrite (proj2 (Z.ltb_ge _ _)) by (unfold SFS_NAMELEN; lia).
  pose proof (nslots_range s Hd) as Hn0.
  assert (∃ slot, (if e <? 0 then sfs_dir_nentries else mret e) s = Done slot s ∧ 0 <= slot <= nslots s ∧
    (slot < nslots s → ent s slot = None)) as (slot & Eslot & Hslot & Hfree).
  { destruct He as [-> | [He1 He2]].
    - exists (nslots s). simpl. rewrite nentries_ok by done. split; [done | lia].
    - exists e. rewrite (proj2 (Z.ltb_ge e 0)) by lia. split; [done |]. split; [lia | done]. }
  rewrite Eslot. destruct (decide (slot < MAX_SLOTS)) as [Hlt | Hge].
  2:{ rewrite writedir_full by lia. exists EFBIG, slot, s. split; [done |]. split; [done |]. right.
      split; [right; split; [done | lia] | done]. }
  destruct (writedir_ok s slot (make_dirent ino name)) as (r & s' & Ew & Post);
    [apply (do_file _ Hd) | apply (do_disk _ Hd) | lia | apply length_dirent; lia |].
  rewrite Ew. exists r, slot, s'. split; [done |].
  destruct (decide (r = 0)) as [-> | Hr0].
  - destruct (update_ok s s' slot (make_dirent ino name) (Some (name, ino))) as (Hd' & Hn & Hent); try done.
    + rewrite parse_make by done. simpl. by apply Z.eqb_neq in Hino as ->.
    + intros nm x [= <- <-] j a Hj _ Ej. assert (None = Some (j, a)); [by apply Hres | done].
    + split; [done |]. left. split; [done |]. split; [by eapply link_dmap |].
      split; [lia |]. by rewrite Hent, Z.eqb_refl by lia.
  - assert (r = ENOSPC) as -> by (destruct Post as (_ & _ & _ & [[? _] | [? _]]); done).
    destruct (unchanged_ok _ _ _ _ Hd Post) as [Hd' Hm']. split; [done |]. right. split; [by left | done].
Qed.

(** A slot with an entry lies in a block of the file. *)
Lemma ent_mapped s i x : ent s i = Some x → fmap s (i / 8) ≠ 0.
Proof using.
  intros E Hz. unfold ent, slotw, fwords in E. rewrite Hz in E. simpl in E. unfold zero_block in E.
  rewrite drop_replicate, take_replicate in E. unfold parse_dirent in E.
  destruct (16 `min` (128 - Z.to_nat (16 * (i mod 8))))%nat eqn:En; simpl in E; done.
Qed.

Lemma unlink_ok s slot name ino :
  dir_ok s → 0 <= slot < nslots s → ent s slot = Some (name, ino) →
  ∃ s', sfs_dir_unlink slot s = Done 0 s' ∧ dir_ok s' ∧ dmap s' = delete name (dmap s).
Proof using.
  intros Hd Hs Es. pose proof (nslots_range s Hd) as Hn0. unfold sfs_dir_unlink.
  destruct (writedir_ok s slot (make_dirent SFS_NOINO [])) as (r & s' & Ew & Post);
    [apply (do_file _ Hd) | apply (do_disk _ Hd) | lia | done |].
  assert (r = 0) as ->.
  { destruct Post as (_ & _ & _ & [[? _] | (_ & Hz & _)]); [done |]. by apply ent_mapped in Es. }
  exists s'. split; [done |].
  destruct (update_ok s s' slot (make_dirent SFS_NOINO []) None) as (Hd' & Hn & Hent); try done; try lia.
  split; [done |]. eapply (unlink_dmap s s' slot name ino); try done. lia.
Qed.

(** C23: A directory is a finite map.  Looking a name up gives its inode, or ENOENT when
    the map does not have it; linking a new name adds exactly it to the map and
    returns 0, or changes nothing when there is no room (ENOSPC, or EFBIG once all
    slots of the largest directory are taken); linking a name that is there is
    EEXIST; erasing the slot a lookup found never fails and removes exactly that
    name.  All of them return, and keep the directory well formed. *)
Theorem sfs_dir_refines s :
  dir_ok s →
  (∀ name, ∃ r found e, sfs_dir_findname name s = Done (r, found, e) s ∧
     match dmap s !! name with
     | Some ino => r = 0 ∧ ∃ slot, found = Some (slot, ino)
     | None => r = ENOENT ∧ found = None
     end) ∧
  (∀ name ino, name_ok name → ino ≠ SFS_NOINO →
     ∃ r slot s', sfs_dir_link name ino s = Done (r, slot) s' ∧ dir_ok s' ∧
       match dmap s !! name with
       | Some _ => r = EEXIST ∧ s' = s
       | None => r = 0 ∧ dmap s' = <[name := ino]> (dmap s) ∨
                 (r = ENOSPC ∨ r = EFBIG ∧ nslots s = MAX_SLOTS) ∧ dmap s' = dmap s
       end) ∧
  (∀ name r slot ino e, sfs_dir_findname name s = Done (r, Some (slot, ino), e) s →
     ∃ s', sfs_dir_unlink slot s = Done 0 s' ∧ dir_ok s' ∧ dmap s' = delete name (dmap s)).
Proof using.
  intros Hd. split_and!.
  - intros name. destruct (find_ok s name Hd) as (res & e & E & _ & Hm & _). exists (match res with Some _ => 0 | None => ENOENT end), res, e.
    split; [done |]. rewrite Hm. destruct res as [[slot ino]|]; simpl; [by eauto | done].
  - intros name ino Hn Hi. destruct (link_ok s name ino Hd Hn Hi) as (r & slot & s' & E & Hd' & H). exists r, slot, s'.
    split; [done |]. split; [done |]. destruct (dmap s !! name); [done |]. destruct H as [(? & ? & _) | ?]; [by left | by right].
  - intros name r slot ino e E. destruct (find_ok s name Hd) as (res & e' & E' & Hres & _). rewrite E in E'.
    injection E' as _ <- _. destruct (proj1 (Hres slot ino) eq_refl) as [Hs Es]. by eapply unlink_ok.
Qed.
End dir.

(** A directory with two files, in one block. *)
Definition w_dir : fstate rdisk :=
  mkF (mkFs 64 (mkBitmap 64 [0x1f; 0; 0; 0; 0; 0; 0; 0]) false
         (mkRdisk 64 (λ b, if b =? 4 then make_dirent 5 [97] ++ make_dirent 7 [98] ++ replicate 96 0
                           else replicate 128 0)) 0)
      (mkVnode (mkInode 128 SFS_TYPE_DIR 1 (4 :: replicate 14 0) 0) 1 false).

Lemma w_dir_fmap k : 0 <= k < 143 → fmap w_dir k = if k =? 0 then 4 else 0.
Proof.
  intros Hk. pose proof (forall_range (λ k, fmap w_dir k =? (if k =? 0 then 4 else 0)) 143 eq_refl k Hk) as H.
  by apply Z.eqb_eq in H.
Qed.

Lemma w_dir_file : file_ok w_dir.
Proof.
  split; [| done | | | done]; change MAX_FILEBLOCK with 143.
  - split; try done.
    + split; try done; [| intros i Hi; simpl in Hi; lia].
      simpl. repeat (apply Forall_cons_2; [unfold fits; lia |]). apply Forall_nil_2.
    + intros b Hb. simpl in Hb. lia.
  - intros k Hk. rewrite w_dir_fmap by done. destruct (k =? 0); [by intros _ | done].
  - intros k k' Hk Hk'. rewrite !w_dir_fmap by done. destruct (Z.eqb_spec k 0), (Z.eqb_spec k' 0); try done; lia.
Qed.

Lemma w_dir_ok : dir_ok w_dir.
Proof.
  split; try done; [exact w_dir_file |]. change (nslots w_dir) with 2. intros i j name a b Hi Hj.
  assert (E0 : ent w_dir 0 = Some ([97], 5)) by (vm_compute; reflexivity).
  assert (E1 : ent w_dir 1 = Some ([98], 7)) by (vm_compute; reflexivity).
  assert (i = 0 ∨ i = 1) as [-> | ->] by lia; assert (j = 0 ∨ j = 1) as [-> | ->] by lia; try done; congruence.
Qed.

Lemma sfs_dir_refines_witness :
  dmap w_dir = {[ [97] := 5; [98] := 7 ]} ∧
  (∀ name, ∃ r found e, sfs_dir_findname name w_dir = Done (r, found, e) w_dir ∧
     match dmap w_dir !! name with
     | Some ino => r = 0 ∧ ∃ slot, found = Some (slot, ino)
     | None => r = ENOENT ∧ found = None
     end) ∧
  (∀ name ino, name_ok name → ino ≠ SFS_NOINO →
     ∃ r slot s', sfs_dir_link name ino w_dir = Done (r, slot) s' ∧ dir_ok s' ∧
       match dmap w_dir !! name with
       | Some _ => r = EEXIST ∧ s' = w_dir
       | None => r = 0 ∧ dmap s' = <[name := ino]> (dmap w_dir) ∨
                 (r = ENOSPC ∨ r = EFBIG ∧ nslots w_dir = MAX_SLOTS) ∧ dmap s' = dmap w_dir
       end) ∧
  (∀ name r slot ino e, sfs_dir_findname name w_dir = Done (r, Some (slot, ino), e) w_dir →
     ∃ s', sfs_dir_unlink slot w_dir = Done 0 s' ∧ dir_ok s' ∧ dmap s' = delete name (dmap w_dir)).
Proof. split; [vm_compute; reflexivity | apply (sfs_dir_refines w_dir), w_dir_ok]. Defined.
End SfsDir.
