(* ===== verification/SfsVol.v ===== *)
(** * SFS volumes: vnodes in memory, vnode operations, mounting
      (fs/sfs/sfs_inode.c, sfs_vnops.c, sfs_fsops.c, sfs_lookonce of sfs_dir.c)

    A volume is a mounted [struct sfs_fs]: its block state (Sfs.v), its superblock and
    the table of the vnodes in memory.  The operations on blocks and on one inode are
    those of Sfs.v and SfsIo.v, run on the part of the volume they work on.  A vnode
    is known by its address; the addresses [kmalloc] gives are arguments (0: no
    memory), and so are the results of [vnodearray_add].  The functions run under the
    big lock, so between two operations of this file the volume does not change. *)

From stdpp Require Import base list gmap numbers strings sets.
From Stdlib Require Import ZArith Lia.
From S2P Require Import Prelude Bitmap Sfs SfsProof SfsIo.
Import Bitmap Sfs SfsProof SfsIo.

#[local] Open Scope Z_scope.

Module SfsVol.

Definition SFS_MAGIC : Z := 0xabadf001.
Definition SFS_SUPER_BLOCK : Z := 0.
Definition SFS_FREEMAP_START : Z := 2.
Definition SFS_ROOTDIR_INO : Z := 1.
Definition SFS_BITSPERBLOCK : Z := 4096.
Definition SFS_VOLNAME_SIZE : Z := 32.
Definition EISDIR : Z := 18.
Definition ENXIO : Z := 26.
Definition O_ACCMODE : Z := 3.
Definition O_RDONLY : Z := 0.
Definition O_APPEND : Z := 32.
Definition S_IFREG : Z := 0x1000.
Definition S_IFDIR : Z := 0x2000.

(** Unsigned 32-bit arithmetic, as in the macros of kern/sfs.h. *)
Definition SFS_FREEMAPBITS (nblocks : Z) : Z :=
  u32 (u32 (nblocks + SFS_BITSPERBLOCK - 1) / SFS_BITSPERBLOCK * SFS_BITSPERBLOCK).
Definition SFS_FREEMAPBLOCKS (nblocks : Z) : Z := SFS_FREEMAPBITS nblocks / SFS_BITSPERBLOCK.

(** A vnode in memory with its reference count. *)
Record node := mkNode { n_sv : sfs_vnode; n_refcount : Z }.

Record super := mkSuper { sb_magic : Z; sb_volname : list Z; sb_reserved : list Z }.

Record vol (D : Type) := mkVol {
  v_fs : sfs_fs D;
  v_super : super;
  v_superdirty : bool;
  v_attached : bool;            (* sfs_device is not NULL *)
  v_allocated : bool;           (* the struct sfs_fs exists *)
  v_table : list Z;             (* sfs_vnodes *)
  v_nodes : gmap Z node
}.
Arguments mkVol {_}.
Arguments v_fs {_} _.
Arguments v_super {_} _.
Arguments v_superdirty {_} _.
Arguments v_attached {_} _.
Arguments v_allocated {_} _.
Arguments v_table {_} _.
Arguments v_nodes {_} _.

(** [vnodearray_remove] of the first place that holds [v]. *)
Fixpoint remove_first (v : Z) (l : list Z) : list Z :=
  match l with
  | [] => []
  | x :: l' => if x =? v then l' else x :: remove_first v l'
  end.

(** What [sfs_stat] fills in. *)
Record stat := mkStat { st_mode : Z; st_size : Z; st_nlink : Z; st_blocks : Z }.

Section vol.
Context {D : Type} `{!BlockDev D}.
Abbreviation V := (M (vol D)).
Implicit Types s : vol D.

Definition with_v_fs x s : vol D := mkVol x (v_super s) (v_superdirty s) (v_attached s) (v_allocated s) (v_table s) (v_nodes s).
Definition with_super x b s : vol D := mkVol (v_fs s) x b (v_attached s) (v_allocated s) (v_table s) (v_nodes s).
Definition with_attached x s : vol D := mkVol (v_fs s) (v_super s) (v_superdirty s) x (v_allocated s) (v_table s) (v_nodes s).
Definition with_allocated x s : vol D := mkVol (v_fs s) (v_super s) (v_superdirty s) (v_attached s) x (v_table s) (v_nodes s).
Definition with_table x s : vol D := mkVol (v_fs s) (v_super s) (v_superdirty s) (v_attached s) (v_allocated s) x (v_nodes s).
Definition with_nodes x s : vol D := mkVol (v_fs s) (v_super s) (v_superdirty s) (v_attached s) (v_allocated s) (v_table s) x.

Definition no_vnode : sfs_vnode := mkVnode (mkInode 0 0 0 [] 0) 0 false.

(** Block operations, and operations on the inode of the vnode [v]. *)
Definition on_fs {A} (m : M (fstate D) A) : V A :=
  zoom (λ s, mkF (v_fs s) no_vnode) (λ t s, with_v_fs (fs t) s) m.
Definition get_node (v : Z) : V node := deref (λ s, v_nodes s !! v) "bad vnode".
Definition put_node (v : Z) (n : node) : V unit := modify (λ s, with_nodes (<[v := n]> (v_nodes s)) s).
Definition on_vnode {A} (v : Z) (m : M (fstate D) A) : V A :=
  n ← get_node v;
  zoom (λ s, mkF (v_fs s) (n_sv n))
    (λ t s, with_nodes (<[v := mkNode (sv t) (n_refcount n)]> (v_nodes s)) (with_v_fs (fs t) s)) m.

Definition biglock_acquire : V unit := on_fs vfs_biglock_acquire.
Definition biglock_release : V unit := on_fs vfs_biglock_release.
Definition locked {A} (m : V A) : V A := biglock_acquire ;; r ← m; biglock_release ;; mret r.

(** Change the inode of [v] in memory and mark it dirty. *)
Definition upd_dinode (v : Z) (f : sfs_dinode → sfs_dinode) : V unit := on_vnode v (upd_inode f).
Definition set_linkcount (n : Z) (i : sfs_dinode) :=
  mkInode (sfi_size i) (sfi_type i) n (sfi_direct i) (sfi_indirect i).
Definition set_type (t : Z) (i : sfs_dinode) :=
  mkInode (sfi_size i) t (sfi_linkcount i) (sfi_direct i) (sfi_indirect i).

(** *** sfs_inode.c *)

(** [sfs_reclaim] up to the removal from the table: the inode is erased or written
    back.  The result. *)
Definition reclaim_inode (v : Z) : V Z :=
  n ← get_node v;
  result ← (if sfi_linkcount (sv_i (n_sv n)) =? 0 then on_vnode v (sfs_itrunc 0) else mret 0);
  if negb (result =? 0) then mret result
  else
    result ← on_vnode v sfs_sync_inode;
    if negb (result =? 0) then mret result
    else
      n ← get_node v;
      (if sfi_linkcount (sv_i (n_sv n)) =? 0 then on_fs (sfs_bfree (sv_ino (n_sv n))) else mret tt) ;;
      mret 0.

Definition sfs_reclaim (v : Z) : V Z :=
  biglock_acquire ;;
  n ← get_node v;
  if negb (n_refcount n =? 1) then
    kassert (1 <? n_refcount n) "v->vn_refcount>1" ;;
    put_node v (mkNode (n_sv n) (n_refcount n - 1)) ;;
    biglock_release ;;
    mret EBUSY
  else
    result ← reclaim_inode v;
    if negb (result =? 0) then biglock_release ;; mret result
    else
      table ← gets v_table;
      if negb (bool_decide (v ∈ table)) then panic "reclaim vnode not in vnode pool"
      else
        modify (λ s, with_table (remove_first v (v_table s)) s) ;;
        biglock_release ;;
        modify (λ s, with_nodes (delete v (v_nodes s)) s) ;;
        mret 0.

(** [vnode_incref] and [vnode_decref] (vfs/vnode.c) for an SFS vnode. *)
Definition VOP_INCREF (v : Z) : V unit :=
  n ← get_node v;
  put_node v (mkNode (n_sv n) (n_refcount n + 1)).
Definition VOP_DECREF (v : Z) : V unit :=
  n ← get_node v;
  kassert (0 <? n_refcount n) "vn->vn_refcount > 0" ;;
  if 1 <? n_refcount n then put_node v (mkNode (n_sv n) (n_refcount n - 1))
  else sfs_reclaim v ;; mret tt.

(** The search in the table: the vnode, if the inode is in memory. *)
Fixpoint load_search (table : list Z) (ino : Z) : V (option Z) :=
  match table with
  | [] => mret None
  | v :: table' =>
      n ← get_node v;
      used ← on_fs (sfs_bused (sv_ino (n_sv n)));
      if negb (used : bool) then panic "Found inode in unallocated block"
      else if sv_ino (n_sv n) =? ino then mret (Some v)
      else load_search table' ino
  end.

(** The result and the vnode; [mem] is the block [kmalloc] gave, [added] the result of
    [vnodearray_add]. *)
Definition sfs_loadvnode (mem added ino forcetype : Z) : V (Z * Z) :=
  table ← gets v_table;
  found ← load_search table ino;
  match found with
  | Some v =>
      kassert (forcetype =? SFS_TYPE_INVAL) "forcetype==SFS_TYPE_INVAL" ;;
      VOP_INCREF v ;;
      mret (0, v)
  | None =>
      if mem =? 0 then mret (ENOMEM, 0)
      else
        used ← on_fs (sfs_bused ino);
        if negb (used : bool) then panic "Tried to load inode from unallocated block"
        else
          '(result, ws) ← on_fs (sfs_readblock ino);
          if negb (result =? 0) then mret (result, 0)
          else
            let i := parse_inode ws in
            i' ← (if negb (forcetype =? SFS_TYPE_INVAL) then
                    kassert (sfi_type i =? SFS_TYPE_INVAL) "sv->sv_i.sfi_type == SFS_TYPE_INVAL" ;;
                    mret (set_type forcetype i)
                  else mret i);
            if negb ((sfi_type i' =? SFS_TYPE_FILE) || (sfi_type i' =? SFS_TYPE_DIR)) then
              panic "loadvnode: Invalid inode type"
            else if negb (added =? 0) then mret (added, 0)
            else
              put_node mem (mkNode (mkVnode i' ino (negb (forcetype =? SFS_TYPE_INVAL))) 1) ;;
              modify (λ s, with_table (v_table s ++ [mem]) s) ;;
              mret (0, mem)
  end.

Definition sfs_makeobj (mem added type : Z) : V (Z * Z) :=
  '(result, ino) ← on_fs sfs_balloc;
  if negb (result =? 0) then mret (result, 0)
  else
    '(result, v) ← sfs_loadvnode mem added ino type;
    (if negb (result =? 0) then on_fs (sfs_bfree ino) else mret tt) ;;
    mret (result, v).

(** A root that is not a directory is an error, and its vnode stays referenced. *)
Definition sfs_getroot (mem added : Z) : V (Z * Z) :=
  locked (
    '(result, v) ← sfs_loadvnode mem added SFS_ROOTDIR_INO SFS_TYPE_INVAL;
    if negb (result =? 0) then mret (result, 0)
    else
      n ← get_node v;
      if negb (sfi_type (sv_i (n_sv n)) =? SFS_TYPE_DIR) then mret (EINVAL, 0)
      else mret (0, v)).

(** *** sfs_dir.c *)

(** The result, the vnode and the slot. *)
Definition sfs_lookonce (mem added dir : Z) (name : list Z) : V (Z * Z * Z) :=
  '(result, found, _) ← on_vnode dir (sfs_dir_findname name);
  if negb (result =? 0) then mret (result, 0, -1)
  else
    let '(slot, ino) := default (-1, 0) found in
    '(result, v) ← sfs_loadvnode mem added ino SFS_TYPE_INVAL;
    if negb (result =? 0) then mret (result, 0, slot)
    else
      n ← get_node v;
      if sfi_linkcount (sv_i (n_sv n)) =? 0 then panic "linkcount 0" else mret (0, v, slot).

(** *** sfs_vnops.c *)

Definition sfs_eachopen (v openflags : Z) : V Z := mret 0.
Definition sfs_eachopendir (v openflags : Z) : V Z :=
  if negb (Z.land openflags O_ACCMODE =? O_RDONLY) then mret EISDIR
  else if negb (Z.land openflags O_APPEND =? 0) then mret EISDIR
  else mret 0.

Definition sfs_read (v : Z) (u : fuio) : V (Z * fuio) := locked (on_vnode v (sfs_io false u)).
Definition sfs_write (v : Z) (u : fuio) : V (Z * fuio) := locked (on_vnode v (sfs_io true u)).
Definition sfs_ioctl (v op : Z) : V Z := mret EINVAL.

Definition sfs_gettype (v : Z) : V (Z * Z) :=
  biglock_acquire ;;
  n ← get_node v;
  let t := sfi_type (sv_i (n_sv n)) in
  if t =? SFS_TYPE_FILE then biglock_release ;; mret (0, S_IFREG)
  else if t =? SFS_TYPE_DIR then biglock_release ;; mret (0, S_IFDIR)
  else panic "gettype: Invalid inode type".

Definition sfs_stat (v : Z) : V (Z * stat) :=
  '(result, mode) ← sfs_gettype v;
  if negb (result =? 0) then mret (result, mkStat 0 0 0 0)
  else
    n ← get_node v;
    mret (0, mkStat mode (sfi_size (sv_i (n_sv n))) (sfi_linkcount (sv_i (n_sv n))) 0).

Definition sfs_isseekable (v : Z) : V bool := mret true.
Definition sfs_fsync (v : Z) : V Z := locked (on_vnode v sfs_sync_inode).
Definition sfs_mmap (v : Z) : V Z := mret ENOSYS.
Definition sfs_truncate (v len : Z) : V Z := on_vnode v (sfs_itrunc len).
Definition sfs_namefile (v : Z) : V Z :=
  n ← get_node v;
  kassert (sv_ino (n_sv n) =? SFS_ROOTDIR_INO) "sv->sv_ino == SFS_ROOTDIR_INO" ;;
  mret 0.

(** The 16-bit link count of [v] goes up or down by one. *)
Definition add_link (v d : Z) : V unit :=
  upd_dinode v (λ i, set_linkcount (u16 (sfi_linkcount i + d)) i).

(** A new file, linked into the directory. *)
Definition creat_new (mem added dir : Z) (name : list Z) : V (Z * Z) :=
  '(result, newguy) ← sfs_makeobj mem added SFS_TYPE_FILE;
  if negb (result =? 0) then mret (result, 0)
  else
    n ← get_node newguy;
    '(result, _) ← on_vnode dir (sfs_dir_link name (sv_ino (n_sv n)));
    if negb (result =? 0) then VOP_DECREF newguy ;; mret (result, 0)
    else add_link newguy 1 ;; mret (0, newguy).

Definition sfs_creat (mem added dir : Z) (name : list Z) (excl : bool) : V (Z * Z) :=
  locked (
    '(result, found, _) ← on_vnode dir (sfs_dir_findname name);
    if negb (result =? 0) && negb (result =? ENOENT) then mret (result, 0)
    else if (result =? 0) && excl then mret (EEXIST, 0)
    else if result =? 0 then
      let '(_, ino) := default (-1, 0) found in
      sfs_loadvnode mem added ino SFS_TYPE_INVAL
    else creat_new mem added dir name).

Definition sfs_link (dir : Z) (name : list Z) (file : Z) : V Z :=
  locked (
    f ← get_node file;
    if sfi_type (sv_i (n_sv f)) =? SFS_TYPE_DIR then mret EINVAL
    else
      '(result, _) ← on_vnode dir (sfs_dir_link name (sv_ino (n_sv f)));
      if negb (result =? 0) then mret result
      else add_link file 1 ;; mret 0).

Definition sfs_remove (mem added dir : Z) (name : list Z) : V Z :=
  locked (
    '(result, victim, slot) ← sfs_lookonce mem added dir name;
    if negb (result =? 0) then mret result
    else
      result ← on_vnode dir (sfs_dir_unlink slot);
      (if result =? 0 then
         n ← get_node victim;
         kassert (0 <? sfi_linkcount (sv_i (n_sv n))) "victim->sv_i.sfi_linkcount > 0" ;;
         add_link victim (-1)
       else mret tt) ;;
      VOP_DECREF victim ;;
      mret result).

(** The old name could not be removed: the new one is. *)
Definition rename_undo (dir g1 slot2 : Z) : V unit :=
  result2 ← on_vnode dir (sfs_dir_unlink slot2);
  if negb (result2 =? 0) then panic "rename: Cannot recover"
  else
    n ← get_node g1;
    put_node g1 (mkNode (mkVnode (set_linkcount (u16 (sfi_linkcount (sv_i (n_sv n)) - 1)) (sv_i (n_sv n)))
                           (sv_ino (n_sv n)) (sv_dirty (n_sv n))) (n_refcount n)).

Definition sfs_rename (mem added d1 : Z) (n1 : list Z) (d2 : Z) (n2 : list Z) : V Z :=
  locked (
    kassert (d1 =? d2) "d1==d2" ;;
    d ← get_node d1;
    kassert (sv_ino (n_sv d) =? SFS_ROOTDIR_INO) "sv->sv_ino == SFS_ROOTDIR_INO" ;;
    '(result, g1, slot1) ← sfs_lookonce mem added d1 n1;
    if negb (result =? 0) then mret result
    else
      g ← get_node g1;
      kassert (sfi_type (sv_i (n_sv g)) =? SFS_TYPE_FILE) "g1->sv_i.sfi_type == SFS_TYPE_FILE" ;;
      '(result, slot2) ← on_vnode d1 (sfs_dir_link n2 (sv_ino (n_sv g)));
      if negb (result =? 0) then VOP_DECREF g1 ;; mret result
      else
        add_link g1 1 ;;
        result ← on_vnode d1 (sfs_dir_unlink slot1);
        if negb (result =? 0) then rename_undo d1 g1 slot2 ;; VOP_DECREF g1 ;; mret result
        else
          g ← get_node g1;
          kassert (0 <? sfi_linkcount (sv_i (n_sv g))) "g1->sv_i.sfi_linkcount>0" ;;
          add_link g1 (-1) ;;
          VOP_DECREF g1 ;;
          mret 0).

(** The result, the directory and the last component. *)
Definition sfs_lookparent (v : Z) (path : list Z) (buflen : Z) : V (Z * Z * list Z) :=
  locked (
    n ← get_node v;
    if negb (sfi_type (sv_i (n_sv n)) =? SFS_TYPE_DIR) then mret (ENOTDIR, 0, [])
    else if buflen <? Z.of_nat (length path) + 1 then mret (ENAMETOOLONG, 0, [])
    else VOP_INCREF v ;; mret (0, v, path)).

Definition sfs_lookup (mem added v : Z) (path : list Z) : V (Z * Z) :=
  locked (
    n ← get_node v;
    if negb (sfi_type (sv_i (n_sv n)) =? SFS_TYPE_DIR) then mret (ENOTDIR, 0)
    else
      '(result, final, _) ← sfs_lookonce mem added v path;
      if negb (result =? 0) then mret (result, 0) else mret (0, final)).

(** *** sfs_fsops.c *)

(** Block [j] of the free map in memory. *)
Definition freemap_chunk (j : Z) (b : bitmap) : list Z :=
  take 512 (drop (Z.to_nat (j * SFS_BLOCKSIZE)) (bitmap_getdata b)).
Definition set_chunk (j : Z) (new : list Z) (b : bitmap) : bitmap :=
  mkBitmap (nbits b) (splice (j * SFS_BLOCKSIZE) new (Bitmap.v b)).

(** The loop from block [j] on, [n] blocks left. *)
Fixpoint freemapio_loop (n : nat) (j : Z) (write : bool) : V Z :=
  match n with
  | O => mret 0
  | S n' =>
      result ←
        (if write then
           b ← gets (λ s, sfs_freemap (v_fs s));
           on_fs (sfs_writeblock (SFS_FREEMAP_START + j) (words_of (freemap_chunk j b)))
         else
           '(result, ws) ← on_fs (sfs_readblock (SFS_FREEMAP_START + j));
           (if result =? 0 then
              modify (λ s, with_v_fs (with_freemap (set_chunk j (bytes ws) (sfs_freemap (v_fs s))) (v_fs s)) s)
            else mret tt) ;;
           mret result);
      if negb (result =? 0) then mret result else freemapio_loop n' (j + 1) write
  end.
Definition sfs_freemapio (write : bool) : V Z :=
  n ← gets (λ s, SFS_FREEMAPBLOCKS (sb_nblocks (v_fs s)));
  freemapio_loop (Z.to_nat n) 0 write.

(** [VOP_FSYNC] of every vnode; what it returns is ignored. *)
Fixpoint sync_nodes (table : list Z) : V unit :=
  match table with
  | [] => mret tt
  | v :: table' => sfs_fsync v ;; sync_nodes table'
  end.
Definition sfs_sync_vnodes : V Z := table ← gets v_table; sync_nodes table ;; mret 0.

Definition sfs_sync_freemap : V Z :=
  dirty ← gets (λ s, sfs_freemapdirty (v_fs s));
  if (dirty : bool) then
    result ← sfs_freemapio true;
    if negb (result =? 0) then mret result
    else modify (λ s, with_v_fs (with_freemapdirty false (v_fs s)) s) ;; mret 0
  else mret 0.

(** The block image of the superblock. *)
Definition super_words (nblocks : Z) (b : super) : list Z :=
  [sb_magic b; nblocks] ++ words_of (sb_volname b) ++ sb_reserved b.
Definition parse_super (ws : list Z) : Z * super :=
  (default 0 (ws !! 1%nat),
   mkSuper (default 0 (head ws)) (bytes (take 8 (drop 2 ws))) (drop 10 ws)).

Definition sfs_sync_superblock : V Z :=
  dirty ← gets v_superdirty;
  if (dirty : bool) then
    ws ← gets (λ s, super_words (sb_nblocks (v_fs s)) (v_super s));
    result ← on_fs (sfs_writeblock SFS_SUPER_BLOCK ws);
    if negb (result =? 0) then mret result
    else modify (λ s, with_super (v_super s) false s) ;; mret 0
  else mret 0.

Definition sfs_sync : V Z :=
  locked (
    result ← sfs_sync_vnodes;
    if negb (result =? 0) then mret result
    else
      result ← sfs_sync_freemap;
      if negb (result =? 0) then mret result else sfs_sync_superblock).

Definition sfs_getvolname : V (list Z) := locked (gets (λ s, c_string (sb_volname (v_super s)))).

Definition sfs_fs_destroy : V unit :=
  table ← gets v_table;
  kassert (bool_decide (table = [])) "a->num == 0" ;;
  attached ← gets v_attached;
  kassert (negb attached) "sfs->sfs_device == NULL" ;;
  modify (with_allocated false).

Definition sfs_unmount : V Z :=
  biglock_acquire ;;
  table ← gets v_table;
  if bool_decide (table ≠ []) then biglock_release ;; mret EBUSY
  else
    superdirty ← gets v_superdirty;
    kassert (negb superdirty) "sfs->sfs_superdirty == false" ;;
    freemapdirty ← gets (λ s, sfs_freemapdirty (v_fs s));
    kassert (negb freemapdirty) "sfs->sfs_freemapdirty == false" ;;
    modify (with_attached false) ;;
    sfs_fs_destroy ;;
    biglock_release ;;
    mret 0.

(** [ok1] and [ok2]: the [kmalloc]s of the structure and of the vnode table succeed. *)
Definition sfs_fs_create (ok1 ok2 : bool) : V bool :=
  if ok1 && ok2 then
    modify (λ s, mkVol (mkFs 0 (mkBitmap 0 []) false (sfs_device (v_fs s)) (vfs_biglock_depth (v_fs s)))
                   (v_super s) false false true [] ∅) ;;
    mret true
  else mret false.

(** An error after the structure was made: it is destroyed. *)
Definition mount_fail (result : Z) : V Z :=
  modify (with_attached false) ;; sfs_fs_destroy ;; mret result.

(** The superblock has been read: the checks and the free map. *)
Definition mount_super (ok1 ok2 : bool) (ws : list Z) : V Z :=
  let '(nblocks, b) := parse_super ws in
  if negb (sb_magic b =? SFS_MAGIC) then mount_fail EINVAL
  else
    modify (λ s, with_super (mkSuper (sb_magic b) (take 31 (sb_volname b) ++ [0]) (sb_reserved b)) false
             (with_v_fs (mkFs nblocks (sfs_freemap (v_fs s)) false (sfs_device (v_fs s)) (vfs_biglock_depth (v_fs s))) s)) ;;
    map ← zoom (λ _, tt) (λ _ s, s) (bitmap_create ok1 ok2 (SFS_FREEMAPBITS nblocks));
    match map with
    | None => mount_fail ENOMEM
    | Some m =>
        modify (λ s, with_v_fs (with_freemap m (v_fs s)) s) ;;
        result ← sfs_freemapio false;
        if negb (result =? 0) then mount_fail result else mret 0
    end.

(** Mounting the device in [v_fs]; [d_blocksize] is its block size. *)
Definition sfs_domount (d_blocksize : Z) (ok1 ok2 ok3 ok4 : bool) : V Z :=
  locked (
    if negb (d_blocksize =? SFS_BLOCKSIZE) then mret ENXIO
    else
      made ← sfs_fs_create ok1 ok2;
      if negb (made : bool) then mret ENOMEM
      else
        modify (with_attached true) ;;
        '(result, ws) ← on_fs (sfs_readblock SFS_SUPER_BLOCK);
        if negb (result =? 0) then mount_fail result else mount_super ok3 ok4 ws).
End vol.
End SfsVol.
