(* ===== verification/SfsMount.v ===== *)
(** * Unmounting an SFS volume and mounting it again

    [sfs_sync] brings the free map and the superblock to the disk, [sfs_unmount] lets
    go of the volume and [sfs_domount] reads it back: the volume is what it was. *)

From stdpp Require Import base list gmap numbers strings sets.
From Stdlib Require Import ZArith Lia.
From S2P Require Import Prelude Bitmap Sfs SfsProof SfsIo SfsVol.
Import Bitmap Sfs SfsProof SfsIo SfsVol.

#[local] Open Scope Z_scope.

Module SfsMount.

Section mount.
Context {D : Type} `{!BlockDev D} `{!ReliableDev D}.
Implicit Types s : vol D.

Definition vblk s (b : Z) : list Z := contents (sfs_device (v_fs s)) b.
Definition vdev (d : D) s : vol D := with_v_fs (with_device d (v_fs s)) s.
Definition vsize s : Z := dev_blocks (sfs_device (v_fs s)).

Lemma vread s b : 0 <= b < vsize s → on_fs (sfs_readblock b) s = Done (0, vblk s b) s.
Proof using.
  intros Hb. unfold on_fs, zoom. rewrite readblock_eq by done. simpl. f_equal. destruct s as [[]]. done.
Qed.
Lemma vwrite s b ws : 0 <= b < vsize s → length ws = 128%nat →
  ∃ d', on_fs (sfs_writeblock b ws) s = Done 0 (vdev d' s) ∧ dev_blocks d' = vsize s ∧
    ∀ x, contents d' x = if x =? b then ws else vblk s x.
Proof using.
  intros Hb Hl. destruct (writeblock_eq (mkF (v_fs s) no_vnode) b ws Hb Hl) as (d' & E & Hd & Hc).
  exists d'. split; [| done]. unfold on_fs, zoom. rewrite E. done.
Qed.

(** *** The free map *)

Definition map_blocks s : Z := SFS_FREEMAPBLOCKS (sb_nblocks (v_fs s)).

Record map_ok (nb : Z) (b : bitmap) : Prop := {
  mo_len : length (Bitmap.v b) = Z.to_nat (nb * 512);
  mo_bytes : Forall is_byte (Bitmap.v b)
}.

Lemma length_chunk nb b j : map_ok nb b → 0 <= j < nb → length (freemap_chunk j b) = 512%nat.
Proof using.
  intros [Hl _] Hj. unfold freemap_chunk, bitmap_getdata, SFS_BLOCKSIZE. rewrite length_take, length_drop, Hl. lia.
Qed.
Lemma chunk_bytes nb b j : map_ok nb b → 0 <= j < nb → bytes (words_of (freemap_chunk j b)) = freemap_chunk j b.
Proof using.
  intros Hm Hj. apply (bytes_words 128); [by rewrite (length_chunk nb) |]. apply Forall_take, Forall_drop, (mo_bytes _ _ Hm).
Qed.

(** Blocks [from .. nb) of the map are on the disk. *)
Definition map_on_disk s (from nb : Z) (b : bitmap) : Prop :=
  ∀ j, from <= j < nb → vblk s (SFS_FREEMAP_START + j) = words_of (freemap_chunk j b).

Lemma freemap_write_ok n : ∀ s j nb,
  map_ok nb (sfs_freemap (v_fs s)) → 0 <= j → j + Z.of_nat n = nb → SFS_FREEMAP_START + nb <= vsize s →
  ∃ d', freemapio_loop n j true s = Done 0 (vdev d' s) ∧ dev_blocks d' = vsize s ∧
    map_on_disk (vdev d' s) j nb (sfs_freemap (v_fs s)) ∧
    ∀ x, x < SFS_FREEMAP_START + j → contents d' x = vblk s x.
Proof using.
  induction n as [|n IH]; intros s j nb Hm Hj Hn Hd.
  { exists (sfs_device (v_fs s)). split; [simpl; f_equal; by destruct s as [[]] |]. split; [done |]. split; [| done].
    intros k Hk. lia. }
  cbn [freemapio_loop]. unfold mbind, M_bind, gets, SFS_FREEMAP_START in *. set (b := sfs_freemap (v_fs s)) in *.
  destruct (vwrite s (2 + j) (words_of (freemap_chunk j b))) as (d1 & E1 & Hd1 & Hc1).
  { lia. } { apply (length_words_of 128). rewrite (length_chunk nb); [done | done | lia]. }
  rewrite E1. cbn [Z.eqb negb].
  destruct (IH (vdev d1 s) (j + 1) nb) as (d2 & E2 & Hd2 & Hon & Hc2); try done; try lia.
  { change (2 + nb <= dev_blocks d1). lia. }
  exists d2. split; [rewrite E2; done |]. split; [rewrite Hd2; exact Hd1 |]. split.
  - intros k Hk. destruct (decide (k = j)) as [-> |]; [| by apply Hon; lia].
    change (contents d2 (SFS_FREEMAP_START + j) = words_of (freemap_chunk j b)). unfold SFS_FREEMAP_START. rewrite Hc2 by lia.
    change (contents d1 (2 + j) = words_of (freemap_chunk j b)). by rewrite Hc1, Z.eqb_refl.
  - intros x Hx. rewrite Hc2 by lia. change (contents d1 x = vblk s x). rewrite Hc1.
    destruct (Z.eqb_spec x (2 + j)); [lia | done].
Qed.

(** The map in memory while it is read: the first [j] blocks are there. *)
Definition half_read (j : Z) (b m : bitmap) : Prop :=
  nbits m = nbits b ∧ length (Bitmap.v m) = length (Bitmap.v b) ∧
  ∀ i, (i < Z.to_nat (j * 512))%nat → Bitmap.v m !! i = Bitmap.v b !! i.

Definition with_map (m : bitmap) s : vol D := with_v_fs (with_freemap m (v_fs s)) s.

Lemma set_chunk_ok nb j b m :
  map_ok nb b → half_read j b m → 0 <= j < nb → half_read (j + 1) b (set_chunk j (freemap_chunk j b) m).
Proof using.
  intros Hm (H1 & H2 & H3) Hj. pose proof (length_chunk nb b j Hm Hj) as Hl. pose proof (mo_len _ _ Hm) as Hlb.
  unfold set_chunk, SFS_BLOCKSIZE. split_and!; simpl; [done | |].
  - rewrite length_splice; [done | lia |]. rewrite Hl. lia.
  - intros i Hi. rewrite lookup_splice; [| lia | rewrite Hl; lia]. rewrite Hl. destruct (decide _) as [Hd | Hd]; [| apply H3; lia].
    unfold freemap_chunk, bitmap_getdata, SFS_BLOCKSIZE. rewrite lookup_take_lt, lookup_drop by lia. f_equal. lia.
Qed.

Lemma freemap_read_ok n : ∀ s j nb b,
  map_ok nb b → 0 <= j → j + Z.of_nat n = nb → SFS_FREEMAP_START + nb <= vsize s →
  half_read j b (sfs_freemap (v_fs s)) → map_on_disk s j nb b →
  ∃ m, freemapio_loop n j false s = Done 0 (with_map m s) ∧ half_read nb b m.
Proof using.
  induction n as [|n IH]; intros s j nb b Hm Hj Hn Hd Hh Hon.
  { exists (sfs_freemap (v_fs s)). split; [simpl; f_equal; by destruct s as [[]] |]. by replace nb with j by lia. }
  cbn [freemapio_loop]. unfold mbind, M_bind, gets. unfold SFS_FREEMAP_START in Hd.
  rewrite vread by (unfold SFS_FREEMAP_START; lia). cbn [Z.eqb]. unfold modify. cbv [mret M_ret]. cbv beta iota. cbn [Z.eqb negb].
  rewrite Hon by lia. rewrite (chunk_bytes nb) by (done || lia). set (m1 := set_chunk _ _ _).
  destruct (IH (with_map m1 s) (j + 1) nb b) as (m & E & Hm'); try done; try lia.
  { eapply (set_chunk_ok nb); [done | done | lia]. }
  { intros k Hk. apply Hon. lia. }
  exists m. split; [exact E | done].
Qed.

Lemma half_read_all nb b m : map_ok nb b → half_read nb b m → m = b.
Proof using.
  intros Hm (H1 & H2 & H3). destruct m as [n1 l1], b as [n2 l2]. simpl in *. f_equal; [done |].
  apply list_eq_same_length with (length l2); [done | done |]. intros i x y Hi Ex Ey.
  rewrite H3 in Ex; [congruence |]. rewrite <- (mo_len _ _ Hm). done.
Qed.

(** *** The big lock *)

Definition vdepth s : Z := vfs_biglock_depth (v_fs s).
Definition set_depth (n : Z) s : vol D := with_v_fs (with_depth n (v_fs s)) s.

Lemma set_depth_id s : set_depth (vdepth s) s = s.
Proof using. by destruct s as [[]]. Qed.
Lemma biglock_acquire_run s : 0 <= vdepth s < 2 ^ 32 - 1 → biglock_acquire s = Done tt (set_depth (vdepth s + 1) s).
Proof using.
  intros Hd. unfold biglock_acquire, on_fs, zoom, vfs_biglock_acquire, upd_fs, modify. simpl. fold (vdepth s).
  by rewrite u32_small by lia.
Qed.
Lemma biglock_release_run s : 0 < vdepth s → biglock_release s = Done tt (set_depth (vdepth s - 1) s).
Proof using.
  intros Hd. unfold biglock_release, on_fs, zoom, vfs_biglock_release, mbind, M_bind, gets. simpl. fold (vdepth s).
  rewrite (proj2 (Z.ltb_lt _ _)) by done. done.
Qed.

Lemma locked_run {A} (m : M (vol D) A) s a s' :
  0 <= vdepth s < 2 ^ 32 - 1 → m (set_depth (vdepth s + 1) s) = Done a s' → vdepth s' = vdepth s + 1 →
  locked m s = Done a (set_depth (vdepth s) s').
Proof using.
  intros Hd E Hd'. unfold locked, mbind, M_bind. rewrite biglock_acquire_run, E, biglock_release_run by lia. rewrite Hd'. do 2 f_equal. lia.
Qed.

(** *** Volumes with nothing in memory but the volume itself *)

Record quiet s : Prop := {
  q_nblocks : 0 < sb_nblocks (v_fs s) <= 2 ^ 32 - 4096;
  q_dev : SFS_FREEMAP_START + map_blocks s <= vsize s;
  q_bits : nbits (sfs_freemap (v_fs s)) = SFS_FREEMAPBITS (sb_nblocks (v_fs s));
  q_map : map_ok (map_blocks s) (sfs_freemap (v_fs s));
  q_clean : sfs_freemapdirty (v_fs s) = false → map_on_disk s 0 (map_blocks s) (sfs_freemap (v_fs s));
  q_magic : sb_magic (v_super s) = SFS_MAGIC;
  q_name : length (sb_volname (v_super s)) = 32%nat ∧ Forall is_byte (sb_volname (v_super s)) ∧
    sb_volname (v_super s) !! 31%nat = Some 0;
  q_reserved : length (sb_reserved (v_super s)) = 118%nat;
  q_super : v_superdirty s = false → vblk s 0 = super_words (sb_nblocks (v_fs s)) (v_super s);
  q_table : v_table s = [];
  q_depth : 0 <= vdepth s < 2 ^ 32 - 1
}.

Lemma freemap_size nb : 0 < nb <= 2 ^ 32 - 4096 →
  SFS_FREEMAPBITS nb = SFS_FREEMAPBLOCKS nb * 4096 ∧ 0 < SFS_FREEMAPBLOCKS nb.
Proof using.
  intros H. unfold SFS_FREEMAPBLOCKS, SFS_FREEMAPBITS, SFS_BITSPERBLOCK. rewrite (u32_small (nb + 4096 - 1)) by lia.
  rewrite u32_small by (Z.to_euclidean_division_equations; lia). rewrite Z.div_mul by lia. Z.to_euclidean_division_equations. lia.
Qed.

Lemma length_super nb b : length (sb_volname b) = 32%nat → length (sb_reserved b) = 118%nat → length (super_words nb b) = 128%nat.
Proof using.
  intros H1 H2. unfold super_words. rewrite !length_app, (length_words_of 8), H2 by done. done.
Qed.

Lemma parse_super_words nb b :
  length (sb_volname b) = 32%nat → Forall is_byte (sb_volname b) → parse_super (super_words nb b) = (nb, b).
Proof using.
  intros H1 H2. destruct b as [mg nm rs]. simpl in H1, H2. pose proof (length_words_of 8 nm H1) as Hw.
  unfold parse_super, super_words. cbn [sb_magic sb_volname sb_reserved]. set (X := words_of nm ++ rs).
  change ([mg; nb] ++ X) with (mg :: nb :: X). change (drop 2 (mg :: nb :: X)) with X. change (drop 10 (mg :: nb :: X)) with (drop 8 X).
  cbn [head default lookup list_lookup]. unfold X. rewrite (drop_app_length' _ _ 8), take_app_le, take_ge by lia.
  by rewrite (bytes_words 8).
Qed.

(** What [sfs_sync] leaves on the disk. *)
Record synced s s' : Prop := {
  sy_map : map_on_disk s' 0 (map_blocks s) (sfs_freemap (v_fs s));
  sy_super : vblk s' 0 = super_words (sb_nblocks (v_fs s)) (v_super s);
  sy_state : ∃ d, dev_blocks d = vsize s ∧
    s' = mkVol (mkFs (sb_nblocks (v_fs s)) (sfs_freemap (v_fs s)) false d (vdepth s)) (v_super s) false
           (v_attached s) (v_allocated s) [] (v_nodes s)
}.

Lemma sync_freemap_ok s :
  0 < sb_nblocks (v_fs s) <= 2 ^ 32 - 4096 → SFS_FREEMAP_START + map_blocks s <= vsize s →
  map_ok (map_blocks s) (sfs_freemap (v_fs s)) →
  (sfs_freemapdirty (v_fs s) = false → map_on_disk s 0 (map_blocks s) (sfs_freemap (v_fs s))) →
  ∃ d', sfs_sync_freemap s = Done 0 (with_v_fs (with_freemapdirty false (with_device d' (v_fs s))) s) ∧
    dev_blocks d' = vsize s ∧ map_on_disk (vdev d' s) 0 (map_blocks s) (sfs_freemap (v_fs s)) ∧
    ∀ x, x < SFS_FREEMAP_START → contents d' x = vblk s x.
Proof using.
  intros Hn Hd Hm Hc. unfold sfs_sync_freemap, sfs_freemapio, mbind, M_bind, gets.
  destruct (sfs_freemapdirty (v_fs s)) eqn:Ed.
  - fold (map_blocks s). destruct (freemap_size _ Hn) as [_ Hp]. fold (map_blocks s) in Hp.
    destruct (freemap_write_ok (Z.to_nat (map_blocks s)) s 0 (map_blocks s)) as (d' & E & Hd' & Hon & Hx); try done; try lia.
    rewrite E. cbn [Z.eqb negb]. exists d'. split; [done |]. split; [done |]. split; [done |]. intros x Hx'. apply Hx. lia.
  - exists (sfs_device (v_fs s)). split; [| split; [done | split; [by apply Hc | done]]].
    unfold mret, M_ret. f_equal. destruct s as [[]]. simpl in Ed. by subst.
Qed.

Lemma sync_super_ok s :
  0 < vsize s → length (sb_volname (v_super s)) = 32%nat → length (sb_reserved (v_super s)) = 118%nat →
  (v_superdirty s = false → vblk s 0 = super_words (sb_nblocks (v_fs s)) (v_super s)) →
  ∃ d', sfs_sync_superblock s = Done 0 (with_super (v_super s) false (vdev d' s)) ∧ dev_blocks d' = vsize s ∧
    contents d' 0 = super_words (sb_nblocks (v_fs s)) (v_super s) ∧ ∀ x, x ≠ 0 → contents d' x = vblk s x.
Proof using.
  intros Hv H1 H2 Hc. unfold sfs_sync_superblock, mbind, M_bind, gets. destruct (v_superdirty s) eqn:Ed.
  - destruct (vwrite s SFS_SUPER_BLOCK (super_words (sb_nblocks (v_fs s)) (v_super s))) as (d' & E & Hd & Hx);
      [unfold SFS_SUPER_BLOCK; lia | by apply length_super |].
    rewrite E. cbn [Z.eqb negb]. exists d'. split; [done |]. split; [done |]. split; [by rewrite Hx |].
    intros x Hx0. rewrite Hx. unfold SFS_SUPER_BLOCK. by apply Z.eqb_neq in Hx0 as ->.
  - exists (sfs_device (v_fs s)). split; [| split; [done | split; [by apply Hc | done]]].
    unfold mret, M_ret. f_equal. destruct s as [[]]. simpl in Ed. by subst.
Qed.

Lemma sync_ok s : quiet s → ∃ s', sfs_sync s = Done 0 s' ∧ synced s s'.
Proof using.
  intros [Q1 Q2 Q3 Q4 Q5 Q6 Q7 Q8 Q9 Q10 Q11]. destruct (freemap_size _ Q1) as [_ Hp]. fold (map_blocks s) in Hp.
  set (s0 := set_depth (vdepth s + 1) s).
  destruct (sync_freemap_ok s0 Q1 Q2 Q4 Q5) as (d1 & E1 & Hd1 & Hon1 & Hx1). set (s1 := with_v_fs _ s0) in E1.
  destruct (sync_super_ok s1) as (d2 & E2 & Hd2 & Hsup & Hx2).
  { change (0 < dev_blocks d1). rewrite Hd1. change (0 < vsize s). unfold SFS_FREEMAP_START in Q2. lia. }
  { apply Q7. } { apply Q8. }
  { intros Hs. change (contents d1 0 = super_words (sb_nblocks (v_fs s)) (v_super s)). rewrite Hx1 by done. by apply Q9. }
  set (s2 := with_super _ _ _) in E2. eexists. split.
  - apply (locked_run _ s 0 s2); [done | | done]. fold s0. unfold mbind, M_bind.
    assert (sfs_sync_vnodes s0 = Done 0 s0) as ->.
    { unfold sfs_sync_vnodes, mbind, M_bind, gets. change (v_table s0) with (v_table s). by rewrite Q10. }
    cbn [Z.eqb negb]. rewrite E1. cbn [Z.eqb negb]. exact E2.
  - split.
    + intros j Hj. change (contents d2 (SFS_FREEMAP_START + j) = words_of (freemap_chunk j (sfs_freemap (v_fs s)))).
      rewrite Hx2 by (unfold SFS_FREEMAP_START; lia). by apply Hon1.
    + exact Hsup.
    + exists d2. split; [rewrite Hd2; exact Hd1 |]. unfold s2, s1, s0, with_super, vdev, set_depth, with_v_fs. simpl. by rewrite Q10.
Qed.

Lemma bitmap_create_ok n : 0 <= n → n mod 8 = 0 →
  bitmap_create true true n tt = Done (Some (mkBitmap n (replicate (Z.to_nat (n / 8)) 0))) tt.
Proof using.
  intros H0 Hn. unfold bitmap_create, BITS_PER_WORD. cbn [negb].
  assert (DIVROUNDUP n 8 = n / 8) as -> by (unfold DIVROUNDUP; Z.to_euclidean_division_equations; lia).
  rewrite Z.ltb_irrefl. done.
Qed.

(** What [sfs_domount] makes of a device that a volume was synced to. *)
Lemma mount_ok s d t :
  quiet s → dev_blocks d = vsize s → sfs_device (v_fs t) = d → 0 <= vdepth t < 2 ^ 32 - 1 →
  contents d 0 = super_words (sb_nblocks (v_fs s)) (v_super s) →
  (∀ j, 0 <= j < map_blocks s → contents d (SFS_FREEMAP_START + j) = words_of (freemap_chunk j (sfs_freemap (v_fs s)))) →
  sfs_domount 512 true true true true t =
  Done 0 (mkVol (mkFs (sb_nblocks (v_fs s)) (sfs_freemap (v_fs s)) false d (vdepth t)) (v_super s) false true true [] ∅).
Proof using.
  intros Q Hd Ht Hdep Hsup Hmap. pose proof (q_nblocks _ Q) as Hn. destruct (freemap_size _ Hn) as [Hbits Hp]. fold (map_blocks s) in Hbits, Hp.
  pose proof (q_dev _ Q) as Hdev. unfold SFS_FREEMAP_START in Hdev. destruct (q_name _ Q) as (N1 & N2 & N3).
  set (nb := sb_nblocks (v_fs s)) in *. set (b := sfs_freemap (v_fs s)) in *.
  set (fin := mkVol (mkFs nb b false d (vdepth t + 1)) (v_super s) false true true [] ∅).
  assert (mkVol (mkFs nb b false d (vdepth t)) (v_super s) false true true [] ∅ = set_depth (vdepth t) fin) as -> by done.
  apply locked_run; [done | | done]. change (512 =? SFS_BLOCKSIZE) with true. cbn [negb].
  unfold mbind, M_bind. unfold sfs_fs_create, mbind, M_bind, modify. cbn [andb]. cbv [mret M_ret]. cbv beta iota. cbn [negb].
  set (t1 := with_attached (D:=D) true _). assert (Hdev1 : sfs_device (v_fs t1) = d) by (rewrite <- Ht; done).
  assert (Hv1 : vblk t1 0 = super_words nb (v_super s)) by (unfold vblk; rewrite Hdev1; exact Hsup).
  unfold SFS_SUPER_BLOCK. rewrite vread by (unfold vsize; rewrite Hdev1, Hd; lia). cbn [Z.eqb negb]. rewrite Hv1.
  unfold mount_super. rewrite parse_super_words by done. rewrite (q_magic _ Q), Z.eqb_refl. cbn [negb].
  unfold mbind, M_bind, modify, zoom. assert (Hb8 : SFS_FREEMAPBITS nb mod 8 = 0).
  { rewrite Hbits. replace (map_blocks s * 4096) with ((map_blocks s * 512) * 8) by lia. by apply Z.mod_mul. }
  rewrite bitmap_create_ok by (done || lia). cbv beta iota.
  set (t2 := with_v_fs (D:=D) _ (with_super _ _ _)).
  assert (Hdev2 : sfs_device (v_fs t2) = d) by (rewrite <- Ht; done).
  unfold sfs_freemapio, mbind, M_bind, gets. change (SFS_FREEMAPBLOCKS (sb_nblocks (v_fs t2))) with (map_blocks s).
  destruct (freemap_read_ok (Z.to_nat (map_blocks s)) t2 0 (map_blocks s) b) as (m & E & Hm); try done; try lia.
  { apply (q_map _ Q). } { unfold vsize, SFS_FREEMAP_START. rewrite Hdev2, Hd. done. }
  { split_and!; simpl.
    - symmetry. apply (q_bits _ Q).
    - fold nb. rewrite length_replicate. pose proof (mo_len _ _ (q_map _ Q)) as Hl. fold b in Hl. rewrite Hl, Hbits. f_equal. Z.to_euclidean_division_equations. lia.
    - intros i Hi. lia. }
  { intros j Hj. unfold vblk. rewrite Hdev2. by apply Hmap. }
  rewrite E. cbn [Z.eqb negb]. rewrite (half_read_all (map_blocks s) b m) by (done || apply (q_map _ Q)).
  unfold t2, with_map, with_v_fs, with_super, fin. simpl. do 2 f_equal; [by rewrite <- Ht |].
  destruct (v_super s) as [mg nm rs] eqn:Es. simpl in *. f_equal; [symmetry; apply (q_magic _ Q) || (rewrite <- (q_magic _ Q), Es; done) |].
  rewrite <- (take_drop 31 nm) at 2. f_equal. symmetry. apply list_eq. intros i. rewrite lookup_drop.
  destruct i as [|i]; [exact N3 |]. rewrite lookup_ge_None_2 by lia. done.
Qed.

(** C34: A volume with no vnode in memory survives unmounting: [sfs_sync] succeeds and
    brings the free map and the superblock to the disk if they were changed,
    [sfs_unmount] then finds nothing dirty, succeeds and frees the volume, and
    [sfs_domount] of the same device gives back a volume with the same size, the
    same free map bit by bit, the same name, and an empty vnode table. *)
Theorem sfs_remount s :
  quiet s → v_attached s = true →
  ∃ s1 s2 s3, sfs_sync s = Done 0 s1 ∧ sfs_unmount s1 = Done 0 s2 ∧ v_allocated s2 = false ∧
    sfs_domount 512 true true true true s2 = Done 0 s3 ∧
    sb_nblocks (v_fs s3) = sb_nblocks (v_fs s) ∧ sfs_freemap (v_fs s3) = sfs_freemap (v_fs s) ∧
    v_super s3 = v_super s ∧ vdepth s3 = vdepth s ∧ v_table s3 = [] ∧
    sfs_device (v_fs s3) = sfs_device (v_fs s1).
Proof using.
  intros Q Ha. destruct (sync_ok s Q) as (s1 & E1 & [Hmap Hsup (d & Hd & Es1)]).
  assert (Hdep : 0 <= vdepth s1 < 2 ^ 32 - 1) by (rewrite Es1; apply (q_depth _ Q)).
  assert (∃ s2, sfs_unmount s1 = Done 0 s2 ∧ v_allocated s2 = false ∧ sfs_device (v_fs s2) = d ∧ vdepth s2 = vdepth s) as (s2 & E2 & Hal & Hdev & Hd2).
  { unfold sfs_unmount, mbind, M_bind. rewrite biglock_acquire_run by done. rewrite Es1.
    unfold gets, kassert, sfs_fs_destroy, modify, mbind, M_bind, gets. cbn [v_table set_depth with_v_fs].
    rewrite bool_decide_eq_false_2 by (intros H; by apply H).
    cbn [v_superdirty v_fs set_depth with_v_fs sfs_freemapdirty with_depth negb mret M_ret with_attached v_table v_attached].
    unfold kassert. rewrite bool_decide_eq_true_2 by done. cbn [mret M_ret v_attached negb with_attached].
    rewrite biglock_release_run by (unfold vdepth; simpl; destruct (q_depth _ Q); unfold vdepth in *; lia).
    eexists. split; [reflexivity |]. split_and!; try done. unfold vdepth. simpl. lia. }
  eexists s1, s2, _. split; [done |]. split; [done |]. split; [done |]. split.
  - apply (mount_ok s d s2 Q Hd Hdev).
    + rewrite Hd2. apply (q_depth _ Q).
    + rewrite <- Hsup, Es1. done.
    + intros j Hj. rewrite <- Hmap, Es1 by done. done.
  - cbn. rewrite Es1. split_and!; try done.
Qed.
End mount.

(** A volume of 64 blocks whose free map and superblock have been changed. *)
Definition w_vol : vol rdisk :=
  mkVol (mkFs 64 (mkBitmap 4096 (0x1f :: replicate 511 0)) true (mkRdisk 64 (λ _, replicate 128 0)) 0)
    (mkSuper SFS_MAGIC (replicate 4 97 ++ replicate 28 0) (replicate 118 0)) true true true [] ∅.

Lemma w_vol_quiet : quiet w_vol.
Proof.
  assert (is_byte 0) as H0 by (unfold is_byte; lia).
  split; try done.
  - split; [done |]. apply Forall_cons_2; [unfold is_byte; lia | by apply Forall_replicate].
  - split; [done |]. split; [| done]. apply Forall_app. split; apply Forall_replicate; [unfold is_byte; lia | done].
Qed.

Lemma sfs_remount_witness :
  ∃ s1 s2 s3, sfs_sync w_vol = Done 0 s1 ∧ sfs_unmount s1 = Done 0 s2 ∧ v_allocated s2 = false ∧
    sfs_domount 512 true true true true s2 = Done 0 s3 ∧
    sb_nblocks (v_fs s3) = 64 ∧ sfs_freemap (v_fs s3) = mkBitmap 4096 (0x1f :: replicate 511 0) ∧
    v_super s3 = v_super w_vol ∧ vdepth s3 = 0 ∧ v_table s3 = [] ∧
    sfs_device (v_fs s3) = sfs_device (v_fs s1).
Proof. apply (sfs_remount w_vol); [exact w_vol_quiet | reflexivity]. Defined.
End SfsMount.
