(* ===== verification/Array.v ===== *)
(** * Resizable pointer arrays (lib/array.c, include/array.h)

    [v] is the block that holds the elements: [max] words, of which the first
    [num] are elements.  The heap is a parameter: [kmalloc_block sz] is the
    block a [kmalloc(sz)] returns, as its uninitialised words, or [None] when
    the heap is exhausted.  That a block is memory of the caller alone holds of this
    kernel's kmalloc for requests of up to a page (HeapSafe.v): above, [alloc_kpages]
    hands out frames that need not be adjacent.  The theorems are therefore relative to
    a bound 2^K on the number of elements, with nothing known of larger blocks; a page
    is K = 10. *)

From stdpp Require Import base list numbers strings.
From Stdlib Require Import ZArith Lia.
From S2P Require Import Prelude.

#[local] Open Scope Z_scope.

Module Array.

Record array := mkArray { v : list Z; num : Z; max : Z }.

Definition with_v (x : list Z) (a : array) := mkArray x (num a) (max a).
Definition with_num (n : Z) (a : array) := mkArray (v a) n (max a).

Definition SIZEOF_PTR : Z := 4.

Definition array_init : array := mkArray [] 0 0.

(** [array_cleanup]: [ARRAYASSERT] is [KASSERT]. *)
Definition array_cleanup : M array unit :=
  n ← gets num;
  kassert (n =? 0) "a->num == 0" ;;
  modify (with_v []).

Definition array_num : M array Z := gets num.

Definition array_get (index : Z) : M array Z :=
  n ← gets num;
  kassert (index <? n) "index < a->num" ;;
  deref (λ a, v a !! Z.to_nat index) "a->v[index] out of the block".

(** A store beyond the block would corrupt the heap. *)
Definition store_v (index val : Z) : M array unit :=
  len ← gets (λ a, Z.of_nat (length (v a)));
  kassert (index <? len) "a->v[index] out of the block" ;;
  modify (λ a, with_v (<[Z.to_nat index := val]> (v a)) a).

Definition array_set (index val : Z) : M array unit :=
  n ← gets num;
  kassert (index <? n) "index < a->num" ;;
  store_v index val.

Section heap.
Variable kmalloc_block : Z → option (list Z).

(** [while (num > newmax) newmax = newmax ? newmax*2 : 4;] *)
Fixpoint grow (fuel : nat) (newmax n : Z) : M array Z :=
  match fuel with
  | O => nofuel
  | S fuel' =>
      if newmax <? n then
        grow fuel' (if newmax =? 0 then 4 else u32 (newmax * 2)) n
      else mret newmax
  end.

Definition GROW_FUEL : nat := 34.

(** [memcpy] of the elements into the new block. *)
Definition array_preallocate (n : Z) : M array Z :=
  a ← gets id;
  if max a <? n then
    newmax ← grow GROW_FUEL (max a) n;
    match kmalloc_block (u32 (newmax * SIZEOF_PTR)) with
    | None => mret ENOMEM
    | Some newptr =>
        kassert (num a <=? Z.of_nat (length newptr)) "memcpy beyond the block" ;;
        modify (λ a, mkArray (take (Z.to_nat (num a)) (v a) ++
                              drop (Z.to_nat (num a)) newptr) (num a) newmax) ;;
        mret 0
    end
  else mret 0.

Definition array_setsize (n : Z) : M array Z :=
  result ← array_preallocate n;
  if negb (result =? 0) then mret result
  else modify (with_num n) ;; mret 0.

(** The result and [*index_ret]. *)
Definition array_add (val : Z) : M array (Z * Z) :=
  index ← gets num;
  ret ← array_setsize (u32 (index + 1));
  if negb (ret =? 0) then mret (ret, 0)
  else store_v index val ;; mret (0, index).
End heap.

(** [memmove(v + index, v + index+1, num_to_move)]. *)
Definition array_remove (index : Z) : M array unit :=
  a ← gets id;
  kassert (num a <=? max a) "a->num <= a->max" ;;
  kassert (index <? num a) "index < a->num" ;;
  let num_to_move := u32 (num a - (index + 1)) in
  modify (with_v (take (Z.to_nat index) (v a) ++
                  take (Z.to_nat num_to_move) (drop (Z.to_nat (index + 1)) (v a)) ++
                  drop (Z.to_nat (index + num_to_move)) (v a))) ;;
  modify (with_num (num a - 1)).

(** ** Contract: an array is the list of its first [num] words *)

Definition contents (a : array) : list Z := take (Z.to_nat (num a)) (v a).

Record array_ok (a : array) : Prop := {
  ao_num : 0 <= num a <= max a;
  ao_len : Z.of_nat (length (v a)) = max a;
  ao_max : max a = 0 ∨ ∃ k, 2 <= k <= 29 ∧ max a = 2 ^ k
}.

Lemma length_contents a : array_ok a → Z.of_nat (length (contents a)) = num a.
Proof. intros [Hn Hl _]. unfold contents. rewrite length_take. lia. Qed.

Lemma array_init_ok : array_ok array_init ∧ contents array_init = [].
Proof. repeat split; simpl; lia. Qed.

(** The doubling loop reaches the first power of two that is large enough. *)
Lemma grow_pow K k n s fuel :
  2 <= k <= K → K <= 29 → n <= 2 ^ K → (Z.to_nat (K - k) < fuel)%nat →
  ∃ k', k <= k' <= K ∧ n <= 2 ^ k' ∧ grow fuel (2 ^ k) n s = Done (2 ^ k') s.
Proof.
  intros Hk HK Hn. revert k Hk. induction fuel as [|fuel IH]; intros k Hk Hf; [lia |]. simpl.
  destruct (Z.ltb_spec (2 ^ k) n) as [Hlt | Hge]; [| exists k; repeat split; lia || done].
  assert (0 < 2 ^ k) by (apply Z.pow_pos_nonneg; lia).
  destruct (Z.eqb_spec (2 ^ k) 0) as [Hz | _]; [lia |].
  assert (k < K) as Hk'. { apply (Z.pow_lt_mono_r_iff 2); lia. }
  assert (2 ^ (k + 1) <= 2 ^ 29) by (apply Z.pow_le_mono_r; lia).
  replace (u32 (2 ^ k * 2)) with (2 ^ (k + 1)).
  2:{ rewrite u32_small; rewrite Z.pow_add_r in * by lia; lia. }
  destruct (IH (k + 1)) as (k' & Hk'' & Hn' & E); [lia | lia |].
  exists k'. split; [lia |]. done.
Qed.

Lemma grow_S fuel newmax n s :
  newmax < n →
  grow (S fuel) newmax n s = grow fuel (if newmax =? 0 then 4 else u32 (newmax * 2)) n s.
Proof. intros H. simpl. by destruct (Z.ltb_spec newmax n); [| lia]. Qed.

Lemma grow_ok K a n s :
  array_ok a → 2 <= K <= 29 → max a <= 2 ^ K → max a < n <= 2 ^ K →
  ∃ k, 2 <= k <= K ∧ n <= 2 ^ k ∧ max a < 2 ^ k ∧ grow GROW_FUEL (max a) n s = Done (2 ^ k) s.
Proof.
  intros [_ _ Hm] HK Hmk Hn. unfold GROW_FUEL. destruct Hm as [Hm | (k & Hk & Hm)].
  - rewrite Hm in *. rewrite grow_S by lia. rewrite Z.eqb_refl.
    destruct (grow_pow K 2 n s 33) as (k' & Hk' & Hn' & E); [lia | lia | lia | lia |].
    change (2 ^ 2) with 4 in E. exists k'. split_and!; [lia | lia | done | lia | exact E].
  - rewrite Hm in *. assert (k <= K) by (apply (Z.pow_le_mono_r_iff 2); lia).
    destruct (grow_pow K k n s 34) as (k' & Hk' & Hn' & E); [lia | lia | lia | lia |].
    exists k'. split_and!; [lia | lia | done | lia | exact E].
Qed.

Section contract.
Context (kmalloc_block : Z → option (list Z)) (K : Z) (HK : 2 <= K <= 29).
(** A block of [sz] bytes, at most 2^K words, has [sz / 4] words. *)
Context (Hblock : ∀ sz b, 0 <= sz <= 2 ^ K * SIZEOF_PTR → kmalloc_block sz = Some b →
  Z.of_nat (length b) = sz / SIZEOF_PTR).

Lemma array_preallocate_spec a n :
  array_ok a → max a <= 2 ^ K → 0 <= n <= 2 ^ K →
  ∃ r a', array_preallocate kmalloc_block n a = Done r a' ∧ array_ok a' ∧ max a' <= 2 ^ K ∧
    contents a' = contents a ∧ num a' = num a ∧
    (r = 0 ∧ n <= max a' ∨ r = ENOMEM ∧ a' = a).
Proof using Hblock HK.
  intros Ha Hm Hn. unfold array_preallocate, mbind, M_bind, gets, id.
  destruct (Z.ltb_spec (max a) n) as [Hlt | Hge].
  2:{ exists 0, a. repeat split; try apply Ha; try done. by left. }
  destruct (grow_ok K a n a Ha) as (k & Hk & Hnk & Hmk & ->); [lia | lia | lia |].
  assert (2 ^ k <= 2 ^ K) by (apply Z.pow_le_mono_r; lia).
  assert (2 ^ K <= 2 ^ 29) by (apply Z.pow_le_mono_r; lia).
  assert (u32 (2 ^ k * SIZEOF_PTR) = 2 ^ k * SIZEOF_PTR) as -> by (apply u32_small; unfold SIZEOF_PTR; lia).
  destruct (kmalloc_block _) as [b|] eqn:Eb.
  2:{ exists ENOMEM, a. split; [done |]. repeat split; try apply Ha; try done. by right. }
  apply Hblock in Eb; [| unfold SIZEOF_PTR; lia]. unfold SIZEOF_PTR in Eb. rewrite Z.div_mul in Eb by done.
  pose proof (ao_num _ Ha) as Hnum. pose proof (ao_len _ Ha) as Hlen.
  assert ((num a <=? Z.of_nat (length b)) = true) as -> by (apply Z.leb_le; lia).
  eexists 0, _. split; [reflexivity |]. split_and!.
  - split; simpl; [lia | | right; exists k; split; [lia | done]].
    rewrite length_app, length_take, length_drop. lia.
  - done.
  - unfold contents. simpl. rewrite take_app_le by (rewrite length_take; lia).
    rewrite take_take. f_equal. lia.
  - done.
  - left. split; [done | simpl; lia].
Qed.

(** [array_add] appends: it returns the index of the new element, the last one,
    and keeps the others, or fails with ENOMEM and leaves the array as it was. *)
Theorem array_add_spec a val :
  array_ok a → max a <= 2 ^ K → num a < 2 ^ K →
  ∃ r i a', array_add kmalloc_block val a = Done (r, i) a' ∧ array_ok a' ∧ max a' <= 2 ^ K ∧
    (r = 0 ∧ i = num a ∧ contents a' = contents a ++ [val] ∨ r = ENOMEM ∧ a' = a).
Proof using Hblock HK.
  intros Ha Hm Hn. pose proof (ao_num _ Ha). pose proof (length_contents a Ha) as Hlc.
  unfold array_add, array_setsize, mbind, M_bind, gets.
  assert (2 ^ K <= 2 ^ 29) by (apply Z.pow_le_mono_r; lia).
  rewrite (u32_small (num a + 1)) by lia.
  destruct (array_preallocate_spec a (num a + 1)) as (r & a1 & -> & Ha1 & Hm1 & Hc & Hn1 & Hr); [done | done | lia |].
  destruct Hr as [[-> Hmax] | [-> ->]].
  2:{ exists ENOMEM, 0, a. split; [done |]. split; [done | split; [done | by right]]. }
  pose proof (ao_len _ Ha1) as Hl1. unfold store_v, modify, kassert, mbind, M_bind, gets. simpl.
  destruct (Z.ltb_spec (num a) (Z.of_nat (length (v a1)))) as [_ | Hge]; [| lia].
  eexists 0, (num a), _. split; [reflexivity |]. split.
  - split; simpl; [lia | by rewrite length_insert | apply Ha1].
  - split; [done |]. left. split; [done |]. split; [done |]. unfold contents in *. simpl.
    rewrite <- Hc, Hn1. replace (Z.to_nat (num a + 1)) with (S (Z.to_nat (num a))) by lia.
    assert (is_Some (<[Z.to_nat (num a) := val]> (v a1) !! Z.to_nat (num a))) as [x Hx]
      by (apply lookup_lt_is_Some; rewrite length_insert; lia).
    rewrite (take_S_r _ _ val).
    + by rewrite take_insert_ge by lia.
    + rewrite list_lookup_insert_eq by lia. done.
Qed.

(** [array_setsize] changes the length: a shorter array keeps a prefix, a
    longer one keeps all elements. *)
Theorem array_setsize_spec a n :
  array_ok a → max a <= 2 ^ K → 0 <= n <= 2 ^ K →
  ∃ r a', array_setsize kmalloc_block n a = Done r a' ∧ array_ok a' ∧ max a' <= 2 ^ K ∧
    (r = 0 ∧ num a' = n ∧
       take (Z.to_nat (num a)) (contents a') = take (Z.to_nat n) (contents a) ∨
     r = ENOMEM ∧ a' = a).
Proof using Hblock HK.
  intros Ha Hm Hn. unfold array_setsize, mbind, M_bind.
  destruct (array_preallocate_spec a n) as (r & a1 & -> & Ha1 & Hm1 & Hc & Hn1 & Hr); [done | done | lia |].
  destruct Hr as [[-> Hmax] | [-> ->]].
  2:{ exists ENOMEM, a. split; [done |]. split; [done | split; [done | by right]]. }
  eexists 0, _. split; [reflexivity |]. split.
  - split; simpl; [lia | apply Ha1 | apply Ha1].
  - split; [done |]. left. split; [done |]. split; [done |]. rewrite <- Hc. unfold contents. simpl.
    rewrite !take_take, Hn1. f_equal. lia.
Qed.
End contract.

(** [array_remove] deletes one element and shifts the later ones down. *)
Theorem array_remove_spec a index :
  array_ok a → 0 <= index < num a →
  ∃ a', array_remove index a = Done tt a' ∧ array_ok a' ∧
    contents a' = delete (Z.to_nat index) (contents a).
Proof.
  intros Ha Hi. pose proof Ha as [Hn Hl Hm]. unfold array_remove, kassert, mbind, M_bind, gets, modify, id.
  destruct (Z.leb_spec (num a) (max a)); [| lia]. destruct (Z.ltb_spec index (num a)); [| lia].
  simpl. rewrite (u32_small (num a - (index + 1))) by (destruct Hm as [? | (k & ? & ?)];
    [lia | assert (2 ^ k <= 2 ^ 29) by (apply Z.pow_le_mono_r; lia); lia]).
  eexists. split; [reflexivity |]. split.
  - split; simpl; [lia | | done]. rewrite !length_app, !length_take, !length_drop. lia.
  - unfold contents. simpl. rewrite delete_take_drop, take_take, skipn_firstn_comm.
    replace (Z.to_nat index `min` Z.to_nat (num a))%nat with (Z.to_nat index) by lia.
    rewrite take_app, length_take, take_take. f_equal.
    + f_equal. lia.
    + rewrite take_app_le by (rewrite length_take, length_drop; lia).
      rewrite take_take. f_equal; [lia | f_equal; lia].
Qed.

(** [array_get] after [array_set] at the same index returns the value stored;
    the other elements are unchanged. *)
Theorem array_set_get a i val :
  array_ok a → 0 <= i < num a →
  ∃ a', array_set i val a = Done tt a' ∧ array_ok a' ∧
    contents a' = <[Z.to_nat i := val]> (contents a) ∧ array_get i a' = Done val a'.
Proof.
  intros Ha Hi. pose proof Ha as [Hn Hl Hm].
  unfold array_set, array_get, store_v, kassert, deref, mbind, M_bind, gets, modify.
  destruct (Z.ltb_spec i (num a)); [| lia]. simpl.
  destruct (Z.ltb_spec i (Z.of_nat (length (v a)))); [| lia].
  eexists. split; [reflexivity |]. split; [split; simpl; [lia | by rewrite length_insert | done] |].
  split; [unfold contents; simpl; apply take_insert_lt; lia |]. simpl.
  destruct (Z.ltb_spec i (num a)); [| lia]. simpl. by rewrite list_lookup_insert_eq by lia.
Qed.

(** Beyond 2^31 elements the doubling wraps to 0 and the loop starts again
    from 4: it never ends. *)
Theorem grow_diverges n :
  2 ^ 31 < n < 2 ^ 32 → ∀ fuel s, grow fuel 0 n s = NoFuel.
Proof.
  intros Hn. assert (∀ fuel k s, k = 0 ∨ (∃ j, 2 <= j <= 31 ∧ k = 2 ^ j) →
    grow fuel k n s = NoFuel) as H; [| by intros fuel s; apply H; left].
  induction fuel as [|fuel IH]; intros k s Hk; [done |].
  assert (k <= 2 ^ 31).
  { destruct Hk as [-> | (j & Hj & ->)]; [lia | apply Z.pow_le_mono_r; lia]. }
  rewrite grow_S by lia. apply IH. destruct Hk as [-> | (j & Hj & ->)].
  { right. by exists 2. }
  assert (0 < 2 ^ j) by (apply Z.pow_pos_nonneg; lia).
  destruct (Z.eqb_spec (2 ^ j) 0); [lia |].
  destruct (decide (j = 31)) as [-> |]; [by left |]. right. exists (j + 1).
  split; [lia |]. assert (2 ^ (j + 1) <= 2 ^ 31) by (apply Z.pow_le_mono_r; lia).
  rewrite Z.pow_add_r in * by lia. rewrite u32_small; lia.
Qed.

(** ** Concrete instances *)

Definition wit_heap (sz : Z) : option (list Z) := Some (replicate (Z.to_nat (sz / SIZEOF_PTR)) 0).
Definition wit_array : array := mkArray [7; 8; 9; 0] 3 4.

Lemma wit_array_ok : array_ok wit_array.
Proof. split; simpl; [lia | lia | right; by exists 2]. Qed.

Lemma wit_heap_block sz b :
  0 <= sz → wit_heap sz = Some b → Z.of_nat (length b) = sz / SIZEOF_PTR.
Proof.
  intros Hs [= <-]. rewrite length_replicate. unfold SIZEOF_PTR. apply Z2Nat.id.
  apply Z.div_pos; lia.
Qed.

Lemma array_add_spec_witness :
  ∃ r i a', array_add wit_heap 5 wit_array = Done (r, i) a' ∧ array_ok a' ∧ max a' <= 2 ^ 10 ∧
    (r = 0 ∧ i = num wit_array ∧ contents a' = contents wit_array ++ [5] ∨
     r = ENOMEM ∧ a' = wit_array).
Proof.
  apply (array_add_spec wit_heap 10); [lia | intros; apply wit_heap_block; lia || done | exact wit_array_ok
    | by vm_compute | reflexivity].
Defined.

Lemma array_remove_spec_witness :
  ∃ a', array_remove 1 wit_array = Done tt a' ∧ array_ok a' ∧
    contents a' = delete 1%nat (contents wit_array).
Proof. apply (array_remove_spec wit_array 1); [exact wit_array_ok | simpl; lia]. Defined.

End Array.
