(* ===== verification/CopyInOut.v ===== *)
(** * Copying between user and kernel memory (vm/copyinout.c)

    Memory is byte-addressed.  What becomes of an access is the business of the VM
    system, and a parameter here ([acc], for loads and stores, of kernel addresses too):
    it is satisfied, perhaps after a page fault; or refused, and the trap handler then
    resumes in [tm_badfaultfunc] if it is set and panics the kernel if it is not; or it
    ends the process (a store to a read-only page); or it panics the kernel whatever
    handler is set.  The only handler installed is [copyfail], which jumps back to the
    [setjmp] of the running copy function, so a refused copy is a computation that
    returns [None]. *)

From stdpp Require Import base list numbers strings.
From Stdlib Require Import ZArith Lia.
From S2P Require Import Prelude.

#[local] Open Scope Z_scope.

Module CopyInOut.

(** arch/mips/include/vm.h: [USERSPACETOP] is [MIPS_KSEG0]. *)
Definition USERSPACETOP : Z := MIPS_KSEG0.

Inductive access := Satisfied | Refused | Ends | Dies.
#[export] Instance access_eq_dec : EqDecision access.
Proof. solve_decision. Defined.

Record cstate := mkC {
  mem : Z → Z;                  (* bytes *)
  acc : bool → Z → access;      (* of a load (false) or store (true) at an address *)
  tm_badfaultfunc : bool        (* copyfail is installed *)
}.
Definition with_mem (m : Z → Z) (s : cstate) := mkC m (acc s) (tm_badfaultfunc s).
Definition with_badfault (b : bool) (s : cstate) := mkC (mem s) (acc s) b.

Abbreviation C := (M cstate).

(** ** Region check *)

(** The error code and [*stoplen]. *)
Definition copycheck (userptr len : Z) : Z * Z :=
  let bot := userptr in
  let top := u32 (bot + len - 1) in
  if top <? bot then (EFAULT, len)
  else if USERSPACETOP <=? bot then (EFAULT, len)
  else if USERSPACETOP <=? top then (0, USERSPACETOP - bot)
  else (0, len).

(** ** Faulting accesses *)

Definition fatal : string := "Fatal exception in kernel mode".

(** [None]: the access was refused and [copyfail] jumped out of the copy. *)
Definition touch (store : bool) (a : Z) : C (option unit) :=
  r ← gets (λ s, acc s store a);
  match r with
  | Satisfied => mret (Some tt)
  | Refused =>
      h ← gets tm_badfaultfunc;
      if (h : bool) then mret None else panic fatal
  | Ends => λ s, Exited s
  | Dies => panic fatal
  end.

Definition read_byte (a : Z) : C (option Z) :=
  r ← touch false a;
  match r with
  | None => mret None
  | Some _ => v ← gets (λ s, mem s a); mret (Some v)
  end.

Definition write_byte (a v : Z) : C (option unit) :=
  r ← touch true a;
  match r with
  | None => mret None
  | Some _ =>
      modify (λ s, with_mem (λ x, if x =? a then v else mem s x) s) ;; mret (Some tt)
  end.

Fixpoint memcpy (n : nat) (dest src : Z) : C (option Z) :=
  match n with
  | O => mret (Some 0)
  | S n' =>
      v ← read_byte src;
      match v with
      | None => mret None
      | Some v =>
          w ← write_byte dest v;
          match w with
          | None => mret None
          | Some _ => memcpy n' (dest + 1) (src + 1)
          end
      end
  end.

(** The part of a copy function after its checks: install the handler, run
    the copy below [setjmp], remove the handler on both ways out. *)
Definition guarded (body : C (option Z)) : C Z :=
  modify (with_badfault true) ;;
  r ← body;
  match r with
  | None => modify (with_badfault false) ;; mret EFAULT
  | Some result => modify (with_badfault false) ;; mret result
  end.

Definition copyin (usersrc dest len : Z) : C Z :=
  let '(result, stoplen) := copycheck usersrc len in
  if negb (result =? 0) then mret result
  else if negb (stoplen =? len) then mret EFAULT
  else guarded (memcpy (Z.to_nat len) dest usersrc).

Definition copyout (src userdest len : Z) : C Z :=
  let '(result, stoplen) := copycheck userdest len in
  if negb (result =? 0) then mret result
  else if negb (stoplen =? len) then mret EFAULT
  else guarded (memcpy (Z.to_nat len) userdest src).

(** ** Strings *)

(** The loop of [copystr] from index [i], [n] iterations left; [Some k] is
    [*gotlen] when a terminator was copied. *)
Fixpoint copystr_loop (n : nat) (dest src i : Z) : C (option (option Z)) :=
  match n with
  | O => mret (Some None)
  | S n' =>
      v ← read_byte (src + i);
      match v with
      | None => mret None
      | Some v =>
          w ← write_byte (dest + i) v;
          match w with
          | None => mret None
          | Some _ =>
              if v =? 0 then mret (Some (Some (i + 1)))
              else copystr_loop n' dest src (i + 1)
          end
      end
  end.

(** Result code and [*gotlen] (0 when it is not written). *)
Definition copystr (dest src maxlen stoplen : Z) : C (option (Z * Z)) :=
  r ← copystr_loop (Z.to_nat (Z.min maxlen stoplen)) dest src 0;
  match r with
  | None => mret None
  | Some (Some got) => mret (Some (0, got))
  | Some None =>
      if stoplen <? maxlen then mret (Some (EFAULT, 0)) else mret (Some (ENAMETOOLONG, 0))
  end.

Definition guarded_str (body : C (option (Z * Z))) : C (Z * Z) :=
  modify (with_badfault true) ;;
  r ← body;
  match r with
  | None => modify (with_badfault false) ;; mret (EFAULT, 0)
  | Some result => modify (with_badfault false) ;; mret result
  end.

Definition copyinstr (usersrc dest len : Z) : C (Z * Z) :=
  let '(result, stoplen) := copycheck usersrc len in
  if negb (result =? 0) then mret (result, 0)
  else guarded_str (copystr dest usersrc len stoplen).

Definition copyoutstr (src userdest len : Z) : C (Z * Z) :=
  let '(result, stoplen) := copycheck userdest len in
  if negb (result =? 0) then mret (result, 0)
  else guarded_str (copystr userdest src len stoplen).

(** ** The region check *)

(** For a non-empty region the check succeeds exactly when the region starts
    in user space and does not wrap, and [stoplen] is then the length of its
    part below the kernel. *)
Lemma copycheck_spec p len :
  fits 32 p → 0 < len < 2 ^ 32 →
  copycheck p len =
    if (p <? USERSPACETOP) && (p + len <=? 2 ^ 32)
    then (0, Z.min len (USERSPACETOP - p)) else (EFAULT, len).
Proof.
  intros Hp Hl. unfold copycheck, USERSPACETOP, fits in *.
  assert (u32 (p + len - 1) = if p + len <=? 2 ^ 32 then p + len - 1 else p + len - 1 - 2 ^ 32) as ->.
  { unfold u32, wrap. destruct (Z.leb_spec (p + len) (2 ^ 32)).
    - apply Z.mod_small. lia.
    - symmetry. apply Z.mod_unique with 1; lia. }
  unfold MIPS_KSEG0. destruct (Z.ltb_spec p 0x80000000), (Z.leb_spec (p + len) (2 ^ 32));
    simpl; repeat (case_if; zbool); try lia; try done; f_equal; lia.
Qed.

(** An empty region is refused, or reported as running into the kernel. *)
Lemma copycheck_zero p :
  fits 32 p → copycheck p 0 = if p =? 0 then (0, USERSPACETOP) else (EFAULT, 0).
Proof.
  intros Hp. unfold copycheck, USERSPACETOP, fits in *. rewrite Z.add_0_r.
  destruct (Z.eqb_spec p 0) as [-> | Hne]; [done |].
  assert (u32 (p - 1) = p - 1) as -> by (apply u32_small; lia).
  case_if; zbool; [done | lia].
Qed.

(** ** The copy loop *)

(** Every load from, or every store to, [a .. a+n-1] is satisfied. *)
Definition accessible (s : cstate) (store : bool) (a n : Z) : Prop :=
  ∀ x, a <= x < a + n → acc s store x = Satisfied.

(** The accesses of a copy, in the order in which it makes them. *)
Definition accesses (dest src n : Z) : list (bool * Z) :=
  seqZ 0 n ≫= λ i, [(false, src + i); (true, dest + i)].

(** What becomes of a sequence of accesses: the first that is not satisfied decides. *)
Fixpoint verdict (s : cstate) (l : list (bool * Z)) : access :=
  match l with
  | [] => Satisfied
  | (store, a) :: l' => match acc s store a with Satisfied => verdict s l' | x => x end
  end.

Lemma accesses_S dest src n :
  0 <= n →
  accesses dest src (n + 1) = (false, src) :: (true, dest) :: accesses (dest + 1) (src + 1) n.
Proof.
  intros Hn. unfold accesses. rewrite seqZ_cons by lia. cbn. rewrite !Z.add_0_r. do 2 f_equal.
  replace (Z.pred (n + 1)) with n by lia.
  change (Z.succ 0) with (1 + 0). rewrite <- (fmap_add_seqZ 1 0 n), list_fmap_bind. apply list_bind_ext; [| done].
  intros i. cbn. by rewrite !Z.add_assoc.
Qed.

Lemma verdict_acc s t l : acc s = acc t → verdict s l = verdict t l.
Proof. intros E. induction l as [|[st a] l IH]; cbn; [done |]. by rewrite E, IH. Qed.

Lemma verdict_ok s dest src n :
  verdict s (accesses dest src n) = Satisfied ↔ accessible s true dest n ∧ accessible s false src n.
Proof.
  assert (∀ l, verdict s l = Satisfied ↔ ∀ p, p ∈ l → acc s p.1 p.2 = Satisfied) as Hv.
  { induction l as [|[st a] l IH]; cbn; [split; [intros _ p []%not_elem_of_nil | done] |].
    destruct (acc s st a) eqn:E; [rewrite IH; split | ..].
    - intros H p [-> | Hp]%elem_of_cons; [done | by apply H].
    - intros H p Hp. apply H. by right.
    - split; [done |]. intros H. specialize (H (st, a) (list_elem_of_here _ _)). cbn in H. congruence.
    - split; [done |]. intros H. specialize (H (st, a) (list_elem_of_here _ _)). cbn in H. congruence.
    - split; [done |]. intros H. specialize (H (st, a) (list_elem_of_here _ _)). cbn in H. congruence. }
  rewrite Hv. unfold accesses. split.
  - intros H. split; intros x Hx.
    + apply (H (true, x)). apply list_elem_of_bind. exists (x - dest).
      rewrite elem_of_seqZ, !elem_of_cons. split; [right; left; f_equal; lia | lia].
    + apply (H (false, x)). apply list_elem_of_bind. exists (x - src).
      rewrite elem_of_seqZ, !elem_of_cons. split; [left; f_equal; lia | lia].
  - intros [H1 H2] p (i & Hp & Hi)%list_elem_of_bind. apply elem_of_seqZ in Hi.
    rewrite !elem_of_cons in Hp. destruct Hp as [-> | [-> | []%not_elem_of_nil]]; [apply H2 | apply H1]; cbn; lia.
Qed.

(** Memory after [n] bytes have been copied upwards. *)
Definition copied (m m' : Z → Z) (dest src n : Z) : Prop :=
  (∀ i, 0 <= i < n → m' (dest + i) = m (src + i)) ∧
  (∀ x, ¬ (dest <= x < dest + n) → m' x = m x).

(** How a copy with the handler installed ends at an access that is not satisfied. *)
Definition halt {A} (x : access) (s : cstate) : outcome cstate (option A) :=
  match x with
  | Satisfied | Refused => Done None s
  | Ends => Exited s
  | Dies => Panic fatal
  end.

Lemma touch_run store a s :
  tm_badfaultfunc s = true →
  touch store a s = match acc s store a with Satisfied => Done (Some tt) s | x => halt x s end.
Proof.
  intros Hb. unfold touch, gets, mbind, M_bind. by destruct (acc s store a); cbn; rewrite ?Hb.
Qed.

Lemma with_mem_same s : with_mem (mem s) s = s.
Proof. by destruct s. Qed.

(** With the handler installed and the two regions disjoint, the copy ends: every access
    was satisfied and every byte is copied, or only bytes of the destination have changed
    when it stopped. *)
Lemma memcpy_spec n : ∀ dest src s,
  tm_badfaultfunc s = true →
  (∀ i j, 0 <= i < Z.of_nat n → 0 <= j < Z.of_nat n → dest + i ≠ src + j) →
  ∃ m', (∀ x, ¬ (dest <= x < dest + Z.of_nat n) → m' x = mem s x) ∧
    match verdict s (accesses dest src (Z.of_nat n)) with
    | Satisfied => memcpy n dest src s = Done (Some 0) (with_mem m' s) ∧
        copied (mem s) m' dest src (Z.of_nat n)
    | x => memcpy n dest src s = halt x (with_mem m' s)
    end.
Proof.
  induction n as [|n IH]; intros dest src s Hb Hd.
  { exists (mem s). cbn. rewrite with_mem_same. repeat split; intros; lia || done. }
  rewrite Nat2Z.inj_succ, <- Z.add_1_r in *. rewrite accesses_S by lia.
  cbn [memcpy verdict]. unfold read_byte, write_byte, mbind, M_bind, gets, modify, mret, M_ret.
  rewrite (touch_run false src s Hb).
  destruct (acc s false src); [| exists (mem s); rewrite with_mem_same; by split..].
  cbn beta iota. rewrite (touch_run true dest s Hb).
  destruct (acc s true dest); [| exists (mem s); rewrite with_mem_same; by split..]. cbn beta iota.
  set (s1 := with_mem (λ x, if x =? dest then mem s src else mem s x) s).
  destruct (IH (dest + 1) (src + 1) s1) as (m' & Hout & Hv);
    [done | intros i j Hi Hj; specialize (Hd (i + 1) (j + 1)); lia |].
  assert (∀ x, ¬ (dest <= x < dest + (Z.of_nat n + 1)) → m' x = mem s x) as Hout'.
  { intros x Hx. rewrite Hout by lia. simpl. destruct (Z.eqb_spec x dest); [lia | done]. }
  exists m'. split; [done |].
  rewrite (verdict_acc s1 s _ eq_refl) in Hv.
  destruct (verdict s (accesses (dest + 1) (src + 1) (Z.of_nat n))); try exact Hv.
  destruct Hv as [E [Hc1 Hc2]]. split; [exact E |]. split; [| done].
  intros i Hi. destruct (decide (i = 0)) as [-> |].
  - rewrite !Z.add_0_r, Hout by lia. simpl. by rewrite Z.eqb_refl.
  - specialize (Hc1 (i - 1)). replace (dest + 1 + (i - 1)) with (dest + i) in Hc1 by lia.
    rewrite Hc1 by lia. replace (src + 1 + (i - 1)) with (src + i) by lia. simpl.
    destruct (Z.eqb_spec (src + i) dest) as [E' |]; [| done].
    specialize (Hd 0 i). lia.
Qed.

(** ** Block copies *)

(** The end of a block copy: the handler removed, unless the process has ended or the
    kernel died. *)
Definition copy_end (x : access) (m' : Z → Z) (s : cstate) : outcome cstate Z :=
  match x with
  | Satisfied => Done 0 (mkC m' (acc s) false)
  | Refused => Done EFAULT (mkC m' (acc s) false)
  | Ends => Exited (mkC m' (acc s) true)
  | Dies => Panic fatal
  end.

(** Both block copies, for the checks they share: [user] is the address in user space. *)
Definition block_copy (user dest src len : Z) : C Z :=
  let '(result, stoplen) := copycheck user len in
  if negb (result =? 0) then mret result
  else if negb (stoplen =? len) then mret EFAULT
  else guarded (memcpy (Z.to_nat len) dest src).

Lemma block_copy_spec user dest src len s :
  fits 32 user → 0 <= len < 2 ^ 32 → tm_badfaultfunc s = false →
  (user + len <= USERSPACETOP → ∀ i j, 0 <= i < len → 0 <= j < len → dest + i ≠ src + j) →
  ∃ m', (∀ x, ¬ (dest <= x < dest + len) → m' x = mem s x) ∧
    if decide (0 < len ∧ user + len <= USERSPACETOP) then
      block_copy user dest src len s = copy_end (verdict s (accesses dest src len)) m' s ∧
      (verdict s (accesses dest src len) = Satisfied → copied (mem s) m' dest src len)
    else m' = mem s ∧ block_copy user dest src len s = Done EFAULT s.
Proof.
  intros Hu Hl Hb Hd. unfold block_copy.
  destruct (decide (len = 0)) as [-> | Hlen].
  { rewrite copycheck_zero by done. exists (mem s). split; [done |].
    case_decide; [lia |]. split; [done |]. by destruct (user =? 0). }
  rewrite copycheck_spec by (unfold fits, USERSPACETOP in *; zlia).
  destruct (Z.ltb_spec user USERSPACETOP), (Z.leb_spec (user + len) (2 ^ 32)); simpl.
  2-4: exists (mem s); case_decide; [unfold USERSPACETOP in *; zlia | done].
  destruct (Z.eqb_spec (len `min` (USERSPACETOP - user)) len); simpl.
  2:{ exists (mem s). case_decide; [lia | done]. }
  destruct (memcpy_spec (Z.to_nat len) dest src (with_badfault true s)) as (m' & Hout & Hv);
    [done | rewrite Z2Nat.id by lia; apply Hd; lia |]. rewrite Z2Nat.id in * by lia.
  exists m'. split; [done |]. case_decide; [| lia].
  rewrite (verdict_acc (with_badfault true s) s _ eq_refl) in Hv.
  unfold guarded, mbind, M_bind, modify, mret, M_ret.
  destruct (verdict s (accesses dest src len)); [destruct Hv as [-> Hc] | rewrite Hv..]; by split.
Qed.

(** The loops are bounded: no copy runs out of fuel. *)
Lemma touch_fuel store a s : touch store a s ≠ NoFuel.
Proof. unfold touch, gets, mbind, M_bind. destruct (acc s store a); try done. by destruct (tm_badfaultfunc s). Qed.

Lemma memcpy_fuel n : ∀ dest src s, memcpy n dest src s ≠ NoFuel.
Proof.
  induction n as [|n IH]; intros dest src s; [done |].
  cbn [memcpy]. unfold read_byte, write_byte, mbind, M_bind, gets, modify, mret, M_ret.
  pose proof (touch_fuel false src s) as H. destruct (touch false src s) as [[] s1 | | |]; try done.
  pose proof (touch_fuel true dest s1) as H'. destruct (touch true dest s1) as [[] s2 | | |]; done || apply IH.
Qed.

Lemma block_copy_fuel user dest src len s : block_copy user dest src len s ≠ NoFuel.
Proof.
  unfold block_copy. destruct (copycheck user len) as [r stop]. repeat (case_if; [done |]).
  unfold guarded, mbind, M_bind, modify. pose proof (memcpy_fuel (Z.to_nat len) dest src (with_badfault true s)).
  by destruct (memcpy _ _ _ _) as [[] | | |].
Qed.

(** [copyin] returns 0 exactly for a non-empty region that lies in user space and every
    byte of which can be loaded, and then the kernel buffer holds its bytes; nothing
    outside the kernel buffer changes. *)
Theorem copyin_spec s usersrc dest len :
  fits 32 usersrc → 0 <= len → USERSPACETOP <= dest → dest + len <= 2 ^ 32 →
  tm_badfaultfunc s = false →
  ∃ m', (∀ x, ¬ (dest <= x < dest + len) → m' x = mem s x) ∧
    if decide (0 < len ∧ usersrc + len <= USERSPACETOP) then
      copyin usersrc dest len s = copy_end (verdict s (accesses dest usersrc len)) m' s ∧
      (verdict s (accesses dest usersrc len) = Satisfied → copied (mem s) m' dest usersrc len)
    else m' = mem s ∧ copyin usersrc dest len s = Done EFAULT s.
Proof.
  intros Hu Hl Hd1 Hd2 Hb. apply (block_copy_spec usersrc dest usersrc len s Hu); [| done | lia].
  unfold USERSPACETOP in *. zlia.
Qed.

(** The page at 0x1000 can be read and written, that at 0x2000 only read (a store ends the
    process), and kernel memory below 0xa0000000 is there. *)
Definition wit_c : cstate :=
  mkC (λ x, x mod 251)
    (λ store x, if (4096 <=? x) && (x <? 8192) then Satisfied
                else if (8192 <=? x) && (x <? 12288) then (if store then Ends else Satisfied)
                else if x <? MIPS_KSEG0 then Refused
                else if x <? 0xa0000000 then Satisfied else Dies) false.

Lemma copyin_spec_witness :
  ∃ m', copyin 8190 (2 ^ 31) 3 wit_c = Done 0 (mkC m' (acc wit_c) false) ∧
    copied (mem wit_c) m' (2 ^ 31) 8190 3.
Proof.
  destruct (copyin_spec wit_c 8190 (2 ^ 31) 3) as (m' & _ & H);
    [unfold fits, USERSPACETOP, MIPS_KSEG0; simpl; lia.. |].
  exists m'. rewrite decide_True in H by (unfold USERSPACETOP, MIPS_KSEG0; lia).
  destruct H as [E H]. split; [rewrite E; reflexivity | by apply H].
Defined.

(** [copyout] from kernel memory, on every branch. *)
Lemma copyout_law s src userdest len :
  fits 32 userdest → 0 <= len → USERSPACETOP <= src → src + len <= 2 ^ 32 →
  tm_badfaultfunc s = false →
  ∃ m',
    (∀ x, USERSPACETOP <= x → m' x = mem s x) ∧
    (∀ x, ¬ (userdest <= x < userdest + len) → m' x = mem s x) ∧
    if decide (0 < len ∧ userdest + len <= USERSPACETOP) then
      copyout src userdest len s = copy_end (verdict s (accesses userdest src len)) m' s ∧
      (verdict s (accesses userdest src len) = Satisfied → copied (mem s) m' userdest src len)
    else m' = mem s ∧ copyout src userdest len s = Done EFAULT s.
Proof.
  intros Hu Hl Hd1 Hd2 Hb.
  destruct (block_copy_spec userdest userdest src len s Hu) as (m' & Ho & H); [| done | lia |].
  { unfold USERSPACETOP in *. zlia. }
  exists m'. split; [| split; [done | exact H]]. intros x Hx. case_decide; [apply Ho; lia |].
  by destruct H as [-> _].
Qed.

(** C38: [copyout] writes user space only: whatever address and length a process
    passes, no byte at or above [USERSPACETOP], nor any outside the range, changes.  A
    range that is empty or leaves user space gives EFAULT with nothing changed.  For any
    other the first access that is not satisfied decides: none (which is so exactly if
    every byte of the kernel buffer can be loaded and every byte of the range stored to)
    gives 0 and the range holds the bytes, a refused one EFAULT, one that ends the process
    ends it, and the kernel dies only of an access it cannot recover from. *)
Theorem copyout_spec s src userdest len :
  fits 32 userdest → 0 <= len → USERSPACETOP <= src → src + len <= 2 ^ 32 →
  tm_badfaultfunc s = false →
  ∃ m',
    (∀ x, USERSPACETOP <= x → m' x = mem s x) ∧
    (∀ x, ¬ (userdest <= x < userdest + len) → m' x = mem s x) ∧
    if decide (0 < len ∧ userdest + len <= USERSPACETOP) then
      let v := verdict s (accesses userdest src len) in
      (v = Satisfied ↔ accessible s true userdest len ∧ accessible s false src len) ∧
      (v = Satisfied → copied (mem s) m' userdest src len) ∧
      copyout src userdest len s =
        match v with
        | Satisfied => Done 0 (mkC m' (acc s) false)
        | Refused => Done EFAULT (mkC m' (acc s) false)
        | Ends => Exited (mkC m' (acc s) true)
        | Dies => Panic fatal
        end
    else m' = mem s ∧ copyout src userdest len s = Done EFAULT s.
Proof.
  intros Hu Hl Hd1 Hd2 Hb. destruct (copyout_law s src userdest len Hu Hl Hd1 Hd2 Hb) as (m' & H1 & H2 & H3).
  exists m'. split; [done |]. split; [done |]. case_decide; [| done]. destruct H3 as [E Hc].
  split; [apply verdict_ok |]. by split.
Qed.

Lemma copyout_spec_witness :
  (∃ m', copyout (2 ^ 31) 8188 3 wit_c = Done 0 (mkC m' (acc wit_c) false) ∧
     copied (mem wit_c) m' 8188 (2 ^ 31) 3) ∧
  (∃ m', copyout (2 ^ 31) 4094 3 wit_c = Done EFAULT (mkC m' (acc wit_c) false) ∧ m' (2 ^ 31) = mem wit_c (2 ^ 31)) ∧
  (∃ m', copyout (2 ^ 31) 8190 3 wit_c = Exited (mkC m' (acc wit_c) true)).
Proof.
  split; [| split].
  - destruct (copyout_spec wit_c (2 ^ 31) 8188 3) as (m' & _ & _ & H);
      [unfold fits, USERSPACETOP, MIPS_KSEG0; simpl; lia.. |].
    exists m'. rewrite decide_True in H by (unfold USERSPACETOP, MIPS_KSEG0; lia).
    destruct H as (_ & Hc & E). split; [rewrite E; reflexivity | by apply Hc].
  - destruct (copyout_spec wit_c (2 ^ 31) 4094 3) as (m' & Hk & _ & H);
      [unfold fits, USERSPACETOP, MIPS_KSEG0; simpl; lia.. |].
    exists m'. rewrite decide_True in H by (unfold USERSPACETOP, MIPS_KSEG0; lia).
    destruct H as (_ & Hc & E). split; [rewrite E; reflexivity | by apply Hk].
  - destruct (copyout_spec wit_c (2 ^ 31) 8190 3) as (m' & _ & _ & H);
      [unfold fits, USERSPACETOP, MIPS_KSEG0; simpl; lia.. |].
    exists m'. rewrite decide_True in H by (unfold USERSPACETOP, MIPS_KSEG0; lia).
    destruct H as (_ & Hc & E). rewrite E. reflexivity.
Defined.

(** ** Strings *)

(** The first [n] bytes at [a] are not the terminator. *)
Definition no_nul (m : Z → Z) (a n : Z) : Prop := ∀ j, 0 <= j < n → m (a + j) ≠ 0.

(** What the copying loop has done when it stops after looking at bytes
    [i .. i+n-1]: it has copied a terminator, it has found none, or it stopped at an access
    that is not satisfied. *)
Definition copystr_post (s : cstate) (dest src i n : Z) (o : outcome cstate (option (option Z))) : Prop :=
  ∃ m', (∀ x, ¬ (dest + i <= x < dest + i + n) → m' x = mem s x) ∧
  ((∃ g, o = Done (Some (Some g)) (with_mem m' s) ∧ i < g <= i + n ∧ mem s (src + g - 1) = 0 ∧
      no_nul (mem s) (src + i) (g - 1 - i) ∧ (∀ j, i <= j < g → m' (dest + j) = mem s (src + j))) ∨
   o = Done (Some None) (with_mem m' s) ∧ no_nul (mem s) (src + i) n ∨
   ∃ j, let x := verdict s [(false, src + j); (true, dest + j)] in
     o = halt x (with_mem m' s) ∧ x ≠ Satisfied ∧ i <= j < i + n ∧ no_nul (mem s) (src + i) (j - i)).

Lemma copystr_fault_post s dest src i n :
  0 < n → let x := verdict s [(false, src + i); (true, dest + i)] in
  x ≠ Satisfied → copystr_post s dest src i n (halt x s).
Proof.
  intros Hn x Hx. exists (mem s). split; [done |]. right. right. exists i. rewrite with_mem_same.
  split; [done |]. split; [done |]. split; [lia |]. intros j Hj. lia.
Qed.

(** Adding the byte at index [i] in front of what the rest of the loop did. *)
Lemma copystr_step_post s dest src i n o :
  0 <= n → mem s (src + i) ≠ 0 →
  (∀ j k, i <= j < i + (n + 1) → i <= k < i + (n + 1) → dest + j ≠ src + k) →
  copystr_post (with_mem (λ x, if x =? dest + i then mem s (src + i) else mem s x) s)
    dest src (i + 1) n o →
  copystr_post s dest src i (n + 1) o.
Proof.
  intros Hn Hv Hd (m' & Hout & Hr).
  assert (∀ x, src + i <= x < src + i + n + 1 →
    (if x =? dest + i then mem s (src + i) else mem s x) = mem s x) as Hsrc.
  { intros x Hx. destruct (Z.eqb_spec x (dest + i)); [| done].
    destruct (Hd i (x - src)); lia. }
  assert (∀ k, 0 <= k <= n → no_nul (λ x, if x =? dest + i then mem s (src + i) else mem s x)
    (src + (i + 1)) k → no_nul (mem s) (src + i) (k + 1)) as Hnul.
  { intros k Hk H j Hj. destruct (decide (j = 0)) as [-> |]; [by rewrite Z.add_0_r |].
    specialize (H (j - 1) ltac:(lia)). simpl in H. rewrite Hsrc in H by lia.
    by replace (src + (i + 1) + (j - 1)) with (src + i + j) in H by lia. }
  exists m'. split.
  { intros x Hx. rewrite Hout by lia. simpl. destruct (Z.eqb_spec x (dest + i)); [lia | done]. }
  destruct Hr as [(g & E & Hg & Hz & Hnn & Hc) | [(E & Hnn) | (j & E & Hx & Hj & Hnn)]].
  - left. exists g. simpl in Hz, Hnn. rewrite Hsrc in Hz by lia.
    replace (g - 1 - i) with ((g - 1 - (i + 1)) + 1) by lia.
    repeat split; [done | lia | lia | done | by apply Hnul; [lia |] |].
    intros j Hj. destruct (decide (j = i)) as [-> |].
    + rewrite Hout by lia. simpl. by rewrite Z.eqb_refl.
    + rewrite Hc by lia. simpl. apply Hsrc. lia.
  - right. left. split; [done |]. by apply Hnul; [lia |].
  - right. right. exists j. split; [done |]. split; [done |]. split; [lia |].
    replace (j - i) with ((j - (i + 1)) + 1) by lia. apply Hnul; [lia | done].
Qed.

Lemma copystr_loop_spec n : ∀ dest src i s,
  tm_badfaultfunc s = true →
  (∀ j k, i <= j < i + Z.of_nat n → i <= k < i + Z.of_nat n → dest + j ≠ src + k) →
  copystr_post s dest src i (Z.of_nat n) (copystr_loop n dest src i s).
Proof.
  induction n as [|n IH]; intros dest src i s Hb Hd.
  { exists (mem s). split; [done |]. right. left. rewrite with_mem_same. split; [done |]. intros j Hj. lia. }
  rewrite Nat2Z.inj_succ, <- Z.add_1_r in *. cbn [copystr_loop].
  pose proof (copystr_fault_post s dest src i (Z.of_nat n + 1) ltac:(lia)) as Hf. cbn [verdict] in Hf.
  unfold read_byte, write_byte, mbind, M_bind, gets, modify, mret, M_ret.
  rewrite (touch_run false _ s Hb). destruct (acc s false (src + i)); [| by apply Hf..].
  cbn beta iota. rewrite (touch_run true _ s Hb). destruct (acc s true (dest + i)); [| by apply Hf..].
  cbn beta iota. set (m1 := λ x, if x =? dest + i then mem s (src + i) else mem s x).
  destruct (Z.eqb_spec (mem s (src + i)) 0) as [E | E].
  - exists m1. split; [intros x Hx; unfold m1; destruct (Z.eqb_spec x (dest + i)); [lia | done] |].
    left. exists (i + 1). replace (src + (i + 1) - 1) with (src + i) by lia.
    repeat split; [lia | lia | done | intros j Hj; lia |].
    intros j Hj. replace j with i by lia. unfold m1. by rewrite Z.eqb_refl.
  - apply copystr_step_post; [lia | done | done |]. apply IH; [done | intros; apply Hd; lia].
Qed.

(** [copyinstr] with a kernel buffer of [len] bytes returns 0 when a terminated string that
    fits the buffer starts at [usersrc] in user memory; the buffer then holds it and the
    length counts the terminator.  ENAMETOOLONG means that the first [len] bytes are user
    memory without a terminator, and EFAULT that user space ends before one.  Otherwise an
    access was not satisfied before the terminator was reached. *)
Theorem copyinstr_spec s usersrc dest len :
  fits 32 usersrc → 0 < len → USERSPACETOP <= dest → dest + len <= 2 ^ 32 →
  tm_badfaultfunc s = false →
  ∃ m', (∀ x, ¬ (dest <= x < dest + len) → m' x = mem s x) ∧
    ((∃ got, copyinstr usersrc dest len s = Done (0, got) (mkC m' (acc s) false) ∧
        0 < got <= len ∧ usersrc + got <= USERSPACETOP ∧
        mem s (usersrc + got - 1) = 0 ∧ no_nul (mem s) usersrc (got - 1) ∧
        (∀ j, 0 <= j < got → m' (dest + j) = mem s (usersrc + j))) ∨
     copyinstr usersrc dest len s = Done (ENAMETOOLONG, 0) (mkC m' (acc s) false) ∧
       usersrc + len <= USERSPACETOP ∧ no_nul (mem s) usersrc len ∨
     copyinstr usersrc dest len s = Done (EFAULT, 0) (mkC m' (acc s) false) ∧
       (USERSPACETOP <= usersrc ∨ 2 ^ 32 < usersrc + len ∨
        USERSPACETOP < usersrc + len ∧ no_nul (mem s) usersrc (USERSPACETOP - usersrc)) ∨
     ∃ j, let x := verdict s [(false, usersrc + j); (true, dest + j)] in
       x ≠ Satisfied ∧ 0 <= j < len ∧ usersrc + j < USERSPACETOP ∧ no_nul (mem s) usersrc j ∧
       copyinstr usersrc dest len s =
         match x with
         | Satisfied | Refused => Done (EFAULT, 0) (mkC m' (acc s) false)
         | Ends => Exited (mkC m' (acc s) true)
         | Dies => Panic fatal
         end).
Proof.
  intros Hu Hl Hd1 Hd2 Hb. unfold copyinstr.
  assert (s = mkC (mem s) (acc s) false) as Es by (destruct s; simpl in *; by subst).
  rewrite copycheck_spec by (unfold fits, USERSPACETOP in *; zlia).
  destruct (Z.ltb_spec usersrc USERSPACETOP), (Z.leb_spec (usersrc + len) (2 ^ 32)); simpl.
  2-4: exists (mem s); split; [done |]; right; right; left; rewrite Es at 1; split; [done |]; lia.
  set (stop := len `min` (USERSPACETOP - usersrc)).
  assert (len `min` stop = stop) as Emin by (unfold stop; lia).
  assert (0 <= stop) by (unfold stop; lia).
  destruct (copystr_loop_spec (Z.to_nat stop) dest usersrc 0 (with_badfault true s)) as (m' & Hout & Hr);
    [done | intros; unfold stop in *; lia |].
  unfold guarded_str, copystr, mbind, M_bind, modify, mret, M_ret.
  rewrite Emin. rewrite Z2Nat.id in Hout, Hr by lia. rewrite !Z.add_0_r in Hout, Hr.
  exists m'. split; [intros x Hx; apply Hout; unfold stop; lia |].
  destruct Hr as [(g & -> & Hg & Hz & Hnn & Hc) | [(-> & Hnn) | (j & -> & Hx & Hj & Hnn)]].
  - left. exists g. split; [done |]. rewrite Z.sub_0_r in Hnn. repeat split; try done; unfold stop in *; lia.
  - right. destruct (Z.ltb_spec stop len).
    + right. left. split; [done |]. right. right. unfold stop in *. split; [lia |].
      by replace (USERSPACETOP - usersrc) with (len `min` (USERSPACETOP - usersrc)) by lia.
    + left. split; [done |]. assert (stop = len) as Esl by (unfold stop in *; lia). rewrite Esl in Hnn.
      split; [unfold stop in *; lia | done].
  - right. right. right. exists j. rewrite (verdict_acc (with_badfault true s) s _ eq_refl) in *.
    rewrite Z.sub_0_r in Hnn. repeat split; try done; [lia | unfold stop in *; lia | unfold stop in *; lia |].
    cbn [verdict]. by destruct (acc s false (usersrc + j)), (acc s true (dest + j)).
Qed.

Lemma copyinstr_spec_witness :
  ∃ m', copyinstr 4262 (2 ^ 31) 8 wit_c = Done (0, 6) (mkC m' (acc wit_c) false) ∧
    (∀ j, 0 <= j < 6 → m' (2 ^ 31 + j) = mem wit_c (4262 + j)).
Proof.
  destruct (copyinstr_spec wit_c 4262 (2 ^ 31) 8) as (m' & _ & H);
    [unfold fits, USERSPACETOP, MIPS_KSEG0; simpl; lia.. |].
  assert (match copyinstr 4262 (2 ^ 31) 8 wit_c with Done a _ => a | _ => (-1, 0) end = (0, 6)) as E0
    by (vm_compute; reflexivity).
  exists m'. destruct H as [(got & E & _ & _ & _ & _ & Hc) | [[E _] | [[E _] | (j & Hx & Hj & _ & Hn & _)]]].
  - rewrite E in E0. injection E0 as ->. by split.
  - by rewrite E in E0.
  - by rewrite E in E0.
  - destruct (Z_lt_dec 5 j); [by destruct (Hn 5 ltac:(lia)) |].
    assert (j = 0 ∨ j = 1 ∨ j = 2 ∨ j = 3 ∨ j = 4 ∨ j = 5) as Hj' by lia.
    repeat (destruct Hj' as [-> | Hj']; [by destruct Hx |]). subst. by destruct Hx.
Defined.

End CopyInOut.
