(* ===== verification/Uio.v ===== *)
(** * Scatter/gather I/O requests (lib/uio.c)

    A [uio] describes a transfer: the buffers left ([uio_iov], the first one
    partly consumed), the bytes left ([uio_resid]) and the position in the
    object ([uio_offset]).  [uiomove] moves bytes between a kernel buffer and
    the front of that list. *)

From stdpp Require Import base list numbers strings.
From Stdlib Require Import ZArith Lia.
From S2P Require Import Prelude CopyInOut.
Import CopyInOut.

#[local] Open Scope Z_scope.

Module Uio.

(** [enum uio_rw], [enum uio_seg] *)
Definition UIO_READ : Z := 0.
Definition UIO_WRITE : Z := 1.
Definition UIO_USERISPACE : Z := 0.
Definition UIO_USERSPACE : Z := 1.
Definition UIO_SYSSPACE : Z := 2.

(** [iov_ubase] and [iov_kbase] share their storage. *)
Record iovec := mkIov { iov_base : Z; iov_len : Z }.

Record uio := mkUio {
  uio_iov : list iovec;
  uio_iovcnt : Z;
  uio_offset : Z;
  uio_resid : Z;
  uio_segflg : Z;
  uio_rw : Z;
  uio_space : Z
}.

(** The memory, the request, and the address space of the current process. *)
Record ustate := mkU { u_c : cstate; u_uio : uio; u_as : Z }.
Definition with_uio (u : uio) (s : ustate) := mkU (u_c s) u (u_as s).
Definition with_c (c : cstate) (s : ustate) := mkU c (u_uio s) (u_as s).
Abbreviation U := (M ustate).

Definition on_c {A} (m : C A) : U A := zoom u_c with_c m.

(** [memmove]: the source bytes as they were before the call. *)
Definition move (dest src n : Z) (m : Z → Z) : Z → Z :=
  λ x, if (dest <=? x) && (x <? dest + n) then m (src + (x - dest)) else m x.
Definition memmove (dest src n : Z) : U unit :=
  modify (λ s, with_c (with_mem (move dest src n (mem (u_c s))) (u_c s)) s).

(** Drop the exhausted first buffer. *)
Definition next_iov (u : uio) : uio :=
  mkUio (tail (uio_iov u)) (u32 (uio_iovcnt u - 1)) (uio_offset u) (uio_resid u)
    (uio_segflg u) (uio_rw u) (uio_space u).

(** The updates after [size] bytes of the first buffer [iov] were moved. *)
Definition consume (iov : iovec) (size : Z) (u : uio) : uio :=
  mkUio (mkIov (u32 (iov_base iov + size)) (u32 (iov_len iov - size)) :: tail (uio_iov u))
    (uio_iovcnt u) (uio_offset u + size) (u32 (uio_resid u - size))
    (uio_segflg u) (uio_rw u) (uio_space u).

(** The [switch]: copy [size] bytes between [ptr] and the first buffer. *)
Definition transfer (u : uio) (iov : iovec) (ptr size : Z) : U Z :=
  if uio_segflg u =? UIO_SYSSPACE then
    (if uio_rw u =? UIO_READ then memmove (iov_base iov) ptr size
     else memmove ptr (iov_base iov) size) ;; mret 0
  else if (uio_segflg u =? UIO_USERSPACE) || (uio_segflg u =? UIO_USERISPACE) then
    if uio_rw u =? UIO_READ then on_c (copyout ptr (iov_base iov) size)
    else on_c (copyin (iov_base iov) ptr size)
  else panic "uiomove: Invalid uio_segflg".

(** The loop of [uiomove]. *)
Fixpoint uiomove_loop (fuel : nat) (ptr n : Z) : U Z :=
  match fuel with
  | O => nofuel
  | S fuel' =>
      u ← gets u_uio;
      if (0 <? n) && (0 <? uio_resid u) then
        iov ← deref (λ s, head (uio_iov (u_uio s))) "uio_iov out of range";
        let size := if n <? iov_len iov then n else iov_len iov in
        if size =? 0 then
          modify (λ s, with_uio (next_iov (u_uio s)) s) ;;
          cnt ← gets (λ s, uio_iovcnt (u_uio s));
          if cnt =? 0 then panic "uiomove: ran out of buffers"
          else uiomove_loop fuel' ptr n
        else
          result ← transfer u iov ptr size;
          if negb (result =? 0) then mret result
          else
            modify (λ s, with_uio (consume iov size (u_uio s)) s) ;;
            uiomove_loop fuel' (ptr + size) (n - size)
      else mret 0
  end.

(** Every iteration consumes a buffer or a byte. *)
Definition uiomove_fuel (n : Z) (u : uio) : nat := S (Z.to_nat n + length (uio_iov u)).

Definition uiomove (ptr n : Z) : U Z :=
  u ← gets u_uio;
  if negb (uio_rw u =? UIO_READ) && negb (uio_rw u =? UIO_WRITE)
  then panic "uiomove: Invalid uio_rw"
  else
    curas ← gets u_as;
    (if uio_segflg u =? UIO_SYSSPACE
     then kassert (uio_space u =? 0) "uio->uio_space == NULL"
     else kassert (uio_space u =? curas) "uio->uio_space == proc_getas()") ;;
    uiomove_loop (uiomove_fuel n u) ptr n.

(** [zeros] is the address of the static buffer of [uiomovezeros]. *)
Fixpoint uiomovezeros_loop (fuel : nat) (zeros n : Z) : U Z :=
  match fuel with
  | O => nofuel
  | S fuel' =>
      if 0 <? n then
        let amt := if n <? 16 then n else 16 in
        result ← uiomove zeros amt;
        if negb (result =? 0) then mret result else uiomovezeros_loop fuel' zeros (n - amt)
      else mret 0
  end.

Definition uiomovezeros (zeros n : Z) : U Z :=
  u ← gets u_uio;
  kassert (uio_rw u =? UIO_READ) "uio->uio_rw == UIO_READ" ;;
  uiomovezeros_loop (S (Z.to_nat n)) zeros n.

Definition uio_kinit (kbuf len pos rw : Z) : uio :=
  mkUio [mkIov kbuf len] 1 pos len UIO_SYSSPACE rw 0.

(** ** Well-formed requests *)

Definition total (iovs : list iovec) : Z := foldr (λ v acc, iov_len v + acc) 0 iovs.

(** The remaining buffers hold exactly [uio_resid] bytes, each inside the
    address space. *)
Record uio_ok (u : uio) : Prop := {
  uo_cnt : uio_iovcnt u = Z.of_nat (length (uio_iov u));
  uo_cnt32 : uio_iovcnt u < 2 ^ 32;
  uo_len : Forall (λ v, 0 <= iov_len v ∧ 0 <= iov_base v ∧ iov_base v + iov_len v < 2 ^ 32)
             (uio_iov u);
  uo_resid : uio_resid u = total (uio_iov u);
  uo_resid32 : uio_resid u < 2 ^ 32
}.

(** The addresses of the bytes left, in transfer order. *)
Definition iov_addrs (iovs : list iovec) : list Z :=
  iovs ≫= λ v, seqZ (iov_base v) (iov_len v).

Lemma total_nonneg iovs :
  Forall (λ v, 0 <= iov_len v ∧ 0 <= iov_base v ∧ iov_base v + iov_len v < 2 ^ 32) iovs →
  0 <= total iovs.
Proof. induction 1 as [|v l H _ IH]; simpl; lia. Qed.

Lemma iov_addrs_cons v l : iov_addrs (v :: l) = seqZ (iov_base v) (iov_len v) ++ iov_addrs l.
Proof. done. Qed.

Lemma length_iov_addrs iovs :
  Forall (λ v, 0 <= iov_len v ∧ 0 <= iov_base v ∧ iov_base v + iov_len v < 2 ^ 32) iovs →
  Z.of_nat (length (iov_addrs iovs)) = total iovs.
Proof.
  induction 1 as [|v l H _ IH]; [done |].
  rewrite iov_addrs_cons, length_app, length_seqZ. simpl. lia.
Qed.

Lemma uio_kinit_ok kbuf len pos rw :
  0 <= kbuf → 0 <= len → kbuf + len < 2 ^ 32 → uio_ok (uio_kinit kbuf len pos rw).
Proof.
  intros Hk Hl Hs. split; simpl; try lia. by apply Forall_singleton.
Qed.

Lemma next_iov_ok u v l :
  uio_ok u → uio_iov u = v :: l → iov_len v = 0 →
  uio_ok (next_iov u) ∧ uio_iov (next_iov u) = l ∧ uio_resid (next_iov u) = uio_resid u.
Proof.
  intros [Hc H32 Hf Hr Hr32] E Hv. rewrite E in Hc, Hf, Hr. simpl in *.
  apply Forall_cons in Hf as [_ Hf].
  repeat split; simpl; rewrite ?E; simpl; try done; try lia;
    rewrite u32_small; lia.
Qed.

Lemma consume_ok u v l size :
  uio_ok u → uio_iov u = v :: l → 0 < size <= iov_len v →
  uio_ok (consume v size u) ∧
  uio_iov (consume v size u) = mkIov (iov_base v + size) (iov_len v - size) :: l ∧
  uio_resid (consume v size u) = uio_resid u - size.
Proof.
  intros [Hc H32 Hf Hr Hr32] E Hs. rewrite E in Hc, Hf, Hr.
  apply Forall_cons in Hf as [Hv Hf]. pose proof (total_nonneg l Hf). simpl in *.
  assert (u32 (iov_base v + size) = iov_base v + size) as E1 by (apply u32_small; lia).
  assert (u32 (iov_len v - size) = iov_len v - size) as E2 by (apply u32_small; lia).
  assert (u32 (uio_resid u - size) = uio_resid u - size) as E3 by (apply u32_small; lia).
  repeat split; simpl; rewrite ?E, ?E1, ?E2, ?E3; simpl; try done; try lia.
  constructor; [simpl; lia | done].
Qed.

(** ** Accounting *)

(** [transfer] touches the memory only. *)
Lemma transfer_uio u iov ptr size s :
  wlp (transfer u iov ptr size) (λ _ s', u_uio s' = u_uio s) (λ s', u_uio s' = u_uio s) s.
Proof.
  unfold transfer. repeat case_if; try done; unfold wlp, on_c, zoom.
  - by destruct (copyout _ _ _ _).
  - by destruct (copyin _ _ _ _).
Qed.

(** What a call that moved [k] bytes leaves of the request. *)
Definition moved (u u' : uio) (k : Z) : Prop :=
  uio_ok u' ∧ uio_resid u' = uio_resid u - k ∧ uio_offset u' = uio_offset u + k ∧
  iov_addrs (uio_iov u') = drop (Z.to_nat k) (iov_addrs (uio_iov u)).

Lemma moved_0 u : uio_ok u → moved u u 0.
Proof. intros Hu. split; [done |]. rewrite drop_0. repeat split; lia. Qed.

Lemma consume_addrs v l size :
  0 <= size <= iov_len v →
  iov_addrs (mkIov (iov_base v + size) (iov_len v - size) :: l) =
  drop (Z.to_nat size) (iov_addrs (v :: l)).
Proof.
  intros Hs. rewrite !iov_addrs_cons. simpl.
  rewrite drop_app_le by (rewrite length_seqZ; lia). f_equal.
  replace (iov_len v) with (size + (iov_len v - size)) at 2 by lia.
  rewrite seqZ_app by lia. rewrite drop_app_length'; [done | by rewrite length_seqZ].
Qed.

(** The result [r] of moving at most [n] bytes. *)
Definition uiomove_post (u : uio) (n r : Z) (u' : uio) : Prop :=
  ∃ k, 0 <= k <= n `min` uio_resid u ∧ moved u u' k ∧ (r = 0 → k = n `min` uio_resid u).

(** Whatever the segment flag and the direction, a returning loop leaves a
    well-formed request from which [k] bytes are consumed, all it could when
    the result is 0. *)
Lemma uiomove_loop_moved fuel : ∀ ptr n s,
  uio_ok (u_uio s) → 0 <= n →
  wlp (uiomove_loop fuel ptr n)
    (λ r s', uiomove_post (u_uio s) n r (u_uio s'))
    (λ _, True) s.
Proof.
  induction fuel as [|fuel IH]; intros ptr n s Hu Hn; [apply wlp_nofuel |]. simpl.
  wstep. wstep. pose proof (total_nonneg _ (uo_len _ Hu)) as Ht. rewrite <- (uo_resid _ Hu) in Ht.
  case_if; zbool.
  2:{ wstep. exists 0. apply andb_false_iff in Heqb as [Hz | Hz]; zbool;
      (split; [lia |]); (split; [by apply moved_0 | lia]). }
  wstep. wstep. destruct (uio_iov (u_uio s)) as [|v l] eqn:El; [done |].
  injection H1 as <-. pose proof (uo_len _ Hu) as Hf. rewrite El in Hf.
  apply Forall_cons in Hf as [Hv Hf].
  set (size := if n <? iov_len v then n else iov_len v).
  assert (0 <= size <= iov_len v ∧ size <= n ∧ (size = 0 → iov_len v = 0)) as Hsz
    by (unfold size; destruct (Z.ltb_spec n (iov_len v)); lia).
  clearbody size. destruct (Z.eqb_spec size 0) as [Hz | Hz].
  - destruct (next_iov_ok (u_uio s) v l) as (Hu' & El' & Er'); [done | done | by apply Hsz |].
    wstep. wstep. wstep. wstep. case_if; [wstep |].
    eapply wlp_mono; [| done | apply IH; [done | done]]. simpl. intros r s' (k & Hk & Hm & Hr).
    exists k. split; [done |]. split; [| done].
    destruct Hm as (H1 & H2 & H3 & H4). split; [done |]. split; [done |]. split; [done |].
    rewrite H4, El. cbn [next_iov uio_iov]. rewrite El.
    rewrite iov_addrs_cons. cbn [tail]. replace (iov_len v) with 0; [done |]. symmetry. by apply Hsz.
  - wstep. eapply wlp_mono; [| | apply transfer_uio]; [| done]. simpl. intros r s1 Es.
    case_if; zbool.
    { wstep. exists 0. rewrite Es. split; [lia |]. split; [by apply moved_0 | done]. }
    subst r. wstep. wstep. rewrite Es.
    destruct (consume_ok (u_uio s) v l size) as (Hu' & El' & Er'); [done | done | lia |].
    eapply wlp_mono; [| done | apply IH; [done | lia]]. cbn [u_uio with_uio].
    intros r s' (k & Hk & (H2 & H3 & H4 & H5) & Hr).
    rewrite Er' in *. exists (size + k). split; [lia |]. split; [| intros; lia].
    split; [done |]. split; [lia |]. split; [simpl in H4; lia |].
    rewrite H5, El', consume_addrs, drop_drop, El by lia. f_equal. lia.
Qed.

(** [uiomove] keeps a request well formed: if it returns, the bytes it has
    moved are consumed from the front of the buffers, [uio_resid] fell and
    [uio_offset] rose by their number, and on success that number is the
    smaller of [n] and what was left.  This holds for user and kernel
    buffers, in both directions, and on errors. *)
Theorem uiomove_accounting s s' ptr n r :
  uio_ok (u_uio s) → 0 <= n → uiomove ptr n s = Done r s' →
  uiomove_post (u_uio s) n r (u_uio s').
Proof.
  intros Hu Hn E. refine (wlp_done _ (λ r s', uiomove_post (u_uio s) n r (u_uio s')) (λ _, True) _ _ _ E _).
  unfold uiomove. do 2 wstep. case_if; [wstep |]. do 3 wstep.
  case_if; wstep; by apply uiomove_loop_moved.
Qed.

(** What kind of request it is does not change. *)
Definition kind (u : uio) : Z * Z * Z := (uio_rw u, uio_segflg u, uio_space u).

Lemma uiomove_loop_kind fuel : ∀ ptr n s,
  wlp (uiomove_loop fuel ptr n) (λ _ s', kind (u_uio s') = kind (u_uio s)) (λ _, True) s.
Proof.
  induction fuel as [|fuel IH]; intros ptr n s; [apply wlp_nofuel |]. cbn [uiomove_loop].
  do 2 wstep. case_if; [| by wstep]. do 2 wstep. case_if.
  - do 4 wstep. case_if; [wstep |]. exact (IH ptr n (with_uio (next_iov (u_uio s)) s)).
  - wstep. eapply wlp_mono; [| | apply transfer_uio]; [| done]. cbn beta. intros r s1 Es.
    case_if; [wstep; by rewrite Es |]. do 2 wstep. rewrite Es.
    exact (IH _ _ (with_uio (consume a _ (u_uio s)) s1)).
Qed.

Lemma uiomove_kind s s' ptr n r : uiomove ptr n s = Done r s' → kind (u_uio s') = kind (u_uio s).
Proof.
  intros E. refine (wlp_done _ (λ r s', kind (u_uio s') = kind (u_uio s)) (λ _, True) _ _ _ E _).
  unfold uiomove. do 2 wstep. case_if; [wstep |]. do 3 wstep.
  case_if; wstep; apply uiomove_loop_kind.
Qed.

(** How it ends: it always does, for kernel buffers with 0. *)
Definition ends (seg : Z) (o : outcome ustate Z) : Prop :=
  match o with
  | Done r _ => seg = UIO_SYSSPACE → r = 0
  | Exited _ | Panic _ => seg ≠ UIO_SYSSPACE
  | NoFuel => False
  end.

Lemma transfer_ends u iov ptr size s : ends (uio_segflg u) (transfer u iov ptr size s).
Proof.
  unfold transfer. destruct (Z.eqb_spec (uio_segflg u) UIO_SYSSPACE) as [E | E].
  { by destruct (uio_rw u =? UIO_READ). }
  case_if; [| done]. unfold on_c, zoom, ends. case_if.
  - pose proof (block_copy_fuel (iov_base iov) (iov_base iov) ptr size (u_c s)) as H.
    change (block_copy _ _ _ _) with (copyout ptr (iov_base iov) size) in H.
    by destruct (copyout _ _ _ _).
  - pose proof (block_copy_fuel (iov_base iov) ptr (iov_base iov) size (u_c s)) as H.
    change (block_copy _ _ _ _) with (copyin (iov_base iov) ptr size) in H.
    by destruct (copyin _ _ _ _).
Qed.

Lemma uiomove_loop_ends fuel : ∀ ptr n s,
  uio_ok (u_uio s) → 0 <= n → (Z.to_nat n + length (uio_iov (u_uio s)) < fuel)%nat →
  ends (uio_segflg (u_uio s)) (uiomove_loop fuel ptr n s).
Proof.
  induction fuel as [|f IH]; intros ptr n s Hu Hn Hf; [lia |]. cbn [uiomove_loop].
  unfold gets, deref, mbind, M_bind.
  destruct ((0 <? n) && (0 <? uio_resid (u_uio s))) eqn:E; [| done].
  apply andb_true_iff in E as [E1 E2]. zbool.
  pose proof (uo_resid _ Hu) as Hres. pose proof (uo_len _ Hu) as HF.
  destruct (uio_iov (u_uio s)) as [|v l] eqn:El; [simpl in *; lia |].
  apply Forall_cons in HF as [Hv HF]. cbn [head hd_error].
  set (size := if n <? iov_len v then n else iov_len v).
  assert (0 <= size <= iov_len v ∧ size <= n ∧ (size = 0 → iov_len v = 0)) as Hsz
    by (unfold size; destruct (Z.ltb_spec n (iov_len v)); lia).
  clearbody size. destruct (Z.eqb_spec size 0) as [Hz | Hz].
  - destruct (next_iov_ok (u_uio s) v l) as (Hu' & El' & Er'); [done | done | by apply Hsz |].
    assert (length l ≠ 0%nat) as Hl by (destruct l; simpl in *; lia).
    unfold modify. cbn [u_uio with_uio].
    rewrite (proj2 (Z.eqb_neq _ 0)) by (rewrite (uo_cnt _ Hu'), El'; lia).
    change (uio_segflg (u_uio s)) with (uio_segflg (next_iov (u_uio s))).
    apply (IH ptr n (with_uio (next_iov (u_uio s)) s)); [done | done |]. cbn [u_uio with_uio]. rewrite El'. simpl in Hf. lia.
  - pose proof (transfer_ends (u_uio s) v ptr size s) as Ht. pose proof (transfer_uio (u_uio s) v ptr size s) as Hw.
    unfold wlp in Hw.
    destruct (transfer (u_uio s) v ptr size s) as [r s1 | | |]; try done.
    destruct (Z.eqb_spec r 0) as [-> | Hr]; [| done]. unfold modify. cbn [negb].
    destruct (consume_ok (u_uio s) v l size) as (Hu' & El' & Er'); [done | done | lia |].
    change (uio_segflg (u_uio s)) with (uio_segflg (consume v size (u_uio s))). rewrite Hw.
    apply (IH (ptr + size) (n - size) (with_uio (consume v size (u_uio s)) s1)); [done | lia |].
    cbn [u_uio with_uio]. rewrite El'. simpl in *. lia.
Qed.

(** A well-formed request of the current address space, or of the kernel, always ends; a
    kernel one succeeds. *)
Lemma uiomove_ends s ptr n :
  uio_ok (u_uio s) → 0 <= n → uio_rw (u_uio s) = UIO_READ ∨ uio_rw (u_uio s) = UIO_WRITE →
  (uio_segflg (u_uio s) = UIO_SYSSPACE → uio_space (u_uio s) = 0) →
  ends (uio_segflg (u_uio s)) (uiomove ptr n s).
Proof.
  intros Hu Hn Hrw Hsp. pose proof (uiomove_loop_ends (uiomove_fuel n (u_uio s)) ptr n s Hu Hn) as H.
  unfold uiomove, gets, mbind, M_bind.
  replace (negb (uio_rw (u_uio s) =? UIO_READ) && _) with false by (by destruct Hrw as [-> | ->]).
  destruct (Z.eqb_spec (uio_segflg (u_uio s)) UIO_SYSSPACE) as [E | E].
  - rewrite Hsp, Z.eqb_refl by done. apply H. unfold uiomove_fuel. lia.
  - destruct (uio_space (u_uio s) =? u_as s); [| done]. apply H. unfold uiomove_fuel. lia.
Qed.

(** ** Kernel buffers *)

Section sys.
Context (s : ustate) (ptr n : Z) (f : nat).
Context (Hn : 0 < n) (Hr : 0 < uio_resid (u_uio s)).

Lemma loop_end_eq m g t : m = 0 ∨ uio_resid (u_uio t) = 0 →
  uiomove_loop (S g) ptr m t = Done 0 t.
Proof using.
  intros H. simpl. unfold gets, mbind, M_bind.
  destruct H as [-> | ->]; [done |]. by rewrite andb_false_r.
Qed.

Lemma loop_skip_eq v l :
  uio_iov (u_uio s) = v :: l → iov_len v = 0 → uio_iovcnt (next_iov (u_uio s)) ≠ 0 →
  uiomove_loop (S f) ptr n s = uiomove_loop f ptr n (with_uio (next_iov (u_uio s)) s).
Proof using Hn Hr.
  intros E Hv Hc. cbn [uiomove_loop]. unfold gets, deref, modify, mbind, M_bind.
  apply Z.ltb_lt in Hn, Hr. rewrite Hn, Hr. cbn [andb]. rewrite E. cbn [head hd_error]. rewrite Hv.
  destruct (Z.ltb_spec n 0); [by apply Z.ltb_lt in Hn; lia |]. cbn [Z.eqb].
  cbn [u_uio with_uio]. by apply Z.eqb_neq in Hc as ->.
Qed.

(** The state after [size] bytes were moved in kernel space. *)
Definition sys_step (v : iovec) (size : Z) : ustate :=
  let m := mem (u_c s) in
  mkU (with_mem (if uio_rw (u_uio s) =? UIO_READ then move (iov_base v) ptr size m
                 else move ptr (iov_base v) size m) (u_c s))
      (consume v size (u_uio s)) (u_as s).

Lemma loop_move_eq v l :
  uio_iov (u_uio s) = v :: l → 0 < iov_len v → uio_segflg (u_uio s) = UIO_SYSSPACE →
  uiomove_loop (S f) ptr n s =
  uiomove_loop f (ptr + n `min` iov_len v) (n - n `min` iov_len v)
    (sys_step v (n `min` iov_len v)).
Proof using Hn Hr.
  intros E Hv Hs. cbn [uiomove_loop]. unfold gets, deref, mbind, M_bind.
  apply Z.ltb_lt in Hn, Hr. rewrite Hn, Hr. cbn [andb]. rewrite E. cbn [head hd_error].
  apply Z.ltb_lt in Hn. unfold transfer. rewrite Hs, Z.eqb_refl.
  replace (if n <? iov_len v then n else iov_len v) with (n `min` iov_len v)
    by (destruct (Z.ltb_spec n (iov_len v)); lia).
  destruct (Z.eqb_spec (n `min` iov_len v) 0) as [Hz | _]; [lia |].
  unfold sys_step. by destruct (uio_rw (u_uio s) =? UIO_READ).
Qed.
End sys.

(** The effect on memory of moving [k] bytes between [ptr ..] and the first [k]
    addresses of [A]. *)
Definition scattered (A : list Z) (ptr k : Z) (m m' : Z → Z) : Prop :=
  (∀ i a, (i < Z.to_nat k)%nat → A !! i = Some a → m' a = m (ptr + Z.of_nat i)) ∧
  (∀ x, x ∉ take (Z.to_nat k) A → m' x = m x).

Definition gathered (A : list Z) (ptr k : Z) (m m' : Z → Z) : Prop :=
  (∀ i a, (i < Z.to_nat k)%nat → A !! i = Some a → m' (ptr + Z.of_nat i) = m a) ∧
  (∀ x, ¬ (ptr <= x < ptr + k) → m' x = m x).

(** The addresses do not overlap each other or [ptr .. ptr+n-1]. *)
Definition separate (A : list Z) (ptr n : Z) : Prop :=
  NoDup A ∧ ∀ a, a ∈ A → ¬ (ptr <= a < ptr + n).

Lemma move_in d sr n m x : d <= x < d + n → move d sr n m x = m (sr + (x - d)).
Proof.
  intros H. unfold move. destruct (Z.leb_spec d x); [| lia].
  destruct (Z.ltb_spec x (d + n)); [done | lia].
Qed.

Lemma move_out d sr n m x : ¬ (d <= x < d + n) → move d sr n m x = m x.
Proof.
  intros H. unfold move. destruct (Z.leb_spec d x); [| done].
  destruct (Z.ltb_spec x (d + n)); [lia | done].
Qed.

(** Moving one chunk [base .. base+size-1] and then the rest moves everything. *)
Section chunk.
Context (A : list Z) (base ptr n size k : Z) (m m' : Z → Z).
Context (Hpre : ∀ i, (i < Z.to_nat size)%nat → A !! i = Some (base + Z.of_nat i)).
Context (Hs : 0 < size <= n) (Hk : 0 <= k <= n - size) (Hsep : separate A ptr n).

Lemma chunk_elem x : base <= x < base + size → x ∈ take (Z.to_nat size) A.
Proof using Hpre Hs.
  intros Hx. apply list_elem_of_lookup. exists (Z.to_nat (x - base)).
  rewrite lookup_take_lt, Hpre by lia. f_equal. lia.
Qed.

Lemma scattered_step :
  scattered (drop (Z.to_nat size) A) (ptr + size) k (move base ptr size m) m' →
  scattered A ptr (size + k) m m'.
Proof using Hpre Hs Hk Hsep.
  destruct Hsep as [Hnd Hdis]. intros [Hin Hout]. unfold scattered.
  rewrite Z2Nat.inj_add by lia. split.
  - intros i a Hi Ha. destruct (decide (i < Z.to_nat size)%nat) as [Hlt | Hge].
    + rewrite (Hpre i Hlt) in Ha. injection Ha as <-.
      rewrite Hout, move_in by (try lia; intros (j & Hj)%list_elem_of_lookup;
        apply lookup_take_Some in Hj as [Hj _]; rewrite lookup_drop in Hj;
        pose proof (NoDup_lookup _ _ _ _ Hnd Hj (Hpre i Hlt)); lia).
      f_equal. lia.
    + rewrite (Hin (i - Z.to_nat size)%nat a);
        [| lia | rewrite lookup_drop, <- Ha; f_equal; lia].
      replace (ptr + size + Z.of_nat (i - Z.to_nat size)) with (ptr + Z.of_nat i) by lia.
      apply move_out. intros Hx.
      apply chunk_elem, elem_of_take in Hx as (j & Hj & _).
      apply list_elem_of_lookup_2, Hdis in Hj. lia.
  - intros x Hx. rewrite <- (take_take_drop A), not_elem_of_app in Hx. destruct Hx as [Hx1 Hx2].
    rewrite Hout by done. apply move_out. intros Hr. by apply Hx1, chunk_elem.
Qed.

Lemma gathered_step :
  gathered (drop (Z.to_nat size) A) (ptr + size) k (move ptr base size m) m' →
  gathered A ptr (size + k) m m'.
Proof using Hpre Hs Hk Hsep.
  destruct Hsep as [Hnd Hdis]. intros [Hin Hout]. unfold gathered.
  rewrite Z2Nat.inj_add by lia. split.
  - intros i a Hi Ha. destruct (decide (i < Z.to_nat size)%nat) as [Hlt | Hge].
    + rewrite (Hpre i Hlt) in Ha. injection Ha as <-.
      rewrite Hout, move_in by lia. f_equal. lia.
    + replace (ptr + Z.of_nat i) with (ptr + size + Z.of_nat (i - Z.to_nat size)) by lia.
      rewrite (Hin (i - Z.to_nat size)%nat a);
        [| lia | rewrite lookup_drop, <- Ha; f_equal; lia].
      apply move_out. apply list_elem_of_lookup_2, Hdis in Ha. lia.
  - intros x Hx. rewrite Hout by lia. apply move_out. lia.
Qed.
End chunk.

(** Both directions of a kernel transfer. *)
Definition transferred (rw : Z) (A : list Z) (ptr k : Z) (m m' : Z → Z) : Prop :=
  if rw =? UIO_READ then scattered A ptr k m m' else gathered A ptr k m m'.

Lemma transferred_0 rw A ptr m : transferred rw A ptr 0 m m.
Proof. unfold transferred, scattered, gathered. case_if; split; (done || intros; lia). Qed.

Lemma moved_trans u u1 u' size k :
  0 <= size → 0 <= k → uio_resid u1 = uio_resid u - size → uio_offset u1 = uio_offset u + size →
  iov_addrs (uio_iov u1) = drop (Z.to_nat size) (iov_addrs (uio_iov u)) →
  moved u1 u' k → moved u u' (size + k).
Proof.
  intros Hs Hk Hr Ho HA (H1 & H2 & H3 & H4). repeat split; try apply H1; try lia.
  rewrite H4, HA, drop_drop. f_equal. lia.
Qed.

Lemma uiomove_loop_sys fuel : ∀ ptr n s,
  uio_ok (u_uio s) → uio_segflg (u_uio s) = UIO_SYSSPACE → 0 <= n →
  separate (iov_addrs (uio_iov (u_uio s))) ptr n →
  (Z.to_nat n + length (uio_iov (u_uio s)) < fuel)%nat →
  let k := n `min` uio_resid (u_uio s) in
  ∃ m' u', uiomove_loop fuel ptr n s = Done 0 (mkU (with_mem m' (u_c s)) u' (u_as s)) ∧
    moved (u_uio s) u' k ∧
    transferred (uio_rw (u_uio s)) (iov_addrs (uio_iov (u_uio s))) ptr k (mem (u_c s)) m'.
Proof.
  induction fuel as [|f IH]; intros ptr n s Hu Hseg Hn Hsep Hf; [lia |]. intros k.
  pose proof (total_nonneg _ (uo_len _ Hu)) as Ht. rewrite <- (uo_resid _ Hu) in Ht.
  destruct (decide (n = 0 ∨ uio_resid (u_uio s) = 0)) as [H0 | H0].
  { exists (mem (u_c s)), (u_uio s). rewrite loop_end_eq by done.
    replace k with 0 by (unfold k; lia). split; [by destruct s as [[]] |].
    split; [by apply moved_0 | apply transferred_0]. }
  pose proof (uo_resid _ Hu) as Hres. pose proof (uo_len _ Hu) as HF.
  destruct (uio_iov (u_uio s)) as [|v l] eqn:El; [simpl in *; lia |].
  apply Forall_cons in HF as [Hv HF]. pose proof (total_nonneg l HF).
  assert (iov_len v <= uio_resid (u_uio s)) as Hvr by (rewrite Hres; simpl; lia).
  destruct (decide (iov_len v = 0)) as [Hz | Hz].
  - destruct (next_iov_ok (u_uio s) v l) as (Hu' & El' & Er'); [done | done | done |].
    assert (length l ≠ 0%nat) as Hl by (destruct l; simpl in *; lia).
    rewrite (loop_skip_eq s ptr n f) with (v := v) (l := l);
      [| lia | lia | done | done | rewrite (uo_cnt _ Hu'), El'; lia].
    assert (iov_addrs (v :: l) = iov_addrs l) as EA by (rewrite iov_addrs_cons, Hz; done).
    rewrite EA in *. destruct (IH ptr n (with_uio (next_iov (u_uio s)) s)) as (m' & u' & E & Hm & Hd);
      cbn [u_uio with_uio] in *; rewrite ?El'; try done; [simpl in Hf; lia |].
    rewrite El', Er' in *. exists m', u'. split; [done |]. split; [| done].
    destruct Hm as (H1 & H2 & H3 & H4). repeat split; try apply H1; try done.
    rewrite H4, El, El', EA. done.
  - set (size := n `min` iov_len v). assert (0 < size <= iov_len v ∧ size <= n) as Hsz by lia.
    rewrite (loop_move_eq s ptr n f) with (v := v) (l := l); [| lia | lia | done | lia | done].
    destruct (consume_ok (u_uio s) v l size) as (Hu' & El' & Er'); [done | done | lia |].
    assert (iov_addrs (uio_iov (consume v size (u_uio s))) =
      drop (Z.to_nat size) (iov_addrs (v :: l))) as EA by (rewrite El', consume_addrs by lia; done).
    destruct (IH (ptr + size) (n - size) (sys_step s ptr v size)) as (m' & u' & E & Hm & Hd);
      cbn [u_uio sys_step]; try done; [lia | | rewrite El'; simpl in *; lia |].
    { rewrite EA. destruct Hsep as [Hnd Hdis]. split.
      { rewrite <- (take_drop (Z.to_nat size)) in Hnd. by apply NoDup_app in Hnd as (_ & _ & ?). }
      intros a (i & Ha)%list_elem_of_lookup. rewrite lookup_drop in Ha.
      apply list_elem_of_lookup_2, Hdis in Ha. lia. }
    cbn [u_uio sys_step] in Hm, Hd. rewrite EA, Er' in *.
    replace ((n - size) `min` (uio_resid (u_uio s) - size)) with (k - size) in * by (unfold k; lia).
    exists m', u'. split; [exact E |]. replace k with (size + (k - size)) by lia.
    split; [eapply moved_trans; [lia | unfold k; lia | exact Er' | done | by rewrite El | done] |].
    assert (∀ i, (i < Z.to_nat size)%nat →
      iov_addrs (v :: l) !! i = Some (iov_base v + Z.of_nat i)) as Hpre.
    { intros i Hi. rewrite iov_addrs_cons, lookup_app_l by (rewrite length_seqZ; lia).
      apply lookup_seqZ. split; lia. }
    unfold transferred in *. cbn [sys_step u_c consume uio_rw mem with_mem] in Hd.
    case_if; [eapply scattered_step | eapply gathered_step]; try done; unfold k; lia.
Qed.

(** A kernel transfer always completes: for a well-formed request whose
    buffers overlap neither each other nor the caller's buffer, [uiomove] moves
    exactly [min n uio_resid] bytes, in order, changes no other memory, and
    accounts for them. *)
Theorem uiomove_kernel s ptr n :
  uio_ok (u_uio s) → uio_segflg (u_uio s) = UIO_SYSSPACE → uio_space (u_uio s) = 0 →
  uio_rw (u_uio s) = UIO_READ ∨ uio_rw (u_uio s) = UIO_WRITE →
  0 <= n → separate (iov_addrs (uio_iov (u_uio s))) ptr n →
  let k := n `min` uio_resid (u_uio s) in
  ∃ m' u', uiomove ptr n s = Done 0 (mkU (with_mem m' (u_c s)) u' (u_as s)) ∧
    moved (u_uio s) u' k ∧
    transferred (uio_rw (u_uio s)) (iov_addrs (uio_iov (u_uio s))) ptr k (mem (u_c s)) m'.
Proof.
  intros Hu Hseg Hsp Hrw Hn Hsep k.
  destruct (uiomove_loop_sys (uiomove_fuel n (u_uio s)) ptr n s) as (m' & u' & E & H);
    try done; [unfold uiomove_fuel; lia |].
  exists m', u'. split; [| done]. rewrite <- E.
  unfold uiomove, gets, mbind, M_bind. rewrite Hseg, Hsp, Z.eqb_refl. by destruct Hrw as [-> | ->].
Qed.

Definition wit_u : ustate :=
  mkU (mkC (λ x, x mod 256) (λ _ _, Refused) false)
      (mkUio [mkIov 100 2; mkIov 300 0; mkIov 200 3] 3 7 5 UIO_SYSSPACE UIO_READ 0) 0.

Lemma wit_u_ok : uio_ok (u_uio wit_u).
Proof. split; simpl; try lia. repeat apply Forall_cons_2; try (simpl; lia). apply Forall_nil_2. Qed.

Lemma uiomove_kernel_witness :
  ∃ m' u', uiomove 1000 4 wit_u = Done 0 (mkU (with_mem m' (u_c wit_u)) u' 0) ∧
    moved (u_uio wit_u) u' 4 ∧
    transferred UIO_READ [100; 101; 200; 201; 202] 1000 4 (mem (u_c wit_u)) m'.
Proof.
  apply (uiomove_kernel wit_u 1000 4);
    [exact wit_u_ok | done | done | by left | lia |]. split.
  - apply (bool_decide_unpack _). vm_compute. exact I.
  - intros a Ha. change (a ∈ [100; 101; 200; 201; 202]) in Ha.
    repeat (apply elem_of_cons in Ha as [-> | Ha]; [lia |]). by apply elem_of_nil in Ha.
Defined.

Lemma uiomove_accounting_witness :
  ∃ r s', uiomove 1000 9 wit_u = Done r s' ∧ uiomove_post (u_uio wit_u) 9 r (u_uio s').
Proof.
  destruct (uiomove 1000 9 wit_u) as [r s' | | |] eqn:E; try discriminate E.
  exists r, s'. split; [reflexivity |].
  apply (uiomove_accounting wit_u s' 1000 9 r); [exact wit_u_ok | lia | exact E].
Defined.
End Uio.
