(* ===== verification/Random.v ===== *)
(** * The random device (dev/generic/random.c, dev/lamebus/lrandom.c, random_lrandom.c)

    The generator card is hardware: a load of its register gives the next word.  The
    theorem: reading the device fills the buffers of the request with the bytes of
    successive words, none repeated or skipped. *)

From stdpp Require Import base list numbers strings.
From Stdlib Require Import ZArith Lia.
From S2P Require Import Prelude CopyInOut Uio.
Import CopyInOut Uio.

#[local] Open Scope Z_scope.

Module Random.

Definition LR_RANDMAX : Z := 0xffffffff.
Definition O_RDONLY : Z := 0.
Definition EIOCTL : Z := 31.
Definition EIO : Z := 32.

(** The card: the value a load of LR_REG_RAND gives, and the card after it. *)
Class RandHw (D : Type) := { rand_load : D → Z * D }.

(** Memory, the request in progress, and the card. *)
Record world (D : Type) := mkW { r_u : ustate; r_hw : D }.
Arguments mkW {D}. Arguments r_u {D}. Arguments r_hw {D}.

Section random.
Context {D : Type} `{!RandHw D}.
Abbreviation R := (M (world D)).

Definition with_u (u : ustate) (w : world D) := mkW u (r_hw w).
Definition on_u {A} (m : U A) : R A := zoom r_u with_u m.

(** ** lrandom.c *)

Definition config_lrandom (lrandomno : Z) : R Z := mret 0.

Definition bus_read_register : R Z :=
  v ← gets (λ w, rand_load (r_hw w));
  modify (λ w, mkW (r_u w) v.2) ;; mret (u32 v.1).

Definition lrandom_random : R Z := bus_read_register.
Definition lrandom_randmax : R Z := mret LR_RANDMAX.

(** The bytes of a word in memory, most significant first. *)
Definition word_byte (val i : Z) : Z := u8 (Z.shiftr val (8 * (3 - i))).
Definition store_word (ptr val : Z) (m : Z → Z) : Z → Z := λ x,
  if (ptr <=? x) && (x <? ptr + 4) then word_byte val (x - ptr) else m x.

(** [valp]: the address of the local variable [val]. *)
Fixpoint read_loop (fuel : nat) (valp : Z) : R Z :=
  match fuel with
  | O => nofuel
  | S fuel' =>
      resid ← gets (λ w, uio_resid (u_uio (r_u w)));
      if 0 <? resid then
        val ← bus_read_register;
        modify (λ w, with_u (with_c (with_mem (store_word valp val (mem (u_c (r_u w)))) (u_c (r_u w))) (r_u w)) w) ;;
        result ← on_u (uiomove valp 4);
        if negb (result =? 0) then mret result else read_loop fuel' valp
      else mret 0
  end.

(** Every turn of the loop moves a byte at least. *)
Definition lrandom_read (valp : Z) : R Z :=
  resid ← gets (λ w, uio_resid (u_uio (r_u w)));
  read_loop (S (Z.to_nat resid)) valp.

(** ** random.c *)

Record random_softc := mkRs {
  rs_random : R Z;
  rs_randmax : R Z;
  rs_read : R Z
}.

(** [mem]: the result of kmalloc. *)
Definition attach_random_to_lrandom (randomno mem valp : Z) : option random_softc :=
  if mem =? 0 then None else Some (mkRs lrandom_random lrandom_randmax (lrandom_read valp)).

Definition randeachopen (openflags : Z) : R Z :=
  if negb (openflags =? O_RDONLY) then mret EIO else mret 0.
Definition randio (rs : random_softc) : R Z :=
  rw ← gets (λ w, uio_rw (u_uio (r_u w)));
  if negb (rw =? UIO_READ) then mret EIO else rs_read rs.
Definition randioctl (op : Z) : R Z := mret EIOCTL.

(** The new value of the_random and the result; [added] is the result of vfs_adddev. *)
Definition config_random (rs : random_softc) (unit_ added : Z) (the_random : option random_softc)
    : outcome (option random_softc) Z :=
  if negb (unit_ =? 0) then Done ENODEV the_random
  else match the_random with
       | None => Done added (Some rs)
       | Some _ => Panic "the_random==NULL"
       end.

Definition random (the_random : option random_softc) : R Z :=
  match the_random with Some rs => rs_random rs | None => panic "No random device" end.
Definition randmax (the_random : option random_softc) : R Z :=
  match the_random with Some rs => rs_randmax rs | None => panic "No random device" end.

(** ** Reading *)

(** The words the card gives from [d] on, and their bytes one after another. *)
Fixpoint later (n : nat) (d : D) : D := match n with O => d | S n' => later n' (rand_load d).2 end.
Definition word (n : nat) (d : D) : Z := u32 (rand_load (later n d)).1.
Definition stream (d : D) (i : nat) : Z := word_byte (word (i / 4) d) (Z.of_nat (i mod 4)).

(** The request's memory after its first [k] bytes have been filled from [d]. *)
Definition filled (A : list Z) (valp : Z) (k : nat) (d : D) (m m' : Z → Z) : Prop :=
  (∀ i a, (i < k)%nat → A !! i = Some a → m' a = stream d i) ∧
  (∀ x, x ∉ take k A → ¬ (valp <= x < valp + 4) → m' x = m x).

Lemma stream_later d i : stream d (4 + i) = stream (rand_load d).2 i.
Proof.
  unfold stream, word. replace ((4 + i) / 4)%nat with (S (i / 4)).
  2: { replace (4 + i)%nat with (i + 1 * 4)%nat by lia. rewrite Nat.div_add by lia. lia. }
  replace ((4 + i) mod 4)%nat with (i mod 4)%nat; [done |].
  replace (4 + i)%nat with (i + 1 * 4)%nat by lia. by rewrite Nat.Div0.mod_add.
Qed.

Lemma stream_first d i : (i < 4)%nat → stream d i = word_byte (u32 (rand_load d).1) (Z.of_nat i).
Proof. intros Hi. unfold stream, word. by rewrite Nat.div_small, Nat.mod_small by done. Qed.

Lemma filled_step A valp k n d m m1 m' :
  separate A valp 4 → (k = Nat.min 4 n)%nat → (n <= length A)%nat →
  (∀ i a, (i < k)%nat → A !! i = Some a → m1 a = word_byte (u32 (rand_load d).1) (Z.of_nat i)) →
  (∀ x, x ∉ take k A → ¬ (valp <= x < valp + 4) → m1 x = m x) →
  filled (drop k A) valp (n - k) (rand_load d).2 m1 m' →
  filled A valp n d m m'.
Proof.
  intros [Hnd Hdis] Hk Hn H1 H2 [H3 H4]. split.
  - intros i a Hi Ha. destruct (decide (i < k)%nat) as [Hlt | Hge].
    + rewrite H4; [rewrite stream_first by lia; by apply H1 | | by apply Hdis, list_elem_of_lookup; exists i].
      intros (j & Hj)%list_elem_of_lookup. apply lookup_take_Some in Hj as [Hj _]. rewrite lookup_drop in Hj.
      pose proof (NoDup_lookup _ _ _ _ Hnd Hj Ha). lia.
    + replace i with (4 + (i - k))%nat by lia. rewrite stream_later. apply H3; [lia |].
      rewrite lookup_drop, <- Ha. f_equal. lia.
  - intros x Hx Hv. replace n with (k + (n - k))%nat in Hx by lia.
    rewrite <- take_take_drop, not_elem_of_app in Hx. destruct Hx. rewrite H4 by done. by apply H2.
Qed.

(** uiomove does not change where the request's buffers are or its direction. *)
Definition kind (s : ustate) : Z * Z * Z := (uio_segflg (u_uio s), uio_space (u_uio s), uio_rw (u_uio s)).

Lemma uiomove_keeps_kind ptr n : keeps kind (uiomove ptr n).
Proof.
  assert (∀ fuel ptr n, keeps kind (uiomove_loop fuel ptr n)) as Hl.
  { induction fuel as [|fuel IH]; intros p m; [apply keeps_nofuel |]. cbn [uiomove_loop]. unfold transfer, on_c, memmove.
    repeat (keeps_step || apply IH || (apply keeps_modify; done) || (apply keeps_zoom; done) || solve [auto with keeps]). }
  unfold uiomove. repeat (keeps_step || apply Hl || solve [auto with keeps]).
Qed.

Lemma random_loop_run valp fuel : ∀ w,
  let u := u_uio (r_u w) in
  uio_ok u → uio_segflg u = UIO_SYSSPACE → uio_space u = 0 → uio_rw u = UIO_READ →
  separate (iov_addrs (uio_iov u)) valp 4 → (Z.to_nat (uio_resid u) < fuel)%nat →
  ∃ m' u', read_loop fuel valp w =
      Done 0 (mkW (mkU (with_mem m' (u_c (r_u w))) u' (u_as (r_u w)))
                  (later ((Z.to_nat (uio_resid u) + 3) / 4) (r_hw w))) ∧
    moved u u' (uio_resid u) ∧
    filled (iov_addrs (uio_iov u)) valp (Z.to_nat (uio_resid u)) (r_hw w) (mem (u_c (r_u w))) m'.
Proof.
  induction fuel as [|fuel IH]; intros w u Hok Hseg Hsp Hrw Hsep Hf; [lia |].
  pose proof (length_iov_addrs _ (uo_len _ Hok)) as Hlen. rewrite <- (uo_resid _ Hok) in Hlen.
  cbn [read_loop]. unfold gets at 1. unfold mbind at 1, M_bind at 1. fold u.
  destruct (Z.ltb_spec 0 (uio_resid u)) as [Hpos | Hz].
  2: { assert (uio_resid u = 0) as E0 by lia. exists (mem (u_c (r_u w))), u. rewrite E0. split; [by destruct w as [[[]]] |].
       split; [by apply moved_0 |]. split; [intros; lia | done]. }
  unfold bus_read_register, gets, modify, mbind, M_bind, mret, M_ret. cbn [r_u r_hw with_u].
  set (val := u32 (rand_load (r_hw w)).1). set (w1 := with_c _ (r_u w)).
  destruct (uiomove_kernel w1 valp 4) as (m1 & u1 & E1 & Hm1 & Ht); [done | done | done | by left | lia | done |].
  change (u_uio w1) with u in *. unfold on_u, zoom. cbn [r_u with_u r_hw]. rewrite E1. cbn [Z.eqb negb r_u r_hw with_u].
  unfold transferred in Ht. rewrite Hrw in Ht. destruct Ht as [Hin Hout].
  pose proof Hm1 as (Hok1 & Hr1 & Ho1 & HA1). set (k := 4 `min` uio_resid u) in *.
  pose proof (keeps_done _ _ _ _ _ (uiomove_keeps_kind valp 4) E1) as Ek. injection Ek as Es1 Ep1 Ew1.
  destruct (IH (mkW (mkU (with_mem m1 (u_c w1)) u1 (u_as w1)) (rand_load (r_hw w)).2)) as (m' & u' & E & Hm & Hfill);
    cbn [r_u u_uio]; [done | by rewrite Es1 | by rewrite Ep1 | by rewrite Ew1 | | lia |].
  { rewrite HA1. destruct Hsep as [Hnd Hdis]. split.
    - rewrite <- (take_drop (Z.to_nat k)) in Hnd. by apply NoDup_app in Hnd as (_ & _ & ?).
    - intros a (i & Ha)%list_elem_of_lookup. rewrite lookup_drop in Ha. by eapply Hdis, list_elem_of_lookup_2. }
  exists m', u'. cbn [r_u r_hw u_uio u_c u_as] in *. rewrite Hr1, HA1 in *.
  replace (Z.to_nat (uio_resid u - k)) with (Z.to_nat (uio_resid u) - Z.to_nat k)%nat in * by lia.
  split; [| split].
  - refine (eq_trans E _). assert (((Z.to_nat (uio_resid u) + 3) / 4)%nat =
      S ((Z.to_nat (uio_resid u) - Z.to_nat k + 3) / 4)) as Ed; [| by rewrite Ed].
    destruct (decide (4 <= uio_resid u)).
    + replace (Z.to_nat (uio_resid u) + 3)%nat with (Z.to_nat (uio_resid u) - Z.to_nat k + 3 + 1 * 4)%nat by lia.
      rewrite Nat.div_add by lia. lia.
    + replace (Z.to_nat (uio_resid u) - Z.to_nat k)%nat with 0%nat by lia.
      replace (Z.to_nat (uio_resid u) + 3)%nat with (Z.to_nat (uio_resid u) - 1 + 1 * 4)%nat by lia.
      rewrite Nat.div_add, !Nat.div_small by lia. done.
  - assert (uio_resid u = k + (uio_resid u - k)) as Es by lia. rewrite Es at 1.
    by eapply moved_trans; [lia | lia | done..].
  - apply (filled_step _ _ (Z.to_nat k) _ _ _ m1); [done | lia | lia | | | done].
    + intros i a Hi Ha. rewrite (Hin i a Hi Ha). cbn. unfold store_word.
      rewrite (proj2 (Z.leb_le _ _)), (proj2 (Z.ltb_lt _ _)) by lia. cbn. f_equal. lia.
    + intros x Hx Hv. rewrite (Hout x Hx). cbn. unfold store_word.
      destruct (Z.leb_spec valp x), (Z.ltb_spec x (valp + 4)); done || lia.
Qed.

(** A read of the random device into kernel buffers that overlap neither each other nor
    the driver's own variable always completes: it returns 0, the buffers hold, in order,
    exactly the bytes of the next words of the generator, of which no more are drawn than
    are needed, and no other memory is changed.  Anything but a read fails with EIO and
    changes nothing. *)
Theorem random_device mem valp rs w :
  attach_random_to_lrandom 0 mem valp = Some rs →
  let u := u_uio (r_u w) in
  let n := Z.to_nat (uio_resid u) in
  uio_ok u → uio_segflg u = UIO_SYSSPACE → uio_space u = 0 → separate (iov_addrs (uio_iov u)) valp 4 →
  if uio_rw u =? UIO_READ then
    ∃ m' u', randio rs w =
        Done 0 (mkW (mkU (with_mem m' (u_c (r_u w))) u' (u_as (r_u w))) (later ((n + 3) / 4) (r_hw w))) ∧
      moved u u' (uio_resid u) ∧ filled (iov_addrs (uio_iov u)) valp n (r_hw w) (CopyInOut.mem (u_c (r_u w))) m'
  else randio rs w = Done EIO w.
Proof.
  intros Ha u n Hok Hseg Hsp Hsep. unfold attach_random_to_lrandom in Ha.
  destruct (mem =? 0); [done |]. injection Ha as <-.
  unfold randio, gets, mbind, M_bind. fold u. destruct (Z.eqb_spec (uio_rw u) UIO_READ) as [Hrw |]; [| done].
  cbn [negb rs_read]. unfold lrandom_read, gets, mbind, M_bind. by apply random_loop_run; [.. | fold u; lia].
Qed.
End random.

(** ** A generator that counts *)

#[export] Instance w_gen : RandHw Z := {| rand_load d := (0x01020304 * d, d + 1) |}.
Definition w_world : world Z :=
  mkW (mkU (mkC (λ _, 0) (λ _ _, Refused) false)
         (mkUio [mkIov 100 2; mkIov 200 4] 2 0 6 UIO_SYSSPACE UIO_READ 0) 0) 1.

Lemma random_device_witness :
  ∃ m' u', randio (mkRs lrandom_random lrandom_randmax (lrandom_read 1000)) w_world =
      Done 0 (mkW (mkU (with_mem m' (u_c (r_u w_world))) u' 0) 3) ∧
    m' 101 = 2 ∧ m' 201 = 4 ∧ m' 203 = 4.
Proof.
  destruct (random_device 4096 1000 (mkRs lrandom_random lrandom_randmax (lrandom_read 1000)) w_world)
    as (m' & u' & E & _ & Hf & _); [done | | done | done | |].
  - split; try done. repeat constructor; cbn; lia.
  - split; [apply (bool_decide_unpack _); vm_compute; exact I |].
    intros a Ha. change (a ∈ [100; 101; 200; 201; 202; 203]) in Ha.
    repeat (apply elem_of_cons in Ha as [-> | Ha]; [lia |]). by apply elem_of_nil in Ha.
  - exists m', u'. split; [exact E |].
    split; [exact (Hf 1%nat 101 ltac:(cbn; lia) eq_refl) |].
    split; [exact (Hf 3%nat 201 ltac:(cbn; lia) eq_refl) | exact (Hf 5%nat 203 ltac:(cbn; lia) eq_refl)].
Defined.

End Random.
