(* ===== verification/Vnode.v ===== *)
(** * Vnodes and devices (vfs/vnode.c, vfs/device.c, vfs/devnull.c, vfs/vfsfail.c)

    A vnode is a reference-counted object with a table of operations.  The
    state of the VFS layer holds the vnodes by address, the devices, the
    device list of vfslist.c, the two global vnode pointers (the boot file
    system and the current directory of the running process), the depth of the
    big lock, and the part [W] that belongs to the file systems and the
    kernel heap.

    Device vnodes have the operations of device.c.  The operations of the
    vnodes of a file system, and those of a file system itself, are the class
    [FileSystem]; the heap and [uiomove] are the class [Kernel]. *)

From stdpp Require Import base list gmap numbers strings sets.
From Stdlib Require Import ZArith Lia.
From S2P Require Import Prelude Uio.
Import Uio.

#[local] Open Scope Z_scope.

Module Vnode.

Definition EPERM : Z := 9.
Definition EISDIR : Z := 18.
Definition EXDEV : Z := 24.
Definition ENXIO : Z := 26.

Definition O_RDONLY : Z := 0.
Definition O_WRONLY : Z := 1.
Definition O_RDWR : Z := 2.
Definition O_CREAT : Z := 4.
Definition O_EXCL : Z := 8.
Definition O_TRUNC : Z := 16.
Definition O_APPEND : Z := 32.
Definition O_ACCMODE : Z := 3.

(** include/kern/stattypes.h (octal 020000, 060000, 070000) *)
Definition S_IFDIR : Z := 0x2000.
Definition S_IFCHR : Z := 0x6000.
Definition S_IFBLK : Z := 0x7000.

Definition NAME_MAX : Z := 255.

(** ** Data *)

(** The function tables a vnode can point to. *)
Inductive vnode_ops := dev_vnode_ops | fs_vnode_ops (table : Z).
Inductive device_ops := null_devops | drv_devops (table : Z).
#[export] Instance vnode_ops_eq_dec : EqDecision vnode_ops.
Proof. solve_decision. Defined.
#[export] Instance device_ops_eq_dec : EqDecision device_ops.
Proof. solve_decision. Defined.

Record vnode := mkVnode {
  vn_refcount : Z;
  vn_fs : Z;
  vn_data : Z;
  vn_ops : vnode_ops
}.

Record device := mkDevice {
  d_ops : device_ops;
  d_blocks : Z;
  d_blocksize : Z;
  d_devnumber : Z;
  d_data : Z
}.

Record knowndev := mkKd {
  kd_name : string;
  kd_rawname : option string;
  kd_device : Z;
  kd_vnode : Z;
  kd_fs : Z
}.

(** The fields of [struct stat] that [dev_stat] sets. *)
Record stat := mkStat {
  st_size : Z;
  st_mode : Z;
  st_nlink : Z;
  st_blocks : Z;
  st_dev : Z;
  st_rdev : Z;
  st_blksize : Z
}.

(** [warned] are the vnodes whose [VOP_RECLAIM] failed, one entry for each
    warning that [vnode_decref] printed. *)
Record vfs (W : Type) := mkVfs {
  vnodes : gmap Z vnode;
  devices : gmap Z device;
  knowndevs : list knowndev;
  knowndevs_v : Z;
  knowndevs_max : Z;
  bootfs_vnode : Z;
  p_cwd : Z;
  vfs_biglock_depth : Z;
  warned : list Z;
  world : W
}.
Arguments mkVfs {_}.
Arguments vnodes {_} _.
Arguments devices {_} _.
Arguments knowndevs {_} _.
Arguments knowndevs_v {_} _.
Arguments knowndevs_max {_} _.
Arguments bootfs_vnode {_} _.
Arguments p_cwd {_} _.
Arguments vfs_biglock_depth {_} _.
Arguments warned {_} _.
Arguments world {_} _.

Section setters.
Context {W : Type}.
Implicit Types s : vfs W.
Definition with_vnodes x s := mkVfs x (devices s) (knowndevs s) (knowndevs_v s) (knowndevs_max s) (bootfs_vnode s) (p_cwd s)
  (vfs_biglock_depth s) (warned s) (world s).
Definition with_devices x s := mkVfs (vnodes s) x (knowndevs s) (knowndevs_v s) (knowndevs_max s) (bootfs_vnode s) (p_cwd s)
  (vfs_biglock_depth s) (warned s) (world s).
Definition with_knowndevs x s := mkVfs (vnodes s) (devices s) x (knowndevs_v s) (knowndevs_max s) (bootfs_vnode s) (p_cwd s)
  (vfs_biglock_depth s) (warned s) (world s).
Definition with_knowndevs_v x n s := mkVfs (vnodes s) (devices s) (knowndevs s) x n
  (bootfs_vnode s) (p_cwd s) (vfs_biglock_depth s) (warned s) (world s).
Definition with_bootfs x s := mkVfs (vnodes s) (devices s) (knowndevs s) (knowndevs_v s) (knowndevs_max s) x (p_cwd s)
  (vfs_biglock_depth s) (warned s) (world s).
Definition with_cwd x s := mkVfs (vnodes s) (devices s) (knowndevs s) (knowndevs_v s) (knowndevs_max s) (bootfs_vnode s) x
  (vfs_biglock_depth s) (warned s) (world s).
Definition with_depth x s := mkVfs (vnodes s) (devices s) (knowndevs s) (knowndevs_v s) (knowndevs_max s) (bootfs_vnode s)
  (p_cwd s) x (warned s) (world s).
Definition with_warned x s := mkVfs (vnodes s) (devices s) (knowndevs s) (knowndevs_v s) (knowndevs_max s) (bootfs_vnode s)
  (p_cwd s) (vfs_biglock_depth s) x (world s).
Definition with_world (x : W) s := mkVfs (vnodes s) (devices s) (knowndevs s) (knowndevs_v s) (knowndevs_max s) (bootfs_vnode s)
  (p_cwd s) (vfs_biglock_depth s) (warned s) x.
End setters.

(** ** What the layer is used with *)

(** The kernel heap and the copying of kernel bytes to a request. *)
Class Kernel (W : Type) := {
  kmalloc : Z → M (vfs W) Z;
  kfree : Z → M (vfs W) unit;
  uiomove : list Z → uio → M (vfs W) (Z * uio)
}.

(** The operations of the vnodes that belong to file systems, of file systems,
    and of the devices other than [null:].  Functions that hand back a vnode
    return the error code and the vnode. *)
Class FileSystem (W : Type) := {
  fs_eachopen : Z → Z → M (vfs W) Z;
  fs_reclaim : Z → M (vfs W) Z;
  fs_readlink : Z → uio → M (vfs W) (Z * uio);
  fs_namefile : Z → uio → M (vfs W) (Z * uio);
  fs_gettype : Z → M (vfs W) (Z * Z);
  fs_truncate : Z → Z → M (vfs W) Z;
  fs_creat : Z → string → bool → Z → M (vfs W) (Z * Z);
  fs_symlink : Z → string → string → M (vfs W) Z;
  fs_mkdir : Z → string → Z → M (vfs W) Z;
  fs_link : Z → string → Z → M (vfs W) Z;
  fs_remove : Z → string → M (vfs W) Z;
  fs_rmdir : Z → string → M (vfs W) Z;
  fs_rename : Z → string → Z → string → M (vfs W) Z;
  fs_lookup : Z → string → M (vfs W) (Z * Z);
  fs_lookparent : Z → string → Z → M (vfs W) (Z * Z * string);
  FSOP_SYNC : Z → M (vfs W) Z;
  FSOP_GETVOLNAME : Z → vfs W → option string;
  FSOP_GETROOT : Z → M (vfs W) (Z * Z);
  FSOP_UNMOUNT : Z → M (vfs W) Z;
  drv_eachopen : Z → Z → M (vfs W) Z;
  drv_io : Z → uio → M (vfs W) (Z * uio);
  drv_ioctl : Z → Z → Z → M (vfs W) Z
}.

Section vnode.
Context {W : Type} `{!Kernel W, !FileSystem W}.
Abbreviation V := (M (vfs W)).

(** ** The big lock (vfslist.c)

    The locks of synch.c are stubs: [lock_acquire] and [lock_release] do
    nothing and [lock_do_i_hold] is true, so the depth is all there is. *)

Definition lock_do_i_hold : bool := true.

Definition vfs_biglock_acquire : V unit :=
  modify (λ s, with_depth (u32 (vfs_biglock_depth s + 1)) s).

Definition vfs_biglock_release : V unit :=
  kassert lock_do_i_hold "lock_do_i_hold(vfs_biglock)" ;;
  d ← gets vfs_biglock_depth;
  kassert (0 <? d) "vfs_biglock_depth > 0" ;;
  modify (with_depth (d - 1)).

Definition vfs_biglock_do_i_hold : bool := lock_do_i_hold.

(** ** vnode.c *)

Definition get_vnode (vn : Z) : V vnode := deref (λ s, vnodes s !! vn) "bad vnode pointer".
Definition set_vnode (vn : Z) (v : vnode) : V unit :=
  modify (λ s, with_vnodes (<[vn := v]> (vnodes s)) s).
Definition with_refcount (n : Z) (v : vnode) := mkVnode n (vn_fs v) (vn_data v) (vn_ops v).

Definition vnode_init (vn : Z) (ops : vnode_ops) (fs fsdata : Z) : V Z :=
  kassert (negb (vn =? 0)) "vn != NULL" ;;
  set_vnode vn (mkVnode 1 fs fsdata ops) ;;
  mret 0.

(** Afterwards the fields are cleared and the caller frees the structure. *)
Definition vnode_cleanup (vn : Z) : V unit :=
  v ← get_vnode vn;
  kassert (vn_refcount v =? 1) "vn->vn_refcount == 1" ;;
  modify (λ s, with_vnodes (delete vn (vnodes s)) s).

Definition vnode_incref (vn : Z) : V unit :=
  kassert (negb (vn =? 0)) "vn != NULL" ;;
  v ← get_vnode vn;
  set_vnode vn (with_refcount (s32 (vn_refcount v + 1)) v).

Definition vnode_check (vn : Z) : V vnode :=
  if vn =? 0 then panic "vnode_check: null vnode"
  else if vn =? 0xdeadbeef then panic "vnode_check: deadbeef vnode"
  else
    v ← get_vnode vn;
    if vn_fs v =? 0xdeadbeef then panic "vnode_check: deadbeef fs pointer"
    else if vn_refcount v <? 0 then panic "vnode_check: negative refcount"
    else if vn_refcount v =? 0 then panic "vnode_check: zero refcount"
    else mret v.

(** *** Routines that fail (vfsfail.c) *)

Definition vopfail_uio_notdir (vn : Z) (u : uio) : V (Z * uio) := mret (ENOTDIR, u).
Definition vopfail_uio_isdir (vn : Z) (u : uio) : V (Z * uio) := mret (EISDIR, u).
Definition vopfail_uio_inval (vn : Z) (u : uio) : V (Z * uio) := mret (EINVAL, u).
Definition vopfail_uio_nosys (vn : Z) (u : uio) : V (Z * uio) := mret (ENOSYS, u).
Definition vopfail_mmap_isdir (vn : Z) : V Z := mret EISDIR.
Definition vopfail_mmap_perm (vn : Z) : V Z := mret EPERM.
Definition vopfail_mmap_nosys (vn : Z) : V Z := mret ENOSYS.
Definition vopfail_truncate_isdir (vn pos : Z) : V Z := mret EISDIR.
Definition vopfail_creat_notdir (vn : Z) (name : string) (excl : bool) (mode : Z) : V (Z * Z) :=
  mret (ENOTDIR, 0).
Definition vopfail_symlink_notdir (vn : Z) (contents name : string) : V Z := mret ENOTDIR.
Definition vopfail_symlink_nosys (vn : Z) (contents name : string) : V Z := mret ENOSYS.
Definition vopfail_mkdir_notdir (vn : Z) (name : string) (mode : Z) : V Z := mret ENOTDIR.
Definition vopfail_mkdir_nosys (vn : Z) (name : string) (mode : Z) : V Z := mret ENOSYS.
Definition vopfail_link_notdir (dir : Z) (name : string) (file : Z) : V Z := mret ENOTDIR.
Definition vopfail_link_nosys (dir : Z) (name : string) (file : Z) : V Z := mret ENOSYS.
Definition vopfail_string_notdir (vn : Z) (name : string) : V Z := mret ENOTDIR.
Definition vopfail_string_nosys (vn : Z) (name : string) : V Z := mret ENOSYS.
Definition vopfail_rename_notdir (fromdir : Z) (fromname : string) (todir : Z)
    (toname : string) : V Z := mret ENOTDIR.
Definition vopfail_rename_nosys (fromdir : Z) (fromname : string) (todir : Z)
    (toname : string) : V Z := mret ENOSYS.
Definition vopfail_lookup_notdir (vn : Z) (path : string) : V (Z * Z) := mret (ENOTDIR, 0).
Definition vopfail_lookparent_notdir (vn : Z) (path : string) (len : Z) : V (Z * Z * string) :=
  mret (ENOTDIR, 0, "").

(** ** Devices *)

Definition get_device (d : Z) : V device := deref (λ s, devices s !! d) "bad device pointer".

(** *** The null device (devnull.c) *)

Definition nullopen (dev openflags : Z) : V Z := mret 0.

(** A write takes everything without looking at it, a read hits end of file. *)
Definition nullio (dev : Z) (u : uio) : V (Z * uio) :=
  if uio_rw u =? UIO_WRITE then
    mret (0, mkUio (uio_iov u) (uio_iovcnt u) (uio_offset u) 0 (uio_segflg u) (uio_rw u)
               (uio_space u))
  else mret (0, u).

Definition nullioctl (dev op data : Z) : V Z := mret EINVAL.

Definition DEVOP_EACHOPEN (d flags : Z) : V Z :=
  dev ← get_device d;
  match d_ops dev with null_devops => nullopen d flags | drv_devops _ => drv_eachopen d flags end.
Definition DEVOP_IO (d : Z) (u : uio) : V (Z * uio) :=
  dev ← get_device d;
  match d_ops dev with null_devops => nullio d u | drv_devops _ => drv_io d u end.
Definition DEVOP_IOCTL (d op data : Z) : V Z :=
  dev ← get_device d;
  match d_ops dev with null_devops => nullioctl d op data | drv_devops _ => drv_ioctl d op data end.

(** *** Vnode operations for devices (device.c) *)

Definition vnode_device (v : Z) : V Z := vn ← get_vnode v; mret (vn_data vn).

Definition dev_eachopen (v flags : Z) : V Z :=
  d ← vnode_device v;
  if negb (Z.land flags (Z.lor (Z.lor O_CREAT O_TRUNC) (Z.lor O_EXCL O_APPEND)) =? 0)
  then mret EINVAL
  else DEVOP_EACHOPEN d flags.

Definition dev_reclaim (v : Z) : V Z := mret 0.

(** [off_t] is signed: the remainder and the quotient truncate. *)
Definition dev_tryseek (d : device) (pos : Z) : Z :=
  if 0 <? d_blocks d then
    if negb (Z.rem pos (d_blocksize d) =? 0) then EINVAL
    else if d_blocks d <=? Z.quot pos (d_blocksize d) then EINVAL
    else 0
  else 0.

Definition dev_read (v : Z) (u : uio) : V (Z * uio) :=
  d ← vnode_device v;
  dev ← get_device d;
  let result := dev_tryseek dev (uio_offset u) in
  if negb (result =? 0) then mret (result, u)
  else
    kassert (uio_rw u =? UIO_READ) "uio->uio_rw == UIO_READ" ;;
    DEVOP_IO d u.

Definition dev_write (v : Z) (u : uio) : V (Z * uio) :=
  d ← vnode_device v;
  dev ← get_device d;
  let result := dev_tryseek dev (uio_offset u) in
  if negb (result =? 0) then mret (result, u)
  else
    kassert (uio_rw u =? UIO_WRITE) "uio->uio_rw == UIO_WRITE" ;;
    DEVOP_IO d u.

Definition dev_ioctl (v op data : Z) : V Z :=
  d ← vnode_device v;
  DEVOP_IOCTL d op data.

Definition dev_gettype (v : Z) : V (Z * Z) :=
  d ← vnode_device v;
  dev ← get_device d;
  mret (0, if 0 <? d_blocks dev then S_IFBLK else S_IFCHR).

(** The size is a product of two 32-bit numbers. *)
Definition dev_stat (v : Z) : V (Z * stat) :=
  d ← vnode_device v;
  dev ← get_device d;
  vnode_check v ;;
  '(result, ty) ← dev_gettype v;
  mret (result,
    mkStat (if 0 <? d_blocks dev then u32 (d_blocks dev * d_blocksize dev) else 0)
      (Z.lor ty 384) 1 (d_blocks dev) 0 (d_devnumber dev)
      (if 0 <? d_blocks dev then d_blocksize dev else 0)).

Definition dev_isseekable (v : Z) : V bool :=
  d ← vnode_device v;
  dev ← get_device d;
  mret (negb (d_blocks dev =? 0)).

Definition null_fsync (v : Z) : V Z := mret 0.
Definition dev_mmap (v : Z) : V Z := mret ENOSYS.

Definition dev_truncate (v len : Z) : V Z :=
  d ← vnode_device v;
  dev ← get_device d;
  if (0 <? d_blocks dev) && (u32 (d_blocks dev * d_blocksize dev) =? len)
  then mret 0 else mret EINVAL.

Definition dev_namefile (v : Z) (u : uio) : V (Z * uio) := mret (0, u).

Definition dev_lookup (dir : Z) (pathname : string) : V (Z * Z) :=
  if Nat.ltb 0 (String.length pathname) then mret (ENOENT, 0)
  else vnode_incref dir ;; mret (0, dir).

Definition SIZEOF_VNODE : Z := 24.
Definition SIZEOF_DEVICE : Z := 20.

Definition dev_create_vnode (dev : Z) : V Z :=
  v ← kmalloc SIZEOF_VNODE;
  if v =? 0 then mret 0
  else
    result ← vnode_init v dev_vnode_ops 0 dev;
    if negb (result =? 0) then panic "While creating vnode for device: vnode_init"
    else mret v.

Definition dev_uncreate_vnode (vn : Z) : V unit :=
  v ← get_vnode vn;
  kassert (bool_decide (vn_ops v = dev_vnode_ops)) "vn->vn_ops == &dev_vnode_ops" ;;
  vnode_cleanup vn ;;
  kfree vn.

(** ** The operations of a vnode

    [VOP_X] checks the vnode and calls through its table; the table of device
    vnodes is [dev_vnode_ops] of device.c. *)

Definition vop {A} (vn : Z) (dev fs : V A) : V A :=
  v ← vnode_check vn;
  match vn_ops v with dev_vnode_ops => dev | fs_vnode_ops _ => fs end.

Definition VOP_EACHOPEN (vn flags : Z) : V Z := vop vn (dev_eachopen vn flags) (fs_eachopen vn flags).
Definition VOP_RECLAIM (vn : Z) : V Z := vop vn (dev_reclaim vn) (fs_reclaim vn).
Definition VOP_READLINK (vn : Z) (u : uio) : V (Z * uio) :=
  vop vn (vopfail_uio_inval vn u) (fs_readlink vn u).
Definition VOP_NAMEFILE (vn : Z) (u : uio) : V (Z * uio) :=
  vop vn (dev_namefile vn u) (fs_namefile vn u).
Definition VOP_GETTYPE (vn : Z) : V (Z * Z) := vop vn (dev_gettype vn) (fs_gettype vn).
Definition VOP_TRUNCATE (vn pos : Z) : V Z := vop vn (dev_truncate vn pos) (fs_truncate vn pos).
Definition VOP_CREAT (vn : Z) (nm : string) (excl : bool) (mode : Z) : V (Z * Z) :=
  vop vn (vopfail_creat_notdir vn nm excl mode) (fs_creat vn nm excl mode).
(** The macro passes the name first, the function type has the contents first. *)
Definition VOP_SYMLINK (vn : Z) (name content : string) : V Z :=
  vop vn (vopfail_symlink_notdir vn name content) (fs_symlink vn name content).
Definition VOP_MKDIR (vn : Z) (name : string) (mode : Z) : V Z :=
  vop vn (vopfail_mkdir_notdir vn name mode) (fs_mkdir vn name mode).
Definition VOP_LINK (vn : Z) (name : string) (vn2 : Z) : V Z :=
  vop vn (vopfail_link_notdir vn name vn2) (fs_link vn name vn2).
Definition VOP_REMOVE (vn : Z) (name : string) : V Z :=
  vop vn (vopfail_string_notdir vn name) (fs_remove vn name).
Definition VOP_RMDIR (vn : Z) (name : string) : V Z :=
  vop vn (vopfail_string_notdir vn name) (fs_rmdir vn name).
Definition VOP_RENAME (vn1 : Z) (name1 : string) (vn2 : Z) (name2 : string) : V Z :=
  vop vn1 (vopfail_rename_notdir vn1 name1 vn2 name2) (fs_rename vn1 name1 vn2 name2).
Definition VOP_LOOKUP (vn : Z) (name : string) : V (Z * Z) :=
  vop vn (dev_lookup vn name) (fs_lookup vn name).
Definition VOP_LOOKPARENT (vn : Z) (name : string) (len : Z) : V (Z * Z * string) :=
  vop vn (vopfail_lookparent_notdir vn name len) (fs_lookparent vn name len).

Definition VOP_INCREF (vn : Z) : V unit := vnode_incref vn.

Definition vnode_decref (vn : Z) : V unit :=
  kassert (negb (vn =? 0)) "vn != NULL" ;;
  v ← get_vnode vn;
  kassert (0 <? vn_refcount v) "vn->vn_refcount > 0" ;;
  if 1 <? vn_refcount v then set_vnode vn (with_refcount (vn_refcount v - 1) v)
  else
    result ← VOP_RECLAIM vn;
    if negb (result =? 0) && negb (result =? EBUSY)
    then modify (λ s, with_warned (vn :: warned s) s)
    else mret tt.
Definition VOP_DECREF (vn : Z) : V unit := vnode_decref vn.

End vnode.
End Vnode.
