(* ===== verification/VfsList.v ===== *)
(** * The list of named devices (vfs/vfslist.c)

    [knowndevs] is the table of names before the colon of a path.  A mountable
    device has a raw name; [kd_fs] is the mounted file system, NULL, or
    [SWAP_FS] when the device holds swap. *)

From stdpp Require Import base list gmap numbers strings sets.
From Stdlib Require Import ZArith Lia Ascii.
From S2P Require Import Prelude Uio Vnode.
Import Uio Vnode.

#[local] Open Scope Z_scope.

Module VfsList.

Definition SWAP_FS : Z := 0xffffffff.
Definition SIZEOF_KNOWNDEV : Z := 20.

Section vfslist.
Context {W : Type} `{!Kernel W, !FileSystem W}.
Abbreviation V := (M (vfs W)).

(** A mounted file system, not a placeholder. *)
Definition has_fs (kd : knowndev) : bool := negb (kd_fs kd =? 0) && negb (kd_fs kd =? SWAP_FS).

Definition strcmp0 (a b : string) : bool := String.eqb a b.

Definition set_kd_fs (fs : Z) (kd : knowndev) : knowndev :=
  mkKd (kd_name kd) (kd_rawname kd) (kd_device kd) (kd_vnode kd) fs.
Definition store_kd_fs (i : nat) (fs : Z) : V unit :=
  modify (λ s, with_knowndevs (alter (set_kd_fs fs) i (knowndevs s)) s).

(** [for (i=0; i<num; i++)] over the table as it is at the start. *)
Fixpoint for_devs (i n : nat) (body : nat → knowndev → V unit) : V unit :=
  match n with
  | O => mret tt
  | S n' =>
      kd ← deref (λ s, knowndevs s !! i) "index < a->num";
      body i kd ;;
      for_devs (S i) n' body
  end.

Definition vfs_sync : V Z :=
  vfs_biglock_acquire ;;
  num ← gets (λ s, length (knowndevs s));
  for_devs 0 num (λ _ dev,
    if has_fs dev then FSOP_SYNC (kd_fs dev) ;; mret tt else mret tt) ;;
  vfs_biglock_release ;;
  mret 0.

(** The vnode of a device itself. *)
Definition device_vnode (kd : knowndev) : V (Z * Z) :=
  kassert (negb (kd_device kd =? 0)) "kd->kd_device != NULL" ;;
  VOP_INCREF (kd_vnode kd) ;;
  mret (0, kd_vnode kd).

Fixpoint getroot_loop (devname : string) (l : list knowndev) : V (Z * Z) :=
  match l with
  | [] => mret (ENODEV, 0)
  | kd :: l' =>
      volname ← gets (FSOP_GETVOLNAME (kd_fs kd));
      if has_fs kd &&
         (strcmp0 (kd_name kd) devname ||
          match volname with Some v => strcmp0 v devname | None => false end)
      then FSOP_GETROOT (kd_fs kd)
      else if negb (has_fs kd) && bool_decide (is_Some (kd_rawname kd)) &&
              strcmp0 (kd_name kd) devname
      then mret (ENXIO, 0)
      else if strcmp0 (kd_name kd) devname then
        kassert (kd_fs kd =? 0) "kd->kd_fs==NULL" ;;
        kassert (bool_decide (kd_rawname kd = None)) "kd->kd_rawname==NULL" ;;
        device_vnode kd
      else if match kd_rawname kd with Some r => strcmp0 r devname | None => false end
      then device_vnode kd
      else getroot_loop devname l'
  end.

Definition vfs_getroot (devname : string) : V (Z * Z) :=
  kassert vfs_biglock_do_i_hold "vfs_biglock_do_i_hold()" ;;
  devs ← gets knowndevs;
  getroot_loop devname devs.

Definition vfs_getdevname (fs : Z) : V (option string) :=
  kassert (negb (fs =? 0)) "fs != NULL" ;;
  kassert vfs_biglock_do_i_hold "vfs_biglock_do_i_hold()" ;;
  devs ← gets knowndevs;
  mret (kd_name <$> (i ← first_index (λ kd, kd_fs kd =? fs) devs; devs !! i)).

(** A string in its own block of the heap. *)
Definition kstrdup (s : string) : V (option (Z * string)) :=
  p ← kmalloc (Z.of_nat (String.length s) + 1);
  if p =? 0 then mret None else mret (Some (p, s)).

(** *** Locks and condition variables (synch.c)

    They are stubs: a structure and its name.  The value is the list of the two
    blocks. *)
Definition lock_create (name : string) : V (option (list Z)) :=
  lock ← kmalloc 4;
  if lock =? 0 then mret None
  else
    n ← kstrdup name;
    match n with
    | None => kfree lock ;; mret None
    | Some (p, _) => mret (Some [lock; p])
    end.

Definition lock_destroy (l : list Z) : V unit :=
  match l with
  | [lock; name] => kfree name ;; kfree lock
  | _ => panic "lock != NULL"
  end.

Definition cv_create (name : string) : V (option (list Z)) :=
  cv ← kmalloc 4;
  if cv =? 0 then mret None
  else
    n ← kstrdup name;
    match n with
    | None => kfree cv ;; mret None
    | Some (p, _) => mret (Some [cv; p])
    end.

Definition cv_destroy (l : list Z) : V unit :=
  match l with
  | [cv; name] => kfree name ;; kfree cv
  | _ => panic "cv != NULL"
  end.

(** The rest is not written yet: the bodies are empty. *)
Definition lock_acquire (l : list Z) : V unit := mret tt.
Definition lock_release (l : list Z) : V unit := mret tt.
Definition cv_wait (cv l : list Z) : V unit := mret tt.
Definition cv_signal (cv l : list Z) : V unit := mret tt.
Definition cv_broadcast (cv l : list Z) : V unit := mret tt.

Definition mkrawname (name : string) : V (option (Z * string)) :=
  p ← kmalloc (Z.of_nat (String.length name) + 3 + 1);
  if p =? 0 then mret None else mret (Some (p, (name +:+ "raw")%string)).

Definition samestring (a b : option string) : bool :=
  match a, b with Some x, Some y => strcmp0 x y | _, _ => false end.
Definition samestring3 (a b c d : option string) : bool :=
  samestring a b || samestring a c || samestring a d.

Fixpoint badnames_loop (n1 n2 n3 : option string) (l : list knowndev) : V bool :=
  match l with
  | [] => mret false
  | kd :: l' =>
      volname ← gets (FSOP_GETVOLNAME (kd_fs kd));
      if has_fs kd && samestring3 volname n1 n2 n3 then mret true
      else if samestring3 (kd_rawname kd) n1 n2 n3 || samestring3 (Some (kd_name kd)) n1 n2 n3
      then mret true
      else badnames_loop n1 n2 n3 l'
  end.

Definition badnames (n1 n2 n3 : option string) : V bool :=
  kassert vfs_biglock_do_i_hold "vfs_biglock_do_i_hold()" ;;
  devs ← gets knowndevs;
  badnames_loop n1 n2 n3 devs.

(** [knowndevarray_add] is [array_add]: when the block is full, one with room
    for twice as many (at first four) pointers replaces it. *)
Definition knowndevarray_add (kd : knowndev) : V (Z * Z) :=
  num ← gets (λ s, Z.of_nat (length (knowndevs s)));
  max ← gets knowndevs_max;
  result ← (if max <? num + 1 then
              let newmax := if max =? 0 then 4 else u32 (max * 2) in
              p ← kmalloc (u32 (newmax * 4));
              if p =? 0 then mret ENOMEM
              else
                old ← gets knowndevs_v;
                modify (with_knowndevs_v p newmax) ;;
                kfree old ;;
                mret 0
            else mret 0);
  if negb (result =? 0) then mret (result, 0)
  else
    modify (λ s, with_knowndevs (knowndevs s ++ [kd]) s) ;;
    mret (0, num).

Definition kfree_opt (p : option (Z * string)) : V unit :=
  match p with Some (a, _) => kfree a | None => mret tt end.

(** The label [fail]. *)
Definition doadd_fail (name rawname : option (Z * string)) (vnode kd : Z) (result : Z) : V Z :=
  kfree_opt name ;;
  kfree_opt rawname ;;
  (if negb (vnode =? 0) then dev_uncreate_vnode vnode else mret tt) ;;
  (if negb (kd =? 0) then kfree kd else mret tt) ;;
  vfs_biglock_release ;;
  mret result.

(** From the creation of the vnode on. *)
Definition doadd_vnode (name : Z * string) (rawname : option (Z * string)) (dev fs : Z) : V Z :=
  vnode ← dev_create_vnode dev;
  if vnode =? 0 then doadd_fail (Some name) rawname 0 0 ENOMEM
  else
    kd ← kmalloc SIZEOF_KNOWNDEV;
    if kd =? 0 then doadd_fail (Some name) rawname vnode 0 ENOMEM
    else
      volname ← gets (λ s, if negb (fs =? 0) then FSOP_GETVOLNAME fs s else None);
      bad ← badnames (Some name.2) (snd <$> rawname) volname;
      if bad : bool then doadd_fail (Some name) rawname vnode kd EEXIST
      else
        '(result, index) ← knowndevarray_add
           (mkKd name.2 (snd <$> rawname) dev vnode fs);
        if negb (result =? 0) then doadd_fail (Some name) rawname vnode kd result
        else
          (if negb (dev =? 0) then
             d ← get_device dev;
             modify (λ s, with_devices (<[dev := mkDevice (d_ops d) (d_blocks d)
               (d_blocksize d) (u32 (index + 1)) (d_data d)]> (devices s)) s)
           else mret tt) ;;
          vfs_biglock_release ;;
          mret 0.

Definition vfs_doadd (dname : string) (mountable : bool) (dev fs : Z) : V Z :=
  vfs_biglock_acquire ;;
  name ← kstrdup dname;
  match name with
  | None => doadd_fail None None 0 0 ENOMEM
  | Some name =>
      if mountable then
        rawname ← mkrawname name.2;
        match rawname with
        | None => doadd_fail (Some name) None 0 0 ENOMEM
        | Some r => doadd_vnode name (Some r) dev fs
        end
      else doadd_vnode name None dev fs
  end.

Definition vfs_adddev (devname : string) (dev : Z) (mountable : bool) : V Z :=
  vfs_doadd devname mountable dev 0.
Definition vfs_addfs (devname : string) (fs : Z) : V Z := vfs_doadd devname false 0 fs.

(** [findmount]: the index of the device. *)
Definition findmount (devname : string) : V (option nat) :=
  kassert vfs_biglock_do_i_hold "vfs_biglock_do_i_hold()" ;;
  devs ← gets knowndevs;
  mret (first_index (λ dev, bool_decide (is_Some (kd_rawname dev)) &&
                            strcmp0 devname (kd_name dev)) devs).

Definition get_kd (i : nat) : V knowndev := deref (λ s, knowndevs s !! i) "bad knowndev".

(** [mountfunc data device] hands back the new file system. *)
Definition vfs_mount (devname : string) (data : Z) (mountfunc : Z → Z → V (Z * Z)) : V Z :=
  vfs_biglock_acquire ;;
  r ← findmount devname;
  match r with
  | None => vfs_biglock_release ;; mret ENODEV
  | Some i =>
      kd ← get_kd i;
      if negb (kd_fs kd =? 0) then vfs_biglock_release ;; mret EBUSY
      else
        kassert (bool_decide (is_Some (kd_rawname kd))) "kd->kd_rawname != NULL" ;;
        kassert (negb (kd_device kd =? 0)) "kd->kd_device != NULL" ;;
        '(result, fs) ← mountfunc data (kd_device kd);
        if negb (result =? 0) then vfs_biglock_release ;; mret result
        else
          kassert (negb (fs =? 0)) "fs != NULL" ;;
          kassert (negb (fs =? SWAP_FS)) "fs != SWAP_FS" ;;
          store_kd_fs i fs ;;
          vfs_biglock_release ;;
          mret 0
  end.

(** The name without a trailing colon. *)
Definition strip_colon (s : string) : string :=
  let n := String.length s in
  if Nat.ltb 0 n && bool_decide (String.get (n - 1) s = Some ":"%char)
  then String.substring 0 (n - 1) s else s.

Definition vfs_swapon_body (devname : string) : V (Z * Z) :=
  vfs_biglock_acquire ;;
  r ← findmount devname;
  match r with
  | None => vfs_biglock_release ;; mret (ENODEV, 0)
  | Some i =>
      kd ← get_kd i;
      if negb (kd_fs kd =? 0) then vfs_biglock_release ;; mret (EBUSY, 0)
      else
        kassert (bool_decide (is_Some (kd_rawname kd))) "kd->kd_rawname != NULL" ;;
        kassert (negb (kd_device kd =? 0)) "kd->kd_device != NULL" ;;
        store_kd_fs i SWAP_FS ;;
        VOP_INCREF (kd_vnode kd) ;;
        vfs_biglock_release ;;
        mret (0, kd_vnode kd)
  end.

Definition vfs_swapon (devname : string) : V (Z * Z) :=
  if bool_decide (strip_colon devname = devname) then vfs_swapon_body devname
  else
    myname ← kstrdup devname;
    match myname with
    | None => mret (ENOMEM, 0)
    | Some (p, _) =>
        r ← vfs_swapon_body (strip_colon devname);
        kfree p ;;
        mret r
    end.

Definition vfs_unmount (devname : string) : V Z :=
  vfs_biglock_acquire ;;
  r ← findmount devname;
  match r with
  | None => vfs_biglock_release ;; mret ENODEV
  | Some i =>
      kd ← get_kd i;
      if negb (has_fs kd) then vfs_biglock_release ;; mret EINVAL
      else
        kassert (bool_decide (is_Some (kd_rawname kd))) "kd->kd_rawname != NULL" ;;
        kassert (negb (kd_device kd =? 0)) "kd->kd_device != NULL" ;;
        result ← FSOP_SYNC (kd_fs kd);
        if negb (result =? 0) then vfs_biglock_release ;; mret result
        else
          result ← FSOP_UNMOUNT (kd_fs kd);
          if negb (result =? 0) then vfs_biglock_release ;; mret result
          else
            store_kd_fs i 0 ;;
            vfs_biglock_release ;;
            mret 0
  end.

Definition vfs_swapoff (devname : string) : V Z :=
  vfs_biglock_acquire ;;
  r ← findmount devname;
  match r with
  | None => vfs_biglock_release ;; mret ENODEV
  | Some i =>
      kd ← get_kd i;
      if negb (kd_fs kd =? SWAP_FS) then vfs_biglock_release ;; mret EINVAL
      else
        store_kd_fs i 0 ;;
        vfs_biglock_release ;;
        mret 0
  end.

(** The body of the loop of [vfs_unmountall]. *)
Definition unmount_one (i : nat) (dev : knowndev) : V unit :=
  if bool_decide (kd_rawname dev = None) then mret tt
  else if kd_fs dev =? 0 then mret tt
  else if kd_fs dev =? SWAP_FS then store_kd_fs i 0
  else
    result ← FSOP_SYNC (kd_fs dev);
    result ← (if negb (result =? 0) then FSOP_SYNC (kd_fs dev) else mret 0);
    if negb (result =? 0) then mret tt
    else
      result ← FSOP_UNMOUNT (kd_fs dev);
      if result =? EBUSY then mret tt
      else if negb (result =? 0) then mret tt
      else store_kd_fs i 0.

Definition vfs_unmountall : V Z :=
  vfs_biglock_acquire ;;
  num ← gets (λ s, length (knowndevs s));
  for_devs 0 num unmount_one ;;
  vfs_biglock_release ;;
  mret 0.

(** [devnull_create] (devnull.c) *)
Definition devnull_create : V unit :=
  dev ← kmalloc SIZEOF_DEVICE;
  if dev =? 0 then panic "Could not add null device: out of memory"
  else
    modify (λ s, with_devices (<[dev := mkDevice null_devops 0 1 0 0]> (devices s)) s) ;;
    result ← vfs_adddev "null" dev false;
    if negb (result =? 0) then panic "Could not add null device" else mret tt.

(** [vfs_bootstrap]; [semfs_bootstrap] attaches the semaphore file system. *)
Definition vfs_bootstrap (semfs_bootstrap : V unit) : V unit :=
  p ← kmalloc 12;
  if p =? 0 then panic "vfs: Could not create knowndevs array"
  else
    modify (λ s, with_knowndevs_v 0 0 (with_knowndevs [] s)) ;;
    l ← lock_create "vfs_biglock";
    if bool_decide (l = None) then panic "vfs: Could not create vfs big lock"
    else
      modify (with_depth 0) ;;
      devnull_create ;;
      semfs_bootstrap.

End vfslist.
End VfsList.
