(* ===== verification/VfsPath.v ===== *)
(** * Path names (vfs/vfscwd.c, vfs/vfslookup.c, vfs/vfspath.c)

    A C string is a [string], its characters before the terminating NUL;
    where the code writes a NUL into the path and keeps two pointers into it,
    the definitions return the two strings. *)

From stdpp Require Import base list gmap numbers strings sets.
From Stdlib Require Import ZArith Lia Ascii.
From S2P Require Import Prelude Uio Vnode VfsList.
Import Uio Vnode VfsList.

#[local] Open Scope Z_scope.

Module VfsPath.

(** ** Strings *)

Fixpoint sdrop (n : nat) (s : string) : string :=
  match n, s with
  | O, _ => s
  | S n', String _ s' => sdrop n' s'
  | S _, EmptyString => EmptyString
  end.
Fixpoint stake (n : nat) (s : string) : string :=
  match n, s with
  | S n', String c s' => String c (stake n' s')
  | _, _ => EmptyString
  end.
Fixpoint has_char (c : ascii) (s : string) : bool :=
  match s with
  | EmptyString => false
  | String d s' => Ascii.eqb d c || has_char c s'
  end.
(** [while (p[0]=='/') p++;] *)
Fixpoint skip_slashes (s : string) : string :=
  match s with
  | String c s' => if Ascii.eqb c "/" then skip_slashes s' else s
  | EmptyString => s
  end.

(** The bytes of a string. *)
Definition bytes (s : string) : list Z :=
  (λ c, Z.of_N (N_of_ascii c)) <$> String.list_ascii_of_string s.

(** The first colon or slash of [getdevice]: its index and the two variables. *)
Fixpoint scan (i : Z) (path : string) : Z * Z :=
  match path with
  | EmptyString => (-1, -1)
  | String c path' =>
      if Ascii.eqb c ":" then (i, -1)
      else if Ascii.eqb c "/" then (-1, i)
      else scan (i + 1) path'
  end.

Section vfspath.
Context {W : Type} `{!Kernel W, !FileSystem W}.
Abbreviation V := (M (vfs W)).

(** ** vfscwd.c *)

Definition vfs_getcurdir : V (Z * Z) :=
  cwd ← gets p_cwd;
  if negb (cwd =? 0) then VOP_INCREF cwd ;; mret (0, cwd) else mret (ENOENT, 0).

Definition vfs_setcurdir (dir : Z) : V Z :=
  '(result, vtype) ← VOP_GETTYPE dir;
  if negb (result =? 0) then mret result
  else if negb (vtype =? S_IFDIR) then mret ENOTDIR
  else
    VOP_INCREF dir ;;
    old ← gets p_cwd;
    modify (with_cwd dir) ;;
    (if negb (old =? 0) then VOP_DECREF old else mret tt) ;;
    mret 0.

Definition vfs_clearcurdir : V Z :=
  old ← gets p_cwd;
  modify (with_cwd 0) ;;
  (if negb (old =? 0) then VOP_DECREF old else mret tt) ;;
  mret 0.

(** ** vfslookup.c: where a path starts *)

(** [getdevice]: error, subpath, start vnode. *)
Definition getdevice (path : string) : V (Z * string * Z) :=
  kassert vfs_biglock_do_i_hold "vfs_biglock_do_i_hold()" ;;
  match path with
  | EmptyString => mret (EINVAL, ""%string, 0)
  | String c rest =>
      let '(colon, slash) := scan 0 path in
      if (colon <? 0) && negb (slash =? 0) then
        '(r, vn) ← vfs_getcurdir;
        mret (r, path, vn)
      else if 0 <? colon then
        '(r, vn) ← vfs_getroot (stake (Z.to_nat colon) path);
        mret (r, skip_slashes (sdrop (Z.to_nat (colon + 1)) path), vn)
      else
        kassert ((colon =? 0) || (slash =? 0)) "colon==0 || slash==0" ;;
        if Ascii.eqb c "/" then
          bootfs ← gets bootfs_vnode;
          if bootfs =? 0 then mret (ENOENT, ""%string, 0)
          else
            VOP_INCREF bootfs ;;
            mret (0, skip_slashes rest, bootfs)
        else
          kassert (Ascii.eqb c ":") "path[0]==':'" ;;
          '(r, vn) ← vfs_getcurdir;
          if negb (r =? 0) then mret (r, ""%string, 0)
          else
            v ← get_vnode vn;
            kassert (negb (vn_fs v =? 0)) "vn->vn_fs!=NULL" ;;
            '(r, startvn) ← FSOP_GETROOT (vn_fs v);
            VOP_DECREF vn ;;
            mret (r, skip_slashes rest, startvn)
  end.

Definition vfs_lookparent (path : string) (buflen : Z) : V (Z * Z * string) :=
  vfs_biglock_acquire ;;
  '(result, sub, startvn) ← getdevice path;
  if negb (result =? 0) then vfs_biglock_release ;; mret (result, 0, ""%string)
  else
    '(result, retval, name) ←
      (if Nat.eqb (String.length sub) 0 then mret (EINVAL, 0, ""%string)
       else VOP_LOOKPARENT startvn sub buflen);
    VOP_DECREF startvn ;;
    vfs_biglock_release ;;
    mret (result, retval, name).

Definition vfs_lookup (path : string) : V (Z * Z) :=
  vfs_biglock_acquire ;;
  '(result, sub, startvn) ← getdevice path;
  if negb (result =? 0) then vfs_biglock_release ;; mret (result, 0)
  else if Nat.eqb (String.length sub) 0 then
    vfs_biglock_release ;; mret (0, startvn)
  else
    '(result, retval) ← VOP_LOOKUP startvn sub;
    VOP_DECREF startvn ;;
    vfs_biglock_release ;;
    mret (result, retval).

Definition vfs_chdir (path : string) : V Z :=
  '(result, vn) ← vfs_lookup path;
  if negb (result =? 0) then mret result
  else
    result ← vfs_setcurdir vn;
    VOP_DECREF vn ;;
    mret result.

Definition vfs_getcwd (u : uio) : V (Z * uio) :=
  kassert (uio_rw u =? UIO_READ) "uio->uio_rw==UIO_READ" ;;
  '(result, cwd) ← vfs_getcurdir;
  if negb (result =? 0) then mret (result, u)
  else
    v ← get_vnode cwd;
    kassert (negb (vn_fs v =? 0)) "cwd->vn_fs != NULL" ;;
    volname ← gets (FSOP_GETVOLNAME (vn_fs v));
    name ← (match volname with
            | Some n => mret (Some n)
            | None =>
                vfs_biglock_acquire ;;
                n ← vfs_getdevname (vn_fs v);
                vfs_biglock_release ;;
                mret n
            end);
    match name with
    | None => panic "name != NULL"
    | Some n =>
        '(result, u) ← uiomove (bytes n) u;
        '(result, u) ←
          (if negb (result =? 0) then mret (result, u)
           else
             '(result, u) ← uiomove (bytes ":") u;
             if negb (result =? 0) then mret (result, u) else VOP_NAMEFILE cwd u);
        VOP_DECREF cwd ;;
        mret (result, u)
    end.

(** *** The boot file system *)

Definition change_bootfs (newvn : Z) : V unit :=
  oldvn ← gets bootfs_vnode;
  modify (with_bootfs newvn) ;;
  if negb (oldvn =? 0) then VOP_DECREF oldvn else mret tt.

(** [snprintf(tmp, sizeof(tmp)-1, ...)] keeps 254 characters; a colon found by
    [strchr] is the first character of [s], so [strlen(s)] is positive. *)
Definition vfs_setbootfs (fsname : string) : V Z :=
  vfs_biglock_acquire ;;
  let tmp := stake (Z.to_nat (NAME_MAX - 1)) fsname in
  if has_char ":" tmp then vfs_biglock_release ;; mret EINVAL
  else
    result ← vfs_chdir (tmp +:+ ":")%string;
    if negb (result =? 0) then vfs_biglock_release ;; mret result
    else
      '(result, newguy) ← vfs_getcurdir;
      if negb (result =? 0) then vfs_biglock_release ;; mret result
      else
        change_bootfs newguy ;;
        vfs_biglock_release ;;
        mret 0.

Definition vfs_clearbootfs : V unit :=
  vfs_biglock_acquire ;;
  change_bootfs 0 ;;
  vfs_biglock_release.

(** ** vfspath.c *)

Definition NAMEBUF : Z := NAME_MAX + 1.

(** [vfs_open] once the vnode is known. *)
Definition open_vnode (vn openflags : Z) (canwrite : bool) : V (Z * Z) :=
  kassert (negb (vn =? 0)) "vn != NULL" ;;
  result ← VOP_EACHOPEN vn openflags;
  if negb (result =? 0) then VOP_DECREF vn ;; mret (result, 0)
  else if negb (Z.land openflags O_TRUNC =? 0) then
    result ← (if negb canwrite then mret EINVAL else VOP_TRUNCATE vn 0);
    if negb (result =? 0) then VOP_DECREF vn ;; mret (result, 0)
    else mret (0, vn)
  else mret (0, vn).

Definition vfs_open (path : string) (openflags mode : Z) : V (Z * Z) :=
  let how := Z.land openflags O_ACCMODE in
  if negb ((how =? O_RDONLY) || (how =? O_WRONLY) || (how =? O_RDWR)) then mret (EINVAL, 0)
  else
    let canwrite := negb (how =? O_RDONLY) in
    if negb (Z.land openflags O_CREAT =? 0) then
      let excl := negb (Z.land openflags O_EXCL =? 0) in
      '(result, dir, name) ← vfs_lookparent path NAMEBUF;
      if negb (result =? 0) then mret (result, 0)
      else
        '(result, vn) ← VOP_CREAT dir name excl mode;
        VOP_DECREF dir ;;
        if negb (result =? 0) then mret (result, 0) else open_vnode vn openflags canwrite
    else
      '(result, vn) ← vfs_lookup path;
      if negb (result =? 0) then mret (result, 0) else open_vnode vn openflags canwrite.

Definition vfs_close (vn : Z) : V unit := VOP_DECREF vn.

(** The shape of [vfs_remove], [vfs_symlink], [vfs_mkdir] and [vfs_rmdir]. *)
Definition with_parent (path : string) (op : Z → string → V Z) : V Z :=
  '(result, dir, name) ← vfs_lookparent path NAMEBUF;
  if negb (result =? 0) then mret result
  else
    result ← op dir name;
    VOP_DECREF dir ;;
    mret result.

Definition vfs_remove (path : string) : V Z := with_parent path VOP_REMOVE.
Definition vfs_symlink (contents path : string) : V Z :=
  with_parent path (λ newdir newname, VOP_SYMLINK newdir newname contents).
Definition vfs_mkdir (path : string) (mode : Z) : V Z :=
  with_parent path (λ parent name, VOP_MKDIR parent name mode).
Definition vfs_rmdir (path : string) : V Z := with_parent path VOP_RMDIR.

(** The test of [vfs_rename] and [vfs_link] that both are on one file system. *)
Definition same_fs (a b : Z) : V bool :=
  va ← get_vnode a;
  vb ← get_vnode b;
  mret (negb (vn_fs va =? 0) && negb (vn_fs vb =? 0) && (vn_fs va =? vn_fs vb)).

Definition vfs_rename (oldpath newpath : string) : V Z :=
  '(result, olddir, oldname) ← vfs_lookparent oldpath NAMEBUF;
  if negb (result =? 0) then mret result
  else
    '(result, newdir, newname) ← vfs_lookparent newpath NAMEBUF;
    if negb (result =? 0) then VOP_DECREF olddir ;; mret result
    else
      same ← same_fs olddir newdir;
      if negb same then
        VOP_DECREF newdir ;; VOP_DECREF olddir ;; mret EXDEV
      else
        result ← VOP_RENAME olddir oldname newdir newname;
        VOP_DECREF newdir ;;
        VOP_DECREF olddir ;;
        mret result.

Definition vfs_link (oldpath newpath : string) : V Z :=
  '(result, oldfile) ← vfs_lookup oldpath;
  if negb (result =? 0) then mret result
  else
    '(result, newdir, newname) ← vfs_lookparent newpath NAMEBUF;
    if negb (result =? 0) then VOP_DECREF oldfile ;; mret result
    else
      same ← same_fs oldfile newdir;
      if negb same then
        VOP_DECREF newdir ;; VOP_DECREF oldfile ;; mret EXDEV
      else
        result ← VOP_LINK newdir newname oldfile;
        VOP_DECREF newdir ;;
        VOP_DECREF oldfile ;;
        mret result.

Definition vfs_readlink (path : string) (u : uio) : V (Z * uio) :=
  '(result, vn) ← vfs_lookup path;
  if negb (result =? 0) then mret (result, u)
  else
    '(result, u) ← VOP_READLINK vn u;
    VOP_DECREF vn ;;
    mret (result, u).

End vfspath.
End VfsPath.
