(* ===== verification/VfsRefs.v ===== *)
(** * References to vnodes: what the VFS layer relies on and how it counts

    [held s v] is the number of references to [v] that somebody holds: the
    reference count less the references that a failed [VOP_RECLAIM] left
    behind.  [owned] are those of the layer itself (the device list, the boot
    file system, the current directory).  [bal d n k s s'] says that [s'] has
    [d v] more held references to every [v] than [s], no count more than [n]
    above what it was, the big lock [k] levels deeper, and the rest of the
    layer's state as it was.  The class [FsLaws] states in these terms what a
    file system promises. *)

From stdpp Require Import base list gmap numbers strings sets.
From Stdlib Require Import ZArith Lia.
From S2P Require Import Prelude Uio Vnode VfsList VfsPath.
Import Uio Vnode VfsList VfsPath.

#[local] Open Scope Z_scope.

Module VfsRefs.

Definition one (v w : Z) : Z := b2z (w =? v).
Definition none (w : Z) : Z := 0.

Lemma one_same v : one v v = 1.
Proof. unfold one. by rewrite Z.eqb_refl. Qed.
Lemma one_range v w : 0 <= one v w <= 1.
Proof. unfold one. destruct (w =? v); simpl; lia. Qed.

Section refs.
Context {W : Type}.
Implicit Types s : vfs W.

Definition refs s (v : Z) : Z := from_option vn_refcount 0 (vnodes s !! v).
Definition held s (v : Z) : Z := refs s v - countb (λ w, w =? v) (warned s).

Definition owned s (v : Z) : Z :=
  b2z (bootfs_vnode s =? v) + b2z (p_cwd s =? v) +
  countb (λ kd, kd_vnode kd =? v) (knowndevs s).

(** The references that are not the layer's own. *)
Definition spare s (v : Z) : Z := held s v - owned s v.

(** What a vnode is, apart from its count; the device vnodes among them. *)
Definition idpart s : gmap Z (Z * Z * vnode_ops) :=
  (λ x, (vn_fs x, vn_data x, vn_ops x)) <$> vnodes s.
Definition devpart s : gmap Z Z :=
  omap (λ x, if decide (vn_ops x = dev_vnode_ops) then Some (vn_data x) else None) (vnodes s).

(** An entry of the device list obeys the rules of the comment on
    [struct knowndev]. *)
Record kd_ok s (kd : knowndev) : Prop := {
  ko_vnode : devpart s !! kd_vnode kd = Some (kd_device kd);
  ko_device : kd_device kd ≠ 0 → is_Some (devices s !! kd_device kd);
  ko_raw : is_Some (kd_rawname kd) → kd_device kd ≠ 0;
  ko_plain : kd_rawname kd = None → kd_fs kd ≠ SWAP_FS ∧ (kd_fs kd = 0 → kd_device kd ≠ 0)
}.

Definition dev_usable s (v : Z) : Prop :=
  ∀ d, devpart s !! v = Some d → is_Some (devices s !! d).

(** A file system in use: mounted, or that of a vnode. *)
Definition valid_fs s (fs : Z) : Prop :=
  (∃ kd, kd ∈ knowndevs s ∧ has_fs kd = true ∧ kd_fs kd = fs) ∨
  (∃ v x, vnodes s !! v = Some x ∧ vn_fs x = fs ∧ fs ≠ 0).

Definition fs_vnode s (v : Z) : Prop :=
  ∃ x t, vnodes s !! v = Some x ∧ vn_ops x = fs_vnode_ops t.

(** Nothing overflows while the counts and the lock depth grow by [n]. *)
Definition room (n : Z) s : Prop :=
  (∀ v, refs s v + n < 2 ^ 31) ∧ 0 <= vfs_biglock_depth s ∧ vfs_biglock_depth s + n < 2 ^ 32.

(** The part of the layer's state that the path operations leave alone. *)
Definition fixed s :=
  (knowndevs s, knowndevs_v s, knowndevs_max s, devices s, bootfs_vnode s, p_cwd s, devpart s).

Definition base s :=
  (knowndevs s, knowndevs_v s, knowndevs_max s, devices s, devpart s).

(** The invariant of the layer: live vnodes have a positive count, which
    covers the layer's own references; every device vnode belongs to an entry
    of the device list; the current directory is on a file system. *)
Record vfs_ok s : Prop := {
  vo_live : ∀ v x, vnodes s !! v = Some x →
    v ≠ 0 ∧ v ≠ 0xdeadbeef ∧ vn_fs x ≠ 0xdeadbeef ∧ 1 <= vn_refcount x;
  vo_owned : ∀ v, v ≠ 0 → owned s v <= held s v;
  vo_dev : ∀ v d, devpart s !! v = Some d → ∃ kd, kd ∈ knowndevs s ∧ kd_vnode kd = v;
  vo_kd : ∀ kd, kd ∈ knowndevs s → kd_ok s kd;
  vo_cwd : p_cwd s ≠ 0 → ∃ x, vnodes s !! p_cwd s = Some x ∧ vn_fs x ≠ 0;
  vo_boot : dev_usable s (bootfs_vnode s);
  vo_cwd_dev : dev_usable s (p_cwd s)
}.
End refs.

(** ** What a file system promises *)

Section balance.
Context {W : Type} (fs_inv : vfs W → Prop).

Record bal (d : Z → Z) (n k : Z) (s s' : vfs W) : Prop := {
  b_ok : vfs_ok s';
  b_fs : fs_inv s';
  b_fixed : fixed s' = fixed s;
  b_held : ∀ w, held s' w = held s w + d w;
  b_top : ∀ w, refs s' w <= refs s w + n;
  b_depth : vfs_biglock_depth s' = vfs_biglock_depth s + k
}.

(** The same for operations that change the current directory or the boot file
    system: the references of others are counted. *)
Record moved (d : Z → Z) (n : Z) (s s' : vfs W) : Prop := {
  m_ok : vfs_ok s';
  m_fs : fs_inv s';
  m_base : base s' = base s;
  m_spare : ∀ w, w ≠ 0 → spare s' w = spare s w + d w;
  m_top : ∀ w, refs s' w <= refs s w + n;
  m_depth : vfs_biglock_depth s' = vfs_biglock_depth s
}.

(** An operation that hands back a vnode [v]: one reference more to it. *)
Definition gives_vnode (s : vfs W) (m : M (vfs W) (Z * Z)) : Prop :=
  twp m (λ r s', (r.1 = 0 ∧ r.2 ≠ 0 ∧ dev_usable s' r.2 ∧ bal (one r.2) 1 0 s s') ∨
                 (r.1 ≠ 0 ∧ bal none 1 0 s s')) s.
(** An operation after which the references are as before. *)
Definition balanced {A} (s : vfs W) (m : M (vfs W) A) : Prop := twp m (λ _ s', bal none 1 0 s s') s.
End balance.

(** The contract is what vnode.h and fs.h ask for, and the semaphore file system keeps it
    while memory lasts ([SemfsLaws]).  Three paths of the file systems in this tree do
    not: [semfs_creat] returns 0 without a vnode when the directory entry cannot be
    allocated ([semfs_creat_no_dent]), [emufs_loadvnode] returns with the big lock held
    when the vnode cannot be allocated ([loadvnode_keeps_biglock]), and [sfs_getroot]
    keeps the vnode it loaded when that is not a directory. *)
Class FsLaws (W : Type) `{!Kernel W, !FileSystem W} := {
  (** The file systems' own invariant; it does not read reference counts. *)
  fs_inv : vfs W → Prop;
  fs_inv_ext s s' :
    world s' = world s → idpart s' = idpart s → knowndevs s' = knowndevs s →
    devices s' = devices s → fs_inv s → fs_inv s';
  law_eachopen s v flags : vfs_ok s → fs_inv s → room 1 s → fs_vnode s v →
    balanced fs_inv s (fs_eachopen v flags);
  law_truncate s v len : vfs_ok s → fs_inv s → room 1 s → fs_vnode s v →
    balanced fs_inv s (fs_truncate v len);
  law_gettype s v : vfs_ok s → fs_inv s → room 1 s → fs_vnode s v →
    twp (fs_gettype v) (λ r s', bal fs_inv none 1 0 s s' ∧
      (r.1 = 0 → r.2 = S_IFDIR → ∃ x, vnodes s' !! v = Some x ∧ vn_fs x ≠ 0)) s;
  law_readlink s v u : vfs_ok s → fs_inv s → room 1 s → fs_vnode s v →
    balanced fs_inv s (fs_readlink v u);
  law_namefile s v u : vfs_ok s → fs_inv s → room 1 s → fs_vnode s v →
    balanced fs_inv s (fs_namefile v u);
  law_symlink s v a b : vfs_ok s → fs_inv s → room 1 s → fs_vnode s v →
    balanced fs_inv s (fs_symlink v a b);
  law_mkdir s v name mode : vfs_ok s → fs_inv s → room 1 s → fs_vnode s v →
    balanced fs_inv s (fs_mkdir v name mode);
  law_link s v name f : vfs_ok s → fs_inv s → room 1 s → fs_vnode s v →
    is_Some (vnodes s !! f) → balanced fs_inv s (fs_link v name f);
  law_remove s v name : vfs_ok s → fs_inv s → room 1 s → fs_vnode s v →
    balanced fs_inv s (fs_remove v name);
  law_rmdir s v name : vfs_ok s → fs_inv s → room 1 s → fs_vnode s v →
    balanced fs_inv s (fs_rmdir v name);
  law_rename s v name v' name' : vfs_ok s → fs_inv s → room 1 s → fs_vnode s v →
    is_Some (vnodes s !! v') → balanced fs_inv s (fs_rename v name v' name');
  law_lookup s v path : vfs_ok s → fs_inv s → room 1 s → fs_vnode s v →
    gives_vnode fs_inv s (fs_lookup v path);
  law_creat s v name excl mode : vfs_ok s → fs_inv s → room 1 s → fs_vnode s v →
    gives_vnode fs_inv s (fs_creat v name excl mode);
  law_lookparent s v path len : vfs_ok s → fs_inv s → room 1 s → fs_vnode s v →
    twp (fs_lookparent v path len) (λ r s',
      (r.1.1 = 0 ∧ r.1.2 ≠ 0 ∧ dev_usable s' r.1.2 ∧ bal fs_inv (one r.1.2) 1 0 s s') ∨
      (r.1.1 ≠ 0 ∧ bal fs_inv none 1 0 s s')) s;
  law_getroot s f : vfs_ok s → fs_inv s → room 1 s → valid_fs s f →
    gives_vnode fs_inv s (FSOP_GETROOT f);
  law_uiomove s l u : vfs_ok s → fs_inv s → balanced fs_inv s (uiomove l u);
  (** The last reference is given up, or kept with an error. *)
  law_reclaim s v x t : vfs_ok s → fs_inv s → vnodes s !! v = Some x →
    vn_ops x = fs_vnode_ops t → vn_refcount x = 1 → 1 <= held s v → owned s v = 0 →
    twp (fs_reclaim v) (λ e s', (e = 0 ∧ bal fs_inv (λ w, - one v w) 0 0 s s') ∨
                                (e ≠ 0 ∧ e ≠ EBUSY ∧ bal fs_inv none 0 0 s s')) s;
  law_drv_eachopen s d dev t flags : vfs_ok s → fs_inv s → room 1 s →
    devices s !! d = Some dev → d_ops dev = drv_devops t →
    balanced fs_inv s (drv_eachopen d flags)
}.
End VfsRefs.
