(* ===== verification/VfsProps.v ===== *)
(** * Every path operation of the VFS layer balances its references

    The lemmas [x_from] carry one hypothesis [bal d n k s0 s] from the start
    [s0] of an operation through its calls; at the end the references taken
    and dropped cancel. *)

From stdpp Require Import base list gmap numbers strings sets.
From Stdlib Require Import ZArith Lia Ascii.
From S2P Require Import Prelude Uio Vnode VfsList VfsPath VfsRefs.
Import Uio Vnode VfsList VfsPath VfsRefs.

#[local] Open Scope Z_scope.

Module VfsProps.

(** ** Counts *)

Section counts.
Context {W : Type} (P : vfs W → Prop).
Hypothesis P_ext : ∀ s s',
  world s' = world s → idpart s' = idpart s → knowndevs s' = knowndevs s →
  devices s' = devices s → P s → P s'.
Implicit Types s : vfs W.

Lemma fixed_owned s s' v : fixed s' = fixed s → owned s' v = owned s v.
Proof. unfold fixed, owned. intros E. injection E as E1 _ _ _ E2 E3 _. by rewrite E1, E2, E3. Qed.
Lemma fixed_usable s s' v : fixed s' = fixed s → dev_usable s v → dev_usable s' v.
Proof. unfold fixed, dev_usable. intros E. injection E as _ _ _ E1 _ _ E2. by rewrite E1, E2. Qed.

(** A change of counts alone, with the bookkeeping that keeps [held] above
    [owned]. *)
Lemma held_live s v : 1 <= held s v → ∃ x, vnodes s !! v = Some x.
Proof.
  unfold held, refs. pose proof (countb_range (λ w, w =? v) (warned s)).
  destruct (vnodes s !! v); simpl; [eauto | lia].
Qed.

Lemma refs_insert s v x w :
  refs (with_vnodes (<[v:=x]> (vnodes s)) s) w = if w =? v then vn_refcount x else refs s w.
Proof.
  unfold refs. simpl. destruct (Z.eqb_spec w v) as [-> |].
  - by rewrite lookup_insert_eq.
  - by rewrite lookup_insert_ne.
Qed.

(** Storing a vnode that differs from the present one in its count only. *)
Lemma idpart_count s v x n :
  vnodes s !! v = Some x →
  idpart (with_vnodes (<[v:=with_refcount n x]> (vnodes s)) s) = idpart s.
Proof.
  intros Hx. unfold idpart. simpl. rewrite fmap_insert. apply insert_id.
  by rewrite lookup_fmap, Hx.
Qed.
Lemma devpart_count s v x n :
  vnodes s !! v = Some x →
  devpart (with_vnodes (<[v:=with_refcount n x]> (vnodes s)) s) = devpart s.
Proof.
  intros Hx. apply map_eq. intros w. unfold devpart. simpl. rewrite !lookup_omap.
  destruct (decide (w = v)) as [-> |]; [by rewrite lookup_insert_eq, Hx | by rewrite lookup_insert_ne].
Qed.

(** [vfs_ok] for a state with the same fixed part, the same vnodes up to
    counts, and counts that still cover the owners. *)
Lemma vfs_ok_counts s s' :
  vfs_ok s → fixed s' = fixed s → idpart s' = idpart s →
  (∀ v x, vnodes s' !! v = Some x → 1 <= vn_refcount x) →
  (∀ v, v ≠ 0 → owned s v <= held s' v) → vfs_ok s'.
Proof.
  intros Hok Hf Hid Hpos Hown. pose proof Hf as Hf'. unfold fixed in Hf.
  injection Hf as Ek _ _ Ed Eb Ec Ep.
  assert (Hlook : ∀ v x, vnodes s' !! v = Some x → ∃ y, vnodes s !! v = Some y ∧
            vn_fs y = vn_fs x ∧ vn_data y = vn_data x ∧ vn_ops y = vn_ops x).
  { intros v x Hx. assert (E : idpart s' !! v = idpart s !! v) by by rewrite Hid.
    unfold idpart in E. rewrite !lookup_fmap, Hx in E.
    destruct (vnodes s !! v) as [y|]; [| done]. injection E as E1 E2 E3. eauto. }
  split.
  - intros v x Hx. destruct (Hlook v x Hx) as (y & Hy & E & _).
    destruct (vo_live s Hok v y Hy) as (? & ? & ? & ?). rewrite <- E. by eauto using Hpos.
  - intros v Hv. rewrite (fixed_owned s s' v Hf'). by apply Hown.
  - intros v d Hd. rewrite Ek. apply (vo_dev s Hok v d). by rewrite <- Ep.
  - rewrite Ek. intros kd Hkd. destruct (vo_kd s Hok kd Hkd). by split; rewrite ?Ep, ?Ed.
  - rewrite Ec. intros Hc. destruct (vo_cwd s Hok Hc) as (y & Hy & Hn).
    assert (E : idpart s' !! p_cwd s = idpart s !! p_cwd s) by by rewrite Hid.
    unfold idpart in E. rewrite !lookup_fmap, Hy in E.
    destruct (vnodes s' !! p_cwd s) as [x|]; [| done]. injection E as E1 E2 E3.
    exists x. by rewrite E1.
  - rewrite Eb. eapply fixed_usable; [done | apply Hok].
  - rewrite Ec. eapply fixed_usable; [done | apply Hok].
Qed.

Lemma live_ne s v x : vfs_ok s → vnodes s !! v = Some x → v ≠ 0.
Proof. intros Hok Hx. by destruct (vo_live s Hok v x Hx). Qed.

(** Adding [c] to the count of a vnode. *)
Lemma set_count s v x c :
  vfs_ok s → P s → vnodes s !! v = Some x → 1 <= vn_refcount x + c →
  owned s v <= held s v + c →
  bal P (λ w, c * one v w) (Z.max c 0) 0 s
    (with_vnodes (<[v := with_refcount (vn_refcount x + c) x]> (vnodes s)) s).
Proof.
  intros Hok Hfs Hx Hc Ho. set (s' := with_vnodes _ s).
  assert (Er : refs s v = vn_refcount x) by (unfold refs; by rewrite Hx).
  assert (Hrefs : ∀ w, refs s' w = refs s w + c * one v w).
  { intros w. unfold s', one. rewrite refs_insert. destruct (Z.eqb_spec w v) as [-> |]; simpl; lia. }
  assert (Hid : idpart s' = idpart s) by by apply idpart_count.
  assert (Hfix : fixed s' = fixed s).
  { unfold fixed, s'. by rewrite devpart_count by done. }
  assert (Hheld : ∀ w, held s' w = held s w + c * one v w).
  { intros w. unfold held. rewrite Hrefs. simpl. lia. }
  split; [| | done | done | |].
  - eapply vfs_ok_counts; [done | done | done | |].
    + intros w y. unfold s'. simpl. destruct (decide (w = v)) as [-> |].
      * rewrite lookup_insert_eq. intros [= <-]. done.
      * rewrite lookup_insert_ne by done. intros Hy.
        by destruct (vo_live s Hok w y Hy) as (_ & _ & _ & ?).
    + intros w Hw. rewrite Hheld. unfold one. destruct (Z.eqb_spec w v) as [-> |]; simpl; [lia |].
      pose proof (vo_owned s Hok w Hw). lia.
  - eapply P_ext; [..| exact Hfs]; done.
  - intros w. rewrite Hrefs. pose proof (one_range v w). nia.
  - simpl. lia.
Qed.

Lemma incref_ok s v x :
  vfs_ok s → P s → room 1 s → vnodes s !! v = Some x →
  twp (VOP_INCREF v) (λ _, bal P (one v) 1 0 s) s.
Proof.
  intros Hok HP (H1 & _ & _) Hx. destruct (vo_live s Hok v x Hx) as (Hv & _ & _ & Hp).
  specialize (H1 v). assert (Er : refs s v = vn_refcount x) by (unfold refs; by rewrite Hx).
  unfold twp, VOP_INCREF, vnode_incref, get_vnode, set_vnode. mrun.
  destruct (Z.eqb_spec v 0); [done |]. simpl. rewrite Hx.
  assert (Es : s32 (vn_refcount x + 1) = vn_refcount x + 1).
  { unfold s32. rewrite u32_small by lia. destruct (Z.ltb_spec (vn_refcount x + 1) (2 ^ 31)); lia. }
  rewrite Es. pose proof (vo_owned s Hok v Hv) as Ho.
  pose proof (set_count s v x 1 Hok HP Hx ltac:(lia) ltac:(lia)) as B. split; try apply B.
  intros w. rewrite (b_held _ _ _ _ _ _ B). lia.
Qed.
End counts.

Section props.
Context {W : Type} `{!Kernel W, !FileSystem W, !FsLaws W}.
Implicit Types s : vfs W.
Abbreviation bal := (bal fs_inv).

(** ** The balance *)

Lemma bal_refl s : vfs_ok s → fs_inv s → bal none 0 0 s s.
Proof. intros Hok Hfs. split; try done; unfold none; lia. Qed.

Lemma bal_trans d1 n1 k1 d2 n2 k2 s s1 s2 :
  bal d1 n1 k1 s s1 → bal d2 n2 k2 s1 s2 →
  bal (λ w, d1 w + d2 w) (n1 + n2) (k1 + k2) s s2.
Proof.
  intros B1 B2. split.
  - apply B2.
  - apply B2.
  - by rewrite (b_fixed _ _ _ _ _ _ B2), (b_fixed _ _ _ _ _ _ B1).
  - intros w. rewrite (b_held _ _ _ _ _ _ B2), (b_held _ _ _ _ _ _ B1). lia.
  - intros w. pose proof (b_top _ _ _ _ _ _ B2 w). pose proof (b_top _ _ _ _ _ _ B1 w). lia.
  - rewrite (b_depth _ _ _ _ _ _ B2), (b_depth _ _ _ _ _ _ B1). lia.
Qed.

Lemma bal_ext d n k d' n' k' s s' :
  bal d n k s s' → (∀ w, d w = d' w) → n <= n' → k = k' → bal d' n' k' s s'.
Proof.
  intros B Hd Hn <-. split; try apply B.
  - intros w. rewrite <- Hd. apply B.
  - intros w. pose proof (b_top _ _ _ _ _ _ B w). lia.
Qed.

(** The same balance written differently. *)
Ltac bal_as B := eapply bal_ext; [exact B |..]; unfold none; intros; simpl; lia.

Lemma bal_room d n k m s s' :
  bal d n k s s' → room (n + m) s → k <= n → 0 <= vfs_biglock_depth s + k → room m s'.
Proof.
  intros B (Hr & Hd & Hd') Hk Hdk. pose proof (b_depth _ _ _ _ _ _ B) as E. repeat split.
  - intros v. pose proof (b_top _ _ _ _ _ _ B v). specialize (Hr v). lia.
  - lia.
  - lia.
Qed.

Lemma depth_ok k s : vfs_ok s → vfs_ok (with_depth k s).
Proof. intros Hok. eapply vfs_ok_counts; try done; apply Hok. Qed.
Lemma depth_fs k s : fs_inv s → fs_inv (with_depth k s).
Proof. by apply fs_inv_ext. Qed.

Lemma acquire_from d n k s0 s :
  bal d n k s0 s → room (n + 1) s0 → k <= n → 0 <= vfs_biglock_depth s0 + k →
  twp vfs_biglock_acquire (λ _, bal d (n + 1) (k + 1) s0) s.
Proof.
  intros B Hr Hk Hdk. pose proof (bal_room _ _ _ 1 _ _ B Hr Hk Hdk) as (_ & H1 & H2).
  unfold twp, vfs_biglock_acquire, modify. rewrite u32_small by lia.
  split; try apply B.
  - apply depth_ok, B.
  - apply depth_fs, B.
  - intros w. change (refs s w <= refs s0 w + (n + 1)). pose proof (b_top _ _ _ _ _ _ B w). lia.
  - simpl. rewrite (b_depth _ _ _ _ _ _ B). lia.
Qed.

Lemma release_from d n k s0 s :
  bal d n k s0 s → 0 < vfs_biglock_depth s0 + k →
  twp vfs_biglock_release (λ _, bal d n (k - 1) s0) s.
Proof.
  intros B Hd. unfold twp, vfs_biglock_release. mrun. simpl. unfold kassert.
  rewrite (b_depth _ _ _ _ _ _ B). destruct (Z.ltb_spec 0 (vfs_biglock_depth s0 + k)); [| lia].
  simpl. split; try apply B.
  - apply depth_ok, B.
  - apply depth_fs, B.
  - simpl. lia.
Qed.

(** A reference taken by [VOP_INCREF]. *)
Lemma incref_from d n k s0 s v x :
  bal d n k s0 s → room (n + 1) s0 → k <= n → 0 <= vfs_biglock_depth s0 + k →
  vnodes s !! v = Some x →
  twp (VOP_INCREF v) (λ _, bal (λ w, d w + one v w) (n + 1) k s0) s.
Proof.
  intros B Hr Hk Hdk Hx. pose proof (bal_room _ _ _ 1 _ _ B Hr Hk Hdk) as H1.
  eapply twp_mono; [| apply (incref_ok fs_inv fs_inv_ext s v x); try done; apply B].
  intros [] s' B'. simpl in B'. eapply bal_ext; [apply (bal_trans _ _ _ _ _ _ _ _ _ B B') |..];
    simpl; intros; lia.
Qed.

(** *** Dropping a reference *)

Lemma vnode_check_ok s v x : vfs_ok s → vnodes s !! v = Some x → vnode_check v s = Done x s.
Proof.
  intros Hok Hx. destruct (vo_live s Hok v x Hx) as (H1 & H2 & H3 & H4).
  unfold vnode_check, get_vnode. destruct (Z.eqb_spec v 0); [done |].
  destruct (Z.eqb_spec v 0xdeadbeef); [done |]. mrun. rewrite Hx.
  destruct (Z.eqb_spec (vn_fs x) 0xdeadbeef); [done |].
  destruct (Z.ltb_spec (vn_refcount x) 0); [lia |].
  destruct (Z.eqb_spec (vn_refcount x) 0); [lia | done].
Qed.

(** The calls through the operations table. *)
Lemma vop_run {A} s v x (dev fs : M (vfs W) A) :
  vfs_ok s → vnodes s !! v = Some x →
  vop v dev fs s = match vn_ops x with dev_vnode_ops => dev s | fs_vnode_ops _ => fs s end.
Proof.
  intros Hok Hx. unfold vop, mbind, M_bind. rewrite (vnode_check_ok s v x) by done.
  by destruct (vn_ops x).
Qed.

Lemma owned_nonneg s v : 0 <= owned s v.
Proof.
  unfold owned, b2z. pose proof (countb_range (λ kd, kd_vnode kd =? v) (knowndevs s)).
  repeat case_match; lia.
Qed.

Lemma kd_counted s kd : kd ∈ knowndevs s → 1 <= countb (λ k, kd_vnode k =? kd_vnode kd) (knowndevs s).
Proof.
  intros Hin. pose proof (countb_range (λ k, kd_vnode k =? kd_vnode kd) (knowndevs s)).
  destruct (decide (countb (λ k, kd_vnode k =? kd_vnode kd) (knowndevs s) = 0)) as [E|]; [| lia].
  rewrite countb_zero in E. specialize (E kd Hin). simpl in E. by rewrite Z.eqb_refl in E.
Qed.

Lemma not_dev s v x : vfs_ok s → vnodes s !! v = Some x → owned s v = 0 →
  ∃ t, vn_ops x = fs_vnode_ops t.
Proof.
  intros Hok Hx Ho. destruct (vn_ops x) as [|t] eqn:E; [| eauto].
  assert (Hd : devpart s !! v = Some (vn_data x)).
  { unfold devpart. rewrite lookup_omap, Hx. simpl. by rewrite decide_True. }
  destruct (vo_dev s Hok v _ Hd) as (kd & Hin & <-). pose proof (kd_counted s kd Hin).
  unfold owned, b2z in Ho. destruct (bootfs_vnode s =? kd_vnode kd), (p_cwd s =? kd_vnode kd); lia.
Qed.

(** The warning of [vnode_decref]. *)
Lemma warn_bal s v :
  vfs_ok s → fs_inv s → owned s v + 1 <= held s v →
  bal (λ w, - one v w) 0 0 s (with_warned (v :: warned s) s).
Proof.
  intros Hok Hfs Ho.
  assert (Hheld : ∀ w, held (with_warned (v :: warned s) s) w = held s w + - one v w).
  { intros w. unfold held, one. cbn [countb warned with_warned].
    change (refs (with_warned (v :: warned s) s) w) with (refs s w).
    rewrite (Z.eqb_sym v w). lia. }
  split; [| | done | done | |].
  - eapply vfs_ok_counts; [done | done | done | |].
    + intros w y Hy. by destruct (vo_live s Hok w y Hy) as (_ & _ & _ & ?).
    + intros w Hw. rewrite Hheld. pose proof (vo_owned s Hok w Hw). unfold one.
      destruct (Z.eqb_spec w v) as [-> |]; simpl; lia.
  - eapply fs_inv_ext; [..| exact Hfs]; done.
  - intros w. change (refs s w <= refs s w + 0). lia.
  - simpl. lia.
Qed.

Lemma decref_ok s v :
  vfs_ok s → fs_inv s → v ≠ 0 → owned s v + 1 <= held s v →
  twp (VOP_DECREF v) (λ _, bal (λ w, - one v w) 0 0 s) s.
Proof.
  intros Hok Hfs Hv Ho. pose proof (owned_nonneg s v).
  destruct (held_live s v) as (x & Hx); [lia |].
  destruct (vo_live s Hok v x Hx) as (_ & _ & _ & Hp).
  assert (Er : refs s v = vn_refcount x) by (unfold refs; by rewrite Hx).
  unfold VOP_DECREF, vnode_decref, get_vnode. apply twp_bind.
  unfold twp at 1, kassert. destruct (Z.eqb_spec v 0); [done |]. simpl.
  apply twp_bind. unfold twp at 1, deref. rewrite Hx. apply twp_bind. unfold twp at 1, kassert.
  destruct (Z.ltb_spec 0 (vn_refcount x)); [| lia]. simpl.
  destruct (Z.ltb_spec 1 (vn_refcount x)).
  - unfold twp, set_vnode, modify. assert (Hp' : 1 <= vn_refcount x + -1) by lia.
    assert (Ho' : owned s v <= held s v + -1) by lia.
    eapply bal_ext; [apply (set_count fs_inv fs_inv_ext s v x (-1) Hok Hfs Hx Hp' Ho') |..]; simpl; intros; lia.
  - pose proof (countb_range (λ w, w =? v) (warned s)) as Hc. unfold held in Ho.
    assert (Ho0 : owned s v = 0) by lia. destruct (not_dev s v x Hok Hx Ho0) as (t & Et).
    apply twp_bind. unfold twp at 1, VOP_RECLAIM. rewrite (vop_run s v x) by done. rewrite Et.
    assert (Hrc : vn_refcount x = 1) by lia. assert (Hh : 1 <= held s v) by (unfold held; lia).
    pose proof (law_reclaim s v x t Hok Hfs Hx Et Hrc Hh Ho0) as L. unfold twp in L.
    destruct (fs_reclaim v s) as [e s1 | | |]; try done.
    destruct L as [[-> B] | (He & Hb & B)]; [done |].
    destruct (Z.eqb_spec e 0); [done |]. destruct (Z.eqb_spec e EBUSY); [done |]. simpl.
    eapply bal_ext; [eapply (bal_trans _ _ _ _ _ _ _ _ _ B), warn_bal | ..].
    + apply B.
    + apply B.
    + rewrite (b_held _ _ _ _ _ _ B), (fixed_owned s s1 v (b_fixed _ _ _ _ _ _ B)).
      unfold none. lia.
    + intros w. unfold none. lia.
    + lia.
    + lia.
Qed.

Lemma decref_from d n k s0 s v :
  bal d n k s0 s → vfs_ok s0 → v ≠ 0 → 1 <= d v →
  twp (VOP_DECREF v) (λ _, bal (λ w, d w - one v w) n k s0) s.
Proof.
  intros B Hok Hv Hd. eapply twp_mono; [| apply decref_ok; try apply B; [done |]].
  - intros [] s' B'. simpl in B'. eapply bal_ext; [apply (bal_trans _ _ _ _ _ _ _ _ _ B B') |..];
      simpl; intros; lia.
  - rewrite (fixed_owned s0 s v (b_fixed _ _ _ _ _ _ B)), (b_held _ _ _ _ _ _ B).
    pose proof (vo_owned s0 Hok v Hv). lia.
Qed.

(** ** Calls inside an operation that started in [s0] *)

Section from.
Variable s0 : vfs W.
Hypothesis Hok0 : vfs_ok s0.
Hypothesis Hr0 : room 32 s0.

Lemma from_room d n k s :
  bal d n k s0 s → 0 <= k <= n → n <= 31 → room 1 s.
Proof.
  intros B Hk Hn. destruct Hr0 as (H1 & H2 & H3).
  apply (bal_room _ _ _ 1 _ _ B); [| lia | lia].
  split; [intros v; specialize (H1 v); lia | lia].
Qed.

(** The outcome of an operation that hands back a vnode. *)
Definition got (d : Z → Z) (n k e v : Z) (s' : vfs W) : Prop :=
  (e = 0 ∧ v ≠ 0 ∧ dev_usable s' v ∧ bal (λ w, d w + one v w) n k s0 s') ∨
  (e ≠ 0 ∧ bal d n k s0 s').

Lemma bal_from d n k d' n' k' s s' :
  bal d n k s0 s → bal d' n' k' s s' → bal (λ w, d w + d' w) (n + n') (k + k') s0 s'.
Proof. apply bal_trans. Qed.

Lemma balanced_from {A} (m : M (vfs W) A) d n k s :
  bal d n k s0 s → balanced fs_inv s m → twp m (λ _, bal d (n + 1) k s0) s.
Proof.
  intros B Hm. eapply twp_mono; [| apply Hm]. intros a s' B'. simpl in B'.
  eapply bal_ext; [apply (bal_from _ _ _ _ _ _ _ _ B B') |..]; unfold none; intros; lia.
Qed.

Lemma got_intro d n k e v s s' :
  bal d n k s0 s →
  (e = 0 ∧ v ≠ 0 ∧ dev_usable s' v ∧ bal (one v) 1 0 s s') ∨ (e ≠ 0 ∧ bal none 1 0 s s') →
  got d (n + 1) k e v s'.
Proof.
  intros B [(He & Hv & Hu & B') | (He & B')]; [left | right]; repeat split_and?; try done;
    (eapply bal_ext; [apply (bal_from _ _ _ _ _ _ _ _ B B') |..]; unfold none; intros; lia).
Qed.

Lemma gives_from (m : M (vfs W) (Z * Z)) d n k s :
  bal d n k s0 s → gives_vnode fs_inv s m → twp m (λ r, got d (n + 1) k r.1 r.2) s.
Proof.
  intros B Hm. eapply twp_mono; [| apply Hm]. intros r s' H. simpl in H. by eapply got_intro.
Qed.

Lemma from_live d n k s v : bal d n k s0 s → v ≠ 0 → 1 <= d v → ∃ x, vnodes s !! v = Some x.
Proof.
  intros B Hv Hd. apply held_live. rewrite (b_held _ _ _ _ _ _ B).
  pose proof (vo_owned s0 Hok0 v Hv). pose proof (owned_nonneg s0 v). lia.
Qed.

Lemma vop_from {A} (dev fs : M (vfs W) A) (Q : A → vfs W → Prop) d n k s v :
  bal d n k s0 s → v ≠ 0 → 1 <= d v →
  (∀ x, vnodes s !! v = Some x → devpart s !! v = Some (vn_data x) → twp dev Q s) →
  (fs_vnode s v → twp fs Q s) → twp (vop v dev fs) Q s.
Proof.
  intros B Hv Hd Hdev Hfs. destruct (from_live d n k s v B Hv Hd) as (x & Hx).
  unfold twp. rewrite (vop_run s v x) by (done || apply B).
  destruct (vn_ops x) as [|t] eqn:E.
  - apply (Hdev x Hx). unfold devpart. rewrite lookup_omap, Hx. simpl. by rewrite decide_True.
  - apply Hfs. by exists x, t.
Qed.

Lemma incref_at d n k s v x :
  bal d n k s0 s → 0 <= k <= n → n <= 31 → vnodes s !! v = Some x →
  twp (VOP_INCREF v) (λ _, bal (λ w, d w + one v w) (n + 1) k s0) s.
Proof.
  intros B Hk Hn Hx. destruct Hr0 as (H1 & H2 & H3). eapply incref_from; try done; try lia.
  split; [intros w; specialize (H1 w); lia | lia].
Qed.
Lemma acquire_at d n k s :
  bal d n k s0 s → 0 <= k <= n → n <= 31 →
  twp vfs_biglock_acquire (λ _, bal d (n + 1) (k + 1) s0) s.
Proof.
  intros B Hk Hn. destruct Hr0 as (H1 & H2 & H3). eapply acquire_from; try done; try lia.
  split; [intros w; specialize (H1 w); lia | lia].
Qed.
Lemma release_at d n k s :
  bal d n k s0 s → 1 <= k → twp vfs_biglock_release (λ _, bal d n (k - 1) s0) s.
Proof. intros B Hk. destruct Hr0 as (_ & H2 & _). apply release_from; [done | lia]. Qed.

(** *** The current directory and the device list *)

Lemma cwd_usable d n k s : bal d n k s0 s → dev_usable s (p_cwd s).
Proof. intros B. apply (vo_cwd_dev s), B. Qed.

Lemma getcurdir_from d n k s :
  bal d n k s0 s → 0 <= k <= n → n <= 31 →
  twp vfs_getcurdir (λ r s', got d (n + 1) k r.1 r.2 s' ∧ (r.1 = 0 → r.2 = p_cwd s0)) s.
Proof.
  intros B Hk Hn. assert (Ec : p_cwd s = p_cwd s0).
  { pose proof (b_fixed _ _ _ _ _ _ B) as E. unfold fixed in E. by injection E. }
  unfold vfs_getcurdir. apply twp_bind. unfold twp at 1, gets.
  destruct (Z.eqb_spec (p_cwd s) 0) as [E0|N0]; simpl.
  - split; [right | done]. split; [done |]. bal_as B.
  - apply twp_bind. destruct (vo_cwd s (b_ok _ _ _ _ _ _ B) N0) as (x & Hx & _).
    eapply twp_mono; [| by eapply incref_at]. intros [] s' B'. simpl in *.
    split; [left | done]. repeat split_and?; try done.
    eapply fixed_usable; [| by eapply cwd_usable].
    by rewrite (b_fixed _ _ _ _ _ _ B'), (b_fixed _ _ _ _ _ _ B).
Qed.

Lemma device_vnode_from d n k s kd :
  bal d n k s0 s → 0 <= k <= n → n <= 31 → kd ∈ knowndevs s → kd_device kd ≠ 0 →
  twp (device_vnode kd) (λ r, got d (n + 1) k r.1 r.2) s.
Proof.
  intros B Hk Hn Hin Hd. destruct (vo_kd s (b_ok _ _ _ _ _ _ B) kd Hin) as [Hv Hdev _ _].
  assert (exists x, vnodes s !! kd_vnode kd = Some x) as (x & Hx).
  { unfold devpart in Hv. rewrite lookup_omap in Hv. destruct (vnodes s !! kd_vnode kd); [eauto | done]. }
  unfold device_vnode. apply twp_bind. unfold twp at 1, kassert.
  destruct (Z.eqb_spec (kd_device kd) 0); [done |]. simpl. apply twp_bind.
  eapply twp_mono; [| by eapply incref_at]. intros [] s' B'. left. simpl.
  repeat split_and?; try done; [eapply live_ne; [apply B | done] |].
  apply (fixed_usable s); [by rewrite (b_fixed _ _ _ _ _ _ B'), (b_fixed _ _ _ _ _ _ B)|].
  intros d' Hd'. rewrite Hv in Hd'. injection Hd' as <-. by apply Hdev.
Qed.

Lemma getroot_from d n k s devname :
  bal d n k s0 s → 0 <= k <= n → n <= 31 →
  twp (vfs_getroot devname) (λ r, got d (n + 1) k r.1 r.2) s.
Proof.
  intros B Hk Hn. unfold vfs_getroot. apply twp_bind. unfold twp at 1. simpl.
  apply twp_bind. unfold twp at 1, gets. assert (Hl : ∀ kd, kd ∈ knowndevs s → kd ∈ knowndevs s) by done.
  revert Hl. generalize (knowndevs s) at 1 3 as l. induction l as [|kd l IH]; intros Hl; simpl.
  { right. split; [done |]. bal_as B. }
  apply twp_bind. unfold twp at 1, gets.
  assert (Hkd : kd ∈ knowndevs s) by (apply Hl; left).
  destruct (vo_kd s (b_ok _ _ _ _ _ _ B) kd Hkd) as [Hv Hdev Hraw Hplain].
  assert (Hnone : got d (n + 1) k ENXIO 0 s).
  { right. split; [done |]. bal_as B. }
  destruct (has_fs kd) eqn:Ehf; simpl.
  - destruct (strcmp0 (kd_name kd) devname || _)%bool eqn:Em; simpl.
    + apply gives_from; [done |]. apply law_getroot; [apply B | apply B | by eapply from_room |].
      left. eauto.
    + apply orb_false_elim in Em as [-> _].
      destruct (kd_rawname kd) as [r|] eqn:Er; simpl.
      * destruct (strcmp0 r devname); [apply device_vnode_from; eauto |]. apply IH. set_solver.
      * apply IH. set_solver.
  - assert (Hnf : kd_rawname kd = None → kd_fs kd = 0).
    { intros E. destruct (Hplain E) as [Hs _]. unfold has_fs in Ehf.
      destruct (Z.eqb_spec (kd_fs kd) 0); [done |]. destruct (Z.eqb_spec (kd_fs kd) SWAP_FS); done. }
    destruct (kd_rawname kd) as [r|] eqn:Er; simpl.
    + destruct (strcmp0 (kd_name kd) devname); simpl; [done |].
      destruct (strcmp0 r devname); [apply device_vnode_from; eauto |]. apply IH. set_solver.
    + destruct (strcmp0 (kd_name kd) devname); simpl; [| apply IH; set_solver].
      apply twp_bind. unfold twp at 1, kassert. rewrite (Hnf eq_refl). simpl.
      apply twp_bind. unfold twp at 1. simpl. apply device_vnode_from; try done.
      apply Hplain; auto.
Qed.

(** *** Paths *)

Lemma got_mono d n n' k e v s' : got d n k e v s' → n <= n' → got d n' k e v s'.
Proof.
  intros [(He & Hv & Hu & B) | (He & B)] Hn; [left | right]; repeat split_and?; try done;
    bal_as B.
Qed.

(** A reference that was only needed for the call. *)
Lemma got_decref d n k e u v s :
  got (λ w, d w + one v w) n k e u s → v ≠ 0 → (∀ w, 0 <= d w) →
  twp (VOP_DECREF v) (λ _, got d n k e u) s.
Proof.
  intros G Hv Hd. pose proof (one_range u v). specialize (Hd v).
  destruct G as [(-> & Hu0 & Hus & B) | [He B]];
    (eapply twp_mono; [| apply (decref_from _ _ _ s0 _ v B); try done; simpl; rewrite one_same; lia]).
  - intros [] s3 B3. left. simpl. split_and!; try done; [| bal_as B3].
    apply (fixed_usable s); [by rewrite (b_fixed _ _ _ _ _ _ B3), (b_fixed _ _ _ _ _ _ B) | done].
  - intros [] s3 B3. right. simpl. split; [done |]. bal_as B3.
Qed.

(** Releasing the lock at the end. *)
Lemma got_release d n k e u s :
  got d n k e u s → 1 <= k → twp vfs_biglock_release (λ _, got d n (k - 1) e u) s.
Proof.
  intros G Hk. destruct G as [(-> & Hu0 & Hus & B) | [He B]];
    (eapply twp_mono; [| by apply (release_at _ _ _ _ B)]); intros [] s3 B3; [left | right];
    split_and?; try done.
  apply (fixed_usable s); [by rewrite (b_fixed _ _ _ _ _ _ B3), (b_fixed _ _ _ _ _ _ B) | done].
Qed.

Lemma VOP_LOOKUP_from d n k s v sub :
  bal d n k s0 s → 0 <= k <= n → n <= 31 → v ≠ 0 → 1 <= d v → dev_usable s v →
  twp (VOP_LOOKUP v sub) (λ r, got d (n + 1) k r.1 r.2) s.
Proof.
  intros B Hk Hn Hv Hdv Hu. apply (vop_from _ _ _ d n k); try done.
  - intros x Hx _. unfold dev_lookup. destruct (Nat.ltb 0 (String.length sub)).
    { right. split; [done |]. bal_as B. }
    apply twp_bind. eapply twp_mono; [| apply (incref_at _ _ _ _ _ x B); done || lia].
    intros [] s1 B1. left. simpl. split_and!; try done.
    apply (fixed_usable s); [by rewrite (b_fixed _ _ _ _ _ _ B1), (b_fixed _ _ _ _ _ _ B) | done].
  - intros Hf. apply (gives_from _ _ _ _ _ B), law_lookup; try apply B; [| done].
    apply (from_room _ _ _ _ B); lia.
Qed.

Lemma scan_ge i p : 0 <= i →
  let '(a, b) := scan i p in (a = -1 ∨ i <= a) ∧ (b = -1 ∨ i <= b) ∧ (a = -1 ∨ b = -1).
Proof.
  revert i. induction p as [|c p IH]; intros i Hi; simpl; [auto |].
  destruct (Ascii.eqb c ":"); [lia |]. destruct (Ascii.eqb c "/"); [lia |].
  specialize (IH (i + 1) ltac:(lia)). destruct (scan (i + 1) p). lia.
Qed.

(** The root of the file system of the current directory, for [:path]. *)
Lemma colon_from d n k s rest :
  bal d n k s0 s → (∀ w, 0 <= d w) → 0 <= k <= n → n <= 30 →
  twp ('(r, vn) ← vfs_getcurdir;
       if negb (r =? 0) then mret (r, ""%string, 0)
       else
         v ← get_vnode vn;
         kassert (negb (vn_fs v =? 0)) "vn->vn_fs!=NULL" ;;
         '(r, startvn) ← FSOP_GETROOT (vn_fs v);
         VOP_DECREF vn ;;
         mret (r, skip_slashes rest, startvn))
    (λ r, got d (n + 2) k r.1.1 r.2) s.
Proof.
  intros B Hd Hk Hn. apply twp_bind. eapply twp_mono; [| apply (getcurdir_from d n k); try done; lia].
  intros [r vn] s1 [H1 Hc]. simpl in *. destruct (Z.eqb_spec r 0) as [-> | Hr]; simpl.
  2: { destruct H1 as [[-> _] | [_ B1]]; [done |]. right. split; [done |].
       bal_as B1. }
  specialize (Hc eq_refl). destruct H1 as [(_ & Hv & Hu & B1) | [? _]]; [| done].
  pose proof (b_ok _ _ _ _ _ _ B1) as Hok1.
  assert (Ec : p_cwd s1 = vn).
  { pose proof (b_fixed _ _ _ _ _ _ B1) as E. unfold fixed in E. injection E. congruence. }
  destruct (vo_cwd s1 Hok1) as (x & Hx & Hf); [congruence |]. rewrite Ec in Hx.
  apply twp_bind. unfold twp at 1, get_vnode, deref. rewrite Hx.
  apply twp_bind. unfold twp at 1, kassert. destruct (Z.eqb_spec (vn_fs x) 0); [done |]. simpl.
  apply twp_bind. eapply twp_mono; [| apply (gives_from _ _ _ _ _ B1), law_getroot].
  2: apply B1. 2: apply B1. 2: apply (from_room _ _ _ _ B1); lia.
  2: { right. by exists vn, x. }
  intros [e u] s2 G. simpl in G. apply twp_bind.
  eapply twp_mono; [| apply (got_decref _ _ _ _ _ vn _ G); done].
  intros [] s3 G3. simpl. eapply got_mono; [exact G3 | lia].
Qed.

Lemma getdevice_from d n k s path :
  bal d n k s0 s → (∀ w, 0 <= d w) → 0 <= k <= n → n <= 30 →
  twp (getdevice path) (λ r, got d (n + 2) k r.1.1 r.2) s.
Proof.
  intros B Hd Hk Hn. unfold getdevice. apply twp_bind. unfold twp at 1. simpl.
  destruct path as [|c rest].
  { right. split; [done |]. bal_as B. }
  pose proof (scan_ge 1 rest ltac:(lia)) as Hs. cbn [scan].
  destruct (Ascii.eqb c ":") eqn:Ec; cbn zeta iota beta.
  { simpl (_ && _). cbv iota. change (0 <? 0) with false. cbv iota. apply twp_bind.
    unfold twp at 1, kassert. simpl.
    assert (Ascii.eqb c "/" = false) as ->.
    { apply Ascii.eqb_eq in Ec as ->. done. }
    apply twp_bind. unfold twp at 1. simpl. by apply colon_from. }
  destruct (Ascii.eqb c "/") eqn:Es; cbn zeta iota beta.
  { simpl (_ && _). cbv iota. change (0 <? -1) with false. cbv iota. apply twp_bind.
    unfold twp at 1, kassert. simpl.
    apply twp_bind. unfold twp at 1, gets. destruct (Z.eqb_spec (bootfs_vnode s) 0) as [E0 | N0].
    { right. split; [done |]. bal_as B. }
    destruct (held_live s (bootfs_vnode s)) as (x & Hx).
    { pose proof (vo_owned s (b_ok _ _ _ _ _ _ B) _ N0) as Ho. unfold owned in Ho.
      rewrite Z.eqb_refl in Ho. pose proof (countb_range (λ kd, kd_vnode kd =? bootfs_vnode s) (knowndevs s)).
      unfold b2z in Ho. destruct (p_cwd s =? bootfs_vnode s); lia. }
    apply twp_bind. eapply twp_mono; [| apply (incref_at _ _ _ _ _ x B); done || lia].
    intros [] s1 B1. left. simpl. split_and!; try done; [| bal_as B1].
    apply (fixed_usable s); [by rewrite (b_fixed _ _ _ _ _ _ B1), (b_fixed _ _ _ _ _ _ B) |].
    apply (vo_boot s), B. }
  change (0 + 1) with 1. destruct (scan 1 rest) as [colon slash].
  destruct (Z.ltb_spec colon 0) as [Hc | Hc]; simpl.
  - destruct (Z.eqb_spec slash 0); [lia |]. simpl. apply twp_bind.
    eapply twp_mono; [| apply (getcurdir_from d n k); done || lia].
    intros [r vn] s1 [G _]. eapply got_mono; [exact G | lia].
  - destruct (Z.ltb_spec 0 colon); [| lia]. apply twp_bind.
    eapply twp_mono; [| apply (getroot_from d n k); done || lia].
    intros [r vn] s1 G. eapply got_mono; [exact G | lia].
Qed.

Lemma lookup_from d n k s path :
  bal d n k s0 s → (∀ w, 0 <= d w) → 0 <= k <= n → n <= 27 →
  twp (vfs_lookup path) (λ r, got d (n + 4) k r.1 r.2) s.
Proof.
  intros B Hd Hk Hn. unfold vfs_lookup. apply twp_bind.
  eapply twp_mono; [| apply (acquire_at _ _ _ _ B); lia]. intros [] s1 B1. apply twp_bind.
  eapply twp_mono; [| apply (getdevice_from _ _ _ _ path B1); done || lia].
  intros [[r sub] v] s2 G2. simpl in G2. destruct (Z.eqb_spec r 0) as [-> | Hr]; simpl.
  2: { destruct G2 as [[-> _] | [_ B2]]; [done |]. apply twp_bind.
       eapply twp_mono; [| apply (release_at _ _ _ _ B2); lia]. intros [] s3 B3. right. split; [done |].
       bal_as B3. }
  destruct (Nat.eqb (String.length sub) 0).
  { apply twp_bind. eapply twp_mono; [| apply (got_release _ _ _ _ _ _ G2); lia]. intros [] s3 G3.
    apply (got_mono _ (n + 1 + 2)); [| lia]. by replace k with (k + 1 - 1) by lia. }
  destruct G2 as [(_ & Hv & Hu & B2) | [Hr _]]; [| done].
  apply twp_bind. eapply twp_mono; [| apply (VOP_LOOKUP_from _ _ _ _ _ _ B2); try done; try lia].
  2: { rewrite one_same. specialize (Hd v). lia. }
  intros [e u] s3 G. simpl in G. apply twp_bind.
  eapply twp_mono; [| apply (got_decref _ _ _ _ _ v _ G); done]. intros [] s4 G4. apply twp_bind.
  eapply twp_mono; [| apply (got_release _ _ _ _ _ _ G4); lia]. intros [] s5 G5.
  apply (got_mono _ (n + 1 + 2 + 1)); [| lia]. by replace k with (k + 1 - 1) by lia.
Qed.

Lemma lookparent_from d n k s path len :
  bal d n k s0 s → (∀ w, 0 <= d w) → 0 <= k <= n → n <= 27 →
  twp (vfs_lookparent path len) (λ r, got d (n + 4) k r.1.1 r.1.2) s.
Proof.
  intros B Hd Hk Hn. unfold vfs_lookparent. apply twp_bind.
  eapply twp_mono; [| apply (acquire_at _ _ _ _ B); lia]. intros [] s1 B1. apply twp_bind.
  eapply twp_mono; [| apply (getdevice_from _ _ _ _ path B1); done || lia].
  intros [[r sub] v] s2 G2. simpl in G2. destruct (Z.eqb_spec r 0) as [-> | Hr]; simpl.
  2: { destruct G2 as [[-> _] | [_ B2]]; [done |]. apply twp_bind.
       eapply twp_mono; [| apply (release_at _ _ _ _ B2); lia]. intros [] s3 B3. right. split; [done |].
       bal_as B3. }
  destruct G2 as [(_ & Hv & Hu & B2) | [Hr _]]; [| done]. apply twp_bind.
  apply (twp_mono _ (λ r, got (λ w, d w + one v w) (n + 1 + 2 + 1) (k + 1) r.1.1 r.1.2)).
  - intros [[e u] name] s3 G. simpl in G. apply twp_bind.
    eapply twp_mono; [| apply (got_decref _ _ _ _ _ v _ G); done]. intros [] s4 G4. apply twp_bind.
    eapply twp_mono; [| apply (got_release _ _ _ _ _ _ G4); lia]. intros [] s5 G5. simpl.
    apply (got_mono _ (n + 1 + 2 + 1)); [| lia]. by replace k with (k + 1 - 1) by lia.
  - destruct (Nat.eqb (String.length sub) 0).
    { right. split; [done |]. bal_as B2. }
    eapply vop_from; [exact B2 | done | | |].
    { simpl. rewrite one_same. specialize (Hd v). lia. }
    { intros x Hx _. right. split; [done |]. bal_as B2. }
    intros Hf. eapply twp_mono; [| apply law_lookparent; [apply B2 | apply B2 | | exact Hf]].
    + intros [[e u] name] s3 G. simpl in *. by eapply got_intro.
    + apply (from_room _ _ _ _ B2); lia.
Qed.

(** *** Calls that leave the references alone *)

Lemma balanced_ret {A} (a : A) s : vfs_ok s → fs_inv s → balanced fs_inv s (mret a).
Proof.
  intros Hok Hfs. unfold balanced, twp. eapply bal_ext; [by apply bal_refl |..]; intros; try done; lia.
Qed.

Lemma vop_balanced {A} (dev fs : M (vfs W) A) d n k s v :
  bal d n k s0 s → 0 <= k <= n → n <= 31 → v ≠ 0 → 1 <= d v →
  (∀ x, vnodes s !! v = Some x → devpart s !! v = Some (vn_data x) → balanced fs_inv s dev) →
  (vfs_ok s → fs_inv s → room 1 s → fs_vnode s v → balanced fs_inv s fs) →
  twp (vop v dev fs) (λ _, bal d (n + 1) k s0) s.
Proof.
  intros B Hk Hn Hv Hdv Hdev Hfs. apply (vop_from _ _ _ d n k); try done.
  - intros x Hx Hp. apply balanced_from; [done | eauto].
  - intros Hf. apply balanced_from; [done |]. apply Hfs; try apply B; [| done].
    by apply (from_room _ _ _ _ B).
Qed.

(** A device vnode at hand and its device. *)
Lemma device_run s v x :
  vnodes s !! v = Some x → vnode_device v s = Done (vn_data x) s.
Proof. intros Hx. unfold vnode_device, get_vnode. mrun. by rewrite Hx. Qed.

Lemma VOP_EACHOPEN_from d n k s v flags :
  bal d n k s0 s → 0 <= k <= n → n <= 31 → v ≠ 0 → 1 <= d v → dev_usable s v →
  twp (VOP_EACHOPEN v flags) (λ _, bal d (n + 1) k s0) s.
Proof.
  intros B Hk Hn Hv Hdv Hu. apply vop_balanced; try done; [| intros; by apply law_eachopen].
  intros x Hx Hp. destruct (Hu _ Hp) as (dev & Hdev).
  unfold balanced, dev_eachopen. apply twp_bind. unfold twp at 1. rewrite (device_run s v x Hx).
  case_if; [apply balanced_ret; apply B |]. unfold DEVOP_EACHOPEN, get_device. apply twp_bind.
  unfold twp at 1, deref. rewrite Hdev. destruct (d_ops dev) as [|t] eqn:E.
  - apply balanced_ret; apply B.
  - eapply law_drv_eachopen; try done; try apply B. by apply (from_room _ _ _ _ B).
Qed.

Lemma VOP_TRUNCATE_from d n k s v len :
  bal d n k s0 s → 0 <= k <= n → n <= 31 → v ≠ 0 → 1 <= d v → dev_usable s v →
  twp (VOP_TRUNCATE v len) (λ _, bal d (n + 1) k s0) s.
Proof.
  intros B Hk Hn Hv Hdv Hu. apply vop_balanced; try done; [| intros; by apply law_truncate].
  intros x Hx Hp. destruct (Hu _ Hp) as (dev & Hdev).
  unfold balanced, dev_truncate. apply twp_bind. unfold twp at 1. rewrite (device_run s v x Hx).
  apply twp_bind. unfold twp at 1, get_device, deref. rewrite Hdev.
  case_if; apply balanced_ret; apply B.
Qed.

(** *** Opening *)

(** Dropping the one reference at hand on an error. *)
Lemma fail_open d n k s v e :
  bal (λ w, d w + one v w) n k s0 s → (∀ w, 0 <= d w) → v ≠ 0 → e ≠ 0 →
  twp (VOP_DECREF v ;; mret (e, 0)) (λ r, got d n k r.1 r.2) s.
Proof.
  intros B Hd Hv He. apply twp_bind.
  eapply twp_mono; [| apply (decref_from _ _ _ s0 _ v B); try done].
  - intros [] s1 B1. right. split; [done |]. bal_as B1.
  - simpl. rewrite one_same. specialize (Hd v). lia.
Qed.

Lemma open_vnode_from d n k s v flags canwrite :
  bal (λ w, d w + one v w) n k s0 s → (∀ w, 0 <= d w) → v ≠ 0 → dev_usable s v →
  0 <= k <= n → n <= 30 →
  twp (open_vnode v flags canwrite) (λ r, got d (n + 2) k r.1 r.2) s.
Proof.
  intros B Hd Hv Hu Hk Hn. assert (Hdv : 1 <= d v + one v v).
  { rewrite one_same. specialize (Hd v). lia. }
  unfold open_vnode. apply twp_bind. unfold twp at 1, kassert.
  destruct (Z.eqb_spec v 0); [done |]. simpl. apply twp_bind.
  eapply twp_mono; [| apply (VOP_EACHOPEN_from _ _ _ _ v flags B); done || lia].
  intros e s1 B1. simpl in B1. destruct (Z.eqb_spec e 0) as [-> | He]; simpl.
  2: { eapply twp_mono; [| by apply (fail_open _ _ _ _ _ _ B1)].
       intros [] s2 G. eapply got_mono; [exact G | lia]. }
  assert (Hu1 : dev_usable s1 v).
  { apply (fixed_usable s); [by rewrite (b_fixed _ _ _ _ _ _ B1), (b_fixed _ _ _ _ _ _ B) | done]. }
  destruct (Z.land flags O_TRUNC =? 0); simpl.
  { left. split_and!; try done. bal_as B1. }
  apply twp_bind. apply (twp_mono _ (λ _, bal (λ w, d w + one v w) (n + 1 + 1) k s0)).
  - intros e s2 B2. simpl in B2. destruct (Z.eqb_spec e 0) as [-> | He]; simpl.
    + left. simpl. split_and!; try done; [| bal_as B2].
      apply (fixed_usable s1); [by rewrite (b_fixed _ _ _ _ _ _ B2), (b_fixed _ _ _ _ _ _ B1) | done].
    + eapply twp_mono; [| by apply (fail_open _ _ _ _ _ _ B2)].
      intros [] s3 G. eapply got_mono; [exact G | lia].
  - destruct canwrite; simpl; [apply VOP_TRUNCATE_from; done || lia |]. unfold twp. simpl. bal_as B1.
Qed.

Lemma open_from d n k s path flags mode :
  bal d n k s0 s → (∀ w, 0 <= d w) → 0 <= k <= n → n <= 25 →
  twp (vfs_open path flags mode) (λ r, got d (n + 7) k r.1 r.2) s.
Proof.
  intros B Hd Hk Hn. unfold vfs_open.
  assert (Herr : ∀ e m s', e ≠ 0 → m <= n + 7 → bal d m k s0 s' → got d (n + 7) k e 0 s').
  { intros e m s' He Hm B'. right. split; [done |]. bal_as B'. }
  case_if; [by apply (Herr _ n); [| lia |] |]. case_if; apply twp_bind.
  - eapply twp_mono; [| apply (lookparent_from _ _ _ _ path NAMEBUF B); done || lia].
    intros [[r dir] name] s1 G1. simpl in G1. destruct (Z.eqb_spec r 0) as [-> | Hr]; simpl.
    2: { destruct G1 as [[-> _] | [_ B1]]; [done |]. by apply (Herr _ (n + 4)); [| lia |]. }
    destruct G1 as [(_ & Hv & Hu & B1) | [? _]]; [| done]. apply twp_bind.
    apply (twp_mono _ (λ r, got (λ w, d w + one dir w) (n + 4 + 1) k r.1 r.2)).
    + intros [e v] s2 G2. simpl in G2. apply twp_bind.
      eapply twp_mono; [| apply (got_decref _ _ _ _ _ dir _ G2); done]. intros [] s3 G3.
      destruct (Z.eqb_spec e 0) as [-> | He]; simpl.
      * destruct G3 as [(_ & Hv3 & Hu3 & B3) | [? _]]; [| done].
        eapply twp_mono; [| apply (open_vnode_from _ _ _ _ _ _ _ B3); done || lia].
        intros [] s4 G4. eapply got_mono; [exact G4 | lia].
      * destruct G3 as [[-> _] | [_ B3]]; [done |]. by apply (Herr _ (n + 4 + 1)); [| lia |].
    + eapply vop_from; [exact B1 | done | | |].
      { simpl. rewrite one_same. specialize (Hd dir). lia. }
      { intros x Hx _. right. split; [done |]. bal_as B1. }
      intros Hf. apply (gives_from _ _ _ _ _ B1), law_creat; try apply B1; [| done].
      apply (from_room _ _ _ _ B1); lia.
  - eapply twp_mono; [| apply (lookup_from _ _ _ _ path B); done || lia].
    intros [r v] s1 G1. simpl in G1. destruct (Z.eqb_spec r 0) as [-> | Hr]; simpl.
    2: { destruct G1 as [[-> _] | [_ B1]]; [done |]. by apply (Herr _ (n + 4)); [| lia |]. }
    destruct G1 as [(_ & Hv & Hu & B1) | [? _]]; [| done].
    eapply twp_mono; [| apply (open_vnode_from _ _ _ _ _ _ _ B1); done || lia].
    intros [] s4 G4. eapply got_mono; [exact G4 | lia].
Qed.

(** *** Operations on names *)

Lemma with_parent_from d n k s path (op : Z → string → M (vfs W) Z) :
  bal d n k s0 s → (∀ w, 0 <= d w) → 0 <= k <= n → n <= 26 →
  (∀ d' n' s' v name, bal d' n' k s0 s' → 0 <= k <= n' → n' <= 31 → v ≠ 0 → 1 <= d' v →
     twp (op v name) (λ _, bal d' (n' + 1) k s0) s') →
  twp (with_parent path op) (λ _, bal d (n + 5) k s0) s.
Proof.
  intros B Hd Hk Hn Hop. unfold with_parent. apply twp_bind.
  eapply twp_mono; [| apply (lookparent_from _ _ _ _ path NAMEBUF B); done || lia].
  intros [[r dir] name] s1 G1. simpl in G1. destruct (Z.eqb_spec r 0) as [-> | Hr]; simpl.
  2: { destruct G1 as [[-> _] | [_ B1]]; [done |]. unfold twp. simpl. bal_as B1. }
  destruct G1 as [(_ & Hv & Hu & B1) | [? _]]; [| done]. apply twp_bind.
  assert (Hdv : 1 <= d dir + one dir dir).
  { rewrite one_same. specialize (Hd dir). lia. }
  eapply twp_mono; [| apply (Hop _ _ _ dir name B1); done || lia].
  intros e s2 B2. simpl in B2. apply twp_bind.
  eapply twp_mono; [| by apply (decref_from _ _ _ s0 _ dir B2)].
  intros [] s3 B3. unfold twp. simpl. bal_as B3.
Qed.

(** Two vnodes at hand, the second to be dropped first. *)
Lemma drop_two d n k s v u (e : Z) :
  bal (λ w, d w + one v w + one u w) n k s0 s → (∀ w, 0 <= d w) → v ≠ 0 → u ≠ 0 →
  twp (VOP_DECREF u ;; VOP_DECREF v ;; mret e) (λ _, bal d n k s0) s.
Proof.
  intros B Hd Hv Hu. apply twp_bind.
  eapply twp_mono; [| apply (decref_from _ _ _ s0 _ u B); try done].
  2: { simpl. rewrite one_same. specialize (Hd u). pose proof (one_range v u). lia. }
  intros [] s1 B1. apply twp_bind.
  eapply twp_mono; [| apply (decref_from _ _ _ s0 _ v B1); try done].
  2: { simpl. rewrite one_same. specialize (Hd v). pose proof (one_range v u). lia. }
  intros [] s2 B2. unfold twp. simpl. bal_as B2.
Qed.

(** The common part of [vfs_rename] and [vfs_link]. *)
Lemma two_dirs_from d n k s v u (m : M (vfs W) Z) :
  bal (λ w, d w + one v w + one u w) n k s0 s → (∀ w, 0 <= d w) → v ≠ 0 → u ≠ 0 →
  twp m (λ _, bal (λ w, d w + one v w + one u w) (n + 1) k s0) s →
  twp (same ← same_fs v u;
       if negb same then VOP_DECREF u ;; VOP_DECREF v ;; mret EXDEV
       else result ← m; VOP_DECREF u ;; VOP_DECREF v ;; mret result)
    (λ _, bal d (n + 1) k s0) s.
Proof.
  intros B Hd Hv Hu Hm. pose proof (one_range v u). pose proof (one_range u v).
  destruct (from_live _ _ _ _ v B Hv) as (x & Hx).
  { rewrite one_same. specialize (Hd v). lia. }
  destruct (from_live _ _ _ _ u B Hu) as (y & Hy).
  { rewrite one_same. specialize (Hd u). lia. }
  apply twp_bind. unfold twp at 1, same_fs, get_vnode. mrun. rewrite Hx, Hy.
  case_if.
  - eapply twp_mono; [| by apply (drop_two _ _ _ _ _ _ _ B)]. intros [] s1 B1; simpl in B1; bal_as B1.
  - apply twp_bind. eapply twp_mono; [| apply Hm]. intros e s1 B1. by apply (drop_two _ _ _ _ _ _ _ B1).
Qed.

(** The rest of [vfs_rename] and [vfs_link], with the vnode [v] of the old name. *)
Lemma newdir_from d n k s v newpath (op : Z → string → M (vfs W) Z) :
  bal (λ w, d w + one v w) n k s0 s → (∀ w, 0 <= d w) → v ≠ 0 → 0 <= k <= n → n <= 26 →
  (∀ u name s', bal (λ w, d w + one v w + one u w) (n + 4) k s0 s' → u ≠ 0 →
     twp (op u name) (λ _, bal (λ w, d w + one v w + one u w) (n + 4 + 1) k s0) s') →
  twp ('(result, newdir, newname) ← vfs_lookparent newpath NAMEBUF;
       if negb (result =? 0) then VOP_DECREF v ;; mret result
       else
         same ← same_fs v newdir;
         if negb same then VOP_DECREF newdir ;; VOP_DECREF v ;; mret EXDEV
         else
           result ← op newdir newname;
           VOP_DECREF newdir ;; VOP_DECREF v ;; mret result)
    (λ _, bal d (n + 5) k s0) s.
Proof.
  intros B Hd Hv Hk Hn Hop. apply twp_bind. assert (Hd1 : ∀ w, 0 <= d w + one v w).
  { intros w. specialize (Hd w). pose proof (one_range v w). lia. }
  eapply twp_mono; [| apply (lookparent_from _ _ _ _ newpath NAMEBUF B); done || lia].
  intros [[r u] newname] s2 G2. simpl in G2. destruct (Z.eqb_spec r 0) as [-> | Hr]; simpl.
  2: { destruct G2 as [[-> _] | [_ B2]]; [done |]. apply twp_bind.
       eapply twp_mono; [| apply (decref_from _ _ _ s0 _ v B2); try done].
       - intros [] s3 B3. unfold twp. simpl. bal_as B3.
       - simpl. rewrite one_same. specialize (Hd v). lia. }
  destruct G2 as [(_ & Hu0 & Hu2 & B2) | [? _]]; [| done].
  eapply twp_mono; [| apply (two_dirs_from _ _ _ _ _ _ _ B2); try done; by apply Hop].
  intros [] s3 B3; simpl in B3; bal_as B3.
Qed.

Lemma rename_from d n k s oldpath newpath :
  bal d n k s0 s → (∀ w, 0 <= d w) → 0 <= k <= n → n <= 22 →
  twp (vfs_rename oldpath newpath) (λ _, bal d (n + 9) k s0) s.
Proof.
  intros B Hd Hk Hn. unfold vfs_rename. apply twp_bind.
  eapply twp_mono; [| apply (lookparent_from _ _ _ _ oldpath NAMEBUF B); done || lia].
  intros [[r v] oldname] s1 G1. simpl in G1. destruct (Z.eqb_spec r 0) as [-> | Hr]; simpl.
  2: { destruct G1 as [[-> _] | [_ B1]]; [done |]. unfold twp. simpl. bal_as B1. }
  destruct G1 as [(_ & Hv & Hu & B1) | [? _]]; [| done].
  eapply twp_mono; [| apply (newdir_from _ _ _ _ v newpath (λ u name, VOP_RENAME v oldname u name) B1);
                      try done; try lia].
  { intros [] s3 B3; simpl in B3; bal_as B3. }
  intros u name s2 B2 Hu0. specialize (Hd v) as Hdv. pose proof (one_range u v).
  apply vop_balanced; try done; try lia; [rewrite one_same; lia | ..].
  - intros x Hx _. apply balanced_ret; apply B2.
  - intros H1 H2 H3 H4. apply law_rename; try done. eapply from_live; [exact B2 | done |]. simpl.
    rewrite one_same. specialize (Hd u). pose proof (one_range v u). lia.
Qed.

Lemma link_from d n k s oldpath newpath :
  bal d n k s0 s → (∀ w, 0 <= d w) → 0 <= k <= n → n <= 22 →
  twp (vfs_link oldpath newpath) (λ _, bal d (n + 9) k s0) s.
Proof.
  intros B Hd Hk Hn. unfold vfs_link. apply twp_bind.
  eapply twp_mono; [| apply (lookup_from _ _ _ _ oldpath B); done || lia].
  intros [r v] s1 G1. simpl in G1. destruct (Z.eqb_spec r 0) as [-> | Hr]; simpl.
  2: { destruct G1 as [[-> _] | [_ B1]]; [done |]. unfold twp. simpl. bal_as B1. }
  destruct G1 as [(_ & Hv & Hu & B1) | [? _]]; [| done].
  eapply twp_mono; [| apply (newdir_from _ _ _ _ v newpath (λ u name, VOP_LINK u name v) B1);
                      try done; try lia].
  { intros [] s3 B3; simpl in B3; bal_as B3. }
  intros u name s2 B2 Hu0. specialize (Hd u) as Hdu. pose proof (one_range v u).
  apply vop_balanced; try done; try lia; [rewrite one_same; lia | ..].
  - intros x Hx _. apply balanced_ret; apply B2.
  - intros H1 H2 H3 H4. apply law_link; try done. eapply from_live; [exact B2 | done |]. simpl.
    rewrite one_same. specialize (Hd v). pose proof (one_range u v). lia.
Qed.

Lemma readlink_from d n k s path u :
  bal d n k s0 s → (∀ w, 0 <= d w) → 0 <= k <= n → n <= 26 →
  twp (vfs_readlink path u) (λ _, bal d (n + 5) k s0) s.
Proof.
  intros B Hd Hk Hn. unfold vfs_readlink. apply twp_bind.
  eapply twp_mono; [| apply (lookup_from _ _ _ _ path B); done || lia].
  intros [r v] s1 G1. simpl in G1. destruct (Z.eqb_spec r 0) as [-> | Hr]; simpl.
  2: { destruct G1 as [[-> _] | [_ B1]]; [done |]. unfold twp. simpl. bal_as B1. }
  destruct G1 as [(_ & Hv & Hu & B1) | [? _]]; [| done]. apply twp_bind.
  assert (Hdv : 1 <= d v + one v v).
  { rewrite one_same. specialize (Hd v). lia. }
  eapply twp_mono; [| apply vop_balanced; [exact B1 | lia | lia | done | done | |]].
  - intros [e u'] s2 B2. simpl in B2. apply twp_bind.
    eapply twp_mono; [| by apply (decref_from _ _ _ s0 _ v B2)].
    intros [] s3 B3. unfold twp. simpl. bal_as B3.
  - intros x Hx _. apply balanced_ret; apply B1.
  - intros. by apply law_readlink.
Qed.
End from.

(** ** The operations of vfspath.c *)

(** What [vfs_open] does with references, over file systems that keep [FsLaws]: one
    more to the vnode it hands out, none after an error. *)
Lemma open_refs s path flags mode :
  vfs_ok s → fs_inv s → room 32 s →
  ∃ e v s', vfs_open path flags mode s = Done (e, v) s' ∧
    (e = 0 → v ≠ 0 ∧ ∃ x, vnodes s' !! v = Some x) ∧
    vfs_ok s' ∧ fs_inv s' ∧ fixed s' = fixed s ∧
    vfs_biglock_depth s' = vfs_biglock_depth s ∧
    ∀ w, held s' w = held s w + (if e =? 0 then one v w else 0).
Proof.
  intros Hok Hfs Hr. pose proof (bal_refl s Hok Hfs) as B.
  pose proof (open_from s Hok Hr none 0 0 s path flags mode B ltac:(done) ltac:(lia) ltac:(lia)) as T.
  apply twp_ex in T as ([e v] & s' & E & G). exists e, v, s'. split; [done |]. simpl in G.
  destruct G as [(-> & Hv & _ & B') | [He B']].
  - split; [| split_and!; try apply B'].
    + intros _. split; [done |]. apply held_live. rewrite (b_held _ _ _ _ _ _ B'). unfold none.
      rewrite one_same. pose proof (vo_owned s Hok v Hv). pose proof (owned_nonneg s v). lia.
    + rewrite (b_depth _ _ _ _ _ _ B'). lia.
  - split; [done |]. split_and!; try apply B'.
    + rewrite (b_depth _ _ _ _ _ _ B'). lia.
    + intros w. rewrite (b_held _ _ _ _ _ _ B'). destruct (Z.eqb_spec e 0); [done |]. done.
Qed.

(** The operations that give back all the references they take. *)
Inductive path_call :=
| Remove (path : string)
| Symlink (contents path : string)
| Mkdir (path : string) (mode : Z)
| Rmdir (path : string)
| Rename (oldpath newpath : string)
| Link (oldpath newpath : string)
| Readlink (path : string) (u : uio).

Definition run_call (c : path_call) : M (vfs W) Z :=
  match c with
  | Remove p => vfs_remove p
  | Symlink t p => vfs_symlink t p
  | Mkdir p m => vfs_mkdir p m
  | Rmdir p => vfs_rmdir p
  | Rename p q => vfs_rename p q
  | Link p q => vfs_link p q
  | Readlink p u => r ← vfs_readlink p u; mret r.1
  end.

(** These operations give back what they take, over file systems that keep [FsLaws]. *)
Lemma call_refs s c :
  vfs_ok s → fs_inv s → room 32 s →
  ∃ e s', run_call c s = Done e s' ∧ vfs_ok s' ∧ fs_inv s' ∧ fixed s' = fixed s ∧
    vfs_biglock_depth s' = vfs_biglock_depth s ∧ ∀ w, held s' w = held s w.
Proof.
  intros Hok Hfs Hr. pose proof (bal_refl s Hok Hfs) as B.
  assert (T : twp (run_call c) (λ _, bal none 9 0 s) s).
  { destruct c; simpl; try (eapply twp_mono; [| apply (with_parent_from s Hok Hr none 0 0); try done; try lia];
      [intros e s1 B1; simpl in B1; bal_as B1 |]; intros d' n' s' v name B' Hk Hn Hv Hd;
      apply (vop_balanced s Hok Hr); try done;
      [intros; apply balanced_ret; apply B' | intros]).
    - by apply law_remove.
    - by apply law_symlink.
    - by apply law_mkdir.
    - by apply law_rmdir.
    - eapply twp_mono; [| apply (rename_from s Hok Hr none 0 0); done || lia]. done.
    - eapply twp_mono; [| apply (link_from s Hok Hr none 0 0); done || lia]. done.
    - apply twp_bind. eapply twp_mono; [| apply (readlink_from s Hok Hr none 0 0); done || lia].
      intros e s1 B1. unfold twp. simpl. simpl in B1. bal_as B1. }
  apply twp_ex in T as (e & s' & E & B'). exists e, s'. split; [done |]. split_and!; try apply B'.
  - rewrite (b_depth _ _ _ _ _ _ B'). lia.
  - intros w. rewrite (b_held _ _ _ _ _ _ B'). unfold none. lia.
Qed.
End props.
End VfsProps.
