(* ===== verification/VfsCwd.v ===== *)
(** * The current directory and the boot file system

    [vfs_chdir], [vfs_setbootfs] and their inverses move references between the
    caller and the layer; the references of everybody else are unchanged. *)

From stdpp Require Import base list gmap numbers strings sets.
From Stdlib Require Import ZArith Lia Ascii.
From S2P Require Import Prelude Uio Vnode VfsList VfsPath VfsRefs VfsProps.
Import Uio Vnode VfsList VfsPath VfsRefs VfsProps.

#[local] Open Scope Z_scope.

Module VfsCwd.

Section cwd.
Context {W : Type} `{!Kernel W, !FileSystem W, !FsLaws W}.
Implicit Types s : vfs W.
Abbreviation bal := (bal fs_inv).
Abbreviation moved := (moved fs_inv).

Lemma bal_moved d n s s' : bal d n 0 s s' → moved d n s s'.
Proof.
  intros B. pose proof (b_fixed _ _ _ _ _ _ B) as E. split; try apply B.
  - unfold fixed in E. unfold base. by injection E as -> -> -> -> _ _ ->.
  - intros w _. unfold spare. rewrite (b_held _ _ _ _ _ _ B), (fixed_owned s s' w E). lia.
  - rewrite (b_depth _ _ _ _ _ _ B). lia.
Qed.

Lemma bal_moved_trans d1 n1 d2 n2 s s1 s2 :
  moved d1 n1 s s1 → moved d2 n2 s1 s2 → moved (λ w, d1 w + d2 w) (n1 + n2) s s2.
Proof.
  intros A B. split; try apply B.
  - by rewrite (m_base _ _ _ _ _ B), (m_base _ _ _ _ _ A).
  - intros w Hw. rewrite (m_spare _ _ _ _ _ B w Hw), (m_spare _ _ _ _ _ A w Hw). lia.
  - intros w. pose proof (m_top _ _ _ _ _ A w). pose proof (m_top _ _ _ _ _ B w). lia.
  - by rewrite (m_depth _ _ _ _ _ B), (m_depth _ _ _ _ _ A).
Qed.

Lemma moved_ext d n d' n' s s' :
  moved d n s s' → (∀ w, w ≠ 0 → d w = d' w) → n <= n' → moved d' n' s s'.
Proof.
  intros A Hd Hn. split; try apply A.
  - intros w Hw. rewrite <- Hd by done. by apply A.
  - intros w. pose proof (m_top _ _ _ _ _ A w). lia.
Qed.

Lemma base_usable s s' v : base s' = base s → dev_usable s v → dev_usable s' v.
Proof. unfold base, dev_usable. intros E. injection E as _ _ _ -> ->. done. Qed.

(** One of the two pointers of the layer was changed from [old] to [v], with a
    reference at hand for [v]; the reference of the old value is dropped. *)
Lemma swap_ok s s1 old v :
  vfs_ok s → vfs_ok s1 → fs_inv s1 → base s1 = base s →
  vfs_biglock_depth s1 = vfs_biglock_depth s →
  (∀ w, refs s1 w = refs s w) → (∀ w, held s1 w = held s w) →
  (∀ w, owned s1 w = owned s w - one old w + one v w) →
  (v ≠ 0 → owned s v + 1 <= held s v) →
  twp (if negb (old =? 0) then VOP_DECREF old else mret tt)
    (λ _ s', moved (λ w, - one v w) 0 s s' ∧ p_cwd s' = p_cwd s1 ∧
             bootfs_vnode s' = bootfs_vnode s1) s1.
Proof.
  intros Hok Hok1 Hfs1 Hb Hdep Hrefs Hheld Hown Hv.
  assert (Hspare : ∀ w, spare s1 w = spare s w + (one old w - one v w)).
  { intros w. unfold spare. rewrite Hown, Hheld. lia. }
  destruct (Z.eqb_spec old 0) as [E0 | N0]; simpl.
  - split; [| done]. split; try done.
    + intros w Hw. rewrite Hspare. unfold one at 1. destruct (Z.eqb_spec w old); [congruence | simpl; lia].
    + intros w. rewrite Hrefs. lia.
  - eapply twp_mono; [| apply decref_ok; try done].
    + intros [] s2 B. simpl in B. pose proof (b_fixed _ _ _ _ _ _ B) as E. unfold fixed in E.
      injection E as _ _ _ _ E5 E6 _. split; [| by rewrite E5, E6].
      apply bal_moved in B. split; try apply B.
      * by rewrite (m_base _ _ _ _ _ B).
      * intros w Hw. rewrite (m_spare _ _ _ _ _ B w Hw), Hspare. lia.
      * intros w. rewrite <- Hrefs. apply B.
      * by rewrite (m_depth _ _ _ _ _ B).
    + rewrite Hown, Hheld, one_same.
      pose proof (vo_owned s Hok old N0) as Ho. unfold one. destruct (Z.eqb_spec old v) as [Ev |]; simpl; [| lia].
      rewrite Ev in *. specialize (Hv N0). lia.
Qed.

Lemma usable_null s : vfs_ok s → dev_usable s 0.
Proof.
  intros Hok d. unfold devpart. rewrite lookup_omap.
  destruct (vnodes s !! 0) as [x|] eqn:Hx; [| done]. by destruct (live_ne s 0 x Hok Hx).
Qed.

Lemma set_cwd_ok s v :
  vfs_ok s → fs_inv s →
  (v ≠ 0 → owned s v + 1 <= held s v ∧ dev_usable s v ∧
           ∃ x, vnodes s !! v = Some x ∧ vn_fs x ≠ 0) →
  twp (old ← gets p_cwd; modify (with_cwd v) ;;
       (if negb (old =? 0) then VOP_DECREF old else mret tt))
    (λ _ s', moved (λ w, - one v w) 0 s s' ∧ p_cwd s' = v ∧ bootfs_vnode s' = bootfs_vnode s) s.
Proof.
  intros Hok Hfs Hv. apply twp_bind. unfold twp at 1, gets. apply twp_bind. unfold twp at 1, modify.
  assert (Hown : ∀ w, owned (with_cwd v s) w = owned s w - one (p_cwd s) w + one v w).
  { intros w. unfold owned, one. simpl. rewrite !(Z.eqb_sym w). lia. }
  eapply twp_mono; [| apply (swap_ok s (with_cwd v s) (p_cwd s) v); try done]; [done | | eapply fs_inv_ext; [..| exact Hfs]; done | intros Hw; apply (Hv Hw)].
  split; try apply Hok.
  - intros w Hw. rewrite Hown. change (held (with_cwd v s) w) with (held s w).
    pose proof (vo_owned s Hok w Hw). pose proof (one_range (p_cwd s) w). unfold one at 2.
    destruct (Z.eqb_spec w v) as [-> |]; simpl; [destruct (Hv Hw); lia | lia].
  - intros kd Hin. destruct (vo_kd s Hok kd Hin). split; assumption.
  - intros Hw. apply (Hv Hw).
  - destruct (decide (v = 0)) as [-> | Hne]; [exact (usable_null s Hok) | apply (Hv Hne)].
Qed.

Lemma change_bootfs_ok s v :
  vfs_ok s → fs_inv s → (v ≠ 0 → owned s v + 1 <= held s v ∧ dev_usable s v) →
  twp (change_bootfs v)
    (λ _ s', moved (λ w, - one v w) 0 s s' ∧ p_cwd s' = p_cwd s ∧ bootfs_vnode s' = v) s.
Proof.
  intros Hok Hfs Hv. apply twp_bind. unfold twp at 1, gets. apply twp_bind. unfold twp at 1, modify.
  assert (Hown : ∀ w, owned (with_bootfs v s) w = owned s w - one (bootfs_vnode s) w + one v w).
  { intros w. unfold owned, one. simpl. rewrite !(Z.eqb_sym w). lia. }
  eapply twp_mono; [| apply (swap_ok s (with_bootfs v s) (bootfs_vnode s) v); try done]; [done | | eapply fs_inv_ext; [..| exact Hfs]; done | intros Hw; apply (Hv Hw)].
  split; try apply Hok.
  - intros w Hw. rewrite Hown. change (held (with_bootfs v s) w) with (held s w).
    pose proof (vo_owned s Hok w Hw). pose proof (one_range (bootfs_vnode s) w). unfold one at 2.
    destruct (Z.eqb_spec w v) as [-> |]; simpl; [destruct (Hv Hw); lia | lia].
  - intros kd Hin. destruct (vo_kd s Hok kd Hin). split; assumption.
  - destruct (decide (v = 0)) as [-> | Hne]; [exact (usable_null s Hok) | apply (Hv Hne)].
Qed.

(** *** [vfs_setcurdir] on a vnode the caller holds *)

Lemma gettype_ok s v x :
  vfs_ok s → fs_inv s → room 1 s → vnodes s !! v = Some x → dev_usable s v →
  twp (VOP_GETTYPE v) (λ r s', bal none 1 0 s s' ∧
    (r.1 = 0 → r.2 = S_IFDIR → ∃ x, vnodes s' !! v = Some x ∧ vn_fs x ≠ 0)) s.
Proof.
  intros Hok Hfs Hr Hx Hu. unfold twp, VOP_GETTYPE. rewrite (vop_run s v x) by done.
  destruct (vn_ops x) as [|t] eqn:E.
  - destruct (Hu (vn_data x)) as (dev & Hdev).
    { unfold devpart. rewrite lookup_omap, Hx. simpl. by rewrite decide_True. }
    unfold dev_gettype, mbind, M_bind. rewrite (device_run s v x Hx).
    unfold get_device, deref. rewrite Hdev. simpl. split; [by apply (balanced_ret tt) |].
    by destruct (0 <? d_blocks dev).
  - apply law_gettype; try done. by exists x, t.
Qed.

Lemma setcurdir_ok s v :
  vfs_ok s → fs_inv s → room 3 s → v ≠ 0 → owned s v + 1 <= held s v → dev_usable s v →
  twp (vfs_setcurdir v) (λ e s', moved none 2 s s' ∧ bootfs_vnode s' = bootfs_vnode s ∧
    p_cwd s' = (if e =? 0 then v else p_cwd s)) s.
Proof.
  intros Hok Hfs Hr Hv Ho Hu. pose proof (owned_nonneg s v).
  destruct (held_live s v) as (x & Hx); [lia |]. destruct Hr as (Hr1 & Hr2 & Hr3).
  unfold vfs_setcurdir. apply twp_bind.
  eapply twp_mono; [| apply (gettype_ok s v x); try done].
  2: { split; [intros w; specialize (Hr1 w); lia | lia]. }
  intros [r ty] s1 [B Hdir]. simpl in Hdir. pose proof (b_fixed _ _ _ _ _ _ B) as E.
  assert (Ecb : p_cwd s1 = p_cwd s ∧ bootfs_vnode s1 = bootfs_vnode s).
  { unfold fixed in E. by injection E. } destruct Ecb as [Ec Eb].
  assert (Hfail : ∀ e, e ≠ 0 → moved none 2 s s1 ∧ bootfs_vnode s1 = bootfs_vnode s ∧
             p_cwd s1 = (if e =? 0 then v else p_cwd s)).
  { intros e He. destruct (Z.eqb_spec e 0); [done |]. split; [| done].
    eapply moved_ext; [by apply bal_moved | done | lia]. }
  destruct (Z.eqb_spec r 0) as [-> | Hne]; simpl; [| by apply Hfail].
  destruct (Z.eqb_spec ty S_IFDIR) as [-> | Hne]; simpl; [| by apply Hfail].
  destruct (Hdir eq_refl eq_refl) as (y & Hy & Hf). apply twp_bind.
  pose proof (incref_from none 0 0 s1 s1 v y (bal_refl s1 (b_ok _ _ _ _ _ _ B) (b_fs _ _ _ _ _ _ B))) as I.
  assert (Hr1' : room (0 + 1) s1).
  { apply (bal_room _ _ _ 1 _ _ B); [| lia | lia]. split; [intros w; specialize (Hr1 w); lia | lia]. }
  specialize (I Hr1' ltac:(lia)). rewrite (b_depth _ _ _ _ _ _ B) in I. specialize (I ltac:(lia) Hy).
  apply twp_ex in I as ([] & s2 & E2 & B2). unfold twp at 1. rewrite E2. simpl in B2.
  (* the vnode itself is unchanged *)
  assert (Hy2 : ∃ z, vnodes s2 !! v = Some z ∧ vn_fs z ≠ 0).
  { unfold VOP_INCREF, vnode_incref, get_vnode, set_vnode in E2. revert E2. mrun. simpl.
    destruct (v =? 0); [done |]. simpl. rewrite Hy. intros [= <-]. simpl. rewrite lookup_insert_eq.
    eexists. split; [done |]. done. }
  assert (Hu2 : dev_usable s2 v).
  { apply (fixed_usable s); [| done]. by rewrite (b_fixed _ _ _ _ _ _ B2). }
  assert (Hh2 : owned s2 v + 1 <= held s2 v).
  { rewrite (fixed_owned s1 s2 v (b_fixed _ _ _ _ _ _ B2)), (fixed_owned s s1 v E).
    rewrite (b_held _ _ _ _ _ _ B2), (b_held _ _ _ _ _ _ B). unfold none. rewrite one_same. lia. }
  pose proof (set_cwd_ok s2 v (b_ok _ _ _ _ _ _ B2) (b_fs _ _ _ _ _ _ B2) (λ _, conj Hh2 (conj Hu2 Hy2))) as S.
  apply twp_ex in S as ([] & s3 & E3 & M3 & Hc3 & Hb3). unfold mbind, M_bind, gets in E3. simpl in E3.
  unfold twp, mbind, M_bind, gets. simpl. rewrite E3. split.
  - apply bal_moved in B, B2. eapply moved_ext;
      [apply (bal_moved_trans _ _ _ _ _ _ _ (bal_moved_trans _ _ _ _ _ _ _ B B2) M3) |..]; intros; unfold none; lia.
  - split; [| done]. rewrite Hb3. pose proof (b_fixed _ _ _ _ _ _ B2) as F. unfold fixed in F.
    injection F as _ _ _ _ F _ _. congruence.
Qed.

Lemma chdir_ok s path :
  vfs_ok s → fs_inv s → room 32 s →
  twp (vfs_chdir path) (λ e s', moved none 6 s s' ∧ bootfs_vnode s' = bootfs_vnode s ∧
    (e = 0 → p_cwd s' ≠ 0) ∧ (e ≠ 0 → p_cwd s' = p_cwd s)) s.
Proof.
  intros Hok Hfs Hr. unfold vfs_chdir. apply twp_bind.
  pose proof (bal_refl s Hok Hfs) as B0.
  eapply twp_mono; [| apply (lookup_from s Hok Hr none 0 0 s path B0); done || lia].
  intros [r v] s1 G. simpl in G. destruct (Z.eqb_spec r 0) as [-> | Hne]; simpl.
  2: { destruct G as [[-> _] | [_ B]]; [done |]. pose proof (b_fixed _ _ _ _ _ _ B) as E.
       unfold fixed in E. injection E as _ _ _ _ E5 E6 _. split; [| done].
       eapply moved_ext; [by apply bal_moved | done | lia]. }
  destruct G as [(_ & Hv & Hu & B) | [? _]]; [| done].
  pose proof (b_fixed _ _ _ _ _ _ B) as E. pose proof (fixed_owned _ _ v E) as Eo.
  unfold fixed in E. injection E as _ _ _ _ E5 E6 _.
  apply twp_bind. eapply twp_mono; [| apply (setcurdir_ok s1 v); try apply B; try done].
  - intros e s2 (M & Hb & Hc). apply twp_bind.
    assert (Hs : 1 <= spare s2 v).
    { rewrite (m_spare _ _ _ _ _ M v Hv). unfold spare. rewrite (b_held _ _ _ _ _ _ B), Eo.
      unfold none. rewrite one_same. pose proof (vo_owned s Hok v Hv). lia. }
    eapply twp_mono; [| apply (decref_ok s2 v); try apply M; [done | unfold spare in Hs; lia]].
    intros [] s3 B3. simpl in B3. pose proof (b_fixed _ _ _ _ _ _ B3) as E3. unfold fixed in E3.
    injection E3 as _ _ _ _ E35 E36 _. unfold twp. simpl. split.
    + apply bal_moved in B, B3. eapply moved_ext;
        [apply (bal_moved_trans _ _ _ _ _ _ _ (bal_moved_trans _ _ _ _ _ _ _ B M) B3) |..];
        intros; unfold none; lia.
    + rewrite E35, Hb, E5, E36, Hc, E6. split; [done |]. by destruct (Z.eqb_spec e 0).
  - apply (bal_room _ _ _ 3 _ _ B); [| lia | destruct Hr as (_ & ? & _); lia].
    destruct Hr as (H1 & H2 & H3). split; [intros w; specialize (H1 w); lia | lia].
  - rewrite Eo, (b_held _ _ _ _ _ _ B). unfold none. rewrite one_same.
    pose proof (vo_owned s Hok v Hv). lia.
Qed.

(** [vfs_chdir] returns with the big lock, the boot file system and
    the devices as before.  On an error the current directory is unchanged; on success
    there is one.  The references that nobody's variable accounts for do not change:
    the new directory has gained one, the old one has lost one, nothing leaks. *)
Theorem vfs_chdir_refs s path :
  vfs_ok s → fs_inv s → room 32 s →
  ∃ e s', vfs_chdir path s = Done e s' ∧ vfs_ok s' ∧ fs_inv s' ∧ base s' = base s ∧
    bootfs_vnode s' = bootfs_vnode s ∧ vfs_biglock_depth s' = vfs_biglock_depth s ∧
    (e = 0 → p_cwd s' ≠ 0) ∧ (e ≠ 0 → p_cwd s' = p_cwd s) ∧
    ∀ w, w ≠ 0 → spare s' w = spare s w.
Proof.
  intros Hok Hfs Hr. pose proof (chdir_ok s path Hok Hfs Hr) as T.
  apply twp_ex in T as (e & s' & E & M & Hb & Hc & Hc'). exists e, s'.
  split_and!; try done; try apply M. intros w Hw. rewrite (m_spare _ _ _ _ _ M w Hw). unfold none. lia.
Qed.

(** *** The boot file system *)

(** Leaving the lock that was taken in [s]. *)
Lemma release_moved d n s s2 :
  0 <= vfs_biglock_depth s → moved d n (with_depth (vfs_biglock_depth s + 1) s) s2 →
  twp vfs_biglock_release (λ _ s3, moved d n s s3 ∧ p_cwd s3 = p_cwd s2 ∧
    bootfs_vnode s3 = bootfs_vnode s2) s2.
Proof.
  intros Hd M. unfold twp, vfs_biglock_release. mrun. simpl.
  rewrite (m_depth _ _ _ _ _ M). cbn [vfs_biglock_depth with_depth].
  destruct (Z.ltb_spec 0 (vfs_biglock_depth s + 1)); [| lia]. split; [| done].
  split; try apply M.
  - apply depth_ok, M.
  - apply depth_fs, M.
  - simpl. lia.
Qed.

Lemma setbootfs_ok s fsname :
  vfs_ok s → fs_inv s → room 40 s →
  twp (vfs_setbootfs fsname) (λ e s', moved none 8 s s' ∧
    (e = 0 → p_cwd s' ≠ 0 ∧ bootfs_vnode s' = p_cwd s' ∧
             has_char ":" (stake 254 fsname) = false) ∧
    (e ≠ 0 → bootfs_vnode s' = bootfs_vnode s)) s.
Proof.
  intros Hok Hfs Hr. destruct Hr as (Hr1 & Hr2 & Hr3). unfold vfs_setbootfs.
  change (Z.to_nat (NAME_MAX - 1)) with 254%nat.
  set (tmp := stake 254 fsname). apply twp_bind. unfold twp at 1, vfs_biglock_acquire, modify.
  rewrite u32_small by lia. set (s1 := with_depth (vfs_biglock_depth s + 1) s).
  assert (Hrm : room 32 s1) by (split; [intros w; specialize (Hr1 w); change (refs s w + 32 < 2^31); lia | simpl; lia]).
  pose proof (depth_ok (vfs_biglock_depth s + 1) s Hok) as Hok1.
  pose proof (depth_fs (vfs_biglock_depth s + 1) s Hfs) as Hfs1. fold s1 in Hok1, Hfs1.
  assert (M0 : moved none 0 s1 s1) by (apply bal_moved, bal_refl; done).
  destruct (has_char ":" tmp) eqn:Ehas.
  { apply twp_bind. eapply twp_mono; [| apply (release_moved _ _ s s1 Hr2 M0)].
    intros [] s2 (M & _ & Hb). unfold twp. simpl. split; [eapply moved_ext; [exact M | done | lia] |].
    split; [done |]. by rewrite Hb. }
  apply twp_bind. eapply twp_mono; [| apply (chdir_ok s1); try done].
  intros e s2 (M2 & Hb2 & Hc2 & _). destruct (Z.eqb_spec e 0) as [-> | Hne]; simpl.
  2: { apply twp_bind. eapply twp_mono; [| apply (release_moved _ _ s s2 Hr2 M2)].
       intros [] s3 (M & _ & Hb). unfold twp. simpl. split; [eapply moved_ext; [exact M | done | lia] |].
       split; [done |]. by rewrite Hb, Hb2. }
  apply twp_bind.
  assert (Hrm2 : room 32 s2).
  { split; [| rewrite (m_depth _ _ _ _ _ M2); simpl; lia].
    intros w. pose proof (m_top _ _ _ _ _ M2 w) as Ht. change (refs s1 w) with (refs s w) in Ht.
    specialize (Hr1 w). lia. }
  pose proof (bal_refl s2 (m_ok _ _ _ _ _ M2) (m_fs _ _ _ _ _ M2)) as B2.
  eapply twp_mono; [| apply (getcurdir_from s2 Hrm2 none 0 0 s2 B2); lia].
  intros [r v] s3 [G Hcv]. simpl in G, Hcv. destruct (Z.eqb_spec r 0) as [-> | Hne]; simpl.
  2: { destruct G as [[-> _] | [_ B3]]; [done |]. pose proof (b_fixed _ _ _ _ _ _ B3) as F.
       unfold fixed in F. injection F as _ _ _ _ F5 _ _. apply bal_moved in B3.
       pose proof (bal_moved_trans _ _ _ _ _ _ _ M2 B3) as M3.
       apply twp_bind. eapply twp_mono; [| apply (release_moved _ _ s s3 Hr2 M3)].
       intros [] s4 (M & _ & Hb). unfold twp. simpl. split; [eapply moved_ext; [exact M | done | lia] |].
       split; [done |]. by rewrite Hb, F5, Hb2. }
  destruct G as [(_ & Hv & Hu & B3) | [? _]]; [| done].
  pose proof (b_fixed _ _ _ _ _ _ B3) as F. pose proof (fixed_owned _ _ v F) as Fo.
  unfold fixed in F. injection F as _ _ _ _ _ F6 _.
  apply twp_bind. eapply twp_mono; [| apply (change_bootfs_ok s3 v); try apply B3].
  - intros [] s4 (M4 & Hc4 & Hb4). apply bal_moved in B3.
    pose proof (bal_moved_trans _ _ _ _ _ _ _ (bal_moved_trans _ _ _ _ _ _ _ M2 B3) M4) as M5.
    apply twp_bind. eapply twp_mono; [| apply (release_moved _ _ s s4 Hr2 M5)].
    intros [] s5 (M & Hc & Hb). unfold twp. simpl. split.
    { eapply moved_ext; [exact M | intros; unfold none; lia | lia]. }
    split; [| done]. intros _. rewrite Hc, Hb, Hc4, Hb4, F6, Hcv by done. split_and!; auto.
  - intros _. split; [| done]. rewrite Fo, (b_held _ _ _ _ _ _ B3). unfold none. rewrite one_same.
    pose proof (vo_owned s2 (m_ok _ _ _ _ _ M2) v Hv). lia.
Qed.

(** [vfs_setbootfs] succeeds only for a name without a colon
    (the test [strlen(s) > 0] rejects the trailing colon it is meant to accept); the
    boot vnode is then the new current directory.  On an error the boot vnode is
    unchanged.  No reference leaks and the lock is left as found. *)
Theorem vfs_setbootfs_spec s fsname :
  vfs_ok s → fs_inv s → room 40 s →
  ∃ e s', vfs_setbootfs fsname s = Done e s' ∧ vfs_ok s' ∧ fs_inv s' ∧ base s' = base s ∧
    vfs_biglock_depth s' = vfs_biglock_depth s ∧
    (e = 0 → p_cwd s' ≠ 0 ∧ bootfs_vnode s' = p_cwd s' ∧
             has_char ":" (stake 254 fsname) = false) ∧
    (e ≠ 0 → bootfs_vnode s' = bootfs_vnode s) ∧
    ∀ w, w ≠ 0 → spare s' w = spare s w.
Proof.
  intros Hok Hfs Hr. pose proof (setbootfs_ok s fsname Hok Hfs Hr) as T.
  apply twp_ex in T as (e & s' & E & M & H0 & H1). exists e, s'.
  split_and!; try done; try apply M; try apply H0; try done.
  intros w Hw. rewrite (m_spare _ _ _ _ _ M w Hw). unfold none. lia.
Qed.
End cwd.
End VfsCwd.
