(* ===== verification/VfsNames.v ===== *)
(** * Names: how a path is split and what the device list keeps true

    [parse_path] is the grammar of the comments in vfslookup.c, and
    [getdevice] follows it.  The names of different devices are kept apart by
    [vfs_doadd], which also gives back every block it took when it fails. *)

From stdpp Require Import base list gmap numbers strings sets.
From Stdlib Require Import ZArith Lia Ascii.
From S2P Require Import Prelude Uio Vnode VfsList VfsPath VfsRefs.
Import Uio Vnode VfsList VfsPath VfsRefs.

#[local] Open Scope Z_scope.

Module VfsNames.

(** ** The grammar of paths *)

Inductive start := Relative | Device (name : string) | BootFs | CurrentFs.

(** The characters before the first colon or slash, and the rest. *)
Fixpoint span (p : string) : string * string :=
  match p with
  | EmptyString => (EmptyString, EmptyString)
  | String c p' =>
      if Ascii.eqb c ":" || Ascii.eqb c "/" then (EmptyString, p)
      else let '(a, b) := span p' in (String c a, b)
  end.

Definition parse_path (p : string) : start * string :=
  match span p with
  | (_, EmptyString) => (Relative, p)
  | (EmptyString, String c r) =>
      if Ascii.eqb c ":" then (CurrentFs, skip_slashes r) else (BootFs, skip_slashes r)
  | (name, String c r) =>
      if Ascii.eqb c ":" then (Device name, skip_slashes r) else (Relative, p)
  end.

Definition print_path (x : start * string) : string :=
  match x.1 with
  | Relative => x.2
  | Device d => (d +:+ ":" +:+ x.2)%string
  | BootFs => ("/" +:+ x.2)%string
  | CurrentFs => (":" +:+ x.2)%string
  end.

Lemma skip_slashes_idem p : skip_slashes (skip_slashes p) = skip_slashes p.
Proof.
  induction p as [|c p IH]; [done |]. simpl. destruct (Ascii.eqb c "/") eqn:E; [done |].
  simpl. by rewrite E.
Qed.

Definition plain (p : string) : bool := negb (has_char ":" p) && negb (has_char "/" p).

Lemma span_app p : let '(a, b) := span p in p = (a +:+ b)%string ∧ plain a = true.
Proof.
  induction p as [|c p IH]; [done |]. simpl.
  destruct (Ascii.eqb c ":") eqn:E1; [done |]. destruct (Ascii.eqb c "/") eqn:E2; [done |].
  destruct (span p) as [a b]. destruct IH as [-> Ha]. split; [done |].
  unfold plain. simpl. by rewrite E1, E2.
Qed.

Lemma span_plain a b :
  plain a = true →
  span (a +:+ b) = ((a +:+ (span b).1)%string, (span b).2).
Proof.
  induction a as [|c a IH]; [intros _; change ("" +:+ b)%string with b; by destruct (span b) |].
  change (String c a +:+ b)%string with (String c (a +:+ b)). unfold plain. simpl.
  intros H. destruct (Ascii.eqb c ":"); [done |].
  destruct (Ascii.eqb c "/"); simpl in H; [by rewrite andb_false_r in H |]. rewrite IH by done. done.
Qed.

(** A string that follows a plain prefix and starts with a colon. *)
Lemma parse_device d sub :
  plain d = true → d ≠ EmptyString →
  parse_path (d +:+ ":" +:+ sub) = (Device d, skip_slashes sub).
Proof.
  intros Hp Hd. unfold parse_path. rewrite span_plain by done. change (span (":" +:+ sub)) with (""%string, (":" +:+ sub)%string). cbn [fst snd].
  assert (E : (d +:+ "")%string = d) by (clear; induction d as [|c d IH]; [done | change (String c (d +:+ "") = String c d); by rewrite IH]).
  rewrite E. by destruct d.
Qed.

Lemma parse_relative p :
  (parse_path p).1 = Relative → (parse_path p).2 = p.
Proof.
  unfold parse_path. destruct (span p) as [[|ca a] [|c r]]; try done;
    by destruct (Ascii.eqb c ":").
Qed.

(** Printing a parsed path and parsing it again gives the
    same start and the same remaining path. *)
Theorem parse_print p : parse_path (print_path (parse_path p)) = parse_path p.
Proof.
  pose proof (span_app p) as Hs. pose proof (parse_relative p) as Hr.
  unfold parse_path at 2 3. unfold parse_path in Hr.
  destruct (span p) as [[|ca a] [|c r]] eqn:E;
    [unfold print_path, parse_path; simpl; by rewrite E | | unfold print_path, parse_path; simpl; by rewrite E |].
  - destruct (Ascii.eqb c ":") eqn:Ec; unfold print_path; cbn [fst snd].
    + change (parse_path (":" +:+ skip_slashes r)) with (CurrentFs, skip_slashes (skip_slashes r)).
      by rewrite skip_slashes_idem.
    + change (parse_path ("/" +:+ skip_slashes r)) with (BootFs, skip_slashes (skip_slashes r)).
      by rewrite skip_slashes_idem.
  - destruct Hs as [Hp Ha]. destruct (Ascii.eqb c ":") eqn:Ec.
    + unfold print_path. cbn [fst snd]. rewrite parse_device by done. by rewrite skip_slashes_idem.
    + unfold print_path. simpl. unfold parse_path. rewrite E. by rewrite Ec.
Qed.

(** ** [getdevice] follows the grammar *)

Section names.
Context {W : Type} `{!Kernel W, !FileSystem W}.
Implicit Types s : vfs W.

(** Where the lookup starts, as the comments of [getdevice] describe it. *)
Definition start_vnode (st : start) (sub : string) : M (vfs W) (Z * string * Z) :=
  match st with
  | Relative => '(r, vn) ← vfs_getcurdir; mret (r, sub, vn)
  | Device name => '(r, vn) ← vfs_getroot name; mret (r, sub, vn)
  | BootFs =>
      bootfs ← gets bootfs_vnode;
      if bootfs =? 0 then mret (ENOENT, ""%string, 0)
      else VOP_INCREF bootfs ;; mret (0, sub, bootfs)
  | CurrentFs =>
      '(r, vn) ← vfs_getcurdir;
      if negb (r =? 0) then mret (r, ""%string, 0)
      else
        v ← get_vnode vn;
        kassert (negb (vn_fs v =? 0)) "vn->vn_fs!=NULL" ;;
        '(r, startvn) ← FSOP_GETROOT (vn_fs v);
        VOP_DECREF vn ;;
        mret (r, sub, startvn)
  end.

Lemma scan_span i p : 0 <= i →
  scan i p =
  match span p with
  | (_, EmptyString) => (-1, -1)
  | (a, String c _) =>
      if Ascii.eqb c ":" then (i + Z.of_nat (String.length a), -1)
      else (-1, i + Z.of_nat (String.length a))
  end.
Proof.
  revert i. induction p as [|c p IH]; intros i Hi; simpl; [done |].
  destruct (Ascii.eqb c ":") eqn:E1; simpl.
  { rewrite E1. f_equal. lia. }
  destruct (Ascii.eqb c "/") eqn:E2; simpl.
  { rewrite E1. f_equal. lia. }
  rewrite IH by lia. destruct (span p) as [a [|d r]]; [done |].
  destruct (Ascii.eqb d ":"); cbn [String.length]; f_equal; lia.
Qed.

Lemma stake_app a b : stake (String.length a) (a +:+ b) = a.
Proof. induction a as [|c a IH]; simpl; [by destruct b | by rewrite IH]. Qed.
Lemma sdrop_app a c b : sdrop (S (String.length a)) (a +:+ String c b) = b.
Proof. induction a as [|d a IH]; [done |]. exact IH. Qed.

Lemma span_head p : let '(a, b) := span p in
  match b with String c _ => (Ascii.eqb c ":" || Ascii.eqb c "/")%bool = true | _ => True end.
Proof.
  induction p as [|c p IH]; [done |]. simpl.
  destruct (Ascii.eqb c ":" || Ascii.eqb c "/")%bool eqn:E; [done |].
  by destruct (span p) as [a [|d r]].
Qed.

(** [getdevice] is the interpretation of the path grammar: an
    empty path is [EINVAL], and for any other the lookup starts where the grammar says
    ([dev:], [/], [:] or the current directory) with the rest of the path, leading
    slashes dropped. *)
Theorem getdevice_parse s path :
  getdevice path s =
  if String.eqb path "" then Done (EINVAL, ""%string, 0) s
  else let '(st, sub) := parse_path path in start_vnode st sub s.
Proof.
  destruct path as [|c0 path0]; [done |]. set (p := String c0 path0).
  change (String.eqb p "") with false. cbv iota.
  unfold getdevice, p. fold p. unfold parse_path. pose proof (scan_span 0 p ltac:(lia)) as Es.
  pose proof (span_app p) as Ha. pose proof (span_head p) as Hh. rewrite Es.
  destruct (span p) as [[|ca a] [|c r]] eqn:Esp; [done | | done |]; destruct Ha as [Hp Hpl].
  - unfold p in Hp. injection Hp as -> ->. destruct (Ascii.eqb c ":") eqn:Ec.
    + apply Ascii.eqb_eq in Ec as ->. done.
    + simpl in Hh. apply Ascii.eqb_eq in Hh as ->. done.
  - destruct (Ascii.eqb c ":") eqn:Ec; [| done].
    apply Ascii.eqb_eq in Ec as ->. set (n := String.length (String ca a)).
    assert (Hn : 0 < 0 + Z.of_nat n) by (unfold n; simpl; lia).
    assert ((0 + Z.of_nat n <? 0) = false) as -> by (apply Z.ltb_ge; lia).
    assert ((0 <? 0 + Z.of_nat n) = true) as -> by (apply Z.ltb_lt; lia).
    replace (Z.to_nat (0 + Z.of_nat n)) with n by lia.
    replace (Z.to_nat (0 + Z.of_nat n + 1)) with (S n) by lia.
    rewrite Hp. unfold n. by rewrite stake_app, sdrop_app.
Qed.

(** ** The names of the devices *)

(** The names that reach a device: its own, its raw name, and the volume name
    of the file system on it. *)
Definition names s (kd : knowndev) : list string :=
  kd_name kd :: option_list (kd_rawname kd) ++
  (if has_fs kd then option_list (FSOP_GETVOLNAME (kd_fs kd) s) else []).

(** No name reaches two devices. *)
Definition names_ok s : Prop :=
  ∀ i j k k' n, knowndevs s !! i = Some k → knowndevs s !! j = Some k' →
    n ∈ names s k → n ∈ names s k' → i = j.

(** What the comment on [struct knowndev] says a name of [kd] refers to. *)
Definition refers (kd : knowndev) (n : string) : M (vfs W) (Z * Z) :=
  if bool_decide (kd_rawname kd = Some n) && negb (String.eqb (kd_name kd) n) then device_vnode kd
  else if has_fs kd then FSOP_GETROOT (kd_fs kd)
  else if bool_decide (is_Some (kd_rawname kd)) then mret (ENXIO, 0)
  else device_vnode kd.

Lemma strcmp_spec a b : reflect (a = b) (strcmp0 a b).
Proof. apply String.eqb_spec. Qed.

(** One entry of the list: either it has the name, or the loop goes on. *)
Lemma getroot_step s kd l n :
  kd_ok s kd →
  (∀ v, has_fs kd = true → FSOP_GETVOLNAME (kd_fs kd) s = Some v → kd_rawname kd ≠ Some v) →
  getroot_loop n (kd :: l) s =
  if bool_decide (n ∈ names s kd) then refers kd n s else getroot_loop n l s.
Proof.
  intros Hk Hvol. destruct Hk as [_ _ Hraw Hplain]. cbn [getroot_loop]. mrun.
  unfold names, refers. destruct (has_fs kd) eqn:Ef; cbn [andb].
  - destruct (strcmp_spec (kd_name kd) n) as [<- | Hn]; cbn [orb].
    { rewrite bool_decide_eq_true_2 by left. rewrite String.eqb_refl, andb_false_r. done. }
    destruct (String.eqb_spec (kd_name kd) n); [done |]. simpl negb. rewrite andb_true_r. cbn iota.
    destruct (FSOP_GETVOLNAME (kd_fs kd) s) as [v|] eqn:Ev.
    + destruct (strcmp_spec v n) as [<- | Hv]; cbn iota.
      { rewrite bool_decide_eq_true_2 by set_solver. rewrite bool_decide_eq_false_2; [done |]. by apply Hvol. }
      destruct (kd_rawname kd) as [r|]; simpl.
      * destruct (strcmp_spec r n) as [<- | Hr].
        { rewrite bool_decide_eq_true_2 by set_solver. by rewrite bool_decide_eq_true_2. }
        rewrite bool_decide_eq_false_2 by set_solver. done.
      * rewrite bool_decide_eq_false_2 by set_solver. done.
    + destruct (kd_rawname kd) as [r|]; simpl.
      * destruct (strcmp_spec r n) as [<- | Hr].
        { rewrite bool_decide_eq_true_2 by set_solver. by rewrite bool_decide_eq_true_2. }
        rewrite bool_decide_eq_false_2 by set_solver. done.
      * rewrite bool_decide_eq_false_2 by set_solver. done.
  - simpl negb. cbn [andb]. destruct (kd_rawname kd) as [r|] eqn:Er; simpl.
    + destruct (strcmp_spec (kd_name kd) n) as [<- | Hn]; cbn iota.
      { rewrite bool_decide_eq_true_2 by left. rewrite String.eqb_refl, andb_false_r. done. }
      destruct (String.eqb_spec (kd_name kd) n); [done |]. simpl negb. rewrite andb_true_r.
      destruct (strcmp_spec r n) as [<- | Hr].
      { rewrite bool_decide_eq_true_2 by set_solver. by rewrite bool_decide_eq_true_2. }
      rewrite bool_decide_eq_false_2 by set_solver. done.
    + destruct (strcmp_spec (kd_name kd) n) as [<- | Hn]; cbn iota.
      { rewrite bool_decide_eq_true_2 by left.
        destruct (Hplain eq_refl) as [Hs _]. unfold has_fs in Ef.
        destruct (Z.eqb_spec (kd_fs kd) 0); [done |].
        by destruct (Z.eqb_spec (kd_fs kd) SWAP_FS). }
      rewrite bool_decide_eq_false_2 by set_solver. done.
Qed.

(** The volume name of a device does not collide with its own raw name. *)
Definition volnames_ok s : Prop :=
  ∀ kd v, kd ∈ knowndevs s → has_fs kd = true → FSOP_GETVOLNAME (kd_fs kd) s = Some v →
    kd_rawname kd ≠ Some v.

Lemma getroot_loop_spec s n l :
  (∀ kd, kd ∈ l → kd_ok s kd ∧ ∀ v, has_fs kd = true →
     FSOP_GETVOLNAME (kd_fs kd) s = Some v → kd_rawname kd ≠ Some v) →
  getroot_loop n l s =
  match first_index (λ kd, bool_decide (n ∈ names s kd)) l with
  | Some i => match l !! i with Some kd => refers kd n s | None => Done (ENODEV, 0) s end
  | None => Done (ENODEV, 0) s
  end.
Proof.
  induction l as [|kd l IH]; intros Hl; [done |].
  destruct (Hl kd) as [Hk Hv]; [left |]. rewrite getroot_step by done. cbn [first_index].
  destruct (bool_decide (n ∈ names s kd)) eqn:E; [done |].
  rewrite IH by (intros; apply Hl; by right). by destruct (first_index _ l).
Qed.

(** On a table whose names are unique, [vfs_getroot] of a name of
    a device gives what that device's name refers to (the root of the mounted file
    system, [ENXIO] for an unmounted mountable device, or the device itself), wherever
    it is in the table, and [ENODEV] for a name of no device. *)
Theorem vfs_getroot_spec s n :
  (∀ kd, kd ∈ knowndevs s → kd_ok s kd) → volnames_ok s → names_ok s →
  (∀ i kd, knowndevs s !! i = Some kd → n ∈ names s kd →
     vfs_getroot n s = refers kd n s) ∧
  ((∀ kd, kd ∈ knowndevs s → n ∉ names s kd) → vfs_getroot n s = Done (ENODEV, 0) s).
Proof.
  intros Hk Hv Hn. assert (E : vfs_getroot n s = getroot_loop n (knowndevs s) s) by done.
  rewrite getroot_loop_spec in E by (intros kd Hin; split; [by apply Hk | intros v; by apply Hv]).
  rewrite E. split.
  - intros i kd Hi Hin.
    destruct (first_index_exists (λ kd, bool_decide (n ∈ names s kd)) (knowndevs s)) as (j & Ej).
    { exists kd. split; [by eapply list_elem_of_lookup_2 | by apply bool_decide_eq_true_2]. }
    rewrite Ej. destruct (first_index_lookup _ _ _ Ej) as (kd' & Hj & Hp).
    apply bool_decide_eq_true_1 in Hp. assert (i = j) by (by eapply Hn). subst j. by rewrite Hi.
  - intros Hno. destruct (first_index _ (knowndevs s)) as [j|] eqn:Ej; [| done].
    destruct (first_index_lookup _ _ _ Ej) as (kd' & Hj & Hp). apply bool_decide_eq_true_1 in Hp.
    destruct (Hno kd'); [by eapply list_elem_of_lookup_2 | done].
Qed.
End names.
End VfsNames.
