(* ===== verification/VfsAdd.v ===== *)
(** * Adding a device: [vfs_doadd]

    Against the contract [KernelLaws] of the heap: [vfs_doadd] keeps the names
    of different devices apart, and when it fails the device list, the vnodes
    and the set of allocated blocks are what they were. *)

From stdpp Require Import base list gmap numbers strings sets.
From Stdlib Require Import ZArith Lia.
From S2P Require Import Prelude Uio Vnode VfsList VfsPath VfsRefs VfsNames.
Import Uio Vnode VfsList VfsPath VfsRefs VfsNames.

#[local] Open Scope Z_scope.

Module VfsAdd.

(** Nothing but the world differs, and volume names do not. *)
Record same_vfs {W} `{!FileSystem W} (s s' : vfs W) : Prop := {
  sv_eq : s' = with_world (world s') s;
  sv_vol : ∀ fs, FSOP_GETVOLNAME fs s' = FSOP_GETVOLNAME fs s
}.

(** The heap of [W]: [blocks] are the addresses in use. *)
Class KernelLaws (W : Type) `{!Kernel W, !FileSystem W} := {
  blocks : W → gset Z;
  kmalloc_law n s :
    twp (kmalloc n) (λ p s', same_vfs s s' ∧
      ((p = 0 ∧ blocks (world s') = blocks (world s)) ∨
       (p ≠ 0 ∧ (p ∉ blocks (world s)) ∧ blocks (world s') = ({[p]} ∪ blocks (world s))))) s;
  kfree_law p s :
    p = 0 ∨ p ∈ blocks (world s) →
    twp (kfree p) (λ _ s', same_vfs s s' ∧ blocks (world s') = blocks (world s) ∖ {[p]}) s;
  (** A volume name is read from the file system's own data. *)
  volname_law fs (s s' : vfs W) : world s' = world s → FSOP_GETVOLNAME fs s' = FSOP_GETVOLNAME fs s
}.

Section add.
Context {W : Type} `{!Kernel W, !FileSystem W, !KernelLaws W}.
Implicit Types s : vfs W.
Abbreviation heap s := (blocks (world s)).

Lemma same_refl s : same_vfs s s.
Proof. split; [by destruct s | done]. Qed.
Lemma same_trans s1 s2 s3 : same_vfs s1 s2 → same_vfs s2 s3 → same_vfs s1 s3.
Proof. intros [E1 V1] [E2 V2]. split; [by rewrite E2, E1 | intros; by rewrite V2]. Qed.

Lemma same_names s s' kd : same_vfs s s' → names s' kd = names s kd.
Proof. intros [_ V]. unfold names. by rewrite V. Qed.

(** *** The names test *)

Lemma samestring_spec a b : samestring a b = true ↔ ∃ x, a = Some x ∧ b = Some x.
Proof.
  unfold samestring. destruct a as [x|], b as [y|];
    [destruct (strcmp_spec x y) as [-> | Hn] | ..]; split; try done; try (by intros (z & [=] & [=])).
  - by exists y.
  - intros (z & [= ->] & [= ->]). done.
Qed.
Lemma elem_of_option (o : option string) x : x ∈ option_list o ↔ o = Some x.
Proof.
  destruct o as [y|]; simpl; [rewrite list_elem_of_singleton | rewrite elem_of_nil]; naive_solver.
Qed.
Lemma samestring3_spec a b c d :
  samestring3 a b c d = true ↔ ∃ x, a = Some x ∧ x ∈ option_list b ++ option_list c ++ option_list d.
Proof.
  unfold samestring3. rewrite !orb_true_iff, !samestring_spec, ?elem_of_app.
  setoid_rewrite elem_of_app. setoid_rewrite elem_of_app.
  setoid_rewrite elem_of_option. naive_solver.
Qed.

Lemma badnames_loop_spec s n1 n2 n3 l :
  badnames_loop n1 n2 n3 l s =
  Done (bool_decide (Exists (λ kd, Exists (λ x, x ∈ option_list n1 ++ option_list n2 ++ option_list n3)
          (names s kd)) l)) s.
Proof.
  induction l as [|kd l IH]; [done |]. cbn [badnames_loop]. mrun.
  set (N := option_list n1 ++ option_list n2 ++ option_list n3).
  assert (Hk : Exists (λ x, x ∈ N) (names s kd) ↔
    has_fs kd && samestring3 (FSOP_GETVOLNAME (kd_fs kd) s) n1 n2 n3 = true ∨
    (samestring3 (kd_rawname kd) n1 n2 n3 || samestring3 (Some (kd_name kd)) n1 n2 n3)%bool = true).
  { rewrite andb_true_iff, orb_true_iff, !samestring3_spec. fold N. unfold names.
    rewrite Exists_cons, Exists_app, !Exists_exists. setoid_rewrite elem_of_option.
    destruct (has_fs kd); [setoid_rewrite elem_of_option | setoid_rewrite elem_of_nil];
      clearbody N; naive_solver. }
  destruct (has_fs kd && _).
  { f_equal. symmetry. apply bool_decide_eq_true_2. left. apply Hk. by left. }
  destruct (samestring3 (kd_rawname kd) n1 n2 n3 || _)%bool.
  { f_equal. symmetry. apply bool_decide_eq_true_2. left. apply Hk. by right. }
  rewrite IH. f_equal. apply bool_decide_ext. rewrite Exists_cons, Hk. intuition congruence.
Qed.

Lemma badnames_spec s n1 n2 n3 :
  badnames n1 n2 n3 s =
  Done (bool_decide (Exists (λ kd, Exists (λ x, x ∈ option_list n1 ++ option_list n2 ++ option_list n3)
          (names s kd)) (knowndevs s))) s.
Proof. apply badnames_loop_spec. Qed.

(** *** The failure path *)

(** The blocks [vfs_doadd] has taken so far. *)
Definition taken (raw : option (Z * string)) (a v k : Z) : list Z :=
  a :: option_list (fst <$> raw) ++ (if v =? 0 then [] else [v]) ++ (if k =? 0 then [] else [k]).

(** The state of [vfs_doadd] after it allocated [L] from the heap [H0]. *)
Record midway s0 (L : list Z) (vs : gmap Z vnode) s : Prop := {
  mw_eq : s = with_world (world s) (with_vnodes vs (with_depth (vfs_biglock_depth s0 + 1) s0));
  mw_vol : ∀ fs, FSOP_GETVOLNAME fs s = FSOP_GETVOLNAME fs s0;
  mw_heap : heap s = list_to_set L ∪ heap s0;
  mw_nodup : NoDup L;
  mw_fresh : ∀ p, p ∈ L → p ≠ 0 ∧ p ∉ heap s0
}.

Lemma midway_world s s' : same_vfs s s' →
  ∀ x, s = with_world (world s) x → s' = with_world (world s') x.
Proof. intros [E _] x Hx. rewrite E, Hx. by destruct s, x. Qed.

Lemma midway_alloc s0 L vs s n :
  midway s0 L vs s →
  twp (kmalloc n) (λ p s', (p = 0 ∧ midway s0 L vs s') ∨ (p ≠ 0 ∧ (p ∉ L) ∧ midway s0 (p :: L) vs s')) s.
Proof.
  intros M. eapply twp_mono; [| apply kmalloc_law]. intros p s' [S [[-> Hh] | (Hp & Hf & Hh)]].
  - left. split; [done |]. split; try apply M.
    + eapply midway_world; [done | apply M].
    + intros fs. rewrite (sv_vol _ _ S). apply M.
    + rewrite Hh. apply M.
  - right. rewrite (mw_heap _ _ _ _ M) in Hf. assert ((p ∉ L) ∧ p ∉ heap s0) as [HL H0] by set_solver.
    split_and!; [done | done |]. split.
    + eapply midway_world; [done | apply M].
    + intros fs. rewrite (sv_vol _ _ S). apply M.
    + rewrite Hh, (mw_heap _ _ _ _ M). simpl. set_solver.
    + constructor; [done | apply M].
    + intros q [-> | Hq]%elem_of_cons; [done |]. by apply M.
Qed.

Lemma midway_free s0 L vs s p :
  midway s0 (p :: L) vs s → twp (kfree p) (λ _ s', midway s0 L vs s') s.
Proof.
  intros M. pose proof (mw_nodup _ _ _ _ M) as [HpL Hnd]%NoDup_cons.
  destruct (mw_fresh _ _ _ _ M p) as [Hp Hf]; [left |].
  eapply twp_mono; [| apply kfree_law; right; rewrite (mw_heap _ _ _ _ M); set_solver].
  intros [] s' [S Hh]. split; [| | | done |].
  - eapply midway_world; [done | apply M].
  - intros fs. rewrite (sv_vol _ _ S). apply M.
  - rewrite Hh, (mw_heap _ _ _ _ M). apply leibniz_equiv. intros x. simpl.
    rewrite elem_of_difference, !elem_of_union, !elem_of_singleton, elem_of_list_to_set.
    split; [naive_solver |]. intros [Hx | Hx]; (split; [auto |]); intros ->; done.
  - intros q Hq. apply M. by right.
Qed.

Lemma midway_perm s0 L L' vs s : L ≡ₚ L' → midway s0 L vs s → midway s0 L' vs s.
Proof.
  intros HP M. split; try apply M.
  - rewrite (mw_heap _ _ _ _ M). f_equal. apply leibniz_equiv. by rewrite HP.
  - rewrite <- HP. apply M.
  - intros p. rewrite <- HP. apply M.
Qed.

Lemma release_midway s0 vs s :
  0 <= vfs_biglock_depth s0 → midway s0 [] vs s →
  twp vfs_biglock_release (λ _ s', s' = with_world (world s') (with_vnodes vs s0) ∧
    (∀ fs, FSOP_GETVOLNAME fs s' = FSOP_GETVOLNAME fs s0) ∧ heap s' = heap s0) s.
Proof.
  intros Hd M. assert (E : vfs_biglock_depth s = vfs_biglock_depth s0 + 1).
  { by rewrite (mw_eq _ _ _ _ M). }
  unfold twp, vfs_biglock_release. mrun. simpl. rewrite E.
  destruct (Z.ltb_spec 0 (vfs_biglock_depth s0 + 1)); [| lia]. split_and!.
  - rewrite (mw_eq _ _ _ _ M). unfold with_depth, with_world, with_vnodes. simpl. f_equal. lia.
  - intros fs. rewrite <- (mw_vol _ _ _ _ M). by apply volname_law.
  - simpl. rewrite (mw_heap _ _ _ _ M). set_solver.
Qed.

(** What a failed [vfs_doadd] leaves behind. *)
Definition unchanged s0 (s : vfs W) : Prop :=
  s = with_world (world s) s0 ∧
  (∀ fs, FSOP_GETVOLNAME fs s = FSOP_GETVOLNAME fs s0) ∧ heap s = heap s0.

(** The vnode of a device under construction. *)
Definition new_vnode (dev : Z) : vnode := mkVnode 1 0 dev dev_vnode_ops.

Lemma fail_ok s0 s name raw dev v k e :
  0 <= vfs_biglock_depth s0 → dom (vnodes s0) ⊆ heap s0 →
  midway s0 (taken raw name.1 v k)
    (if v =? 0 then vnodes s0 else <[v := new_vnode dev]> (vnodes s0)) s →
  twp (doadd_fail (Some name) raw v k e) (λ r s', r = e ∧ unchanged s0 s') s.
Proof.
  intros Hd Hdom M. destruct name as [a nm]. unfold doadd_fail, taken in *. simpl in M.
  assert (Hfree : ∀ s1, midway s0 ((if v =? 0 then [] else [v]) ++ (if k =? 0 then [] else [k]))
      (if v =? 0 then vnodes s0 else <[v := new_vnode dev]> (vnodes s0)) s1 →
    twp ((if negb (v =? 0) then dev_uncreate_vnode v else mret tt) ;;
         (if negb (k =? 0) then kfree k else mret tt) ;;
         vfs_biglock_release ;; mret e) (λ r s', r = e ∧ unchanged s0 s') s1).
  { intros s1 M1. apply twp_bind. apply (twp_mono _ (λ _, midway s0 (if k =? 0 then [] else [k]) (vnodes s0))).
    - intros [] s2 M2. apply twp_bind. apply (twp_mono _ (λ _, midway s0 [] (vnodes s0))).
      + intros [] s3 M3. apply twp_bind. eapply twp_mono; [| by apply release_midway].
        intros [] s4 (E4 & V4 & H4). by split.
      + destruct (k =? 0); [done |]. by apply midway_free.
    - destruct (Z.eqb_spec v 0) as [E0 | N0]; [done |]. simpl in M1.
      destruct (mw_fresh _ _ _ _ M1 v) as [_ Hf]; [left |].
      assert (Hnone : vnodes s0 !! v = None).
      { apply not_elem_of_dom. set_solver. }
      assert (Ev : vnodes s1 = <[v := new_vnode dev]> (vnodes s0)) by by rewrite (mw_eq _ _ _ _ M1).
      unfold dev_uncreate_vnode, get_vnode, vnode_cleanup. apply twp_bind. unfold twp at 1, deref.
      rewrite Ev, lookup_insert_eq. apply twp_bind. unfold twp at 1. simpl. apply twp_bind.
      unfold twp at 1. unfold get_vnode. mrun. rewrite Ev, lookup_insert_eq. simpl.
      apply midway_free. rewrite ?Ev, delete_insert_id by done.
      split; try apply M1.
      + rewrite (mw_eq _ _ _ _ M1). done.
      + intros fs. rewrite <- (mw_vol _ _ _ _ M1). by apply volname_law. }
  apply twp_bind. unfold kfree_opt at 1. eapply twp_mono; [| by apply midway_free].
  intros [] s1 M1. apply twp_bind. simpl in M1.
  destruct raw as [[r rn]|]; simpl in *; [| by apply Hfree].
  eapply twp_mono; [| by apply midway_free]. intros [] s2 M2. by apply Hfree.
Qed.

(** *** Success *)

(** The entry and the rest of the state after the device was added. *)
Record added s0 (kd : knowndev) s : Prop := {
  ad_devs : knowndevs s = knowndevs s0 ++ [kd];
  ad_vnodes : vnodes s = <[kd_vnode kd := new_vnode (kd_device kd)]> (vnodes s0);
  ad_fresh : vnodes s0 !! kd_vnode kd = None;
  ad_depth : vfs_biglock_depth s = vfs_biglock_depth s0;
  ad_boot : bootfs_vnode s = bootfs_vnode s0;
  ad_cwd : p_cwd s = p_cwd s0;
  ad_vol : ∀ fs, FSOP_GETVOLNAME fs s = FSOP_GETVOLNAME fs s0;
  ad_number : ∀ d, kd_device kd ≠ 0 → devices s !! kd_device kd = Some d →
    d_devnumber d = u32 (Z.of_nat (length (knowndevs s0)) + 1);
  ad_others : ∀ p, p ≠ kd_device kd → devices s !! p = devices s0 !! p
}.

Lemma list_add_ok s0 L vs s kd :
  midway s0 L vs s → knowndevs_v s0 = 0 ∨ knowndevs_v s0 ∈ heap s0 →
  twp (knowndevarray_add kd) (λ r s',
    (r.1 = ENOMEM ∧ midway s0 L vs s') ∨
    (r = (0, Z.of_nat (length (knowndevs s0))) ∧ ∃ v m,
      s' = with_world (world s') (with_knowndevs (knowndevs s0 ++ [kd])
             (with_knowndevs_v v m (with_vnodes vs (with_depth (vfs_biglock_depth s0 + 1) s0)))) ∧
      ∀ fs, FSOP_GETVOLNAME fs s' = FSOP_GETVOLNAME fs s0)) s.
Proof.
  intros M Hv. unfold knowndevarray_add. apply twp_bind. unfold twp at 1, gets.
  apply twp_bind. unfold twp at 1.
  assert (E : knowndevs s = knowndevs s0 ∧ knowndevs_v s = knowndevs_v s0).
  { by rewrite (mw_eq _ _ _ _ M). } destruct E as [Ek Ev].
  apply twp_bind.
  apply (twp_mono _ (λ r s', (r = ENOMEM ∧ midway s0 L vs s') ∨
    (r = 0 ∧ ∃ v m, s' = with_world (world s') (with_knowndevs_v v m
       (with_vnodes vs (with_depth (vfs_biglock_depth s0 + 1) s0))) ∧
       ∀ fs, FSOP_GETVOLNAME fs s' = FSOP_GETVOLNAME fs s0))).
  - intros r s1 [[-> M1] | [-> (v & m & E1 & V1)]]; simpl; [by left |].
    apply twp_bind. unfold twp, modify. simpl. right. split; [by rewrite Ek |]. exists v, m. split.
    + rewrite E1. done.
    + intros fs. rewrite <- V1. by apply volname_law.
  - destruct (knowndevs_max s <? _) eqn:Em.
    2: { right. split; [done |]. exists (knowndevs_v s0), (knowndevs_max s0).
         split; [| apply M]. rewrite (mw_eq _ _ _ _ M). by destruct s0. }
    apply twp_bind. eapply twp_mono; [| by apply midway_alloc].
    intros p s1 [[-> M1] | (Hp & HpL & M1)]; simpl; [by left |].
    destruct (Z.eqb_spec p 0); [done |]. apply twp_bind. unfold twp at 1, gets.
    apply twp_bind. unfold twp at 1, modify. apply twp_bind.
    assert (Ev1 : knowndevs_v s1 = knowndevs_v s0) by by rewrite (mw_eq _ _ _ _ M1).
    set (m := if knowndevs_max s =? 0 then _ else _).
    eapply twp_mono; [| apply kfree_law; rewrite Ev1; destruct Hv as [-> | Hv]; [by left |]].
    + intros [] s2 [S _]. right. split; [done |]. exists p, m. split.
      * rewrite (sv_eq _ _ S), (mw_eq _ _ _ _ M1). done.
      * intros fs. rewrite (sv_vol _ _ S), <- (mw_vol _ _ _ _ M1). by apply volname_law.
    + right. simpl. rewrite (mw_heap _ _ _ _ M1). set_solver.
Qed.

Lemma set_number_ok s dev index :
  dev = 0 ∨ is_Some (devices s !! dev) →
  twp (if negb (dev =? 0) then
         d ← get_device dev;
         modify (λ s, with_devices (<[dev := mkDevice (d_ops d) (d_blocks d)
           (d_blocksize d) (u32 (index + 1)) (d_data d)]> (devices s)) s)
       else mret tt)
    (λ _ s', ∃ ds, s' = with_devices ds s ∧
      (∀ d, dev ≠ 0 → ds !! dev = Some d → d_devnumber d = u32 (index + 1)) ∧
      ∀ p, p ≠ dev → ds !! p = devices s !! p) s.
Proof.
  intros Hd. destruct (Z.eqb_spec dev 0) as [-> | Hn]; simpl.
  { exists (devices s). split; [by destruct s | done]. }
  destruct Hd as [? | [d Hd]]; [done |]. apply twp_bind. unfold twp at 1, get_device, deref. rewrite Hd.
  unfold twp, modify. eexists. split; [done |]. split.
  - intros d' _. rewrite lookup_insert_eq. by intros [= <-].
  - intros p Hp. by rewrite lookup_insert_ne.
Qed.

(** The names of the new device, as [badnames] tests them. *)
Definition new_names (dname : string) (raw : option string) fs s : list string :=
  dname :: option_list raw ++ (if fs =? 0 then [] else option_list (FSOP_GETVOLNAME fs s)).
Definition clash s (ns : list string) : Prop :=
  ∃ kd n, kd ∈ knowndevs s ∧ n ∈ names s kd ∧ n ∈ ns.

Lemma clash_spec s0 L vs s dname raw fs :
  midway s0 L vs s →
  Exists (λ kd, Exists (λ x, x ∈ option_list (Some dname) ++ option_list raw ++
            option_list (if negb (fs =? 0) then FSOP_GETVOLNAME fs s else None)) (names s kd))
    (knowndevs s0) ↔ clash s0 (new_names dname raw fs s0).
Proof.
  intros M. assert (En : ∀ kd, names s kd = names s0 kd).
  { intros kd. unfold names. by rewrite (mw_vol _ _ _ _ M). }
  assert (El : option_list (Some dname) ++ option_list raw ++
      option_list (if negb (fs =? 0) then FSOP_GETVOLNAME fs s else None) = new_names dname raw fs s0).
  { unfold new_names. rewrite (mw_vol _ _ _ _ M). by destruct (fs =? 0). }
  rewrite El, Exists_exists. unfold clash. split.
  - intros (kd & Hin & (nm & Hn1 & Hn2)%Exists_exists). rewrite En in Hn1. eauto.
  - intros (kd & nm & Hin & Hn1 & Hn2). exists kd. split; [done |]. rewrite En. apply Exists_exists. eauto.
Qed.

Lemma vnode_init_run s v dev :
  v ≠ 0 → vnode_init v dev_vnode_ops 0 dev s =
          Done 0 (with_vnodes (<[v := new_vnode dev]> (vnodes s)) s).
Proof. intros Hv. unfold vnode_init. mrun. by rewrite (proj2 (Z.eqb_neq v 0)) by done. Qed.

Lemma doadd_vnode_ok s0 s name raw dev fs :
  0 <= vfs_biglock_depth s0 → dom (vnodes s0) ⊆ heap s0 →
  (knowndevs_v s0 = 0 ∨ knowndevs_v s0 ∈ heap s0) → (dev = 0 ∨ is_Some (devices s0 !! dev)) →
  midway s0 (name.1 :: option_list (fst <$> raw)) (vnodes s0) s →
  twp (doadd_vnode name raw dev fs) (λ e s',
    (e = 0 ∧ ¬ clash s0 (new_names name.2 (snd <$> raw) fs s0) ∧
     ∃ v, added s0 (mkKd name.2 (snd <$> raw) dev v fs) s') ∨
    (e = ENOMEM ∧ unchanged s0 s') ∨
    (e = EEXIST ∧ clash s0 (new_names name.2 (snd <$> raw) fs s0) ∧ unchanged s0 s')) s.
Proof.
  intros Hd Hdom Hkv Hdev M. unfold doadd_vnode. apply twp_bind. unfold dev_create_vnode.
  apply twp_bind. eapply twp_mono; [| by apply midway_alloc].
  intros v s1 [[-> M1] | (Hv & HvL & M1)]; simpl.
  { unfold twp at 1. simpl. eapply twp_mono; [| apply (fail_ok s0 _ name raw dev 0 0); try done].
    - intros e s' [-> U]. auto.
    - unfold taken. simpl. by rewrite app_nil_r. }
  destruct (Z.eqb_spec v 0); [done |]. apply twp_bind. unfold twp at 1.
  rewrite vnode_init_run by done. set (s2 := with_vnodes _ s1). unfold twp at 1. simpl.
  assert (Hfr : vnodes s0 !! v = None).
  { apply not_elem_of_dom. destruct (mw_fresh _ _ _ _ M1 v) as [_ ?]; [left | set_solver]. }
  set (vs := <[v := new_vnode dev]> (vnodes s0)).
  assert (M2 : midway s0 (taken raw name.1 v 0) vs s2).
  { apply (midway_perm _ (v :: name.1 :: option_list (fst <$> raw))).
    - unfold taken. simpl. destruct (Z.eqb_spec v 0); [done |]. rewrite app_nil_r.
      rewrite Permutation_swap. constructor. apply Permutation_cons_append.
    - split; try apply M1.
      + unfold s2. rewrite (mw_eq _ _ _ _ M1). done.
      + intros f. rewrite <- (mw_vol _ _ _ _ M1). by apply volname_law. }
  rewrite (proj2 (Z.eqb_neq v 0)) by done.
  apply twp_bind. eapply twp_mono; [| by apply midway_alloc].
  intros k s3 [[-> M3] | (Hk & HkL & M3)]; simpl.
  { eapply twp_mono; [| apply (fail_ok s0 _ name raw dev v 0); try done].
    - intros e s' [-> U]. auto.
    - by rewrite (proj2 (Z.eqb_neq v 0)) by done. }
  rewrite (proj2 (Z.eqb_neq k 0)) by done. apply twp_bind. unfold twp at 1, gets.
  assert (M4 : midway s0 (taken raw name.1 v k) vs s3).
  { eapply midway_perm; [| exact M3]. unfold taken.
    rewrite (proj2 (Z.eqb_neq v 0)), (proj2 (Z.eqb_neq k 0)) by done. simpl.
    rewrite Permutation_swap. constructor.
    change [v; k] with ([v] ++ [k]). rewrite app_assoc. apply Permutation_cons_append. }
  assert (Hfail : ∀ e, twp (doadd_fail (Some name) raw v k e) (λ r s', r = e ∧ unchanged s0 s') s3).
  { intros e. apply (fail_ok s0 _ name raw dev); try done. by rewrite (proj2 (Z.eqb_neq v 0)) by done. }
  assert (Ek : knowndevs s3 = knowndevs s0) by by rewrite (mw_eq _ _ _ _ M4).
  apply twp_bind. unfold twp at 1. rewrite badnames_spec, Ek.
  pose proof (clash_spec s0 _ _ s3 name.2 (snd <$> raw) fs M4) as Hcl.
  destruct (bool_decide _) eqn:Eb.
  { apply bool_decide_eq_true_1 in Eb. apply Hcl in Eb. simpl.
    eapply twp_mono; [| apply Hfail]. intros e s' [-> U]. auto. }
  apply bool_decide_eq_false_1 in Eb. apply twp_bind.
  eapply twp_mono; [| by apply list_add_ok].
  intros [r idx] s4 [[Er M5] | (Er & kv & km & E4 & V4)]; simpl in Er.
  { subst r. simpl. eapply twp_mono; [| apply (fail_ok s0 _ name raw dev v k); try done].
    - intros e s' [-> U]. auto.
    - by rewrite (proj2 (Z.eqb_neq v 0)) by done. }
  injection Er as -> ->. simpl. apply twp_bind. eapply twp_mono; [| apply set_number_ok].
  2: { by rewrite E4. }
  intros [] s5 (ds & -> & Hnum & Hoth). apply twp_bind. unfold twp at 1, vfs_biglock_release. mrun. simpl.
  assert (Edep : vfs_biglock_depth s4 = vfs_biglock_depth s0 + 1) by by rewrite E4.
  rewrite Edep. destruct (Z.ltb_spec 0 (vfs_biglock_depth s0 + 1)); [| lia]. simpl.
  left. split; [done |]. split; [by rewrite <- Hcl |]. exists v. rewrite E4.
  split; simpl; try done; try lia.
  - intros f. rewrite <- V4. by apply volname_law; rewrite E4.
  - intros p Hp. rewrite Hoth by done. by rewrite E4.
Qed.

(** The state in which [vfs_doadd] may be called. *)
Record may_add s (dev : Z) : Prop := {
  ma_depth : 0 <= vfs_biglock_depth s < 2 ^ 32 - 1;
  ma_vnodes : dom (vnodes s) ⊆ heap s;
  ma_array : knowndevs_v s = 0 ∨ knowndevs_v s ∈ heap s;
  ma_device : dev = 0 ∨ is_Some (devices s !! dev)
}.

Lemma doadd_ok s dname (mountable : bool) dev fs :
  may_add s dev →
  let raw := if mountable then Some (dname +:+ "raw")%string else None in
  twp (vfs_doadd dname mountable dev fs) (λ e s',
    (e = 0 ∧ ¬ clash s (new_names dname raw fs s) ∧ ∃ v, added s (mkKd dname raw dev v fs) s') ∨
    (e = ENOMEM ∧ unchanged s s') ∨
    (e = EEXIST ∧ clash s (new_names dname raw fs s) ∧ unchanged s s')) s.
Proof.
  intros [Hd Hdom Hkv Hdev] raw. unfold vfs_doadd. apply twp_bind.
  unfold twp at 1, vfs_biglock_acquire, modify. rewrite u32_small by lia.
  set (s1 := with_depth _ s).
  assert (M1 : midway s [] (vnodes s) s1).
  { split; [done | intros; by apply volname_law | set_solver | constructor |].
    intros p Hp. by apply elem_of_nil in Hp. }
  assert (Hfail0 : ∀ s', midway s [] (vnodes s) s' →
    twp (doadd_fail None None 0 0 ENOMEM) (λ e s'', e = ENOMEM ∧ unchanged s s'') s').
  { intros s' M'. unfold doadd_fail. simpl. do 4 (apply twp_bind; unfold twp at 1; simpl).
    apply twp_bind. eapply twp_mono; [| apply (release_midway s (vnodes s)); [lia | done]].
    intros [] s2 U. by split. }
  apply twp_bind. unfold kstrdup. apply twp_bind. eapply twp_mono; [| by apply midway_alloc].
  intros p s2 [[-> M2] | (Hp & _ & M2)]; simpl.
  { unfold twp at 1. simpl. eapply twp_mono; [| by apply Hfail0]. intros e s' [-> U]. auto. }
  rewrite (proj2 (Z.eqb_neq p 0)) by done. unfold twp at 1. simpl.
  destruct mountable; subst raw.
  - apply twp_bind. unfold mkrawname. apply twp_bind. eapply twp_mono; [| by apply midway_alloc].
    intros q s3 [[-> M3] | (Hq & _ & M3)]; simpl.
    { unfold twp at 1. simpl. eapply twp_mono; [| apply (fail_ok s _ (p, dname) None dev 0 0); try done; lia].
      intros e s' [-> U]. auto. }
    rewrite (proj2 (Z.eqb_neq q 0)) by done. unfold twp at 1. simpl.
    apply (doadd_vnode_ok s s3 (p, dname) (Some (q, (dname +:+ "raw")%string)) dev fs); try done; [lia |].
    eapply midway_perm; [| exact M3]. apply Permutation_swap.
  - apply (doadd_vnode_ok s s2 (p, dname) None dev fs); done || lia.
Qed.

Lemma names_added s s' kd : added s kd s' → ∀ k, names s' k = names s k.
Proof. intros A k. unfold names. by rewrite (ad_vol _ _ _ A). Qed.

Lemma names_new s kd :
  ∀ n, n ∈ names s kd → n ∈ new_names (kd_name kd) (kd_rawname kd) (kd_fs kd) s.
Proof.
  intros n. unfold names, new_names, has_fs. destruct (kd_fs kd =? 0); [done |].
  destruct (kd_fs kd =? SWAP_FS); [| done]. simpl. set_solver.
Qed.

(** Adding a device returns 0, [ENOMEM] or [EEXIST].  It is 0 only
    when none of the new names (plain, raw, volume) is in use, and then exactly that
    device is appended to the table; otherwise the table, the vnodes and the lock are
    as before.  In every case no name stands for two devices. *)
Theorem vfs_doadd_names s dname mountable dev fs :
  may_add s dev → names_ok s →
  ∃ e s', vfs_doadd dname mountable dev fs s = Done e s' ∧ names_ok s' ∧
    let raw := if mountable then Some (dname +:+ "raw")%string else None in
    (e = 0 ∧ ¬ clash s (new_names dname raw fs s) ∧ ∃ v, added s (mkKd dname raw dev v fs) s') ∨
    (e = ENOMEM ∧ unchanged s s') ∨
    (e = EEXIST ∧ clash s (new_names dname raw fs s) ∧ unchanged s s').
Proof.
  intros Hm Hn. pose proof (doadd_ok s dname mountable dev fs Hm) as T. simpl in T.
  apply twp_ex in T as (e & s' & E & P). exists e, s'. split; [done |]. split; [| done].
  assert (Hun : unchanged s s' → names_ok s').
  { intros (E' & V & _) i j k k' n Hi Hj. unfold names. rewrite !V. rewrite E' in Hi, Hj. by apply Hn. }
  destruct P as [(_ & Hc & v & A) | [[_ U] | (_ & _ & U)]]; [| by apply Hun ..].
  intros i j k k' n Hi Hj. rewrite !(names_added _ _ _ A). rewrite (ad_devs _ _ _ A) in Hi, Hj.
  apply lookup_snoc_Some in Hi as [[Hi1 Hi] | [-> <-]], Hj as [[Hj1 Hj] | [-> <-]]; intros Hk Hk'.
  - by eapply Hn.
  - destruct Hc. exists k, n. split_and!; [by eapply list_elem_of_lookup_2 | done |].
    apply (names_new s _ n Hk').
  - destruct Hc. exists k', n. split_and!; [by eapply list_elem_of_lookup_2 | done |].
    apply (names_new s _ n Hk).
  - done.
Qed.
End add.

(** ** A small heap, and the null device added on it

    [g_left] allocations succeed; a new block lies above all live ones. *)

Record gheap := mkG { g_live : gset Z; g_left : nat }.

Definition g_top (l : gset Z) : Z := set_fold Z.max 0x80000000 l.

Lemma g_top_ge l : ∀ p, p ∈ l → p <= g_top l.
Proof.
  unfold g_top. apply (set_fold_ind_L (λ r l, ∀ p, p ∈ l → p <= r)); [set_solver |].
  intros x X r _ IH p [->%elem_of_singleton | Hp]%elem_of_union; [lia |]. specialize (IH p Hp). lia.
Qed.
Lemma g_top_pos l : 0 < g_top l.
Proof.
  unfold g_top. apply (set_fold_ind_L (λ r l, 0 < r)); [done |]. intros. lia.
Qed.

#[export] Instance gheap_kernel : Kernel gheap := {|
  kmalloc n s :=
    match g_left (world s) with
    | O => Done 0 s
    | S k =>
        let p := g_top (g_live (world s)) + 16 in
        Done p (with_world (mkG ({[p]} ∪ g_live (world s)) k) s)
    end;
  kfree p := modify (λ s, with_world (mkG (g_live (world s) ∖ {[p]}) (g_left (world s))) s);
  uiomove l u := mret (0, u)
|}.

(** No file system is mounted. *)
#[export] Instance gheap_nofs : FileSystem gheap := {|
  fs_eachopen _ _ := mret ENOSYS; fs_reclaim _ := mret ENOSYS;
  fs_readlink _ u := mret (ENOSYS, u); fs_namefile _ u := mret (ENOSYS, u);
  fs_gettype _ := mret (ENOSYS, 0); fs_truncate _ _ := mret ENOSYS;
  fs_creat _ _ _ _ := mret (ENOSYS, 0); fs_symlink _ _ _ := mret ENOSYS;
  fs_mkdir _ _ _ := mret ENOSYS; fs_link _ _ _ := mret ENOSYS;
  fs_remove _ _ := mret ENOSYS; fs_rmdir _ _ := mret ENOSYS;
  fs_rename _ _ _ _ := mret ENOSYS; fs_lookup _ _ := mret (ENOSYS, 0);
  fs_lookparent _ _ _ := mret (ENOSYS, 0, ""%string);
  FSOP_SYNC _ := mret 0; FSOP_GETVOLNAME _ _ := None;
  FSOP_GETROOT _ := mret (ENOSYS, 0); FSOP_UNMOUNT _ := mret ENOSYS;
  drv_eachopen _ _ := mret ENOSYS; drv_io _ u := mret (ENOSYS, u); drv_ioctl _ _ _ := mret ENOSYS
|}.

#[export] Program Instance gheap_laws : KernelLaws gheap := {| blocks := g_live |}.
Next Obligation.
  intros n s. unfold twp. simpl. destruct (g_left (world s)) as [|k]; simpl.
  - split; [split; [by destruct s | done] |]. by left.
  - split; [done |]. right. pose proof (g_top_pos (g_live (world s))). split_and!; [lia | | done].
    intros Hin%g_top_ge. lia.
Qed.
Next Obligation. intros p s _. unfold twp. by simpl. Qed.
Next Obligation. done. Qed.

Definition w_empty : vfs gheap :=
  mkVfs ∅ (<[0x80000100 := mkDevice null_devops 0 1 0 0]> ∅) [] 0 0 0 0 0 [] (mkG {[0x80000100]} 9).

Lemma vfs_doadd_names_witness :
  ∃ e s', vfs_doadd "null" false 0x80000100 0 w_empty = Done e s' ∧ names_ok s' ∧
    let raw := if false then Some ("null" +:+ "raw")%string else None in
    (e = 0 ∧ ¬ clash w_empty (new_names "null" raw 0 w_empty) ∧
     ∃ v, added w_empty (mkKd "null" raw 0x80000100 v 0) s') ∨
    (e = ENOMEM ∧ unchanged w_empty s') ∨
    (e = EEXIST ∧ clash w_empty (new_names "null" raw 0 w_empty) ∧ unchanged w_empty s').
Proof.
  apply (vfs_doadd_names w_empty "null" false 0x80000100 0).
  - split; simpl; [lia | set_solver | by left | right; by eexists].
  - intros i j k k' n Hi. done.
Defined.

(** The device is there. *)
Example add_null :
  match vfs_doadd "null" false 0x80000100 0 w_empty with
  | Done e s' => e = 0 ∧ (kd_name <$> knowndevs s') = ["null"%string]
  | _ => False
  end.
Proof. by vm_compute. Qed.
End VfsAdd.
