(* ===== verification/Semfs.v ===== *)
(** * The semaphore file system (fs/semfs/semfs_fsops.c, semfs_obj.c, semfs_vnops.c)

    A file system with one directory whose files are semaphores: reading is P,
    writing is V.  [semfs_sems] is the table of semaphores, [semfs_dents] the
    directory, [semfs_vnodes] the vnodes in memory; each is an [array] of
    pointers, with the block it lives in and its capacity.  A structure is kept
    together with the heap blocks it consists of.  The locks of synch.c are
    stubs and do not appear. *)

From stdpp Require Import base list gmap numbers strings sets.
From Stdlib Require Import ZArith Lia.
From S2P Require Import Prelude Uio Vnode VfsList.
Import Uio Vnode VfsList.

#[local] Open Scope Z_scope.

Module Semfs.

Definition SEMFS_ROOTDIR : Z := 0xffffffff.
Definition S_IFREG : Z := 0x1000.

(** ** Data *)

Record parray (A : Type) := mkArr { elems : list A; pa_v : Z; pa_max : Z }.
Arguments mkArr {_}.
Arguments elems {_} _.
Arguments pa_v {_} _.
Arguments pa_max {_} _.

Record semfs_sem := mkSem {
  sems_count : Z;
  sems_hasvnode : bool;
  sems_linked : bool;
  sems_block : Z;
  sems_lock : list Z;
  sems_cv : list Z
}.

Record semfs_direntry := mkDent { semd_name : string; semd_semnum : Z; semd_blocks : Z * Z }.

(** The blocks of the structure: the two locks and the three array structures. *)
Record semfs_own := mkOwn {
  semfs_tablelock : list Z;
  own_vnodes : Z;
  own_sems : Z;
  semfs_dirlock : list Z;
  own_dents : Z
}.

(** [semv_semnum] by the address of the vnode. *)
Record semfs := mkSemfs {
  semfs_absfs : Z;
  semfs_owns : semfs_own;
  semfs_vnodes : parray Z;
  semfs_sems : parray (option semfs_sem);
  semfs_dents : parray (option semfs_direntry);
  semv_semnum : gmap Z Z
}.

Definition with_vns x (f : semfs) := mkSemfs (semfs_absfs f) (semfs_owns f) x (semfs_sems f) (semfs_dents f) (semv_semnum f).
Definition with_sems x (f : semfs) := mkSemfs (semfs_absfs f) (semfs_owns f) (semfs_vnodes f) x (semfs_dents f) (semv_semnum f).
Definition with_dents x (f : semfs) := mkSemfs (semfs_absfs f) (semfs_owns f) (semfs_vnodes f) (semfs_sems f) x (semv_semnum f).
Definition with_semnums x (f : semfs) := mkSemfs (semfs_absfs f) (semfs_owns f) (semfs_vnodes f) (semfs_sems f) (semfs_dents f) x.

Definition with_count c x := mkSem c (sems_hasvnode x) (sems_linked x) (sems_block x) (sems_lock x) (sems_cv x).
Definition with_hasvnode b x := mkSem (sems_count x) b (sems_linked x) (sems_block x) (sems_lock x) (sems_cv x).
Definition with_linked b x := mkSem (sems_count x) (sems_hasvnode x) b (sems_block x) (sems_lock x) (sems_cv x).

Definition with_elems {A} (l : list A) (a : parray A) := mkArr l (pa_v a) (pa_max a).

Definition is_null {A} (x : option A) : bool := match x with None => true | Some _ => false end.

(** The two function tables. *)
Definition semfs_dirops : vnode_ops := fs_vnode_ops 1.
Definition semfs_semops : vnode_ops := fs_vnode_ops 2.

(** The world contains the (only) semaphore file system. *)
Class HasSemfs (W : Type) := {
  get_semfs : W → semfs;
  set_semfs : semfs → W → W
}.

Section semfs.
Context {W : Type} `{!Kernel W, !HasSemfs W}.
Abbreviation V := (M (vfs W)).

Definition the_semfs : V semfs := gets (λ s, get_semfs (world s)).
Definition upd_semfs (f : semfs → semfs) : V unit :=
  modify (λ s, with_world (set_semfs (f (get_semfs (world s))) (world s)) s).

(** [array_add]: a full block is replaced by one twice as large (at first 4). *)
Definition parray_add {A} (get : semfs → parray A) (set : parray A → semfs → semfs) (x : A)
    : V (Z * Z) :=
  f ← the_semfs;
  let a := get f in
  let num := Z.of_nat (length (elems a)) in
  result ← (if pa_max a <? num + 1 then
              let newmax := if pa_max a =? 0 then 4 else u32 (pa_max a * 2) in
              p ← kmalloc (u32 (newmax * 4));
              if p =? 0 then mret ENOMEM
              else
                upd_semfs (λ f, set (mkArr (elems (get f)) p newmax) f) ;;
                kfree (pa_v a) ;;
                mret 0
            else mret 0);
  if negb (result =? 0) then mret (result, 0)
  else
    upd_semfs (λ f, set (with_elems (elems (get f) ++ [x]) (get f)) f) ;;
    mret (0, num).

Definition sems_get (n : Z) : V (option semfs_sem) :=
  f ← the_semfs;
  deref (λ _, elems (semfs_sems f) !! Z.to_nat n) "index < a->num".
Definition sems_set (n : Z) (x : option semfs_sem) : V unit :=
  upd_semfs (λ f, with_sems (with_elems (<[Z.to_nat n := x]> (elems (semfs_sems f))) (semfs_sems f)) f).
Definition dents_set (n : nat) (x : option semfs_direntry) : V unit :=
  upd_semfs (λ f, with_dents (with_elems (<[n := x]> (elems (semfs_dents f))) (semfs_dents f)) f).

(** A non-NULL semaphore of the table. *)
Definition the_sem (n : Z) : V semfs_sem :=
  x ← sems_get n;
  match x with Some sem => mret sem | None => panic "NULL semaphore" end.

Definition semnum_of (vn : Z) : V Z :=
  v ← get_vnode vn;
  deref (λ s, semv_semnum (get_semfs (world s)) !! vn_data v) "vn->vn_data".

(** ** semfs_obj.c *)

Definition semfs_sem_create (name : string) : V (option semfs_sem) :=
  sem ← kmalloc 16;
  if sem =? 0 then mret None
  else
    lock ← lock_create ("sem:l." +:+ name)%string;
    match lock with
    | None => kfree sem ;; mret None
    | Some l =>
        cv ← cv_create ("sem:" +:+ name)%string;
        match cv with
        | None => lock_destroy l ;; kfree sem ;; mret None
        | Some c => mret (Some (mkSem 0 false false sem l c))
        end
    end.

Definition semfs_sem_destroy (sem : semfs_sem) : V unit :=
  cv_destroy (sems_cv sem) ;;
  lock_destroy (sems_lock sem) ;;
  kfree (sems_block sem).

(** The first free place of the table, or a new one. *)
Definition semfs_sem_insert (sem : semfs_sem) : V (Z * Z) :=
  f ← the_semfs;
  let num := Z.of_nat (length (elems (semfs_sems f))) in
  if num =? SEMFS_ROOTDIR then mret (ENOSPC, 0)
  else
    match first_index is_null (elems (semfs_sems f)) with
    | Some i => sems_set (Z.of_nat i) (Some sem) ;; mret (0, Z.of_nat i)
    | None => parray_add semfs_sems with_sems (Some sem)
    end.

Definition semfs_direntry_create (name : string) (semnum : Z) : V (option semfs_direntry) :=
  dent ← kmalloc 8;
  if dent =? 0 then mret None
  else
    n ← kstrdup name;
    match n with
    | None => kfree dent ;; mret None
    | Some (p, _) => mret (Some (mkDent name semnum (dent, p)))
    end.

Definition semfs_direntry_destroy (dent : semfs_direntry) : V unit :=
  kfree (semd_blocks dent).2 ;;
  kfree (semd_blocks dent).1.

(** ** semfs_vnops.c: basic operations *)

Definition semfs_eachopen (vn openflags : Z) : V Z :=
  semnum ← semnum_of vn;
  if semnum =? SEMFS_ROOTDIR then
    if negb (Z.land openflags O_ACCMODE =? O_RDONLY) then mret EISDIR
    else if negb (Z.land openflags O_APPEND =? 0) then mret EISDIR
    else mret 0
  else mret 0.

Definition semfs_ioctl (vn op data : Z) : V Z := mret EINVAL.

Definition semfs_gettype (vn : Z) : V (Z * Z) :=
  semnum ← semnum_of vn;
  mret (0, if semnum =? SEMFS_ROOTDIR then S_IFDIR else S_IFREG).

Definition semfs_isseekable (vn : Z) : V bool :=
  semnum ← semnum_of vn;
  mret (semnum =? SEMFS_ROOTDIR).

Definition semfs_fsync (vn : Z) : V Z := mret 0.

(** *** Semaphore operations *)

Definition semfs_getsembynum (semnum : Z) : V semfs_sem := the_sem semnum.
Definition semfs_getsem (vn : Z) : V semfs_sem := n ← semnum_of vn; semfs_getsembynum n.

Definition set_count (vn c : Z) : V unit :=
  n ← semnum_of vn;
  sem ← the_sem n;
  sems_set n (Some (with_count c sem)).

Definition semfs_wakeup (sem : semfs_sem) (newcount : Z) : V unit :=
  if (0 <? sems_count sem) || (newcount =? 0) then mret tt
  else if newcount =? 1 then cv_signal (sems_cv sem) (sems_lock sem)
  else cv_broadcast (sems_cv sem) (sems_lock sem).

(** The fields [semfs_semstat] and [semfs_dirstat] set. *)
Definition semfs_semstat (vn : Z) : V (Z * (stat * Z)) :=
  n ← semnum_of vn;
  sem ← semfs_getsem vn;
  mret (0, (mkStat (sems_count sem) (Z.lor S_IFREG 438) (b2z (sems_linked sem)) 0 0 0 0, n)).

(** [S_IFDIR | 1777]: the constant is decimal. *)
Definition semfs_dirstat (vn : Z) : V (Z * (stat * Z)) :=
  f ← the_semfs;
  mret (0, (mkStat (Z.of_nat (length (elems (semfs_dents f)))) (Z.lor S_IFDIR 1777) 2 0 0 0 0,
            SEMFS_ROOTDIR)).

Definition advance (n : Z) (u : uio) : uio :=
  mkUio (uio_iov u) (uio_iovcnt u) (uio_offset u + n) (u32 (uio_resid u - n)) (uio_segflg u)
    (uio_rw u) (uio_space u).

(** The loop of [semfs_read]; [cv_wait] is a stub that returns at once, so a
    reader of an empty semaphore turns in the loop until the fuel ends. *)
Fixpoint read_loop (fuel : nat) (vn : Z) (u : uio) : V uio :=
  match fuel with
  | O => nofuel
  | S fuel' =>
      sem ← semfs_getsem vn;
      if 0 <? uio_resid u then
        let consume :=
          if 0 <? sems_count sem then
            if sems_count sem <? uio_resid u then sems_count sem else uio_resid u
          else 0 in
        let count := u32 (sems_count sem - consume) in
        set_count vn count ;;
        let u' := advance consume u in
        if uio_resid u' =? 0 then mret u'
        else
          (if count =? 0 then cv_wait (sems_cv sem) (sems_lock sem) else mret tt) ;;
          read_loop fuel' vn u'
      else mret u
  end.

Definition semfs_read (fuel : nat) (vn : Z) (u : uio) : V (Z * uio) :=
  sem ← semfs_getsem vn;
  lock_acquire (sems_lock sem) ;;
  u' ← read_loop fuel vn u;
  lock_release (sems_lock sem) ;;
  mret (0, u').

(** The loop body runs at most once. *)
Definition semfs_write (vn : Z) (u : uio) : V (Z * uio) :=
  sem ← semfs_getsem vn;
  lock_acquire (sems_lock sem) ;;
  if 0 <? uio_resid u then
    let newcount := u32 (sems_count sem + uio_resid u) in
    if newcount <? sems_count sem then lock_release (sems_lock sem) ;; mret (EFBIG, u)
    else
      semfs_wakeup sem newcount ;;
      set_count vn newcount ;;
      lock_release (sems_lock sem) ;;
      mret (0, advance (uio_resid u) u)
  else lock_release (sems_lock sem) ;; mret (0, u).

Definition semfs_truncate (vn len : Z) : V Z :=
  if len <? 0 then mret EINVAL
  else if 2 ^ 32 - 1 <? len then mret EFBIG
  else
    sem ← semfs_getsem vn;
    lock_acquire (sems_lock sem) ;;
    semfs_wakeup sem len ;;
    set_count vn len ;;
    lock_release (sems_lock sem) ;;
    mret 0.

(** *** Vnodes *)

Definition semfs_vnode_destroy (vn : Z) : V unit :=
  vnode_cleanup vn ;;
  upd_semfs (λ f, with_semnums (delete vn (semv_semnum f)) f) ;;
  kfree vn.

Definition semfs_reclaim (vn : Z) : V Z :=
  v ← get_vnode vn;
  if 1 <? vn_refcount v then
    set_vnode vn (with_refcount (vn_refcount v - 1) v) ;;
    mret EBUSY
  else
    f ← the_semfs;
    (match first_index (λ x, x =? vn) (elems (semfs_vnodes f)) with
     | Some i => upd_semfs (λ f, with_vns (with_elems (delete i (elems (semfs_vnodes f))) (semfs_vnodes f)) f)
     | None => mret tt
     end) ;;
    n ← semnum_of vn;
    (if negb (n =? SEMFS_ROOTDIR) then
       sem ← the_sem n;
       kassert (sems_hasvnode sem) "sem->sems_hasvnode" ;;
       if negb (sems_linked sem) then sems_set n None ;; semfs_sem_destroy sem
       else sems_set n (Some (with_hasvnode false sem))
     else mret tt) ;;
    semfs_vnode_destroy vn ;;
    mret 0.

Definition semfs_vnode_create (semnum : Z) : V Z :=
  f ← the_semfs;
  semv ← kmalloc 32;
  if semv =? 0 then mret 0
  else
    upd_semfs (λ f, with_semnums (<[semv := semnum]> (semv_semnum f)) f) ;;
    result ← vnode_init semv (if semnum =? SEMFS_ROOTDIR then semfs_dirops else semfs_semops)
               (semfs_absfs f) semv;
    kassert (result =? 0) "result == 0" ;;
    mret semv.

(** The loop of [semfs_getvnode] over the vnodes in memory. *)
Fixpoint find_vnode (semnum : Z) (l : list Z) : V Z :=
  match l with
  | [] => mret 0
  | vn :: l' => n ← semnum_of vn; if n =? semnum then mret vn else find_vnode semnum l'
  end.

Definition semfs_getvnode (semnum : Z) : V (Z * Z) :=
  f ← the_semfs;
  vn ← find_vnode semnum (elems (semfs_vnodes f));
  if negb (vn =? 0) then vnode_incref vn ;; mret (0, vn)
  else
    semv ← semfs_vnode_create semnum;
    if semv =? 0 then mret (ENOMEM, 0)
    else
      '(result, _) ← parray_add semfs_vnodes with_vns semv;
      if negb (result =? 0) then semfs_vnode_destroy semv ;; mret (ENOMEM, 0)
      else
        (if negb (semnum =? SEMFS_ROOTDIR) then
           sem ← the_sem semnum;
           kassert (negb (sems_hasvnode sem)) "sem->sems_hasvnode == false" ;;
           sems_set semnum (Some (with_hasvnode true sem))
         else mret tt) ;;
        mret (0, semv).

(** *** The directory *)

(** The entry's name is copied; nothing else advances the position. *)
Definition semfs_getdirentry (dirvn : Z) (u : uio) : V (Z * uio) :=
  f ← the_semfs;
  kassert (0 <=? uio_offset u) "uio->uio_offset >= 0" ;;
  let pos := u32 (uio_offset u) in
  match elems (semfs_dents f) !! Z.to_nat pos with
  | None => mret (0, u)
  | Some None => panic "NULL directory entry"
  | Some (Some dent) =>
      uiomove ((λ c, Z.of_N (Ascii.N_of_ascii c)) <$> String.list_ascii_of_string (semd_name dent)) u
  end.

Definition semfs_namefile (vn : Z) (u : uio) : V (Z * uio) := mret (0, u).

Definition is_named (name : string) (x : option semfs_direntry) : bool :=
  match x with Some d => String.eqb (semd_name d) name | None => false end.
Definition find_dent (name : string) (l : list (option semfs_direntry)) : option (nat * semfs_direntry) :=
  i ← first_index (is_named name) l;
  x ← l !! i;
  d ← x;
  Some (i, d).

Definition dot (name : string) : bool := String.eqb name "." || String.eqb name "..".

(** [semfs_creat] from the new semaphore's place in the table; the labels
    [fail_undir], [fail_undent], [fail_uninsert] and [fail_uncreate] in turn. *)
Definition creat_fail (sem : semfs_sem) (semnum : option Z) (dent : option semfs_direntry)
    (slot : option nat) (result : Z) : V (Z * Z) :=
  (match slot with Some i => dents_set i None | None => mret tt end) ;;
  (match dent with Some d => semfs_direntry_destroy d | None => mret tt end) ;;
  (match semnum with Some n => sems_set n None | None => mret tt end) ;;
  semfs_sem_destroy sem ;;
  mret (result, 0).

Definition creat_link (sem : semfs_sem) (name : string) (semnum : Z) (empty : option nat) : V (Z * Z) :=
  dent ← semfs_direntry_create name semnum;
  match dent with
  | None => creat_fail sem (Some semnum) None None 0     (* result is still 0 *)
  | Some d =>
      r ← (match empty with
           | Some i => dents_set i (Some d) ;; mret (0, Z.of_nat i)
           | None => parray_add semfs_dents with_dents (Some d)
           end);
      if negb (r.1 =? 0) then creat_fail sem (Some semnum) (Some d) None r.1
      else
        '(result, vn) ← semfs_getvnode semnum;
        if negb (result =? 0) then
          creat_fail sem (Some semnum) (Some d) (Some (Z.to_nat r.2)) result
        else
          sem' ← the_sem semnum;
          sems_set semnum (Some (with_linked true sem')) ;;
          mret (0, vn)
  end.

Definition semfs_creat (dirvn : Z) (name : string) (excl : bool) (mode : Z) : V (Z * Z) :=
  if dot name then mret (EEXIST, 0)
  else
    f ← the_semfs;
    match find_dent name (elems (semfs_dents f)) with
    | Some (_, dent) => if excl then mret (EEXIST, 0) else semfs_getvnode (semd_semnum dent)
    | None =>
        sem ← semfs_sem_create name;
        match sem with
        | None => mret (ENOMEM, 0)
        | Some sem =>
            '(result, semnum) ← semfs_sem_insert sem;
            if negb (result =? 0) then creat_fail sem None None None result
            else creat_link sem name semnum
                   (first_index is_null (elems (semfs_dents f)))
        end
    end.

Definition semfs_remove (dirvn : Z) (name : string) : V Z :=
  if dot name then mret EINVAL
  else
    f ← the_semfs;
    match find_dent name (elems (semfs_dents f)) with
    | None => mret ENOENT
    | Some (i, dent) =>
        sem ← semfs_getsembynum (semd_semnum dent);
        kassert (sems_linked sem) "sem->sems_linked" ;;
        (if negb (sems_hasvnode sem) then
           sems_set (semd_semnum dent) None ;; semfs_sem_destroy sem
         else sems_set (semd_semnum dent) (Some (with_linked false sem))) ;;
        dents_set i None ;;
        semfs_direntry_destroy dent ;;
        mret 0
    end.

Definition semfs_lookup (dirvn : Z) (path : string) : V (Z * Z) :=
  if dot path then vnode_incref dirvn ;; mret (0, dirvn)
  else
    f ← the_semfs;
    match find_dent path (elems (semfs_dents f)) with
    | Some (_, dent) => semfs_getvnode (semd_semnum dent)
    | None => mret (ENOENT, 0)
    end.

Definition semfs_lookparent (dirvn : Z) (path : string) (bufmax : Z) : V (Z * Z * string) :=
  if bufmax <? Z.of_nat (String.length path) + 1 then mret (ENAMETOOLONG, 0, ""%string)
  else vnode_incref dirvn ;; mret (0, dirvn, path).

(** ** semfs_fsops.c *)

Definition semfs_sync (fs : Z) : V Z := mret 0.
Definition semfs_getvolname (fs : Z) (s : vfs W) : option string := Some "sem"%string.
Definition semfs_getroot (fs : Z) : V (Z * Z) := semfs_getvnode SEMFS_ROOTDIR.

Fixpoint destroy_all {A} (destroy : A → V unit) (l : list (option A)) : V unit :=
  match l with
  | [] => mret tt
  | Some x :: l' => destroy x ;; destroy_all destroy l'
  | None :: l' => panic "NULL object"
  end.

(** [array_destroy] of an emptied array. *)
Definition parray_destroy (v a : Z) : V unit := kfree v ;; kfree a.

Definition semfs_destroy : V unit :=
  f ← the_semfs;
  destroy_all semfs_sem_destroy (elems (semfs_sems f)) ;;
  destroy_all semfs_direntry_destroy (elems (semfs_dents f)) ;;
  let o := semfs_owns f in
  parray_destroy (pa_v (semfs_dents f)) (own_dents o) ;;
  lock_destroy (semfs_dirlock o) ;;
  parray_destroy (pa_v (semfs_sems f)) (own_sems o) ;;
  parray_destroy (pa_v (semfs_vnodes f)) (own_vnodes o) ;;
  lock_destroy (semfs_tablelock o) ;;
  kfree (semfs_absfs f).

Definition semfs_unmount (fs : Z) : V Z :=
  f ← the_semfs;
  if Nat.ltb 0 (length (elems (semfs_vnodes f))) then mret EBUSY
  else semfs_destroy ;; mret 0.

(** ** The operations tables, and the file system behind [sem:] *)

Definition dispatch {A} (vn : Z) (dir sem : V A) : V A :=
  v ← get_vnode vn;
  if decide (vn_ops v = semfs_dirops) then dir
  else if decide (vn_ops v = semfs_semops) then sem
  else panic "unknown vnode operations".

#[export] Instance semfs_filesystem : FileSystem W := {|
  fs_eachopen := semfs_eachopen;
  fs_reclaim := semfs_reclaim;
  fs_readlink vn u := dispatch vn (vopfail_uio_isdir vn u) (vopfail_uio_inval vn u);
  fs_namefile vn u := dispatch vn (semfs_namefile vn u) (vopfail_uio_notdir vn u);
  fs_gettype := semfs_gettype;
  fs_truncate vn len := dispatch vn (vopfail_truncate_isdir vn len) (semfs_truncate vn len);
  fs_creat vn name excl mode :=
    dispatch vn (semfs_creat vn name excl mode) (vopfail_creat_notdir vn name excl mode);
  fs_symlink vn a b := dispatch vn (vopfail_symlink_nosys vn a b) (vopfail_symlink_notdir vn a b);
  fs_mkdir vn name mode :=
    dispatch vn (vopfail_mkdir_nosys vn name mode) (vopfail_mkdir_notdir vn name mode);
  fs_link vn name f := dispatch vn (vopfail_link_nosys vn name f) (vopfail_link_notdir vn name f);
  fs_remove vn name := dispatch vn (semfs_remove vn name) (vopfail_string_notdir vn name);
  fs_rmdir vn name := dispatch vn (vopfail_string_nosys vn name) (vopfail_string_notdir vn name);
  fs_rename vn n vn' n' :=
    dispatch vn (vopfail_rename_nosys vn n vn' n') (vopfail_rename_notdir vn n vn' n');
  fs_lookup vn path := dispatch vn (semfs_lookup vn path) (vopfail_lookup_notdir vn path);
  fs_lookparent vn path len :=
    dispatch vn (semfs_lookparent vn path len) (vopfail_lookparent_notdir vn path len);
  FSOP_SYNC := semfs_sync;
  FSOP_GETVOLNAME := semfs_getvolname;
  FSOP_GETROOT := semfs_getroot;
  FSOP_UNMOUNT := semfs_unmount;
  drv_eachopen d flags := panic "no such driver";
  drv_io d u := panic "no such driver";
  drv_ioctl d op data := panic "no such driver"
|}.

(** The labels of [semfs_create] from [fail_dirlock] down. *)
Definition create_fail (semfs : Z) (tablelock : option (list Z)) (vnodes sems : Z)
    (dirlock : option (list Z)) : V Z :=
  (match dirlock with Some l => lock_destroy l | None => mret tt end) ;;
  (if negb (sems =? 0) then kfree sems else mret tt) ;;
  (if negb (vnodes =? 0) then kfree vnodes else mret tt) ;;
  (match tablelock with Some l => lock_destroy l | None => mret tt end) ;;
  kfree semfs ;;
  mret 0.

(** The array structures are 12 bytes and start empty. *)
Definition semfs_create : V Z :=
  semfs ← kmalloc 28;
  if semfs =? 0 then mret 0
  else
    tl ← lock_create "semfs_table";
    match tl with
    | None => create_fail semfs None 0 0 None
    | Some tablelock =>
        vns ← kmalloc 12;
        if vns =? 0 then create_fail semfs (Some tablelock) 0 0 None
        else
          sems ← kmalloc 12;
          if sems =? 0 then create_fail semfs (Some tablelock) vns 0 None
          else
            dl ← lock_create "semfs_dir";
            match dl with
            | None => create_fail semfs (Some tablelock) vns sems None
            | Some dirlock =>
                dents ← kmalloc 12;
                if dents =? 0 then create_fail semfs (Some tablelock) vns sems (Some dirlock)
                else
                  upd_semfs (λ _, mkSemfs semfs (mkOwn tablelock vns sems dirlock dents)
                    (mkArr [] 0 0) (mkArr [] 0 0) (mkArr [] 0 0) ∅) ;;
                  mret semfs
            end
    end.

Definition semfs_bootstrap : V unit :=
  semfs ← semfs_create;
  if semfs =? 0 then panic "Out of memory creating semfs"
  else
    result ← vfs_addfs "sem" semfs;
    if negb (result =? 0) then panic "Attaching semfs" else mret tt.
End semfs.
End Semfs.
