(* ===== verification/SemfsLaws.v ===== *)
(** * The semaphore file system keeps the contract of the VFS layer

    [FsLaws] for the operations of semfs over a heap that does not run out: the
    invariant of the three tables, and that every operation of the function
    tables returns and balances its references.  (With a heap that can run out
    [semfs_creat] does not: see [semfs_creat_no_dent].) *)

From stdpp Require Import base list gmap numbers strings sets.
From Stdlib Require Import ZArith Lia.
From S2P Require Import Prelude Uio Vnode VfsList VfsPath VfsRefs VfsProps Semfs.
Import Uio Vnode VfsList VfsPath VfsRefs VfsProps Semfs.

#[local] Open Scope Z_scope.

Module SemfsLaws.

(** ** Vnodes that come and go *)

Section vnodes.
Context {W : Type} (fs_inv : vfs W → Prop).
Implicit Types s : vfs W.

(** A change of the world alone. *)
Lemma bal_world s w :
  vfs_ok s → fs_inv (with_world w s) → bal fs_inv none 1 0 s (with_world w s).
Proof.
  intros Hok Hfs. split; try done.
  - split; try apply Hok. intros kd Hin. destruct (vo_kd s Hok kd Hin). by split.
  - intros v. change (held s v = held s v + none v). unfold none. lia.
  - intros v. change (refs s v <= refs s v + 1). lia.
  - simpl. lia.
Qed.

Lemma vfs_ok_world s w : vfs_ok s → vfs_ok (with_world w s).
Proof. intros Hok. split; try apply Hok. intros kd Hin. destruct (vo_kd s Hok kd Hin). by split. Qed.

(** Changes of the world before and after. *)
Lemma bal_world_l d n k s s' w : bal fs_inv d n k (with_world w s) s' → bal fs_inv d n k s s'.
Proof. intros B. split; apply B. Qed.
Lemma bal_world_r Q d n k s s' w :
  bal fs_inv d n k s s' → Q (with_world w s') → bal Q d n k s (with_world w s').
Proof. intros B HQ. split; try apply B; [| done]. apply vfs_ok_world, B. Qed.

(** A new vnode of a file system, and one that is dropped. *)
Lemma bal_new s p x t w :
  vfs_ok s → vnodes s !! p = None → p ≠ 0 → p ≠ 0xdeadbeef → vn_fs x ≠ 0xdeadbeef →
  vn_refcount x = 1 → vn_ops x = fs_vnode_ops t →
  fs_inv (with_world w (with_vnodes (<[p := x]> (vnodes s)) s)) →
  bal fs_inv (one p) 1 0 s (with_world w (with_vnodes (<[p := x]> (vnodes s)) s)).
Proof.
  intros Hok Hn H0 Hdb Hf Hrc Ht Hfs. set (s' := with_world w _).
  assert (Hdev : devpart s' = devpart s).
  { apply map_eq. intros v. unfold devpart, s'. simpl. rewrite !lookup_omap.
    destruct (decide (v = p)) as [-> |]; [| by rewrite lookup_insert_ne].
    rewrite lookup_insert_eq, Hn. simpl. by rewrite Ht. }
  assert (Hrefs : ∀ v, refs s' v = refs s v + one p v).
  { intros v. change (refs s' v) with (refs (with_vnodes (<[p:=x]> (vnodes s)) s) v).
    rewrite refs_insert. unfold one, refs. destruct (Z.eqb_spec v p) as [-> |]; simpl; [| lia].
    rewrite Hn. simpl. lia. }
  assert (Hheld : ∀ v, held s' v = held s v + one p v).
  { intros v. unfold held. rewrite Hrefs. simpl. lia. }
  assert (Hne : ∀ v, v ≠ 0 → 1 <= owned s v → v ≠ p).
  { intros v Hv Ho ->. pose proof (vo_owned s Hok p Hv) as H. unfold held, refs in H. rewrite Hn in H.
    simpl in H. pose proof (countb_range (λ w, w =? p) (warned s)). lia. }
  split; [| done | | done | |].
  - split.
    + intros v y. unfold s'. simpl. destruct (decide (v = p)) as [-> |].
      * rewrite lookup_insert_eq. intros [= <-]. split_and!; try done. lia.
      * rewrite lookup_insert_ne by done. apply Hok.
    + intros v Hv. rewrite Hheld. pose proof (vo_owned s Hok v Hv). pose proof (one_range p v).
      change (owned s' v) with (owned s v). lia.
    + rewrite Hdev. apply Hok.
    + intros kd Hin. destruct (vo_kd s Hok kd Hin). split; rewrite ?Hdev; done.
    + intros Hc. destruct (vo_cwd s Hok Hc) as (y & Hy & Hfy). exists y. split; [| done].
      unfold s'. simpl. rewrite lookup_insert_ne; [done |]. intros ->. simpl in Hy. congruence.
    + unfold dev_usable. rewrite Hdev. apply (vo_boot s Hok).
    + unfold dev_usable. rewrite Hdev. apply (vo_cwd_dev s Hok).
  - unfold fixed. by rewrite Hdev.
  - intros v. rewrite Hrefs. pose proof (one_range p v). lia.
  - simpl. lia.
Qed.

Lemma bal_drop s v x t w :
  vfs_ok s → vnodes s !! v = Some x → vn_ops x = fs_vnode_ops t → vn_refcount x = 1 →
  1 <= held s v → owned s v = 0 →
  fs_inv (with_world w (with_vnodes (delete v (vnodes s)) s)) →
  bal fs_inv (λ u, - one v u) 0 0 s (with_world w (with_vnodes (delete v (vnodes s)) s)).
Proof.
  intros Hok Hx Ht Hrc Hh Ho Hfs. set (s' := with_world w _).
  assert (Hv : v ≠ 0) by (by eapply live_ne).
  assert (Hdev : devpart s' = devpart s).
  { apply map_eq. intros u. unfold devpart, s'. simpl. rewrite !lookup_omap.
    destruct (decide (u = v)) as [-> |]; [| by rewrite lookup_delete_ne].
    rewrite lookup_delete_eq, Hx. simpl. by rewrite Ht. }
  assert (Hrefs : ∀ u, refs s' u = refs s u - one v u).
  { intros u. unfold refs, s', one. simpl. destruct (Z.eqb_spec u v) as [-> |]; simpl.
    - rewrite lookup_delete_eq, Hx. simpl. lia.
    - rewrite lookup_delete_ne by done. lia. }
  assert (Hheld : ∀ u, held s' u = held s u + - one v u).
  { intros u. unfold held. rewrite Hrefs. simpl. lia. }
  split; [| done | | done | |].
  - split.
    + intros u y. unfold s'. simpl. intros [_ Hy]%lookup_delete_Some. by apply Hok.
    + intros u Hu. rewrite Hheld. change (owned s' u) with (owned s u).
      pose proof (vo_owned s Hok u Hu). unfold one. destruct (Z.eqb_spec u v) as [-> |]; simpl; lia.
    + rewrite Hdev. apply Hok.
    + intros kd Hin. destruct (vo_kd s Hok kd Hin). split; rewrite ?Hdev; done.
    + simpl. intros Hc. destruct (vo_cwd s Hok Hc) as (y & Hy & Hfy). exists y. split; [| done].
      rewrite lookup_delete_ne; [done |]. intros ->. unfold owned in Ho. rewrite Z.eqb_refl in Ho.
      pose proof (countb_range (λ kd, kd_vnode kd =? p_cwd s) (knowndevs s)).
      unfold b2z in Ho. destruct (bootfs_vnode s =? p_cwd s); lia.
    + unfold dev_usable. rewrite Hdev. apply (vo_boot s Hok).
    + unfold dev_usable. rewrite Hdev. apply (vo_cwd_dev s Hok).
  - unfold fixed. by rewrite Hdev.
  - intros u. rewrite Hrefs. pose proof (one_range v u). lia.
  - simpl. lia.
Qed.
End vnodes.

(** ** A heap that hands out ever higher addresses

    [bw_left] is the number of allocations that still succeed, [None] when the
    heap does not run out.  [uiomove] moves the bytes to nowhere. *)

Record bump := mkBump { bw_semfs : semfs; bw_next : Z; bw_left : option nat }.

#[export] Instance bump_semfs : HasSemfs bump := {|
  get_semfs := bw_semfs;
  set_semfs f w := mkBump f (bw_next w) (bw_left w)
|}.

#[export] Instance bump_kernel : Kernel bump := {|
  kmalloc n s :=
    let w := world s in
    match bw_left w with
    | Some O => Done 0 s
    | l => Done (bw_next w) (with_world (mkBump (bw_semfs w) (bw_next w + 16) (Nat.pred <$> l)) s)
    end;
  kfree p := mret tt;
  uiomove l u := mret (0, advance (Z.min (Z.of_nat (length l)) (uio_resid u)) u)
|}.

Abbreviation fsem s := (bw_semfs (world s)).
Abbreviation vns f := (elems (semfs_vnodes f)).
Abbreviation sems f := (elems (semfs_sems f)).
Abbreviation dents f := (elems (semfs_dents f)).

(** The tables agree with each other and with the vnodes in memory.  [L] is the
    entry of the directory whose semaphore [semfs_creat] has not yet marked. *)
Record tables_ok (L : option nat) (V : gmap Z (Z * Z * vnode_ops)) (f : semfs) : Prop := {
  tk_vns v : (∃ fs d t, V !! v = Some (fs, d, fs_vnode_ops t)) ↔ v ∈ vns f;
  tk_nodup : NoDup (vns f);
  tk_vn v : v ∈ vns f → ∃ n, semv_semnum f !! v = Some n ∧
    V !! v = Some (semfs_absfs f, v, if n =? SEMFS_ROOTDIR then semfs_dirops else semfs_semops);
  tk_inj v v' n : v ∈ vns f → v' ∈ vns f →
    semv_semnum f !! v = Some n → semv_semnum f !! v' = Some n → v = v';
  tk_sem v n : v ∈ vns f → semv_semnum f !! v = Some n → n ≠ SEMFS_ROOTDIR →
    0 <= n ∧ ∃ sem, sems f !! Z.to_nat n = Some (Some sem) ∧ sems_hasvnode sem = true;
  tk_has i sem : sems f !! i = Some (Some sem) → sems_hasvnode sem = true →
    ∃ v, v ∈ vns f ∧ semv_semnum f !! v = Some (Z.of_nat i);
  tk_dent i d : dents f !! i = Some (Some d) →
    0 <= semd_semnum d ∧ ∃ sem, sems f !! Z.to_nat (semd_semnum d) = Some (Some sem) ∧
      (sems_linked sem = true ∨ L = Some i);
  tk_dinj i j d d' : dents f !! i = Some (Some d) → dents f !! j = Some (Some d') →
    semd_semnum d = semd_semnum d' → i = j;
  tk_small : Z.of_nat (length (sems f)) <= SEMFS_ROOTDIR;
  tk_shape i sem : sems f !! i = Some (Some sem) →
    ∃ a b c d, sems_lock sem = [a; b] ∧ sems_cv sem = [c; d];
  tk_fs : semfs_absfs f ≠ 0 ∧ semfs_absfs f ≠ 0xdeadbeef
}.

Record heap_ok (s : vfs bump) : Prop := {
  ho_left : bw_left (world s) = None;
  ho_next : 0 < bw_next (world s) ∧ bw_next (world s) mod 16 = 0;
  ho_fresh : ∀ v x, vnodes s !! v = Some x → v < bw_next (world s);
  ho_null : ∀ d dev, devices s !! d = Some dev → d_ops dev = null_devops
}.

Record inv (L : option nat) (s : vfs bump) : Prop := {
  in_tables : tables_ok L (idpart s) (fsem s);
  in_heap : heap_ok s
}.

Section laws.
Implicit Types s : vfs bump.

Lemma kmalloc_run s n :
  bw_left (world s) = None →
  kmalloc n s = Done (bw_next (world s))
                  (with_world (mkBump (fsem s) (bw_next (world s) + 16) None) s).
Proof. intros H. simpl. by rewrite H. Qed.

(** The state with the semaphore file system [f] and more of the heap used. *)
Definition grow (f : semfs) (k : Z) s : vfs bump :=
  with_world (mkBump f (bw_next (world s) + 16 * k) (bw_left (world s))) s.

Lemma grow_left f k s : bw_left (world (grow f k s)) = bw_left (world s).
Proof. done. Qed.
Lemma grow_grow f k f' k' s : grow f' k' (grow f k s) = grow f' (k + k') s.
Proof. unfold grow, with_world. simpl. do 2 f_equal. lia. Qed.
Lemma grow_0 s : grow (fsem s) 0 s = s.
Proof. unfold grow. destruct s as [? ? ? ? ? ? ? ? ? [f n l]]. unfold with_world. simpl. do 2 f_equal. lia. Qed.

Lemma alloc_run s n : bw_left (world s) = None →
  kmalloc n s = Done (bw_next (world s)) (grow (fsem s) 1 s).
Proof. intros H. rewrite kmalloc_run by done. unfold grow. by rewrite H. Qed.

Lemma upd_run s g : upd_semfs g s = Done tt (grow (g (fsem s)) 0 s).
Proof. unfold upd_semfs, modify, grow. simpl. by rewrite Z.add_0_r. Qed.

Lemma grow_heap f k s : 0 <= k → heap_ok s → heap_ok (grow f k s).
Proof.
  intros Hk [H1 H2 H3 H4]. split; simpl; try done.
  - split; [lia |]. replace (bw_next (world s) + 16 * k) with (bw_next (world s) + k * 16) by lia.
    rewrite Z.mod_add by done. apply H2.
  - intros v x Hx. specialize (H3 v x Hx). simpl in H3. lia.
Qed.

Lemma next_ne s : heap_ok s → bw_next (world s) ≠ 0 ∧ bw_next (world s) ≠ 0xdeadbeef ∧
  vnodes s !! bw_next (world s) = None.
Proof.
  intros [_ [H1 H2] H3 _]. split; [lia |]. split; [intros E; by rewrite E in H2 |].
  destruct (vnodes s !! bw_next (world s)) as [x|] eqn:E; [| done]. specialize (H3 _ _ E). lia.
Qed.

Lemma parray_add_run {A} (get : semfs → parray A) set (x : A) s :
  (∀ a f, get (set a f) = a) → (∀ a b f, set a (set b f) = set a f) →
  heap_ok s →
  ∃ v m k, 0 <= k ∧ parray_add get set x s =
    Done (0, Z.of_nat (length (elems (get (fsem s)))))
      (grow (set (mkArr (elems (get (fsem s)) ++ [x]) v m) (fsem s)) k s).
Proof.
  intros Hgs Hss Hh. destruct (next_ne s Hh) as (Hn & _ & _). pose proof (ho_left s Hh) as Hl.
  unfold parray_add, the_semfs. unfold mbind at 1, M_bind at 1, gets. simpl get_semfs.
  set (a := get (fsem s)). destruct (pa_max a <? _).
  - set (m := if pa_max a =? 0 then 4 else _). exists (bw_next (world s)), m, 1. split; [lia |].
    unfold mbind, M_bind. rewrite alloc_run by done.
    rewrite (proj2 (Z.eqb_neq _ 0)) by done. rewrite upd_run.
    cbv [kfree bump_kernel mret M_ret]. cbv beta iota. change (negb (0 =? 0)) with false. cbv iota beta.
    rewrite upd_run, !grow_grow. cbn [fsem grow world with_world bw_semfs]. by rewrite !Hgs, Hss.
  - exists (pa_v a), (pa_max a), 0. split; [lia |]. unfold mbind, M_bind.
    cbv [mret M_ret]. cbv beta iota. change (negb (0 =? 0)) with false. cbv iota beta. by rewrite upd_run.
Qed.

(** *** Reading the tables *)

Lemma vns_data L s v x :
  inv L s → v ∈ vns (fsem s) → vnodes s !! v = Some x →
  vn_data x = v ∧ ∃ n, semv_semnum (fsem s) !! v = Some n ∧
    vn_fs x = semfs_absfs (fsem s) ∧ vn_ops x = if n =? SEMFS_ROOTDIR then semfs_dirops else semfs_semops.
Proof.
  intros [T _] Hv Hx. destruct (tk_vn _ _ _ T v Hv) as (n & Hn & E). unfold idpart in E.
  rewrite lookup_fmap, Hx in E. injection E as E1 E2 E3. eauto.
Qed.

Lemma semnum_of_run s v x n :
  vnodes s !! v = Some x → vn_data x = v → semv_semnum (fsem s) !! v = Some n →
  semnum_of v s = Done n s.
Proof. intros Hx Hd Hn. unfold semnum_of, get_vnode. mrun. rewrite Hx, Hd. simpl. by rewrite Hn. Qed.

Lemma in_vns L s v : inv L s → fs_vnode s v ↔ v ∈ vns (fsem s).
Proof.
  intros [T _]. rewrite <- (tk_vns _ _ _ T v). unfold fs_vnode, idpart. setoid_rewrite lookup_fmap.
  split.
  - intros (x & t & -> & E). exists (vn_fs x), (vn_data x), t. simpl. by rewrite E.
  - intros (fs & d & t & E). destruct (vnodes s !! v) as [x|]; [| done]. injection E as _ _ E.
    by exists x, t.
Qed.

Lemma vns_live L s v : inv L s → v ∈ vns (fsem s) → ∃ x, vnodes s !! v = Some x.
Proof. intros I Hv. apply (in_vns L s v I) in Hv as (x & t & Hx & _). eauto. Qed.

Lemma semnum_run L s v :
  inv L s → v ∈ vns (fsem s) → ∃ n, semnum_of v s = Done n s ∧ semv_semnum (fsem s) !! v = Some n.
Proof.
  intros I Hv. destruct (vns_live L s v I Hv) as (x & Hx).
  destruct (vns_data L s v x I Hv Hx) as (Hd & n & Hn & _). exists n. split; [| done].
  by eapply semnum_of_run.
Qed.

Lemma find_vnode_run L s n l :
  inv L s → vfs_ok s → (∀ v, v ∈ l → v ∈ vns (fsem s)) →
  (∃ v, v ∈ l ∧ v ≠ 0 ∧ semv_semnum (fsem s) !! v = Some n ∧ find_vnode n l s = Done v s) ∨
  ((∀ v, v ∈ l → semv_semnum (fsem s) !! v ≠ Some n) ∧ find_vnode n l s = Done 0 s).
Proof.
  intros I Hok. induction l as [|v l IH]; intros Hl; simpl.
  { right. split; [| done]. intros v Hv. by apply elem_of_nil in Hv. }
  destruct (semnum_run L s v I) as (m & E & Hm); [apply Hl; left |].
  unfold mbind, M_bind. rewrite E. destruct (Z.eqb_spec m n) as [-> | Hne].
  - left. exists v. split_and!; try done; [left |]. destruct (vns_live L s v I) as (x & Hx); [apply Hl; left |].
    by eapply live_ne.
  - destruct IH as [(u & Hu & H0 & Hn & E') | [Hno E']]; [intros; apply Hl; by right | left | right].
    + exists u. split_and!; try done. by right.
    + split; [| done]. intros u [-> | Hu]%elem_of_cons; [congruence | by apply Hno].
Qed.

Lemma sems_get_run s n x :
  sems (fsem s) !! Z.to_nat n = Some x → sems_get n s = Done x s.
Proof. intros H. unfold sems_get, the_semfs. mrun. simpl. by rewrite H. Qed.
Lemma the_sem_run s n sem :
  sems (fsem s) !! Z.to_nat n = Some (Some sem) → the_sem n s = Done sem s.
Proof. intros H. unfold the_sem, mbind, M_bind. by rewrite (sems_get_run s n _ H). Qed.

(** *** Keeping the tables consistent *)

Definition set_sem (f : semfs) (n : Z) (x : option semfs_sem) : semfs :=
  with_sems (with_elems (<[Z.to_nat n := x]> (sems f)) (semfs_sems f)) f.
Definition sem_ops (n : Z) : vnode_ops := if n =? SEMFS_ROOTDIR then semfs_dirops else semfs_semops.

(** The vnode [p] for semaphore [n] comes into memory. *)
Definition new_semv (f : semfs) (p n v m : Z) : semfs :=
  with_vns (mkArr (vns f ++ [p]) v m) (with_semnums (<[p := n]> (semv_semnum f)) f).

(** Numbers of semaphores are in range. *)
Lemma sem_index L V f i x : tables_ok L V f → sems f !! i = Some x → Z.of_nat i ≠ SEMFS_ROOTDIR.
Proof. intros T Hi%lookup_lt_Some. pose proof (tk_small _ _ _ T). lia. Qed.

Section tables_new.
Context (L : option nat) (V : gmap Z (Z * Z * vnode_ops)) (f f' : semfs) (p n v m : Z).
Hypothesis T : tables_ok L V f.
Hypothesis Hp : p ∉ vns f.
Hypothesis HV : V !! p = None.
Hypothesis Hno : ∀ u, u ∈ vns f → semv_semnum f !! u ≠ Some n.
Hypothesis Hsem : n ≠ SEMFS_ROOTDIR → 0 <= n ∧ ∃ sem, sems f !! Z.to_nat n = Some (Some sem).
Hypothesis Ef' :
  f' = if n =? SEMFS_ROOTDIR then new_semv f p n v m
       else match sems f !! Z.to_nat n with
            | Some (Some sem) => set_sem (new_semv f p n v m) n (Some (with_hasvnode true sem))
            | _ => f
            end.

(** The semaphores of [f'] are those of [f], but [n] now has a vnode. *)
Lemma new_sem i sem :
  sems f !! i = Some (Some sem) →
  ∃ sem', sems f' !! i = Some (Some sem') ∧ sems_linked sem' = sems_linked sem ∧
    sems_hasvnode sem' = (sems_hasvnode sem || (Z.of_nat i =? n)) ∧
    sems_lock sem' = sems_lock sem ∧ sems_cv sem' = sems_cv sem.
Proof.
  intros Hi. pose proof (sem_index _ _ _ _ _ T Hi) as Hne. rewrite Ef'.
  destruct (Z.eqb_spec n SEMFS_ROOTDIR) as [-> | Hn].
  { exists sem. simpl. rewrite (proj2 (Z.eqb_neq _ _) Hne), orb_false_r. done. }
  destruct (Hsem Hn) as (H0 & sem0 & E0). rewrite E0. unfold set_sem, new_semv. simpl.
  destruct (decide (i = Z.to_nat n)) as [-> | Hin].
  - rewrite E0 in Hi. injection Hi as ->. rewrite list_lookup_insert_eq by (by eapply lookup_lt_Some).
    eexists. split; [done |]. simpl. rewrite Z2Nat.id, Z.eqb_refl, orb_true_r by done. done.
  - rewrite list_lookup_insert_ne by done. exists sem. split_and!; try done.
    destruct (Z.eqb_spec (Z.of_nat i) n); [lia |]. by rewrite orb_false_r.
Qed.

Lemma old_sem i x : sems f' !! i = Some (Some x) → ∃ sem, sems f !! i = Some (Some sem).
Proof.
  rewrite Ef'. destruct (n =? SEMFS_ROOTDIR); simpl; [eauto |].
  destruct (sems f !! Z.to_nat n) as [[sem0|]|] eqn:E0; simpl; eauto.
  intros [[<- _] | [_ H]]%list_lookup_insert_Some; eauto.
Qed.

Lemma new_fields :
  vns f' = vns f ++ [p] ∧ semv_semnum f' = <[p := n]> (semv_semnum f) ∧
  semfs_absfs f' = semfs_absfs f ∧ dents f' = dents f ∧ length (sems f') = length (sems f).
Proof.
  rewrite Ef'. destruct (Z.eqb_spec n SEMFS_ROOTDIR) as [-> | Hn]; [done |].
  destruct (Hsem Hn) as (H0 & sem0 & ->). simpl. by rewrite length_insert.
Qed.

Lemma tables_new : tables_ok L (<[p := (semfs_absfs f, p, sem_ops n)]> V) f'.
Proof.
  destruct new_fields as (Ev & En & Ea & Ed & El).
  assert (Hops : ∃ t, sem_ops n = fs_vnode_ops t) by (unfold sem_ops; destruct (n =? SEMFS_ROOTDIR); eexists; done).
  assert (Hnew : ∀ u, u ∈ vns f → semv_semnum f' !! u = semv_semnum f !! u).
  { intros u Hu. rewrite En, lookup_insert_ne; [done |]. by intros ->. }
  assert (Hnum : semv_semnum f' !! p = Some n) by by rewrite En, lookup_insert_eq.
  split.
  - intros u. rewrite Ev, elem_of_app, list_elem_of_singleton, <- (tk_vns _ _ _ T u).
    destruct (decide (u = p)) as [-> |].
    + rewrite lookup_insert_eq. destruct Hops as (t & ->). split; [by right |]. intros _. by eexists _, _, _.
    + rewrite lookup_insert_ne by done. naive_solver.
  - rewrite Ev. apply NoDup_app. split_and!; [apply T | | apply NoDup_singleton].
    intros u Hu Hu'%list_elem_of_singleton. by subst.
  - intros u. rewrite Ev, elem_of_app, list_elem_of_singleton. intros [Hu | ->].
    + rewrite Hnew by done. destruct (tk_vn _ _ _ T u Hu) as (k & Hk & HVk). exists k. split; [done |].
      rewrite lookup_insert_ne by (by intros ->). by rewrite Ea.
    + exists n. split; [done |]. by rewrite lookup_insert_eq, Ea.
  - intros u u' k. rewrite Ev, !elem_of_app, !list_elem_of_singleton. intros [Hu | ->] [Hu' | ->]; try done.
    + rewrite !Hnew by done. by apply (tk_inj _ _ _ T).
    + rewrite Hnew, Hnum by done. intros H1 [= <-]. by destruct (Hno u Hu).
    + rewrite Hnum, (Hnew u' Hu'). intros [= <-] H1. by destruct (Hno u' Hu').
  - intros u k. rewrite Ev, elem_of_app, list_elem_of_singleton. intros [Hu | ->] Hk Hne.
    + rewrite Hnew in Hk by done. destruct (tk_sem _ _ _ T u k Hu Hk Hne) as (H0 & sem & E & Hh).
      split; [done |]. destruct (new_sem _ _ E) as (sem' & E' & _ & Hh' & _). exists sem'.
      split; [done |]. by rewrite Hh', Hh.
    + rewrite Hnum in Hk. injection Hk as <-. destruct (Hsem Hne) as (H0 & sem & E). split; [done |].
      destruct (new_sem _ _ E) as (sem' & E' & _ & Hh' & _). exists sem'. split; [done |].
      by rewrite Hh', Z2Nat.id, Z.eqb_refl, orb_true_r.
  - intros i sem' Hi Hh'. destruct (old_sem i sem' Hi) as (sem & E).
    destruct (new_sem _ _ E) as (sem2 & E2 & _ & Hh2 & _). rewrite Hi in E2. injection E2 as <-.
    rewrite Hh' in Hh2. symmetry in Hh2. apply orb_true_iff in Hh2 as [Hh | Hn].
    + destruct (tk_has _ _ _ T i sem E Hh) as (u & Hu & Hk). exists u. rewrite Ev, Hnew by done. split; [set_solver | done].
    + apply Z.eqb_eq in Hn. exists p. rewrite Ev, Hnum, Hn. split; [set_solver | done].
  - rewrite Ed. intros i d Hd. destruct (tk_dent _ _ _ T i d Hd) as (H0 & sem & E & Hl).
    split; [done |]. destruct (new_sem _ _ E) as (sem' & E' & Hl' & _). exists sem'. by rewrite Hl'.
  - rewrite Ed. apply T.
  - rewrite El. apply T.
  - intros i sem' Hi. destruct (old_sem i sem' Hi) as (sem & E).
    destruct (new_sem _ _ E) as (sem2 & E2 & _ & _ & H1 & H2). rewrite Hi in E2. injection E2 as <-.
    rewrite H1, H2. by apply (tk_shape _ _ _ T i).
  - rewrite Ea. apply T.
Qed.
End tables_new.

(** *** The vnode of a semaphore *)

Lemma inv_ext L s s' :
  world s' = world s → idpart s' = idpart s → knowndevs s' = knowndevs s →
  devices s' = devices s → inv L s → inv L s'.
Proof.
  intros Hw Hi _ Hd [T [H1 H2 H3 H4]]. split; [by rewrite Hw, Hi |]. split; rewrite ?Hw, ?Hd; try done.
  intros v x Hx. assert (E : idpart s' !! v = idpart s !! v) by by rewrite Hi.
  unfold idpart in E. rewrite !lookup_fmap, Hx in E. destruct (vnodes s !! v) as [y|] eqn:Hy; [| done].
  by eapply H3.
Qed.

Lemma fs_usable s v : fs_vnode s v → dev_usable s v.
Proof.
  intros (x & t & Hx & Ht) d. unfold devpart. rewrite lookup_omap, Hx. simpl. by rewrite Ht.
Qed.

Lemma idpart_insert s v x :
  idpart (with_vnodes (<[v := x]> (vnodes s)) s) =
  <[v := (vn_fs x, vn_data x, vn_ops x)]> (idpart s).
Proof. unfold idpart. simpl. by rewrite fmap_insert. Qed.

Lemma incref_vns L s v :
  vfs_ok s → inv L s → room 1 s → v ∈ vns (fsem s) →
  ∃ s', vnode_incref v s = Done tt s' ∧ bal (inv L) (one v) 1 0 s s' ∧ world s' = world s ∧
    dev_usable s' v.
Proof.
  intros Hok I Hr Hv. destruct (vns_live L s v I Hv) as (x & Hx).
  pose proof (incref_ok (inv L) (inv_ext L) s v x Hok I Hr Hx) as T.
  apply twp_ex in T as ([] & s' & E & B). exists s'. split_and!; try done.
  - revert E. unfold VOP_INCREF, vnode_incref, get_vnode, set_vnode. mrun.
    destruct (v =? 0); simpl; [done |]. rewrite Hx. by intros [= <-].
  - apply (fixed_usable s); [apply B |]. apply fs_usable. by apply (in_vns L).
Qed.

Lemma vnode_create_run s n :
  heap_ok s →
  let p := bw_next (world s) in
  semfs_vnode_create n s = Done p
    (with_vnodes (<[p := mkVnode 1 (semfs_absfs (fsem s)) p (sem_ops n)]> (vnodes s))
       (grow (with_semnums (<[p := n]> (semv_semnum (fsem s))) (fsem s)) 1 s)).
Proof.
  intros Hh p. destruct (next_ne s Hh) as (Hn & _ & _). pose proof (ho_left s Hh) as Hl.
  unfold semfs_vnode_create, the_semfs. unfold mbind, M_bind, gets.
  rewrite alloc_run by done. fold p. rewrite (proj2 (Z.eqb_neq p 0)) by done.
  rewrite upd_run, grow_grow. cbn [fsem grow world with_world bw_semfs get_semfs bump_semfs].
  unfold vnode_init, set_vnode. mrun. rewrite (proj2 (Z.eqb_neq p 0)) by done. done.
Qed.

(** The final step of [semfs_getvnode]: the semaphore has a vnode. *)
Lemma mark_vnode_run s n :
  (n ≠ SEMFS_ROOTDIR → ∃ sem, sems (fsem s) !! Z.to_nat n = Some (Some sem) ∧ sems_hasvnode sem = false) →
  (if negb (n =? SEMFS_ROOTDIR) then
     sem ← the_sem n;
     kassert (negb (sems_hasvnode sem)) "sem->sems_hasvnode == false" ;;
     sems_set n (Some (with_hasvnode true sem))
   else mret tt) s =
  Done tt (grow (if n =? SEMFS_ROOTDIR then fsem s
                 else match sems (fsem s) !! Z.to_nat n with
                      | Some (Some sem) => set_sem (fsem s) n (Some (with_hasvnode true sem))
                      | _ => fsem s
                      end) 0 s).
Proof.
  intros H. destruct (Z.eqb_spec n SEMFS_ROOTDIR) as [-> | Hne]; simpl; [by rewrite grow_0 |].
  destruct (H Hne) as (sem & E & Hf). unfold mbind, M_bind. rewrite (the_sem_run s n sem E), E.
  unfold kassert. rewrite Hf. simpl. unfold sems_set. by rewrite upd_run.
Qed.

(** No vnode for [n] is in memory: one is made. *)
Lemma getvnode_new L s n :
  vfs_ok s → inv L s → heap_ok s → (∀ u, u ∈ vns (fsem s) → semv_semnum (fsem s) !! u ≠ Some n) →
  (n ≠ SEMFS_ROOTDIR → 0 <= n ∧ ∃ sem, sems (fsem s) !! Z.to_nat n = Some (Some sem)) →
  ∃ v s', (semv ← semfs_vnode_create n;
      if semv =? 0 then mret (ENOMEM, 0)
      else
        '(result, _) ← parray_add semfs_vnodes with_vns semv;
        if negb (result =? 0) then semfs_vnode_destroy semv ;; mret (ENOMEM, 0)
        else
          (if negb (n =? SEMFS_ROOTDIR) then
             sem ← the_sem n;
             kassert (negb (sems_hasvnode sem)) "sem->sems_hasvnode == false" ;;
             sems_set n (Some (with_hasvnode true sem))
           else mret tt) ;;
          mret (0, semv)) s = Done (0, v) s' ∧ v ≠ 0 ∧ dev_usable s' v ∧
    bal (inv L) (one v) 1 0 s s' ∧ dents (fsem s') = dents (fsem s) ∧
    (n ≠ SEMFS_ROOTDIR → ∃ sem, sems (fsem s') !! Z.to_nat n = Some (Some sem)).
Proof.
  intros Hok I Hh Hno Hn. destruct (next_ne s Hh) as (H0 & Hdb & Hfr). set (p := bw_next (world s)) in *.
  set (f := fsem s). set (x := mkVnode 1 (semfs_absfs f) p (sem_ops n)).
  set (s2 := with_vnodes (<[p := x]> (vnodes s)) (grow (with_semnums (<[p := n]> (semv_semnum f)) f) 1 s)).
  unfold mbind at 1, M_bind at 1. rewrite vnode_create_run by done. fold p f x s2.
  rewrite (proj2 (Z.eqb_neq p 0)) by done.
  assert (Hh2 : heap_ok s2).
  { destruct (grow_heap f 1 s ltac:(lia) Hh) as [A1 A2 A3 A4]. split; try done.
    intros v y. unfold s2. simpl. destruct (decide (v = p)) as [-> | Hv].
    - intros _. fold p. lia.
    - rewrite lookup_insert_ne by done. intros Hy. pose proof (ho_fresh s Hh v y Hy). lia. }
  destruct (parray_add_run semfs_vnodes with_vns p s2) as (a & m & k & Hk & E3); try done.
  unfold mbind at 1, M_bind at 1. rewrite E3. change (negb (0 =? 0)) with false. cbv iota.
  set (s3 := grow _ k s2). assert (Ef3 : fsem s3 = new_semv f p n a m) by done.
  assert (Hp : p ∉ vns f).
  { intros Hp. destruct (vns_live L s p I Hp) as (y & Hy). congruence. }
  unfold mbind at 1, M_bind at 1. rewrite mark_vnode_run.
  2: { intros Hne. destruct (Hn Hne) as (Hn0 & sem & Es). exists sem. split; [done |].
       destruct (sems_hasvnode sem) eqn:Eh; [| done].
       destruct (tk_has _ _ _ (in_tables _ _ I) _ _ Es Eh) as (u & Hu & Hnu).
       destruct (Hno u Hu). by rewrite Hnu, Z2Nat.id. }
  rewrite Ef3. set (f' := if n =? SEMFS_ROOTDIR then _ else _).
  exists p, (grow f' 0 s3). split; [done |]. split; [done |].
  assert (Est : grow f' 0 s3 = with_world (mkBump f' (p + 16 * (1 + k)) (bw_left (world s)))
                                 (with_vnodes (<[p := x]> (vnodes s)) s)).
  { unfold s3. rewrite grow_grow. unfold s2, grow, with_world, with_vnodes. simpl. do 2 f_equal. fold p. lia. }
  assert (Ht : ∃ t, sem_ops n = fs_vnode_ops t) by (unfold sem_ops; destruct (n =? SEMFS_ROOTDIR); by eexists).
  destruct Ht as (t & Ht).
  assert (HV : idpart s !! p = None) by (unfold idpart; by rewrite lookup_fmap, Hfr).
  assert (Hf' : f' = if n =? SEMFS_ROOTDIR then new_semv f p n a m
       else match sems f !! Z.to_nat n with
            | Some (Some sem) => set_sem (new_semv f p n a m) n (Some (with_hasvnode true sem))
            | _ => f
            end).
  { unfold f'. destruct (Z.eqb_spec n SEMFS_ROOTDIR) as [-> | Hne]; [done |].
    destruct (Hn Hne) as (_ & sem & Es). change (sems (new_semv f p n a m)) with (sems f).
    fold f in Es. by rewrite Es. }
  assert (Ed : dents f' = dents f).
  { rewrite Hf'. destruct (n =? SEMFS_ROOTDIR); [done |]. by destruct (sems f !! Z.to_nat n) as [[|]|]. }
  split_and!.
  - rewrite Est. apply fs_usable. exists x, t. split; [| done]. simpl. by rewrite lookup_insert_eq.
  - rewrite Est. apply (bal_new (inv L) s p x t); try done; [apply (tk_fs _ _ _ (in_tables _ _ I)) |].
    split.
    + change (tables_ok L (idpart (with_vnodes (<[p:=x]> (vnodes s)) s)) f'). rewrite idpart_insert.
      by apply (tables_new L (idpart s) f f' p n a m); try done; apply I.
    + destruct Hh2 as [A1 [A2 A3] A4 A5]. split; simpl; try done.
      * simpl in A2, A3. split; [lia |].
        replace (p + 16 * (1 + k)) with (p + 16 * 1 + k * 16) by lia. rewrite Z.mod_add by done. done.
      * intros v y Hy. specialize (A4 v y Hy). simpl in A4. fold p in A4. lia.
  - done.
  - intros Hne. destruct (Hn Hne) as (_ & sem & Es).
    change (fsem (grow f' 0 s3)) with f'. rewrite Hf', (proj2 (Z.eqb_neq n _) Hne). fold f in Es. rewrite Es.
    unfold set_sem. simpl. rewrite list_lookup_insert_eq by (by eapply lookup_lt_Some). eauto.
Qed.

Lemma getvnode_ok L s n :
  vfs_ok s → inv L s → room 1 s →
  (n ≠ SEMFS_ROOTDIR → 0 <= n ∧ ∃ sem, sems (fsem s) !! Z.to_nat n = Some (Some sem)) →
  ∃ v s', semfs_getvnode n s = Done (0, v) s' ∧ v ≠ 0 ∧ dev_usable s' v ∧
    bal (inv L) (one v) 1 0 s s' ∧ dents (fsem s') = dents (fsem s) ∧
    (n ≠ SEMFS_ROOTDIR → ∃ sem, sems (fsem s') !! Z.to_nat n = Some (Some sem)).
Proof.
  intros Hok I Hr Hn. unfold semfs_getvnode. unfold mbind at 1, M_bind at 1, the_semfs, gets at 1.
  simpl get_semfs. unfold mbind at 1, M_bind at 1.
  destruct (find_vnode_run L s n (vns (fsem s)) I Hok ltac:(done)) as
    [(v & Hv & H0 & Hnum & ->) | [Hno ->]].
  - rewrite (proj2 (Z.eqb_neq v 0)) by done. cbn [negb].
    destruct (incref_vns L s v Hok I Hr Hv) as (s' & E & B & Hw & Hu).
    unfold mbind, M_bind. rewrite E. exists v, s'. rewrite Hw. split_and!; try done.
    intros Hne. by destruct (Hn Hne) as [_ ?].
  - change (negb (0 =? 0)) with false. cbv iota. apply getvnode_new; try done. apply I.
Qed.

(** *** Giving up a vnode *)

(** What [semfs_reclaim] leaves of the semaphore. *)
Definition unvnode (sem : semfs_sem) : option semfs_sem :=
  if sems_linked sem then Some (with_hasvnode false sem) else None.

Section tables_drop.
Context (V : gmap Z (Z * Z * vnode_ops)) (f f' : semfs) (v n : Z) (k : nat).
Hypothesis T : tables_ok None V f.
Hypothesis Hk : vns f !! k = Some v.
Hypothesis Hn : semv_semnum f !! v = Some n.
Hypothesis Ev : vns f' = delete k (vns f).
Hypothesis En : semv_semnum f' = delete v (semv_semnum f).
Hypothesis Ea : semfs_absfs f' = semfs_absfs f.
Hypothesis Ed : dents f' = dents f.
Hypothesis Es : sems f' = if n =? SEMFS_ROOTDIR then sems f
  else match sems f !! Z.to_nat n with
       | Some (Some sem) => <[Z.to_nat n := unvnode sem]> (sems f)
       | _ => sems f
       end.

Lemma drop_vns u : u ∈ vns f' ↔ u ∈ vns f ∧ u ≠ v.
Proof.
  pose proof (delete_Permutation _ _ _ Hk) as HP. pose proof (tk_nodup _ _ _ T) as Hnd.
  rewrite HP in Hnd. apply NoDup_cons in Hnd as [Hv _]. rewrite Ev.
  assert (E : u ∈ vns f ↔ u = v ∨ u ∈ delete k (vns f)) by (rewrite HP at 1; apply elem_of_cons).
  rewrite E. split; [| naive_solver]. intros Hu. split; [by right |]. intros ->. done.
Qed.

Lemma drop_num u : u ≠ v → semv_semnum f' !! u = semv_semnum f !! u.
Proof. intros Hu. by rewrite En, lookup_delete_ne. Qed.

(** A semaphore of [f'] is one of [f]; only [n] may have changed. *)
Lemma drop_sem i sem' :
  sems f' !! i = Some (Some sem') →
  ∃ sem, sems f !! i = Some (Some sem) ∧ sems_lock sem' = sems_lock sem ∧ sems_cv sem' = sems_cv sem ∧
    (sems_hasvnode sem' = true → sems_hasvnode sem = true ∧ (n ≠ SEMFS_ROOTDIR → i ≠ Z.to_nat n)).
Proof.
  rewrite Es. destruct (Z.eqb_spec n SEMFS_ROOTDIR) as [-> | Hne]; [naive_solver |].
  destruct (tk_sem _ _ _ T v n) as (H0 & sem & E & Hh); try done; [by eapply list_elem_of_lookup_2 |].
  rewrite E. intros [(<- & Hx & _) | [Hi Hx]]%list_lookup_insert_Some.
  - unfold unvnode in Hx. destruct (sems_linked sem); [| done]. injection Hx as <-. exists sem.
    by split_and!.
  - exists sem'. by split_and!.
Qed.

Lemma drop_keep i sem :
  sems f !! i = Some (Some sem) → sems_linked sem = true ∨ (n ≠ SEMFS_ROOTDIR → i ≠ Z.to_nat n) →
  ∃ sem', sems f' !! i = Some (Some sem') ∧ sems_linked sem' = sems_linked sem ∧
    ((n ≠ SEMFS_ROOTDIR → i ≠ Z.to_nat n) → sems_hasvnode sem' = sems_hasvnode sem).
Proof.
  intros Hi Hl. rewrite Es. destruct (Z.eqb_spec n SEMFS_ROOTDIR) as [-> | Hne]; [eauto |].
  destruct (sems f !! Z.to_nat n) as [[sem0|]|] eqn:E; eauto.
  destruct (decide (i = Z.to_nat n)) as [-> | Hin].
  - rewrite E in Hi. injection Hi as ->. destruct Hl as [Hl | Hl]; [| by destruct Hl].
    rewrite list_lookup_insert_eq by (by eapply lookup_lt_Some). unfold unvnode. rewrite Hl.
    eexists. split; [done |]. split; [done |]. intros H. by destruct H.
  - rewrite list_lookup_insert_ne by done. eauto.
Qed.

Lemma tables_drop : tables_ok None (delete v V) f'.
Proof.
  assert (Hvin : v ∈ vns f) by by eapply list_elem_of_lookup_2.
  split.
  - intros u. rewrite drop_vns, <- (tk_vns _ _ _ T u). destruct (decide (u = v)) as [-> | Hu].
    + rewrite lookup_delete_eq. naive_solver.
    + rewrite lookup_delete_ne by done. naive_solver.
  - pose proof (tk_nodup _ _ _ T) as Hnd. rewrite (delete_Permutation _ _ _ Hk) in Hnd.
    rewrite Ev. by apply NoDup_cons in Hnd as [_ ?].
  - intros u (Hu & Hne)%drop_vns. rewrite drop_num, lookup_delete_ne, Ea by done. by apply T.
  - intros u u' m (Hu & Hne)%drop_vns (Hu' & Hne')%drop_vns. rewrite !drop_num by done. by apply T.
  - intros u m (Hu & Hne)%drop_vns. rewrite drop_num by done. intros Hm Hr.
    destruct (tk_sem _ _ _ T u m Hu Hm Hr) as (H0 & sem & E & Hh). split; [done |].
    assert (Hi : n ≠ SEMFS_ROOTDIR → Z.to_nat m ≠ Z.to_nat n).
    { intros Hrn Heq. destruct (tk_sem _ _ _ T v n Hvin Hn Hrn) as (H0' & _).
      apply Hne. eapply (tk_inj _ _ _ T u v m); try done. replace m with n by lia. done. }
    destruct (drop_keep _ _ E) as (sem' & E' & _ & Hh'); [by right |]. exists sem'. rewrite Hh' by done. done.
  - intros i sem' Hi Hh'. destruct (drop_sem i sem' Hi) as (sem & E & _ & _ & H).
    destruct (H Hh') as (Hh & Hin). destruct (tk_has _ _ _ T i sem E Hh) as (u & Hu & Hm).
    exists u. assert (Hne : u ≠ v).
    { intros ->. rewrite Hn in Hm. injection Hm as ->. destruct Hin; [| lia].
      by apply (sem_index _ _ _ i (Some sem) T). }
    rewrite drop_num by done. split; [by apply drop_vns | done].
  - rewrite Ed. intros i d Hd. destruct (tk_dent _ _ _ T i d Hd) as (H0 & sem & E & Hl). split; [done |].
    destruct Hl as [Hl | ?]; [| done]. destruct (drop_keep _ _ E) as (sem' & E' & Hl' & _); [by left |].
    exists sem'. rewrite Hl'. auto.
  - rewrite Ed. apply T.
  - rewrite Es. destruct (n =? SEMFS_ROOTDIR); [apply T |].
    destruct (sems f !! Z.to_nat n) as [[|]|]; rewrite ?length_insert; apply T.
  - intros i sem' Hi. destruct (drop_sem i sem' Hi) as (sem & E & -> & -> & _). by apply (tk_shape _ _ _ T i).
  - rewrite Ea. apply T.
Qed.
End tables_drop.

Lemma sem_destroy_run s sem :
  (∃ a b c d, sems_lock sem = [a; b] ∧ sems_cv sem = [c; d]) → semfs_sem_destroy sem s = Done tt s.
Proof. intros (a & b & c & d & H1 & H2). unfold semfs_sem_destroy. by rewrite H1, H2. Qed.

(** The middle of [semfs_reclaim]. *)
Lemma unvnode_run s n :
  (n ≠ SEMFS_ROOTDIR → ∃ sem, sems (fsem s) !! Z.to_nat n = Some (Some sem) ∧
     sems_hasvnode sem = true ∧ ∃ a b c d, sems_lock sem = [a; b] ∧ sems_cv sem = [c; d]) →
  (if negb (n =? SEMFS_ROOTDIR) then
     sem ← the_sem n;
     kassert (sems_hasvnode sem) "sem->sems_hasvnode" ;;
     if negb (sems_linked sem) then sems_set n None ;; semfs_sem_destroy sem
     else sems_set n (Some (with_hasvnode false sem))
   else mret tt) s =
  Done tt (grow (if n =? SEMFS_ROOTDIR then fsem s
                 else match sems (fsem s) !! Z.to_nat n with
                      | Some (Some sem) => set_sem (fsem s) n (unvnode sem)
                      | _ => fsem s
                      end) 0 s).
Proof.
  intros H. destruct (Z.eqb_spec n SEMFS_ROOTDIR) as [-> | Hne]; simpl; [by rewrite grow_0 |].
  destruct (H Hne) as (sem & E & Hf & Hs). unfold mbind, M_bind. rewrite (the_sem_run s n sem E), E.
  unfold kassert. rewrite Hf. unfold unvnode. destruct (sems_linked sem); cbn [negb]; cbv beta iota.
  - exact (upd_run s _).
  - unfold mret, M_ret. unfold sems_set. rewrite upd_run. by apply sem_destroy_run.
Qed.

Lemma vnode_destroy_run s v x :
  vnodes s !! v = Some x → vn_refcount x = 1 →
  semfs_vnode_destroy v s = Done tt
    (grow (with_semnums (delete v (semv_semnum (fsem s))) (fsem s)) 0
       (with_vnodes (delete v (vnodes s)) s)).
Proof.
  intros Hx Hrc. unfold semfs_vnode_destroy, vnode_cleanup, get_vnode, upd_semfs. mrun. rewrite Hx, Hrc.
  simpl. unfold grow, with_world. simpl. by rewrite Z.add_0_r.
Qed.

Lemma semfs_reclaim_ok s v x t :
  vfs_ok s → inv None s → vnodes s !! v = Some x → vn_ops x = fs_vnode_ops t → vn_refcount x = 1 →
  1 <= held s v → owned s v = 0 →
  ∃ s', semfs_reclaim v s = Done 0 s' ∧ bal (inv None) (λ w, - one v w) 0 0 s s'.
Proof.
  intros Hok I Hx Ht Hrc Hh Ho. pose proof (in_tables _ _ I) as T.
  assert (Hv : v ∈ vns (fsem s)) by (apply (in_vns None s v I); by exists x, t).
  destruct (first_index_exists (λ u, u =? v) (vns (fsem s))) as (k & Ek).
  { exists v. by rewrite Z.eqb_refl. }
  destruct (first_index_lookup _ _ _ Ek) as (v' & Hk & Hv'). apply Z.eqb_eq in Hv' as ->.
  unfold semfs_reclaim. unfold mbind at 1, M_bind at 1, get_vnode at 1, deref at 1. rewrite Hx, Hrc.
  change (1 <? 1) with false. cbv iota. unfold mbind at 1, M_bind at 1, the_semfs, gets at 1.
  simpl get_semfs. unfold mbind at 1, M_bind at 1. rewrite Ek, upd_run.
  set (f1 := with_vns _ (fsem s)). set (s1 := grow f1 0 s).
  destruct (vns_data None s v x I Hv Hx) as (Hd & n & Hn & _).
  unfold mbind at 1, M_bind at 1. rewrite (semnum_of_run s1 v x n) by done.
  unfold mbind at 1, M_bind at 1. rewrite unvnode_run.
  2: { intros Hne. destruct (tk_sem _ _ _ T v n Hv Hn Hne) as (_ & sem & E & Hhv). exists sem.
       split_and!; try done. by apply (tk_shape _ _ _ T (Z.to_nat n)). }
  set (f2 := if n =? SEMFS_ROOTDIR then _ else _).
  unfold mbind, M_bind. rewrite (vnode_destroy_run _ v x) by done.
  eexists. split; [reflexivity |]. unfold s1.
  set (f3 := with_semnums _ _).
  replace (grow f3 0 _) with (with_world (mkBump f3 (bw_next (world s)) (bw_left (world s)))
                                (with_vnodes (delete v (vnodes s)) s)).
  2: { unfold grow, with_world, with_vnodes. simpl. do 2 f_equal. lia. }
  apply (bal_drop (inv None) s v x t); try done. split.
  - change (tables_ok None (idpart (with_vnodes (delete v (vnodes s)) s)) f3).
    assert (idpart (with_vnodes (delete v (vnodes s)) s) = delete v (idpart s)) as ->.
    { unfold idpart. simpl. by rewrite fmap_delete. }
    apply (tables_drop (idpart s) (fsem s) f3 v n k); try done; unfold f3, f2;
      destruct (n =? SEMFS_ROOTDIR); try done; simpl; by destruct (sems (fsem s) !! Z.to_nat n) as [[|]|].
  - destruct (in_heap _ _ I) as [A1 A2 A3 A4]. split; try done.
    intros u y. simpl. intros [_ Hy]%lookup_delete_Some. by eapply A3.
Qed.

(** *** Changes of the semaphores and the directory *)

Lemma tables_sd L L' V f f' :
  tables_ok L V f →
  vns f' = vns f → semv_semnum f' = semv_semnum f → semfs_absfs f' = semfs_absfs f →
  Z.of_nat (length (sems f')) <= SEMFS_ROOTDIR →
  (∀ i sem, sems f !! i = Some (Some sem) → sems_hasvnode sem = true →
     ∃ sem', sems f' !! i = Some (Some sem') ∧ sems_hasvnode sem' = true) →
  (∀ i sem', sems f' !! i = Some (Some sem') → sems_hasvnode sem' = true →
     ∃ sem, sems f !! i = Some (Some sem) ∧ sems_hasvnode sem = true) →
  (∀ i sem', sems f' !! i = Some (Some sem') →
     ∃ a b c d, sems_lock sem' = [a; b] ∧ sems_cv sem' = [c; d]) →
  (∀ i d, dents f' !! i = Some (Some d) →
     0 <= semd_semnum d ∧ ∃ sem, sems f' !! Z.to_nat (semd_semnum d) = Some (Some sem) ∧
       (sems_linked sem = true ∨ L' = Some i)) →
  (∀ i j d d', dents f' !! i = Some (Some d) → dents f' !! j = Some (Some d') →
     semd_semnum d = semd_semnum d' → i = j) →
  tables_ok L' V f'.
Proof.
  intros T Ev En Ea Hlen H1 H2 H3 H4 H5. split; rewrite ?Ev, ?En, ?Ea; try apply T; try done.
  - intros v n Hv Hn Hne. destruct (tk_sem _ _ _ T v n Hv Hn Hne) as (H0 & sem & E & Hh).
    split; [done |]. by eapply H1.
  - intros i sem Hi Hh. destruct (H2 i sem Hi Hh) as (sem0 & E & Hh0). by eapply (tk_has _ _ _ T).
Qed.

(** A semaphore of the table gets new contents that keep its vnode flag. *)
Lemma tables_set L L' V f n sem x :
  tables_ok L V f → sems f !! n = Some (Some sem) →
  sems_hasvnode x = sems_hasvnode sem → sems_lock x = sems_lock sem → sems_cv x = sems_cv sem →
  (∀ i d, dents f !! i = Some (Some d) → Z.to_nat (semd_semnum d) = n →
     sems_linked x = true ∨ L' = Some i) →
  (∀ i, L = Some i → L' = Some i ∨ ∀ d, dents f !! i = Some (Some d) → Z.to_nat (semd_semnum d) = n) →
  tables_ok L' V (with_sems (with_elems (<[n := Some x]> (sems f)) (semfs_sems f)) f).
Proof.
  intros T Hn Eh El Ec Hl HL. apply (tables_sd L L' V f); simpl; try done.
  - rewrite length_insert. apply T.
  - intros i y Hi Hh. destruct (decide (i = n)) as [-> | Hne].
    + rewrite Hn in Hi. injection Hi as <-. rewrite list_lookup_insert_eq by (by eapply lookup_lt_Some).
      exists x. by rewrite Eh.
    + rewrite list_lookup_insert_ne by done. eauto.
  - intros i y [(<- & Hy & _) | [_ Hy]]%list_lookup_insert_Some Hh; [| eauto].
    injection Hy as <-. exists sem. by rewrite <- Eh.
  - intros i y [(<- & Hy & _) | [_ Hy]]%list_lookup_insert_Some.
    + injection Hy as <-. rewrite El, Ec. by apply (tk_shape _ _ _ T n).
    + by apply (tk_shape _ _ _ T i).
  - intros i d Hd. destruct (tk_dent _ _ _ T i d Hd) as (H0 & y & E & Hly). split; [done |].
    destruct (decide (Z.to_nat (semd_semnum d) = n)) as [En | Hne].
    + rewrite En, list_lookup_insert_eq by (by eapply lookup_lt_Some). exists x. split; [done |]. by eapply Hl.
    + rewrite list_lookup_insert_ne by done. exists y. split; [done |]. destruct Hly as [? | HLi]; [by left |].
      destruct (HL i HLi) as [? | HLd]; [by right |]. by destruct (Hne (HLd d Hd)).
  - apply T.
Qed.

(** The dispatch on the two operation tables. *)
Lemma dispatch_run {A} L s v (dir sem : M (vfs bump) A) :
  inv L s → fs_vnode s v →
  dispatch v dir sem s = dir s ∧ semv_semnum (fsem s) !! v = Some SEMFS_ROOTDIR ∨
  dispatch v dir sem s = sem s ∧ ∃ n, semv_semnum (fsem s) !! v = Some n ∧ n ≠ SEMFS_ROOTDIR.
Proof.
  intros I Hv. pose proof Hv as Hv'. apply (in_vns L s v I) in Hv'. destruct Hv as (x & t & Hx & Ht).
  destruct (vns_data L s v x I Hv' Hx) as (_ & n & Hn & _ & Eo).
  unfold dispatch, get_vnode, mbind, M_bind, deref. rewrite Hx, Eo.
  destruct (Z.eqb_spec n SEMFS_ROOTDIR) as [-> | Hne]; [left | right]; by eauto.
Qed.

Lemma balanced_here {A} L s (a : A) : vfs_ok s → inv L s → balanced (inv L) s (mret a).
Proof.
  intros Hok I. unfold balanced, twp. simpl. split; try done; intros; unfold none; lia.
Qed.

Lemma dispatch_balanced {A} s v (dir sem : M (vfs bump) A) :
  inv None s → fs_vnode s v → balanced (inv None) s dir →
  (∀ n, semv_semnum (fsem s) !! v = Some n → n ≠ SEMFS_ROOTDIR → balanced (inv None) s sem) →
  balanced (inv None) s (dispatch v dir sem).
Proof.
  intros I Hv Hd Hs. unfold balanced, twp in *.
  destruct (dispatch_run None s v dir sem I Hv) as [[-> _] | (-> & n & Hn & Hne)]; [done | by eapply Hs].
Qed.

Lemma dispatch_gives s v (dir sem : M (vfs bump) (Z * Z)) :
  vfs_ok s → inv None s → fs_vnode s v → gives_vnode (inv None) s dir →
  (∃ e, e ≠ 0 ∧ sem s = Done (e, 0) s) → gives_vnode (inv None) s (dispatch v dir sem).
Proof.
  intros Hok I Hv Hd (e & He & Es). unfold gives_vnode, twp in *.
  destruct (dispatch_run None s v dir sem I Hv) as [[-> _] | (-> & n & Hn & Hne)]; [done |].
  rewrite Es. right. split; [done |]. by apply (balanced_here None s tt).
Qed.

(** A step that changes only the tables. *)
Lemma bal_grow L L' s f k :
  vfs_ok s → inv L s → 0 <= k → tables_ok L' (idpart s) f → bal (inv L') none 1 0 s (grow f k s).
Proof.
  intros Hok I Hk T. unfold grow. apply bal_world; [done |].
  split; [exact T |]. apply (grow_heap f k s Hk), I.
Qed.

Lemma wakeup_run s sem n : semfs_wakeup sem n s = Done tt s.
Proof. unfold semfs_wakeup. by repeat case_match. Qed.

Lemma truncate_ok s v len :
  vfs_ok s → inv None s → v ∈ vns (fsem s) → (∃ n, semv_semnum (fsem s) !! v = Some n ∧ n ≠ SEMFS_ROOTDIR) →
  balanced (inv None) s (semfs_truncate v len).
Proof.
  intros Hok I Hv (n & Hn & Hne). pose proof (in_tables _ _ I) as T.
  destruct (vns_live None s v I Hv) as (x & Hx). destruct (vns_data None s v x I Hv Hx) as (Hd & _).
  destruct (tk_sem _ _ _ T v n Hv Hn Hne) as (H0 & sem & E & Hh).
  unfold semfs_truncate. destruct (len <? 0); [by apply balanced_here |].
  destruct (2 ^ 32 - 1 <? len); [by apply balanced_here |].
  unfold balanced, twp, semfs_getsem, set_count, semfs_getsembynum. unfold mbind, M_bind.
  rewrite (semnum_of_run s v x n) by done. rewrite (the_sem_run s n sem) by done.
  cbv [lock_acquire lock_release mret M_ret]. cbv beta iota. rewrite wakeup_run.
  rewrite (semnum_of_run s v x n) by done. rewrite (the_sem_run s n sem) by done.
  unfold sems_set. rewrite upd_run. simpl. apply (bal_grow None None); try done.
  apply (tables_set None None _ (fsem s) (Z.to_nat n) sem); try done.
  intros i d Hd' Ei. destruct (tk_dent _ _ _ T i d Hd') as (_ & y & Ey & [Hl | ?]); [| done].
  rewrite Ei, E in Ey. injection Ey as <-. by left.
Qed.

Lemma find_dent_Some name l i d :
  find_dent name l = Some (i, d) → l !! i = Some (Some d).
Proof.
  unfold find_dent. destruct (first_index (is_named name) l) as [j|]; [| done]. simpl.
  destruct (l !! j) as [[e|]|] eqn:E; simpl; [| done ..]. by intros [= <- <-].
Qed.

(** *** [semfs_remove] *)

Lemma unlink_tables V f i d sem :
  tables_ok None V f → dents f !! i = Some (Some d) → sems f !! Z.to_nat (semd_semnum d) = Some (Some sem) →
  tables_ok None V
    (with_dents (with_elems (<[i := None]> (dents f)) (semfs_dents f))
       (set_sem f (semd_semnum d)
          (if sems_hasvnode sem then Some (with_linked false sem) else None))).
Proof.
  intros T Hd E. set (n := Z.to_nat (semd_semnum d)) in *.
  apply (tables_sd None None V f); simpl; fold n; try done.
  - rewrite length_insert. apply T.
  - intros j y Hj Hh. destruct (decide (j = n)) as [-> | Hne].
    + rewrite E in Hj. injection Hj as <-. rewrite list_lookup_insert_eq by (by eapply lookup_lt_Some).
      rewrite Hh. by eexists.
    + rewrite list_lookup_insert_ne by done. eauto.
  - intros j y [(<- & Hy & _) | [_ Hy]]%list_lookup_insert_Some Hh; [| eauto].
    destruct (sems_hasvnode sem) eqn:Eh; [| done]. by exists sem.
  - intros j y [(<- & Hy & _) | [_ Hy]]%list_lookup_insert_Some; [| by apply (tk_shape _ _ _ T j)].
    destruct (sems_hasvnode sem); [| done]. injection Hy as <-. exact (tk_shape _ _ _ T n sem E).
  - intros j e [(_ & ? & _) | [Hne He]]%list_lookup_insert_Some; [done |].
    destruct (tk_dent _ _ _ T j e He) as (H0 & y & Ey & Hl). split; [done |]. exists y. split; [| done].
    rewrite list_lookup_insert_ne; [done |]. unfold n. intros Heq.
    destruct (tk_dent _ _ _ T i d Hd) as (H0' & _).
    apply Hne. eapply (tk_dinj _ _ _ T i j d e); try done. lia.
  - intros j j' e e' [(_ & ? & _) | [_ He]]%list_lookup_insert_Some; [done |].
    intros [(_ & ? & _) | [_ He']]%list_lookup_insert_Some; [done |]. by apply (tk_dinj _ _ _ T).
Qed.

Lemma remove_ok s dir name :
  vfs_ok s → inv None s → balanced (inv None) s (semfs_remove dir name).
Proof.
  intros Hok I. pose proof (in_tables _ _ I) as T. unfold semfs_remove.
  destruct (dot name); [by apply balanced_here |].
  unfold balanced, twp. unfold mbind at 1, M_bind at 1, the_semfs, gets at 1.
  change (get_semfs (world s)) with (fsem s).
  destruct (find_dent name (dents (fsem s))) as [[i d]|] eqn:Ef; [| by apply (balanced_here None s tt)].
  apply find_dent_Some in Ef. destruct (tk_dent _ _ _ T i d Ef) as (H0 & sem & E & [Hl | ?]); [| done].
  unfold mbind, M_bind, semfs_getsembynum. rewrite (the_sem_run s _ sem E). unfold kassert. rewrite Hl.
  unfold mret, M_ret, sems_set, dents_set. pose proof (unlink_tables _ _ i d sem T Ef E) as TU.
  destruct (sems_hasvnode sem) eqn:Eh; cbn [negb]; rewrite upd_run.
  - rewrite upd_run, grow_grow. apply (bal_grow None None); [done | done | lia | exact TU].
  - rewrite sem_destroy_run by (by apply (tk_shape _ _ _ T _ _ E)).
    rewrite upd_run, grow_grow. apply (bal_grow None None); [done | done | lia | exact TU].
Qed.

(** *** [semfs_creat] *)

Lemma sem_create_run s name :
  heap_ok s → ∃ sem, semfs_sem_create name s = Done (Some sem) (grow (fsem s) 5 s) ∧
    sems_hasvnode sem = false ∧ ∃ a b c d, sems_lock sem = [a; b] ∧ sems_cv sem = [c; d].
Proof.
  intros Hh. pose proof (grow_heap (fsem s)) as G. pose proof (ho_left s Hh) as Hl.
  assert (Hne : ∀ k, 0 <= k → bw_next (world s) + 16 * k ≠ 0).
  { intros k Hk. destruct (ho_next s Hh). lia. }
  unfold semfs_sem_create, lock_create, cv_create, kstrdup. unfold mbind, M_bind.
  rewrite alloc_run by done. destruct (next_ne s Hh) as (H0 & _).
  rewrite (proj2 (Z.eqb_neq _ 0)) by done.
  do 4 (rewrite alloc_run by done; rewrite grow_grow; cbn [bw_next world grow with_world];
        rewrite (proj2 (Z.eqb_neq _ 0)) by (apply Hne; lia); cbv [mret M_ret]).
  eexists. split; [done |]. split; [done |]. by eexists _, _, _, _.
Qed.

Lemma dent_create_run s name n :
  heap_ok s → ∃ d, semfs_direntry_create name n s = Done (Some d) (grow (fsem s) 2 s) ∧
    semd_semnum d = n ∧ semd_name d = name.
Proof.
  intros Hh. pose proof (ho_left s Hh) as Hl.
  assert (Hne : ∀ k, 0 <= k → bw_next (world s) + 16 * k ≠ 0).
  { intros k Hk. destruct (ho_next s Hh). lia. }
  unfold semfs_direntry_create, kstrdup. unfold mbind, M_bind.
  rewrite alloc_run by done. destruct (next_ne s Hh) as (H0 & _).
  rewrite (proj2 (Z.eqb_neq _ 0)) by done.
  rewrite alloc_run by done; rewrite grow_grow; cbn [bw_next world grow with_world].
  rewrite (proj2 (Z.eqb_neq _ 0)) by (apply Hne; lia). eexists. split; [done |]. done.
Qed.

(** A new semaphore without a name and a vnode. *)
Lemma tables_insert V f n sem l' :
  tables_ok None V f → sems_hasvnode sem = false →
  (∃ a b c d, sems_lock sem = [a; b] ∧ sems_cv sem = [c; d]) →
  (sems f !! n = Some None ∧ l' = <[n := Some sem]> (sems f)) ∨
  (n = length (sems f) ∧ Z.of_nat n < SEMFS_ROOTDIR ∧ l' = sems f ++ [Some sem]) →
  ∀ v m, tables_ok None V (with_sems (mkArr l' v m) f) ∧ l' !! n = Some (Some sem) ∧
    Z.of_nat n < SEMFS_ROOTDIR ∧ ∀ i d, dents f !! i = Some (Some d) → Z.to_nat (semd_semnum d) ≠ n.
Proof.
  intros T Hh Hs Hl v m.
  assert (Hsame : ∀ i, i ≠ n → l' !! i = sems f !! i ∨ l' !! i = None ∧ sems f !! i = None).
  { intros i Hi. destruct Hl as [[_ ->] | (-> & _ & ->)].
    - left. by rewrite list_lookup_insert_ne.
    - destruct (decide (i < length (sems f))%nat).
      + left. by rewrite lookup_app_l.
      + right. rewrite !lookup_ge_None_2; [done | lia |]. rewrite length_app. simpl. lia. }
  assert (Hn : l' !! n = Some (Some sem)).
  { destruct Hl as [[E ->] | (-> & _ & ->)].
    - apply list_lookup_insert_eq. by eapply lookup_lt_Some.
    - rewrite lookup_app_r, Nat.sub_diag by lia. done. }
  assert (Hold : ∀ y, sems f !! n ≠ Some (Some y)).
  { intros y Hy. destruct Hl as [[E _] | (-> & _ & _)]; [congruence |]. apply lookup_lt_Some in Hy. lia. }
  assert (Hlt : Z.of_nat n < SEMFS_ROOTDIR).
  { destruct Hl as [[E _] | (_ & ? & _)]; [| done]. apply lookup_lt_Some in E.
    pose proof (tk_small _ _ _ T). lia. }
  assert (Hdn : ∀ i d, dents f !! i = Some (Some d) → Z.to_nat (semd_semnum d) ≠ n).
  { intros i d Hd <-. destruct (tk_dent _ _ _ T i d Hd) as (_ & y & Ey & _). by destruct (Hold y). }
  split_and!; try done. apply (tables_sd None None V f); simpl; try done.
  - pose proof (tk_small _ _ _ T). destruct Hl as [[_ ->] | (-> & Hlt' & ->)].
    + by rewrite length_insert.
    + rewrite length_app. simpl. lia.
  - intros i y Hi Hy. assert (Hne : i ≠ n) by (intros ->; by destruct (Hold y)).
    destruct (Hsame i Hne) as [-> | [_ ?]]; [eauto | congruence].
  - intros i y Hi Hy. assert (Hne : i ≠ n) by (intros ->; rewrite Hn in Hi; injection Hi as <-; congruence).
    destruct (Hsame i Hne) as [E | [? _]]; [rewrite E in Hi; eauto | congruence].
  - intros i y Hi. destruct (decide (i = n)) as [-> | Hne].
    + rewrite Hn in Hi. by injection Hi as <-.
    + destruct (Hsame i Hne) as [E | [? _]]; [| congruence]. rewrite E in Hi. by apply (tk_shape _ _ _ T i).
  - intros i d Hd. destruct (tk_dent _ _ _ T i d Hd) as (H0 & y & Ey & Hly). split; [done |].
    destruct (Hsame _ (Hdn i d Hd)) as [-> | [_ ?]]; [eauto | congruence].
  - apply T.
Qed.

Lemma sem_insert_run s sem :
  inv None s → sems_hasvnode sem = false →
  (∃ a b c d, sems_lock sem = [a; b] ∧ sems_cv sem = [c; d]) →
  semfs_sem_insert sem s = Done (ENOSPC, 0) s ∨
  ∃ n f k, semfs_sem_insert sem s = Done (0, Z.of_nat n) (grow f k s) ∧ 0 <= k ∧
    tables_ok None (idpart s) f ∧ sems f !! n = Some (Some sem) ∧ dents f = dents (fsem s) ∧
    Z.of_nat n < SEMFS_ROOTDIR ∧
    ∀ i d, dents f !! i = Some (Some d) → Z.to_nat (semd_semnum d) ≠ n.
Proof.
  intros I Hh Hs. pose proof (in_tables _ _ I) as T.
  assert (semfs_sem_insert sem s =
    (if Z.of_nat (length (sems (fsem s))) =? SEMFS_ROOTDIR then mret (ENOSPC, 0)
     else match first_index is_null (sems (fsem s)) with
          | Some i => sems_set (Z.of_nat i) (Some sem) ;; mret (0, Z.of_nat i)
          | None => parray_add semfs_sems with_sems (Some sem)
          end) s) as -> by done.
  destruct (Z.eqb_spec (Z.of_nat (length (sems (fsem s)))) SEMFS_ROOTDIR) as [? | Hne]; [by left |]. right.
  destruct (first_index is_null (sems (fsem s))) as [i|] eqn:Ei.
  - destruct (first_index_lookup _ _ _ Ei) as (x & Hx & Hnull). destruct x; [done |].
    destruct (tables_insert _ _ i sem _ T Hh Hs (or_introl (conj Hx eq_refl))
      (pa_v (semfs_sems (fsem s))) (pa_max (semfs_sems (fsem s)))) as (T' & E & Hlt & Hd).
    eexists i, _, 0. unfold mbind, M_bind, sems_set. cbv beta iota. rewrite upd_run, Nat2Z.id.
    split; [reflexivity |]. split_and!; try done.
  - destruct (parray_add_run semfs_sems with_sems (Some sem) s) as (v & m & k & Hk & E); try done; [apply I |].
    assert (Hsm : Z.of_nat (length (sems (fsem s))) < SEMFS_ROOTDIR) by (pose proof (tk_small _ _ _ T); lia).
    destruct (tables_insert _ _ (length (sems (fsem s))) sem (sems (fsem s) ++ [Some sem]) T Hh Hs
      (or_intror (conj eq_refl (conj Hsm eq_refl))) v m) as (T' & E' & Hlt & Hd).
    rewrite E. eexists _, _, k. split; [reflexivity |]. split_and!; try done.
Qed.

(** The name of the new semaphore goes into the directory. *)
Lemma tables_enter V f n sem d l' i :
  tables_ok None V f → sems f !! n = Some (Some sem) → semd_semnum d = Z.of_nat n →
  (∀ j e, dents f !! j = Some (Some e) → Z.to_nat (semd_semnum e) ≠ n) →
  (dents f !! i = Some None ∧ l' = <[i := Some d]> (dents f)) ∨
  (i = length (dents f) ∧ l' = dents f ++ [Some d]) →
  ∀ v m, tables_ok (Some i) V (with_dents (mkArr l' v m) f) ∧ l' !! i = Some (Some d).
Proof.
  intros T Hn Hd Hno Hl v m.
  assert (Hi : l' !! i = Some (Some d)).
  { destruct Hl as [[E ->] | (-> & ->)].
    - apply list_lookup_insert_eq. by eapply lookup_lt_Some.
    - by rewrite lookup_app_r, Nat.sub_diag by lia. }
  assert (Hold : ∀ j e, l' !! j = Some (Some e) → j = i ∧ e = d ∨ dents f !! j = Some (Some e)).
  { intros j e Hj. destruct Hl as [[E ->] | (-> & ->)].
    - apply list_lookup_insert_Some in Hj as [(-> & [= ->] & _) | [_ Hj]]; auto.
    - apply lookup_snoc_Some in Hj as [[_ Hj] | [-> [= ->]]]; auto. }
  split; [| done]. apply (tables_sd None (Some i) V f); simpl; try done; try apply T.
  - eauto.
  - eauto.
  - intros j e Hj. destruct (Hold j e Hj) as [[-> ->] | Hj'].
    + split; [lia |]. exists sem. rewrite Hd, Nat2Z.id. auto.
    + destruct (tk_dent _ _ _ T j e Hj') as (H0 & y & Ey & [Hl' | ?]); [| done]. split; [done |]. eauto.
  - intros j j' e e' Hj Hj' Heq. destruct (Hold j e Hj) as [[-> ->] | Hj1], (Hold j' e' Hj') as [[-> ->] | Hj2].
    + done.
    + destruct (Hno j' e' Hj2). rewrite <- Heq, Hd. lia.
    + destruct (Hno j e Hj1). rewrite Heq, Hd. lia.
    + by eapply (tk_dinj _ _ _ T).
Qed.

(** Putting the entry into the first free place or at the end. *)
Lemma enter_run s n sem d :
  inv None s → sems (fsem s) !! n = Some (Some sem) → semd_semnum d = Z.of_nat n →
  (∀ j e, dents (fsem s) !! j = Some (Some e) → Z.to_nat (semd_semnum e) ≠ n) →
  ∃ i f k, (match first_index is_null (dents (fsem s)) with
            | Some i => dents_set i (Some d) ;; mret (0, Z.of_nat i)
            | None => parray_add semfs_dents with_dents (Some d)
            end) s = Done (0, Z.of_nat i) (grow f k s) ∧ 0 <= k ∧
    tables_ok (Some i) (idpart s) f ∧ sems f = sems (fsem s) ∧ dents f !! i = Some (Some d).
Proof.
  intros I Hn Hd Hno. pose proof (in_tables _ _ I) as T.
  destruct (first_index is_null (dents (fsem s))) as [i|] eqn:Ei.
  - destruct (first_index_lookup _ _ _ Ei) as (x & Hx & Hnull). destruct x; [done |].
    destruct (tables_enter _ _ n sem d _ i T Hn Hd Hno (or_introl (conj Hx eq_refl))
      (pa_v (semfs_dents (fsem s))) (pa_max (semfs_dents (fsem s)))) as (T' & E).
    eexists i, _, 0. unfold mbind, M_bind, dents_set. cbv beta iota. rewrite upd_run.
    split; [reflexivity |]. split_and!; try done.
  - destruct (parray_add_run semfs_dents with_dents (Some d) s) as (v & m & k & Hk & E); try done; [apply I |].
    destruct (tables_enter _ _ n sem d (dents (fsem s) ++ [Some d]) (length (dents (fsem s))) T Hn Hd Hno
      (or_intror (conj eq_refl eq_refl)) v m) as (T' & E').
    rewrite E. eexists _, _, k. split; [reflexivity |]. by split_and!.
Qed.

Lemma inv_grow L s f k : inv L s → 0 <= k → ∀ L', tables_ok L' (idpart s) f → inv L' (grow f k s).
Proof. intros I Hk L' T. split; [exact T |]. apply grow_heap; [done | apply I]. Qed.

(** From the place in the table to the vnode. *)
Lemma creat_link_ok s sem name n :
  vfs_ok s → inv None s → room 1 s → sems (fsem s) !! n = Some (Some sem) →
  Z.of_nat n < SEMFS_ROOTDIR →
  (∀ j e, dents (fsem s) !! j = Some (Some e) → Z.to_nat (semd_semnum e) ≠ n) →
  gives_vnode (inv None) s (creat_link sem name (Z.of_nat n) (first_index is_null (dents (fsem s)))).
Proof.
  intros Hok I Hr Hn Hlt Hno. unfold gives_vnode, twp, creat_link.
  destruct (dent_create_run s name (Z.of_nat n)) as (d & Ed & Hsn & _); [apply I |].
  unfold mbind at 1, M_bind at 1. rewrite Ed. set (s1 := grow (fsem s) 2 s).
  assert (I1 : inv None s1) by (apply (inv_grow None); [done | lia | apply I]).
  destruct (enter_run s1 n sem d I1 Hn Hsn Hno) as (i & f2 & k & E2 & Hk & T2 & Es2 & Hi).
  unfold mbind at 1, M_bind at 1. change (dents (fsem s)) with (dents (fsem s1)). rewrite E2.
  unfold s1. rewrite grow_grow. change (negb ((0, Z.of_nat i).1 =? 0)) with false. cbv iota.
  set (s2 := grow f2 (2 + k) s).
  assert (I2 : inv (Some i) s2) by (apply (inv_grow None); [done | lia | done]).
  assert (Hok2 : vfs_ok s2) by by apply vfs_ok_world.
  destruct (getvnode_ok (Some i) s2 (Z.of_nat n)) as (v & s3 & E3 & Hv & Hu & B & Hd3 & Hs3); try done.
  { intros _. split; [lia |]. rewrite Nat2Z.id. exists sem. simpl. by rewrite Es2. }
  destruct Hs3 as (sem3 & Hsem3); [lia |].
  unfold mbind, M_bind. rewrite E3. change (negb (0 =? 0)) with false. cbv iota beta.
  rewrite (the_sem_run s3 _ sem3 Hsem3). unfold sems_set. rewrite upd_run. simpl. left.
  split_and!; try done. unfold grow. apply (bal_world_r (inv (Some i))).
  { by apply (bal_world_l (inv (Some i)) _ _ _ _ _ (world s2)). }
  pose proof (b_fs _ _ _ _ _ _ B) as I3. split; [| apply (grow_heap _ 0 s3); [done | apply I3]].
  rewrite Nat2Z.id in *. apply (tables_set (Some i) None (idpart s3) (fsem s3) n sem3); try done.
  - apply I3.
  - intros j e _ _. by left.
  - intros j [= <-]. right. intros e He. rewrite Hd3 in He.
    change (dents (fsem s2)) with (dents f2) in He. rewrite Hi in He. injection He as <-. rewrite Hsn. lia.
Qed.

(** Getting the vnode of an entry of the directory. *)
Lemma dent_vnode_ok s i d :
  vfs_ok s → inv None s → room 1 s → dents (fsem s) !! i = Some (Some d) →
  gives_vnode (inv None) s (semfs_getvnode (semd_semnum d)).
Proof.
  intros Hok I Hr Hd. destruct (tk_dent _ _ _ (in_tables _ _ I) i d Hd) as (H0 & sem & E & _).
  destruct (getvnode_ok None s (semd_semnum d)) as (v & s' & E' & Hv & Hu & B & _); eauto.
  unfold gives_vnode, twp. rewrite E'. by left.
Qed.

Lemma creat_ok s dir name excl mode :
  vfs_ok s → inv None s → room 1 s → gives_vnode (inv None) s (semfs_creat dir name excl mode).
Proof.
  intros Hok I Hr. pose proof (in_tables _ _ I) as T.
  assert (Herr : ∀ e, e ≠ 0 → gives_vnode (inv None) s (mret (e, 0))).
  { intros e He. right. split; [done |]. by apply (balanced_here None s tt). }
  unfold semfs_creat. destruct (dot name); [by apply Herr |].
  unfold gives_vnode, twp. unfold mbind at 1, M_bind at 1, the_semfs, gets at 1.
  change (get_semfs (world s)) with (fsem s).
  destruct (find_dent name (dents (fsem s))) as [[i d]|] eqn:Ef.
  { apply find_dent_Some in Ef. destruct excl; [by apply Herr | by eapply dent_vnode_ok]. }
  destruct (sem_create_run s name) as (sem & E1 & Hh & Hs); [apply I |].
  unfold mbind at 1, M_bind at 1. rewrite E1. set (s1 := grow (fsem s) 5 s).
  assert (I1 : inv None s1) by (apply (inv_grow None); [done | lia | apply I]).
  unfold mbind at 1, M_bind at 1.
  destruct (sem_insert_run s1 sem I1 Hh Hs) as [-> | (n & f & k & -> & Hk & T2 & Hn & Hd & Hlt & Hno)].
  - change (negb (ENOSPC =? 0)) with true. cbv iota. unfold creat_fail. mrun. rewrite sem_destroy_run by done.
    right. split; [done |]. apply bal_world; [done | exact I1].
  - change (negb (0 =? 0)) with false. cbv iota. set (s2 := grow f k s1).
    assert (Hok2 : vfs_ok s2) by by apply vfs_ok_world, vfs_ok_world.
    assert (I2 : inv None s2) by by apply (inv_grow None).
    pose proof (creat_link_ok s2 sem name n Hok2 I2 Hr Hn Hlt Hno) as G.
    unfold gives_vnode, twp in G. change (dents (fsem s2)) with (dents f) in G. rewrite Hd in G.
    change (dents (fsem s1)) with (dents (fsem s)) in G.
    destruct (creat_link sem name (Z.of_nat n) _ s2) as [r s3 | | |]; try done.
    destruct G as [(H1 & H2 & H3 & B) | (H1 & B)]; [left | right]; split_and!; try done;
      do 2 apply bal_world_l in B; exact B.
Qed.

Lemma lookup_ok s dir path :
  vfs_ok s → inv None s → room 1 s → dir ∈ vns (fsem s) → gives_vnode (inv None) s (semfs_lookup dir path).
Proof.
  intros Hok I Hr Hdir. unfold semfs_lookup, gives_vnode, twp. destruct (dot path).
  - destruct (incref_vns None s dir Hok I Hr Hdir) as (s' & E & B & _ & Hu).
    unfold mbind, M_bind. rewrite E. simpl. left. split_and!; try done.
    destruct (vns_live None s dir I Hdir) as (x & Hx). by eapply live_ne.
  - unfold mbind at 1, M_bind at 1, the_semfs, gets at 1. change (get_semfs (world s)) with (fsem s).
    destruct (find_dent path (dents (fsem s))) as [[i d]|] eqn:Ef.
    + apply find_dent_Some in Ef. by eapply dent_vnode_ok.
    + right. split; [done |]. by apply (balanced_here None s tt).
Qed.

Lemma nosys_balanced s e : vfs_ok s → inv None s → balanced (inv None) s (mret (e : Z)).
Proof. intros Hok I. by apply balanced_here. Qed.
End laws.

(** ** The contract *)

#[export] Program Instance semfs_laws : FsLaws bump := {| fs_inv := inv None |}.
Next Obligation. intros. by eapply inv_ext. Qed.
Next Obligation.
  intros s v flags Hok I Hr Hv. apply (in_vns None s v I) in Hv.
  destruct (semnum_run None s v I Hv) as (n & E & _).
  unfold balanced, twp. simpl fs_eachopen. unfold semfs_eachopen, mbind, M_bind. rewrite E.
  repeat case_if; by apply (balanced_here None s tt).
Qed.
Next Obligation.
  intros s v len Hok I Hr Hv. apply dispatch_balanced; try done; [by apply balanced_here |].
  intros n Hn Hne. apply truncate_ok; eauto. by apply (in_vns None s v I).
Qed.
Next Obligation.
  intros s v Hok I Hr Hv. pose proof Hv as Hv'. apply (in_vns None s v I) in Hv'.
  destruct (semnum_run None s v I Hv') as (n & E & _). destruct Hv as (x & t & Hx & Ht).
  destruct (vns_data None s v x I Hv' Hx) as (_ & m & _ & Hfs & _).
  unfold twp. simpl fs_gettype. unfold semfs_gettype, mbind, M_bind. rewrite E. simpl. split.
  - by apply (balanced_here None s tt).
  - intros _ _. exists x. split; [done |]. rewrite Hfs. apply (tk_fs _ _ _ (in_tables _ _ I)).
Qed.
Next Obligation. intros; apply dispatch_balanced; try done; intros; by apply balanced_here. Qed.
Next Obligation. intros; apply dispatch_balanced; try done; intros; by apply balanced_here. Qed.
Next Obligation. intros; apply dispatch_balanced; try done; intros; by apply balanced_here. Qed.
Next Obligation. intros; apply dispatch_balanced; try done; intros; by apply balanced_here. Qed.
Next Obligation. intros; apply dispatch_balanced; try done; intros; by apply balanced_here. Qed.
Next Obligation.
  intros; apply dispatch_balanced; try done; [by apply remove_ok | intros; by apply balanced_here].
Qed.
Next Obligation. intros; apply dispatch_balanced; try done; intros; by apply balanced_here. Qed.
Next Obligation. intros; apply dispatch_balanced; try done; intros; by apply balanced_here. Qed.
Next Obligation.
  intros s v path Hok I Hr Hv. apply dispatch_gives; try done; [| by exists ENOTDIR].
  apply lookup_ok; try done. by apply (in_vns None s v I).
Qed.
Next Obligation.
  intros s v name excl mode Hok I Hr Hv. apply dispatch_gives; try done; [| by exists ENOTDIR].
  by apply creat_ok.
Qed.
Next Obligation.
  intros s v path len Hok I Hr Hv. unfold twp.
  assert (Herr : ∀ e, e ≠ 0 → e ≠ 0 ∧ bal (inv None) none 1 0 s s).
  { intros e He. split; [done |]. by apply (balanced_here None s tt). }
  simpl fs_lookparent.
  destruct (dispatch_run None s v (semfs_lookparent v path len) (vopfail_lookparent_notdir v path len) I Hv)
    as [[-> _] | [-> _]]; [| right; by apply Herr].
  unfold semfs_lookparent. case_if; [right; by apply Herr |].
  apply (in_vns None s v I) in Hv.
  destruct (incref_vns None s v Hok I Hr Hv) as (s' & E & B & _ & Hu).
  unfold mbind, M_bind. rewrite E. simpl. left. split_and!; try done.
  destruct (vns_live None s v I Hv) as (x & Hx). by eapply live_ne.
Qed.
Next Obligation.
  intros s f Hok I Hr _. destruct (getvnode_ok None s SEMFS_ROOTDIR) as (v & s' & E & Hv & Hu & B & _); try done.
  unfold gives_vnode, twp. simpl FSOP_GETROOT. unfold semfs_getroot. rewrite E. by left.
Qed.
Next Obligation. intros s l u Hok I. by apply balanced_here. Qed.
Next Obligation.
  intros s v x t Hok I Hx Ht Hrc Hh Ho.
  destruct (semfs_reclaim_ok s v x t Hok I Hx Ht Hrc Hh Ho) as (s' & E & B).
  unfold twp. simpl fs_reclaim. rewrite E. by left.
Qed.
Next Obligation.
  intros s d dev t flags Hok I Hr Hd Ht. pose proof (ho_null s (in_heap _ _ I) d dev Hd). congruence.
Qed.
End SemfsLaws.
