(* ===== verification/SemfsProps.v ===== *)
(** * The VFS layer with its null device and the semaphore file system

    The state after [vfs_bootstrap] satisfies the invariants, so the theorems on
    path operations apply to it; and what reading, writing and creating a
    semaphore do. *)

From stdpp Require Import base list gmap numbers strings sets.
From Stdlib Require Import ZArith Lia Ascii.
From S2P Require Import Prelude Uio Vnode VfsList VfsPath VfsRefs VfsProps VfsCwd VfsNames VfsAdd Semfs SemfsLaws.
Import Uio Vnode VfsList VfsPath VfsRefs VfsProps VfsCwd VfsNames VfsAdd Semfs SemfsLaws.

#[local] Open Scope Z_scope.

Module SemfsProps.

(** ** The state after start-up *)

Definition no_semfs : semfs :=
  mkSemfs 0 (mkOwn [] 0 0 [] 0) (mkArr [] 0 0) (mkArr [] 0 0) (mkArr [] 0 0) ∅.

Definition cold (left : option nat) : vfs bump :=
  mkVfs ∅ ∅ [] 0 0 0 0 0 [] (mkBump no_semfs 0x80030000 left).

Definition boot : vfs bump := after (vfs_bootstrap semfs_bootstrap (cold None)) (cold None).

(** The addresses it uses. *)
Definition w_null : Z := 0x80030030.
Definition w_null_vnode : Z := 0x80030050.
Definition w_semfs : Z := 0x80030080.
Definition w_sem_vnode : Z := 0x80030110.

Lemma boot_eq :
  boot = mkVfs (<[w_null_vnode := mkVnode 1 0 w_null dev_vnode_ops]>
                 (<[w_sem_vnode := mkVnode 1 0 0 dev_vnode_ops]> ∅))
           (<[w_null := mkDevice null_devops 0 1 1 0]> ∅)
           [mkKd "null" None w_null w_null_vnode 0; mkKd "sem" None 0 w_sem_vnode w_semfs]
           0x80030070 4 0 0 0 []
           (mkBump (mkSemfs w_semfs (mkOwn [0x80030090; 0x800300a0] 0x800300b0 0x800300c0
              [0x800300d0; 0x800300e0] 0x800300f0) (mkArr [] 0 0) (mkArr [] 0 0) (mkArr [] 0 0) ∅)
              0x80030130 None).
Proof. vm_compute. reflexivity. Qed.

Lemma boot_returns : vfs_bootstrap semfs_bootstrap (cold None) = Done tt boot.
Proof. vm_compute. reflexivity. Qed.

(** A fact on every entry of a concrete map. *)
Ltac each_vnode H :=
  rewrite boot_eq in H; simpl in H;
  repeat (apply lookup_insert_Some in H as [[<- <-] | [_ H]]);
  try (by rewrite lookup_empty in H).

Lemma boot_devpart :
  devpart boot = <[w_null_vnode := w_null]> (<[w_sem_vnode := 0]> ∅).
Proof. rewrite boot_eq. vm_compute. reflexivity. Qed.

Lemma boot_ok : vfs_ok boot.
Proof.
  split.
  - intros v x H. each_vnode H; (split_and!; by vm_compute).
  - intros v Hv. rewrite boot_eq. unfold owned, held, refs.
    cbn [bootfs_vnode p_cwd knowndevs warned vnodes countb kd_vnode].
    destruct (Z.eqb_spec 0 v); [done |].
    destruct (Z.eqb_spec w_null_vnode v) as [<- |]; [by vm_compute |].
    rewrite lookup_insert_ne by done.
    destruct (Z.eqb_spec w_sem_vnode v) as [<- |]; [by vm_compute |].
    rewrite lookup_insert_ne by done. rewrite lookup_empty. done.
  - intros v d H. rewrite boot_devpart in H. rewrite boot_eq. simpl.
    apply lookup_insert_Some in H as [[<- _] | [_ H]]; [eexists; split; [left | done] |].
    apply lookup_insert_Some in H as [[<- _] | [_ H]]; [eexists; split; [right; left | done] |].
    by rewrite lookup_empty in H.
  - intros kd H. rewrite boot_eq in H. simpl in H.
    apply elem_of_cons in H as [-> | [-> | H]%elem_of_cons]; [| | by apply elem_of_nil in H];
      split; rewrite ?boot_devpart, ?boot_eq; try done; simpl; intros; try done.
  - rewrite boot_eq. done.
  - intros d. rewrite boot_devpart. by rewrite boot_eq.
  - intros d. rewrite boot_devpart. by rewrite boot_eq.
Qed.

Lemma boot_inv : fs_inv boot.
Proof.
  simpl. split.
  - rewrite boot_eq. split; simpl; try done.
    + intros v. split; [| intros H; by apply elem_of_nil in H]. intros (fs & d & t & H). exfalso.
      revert H. unfold idpart. simpl. rewrite lookup_fmap.
      destruct (decide (v = w_null_vnode)) as [-> |]; [by rewrite lookup_insert_eq |].
      rewrite lookup_insert_ne by done.
      destruct (decide (v = w_sem_vnode)) as [-> |]; [by rewrite lookup_insert_eq |].
      rewrite lookup_insert_ne by done. by rewrite lookup_empty.
    + constructor.
    + intros v H. by apply elem_of_nil in H.
  - split; rewrite ?boot_eq; simpl; try done.
    + intros v x H. repeat (apply lookup_insert_Some in H as [[<- <-] | [_ H]]); try done.
    + intros d dev H. apply lookup_insert_Some in H as [[<- <-] | [_ H]]; done.
Qed.

Lemma boot_room : room 40 boot.
Proof.
  rewrite boot_eq. split; [| done]. intros v. unfold refs. simpl.
  destruct (decide (v = w_null_vnode)) as [-> |]; [by rewrite lookup_insert_eq |].
  rewrite lookup_insert_ne by done.
  destruct (decide (v = w_sem_vnode)) as [-> |]; [by rewrite lookup_insert_eq |].
  rewrite lookup_insert_ne by done. by rewrite lookup_empty.
Qed.
Lemma boot_room32 : room 32 boot.
Proof. destruct boot_room as (H1 & H2 & H3). split; [intros v; specialize (H1 v); lia | lia]. Qed.

(** ** The theorems on path operations at work *)

(** C20: On the devices and the semaphore file system that [vfs_bootstrap] sets up, and
    with a heap that does not run out, [vfs_open] of any path with any flags returns
    without a failed assertion, with the big lock and the tables as before.  On success
    it hands out a live vnode and exactly one more reference to it is held; on an error
    the references held are exactly those of before.  The invariants it starts from hold
    after [vfs_bootstrap] and again when it returns. *)
Theorem vfs_open_refs (s : vfs bump) path flags mode :
  vfs_ok s → inv None s → room 32 s →
  ∃ e v s', vfs_open path flags mode s = Done (e, v) s' ∧
    (e = 0 → v ≠ 0 ∧ ∃ x, vnodes s' !! v = Some x) ∧
    vfs_ok s' ∧ inv None s' ∧ fixed s' = fixed s ∧
    vfs_biglock_depth s' = vfs_biglock_depth s ∧
    ∀ w, held s' w = held s w + (if e =? 0 then one v w else 0).
Proof. apply (open_refs (FsLaws0 := semfs_laws) s path flags mode). Qed.

(** Creating the semaphore [foo]: [vfs_open("sem:foo", O_CREAT|O_WRONLY)]. *)
Lemma vfs_open_refs_witness :
  ∃ e v s', vfs_open "sem:foo" 5 0 boot = Done (e, v) s' ∧
    (e = 0 → v ≠ 0 ∧ ∃ x, vnodes s' !! v = Some x) ∧
    vfs_ok s' ∧ inv None s' ∧ fixed s' = fixed boot ∧
    vfs_biglock_depth s' = vfs_biglock_depth boot ∧
    ∀ w, held s' w = held boot w + (if e =? 0 then one v w else 0).
Proof. exact (vfs_open_refs boot "sem:foo" 5 0 boot_ok boot_inv boot_room32). Defined.

Example open_foo_succeeds :
  match vfs_open "sem:foo" 5 0 boot with Done (e, v) s' => e = 0 ∧ refs s' v = 1 | _ => False end.
Proof. vm_compute. done. Qed.

(** C21: On the devices and the semaphore file system that [vfs_bootstrap] sets up, and
    with a heap that does not run out, remove, symlink, mkdir, rmdir, rename, link and
    readlink return without a failed assertion whatever their arguments; every reference
    to a vnode they took has been given back, error paths included, and the big lock and
    the tables are as before. *)
Theorem path_call_refs (s : vfs bump) c :
  vfs_ok s → inv None s → room 32 s →
  ∃ e s', run_call c s = Done e s' ∧ vfs_ok s' ∧ inv None s' ∧ fixed s' = fixed s ∧
    vfs_biglock_depth s' = vfs_biglock_depth s ∧ ∀ w, held s' w = held s w.
Proof. apply (call_refs (FsLaws0 := semfs_laws) s c). Qed.

Lemma path_call_refs_witness :
  ∃ e s', run_call (Remove "sem:foo") boot = Done e s' ∧ vfs_ok s' ∧ inv None s' ∧
    fixed s' = fixed boot ∧ vfs_biglock_depth s' = vfs_biglock_depth boot ∧
    ∀ w, held s' w = held boot w.
Proof. exact (path_call_refs boot (Remove "sem:foo") boot_ok boot_inv boot_room32). Defined.

Lemma vfs_chdir_refs_witness :
  ∃ e s', vfs_chdir "sem:" boot = Done e s' ∧ vfs_ok s' ∧ fs_inv s' ∧ base s' = base boot ∧
    bootfs_vnode s' = bootfs_vnode boot ∧ vfs_biglock_depth s' = vfs_biglock_depth boot ∧
    (e = 0 → p_cwd s' ≠ 0) ∧ (e ≠ 0 → p_cwd s' = p_cwd boot) ∧
    ∀ w, w ≠ 0 → spare s' w = spare boot w.
Proof. exact (vfs_chdir_refs boot "sem:" boot_ok boot_inv boot_room32). Defined.

Lemma vfs_setbootfs_spec_witness :
  ∃ e s', vfs_setbootfs "sem" boot = Done e s' ∧ vfs_ok s' ∧ fs_inv s' ∧ base s' = base boot ∧
    vfs_biglock_depth s' = vfs_biglock_depth boot ∧
    (e = 0 → p_cwd s' ≠ 0 ∧ bootfs_vnode s' = p_cwd s' ∧
             has_char ":" (stake 254 "sem") = false) ∧
    (e ≠ 0 → bootfs_vnode s' = bootfs_vnode boot) ∧
    ∀ w, w ≠ 0 → spare s' w = spare boot w.
Proof. exact (vfs_setbootfs_spec boot "sem" boot_ok boot_inv boot_room). Defined.

Example setbootfs_succeeds :
  match vfs_setbootfs "sem" boot with Done e s' => e = 0 ∧ bootfs_vnode s' ≠ 0 | _ => False end.
Proof. vm_compute. done. Qed.
(** The form with the colon, which vfs.h allows, is refused. *)
Example setbootfs_colon : vfs_setbootfs "sem:" boot = Done EINVAL boot.
Proof. vm_compute. reflexivity. Qed.

Lemma vfs_getroot_spec_witness :
  (∀ i kd, knowndevs boot !! i = Some kd → "sem"%string ∈ names boot kd →
     vfs_getroot "sem" boot = refers kd "sem" boot) ∧
  ((∀ kd, kd ∈ knowndevs boot → "sem"%string ∉ names boot kd) →
     vfs_getroot "sem" boot = Done (ENODEV, 0) boot).
Proof.
  apply (vfs_getroot_spec boot "sem").
  - apply boot_ok.
  - intros kd v H. rewrite boot_eq in H. simpl in H.
    apply elem_of_cons in H as [-> | [-> | H]%elem_of_cons]; done || by apply elem_of_nil in H.
  - intros i j k k' n. rewrite boot_eq. simpl. intros Hi Hj.
    destruct i as [|[|i]]; simpl in Hi; [| | done]; destruct j as [|[|j]]; simpl in Hj; try done;
      simplify_eq; intros H1 H2; exfalso; unfold names in H1, H2; simpl in H1, H2; set_solver.
Defined.

(** ** Reading and writing semaphores *)

Section semaphores.
Implicit Types s : vfs bump.

(** [v] is the vnode of semaphore [n], whose structure is [sem]. *)
Definition sem_vnode s (v n : Z) (sem : semfs_sem) : Prop :=
  ∃ x, vnodes s !! v = Some x ∧ vn_data x = v ∧ semv_semnum (fsem s) !! v = Some n ∧
    sems (fsem s) !! Z.to_nat n = Some (Some sem).

(** The state with another count. *)
Definition with_sem_count s (n c : Z) (sem : semfs_sem) : vfs bump :=
  grow (set_sem (fsem s) n (Some (with_count c sem))) 0 s.

Lemma getsem_run s v n sem : sem_vnode s v n sem → semfs_getsem v s = Done sem s.
Proof.
  intros (x & Hx & Hd & Hn & E). unfold semfs_getsem, mbind, M_bind.
  rewrite (semnum_of_run s v x n) by done. by apply the_sem_run.
Qed.
Lemma set_count_run s v n sem c :
  sem_vnode s v n sem → set_count v c s = Done tt (with_sem_count s n c sem).
Proof.
  intros (x & Hx & Hd & Hn & E). unfold set_count, mbind, M_bind.
  rewrite (semnum_of_run s v x n) by done. rewrite (the_sem_run s n sem) by done.
  unfold sems_set. by rewrite upd_run.
Qed.
Lemma sem_vnode_count s v n sem c :
  sem_vnode s v n sem → sem_vnode (with_sem_count s n c sem) v n (with_count c sem).
Proof.
  intros (x & Hx & Hd & Hn & E). exists x. split_and!; try done. simpl.
  apply list_lookup_insert_eq. by eapply lookup_lt_Some.
Qed.

(** A write of [n] bytes to a semaphore file adds [n] to its
    count, consumes the whole request and returns 0; when the count would not fit
    its 32-bit word the write returns [EFBIG] and changes nothing. *)
Theorem semfs_write_spec s v n sem u :
  sem_vnode s v n sem → fits 32 (sems_count sem) → 0 < uio_resid u < 2 ^ 32 →
  semfs_write v u s =
  if sems_count sem + uio_resid u <? 2 ^ 32
  then Done (0, advance (uio_resid u) u) (with_sem_count s n (sems_count sem + uio_resid u) sem)
  else Done (EFBIG, u) s.
Proof.
  intros Hs Hc Hr. unfold fits in Hc. unfold semfs_write, mbind, M_bind. rewrite (getsem_run s v n sem Hs).
  cbv [lock_acquire lock_release mret M_ret]. cbv beta iota zeta.
  destruct (Z.ltb_spec 0 (uio_resid u)); [| lia].
  destruct (Z.ltb_spec (sems_count sem + uio_resid u) (2 ^ 32)) as [Hlt | Hge].
  - rewrite u32_small by lia. destruct (Z.ltb_spec (sems_count sem + uio_resid u) (sems_count sem)); [lia |].
    rewrite wakeup_run. by rewrite (set_count_run s v n sem).
  - assert (Hw : u32 (sems_count sem + uio_resid u) = sems_count sem + uio_resid u - 2 ^ 32).
    { unfold u32, wrap. symmetry. apply (Zmod_unique _ _ 1); lia. }
    rewrite Hw. destruct (Z.ltb_spec (sems_count sem + uio_resid u - 2 ^ 32) (sems_count sem)); [done | lia].
Qed.

(** One round of the loop, when the request is not yet covered. *)
Lemma read_round fuel s v n sem u :
  sem_vnode s v n sem → fits 32 (sems_count sem) → sems_count sem < uio_resid u < 2 ^ 32 →
  read_loop (S fuel) v u s =
  read_loop fuel v (advance (sems_count sem) u) (with_sem_count s n 0 sem).
Proof.
  intros Hs Hc Hr. unfold fits in Hc. cbn [read_loop]. unfold mbind, M_bind.
  rewrite (getsem_run s v n sem Hs). destruct (Z.ltb_spec 0 (uio_resid u)); [| lia].
  assert ((if 0 <? sems_count sem
           then if sems_count sem <? uio_resid u then sems_count sem else uio_resid u
           else 0) = sems_count sem) as ->.
  { destruct (Z.ltb_spec 0 (sems_count sem)); [| lia].
    by destruct (Z.ltb_spec (sems_count sem) (uio_resid u)); [| lia]. }
  cbv zeta. rewrite (set_count_run s v n sem), Z.sub_diag by done. unfold advance at 1. cbn [uio_resid].
  rewrite u32_small by lia. destruct (Z.eqb_spec (uio_resid u - sems_count sem) 0); [lia |]. done.
Qed.

(** An empty semaphore: [cv_wait] is a stub, the reader never leaves the loop. *)
Lemma read_empty fuel s v n sem u :
  sem_vnode s v n sem → sems_count sem = 0 → 0 < uio_resid u < 2 ^ 32 →
  read_loop fuel v u s = NoFuel.
Proof.
  revert s sem u. induction fuel as [|fuel IH]; intros s sem u Hs Hc Hr; [done |].
  rewrite (read_round _ s v n sem) by (done || (unfold fits; lia)).
  apply (IH _ (with_count 0 sem)); [by apply sem_vnode_count | done |].
  unfold advance. cbn [uio_resid]. rewrite Hc, Z.sub_0_r, u32_small by lia. lia.
Qed.

(** A read of [n] bytes from a semaphore file whose count is at
    least [n] ends in its first round, with the count lowered by [n] and the whole
    request consumed; with a smaller count it never ends, whatever the number of
    rounds, because [cv_wait] is a stub and nobody can raise the count meanwhile. *)
Theorem semfs_read_terminates s v n sem u :
  sem_vnode s v n sem → fits 32 (sems_count sem) → 0 < uio_resid u < 2 ^ 32 →
  (uio_resid u <= sems_count sem →
     ∀ fuel, semfs_read (S fuel) v u s =
       Done (0, advance (uio_resid u) u) (with_sem_count s n (sems_count sem - uio_resid u) sem)) ∧
  (sems_count sem < uio_resid u → ∀ fuel, semfs_read fuel v u s = NoFuel).
Proof.
  intros Hs Hc Hr. pose proof Hc as Hc'. unfold fits in Hc. unfold semfs_read, mbind, M_bind.
  rewrite (getsem_run s v n sem Hs). cbv [lock_acquire lock_release mret M_ret]. cbv beta iota. split.
  - intros Hle fuel. cbn [read_loop]. unfold mbind, M_bind. rewrite (getsem_run s v n sem Hs).
    destruct (Z.ltb_spec 0 (uio_resid u)); [| lia]. destruct (Z.ltb_spec 0 (sems_count sem)); [| lia].
    destruct (Z.ltb_spec (sems_count sem) (uio_resid u)); [lia |].
    cbv zeta. rewrite (set_count_run s v n sem) by done. rewrite u32_small by lia.
    unfold advance at 1. cbn [uio_resid]. rewrite Z.sub_diag. done.
  - intros Hlt [|fuel]; [done |].
    rewrite (read_round _ s v n sem) by (done || lia).
    rewrite (read_empty _ _ _ n (with_count 0 sem)); [done | by apply sem_vnode_count | done |].
    unfold advance. cbn [uio_resid]. rewrite u32_small by lia. lia.
Qed.

(** *** Creating a semaphore when the heap runs out *)

(** When the memory for the directory entry of a new semaphore
    cannot be had, [semfs_creat] returns 0 without a vnode (its [result] still holds
    the success of [semfs_sem_insert]) instead of [ENOMEM]. *)
Theorem semfs_creat_no_dent s s1 s2 s3 dir name excl mode sem n :
  dot name = false → find_dent name (dents (fsem s)) = None →
  semfs_sem_create name s = Done (Some sem) s1 →
  semfs_sem_insert sem s1 = Done (0, n) s2 →
  semfs_direntry_create name n s2 = Done None s3 →
  (∃ a b c d, sems_lock sem = [a; b] ∧ sems_cv sem = [c; d]) →
  ∃ s4, semfs_creat dir name excl mode s = Done (0, 0) s4.
Proof.
  intros Hdot Hfind E1 E2 E3 Hs. unfold semfs_creat. rewrite Hdot.
  unfold mbind, M_bind, the_semfs, gets. change (get_semfs (world s)) with (fsem s). rewrite Hfind, E1, E2.
  change (negb (0 =? 0)) with false. cbv iota beta. unfold creat_link, mbind, M_bind. rewrite E3.
  unfold creat_fail, mbind, M_bind, sems_set. cbv [mret M_ret]. cbv beta iota. rewrite upd_run.
  rewrite sem_destroy_run by done. by eexists.
Qed.
End semaphores.

(** Six allocations succeed: the semaphore and the table, not the entry. *)
Definition w_low : vfs bump :=
  with_world (mkBump (fsem boot) (bw_next (world boot)) (Some 8%nat)) boot.
Definition w_root : vfs bump := after (semfs_getroot 0 w_low) w_low.
Definition w_created : vfs bump := after (semfs_sem_create "foo" w_root) w_root.
Definition w_foo : semfs_sem :=
  match semfs_sem_create "foo" w_root with Done (Some x) _ => x | _ => mkSem 0 false false 0 [] [] end.
Definition w_inserted : vfs bump := after (semfs_sem_insert w_foo w_created) w_created.

Lemma semfs_creat_no_dent_witness :
  ∃ s4, semfs_creat 0x80030130 "foo" false 0 w_root = Done (0, 0) s4.
Proof.
  apply (semfs_creat_no_dent w_root w_created w_inserted w_inserted 0x80030130 "foo" false 0 w_foo 0).
  - reflexivity.
  - vm_compute. reflexivity.
  - vm_compute. reflexivity.
  - vm_compute. reflexivity.
  - vm_compute. reflexivity.
  - vm_compute. by eexists _, _, _, _.
Defined.

(** [open] then fails its assertion that it got a vnode. *)
Example open_panics : vfs_open "sem:foo" 5 0 w_low = Panic "vn != NULL".
Proof. vm_compute. reflexivity. Qed.

(** The semaphore [foo], opened. *)
Definition w_semaphore : vfs bump := after (vfs_open "sem:foo" 5 0 boot) boot.
Definition w_uio (n rw : Z) : uio := mkUio [mkIov 0x80040000 n] 1 0 n UIO_SYSSPACE rw 0.
Definition w_foo_vnode : Z := 0x800301e0.

Lemma w_sem_vnode_ok :
  sem_vnode w_semaphore w_foo_vnode 0
    (mkSem 0 true true 0x80030150 [0x80030160; 0x80030170] [0x80030180; 0x80030190]).
Proof.
  exists (mkVnode 1 w_semfs w_foo_vnode semfs_semops). vm_compute. done.
Qed.

Lemma semfs_write_spec_witness :
  semfs_write w_foo_vnode (w_uio 3 UIO_WRITE) w_semaphore =
  if 0 + 3 <? 2 ^ 32
  then Done (0, advance 3 (w_uio 3 UIO_WRITE))
         (with_sem_count w_semaphore 0 (0 + 3)
            (mkSem 0 true true 0x80030150 [0x80030160; 0x80030170] [0x80030180; 0x80030190]))
  else Done (EFBIG, w_uio 3 UIO_WRITE) w_semaphore.
Proof.
  apply (semfs_write_spec w_semaphore w_foo_vnode 0
    (mkSem 0 true true 0x80030150 [0x80030160; 0x80030170] [0x80030180; 0x80030190])
    (w_uio 3 UIO_WRITE)).
  - exact w_sem_vnode_ok.
  - by vm_compute.
  - by vm_compute.
Defined.

Lemma semfs_read_terminates_witness :
  let sem := mkSem 0 true true 0x80030150 [0x80030160; 0x80030170] [0x80030180; 0x80030190] in
  let u := w_uio 3 UIO_READ in
  (3 <= 0 → ∀ fuel, semfs_read (S fuel) w_foo_vnode u w_semaphore =
     Done (0, advance 3 u) (with_sem_count w_semaphore 0 (0 - 3) sem)) ∧
  (0 < 3 → ∀ fuel, semfs_read fuel w_foo_vnode u w_semaphore = NoFuel).
Proof.
  apply (semfs_read_terminates w_semaphore w_foo_vnode 0
    (mkSem 0 true true 0x80030150 [0x80030160; 0x80030170] [0x80030180; 0x80030190])
    (w_uio 3 UIO_READ)).
  - exact w_sem_vnode_ok.
  - by vm_compute.
  - by vm_compute.
Defined.
End SemfsProps.
