(* ===== verification/ThreadList.v ===== *)
(** * Thread lists (thread/threadlist.c)

    A doubly linked list with a head and a tail node embedded in the list
    structure, linking the [t_listnode] members of threads.  The nodes of all
    lists and threads live in one store, so that the statements can say that an
    operation on one list leaves the others alone. *)

From stdpp Require Import base list numbers strings sets.
From Stdlib Require Import ZArith Lia.
From S2P Require Import Prelude.

#[local] Open Scope Z_scope.

Module ThreadList.

(** The address of a node: the two members of the list at [tl], or the
    [t_listnode] member of the thread at [t]. *)
Inductive nptr :=
| tl_head (tl : Z)
| tl_tail (tl : Z)
| t_listnode (t : Z).

#[export] Instance nptr_eq_dec : EqDecision nptr.
Proof. solve_decision. Defined.

(** Pointers: [None] is NULL; thread pointers are addresses, 0 for NULL. *)
Record tlnode := mkNode {
  tln_prev : option nptr;
  tln_next : option nptr;
  tln_self : Z
}.

Record tlstate := mkTl { nodes : nptr → tlnode; tl_count : Z → Z }.
Abbreviation T := (M tlstate).

Definition upd_node (p : nptr) (f : tlnode → tlnode) (s : tlstate) : tlstate :=
  mkTl (λ x, if decide (x = p) then f (nodes s p) else nodes s x) (tl_count s).
Definition set_prev (p : nptr) (x : option nptr) : T unit :=
  modify (upd_node p (λ n, mkNode x (tln_next n) (tln_self n))).
Definition set_next (p : nptr) (x : option nptr) : T unit :=
  modify (upd_node p (λ n, mkNode (tln_prev n) x (tln_self n))).
Definition set_self (p : nptr) (t : Z) : T unit :=
  modify (upd_node p (λ n, mkNode (tln_prev n) (tln_next n) t)).
Definition set_count (tl c : Z) : T unit :=
  modify (λ s, mkTl (nodes s) (λ x, if x =? tl then c else tl_count s x)).
Definition get_prev (p : nptr) : T (option nptr) := gets (λ s, tln_prev (nodes s p)).
Definition get_next (p : nptr) : T (option nptr) := gets (λ s, tln_next (nodes s p)).
(** Following a NULL pointer faults. *)
Definition follow (x : option nptr) : T nptr := deref (λ _, x) "NULL threadlistnode".

(** ** Operations; [DEBUGASSERT] is compiled out *)

Definition threadlistnode_init (tln : nptr) (t : Z) : T unit :=
  kassert (negb (t =? 0)) "t != NULL" ;;
  set_next tln None ;; set_prev tln None ;; set_self tln t.

Definition threadlistnode_cleanup (tln : nptr) : T unit :=
  n ← gets (λ s, nodes s tln);
  kassert (bool_decide (tln_next n = None)) "tln->tln_next == NULL" ;;
  kassert (bool_decide (tln_prev n = None)) "tln->tln_prev == NULL" ;;
  kassert (negb (tln_self n =? 0)) "tln->tln_self != NULL".

Definition threadlist_init (tl : Z) : T unit :=
  set_next (tl_head tl) (Some (tl_tail tl)) ;;
  set_prev (tl_head tl) None ;;
  set_next (tl_tail tl) None ;;
  set_prev (tl_tail tl) (Some (tl_head tl)) ;;
  set_self (tl_head tl) 0 ;;
  set_self (tl_tail tl) 0 ;;
  set_count tl 0.

Definition threadlist_isempty (tl : Z) : T bool := gets (λ s, tl_count s tl =? 0).

Definition threadlist_cleanup (tl : Z) : T unit :=
  e ← threadlist_isempty tl;
  kassert e "threadlist_isempty(tl)" ;;
  c ← gets (λ s, tl_count s tl);
  kassert (c =? 0) "tl->tl_count == 0".

Definition threadlist_insertafternode (onlist : nptr) (t : Z) : T unit :=
  let addee := t_listnode t in
  set_prev addee (Some onlist) ;;
  n ← get_next onlist;
  set_next addee n ;;
  p ← get_prev addee; p ← follow p; set_next p (Some addee) ;;
  n ← get_next addee; n ← follow n; set_prev n (Some addee).

Definition threadlist_insertbeforenode (t : Z) (onlist : nptr) : T unit :=
  let addee := t_listnode t in
  p ← get_prev onlist;
  set_prev addee p ;;
  set_next addee (Some onlist) ;;
  p ← get_prev addee; p ← follow p; set_next p (Some addee) ;;
  n ← get_next addee; n ← follow n; set_prev n (Some addee).

Definition threadlist_removenode (tln : nptr) : T unit :=
  n ← get_next tln;
  p ← get_prev tln; p ← follow p; set_next p n ;;
  q ← get_prev tln;
  n ← get_next tln; n ← follow n; set_prev n q ;;
  set_prev tln None ;;
  set_next tln None.

Definition count_up (tl : Z) : T unit :=
  c ← gets (λ s, tl_count s tl); set_count tl (u32 (c + 1)).
Definition count_down (tl : Z) : T unit :=
  c ← gets (λ s, tl_count s tl); set_count tl (u32 (c - 1)).

Definition threadlist_addhead (tl t : Z) : T unit :=
  threadlist_insertafternode (tl_head tl) t ;; count_up tl.

Definition threadlist_addtail (tl t : Z) : T unit :=
  threadlist_insertbeforenode t (tl_tail tl) ;; count_up tl.

(** The removed thread, 0 for an empty list. *)
Definition threadlist_remhead (tl : Z) : T Z :=
  tln ← get_next (tl_head tl); tln ← follow tln;
  n ← get_next tln;
  if bool_decide (n = None) then mret 0
  else
    threadlist_removenode tln ;;
    count_down tl ;;
    gets (λ s, tln_self (nodes s tln)).

Definition threadlist_remtail (tl : Z) : T Z :=
  tln ← get_prev (tl_tail tl); tln ← follow tln;
  p ← get_prev tln;
  if bool_decide (p = None) then mret 0
  else
    threadlist_removenode tln ;;
    count_down tl ;;
    gets (λ s, tln_self (nodes s tln)).

Definition threadlist_insertafter (tl onlist addee : Z) : T unit :=
  threadlist_insertafternode (t_listnode onlist) addee ;; count_up tl.

Definition threadlist_insertbefore (tl addee onlist : Z) : T unit :=
  threadlist_insertbeforenode addee (t_listnode onlist) ;; count_up tl.

Definition threadlist_remove (tl t : Z) : T unit :=
  threadlist_removenode (t_listnode t) ;; count_down tl.

(** ** Contract: a list structure represents a list of threads *)

(** The nodes of [l] linked in both directions between [a] and [b]. *)
Fixpoint seg (f : nptr → tlnode) (a : nptr) (l : list nptr) (b : nptr) : Prop :=
  match l with
  | [] => tln_next (f a) = Some b ∧ tln_prev (f b) = Some a
  | x :: l' => tln_next (f a) = Some x ∧ tln_prev (f x) = Some a ∧ seg f x l' b
  end.

Record is_list (s : tlstate) (tl : Z) (l : list Z) : Prop := {
  il_seg : seg (nodes s) (tl_head tl) (map t_listnode l) (tl_tail tl);
  il_head : tln_prev (nodes s (tl_head tl)) = None;
  il_tail : tln_next (nodes s (tl_tail tl)) = None;
  il_self : ∀ t, t ∈ l → tln_self (nodes s (t_listnode t)) = t;
  il_nodup : NoDup l;
  il_count : tl_count s tl = Z.of_nat (length l);
  il_small : Z.of_nat (length l) < 2 ^ 32
}.

(** A thread that is on no list. *)
Definition detached (s : tlstate) (t : Z) : Prop :=
  tln_self (nodes s (t_listnode t)) = t ∧
  tln_prev (nodes s (t_listnode t)) = None ∧ tln_next (nodes s (t_listnode t)) = None.

Lemma seg_app f a l1 x l2 b : seg f a (l1 ++ x :: l2) b ↔ seg f a l1 x ∧ seg f x l2 b.
Proof. revert a. induction l1 as [|y l1 IH]; intros a; simpl; [naive_solver |]. rewrite IH. naive_solver. Qed.

(** A segment depends on the forward links of all but its end and on the
    backward links of all but its start. *)
Lemma seg_ext f g a l b :
  (∀ x, x ∈ a :: l → tln_next (g x) = tln_next (f x)) →
  (∀ x, x ∈ l ++ [b] → tln_prev (g x) = tln_prev (f x)) → seg f a l b → seg g a l b.
Proof.
  revert a. induction l as [|y l IH]; intros a Hn Hp; simpl.
  - rewrite (Hn a), (Hp b) by set_solver. done.
  - intros (H1 & H2 & H3). rewrite (Hn a), (Hp y) by set_solver.
    split_and!; [done | done |]. apply IH; [| | done]; intros x Hx; [apply Hn | apply Hp]; set_solver.
Qed.

(** The links determine the list. *)
Lemma is_list_fun s tl l l' : is_list s tl l → is_list s tl l' → l = l'.
Proof.
  intros H H'. pose proof (il_seg _ _ _ H) as Hs. pose proof (il_seg _ _ _ H') as Hs'.
  revert Hs Hs'. clear. generalize (tl_head tl) as a. revert l'.
  induction l as [|t l IH]; intros [|t' l'] a; simpl; naive_solver.
Qed.

(** The state after node [x] was linked between [a] and [b]. *)
Definition linked (s s' : tlstate) (a x b : nptr) : Prop :=
  tl_count s' = tl_count s ∧
  nodes s' x = mkNode (Some a) (Some b) (tln_self (nodes s x)) ∧
  nodes s' a = mkNode (tln_prev (nodes s a)) (Some x) (tln_self (nodes s a)) ∧
  nodes s' b = mkNode (Some x) (tln_next (nodes s b)) (tln_self (nodes s b)) ∧
  ∀ y, y ≠ x → y ≠ a → y ≠ b → nodes s' y = nodes s y.

Definition unlinked (s s' : tlstate) (a x b : nptr) : Prop :=
  tl_count s' = tl_count s ∧
  nodes s' x = mkNode None None (tln_self (nodes s x)) ∧
  nodes s' a = mkNode (tln_prev (nodes s a)) (Some b) (tln_self (nodes s a)) ∧
  nodes s' b = mkNode (Some a) (tln_next (nodes s b)) (tln_self (nodes s b)) ∧
  ∀ y, y ≠ x → y ≠ a → y ≠ b → nodes s' y = nodes s y.

Lemma nodes_upd_eq p f s : nodes (upd_node p f s) p = f (nodes s p).
Proof. unfold upd_node. simpl. by rewrite decide_True. Qed.

Lemma nodes_upd_ne p q f s : q ≠ p → nodes (upd_node p f s) q = nodes s q.
Proof. intros H. unfold upd_node. simpl. by rewrite decide_False. Qed.

(** Run straight-line code and look nodes up in the updated store. *)
Ltac tl_look :=
  repeat first [rewrite nodes_upd_eq | rewrite nodes_upd_ne by congruence]; cbn [tln_prev tln_next tln_self].
Ltac tl_run :=
  unfold set_prev, set_next, get_prev, get_next, follow, deref, modify, gets, mbind, M_bind;
  tl_look.

Section nodes.
Context (s : tlstate) (a b : nptr) (t : Z).
Let x := t_listnode t.
Context (Hab : a ≠ b) (Hax : a ≠ x) (Hbx : b ≠ x).

Lemma insertafter_linked :
  tln_next (nodes s a) = Some b →
  ∃ s', threadlist_insertafternode a t s = Done tt s' ∧ linked s s' a x b.
Proof using Hab Hax Hbx.
  subst x. intros Hn. unfold threadlist_insertafternode. tl_run. rewrite Hn. tl_look.
  eexists. split; [reflexivity |]. unfold linked. tl_look. split_and!; try done.
  intros y Hyx Hya Hyb. by tl_look.
Qed.

Lemma insertbefore_linked :
  tln_prev (nodes s b) = Some a →
  ∃ s', threadlist_insertbeforenode t b s = Done tt s' ∧ linked s s' a x b.
Proof using Hab Hax Hbx.
  subst x. intros Hn. unfold threadlist_insertbeforenode. tl_run. rewrite Hn. tl_look.
  eexists. split; [reflexivity |]. unfold linked. tl_look. split_and!; try done.
  intros y Hyx Hya Hyb. by tl_look.
Qed.

Lemma removenode_unlinked :
  tln_prev (nodes s x) = Some a → tln_next (nodes s x) = Some b →
  ∃ s', threadlist_removenode x s = Done tt s' ∧ unlinked s s' a x b.
Proof using Hab Hax Hbx.
  subst x. intros Hp Hn. unfold threadlist_removenode. tl_run. rewrite Hp. tl_look. rewrite Hn. tl_look.
  eexists. split; [reflexivity |]. unfold unlinked. tl_look.
  split_and!; try done; [by rewrite Hp |].
  intros y Hyx Hya Hyb. by tl_look.
Qed.
End nodes.

(** The neighbours of the gap between [l1] and [l2]. *)
Definition left_of (a : nptr) (l1 : list nptr) : nptr := default a (last l1).
Definition right_of (l2 : list nptr) (b : nptr) : nptr := default b (head l2).

Lemma left_of_cons a z l : left_of a (z :: l) = left_of z l.
Proof. unfold left_of. rewrite last_cons. by destruct (last l). Qed.

Lemma left_of_elem a l : left_of a l ∈ a :: l.
Proof.
  unfold left_of. destruct (last l) eqn:E; simpl; [| left].
  right. by apply last_Some_elem_of.
Qed.

Lemma right_of_elem l b : right_of l b ∈ l ++ [b].
Proof. unfold right_of. destruct l; simpl; set_solver. Qed.

(** In a segment the two neighbours of a gap point at each other. *)
Lemma seg_gap f a l1 l2 b :
  seg f a (l1 ++ l2) b →
  tln_next (f (left_of a l1)) = Some (right_of l2 b) ∧
  tln_prev (f (right_of l2 b)) = Some (left_of a l1).
Proof.
  revert a. induction l1 as [|z l1 IH]; intros a; simpl.
  - unfold left_of, right_of. destruct l2; simpl; naive_solver.
  - intros (_ & _ & H). rewrite left_of_cons. by apply IH.
Qed.

Lemma seg_insert s s' a l1 l2 b x :
  linked s s' (left_of a l1) x (right_of l2 b) →
  NoDup (a :: l1 ++ l2 ++ [b]) → x ∉ a :: l1 ++ l2 ++ [b] →
  seg (nodes s) a (l1 ++ l2) b → seg (nodes s') a (l1 ++ x :: l2) b.
Proof.
  intros Hl. pose proof Hl as (_ & Hx & Hp & Hq & Ho). clear Hl.
  revert a Hp Hx Ho. induction l1 as [|z l1 IH]; intros a Hp Hx Ho Hnd Hnx; cbn [app seg].
  - change (left_of a []) with a in *. rewrite Hp, Hx. simpl. intros Hs. split_and!; try done.
    destruct l2 as [|y l2]; unfold right_of in *; simpl in *; rewrite Hq, ?Hx; [done |]. simpl. split_and!; [done | done |].
    apply NoDup_cons in Hnd as [Ha Hnd]. apply NoDup_cons in Hnd as [Hy Hnd].
    destruct Hs as (_ & _ & Hs). eapply seg_ext; [| | exact Hs].
    + intros w Hw. destruct (decide (w = y)) as [-> |]; [by rewrite Hq |].
      rewrite Ho; [done | set_solver ..].
    + intros w Hw. rewrite Ho; [done | set_solver ..].
  - rewrite left_of_cons in *. intros (H1 & H2 & H3). apply NoDup_cons in Hnd as [Ha Hnd].
    pose proof (left_of_elem z l1). pose proof (right_of_elem l2 b).
    assert (nodes s' a = nodes s a) as ->.
    { apply Ho; [set_solver | intros ->; set_solver | intros ->; set_solver]. }
    split; [done |]. split.
    + assert (z ≠ right_of l2 b).
      { apply NoDup_cons in Hnd as [Hz _]. intros ->. set_solver. }
      destruct (decide (z = left_of z l1)) as [E |].
      * rewrite E at 1. rewrite Hp. simpl. by rewrite <- E.
      * rewrite Ho; [done | set_solver | done | done].
    + apply IH; [done | done | done | done | set_solver | done].
Qed.

Lemma seg_remove s s' a l1 l2 b x :
  unlinked s s' (left_of a l1) x (right_of l2 b) →
  NoDup (a :: l1 ++ l2 ++ [b]) → x ∉ a :: l1 ++ l2 ++ [b] →
  seg (nodes s) a (l1 ++ x :: l2) b → seg (nodes s') a (l1 ++ l2) b.
Proof.
  intros Hl. pose proof Hl as (_ & Hx & Hp & Hq & Ho). clear Hl.
  revert a Hp Hx Hq Ho. induction l1 as [|z l1 IH]; intros a Hp Hx Hq Ho Hnd Hnx; cbn [app seg].
  - change (left_of a []) with a in *. intros (_ & _ & Hs).
    destruct l2 as [|y l2]; unfold right_of in *; simpl in *; rewrite Hp, Hq; simpl; [done |]. split_and!; [done | done |].
    apply NoDup_cons in Hnd as [Ha Hnd]. apply NoDup_cons in Hnd as [Hy Hnd].
    destruct Hs as (_ & _ & Hs). eapply seg_ext; [| | exact Hs].
    + intros w Hw. destruct (decide (w = y)) as [-> |]; [by rewrite Hq |].
      rewrite Ho; [done | set_solver ..].
    + intros w Hw. rewrite Ho; [done | set_solver ..].
  - rewrite left_of_cons in *. intros (H1 & H2 & H3). apply NoDup_cons in Hnd as [Ha Hnd].
    pose proof (left_of_elem z l1). pose proof (right_of_elem l2 b).
    assert (nodes s' a = nodes s a) as ->.
    { apply Ho; [set_solver | intros ->; set_solver | intros ->; set_solver]. }
    split; [done |]. split.
    + assert (z ≠ right_of l2 b).
      { apply NoDup_cons in Hnd as [Hz _]. intros ->. set_solver. }
      destruct (decide (z = left_of z l1)) as [E |].
      * rewrite E at 1. rewrite Hp. simpl. by rewrite <- E.
      * rewrite Ho; [done | set_solver | done | done].
    + apply IH; [done | done | done | done | done | set_solver | done].
Qed.

(** The other lists: an operation on [tl] that moves only threads of [l] keeps
    what the lists without such threads represent, and the other threads that
    are on no list. *)
Definition others_kept (s s' : tlstate) (tl : Z) (l : list Z) : Prop :=
  (∀ tl' l', tl' ≠ tl → (∀ t, t ∈ l' → t ∉ l) → is_list s tl' l' → is_list s' tl' l') ∧
  (∀ t, t ∉ l → detached s t → detached s' t).

Definition path (tl : Z) (l : list Z) : list nptr :=
  tl_head tl :: map t_listnode l ++ [tl_tail tl].

Lemma path_elem tl l p :
  p ∈ path tl l ↔ p = tl_head tl ∨ p = tl_tail tl ∨ ∃ t, p = t_listnode t ∧ t ∈ l.
Proof.
  unfold path. rewrite elem_of_cons, elem_of_app, list_elem_of_singleton, list_elem_of_fmap.
  naive_solver.
Qed.

Lemma path_nodup tl l : NoDup l → NoDup (path tl l).
Proof.
  intros H. unfold path. apply NoDup_cons. split.
  - rewrite elem_of_app, list_elem_of_singleton, list_elem_of_fmap. naive_solver.
  - apply NoDup_app. split_and!.
    + apply NoDup_fmap_2; [intros ? ?; congruence | done].
    + intros p. rewrite list_elem_of_fmap, list_elem_of_singleton. naive_solver.
    + apply NoDup_singleton.
Qed.

Lemma path_app tl l1 l2 :
  path tl (l1 ++ l2) = tl_head tl :: map t_listnode l1 ++ map t_listnode l2 ++ [tl_tail tl].
Proof. unfold path. by rewrite map_app, <- app_assoc. Qed.

(** Nodes outside the path are untouched, so other lists are kept. *)
Lemma frame_others s s' tl l :
  (∀ p, p ∉ path tl l → nodes s' p = nodes s p) →
  (∀ x, x ≠ tl → tl_count s' x = tl_count s x) → others_kept s s' tl l.
Proof.
  intros Hn Hc. split.
  2:{ intros t Ht Hd. unfold detached in *. rewrite Hn; [done |]. rewrite path_elem. naive_solver. }
  intros tl' l' Hne Hd Hl. pose proof Hl as [Hs Hh Ht Hself Hnd Hcnt Hsm].
  assert (∀ p, p ∈ path tl' l' → nodes s' p = nodes s p) as Hk.
  { intros p Hp. apply Hn. rewrite path_elem in *.
    destruct Hp as [-> | [-> | (t & -> & Ht')]]; intros [E | [E | (t' & E & Ht'')]]; simplify_eq.
    by apply (Hd t'). }
  split; try done.
  - eapply seg_ext; [| | exact Hs]; intros p Hp; rewrite Hk; try done; unfold path; set_solver.
  - rewrite Hk; [done | unfold path; set_solver].
  - rewrite Hk; [done | unfold path; set_solver].
  - intros t Ht'. rewrite Hk; [by apply Hself | rewrite path_elem; eauto].
  - by rewrite Hc.
Qed.

Lemma detached_fresh s tl l t : is_list s tl l → detached s t → t ∉ l.
Proof.
  intros Hl (_ & Hp & _) Hin. pose proof (il_seg _ _ _ Hl) as Hs.
  apply list_elem_of_split in Hin as (l1 & l2 & ->). rewrite map_app in Hs. simpl in Hs.
  apply (seg_gap _ _ (map t_listnode l1) (t_listnode t :: map t_listnode l2)) in Hs as [_ Hs].
  unfold right_of in Hs. simpl in Hs. congruence.
Qed.

(** The neighbours of a gap are nodes of the list and differ. *)
Lemma gap_nodes s tl l1 l2 :
  is_list s tl (l1 ++ l2) →
  let a := left_of (tl_head tl) (map t_listnode l1) in
  let b := right_of (map t_listnode l2) (tl_tail tl) in
  a ∈ path tl (l1 ++ l2) ∧ b ∈ path tl (l1 ++ l2) ∧ a ≠ b.
Proof.
  intros Hl a b. pose proof (path_nodup tl _ (il_nodup _ _ _ Hl)) as Hnd. rewrite path_app in *.
  pose proof (left_of_elem (tl_head tl) (map t_listnode l1)) as Ha.
  pose proof (right_of_elem (map t_listnode l2) (tl_tail tl)) as Hb. fold a in Ha. fold b in Hb.
  split_and!; [set_solver | set_solver |]. intros E. rewrite E in Ha.
  rewrite app_comm_cons in Hnd. apply NoDup_app in Hnd as (_ & Hd & _). by apply (Hd b).
Qed.

(** Relinking around a gap keeps the outer links of the sentinels and the
    owners of the nodes. *)
Lemma ends_kept (f f' : nptr → tlnode) tl l1 l2 x n p :
  let a := left_of (tl_head tl) (map t_listnode l1) in
  let b := right_of (map t_listnode l2) (tl_tail tl) in
  f' a = mkNode (tln_prev (f a)) n (tln_self (f a)) →
  f' b = mkNode p (tln_next (f b)) (tln_self (f b)) →
  (∀ y, y ≠ t_listnode x → y ≠ a → y ≠ b → f' y = f y) →
  tln_prev (f' (tl_head tl)) = tln_prev (f (tl_head tl)) ∧
  tln_next (f' (tl_tail tl)) = tln_next (f (tl_tail tl)) ∧
  ∀ y, y ≠ t_listnode x → tln_self (f' y) = tln_self (f y).
Proof.
  intros a b Ha Hb Ho. split_and!.
  - destruct (decide (tl_head tl = a)) as [-> |]; [by rewrite Ha |]. rewrite Ho; try done.
    intros E. pose proof (right_of_elem (map t_listnode l2) (tl_tail tl)) as Hin. fold b in Hin.
    rewrite <- E in Hin.
    apply elem_of_app in Hin as [(? & ? & _)%list_elem_of_fmap | Hin%list_elem_of_singleton]; done.
  - destruct (decide (tl_tail tl = b)) as [-> |]; [by rewrite Hb |]. rewrite Ho; try done.
    intros E. pose proof (left_of_elem (tl_head tl) (map t_listnode l1)) as Hin. fold a in Hin.
    rewrite <- E in Hin. apply elem_of_cons in Hin as [? | (? & ? & _)%list_elem_of_fmap]; done.
  - intros y Hy. destruct (decide (y = a)) as [-> |]; [by rewrite Ha |].
    destruct (decide (y = b)) as [-> |]; [by rewrite Hb |]. by rewrite Ho.
Qed.

Lemma path_mono tl l l' : (∀ t, t ∈ l → t ∈ l') → ∀ p, p ∈ path tl l → p ∈ path tl l'.
Proof. intros H p. rewrite !path_elem. naive_solver. Qed.

Lemma link_list s s1 tl l1 l2 t :
  is_list s tl (l1 ++ l2) → tln_self (nodes s (t_listnode t)) = t → t ∉ l1 ++ l2 →
  Z.of_nat (length (l1 ++ l2)) + 1 < 2 ^ 32 →
  linked s s1 (left_of (tl_head tl) (map t_listnode l1)) (t_listnode t)
    (right_of (map t_listnode l2) (tl_tail tl)) →
  ∃ s', count_up tl s1 = Done tt s' ∧ is_list s' tl (l1 ++ t :: l2) ∧
    others_kept s s' tl (l1 ++ t :: l2).
Proof.
  intros Hl Hself Hnt Hlen Hlk. pose proof Hl as [Hs Hh Ht Hse Hnd Hcnt Hsm].
  pose proof (gap_nodes _ _ _ _ Hl) as (Ha & Hb & Hab). pose proof Hlk as (Hc & Hx & Hp & Hq & Ho).
  destruct (ends_kept _ _ _ _ _ _ _ _ Hp Hq Ho) as (Hh' & Ht' & Hsf).
  assert (∀ p, p ∈ path tl (l1 ++ l2) → p ∈ path tl (l1 ++ t :: l2)) as Hmono
    by (apply path_mono; set_solver).
  eexists. split; [reflexivity |]. split.
  - split; simpl; rewrite ?Hc, ?Z.eqb_refl, ?Hh', ?Ht'; try done.
    + rewrite map_app. simpl. eapply seg_insert; [exact Hlk | | | by rewrite <- map_app];
        rewrite <- path_app; [by apply path_nodup | rewrite path_elem; naive_solver].
    + intros t' Hin. destruct (decide (t' = t)) as [-> | Hne]; [by rewrite Hx |].
      rewrite Hsf by congruence. apply Hse. set_solver.
    + apply NoDup_app in Hnd as (H1 & H2 & H3). apply NoDup_app. split_and!; [done | |].
      * intros y Hy. rewrite not_elem_of_cons. split; [intros ->; set_solver | by apply H2].
      * apply NoDup_cons. split; [set_solver | done].
    + rewrite Hcnt, u32_small, !length_app by lia. rewrite length_app in *. simpl. lia.
    + rewrite !length_app in *. simpl. lia.
  - apply frame_others; simpl.
    + intros p Hpp. apply Ho; intros ->; apply Hpp; [| by apply Hmono ..].
      rewrite path_elem. right. right. eexists. split; [done | set_solver].
    + intros x Hne. apply Z.eqb_neq in Hne. by rewrite Hne, Hc.
Qed.

Lemma unlink_list s s1 tl l1 l2 t :
  is_list s tl (l1 ++ t :: l2) →
  unlinked s s1 (left_of (tl_head tl) (map t_listnode l1)) (t_listnode t)
    (right_of (map t_listnode l2) (tl_tail tl)) →
  ∃ s', count_down tl s1 = Done tt s' ∧ is_list s' tl (l1 ++ l2) ∧ detached s' t ∧
    others_kept s s' tl (l1 ++ t :: l2).
Proof.
  intros Hl Hlk. pose proof Hl as [Hs Hh Ht Hse Hnd Hcnt Hsm].
  pose proof Hlk as (Hc & Hx & Hp & Hq & Ho).
  destruct (ends_kept _ _ _ _ _ _ _ _ Hp Hq Ho) as (Hh' & Ht' & Hsf).
  assert (NoDup (l1 ++ l2) ∧ t ∉ l1 ++ l2) as [Hnd' Hnt].
  { rewrite <- Permutation_middle in Hnd.
    by apply NoDup_cons in Hnd as [? ?]. }
  assert (∀ p, p ∈ path tl (l1 ++ l2) → p ∈ path tl (l1 ++ t :: l2)) as Hmono
    by (apply path_mono; set_solver).
  rewrite length_app in *. simpl in *.
  eexists. split; [reflexivity |]. split_and!.
  - split; simpl; rewrite ?Hc, ?Z.eqb_refl, ?Hh', ?Ht'; try done.
    + rewrite map_app in *. eapply seg_remove; [exact Hlk | | | exact Hs];
        rewrite <- path_app; [by apply path_nodup | rewrite path_elem; naive_solver].
    + intros t' Hin. rewrite Hsf by (intros [= ->]; done). apply Hse. set_solver.
    + rewrite Hcnt, u32_small, length_app by lia. lia.
    + rewrite length_app. lia.
  - unfold detached. simpl. rewrite Hx. split_and!; try done. simpl. apply Hse. set_solver.
  - apply frame_others; simpl.
    + intros p Hpp. pose proof (left_of_elem (tl_head tl) (map t_listnode l1)).
      pose proof (right_of_elem (map t_listnode l2) (tl_tail tl)).
      apply Ho; intros ->; apply Hpp; [| apply Hmono; rewrite path_app; set_solver ..].
      rewrite path_elem. right. right. eexists. split; [done | set_solver].
    + intros x Hne. apply Z.eqb_neq in Hne. by rewrite Hne, Hc.
Qed.

(** ** The list operations implement the operations on lists of threads *)

Lemma bind_done {A B} (m : T A) (k : A → T B) s a s1 : m s = Done a s1 → (m ≫= k) s = k a s1.
Proof. intros E. unfold mbind, M_bind. by rewrite E. Qed.

Lemma node_ne_path tl l t : t ∉ l → ∀ p, p ∈ path tl l → p ≠ t_listnode t.
Proof. intros Hn p Hp ->. rewrite path_elem in Hp. naive_solver. Qed.

(** Insertion between [l1] and [l2], after the left or before the right
    neighbour of the gap. *)
Lemma insert_gap s tl l1 l2 t (k : nptr → nptr → T unit) :
  (∀ a b, k a b = threadlist_insertafternode a t) ∨
  (∀ a b, k a b = threadlist_insertbeforenode t b) →
  is_list s tl (l1 ++ l2) → detached s t → Z.of_nat (length (l1 ++ l2)) + 1 < 2 ^ 32 →
  ∃ s', (k (left_of (tl_head tl) (map t_listnode l1))
           (right_of (map t_listnode l2) (tl_tail tl)) ;; count_up tl) s = Done tt s' ∧
    is_list s' tl (l1 ++ t :: l2) ∧ others_kept s s' tl (l1 ++ t :: l2).
Proof.
  intros Hk Hl Hd Hlen. pose proof (detached_fresh _ _ _ _ Hl Hd) as Hnt.
  pose proof (gap_nodes _ _ _ _ Hl) as (Ha & Hb & Hab).
  pose proof (node_ne_path tl _ t Hnt) as Hne.
  pose proof (il_seg _ _ _ Hl) as Hs. rewrite map_app in Hs. apply seg_gap in Hs as [Hn Hp].
  assert (∃ s1, k (left_of (tl_head tl) (map t_listnode l1))
      (right_of (map t_listnode l2) (tl_tail tl)) s = Done tt s1 ∧
    linked s s1 (left_of (tl_head tl) (map t_listnode l1)) (t_listnode t)
      (right_of (map t_listnode l2) (tl_tail tl))) as (s1 & E & Hlk).
  { destruct Hk as [-> | ->]; [apply insertafter_linked | apply insertbefore_linked]; auto. }
  rewrite (bind_done _ _ _ _ _ E). eapply link_list; try done. apply Hd.
Qed.

(** [threadlist_addhead] puts a thread that is on no list at the front, keeps
    the counter equal to the length and leaves every other list alone. *)
Theorem threadlist_addhead_spec s tl t l :
  is_list s tl l → detached s t → Z.of_nat (length l) + 1 < 2 ^ 32 →
  ∃ s', threadlist_addhead tl t s = Done tt s' ∧ is_list s' tl (t :: l) ∧
    others_kept s s' tl (t :: l).
Proof.
  intros Hl Hd Hlen. apply (insert_gap s tl [] l t (λ a _, threadlist_insertafternode a t));
    [by left | done | done | done].
Qed.

(** [threadlist_addtail] puts it at the back. *)
Theorem threadlist_addtail_spec s tl t l :
  is_list s tl l → detached s t → Z.of_nat (length l) + 1 < 2 ^ 32 →
  ∃ s', threadlist_addtail tl t s = Done tt s' ∧ is_list s' tl (l ++ [t]) ∧
    others_kept s s' tl (l ++ [t]).
Proof.
  intros Hl Hd Hlen. apply (insert_gap s tl l [] t (λ _ b, threadlist_insertbeforenode t b));
    rewrite ?app_nil_r; [by right | done | done | done].
Qed.

(** Insertion next to a thread that is on the list. *)
Theorem threadlist_insert_spec s tl t x l1 l2 :
  is_list s tl (l1 ++ x :: l2) → detached s t →
  Z.of_nat (length (l1 ++ x :: l2)) + 1 < 2 ^ 32 →
  (∃ s', threadlist_insertafter tl x t s = Done tt s' ∧
     is_list s' tl (l1 ++ x :: t :: l2) ∧ others_kept s s' tl (l1 ++ x :: t :: l2)) ∧
  (∃ s', threadlist_insertbefore tl t x s = Done tt s' ∧
     is_list s' tl (l1 ++ t :: x :: l2) ∧ others_kept s s' tl (l1 ++ t :: x :: l2)).
Proof.
  intros Hl Hd Hlen. split.
  - pose proof (insert_gap s tl (l1 ++ [x]) l2 t (λ a _, threadlist_insertafternode a t)) as H.
    rewrite <- !app_assoc in H. simpl in H. rewrite map_app in H. unfold left_of in H.
    simpl in H. rewrite last_snoc in H. apply H; try done. by left.
  - apply (insert_gap s tl l1 (x :: l2) t (λ _ b, threadlist_insertbeforenode t b)); try done.
    by right.
Qed.

(** [threadlist_remove] takes a thread out, leaving it on no list. *)
Theorem threadlist_remove_spec s tl t l1 l2 :
  is_list s tl (l1 ++ t :: l2) →
  ∃ s', threadlist_remove tl t s = Done tt s' ∧ is_list s' tl (l1 ++ l2) ∧
    detached s' t ∧ others_kept s s' tl (l1 ++ t :: l2).
Proof.
  intros Hl. pose proof (il_seg _ _ _ Hl) as Hs. rewrite map_app in Hs. simpl in Hs.
  pose proof (seg_gap _ _ (map t_listnode l1) (t_listnode t :: map t_listnode l2) _ Hs) as [_ Hp].
  pose proof Hs as Hs'. rewrite cons_middle, app_assoc in Hs'. apply seg_gap in Hs' as [Hn _].
  unfold left_of in Hn at 1. rewrite last_snoc in Hn. unfold right_of in Hp at 1. simpl in Hn, Hp.
  pose proof (il_nodup _ _ _ Hl) as Hnd. pose proof Hnd as Hnd'.
  rewrite <- Permutation_middle in Hnd'. apply NoDup_cons in Hnd' as [Hnt _].
  pose proof (node_ne_path tl _ t Hnt) as Hne. rewrite path_app in Hne.
  pose proof (left_of_elem (tl_head tl) (map t_listnode l1)) as Ha.
  pose proof (right_of_elem (map t_listnode l2) (tl_tail tl)) as Hb.
  destruct (removenode_unlinked s (left_of (tl_head tl) (map t_listnode l1))
    (right_of (map t_listnode l2) (tl_tail tl)) t) as (s1 & E & Hu);
    [| apply Hne; set_solver | apply Hne; set_solver | exact Hp | exact Hn |].
  { intros E. rewrite E in Ha. apply (path_nodup tl) in Hnd. rewrite path_app in Hnd.
    rewrite app_comm_cons in Hnd. apply NoDup_app in Hnd as (_ & Hd & _).
    apply (Hd _ Ha). set_solver. }
  unfold threadlist_remove. rewrite (bind_done _ _ _ _ _ E). by eapply unlink_list.
Qed.

(** The two ends: an empty list gives NULL and does not change; otherwise the
    first (last) thread is removed, returned and on no list. *)
Theorem threadlist_remhead_spec s tl l :
  is_list s tl l →
  match l with
  | [] => threadlist_remhead tl s = Done 0 s
  | t :: l' => ∃ s', threadlist_remhead tl s = Done t s' ∧ is_list s' tl l' ∧
      detached s' t ∧ others_kept s s' tl l
  end.
Proof.
  intros Hl. pose proof (il_seg _ _ _ Hl) as Hs. pose proof (il_tail _ _ _ Hl) as Ht.
  unfold threadlist_remhead, get_next, follow, deref, gets.
  destruct l as [|t l]; unfold mbind, M_bind; simpl in Hs.
  - destruct Hs as [-> _]. by rewrite Ht.
  - destruct (threadlist_remove_spec s tl t [] l Hl) as (s' & E & Hl' & Hd & Ho).
    destruct Hs as (-> & _ & Hs). rewrite bool_decide_false.
    2:{ destruct l; simpl in Hs; naive_solver. }
    unfold threadlist_remove, mbind, M_bind in E.
    destruct (threadlist_removenode (t_listnode t) s) as [[] s1 | | |]; try done.
    rewrite E. exists s'. split; [| done]. by destruct Hd as (-> & _ & _).
Qed.

Theorem threadlist_remtail_spec s tl l t :
  is_list s tl (l ++ [t]) →
  ∃ s', threadlist_remtail tl s = Done t s' ∧ is_list s' tl l ∧
    detached s' t ∧ others_kept s s' tl (l ++ [t]).
Proof.
  intros Hl. pose proof (il_seg _ _ _ Hl) as Hs.
  destruct (threadlist_remove_spec s tl t l [] Hl) as (s' & E & Hl' & Hd & Ho).
  rewrite app_nil_r in Hl'. rewrite map_app in Hs. simpl in Hs.
  pose proof (seg_gap _ _ (map t_listnode l) [t_listnode t] _ Hs) as [_ Hp].
  apply seg_app in Hs as [_ [_ Hq]]. simpl in Hp.
  unfold threadlist_remtail, get_prev, follow, deref, gets, mbind, M_bind. rewrite Hq.
  unfold right_of in Hp. simpl in Hp. rewrite Hp, bool_decide_false by done.
  unfold threadlist_remove, mbind, M_bind in E.
  destruct (threadlist_removenode (t_listnode t) s) as [[] s1 | | |]; try done.
  rewrite E. exists s'. split; [| done]. by destruct Hd as (-> & _ & _).
Qed.

(** A fresh list is empty. *)
Theorem threadlist_init_spec s tl :
  ∃ s', threadlist_init tl s = Done tt s' ∧ is_list s' tl [] ∧ others_kept s s' tl [].
Proof.
  eexists. split; [reflexivity |]. split.
  - split; simpl; rewrite ?Z.eqb_refl; try done; try lia;
      repeat (rewrite decide_True by done || rewrite decide_False by done); try done.
    + set_solver.
    + apply NoDup_nil_2.
  - apply frame_others; simpl.
    + intros p Hp. rewrite path_elem in Hp.
      repeat (rewrite decide_False by (intros ->; naive_solver)). done.
    + intros x Hx. by apply Z.eqb_neq in Hx as ->.
Qed.

(** ** A concrete run: two threads queued on an initialised list *)

Definition wit_s0 : tlstate := mkTl (λ p, match p with t_listnode t => mkNode None None t | _ => mkNode None None 0 end) (λ _, 7).

Definition run_state {A} (o : outcome tlstate A) : tlstate :=
  match o with Done _ s => s | _ => wit_s0 end.

Definition wit_s1 : tlstate := run_state ((threadlist_init 1 ;; threadlist_addtail 1 20) wit_s0).

Lemma wit_s1_list : is_list wit_s1 1 [20] ∧ detached wit_s1 30.
Proof.
  split; [| done]. split; try done; try (simpl; lia).
  - intros t Ht. by apply list_elem_of_singleton in Ht as ->.
  - apply NoDup_singleton.
Qed.

Lemma threadlist_addtail_spec_witness :
  ∃ s', threadlist_addtail 1 30 wit_s1 = Done tt s' ∧ is_list s' 1 ([20] ++ [30]) ∧
    others_kept wit_s1 s' 1 ([20] ++ [30]).
Proof. apply (threadlist_addtail_spec wit_s1 1 30 [20]); [apply wit_s1_list | apply wit_s1_list | simpl; lia]. Defined.

Lemma threadlist_remhead_spec_witness :
  ∃ s', threadlist_remhead 1 wit_s1 = Done 20 s' ∧ is_list s' 1 [] ∧
    detached s' 20 ∧ others_kept wit_s1 s' 1 [20].
Proof. apply (threadlist_remhead_spec wit_s1 1 [20]). apply wit_s1_list. Defined.

Lemma threadlist_remove_spec_witness :
  ∃ s', threadlist_remove 1 20 wit_s1 = Done tt s' ∧ is_list s' 1 ([] ++ []) ∧
    detached s' 20 ∧ others_kept wit_s1 s' 1 ([] ++ 20 :: []).
Proof. apply (threadlist_remove_spec wit_s1 1 20 [] []). apply wit_s1_list. Defined.

Lemma threadlist_insert_spec_witness :
  (∃ s', threadlist_insertafter 1 20 30 wit_s1 = Done tt s' ∧
     is_list s' 1 ([] ++ 20 :: 30 :: []) ∧ others_kept wit_s1 s' 1 ([] ++ 20 :: 30 :: [])) ∧
  (∃ s', threadlist_insertbefore 1 30 20 wit_s1 = Done tt s' ∧
     is_list s' 1 ([] ++ 30 :: 20 :: []) ∧ others_kept wit_s1 s' 1 ([] ++ 30 :: 20 :: [])).
Proof.
  apply (threadlist_insert_spec wit_s1 1 30 20 [] []);
    [apply wit_s1_list | apply wit_s1_list | simpl; lia].
Defined.

End ThreadList.
