(* ===== verification/KernTests.v ===== *)
(** * The kernel's unit tests of bitmaps and arrays (test/bitmaptest.c, test/arraytest.c)

    Each test is translated as it stands, with the results of random() as an argument,
    and shown to run to its end without a failed assertion whatever they are.  The proofs
    use the components' specifications and not their definitions. *)

From stdpp Require Import base list numbers strings.
From Stdlib Require Import ZArith Lia.
From S2P Require Import Prelude Bitmap Array.

#[local] Open Scope Z_scope.

Module KernTests.

Lemma twp_for_loop {S} (I : Z → S → Prop) (body : Z → M S unit) n : ∀ from s,
  I from s → (∀ i s, from <= i < from + Z.of_nat n → I i s → twp (body i) (λ _, I (i + 1)) s) →
  twp (for_loop n from body) (λ _, I (from + Z.of_nat n)) s.
Proof.
  induction n as [|n IH]; intros from s H0 Hb.
  { cbn. by rewrite Z.add_0_r. }
  cbn [for_loop]. apply twp_bind. eapply twp_mono; [| apply Hb; [lia | done]]. intros [] s1 H1.
  replace (from + Z.of_nat (Datatypes.S n)) with (from + 1 + Z.of_nat n) by lia. apply IH; [done |].
  intros i s' Hi. apply Hb. lia.
Qed.

Lemma twp_ret {S A} (a : A) (Q : A → S → Prop) s : Q a s → twp (mret a) Q s.
Proof. done. Qed.
Lemma twp_gets {S A} (f : S → A) (Q : A → S → Prop) s : Q (f s) s → twp (gets f) Q s.
Proof. done. Qed.
Lemma twp_modify {S} (f : S → S) (Q : unit → S → Prop) s : Q tt (f s) → twp (modify f) Q s.
Proof. done. Qed.
Lemma twp_kassert {S} b why (Q : unit → S → Prop) s : b = true → Q tt s → twp (kassert b why) Q s.
Proof. by intros ->. Qed.
Lemma twp_done {S A} (m : M S A) a s s' (Q : A → S → Prop) : m s = Done a s' → Q a s' → twp m Q s.
Proof. unfold twp. by intros ->. Qed.
Lemma twp_zoom {S T A} (get : S → T) set (m : M T A) (Q : A → S → Prop) s :
  twp m (λ a t, Q a (set t s)) (get s) → twp (zoom get set m) Q s.
Proof. unfold twp, zoom. by destruct (m (get s)). Qed.

Ltac twp_step :=
  match goal with
  | |- twp (mbind _ _) _ _ => apply twp_bind
  | |- twp (mret _) _ _ => apply twp_ret
  | |- twp (gets _) _ _ => apply twp_gets
  | |- twp (modify _) _ _ => apply twp_modify
  | |- twp (kassert _ _) _ _ => apply twp_kassert
  end; cbv beta.
Ltac twp_steps := repeat twp_step.
Ltac call H := apply twp_bind; eapply twp_mono; [| eapply H]; cbv beta.
Ltac call_done H := apply twp_bind; eapply twp_done; [by eapply H |].

(** ** bitmaptest.c *)

Module BitmapTest.
Import Bitmap.

Definition TESTSIZE : Z := 533.

Record state := mkS { b : bitmap; data : list Z }.
Definition with_b x s := mkS x (data s).
Definition set_data (i x : Z) (s : state) := mkS (b s) (<[Z.to_nat i := x]> (data s)).
Definition data_at (s : state) (i : Z) : Z := default 0 (data s !! Z.to_nat i).
Definition on_b {A} (m : M bitmap A) : M state A := zoom b with_b m.
Definition isset (i : Z) : M state Z := gets (λ s, bitmap_isset (b s) i).

Definition each (body : Z → M state unit) : M state unit := for_loop (Z.to_nat TESTSIZE) 0 body.

Fixpoint alloc_loop (fuel : nat) : M state unit :=
  match fuel with
  | O => nofuel
  | S fuel' =>
      r ← on_b bitmap_alloc;
      match r with
      | inr x =>
          kassert (x <? TESTSIZE) "x < TESTSIZE" ;;
          y ← isset x; kassert (c_bool y) "bitmap_isset(b, x)" ;;
          d ← gets (λ s, data_at s x); kassert (d =? 1) "data[x]==1" ;;
          modify (set_data x 0) ;;
          alloc_loop fuel'
      | inl _ => mret tt
      end
  end.

(** [rnd i]: the i-th result of random(); [mem1], [mem2]: whether bitmap_create gets
    memory. *)
Definition bitmaptest (rnd : Z → Z) (mem1 mem2 : bool) : M state Z :=
  each (λ i, modify (set_data i (rnd i mod 2))) ;;
  match bitmap_create mem1 mem2 TESTSIZE tt with
  | Done (Some x) _ => modify (with_b x)
  | Panic w => panic w
  | _ => panic "b != NULL"
  end ;;
  each (λ i, x ← isset i; kassert (x =? 0) "bitmap_isset(b, i)==0") ;;
  each (λ i, d ← gets (λ s, data_at s i); if c_bool d then on_b (bitmap_mark i) else mret tt) ;;
  each (λ i, d ← gets (λ s, data_at s i);
    x ← isset i;
    if c_bool d then kassert (c_bool x) "bitmap_isset(b, i)"
    else kassert (x =? 0) "bitmap_isset(b, i)==0") ;;
  each (λ i, d ← gets (λ s, data_at s i);
    if c_bool d then on_b (bitmap_unmark i) else on_b (bitmap_mark i)) ;;
  each (λ i, d ← gets (λ s, data_at s i);
    x ← isset i;
    if c_bool d then kassert (x =? 0) "bitmap_isset(b, i)==0"
    else kassert (c_bool x) "bitmap_isset(b, i)") ;;
  alloc_loop (S (Z.to_nat TESTSIZE)) ;;
  each (λ i, x ← isset i; kassert (c_bool x) "bitmap_isset(b, i)" ;;
    d ← gets (λ s, data_at s i); kassert (d =? 0) "data[i]==0") ;;
  mret 0.

(** The test data are bits, and the marks of the map are [m]. *)
Record holds (m : state → Z → bool) (s : state) : Prop := {
  h_len : length (data s) = Z.to_nat TESTSIZE;
  h_bit i : 0 <= i < TESTSIZE → data_at s i = 0 ∨ data_at s i = 1;
  h_wf : wf (b s);
  h_n : nbits (b s) = TESTSIZE;
  h_m i : 0 <= i < TESTSIZE → marked (b s) i = m s i
}.

Lemma data_at_set s i x j :
  length (data s) = Z.to_nat TESTSIZE → 0 <= i < TESTSIZE → 0 <= j →
  data_at (set_data i x s) j = if i =? j then x else data_at s j.
Proof.
  intros Hl Hi Hj. unfold data_at, set_data. cbn [data]. destruct (Z.eqb_spec i j) as [-> |].
  - by rewrite list_lookup_insert_eq by lia.
  - by rewrite list_lookup_insert_ne by lia.
Qed.

(** One loop over the map: it changes the marks [m] to [m'], index by index. *)
Lemma each_marks (m m' : state → Z → bool) (body : Z → M state unit) s :
  holds m s →
  (∀ i s1, 0 <= i < TESTSIZE → data s1 = data s →
     holds (λ s2 j, if j <? i then m' s2 j else m s2 j) s1 →
     twp (body i) (λ _ s2, data s2 = data s ∧ wf (b s2) ∧ nbits (b s2) = TESTSIZE ∧
       ∀ j, 0 <= j < TESTSIZE → marked (b s2) j = if j =? i then m' s2 i else marked (b s1) j) s1) →
  (∀ s1 s2, data s1 = data s2 → m s1 = m s2) → (∀ s1 s2, data s1 = data s2 → m' s1 = m' s2) →
  twp (each body) (λ _ s', data s' = data s ∧ holds m' s') s.
Proof.
  intros Hh Hb Hm Hm'. eapply twp_mono; [| apply (twp_for_loop (λ i s1, data s1 = data s ∧
    holds (λ s2 j, if j <? i then m' s2 j else m s2 j) s1))].
  - intros [] s' [Hd H]. split; [done |]. split; try apply H. intros i Hi. rewrite (h_m _ _ H i Hi).
    change (0 + Z.of_nat (Z.to_nat TESTSIZE)) with TESTSIZE. by rewrite (proj2 (Z.ltb_lt i TESTSIZE)) by lia.
  - split; [done |]. split; try apply Hh. intros i Hi. rewrite (h_m _ _ Hh i Hi).
    by rewrite (proj2 (Z.ltb_ge i 0)) by lia.
  - intros i s1 Hi [Hd H]. eapply twp_mono; [| apply Hb; [unfold TESTSIZE in *; lia | done | done]].
    intros [] s2 (Hd2 & Hwf & Hn & Hj). split; [done |]. assert (data_at s2 = data_at s1) as Ed
      by (unfold data_at; by rewrite Hd2, Hd).
    split; [by rewrite Hd2, <- Hd; apply H | intros j Hjr; rewrite Ed; by apply H | done | done |].
    intros j Hjr. rewrite (Hj j Hjr), (h_m _ _ H j Hjr). rewrite (Hm s1 s2), (Hm' s1 s2) by congruence.
    destruct (Z.eqb_spec j i) as [-> |]; [by rewrite (proj2 (Z.ltb_lt i (i + 1))) by lia |].
    destruct (Z.ltb_spec j i), (Z.ltb_spec j (i + 1)); done || lia.
Qed.

(** A loop that only checks. *)
Lemma each_checks (m : state → Z → bool) (body : Z → M state unit) s :
  holds m s →
  (∀ i, 0 <= i < TESTSIZE → body i s = Done tt s) → twp (each body) (λ _ s', s' = s) s.
Proof.
  intros _ Hb. apply (twp_for_loop (λ _ s', s' = s)); [done |]. intros i s1 Hi ->.
  eapply twp_done; [apply Hb; unfold TESTSIZE in *; lia | done].
Qed.

Lemma isset_run i s : isset i s = Done (bitmap_isset (b s) i) s.
Proof. done. Qed.

Definition is_one (x : Z) : bool := c_bool x.

(** The free bits of the map are those whose datum is 1; each turn of the loop takes one. *)
Lemma alloc_loop_run fuel : ∀ s,
  holds (λ s i, negb (is_one (data_at s i))) s → countb is_one (data s) < Z.of_nat fuel →
  twp (alloc_loop fuel) (λ _ s', holds (λ s i, true) s' ∧ ∀ i, 0 <= i < TESTSIZE → data_at s' i = 0) s.
Proof.
  induction fuel as [|fuel IH]; intros s Hh Hf.
  { pose proof (countb_range is_one (data s)). lia. }
  cbn [alloc_loop]. apply twp_bind. unfold on_b. apply twp_zoom.
  destruct (bitmap_alloc_spec (b s) (h_wf _ _ Hh)) as [(x & b' & E & Hwf & Hn & Hx & Hfree & _ & Hm) | [E Hall]];
    eapply twp_done; [exact E | | exact E |].
  - rewrite (h_n _ _ Hh) in Hx. rewrite (h_m _ _ Hh x Hx) in Hfree. apply negb_false_iff in Hfree.
    assert (data_at s x = 1) as Hd1 by (destruct (h_bit _ _ Hh x Hx) as [E0 |]; [by rewrite E0 in Hfree | done]).
    cbv beta iota. unfold isset. twp_steps; [lia | | by apply Z.eqb_eq |].
    { cbn [b with_b]. rewrite bitmap_isset_spec by lia. by rewrite Hm, Z.eqb_refl by lia. }
    set (s1 := with_b b' s).
    assert (length (data s1) = Z.to_nat TESTSIZE) as Hl by apply Hh.
    apply IH.
    + split.
      * cbn. rewrite length_insert. apply Hh.
      * intros i Hi. rewrite data_at_set by (done || lia). destruct (x =? i); [by left | by apply Hh].
      * done.
      * by rewrite <- (h_n _ _ Hh).
      * intros i Hi. rewrite data_at_set by (done || lia). cbn [b set_data s1 with_b]. rewrite Hm by lia.
        destruct (x =? i); [done |]. by apply (h_m _ _ Hh).
    + cbn [data set_data s1 with_b]. assert (data s !! Z.to_nat x = Some 1) as Hl1.
      { unfold data_at in Hd1. destruct (data s !! Z.to_nat x); [cbn in Hd1; by subst | done]. }
      rewrite (countb_insert is_one _ _ 0 1) by done. cbn. lia.
  - cbv beta iota. twp_steps. replace (with_b (b s) s) with s by (by destruct s).
    rewrite (h_n _ _ Hh) in Hall. assert (∀ i, 0 <= i < TESTSIZE → data_at s i = 0) as H0.
    { intros i Hi. pose proof (h_m _ _ Hh i Hi) as Em. rewrite (Hall i Hi) in Em.
      destruct (h_bit _ _ Hh i Hi) as [| E1]; [done |]. by rewrite E1 in Em. }
    split; [| done]. split; apply Hh || auto.
Qed.

Lemma c_bool_0 x : (x =? 0) = negb (c_bool x).
Proof. unfold c_bool. by rewrite negb_involutive. Qed.

(** The marks before the first loop, after it, and after they have been turned over. *)
Definition none (s : state) (i : Z) : bool := false.
Definition same (s : state) (i : Z) : bool := is_one (data_at s i).
Definition turned (s : state) (i : Z) : bool := negb (is_one (data_at s i)).

Lemma same_ext s1 s2 : data s1 = data s2 → same s1 = same s2.
Proof. unfold same, data_at. by intros ->. Qed.
Lemma turned_ext s1 s2 : data s1 = data s2 → turned s1 = turned s2.
Proof. unfold turned, data_at. by intros ->. Qed.

Lemma fill_run rnd s :
  length (data s) = Z.to_nat TESTSIZE →
  twp (each (λ i, modify (set_data i (rnd i mod 2)))) (λ _ s',
    length (data s') = Z.to_nat TESTSIZE ∧ ∀ i, 0 <= i < TESTSIZE → data_at s' i = 0 ∨ data_at s' i = 1) s.
Proof.
  intros Hl. eapply twp_mono; [| apply (twp_for_loop (λ i s1, length (data s1) = Z.to_nat TESTSIZE ∧
    ∀ j, 0 <= j < i → data_at s1 j = 0 ∨ data_at s1 j = 1))].
  - intros [] s' [H1 H2]. split; [done |]. intros i Hi. apply H2. unfold TESTSIZE in *. lia.
  - split; [done |]. intros j Hj. lia.
  - intros i s1 Hi [H1 H2]. twp_steps. split; [cbn; by rewrite length_insert |]. intros j Hj.
    rewrite data_at_set by (done || unfold TESTSIZE in *; lia). destruct (Z.eqb_spec i j) as [-> |]; [| apply H2; lia].
    pose proof (Z.mod_pos_bound (rnd j) 2 ltac:(lia)). lia.
Qed.

Lemma mark_loop_run s :
  holds none s →
  twp (each (λ i, d ← gets (λ s, data_at s i); if c_bool d then on_b (bitmap_mark i) else mret tt))
    (λ _ s', data s' = data s ∧ holds same s') s.
Proof.
  intros Hh. apply (each_marks none same); [done | | done | exact same_ext].
  intros i s1 Hi Hd H1. pose proof (h_wf _ _ H1) as Hwf. pose proof (h_n _ _ H1) as Hn. twp_steps.
  pose proof (h_m _ _ H1 i Hi) as Em. cbv beta in Em. rewrite (proj2 (Z.ltb_ge i i)) in Em by lia.
  destruct (c_bool (data_at s1 i)) eqn:Ec.
  - apply twp_zoom. eapply twp_done; [rewrite bitmap_mark_spec, Em by (done || lia); done |].
    split; [done |]. split; [apply wf_set_bit; [done | lia] |]. split; [done |].
    intros j Hj. cbn [b with_b]. rewrite marked_set_bit by (done || lia). rewrite (Z.eqb_sym i j).
    destruct (Z.eqb_spec j i) as [-> |]; [| done]. unfold same, is_one. cbn. symmetry. exact Ec.
  - twp_steps. split; [done |]. split; [done |]. split; [done |]. intros j Hj.
    destruct (Z.eqb_spec j i) as [-> |]; [| done]. rewrite Em. unfold same, is_one. by rewrite Ec.
Qed.

Lemma turn_loop_run s :
  holds same s →
  twp (each (λ i, d ← gets (λ s, data_at s i);
      if c_bool d then on_b (bitmap_unmark i) else on_b (bitmap_mark i)))
    (λ _ s', data s' = data s ∧ holds turned s') s.
Proof.
  intros Hh. apply (each_marks same turned); [done | | exact same_ext | exact turned_ext].
  intros i s1 Hi Hd H1. pose proof (h_wf _ _ H1) as Hwf. pose proof (h_n _ _ H1) as Hn. twp_steps.
  pose proof (h_m _ _ H1 i Hi) as Em. cbv beta in Em. rewrite (proj2 (Z.ltb_ge i i)) in Em by lia.
  unfold same, is_one in Em. destruct (c_bool (data_at s1 i)) eqn:Ec; apply twp_zoom.
  - eapply twp_done; [rewrite bitmap_unmark_spec, Em by (done || lia); done |].
    split; [done |]. split; [apply wf_clear_bit; [done | lia] |]. split; [done |].
    intros j Hj. cbn [b with_b]. rewrite marked_clear_bit by (done || lia). rewrite (Z.eqb_sym i j).
    destruct (Z.eqb_spec j i) as [-> |]; [| done]. unfold turned, is_one. cbn.
    change (data_at (with_b _ s1) i) with (data_at s1 i). by rewrite Ec.
  - eapply twp_done; [rewrite bitmap_mark_spec, Em by (done || lia); done |].
    split; [done |]. split; [apply wf_set_bit; [done | lia] |]. split; [done |].
    intros j Hj. cbn [b with_b]. rewrite marked_set_bit by (done || lia). rewrite (Z.eqb_sym i j).
    destruct (Z.eqb_spec j i) as [-> |]; [| done]. unfold turned, is_one.
    change (data_at (with_b _ s1) i) with (data_at s1 i). by rewrite Ec.
Qed.

(** The bitmap test passes whatever random() gives: no assertion fails, and the loop that
    allocates the free bits ends. *)
Lemma bitmaptest_passes rnd s :
  length (data s) = Z.to_nat TESTSIZE → twp (bitmaptest rnd true true) (λ r _, r = 0) s.
Proof.
  intros Hl. unfold bitmaptest. apply twp_bind. eapply twp_mono; [| by apply fill_run]. intros [] s1 [Hl1 Hb1].
  destruct (bitmap_create_spec TESTSIZE ltac:(done)) as (bm & -> & Hwf & Hn & Hm). apply twp_bind. twp_steps.
  assert (holds none (with_b bm s1)) as H2 by (by split).
  revert H2. generalize (with_b bm s1). intros s2 H2.
  eapply twp_mono; [| apply (each_checks none _ s2 H2)].
  2: { intros i Hi. unfold mbind, M_bind. rewrite isset_run. unfold kassert. rewrite c_bool_0, bitmap_isset_spec by lia.
       by rewrite (h_m _ _ H2 i Hi). }
  intros [] ? ->. apply twp_bind. eapply twp_mono; [| by apply mark_loop_run]. intros [] s3 [Hd3 H3].
  apply twp_bind. eapply twp_mono; [| apply (each_checks same _ s3 H3)].
  2: { intros i Hi. unfold mbind, M_bind, gets. rewrite isset_run. unfold kassert. rewrite c_bool_0, bitmap_isset_spec by lia.
       rewrite (h_m _ _ H3 i Hi). unfold same, is_one. by destruct (c_bool (data_at s3 i)). }
  intros [] ? ->. apply twp_bind. eapply twp_mono; [| by apply turn_loop_run]. intros [] s4 [Hd4 H4].
  apply twp_bind. eapply twp_mono; [| apply (each_checks turned _ s4 H4)].
  2: { intros i Hi. unfold mbind, M_bind, gets. rewrite isset_run. unfold kassert. rewrite c_bool_0, bitmap_isset_spec by lia.
       rewrite (h_m _ _ H4 i Hi). unfold turned, is_one. by destruct (c_bool (data_at s4 i)). }
  intros [] ? ->. apply twp_bind. eapply twp_mono; [| apply alloc_loop_run; [exact H4 |]].
  2: { pose proof (countb_range is_one (data s4)) as Hc. rewrite (h_len _ _ H4) in Hc. lia. }
  intros [] s5 [H5 H0]. apply twp_bind. eapply twp_mono; [| apply (each_checks _ _ s5 H5)]; [by intros [] ? -> |].
  intros i Hi. unfold mbind, M_bind, gets. rewrite isset_run. unfold kassert. rewrite bitmap_isset_spec by lia.
  rewrite (h_m _ _ H5 i Hi). unfold mret, M_ret. by rewrite (H0 i Hi).
Qed.
End BitmapTest.

(** ** arraytest.c *)

Module ArrayTest.
Import Array.

Definition TESTSIZE : Z := 73.
Definition BIGTESTSIZE : Z := 3000.
Definition NTH (i : Z) : Z := 0xb007 + 3 * i.

Section arraytest.
Variable kmalloc_block : Z → option (list Z).
Abbreviation A := (M array).
Abbreviation add := (array_add kmalloc_block).
Abbreviation setsize := (array_setsize kmalloc_block).

(** [arr] is the address of the local array [testarray], in which entry [i] is [i]. *)
Section testa.
Variable arr : Z.

Definition testarray (i : Z) : Z := arr + 4 * i.
Definition load_int (p : Z) : A Z :=
  if (arr <=? p) && (p <? arr + 4 * TESTSIZE) && ((p - arr) mod 4 =? 0) then mret ((p - arr) / 4)
  else panic "bad pointer".
Definition check_num (n : Z) : A unit := k ← array_num; kassert (k =? n) "array_num".
Definition check_get (i x : Z) : A unit :=
  p ← array_get i; y ← load_int p; kassert (y =? x) "*p".

(** [rnd j]: the j-th result of random(). *)
Definition testa (rnd : Z → Z) : A unit :=
  check_num 0 ;;
  for_loop (Z.to_nat TESTSIZE) 0 (λ i,
    r ← add (testarray i); kassert (r.1 =? 0) "r==0" ;; check_num (i + 1)) ;;
  check_num TESTSIZE ;;
  for_loop (Z.to_nat TESTSIZE) 0 (λ i, check_get i i) ;;
  check_num TESTSIZE ;;
  for_loop (Z.to_nat (TESTSIZE * 4)) 0 (λ j,
    let i := rnd j mod TESTSIZE in check_get i i) ;;
  check_num TESTSIZE ;;
  for_loop (Z.to_nat TESTSIZE) 0 (λ i, array_set i (testarray (TESTSIZE - i - 1))) ;;
  for_loop (Z.to_nat TESTSIZE) 0 (λ i, check_get i (TESTSIZE - i - 1)) ;;
  r ← setsize (TESTSIZE / 2); kassert (r =? 0) "r==0" ;;
  for_loop (Z.to_nat (TESTSIZE / 2)) 0 (λ i, check_get i (TESTSIZE - i - 1)) ;;
  array_remove 1 ;;
  for_loop (Z.to_nat (TESTSIZE / 2 - 2)) 1 (λ i, check_get i (TESTSIZE - i - 2)) ;;
  check_get 0 (TESTSIZE - 1) ;;
  setsize 2 ;;
  check_get 0 (TESTSIZE - 1) ;;
  check_get 1 (TESTSIZE - 3) ;;
  array_set 1 0 ;;
  setsize 2 ;;
  check_get 0 (TESTSIZE - 1) ;;
  p ← array_get 1; kassert (p =? 0) "p==NULL" ;;
  setsize (TESTSIZE * 10) ;;
  check_get 0 (TESTSIZE - 1) ;;
  p ← array_get 1; kassert (p =? 0) "p==NULL".
End testa.

(** [mem]: whether array_create gets memory; the two calls of testa have their local
    array at the same place. *)
Definition arraytest (mem : bool) (arr : Z) (rnd1 rnd2 : Z → Z) : A Z :=
  kassert mem "a != NULL" ;;
  modify (λ _, array_init) ;;
  testa arr rnd1 ;;
  setsize 0 ;;
  testa arr rnd2 ;;
  setsize 0 ;;
  array_cleanup ;;
  mret 0.

Definition arraytest2 (mem : bool) : A Z :=
  kassert mem "a != NULL" ;;
  modify (λ _, array_init) ;;
  let p := 0xc0ffee in
  for_loop (Z.to_nat BIGTESTSIZE) 0 (λ i,
    r ← add p; kassert (r.1 =? 0) "result == 0" ;; kassert (r.2 =? i) "x == i") ;;
  check_num BIGTESTSIZE ;;
  for_loop (Z.to_nat BIGTESTSIZE) 0 (λ i, q ← array_get i; kassert (q =? p) "array_get(a, i) == p") ;;
  r ← setsize 0; kassert (r =? 0) "result == 0" ;;
  r ← setsize BIGTESTSIZE; kassert (r =? 0) "result == 0" ;;
  for_loop (Z.to_nat BIGTESTSIZE) 0 (λ i, array_set i (NTH i)) ;;
  for_loop (Z.to_nat BIGTESTSIZE) 0 (λ i, q ← array_get i; kassert (q =? NTH i) "array_get(a, i) == NTH(i)") ;;
  array_remove 1 ;;
  q ← array_get 0; kassert (q =? NTH 0) "array_get(a, 0) == NTH(0)" ;;
  check_num (BIGTESTSIZE - 1) ;;
  for_loop (Z.to_nat (BIGTESTSIZE - 2)) 1 (λ i,
    q ← array_get i; kassert (q =? NTH (i + 1)) "array_get(a, i) == NTH(i+1)") ;;
  r ← setsize (BIGTESTSIZE * 2); kassert (r =? 0) "result == 0" ;;
  q ← array_get 0; kassert (q =? NTH 0) "array_get(a, 0) == NTH(0)" ;;
  for_loop (Z.to_nat (BIGTESTSIZE - 2)) 1 (λ i,
    q ← array_get i; kassert (q =? NTH (i + 1)) "array_get(a, i) == NTH(i+1)") ;;
  r ← setsize 0; kassert (r =? 0) "result == 0" ;;
  array_cleanup ;;
  mret 0.

(** kmalloc gives every block asked for, of at most 2^K words; of larger blocks nothing
    is known.  A page is K = 10. *)
Context (K : Z) (HK : 10 <= K <= 29).
Context (Hmem : ∀ sz, 0 <= sz <= 2 ^ K * SIZEOF_PTR →
  ∃ b, kmalloc_block sz = Some b ∧ Z.of_nat (length b) = sz / SIZEOF_PTR).

Lemma K_small n : n <= 2 ^ 10 → n <= 2 ^ K.
Proof using HK. intros H. pose proof (Z.pow_le_mono_r 2 10 K). lia. Qed.

Lemma blocks sz b :
  0 <= sz <= 2 ^ K * SIZEOF_PTR → kmalloc_block sz = Some b → Z.of_nat (length b) = sz / SIZEOF_PTR.
Proof using Hmem HK. intros H E. destruct (Hmem sz H) as (b' & E' & ?). congruence. Qed.

(** Of the [n] elements the first [k] are known: element [i] is [f i]. *)
Record knows (f : Z → Z) (k n : Z) (a : array) : Prop := {
  kn_ok : array_ok a;
  kn_max : max a <= 2 ^ K;
  kn_num : num a = n;
  kn_k : 0 <= k <= n;
  kn_at i : 0 <= i < k → contents a !! Z.to_nat i = Some (f i)
}.

Lemma knows_get f k n a i : knows f k n a → 0 <= i < k → array_get i a = Done (f i) a.
Proof.
  intros [Hok Hmx Hn Hk Hat] Hi. pose proof (Hat i Hi) as E. unfold contents in E. apply lookup_take_Some in E as [E _].
  unfold array_get, gets, kassert, deref, mbind, M_bind. rewrite (proj2 (Z.ltb_lt i (num a))) by lia.
  unfold mret, M_ret. by rewrite E.
Qed.

(** Within the bound the memory is there. *)
Lemma preallocate_0 n a r a' :
  array_ok a → max a <= 2 ^ K → n <= 2 ^ K → array_preallocate kmalloc_block n a = Done r a' → r = 0.
Proof using Hmem HK.
  intros Ha Hm Hn. unfold array_preallocate, mbind, M_bind, gets, id.
  destruct (Z.ltb_spec (max a) n) as [Hlt |]; [| by intros [= <- _]].
  destruct (grow_ok K a n a Ha ltac:(lia) Hm ltac:(lia)) as (k & Hk & _ & _ & ->).
  assert (2 ^ k <= 2 ^ K) by (apply Z.pow_le_mono_r; lia). assert (0 < 2 ^ k) by (apply Z.pow_pos_nonneg; lia).
  assert (2 ^ K <= 2 ^ 29) by (apply Z.pow_le_mono_r; lia).
  rewrite u32_small by (unfold SIZEOF_PTR; lia).
  destruct (Hmem (2 ^ k * SIZEOF_PTR)) as (b & -> & _); [unfold SIZEOF_PTR; lia |].
  unfold kassert. destruct (num a <=? _); [by intros [= <- _] | done].
Qed.

Lemma setsize_0 n a r a' :
  array_ok a → max a <= 2 ^ K → n <= 2 ^ K → setsize n a = Done r a' → r = 0.
Proof using Hmem HK.
  intros Ha Hm Hn. unfold array_setsize. intros (r1 & a1 & E1 & E2)%bind_done_inv.
  apply preallocate_0 in E1 as ->; [by injection E2 | done..].
Qed.

Lemma add_0 x a r a' :
  array_ok a → max a <= 2 ^ K → num a < 2 ^ K → add x a = Done r a' → r.1 = 0.
Proof using Hmem HK.
  intros Ha Hm Hn. pose proof (ao_num _ Ha). assert (2 ^ K <= 2 ^ 29) by (apply Z.pow_le_mono_r; lia).
  unfold array_add. intros (i & a1 & E1 & (r2 & a2 & E2 & E3)%bind_done_inv)%bind_done_inv.
  injection E1 as <- <-. rewrite u32_small in E2 by lia.
  apply setsize_0 in E2 as ->; [| done | done | lia]. cbn in E3.
  apply bind_done_inv in E3 as (? & ? & _ & E3). by injection E3 as <- _.
Qed.

Lemma knows_add f n a x :
  knows f n n a → n < 2 ^ K →
  twp (add x) (λ r a', r = (0, n) ∧ knows (λ i, if i =? n then x else f i) (n + 1) (n + 1) a') a.
Proof using Hmem HK.
  intros [Hok Hmx Hn Hk Hat] Hb.
  destruct (array_add_spec kmalloc_block K ltac:(lia) blocks a x Hok Hmx ltac:(lia)) as (r & i & a' & E & Hok' & Hmx' & Hr).
  pose proof (add_0 _ _ _ _ Hok Hmx ltac:(lia) E) as H0. cbn in H0. destruct Hr as [(_ & -> & Hc) | [-> _]]; [| done].
  eapply twp_done; [exact E |]. rewrite H0, Hn. split; [done |]. pose proof (length_contents a Hok) as Hl.
  split; [done | done | | lia |].
  - rewrite <- (length_contents a' Hok'), Hc, length_app. cbn. lia.
  - intros j Hj. rewrite Hc. destruct (Z.eqb_spec j n) as [-> |].
    + rewrite lookup_app_r by lia. by replace (Z.to_nat n - length (contents a))%nat with 0%nat by lia.
    + rewrite lookup_app_l by lia. apply Hat. lia.
Qed.

Lemma knows_setsize f k n a m :
  knows f k n a → 0 <= m <= 2 ^ K → twp (setsize m) (λ r a', r = 0 ∧ knows f (k `min` m) m a') a.
Proof using Hmem HK.
  intros [Hok Hmx Hn Hk Hat] Hm.
  destruct (array_setsize_spec kmalloc_block K ltac:(lia) blocks a m Hok Hmx Hm) as (r & a' & E & Hok' & Hmx' & Hr).
  assert (r = 0) as -> by exact (setsize_0 m a r a' Hok Hmx (proj2 Hm) E). destruct Hr as [(_ & Hn' & Hc) | [? _]]; [| done].
  eapply twp_done; [exact E |]. split; [done |]. split; [done | done | done | lia |]. intros i Hi.
  rewrite <- (lookup_take_lt _ (Z.to_nat (num a))), Hc, lookup_take_lt by lia. apply Hat. lia.
Qed.

Lemma set_max i x a a' : array_set i x a = Done tt a' → max a' = max a.
Proof.
  intros E. refine (wlp_done _ (λ _ a', max a' = max a) (λ _, True) _ _ _ E _).
  unfold array_set, store_v. by repeat wstep.
Qed.
Lemma remove_max i a a' : array_remove i a = Done tt a' → max a' = max a.
Proof.
  intros E. refine (wlp_done _ (λ _ a', max a' = max a) (λ _, True) _ _ _ E _).
  unfold array_remove. by repeat wstep.
Qed.

Lemma knows_set f k n a i x :
  knows f k n a → 0 <= i <= k → i < n →
  twp (array_set i x) (λ _ a', knows (λ j, if j =? i then x else f j) (k `max` (i + 1)) n a') a.
Proof.
  intros [Hok Hmx Hn Hk Hat] Hi Hin. destruct (array_set_get a i x Hok ltac:(lia)) as (a' & E & Hok' & Hc & _).
  eapply twp_done; [exact E |]. pose proof (length_contents a Hok) as Hl.
  split; [done | by rewrite (set_max _ _ _ _ E) | | lia |].
  - rewrite <- (length_contents a' Hok'), Hc, length_insert. lia.
  - intros j Hj. rewrite Hc. destruct (Z.eqb_spec j i) as [-> |].
    + by rewrite list_lookup_insert_eq by lia.
    + rewrite list_lookup_insert_ne by lia. apply Hat. lia.
Qed.

Lemma knows_remove f k n a i :
  knows f k n a → 0 <= i < k →
  twp (array_remove i) (λ _ a', knows (λ j, if j <? i then f j else f (j + 1)) (k - 1) (n - 1) a') a.
Proof.
  intros [Hok Hmx Hn Hk Hat] Hi. destruct (array_remove_spec a i Hok ltac:(lia)) as (a' & E & Hok' & Hc).
  eapply twp_done; [exact E |]. pose proof (length_contents a Hok) as Hl.
  split; [done | by rewrite (remove_max _ _ _ E) | | lia |].
  - rewrite <- (length_contents a' Hok'), Hc, length_delete by (apply lookup_lt_is_Some; lia). lia.
  - intros j Hj. rewrite Hc. destruct (Z.ltb_spec j i).
    + rewrite list_lookup_delete_lt by lia. apply Hat. lia.
    + rewrite list_lookup_delete_ge by lia. rewrite <- (Hat (j + 1)) by lia. f_equal. lia.
Qed.

Lemma knows_ext f g k n a : (∀ i, 0 <= i < k → f i = g i) → knows f k n a → knows g k n a.
Proof. intros E [? ? ? ? Hat]. split; try done. intros i Hi. rewrite <- E by done. by apply Hat. Qed.

Lemma knows_empty f : knows f 0 0 array_init.
Proof using HK. split; [apply array_init_ok | by apply K_small | done | done | lia]. Qed.

Lemma checks_run n (body : Z → A unit) from a :
  (∀ i, from <= i < from + Z.of_nat n → body i a = Done tt a) → twp (for_loop n from body) (λ _ a', a' = a) a.
Proof.
  intros Hb. apply (twp_for_loop (λ _ a', a' = a)); [done |]. intros i a1 Hi ->. by eapply twp_done; [apply Hb |].
Qed.

Lemma check_num_run f k n a : knows f k n a → check_num n a = Done tt a.
Proof.
  intros H. unfold check_num, array_num, gets, kassert, mbind, M_bind. by rewrite (kn_num _ _ _ _ H), Z.eqb_refl.
Qed.

Lemma check_get_run arr f k n a i x :
  knows f k n a → 0 <= i < k → f i = testarray arr x → 0 <= x < TESTSIZE → check_get arr i x a = Done tt a.
Proof.
  intros H Hi Hf Hx. unfold check_get, mbind, M_bind. rewrite (knows_get f k n) by done. rewrite Hf.
  unfold load_int, testarray. rewrite (proj2 (Z.leb_le _ _)), (proj2 (Z.ltb_lt _ _)) by lia.
  replace (arr + 4 * x - arr) with (x * 4) by lia. rewrite Z.mod_mul, Z.div_mul by lia. cbn. by rewrite Z.eqb_refl.
Qed.

Ltac same_state := intros [] ? ->.
Ltac range := split; [vm_compute; congruence | apply K_small; vm_compute; congruence].

Section loops.
Variable arr : Z.

Lemma add_loop_run a f0 :
  knows f0 0 0 a →
  twp (for_loop (Z.to_nat TESTSIZE) 0 (λ i,
      r ← add (testarray arr i); kassert (r.1 =? 0) "r==0" ;; check_num (i + 1)))
    (λ _, knows (testarray arr) TESTSIZE TESTSIZE) a.
Proof using Hmem HK.
  intros H0. apply (twp_for_loop (λ i, knows (testarray arr) i i)).
  { eapply knows_ext; [| exact H0]. intros; lia. }
  intros i a1 Hi H1. unfold TESTSIZE in Hi. apply twp_bind.
  eapply twp_mono; [| apply (knows_add _ _ _ (testarray arr i) H1); pose proof (K_small 1024); lia]. intros r a2 [-> H2].
  apply twp_bind, twp_kassert; [done |]. eapply twp_done; [by eapply check_num_run |].
  eapply knows_ext; [| exact H2]. intros j _. cbn. destruct (Z.eqb_spec j i) as [-> |]; done.
Qed.

Lemma set_loop_run a :
  knows (testarray arr) TESTSIZE TESTSIZE a →
  twp (for_loop (Z.to_nat TESTSIZE) 0 (λ i, array_set i (testarray arr (TESTSIZE - i - 1))))
    (λ _, knows (λ j, testarray arr (TESTSIZE - j - 1)) TESTSIZE TESTSIZE) a.
Proof.
  intros H1. eapply twp_mono; [| apply (twp_for_loop (λ i,
    knows (λ j, testarray arr (if j <? i then TESTSIZE - j - 1 else j)) TESTSIZE TESTSIZE))].
  - intros [] a2 H2. eapply knows_ext; [| exact H2]. intros j Hj. cbv beta.
    change (0 + Z.of_nat (Z.to_nat TESTSIZE)) with TESTSIZE. by rewrite (proj2 (Z.ltb_lt j TESTSIZE)) by lia.
  - eapply knows_ext; [| exact H1]. intros j Hj. cbv beta. by rewrite (proj2 (Z.ltb_ge j 0)) by lia.
  - intros i a2 Hi H2. eapply twp_mono; [| eapply (knows_set _ _ _ _ i _ H2); unfold TESTSIZE in *; lia].
    intros [] a3 H3. cbv beta in *. rewrite Z.max_l in H3 by (unfold TESTSIZE in *; lia).
    eapply knows_ext; [| exact H3]. intros j Hj. cbv beta. destruct (Z.eqb_spec j i) as [-> |].
    + by rewrite (proj2 (Z.ltb_lt i (i + 1))) by lia.
    + destruct (Z.ltb_spec j i), (Z.ltb_spec j (i + 1)); done || lia.
Qed.

Lemma testa_run rnd a f0 :
  knows f0 0 0 a → twp (testa arr rnd) (λ _ a', ∃ f k, knows f k (TESTSIZE * 10) a') a.
Proof using Hmem HK.
  intros H0. unfold testa. call_done check_num_run. call add_loop_run; [| exact H0].
  intros [] a1 H1. call_done check_num_run.
  call checks_run; [| intros i Hi; eapply check_get_run; unfold TESTSIZE in *; [exact H1 | lia | done | lia]].
  same_state. call_done check_num_run. call checks_run.
  2: { intros j Hj. pose proof (Z.mod_pos_bound (rnd j) TESTSIZE ltac:(done)).
       eapply check_get_run; [exact H1 | done | done | done]. }
  same_state. call_done check_num_run. call set_loop_run; [| done]. clear H1. intros [] a2 H1.
  call checks_run; [| intros i Hi; eapply check_get_run; unfold TESTSIZE in *; [exact H1 | lia | done | lia]].
  same_state. call (knows_setsize _ _ _ _ (TESTSIZE / 2) H1); [| range].
  clear H1. intros r a3 [-> H1]. change (TESTSIZE `min` (TESTSIZE / 2)) with 36 in H1. change (TESTSIZE / 2) with 36 in *.
  apply twp_bind, twp_kassert; [done |].
  call checks_run; [| intros i Hi; eapply check_get_run; unfold TESTSIZE in *; [exact H1 | lia | done | lia]].
  same_state. call (knows_remove _ _ _ _ 1 H1); [| lia]. clear H1. intros [] a4 H1.
  call checks_run.
  2: { intros i Hi. eapply check_get_run; [exact H1 | lia | | unfold TESTSIZE; lia]. cbv beta.
       rewrite (proj2 (Z.ltb_ge i 1)) by lia. f_equal. lia. }
  same_state. call_done (check_get_run arr _ _ _ _ 0 (TESTSIZE - 1) H1). call (knows_setsize _ _ _ _ 2 H1); [| range].
  clear H1. intros r a5 [_ H1]. change ((36 - 1) `min` 2) with 2 in H1.
  call_done (check_get_run arr _ _ _ _ 0 (TESTSIZE - 1) H1). call_done (check_get_run arr _ _ _ _ 1 (TESTSIZE - 3) H1).
  call (knows_set _ _ _ _ 1 0 H1); [| lia..]. clear H1. intros [] a6 H1. change (2 `max` (1 + 1)) with 2 in H1.
  call (knows_setsize _ _ _ _ 2 H1); [| range]. clear H1. intros _ a7 [_ H1]. change (2 `min` 2) with 2 in H1.
  call_done (check_get_run arr _ _ _ _ 0 (TESTSIZE - 1) H1).
  call_done (knows_get _ _ _ _ 1 H1). apply twp_bind, twp_kassert; [done |].
  call (knows_setsize _ _ _ _ (TESTSIZE * 10) H1); [| range]. clear H1. intros _ a8 [_ H1].
  change (2 `min` (TESTSIZE * 10)) with 2 in H1. call_done (check_get_run arr _ _ _ _ 0 (TESTSIZE - 1) H1).
  call_done (knows_get _ _ _ _ 1 H1). apply twp_kassert; [done |]. by do 2 eexists.
Qed.
End loops.

Lemma array_cleanup_run f k a : knows f k 0 a → twp array_cleanup (λ _ _, True) a.
Proof.
  intros H. unfold array_cleanup. twp_steps; [| done]. by rewrite (kn_num _ _ _ _ H).
Qed.

Lemma arraytest_passes arr rnd1 rnd2 a : twp (arraytest true arr rnd1 rnd2) (λ r _, r = 0) a.
Proof using Hmem HK.
  unfold arraytest. apply twp_bind, twp_kassert; [done |]. apply twp_bind, twp_modify.
  call testa_run; [| apply (knows_empty id)]. intros [] a1 (f & k & H1).
  call (knows_setsize _ _ _ _ 0 H1); [| range]. intros _ a2 [_ H2]. pose proof (kn_k _ _ _ _ H1).
  replace (k `min` 0) with 0 in H2 by lia. call testa_run; [| exact H2]. intros [] a3 (f' & k' & H3).
  call (knows_setsize _ _ _ _ 0 H3); [| range]. intros _ a4 [_ H4]. call array_cleanup_run; [| exact H4]. done.
Qed.

Lemma get_check f k n a i x why :
  knows f k n a → 0 <= i < k → f i = x → (q ← array_get i; kassert (q =? x) why) a = Done tt a.
Proof.
  intros H Hi <-. unfold mbind, M_bind. rewrite (knows_get f k n) by done. unfold kassert. by rewrite Z.eqb_refl.
Qed.

(** The large test needs blocks of two and of four pages. *)
Section big.
Context (Hbig : 13 <= K).

Lemma K_big n : n <= 2 ^ 13 → n <= 2 ^ K.
Proof using HK Hbig. intros H. pose proof (Z.pow_le_mono_r 2 13 K). lia. Qed.

Lemma big_add_loop_run p :
  twp (for_loop (Z.to_nat BIGTESTSIZE) 0 (λ i,
      r ← add p; kassert (r.1 =? 0) "result == 0" ;; kassert (r.2 =? i) "x == i"))
    (λ _, knows (λ _, p) BIGTESTSIZE BIGTESTSIZE) array_init.
Proof using Hmem HK Hbig.
  apply (twp_for_loop (λ i, knows (λ _, p) i i)); [apply knows_empty |].
  intros i a1 Hi H1. unfold BIGTESTSIZE in Hi. apply twp_bind.
  eapply twp_mono; [| apply (knows_add _ _ _ p H1); pose proof (K_big 8192); lia]. intros r a2 [-> H2].
  apply twp_bind, twp_kassert; [done |]. apply twp_kassert; [apply Z.eqb_refl |].
  eapply knows_ext; [| exact H2]. intros j _. cbv beta. by destruct (j =? i).
Qed.

Lemma big_set_loop_run a f :
  knows f 0 BIGTESTSIZE a →
  twp (for_loop (Z.to_nat BIGTESTSIZE) 0 (λ i, array_set i (NTH i))) (λ _, knows NTH BIGTESTSIZE BIGTESTSIZE) a.
Proof.
  intros H0. apply (twp_for_loop (λ i, knows NTH i BIGTESTSIZE)).
  { eapply knows_ext; [| exact H0]. intros; lia. }
  intros i a1 Hi H1. eapply twp_mono; [| apply (knows_set _ _ _ _ i (NTH i) H1); unfold BIGTESTSIZE in *; lia].
  intros [] a2 H2. rewrite Z.max_r in H2 by lia. eapply knows_ext; [| exact H2]. intros j _. cbv beta.
  destruct (Z.eqb_spec j i) as [-> |]; done.
Qed.

Lemma moved_check_run n a :
  knows (λ j, if j <? 1 then NTH j else NTH (j + 1)) (BIGTESTSIZE - 1) n a →
  twp (for_loop (Z.to_nat (BIGTESTSIZE - 2)) 1 (λ i,
    q ← array_get i; kassert (q =? NTH (i + 1)) "array_get(a, i) == NTH(i+1)")) (λ _ a', a' = a) a.
Proof.
  intros H. apply checks_run. intros i Hi. unfold BIGTESTSIZE in Hi.
  eapply get_check; [exact H | unfold BIGTESTSIZE; lia |]. cbv beta. by rewrite (proj2 (Z.ltb_ge i 1)) by lia.
Qed.

Ltac big_range := split; [vm_compute; congruence | apply K_big; vm_compute; congruence].

Lemma arraytest2_passes a : twp (arraytest2 true) (λ r _, r = 0) a.
Proof using Hmem HK Hbig.
  unfold arraytest2. apply twp_bind, twp_kassert; [done |]. apply twp_bind, twp_modify. cbv zeta.
  call big_add_loop_run. intros [] a1 H1. call_done check_num_run.
  call checks_run; [| intros i Hi; eapply get_check; unfold BIGTESTSIZE in *; [exact H1 | lia | done]].
  same_state. call (knows_setsize _ _ _ _ 0 H1); [| range]. clear H1. intros r a2 [-> H1].
  apply twp_bind, twp_kassert; [done |]. call (knows_setsize _ _ _ _ BIGTESTSIZE H1); [| big_range].
  clear H1. intros r a3 [-> H1]. change ((BIGTESTSIZE `min` 0) `min` BIGTESTSIZE) with 0 in H1.
  apply twp_bind, twp_kassert; [done |]. call big_set_loop_run; [| exact H1]. clear H1. intros [] a4 H1.
  call checks_run; [| intros i Hi; eapply get_check; unfold BIGTESTSIZE in *; [exact H1 | lia | done]].
  same_state. call (knows_remove _ _ _ _ 1 H1); [| split; vm_compute; congruence]. clear H1. intros [] a5 H1.
  call_done (knows_get _ _ _ _ 0 H1). apply twp_bind, twp_kassert; [done |]. call_done check_num_run.
  call moved_check_run; [| exact H1]. same_state.
  call (knows_setsize _ _ _ _ (BIGTESTSIZE * 2) H1); [| big_range]. clear H1. intros r a6 [-> H1].
  change ((BIGTESTSIZE - 1) `min` (BIGTESTSIZE * 2)) with (BIGTESTSIZE - 1) in H1.
  apply twp_bind, twp_kassert; [done |]. call_done (knows_get _ _ _ _ 0 H1). apply twp_bind, twp_kassert; [done |].
  call moved_check_run; [| exact H1]. same_state. call (knows_setsize _ _ _ _ 0 H1); [| range]. clear H1. intros r a7 [-> H1].
  apply twp_bind, twp_kassert; [done |]. call array_cleanup_run; [| exact H1]. done.
Qed.
End big.
End arraytest.
End ArrayTest.

End KernTests.
