(* ===== verification/ListTests.v ===== *)
(** * The kernel's unit test of thread lists (test/threadlisttest.c)

    The test is translated as it stands and shown to run to its end without a failed
    assertion, whatever distinct addresses its threads are given.  The list operations
    are used by their specifications; a list of the test is named by the indices of its
    threads, so that the comparisons of names are evaluated. *)

From stdpp Require Import base list numbers strings.
From Stdlib Require Import ZArith Lia.
From S2P Require Import Prelude Bitmap Array ThreadList KernTests.
Import ThreadList KernTests.

#[local] Open Scope Z_scope.

Module ListTests.

Definition NUMNAMES : nat := 7.
Definition names : list string :=
  ["Aillard"; "Aldaran"; "Alton"; "Ardais"; "Elhalyn"; "Hastur"; "Ridenow"]%string.
Definition FAKE_MAGIC : Z := 0xbaabaa.

(** The lists, the fields of the threads that are used, and the static array. *)
Record state := mkS {
  tls : tlstate;
  t_name : Z → string;
  t_stack : Z → Z;
  fakethreads : list Z
}.
Definition with_tls x s := mkS x (t_name s) (t_stack s) (fakethreads s).
Definition upd (f : Z → string) (g : Z → Z) s := mkS (tls s) f g (fakethreads s).
Definition set_fake (i : nat) (t : Z) s := mkS (tls s) (t_name s) (t_stack s) (<[i := t]> (fakethreads s)).
Abbreviation F := (M state).
Definition on_tl {A} (m : T A) : F A := zoom tls with_tls m.
Definition fake (i : nat) : F Z := gets (λ s, nth i (fakethreads s) 0).
Definition check (b : bool) : F unit := kassert b "KASSERT".

(** The results of the two allocations. *)
Definition fakethread_create (name : string) (t dup : Z) : F Z :=
  (if t =? 0 then panic "threadlisttest: Out of memory" else mret tt) ;;
  (if dup =? 0 then panic "threadlisttest: Out of memory" else mret tt) ;;
  modify (λ s, upd (λ x, if x =? t then name else t_name s x)
                   (λ x, if x =? t then FAKE_MAGIC else t_stack s x) s) ;;
  on_tl (threadlistnode_init (t_listnode t) t) ;;
  mret t.

Definition fakethread_destroy (t : Z) : F unit :=
  m ← gets (λ s, t_stack s t);
  kassert (m =? FAKE_MAGIC) "t->t_stack == FAKE_MAGIC" ;;
  on_tl (threadlistnode_cleanup (t_listnode t)).

Definition strcmp (a b : string) : Z :=
  match String.compare a b with Lt => -1 | Eq => 0 | Gt => 1 end.

(** THREADLIST_FORALL and THREADLIST_FORALL_REV: [next] is the member followed, [acc] the
    variables of the body. *)
Fixpoint forall_loop {A} (next : nptr → T (option nptr)) (fuel : nat) (p : nptr) (body : A → Z → F A) (acc : A) : F A :=
  match fuel with
  | O => nofuel
  | S fuel' =>
      t ← on_tl (n ← next p; n ← follow n; gets (λ s, tln_self (nodes s n)));
      if t =? 0 then mret acc
      else acc ← body acc t; forall_loop next fuel' (t_listnode t) body acc
  end.
Definition THREADLIST_FORALL {A} (tl : Z) (body : A → Z → F A) (acc : A) : F A :=
  c ← gets (λ s, tl_count (tls s) tl); forall_loop get_next (S (Z.to_nat c)) (tl_head tl) body acc.
Definition THREADLIST_FORALL_REV {A} (tl : Z) (body : A → Z → F A) (acc : A) : F A :=
  c ← gets (λ s, tl_count (tls s) tl); forall_loop get_prev (S (Z.to_nat c)) (tl_tail tl) body acc.

Definition ordered (rev : bool) (a b : string) : bool :=
  if rev then 0 <? strcmp a b else strcmp a b <? 0.
Definition check_order (tl : Z) (rev : bool) : F unit :=
  let first := if rev then "~~~"%string else "..."%string in
  let last := if rev then "..."%string else "~~~"%string in
  prev ← THREADLIST_FORALL tl (λ prev t,
    name ← gets (λ s, t_name s t); check (ordered rev prev name) ;; mret name) first;
  check (ordered rev prev last).

(** [tl]: the address of the local list; the tests run one after the other, so it may be
    the same for all. *)
Section tests.
Variable tl : Z.
Definition addhead i := t ← fake i; on_tl (threadlist_addhead tl t).
Definition addtail i := t ← fake i; on_tl (threadlist_addtail tl t).
Definition check_count (n : Z) : F unit := c ← gets (λ s, tl_count (tls s) tl); check (c =? n).
Definition remhead_is i := t ← on_tl (threadlist_remhead tl); x ← fake i; check (t =? x).
Definition remtail_is i := t ← on_tl (threadlist_remtail tl); x ← fake i; check (t =? x).
Definition insertafter i j := a ← fake i; b ← fake j; on_tl (threadlist_insertafter tl a b).
Definition insertbefore i j := a ← fake i; b ← fake j; on_tl (threadlist_insertbefore tl a b).
(** fakethreads[i]->t_listnode.tln_prev->tln_self == fakethreads[j] *)
Definition check_prev i j :=
  a ← fake i; b ← fake j;
  t ← on_tl (n ← get_prev (t_listnode a); n ← follow n; gets (λ s, tln_self (nodes s n)));
  check (t =? b).

Definition threadlisttest_a : F unit :=
  on_tl (threadlist_init tl) ;;
  e ← on_tl (threadlist_isempty tl); check e ;;
  on_tl (threadlist_cleanup tl).

Definition threadlisttest_b : F unit :=
  on_tl (threadlist_init tl) ;;
  addhead 0 ;; check_order tl false ;; check_order tl true ;; check_count 1 ;;
  t ← on_tl (threadlist_remhead tl); check_count 0 ;; x ← fake 0; check (t =? x) ;;
  addtail 0 ;; check_order tl false ;; check_order tl true ;; check_count 1 ;;
  t ← on_tl (threadlist_remtail tl); check_count 0 ;; x ← fake 0; check (t =? x) ;;
  on_tl (threadlist_cleanup tl).

Definition threadlisttest_c : F unit :=
  on_tl (threadlist_init tl) ;;
  addhead 0 ;; addhead 1 ;; check_count 2 ;; check_order tl true ;;
  remhead_is 1 ;; remhead_is 0 ;; check_count 0 ;;
  addtail 0 ;; addtail 1 ;; check_count 2 ;; check_order tl false ;;
  remtail_is 1 ;; remtail_is 0 ;; check_count 0 ;;
  on_tl (threadlist_cleanup tl).

Definition threadlisttest_d : F unit :=
  on_tl (threadlist_init tl) ;;
  addhead 0 ;; addtail 1 ;; check_count 2 ;; check_order tl false ;;
  remhead_is 0 ;; remtail_is 1 ;; check_count 0 ;;
  addhead 0 ;; addtail 1 ;; check_count 2 ;; check_order tl false ;;
  remtail_is 1 ;; remtail_is 0 ;; check_count 0 ;;
  on_tl (threadlist_cleanup tl).

Definition threadlisttest_e : F unit :=
  on_tl (threadlist_init tl) ;;
  addhead 1 ;; addtail 3 ;; check_count 2 ;; check_order tl false ;;
  insertafter 3 4 ;; check_count 3 ;; check_order tl false ;;
  insertbefore 0 1 ;; check_count 4 ;; check_order tl false ;;
  insertafter 1 2 ;; check_count 5 ;; check_order tl false ;;
  check_prev 4 3 ;; check_prev 3 2 ;; check_prev 2 1 ;; check_prev 1 0 ;;
  for_loop 5 0 (λ i, remhead_is (Z.to_nat i)) ;;
  check_count 0 ;;
  on_tl (threadlist_cleanup tl).

Definition threadlisttest_f : F unit :=
  on_tl (threadlist_init tl) ;;
  for_loop NUMNAMES 0 (λ i, addtail (Z.to_nat i)) ;;
  check_count (Z.of_nat NUMNAMES) ;;
  i ← THREADLIST_FORALL tl (λ i t, x ← fake i; check (t =? x) ;; mret (S i)) 0%nat;
  check (Nat.eqb i NUMNAMES) ;;
  i ← THREADLIST_FORALL_REV tl (λ i t, x ← fake (NUMNAMES - i - 1); check (t =? x) ;; mret (S i)) 0%nat;
  check (Nat.eqb i NUMNAMES) ;;
  for_loop NUMNAMES 0 (λ i, remhead_is (Z.to_nat i)) ;;
  check_count 0.

(** [alloc i] and [dup i]: what the allocations for thread [i] give. *)
Definition threadlisttest (alloc dup : Z → Z) : F Z :=
  for_loop NUMNAMES 0 (λ i,
    t ← fakethread_create (nth (Z.to_nat i) names EmptyString) (alloc i) (dup i);
    modify (set_fake (Z.to_nat i) t)) ;;
  threadlisttest_a ;; threadlisttest_b ;; threadlisttest_c ;;
  threadlisttest_d ;; threadlisttest_e ;; threadlisttest_f ;;
  for_loop NUMNAMES 0 (λ i,
    t ← fake (Z.to_nat i); fakethread_destroy t ;; modify (set_fake (Z.to_nat i) 0)) ;;
  mret 0.
End tests.

(** ** The test passes *)

Section passes.
Context (tl : Z) (ts : list Z).
Context (Hlen : length ts = NUMNAMES) (Hnd : NoDup ts) (Hnz : ∀ t, t ∈ ts → t ≠ 0).

Definition th (i : nat) : Z := nth i ts 0.
Definition nm (i : nat) : string := nth i names EmptyString.

Lemma th_in i : (i < NUMNAMES)%nat → th i ∈ ts.
Proof using Hlen. intros Hi. apply list_elem_of_In, nth_In. by rewrite Hlen. Qed.

Lemma th_inj i j : (i < NUMNAMES)%nat → (j < NUMNAMES)%nat → th i = th j → i = j.
Proof using Hlen Hnd. intros Hi Hj. apply NoDup_nth; rewrite ?Hlen; try done. by apply NoDup_ListNoDup. Qed.

Definition valid (l : list nat) : Prop := Forall (λ i, (i < NUMNAMES)%nat) l.

Lemma th_notin i l : (i < NUMNAMES)%nat → valid l → i ∉ l → th i ∉ map th l.
Proof using Hlen Hnd.
  intros Hi Hv Hn (j & E & Hj)%list_elem_of_fmap. apply Hn.
  unfold valid in Hv. rewrite Forall_forall in Hv. by rewrite (th_inj i j Hi (Hv j Hj) E).
Qed.

(** The list at [tl] holds the threads with the indices [l]; the others are on no list. *)
Record has (l : list nat) (s : state) : Prop := {
  ha_fake : fakethreads s = ts;
  ha_name i : (i < NUMNAMES)%nat → t_name s (th i) = nm i;
  ha_stack i : (i < NUMNAMES)%nat → t_stack s (th i) = FAKE_MAGIC;
  ha_valid : valid l;
  ha_list : is_list (tls s) tl (map th l);
  ha_ends : tln_self (nodes (tls s) (tl_head tl)) = 0 ∧ tln_self (nodes (tls s) (tl_tail tl)) = 0;
  ha_out i : (i < NUMNAMES)%nat → i ∉ l → detached (tls s) (th i)
}.

Lemma fake_run l s i : has l s → fake i s = Done (th i) s.
Proof. intros H. unfold fake, gets. by rewrite (ha_fake _ _ H). Qed.

(** The list operations do not touch [tln_self]. *)
Definition self_of (p : nptr) (s : tlstate) : Z := tln_self (nodes s p).
Ltac keep_self := repeat (keeps_step ||
  solve [auto with keeps] ||
  (apply keeps_modify; intros ?; unfold self_of, upd_node; cbn [nodes]; by destruct (decide _) as [-> |])).

Lemma insertafternode_self p q t : keeps (self_of p) (threadlist_insertafternode q t).
Proof. unfold threadlist_insertafternode, set_prev, set_next, get_next, get_prev, follow. keep_self. Qed.
Lemma insertbeforenode_self p q t : keeps (self_of p) (threadlist_insertbeforenode t q).
Proof. unfold threadlist_insertbeforenode, set_prev, set_next, get_next, get_prev, follow. keep_self. Qed.
Lemma removenode_self p q : keeps (self_of p) (threadlist_removenode q).
Proof. unfold threadlist_removenode, set_prev, set_next, get_next, get_prev, follow. keep_self. Qed.

#[local] Hint Resolve insertafternode_self insertbeforenode_self removenode_self : keeps.
Ltac op_self := unfold count_up, count_down, set_count, get_next, get_prev, follow;
  repeat (keeps_step || solve [auto with keeps] || (apply keeps_modify; intros ?; reflexivity)).
Lemma addhead_self p t : keeps (self_of p) (threadlist_addhead tl t).
Proof. unfold threadlist_addhead. op_self. Qed.
Lemma addtail_self p t : keeps (self_of p) (threadlist_addtail tl t).
Proof. unfold threadlist_addtail. op_self. Qed.
Lemma remhead_self p : keeps (self_of p) (threadlist_remhead tl).
Proof. unfold threadlist_remhead. op_self. Qed.
Lemma remtail_self p : keeps (self_of p) (threadlist_remtail tl).
Proof. unfold threadlist_remtail. op_self. Qed.
Lemma insertafter_self p a t : keeps (self_of p) (threadlist_insertafter tl a t).
Proof. unfold threadlist_insertafter. op_self. Qed.
Lemma insertbefore_self p a t : keeps (self_of p) (threadlist_insertbefore tl t a).
Proof. unfold threadlist_insertbefore. op_self. Qed.

(** An operation on the lists that returns, and whose specification gives the new list. *)
Lemma op_has {A} (m : T A) l l' s r s1 :
  has l s → m (tls s) = Done r s1 → (∀ p, keeps (self_of p) m) → valid l' →
  is_list s1 tl (map th l') → (∀ i, (i < NUMNAMES)%nat → i ∉ l' → detached s1 (th i)) →
  twp (on_tl m) (λ x s', x = r ∧ has l' s') s.
Proof.
  intros H E Hk Hv Hl Hout. apply twp_zoom. eapply twp_done; [exact E |]. split; [done |].
  assert (∀ p, tln_self (nodes s1 p) = tln_self (nodes (tls s) p)) as Hs
    by (intros p; exact (keeps_done _ _ _ _ _ (Hk p) E)).
  split; cbn; try done; try apply H. by rewrite !Hs; apply H.
Qed.

Lemma has_small l s : has l s → Z.of_nat (length (map th l)) + 1 < 2 ^ 32.
Proof using Hlen.
  intros H. assert (length (map th l) <= length ts)%nat as Hle.
  { apply NoDup_incl_length; [apply NoDup_ListNoDup, (ha_list _ _ H) |].
    intros x (i & <- & Hi)%in_map_iff. apply list_elem_of_In, th_in. pose proof (ha_valid _ _ H) as Hv.
    unfold valid in Hv. rewrite Forall_forall in Hv. by apply Hv, list_elem_of_In. }
  rewrite Hlen in Hle. unfold NUMNAMES in Hle. lia.
Qed.

Lemma out_notin l l' s i :
  has l s → (∀ j, j ∈ l → j ∈ l') → (i < NUMNAMES)%nat → valid l' → i ∉ l' →
  (th i ∉ map th l') ∧ detached (tls s) (th i).
Proof using Hlen Hnd. intros H Hsub Hi Hv Hn. split; [by apply th_notin |]. apply H; [done | auto]. Qed.

Lemma addhead_run l s i :
  has l s → (i < NUMNAMES)%nat → i ∉ l → twp (addhead tl i) (λ _, has (i :: l)) s.
Proof using Hlen Hnd.
  intros H Hi Hn. unfold addhead. call_done fake_run.
  destruct (threadlist_addhead_spec (tls s) tl (th i) (map th l)) as (s' & E & Hl & _ & Hk);
    [apply H | by apply H | by eapply has_small |].
  assert (valid (i :: l)) as Hv by (constructor; [done | apply H]).
  eapply twp_mono; [| eapply (op_has _ l (i :: l)); [done | exact E | intros; apply addhead_self | done | done |]]; [by intros ? ? [] |].
  intros j Hj Hout. destruct (out_notin l (i :: l) s j) as [? ?]; [done | by right | done | done | done |]. by apply Hk.
Qed.

Lemma addtail_run l s i :
  has l s → (i < NUMNAMES)%nat → i ∉ l → twp (addtail tl i) (λ _, has (l ++ [i])) s.
Proof using Hlen Hnd.
  intros H Hi Hn. unfold addtail. call_done fake_run.
  destruct (threadlist_addtail_spec (tls s) tl (th i) (map th l)) as (s' & E & Hl & _ & Hk);
    [apply H | by apply H | by eapply has_small |].
  assert (valid (l ++ [i])) as Hv by (apply Forall_app; split; [apply H | by apply Forall_singleton]).
  change [th i] with (map th [i]) in Hl, Hk. rewrite <- map_app in Hl, Hk.
  eapply twp_mono; [| eapply (op_has _ l (l ++ [i])); [done | exact E | intros; apply addtail_self | done | done |]]; [by intros ? ? [] |].
  intros j Hj Hout. destruct (out_notin l (l ++ [i]) s j) as [? ?]; [done | | done | done | done |]; [| by apply Hk].
  intros k Hk'. apply elem_of_app. by left.
Qed.

Lemma remhead_run l s i :
  has (i :: l) s → twp (on_tl (threadlist_remhead tl)) (λ r s', r = th i ∧ has l s') s.
Proof using Hlen Hnd.
  intros H. pose proof (threadlist_remhead_spec (tls s) tl (map th (i :: l)) (ha_list _ _ H)) as (s' & E & Hl & Hd & _ & Hk).
  pose proof (ha_valid _ _ H) as [_ Hv]%Forall_cons.
  apply (op_has _ (i :: l) l _ _ s'); [done | done | intros; apply remhead_self | done | done |].
  intros j Hj Hout. destruct (decide (j = i)) as [-> | Hne]; [done |].
  destruct (out_notin (i :: l) (i :: l) s j) as [? ?]; [done | done | done | apply H | | by apply Hk].
  by apply not_elem_of_cons.
Qed.

Lemma remtail_run l s i :
  has (l ++ [i]) s → twp (on_tl (threadlist_remtail tl)) (λ r s', r = th i ∧ has l s') s.
Proof using Hlen Hnd.
  intros H. pose proof (ha_list _ _ H) as Hl0. rewrite map_app in Hl0.
  pose proof (threadlist_remtail_spec (tls s) tl (map th l) (th i) Hl0) as (s' & E & Hl & Hd & _ & Hk).
  pose proof (ha_valid _ _ H) as [Hv _]%Forall_app.
  apply (op_has _ (l ++ [i]) l _ _ s'); [done | done | intros; apply remtail_self | done | done |].
  intros j Hj Hout. destruct (decide (j = i)) as [-> | Hne]; [done |].
  destruct (out_notin (l ++ [i]) (l ++ [i]) s j) as [Hn ?]; [done | done | done | apply H | |].
  - rewrite not_elem_of_app, list_elem_of_singleton. by split.
  - rewrite map_app in Hn. by apply Hk.
Qed.

Lemma insert_run l1 l2 s i j :
  has (l1 ++ i :: l2) s → (j < NUMNAMES)%nat → j ∉ l1 ++ i :: l2 →
  twp (insertafter tl i j) (λ _, has (l1 ++ i :: j :: l2)) s ∧
  twp (insertbefore tl j i) (λ _, has (l1 ++ j :: i :: l2)) s.
Proof using Hlen Hnd.
  intros H Hj Hn. pose proof (ha_list _ _ H) as Hl0. pose proof (has_small _ _ H) as Hs.
  rewrite map_app in Hl0, Hs. cbn [map] in Hl0, Hs.
  pose proof (ha_valid _ _ H) as [Hv1 [Hvi Hv2]%Forall_cons]%Forall_app.
  destruct (threadlist_insert_spec (tls s) tl (th j) (th i) (map th l1) (map th l2) Hl0) as
    [(s1 & E1 & Hl1 & _ & Hk1) (s2 & E2 & Hl2 & _ & Hk2)]; [by apply H | done |].
  assert (∀ l', valid l' → (∀ k, k ∈ l1 ++ i :: l2 → k ∈ l') → ∀ k, (k < NUMNAMES)%nat → k ∉ l' →
    (th k ∉ map th l') ∧ detached (tls s) (th k)) as Hout by (intros l' ? ? k ? ?; by eapply out_notin).
  assert (valid (l1 ++ i :: j :: l2) ∧ valid (l1 ++ j :: i :: l2)) as [Hva Hvb]
    by (unfold valid; rewrite !Forall_app, !Forall_cons; by split_and!).
  split; [unfold insertafter | unfold insertbefore]; call_done fake_run; call_done fake_run.
  - eapply twp_mono; [| eapply (op_has _ _ (l1 ++ i :: j :: l2)); [exact H | exact E1 | intros; apply insertafter_self | | |]];
      [by intros ? ? [] | done | by rewrite map_app |].
    intros k Hk Hkn. destruct (Hout (l1 ++ i :: j :: l2)) with (k := k) as [Hx ?]; try done.
    + intros x. rewrite !elem_of_app, !elem_of_cons. tauto.
    + rewrite map_app in Hx. by apply Hk1.
  - eapply twp_mono; [| eapply (op_has _ _ (l1 ++ j :: i :: l2)); [exact H | exact E2 | intros; apply insertbefore_self | | |]];
      [by intros ? ? [] | done | by rewrite map_app |].
    intros k Hk Hkn. destruct (Hout (l1 ++ j :: i :: l2)) with (k := k) as [Hx ?]; try done.
    + intros x. rewrite !elem_of_app, !elem_of_cons. tauto.
    + rewrite map_app in Hx. by apply Hk2.
Qed.

(** *** Iteration *)

Fixpoint foldo {A} (h : A → nat → option A) (acc : A) (l : list nat) : option A :=
  match l with [] => Some acc | i :: l => a ← h acc i; foldo h a l end.

Section iterate.
Context {A : Type} (h : A → nat → option A) (body : A → Z → F A) (s : state).
Context (Hbody : ∀ acc i a, (i < NUMNAMES)%nat → h acc i = Some a → body acc (th i) s = Done a s).

Lemma loop_turn next fuel p acc a i q :
  next p (tls s) = Done (Some q) (tls s) → tln_self (nodes (tls s) q) = th i → (i < NUMNAMES)%nat → h acc i = Some a →
  forall_loop next (S fuel) p body acc s = forall_loop next fuel (t_listnode (th i)) body a s.
Proof using Hbody Hlen Hnz.
  intros Hq Hs Hi Ha. cbn [forall_loop]. unfold on_tl, zoom, follow, deref, gets, mbind, M_bind. rewrite Hq.
  replace (with_tls (tls s) s) with s by (by destruct s). rewrite Hs.
  rewrite (proj2 (Z.eqb_neq _ _)) by (by apply Hnz, th_in). by rewrite (Hbody acc i a).
Qed.

Lemma loop_end next fuel p acc q :
  next p (tls s) = Done (Some q) (tls s) → tln_self (nodes (tls s) q) = 0 →
  forall_loop next (S fuel) p body acc s = Done acc s.
Proof.
  intros Hq Hs. cbn [forall_loop]. unfold on_tl, zoom, follow, deref, gets, mbind, M_bind. rewrite Hq.
  replace (with_tls (tls s) s) with s by (by destruct s). by rewrite Hs.
Qed.

Lemma forward_run l : ∀ p fuel acc acc',
  seg (nodes (tls s)) p (map t_listnode (map th l)) (tl_tail tl) → valid l →
  (∀ i, i ∈ l → tln_self (nodes (tls s) (t_listnode (th i))) = th i) →
  tln_self (nodes (tls s) (tl_tail tl)) = 0 → (length l < fuel)%nat → foldo h acc l = Some acc' →
  forall_loop get_next fuel p body acc s = Done acc' s.
Proof using Hbody Hlen Hnz.
  induction l as [|i l IH]; intros p [|fuel] acc acc' Hseg Hv Hself H0 Hf Hfold; cbn [length] in Hf; try lia; cbn in Hseg.
  - injection Hfold as <-. eapply loop_end; [| exact H0]. unfold get_next, gets. by rewrite (proj1 Hseg).
  - destruct Hseg as (Hn & _ & Hseg). apply Forall_cons in Hv as [Hi Hv]. cbn in Hfold.
    destruct (h acc i) as [a|] eqn:Ha; [| done].
    rewrite (loop_turn get_next fuel p acc a i (t_listnode (th i))); [| by unfold get_next, gets; rewrite Hn | | done | done].
    + apply IH; try done; [| lia]. intros j Hj. apply Hself. by right.
    + apply Hself. by left.
Qed.

Lemma backward_run l : ∀ p fuel acc acc',
  seg (nodes (tls s)) (tl_head tl) (map t_listnode (map th l)) p → valid l →
  (∀ i, i ∈ l → tln_self (nodes (tls s) (t_listnode (th i))) = th i) →
  tln_self (nodes (tls s) (tl_head tl)) = 0 → (length l < fuel)%nat → foldo h acc (rev l) = Some acc' →
  forall_loop get_prev fuel p body acc s = Done acc' s.
Proof using Hbody Hlen Hnz.
  induction l as [|i l IH] using rev_ind; intros p [|fuel] acc acc' Hseg Hv Hself H0 Hf Hfold;
    rewrite ?length_app in Hf; cbn [length] in Hf; try lia.
  - injection Hfold as <-. eapply loop_end; [| exact H0]. unfold get_prev, gets. by rewrite (proj2 Hseg).
  - rewrite !map_app in Hseg. cbn [map] in Hseg. apply seg_app in Hseg as [Hseg [_ Hp]]. apply Forall_app in Hv as [Hv Hi].
    apply Forall_cons in Hi as [Hi _]. rewrite rev_unit in Hfold. cbn in Hfold.
    destruct (h acc i) as [a|] eqn:Ha; [| done].
    rewrite (loop_turn get_prev fuel p acc a i (t_listnode (th i))); [| by unfold get_prev, gets; rewrite Hp | | done | done].
    + apply IH; try done; [| lia]. intros j Hj. apply Hself, elem_of_app. by left.
    + apply Hself, elem_of_app. right. by left.
Qed.

Lemma forall_run l acc acc' : has l s → foldo h acc l = Some acc' → THREADLIST_FORALL tl body acc s = Done acc' s.
Proof using Hbody Hlen Hnz.
  intros H Hf. unfold THREADLIST_FORALL, gets, mbind, M_bind. pose proof (ha_list _ _ H) as Hl.
  apply (forward_run l); [apply Hl | apply H | | apply H | | done].
  - intros i Hi. apply (il_self _ _ _ Hl), list_elem_of_fmap. by exists i.
  - rewrite (il_count _ _ _ Hl), length_map. lia.
Qed.

Lemma forall_rev_run l acc acc' :
  has l s → foldo h acc (rev l) = Some acc' → THREADLIST_FORALL_REV tl body acc s = Done acc' s.
Proof using Hbody Hlen Hnz.
  intros H Hf. unfold THREADLIST_FORALL_REV, gets, mbind, M_bind. pose proof (ha_list _ _ H) as Hl.
  apply (backward_run l); [apply Hl | apply H | | apply H | | done].
  - intros i Hi. apply (il_self _ _ _ Hl), list_elem_of_fmap. by exists i.
  - rewrite (il_count _ _ _ Hl), length_map. lia.
Qed.
End iterate.

Definition order_ok (rev : bool) (l : list nat) : bool :=
  match foldo (λ prev i, if ordered rev prev (nm i) then Some (nm i) else None)
          (if rev then "~~~"%string else "..."%string) l with
  | Some prev => ordered rev prev (if rev then "..."%string else "~~~"%string)
  | None => false
  end.

Lemma check_order_run l s rev : has l s → order_ok rev l = true → check_order tl rev s = Done tt s.
Proof using Hlen Hnz.
  intros H Ho. unfold order_ok in Ho. destruct (foldo _ _ _) as [prev|] eqn:Ef; [| done].
  unfold check_order, mbind at 1, M_bind at 1. rewrite (forall_run
    (λ prev i, if ordered rev prev (nm i) then Some (nm i) else None) _ s) with (l := l) (acc' := prev); [| | exact H | exact Ef].
  - unfold check, kassert. by rewrite Ho.
  - intros acc i a Hi. destruct (ordered rev acc (nm i)) eqn:Eo; [| done]. intros [= <-].
    unfold gets, check, kassert, mbind, M_bind. by rewrite (ha_name _ _ H i Hi), Eo.
Qed.

Lemma check_count_run l s n : has l s → n = Z.of_nat (length l) → check_count tl n s = Done tt s.
Proof.
  intros H ->. unfold check_count, check, kassert, gets, mbind, M_bind.
  by rewrite (il_count _ _ _ (ha_list _ _ H)), length_map, Z.eqb_refl.
Qed.

Lemma remhead_is_run l s i : has (i :: l) s → twp (remhead_is tl i) (λ _, has l) s.
Proof using Hlen Hnd.
  intros H. unfold remhead_is. call (remhead_run l s i H). intros r s1 [-> H1]. call_done fake_run.
  apply twp_kassert; [apply Z.eqb_refl | done].
Qed.
Lemma remtail_is_run l s i : has (l ++ [i]) s → twp (remtail_is tl i) (λ _, has l) s.
Proof using Hlen Hnd.
  intros H. unfold remtail_is. call (remtail_run l s i H). intros r s1 [-> H1]. call_done fake_run.
  apply twp_kassert; [apply Z.eqb_refl | done].
Qed.

Lemma check_prev_run l1 l2 s i j : has (l1 ++ j :: i :: l2) s → check_prev i j s = Done tt s.
Proof.
  intros H. unfold check_prev, mbind at 1, M_bind at 1. rewrite (fake_run _ _ _ H).
  unfold mbind at 1, M_bind at 1. rewrite (fake_run _ _ _ H). pose proof (ha_list _ _ H) as Hl.
  pose proof (il_seg _ _ _ Hl) as Hseg. rewrite !map_app in Hseg. cbn [map] in Hseg.
  apply seg_app in Hseg as [_ (_ & Hp & _)].
  unfold on_tl, zoom, get_prev, follow, deref, gets, mbind, M_bind. rewrite Hp.
  rewrite (il_self _ _ _ Hl) by (apply list_elem_of_fmap; exists j; split; [done |]; apply elem_of_app; right; left).
  unfold check, kassert. rewrite Z.eqb_refl. by destruct s.
Qed.

(** Between two tests: the threads are on no list. *)
Record idle (s : state) : Prop := {
  id_fake : fakethreads s = ts;
  id_name i : (i < NUMNAMES)%nat → t_name s (th i) = nm i;
  id_stack i : (i < NUMNAMES)%nat → t_stack s (th i) = FAKE_MAGIC;
  id_out i : (i < NUMNAMES)%nat → detached (tls s) (th i)
}.

Lemma tl_init_run s : idle s → twp (on_tl (threadlist_init tl)) (λ _, has []) s.
Proof.
  intros H. destruct (threadlist_init_spec (tls s) tl) as (s' & E & Hl & _ & Hk).
  apply twp_zoom. eapply twp_done; [exact E |]. split; cbn; try apply H; try done; [constructor | |].
  - refine (wlp_done _ (λ _ s', tln_self (nodes s' (tl_head tl)) = 0 ∧ tln_self (nodes s' (tl_tail tl)) = 0) (λ _, True) _ _ _ E _).
    unfold threadlist_init, set_next, set_prev, set_self, set_count. wsteps. cbn [nodes].
    by rewrite nodes_upd_ne, !nodes_upd_eq by done.
  - intros i Hi _. apply Hk; [apply not_elem_of_nil | by apply H].
Qed.

Lemma has_idle s : has [] s → idle s.
Proof. intros H. split; try apply H. intros i Hi. by apply H; [| apply not_elem_of_nil]. Qed.

Lemma tl_cleanup_run s : has [] s → twp (on_tl (threadlist_cleanup tl)) (λ _, idle) s.
Proof.
  intros H. apply twp_zoom. unfold threadlist_cleanup, threadlist_isempty.
  pose proof (il_count _ _ _ (ha_list _ _ H)) as E. cbn in E. twp_steps; [by rewrite E.. |]. apply has_idle.
  by destruct s.
Qed.

Ltac dec := apply (bool_decide_unpack _); vm_compute; exact I.
(** One operation of a test, on a list known by its indices. *)
Ltac op1 H :=
  lazymatch goal with
  | |- twp (mbind _ (addhead _ _)) _ _ =>
      apply twp_bind; eapply twp_mono; [| eapply addhead_run; [exact H | dec | dec]]; clear H; intros [] ? H
  | |- twp (mbind _ (addtail _ _)) _ _ =>
      apply twp_bind; eapply twp_mono; [| eapply addtail_run; [exact H | dec | dec]]; clear H; intros [] ? H; cbn [app] in H
  | |- twp (mbind _ (remhead_is _ _)) _ _ =>
      apply twp_bind; eapply twp_mono; [| eapply remhead_is_run; exact H]; clear H; intros [] ? H
  | |- twp (mbind _ (check_count _ _)) _ _ =>
      apply twp_bind; eapply twp_done; [eapply check_count_run; [exact H | reflexivity] |]
  | |- twp (mbind _ (check_order _ _)) _ _ =>
      apply twp_bind; eapply twp_done; [eapply check_order_run; [exact H | reflexivity] |]
  end.

Lemma test_a_run s : idle s → twp (threadlisttest_a tl) (λ _, idle) s.
Proof.
  intros H. unfold threadlisttest_a. call tl_init_run; [| done]. clear s H. intros [] s H.
  apply twp_bind, twp_zoom, twp_gets. apply twp_bind, twp_kassert.
  - by rewrite (il_count _ _ _ (ha_list _ _ H)).
  - destruct s. by apply tl_cleanup_run.
Qed.

Lemma test_b_run s : idle s → twp (threadlisttest_b tl) (λ _, idle) s.
Proof using Hlen Hnd Hnz.
  intros H. unfold threadlisttest_b. call tl_init_run; [| done]. clear s H. intros [] s H. do 4 op1 H.
  call (remhead_run _ _ _ H). clear H. intros r ? [-> H]. op1 H. call_done fake_run.
  apply twp_bind, twp_kassert; [apply Z.eqb_refl |]. do 4 op1 H.
  call (remtail_run [] _ _ H). clear H. intros r ? [-> H]. op1 H. call_done fake_run.
  apply twp_bind, twp_kassert; [apply Z.eqb_refl |]. by apply tl_cleanup_run.
Qed.

Lemma test_c_run s : idle s → twp (threadlisttest_c tl) (λ _, idle) s.
Proof using Hlen Hnd Hnz.
  intros H. unfold threadlisttest_c. call tl_init_run; [| done]. clear s H. intros [] s H. do 11 op1 H.
  call (remtail_is_run [0%nat] _ _ H). clear H. intros [] ? H.
  call (remtail_is_run [] _ _ H). clear H. intros [] ? H. op1 H. by apply tl_cleanup_run.
Qed.

Lemma test_d_run s : idle s → twp (threadlisttest_d tl) (λ _, idle) s.
Proof using Hlen Hnd Hnz.
  intros H. unfold threadlisttest_d. call tl_init_run; [| done]. clear s H. intros [] s H. do 5 op1 H.
  call (remtail_is_run [] _ _ H). clear H. intros [] ? H. do 5 op1 H.
  call (remtail_is_run [0%nat] _ _ H). clear H. intros [] ? H.
  call (remtail_is_run [] _ _ H). clear H. intros [] ? H. op1 H. by apply tl_cleanup_run.
Qed.

Lemma drain_run n : ∀ k s, has (seq k n) s →
  twp (for_loop n (Z.of_nat k) (λ i, remhead_is tl (Z.to_nat i))) (λ _, has []) s.
Proof using Hlen Hnd.
  induction n as [|n IH]; intros k s H; [done |]. cbn [for_loop]. cbn [seq] in H. rewrite Nat2Z.id.
  call (remhead_is_run _ _ _ H). intros [] s1 H1. replace (Z.of_nat k + 1) with (Z.of_nat (S k)) by lia. by apply IH.
Qed.

Lemma test_e_run s : idle s → twp (threadlisttest_e tl) (λ _, idle) s.
Proof using Hlen Hnd Hnz.
  intros H. unfold threadlisttest_e. call tl_init_run; [| done]. clear s H. intros [] s H. do 4 op1 H.
  call (proj1 (insert_run [1%nat] [] _ 3 4 H ltac:(dec) ltac:(dec))). clear H. intros [] ? H. do 2 op1 H.
  call (proj2 (insert_run [] [3%nat; 4%nat] _ 1 0 H ltac:(dec) ltac:(dec))). clear H. intros [] ? H. do 2 op1 H.
  call (proj1 (insert_run [0%nat] [3%nat; 4%nat] _ 1 2 H ltac:(dec) ltac:(dec))). clear H. intros [] ? H. do 2 op1 H.
  call_done (check_prev_run [0; 1; 2]%nat [] _ 4 3 H). call_done (check_prev_run [0; 1]%nat [4%nat] _ 3 2 H).
  call_done (check_prev_run [0]%nat [3; 4]%nat _ 2 1 H). call_done (check_prev_run [] [2; 3; 4]%nat _ 1 0 H).
  call (drain_run 5 0); [| exact H]. clear H. intros [] ? H. op1 H. by apply tl_cleanup_run.
Qed.

Lemma test_f_run s : idle s → twp (threadlisttest_f tl) (λ _, idle) s.
Proof using Hlen Hnd Hnz.
  intros H. unfold threadlisttest_f. call tl_init_run; [| done]. clear s H. intros [] s H.
  apply twp_bind. eapply twp_mono; [| apply (twp_for_loop (λ i, has (seq 0 (Z.to_nat i)))); [exact H |]].
  2: { intros i s1 Hi H1. replace (Z.to_nat (i + 1)) with (Z.to_nat i + 1)%nat by lia. rewrite seq_app. cbn [seq Nat.add].
       apply addtail_run; [done | unfold NUMNAMES in *; lia |]. rewrite elem_of_seq. lia. }
  clear s H. intros [] s H. change (seq 0 _) with (seq 0 7) in H. op1 H.
  assert (∀ f, (∀ acc i a, (i < NUMNAMES)%nat → (if Nat.eqb i (f acc) then Some (S acc) else None) = Some a →
    (x ← fake (f acc); check (th i =? x) ;; mret (S acc)) s = Done a s)) as Hb.
  { intros f acc i a Hi. destruct (Nat.eqb_spec i (f acc)) as [-> |]; [| done]. intros [= <-].
    unfold mbind, M_bind. rewrite (fake_run _ _ _ H). unfold check, kassert. by rewrite Z.eqb_refl. }
  apply twp_bind. eapply twp_done; [by eapply (forall_run _ _ s (Hb id)) |]. apply twp_bind, twp_kassert; [done |].
  apply twp_bind. eapply twp_done; [by eapply (forall_rev_run _ _ s (Hb (λ i, NUMNAMES - i - 1)%nat)) |].
  apply twp_bind, twp_kassert; [done |]. call (drain_run 7 0); [| exact H]. clear H. intros [] ? H.
  eapply twp_done; [by eapply check_count_run |]. by apply has_idle.
Qed.

(** *** Destroying the threads *)

Lemma destroy_run s i :
  (i < NUMNAMES)%nat → t_stack s (th i) = FAKE_MAGIC → detached (tls s) (th i) → fakethread_destroy (th i) s = Done tt s.
Proof using Hlen Hnz.
  intros Hi Hm (Hs & Hp & Hn). unfold fakethread_destroy, gets, kassert, on_tl, zoom, threadlistnode_cleanup, mbind, M_bind.
  rewrite Hm. cbn -[th]. unfold gets. rewrite Hn, Hp, Hs. cbn -[th]. rewrite (proj2 (Z.eqb_neq _ _)) by (by apply Hnz, th_in).
  by destruct s.
Qed.

Lemma destroy_all_run s : idle s →
  twp (for_loop NUMNAMES 0 (λ i, t ← fake (Z.to_nat i); fakethread_destroy t ;; modify (set_fake (Z.to_nat i) 0))) (λ _ _, True) s.
Proof using Hlen Hnz.
  intros H. eapply twp_mono; [| apply (twp_for_loop (λ i s1,
    length (fakethreads s1) = NUMNAMES ∧ tls s1 = tls s ∧ t_stack s1 = t_stack s ∧
    ∀ j, i <= Z.of_nat j → nth j (fakethreads s1) 0 = th j))]; [done | |].
  - rewrite (id_fake _ H). done.
  - intros i s1 Hi (Hl & Et & Es & Hf). unfold fake. twp_steps. rewrite Hf by lia.
    eapply twp_done; [apply destroy_run; [lia | rewrite Es; apply H; lia | rewrite Et; apply H; lia] |].
    twp_steps. cbn. rewrite length_insert. split_and!; try done. intros j Hj. rewrite nth_lookup.
    rewrite list_lookup_insert_ne by lia. rewrite <- nth_lookup. apply Hf. lia.
Qed.
End passes.

(** *** Creating them *)

Section create.
Context (alloc dup : Z → Z).
Context (Halloc : ∀ i, 0 <= i < 7 → alloc i ≠ 0) (Hdup : ∀ i, 0 <= i < 7 → dup i ≠ 0).
Context (Hinj : ∀ i j, 0 <= i < 7 → 0 <= j < 7 → alloc i = alloc j → i = j).

Definition ts_of : list Z := map alloc (seqZ 0 7).

Lemma th_alloc i : (i < NUMNAMES)%nat → th ts_of i = alloc (Z.of_nat i).
Proof.
  intros Hi. unfold th, ts_of. rewrite nth_lookup, list_lookup_fmap.
  rewrite (proj2 (lookup_seqZ 0 7 i (Z.of_nat i))); [done | unfold NUMNAMES in Hi; lia].
Qed.

Lemma ts_nodup : NoDup ts_of.
Proof using Hinj.
  apply NoDup_fmap_2_strong; [| apply NoDup_seqZ]. intros i j Hi%elem_of_seqZ Hj%elem_of_seqZ. apply Hinj; lia.
Qed.

Lemma ts_nonzero t : t ∈ ts_of → t ≠ 0.
Proof using Halloc. intros (i & -> & Hi%elem_of_seqZ)%list_elem_of_fmap. apply Halloc. lia. Qed.

(** The first [i] threads have been created. *)
Record created (i : Z) (s : state) : Prop := {
  cr_len : length (fakethreads s) = NUMNAMES;
  cr_done j : 0 <= j < i → fakethreads s !! Z.to_nat j = Some (alloc j) ∧
    t_name s (alloc j) = nm (Z.to_nat j) ∧ t_stack s (alloc j) = FAKE_MAGIC ∧ detached (tls s) (alloc j)
}.

Lemma fake_create_run i s :
  0 <= i < 7 → created i s →
  twp (t ← fakethread_create (nth (Z.to_nat i) names EmptyString) (alloc i) (dup i);
       modify (set_fake (Z.to_nat i) t)) (λ _, created (i + 1)) s.
Proof using All.
  intros Hi [Hl Hd]. unfold fakethread_create. rewrite (proj2 (Z.eqb_neq _ _) (Halloc i Hi)), (proj2 (Z.eqb_neq _ _) (Hdup i Hi)).
  twp_steps. apply twp_zoom. unfold threadlistnode_init, set_next, set_prev, set_self. twp_steps.
  { by rewrite (proj2 (Z.eqb_neq _ _) (Halloc i Hi)). }
  set (t1 := upd_node _ _ _). split; cbn [fakethreads set_fake with_tls upd]; [by rewrite length_insert |].
  intros j Hj. destruct (Z.eqb_spec j i) as [-> | Hne].
  - rewrite list_lookup_insert_eq by (unfold NUMNAMES in *; lia). cbn. rewrite Z.eqb_refl. split_and!; try done.
    unfold detached, t1. cbn. by rewrite !decide_True by done.
  - assert (alloc j ≠ alloc i) as Hne' by (intros E; apply Hne, Hinj; [lia | lia | done]).
    destruct (Hd j ltac:(lia)) as (Ef & En & Es & Hdet). rewrite list_lookup_insert_ne by lia. cbn.
    rewrite (proj2 (Z.eqb_neq _ _) Hne'). split_and!; try done. unfold detached, t1.
    by rewrite !nodes_upd_ne by (intros [= ?]; by apply Hne').
Qed.

Lemma create_all_run s :
  length (fakethreads s) = NUMNAMES →
  twp (for_loop NUMNAMES 0 (λ i,
    t ← fakethread_create (nth (Z.to_nat i) names EmptyString) (alloc i) (dup i);
    modify (set_fake (Z.to_nat i) t))) (λ _, idle ts_of) s.
Proof using All.
  intros Hl. eapply twp_mono; [| apply (twp_for_loop created); [split; [done | intros; lia] |]].
  2: { intros i s1 Hi. by apply fake_create_run. }
  intros [] s1 [Hl1 Hd]. change (0 + Z.of_nat NUMNAMES) with 7 in Hd. split.
  - apply list_eq. intros i. destruct (decide (i < 7)%nat) as [Hi |].
    + destruct (Hd (Z.of_nat i) ltac:(lia)) as [E _]. rewrite Nat2Z.id in E. rewrite E. unfold ts_of.
      rewrite list_lookup_fmap, (proj2 (lookup_seqZ 0 7 i (Z.of_nat i))); [done | lia].
    + rewrite !lookup_ge_None_2; [done | unfold ts_of; rewrite length_map, length_seqZ; lia |].
      rewrite Hl1. unfold NUMNAMES. lia.
  - intros i Hi. unfold NUMNAMES in Hi. rewrite th_alloc by done. destruct (Hd (Z.of_nat i) ltac:(lia)) as (_ & E & _).
    by rewrite Nat2Z.id in E.
  - intros i Hi. unfold NUMNAMES in Hi. rewrite th_alloc by done. apply (Hd (Z.of_nat i)). lia.
  - intros i Hi. unfold NUMNAMES in Hi. rewrite th_alloc by done. apply (Hd (Z.of_nat i)). lia.
Qed.

Lemma threadlisttest_passes tl s :
  length (fakethreads s) = NUMNAMES → twp (threadlisttest tl alloc dup) (λ r _, r = 0) s.
Proof using All.
  intros Hl. unfold threadlisttest.
  pose proof ts_nodup as Hnd. pose proof ts_nonzero as Hnz. assert (length ts_of = NUMNAMES) as Hlen by done.
  call create_all_run; [| done]. clear s Hl. intros [] s H.
  call (test_a_run tl ts_of); [| exact H]. clear s H. intros [] s H.
  call (test_b_run tl ts_of Hlen Hnd Hnz); [| exact H]. clear s H. intros [] s H.
  call (test_c_run tl ts_of Hlen Hnd Hnz); [| exact H]. clear s H. intros [] s H.
  call (test_d_run tl ts_of Hlen Hnd Hnz); [| exact H]. clear s H. intros [] s H.
  call (test_e_run tl ts_of Hlen Hnd Hnz); [| exact H]. clear s H. intros [] s H.
  call (test_f_run tl ts_of Hlen Hnd Hnz); [| exact H]. clear s H. intros [] s H.
  call (destroy_all_run ts_of Hlen Hnz); [| exact H]. done.
Qed.
End create.

(** ** The tests *)

Lemma twp_zero {S} (m : M S Z) s : twp m (λ r _, r = 0) s → ∃ s', m s = Done 0 s'.
Proof. intros (r & s' & E & ->)%twp_ex. by exists s'. Qed.

(** C19: The kernel's own unit tests of bitmaps, arrays and thread lists (bt, at and tlt of
    the menu) pass: when every request of up to a page is given memory, as many words as
    asked for, whatever happens to larger ones, whatever random() returns and wherever the
    threads are put, each of them runs to its end and returns 0, so that none of its
    assertions, nor any of those in the code it calls, fails.  (The fourth, at2, needs
    blocks of several pages.) *)
Theorem unit_tests_pass kmalloc_block alloc dup rnd rnd1 rnd2 arr tl bs a ls :
  (∀ sz, 0 <= sz <= PAGE_SIZE →
     ∃ b, kmalloc_block sz = Some b ∧ Z.of_nat (length b) = sz / Array.SIZEOF_PTR) →
  (∀ i, 0 <= i < 7 → alloc i ≠ 0) → (∀ i, 0 <= i < 7 → dup i ≠ 0) →
  (∀ i j, 0 <= i < 7 → 0 <= j < 7 → alloc i = alloc j → i = j) →
  length (BitmapTest.data bs) = Z.to_nat BitmapTest.TESTSIZE → length (fakethreads ls) = NUMNAMES →
  (∃ bs', BitmapTest.bitmaptest rnd true true bs = Done 0 bs') ∧
  (∃ a', ArrayTest.arraytest kmalloc_block true arr rnd1 rnd2 a = Done 0 a') ∧
  (∃ ls', threadlisttest tl alloc dup ls = Done 0 ls').
Proof.
  intros Hk Ha Hd Hi Hb Hl. split_and!; apply twp_zero.
  - by apply BitmapTest.bitmaptest_passes.
  - by apply (ArrayTest.arraytest_passes kmalloc_block 10).
  - by apply threadlisttest_passes.
Qed.

(** Nothing larger than a page can be had. *)
Definition w_heap (sz : Z) : option (list Z) :=
  if PAGE_SIZE <? sz then None else Some (replicate (Z.to_nat (sz / Array.SIZEOF_PTR)) 0).
Definition w_bits : BitmapTest.state := BitmapTest.mkS (Bitmap.mkBitmap 0 []) (replicate 533 0).
Definition w_lists : state :=
  mkS (mkTl (λ _, mkNode None None 0) (λ _, 0)) (λ _, EmptyString) (λ _, 0) (replicate 7 0).

Lemma unit_tests_pass_witness :
  (∃ bs', BitmapTest.bitmaptest (λ i, i * i) true true w_bits = Done 0 bs') ∧
  (∃ a', ArrayTest.arraytest w_heap true 5000 (λ i, i) (λ i, 7 * i) Array.array_init = Done 0 a') ∧
  (∃ ls', threadlisttest 4096 (λ i, 8192 + 64 * i) (λ i, 9000 + i) w_lists = Done 0 ls').
Proof.
  destruct (unit_tests_pass w_heap (λ i, 8192 + 64 * i) (λ i, 9000 + i) (λ i, i * i) (λ i, i) (λ i, 7 * i) 5000 4096
              w_bits Array.array_init w_lists) as (Hb & Ha & Ht).
  - intros sz Hsz. unfold w_heap. rewrite (proj2 (Z.ltb_ge _ _)) by lia. eexists. split; [reflexivity |].
    rewrite length_replicate. unfold Array.SIZEOF_PTR. pose proof (Z.div_pos sz 4 ltac:(lia) ltac:(lia)). lia.
  - intros; lia.
  - intros; lia.
  - intros; lia.
  - done.
  - done.
  - split; [exact Hb | split; [exact Ha | exact Ht]].
Defined.

End ListTests.
