(* ===== verification/SortProg.v ===== *)
(** * The user program sort.c (testbin_code/sort.c)

    A merge sort of an array of 144 * 1024 integers in the program's memory, with a
    static buffer that all levels of the recursion share.  Indices stay below the size of
    the array and are natural numbers; an access outside of an array is a panic.  The
    theorem: sort returns, having permuted the elements it was given into ascending order
    and changed nothing else, and the program reports success. *)

From stdpp Require Import base list sorting numbers strings.
From Stdlib Require Import ZArith Lia.
From S2P Require Import Prelude KernTests.
Import KernTests.

#[local] Open Scope Z_scope.

Module SortProg.

Definition SIZE : nat := 144 * 1024.
Lemma SIZE_pos : (5 < SIZE)%nat.
Proof. unfold SIZE. lia. Qed.
#[global] Opaque SIZE.

(** The array [A] and the static buffer of sort. *)
Record st := mkSt { A : list Z; tmp : list Z }.
Definition with_tmp x s := mkSt (A s) x.
Abbreviation P := (M st).

(** [arr] is an index of [A]. *)
Definition get (arr i : nat) : P Z := deref (λ s, A s !! (arr + i)%nat) "arr[i]".
Definition put (k : nat) (x : Z) : P unit :=
  n ← gets (λ s, length (tmp s));
  kassert (Nat.ltb k n) "tmp[k]" ;; modify (λ s, with_tmp (<[k := x]> (tmp s)) s).

(** The first loop; the indices it ends with. *)
Fixpoint merge_loop (fuel arr pivot size i j k : nat) : P (nat * nat * nat) :=
  match fuel with
  | O => nofuel
  | S fuel' =>
      if Nat.ltb i pivot && Nat.ltb j size then
        x ← get arr i; y ← get arr j;
        if x <? y then put k x ;; merge_loop fuel' arr pivot size (i + 1) j (k + 1)
        else put k y ;; merge_loop fuel' arr pivot size i (j + 1) (k + 1)
      else mret (i, j, k)
  end.

(** The other two. *)
Fixpoint copy_loop (fuel arr limit i k : nat) : P nat :=
  match fuel with
  | O => nofuel
  | S fuel' =>
      if Nat.ltb i limit then x ← get arr i; put k x ;; copy_loop fuel' arr limit (i + 1) (k + 1)
      else mret k
  end.

Definition memcpy (arr size : nat) : P unit :=
  modify (λ s, mkSt (take arr (A s) ++ take size (tmp s) ++ drop (arr + size) (A s)) (tmp s)).

(** [fuel] bounds the depth of the recursion. *)
Fixpoint sort (fuel arr size : nat) : P unit :=
  match fuel with
  | O => nofuel
  | S fuel' =>
      if Nat.ltb size 2 then mret tt
      else
        let pivot := (size / 2)%nat in
        sort fuel' arr pivot ;;
        sort fuel' (arr + pivot) (size - pivot) ;;
        '(i, j, k) ← merge_loop (S size) arr pivot size 0 pivot 0;
        k ← copy_loop (S pivot) arr pivot i k;
        k ← copy_loop (S size) arr size j k;
        memcpy arr size
  end.

Definition initarray (random : nat → Z) : P unit :=
  modify (λ s, mkSt (s32 ∘ random <$> seq 0 SIZE) (tmp s)).

(** Whether the message is Passed. *)
Fixpoint check_loop (n i : nat) : P bool :=
  match n with
  | O => mret true
  | S n' => x ← get 0 i; y ← get 0 (i + 1); if y <? x then mret false else check_loop n' (i + 1)
  end.
Definition check : P bool := check_loop (SIZE - 1) 0.

Definition main (random : nat → Z) : P bool :=
  initarray random ;; sort (S SIZE) 0 SIZE ;; check.

(** ** Segments of the array *)

Definition seg (l : list Z) (b n : nat) : list Z := take n (drop b l).

Lemma seg_snoc l b n x : l !! (b + n)%nat = Some x → seg l b (n + 1) = seg l b n ++ [x].
Proof.
  intros E. unfold seg. rewrite Nat.add_1_r. apply take_S_r. by rewrite lookup_drop.
Qed.
Lemma seg_cons l b n x : l !! b = Some x → (0 < n)%nat → seg l b n = x :: seg l (b + 1) (n - 1).
Proof.
  intros E Hn. unfold seg. destruct n as [|n]; [lia |]. rewrite (drop_S l x b E). cbn. by rewrite Nat.add_1_r, Nat.sub_0_r.
Qed.
Lemma seg_split l b n m : seg l b (n + m) = seg l b n ++ seg l (b + n) m.
Proof. unfold seg. by rewrite <- take_take_drop, drop_drop. Qed.
Lemma seg_length l b n : (b + n <= length l)%nat → length (seg l b n) = n.
Proof. intros. unfold seg. rewrite length_take, length_drop. lia. Qed.
Lemma seg_all l : seg l 0 (length l) = l.
Proof. unfold seg. rewrite drop_0. by apply take_ge. Qed.

Abbreviation ascending := (StronglySorted Z.le).

(** ** The loops *)

Lemma get_run arr i s x : A s !! (arr + i)%nat = Some x → get arr i s = Done x s.
Proof. intros E. unfold get, deref. by rewrite E. Qed.
Lemma put_run k x s : (k < length (tmp s))%nat → put k x s = Done tt (with_tmp (<[k := x]> (tmp s)) s).
Proof. intros Hk. unfold put, gets, kassert, mbind, M_bind. by rewrite (proj2 (Nat.ltb_lt _ _) Hk). Qed.

Lemma take_put (l : list Z) k x : (k < length l)%nat → take (k + 1) (<[k := x]> l) = take k l ++ [x].
Proof.
  intros Hk. rewrite Nat.add_1_r, (take_S_r _ _ x) by (by apply list_lookup_insert_eq). by rewrite take_insert_ge by lia.
Qed.

Lemma copy_run fuel : ∀ arr limit i k s,
  (i <= limit)%nat → (limit - i < fuel)%nat → (arr + limit <= length (A s))%nat → (k + (limit - i) <= length (tmp s))%nat →
  twp (copy_loop fuel arr limit i k) (λ k' s', k' = (k + (limit - i))%nat ∧ A s' = A s ∧ length (tmp s') = length (tmp s) ∧
    take k' (tmp s') = take k (tmp s) ++ seg (A s) (arr + i) (limit - i)) s.
Proof.
  induction fuel as [|fuel IH]; intros arr limit i k s Hi Hf HA Ht; [lia |]. cbn [copy_loop].
  destruct (Nat.ltb_spec i limit).
  - destruct (lookup_lt_is_Some_2 (A s) (arr + i) ltac:(lia)) as [x Hx].
    call_done get_run. apply twp_bind. eapply twp_done; [apply put_run; lia |].
    eapply twp_mono; [| apply IH; cbn; rewrite ?length_insert; lia]. cbn. intros k' s' (-> & EA & El & Et).
    rewrite length_insert in El. split_and!; [lia | done | done |]. replace (k + (limit - i))%nat with (k + 1 + (limit - (i + 1)))%nat by lia.
    rewrite Et, take_put by lia. rewrite (seg_cons (A s) (arr + i) (limit - i) x) by (done || lia).
    rewrite <- app_assoc. cbn. replace (arr + (i + 1))%nat with (arr + i + 1)%nat by lia.
    by replace (limit - (i + 1))%nat with (limit - i - 1)%nat by lia.
  - apply twp_ret. replace (limit - i)%nat with 0%nat by lia. rewrite Nat.add_0_r.
    split_and!; try done. unfold seg. by rewrite take_0, app_nil_r.
Qed.

(** What is in the buffer: [i] elements of the first half and [j - pivot] of the second,
    ascending, and none above what is left. *)
Record merged (s0 : st) (arr pivot size i j k : nat) (s : st) : Prop := {
  mg_A : A s = A s0;
  mg_len : length (tmp s) = length (tmp s0);
  mg_ij : (i <= pivot)%nat ∧ (pivot <= j <= size)%nat ∧ k = (i + (j - pivot))%nat;
  mg_perm : take k (tmp s) ≡ₚ seg (A s0) arr i ++ seg (A s0) (arr + pivot) (j - pivot);
  mg_asc : ascending (take k (tmp s));
  mg_below x y : x ∈ take k (tmp s) →
    y ∈ seg (A s0) (arr + i) (pivot - i) ++ seg (A s0) (arr + j) (size - j) → x <= y
}.

Section merge.
Context (s0 : st) (arr pivot size : nat).
Context (HA : (arr + size <= length (A s0))%nat) (Ht : (size <= length (tmp s0))%nat).
Context (Hl : ascending (seg (A s0) arr pivot)) (Hr : ascending (seg (A s0) (arr + pivot) (size - pivot))).

Lemma rest_left i x :
  (i < pivot)%nat → A s0 !! (arr + i)%nat = Some x → ∀ y, y ∈ seg (A s0) (arr + i) (pivot - i) → x <= y.
Proof using All.
  intros Hi Hx y Hy. replace pivot with (i + (pivot - i))%nat in Hl by lia. rewrite seg_split in Hl.
  apply StronglySorted_app in Hl as (_ & _ & Hs). rewrite (seg_cons _ _ _ x Hx) in Hs, Hy by lia.
  apply elem_of_cons in Hy as [-> | Hy]; [done |]. apply StronglySorted_inv in Hs as [_ Hs].
  rewrite Forall_forall in Hs. by apply Hs.
Qed.

Lemma rest_right j y :
  (pivot <= j < size)%nat → A s0 !! (arr + j)%nat = Some y → ∀ x, x ∈ seg (A s0) (arr + j) (size - j) → y <= x.
Proof using All.
  intros Hj Hy x Hx. replace (size - pivot)%nat with (j - pivot + (size - j))%nat in Hr by lia. rewrite seg_split in Hr.
  apply StronglySorted_app in Hr as (_ & _ & Hs). replace (arr + pivot + (j - pivot))%nat with (arr + j)%nat in Hs by lia.
  rewrite (seg_cons _ _ _ y Hy) in Hs, Hx by lia.
  apply elem_of_cons in Hx as [-> | Hx]; [done |]. apply StronglySorted_inv in Hs as [_ Hs].
  rewrite Forall_forall in Hs. by apply Hs.
Qed.

(** Appending an element [x] that is above the buffer and not above the rest. *)
Lemma merged_left i j k s x :
  merged s0 arr pivot size i j k s → (i < pivot)%nat → A s0 !! (arr + i)%nat = Some x →
  (∀ y, y ∈ seg (A s0) (arr + j) (size - j) → x <= y) →
  merged s0 arr pivot size (i + 1) j (k + 1) (with_tmp (<[k := x]> (tmp s)) s).
Proof using All.
  intros [EA El (Hi & Hj & Hk) Hp Ha Hb] Hi' Hx Hxr. assert (k < length (tmp s))%nat as Hkl by lia.
  rewrite (seg_cons _ _ (pivot - i) x Hx) in Hb by lia.
  split; cbn; rewrite ?length_insert, ?take_put by done; try done; [lia | | |].
  - rewrite (seg_snoc _ arr i x Hx), Hp, <- !app_assoc. apply Permutation_app_head, Permutation_app_comm.
  - apply StronglySorted_app_2; [| done | by repeat constructor]. intros y z Hy ->%list_elem_of_singleton.
    apply Hb; [done |]. left.
  - intros y z [Hy | ->%list_elem_of_singleton]%elem_of_app Hz.
    + apply Hb; [done |]. cbn. right. replace (arr + i + 1)%nat with (arr + (i + 1))%nat by lia.
      by replace (pivot - i - 1)%nat with (pivot - (i + 1))%nat by lia.
    + apply elem_of_app in Hz as [Hz | Hz]; [| by apply Hxr]. apply (rest_left i x Hi' Hx).
      rewrite (seg_cons _ _ (pivot - i) x Hx) by lia. right. replace (arr + i + 1)%nat with (arr + (i + 1))%nat by lia.
      by replace (pivot - i - 1)%nat with (pivot - (i + 1))%nat by lia.
Qed.

Lemma merged_right i j k s y :
  merged s0 arr pivot size i j k s → (j < size)%nat → A s0 !! (arr + j)%nat = Some y →
  (∀ x, x ∈ seg (A s0) (arr + i) (pivot - i) → y <= x) →
  merged s0 arr pivot size i (j + 1) (k + 1) (with_tmp (<[k := y]> (tmp s)) s).
Proof using All.
  intros [EA El (Hi & Hj & Hk) Hp Ha Hb] Hj' Hy Hyl. assert (k < length (tmp s))%nat as Hkl by lia.
  rewrite (seg_cons _ _ (size - j) y Hy) in Hb by lia.
  split; cbn; rewrite ?length_insert, ?take_put by done; try done; [lia | | |].
  - replace (j + 1 - pivot)%nat with (j - pivot + 1)%nat by lia.
    rewrite (seg_snoc _ (arr + pivot) (j - pivot) y) by (rewrite <- Hy; f_equal; lia). by rewrite Hp, <- !app_assoc.
  - apply StronglySorted_app_2; [| done | by repeat constructor]. intros x z Hx ->%list_elem_of_singleton.
    apply Hb; [done |]. apply elem_of_app. right. left.
  - intros x z [Hx | ->%list_elem_of_singleton]%elem_of_app Hz.
    + apply Hb; [done |]. apply elem_of_app in Hz as [Hz | Hz]; apply elem_of_app; [by left |]. right. right.
      replace (arr + j + 1)%nat with (arr + (j + 1))%nat by lia. by replace (size - j - 1)%nat with (size - (j + 1))%nat by lia.
    + apply elem_of_app in Hz as [Hz | Hz]; [by apply Hyl |]. apply (rest_right j y ltac:(lia) Hy).
      rewrite (seg_cons _ _ (size - j) y Hy) by lia. right. replace (arr + j + 1)%nat with (arr + (j + 1))%nat by lia.
      by replace (size - j - 1)%nat with (size - (j + 1))%nat by lia.
Qed.

Lemma merge_run fuel : ∀ i j k s,
  merged s0 arr pivot size i j k s → (pivot - i + (size - j) < fuel)%nat →
  twp (merge_loop fuel arr pivot size i j k) (λ '(i', j', k') s',
    merged s0 arr pivot size i' j' k' s' ∧ (i' = pivot ∨ j' = size)) s.
Proof using All.
  induction fuel as [|fuel IH]; intros i j k s Hm Hf; [lia |]. cbn [merge_loop].
  pose proof (mg_ij _ _ _ _ _ _ _ _ Hm) as (Hi & Hj & Hk). pose proof (mg_A _ _ _ _ _ _ _ _ Hm) as EA.
  destruct (Nat.ltb_spec i pivot) as [Hip |]; [destruct (Nat.ltb_spec j size) as [Hjs |] |]; cbn [andb].
  2, 3: apply twp_ret; split; [done | lia].
  destruct (lookup_lt_is_Some_2 (A s0) (arr + i) ltac:(lia)) as [x Hx].
  destruct (lookup_lt_is_Some_2 (A s0) (arr + j) ltac:(lia)) as [y Hy].
  apply twp_bind. eapply twp_done; [apply get_run; by rewrite EA |].
  apply twp_bind. eapply twp_done; [apply get_run; by rewrite EA |].
  pose proof (mg_len _ _ _ _ _ _ _ _ Hm). destruct (Z.ltb_spec x y) as [Hlt | Hge]; apply twp_bind;
    (eapply twp_done; [apply put_run; lia |]); apply IH; try lia.
  - eapply merged_left; [done | done | done |]. intros z Hz. pose proof (rest_right j y ltac:(lia) Hy z Hz). lia.
  - eapply merged_right; [done | done | done |]. intros z Hz. pose proof (rest_left i x Hip Hx z Hz). lia.
Qed.
End merge.

(** ** sort *)

(** [l'] is [l] with its [n] elements from [b] on permuted into ascending order. *)
Record sorted_in (l l' : list Z) (b n : nat) : Prop := {
  si_len : length l' = length l;
  si_out i : ¬ (b <= i < b + n)%nat → l' !! i = l !! i;
  si_perm : seg l' b n ≡ₚ seg l b n;
  si_asc : ascending (seg l' b n)
}.

Lemma part_ext l l' b n : (∀ i, (b <= i < b + n)%nat → l !! i = l' !! i) → seg l b n = seg l' b n.
Proof.
  intros E. apply list_eq. intros i. unfold seg. destruct (decide (i < n)%nat).
  - rewrite !lookup_take_lt, !lookup_drop by done. apply E. lia.
  - by rewrite !lookup_take_ge by lia.
Qed.

(** Two halves that have been sorted one after the other, with the elements outside as
    they were. *)
Lemma halves l l1 l2 b p n :
  (p <= n)%nat → sorted_in l l1 b p → sorted_in l1 l2 (b + p) (n - p) →
  length l2 = length l ∧ (∀ i, ¬ (b <= i < b + n)%nat → l2 !! i = l !! i) ∧ seg l2 b n ≡ₚ seg l b n ∧
  ascending (seg l2 b p) ∧ ascending (seg l2 (b + p) (n - p)).
Proof.
  intros Hp [L1 O1 P1 A1] [L2 O2 P2 A2].
  assert (seg l2 b p = seg l1 b p) as E1 by (apply part_ext; intros i Hi; apply O2; lia).
  assert (seg l1 (b + p) (n - p) = seg l (b + p) (n - p)) as E2 by (apply part_ext; intros i Hi; apply O1; lia).
  split_and!.
  - congruence.
  - intros i Hi. rewrite O2, O1 by lia. done.
  - replace n with (p + (n - p))%nat by lia. rewrite !seg_split, E1, P1.
    replace (p + (n - p) - p)%nat with (n - p)%nat by lia. by rewrite P2, E2.
  - by rewrite E1.
  - done.
Qed.

Lemma memcpy_seg l t b n :
  (b + n <= length l)%nat → (n <= length t)%nat →
  let l' := take b l ++ take n t ++ drop (b + n) l in
  length l' = length l ∧ (∀ i, ¬ (b <= i < b + n)%nat → l' !! i = l !! i) ∧ seg l' b n = take n t.
Proof.
  intros Hb Hn l'. unfold l'. split_and!.
  - rewrite !length_app, !length_take, length_drop. lia.
  - intros i Hi. destruct (decide (i < b)%nat).
    + rewrite lookup_app_l by (rewrite length_take; lia). by rewrite lookup_take_lt.
    + rewrite !lookup_app_r by (rewrite ?length_take; lia). rewrite lookup_drop, !length_take. f_equal. lia.
  - unfold seg. rewrite drop_app_length' by (rewrite length_take; lia).
    by rewrite take_app_length' by (rewrite length_take; lia).
Qed.

Lemma merge_all_run s0 arr pivot size :
  (arr + size <= length (A s0))%nat → (size <= length (tmp s0))%nat → (pivot <= size)%nat →
  ascending (seg (A s0) arr pivot) → ascending (seg (A s0) (arr + pivot) (size - pivot)) →
  twp ('(i, j, k) ← merge_loop (S size) arr pivot size 0 pivot 0;
       k ← copy_loop (S pivot) arr pivot i k;
       k ← copy_loop (S size) arr size j k;
       memcpy arr size)
    (λ _ s', length (tmp s') = length (tmp s0) ∧ sorted_in (A s0) (A s') arr size) s0.
Proof.
  intros HA Ht Hp Hl Hr. call (merge_run s0 arr pivot size HA Ht Hl Hr); [| | lia].
  2: { split; try done; [lia | by rewrite Nat.sub_diag | constructor |]. intros x y []%elem_of_nil. }
  intros [[i j] k] s1 [[EA El (Hi & Hj & Hk) Hperm Ha Hb] Hend].
  call copy_run; [| lia | lia | by rewrite EA; lia | lia]. intros k1 s2 (-> & EA2 & El2 & Et2).
  call copy_run; [| lia | lia | by rewrite EA2, EA; lia | lia]. intros k2 s3 (-> & EA3 & El3 & Et3).
  apply twp_modify. cbn. split; [congruence |]. rewrite EA3, EA2, EA in *.
  replace (k + (pivot - i) + (size - j))%nat with size in Et3 by lia. rewrite Et2 in Et3.
  destruct (memcpy_seg (A s0) (tmp s3) arr size) as (L & O & E); [done | lia |].
  set (rest := seg (A s0) (arr + i) (pivot - i) ++ seg (A s0) (arr + j) (size - j)) in *.
  rewrite <- app_assoc in Et3. fold rest in Et3. split; [done | done | |]; rewrite E, Et3.
  - rewrite Hperm. replace (seg (A s0) arr size) with (seg (A s0) arr pivot ++ seg (A s0) (arr + pivot) (size - pivot))
      by (rewrite <- seg_split; f_equal; lia).
    replace (seg (A s0) arr pivot) with (seg (A s0) arr i ++ seg (A s0) (arr + i) (pivot - i))
      by (rewrite <- seg_split; f_equal; lia).
    replace (seg (A s0) (arr + pivot) (size - pivot))
      with (seg (A s0) (arr + pivot) (j - pivot) ++ seg (A s0) (arr + j) (size - j))
      by (replace (arr + j)%nat with (arr + pivot + (j - pivot))%nat by lia; rewrite <- seg_split; f_equal; lia).
    unfold rest. rewrite <- !app_assoc. apply Permutation_app_head. rewrite !app_assoc.
    apply Permutation_app_tail, Permutation_app_comm.
  - apply StronglySorted_app_2; [exact Hb | done |]. unfold rest. destruct Hend as [-> | ->].
    + rewrite Nat.sub_diag. cbn. replace (size - pivot)%nat with (j - pivot + (size - j))%nat in Hr by lia.
      rewrite seg_split in Hr. apply StronglySorted_app_1_r in Hr.
      by replace (arr + pivot + (j - pivot))%nat with (arr + j)%nat in Hr by lia.
    + rewrite Nat.sub_diag. unfold seg at 2. rewrite take_0, app_nil_r.
      replace pivot with (i + (pivot - i))%nat in Hl by lia. rewrite seg_split in Hl. by apply StronglySorted_app_1_r in Hl.
Qed.

Lemma sort_run fuel : ∀ arr size s,
  (size < fuel)%nat → (arr + size <= length (A s))%nat → (size <= length (tmp s))%nat →
  twp (sort fuel arr size) (λ _ s', length (tmp s') = length (tmp s) ∧ sorted_in (A s) (A s') arr size) s.
Proof.
  induction fuel as [|fuel IH]; intros arr size s Hf HA Ht; [lia |]. cbn [sort].
  destruct (Nat.ltb_spec size 2) as [Hlt | Hge].
  { apply twp_ret. split; [done |]. split; try done. pose proof (seg_length (A s) arr size HA) as Hl.
    destruct (seg (A s) arr size) as [|x [|y r]]; [constructor | by repeat constructor | cbn in Hl; lia]. }
  pose proof (Nat.div_lt size 2 ltac:(lia) ltac:(lia)). pose proof (Nat.div_str_pos size 2 ltac:(lia)).
  set (pivot := (size / 2)%nat) in *.
  call IH; [| lia | lia | lia]. intros [] s1 [T1 S1]. pose proof (si_len _ _ _ _ S1) as L1.
  call IH; [| lia | lia | lia]. intros [] s2 [T2 S2].
  destruct (halves (A s) (A s1) (A s2) arr pivot size) as (L & O & Pm & H1 & H2); [lia | done | done |].
  eapply twp_mono; [| apply merge_all_run; [lia | lia | lia | exact H1 | exact H2]].
  cbv beta. intros [] s3 [T3 [L3 O3 P3 A3]]. split; [congruence |]. split; [congruence | | by rewrite P3 | done].
  intros i Hi. rewrite O3, O by done. done.
Qed.

Lemma ascending_lookup l i x y : ascending l → l !! i = Some x → l !! (i + 1)%nat = Some y → x <= y.
Proof.
  intros Ha Hx Hy. rewrite <- (take_drop (i + 1) l) in Ha. apply StronglySorted_app in Ha as (Hle & _ & _).
  apply Hle; apply list_elem_of_lookup.
  - exists i. rewrite lookup_take_lt by lia. done.
  - exists 0%nat. by rewrite lookup_drop, Nat.add_0_r.
Qed.

Lemma check_run n : ∀ i s, ascending (A s) → (i + n < length (A s))%nat → check_loop n i s = Done true s.
Proof.
  induction n as [|n IH]; intros i s Ha Hl; [done |]. cbn [check_loop].
  destruct (lookup_lt_is_Some_2 (A s) i ltac:(lia)) as [x Hx].
  destruct (lookup_lt_is_Some_2 (A s) (i + 1) ltac:(lia)) as [y Hy].
  unfold mbind, M_bind. rewrite (get_run 0 i s x), (get_run 0 (i + 1) s y) by done.
  pose proof (ascending_lookup _ _ _ _ Ha Hx Hy). rewrite (proj2 (Z.ltb_ge y x)) by done. apply IH; [done | lia].
Qed.

(** C28: The sort program is correct: a call of sort on any part of an array, with the static
    buffer large enough, returns; it has permuted these elements into ascending order and
    changed no other element.  So the program, which sorts its array of 147456 integers,
    prints Passed whatever random() returns. *)
Theorem sort_correct arr size s random :
  (arr + size <= length (A s))%nat → (size <= length (tmp s))%nat → length (tmp s) = SIZE →
  (∃ s', sort (S size) arr size s = Done tt s' ∧ sorted_in (A s) (A s') arr size) ∧
  ∃ s', main random s = Done true s' ∧ ascending (A s') ∧ A s' ≡ₚ (s32 ∘ random <$> seq 0 SIZE).
Proof.
  intros HA Ht HT. split.
  - destruct (proj1 (twp_ex _ _ _) (sort_run (S size) arr size s ltac:(lia) HA Ht)) as ([] & s' & E & _ & H). by exists s'.
  - set (s1 := mkSt (s32 ∘ random <$> seq 0 SIZE) (tmp s)).
    assert (length (A s1) = SIZE) as HL by (cbn; by rewrite length_fmap, length_seq).
    destruct (proj1 (twp_ex _ _ _) (sort_run (S SIZE) 0 SIZE s1 ltac:(lia) ltac:(cbn in *; lia) ltac:(cbn; lia)))
      as ([] & s2 & E & _ & [L O Pm Ha]).
    assert (A s2 ≡ₚ A s1) as HP by (rewrite <- (seg_all (A s2)), <- (seg_all (A s1)), L, HL; done).
    rewrite <- HL, <- L, seg_all in Ha. exists s2. split; [| by split].
    unfold main, initarray, modify, mbind, M_bind. fold s1. rewrite E. unfold check. apply check_run; [done |].
    rewrite L, HL. pose proof SIZE_pos. lia.
Qed.

(** The buffer is as the program's static data: zeros. *)
Definition w_st : st := mkSt [3; 9; 2; 7; 5; 2; 8] (replicate SIZE 0).

Lemma sort_correct_witness :
  (∃ s', sort 6 1 5 w_st = Done tt s' ∧ sorted_in (A w_st) (A s') 1 5) ∧
  ∃ s', main (λ i, Z.of_nat i * 7919) w_st = Done true s'.
Proof.
  destruct (sort_correct 1 5 w_st (λ i, Z.of_nat i * 7919)) as [H1 (s' & H2 & _)].
  - cbn. lia.
  - cbn. rewrite length_replicate. pose proof SIZE_pos. lia.
  - cbn. by rewrite length_replicate.
  - split; [exact H1 | by exists s'].
Defined.

End SortProg.
