(* ===== verification/UserProgs.v ===== *)
(** * The user programs palin.c, ctest.c, huge.c, matmult.c and bigexec.c (testbin_code)

    The programs the memory system is tried with.  What they compute does not depend on
    it, so it can be said what they print: the theorems give it. *)

From Stdlib Require Import ZArith Znumtheory Lia Ascii String.
From stdpp Require Import base list numbers strings.
From S2P Require Import Prelude KernTests.
Import KernTests.

#[local] Open Scope Z_scope.

Module UserProgs.

Lemma s32_small x : - 2 ^ 31 <= x < 2 ^ 31 → s32 x = x.
Proof.
  intros Hx. unfold s32, u32, wrap. destruct (Z_lt_dec x 0).
  - rewrite <- (Z_mod_plus_full x 1), Z.mod_small by lia. destruct (Z.ltb_spec (x + 1 * 2 ^ 32) (2 ^ 31)); lia.
  - rewrite Z.mod_small by lia. by rewrite (proj2 (Z.ltb_lt _ _)) by lia.
Qed.

(** ** palin.c *)

Module Palin.
Definition palindrome : string := String.concat EmptyString [
  "amanaplanacaretabanamyriadasumalacaliarahoopapintacatalpaagasanoil";
  "abirdayellavatacawapaxawagataxanayaramacapayamagayatsarawalla";
  "caralugerawardabinawomanavassalawolfatunaanitapallafretawattabaya";
  "daubatanacabadatumagallahatafagazapasayajawalayawetagallopatuga";
  "trotatrapatramatorracaperatopatonkatollaballafairasaxaminimatenora";
  "bassapasseracapitalarutanamenatedacabalatangasunanassamawasaga";
  "jamadamasubasaltanaxonasailanadawadiaradianaroomaroodaripatada";
  "pariaharevelareelareedapoolaplugapinapeekaparabolaadogapatacudanua";
  "fanapalarumanodanetaalaganeelabatikamugamotanapamaximamooda";
  "leekagrubagobageladrabacitadelatotalacedaratapagagaratamanorabara";
  "galacolaapapayawatabarajagabanagapaganabagajarabatawayapapaa";
  "localagarabaronamataragagapataradecalatotaledaticabardalegaboga";
  "burgakeeladoomamixamapanatomagumakitabaleenagalaatenadonamurala";
  "panafaunaducatapagodaalobarapakeepanipagulpaloopadeeraleeralevera";
  "hairapadatapiradooramooranaidaraidawadanaliasanoxanatlasabusamadam";
  "ajagasawamassananusagnatalabacadetanemanaturalatipacaressapassa";
  "baronetaminimaxasariafallaballotaknotapotarepacarrotamartapartatorta";
  "gutapollagatewayalawajayasapazagafatahallagamutadabacanatabuaday";
  "abattawaterfallapatinaanutaflowalassavanamowanibadrawaregularacalla";
  "warastayagamayapacamarayanaxatagawaxapawacatavalleyadribaliona";
  "sagaaplatacatnipapooharailacalamusadairymanabateracanalpanama";
  "amanaplanacaretabanamyriadasumalacaliarahoopapintacatalpaagasanoil";
  "abirdayellavatacawapaxawagataxanayaramacapayamagayatsarawalla";
  "caralugerawardabinawomanavassalawolfatunaanitapallafretawattabaya";
  "daubatanacabadatumagallahatafagazapasayajawalayawetagallopatuga";
  "trotatrapatramatorracaperatopatonkatollaballafairasaxaminimatenora";
  "bassapasseracapitalarutanamenatedacabalatangasunanassamawasaga";
  "jamadamasubasaltanaxonasailanadawadiaradianaroomaroodaripatada";
  "pariaharevelareelareedapoolaplugapinapeekaparabolaadogapatacudanua";
  "fanapalarumanodanetaalaganeelabatikamugamotanapamaximamooda";
  "leekagrubagobageladrabacitadelatotalacedaratapagagaratamanorabara";
  "galacolaapapayawatabarajagabanagapaganabagajarabatawayapapaa";
  "localagarabaronamataragagapataradecalatotaledaticabardalegaboga";
  "burgakeeladoomamixamapanatomagumakitabaleenagalaatenadonamurala";
  "panafaunaducatapagodaalobarapakeepanipagulpaloopadeeraleeralevera";
  "hairapadatapiradooramooranaidaraidawadanaliasanoxanatlasabusamadam";
  "ajagasawamassananusagnatalabacadetanemanaturalatipacaressapassa";
  "baronetaminimaxasariafallaballotaknotapotarepacarrotamartapartatorta";
  "gutapollagatewayalawajayasapazagafatahallagamutadabacanatabuaday";
  "abattawaterfallapatinaanutaflowalassavanamowanibadrawaregularacalla";
  "warastayagamayapacamarayanaxatagawaxapawacatavalleyadribaliona";
  "sagaaplatacatnipapooharailacalamusadairymanabateracanalpanama";
  "amanaplanacaretabanamyriadasumalacaliarahoopapintacatalpaagasanoil";
  "abirdayellavatacawapaxawagataxanayaramacapayamagayatsarawalla";
  "caralugerawardabinawomanavassalawolfatunaanitapallafretawattabaya";
  "daubatanacabadatumagallahatafagazapasayajawalayawetagallopatuga";
  "trotatrapatramatorracaperatopatonkatollaballafairasaxaminimatenora";
  "bassapasseracapitalarutanamenatedacabalatangasunanassamawasaga";
  "jamadamasubasaltanaxonasailanadawadiaradianaroomaroodaripatada";
  "pariaharevelareelareedapoolaplugapinapeekaparabolaadogapatacudanua";
  "fanapalarumanodanetaalaganeelabatikamugamotanapamaximamooda";
  "leekagrubagobageladrabacitadelatotalacedaratapagagaratamanorabara";
  "galacolaapapayawatabarajagabanagapaganabagajarabatawayapapaa";
  "localagarabaronamataragagapataradecalatotaledaticabardalegaboga";
  "burgakeeladoomamixamapanatomagumakitabaleenagalaatenadonamurala";
  "panafaunaducatapagodaalobarapakeepanipagulpaloopadeeraleeralevera";
  "hairapadatapiradooramooranaidaraidawadanaliasanoxanatlasabusamadam";
  "ajagasawamassananusagnatalabacadetanemanaturalatipacaressapassa";
  "baronetaminimaxasariafallaballotaknotapotarepacarrotamartapartatorta";
  "gutapollagatewayalawajayasapazagafatahallagamutadabacanatabuaday";
  "abattawaterfallapatinaanutaflowalassavanamowanibadrawaregularacalla";
  "warastayagamayapacamarayanaxatagawaxapawacatavalleyadribaliona";
  "sagaaplatacatnipapooharailacalamusadairymanabateracanalpanama";
  "amanaplanacaretabanamyriadasumalacaliarahoopapintacatalpaagasanoil";
  "abirdayellavatacawapaxawagataxanayaramacapayamagayatsarawalla";
  "caralugerawardabinawomanavassalawolfatunaanitapallafretawattabaya";
  "daubatanacabadatumagallahatafagazapasayajawalayawetagallopatuga";
  "trotatrapatramatorracaperatopatonkatollaballafairasaxaminimatenora";
  "bassapasseracapitalarutanamenatedacabalatangasunanassamawasaga";
  "jamadamasubasaltanaxonasailanadawadiaradianaroomaroodaripatada";
  "pariaharevelareelareedapoolaplugapinapeekaparabolaadogapatacudanua";
  "fanapalarumanodanetaalaganeelabatikamugamotanapamaximamooda";
  "leekagrubagobageladrabacitadelatotalacedaratapagagaratamanorabara";
  "galacolaapapayawatabarajagabanagapaganabagajarabatawayapapaa";
  "localagarabaronamataragagapataradecalatotaledaticabardalegaboga";
  "burgakeeladoomamixamapanatomagumakitabaleenagalaatenadonamurala";
  "panafaunaducatapagodaalobarapakeepanipagulpaloopadeeraleeralevera";
  "hairapadatapiradooramooranaidaraidawadanaliasanoxanatlasabusamadam";
  "ajagasawamassananusagnatalabacadetanemanaturalatipacaressapassa";
  "baronetaminimaxasariafallaballotaknotapotarepacarrotamartapartatorta";
  "gutapollagatewayalawajayasapazagafatahallagamutadabacanatabuaday";
  "abattawaterfallapatinaanutaflowalassavanamowanibadrawaregularacalla";
  "warastayagamayapacamarayanaxatagawaxapawacatavalleyadribaliona";
  "sagaaplatacatnipapooharailacalamusadairymanabateracanalpanama"]%string.

(** The loop; [None] for an access outside of the string.  The result: whether it IS a
    palindrome, and the number of dots printed. *)
Fixpoint test_loop (fuel : nat) (p : list ascii) (start end_ : Z) (dots : Z) : option (bool * Z) :=
  match fuel with
  | O => None
  | S fuel' =>
      if start <=? end_ then
        a ← p !! Z.to_nat start; b ← p !! Z.to_nat end_;
        if negb (Ascii.eqb a b) then Some (false, dots + 1)
        else test_loop fuel' p (start + 1) (end_ - 1) (dots + 1)
      else Some (true, dots)
  end.

Definition palin_main (p : list ascii) : option (bool * Z) :=
  test_loop (S (length p)) p 0 (Z.of_nat (length p) - 1) 0.

Lemma test_run p fuel : ∀ start dots,
  (start <= length p)%nat → (length p - start < fuel)%nat →
  (∀ i, (i < start)%nat → p !! i = p !! (length p - 1 - i)%nat) →
  ∃ n, test_loop fuel p (Z.of_nat start) (Z.of_nat (length p) - 1 - Z.of_nat start) dots =
    Some (bool_decide (p = reverse p), n).
Proof.
  assert (p = reverse p ↔ ∀ i, (i < length p)%nat → p !! i = p !! (length p - 1 - i)%nat) as Hiff.
  { split.
    - intros E i Hi. rewrite E at 1. rewrite reverse_lookup by done. f_equal. lia.
    - intros H. apply list_eq. intros i. destruct (decide (i < length p)%nat).
      + rewrite reverse_lookup, H by done. f_equal. lia.
      + rewrite !lookup_ge_None_2; rewrite ?length_reverse; done || lia. }
  induction fuel as [|fuel IH]; intros start dots Hs Hf Hp; [lia |]. cbn [test_loop].
  destruct (Z.leb_spec (Z.of_nat start) (Z.of_nat (length p) - 1 - Z.of_nat start)) as [Hle | Hgt].
  - rewrite Nat2Z.id. replace (Z.to_nat (Z.of_nat (length p) - 1 - Z.of_nat start)) with (length p - 1 - start)%nat by lia.
    destruct (lookup_lt_is_Some_2 p start ltac:(lia)) as [a Ha].
    destruct (lookup_lt_is_Some_2 p (length p - 1 - start) ltac:(lia)) as [b Hb]. rewrite Ha, Hb. cbn.
    destruct (Ascii.eqb_spec a b) as [-> | Hne]; cbn [negb].
    + replace (Z.of_nat start + 1) with (Z.of_nat (S start)) by lia.
      replace (Z.of_nat (length p) - 1 - Z.of_nat start - 1) with (Z.of_nat (length p) - 1 - Z.of_nat (S start)) by lia.
      apply IH; [lia | lia |]. intros i Hi. destruct (decide (i = start)) as [-> |]; [congruence | apply Hp; lia].
    + eexists. rewrite bool_decide_eq_false_2; [reflexivity |]. rewrite Hiff. intros H. specialize (H start ltac:(lia)). congruence.
  - eexists. rewrite bool_decide_eq_true_2; [reflexivity |]. apply Hiff. intros i Hi.
    destruct (decide (i < start)%nat); [by apply Hp |]. rewrite (Hp (length p - 1 - i)%nat) by lia. f_equal. lia.
Qed.

(** palin.c decides whether the string is a palindrome, and finds that its own is. *)
Theorem palin_correct p : ∃ n, palin_main p = Some (bool_decide (p = reverse p), n).
Proof.
  destruct (test_run p (S (length p)) 0 0) as [n E]; [lia | lia | intros; lia |].
  exists n. unfold palin_main. rewrite <- E. f_equal. lia.
Qed.
Theorem palin_passes : fst <$> palin_main (list_ascii_of_string palindrome) = Some true.
Proof. vm_compute. reflexivity. Qed.
End Palin.

(** ** ctest.c *)

Module Ctest.
(** 1024 * 1024 / sizeof(struct entry) *)
Definition SIZE : Z := 262144.

(** [array[i].e] as an index. *)
Definition e (stride i : Z) : Z := u32 (i + stride) mod SIZE.

(** The entries the second loop visits, and the one it ends at. *)
Fixpoint traverse (n : nat) (stride cur : Z) : list Z * Z :=
  match n with
  | O => ([], cur)
  | S n' => let '(l, last) := traverse n' stride (e stride cur) in (cur :: l, last)
  end.

(** [None]: the usage message. *)
Definition ctest_main (stride : Z) : option (list Z * Z) :=
  if stride <=? 0 then None else Some (traverse (Z.to_nat SIZE) stride 0).

Lemma e_mod stride i : e stride i = (i + stride) mod SIZE.
Proof.
  unfold e, u32, wrap, SIZE. apply Z.mod_mod_divide. by exists 16384.
Qed.
#[global] Opaque SIZE.
Lemma ctest_SIZE_pos : 0 < SIZE.
Proof. done. Qed.

Lemma traverse_run n stride : ∀ k,
  traverse n stride ((k * stride) mod SIZE) =
    ((λ i, (i * stride) mod SIZE) <$> seqZ k (Z.of_nat n), ((k + Z.of_nat n) * stride) mod SIZE).
Proof.
  pose proof ctest_SIZE_pos. induction n as [|n IH]; intros k.
  { cbn. by rewrite Z.add_0_r. }
  cbn [traverse]. rewrite e_mod, Zplus_mod_idemp_l. replace (k * stride + stride) with ((k + 1) * stride) by lia.
  rewrite IH, (seqZ_cons k) by lia. cbn [fmap list_fmap]. replace (Z.pred (Z.of_nat (S n))) with (Z.of_nat n) by lia.
  by replace (k + Z.of_nat (S n)) with (k + 1 + Z.of_nat n) by lia.
Qed.

(** ctest.c with a stride that has no factor in common with the size visits every entry
    exactly once and ends where it began. *)
Theorem ctest_visits_all stride :
  0 < stride → Z.gcd stride SIZE = 1 → ∃ l, ctest_main stride = Some (l, 0) ∧ l ≡ₚ seqZ 0 SIZE.
Proof.
  intros Hpos Hg. pose proof ctest_SIZE_pos as HS. unfold ctest_main. rewrite (proj2 (Z.leb_gt stride 0)) by done.
  pose proof (traverse_run (Z.to_nat SIZE) stride 0) as E. rewrite Z.mul_0_l, Z.mod_0_l in E by lia.
  rewrite Z2Nat.id, Z.add_0_l in E by lia. rewrite E, (Z.mul_comm SIZE), Z.mod_mul by lia.
  eexists. split; [reflexivity |]. apply submseteq_length_Permutation.
  - apply NoDup_submseteq.
    + apply NoDup_fmap_2_strong; [| apply NoDup_seqZ]. intros i j Hi%elem_of_seqZ Hj%elem_of_seqZ Hm.
      assert ((stride * (i - j)) mod SIZE = 0) as Hd.
      { replace (stride * (i - j)) with (i * stride - j * stride) by lia. rewrite Zminus_mod, Hm, Z.sub_diag. by apply Z.mod_0_l; lia. }
      apply Z.mod_divide in Hd; [| lia]. apply Z.gauss in Hd; [| by rewrite Z.gcd_comm].
      destruct Hd as [q Hq]. assert (q = 0) by nia. lia.
    + intros x (i & -> & _)%list_elem_of_fmap. apply elem_of_seqZ. pose proof (Z.mod_pos_bound (i * stride) SIZE HS). lia.
  - by rewrite length_fmap, !length_seqZ.
Qed.
End Ctest.

(** ** huge.c; huge_oom.c is the same with 4096 pages. *)

Module Huge.
(** [sparse i] is sparse[i][0]. *)
Abbreviation H := (M (Z → Z)).
Definition store (i x : Z) : H unit := modify (λ f j, if j =? i then x else f j).

Fixpoint check_loop (n : nat) : H bool :=
  match n with
  | O => mret true
  | S n' => x ← gets (λ f, f (Z.of_nat n')); if negb (x =? Z.of_nat n' + 5) then mret false else check_loop n'
  end.

(** Whether it passed. *)
Definition huge_main (NumPages : nat) : H bool :=
  for_loop NumPages 0 (λ i, store i i) ;;
  for_loop 5 0 (λ _, for_loop NumPages 0 (λ i, x ← gets (λ f, f i); store i (s32 (x + 1)))) ;;
  check_loop NumPages.

Lemma inc_run N c f :
  (∀ j, 0 <= j < Z.of_nat N → f j = j + c) → 0 <= c < 100 → Z.of_nat N < 2 ^ 30 →
  twp (for_loop N 0 (λ i, x ← gets (λ f, f i); store i (s32 (x + 1))))
    (λ _ f', ∀ j, 0 <= j < Z.of_nat N → f' j = j + (c + 1)) f.
Proof.
  intros Hf Hc HN. eapply twp_mono; [| apply (twp_for_loop (λ i f', ∀ j, 0 <= j < Z.of_nat N →
    f' j = j + c + if j <? i then 1 else 0))].
  - cbv beta. intros [] f' H j Hj. rewrite H, (proj2 (Z.ltb_lt j _)) by lia. lia.
  - intros j Hj. rewrite Hf, (proj2 (Z.ltb_ge j 0)) by lia. lia.
  - intros i f' Hi H. unfold store. twp_steps. intros j Hj. rewrite (H i), (proj2 (Z.ltb_ge i i)) by lia.
    rewrite s32_small by lia. destruct (Z.eqb_spec j i) as [-> |].
    + rewrite (proj2 (Z.ltb_lt i (i + 1))) by lia. lia.
    + rewrite H by done. destruct (Z.ltb_spec j i), (Z.ltb_spec j (i + 1)); lia.
Qed.

(** huge.c passes, for any number of pages. *)
Theorem huge_passes NumPages f : Z.of_nat NumPages < 2 ^ 30 → ∃ f', huge_main NumPages f = Done true f'.
Proof.
  intros HN. assert (twp (huge_main NumPages) (λ r _, r = true) f) as (r & f' & E & ->)%twp_ex; [| by exists f'].
  unfold huge_main. apply twp_bind. eapply twp_mono; [| apply (twp_for_loop (λ i f', ∀ j, 0 <= j < i → f' j = j + 0))].
  2: { intros j Hj. lia. }
  2: { intros i f' Hi H. unfold store. twp_steps. intros j Hj. destruct (Z.eqb_spec j i) as [-> |]; [lia | apply H; lia]. }
  intros [] f1 H1. apply twp_bind.
  eapply twp_mono; [| apply (twp_for_loop (λ c f', ∀ j, 0 <= j < Z.of_nat NumPages → f' j = j + c)); [exact H1 |]].
  2: { intros c f' Hc H. apply inc_run; [done | lia | done]. }
  cbv beta. intros [] f2 H2. assert (∀ n, (n <= NumPages)%nat → check_loop n f2 = Done true f2) as Hch; [| by eapply twp_done; [apply Hch |]].
  induction n as [|n IH]; intros Hn; [done |]. cbn [check_loop]. unfold gets, mbind, M_bind.
  rewrite H2 by lia. change (0 + Z.of_nat 5) with 5. rewrite Z.eqb_refl. apply IH. lia.
Qed.
End Huge.

(** ** matmult.c *)

Module Matmult.
Definition Dim : Z := 72.
Definition RIGHT : Z := 8772192.

Record mats := mkM { A : Z → Z → Z; B : Z → Z → Z; C : Z → Z → Z; T : Z → Z → Z → Z; r : Z }.
Definition upd2 (f : Z → Z → Z) i j x : Z → Z → Z := λ a b, if (a =? i) && (b =? j) then x else f a b.
Definition each (body : Z → M mats unit) : M mats unit := for_loop (Z.to_nat Dim) 0 body.

(** Whether it passed. *)
Definition matmult_main : M mats bool :=
  each (λ i, each (λ j, modify (λ s,
    mkM (upd2 (A s) i j i) (upd2 (B s) i j j) (upd2 (C s) i j 0) (T s) (r s)))) ;;
  each (λ i, each (λ j, each (λ k, modify (λ s,
    mkM (A s) (B s) (C s)
      (λ a b c, if (a =? i) && (b =? j) && (c =? k) then s32 (A s i k * B s k j) else T s a b c) (r s))))) ;;
  each (λ i, each (λ j, each (λ k, modify (λ s,
    mkM (A s) (B s) (upd2 (C s) i j (s32 (C s i j + T s i j k))) (T s) (r s))))) ;;
  modify (λ s, mkM (A s) (B s) (C s) (T s) 0) ;;
  each (λ i, modify (λ s, mkM (A s) (B s) (C s) (T s) (s32 (r s + C s i i)))) ;;
  x ← gets r;
  mret (x =? RIGHT).

Definition in_range (i : Z) : Prop := 0 <= i < Dim.

(** A double loop whose turn [i, j] makes [Q i j] true and keeps the rest of [Q]. *)
Lemma each2_all (I : mats → Prop) (Q : Z → Z → mats → Prop) (body : Z → Z → M mats unit) s :
  I s → (∀ i j s, in_range i → in_range j → I s → twp (body i j) (λ _ s', I s' ∧ Q i j s' ∧
    ∀ a b, (a < i ∨ a = i ∧ b < j) → Q a b s → Q a b s') s) →
  twp (each (λ i, each (body i))) (λ _ s', I s' ∧ ∀ a b, in_range a → in_range b → Q a b s') s.
Proof.
  intros H0 Hb. eapply twp_mono; [| apply (twp_for_loop (λ i s, I s ∧ ∀ a b, 0 <= a < i → in_range b → Q a b s))].
  - cbv beta. intros [] s1 [H1 H2]. split; [done |]. intros a b Ha. by apply H2.
  - split; [done |]. intros a b Ha. lia.
  - intros i s1 Hi [H1 H2]. eapply twp_mono; [| apply (twp_for_loop (λ j s, I s ∧ (∀ a b, 0 <= a < i → in_range b → Q a b s) ∧
      ∀ b, 0 <= b < j → Q i b s))].
    + cbv beta. intros [] s2 (H3 & H4 & H5). split; [done |]. intros a b Ha Hbr.
      destruct (decide (a = i)) as [-> |]; [by apply H5 | apply H4; [lia | done]].
    + split_and!; [done | done | intros; lia].
    + intros j s2 Hj (H3 & H4 & H5). eapply twp_mono; [| apply (Hb i j s2); unfold in_range, Dim in *; lia || done].
      cbv beta. intros [] s3 (H6 & H7 & H8). split_and!; [done | |].
      * intros a b Ha Hbr. apply H8; [lia |]. by apply H4.
      * intros b Hbr. destruct (decide (b = j)) as [-> |]; [done |]. apply H8; [lia |]. apply H5. lia.
Qed.

(** The same with an invariant that knows the turn. *)
Lemma each2_run (I : Z → Z → mats → Prop) (body : Z → Z → M mats unit) s :
  I 0 0 s → (∀ i j s, in_range i → in_range j → I i j s → twp (body i j) (λ _, I i (j + 1)) s) →
  (∀ i s, I i Dim s → I (i + 1) 0 s) → twp (each (λ i, each (body i))) (λ _, I Dim 0) s.
Proof.
  intros H0 Hb Hn. apply (twp_for_loop (λ i, I i 0)); [done |]. intros i s1 Hi H1.
  eapply twp_mono; [| apply (twp_for_loop (I i)); [exact H1 |]].
  - cbv beta. intros [] s2 H2. by apply Hn.
  - intros j s2 Hj. apply Hb; unfold in_range, Dim in *; lia.
Qed.

Definition inputs (s : mats) : Prop := ∀ i j, in_range i → in_range j → A s i j = i ∧ B s i j = j.
Definition zeros (s : mats) : Prop := ∀ i j, in_range i → in_range j → C s i j = 0.
Definition products (s : mats) : Prop := ∀ i j k, in_range i → in_range j → in_range k → T s i j k = i * j.
Definition sums (s : mats) : Prop := ∀ i j, in_range i → in_range j → C s i j = Dim * (i * j).

Lemma upd2_eq f i j x : upd2 f i j x i j = x.
Proof. unfold upd2. by rewrite !Z.eqb_refl. Qed.
Lemma upd2_ne f i j x a b : a ≠ i ∨ b ≠ j → upd2 f i j x a b = f a b.
Proof. intros H. unfold upd2. destruct (Z.eqb_spec a i), (Z.eqb_spec b j); done || lia. Qed.

Lemma mats_init_run s :
  twp (each (λ i, each (λ j, modify (λ s,
    mkM (upd2 (A s) i j i) (upd2 (B s) i j j) (upd2 (C s) i j 0) (T s) (r s)))))
    (λ _ s', inputs s' ∧ zeros s') s.
Proof.
  eapply twp_mono; [| apply (each2_all (λ _, True) (λ i j s, A s i j = i ∧ B s i j = j ∧ C s i j = 0)); [done |]].
  - cbv beta. intros [] s1 [_ H]. split; intros i j Hi Hj; by destruct (H i j Hi Hj) as (? & ? & ?).
  - intros i j s1 Hi Hj _. twp_steps. cbn. rewrite !upd2_eq. split_and!; try done.
    intros a b Hab. by rewrite !upd2_ne by lia.
Qed.

Lemma mult_run s :
  inputs s ∧ zeros s →
  twp (each (λ i, each (λ j, each (λ k, modify (λ s,
    mkM (A s) (B s) (C s)
      (λ a b c, if (a =? i) && (b =? j) && (c =? k) then s32 (A s i k * B s k j) else T s a b c) (r s))))))
    (λ _ s', zeros s' ∧ products s') s.
Proof.
  intros H. eapply twp_mono; [| apply (each2_all (λ s, inputs s ∧ zeros s) (λ i j s, ∀ k, in_range k → T s i j k = i * j)); [done |]].
  - cbv beta. intros [] s1 [[_ H1] H2]. split; [done |]. intros i j k Hi Hj. by apply H2.
  - intros i j s1 Hi Hj H1.
    eapply twp_mono; [| apply (twp_for_loop (λ k s2, (inputs s2 ∧ zeros s2) ∧ (∀ c, 0 <= c < k → T s2 i j c = i * j) ∧
      ∀ a b c, a < i ∨ a = i ∧ b < j → T s2 a b c = T s1 a b c)); [split_and!; try apply H1; [intros; lia | done] |]].
    + cbv beta. intros [] s2 (H2 & H3 & H4). split_and!; [apply H2 | apply H2 | exact H3 |].
      intros a b Hab HQ k Hk. rewrite H4 by done. by apply HQ.
    + intros k s2 Hk (H2 & H3 & H4). twp_steps. cbn. split; [done |]. split.
      * intros c Hc. rewrite !Z.eqb_refl. cbn. destruct (Z.eqb_spec c k) as [-> |]; [| apply H3; lia].
        assert (in_range k) as Hkr by (unfold in_range, Dim in *; lia). destruct H2 as [H2 _].
        rewrite (proj1 (H2 i k Hi Hkr)), (proj2 (H2 k j Hkr Hj)). apply s32_small. unfold in_range, Dim in *. nia.
      * intros a b c Hab. destruct (Z.eqb_spec a i), (Z.eqb_spec b j); try lia; cbn; by apply H4.
Qed.

Lemma sum_run s :
  zeros s ∧ products s →
  twp (each (λ i, each (λ j, each (λ k, modify (λ s,
    mkM (A s) (B s) (upd2 (C s) i j (s32 (C s i j + T s i j k))) (T s) (r s)))))) (λ _ s', sums s') s.
Proof.
  intros [Hz Hp]. pose (done_ a b i j := (a <? i) || (a =? i) && (b <? j)).
  pose (I i j s := products s ∧ ∀ a b, in_range a → in_range b → C s a b = if done_ a b i j then Dim * (a * b) else 0).
  eapply twp_mono; [| apply (each2_run I)].
  - cbv beta. intros [] s1 [_ H] a b Ha Hb. rewrite H by done. unfold done_. by rewrite (proj2 (Z.ltb_lt a Dim)) by apply Ha.
  - split; [done |]. intros a b Ha Hb. unfold done_. rewrite Hz by done. unfold in_range in *.
    rewrite (proj2 (Z.ltb_ge a 0)), (proj2 (Z.ltb_ge b 0)) by lia. by rewrite andb_false_r.
  - intros i j s1 Hi Hj [H1 H2].
    eapply twp_mono; [| apply (twp_for_loop (λ k s2, products s2 ∧ C s2 i j = k * (i * j) ∧
      ∀ a b, a ≠ i ∨ b ≠ j → C s2 a b = C s1 a b)); [split_and!; [done | | done] |]].
    + cbv beta. intros [] s2 (H3 & H4 & H5). split; [done |]. intros a b Ha Hb.
      destruct (decide (a = i ∧ b = j)) as [[-> ->] | Hne].
      * rewrite H4. unfold done_. by rewrite Z.eqb_refl, (proj2 (Z.ltb_lt j (j + 1))), orb_true_r by lia.
      * rewrite H5, H2 by (done || lia). unfold done_.
        destruct (Z.ltb_spec a i), (Z.eqb_spec a i), (Z.ltb_spec b j), (Z.ltb_spec b (j + 1)); done || lia.
    + rewrite H2 by done. unfold done_. by rewrite (proj2 (Z.ltb_ge i i)), (proj2 (Z.ltb_ge j j)), andb_false_r by lia.
    + intros k s2 Hk (H3 & H4 & H5). twp_steps. cbn. rewrite upd2_eq, H4, H3 by (done || unfold in_range, Dim in *; lia).
      split_and!; [done | | intros a b Hab; rewrite upd2_ne by done; by apply H5].
      rewrite s32_small; [lia |]. unfold in_range, Dim in *. nia.
  - intros i s1 [H1 H2]. split; [done |]. intros a b Ha Hb. rewrite H2 by done. unfold done_, in_range in *.
    destruct (Z.ltb_spec a i), (Z.eqb_spec a i), (Z.ltb_spec b Dim), (Z.ltb_spec a (i + 1)), (Z.eqb_spec a (i + 1)), (Z.ltb_spec b 0);
      done || lia.
Qed.

Fixpoint squares (n : nat) : Z := match n with O => 0 | S n' => squares n' + Z.of_nat n' * Z.of_nat n' end.
Lemma squares_bound n : (n <= 72)%nat → 0 <= squares n <= 6000 * Z.of_nat n.
Proof. induction n as [|n IH]; intros Hn; cbn; [lia |]. specialize (IH ltac:(lia)). nia. Qed.

(** matmult.c computes the answer it expects. *)
Theorem matmult_passes s : ∃ s', matmult_main s = Done true s'.
Proof.
  enough (twp matmult_main (λ x _, x = true) s) as H.
  { destruct (proj1 (twp_ex matmult_main (λ x _, x = true) s) H) as (x & s' & E & Ex). exists s'. rewrite Ex in E. exact E. }
  unfold matmult_main. call mats_init_run. intros [] s1 H1. call mult_run; [| exact H1]. intros [] s2 H2.
  call sum_run; [| exact H2]. intros [] s3 H3. apply twp_bind, twp_modify. apply twp_bind.
  eapply twp_mono; [| apply (twp_for_loop (λ i s, sums s ∧ r s = Dim * squares (Z.to_nat i))); [done |]].
  - cbv beta. intros [] s4 [_ H4]. twp_steps. rewrite H4. by vm_compute.
  - intros i s4 Hi [H4 H5]. assert (in_range i) as Hir by (unfold in_range, Dim in *; lia). twp_steps. cbn. split; [done |].
    replace (Z.to_nat (i + 1)) with (S (Z.to_nat i)) by lia. cbn [squares]. rewrite Z2Nat.id by lia.
    rewrite H5, H4 by done. pose proof (squares_bound (Z.to_nat i) ltac:(unfold Dim in *; lia)).
    rewrite s32_small; [lia |]. unfold in_range, Dim in *. nia.
Qed.
End Matmult.

(** ** bigexec.c *)

Module Bigexec.
Fixpoint DO (n : nat) : M Z unit :=
  match n with O => modify (λ x, s32 (x + 1)) | S n' => for_loop 10 0 (λ _, DO n') end.
Definition bigexec_main : M Z bool := DO 5 ;; x ← gets id; mret (x =? 100000).

Lemma DO_run n : ∀ x, 0 <= x → x + 10 ^ Z.of_nat n < 2 ^ 31 → twp (DO n) (λ _ y, y = x + 10 ^ Z.of_nat n) x.
Proof.
  induction n as [|n IH]; intros x H0 Hx; cbn [DO].
  { apply twp_modify. apply s32_small. change (10 ^ Z.of_nat 0) with 1 in *. lia. }
  rewrite Nat2Z.inj_succ, Z.pow_succ_r in * by lia. pose proof (Z.pow_pos_nonneg 10 (Z.of_nat n) ltac:(lia) ltac:(lia)).
  apply (twp_for_loop (λ i y, y = x + i * 10 ^ Z.of_nat n)); [lia |]. intros i y Hi ->.
  eapply twp_mono; [| apply IH; nia]. cbv beta. intros [] y ->. lia.
Qed.

(** bigexec.c passes; [x] is 0 when it starts. *)
Theorem bigexec_passes : ∃ y, bigexec_main 0 = Done true y.
Proof.
  enough (twp bigexec_main (λ r _, r = true) 0) as H.
  { destruct (proj1 (twp_ex bigexec_main (λ x _, x = true) 0) H) as (x & s' & E & Ex). exists s'. rewrite Ex in E. exact E. }
  unfold bigexec_main. apply twp_bind. eapply twp_mono; [| apply (DO_run 5); [done | done]]. cbv beta. intros [] y ->. done.
Qed.
End Bigexec.
End UserProgs.
