(* ===== verification/Spinlock.v ===== *)
(** * Interrupt levels and spinlocks (thread/spl.c, thread/spinlock.c)

    The interrupt-level functions are sequential code of one CPU.  A spinlock
    is shared by all CPUs: its two functions are split at their accesses to
    shared memory, and the CPUs' steps interleave arbitrarily. *)

From stdpp Require Import base list numbers strings relations.
From Stdlib Require Import ZArith Lia.
From S2P Require Import Prelude.

#[local] Open Scope Z_scope.

Module Spinlock.

Definition IPL_NONE : Z := 0.
Definition IPL_HIGH : Z := 1.

(** A CPU with its current thread: [CURCPU_EXISTS()], the counters of the CPU
    and of the thread, and whether interrupts are enabled in hardware. *)
Record cpu := mkCpu {
  curcpu_exists : bool;
  c_spinlocks : Z;
  t_curspl : Z;
  t_iplhigh_count : Z;
  irqs_on : bool
}.

Definition with_c_spinlocks (x : Z) (c : cpu) :=
  mkCpu (curcpu_exists c) x (t_curspl c) (t_iplhigh_count c) (irqs_on c).
Definition with_t_curspl (x : Z) (c : cpu) :=
  mkCpu (curcpu_exists c) (c_spinlocks c) x (t_iplhigh_count c) (irqs_on c).
Definition with_count (x : Z) (c : cpu) :=
  mkCpu (curcpu_exists c) (c_spinlocks c) (t_curspl c) x (irqs_on c).
Definition with_irqs (b : bool) (c : cpu) :=
  mkCpu (curcpu_exists c) (c_spinlocks c) (t_curspl c) (t_iplhigh_count c) b.

Abbreviation P := (M cpu).

(** ** spl.c *)

Definition splraise (oldspl newspl : Z) : P unit :=
  kassert (oldspl =? IPL_NONE) "oldspl == IPL_NONE" ;;
  kassert (newspl =? IPL_HIGH) "newspl == IPL_HIGH" ;;
  c ← gets id;
  if negb (curcpu_exists c) then mret tt
  else
    (if t_iplhigh_count c =? 0 then modify (with_irqs false) else mret tt) ;;
    modify (λ c, with_count (t_iplhigh_count c + 1) c).

Definition spllower (oldspl newspl : Z) : P unit :=
  kassert (oldspl =? IPL_HIGH) "oldspl == IPL_HIGH" ;;
  kassert (newspl =? IPL_NONE) "newspl == IPL_NONE" ;;
  c ← gets id;
  if negb (curcpu_exists c) then mret tt
  else
    modify (λ c, with_count (t_iplhigh_count c - 1) c) ;;
    n ← gets t_iplhigh_count;
    if n =? 0 then modify (with_irqs true) else mret tt.

Definition splx (spl : Z) : P Z :=
  c ← gets id;
  if negb (curcpu_exists c) then mret spl
  else if t_curspl c <? spl then
    splraise (t_curspl c) spl ;;
    ret ← gets t_curspl;
    modify (with_t_curspl spl) ;;
    mret ret
  else if spl <? t_curspl c then
    let ret := t_curspl c in
    modify (with_t_curspl spl) ;;
    spllower ret spl ;;
    mret ret
  else mret spl.

Definition spl0 : P Z := splx IPL_NONE.
Definition splhigh : P Z := splx IPL_HIGH.

(** ** spinlock.c *)

Record spinlock := mkLock { splk_lock : Z; splk_holder : option nat }.

Definition spinlock_init : spinlock := mkLock 0 None.

Definition spinlock_cleanup (lk : spinlock) : bool :=
  bool_decide (splk_holder lk = None) && (splk_lock lk =? 0).

(** Where a CPU is: outside, at the test, at the test-and-set, after winning
    it, in the critical section, after giving up the ownership. *)
Inductive pc := Idle | Testing | Setting | Won | Held | Freed.

Record sys := mkSys { lk : spinlock; cpus : nat → cpu; pcs : nat → pc }.
Abbreviation L := (M sys).

Definition at_cpu {A} (i : nat) (m : P A) : L A :=
  zoom (λ s, cpus s i)
       (λ c s, mkSys (lk s) (λ j, if decide (j = i) then c else cpus s j) (pcs s)) m.
Definition goto (i : nat) (p : pc) : L unit :=
  modify (λ s, mkSys (lk s) (cpus s) (λ j, if decide (j = i) then p else pcs s j)).
Definition set_lock (x : Z) : L unit :=
  modify (λ s, mkSys (mkLock x (splk_holder (lk s))) (cpus s) (pcs s)).
Definition set_holder (h : option nat) : L unit :=
  modify (λ s, mkSys (mkLock (splk_lock (lk s)) h) (cpus s) (pcs s)).

(** [spinlock_acquire] up to its loop. *)
Definition acquire_begin (i : nat) : L unit :=
  at_cpu i (splraise IPL_NONE IPL_HIGH) ;;
  h ← gets (λ s, splk_holder (lk s));
  (if bool_decide (h = Some i) then panic "Deadlock on spinlock" else mret tt) ;;
  at_cpu i (modify (λ c, with_c_spinlocks (u32 (c_spinlocks c + 1)) c)) ;;
  goto i Testing.

(** The plain read of the loop. *)
Definition acquire_test (i : nat) : L unit :=
  v ← gets (λ s, splk_lock (lk s));
  goto i (if negb (v =? 0) then Testing else Setting).

(** [spinlock_data_testandset]: when the store-conditional fails the word is
    not written and 1 is returned. *)
Definition testandset (sc_ok : bool) : L Z :=
  x ← gets (λ s, splk_lock (lk s));
  if sc_ok then set_lock 1 ;; mret x else mret 1.

Definition acquire_tas (i : nat) (sc_ok : bool) : L unit :=
  x ← testandset sc_ok;
  goto i (if negb (x =? 0) then Testing else Won).

(** [spinlock_acquire] after its loop. *)
Definition acquire_end (i : nat) : L unit := set_holder (Some i) ;; goto i Held.

(** [spinlock_release] up to the memory barrier. *)
Definition release_begin (i : nat) : L unit :=
  h ← gets (λ s, splk_holder (lk s));
  kassert (bool_decide (h = Some i)) "splk->splk_holder == curcpu->c_self" ;;
  n ← at_cpu i (gets c_spinlocks);
  kassert (0 <? n) "curcpu->c_spinlocks > 0" ;;
  at_cpu i (modify (λ c, with_c_spinlocks (u32 (c_spinlocks c - 1)) c)) ;;
  set_holder None ;;
  goto i Freed.

Definition release_end (i : nat) : L unit :=
  set_lock 0 ;;
  at_cpu i (spllower IPL_HIGH IPL_NONE) ;;
  goto i Idle.

Definition spinlock_do_i_hold (i : nat) (s : sys) : bool :=
  if negb (curcpu_exists (cpus s i)) then true
  else bool_decide (splk_holder (lk s) = Some i).

(** One step of CPU [i]: it enters the lock when it is idle, leaves it when it
    holds it, and otherwise goes on. *)
Definition cpu_step (i : nat) (sc_ok : bool) : L unit :=
  p ← gets (λ s, pcs s i);
  match p with
  | Idle => acquire_begin i
  | Testing => acquire_test i
  | Setting => acquire_tas i sc_ok
  | Won => acquire_end i
  | Held => release_begin i
  | Freed => release_end i
  end.

Inductive step (s s' : sys) : Prop :=
| step_cpu i sc_ok : cpu_step i sc_ok s = Done tt s' → step s s'.

(** ** Interrupt levels *)

(** Interrupts are off exactly while the level is raised, and the level counts
    the spinlocks held plus the explicit [spl] state. *)
Record cpu_ok (c : cpu) : Prop := {
  co_exists : curcpu_exists c = true;
  co_spl : t_curspl c = IPL_NONE ∨ t_curspl c = IPL_HIGH;
  co_locks : 0 <= c_spinlocks c;
  co_count : t_iplhigh_count c = c_spinlocks c + t_curspl c;
  co_irqs : irqs_on c = (t_iplhigh_count c =? 0)
}.

Lemma splraise_eq l t n irq :
  splraise IPL_NONE IPL_HIGH (mkCpu true l t n irq) =
  Done tt (mkCpu true l t (n + 1) (if n =? 0 then false else irq)).
Proof. unfold splraise. mrun. simpl. by destruct (n =? 0). Qed.

Lemma spllower_eq l t n irq :
  spllower IPL_HIGH IPL_NONE (mkCpu true l t n irq) =
  Done tt (mkCpu true l t (n - 1) (if n - 1 =? 0 then true else irq)).
Proof. unfold spllower. mrun. rewrite !Z.eqb_refl. cbn -[Z.sub]. by destruct (n - 1 =? 0). Qed.

(** [splx] at the four combinations of old and new level. *)
Lemma splx_eq l t n irq spl :
  t = IPL_NONE ∨ t = IPL_HIGH → spl = IPL_NONE ∨ spl = IPL_HIGH →
  splx spl (mkCpu true l t n irq) =
  Done t (if t =? spl then mkCpu true l t n irq
          else if spl =? IPL_HIGH then mkCpu true l spl (n + 1) (if n =? 0 then false else irq)
          else mkCpu true l spl (n - 1) (if n - 1 =? 0 then true else irq)).
Proof.
  intros Ht Hs. unfold splx, mbind, M_bind, gets, modify, mret, M_ret, id.
  destruct Ht as [-> | ->], Hs as [-> | ->]; cbn -[splraise spllower Z.add Z.sub]; try done.
  - by rewrite splraise_eq.
  - unfold with_t_curspl. cbn -[spllower Z.sub]. by rewrite spllower_eq.
Qed.

(** [splx] sets the level and returns the old one, keeping the invariant: with
    no spinlock held, interrupts are on exactly at level 0. *)
Theorem splx_spec c spl :
  cpu_ok c → spl = IPL_NONE ∨ spl = IPL_HIGH →
  ∃ c', splx spl c = Done (t_curspl c) c' ∧ cpu_ok c' ∧ t_curspl c' = spl ∧
    c_spinlocks c' = c_spinlocks c.
Proof.
  intros [He Hs Hl Hc Hi] Hspl. destruct c as [e l t n irq]. simpl in *. subst e.
  rewrite splx_eq by done. eexists. split; [reflexivity |].
  unfold IPL_NONE, IPL_HIGH in *. rewrite Hi.
  destruct Hs as [-> | ->], Hspl as [-> | ->]; simpl; repeat split; simpl; auto; try lia;
    destruct (Z.eqb_spec n 0), (Z.eqb_spec (n + 1) 0), (Z.eqb_spec (n - 1) 0); done || lia.
Qed.

(** The idiom [s = splhigh(); ...; splx(s)] turns interrupts off and then
    restores the CPU exactly. *)
Theorem splhigh_splx c :
  cpu_ok c → ∃ c1, splhigh c = Done (t_curspl c) c1 ∧ irqs_on c1 = false ∧
    ∃ r, splx (t_curspl c) c1 = Done r c.
Proof.
  intros [He Hs Hl Hc Hi]. destruct c as [e l t n irq]. simpl in *. subst e.
  unfold splhigh. rewrite splx_eq by (try done; by right).
  eexists. split; [reflexivity |]. unfold IPL_NONE, IPL_HIGH in *.
  destruct Hs as [-> | ->]; simpl.
  - rewrite Hi, splx_eq by auto. split; [by destruct (n =? 0) |]. eexists. simpl.
    replace (n + 1 - 1) with n by lia. destruct (n =? 0); reflexivity.
  - rewrite Hi, splx_eq by auto. split; [apply Z.eqb_neq; lia |]. by eexists.
Qed.

Definition wit_cpu : cpu := mkCpu true 0 0 0 true.

Lemma wit_cpu_ok : cpu_ok wit_cpu.
Proof. split; try done. by left. Qed.

Lemma splhigh_splx_witness :
  ∃ c1, splhigh wit_cpu = Done (t_curspl wit_cpu) c1 ∧ irqs_on c1 = false ∧
    ∃ r, splx (t_curspl wit_cpu) c1 = Done r wit_cpu.
Proof. apply (splhigh_splx wit_cpu). exact wit_cpu_ok. Defined.

(** ** Mutual exclusion *)

(** CPUs that own the lock word. *)
Definition owns (p : pc) : Prop := p = Won ∨ p = Held ∨ p = Freed.
(** CPUs inside [spinlock_acquire] or holding the lock count it. *)
Definition counted (p : pc) : Z :=
  match p with Idle | Freed => 0 | _ => 1 end.

(** ... and have raised the interrupt level for it. *)
Definition raised (p : pc) : Z := match p with Idle => 0 | _ => 1 end.

(** [n i] is the number of other spinlocks CPU [i] holds. *)
Record lock_inv (n : nat → Z) (s : sys) : Prop := {
  li_word : splk_lock (lk s) = 0 ∧ (∀ i, ¬ owns (pcs s i)) ∨
            splk_lock (lk s) = 1 ∧ ∃ i, owns (pcs s i) ∧ ∀ j, owns (pcs s j) → j = i;
  li_holder : ∀ i, splk_holder (lk s) = Some i ↔ pcs s i = Held;
  li_cpu : ∀ i, curcpu_exists (cpus s i) = true ∧
    (t_curspl (cpus s i) = IPL_NONE ∨ t_curspl (cpus s i) = IPL_HIGH) ∧
    c_spinlocks (cpus s i) = n i + counted (pcs s i) ∧
    t_iplhigh_count (cpus s i) = n i + t_curspl (cpus s i) + raised (pcs s i) ∧
    irqs_on (cpus s i) = (t_iplhigh_count (cpus s i) =? 0);
  li_n : ∀ i, 0 <= n i < 2 ^ 32 - 1
}.

Lemma at_cpu_eq {A} i (m : P A) s a c :
  m (cpus s i) = Done a c →
  at_cpu i m s = Done a (mkSys (lk s) (λ j, if decide (j = i) then c else cpus s j) (pcs s)).
Proof. intros E. unfold at_cpu, zoom. by rewrite E. Qed.

(** The state with the lock, CPU [i] and its program counter replaced. *)
Definition put (s : sys) (i : nat) (l : spinlock) (c : cpu) (p : pc) : sys :=
  mkSys l (λ j, if decide (j = i) then c else cpus s j)
          (λ j, if decide (j = i) then p else pcs s j).

(** Equality of states that differ only in how their functions are written. *)
Definition sys_eq (s s' : sys) : Prop :=
  lk s = lk s' ∧ (∀ j, cpus s j = cpus s' j) ∧ ∀ j, pcs s j = pcs s' j.

Lemma lock_inv_eq n s s' : sys_eq s s' → lock_inv n s' → lock_inv n s.
Proof.
  intros (El & Ec & Ep) [Hw Hh Hc Hn]. split; [| | | done].
  - rewrite El. setoid_rewrite Ep. done.
  - intros i. rewrite El, Ep. apply Hh.
  - intros i. rewrite Ec, Ep. apply Hc.
Qed.

(** What a step of CPU [i] has to establish. *)
Lemma lock_inv_put n s i l c p :
  lock_inv n s →
  (splk_lock l = 0 ∧ ¬ owns p ∧ (∀ j, j ≠ i → ¬ owns (pcs s j)) ∨
   splk_lock l = 1 ∧ owns p ∧ (∀ j, j ≠ i → ¬ owns (pcs s j)) ∨
   splk_lock l = splk_lock (lk s) ∧ (owns p ↔ owns (pcs s i))) →
  (∀ j, splk_holder l = Some j ↔ (if decide (j = i) then p else pcs s j) = Held) →
  curcpu_exists c = true → (t_curspl c = IPL_NONE ∨ t_curspl c = IPL_HIGH) →
  c_spinlocks c = n i + counted p →
  t_iplhigh_count c = n i + t_curspl c + raised p →
  irqs_on c = (t_iplhigh_count c =? 0) → lock_inv n (put s i l c p).
Proof.
  intros H Hw Hh H1 H2 H3 H4 H5. pose proof H as [Hw0 Hh0 Hc0 Hn0]. split; simpl; [| done | | done].
  - destruct Hw as [(-> & Hp & Ho) | [(-> & Hp & Ho) | (-> & Hp)]].
    + left. split; [done |]. intros j. case_decide; auto.
    + right. split; [done |]. exists i. rewrite decide_True by done. split; [done |].
      intros j. case_decide as E; [done |]. intros Hj. by apply Ho in Hj.
    + destruct Hw0 as [[-> Ho] | [-> (k & Hk & Ho)]]; [left | right]; (split; [done |]).
      * intros j. case_decide as E; [subst; rewrite Hp |]; apply Ho.
      * exists k. split; [case_decide as E; [subst; by apply Hp | done] |].
        intros j. case_decide as E; [subst; rewrite Hp |]; apply Ho.
  - intros j. case_decide as E; [subst; done | apply Hc0].
Qed.

(** A CPU that owns the word is the only one. *)
Lemma owner_unique n s i j : lock_inv n s → owns (pcs s i) → j ≠ i → ¬ owns (pcs s j).
Proof.
  intros [[[_ Ho] | [_ (k & _ & Ho)]] _ _ _] Hi Hne Hj; [by apply (Ho i) |].
  apply Hne. rewrite (Ho i Hi). by apply Ho.
Qed.

Section steps.
Context (n : nat → Z) (s : sys) (i : nat) (H : lock_inv n s).
Context (l t c : Z) (irq : bool) (Ecpu : cpus s i = mkCpu true l t c irq).

Lemma cpu_facts :
  (t = IPL_NONE ∨ t = IPL_HIGH) ∧ l = n i + counted (pcs s i) ∧
  c = n i + t + raised (pcs s i) ∧ irq = (c =? 0) ∧ 0 <= t ∧ 0 <= n i < 2 ^ 32 - 1.
Proof using H Ecpu.
  pose proof (li_cpu _ _ H i) as (_ & Hs & Hl & Hc & Hi). rewrite Ecpu in *. simpl in *.
  split_and!; try done; try apply (li_n _ _ H). by destruct Hs as [-> | ->].
Qed.

Lemma acquire_begin_ok :
  pcs s i = Idle → ∃ s', acquire_begin i s = Done tt s' ∧ lock_inv n s'.
Proof using H Ecpu.
  intros Ep. pose proof cpu_facts as (Hs & Hl & Hc & Hi & Ht & Hn). rewrite Ep in *. simpl in *.
  pose proof (li_holder _ _ H) as Hh. unfold acquire_begin, mbind, M_bind.
  rewrite (at_cpu_eq _ _ _ tt (mkCpu true l t (c + 1) (if c =? 0 then false else irq)))
    by (rewrite Ecpu; apply splraise_eq).
  unfold gets. simpl. rewrite bool_decide_false by (rewrite Hh; congruence).
  eexists. split; [reflexivity |]. eapply lock_inv_eq; [| apply (lock_inv_put n s i (lk s)
    (mkCpu true (l + 1) t (c + 1) (if c =? 0 then false else irq)) Testing)].
  { split; [done |]. split; intros j; simpl; [| done]. case_decide; [| done].
    rewrite decide_True by done. unfold with_c_spinlocks. simpl. by rewrite u32_small by lia. }
  all: try done; simpl; try lia.
  - right. right. split; [done |]. rewrite Ep. unfold owns. naive_solver.
  - intros j. rewrite Hh. case_decide; [subst; split; congruence | done].
  - rewrite Hi. destruct (Z.eqb_spec c 0), (Z.eqb_spec (c + 1) 0); done || lia.
Qed.

(** Steps that touch neither the CPU nor the holder. *)
Lemma goto_ok (l' : spinlock) p :
  pcs s i ≠ Held → p ≠ Held → counted p = counted (pcs s i) → raised p = raised (pcs s i) →
  splk_holder l' = splk_holder (lk s) →
  (splk_lock l' = 1 ∧ owns p ∧ (∀ j, j ≠ i → ¬ owns (pcs s j)) ∨
   splk_lock l' = splk_lock (lk s) ∧ (owns p ↔ owns (pcs s i))) →
  lock_inv n (mkSys l' (cpus s) (λ j, if decide (j = i) then p else pcs s j)).
Proof using H Ecpu.
  intros Hh Hp Hcnt Hr Hl' Hw. pose proof cpu_facts as (Hs & Hl & Hc & Hi & Ht & Hn).
  eapply lock_inv_eq; [| apply (lock_inv_put n s i l' (cpus s i) p)]; rewrite ?Ecpu; simpl; try done.
  - split; [done |]. split; intros j; simpl; [| done]. by case_decide; subst.
  - naive_solver.
  - intros j. rewrite Hl', (li_holder _ _ H). case_decide; [subst; split; congruence | done].
  - by rewrite Hcnt.
  - by rewrite Hr.
Qed.

Lemma acquire_test_ok :
  pcs s i = Testing → ∃ s', acquire_test i s = Done tt s' ∧ lock_inv n s'.
Proof using H Ecpu.
  intros Ep. eexists. split; [reflexivity |].
  apply goto_ok; rewrite ?Ep; try done; destruct (negb _); try done;
    right; (split; [done |]); unfold owns; naive_solver.
Qed.

Lemma acquire_tas_ok sc_ok :
  pcs s i = Setting → ∃ s', acquire_tas i sc_ok s = Done tt s' ∧ lock_inv n s'.
Proof using H Ecpu.
  intros Ep. destruct sc_ok.
  - eexists. split; [reflexivity |]. simpl.
    apply goto_ok; rewrite ?Ep; try done; try (by destruct (negb _)).
    destruct (li_word _ _ H) as [[-> Ho] | [-> Ho]]; simpl.
    + left. split; [done |]. split; [by left | done].
    + right. split; [done |]. unfold owns. naive_solver.
  - eexists. split; [reflexivity |]. simpl.
    apply goto_ok; rewrite ?Ep; try done. right. split; [done |]. unfold owns. naive_solver.
Qed.

Lemma acquire_end_ok :
  pcs s i = Won → ∃ s', acquire_end i s = Done tt s' ∧ lock_inv n s'.
Proof using H Ecpu.
  intros Ep. pose proof cpu_facts as (Hs & Hl & Hc & Hi & Ht & Hn). rewrite Ep in *. simpl in *.
  assert (owns (pcs s i)) as Hown by (rewrite Ep; by left).
  eexists. split; [reflexivity |]. eapply lock_inv_eq;
    [| apply (lock_inv_put n s i (mkLock (splk_lock (lk s)) (Some i)) (cpus s i) Held)];
    rewrite ?Ecpu; simpl; try done.
  - split; [done |]. split; intros j; simpl; [| done]. by case_decide; subst.
  - right. right. split; [done |]. unfold owns. naive_solver.
  - intros j. case_decide as E; [naive_solver |]. split; [congruence |]. intros Hj.
    destruct (owner_unique n s i j); [done | done | done |]. rewrite Hj. unfold owns. naive_solver.
Qed.

Lemma release_begin_ok :
  pcs s i = Held → ∃ s', release_begin i s = Done tt s' ∧ lock_inv n s'.
Proof using H Ecpu.
  intros Ep. pose proof cpu_facts as (Hs & Hl & Hc & Hi & Ht & Hn). rewrite Ep in *. simpl in *.
  assert (owns (pcs s i)) as Hown by (rewrite Ep; unfold owns; naive_solver).
  pose proof (proj2 (li_holder _ _ H i) Ep) as Hh.
  unfold release_begin, mbind, M_bind, gets, kassert, mret, M_ret.
  rewrite Hh, bool_decide_true by done. cbn beta iota.
  rewrite (at_cpu_eq i _ s l (cpus s i)) by (by rewrite Ecpu). simpl.
  destruct (Z.ltb_spec 0 l); [| lia]. eexists. split; [reflexivity |].
  eapply lock_inv_eq; [| apply (lock_inv_put n s i (mkLock (splk_lock (lk s)) None)
    (mkCpu true (l - 1) t c irq) Freed)]; simpl; try done; try lia.
  - split; [done |]. split; intros j; simpl; [| done]. case_decide; [| done].
    rewrite decide_True by done. rewrite Ecpu. unfold with_c_spinlocks. simpl. by rewrite u32_small by lia.
  - right. right. split; [done |]. unfold owns. naive_solver.
  - intros j. split; [done |]. case_decide as E; [done |]. intros Hj.
    destruct (owner_unique n s i j); [done | done | done |]. rewrite Hj. unfold owns. naive_solver.
Qed.

Lemma release_end_ok :
  pcs s i = Freed → ∃ s', release_end i s = Done tt s' ∧ lock_inv n s'.
Proof using H Ecpu.
  intros Ep. pose proof cpu_facts as (Hs & Hl & Hc & Hi & Ht & Hn). rewrite Ep in *. simpl in *.
  assert (owns (pcs s i)) as Hown by (rewrite Ep; unfold owns; naive_solver).
  unfold release_end, mbind, M_bind, set_lock, modify.
  rewrite (at_cpu_eq _ _ _ tt (mkCpu true l t (c - 1) (if c - 1 =? 0 then true else irq)))
    by (simpl; rewrite Ecpu; apply spllower_eq).
  eexists. split; [reflexivity |].
  eapply lock_inv_eq; [| apply (lock_inv_put n s i (mkLock 0 (splk_holder (lk s)))
    (mkCpu true l t (c - 1) (if c - 1 =? 0 then true else irq)) Idle)]; simpl; try done; try lia.
  - left. split; [done |]. split; [unfold owns; naive_solver |]. intros j Hj.
    by apply (owner_unique n s i j).
  - intros j. rewrite (li_holder _ _ H). case_decide; [subst; split; congruence | done].
  - rewrite Hi. destruct (Z.eqb_spec c 0), (Z.eqb_spec (c - 1) 0); done || lia.
Qed.
End steps.

(** From the invariant every step of every CPU succeeds and keeps it: neither
    the deadlock panic nor the assertions of [spinlock_release] can fire. *)
Lemma cpu_step_ok n s i sc_ok :
  lock_inv n s → ∃ s', cpu_step i sc_ok s = Done tt s' ∧ lock_inv n s'.
Proof.
  intros H. pose proof (li_cpu _ _ H i) as (He & _).
  destruct (cpus s i) as [e l t c irq] eqn:Ecpu. simpl in He. subst e.
  unfold cpu_step, gets, mbind, M_bind. destruct (pcs s i) eqn:Ep.
  - by eapply acquire_begin_ok.
  - by eapply acquire_test_ok.
  - by eapply acquire_tas_ok.
  - by eapply acquire_end_ok.
  - by eapply release_begin_ok.
  - by eapply release_end_ok.
Qed.

Lemma reachable_inv n s0 s : lock_inv n s0 → rtc step s0 s → lock_inv n s.
Proof.
  intros H0 Hr. induction Hr as [|s1 s2 s3 [i b E] _ IH]; [done |]. apply IH.
  destruct (cpu_step_ok n s1 i b H0) as (s' & E' & H'). congruence.
Qed.

(** C17: Mutual exclusion: in every interleaving at most one CPU is in the critical
    section, it is the one that [spinlock_do_i_hold] reports, and its
    interrupts are off. *)
Theorem mutual_exclusion n s0 s :
  lock_inv n s0 → rtc step s0 s →
  (∀ i j, pcs s i = Held → pcs s j = Held → i = j) ∧
  (∀ i, spinlock_do_i_hold i s = true ↔ pcs s i = Held) ∧
  (∀ i, pcs s i = Held → irqs_on (cpus s i) = false).
Proof.
  intros H0 Hr. pose proof (reachable_inv _ _ _ H0 Hr) as H. split_and!.
  - intros i j Hi Hj. destruct (decide (j = i)) as [-> |]; [done |].
    destruct (owner_unique n s i j); [done | | done |]; rewrite ?Hi, ?Hj; unfold owns; naive_solver.
  - intros i. pose proof (li_cpu _ _ H i) as (He & _). unfold spinlock_do_i_hold. rewrite He. simpl.
    rewrite bool_decide_eq_true. apply (li_holder _ _ H).
  - intros i Hi. pose proof (li_cpu _ _ H i) as (_ & Hs & _ & Hc & ->). pose proof (li_n _ _ H i).
    rewrite Hi in Hc. simpl in Hc. apply Z.eqb_neq. unfold IPL_NONE, IPL_HIGH in Hs. lia.
Qed.

(** No interleaving panics: every CPU can always take its next step. *)
Theorem spinlock_safe n s0 s i sc_ok :
  lock_inv n s0 → rtc step s0 s → ∃ s', cpu_step i sc_ok s = Done tt s'.
Proof.
  intros H0 Hr. destruct (cpu_step_ok n s i sc_ok (reachable_inv _ _ _ H0 Hr)) as (s' & E & _).
  by exists s'.
Qed.

(** An initialised lock that no CPU uses yet. *)
Definition init_sys : sys := mkSys spinlock_init (λ _, wit_cpu) (λ _, Idle).

Lemma init_sys_inv : lock_inv (λ _, 0) init_sys.
Proof.
  split; simpl; try done.
  - left. split; [done |]. intros i. unfold owns. naive_solver.
  - intros i. split_and!; try done. by left.
Qed.

(** CPU 0 takes the lock and CPU 1 spins. *)
Definition run_step (i : nat) (s : sys) : sys :=
  match cpu_step i true s with Done _ s' => s' | _ => s end.
Definition contended : sys :=
  run_step 1 (run_step 1 (run_step 0 (run_step 0 (run_step 0 (run_step 0 init_sys))))).

Lemma run_step_reach n s0 s i :
  lock_inv n s0 → rtc step s0 s → rtc step s0 (run_step i s).
Proof.
  intros H0 Hr. eapply rtc_r; [done |]. apply (step_cpu _ _ i true). unfold run_step.
  destruct (cpu_step_ok n s i true (reachable_inv _ _ _ H0 Hr)) as (s' & -> & _). done.
Qed.

Lemma contended_reachable : rtc step init_sys contended.
Proof. repeat (eapply run_step_reach; [exact init_sys_inv |]). apply rtc_refl. Qed.

Lemma mutual_exclusion_witness :
  pcs contended 0%nat = Held ∧ pcs contended 1%nat = Testing ∧
  ((∀ i j, pcs contended i = Held → pcs contended j = Held → i = j) ∧
   (∀ i, spinlock_do_i_hold i contended = true ↔ pcs contended i = Held) ∧
   (∀ i, pcs contended i = Held → irqs_on (cpus contended i) = false)).
Proof.
  split; [reflexivity |]. split; [reflexivity |].
  apply (mutual_exclusion (λ _, 0) init_sys contended); [exact init_sys_inv | exact contended_reachable].
Defined.

Lemma spinlock_safe_witness : ∃ s', cpu_step 1 false contended = Done tt s'.
Proof.
  apply (spinlock_safe (λ _, 0) init_sys contended);
    [exact init_sys_inv | exact contended_reachable].
Defined.

End Spinlock.
