(* ===== verification/Synch.v ===== *)
(** * Semaphores and wait channels (thread/synch.c, thread/thread.c)

    The semaphore's spinlock makes the parts of [P] and [V] between its
    acquisition and its release (or the switch inside [wchan_sleep]) atomic, so
    a semaphore is a transition system whose steps are these parts.  The wait
    channel is used through the interface [ThreadQueue], which the thread
    lists of threadlist.c implement. *)

From stdpp Require Import base list numbers strings sets.
From Stdlib Require Import ZArith Lia.
From S2P Require Import Prelude ThreadList.
Import ThreadList.

#[local] Open Scope Z_scope.

Module Synch.

(** ** What a wait channel needs from its list of threads *)

Class ThreadQueue (Q : Type) := {
  q_addtail : Z → M Q unit;
  q_remhead : M Q Z;
  q_isempty : M Q bool;
  (** The queue holds the threads of the list, in order. *)
  q_repr : Q → list Z → Prop;
  (** The thread is on no queue. *)
  q_free : Q → Z → Prop;
  q_addtail_law q l t :
    q_repr q l → q_free q t → Z.of_nat (length l) + 1 < 2 ^ 32 →
    ∃ q', q_addtail t q = Done tt q' ∧ q_repr q' (l ++ [t]) ∧
      ∀ t', t' ∉ l → t' ≠ t → q_free q t' → q_free q' t';
  q_remhead_law q l :
    q_repr q l →
    match l with
    | [] => q_remhead q = Done 0 q
    | t :: l' => ∃ q', q_remhead q = Done t q' ∧ q_repr q' l' ∧ q_free q' t ∧
        ∀ t', t' ∉ l → q_free q t' → q_free q' t'
    end;
  q_repr_fun q l l' : q_repr q l → q_repr q l' → l = l';
  q_isempty_law q l : q_repr q l → q_isempty q = Done (bool_decide (l = [])) q
}.

(** The list at address [tl] of threadlist.c is such a queue. *)
#[export] Program Instance threadlist_queue (tl : Z) : ThreadQueue tlstate := {|
  q_addtail := threadlist_addtail tl;
  q_remhead := threadlist_remhead tl;
  q_isempty := threadlist_isempty tl;
  q_repr := λ s l, is_list s tl l;
  q_free := detached
|}.
Next Obligation.
  intros tl s l t Hl Hd Hn.
  destruct (threadlist_addtail_spec s tl t l Hl Hd Hn) as (s' & E & Hl' & _ & Hk).
  exists s'. split; [done |]. split; [done |]. intros t' Ht Hne. apply Hk. set_solver.
Qed.
Next Obligation.
  intros tl s l Hl. pose proof (threadlist_remhead_spec s tl l Hl) as H.
  destruct l as [|t l]; [done |]. destruct H as (s' & E & Hl' & Hd & _ & Hk).
  exists s'. auto.
Qed.
Next Obligation. intros tl s l l'. apply is_list_fun. Qed.
Next Obligation.
  intros tl s l Hl. unfold threadlist_isempty, gets. rewrite (il_count _ _ _ Hl).
  by destruct l.
Qed.

Section semaphore.
Context {Q : Type} `{!ThreadQueue Q}.

(** [woken] are the threads made runnable by [wchan_wakeone] that have not yet
    returned from [wchan_sleep]. *)
Record sem := mkSem { sem_count : Z; sem_wchan : Q; woken : list Z }.
Abbreviation K := (M sem).

Definition on_q {A} (m : M Q A) : K A :=
  zoom sem_wchan (λ q s, mkSem (sem_count s) q (woken s)) m.
Definition set_count (c : Z) : K unit := modify (λ s, mkSem c (sem_wchan s) (woken s)).

(** [sem_create] after its allocations, on an initialised wait channel. *)
Definition sem_create (initial_count : Z) (q : Q) : sem := mkSem initial_count q [].

(** [sem_destroy]: [threadlist_cleanup] asserts that nobody waits. *)
Definition sem_destroy : K unit :=
  e ← on_q q_isempty;
  kassert e "threadlist_isempty(tl)".

(** [wchan_sleep] by thread [t] up to the switch to another thread. *)
Definition wchan_sleep (t : Z) : K unit := on_q (q_addtail t).

(** [wchan_wakeone]; [thread_make_runnable] puts the thread at the end of a
    run queue. *)
Definition wchan_wakeone : K unit :=
  target ← on_q q_remhead;
  if target =? 0 then mret tt
  else modify (λ s, mkSem (sem_count s) (sem_wchan s) (woken s ++ [target])).

(** The loop test of [P] and what follows it; [true] when the semaphore was
    taken, [false] when the thread went to sleep. *)
Definition P_check (t : Z) : K bool :=
  c ← gets sem_count;
  if c =? 0 then wchan_sleep t ;; mret false
  else
    kassert (0 <? c) "sem->sem_count > 0" ;;
    set_count (u32 (c - 1)) ;; mret true.

(** [P] from its entry. *)
Definition P_enter (t : Z) (in_interrupt : bool) : K bool :=
  kassert (negb in_interrupt) "curthread->t_in_interrupt == false" ;;
  P_check t.

(** [P] after [wchan_sleep] has returned. *)
Definition P_resume (t : Z) : K bool :=
  modify (λ s, mkSem (sem_count s) (sem_wchan s) (filter (λ x, x ≠ t) (woken s))) ;;
  P_check t.

Definition V : K unit :=
  c ← gets sem_count;
  set_count (u32 (c + 1)) ;;
  c' ← gets sem_count;
  kassert (0 <? c') "sem->sem_count > 0" ;;
  wchan_wakeone.

(** ** Runs *)

Inductive event := Got (t : Z) | Slept (t : Z) | Upped.

Inductive step : sem → event → sem → Prop :=
| step_enter s s' t b l :
    q_repr (sem_wchan s) l → t ∉ l → t ∉ woken s → t ≠ 0 → q_free (sem_wchan s) t →
    Z.of_nat (length l) + 1 < 2 ^ 32 →
    P_enter t false s = Done b s' → step s (if b then Got t else Slept t) s'
| step_resume s s' t b l :
    t ∈ woken s → q_repr (sem_wchan s) l → Z.of_nat (length l) + 1 < 2 ^ 32 →
    P_resume t s = Done b s' → step s (if b then Got t else Slept t) s'
| step_V s s' : V s = Done tt s' → step s Upped s'.

Inductive run : sem → list event → sem → Prop :=
| run_nil s : run s [] s
| run_step s tr s1 e s2 : run s tr s1 → step s1 e s2 → run s (tr ++ [e]) s2.

Definition is_got (e : event) : bool := match e with Got _ => true | _ => false end.
Definition is_up (e : event) : bool := match e with Upped => true | _ => false end.

(** ** Invariant *)

(** The waiting and the woken threads are distinct, woken threads are on no
    queue, and nobody waits while more units are available than woken threads
    are about to look for one. *)
Record sem_inv (s : sem) (l : list Z) : Prop := {
  si_range : 0 <= sem_count s < 2 ^ 32;
  si_repr : q_repr (sem_wchan s) l;
  si_nodup : NoDup (l ++ woken s);
  si_zero : ∀ t, t ∈ l ++ woken s → t ≠ 0;
  si_free : ∀ t, t ∈ woken s → q_free (sem_wchan s) t;
  si_wake : l ≠ [] → sem_count s <= Z.of_nat (length (woken s))
}.

Lemma on_q_eq {A} (m : M Q A) s a q :
  m (sem_wchan s) = Done a q → on_q m s = Done a (mkSem (sem_count s) q (woken s)).
Proof using. intros E. unfold on_q, zoom. by rewrite E. Qed.

(** The common part of [P]: [w] is the list of woken threads without [t]. *)
Lemma P_check_ok s l t :
  0 <= sem_count s < 2 ^ 32 → q_repr (sem_wchan s) l → NoDup (t :: l ++ woken s) →
  (∀ x, x ∈ t :: l ++ woken s → x ≠ 0) → (∀ x, x ∈ t :: woken s → q_free (sem_wchan s) x) →
  Z.of_nat (length l) + 1 < 2 ^ 32 →
  (l ≠ [] → sem_count s <= Z.of_nat (length (woken s)) + 1) →
  ∃ b s' l', P_check t s = Done b s' ∧ sem_inv s' l' ∧
    sem_count s' = sem_count s - b2z b ∧ woken s' = woken s ∧
    l' = if b then l else l ++ [t].
Proof using.
  intros Hr Hq Hnd Hz Hf Hlen Hw. unfold P_check, mbind, M_bind, gets.
  apply NoDup_cons in Hnd as [Ht Hnd].
  destruct (Z.eqb_spec (sem_count s) 0) as [E0 | E0].
  - destruct (q_addtail_law (sem_wchan s) l t) as (q' & E & Hq' & Hk);
      [done | apply Hf; set_solver | done |].
    unfold wchan_sleep. rewrite (on_q_eq _ _ _ _ E). simpl.
    eexists false, _, (l ++ [t]). split; [reflexivity |]. split; [| simpl; split_and!; [lia | done | done]].
    split; simpl; try done; try lia.
    + rewrite <- app_assoc. simpl. rewrite <- Permutation_middle. by apply NoDup_cons.
    + intros x Hx. apply Hz. set_solver.
    + intros x Hx. apply Hk; [| | apply Hf; set_solver].
      * apply NoDup_app in Hnd as (_ & Hd & _). intros Hxl. by apply (Hd x).
      * intros ->. apply Ht. set_solver.
  - unfold kassert. destruct (Z.ltb_spec 0 (sem_count s)); [| lia]. simpl.
    eexists true, _, l. split; [reflexivity |]. rewrite u32_small by lia.
    split; [| simpl; split_and!; [lia | done | done]].
    split; simpl; try done; try lia.
    + intros x Hx. apply Hz. set_solver.
    + intros x Hx. apply Hf. set_solver.
    + intros Hl. apply Hw in Hl. lia.
Qed.

Lemma step_enter_ok s l t b s' :
  sem_inv s l → t ∉ l → t ∉ woken s → t ≠ 0 → q_free (sem_wchan s) t →
  Z.of_nat (length l) + 1 < 2 ^ 32 → P_enter t false s = Done b s' →
  ∃ l', sem_inv s' l' ∧ sem_count s' = sem_count s - b2z b.
Proof using.
  intros [Hr Hq Hnd Hz Hf Hw] Ht Htw Ht0 Htf Hlen E.
  destruct (P_check_ok s l t) as (b' & s1 & l' & E' & Hinv & Hc & _); try done.
  - apply NoDup_cons. split; [set_solver | done].
  - intros x [-> | Hx]%elem_of_cons; [done | by apply Hz].
  - intros x [-> | Hx]%elem_of_cons; [done | by apply Hf].
  - intros Hl. apply Hw in Hl. lia.
  - change (P_check t s = Done b s') in E. rewrite E' in E. injection E as <- <-. eauto.
Qed.

Lemma filter_remove (t : Z) w :
  NoDup w → t ∈ w → Permutation w (t :: filter (λ x, x ≠ t) w).
Proof using.
  intros Hnd Ht. apply list_elem_of_split in Ht as (w1 & w2 & ->).
  rewrite <- Permutation_middle in Hnd. apply NoDup_cons in Hnd as [Hn _].
  rewrite filter_app, filter_cons_False by (intros H; by apply H).
  assert (∀ w : list Z, t ∉ w → filter (λ x, x ≠ t) w = w) as Hid.
  { induction w as [|x w IH]; intros Hw; [done |].
    rewrite filter_cons_True by set_solver. f_equal. apply IH. set_solver. }
  rewrite !Hid by set_solver. by rewrite Permutation_middle.
Qed.

Lemma step_resume_ok s l t b s' :
  sem_inv s l → t ∈ woken s → Z.of_nat (length l) + 1 < 2 ^ 32 →
  P_resume t s = Done b s' → ∃ l', sem_inv s' l' ∧ sem_count s' = sem_count s - b2z b.
Proof using.
  intros [Hr Hq Hnd Hz Hf Hw] Ht Hlen E. pose proof Hnd as (Hnl & Hdis & Hnw)%NoDup_app.
  pose proof (filter_remove t (woken s) Hnw Ht) as Hp.
  set (s1 := mkSem (sem_count s) (sem_wchan s) (filter (λ x, x ≠ t) (woken s))) in *.
  destruct (P_check_ok s1 l t) as (b' & s2 & l' & E' & Hinv & Hc & _); simpl; try done.
  - rewrite Permutation_middle. by rewrite <- Hp.
  - intros x Hx. apply Hz. rewrite Hp. set_solver.
  - intros x Hx. apply Hf. by rewrite Hp.
  - intros Hl. apply Hw in Hl. rewrite Hp in Hl. simpl in Hl. lia.
  - change (P_check t s1 = Done b s') in E. rewrite E' in E. injection E as <- <-. eauto.
Qed.

Lemma step_V_ok s l s' :
  sem_inv s l → V s = Done tt s' → ∃ l', sem_inv s' l' ∧ sem_count s' = sem_count s + 1.
Proof using.
  intros [Hr Hq Hnd Hz Hf Hw]. unfold V, mbind, M_bind, gets, set_count, modify, kassert. simpl.
  destruct (Z.ltb_spec 0 (u32 (sem_count s + 1))) as [Hpos | Hpos]; [| done]. simpl.
  assert (u32 (sem_count s + 1) = sem_count s + 1) as Eu.
  { destruct (decide (sem_count s + 1 = 2 ^ 32)) as [E |]; [by rewrite E in Hpos |].
    apply u32_small. lia. }
  rewrite Eu. unfold wchan_wakeone, mbind, M_bind.
  pose proof (q_remhead_law _ _ Hq) as Hrem.
  assert (sem_count s + 1 < 2 ^ 32) by (rewrite <- Eu; apply u32_fits).
  destruct l as [|t l].
  - rewrite (on_q_eq _ _ 0 (sem_wchan s)) by done. intros [= <-].
    exists []. split; [| done]. split; simpl; try done; lia.
  - destruct Hrem as (q' & E & Hq' & Ht & Hk). rewrite (on_q_eq _ _ t q') by done.
    assert (t ≠ 0) as Ht0 by (apply Hz; set_solver). apply Z.eqb_neq in Ht0 as ->.
    intros [= <-]. exists l. split; [| done]. simpl in Hnd.
    apply NoDup_cons in Hnd as [Htn Hnd].
    split; simpl; try done; try lia.
    + rewrite app_assoc, (Permutation_app_comm (l ++ woken s)). simpl. by apply NoDup_cons.
    + intros x Hx. apply Hz. set_solver.
    + intros x [Hx | ->%list_elem_of_singleton]%elem_of_app; [| done].
      apply Hk; [| by apply Hf]. intros [-> | Hxl]%elem_of_cons; [set_solver |].
      apply NoDup_app in Hnd as (_ & Hd & _). by apply (Hd x).
    + intros _. rewrite length_app. simpl. specialize (Hw ltac:(done)). lia.
Qed.

Lemma run_ok s0 l0 tr s :
  sem_inv s0 l0 → run s0 tr s →
  ∃ l, sem_inv s l ∧ sem_count s = sem_count s0 + countb is_up tr - countb is_got tr.
Proof using.
  intros H0 Hrun. induction Hrun as [s | s tr s1 e s2 _ IH Hstep].
  { exists l0. split; [done |]. simpl. lia. }
  destruct (IH H0) as (l & Hinv & Hc).
  assert (∀ (p : event → bool) e, countb p (tr ++ [e]) = countb p tr + b2z (p e)) as Happ.
  { intros p e'. clear. induction tr as [|x tr IH]; simpl; lia. }
  rewrite !Happ. pose proof (si_repr _ _ Hinv) as Hq.
  destruct Hstep as [s1 s2 t b l1 Hq1 H1 H2 H3 H4 H5 E | s1 s2 t b l1 H1 Hq1 H2 E | s1 s2 E].
  - rewrite (q_repr_fun _ _ _ Hq1 Hq) in *. destruct (step_enter_ok s1 l t b s2) as (l' & Hi & Hc');
      try done. exists l'. split; [done |]. destruct b; simpl in *; lia.
  - rewrite (q_repr_fun _ _ _ Hq1 Hq) in *. destruct (step_resume_ok s1 l t b s2) as (l' & Hi & Hc');
      try done. exists l'. split; [done |]. destruct b; simpl in *; lia.
  - destruct (step_V_ok s1 l s2) as (l' & Hi & Hc'); try done.
    exists l'. split; [done |]. simpl. lia.
Qed.

(** C18: Along every interleaving of [P] and [V] calls on a fresh semaphore, the
    count is the initial count plus the [V]s minus the completed [P]s, so never
    more [P]s complete than units were made available; and no wakeup is lost: a
    thread stays asleep only while every unit available is matched by a woken
    thread that has yet to look for one. *)
Theorem semaphore_run c q tr s :
  0 <= c < 2 ^ 32 → q_repr q [] → run (sem_create c q) tr s →
  sem_count s = c + countb is_up tr - countb is_got tr ∧
  countb is_got tr <= c + countb is_up tr ∧
  ∃ l, q_repr (sem_wchan s) l ∧ (l ≠ [] → sem_count s <= Z.of_nat (length (woken s))).
Proof using.
  intros Hc Hq Hrun. destruct (run_ok (sem_create c q) [] tr s) as (l & [Hr Hq' _ _ _ Hw] & E).
  - split; simpl; try done; set_solver || apply NoDup_nil_2.
  - done.
  - simpl in E. split; [done |]. split; [lia |]. by exists l.
Qed.
End semaphore.

(** A thread that sleeps on the semaphore is woken by [V] and takes the unit. *)
Definition w_q0 : tlstate := run_state (threadlist_init 1 wit_s0).
#[local] Instance w_queue : ThreadQueue tlstate := threadlist_queue 1.
Definition w_s0 : @sem tlstate := sem_create 0 w_q0.
Definition w_s1 := after (P_enter 20 false w_s0) w_s0.
Definition w_s2 := after (V w_s1) w_s1.
Definition w_s3 := after (P_resume 20 w_s2) w_s2.

Lemma w_empty s : s = w_s0 ∨ s = w_s2 → is_list (sem_wchan s) 1 [].
Proof.
  intros [-> | ->]; (split; try done; apply NoDup_nil_2 || set_solver).
Qed.

Lemma w_run : run w_s0 [Slept 20; Upped; Got 20] w_s3.
Proof.
  apply (run_step _ [Slept 20; Upped] w_s2 (Got 20)).
  - apply (run_step _ [Slept 20] w_s1 Upped).
    + apply (run_step _ [] w_s0 (Slept 20)); [apply run_nil |].
      apply (step_enter w_s0 w_s1 20 false []); [by apply w_empty; left | set_solver | set_solver | done
        | vm_compute; done | simpl; lia | apply after_done; vm_compute; reflexivity].
    + apply step_V, after_done. vm_compute. reflexivity.
  - apply (step_resume w_s2 w_s3 20 true []); [vm_compute; left | by apply w_empty; right
      | simpl; lia | apply after_done; vm_compute; reflexivity].
Qed.

Lemma semaphore_run_witness :
  sem_count w_s3 = 0 + countb is_up [Slept 20; Upped; Got 20] - countb is_got [Slept 20; Upped; Got 20] ∧
  countb is_got [Slept 20; Upped; Got 20] <= 0 + countb is_up [Slept 20; Upped; Got 20] ∧
  ∃ l, q_repr (sem_wchan w_s3) l ∧ (l ≠ [] → sem_count w_s3 <= Z.of_nat (length (woken w_s3))).
Proof.
  apply (semaphore_run 0 w_q0 [Slept 20; Upped; Got 20] w_s3); [lia | | exact w_run].
  apply (w_empty w_s0). by left.
Defined.

End Synch.
