(* ===== verification/Hangman.v ===== *)
(** * The deadlock detector (thread/hangman.c)

    Actors (threads and CPUs) wait for and hold lockables (locks and spinlocks).
    Every function runs under [hangman_lock], so each is one atomic step on the
    waits-for graph.  Actors and lockables are addresses; a key absent from a map is
    a NULL field. *)

From stdpp Require Import base gmap relations strings.
From Stdlib Require Import ZArith Lia.
From S2P Require Import Prelude.

#[local] Open Scope Z_scope.

Module Hangman.

Record graph := mkGraph { a_waiting : gmap Z Z; l_holding : gmap Z Z }.
Abbreviation H := (M graph).

Definition set_waiting (a : Z) (l : option Z) : H unit :=
  modify (λ g, mkGraph (partial_alter (λ _, l) a (a_waiting g)) (l_holding g)).
Definition set_holding (l : Z) (a : option Z) : H unit :=
  modify (λ g, mkGraph (a_waiting g) (partial_alter (λ _, a) l (l_holding g))).

(** The search of [hangman_check]: is [target] on the chain from [cur]? *)
Fixpoint check_loop (fuel : nat) (cur : option Z) (target : Z) : H bool :=
  match fuel with
  | O => nofuel
  | S fuel' =>
      match cur with
      | None => mret false
      | Some c =>
          if c =? target then mret true
          else
            w ← gets (λ g, a_waiting g !! c);
            match w with
            | None => mret false
            | Some l => cur' ← gets (λ g, l_holding g !! l); check_loop fuel' cur' target
            end
      end
  end.

(** The printing of the cycle: the actors named, up to [target]. *)
Fixpoint report_loop (fuel : nat) (cur : option Z) (target : Z) : H (list Z) :=
  match fuel with
  | O => nofuel
  | S fuel' =>
      match cur with
      | None => panic "NULL actor"
      | Some c =>
          if c =? target then mret [c]
          else
            l ← deref (λ g, a_waiting g !! c) "NULL lockable";
            cur' ← gets (λ g, l_holding g !! l);
            r ← report_loop fuel' cur' target;
            mret (c :: r)
      end
  end.

Definition hangman_check (start target : Z) : H unit :=
  fuel ← gets (λ g, S (S (size (a_waiting g))));
  cur ← gets (λ g, l_holding g !! start);
  found ← check_loop fuel cur target;
  if (found : bool) then report_loop fuel cur target ;; panic "Deadlock."
  else mret tt.

Section calls.
(** The lockable of [hangman_lock] itself. *)
Variable self : Z.

Definition hangman_wait (a l : Z) : H unit :=
  if l =? self then mret tt
  else
    w ← gets (λ g, a_waiting g !! a);
    if bool_decide (w ≠ None) then panic "hangman_wait: already waiting for something?"
    else
      hangman_check l a ;;
      set_waiting a (Some l).

Definition hangman_acquire (a l : Z) : H unit :=
  if l =? self then mret tt
  else
    w ← gets (λ g, a_waiting g !! a);
    if bool_decide (w ≠ Some l) then panic "hangman_acquire: not waiting for lock"
    else
      h ← gets (λ g, l_holding g !! l);
      if bool_decide (h ≠ None) then panic "hangman_acquire: still held"
      else
        set_holding l (Some a) ;;
        set_waiting a None.

Definition hangman_release (a l : Z) : H unit :=
  if l =? self then mret tt
  else
    w ← gets (λ g, a_waiting g !! a);
    if bool_decide (w ≠ None) then panic "hangman_release: waiting for something?"
    else
      h ← gets (λ g, l_holding g !! l);
      if bool_decide (h ≠ Some a) then panic "hangman_release: not the holder"
      else set_holding l None.

(** ** The waits-for graph *)

(** Actor [a] waits for something actor [b] holds. *)
Definition waits_for (g : graph) (a b : Z) : Prop :=
  ∃ l, a_waiting g !! a = Some l ∧ l_holding g !! l = Some b.

Definition acyclic (g : graph) : Prop := ∀ a, ¬ tc (waits_for g) a a.

(** Waiting for [l], actor [a] would wait for itself. *)
Definition deadlock (g : graph) (l a : Z) : Prop :=
  ∃ h, l_holding g !! l = Some h ∧ rtc (waits_for g) h a.

(** Graphs the three calls can build. *)
Inductive reachable : graph → Prop :=
| reach_empty : reachable (mkGraph ∅ ∅)
| reach_wait g g' a l : reachable g → hangman_wait a l g = Done tt g' → reachable g'
| reach_acquire g g' a l : reachable g → hangman_acquire a l g = Done tt g' → reachable g'
| reach_release g g' a l : reachable g → hangman_release a l g = Done tt g' → reachable g'.

Lemma waits_for_fun g a b c : waits_for g a b → waits_for g a c → b = c.
Proof. intros (l & E1 & E2) (l' & E3 & E4). congruence. Qed.

(** The chain from [c] does not come back to itself, so the search visits no actor
    twice: [X] are those already visited. *)
Lemma check_loop_spec g target : acyclic g → ∀ fuel cur (X : gset Z),
  X ⊆ dom (a_waiting g) →
  (∀ x c, x ∈ X → cur = Some c → tc (waits_for g) x c) →
  (size (dom (a_waiting g) ∖ X) + 1 < fuel)%nat →
  ∃ b, check_loop fuel cur target g = Done b g ∧
    (b = true ↔ ∃ c, cur = Some c ∧ rtc (waits_for g) c target) ∧
    (b = true → ∃ r, report_loop fuel cur target g = Done r g).
Proof.
  intros Hac fuel. induction fuel as [|fuel IH]; intros cur X HX Hr Hf; [lia |].
  destruct cur as [c|]; cbn [check_loop report_loop];
    [| exists false; split_and!; [done | naive_solver | done]].
  destruct (Z.eqb_spec c target) as [-> | Hne].
  { exists true. split_and!; [done | | by eexists]. split; [| done]. by exists target. }
  unfold mbind, M_bind, gets, deref. destruct (a_waiting g !! c) as [l|] eqn:Ew.
  2:{ exists false. split_and!; [done | | done]. split; [done |].
      intros (? & [= <-] & R). inversion R as [|? y ? (l & E & _)]; [done | congruence]. }
  assert (Hc : c ∉ X) by (intros HcX; by apply (Hac c), Hr).
  assert (Hd : c ∈ dom (a_waiting g)) by (by apply elem_of_dom_2 in Ew).
  destruct (IH (l_holding g !! l) (X ∪ {[c]})) as (b & E & Hb & Hrep).
  - set_solver.
  - intros x d Hx Hl. assert (W : waits_for g c d) by (by exists l).
    apply elem_of_union in Hx as [Hx | ->%elem_of_singleton]; [| by apply tc_once].
    eapply tc_r; [by apply Hr | done].
  - assert ((dom (a_waiting g) ∖ X : gset Z) ≡ {[c]} ∪ dom (a_waiting g) ∖ (X ∪ {[c]})) as Hs.
    { intros x. destruct (decide (x = c)); set_solver. }
    rewrite Hs, size_union, size_singleton in Hf by set_solver. lia.
  - exists b. split; [done |]. split.
    + rewrite Hb. split; intros (d & Ed & R).
      * exists c. split; [done |]. eapply rtc_l; [by exists l | done].
      * injection Ed as <-. inversion R as [|? y ? W R']; subst; [done |].
        destruct W as (l' & E1 & E2). exists y. split; [congruence | done].
    + intros Ht. destruct (Hrep Ht) as (r & Er). rewrite Er. by eexists.
Qed.

Lemma hangman_check_spec g l a :
  acyclic g →
  (deadlock g l a ∧ hangman_check l a g = Panic "Deadlock.") ∨
  (¬ deadlock g l a ∧ hangman_check l a g = Done tt g).
Proof.
  intros Hac. unfold hangman_check, mbind, M_bind, gets.
  destruct (check_loop_spec g a Hac (S (S (size (a_waiting g)))) (l_holding g !! l) ∅)
    as (b & E & Hb & Hrep); [set_solver | set_solver | |].
  { rewrite difference_empty_L, size_dom. lia. }
  rewrite E. destruct b.
  - destruct (Hrep eq_refl) as (r & Er). rewrite Er. left. split; [| done]. by apply Hb.
  - right. split; [| done]. intros D. apply Hb in D. done.
Qed.

(** ** The calls keep the graph free of cycles *)

Lemma tc_sub (R R' : relation Z) :
  (∀ x y, R' x y → R x y) → ∀ x y, tc R' x y → tc R x y.
Proof. intros Hs x y. induction 1; eauto using tc. Qed.

(** Edges out of [a] are added to a relation without cycles and without edges out
    of [a]; none of their ends leads back to [a]. *)
Section edges.
Context (R R' : relation Z) (a : Z).
Hypothesis step : ∀ x y, R' x y → R x y ∨ x = a.
Hypothesis no_cycle : ∀ x, ¬ tc R x x.
Hypothesis no_return : ∀ h, R' a h → ¬ rtc R h a.

Lemma rtc_to_a y z : rtc R' y z → z = a → rtc R y a.
Proof using step.
  induction 1 as [x | x y z W _ IH]; intros Ez; [by subst |].
  destruct (step _ _ W) as [W' | ->]; [| done]. eapply rtc_l; [done | by apply IH].
Qed.

Lemma tc_through_a u v : tc R' u v → tc R u v ∨ (rtc R' u a ∧ tc R' a v).
Proof using step.
  induction 1 as [u v W | u w v W Tw IH]; destruct (step _ _ W) as [W' | ->].
  - left. by apply tc_once.
  - right. split; [done |]. by apply tc_once.
  - destruct IH as [IH | [IH1 IH2]]; [left; by eapply tc_l |].
    right. split; [by eapply rtc_l | done].
  - right. split; [done |]. by eapply tc_l.
Qed.

Lemma no_new_cycle x : ¬ tc R' x x.
Proof using step no_cycle no_return.
  assert (Ha : ¬ tc R' a a).
  { intros T. inversion T as [? ? W | ? y ? W T']; subst; apply (no_return _ W); [done |].
    eapply rtc_to_a; [by apply tc_rtc | done]. }
  intros T. destruct (tc_through_a _ _ T) as [T' | [R1 R2]]; [by eapply no_cycle |].
  apply Ha. by eapply tc_rtc_r.
Qed.
End edges.

Lemma acyclic_wait g a l :
  acyclic g → a_waiting g !! a = None → ¬ deadlock g l a →
  acyclic (mkGraph (<[a := l]> (a_waiting g)) (l_holding g)).
Proof.
  intros Hac Hn Hd. unfold acyclic. apply (no_new_cycle (waits_for g) _ a); [| done |].
  - intros x y (k & E1 & E2). simpl in *. apply lookup_insert_Some in E1 as [[-> ->] | [Hx E1]].
    + by right.
    + left. by exists k.
  - intros h (k & E1 & E2) R. simpl in *. rewrite lookup_insert_eq in E1. injection E1 as ->.
    apply Hd. by exists h.
Qed.

(** The actor that waited gets the lock: it has no edge any more. *)
Lemma acyclic_acquire g a l :
  acyclic g → acyclic (mkGraph (delete a (a_waiting g)) (<[l := a]> (l_holding g))).
Proof.
  intros Hac. set (g' := mkGraph _ _).
  assert (Hout : ∀ y, ¬ waits_for g' a y).
  { intros y (k & E & _). simpl in E. by rewrite lookup_delete_eq in E. }
  assert (Hstep : ∀ x y, waits_for g' x y → waits_for g x y ∨ y = a).
  { intros x y (k & E1 & E2). simpl in *. apply lookup_delete_Some in E1 as [_ E1].
    apply lookup_insert_Some in E2 as [[_ ->] | [_ E2]]; [by right |]. left. by exists k. }
  assert (Gen : ∀ x y, tc (waits_for g') x y → tc (waits_for g) x y ∨ y = a).
  { induction 1 as [x y W | x w y W T IH]; destruct (Hstep _ _ W) as [W' | ->].
    - left. by apply tc_once.
    - by right.
    - destruct IH as [IH | ->]; [left; by eapply tc_l | by right].
    - inversion T as [? ? W2 | ? ? ? W2]; by apply Hout in W2. }
  intros x T. destruct (Gen x x T) as [T' | ->]; [by eapply Hac |].
  inversion T as [? ? W2 | ? ? ? W2]; by apply Hout in W2.
Qed.

Lemma reachable_acyclic g : reachable g → acyclic g.
Proof.
  induction 1 as [|g g' a l _ IH E | g g' a l _ IH E | g g' a l _ IH E].
  - intros a T. inversion T as [? ? (l & E & _) | ? ? ? (l & E & _)]; done.
  - unfold hangman_wait in E. destruct (l =? self); [by injection E as <- |].
    unfold mbind, M_bind, gets in E. case_bool_decide as Hw; [done |].
    destruct (hangman_check_spec g l a IH) as [[_ C] | [Hd C]]; rewrite C in E; [done |].
    injection E as <-. apply acyclic_wait; [done | by destruct (a_waiting g !! a); [destruct Hw |] | done].
  - unfold hangman_acquire in E. destruct (l =? self); [by injection E as <- |].
    unfold mbind, M_bind, gets in E. do 2 (case_bool_decide; [done |]).
    injection E as <-. by apply acyclic_acquire.
  - unfold hangman_release in E. destruct (l =? self); [by injection E as <- |].
    unfold mbind, M_bind, gets in E. do 2 (case_bool_decide; [done |]).
    injection E as <-. intros x T. apply (IH x). revert T. apply tc_sub.
    intros y z (k & E1 & E2). simpl in *. apply lookup_delete_Some in E2 as [_ E2]. by exists k.
Qed.

(** C16: Along every sequence of calls the detector is exact and terminates: the
    waits-for graph has no cycle, and [hangman_wait] by an actor that is not waiting
    reports a deadlock if and only if the wait would close a cycle; otherwise it
    returns with the wait recorded.  The search never runs for ever. *)
Theorem hangman_wait_exact g a l :
  reachable g → l ≠ self → a_waiting g !! a = None →
  acyclic g ∧
  (deadlock g l a → hangman_wait a l g = Panic "Deadlock.") ∧
  (¬ deadlock g l a →
     hangman_wait a l g = Done tt (mkGraph (<[a := l]> (a_waiting g)) (l_holding g))).
Proof.
  intros Hg Hl Ha. pose proof (reachable_acyclic g Hg) as Hac. split; [done |].
  unfold hangman_wait. rewrite (proj2 (Z.eqb_neq l self)) by done.
  unfold mbind, M_bind, gets. rewrite Ha. rewrite bool_decide_eq_false_2 by naive_solver.
  destruct (hangman_check_spec g l a Hac) as [[Hd C] | [Hd C]]; rewrite C; by split.
Qed.
End calls.

(** Two actors take one lock each; then the first waits for the second's lock. *)
Definition w_graph : graph := mkGraph {[1 := 20]} {[10 := 1; 20 := 2]}.

Lemma w_graph_reachable : reachable 0 w_graph.
Proof.
  eapply (reach_wait 0 (mkGraph ∅ {[10 := 1; 20 := 2]}) _ 1 20); [| by vm_compute].
  eapply (reach_acquire 0 (mkGraph {[2 := 20]} {[10 := 1]}) _ 2 20); [| by vm_compute].
  eapply (reach_wait 0 (mkGraph ∅ {[10 := 1]}) _ 2 20); [| by vm_compute].
  eapply (reach_acquire 0 (mkGraph {[1 := 10]} ∅) _ 1 10); [| by vm_compute].
  eapply (reach_wait 0 (mkGraph ∅ ∅) _ 1 10); [apply reach_empty | by vm_compute].
Qed.

Lemma hangman_wait_exact_witness :
  acyclic w_graph ∧
  (deadlock w_graph 10 2 → hangman_wait 0 2 10 w_graph = Panic "Deadlock.") ∧
  (¬ deadlock w_graph 10 2 →
     hangman_wait 0 2 10 w_graph = Done tt (mkGraph {[1 := 20; 2 := 10]} {[10 := 1; 20 := 2]})).
Proof.
  destruct (hangman_wait_exact 0 w_graph 2 10) as (H1 & H2 & H3);
    [exact w_graph_reachable | done | by vm_compute |].
  split; [exact H1 |]. split; [exact H2 |]. intros Hd. rewrite (H3 Hd). by vm_compute.
Defined.

(** The second actor waiting for the first one's lock is the deadlock. *)
Example w_deadlock : hangman_wait 0 2 10 w_graph = Panic "Deadlock.".
Proof. by vm_compute. Qed.
End Hangman.
