(* ===== verification/Thread.v ===== *)
(** * Threads, scheduling and wait channels (thread/thread.c, thread/clock.c)

    One state holds all threads, CPUs and wait channels.  Lists of threads are
    lists of thread addresses (ThreadList.v shows that the linked lists of
    threadlist.c behave so).  Code that runs under a run-queue lock is atomic with
    respect to everything else that touches the run queue, so the operations below
    are cut where such a lock is given up while the function is not finished: in the
    idle loop of [thread_switch], between two threads made runnable by a wake-up, and
    between the CPUs visited by [thread_consider_migration].  What a CPU is in the
    middle of is its [activity]; the activities of the CPUs interleave arbitrarily.

    Spinlocks are their holders; an [acquire] of a lock that another CPU holds does
    not return ([NoFuel]: the CPU spins, and the step is not taken).  Memory comes
    from [kmalloc], whose results are arguments of the operations that allocate.
    [as_activate] (AddrSpace.v) changes only the TLB and is left out, as are the
    number of threads a process counts (Proc.v) and messages on the console. *)

From stdpp Require Import base list gmap numbers strings.
From Stdlib Require Import ZArith Lia.
From S2P Require Import Prelude.

#[local] Open Scope Z_scope.

Module Thread.

Definition IPL_NONE : Z := 0.
Definition IPL_HIGH : Z := 1.
Definition THREAD_STACK_MAGIC : Z := 0xbaadf00d.
Definition SCHEDULE_HARDCLOCKS : Z := 4.
Definition MIGRATE_HARDCLOCKS : Z := 16.
Definition IPI_PANIC : Z := 0.
Definition IPI_OFFLINE : Z := 1.
Definition IPI_UNIDLE : Z := 2.
Definition IPI_TLBSHOOTDOWN : Z := 3.
Definition TLBSHOOTDOWN_MAX : Z := 16.

Inductive threadstate := S_RUN | S_READY | S_SLEEP | S_ZOMBIE.

#[export] Instance threadstate_eq_dec : EqDecision threadstate.
Proof. solve_decision. Defined.

(** Where a thread continues when it is switched to: it is running, it has never
    run ([switchframe_init]), or it is inside [thread_switch] with its local [spl]. *)
Inductive context := Running | Fresh | InSwitch (spl : Z).

(** The locals of [mips_trap] on the stack of an interrupted thread. *)
Record trapframe := mkTf { old_in : bool; doadjust : bool }.

Record thread := mkThread {
  t_wchan_name : option string;
  t_state : threadstate;
  t_stack : Z;
  t_guard : list Z;             (* the four words at the end of the stack *)
  t_context : context;
  t_cpu : nat;
  t_proc : Z;
  t_in_interrupt : bool;
  t_curspl : Z;
  t_iplhigh_count : Z;
  t_trap : option trapframe
}.

Record cpu := mkCpu {
  c_curthread : Z;
  c_zombies : list Z;
  c_hardclocks : Z;
  c_spinlocks : Z;
  c_isidle : bool;
  c_runqueue : list Z;
  c_runqueue_lock : option nat;
  c_ipi_pending : Z;
  c_shootdown : list Z
}.

Record wchan := mkWchan { wc_name : string; wc_threads : list Z }.

(** The parts of [thread_consider_migration]: counting from CPU [i] on, taking the
    victims off the own queue, handing them out from CPU [i] on, putting the rest
    back. *)
Inductive migration :=
| MCount (i : nat) (my_count total_count : Z)
| MGrab (my_count one_share : Z)
| MSend (i : nat) (to_send one_share : Z) (victims : list Z)
| MBack (victims : list Z).

(** What a CPU is doing besides its current thread's own code: nothing (perhaps
    with a wait channel's lock held), making threads runnable, migrating inside
    [hardclock], the rest of [hardclock], or it has been switched off. *)
Inductive activity :=
| Base (held : option Z)
| Waking (held : option Z) (ts : list Z)
| Migrating (m : migration)
| Tick
| Halted.

Record sched := mkSched {
  threads : gmap Z thread;
  cpus : list cpu;
  wchans : gmap Z wchan;
  locks : gmap Z nat;           (* spinlocks of wait channels: the holder *)
  acts : list activity
}.
Abbreviation T := (M sched).

(** *** Fields *)

Definition with_wchan_name x t := mkThread x (t_state t) (t_stack t) (t_guard t) (t_context t)
  (t_cpu t) (t_proc t) (t_in_interrupt t) (t_curspl t) (t_iplhigh_count t) (t_trap t).
Definition with_state x t := mkThread (t_wchan_name t) x (t_stack t) (t_guard t) (t_context t)
  (t_cpu t) (t_proc t) (t_in_interrupt t) (t_curspl t) (t_iplhigh_count t) (t_trap t).
Definition with_stack x g t := mkThread (t_wchan_name t) (t_state t) x g (t_context t)
  (t_cpu t) (t_proc t) (t_in_interrupt t) (t_curspl t) (t_iplhigh_count t) (t_trap t).
Definition with_context x t := mkThread (t_wchan_name t) (t_state t) (t_stack t) (t_guard t) x
  (t_cpu t) (t_proc t) (t_in_interrupt t) (t_curspl t) (t_iplhigh_count t) (t_trap t).
Definition with_t_cpu x t := mkThread (t_wchan_name t) (t_state t) (t_stack t) (t_guard t) (t_context t)
  x (t_proc t) (t_in_interrupt t) (t_curspl t) (t_iplhigh_count t) (t_trap t).
Definition with_proc x t := mkThread (t_wchan_name t) (t_state t) (t_stack t) (t_guard t) (t_context t)
  (t_cpu t) x (t_in_interrupt t) (t_curspl t) (t_iplhigh_count t) (t_trap t).
Definition with_spl x n t := mkThread (t_wchan_name t) (t_state t) (t_stack t) (t_guard t) (t_context t)
  (t_cpu t) (t_proc t) (t_in_interrupt t) x n (t_trap t).
Definition with_trap i x t := mkThread (t_wchan_name t) (t_state t) (t_stack t) (t_guard t) (t_context t)
  (t_cpu t) (t_proc t) i (t_curspl t) (t_iplhigh_count t) x.

Definition with_curthread x c := mkCpu x (c_zombies c) (c_hardclocks c) (c_spinlocks c) (c_isidle c)
  (c_runqueue c) (c_runqueue_lock c) (c_ipi_pending c) (c_shootdown c).
Definition with_zombies x c := mkCpu (c_curthread c) x (c_hardclocks c) (c_spinlocks c) (c_isidle c)
  (c_runqueue c) (c_runqueue_lock c) (c_ipi_pending c) (c_shootdown c).
Definition with_hardclocks x c := mkCpu (c_curthread c) (c_zombies c) x (c_spinlocks c) (c_isidle c)
  (c_runqueue c) (c_runqueue_lock c) (c_ipi_pending c) (c_shootdown c).
Definition with_spinlocks x c := mkCpu (c_curthread c) (c_zombies c) (c_hardclocks c) x (c_isidle c)
  (c_runqueue c) (c_runqueue_lock c) (c_ipi_pending c) (c_shootdown c).
Definition with_idle x c := mkCpu (c_curthread c) (c_zombies c) (c_hardclocks c) (c_spinlocks c) x
  (c_runqueue c) (c_runqueue_lock c) (c_ipi_pending c) (c_shootdown c).
Definition with_runqueue x c := mkCpu (c_curthread c) (c_zombies c) (c_hardclocks c) (c_spinlocks c)
  (c_isidle c) x (c_runqueue_lock c) (c_ipi_pending c) (c_shootdown c).
Definition with_rqlock x c := mkCpu (c_curthread c) (c_zombies c) (c_hardclocks c) (c_spinlocks c)
  (c_isidle c) (c_runqueue c) x (c_ipi_pending c) (c_shootdown c).
Definition with_ipi x l c := mkCpu (c_curthread c) (c_zombies c) (c_hardclocks c) (c_spinlocks c)
  (c_isidle c) (c_runqueue c) (c_runqueue_lock c) x l.

Definition with_threads x s := mkSched x (cpus s) (wchans s) (locks s) (acts s).
Definition with_cpus x s := mkSched (threads s) x (wchans s) (locks s) (acts s).
Definition with_wchans x s := mkSched (threads s) (cpus s) x (locks s) (acts s).
Definition with_locks x s := mkSched (threads s) (cpus s) (wchans s) x (acts s).
Definition with_acts x s := mkSched (threads s) (cpus s) (wchans s) (locks s) x.

Definition get_thread (t : Z) : T thread := deref (λ s, threads s !! t) "bad thread".
Definition set_thread (t : Z) (x : thread) : T unit :=
  modify (λ s, with_threads (<[t := x]> (threads s)) s).
Definition upd_thread (t : Z) (f : thread → thread) : T unit :=
  get_thread t ;; modify (λ s, with_threads (alter f t (threads s)) s).
Definition get_cpu (c : nat) : T cpu := deref (λ s, cpus s !! c) "bad cpu".
Definition upd_cpu (c : nat) (f : cpu → cpu) : T unit :=
  get_cpu c ;; modify (λ s, with_cpus (alter f c (cpus s)) s).
Definition get_wchan (w : Z) : T wchan := deref (λ s, wchans s !! w) "bad wchan".
Definition set_wchan (w : Z) (x : wchan) : T unit :=
  modify (λ s, with_wchans (<[w := x]> (wchans s)) s).
Definition set_act (me : nat) (a : activity) : T unit :=
  modify (λ s, with_acts (<[me := a]> (acts s)) s).

Definition curthread (me : nat) : T Z := x ← get_cpu me; mret (c_curthread x).

(** *** Interrupt levels and spinlocks of the CPU [me] *)

Definition splraise (me : nat) : T unit :=
  cur ← curthread me;
  upd_thread cur (λ t, with_spl (t_curspl t) (t_iplhigh_count t + 1) t).
Definition spllower (me : nat) : T unit :=
  cur ← curthread me;
  upd_thread cur (λ t, with_spl (t_curspl t) (t_iplhigh_count t - 1) t).

(** [splx] returns the old level. *)
Definition splx (me : nat) (spl : Z) : T Z :=
  cur ← curthread me;
  t ← get_thread cur;
  if t_curspl t <? spl then
    splraise me ;;
    upd_thread cur (λ t, with_spl spl (t_iplhigh_count t) t) ;;
    mret (t_curspl t)
  else if spl <? t_curspl t then
    upd_thread cur (λ t, with_spl spl (t_iplhigh_count t) t) ;;
    spllower me ;;
    mret (t_curspl t)
  else mret spl.
Definition splhigh (me : nat) : T Z := splx me IPL_HIGH.
Definition spl0 (me : nat) : T Z := splx me IPL_NONE.

Definition count_lock (me : nat) (d : Z) : T unit :=
  upd_cpu me (λ x, with_spinlocks (c_spinlocks x + d) x).

(** [h] is the holder of the lock. *)
Definition acquire (me : nat) (h : option nat) : T unit :=
  splraise me ;;
  match h with
  | Some i => if bool_decide (i = me) then panic "Deadlock on spinlock" else nofuel
  | None => count_lock me 1
  end.
Definition release (me : nat) (h : option nat) : T unit :=
  kassert (bool_decide (h = Some me)) "splk_holder == curcpu->c_self" ;;
  x ← get_cpu me;
  kassert (0 <? c_spinlocks x) "curcpu->c_spinlocks > 0" ;;
  count_lock me (-1) ;;
  spllower me.

Definition rq_acquire (me c : nat) : T unit :=
  x ← get_cpu c;
  acquire me (c_runqueue_lock x) ;;
  upd_cpu c (with_rqlock (Some me)).
Definition rq_release (me c : nat) : T unit :=
  x ← get_cpu c;
  release me (c_runqueue_lock x) ;;
  upd_cpu c (with_rqlock None).

Definition lock_holder (lk : Z) : T (option nat) := gets (λ s, locks s !! lk).
Definition lk_acquire (me : nat) (lk : Z) : T unit :=
  h ← lock_holder lk;
  acquire me h ;;
  modify (λ s, with_locks (<[lk := me]> (locks s)) s).
Definition lk_release (me : nat) (lk : Z) : T unit :=
  h ← lock_holder lk;
  release me h ;;
  modify (λ s, with_locks (delete lk (locks s)) s).
Definition lk_do_i_hold (me : nat) (lk : Z) : T bool :=
  h ← lock_holder lk; mret (bool_decide (h = Some me)).

(** ** Creation and destruction *)

Definition stack_guard : list Z := replicate 4 THREAD_STACK_MAGIC.

Definition thread_checkstack_init (t : Z) : T unit :=
  upd_thread t (λ x, with_stack (t_stack x) stack_guard x).
Definition thread_checkstack (t : Z) : T unit :=
  x ← get_thread t;
  if t_stack x =? 0 then mret tt
  else kassert (bool_decide (t_guard x = stack_guard)) "stack overflow".

Definition new_thread : thread :=
  mkThread (Some "NEW") S_READY 0 [] Running 0 0 false IPL_HIGH 1 None.

(** [thread] and [name] are the blocks [kmalloc] gave, 0 when it failed. *)
Definition thread_create (thread name : Z) : T Z :=
  if thread =? 0 then mret 0
  else if name =? 0 then mret 0
  else set_thread thread new_thread ;; mret thread.

Definition thread_destroy (me : nat) (t : Z) : T unit :=
  cur ← curthread me;
  kassert (negb (t =? cur)) "thread != curthread" ;;
  x ← get_thread t;
  kassert (bool_decide (t_state x ≠ S_RUN)) "thread->t_state != S_RUN" ;;
  kassert (t_proc x =? 0) "thread->t_proc == NULL" ;;
  modify (λ s, with_threads (delete t (threads s)) s).

(** The loop takes the zombies one by one from the head. *)
Fixpoint exorcise_loop (me : nat) (zs : list Z) : T unit :=
  match zs with
  | [] => mret tt
  | z :: zs' =>
      upd_cpu me (with_zombies zs') ;;
      cur ← curthread me;
      kassert (negb (z =? cur)) "z != curthread" ;;
      x ← get_thread z;
      kassert (bool_decide (t_state x = S_ZOMBIE)) "z->t_state == S_ZOMBIE" ;;
      thread_destroy me z ;;
      exorcise_loop me zs'
  end.
Definition exorcise (me : nat) : T unit :=
  x ← get_cpu me; exorcise_loop me (c_zombies x).

(** ** Inter-processor interrupts

    c_ipi_lock is given up before the step in which it is taken ends, so it is always
    found free; it appears in [interprocessor_interrupt] ([None] taken, [Some me] released),
    where code runs under it, and is left out of the one-line sections of [ipi_send] and
    [ipi_tlbshootdown]. *)

Definition ipi_send (target : nat) (code : Z) : T unit :=
  kassert ((0 <=? code) && (code <? 32)) "code >= 0 && code < 32" ;;
  upd_cpu target (λ x, with_ipi (Z.lor (c_ipi_pending x) (Z.shiftl 1 code)) (c_shootdown x) x).

Definition ipi_broadcast (me : nat) (code : Z) : T unit :=
  n ← gets (λ s, length (cpus s));
  for_loop n 0 (λ i, if i =? Z.of_nat me then mret tt else ipi_send (Z.to_nat i) code).

Definition ipi_tlbshootdown (target : nat) (mapping : Z) : T unit :=
  x ← get_cpu target;
  (if Z.of_nat (length (c_shootdown x)) =? TLBSHOOTDOWN_MAX
   then panic "ipi_tlbshootdown: Too many shootdowns queued"
   else upd_cpu target (λ x, with_ipi (c_ipi_pending x) (c_shootdown x ++ [mapping]) x)) ;;
  upd_cpu target (λ x, with_ipi (Z.lor (c_ipi_pending x) (Z.shiftl 1 IPI_TLBSHOOTDOWN)) (c_shootdown x) x).

(** vm.c. *)
Definition vm_tlbshootdown (mapping : Z) : T unit := panic "Someone tried to shutdown the TLB".
Fixpoint shootdown_loop (l : list Z) : T unit :=
  match l with [] => mret tt | m :: l' => vm_tlbshootdown m ;; shootdown_loop l' end.

(** [cpu_halt] is the activity [Halted]. *)
Definition interprocessor_interrupt (me : nat) : T unit :=
  acquire me None ;;
  x ← get_cpu me;
  let bits := c_ipi_pending x in
  if Z.testbit bits IPI_PANIC then release me (Some me) ;; set_act me Halted
  else if Z.testbit bits IPI_OFFLINE then
    release me (Some me) ;;
    rq_acquire me me ;;
    rq_release me me ;;
    set_act me Halted
  else
    (if Z.testbit bits IPI_TLBSHOOTDOWN then
       shootdown_loop (c_shootdown x) ;;
       upd_cpu me (λ x, with_ipi (c_ipi_pending x) [] x)
     else mret tt) ;;
    upd_cpu me (λ x, with_ipi 0 (c_shootdown x) x) ;;
    release me (Some me).

(** [thread_panic] and [thread_shutdown]. *)
Definition thread_panic (me : nat) : T unit :=
  ipi_broadcast me IPI_PANIC ;;
  upd_cpu me (with_runqueue []).
Definition thread_shutdown (me : nat) : T unit := ipi_broadcast me IPI_OFFLINE.

(** ** Making threads runnable *)

Definition thread_make_runnable (me : nat) (target : Z) (already_have_lock : bool) : T unit :=
  t ← get_thread target;
  let targetcpu := t_cpu t in
  (if already_have_lock then
     x ← get_cpu targetcpu;
     kassert (bool_decide (c_runqueue_lock x = Some me)) "spinlock_do_i_hold(&targetcpu->c_runqueue_lock)"
   else rq_acquire me targetcpu) ;;
  upd_thread target (with_state S_READY) ;;
  upd_cpu targetcpu (λ x, with_runqueue (c_runqueue x ++ [target]) x) ;;
  x ← get_cpu targetcpu;
  (if c_isidle x && negb (bool_decide (targetcpu = me)) then ipi_send targetcpu IPI_UNIDLE else mret tt) ;;
  if already_have_lock then mret tt else rq_release me targetcpu.

(** [proc_addthread] and [proc_remthread] as far as the thread is concerned. *)
Definition proc_addthread (proc t : Z) : T Z :=
  x ← get_thread t;
  kassert (t_proc x =? 0) "t->t_proc == NULL" ;;
  upd_thread t (with_proc proc) ;;
  mret 0.
Definition proc_remthread (t : Z) : T unit :=
  x ← get_thread t;
  kassert (negb (t_proc x =? 0)) "proc != NULL" ;;
  upd_thread t (with_proc 0).

(** [thread], [name] and [stack] are the blocks [kmalloc] gave; the new thread is
    then made runnable in the activity [Waking]. *)
Definition thread_fork (me : nat) (held : option Z) (thread name stack proc : Z) : T Z :=
  newthread ← thread_create thread name;
  if newthread =? 0 then mret ENOMEM
  else if stack =? 0 then thread_destroy me newthread ;; mret ENOMEM
  else
    upd_thread newthread (with_stack stack []) ;;
    thread_checkstack_init newthread ;;
    cur ← curthread me;
    c ← get_thread cur;
    upd_thread newthread (with_t_cpu (t_cpu c)) ;;
    result ← proc_addthread (if proc =? 0 then t_proc c else proc) newthread;
    if negb (result =? 0) then thread_destroy me newthread ;; mret result
    else
      upd_thread newthread (λ t, with_spl (t_curspl t) (t_iplhigh_count t + 1) t) ;;
      upd_thread newthread (with_context Fresh) ;;
      set_act me (Waking held [newthread]) ;;
      mret 0.

(** ** Context switches *)

(** What follows [switchframe_switch], in the thread that is now current: the end
    of [thread_switch], or the beginning of [thread_startup]. *)
Definition switch_in (me : nat) : T unit :=
  cur ← curthread me;
  t ← get_thread cur;
  let ctx := t_context t in
  upd_thread cur (λ t, with_context Running (with_state S_RUN (with_wchan_name None t))) ;;
  rq_release me me ;;
  exorcise me ;;
  match ctx with
  | InSwitch spl => splx me spl ;; mret tt
  | Fresh => spl0 me ;; mret tt
  | Running => panic "switch to a running thread"
  end.

(** One round of the loop that looks for the next thread; the run queue is locked. *)
Definition idle_round (me : nat) : T unit :=
  x ← get_cpu me;
  match c_runqueue x with
  | [] => rq_release me me           (* and cpu_idle *)
  | next :: rest =>
      upd_cpu me (with_runqueue rest) ;;
      upd_cpu me (with_idle false) ;;
      upd_cpu me (with_curthread next) ;;
      switch_in me
  end.

(** The idle CPU comes back from [cpu_idle]. *)
Definition idle_loop (me : nat) : T unit :=
  rq_acquire me me ;;
  idle_round me.

(** Where the thread goes. *)
Definition switch_place (me : nat) (cur : Z) (newstate : threadstate) (wc lk : Z) : T unit :=
  match newstate with
  | S_RUN => panic "Illegal S_RUN in thread_switch"
  | S_READY => thread_make_runnable me cur true
  | S_SLEEP =>
      w ← get_wchan wc;
      upd_thread cur (with_wchan_name (Some (wc_name w))) ;;
      set_wchan wc (mkWchan (wc_name w) (wc_threads w ++ [cur])) ;;
      lk_release me lk
  | S_ZOMBIE =>
      upd_thread cur (with_wchan_name (Some "ZOMBIE")) ;;
      upd_cpu me (λ x, with_zombies (c_zombies x ++ [cur]) x)
  end.

(** [thread_switch] up to the end of the first round of the idle loop. *)
Definition thread_switch (me : nat) (newstate : threadstate) (wc lk : Z) : T unit :=
  spl ← splhigh me;
  x ← get_cpu me;
  let cur := c_curthread x in
  if c_isidle x then splx me spl ;; mret tt
  else
    thread_checkstack cur ;;
    rq_acquire me me ;;
    if bool_decide (newstate = S_READY) && bool_decide (c_runqueue x = []) then
      rq_release me me ;;
      splx me spl ;;
      mret tt
    else
      switch_place me cur newstate wc lk ;;
      upd_thread cur (with_state newstate) ;;
      upd_cpu me (with_idle true) ;;
      upd_thread cur (with_context (InSwitch spl)) ;;
      idle_round me.

Definition thread_yield (me : nat) : T unit := thread_switch me S_READY 0 0.

(** [thread_exit]; the thread never comes back from the switch. *)
Definition thread_exit (me : nat) : T unit :=
  cur ← curthread me;
  proc_remthread cur ;;
  x ← get_thread cur;
  kassert (t_proc x =? 0) "cur->t_proc == NULL" ;;
  thread_checkstack cur ;;
  splhigh me ;;
  thread_switch me S_ZOMBIE 0 0.

(** ** Wait channels *)

(** [wc] is the block [kmalloc] gave. *)
Definition wchan_create (name : string) (wc : Z) : T Z :=
  if wc =? 0 then mret 0
  else set_wchan wc (mkWchan name []) ;; mret wc.

(** [threadlist_cleanup] asserts that nobody sleeps there. *)
Definition wchan_destroy (wc : Z) : T unit :=
  w ← get_wchan wc;
  kassert (bool_decide (wc_threads w = [])) "threadlist_isempty(tl)" ;;
  modify (λ s, with_wchans (delete wc (wchans s)) s).

(** [wchan_sleep] up to the switch; taking [lk] again is the first thing the thread
    does when it runs. *)
Definition wchan_sleep (me : nat) (wc lk : Z) : T unit :=
  cur ← curthread me;
  t ← get_thread cur;
  kassert (negb (t_in_interrupt t)) "!curthread->t_in_interrupt" ;;
  h ← lk_do_i_hold me lk;
  kassert h "spinlock_do_i_hold(lk)" ;;
  x ← get_cpu me;
  kassert (c_spinlocks x =? 1) "curcpu->c_spinlocks == 1" ;;
  set_act me (Base None) ;;
  thread_switch me S_SLEEP wc lk.

(** The thread taken from the channel is made runnable in the activity [Waking]. *)
Definition wchan_wakeone (me : nat) (wc lk : Z) : T unit :=
  h ← lk_do_i_hold me lk;
  kassert h "spinlock_do_i_hold(lk)" ;;
  w ← get_wchan wc;
  match wc_threads w with
  | [] => mret tt
  | target :: rest =>
      set_wchan wc (mkWchan (wc_name w) rest) ;;
      set_act me (Waking (Some lk) [target])
  end.

Definition wchan_wakeall (me : nat) (wc lk : Z) : T unit :=
  h ← lk_do_i_hold me lk;
  kassert h "spinlock_do_i_hold(lk)" ;;
  w ← get_wchan wc;
  set_wchan wc (mkWchan (wc_name w) []) ;;
  set_act me (Waking (Some lk) (wc_threads w)).

Definition wchan_isempty (me : nat) (wc lk : Z) : T bool :=
  h ← lk_do_i_hold me lk;
  kassert h "spinlock_do_i_hold(lk)" ;;
  w ← get_wchan wc;
  mret (bool_decide (wc_threads w = [])).

(** The next thread of a wake-up in progress. *)
Definition wake_step (me : nat) (held : option Z) (ts : list Z) : T unit :=
  match ts with
  | [] => set_act me (Base held)
  | target :: ts' =>
      set_act me (Waking held ts') ;;
      thread_make_runnable me target false
  end.

(** ** Migration *)

(** [to_send] times: the tail of the queue becomes the head of the victims. *)
Fixpoint grab (n : nat) (rq victims : list Z) : option (list Z * list Z) :=
  match n with
  | O => Some (rq, victims)
  | S n' =>
      match last rq with
      | Some t => grab n' (take (length rq - 1) rq) (t :: victims)
      | None => None                  (* threadlist_addhead of NULL *)
      end
  end.

(** The loop that fills the queue of CPU [c], which is locked; [to_send] bounds it. *)
Fixpoint send_loop (fuel : nat) (me c : nat) (to_send one_share : Z) (victims : list Z)
    : T (Z * list Z) :=
  match fuel with
  | O => nofuel
  | S fuel' =>
      x ← get_cpu c;
      if (Z.of_nat (length (c_runqueue x)) <? one_share) && (0 <? to_send) then
        match victims with
        | [] => panic "NULL thread"
        | t :: victims' =>
            cur ← curthread me;
            if t =? cur then send_loop fuel' me c (to_send - 1) one_share (victims' ++ [t])
            else
              upd_thread t (with_t_cpu c) ;;
              upd_cpu c (λ x, with_runqueue (c_runqueue x ++ [t]) x) ;;
              (if c_isidle x then ipi_send c IPI_UNIDLE else mret tt) ;;
              send_loop fuel' me c (to_send - 1) one_share victims'
        end
      else mret (to_send, victims)
  end.

Definition migrate_step (me : nat) (m : migration) : T unit :=
  n ← gets (λ s, length (cpus s));
  match m with
  | MCount i my_count total_count =>
      if Nat.ltb i n then
        rq_acquire me i ;;
        x ← get_cpu i;
        let k := Z.of_nat (length (c_runqueue x)) in
        set_act me (Migrating (MCount (S i) (if Nat.eqb i me then k else my_count)
                                 (u32 (total_count + k)))) ;;
        rq_release me i
      else
        let one_share := DIVROUNDUP total_count (Z.of_nat n) in
        if my_count <? one_share then set_act me Tick
        else set_act me (Migrating (MGrab my_count one_share))
  | MGrab my_count one_share =>
      let to_send := my_count - one_share in
      rq_acquire me me ;;
      x ← get_cpu me;
      match grab (Z.to_nat to_send) (c_runqueue x) [] with
      | None => panic "NULL thread"
      | Some (rq, victims) =>
          upd_cpu me (with_runqueue rq) ;;
          set_act me (Migrating (MSend 0 to_send one_share victims)) ;;
          rq_release me me
      end
  | MSend i to_send one_share victims =>
      if Nat.ltb i n && (0 <? to_send) then
        if Nat.eqb i me then set_act me (Migrating (MSend (S i) to_send one_share victims))
        else
          rq_acquire me i ;;
          '(to_send', victims') ← send_loop (S (Z.to_nat to_send)) me i to_send one_share victims;
          set_act me (Migrating (MSend (S i) to_send' one_share victims')) ;;
          rq_release me i
      else set_act me (Migrating (MBack victims))
  | MBack victims =>
      (if bool_decide (victims = []) then mret tt
       else
         rq_acquire me me ;;
         upd_cpu me (λ x, with_runqueue (c_runqueue x ++ victims) x) ;;
         rq_release me me) ;;
      set_act me Tick
  end.

(** ** The clock (clock.c) *)

Definition schedule : T unit := mret tt.

(** [hardclock] up to [thread_consider_migration], and from [schedule] on. *)
Definition hardclock (me : nat) : T unit :=
  upd_cpu me (λ x, with_hardclocks (u32 (c_hardclocks x + 1)) x) ;;
  x ← get_cpu me;
  if c_hardclocks x mod MIGRATE_HARDCLOCKS =? 0
  then set_act me (Migrating (MCount 0 0 0))
  else set_act me Tick.
Definition hardclock_end (me : nat) : T unit :=
  set_act me (Base None) ;;
  x ← get_cpu me;
  (if c_hardclocks x mod SCHEDULE_HARDCLOCKS =? 0 then schedule else mret tt) ;;
  thread_yield me.

(** ** Interrupts (the EX_IRQ part of [mips_trap]) *)

Definition trap_enter (me : nat) : T unit :=
  cur ← curthread me;
  t ← get_thread cur;
  if t_curspl t =? 0 then
    kassert (t_iplhigh_count t =? 0) "curthread->t_iplhigh_count == 0" ;;
    upd_thread cur (λ t, with_spl IPL_HIGH (t_iplhigh_count t + 1)
      (with_trap true (Some (mkTf (t_in_interrupt t) true)) t))
  else
    upd_thread cur (λ t, with_trap true (Some (mkTf (t_in_interrupt t) false)) t).

Definition trap_leave (me : nat) : T unit :=
  cur ← curthread me;
  t ← get_thread cur;
  tf ← deref (λ _, t_trap t) "not in an interrupt";
  (if doadjust tf then
     kassert (t_curspl t =? IPL_HIGH) "curthread->t_curspl == IPL_HIGH" ;;
     kassert (t_iplhigh_count t =? 1) "curthread->t_iplhigh_count == 1" ;;
     upd_thread cur (λ t, with_spl 0 (t_iplhigh_count t - 1) t)
   else mret tt) ;;
  upd_thread cur (with_trap (old_in tf) None).

(** ** Steps of a CPU

    What the code running on a CPU may do next, and when: the conditions are the
    contract of the operations (a spinlock is not held across a yield, a handler
    does not sleep, the lock of a wait channel is held to use it). *)

Inductive op :=
| OLock (lk : Z)
| OUnlock (lk : Z)
| OSplx (spl : Z)
| OFork (thread name stack proc : Z)
| OYield
| OSleep (wc lk : Z)
| OExit
| OWakeone (wc lk : Z)
| OWakeall (wc lk : Z)
| OCreate (name : string) (wc : Z)
| ODestroy (wc : Z)
| OTrap
| OIret
| OHardclock
| OIpi
| OContinue.

Definition run_op (me : nat) (o : op) : T unit :=
  a ← deref (λ s, acts s !! me) "bad cpu";
  match o with
  | OLock lk => lk_acquire me lk ;; set_act me (Base (Some lk))
  | OUnlock lk => lk_release me lk ;; set_act me (Base None)
  | OSplx spl => splx me spl ;; mret tt
  | OFork t n st p => thread_fork me None t n st p ;; mret tt
  | OYield => thread_yield me
  | OSleep wc lk => wchan_sleep me wc lk
  | OExit => thread_exit me
  | OWakeone wc lk => wchan_wakeone me wc lk
  | OWakeall wc lk => wchan_wakeall me wc lk
  | OCreate name wc => wchan_create name wc ;; mret tt
  | ODestroy wc => wchan_destroy wc
  | OTrap => trap_enter me
  | OIret => trap_leave me
  | OHardclock => hardclock me
  | OIpi => interprocessor_interrupt me
  | OContinue =>
      match a with
      | Base _ => idle_loop me
      | Waking h ts => wake_step me h ts
      | Migrating m => migrate_step me m
      | Tick => hardclock_end me
      | Halted => mret tt
      end
  end.

(** The CPU [me] with activity [a] and current thread [th] may perform the operation. *)
Definition enabled (s : sched) (x : cpu) (a : activity) (th : thread) (o : op) : Prop :=
  let thread_level := c_isidle x = false ∧ t_trap th = None in
  let active := c_isidle x = false ∨ t_trap th ≠ None in
  match o with
  | OLock lk => a = Base None ∧ active
  | OUnlock lk => a = Base (Some lk)
  | OSplx spl => a = Base None ∧ thread_level ∧ 0 <= spl <= 1
  | OFork t n st p => a = Base None ∧ thread_level ∧ threads s !! t = None
  | OYield => a = Base None ∧ c_isidle x = false
  | OSleep wc lk => a = Base (Some lk) ∧ thread_level ∧ is_Some (wchans s !! wc)
  | OExit => a = Base None ∧ thread_level
  | OWakeone wc lk | OWakeall wc lk => a = Base (Some lk) ∧ active ∧ is_Some (wchans s !! wc)
  | OCreate name wc => a = Base None ∧ thread_level ∧ wchans s !! wc = None
  | ODestroy wc => a = Base None ∧ thread_level ∧ ∃ name, wchans s !! wc = Some (mkWchan name [])
  | OTrap => a = Base None ∧ t_trap th = None ∧ (c_isidle x = true ∨ t_curspl th = 0)
  | OIret | OHardclock | OIpi => a = Base None ∧ t_trap th ≠ None
  | OContinue =>
      match a with
      | Base h => h = None ∧ c_isidle x = true ∧ t_trap th = None
      | _ => True
      end
  end.

Inductive step : sched → sched → Prop :=
| step_op s s' me x a th o :
    cpus s !! me = Some x → acts s !! me = Some a → threads s !! c_curthread x = Some th →
    enabled s x a th o → run_op me o s = Done tt s' → step s s'.

End Thread.
