(* ===== verification/ThreadInv.v ===== *)
(** * The invariant of the scheduler

    Every thread is in exactly one place: running on a CPU, on a run queue, asleep
    on a wait channel, a zombie of a CPU, or in the hands of a CPU that is making it
    runnable or migrating it.  [home] names the place.  A CPU's current thread
    belongs to that CPU even while the CPU is idle and the thread is elsewhere. *)

From stdpp Require Import base list gmap numbers strings.
From Stdlib Require Import ZArith Lia.
From S2P Require Import Prelude Thread.
Import Thread.

#[local] Open Scope Z_scope.

Module ThreadInv.

Inductive place := PRun (c : nat) | PReady (c : nat) | PSleep (w : Z) | PZombie (c : nat) | PHand (c : nat).

#[export] Instance place_eq_dec : EqDecision place.
Proof. solve_decision. Defined.

(** The threads a CPU has taken off a list and not yet put on another. *)
Definition hand (a : activity) : list Z :=
  match a with
  | Waking _ ts => ts
  | Migrating (MSend _ _ _ v) | Migrating (MBack v) => v
  | _ => []
  end.

(** The wait channel's lock a CPU holds. *)
Definition held (a : activity) : option Z :=
  match a with Base h | Waking h _ => h | _ => None end.

Definition pl (s : sched) (p : place) : list Z :=
  match p with
  | PRun c => match cpus s !! c with
              | Some x => if c_isidle x then [] else [c_curthread x]
              | None => []
              end
  | PReady c => from_option c_runqueue [] (cpus s !! c)
  | PZombie c => from_option c_zombies [] (cpus s !! c)
  | PSleep w => from_option wc_threads [] (wchans s !! w)
  | PHand c => from_option hand [] (acts s !! c)
  end.

(** [home] says where every thread is, and the lists agree. *)
Definition placed (home : gmap Z place) (L : place → list Z) : Prop :=
  ∀ p, NoDup (L p) ∧ ∀ t, t ∈ L p ↔ home !! t = Some p.

Definition guard_ok (th : thread) : Prop := t_stack th ≠ 0 → t_guard th = stack_guard.

Definition thr_ok (th : thread) (p : place) : Prop :=
  guard_ok th ∧
  match p with
  | PRun c => (t_state th = S_RUN ∨ t_state th = S_READY) ∧ t_cpu th = c ∧ t_proc th ≠ 0
  | PReady c => t_state th = S_READY ∧ t_cpu th = c ∧ t_proc th ≠ 0
  | PSleep _ => t_state th = S_SLEEP ∧ t_proc th ≠ 0
  | PZombie c => t_state th = S_ZOMBIE ∧ t_cpu th = c ∧ t_proc th = 0
  | PHand _ => (t_state th = S_SLEEP ∨ t_state th = S_READY) ∧ t_proc th ≠ 0
  end.

(** A thread that is no CPU's current thread. *)
Definition suspended (th : thread) : Prop :=
  t_curspl th = 1 ∧ t_iplhigh_count th = 2 ∧ t_in_interrupt th = bool_decide (t_trap th ≠ None) ∧
  match t_context th with
  | Running => False
  | Fresh => t_trap th = None
  | InSwitch spl => 0 <= spl <= 1 ∧ (t_trap th = None ∨ (t_trap th = Some (mkTf false true) ∧ spl = 1))
  end.

(** The parts of a migration in progress; [n] is the length of the own queue. *)
Definition mig_ok (n : Z) (m : migration) : Prop :=
  match m with
  | MCount _ my total => 0 <= my <= n ∧ 0 <= total
  | MGrab my share => 0 <= share <= my ∧ my <= n
  | MSend _ to_send share v => 0 <= to_send <= Z.of_nat (length v)
  | MBack _ => True
  end.

Definition act_ok (a : activity) (x : cpu) (th : thread) : Prop :=
  match a with
  | Migrating m => t_trap th ≠ None ∧ mig_ok (Z.of_nat (length (c_runqueue x))) m
  | Tick => t_trap th ≠ None
  | _ => True
  end.

(** A CPU [c] with activity [a] and current thread [th]; [m] when it is in the idle
    loop with its run queue locked. *)
Record cpu_ok (m : bool) (c : nat) (x : cpu) (a : activity) (th : thread) : Prop := {
  ck_cpu : t_cpu th = c;
  ck_lock : c_runqueue_lock x = if m then Some c else None;
  ck_mid : m = true → a = Base None ∧ c_isidle x = true ∧ suspended th ∧
    (t_trap th = None ∨ c_runqueue x ≠ []);
  ck_spin : c_spinlocks x = if m then 1 else match held a with Some _ => 1 | None => 0 end;
  ck_count : t_iplhigh_count th = t_curspl th + c_spinlocks x;
  ck_spl : if c_isidle x
           then t_curspl th = 1 ∧ ∃ spl, t_context th = InSwitch spl ∧ 0 <= spl <= 1
           else 0 <= t_curspl th <= 1 ∧ t_context th = Running;
  ck_int : t_in_interrupt th = bool_decide (t_trap th ≠ None);
  ck_trap : m = false → t_trap th ≠ None → t_curspl th = 1 ∧ t_trap th = Some (mkTf false (negb (c_isidle x)));
  ck_act : act_ok a x th
}.

Record inv (mid : option nat) (home : gmap Z place) (s : sched) : Prop := {
  i_dom : ∀ t, is_Some (home !! t) ↔ is_Some (threads s !! t);
  i_len : length (acts s) = length (cpus s);
  i_placed : placed home (pl s);
  i_cpu : ∀ c x, cpus s !! c = Some x → ∃ a th,
    acts s !! c = Some a ∧ threads s !! c_curthread x = Some th ∧ cpu_ok (bool_decide (mid = Some c)) c x a th;
  i_thr : ∀ t th p, threads s !! t = Some th → home !! t = Some p → thr_ok th p ∧ (t_cpu th < length (cpus s))%nat;
  i_susp : ∀ t th, threads s !! t = Some th →
    (∀ c x, cpus s !! c = Some x → c_curthread x ≠ t) → suspended th;
  i_mig : ∀ c m t th, acts s !! c = Some (Migrating m) → t ∈ hand (Migrating m) →
    threads s !! t = Some th → t_cpu th = c ∧ t_state th = S_READY;
  i_lock : ∀ lk c, locks s !! lk = Some c ↔ ∃ a, acts s !! c = Some a ∧ held a = Some lk
}.

(** ** Moving threads between places *)

Lemma placed_move home L L' t p q :
  placed home L → p ≠ q → L p ≡ₚ t :: L' p → L' q ≡ₚ t :: L q →
  (∀ r, r ≠ p → r ≠ q → L' r ≡ₚ L r) → placed (<[t := q]> home) L'.
Proof.
  intros Hp Hpq Hr Ha Ho. destruct (Hp p) as [Np Ep]. rewrite Hr in Np.
  apply NoDup_cons in Np as [Nt Np].
  assert (Ht : home !! t = Some p) by (apply Ep; rewrite Hr; set_solver).
  intros r. destruct (decide (r = p)) as [-> | Hrp]; [| destruct (decide (r = q)) as [-> | Hrq]].
  - split; [done |]. intros u. destruct (decide (u = t)) as [-> | Hu].
    + rewrite lookup_insert_eq. split; [done | intros [= ->]; done].
    + rewrite lookup_insert_ne, <- Ep, Hr by done. set_solver.
  - destruct (Hp q) as [Nq Eq]. rewrite Ha. split.
    + apply NoDup_cons. split; [| done]. rewrite Eq, Ht. by intros [= ->].
    + intros u. rewrite Ha. destruct (decide (u = t)) as [-> | Hu].
      * rewrite lookup_insert_eq. set_solver.
      * rewrite lookup_insert_ne, <- Eq by done. set_solver.
  - destruct (Hp r) as [Nr Er]. specialize (Ho r Hrp Hrq). rewrite Ho. split; [done |].
    intros u. rewrite Ho, Er. destruct (decide (u = t)) as [-> | Hu].
    + rewrite lookup_insert_eq, Ht. naive_solver.
    + by rewrite lookup_insert_ne.
Qed.

(** Several threads move from one place to another. *)
Lemma placed_move_list home home' L L' ts p q :
  placed home L → p ≠ q → L p ≡ₚ ts ++ L' p → L' q ≡ₚ ts ++ L q →
  (∀ r, r ≠ p → r ≠ q → L' r ≡ₚ L r) →
  (∀ u, home' !! u = if decide (u ∈ ts) then Some q else home !! u) → placed home' L'.
Proof.
  intros Hp Hpq Hr Ha Ho Hh. destruct (Hp p) as [Np Ep]. rewrite Hr in Np. apply NoDup_app in Np as (Nt & Nd & Np).
  assert (Ht : ∀ t, t ∈ ts → home !! t = Some p) by (intros t Hin; apply Ep; rewrite Hr; set_solver).
  intros r. destruct (decide (r = p)) as [-> | Hrp]; [| destruct (decide (r = q)) as [-> | Hrq]].
  - split; [done |]. intros u. rewrite Hh. destruct (decide (u ∈ ts)) as [Hu | Hu].
    + split; [intros ?; by destruct (Nd u) | congruence].
    + rewrite <- Ep, Hr. set_solver.
  - destruct (Hp q) as [Nq Eq]. rewrite Ha. split.
    + apply NoDup_app. split_and!; try done. intros u Hu. rewrite Eq, (Ht u Hu). congruence.
    + intros u. rewrite Ha, Hh. destruct (decide (u ∈ ts)); [set_solver |]. rewrite <- Eq. set_solver.
  - destruct (Hp r) as [Nr Er]. specialize (Ho r Hrp Hrq). rewrite Ho. split; [done |].
    intros u. rewrite Ho, Er, Hh. destruct (decide (u ∈ ts)) as [Hu | Hu]; [| done].
    rewrite (Ht u Hu). split; congruence.
Qed.

(** A new thread appears. *)
Lemma placed_new home L L' t q :
  placed home L → home !! t = None → L' q ≡ₚ t :: L q →
  (∀ r, r ≠ q → L' r ≡ₚ L r) → placed (<[t := q]> home) L'.
Proof.
  intros Hp Hn Ha Ho r. destruct (decide (r = q)) as [-> | Hrq].
  - destruct (Hp q) as [Nq Eq]. rewrite Ha. split.
    + apply NoDup_cons. split; [| done]. rewrite Eq. congruence.
    + intros u. rewrite Ha. destruct (decide (u = t)) as [-> | Hu].
      * rewrite lookup_insert_eq. set_solver.
      * rewrite lookup_insert_ne, <- Eq by done. set_solver.
  - destruct (Hp r) as [Nr Er]. specialize (Ho r Hrq). rewrite Ho. split; [done |].
    intros u. rewrite Ho, Er. destruct (decide (u = t)) as [-> | Hu].
    + rewrite lookup_insert_eq, Hn. naive_solver.
    + by rewrite lookup_insert_ne.
Qed.

(** A thread is destroyed. *)
Lemma placed_del home L L' t p :
  placed home L → L p ≡ₚ t :: L' p → (∀ r, r ≠ p → L' r ≡ₚ L r) → placed (delete t home) L'.
Proof.
  intros Hp Hr Ho. destruct (Hp p) as [Np Ep]. rewrite Hr in Np. apply NoDup_cons in Np as [Nt Np].
  assert (Ht : home !! t = Some p) by (apply Ep; rewrite Hr; set_solver).
  intros r. destruct (decide (r = p)) as [-> | Hrp].
  - split; [done |]. intros u. destruct (decide (u = t)) as [-> | Hu].
    + rewrite lookup_delete_eq. split; done.
    + rewrite lookup_delete_ne, <- Ep, Hr by done. set_solver.
  - destruct (Hp r) as [Nr Er]. specialize (Ho r Hrp). rewrite Ho. split; [done |].
    intros u. rewrite Ho, Er. destruct (decide (u = t)) as [-> | Hu].
    + rewrite lookup_delete_eq, Ht. naive_solver.
    + by rewrite lookup_delete_ne.
Qed.

(** All the threads of one place go to another, empty one. *)
Definition relabel (p q : place) (r : place) : place := if decide (r = p) then q else r.

Lemma placed_relabel home L L' p q :
  placed home L → p ≠ q → L q = [] → L' p = [] → L' q ≡ₚ L p →
  (∀ r, r ≠ p → r ≠ q → L' r ≡ₚ L r) → placed (relabel p q <$> home) L'.
Proof.
  intros Hp Hpq Hq Hp' Hq' Ho r. destruct (Hp p) as [Np Ep]. destruct (Hp q) as [_ Eq]. rewrite Hq in Eq.
  unfold relabel. destruct (decide (r = p)) as [-> | Hrp]; [| destruct (decide (r = q)) as [-> | Hrq]].
  - rewrite Hp'. split; [constructor |]. intros t. rewrite lookup_fmap. split; [by intros ?%elem_of_nil |].
    destruct (home !! t) as [u|]; [| done]. simpl. case_decide; intros [= E]; congruence.
  - rewrite Hq'. split; [done |]. intros t. rewrite Hq', Ep, lookup_fmap.
    destruct (home !! t) as [u|] eqn:E; [| done]. simpl. case_decide as Hu; [by subst |].
    split; [congruence |]. intros [= ->]. by apply Eq, elem_of_nil in E.
  - destruct (Hp r) as [Nr Er]. specialize (Ho r Hrp Hrq). rewrite Ho. split; [done |].
    intros t. rewrite Ho, Er, lookup_fmap. destruct (home !! t) as [u|]; [| done]. simpl.
    case_decide; split; congruence.
Qed.

(** All the threads of one place are destroyed. *)
Lemma placed_clear home L L' p :
  placed home L → L' p = [] → (∀ r, r ≠ p → L' r ≡ₚ L r) →
  placed (filter (λ kv, kv.2 ≠ p) home) L'.
Proof.
  intros Hp Hp' Ho r. destruct (decide (r = p)) as [-> | Hrp].
  - rewrite Hp'. split; [constructor |]. intros t. rewrite map_lookup_filter_Some. simpl.
    split; [by intros ?%elem_of_nil | by intros []].
  - destruct (Hp r) as [Nr Er]. rewrite (Ho r Hrp). split; [done |].
    intros t. rewrite (Ho r Hrp), Er, map_lookup_filter_Some. simpl. naive_solver.
Qed.

Lemma placed_ext home L L' : placed home L → (∀ r, L' r ≡ₚ L r) → placed home L'.
Proof.
  intros Hp Ho r. destruct (Hp r) as [Nr Er]. rewrite (Ho r). split; [done |].
  intros u. by rewrite (Ho r), Er.
Qed.

(** ** States after an update, and the primitives on them *)

Definition at_thread (t : Z) (f : thread → thread) (s : sched) : sched :=
  with_threads (alter f t (threads s)) s.
Definition at_cpu (c : nat) (f : cpu → cpu) (s : sched) : sched := with_cpus (alter f c (cpus s)) s.
Definition put_act (c : nat) (a : activity) (s : sched) : sched := with_acts (<[c := a]> (acts s)) s.
Definition put_wchan (w : Z) (x : wchan) (s : sched) : sched := with_wchans (<[w := x]> (wchans s)) s.

(** What taking a lock does to the CPU and its current thread. *)
Definition spl_up (t : thread) : thread := with_spl (t_curspl t) (t_iplhigh_count t + 1) t.
Definition spl_down (t : thread) : thread := with_spl (t_curspl t) (t_iplhigh_count t - 1) t.
Definition spin_up (x : cpu) : cpu := with_spinlocks (c_spinlocks x + 1) x.
Definition spin_down (x : cpu) : cpu := with_spinlocks (c_spinlocks x + -1) x.

Section prims.
Implicit Types s : sched.

Lemma get_thread_run s t x : threads s !! t = Some x → get_thread t s = Done x s.
Proof. unfold get_thread, deref. by intros ->. Qed.
Lemma upd_thread_run s t x f : threads s !! t = Some x → upd_thread t f s = Done tt (at_thread t f s).
Proof. intros E. unfold upd_thread, mbind, M_bind. by rewrite (get_thread_run s t x). Qed.
Lemma get_cpu_run s c x : cpus s !! c = Some x → get_cpu c s = Done x s.
Proof. unfold get_cpu, deref. by intros ->. Qed.
Lemma upd_cpu_run s c x f : cpus s !! c = Some x → upd_cpu c f s = Done tt (at_cpu c f s).
Proof. intros E. unfold upd_cpu, mbind, M_bind. by rewrite (get_cpu_run s c x). Qed.
Lemma curthread_run s c x : cpus s !! c = Some x → curthread c s = Done (c_curthread x) s.
Proof. intros E. unfold curthread, mbind, M_bind. by rewrite (get_cpu_run s c x). Qed.

Lemma cpus_at_thread s t f : cpus (at_thread t f s) = cpus s.
Proof. done. Qed.
Lemma threads_at_cpu s c f : threads (at_cpu c f s) = threads s.
Proof. done. Qed.
Lemma cpus_put_act s c a : cpus (put_act c a s) = cpus s.
Proof. done. Qed.
Lemma threads_put_act s c a : threads (put_act c a s) = threads s.
Proof. done. Qed.
Lemma cpus_put_wchan s w x : cpus (put_wchan w x s) = cpus s.
Proof. done. Qed.
Lemma threads_put_wchan s w x : threads (put_wchan w x s) = threads s.
Proof. done. Qed.

Lemma cpus_at_cpu s c d f :
  cpus (at_cpu c f s) !! d = if decide (c = d) then f <$> cpus s !! d else cpus s !! d.
Proof. simpl. case_decide; [subst; apply list_lookup_alter_eq | by apply list_lookup_alter_ne]. Qed.
Lemma threads_at_thread s t u f :
  threads (at_thread t f s) !! u = if decide (t = u) then f <$> threads s !! u else threads s !! u.
Proof. simpl. case_decide; [subst; apply lookup_alter_eq | by apply lookup_alter_ne]. Qed.

(** Updates of the same object can be joined, updates that commute exchanged. *)
Lemma at_cpu_cpu s c f g : at_cpu c f (at_cpu c g s) = at_cpu c (f ∘ g) s.
Proof. unfold at_cpu, with_cpus. simpl. by rewrite list_alter_alter_eq. Qed.
Lemma at_thread_thread s t f g : at_thread t f (at_thread t g s) = at_thread t (f ∘ g) s.
Proof. unfold at_thread, with_threads. simpl. by rewrite alter_alter_eq. Qed.
Lemma at_cpu_ext s c x f g : cpus s !! c = Some x → f x = g x → at_cpu c f s = at_cpu c g s.
Proof.
  intros E Hf. unfold at_cpu. f_equal. apply list_alter_ext; [| done]. intros y Hy. congruence.
Qed.
Lemma at_thread_ext s t x f g : threads s !! t = Some x → f x = g x → at_thread t f s = at_thread t g s.
Proof. intros E Hf. unfold at_thread. f_equal. apply alter_ext. intros y Hy. congruence. Qed.
Lemma at_cpu_id s c x f : cpus s !! c = Some x → f x = x → at_cpu c f s = s.
Proof.
  intros E Hf. rewrite (at_cpu_ext s c x f id) by done. unfold at_cpu.
  rewrite list_alter_id by done. by destruct s.
Qed.
Lemma at_thread_id s t x f : threads s !! t = Some x → f x = x → at_thread t f s = s.
Proof.
  intros E Hf. unfold at_thread. replace (alter f t (threads s)) with (threads s); [by destruct s |].
  apply map_eq. intros i. destruct (decide (i = t)) as [-> | Hi].
  - rewrite lookup_alter_eq, E. simpl. by rewrite Hf.
  - by rewrite lookup_alter_ne.
Qed.

Lemma splraise_run s me x th :
  cpus s !! me = Some x → threads s !! c_curthread x = Some th →
  splraise me s = Done tt (at_thread (c_curthread x) spl_up s).
Proof.
  intros E Et. unfold splraise, mbind, M_bind. rewrite (curthread_run s me x) by done.
  by rewrite (upd_thread_run s (c_curthread x) th).
Qed.
Lemma spllower_run s me x th :
  cpus s !! me = Some x → threads s !! c_curthread x = Some th →
  spllower me s = Done tt (at_thread (c_curthread x) spl_down s).
Proof.
  intros E Et. unfold spllower, mbind, M_bind. rewrite (curthread_run s me x) by done.
  by rewrite (upd_thread_run s (c_curthread x) th).
Qed.

(** [splx] in one step: the level is set and the count follows it. *)
Definition spl_set (spl : Z) (t : thread) : thread :=
  with_spl spl (t_iplhigh_count t + (spl - t_curspl t)) t.
Lemma splx_run s me x th spl :
  cpus s !! me = Some x → threads s !! c_curthread x = Some th →
  0 <= t_curspl th <= 1 → 0 <= spl <= 1 →
  splx me spl s = Done (t_curspl th) (at_thread (c_curthread x) (spl_set spl) s).
Proof.
  intros E Et Hc Hs. unfold splx, mbind, M_bind. rewrite (curthread_run s me x) by done.
  rewrite (get_thread_run s (c_curthread x) th) by done.
  destruct (Z.ltb_spec (t_curspl th) spl); [| destruct (Z.ltb_spec spl (t_curspl th))].
  - rewrite (splraise_run s me x th) by done.
    rewrite (upd_thread_run _ _ (spl_up th)) by (rewrite threads_at_thread, decide_True, Et; done).
    rewrite at_thread_thread. unfold mret, M_ret. f_equal.
    apply (at_thread_ext _ _ th); [done |]. unfold spl_set, compose, spl_up, with_spl. simpl.
    f_equal. lia.
  - rewrite (upd_thread_run _ _ th) by done.
    rewrite (spllower_run _ me x (with_spl spl (t_iplhigh_count th) th))
      by (done || (rewrite threads_at_thread, decide_True, Et; done)).
    rewrite at_thread_thread. unfold mret, M_ret. f_equal.
    apply (at_thread_ext _ _ th); [done |]. unfold spl_set, compose, spl_down, with_spl. simpl.
    f_equal. lia.
  - unfold mret, M_ret. assert (spl = t_curspl th) as -> by lia. f_equal. symmetry.
    apply (at_thread_id _ _ th); [done |]. unfold spl_set, with_spl. destruct th; simpl. f_equal. lia.
Qed.

Lemma acquire_run s me x th :
  cpus s !! me = Some x → threads s !! c_curthread x = Some th →
  acquire me None s = Done tt (at_cpu me spin_up (at_thread (c_curthread x) spl_up s)).
Proof.
  intros E Et. unfold acquire, mbind, M_bind. rewrite (splraise_run s me x th) by done.
  unfold count_lock. by rewrite (upd_cpu_run _ me x).
Qed.
Lemma release_run s me x th :
  cpus s !! me = Some x → threads s !! c_curthread x = Some th → 0 < c_spinlocks x →
  release me (Some me) s = Done tt (at_thread (c_curthread x) spl_down (at_cpu me spin_down s)).
Proof.
  intros E Et Hk. unfold release, mbind, M_bind. rewrite bool_decide_eq_true_2 by done.
  unfold kassert at 1. unfold mret, M_ret. rewrite (get_cpu_run s me x) by done.
  unfold kassert. destruct (Z.ltb_spec 0 (c_spinlocks x)); [| lia]. unfold mret, M_ret.
  unfold count_lock. rewrite (upd_cpu_run s me x) by done.
  rewrite (spllower_run _ me (spin_down x) th); [done | | done].
  rewrite cpus_at_cpu, decide_True, E by done. done.
Qed.

Lemma rq_acquire_run s me c x y th :
  cpus s !! me = Some x → cpus s !! c = Some y → c_runqueue_lock y = None →
  threads s !! c_curthread x = Some th →
  rq_acquire me c s =
  Done tt (at_cpu c (with_rqlock (Some me)) (at_cpu me spin_up (at_thread (c_curthread x) spl_up s))).
Proof.
  intros E Ey Hl Et. unfold rq_acquire, mbind, M_bind. rewrite (get_cpu_run s c y), Hl by done.
  rewrite (acquire_run s me x th) by done.
  rewrite (upd_cpu_run _ c (if decide (me = c) then spin_up y else y)); [done |].
  rewrite cpus_at_cpu. simpl. rewrite Ey. by case_decide.
Qed.
Lemma rq_release_run s me c x y th :
  cpus s !! me = Some x → cpus s !! c = Some y → c_runqueue_lock y = Some me → 0 < c_spinlocks x →
  threads s !! c_curthread x = Some th →
  rq_release me c s =
  Done tt (at_cpu c (with_rqlock None) (at_thread (c_curthread x) spl_down (at_cpu me spin_down s))).
Proof.
  intros E Ey Hl Hk Et. unfold rq_release, mbind, M_bind. rewrite (get_cpu_run s c y), Hl by done.
  rewrite (release_run s me x th) by done.
  rewrite (upd_cpu_run _ c (if decide (me = c) then spin_down y else y)); [done |].
  rewrite cpus_at_thread, cpus_at_cpu, Ey. by case_decide.
Qed.
End prims.

Create Rewrite HintDb sched.
#[export] Hint Rewrite cpus_at_thread threads_at_cpu cpus_put_act threads_put_act cpus_put_wchan
  threads_put_wchan cpus_at_cpu threads_at_thread : sched.
(** ** A step of one CPU *)

(** What the other CPUs and the threads keep. *)
Definition same_thr (th th' : thread) : Prop :=
  t_cpu th' = t_cpu th ∧ t_curspl th' = t_curspl th ∧ t_iplhigh_count th' = t_iplhigh_count th ∧
  t_context th' = t_context th ∧ t_in_interrupt th' = t_in_interrupt th ∧ t_trap th' = t_trap th.
Definition le_cpu (x x' : cpu) : Prop :=
  c_curthread x' = c_curthread x ∧ c_spinlocks x' = c_spinlocks x ∧ c_isidle x' = c_isidle x ∧
  c_runqueue_lock x' = c_runqueue_lock x ∧ (length (c_runqueue x) <= length (c_runqueue x'))%nat.

Lemma same_thr_refl th : same_thr th th.
Proof. done. Qed.
Lemma le_cpu_refl x : le_cpu x x.
Proof. by split_and!. Qed.
#[local] Hint Resolve same_thr_refl le_cpu_refl : core.

Lemma suspended_same th th' : suspended th → same_thr th th' → suspended th'.
Proof.
  intros (H1 & H2 & H3 & H4) (F1 & F2 & F3 & F4 & F5 & F6). unfold suspended.
  by rewrite F2, F3, F4, F5, F6.
Qed.

Lemma cpu_ok_mono m c x x' a th th' :
  cpu_ok m c x a th → le_cpu x x' → same_thr th th' → cpu_ok m c x' a th'.
Proof.
  intros [H1 H2 H3 H4 H5 H6 H7 H8 H9] (E1 & E2 & E3 & E4 & E5) (F1 & F2 & F3 & F4 & F5 & F6).
  assert (H3' : m = true → a = Base None ∧ c_isidle x = true ∧ suspended th' ∧
    (t_trap th = None ∨ c_runqueue x' ≠ [])).
  { intros Em. destruct (H3 Em) as (-> & Hi & Hs & Hr). split_and!; try done; [by eapply suspended_same |].
    destruct Hr as [Hr | Hr]; [by left | right]. destruct (c_runqueue x), (c_runqueue x'); simpl in *; done || lia. }
  split; rewrite ?E1, ?E2, ?E3, ?E4, ?F1, ?F2, ?F3, ?F4, ?F5, ?F6; try done.
  unfold act_ok in *. destruct a as [| | mg | |]; rewrite ?F6; try done. destruct H9 as [H9 M].
  split; [done |]. destruct mg; simpl in *; lia.
Qed.

(** The current thread of a CPU is not that of another. *)
Lemma cur_inj mid home s c d x y :
  inv mid home s → cpus s !! c = Some x → cpus s !! d = Some y → c_curthread x = c_curthread y → c = d.
Proof.
  intros I Ex Ey E. destruct (i_cpu _ _ _ I c x Ex) as (a & th & _ & Et & K).
  destruct (i_cpu _ _ _ I d y Ey) as (a' & th' & _ & Et' & K'). rewrite E, Et' in Et.
  injection Et as ->. by rewrite <- (ck_cpu _ _ _ _ _ K), <- (ck_cpu _ _ _ _ _ K').
Qed.

Lemma inv_step mid mid' home home' s s' me x x' a' th' :
  inv mid home s →
  (mid = None ∨ mid = Some me) → (mid' = None ∨ mid' = Some me) →
  cpus s !! me = Some x → cpus s' !! me = Some x' → acts s' !! me = Some a' →
  threads s' !! c_curthread x' = Some th' → cpu_ok (bool_decide (mid' = Some me)) me x' a' th' →
  (∀ c, c ≠ me → acts s' !! c = acts s !! c) →
  length (acts s') = length (acts s) → length (cpus s') = length (cpus s) →
  (∀ c y', c ≠ me → cpus s' !! c = Some y' → ∃ y, cpus s !! c = Some y ∧ le_cpu y y') →
  (∀ t, is_Some (home' !! t) ↔ is_Some (threads s' !! t)) →
  placed home' (pl s') →
  (∀ t th p, threads s' !! t = Some th → home' !! t = Some p →
     thr_ok th p ∧ (t_cpu th < length (cpus s))%nat) →
  (∀ t th1, t ≠ c_curthread x' → threads s' !! t = Some th1 →
     t = c_curthread x ∨ (∃ th0, threads s !! t = Some th0 ∧ same_thr th0 th1) ∨ suspended th1) →
  (∀ c y th0, c ≠ me → cpus s !! c = Some y → threads s !! c_curthread y = Some th0 →
     ∃ th1, threads s' !! c_curthread y = Some th1 ∧ same_thr th0 th1) →
  (c_curthread x' ≠ c_curthread x → ∀ th1, threads s' !! c_curthread x = Some th1 → suspended th1) →
  (∀ m t th, a' = Migrating m → t ∈ hand a' → threads s' !! t = Some th → t_cpu th = me ∧ t_state th = S_READY) →
  (∀ c t th1, c ≠ me → home !! t = Some (PHand c) → threads s' !! t = Some th1 →
     ∃ th0, threads s !! t = Some th0 ∧ t_cpu th1 = t_cpu th0 ∧ t_state th1 = t_state th0) →
  (∀ lk c, locks s' !! lk = Some c ↔ ∃ a, acts s' !! c = Some a ∧ held a = Some lk) →
  inv mid' home' s'.
Proof.
  intros I Hm Hm' Ex Ex' Ea' Et' K Hacts Hl Hl' Hcpu Hdom Hpl Hthr Hsame Hcur Hold Hmig Hhand Hlock.
  split; try done.
  - rewrite Hl, Hl'. apply (i_len _ _ _ I).
  - intros c y' Ey'. destruct (decide (c = me)) as [-> | Hc].
    + rewrite Ex' in Ey'. injection Ey' as <-. by exists a', th'.
    + destruct (Hcpu c y' Hc Ey') as (y & Ey & Le).
      destruct (i_cpu _ _ _ I c y Ey) as (a & th & Ea & Eth & Kc).
      destruct (Hcur c y th Hc Ey Eth) as (th1 & Eth1 & Sm).
      exists a, th1. split; [by rewrite Hacts |]. split; [by rewrite (proj1 Le) |].
      replace (bool_decide (mid' = Some c)) with (bool_decide (mid = Some c)).
      { by eapply cpu_ok_mono. }
      destruct Hm as [-> | ->], Hm' as [-> | ->]; rewrite !bool_decide_eq_false_2 by congruence; done.
  - intros t th p E Hp. rewrite Hl'. by eapply Hthr.
  - intros t th E Hno. destruct (decide (t = c_curthread x)) as [-> | Ht].
    { eapply Hold; [| done]. eapply Hno, Ex'. }
    destruct (Hsame t th (not_eq_sym (Hno me x' Ex')) E) as [? | [(th0 & E0 & Sm) | ?]]; [done | | done].
    eapply suspended_same; [| done]. eapply (i_susp _ _ _ I); [done |]. intros c y Ey.
    destruct (decide (c = me)) as [-> | Hc]; [congruence |].
    destruct (lookup_lt_is_Some_2 (cpus s') c) as (y' & Ey').
    { rewrite Hl'. by eapply lookup_lt_Some. }
    destruct (Hcpu c y' Hc Ey') as (y0 & Ey0 & Le). rewrite Ey in Ey0. injection Ey0 as <-.
    rewrite <- (proj1 Le). by eapply Hno.
  - intros c m t th Ea Ht E. destruct (decide (c = me)) as [-> | Hc].
    + rewrite Ea' in Ea. injection Ea as ->. by eapply Hmig.
    + rewrite Hacts in Ea by done. destruct (Hhand c t th Hc) as (th0 & E0 & -> & ->); [| done |].
      { apply (i_placed _ _ _ I (PHand c)). simpl. by rewrite Ea. }
      by eapply (i_mig _ _ _ I).
Qed.
End ThreadInv.
