(* ===== verification/ThreadOps.v ===== *)
(** * The operations of thread.c preserve the scheduler's invariant *)

From stdpp Require Import base list gmap numbers strings.
From Stdlib Require Import ZArith Lia.
From S2P Require Import Prelude Thread ThreadInv.
Import Thread ThreadInv.

#[local] Open Scope Z_scope.

Module ThreadOps.

(** ** States by their fields *)

Lemma sched_ext s s' :
  (∀ t, threads s' !! t = threads s !! t) → (∀ c, cpus s' !! c = cpus s !! c) →
  wchans s' = wchans s → locks s' = locks s → acts s' = acts s → s' = s.
Proof.
  destruct s, s'. simpl. intros Ht Hc -> -> ->. f_equal; [by apply map_eq | by apply list_eq].
Qed.

(** Evaluate lookups in an updated state. *)
Ltac lk := autorewrite with sched; repeat case_decide; try congruence.

(** Equality of two records field by field. *)
Ltac rec_eq :=
  repeat match goal with
  | |- context [?f <$> ?o] => destruct o eqn:?; simpl; [| done]
  end; f_equal;
  repeat match goal with x : thread |- _ => destruct x | x : cpu |- _ => destruct x end;
  unfold compose, spl_up, spl_down, spin_up, spin_down, spl_set, with_wchan_name, with_state, with_stack,
    with_context, with_t_cpu, with_proc, with_spl, with_trap, with_curthread, with_zombies, with_hardclocks,
    with_spinlocks, with_idle, with_runqueue, with_rqlock, with_ipi; simpl; try done; try (f_equal; lia).

(** Name the state an invariant is claimed of. *)
Ltac name_state S := match goal with |- inv _ _ ?X => set (S := X) end.

Definition push (t : Z) (ipi : bool) (y : cpu) : cpu :=
  with_ipi (if ipi then Z.lor (c_ipi_pending y) (Z.shiftl 1 IPI_UNIDLE) else c_ipi_pending y)
    (c_shootdown y) (with_runqueue (c_runqueue y ++ [t]) y).

Section ops.
Implicit Types s : sched.

Lemma make_runnable_run s me x th target tg y :
  cpus s !! me = Some x → threads s !! c_curthread x = Some th → 0 <= c_spinlocks x →
  threads s !! target = Some tg → cpus s !! t_cpu tg = Some y → c_runqueue_lock y = None →
  thread_make_runnable me target false s =
  Done tt (at_cpu (t_cpu tg) (push target (c_isidle y && negb (bool_decide (t_cpu tg = me))))
    (at_thread target (with_state S_READY) s)).
Proof.
  intros Ex Et Hk Eg Ey Hl. unfold thread_make_runnable, mbind, M_bind.
  rewrite (get_thread_run s target tg) by done. rewrite (rq_acquire_run s me (t_cpu tg) x y th) by done.
  set (s1 := at_cpu _ _ _).
  assert (∃ g, threads s1 !! target = Some g) as (g & Eg1).
  { unfold s1. autorewrite with sched. rewrite Eg. case_decide; by eexists. }
  rewrite (upd_thread_run s1 target g) by done. set (s2 := at_thread target _ s1).
  assert (∃ y2, cpus s2 !! t_cpu tg = Some y2 ∧ c_runqueue_lock y2 = Some me ∧ c_isidle y2 = c_isidle y ∧
    (t_cpu tg = me → c_spinlocks y2 = c_spinlocks x + 1 ∧ c_curthread y2 = c_curthread x))
    as (y2 & Ey2 & Hl2 & Hi2 & Hme2).
  { unfold s2, s1. autorewrite with sched. rewrite decide_True, Ey by done.
    destruct (decide (me = t_cpu tg)) as [E | E]; eexists; split_and!; try reflexivity; intros; simpl.
    - rewrite <- E, Ex in Ey. by injection Ey as <-.
    - done. }
  rewrite (upd_cpu_run s2 _ _ _ Ey2). set (s3 := at_cpu _ _ s2).
  assert (Ey3 : cpus s3 !! t_cpu tg = Some (with_runqueue (c_runqueue y2 ++ [target]) y2)).
  { unfold s3. by rewrite cpus_at_cpu, decide_True, Ey2. }
  rewrite (get_cpu_run s3 _ _ Ey3).
  change (c_isidle (with_runqueue (c_runqueue y2 ++ [target]) y2)) with (c_isidle y2). rewrite Hi2.
  set (b := c_isidle y && negb (bool_decide (t_cpu tg = me))).
  set (ipi := λ z, with_ipi (if b then Z.lor (c_ipi_pending z) (Z.shiftl 1 IPI_UNIDLE) else c_ipi_pending z)
    (c_shootdown z) z).
  assert (Hs4 : (if b then ipi_send (t_cpu tg) IPI_UNIDLE else mret tt) s3 = Done tt (at_cpu (t_cpu tg) ipi s3)).
  { unfold ipi. destruct b.
    - unfold ipi_send, kassert, mbind, M_bind. simpl. by rewrite (upd_cpu_run s3 _ _ _ Ey3).
    - unfold mret, M_ret. f_equal. symmetry. apply (at_cpu_id _ _ _ _ Ey3). done. }
  rewrite Hs4. set (s4 := at_cpu _ ipi s3).
  assert (∃ x4, cpus s4 !! me = Some x4 ∧ c_curthread x4 = c_curthread x ∧ 0 < c_spinlocks x4)
    as (x4 & Ex4 & Ec & Hk4).
  { unfold s4. rewrite cpus_at_cpu. destruct (decide (t_cpu tg = me)) as [E | E].
    - destruct (Hme2 E). pose proof Ey3 as Ex3. rewrite E in Ex3. rewrite Ex3. eexists. split; [done |]. simpl. split; [done | lia].
    - unfold s3, s2, s1. autorewrite with sched. rewrite !decide_False, decide_True, Ex by done.
      eexists. split; [done |]. simpl. split; [done | lia]. }
  assert (∃ u, threads s4 !! c_curthread x = Some u) as (u & Et4).
  { unfold s4, s3, s2, s1. autorewrite with sched. rewrite Et. repeat case_decide; by eexists. }
  rewrite (rq_release_run s4 me (t_cpu tg) x4 (ipi (with_runqueue (c_runqueue y2 ++ [target]) y2)) u); try done.
  2: unfold s4; by rewrite cpus_at_cpu, decide_True, Ey3.
  2: by rewrite Ec.
  rewrite Ec. f_equal. apply sched_ext; try done.
  - intros t. unfold s4, s3, s2, s1. lk; rec_eq.
  - intros c. unfold s4, s3, s2, s1. unfold push, ipi. autorewrite with sched.
    destruct (decide (t_cpu tg = c)) as [<- | Hc].
    + rewrite Ey. destruct (decide (me = t_cpu tg)); simpl; f_equal; destruct y; simpl in Hl; subst; rec_eq.
    + destruct (decide (me = c)); rec_eq.
Qed.
(** *** Facts from the invariant *)

Lemma acts_put_act s c a b d :
  acts s !! c = Some b → acts (put_act c a s) !! d = if decide (c = d) then Some a else acts s !! d.
Proof.
  intros E. simpl. case_decide as H; [subst d | by apply list_lookup_insert_ne].
  apply list_lookup_insert_eq. by eapply lookup_lt_Some.
Qed.
Lemma length_put_act s c a : length (acts (put_act c a s)) = length (acts s).
Proof. apply length_insert. Qed.
Lemma length_at_cpu s c f : length (cpus (at_cpu c f s)) = length (cpus s).
Proof. apply length_alter. Qed.

Lemma inv_act mid home s c a :
  inv mid home s → acts s !! c = Some a → ∃ x th,
    cpus s !! c = Some x ∧ threads s !! c_curthread x = Some th ∧ cpu_ok (bool_decide (mid = Some c)) c x a th.
Proof.
  intros I E. destruct (lookup_lt_is_Some_2 (cpus s) c) as (x & Ex).
  { rewrite <- (i_len _ _ _ I). by eapply lookup_lt_Some. }
  destruct (i_cpu _ _ _ I c x Ex) as (a' & th & Ea & Et & K). rewrite E in Ea. injection Ea as <-.
  by exists x, th.
Qed.

Lemma inv_home mid home s t p :
  inv mid home s → home !! t = Some p → ∃ th,
    threads s !! t = Some th ∧ thr_ok th p ∧ (t_cpu th < length (cpus s))%nat.
Proof.
  intros I E. destruct (proj1 (i_dom _ _ _ I t)) as (th & Et); [by eexists |].
  exists th. split; [done |]. by eapply (i_thr _ _ _ I).
Qed.

Lemma in_hand mid home s c a t :
  inv mid home s → acts s !! c = Some a → t ∈ hand a → home !! t = Some (PHand c).
Proof. intros I E Ht. apply (i_placed _ _ _ I (PHand c)). simpl. by rewrite E. Qed.

(** The lock of an ordinary CPU's run queue is free. *)
Lemma inv_rqlock home s c x : inv None home s → cpus s !! c = Some x → c_runqueue_lock x = None.
Proof. intros I E. destruct (i_cpu _ _ _ I c x E) as (a & th & _ & _ & K). apply (ck_lock _ _ _ _ _ K). Qed.

Lemma spinlocks_nonneg m c x a th : cpu_ok m c x a th → 0 <= c_spinlocks x.
Proof. intros K. rewrite (ck_spin _ _ _ _ _ K). destruct m; [lia |]. destruct (held a); lia. Qed.

(** A thread of a run queue, or about to be put on it. *)
Lemma push_le t b y : le_cpu y (push t b y).
Proof. unfold push, le_cpu. simpl. rewrite length_app. simpl. split_and!; try done. lia. Qed.

Lemma wake_step_ok home s me h t ts :
  inv None home s → acts s !! me = Some (Waking h (t :: ts)) →
  ∃ s' home', wake_step me h (t :: ts) s = Done tt s' ∧ inv None home' s'.
Proof.
  intros I Ea. destruct (inv_act _ _ _ _ _ I Ea) as (x & th & Ex & Et & K).
  pose proof (in_hand _ _ _ _ _ t I Ea ltac:(simpl; set_solver)) as Hh.
  destruct (inv_home _ _ _ _ _ I Hh) as (tg & Eg & Ok & Hc).
  destruct (lookup_lt_is_Some_2 (cpus s) _ Hc) as (y & Ey). set (tc := t_cpu tg) in *.
  unfold wake_step, mbind, M_bind, set_act, modify. fold (put_act me (Waking h ts) s).
  set (s0 := put_act me _ s).
  rewrite (make_runnable_run s0 me x th t tg y); try done.
  2: by eapply spinlocks_nonneg.
  2: by eapply inv_rqlock.
  set (b := c_isidle y && _). eexists _, (<[t := PReady tc]> home). split; [done |].
  set (s' := at_cpu _ _ _).
  assert (Et' : ∀ u, threads s' !! u = if decide (t = u) then with_state S_READY <$> threads s !! u else threads s !! u).
  { intros u. unfold s', s0. by autorewrite with sched. }
  assert (Ec' : ∀ c, cpus s' !! c = if decide (tc = c) then push t b <$> cpus s !! c else cpus s !! c).
  { intros c. unfold s', s0. by autorewrite with sched. }
  assert (Ea' : ∀ c, acts s' !! c = if decide (me = c) then Some (Waking h ts) else acts s !! c).
  { intros c. apply (acts_put_act s me _ _ c Ea). }
  assert (Hpl : placed (<[t := PReady tc]> home) (pl s')).
  { apply (placed_move home (pl s) _ t (PHand me)); [apply (i_placed _ _ _ I) | done | | |].
    - simpl. by rewrite Ea, Ea', decide_True.
    - simpl. rewrite Ec', decide_True, Ey by done. simpl. by rewrite <- Permutation_cons_append.
    - intros r H1 H2. destruct r as [c | c | w | c | c]; simpl; rewrite ?Ec', ?Ea'; try done.
      + destruct (decide (tc = c)); [by destruct (cpus s !! c) | done].
      + rewrite decide_False by congruence. done.
      + destruct (decide (tc = c)); [by destruct (cpus s !! c) | done].
      + rewrite decide_False by congruence. done. }
  assert (Hcur : ∀ u th0, threads s !! u = Some th0 → ∃ th1, threads s' !! u = Some th1 ∧ same_thr th0 th1).
  { intros u th0 E0. rewrite Et', E0. destruct (decide (t = u)); eexists; split; done. }
  destruct (Hcur _ _ Et) as (th' & Et1 & Sm).
  assert (∃ x', cpus s' !! me = Some x' ∧ le_cpu x x') as (x' & Ex' & Le).
  { rewrite Ec', Ex. destruct (decide (tc = me)); eexists; (split; [done |]); [apply push_le | done]. }
  eapply (inv_step None None home _ s s' me x x'); try done; try (by left).
  - by rewrite Ea', decide_True.
  - by rewrite (proj1 Le).
  - eapply cpu_ok_mono; [| done..]. destruct K as [H1 H2 H3 H4 H5 H6 H7 H8 H9]. by split.
  - intros c Hne. by rewrite Ea', decide_False.
  - apply length_put_act.
  - unfold s'. by rewrite length_at_cpu.
  - intros c y' _. rewrite Ec'. destruct (decide (tc = c)); [| by exists y'].
    destruct (cpus s !! c) as [y0|]; [| done]. simpl. intros [= <-]. exists y0. split; [done | apply push_le].
  - intros u. rewrite Et'. destruct (decide (t = u)) as [<- | Hu].
    + rewrite lookup_insert_eq, Eg. split; intros; by eexists.
    + rewrite lookup_insert_ne by done. apply (i_dom _ _ _ I).
  - intros u th1 p. rewrite Et'. destruct (decide (t = u)) as [<- | Hu].
    + rewrite lookup_insert_eq, Eg. simpl. intros [= <-] [= <-]. split; [| done].
      destruct Ok as (G & _ & P). by split.
    + rewrite lookup_insert_ne by done. apply (i_thr _ _ _ I).
  - intros u th1 _. rewrite Et'. destruct (decide (t = u)); [subst u; rewrite Eg | ]; intros E1; right; left.
    + simpl in E1. injection E1 as <-. by exists tg.
    + by exists th1.
  - intros c y0 th0 _ _ E0. by apply Hcur.
  - intros Hn. by rewrite (proj1 Le) in Hn.
  - intros m u th1 [=].
  - intros c t' th1 Hne Hhome. rewrite Et'. destruct (decide (t = t')); [congruence |]. intros E. by exists th1.
  - intros lk c. change (locks s') with (locks s). rewrite (i_lock _ _ _ I), Ea'.
    destruct (decide (me = c)) as [<- | E]; [| done]. rewrite Ea. split; intros (a & [= <-] & Ha); by eexists.
Qed.
(** *** Steps that move no thread: the CPU's own counters, the interrupt state of
    its current thread, its activity *)

Lemma local_step mid mid' home s s' me x th x' th' a a' :
  inv mid home s → (mid = None ∨ mid = Some me) → (mid' = None ∨ mid' = Some me) → cpus s !! me = Some x → threads s !! c_curthread x = Some th → acts s !! me = Some a →
  (∀ c, cpus s' !! c = if decide (me = c) then Some x' else cpus s !! c) →
  (∀ u, threads s' !! u = if decide (c_curthread x = u) then Some th' else threads s !! u) →
  (∀ c, acts s' !! c = if decide (me = c) then Some a' else acts s !! c) →
  length (cpus s') = length (cpus s) → length (acts s') = length (acts s) → wchans s' = wchans s →
  c_curthread x' = c_curthread x → c_isidle x' = c_isidle x → c_runqueue x' = c_runqueue x →
  c_zombies x' = c_zombies x → hand a' = hand a → (∀ m, a' = Migrating m → hand a' = []) →
  t_state th' = t_state th → t_cpu th' = t_cpu th → t_proc th' = t_proc th →
  t_stack th' = t_stack th → t_guard th' = t_guard th →
  cpu_ok (bool_decide (mid' = Some me)) me x' a' th' →
  (∀ lk c, locks s' !! lk = Some c ↔ ∃ a, acts s' !! c = Some a ∧ held a = Some lk) →
  inv mid' home s'.
Proof.
  intros I Hmid Hmid' Ex Et Ea Ec' Et' Ea' Hlc Hla Ew Hc Hi Hr Hz Hh Hm F1 F2 F3 F4 F5 K Hlk.
  assert (Ex' : cpus s' !! me = Some x') by (by rewrite Ec', decide_True).
  eapply (inv_step mid mid' home home s s' me x x' a' th'); try done.
  - by rewrite Ea', decide_True.
  - by rewrite Hc, Et', decide_True.
  - intros c Hne. by rewrite Ea', decide_False.
  - intros c y' Hne. rewrite Ec', decide_False by done. intros E. by exists y'.
  - intros t. rewrite Et'. destruct (decide (c_curthread x = t)) as [<- | Hu]; [| apply (i_dom _ _ _ I)].
    rewrite (i_dom _ _ _ I), Et. split; by eexists.
  - eapply placed_ext; [apply (i_placed _ _ _ I) |].
    intros r. destruct r as [c | c | w | c | c]; simpl; rewrite ?Ec', ?Ea', ?Ew; try done;
      destruct (decide (me = c)) as [<- | ?]; try done; rewrite ?Ex, ?Ea; simpl; by rewrite ?Hi, ?Hc, ?Hr, ?Hz, ?Hh.
  - intros t th1 p. rewrite Et'. destruct (decide (c_curthread x = t)) as [<- | Hu]; [| apply (i_thr _ _ _ I)].
    intros [= <-] Hp. destruct (i_thr _ _ _ I _ _ _ Et Hp) as [Ok Hlt]. rewrite F2. split; [| done].
    unfold thr_ok, guard_ok in *. by rewrite F1, F2, F3, F4, F5.
  - intros t th1 _. rewrite Et'. destruct (decide (c_curthread x = t)); [by left |]. intros E. right. left. by exists th1.
  - intros c y th0 Hne Ey E0. exists th0. split; [| done]. rewrite Et', decide_False; [done |].
    intros E. by apply Hne, (cur_inj _ _ _ c me y x I).
  - intros m t th1 Em Hin. rewrite (Hm m Em) in Hin. by apply not_elem_of_nil in Hin.
  - intros c t th1 Hne Hp. rewrite Et'. destruct (decide (c_curthread x = t)) as [<- |].
    + intros [= <-]. by exists th.
    + intros E. by exists th1.
Qed.
(** A field function applied to a known object. *)
Lemma at_cpu_lookup s me x f c :
  cpus s !! me = Some x → cpus (at_cpu me f s) !! c = if decide (me = c) then Some (f x) else cpus s !! c.
Proof. intros E. rewrite cpus_at_cpu. destruct (decide (me = c)) as [<- |]; [by rewrite E | done]. Qed.
Lemma at_thread_lookup s t th f u :
  threads s !! t = Some th →
  threads (at_thread t f s) !! u = if decide (t = u) then Some (f th) else threads s !! u.
Proof. intros E. rewrite threads_at_thread. destruct (decide (t = u)) as [<- |]; [by rewrite E | done]. Qed.

Lemma lock_ok home s me x th lk :
  inv None home s → cpus s !! me = Some x → acts s !! me = Some (Base None) →
  threads s !! c_curthread x = Some th →
  (∃ s', run_op me (OLock lk) s = Done tt s' ∧ inv None home s') ∨
  (run_op me (OLock lk) s = NoFuel ∧ ∃ c, c ≠ me ∧ locks s !! lk = Some c).
Proof.
  intros I Ex Ea Et. destruct (inv_act _ _ _ _ _ I Ea) as (x0 & th0 & Ex0 & Et0 & K).
  rewrite Ex in Ex0. injection Ex0 as <-. rewrite Et in Et0. injection Et0 as <-.
  unfold run_op, mbind, M_bind, deref. rewrite Ea. unfold lk_acquire, lock_holder, mbind, M_bind, gets.
  destruct (locks s !! lk) as [c|] eqn:El.
  { right. assert (Hc : c ≠ me).
    { intros ->. apply (i_lock _ _ _ I) in El as (a & E & Hh). rewrite Ea in E. by injection E as <-. }
    split; [| by exists c]. unfold acquire, mbind, M_bind. rewrite (splraise_run s me x th) by done.
    by rewrite bool_decide_eq_false_2. }
  left. rewrite (acquire_run s me x th) by done. eexists. split; [reflexivity |].
  name_state s'.
  assert (Ea' : ∀ c, acts s' !! c = if decide (me = c) then Some (Base (Some lk)) else acts s !! c)
    by (intros c; apply (acts_put_act s me _ _ c Ea)).
  eapply (local_step None None home s _ me x th (spin_up x) (spl_up th) (Base None) (Base (Some lk))); try done; try (by left).
  - intros c. simpl. by apply at_cpu_lookup.
  - intros u. simpl. by apply at_thread_lookup.
  - simpl. apply length_at_cpu.
  - apply (length_put_act s).
  - destruct K as [H1 H2 H3 H4 H5 H6 H7 H8 H9]. split; simpl; try done; simpl in H4; lia.
  - intros lk' c. rewrite Ea'. change (locks s') with (<[lk := me]> (locks s)).
    destruct (decide (lk' = lk)) as [-> | Hne].
    + rewrite lookup_insert_eq. destruct (decide (me = c)) as [<- | Hc]; [split; [intros; by eexists | done] |].
      split; [congruence |]. intros H. apply (i_lock _ _ _ I) in H. congruence.
    + rewrite lookup_insert_ne by done. rewrite (i_lock _ _ _ I). destruct (decide (me = c)) as [<- | Hc]; [| done].
      rewrite Ea. split; intros (a & [= <-] & Hh); [done |]. simpl in Hh. congruence.
Qed.
(** The same step, when the activity changes but no lock does. *)
Lemma local_step' home s s' me x th f g a a' :
  inv None home s → cpus s !! me = Some x → threads s !! c_curthread x = Some th → acts s !! me = Some a →
  s' = put_act me a' (at_cpu me f (at_thread (c_curthread x) g s)) →
  c_curthread (f x) = c_curthread x → c_isidle (f x) = c_isidle x → c_runqueue (f x) = c_runqueue x →
  c_zombies (f x) = c_zombies x → hand a' = hand a → (∀ m, a' = Migrating m → hand a' = []) →
  t_state (g th) = t_state th → t_cpu (g th) = t_cpu th → t_proc (g th) = t_proc th →
  t_stack (g th) = t_stack th → t_guard (g th) = t_guard th → held a' = held a →
  cpu_ok false me (f x) a' (g th) → inv None home s'.
Proof.
  intros I Ex Et Ea -> Hc Hi Hr Hz Hh Hm F1 F2 F3 F4 F5 Hl K.
  set (s' := put_act _ _ _).
  assert (Ea' : ∀ c, acts s' !! c = if decide (me = c) then Some a' else acts s !! c)
    by (intros c; apply (acts_put_act s me _ _ c Ea)).
  eapply (local_step None None home s s' me x th (f x) (g th) a a'); try done; try (by left).
  - intros c. unfold s'. autorewrite with sched. destruct (decide (me = c)) as [<- |]; [by rewrite Ex | done].
  - intros u. by apply at_thread_lookup.
  - apply (length_at_cpu (at_thread _ _ s)).
  - apply (length_put_act s).
  - intros lk c. rewrite Ea'. change (locks s') with (locks s). rewrite (i_lock _ _ _ I).
    destruct (decide (me = c)) as [<- |]; [| done]. rewrite Ea.
    split; intros (b & [= <-] & Hb); eexists; (split; [reflexivity |]); congruence.
Qed.

Lemma put_act_id s me a : acts s !! me = Some a → put_act me a s = s.
Proof. intros E. unfold put_act. rewrite list_insert_id by done. by destruct s. Qed.
Lemma at_cpu_idf s me : at_cpu me id s = s.
Proof. unfold at_cpu. rewrite list_alter_id by done. by destruct s. Qed.

Lemma unlock_ok home s me x th lk :
  inv None home s → cpus s !! me = Some x → acts s !! me = Some (Base (Some lk)) →
  threads s !! c_curthread x = Some th →
  ∃ s', run_op me (OUnlock lk) s = Done tt s' ∧ inv None home s'.
Proof.
  intros I Ex Ea Et. destruct (inv_act _ _ _ _ _ I Ea) as (x0 & th0 & Ex0 & Et0 & K).
  rewrite Ex in Ex0. injection Ex0 as <-. rewrite Et in Et0. injection Et0 as <-.
  assert (El : locks s !! lk = Some me) by (apply (i_lock _ _ _ I); by eexists).
  unfold run_op, mbind, M_bind, deref. rewrite Ea. unfold lk_release, lock_holder, mbind, M_bind, gets.
  rewrite El, (release_run s me x th); [| done | done | rewrite (ck_spin _ _ _ _ _ K); simpl; lia].
  eexists. split; [reflexivity |]. name_state s'.
  assert (Ea' : ∀ c, acts s' !! c = if decide (me = c) then Some (Base None) else acts s !! c)
    by (intros c; apply (acts_put_act s me _ _ c Ea)).
  eapply (local_step None None home s _ me x th (spin_down x) (spl_down th) (Base (Some lk)) (Base None)); try done; try (by left).
  - intros c. simpl. by apply at_cpu_lookup.
  - intros u. simpl. by apply at_thread_lookup.
  - simpl. apply length_at_cpu.
  - apply (length_put_act s).
  - destruct K as [H1 H2 H3 H4 H5 H6 H7 H8 H9]. split; simpl; try done; simpl in H4; lia.
  - intros lk' c. rewrite Ea'. change (locks s') with (delete lk (locks s)).
    destruct (decide (lk' = lk)) as [-> | Hne].
    + rewrite lookup_delete_eq. destruct (decide (me = c)) as [<- | Hc]; [split; [done | by intros (a & [= <-] & ?)] |].
      split; [done |]. intros H. apply (i_lock _ _ _ I) in H. congruence.
    + rewrite lookup_delete_ne by done. rewrite (i_lock _ _ _ I). destruct (decide (me = c)) as [<- | Hc]; [| done].
      rewrite Ea. split; intros (a & [= <-] & Hh); simpl in Hh; congruence.
Qed.

Lemma splx_ok home s me x th spl :
  inv None home s → cpus s !! me = Some x → acts s !! me = Some (Base None) →
  threads s !! c_curthread x = Some th → c_isidle x = false → t_trap th = None → 0 <= spl <= 1 →
  ∃ s', run_op me (OSplx spl) s = Done tt s' ∧ inv None home s'.
Proof.
  intros I Ex Ea Et Hi Htr Hs. destruct (inv_act _ _ _ _ _ I Ea) as (x0 & th0 & Ex0 & Et0 & K).
  rewrite Ex in Ex0. injection Ex0 as <-. rewrite Et in Et0. injection Et0 as <-.
  pose proof (ck_spl _ _ _ _ _ K) as Hspl. rewrite Hi in Hspl. destruct Hspl as [Hspl Hctx].
  unfold run_op, mbind, M_bind, deref. rewrite Ea, (splx_run s me x th) by done.
  eexists. split; [reflexivity |].
  eapply (local_step' home s _ me x th id (spl_set spl) (Base None) (Base None)); try done.
  - by rewrite at_cpu_idf, put_act_id.
  - destruct K as [H1 H2 H3 H4 H5 H6 H7 H8 H9]. split; simpl; try done; try lia.
    rewrite Hi. by split.
Qed.

Lemma trap_ok home s me x th :
  inv None home s → cpus s !! me = Some x → acts s !! me = Some (Base None) →
  threads s !! c_curthread x = Some th → t_trap th = None → (c_isidle x = true ∨ t_curspl th = 0) →
  ∃ s', run_op me OTrap s = Done tt s' ∧ inv None home s'.
Proof.
  intros I Ex Ea Et Htr Hor. destruct (inv_act _ _ _ _ _ I Ea) as (x0 & th0 & Ex0 & Et0 & K).
  rewrite Ex in Ex0. injection Ex0 as <-. rewrite Et in Et0. injection Et0 as <-.
  destruct K as [H1 H2 H3 H4 H5 H6 H7 H8 H9]. simpl in *. rewrite Htr in H7. simpl in H7.
  unfold run_op, mbind, M_bind, deref. rewrite Ea. unfold trap_enter, mbind, M_bind.
  rewrite (curthread_run s me x), (get_thread_run s _ th) by done.
  destruct (Z.eqb_spec (t_curspl th) 0) as [E0 | E0].
  - assert (Hi : c_isidle x = false) by (destruct (c_isidle x); [lia | done]). rewrite Hi in H6.
    unfold kassert. destruct (Z.eqb_spec (t_iplhigh_count th) 0); [| lia]. unfold mret, M_ret.
    rewrite (upd_thread_run s _ th) by done. eexists. split; [reflexivity |].
    eapply (local_step' home s _ me x th id _ (Base None) (Base None)); try done; [by rewrite at_cpu_idf, put_act_id |..]; try done.
    split; simpl; try done; try lia; rewrite ?Hi, ?H7; unfold IPL_HIGH; naive_solver lia.
  - assert (Hi : c_isidle x = true) by (destruct Hor; [done | lia]). rewrite Hi in H6.
    rewrite (upd_thread_run s _ th) by done. eexists. split; [reflexivity |].
    eapply (local_step' home s _ me x th id _ (Base None) (Base None)); try done; [by rewrite at_cpu_idf, put_act_id |..]; try done.
    split; simpl; try done; try lia; rewrite ?Hi, ?H7; naive_solver lia.
Qed.

Lemma iret_ok home s me x th :
  inv None home s → cpus s !! me = Some x → acts s !! me = Some (Base None) →
  threads s !! c_curthread x = Some th → t_trap th ≠ None →
  ∃ s', run_op me OIret s = Done tt s' ∧ inv None home s'.
Proof.
  intros I Ex Ea Et Htr. destruct (inv_act _ _ _ _ _ I Ea) as (x0 & th0 & Ex0 & Et0 & K).
  rewrite Ex in Ex0. injection Ex0 as <-. rewrite Et in Et0. injection Et0 as <-.
  destruct K as [H1 H2 H3 H4 H5 H6 H7 H8 H9]. simpl in *. destruct (H8 eq_refl Htr) as [Hs Etr].
  unfold run_op, mbind, M_bind, deref. rewrite Ea. unfold trap_leave, mbind, M_bind.
  rewrite (curthread_run s me x), (get_thread_run s _ th) by done. unfold deref. rewrite Etr. simpl.
  destruct (c_isidle x) eqn:Hi; simpl.
  - unfold mret, M_ret. rewrite (upd_thread_run s _ th) by done. eexists. split; [reflexivity |].
    eapply (local_step' home s _ me x th id _ (Base None) (Base None)); try done; [by rewrite at_cpu_idf, put_act_id |..]; try done.
    split; simpl; try done; try lia; by rewrite Hi.
  - unfold kassert. rewrite Hs. simpl. destruct (Z.eqb_spec (t_iplhigh_count th) 1); [| lia]. unfold mret, M_ret.
    rewrite (upd_thread_run s _ th) by done.
    rewrite (upd_thread_run _ _ (with_spl 0 (t_iplhigh_count th - 1) th))
      by (rewrite threads_at_thread, decide_True, Et; done).
    eexists. split; [reflexivity |].
    eapply (local_step' home s _ me x th id _ (Base None) (Base None)); try done; [by rewrite at_cpu_idf, put_act_id, at_thread_thread |..]; try done.
    split; simpl; try done; try lia; rewrite Hi; split; [lia | apply H6].
Qed.

Lemma hardclock_ok home s me x th :
  inv None home s → cpus s !! me = Some x → acts s !! me = Some (Base None) →
  threads s !! c_curthread x = Some th → t_trap th ≠ None →
  ∃ s', run_op me OHardclock s = Done tt s' ∧ inv None home s'.
Proof.
  intros I Ex Ea Et Htr. destruct (inv_act _ _ _ _ _ I Ea) as (x0 & th0 & Ex0 & Et0 & K).
  rewrite Ex in Ex0. injection Ex0 as <-. rewrite Et in Et0. injection Et0 as <-.
  destruct K as [H1 H2 H3 H4 H5 H6 H7 H8 H9]. simpl in *.
  unfold run_op, mbind, M_bind, deref. rewrite Ea. unfold hardclock, mbind, M_bind.
  rewrite (upd_cpu_run s me x) by done. set (f := λ x, with_hardclocks _ x).
  rewrite (get_cpu_run _ me (f x)) by (rewrite cpus_at_cpu, decide_True, Ex; done).
  destruct (_ =? 0); (eexists; split; [reflexivity |]).
  - eapply (local_step' home s _ me x th f id (Base None) (Migrating (MCount 0 0 0))); try done.
    + rewrite (at_thread_id s _ th) by done. reflexivity.
    + split; simpl; try done; split; [done | lia].
  - eapply (local_step' home s _ me x th f id (Base None) Tick); try done.
    rewrite (at_thread_id s _ th) by done. reflexivity.
Qed.

(** A critical section of the CPU [me] under a lock of its own, in which [f] is done to it. *)
Lemma own_section s me x th f :
  cpus s !! me = Some x → threads s !! c_curthread x = Some th → 0 <= c_spinlocks x →
  (∀ z, f (spin_up z) = spin_up (f z)) → c_curthread (f x) = c_curthread x → c_spinlocks (f x) = c_spinlocks x →
  release me (Some me) (at_cpu me f (at_cpu me spin_up (at_thread (c_curthread x) spl_up s))) =
  Done tt (at_cpu me f s).
Proof.
  intros Ex Et Hk Hf Hc Hs.
  rewrite (release_run _ me (f (spin_up x)) (spl_up th)).
  - f_equal. rewrite Hf. change (c_curthread (spin_up (f x))) with (c_curthread (f x)). rewrite Hc. apply sched_ext; try done.
    + intros u. autorewrite with sched. destruct (decide (c_curthread x = u)) as [<- |]; [| done].
      rewrite Et. simpl. f_equal. destruct th. unfold spl_down, spl_up, with_spl. simpl. f_equal. lia.
    + intros d. autorewrite with sched. destruct (decide (me = d)) as [<- |]; [| done].
      rewrite Ex. simpl. rewrite Hf. f_equal. destruct (f x). unfold spin_down, spin_up, with_spinlocks. simpl. f_equal. lia.
  - autorewrite with sched. rewrite !decide_True by done. by rewrite Ex.
  - autorewrite with sched. rewrite Hf. change (c_curthread (spin_up (f x))) with (c_curthread (f x)). rewrite Hc.
    rewrite decide_True, Et by done. done.
  - rewrite Hf. simpl. lia.
Qed.

(** Nothing done under the lock of the own run queue. *)
Lemma own_queue s me x th :
  cpus s !! me = Some x → threads s !! c_curthread x = Some th → 0 <= c_spinlocks x → c_runqueue_lock x = None →
  (rq_acquire me me ;; rq_release me me) s = Done tt s.
Proof.
  intros Ex Et Hk Hl. unfold mbind, M_bind. rewrite (rq_acquire_run s me me x x th) by done.
  set (s1 := at_cpu me _ _).
  assert (Ex1 : cpus s1 !! me = Some (with_rqlock (Some me) (spin_up x))).
  { subst s1. autorewrite with sched. rewrite !decide_True by done. by rewrite Ex. }
  rewrite (rq_release_run s1 me me _ _ (spl_up th) Ex1 Ex1); [| done | simpl; lia |].
  - f_equal. apply sched_ext; try done.
    + intros u. subst s1. autorewrite with sched. simpl. destruct (decide (c_curthread x = u)) as [<- |]; [| done].
      rewrite Et. simpl. f_equal. destruct th. unfold spl_down, spl_up, with_spl. simpl. f_equal. lia.
    + intros d. subst s1. autorewrite with sched. destruct (decide (me = d)) as [<- |]; [| done].
      rewrite Ex. simpl. f_equal. destruct x. unfold spin_down, spin_up, with_spinlocks, with_rqlock. simpl in *.
      subst. f_equal. lia.
  - subst s1. autorewrite with sched. simpl. by rewrite decide_True, Et.
Qed.

Lemma ipi_ok home s me x th :
  inv None home s → cpus s !! me = Some x → acts s !! me = Some (Base None) →
  threads s !! c_curthread x = Some th → t_trap th ≠ None → c_shootdown x = [] →
  ∃ s', run_op me OIpi s = Done tt s' ∧ inv None home s'.
Proof.
  intros I Ex Ea Et Htr Hsd. destruct (inv_act _ _ _ _ _ I Ea) as (x0 & th0 & Ex0 & Et0 & K).
  rewrite Ex in Ex0. injection Ex0 as <-. rewrite Et in Et0. injection Et0 as <-.
  pose proof (inv_rqlock _ _ _ _ I Ex) as Hl.
  destruct K as [H1 H2 H3 H4 H5 H6 H7 H8 H9]. simpl in *.
  unfold run_op, mbind, M_bind, deref. rewrite Ea. unfold interprocessor_interrupt, mbind, M_bind.
  rewrite (acquire_run s me x th) by done. set (s1 := at_cpu me _ _).
  assert (Ex1 : cpus s1 !! me = Some (spin_up x)) by (subst s1; autorewrite with sched; by rewrite decide_True, Ex).
  rewrite (get_cpu_run s1 me _ Ex1). change (c_ipi_pending (spin_up x)) with (c_ipi_pending x).
  change (c_shootdown (spin_up x)) with (c_shootdown x). rewrite Hsd.
  assert (Er : ∀ f, (∀ z, f (spin_up z) = spin_up (f z)) → c_curthread (f x) = c_curthread x →
    c_spinlocks (f x) = c_spinlocks x → release me (Some me) (at_cpu me f s1) = Done tt (at_cpu me f s))
    by (intros f ? ? ?; apply (own_section s me x th f); done || lia).
  assert (Er0 : release me (Some me) s1 = Done tt s) by (specialize (Er id); rewrite !at_cpu_idf in Er; by apply Er).
  assert (Hh : inv None home (put_act me Halted s)).
  { eapply (local_step' home s _ me x th id id (Base None) Halted); try done.
    rewrite (at_thread_id s _ th), at_cpu_idf by done. reflexivity. }
  destruct (Z.testbit (c_ipi_pending x) IPI_PANIC); [rewrite Er0; by eexists |].
  destruct (Z.testbit (c_ipi_pending x) IPI_OFFLINE).
  { rewrite Er0. pose proof (own_queue s me x th Ex Et ltac:(lia) Hl) as Eq. unfold mbind, M_bind in Eq.
    destruct (rq_acquire me me s) as [[] s2 | | |]; try done. rewrite Eq. by eexists. }
  exists (at_cpu me (with_ipi 0 []) s). split.
  - set (g := λ y, with_ipi 0 (c_shootdown y) y). set (f := λ y, with_ipi (c_ipi_pending y) [] y).
    destruct (Z.testbit (c_ipi_pending x) IPI_TLBSHOOTDOWN); cbn [shootdown_loop mret M_ret].
    + rewrite (upd_cpu_run s1 me _ f Ex1). rewrite (upd_cpu_run _ me (f (spin_up x))) by (autorewrite with sched; by rewrite decide_True, Ex1).
      replace (at_cpu me g (at_cpu me f s1)) with (at_cpu me (with_ipi 0 []) s1); [by apply Er |].
      apply sched_ext; try done. intros d. autorewrite with sched. destruct (decide (me = d)) as [<- |]; [| done].
      rewrite Ex1. done.
    + rewrite (upd_cpu_run s1 me _ g Ex1). rewrite Er by done. f_equal.
      apply sched_ext; try done. intros d. autorewrite with sched. destruct (decide (me = d)) as [<- |]; [| done].
      rewrite Ex. simpl. unfold g. by rewrite Hsd.
  - eapply (local_step' home s _ me x th (with_ipi 0 _) id (Base None) (Base None)); try done;
      [rewrite (at_thread_id s _ th), put_act_id by done; reflexivity |..]; by split.
Qed.
(** *** Wake-ups and forks begin: threads get into a CPU's hands *)

Lemma hand_step home home' s s' me x th a a' :
  inv None home s → cpus s !! me = Some x → threads s !! c_curthread x = Some th → acts s !! me = Some a →
  threads s' = threads s → cpus s' = cpus s → locks s' = locks s → acts s' = <[me := a']> (acts s) →
  held a' = held a → (∀ m, a' ≠ Migrating m) → a' ≠ Tick →
  placed home' (pl s') → (∀ t, is_Some (home' !! t) ↔ is_Some (home !! t)) →
  (∀ t tg p', threads s !! t = Some tg → home' !! t = Some p' →
     home !! t = Some p' ∨ (p' = PHand me ∧ ∃ w, home !! t = Some (PSleep w))) →
  inv None home' s'.
Proof.
  intros I Ex Et Ea Eth Ec El Eac Hh Hm Htk Hpl Hd Hp.
  destruct (inv_act _ _ _ _ _ I Ea) as (x0 & th0 & Ex0 & Et0 & K).
  rewrite Ex in Ex0. injection Ex0 as <-. rewrite Et in Et0. injection Et0 as <-.
  assert (Ea' : ∀ c, acts s' !! c = if decide (me = c) then Some a' else acts s !! c)
    by (intros c; rewrite Eac; apply (acts_put_act s me _ _ c Ea)).
  eapply (inv_step None None home home' s s' me x x a' th); rewrite ?Eth, ?Ec; try done; try (by left).
  - by rewrite Ea', decide_True.
  - destruct K as [H1 H2 H3 H4 H5 H6 H7 H8 H9]. split; try done.
    + by rewrite H4, Hh.
    + destruct a'; try done. by destruct (Hm m).
  - intros c Hne. by rewrite Ea', decide_False.
  - rewrite Eac. apply length_insert.
  - intros c y' _ E. by exists y'.
  - intros t. rewrite Hd. apply (i_dom _ _ _ I).
  - intros t tg p' E E'. destruct (Hp t tg p' E E') as [E0 | (-> & w & E0)].
    + by eapply (i_thr _ _ _ I).
    + destruct (i_thr _ _ _ I _ _ _ E E0) as [(G & S1 & S2) Hlt]. split; [| done]. split; [done |]. by split; [left |].
  - intros t tg _ E. right. left. by exists tg.
  - intros c y th0 _ Ey E0. by exists th0.
  - intros m t tg ->. by destruct (Hm m).
  - intros c t tg _ _ E. by exists tg.
  - intros lk c. rewrite El, Ea'. rewrite (i_lock _ _ _ I). destruct (decide (me = c)) as [<- |]; [| done].
    rewrite Ea. split; intros (b & [= <-] & Hb); eexists; (split; [reflexivity |]); congruence.
Qed.

Lemma wakeone_ok home s me x th wc lk :
  inv None home s → cpus s !! me = Some x → acts s !! me = Some (Base (Some lk)) →
  threads s !! c_curthread x = Some th → is_Some (wchans s !! wc) →
  ∃ s' home', run_op me (OWakeone wc lk) s = Done tt s' ∧ inv None home' s'.
Proof.
  intros I Ex Ea Et (w & Ew). assert (El : locks s !! lk = Some me) by (apply (i_lock _ _ _ I); by eexists).
  unfold run_op, mbind, M_bind, deref. rewrite Ea. unfold wchan_wakeone, lk_do_i_hold, lock_holder, mbind, M_bind, gets.
  rewrite El. rewrite bool_decide_eq_true_2 by done. cbv [mret M_ret kassert]. cbv beta iota.
  unfold get_wchan, deref. rewrite Ew. destruct (wc_threads w) as [|t rest] eqn:Hw; [by eexists _, home |].
  eexists _, (<[t := PHand me]> home). split; [reflexivity |]. name_state s'.
  assert (Ht : home !! t = Some (PSleep wc)).
  { apply (i_placed _ _ _ I (PSleep wc)). simpl. rewrite Ew. simpl. rewrite Hw. set_solver. }
  eapply (hand_step home _ s s' me x th (Base (Some lk)) (Waking (Some lk) [t])); try done.
  - apply (placed_move home (pl s) _ t (PSleep wc)); [apply (i_placed _ _ _ I) | done | | |].
    + simpl. rewrite lookup_insert_eq, Ew. simpl. by rewrite Hw.
    + simpl. rewrite (acts_put_act s me _ _ me Ea : <[me := _]> (acts s) !! me = _), decide_True, Ea by done. done.
    + intros r H1 H2. destruct r as [c | c | v | c | c]; simpl; try done.
      * rewrite lookup_insert_ne by congruence. done.
      * rewrite list_lookup_insert_ne by congruence. done.
  - intros u. destruct (decide (t = u)) as [<- |].
    + rewrite lookup_insert_eq, Ht. split; by eexists.
    + by rewrite lookup_insert_ne.
  - intros u tg p' E. destruct (decide (t = u)) as [<- |].
    + rewrite lookup_insert_eq. intros [= <-]. right. split; [done | by exists wc].
    + rewrite lookup_insert_ne by done. by left.
Qed.

Lemma wakeall_ok home s me x th wc lk :
  inv None home s → cpus s !! me = Some x → acts s !! me = Some (Base (Some lk)) →
  threads s !! c_curthread x = Some th → is_Some (wchans s !! wc) →
  ∃ s' home', run_op me (OWakeall wc lk) s = Done tt s' ∧ inv None home' s'.
Proof.
  intros I Ex Ea Et (w & Ew). assert (El : locks s !! lk = Some me) by (apply (i_lock _ _ _ I); by eexists).
  unfold run_op, mbind, M_bind, deref. rewrite Ea. unfold wchan_wakeall, lk_do_i_hold, lock_holder, mbind, M_bind, gets.
  rewrite El. rewrite bool_decide_eq_true_2 by done. cbv [mret M_ret kassert]. cbv beta iota.
  unfold get_wchan, deref. rewrite Ew.
  eexists _, (relabel (PSleep wc) (PHand me) <$> home). split; [reflexivity |]. name_state s'.
  eapply (hand_step home _ s s' me x th (Base (Some lk)) (Waking (Some lk) (wc_threads w))); try done.
  - apply (placed_relabel home (pl s)); [apply (i_placed _ _ _ I) | done | | | |].
    + simpl. by rewrite Ea.
    + simpl. by rewrite lookup_insert_eq.
    + simpl. rewrite (acts_put_act s me _ _ me Ea : <[me := _]> (acts s) !! me = _), decide_True, Ew by done. done.
    + intros r H1 H2. destruct r as [c | c | v | c | c]; simpl; try done.
      * rewrite lookup_insert_ne by congruence. done.
      * rewrite list_lookup_insert_ne by congruence. done.
  - intros u. by rewrite lookup_fmap, fmap_is_Some.
  - intros u tg p' E. rewrite lookup_fmap. destruct (home !! u) as [r|] eqn:Hr; [| done]. simpl.
    unfold relabel. case_decide as D; intros [= <-]; [subst r; right; split; [done | by exists wc] | by left].
Qed.
(** *** A new thread *)

Definition put_thread (t : Z) (x : thread) (s : sched) : sched := with_threads (<[t := x]> (threads s)) s.

Lemma upd_put_thread s t x f : upd_thread t f (put_thread t x s) = Done tt (put_thread t (f x) s).
Proof.
  rewrite (upd_thread_run _ _ x) by apply lookup_insert_eq. unfold at_thread, put_thread, with_threads.
  simpl. by rewrite alter_insert_eq.
Qed.

Definition forked (st : Z) (c : nat) (proc : Z) : thread :=
  mkThread (Some "NEW") S_READY st stack_guard Fresh c proc false IPL_HIGH 2 None.

Lemma thread_fork_run s me x th t n st p :
  cpus s !! me = Some x → threads s !! c_curthread x = Some th → threads s !! t = None →
  t_proc th ≠ 0 →
  ∃ r, thread_fork me None t n st p s =
    Done r (if (t =? 0) || (n =? 0) || (st =? 0) then s
            else put_act me (Waking None [t])
                   (put_thread t (forked st (t_cpu th) (if p =? 0 then t_proc th else p)) s)).
Proof.
  intros Ex Et Hn Hp. assert (Hne : t ≠ c_curthread x) by congruence.
  unfold thread_fork, thread_create, mbind, M_bind.
  destruct (Z.eqb_spec t 0); [by eexists |]. destruct (Z.eqb_spec n 0); [by eexists |]. simpl.
  unfold set_thread, modify. fold (put_thread t new_thread s). cbv [mret M_ret]. cbv beta iota.
  rewrite (proj2 (Z.eqb_neq t 0)) by done.
  assert (Ex1 : ∀ y, cpus (put_thread t y s) !! me = Some x) by done.
  assert (Et1 : ∀ y, threads (put_thread t y s) !! c_curthread x = Some th)
    by (intros y; simpl; by rewrite lookup_insert_ne).
  destruct (Z.eqb_spec st 0).
  - unfold thread_destroy, mbind, M_bind. rewrite (curthread_run _ me x) by apply Ex1.
    rewrite (proj2 (Z.eqb_neq t _)) by done. unfold kassert at 1.
    change (negb false) with true. cbv [mret M_ret]. cbv beta iota.
    rewrite (get_thread_run _ t new_thread) by apply lookup_insert_eq.
    eexists. unfold kassert, modify. simpl. f_equal. unfold put_thread, with_threads. simpl.
    rewrite delete_insert_id by done. by destruct s.
  - rewrite upd_put_thread. unfold thread_checkstack_init. rewrite upd_put_thread.
    rewrite (curthread_run _ me x) by apply Ex1. rewrite (get_thread_run _ (c_curthread x) th) by apply Et1.
    rewrite upd_put_thread. unfold proc_addthread, mbind, M_bind.
    rewrite (get_thread_run _ t _ (lookup_insert_eq _ _ _)). unfold kassert. simpl. cbv [mret M_ret]. cbv beta iota.
    rewrite upd_put_thread. simpl. rewrite !upd_put_thread. by eexists.
Qed.

Lemma fork_ok home s me x th t n st p :
  inv None home s → cpus s !! me = Some x → acts s !! me = Some (Base None) →
  threads s !! c_curthread x = Some th → c_isidle x = false → threads s !! t = None →
  ∃ s' home', run_op me (OFork t n st p) s = Done tt s' ∧ inv None home' s'.
Proof.
  intros I Ex Ea Et Hi Hn. destruct (inv_act _ _ _ _ _ I Ea) as (x0 & th0 & Ex0 & Et0 & K).
  rewrite Ex in Ex0. injection Ex0 as <-. rewrite Et in Et0. injection Et0 as <-.
  assert (Hrun : home !! c_curthread x = Some (PRun me)).
  { apply (i_placed _ _ _ I (PRun me)). simpl. rewrite Ex, Hi. set_solver. }
  destruct (i_thr _ _ _ I _ _ _ Et Hrun) as [(_ & _ & Hcpu & Hproc) Hlt].
  unfold run_op, mbind, M_bind, deref. rewrite Ea.
  destruct (thread_fork_run s me x th t n st p Ex Et Hn Hproc) as (r & ->).
  destruct (_ || _); [by eexists _, home |]. eexists _, (<[t := PHand me]> home). split; [reflexivity |].
  set (nt := forked _ _ _). name_state s'.
  assert (Hhome : home !! t = None).
  { destruct (home !! t) as [q|] eqn:E; [| done]. destruct (proj1 (i_dom _ _ _ I t)) as (? & ?); [by eexists | congruence]. }
  assert (Ea' : ∀ c, acts s' !! c = if decide (me = c) then Some (Waking None [t]) else acts s !! c)
    by (intros c; apply (acts_put_act s me _ _ c Ea)).
  assert (Et' : ∀ u, threads s' !! u = if decide (t = u) then Some nt else threads s !! u).
  { intros u. simpl. destruct (decide (t = u)) as [<- |]; [apply lookup_insert_eq | by apply lookup_insert_ne]. }
  eapply (inv_step None None home _ s s' me x x (Waking None [t]) th); try done; try (by left).
  - by rewrite Ea', decide_True.
  - rewrite Et', decide_False; [done | congruence].
  - destruct K as [H1 H2 H3 H4 H5 H6 H7 H8 H9]. by split.
  - intros c Hne. by rewrite Ea', decide_False.
  - apply (length_put_act s).
  - intros c y' _ E. by exists y'.
  - intros u. rewrite Et'. destruct (decide (t = u)) as [<- |].
    + rewrite lookup_insert_eq. split; by eexists.
    + rewrite lookup_insert_ne by done. apply (i_dom _ _ _ I).
  - apply (placed_new home (pl s)); [apply (i_placed _ _ _ I) | done | |].
    + change (from_option hand [] (acts s' !! me) ≡ₚ t :: from_option hand [] (acts s !! me)).
      rewrite Ea', decide_True, Ea by done. done.
    + intros q Hq. destruct q as [c | c | v | c | c]; try done.
      change (from_option hand [] (acts s' !! c) ≡ₚ from_option hand [] (acts s !! c)).
      rewrite Ea', decide_False by congruence. done.
  - intros u tg q. rewrite Et'. destruct (decide (t = u)) as [<- |].
    + rewrite lookup_insert_eq. intros [= <-] [= <-]. split; [| done]. split; [done |]. split; [by right |].
      simpl. destruct (Z.eqb_spec p 0); done.
    + rewrite lookup_insert_ne by done. apply (i_thr _ _ _ I).
  - intros u tg _. rewrite Et'. destruct (decide (t = u)) as [<- |].
    + intros [= <-]. right. right. by split_and!.
    + intros E. right. left. by exists tg.
  - intros c y th0 _ Ey E0. exists th0. split; [| done]. rewrite Et', decide_False; [done | congruence].
  - intros c u tg _ Hu. rewrite Et'. destruct (decide (t = u)) as [<- |]; [congruence |]. intros E. by exists tg.
  - intros lk c. change (locks s') with (locks s). rewrite (i_lock _ _ _ I), Ea'.
    destruct (decide (me = c)) as [<- |]; [| done]. rewrite Ea. split; by intros (b & [= <-] & Hb).
Qed.
(** *** Leaving the dead behind *)

Lemma kassert_ok s b why : b = true → kassert b why s = Done tt s.
Proof. by intros ->. Qed.

Lemma exorcise_loop_run zs : ∀ s me x,
  cpus s !! me = Some x → c_zombies x = zs → NoDup zs →
  (∀ z, z ∈ zs → z ≠ c_curthread x ∧ ∃ zt, threads s !! z = Some zt ∧ t_state zt = S_ZOMBIE ∧ t_proc zt = 0) →
  ∃ s', exorcise_loop me zs s = Done tt s' ∧
    (∀ u, threads s' !! u = if decide (u ∈ zs) then None else threads s !! u) ∧
    (∀ c, cpus s' !! c = if decide (me = c) then Some (with_zombies [] x) else cpus s !! c) ∧
    length (cpus s') = length (cpus s) ∧ wchans s' = wchans s ∧ locks s' = locks s ∧ acts s' = acts s.
Proof.
  induction zs as [|z zs IH]; intros s me x Ex Hz Hnd Hall.
  { exists s. split_and!; try done. intros c. destruct (decide (me = c)) as [<- |]; [| done].
    rewrite Ex. f_equal. destruct x. simpl in Hz. by subst. }
  apply NoDup_cons in Hnd as [Hnz Hnd]. destruct (Hall z) as (Hne & zt & Ez & Hs & Hp); [set_solver |].
  cbn [exorcise_loop]. unfold mbind, M_bind. rewrite (upd_cpu_run s me x) by done.
  set (s1 := at_cpu me _ s).
  assert (Ex1 : cpus s1 !! me = Some (with_zombies zs x)) by (unfold s1; by rewrite cpus_at_cpu, decide_True, Ex).
  assert (Hcur : negb (z =? c_curthread (with_zombies zs x)) = true) by (by apply negb_true_iff, Z.eqb_neq).
  rewrite (curthread_run s1 me _ Ex1), (kassert_ok _ _ _ Hcur), (get_thread_run s1 z zt) by done.
  rewrite kassert_ok by (by apply bool_decide_eq_true_2). unfold thread_destroy, mbind, M_bind.
  rewrite (curthread_run s1 me _ Ex1), (kassert_ok _ _ _ Hcur), (get_thread_run s1 z zt) by done.
  rewrite kassert_ok by (apply bool_decide_eq_true_2; congruence). rewrite kassert_ok by (by apply Z.eqb_eq).
  unfold modify.
  set (s2 := with_threads _ s1).
  destruct (IH s2 me (with_zombies zs x)) as (s' & E & Ht & Hc & Hl & Hw & Hk & Ha); [done | done | done | |].
  { intros u Hu. destruct (Hall u) as (Hnu & ut & Eu & Hsu); [set_solver |]. split; [done |].
    exists ut. split; [| done]. simpl. rewrite lookup_delete_ne; [done | set_solver]. }
  exists s'. split; [exact E |]. split_and!; try done.
  - intros u. rewrite Ht. simpl. destruct (decide (u = z)) as [-> | Hu].
    + rewrite lookup_delete_eq. rewrite (decide_True (P := z ∈ z :: zs)) by set_solver. by case_decide.
    + rewrite lookup_delete_ne by done. destruct (decide (u ∈ zs)).
      * rewrite decide_True by set_solver. done.
      * rewrite decide_False by set_solver. done.
  - intros c. rewrite Hc. unfold s2, s1. destruct (decide (me = c)) as [<- |] eqn:Ed; [done |].
    change (cpus (at_cpu me (with_zombies zs) s) !! c = cpus s !! c). by rewrite cpus_at_cpu, Ed.
  - rewrite Hl. apply (length_at_cpu s).
Qed.
End ops.
End ThreadOps.
