(* ===== verification/ThreadSwitch.v ===== *)
(** * Context switches and migration preserve the scheduler's invariant *)

From stdpp Require Import base list gmap numbers strings.
From Stdlib Require Import ZArith Lia.
From S2P Require Import Prelude Thread ThreadInv ThreadOps.
Import Thread ThreadInv ThreadOps.

#[local] Open Scope Z_scope.

Module ThreadSwitch.

Section switch.
Implicit Types s : sched.

(** ** Switching to the next thread *)

(** The current thread of an idle CPU with its queue locked could be left. *)
Lemma mid_suspended c x a th : cpu_ok true c x a th → suspended th.
Proof.
  intros K. by destruct (ck_mid _ _ _ _ _ K eq_refl) as (_ & _ & ? & _).
Qed.

(** The head of the run queue is suspended. *)
Lemma next_suspended home s me x next tn :
  inv (Some me) home s → cpus s !! me = Some x → next ∈ c_runqueue x → threads s !! next = Some tn →
  suspended tn ∧ thr_ok tn (PReady me) ∧ home !! next = Some (PReady me).
Proof.
  intros I Ex Hin En.
  assert (Hh : home !! next = Some (PReady me)).
  { apply (i_placed _ _ _ I (PReady me)). simpl. by rewrite Ex. }
  destruct (i_thr _ _ _ I _ _ _ En Hh) as [Ok _]. split; [| done].
  destruct (i_cpu _ _ _ I me x Ex) as (a & th & Ea & Et & K). rewrite bool_decide_eq_true_2 in K by done.
  destruct (decide (next = c_curthread x)) as [-> | Hne].
  - rewrite En in Et. injection Et as <-. by eapply mid_suspended.
  - apply (i_susp _ _ _ I next tn En). intros c y Ey Hc.
    destruct (i_cpu _ _ _ I c y Ey) as (a' & th' & _ & Et' & K'). rewrite Hc, En in Et'. injection Et' as <-.
    pose proof (ck_cpu _ _ _ _ _ K') as E. destruct Ok as (_ & _ & E2 & _).
    assert (c = me) as -> by congruence. congruence.
Qed.

Definition resume (t : thread) : thread := with_context Running (with_state S_RUN (with_wchan_name None t)).
Definition unlocked (x : cpu) : cpu := with_rqlock None (spin_down x).
Definition resume_spl (c : context) : Z := match c with InSwitch spl => spl | _ => 0 end.

(** [switch_in] on a CPU whose current thread is already the next one. *)
Lemma switch_in_run s me x tn :
  cpus s !! me = Some x → threads s !! c_curthread x = Some tn → suspended tn →
  c_runqueue_lock x = Some me → 0 < c_spinlocks x → NoDup (c_zombies x) →
  (∀ z, z ∈ c_zombies x → z ≠ c_curthread x ∧
     ∃ zt, threads s !! z = Some zt ∧ t_state zt = S_ZOMBIE ∧ t_proc zt = 0) →
  ∃ s', switch_in me s = Done tt s' ∧
    (∀ u, threads s' !! u =
       if decide (u = c_curthread x)
       then Some (spl_set (resume_spl (t_context tn)) (spl_down (resume tn)))
       else if decide (u ∈ c_zombies x) then None else threads s !! u) ∧
    (∀ c, cpus s' !! c = if decide (me = c) then Some (with_zombies [] (unlocked x)) else cpus s !! c) ∧
    length (cpus s') = length (cpus s) ∧ wchans s' = wchans s ∧ locks s' = locks s ∧ acts s' = acts s.
Proof.
  intros Ex Et Hsu Hl Hk Hnd Hz. unfold switch_in, mbind, M_bind.
  rewrite (curthread_run s me x), (get_thread_run s _ tn), (upd_thread_run s _ tn) by done.
  change (λ t, with_context Running (with_state S_RUN (with_wchan_name None t))) with resume.
  set (s1 := at_thread _ resume s).
  assert (Et1 : threads s1 !! c_curthread x = Some (resume tn)) by (unfold s1; by rewrite threads_at_thread, decide_True, Et).
  rewrite (rq_release_run s1 me me x x (resume tn)) by done. set (s2 := at_cpu me (with_rqlock None) _).
  assert (Ex2 : ∀ c, cpus s2 !! c = if decide (me = c) then Some (unlocked x) else cpus s !! c).
  { intros c. unfold s2, s1. autorewrite with sched. destruct (decide (me = c)) as [<- |]; [by rewrite Ex | done]. }
  assert (Et2 : ∀ u, threads s2 !! u = if decide (u = c_curthread x) then Some (spl_down (resume tn)) else threads s !! u).
  { intros u. unfold s2, s1. autorewrite with sched. destruct (decide (c_curthread x = u)) as [<- |].
    - rewrite decide_True, Et by done. done.
    - by rewrite decide_False by done. }
  unfold exorcise, mbind, M_bind. rewrite (get_cpu_run s2 me (unlocked x)) by (by rewrite Ex2, decide_True).
  destruct (exorcise_loop_run (c_zombies x) s2 me (unlocked x)) as (s3 & E3 & Ht3 & Hc3 & Hl3 & Hw3 & Hk3 & Ha3); try done.
  { by rewrite Ex2, decide_True. }
  { intros z Hin. destruct (Hz z Hin) as (Hne & zt & Ez & ?). split; [done |]. exists zt.
    by rewrite Et2, decide_False. }
  change (c_zombies (unlocked x)) with (c_zombies x). rewrite E3. set (x3 := with_zombies [] (unlocked x)).
  assert (Hcz : c_curthread x ∉ c_zombies x) by (intros Hin; by destruct (Hz _ Hin)).
  assert (Ex3 : cpus s3 !! me = Some x3) by (by rewrite Hc3, decide_True).
  assert (Et3 : threads s3 !! c_curthread x3 = Some (spl_down (resume tn))).
  { rewrite Ht3, decide_False by done. by rewrite Et2, decide_True. }
  assert (Hlen : length (cpus s3) = length (cpus s)).
  { rewrite Hl3. unfold s2. rewrite !length_at_cpu. change (length (cpus (at_cpu me spin_down s1)) = length (cpus s)).
    by rewrite length_at_cpu. }
  destruct Hsu as (Hs1 & Hs2 & Hs3 & Hctx).
  assert (Hfin : ∀ spl, spl = resume_spl (t_context tn) → 0 <= spl <= 1 → ∃ s',
    match splx me spl s3 with Done _ s' => Done tt s' | Exited s' => Exited s' | Panic w => Panic w | NoFuel => NoFuel end
      = Done tt s' ∧
    (∀ u, threads s' !! u =
       if decide (u = c_curthread x)
       then Some (spl_set (resume_spl (t_context tn)) (spl_down (resume tn)))
       else if decide (u ∈ c_zombies x) then None else threads s !! u) ∧
    (∀ c, cpus s' !! c = if decide (me = c) then Some (with_zombies [] (unlocked x)) else cpus s !! c) ∧
    length (cpus s') = length (cpus s) ∧ wchans s' = wchans s ∧ locks s' = locks s ∧ acts s' = acts s).
  { intros spl -> Hspl. rewrite (splx_run s3 me x3 (spl_down (resume tn))); [| done | done | simpl; lia | done].
    eexists. split; [reflexivity |]. split_and!.
    - intros u. rewrite (at_thread_lookup s3 _ _ _ u Et3). simpl c_curthread.
      destruct (decide (c_curthread x = u)) as [<- | Hne].
      + by rewrite decide_True.
      + rewrite (decide_False (P := u = c_curthread x)) by done. rewrite Ht3.
        destruct (decide (u ∈ c_zombies x)); [done |]. by rewrite Et2, decide_False.
    - intros c. autorewrite with sched. rewrite Hc3. destruct (decide (me = c)) eqn:Ed; [done |]. by rewrite Ex2, Ed.
    - done.
    - exact Hw3.
    - exact Hk3.
    - exact Ha3. }
  destruct (t_context tn) as [| | spl] eqn:Ec; [done | |].
  - apply (Hfin 0); [done | lia].
  - apply (Hfin spl); [done | apply Hctx].
Qed.
(** What the CPU does when it looks for a thread: the head of its queue runs. *)
Definition dispatched (x : cpu) (me : nat) (s' : sched) : Prop :=
  acts s' !! me = Some (Base None) ∧ ∃ x', cpus s' !! me = Some x' ∧
    match c_runqueue x with
    | [] => c_isidle x' = true ∧ c_runqueue x' = []
    | next :: rest => c_isidle x' = false ∧ c_curthread x' = next ∧ c_runqueue x' = rest
    end.

Lemma idle_none_ok home s me x th :
  inv (Some me) home s → cpus s !! me = Some x → acts s !! me = Some (Base None) →
  threads s !! c_curthread x = Some th → c_runqueue x = [] →
  ∃ s', idle_round me s = Done tt s' ∧ inv None home s' ∧ dispatched x me s'.
Proof.
  intros I Ex Ea Et Hr. destruct (inv_act _ _ _ _ _ I Ea) as (x0 & th0 & Ex0 & Et0 & K).
  rewrite Ex in Ex0. injection Ex0 as <-. rewrite Et in Et0. injection Et0 as <-.
  rewrite bool_decide_eq_true_2 in K by done. destruct K as [H1 H2 H3 H4 H5 H6 H7 H8 H9].
  destruct (H3 eq_refl) as (_ & Hi & Hsu & Htr). rewrite Hi in H6. destruct Htr as [Htr | ?]; [| done].
  unfold idle_round, mbind, M_bind. rewrite (get_cpu_run s me x), Hr by done.
  rewrite (rq_release_run s me me x x th) by (done || lia). eexists. split; [reflexivity |].
  set (s' := at_cpu _ _ _).
  assert (Ec' : ∀ c, cpus s' !! c = if decide (me = c) then Some (unlocked x) else cpus s !! c).
  { intros c. unfold s'. autorewrite with sched. destruct (decide (me = c)) as [<- |]; [by rewrite Ex | done]. }
  split; [| split; [exact Ea | exists (unlocked x); rewrite Ec', decide_True, Hr by done; done]].
  eapply (local_step (Some me) None home s s' me x th (unlocked x) (spl_down th) (Base None) (Base None)); try done;
    try (by left); try (by right).
  - intros u. by apply (at_thread_lookup (at_cpu me spin_down s)).
  - intros c. change (acts s') with (acts s). by destruct (decide (me = c)) as [<- |].
  - unfold s'. rewrite length_at_cpu. apply (length_at_cpu s).
  - split; simpl; try done; try lia. rewrite Hi. done.
  - apply (i_lock _ _ _ I).
Qed.

Lemma spl_set_range spl t : t_curspl (spl_set spl t) = spl.
Proof. done. Qed.

Lemma idle_some_ok home s me x th next rest :
  inv (Some me) home s → cpus s !! me = Some x → acts s !! me = Some (Base None) →
  threads s !! c_curthread x = Some th → c_runqueue x = next :: rest →
  ∃ s' home', idle_round me s = Done tt s' ∧ inv None home' s' ∧ dispatched x me s'.
Proof.
  intros I Ex Ea Et Hr. destruct (inv_act _ _ _ _ _ I Ea) as (x0 & th0 & Ex0 & Et0 & K).
  rewrite Ex in Ex0. injection Ex0 as <-. rewrite Et in Et0. injection Et0 as <-.
  rewrite bool_decide_eq_true_2 in K by done. pose proof (mid_suspended _ _ _ _ K) as Hcs.
  destruct K as [H1 H2 H3 H4 H5 H6 H7 H8 H9]. destruct (H3 eq_refl) as (_ & Hi & _ & Htr).
  assert (Hh : home !! next = Some (PReady me)).
  { apply (i_placed _ _ _ I (PReady me)). simpl. rewrite Ex. simpl. rewrite Hr. set_solver. }
  destruct (inv_home _ _ _ _ _ I Hh) as (tn & En & _ & Hlt).
  destruct (next_suspended home s me x next tn) as (Hsu & Ok & _); try done; [rewrite Hr; set_solver |].
  unfold idle_round, mbind, M_bind. rewrite (get_cpu_run s me x), Hr by done.
  rewrite (upd_cpu_run s me x) by done. rewrite (upd_cpu_run _ me (with_runqueue rest x)) by (rewrite cpus_at_cpu, decide_True, Ex; done).
  rewrite (upd_cpu_run _ me (with_idle false (with_runqueue rest x))) by (rewrite !cpus_at_cpu, !decide_True, Ex; done).
  rewrite !at_cpu_cpu. set (f := with_curthread next ∘ with_idle false ∘ with_runqueue rest). set (s1 := at_cpu me f s).
  assert (Ex1 : ∀ c, cpus s1 !! c = if decide (me = c) then Some (f x) else cpus s !! c) by (intros c; by apply at_cpu_lookup).
  assert (Hz : ∀ z, z ∈ c_zombies x ↔ home !! z = Some (PZombie me)).
  { intros z. rewrite <- (proj2 (i_placed _ _ _ I (PZombie me)) z). simpl. by rewrite Ex. }
  destruct (switch_in_run s1 me (f x) tn) as (s' & E & Et' & Ec' & Hl & Hw & Hk & Ha); try done.
  { by rewrite Ex1, decide_True. }
  { simpl. lia. }
  { pose proof (proj1 (i_placed _ _ _ I (PZombie me))) as N. simpl in N. by rewrite Ex in N. }
  { intros z Hin. apply Hz in Hin. split; [simpl; congruence |].
    destruct (inv_home _ _ _ _ _ I Hin) as (zt & Ez & Okz & _). exists zt. split; [done |]. apply Okz || (destruct Okz as (_ & A & _ & B); done). }
  rewrite E. eexists s', (filter (λ kv, kv.2 ≠ PZombie me) (<[next := PRun me]> home)). split; [reflexivity |].
  simpl c_curthread in Et'. simpl c_zombies in Et'.
  set (x' := with_zombies [] (unlocked (f x))).
  assert (Ec2 : ∀ c, cpus s' !! c = if decide (me = c) then Some x' else cpus s !! c).
  { intros c. rewrite Ec', Ex1. by destruct (decide (me = c)). }
  set (tn' := spl_set (resume_spl (t_context tn)) (spl_down (resume tn))) in *.
  assert (Hnz : next ∉ c_zombies x) by (rewrite Hz; congruence).
  assert (Ex' : cpus s' !! me = Some x') by (by rewrite Ec2, decide_True).
  assert (Hhome : ∀ u, filter (λ kv, kv.2 ≠ PZombie me) (<[next := PRun me]> home) !! u =
    if decide (u = next) then Some (PRun me) else if decide (u ∈ c_zombies x) then None else home !! u).
  { intros u. destruct (decide (u = next)) as [-> | Hu].
    - apply map_lookup_filter_Some. by rewrite lookup_insert_eq.
    - destruct (decide (u ∈ c_zombies x)) as [Hin | Hin].
      + apply map_lookup_filter_None. right. intros q. rewrite lookup_insert_ne by done.
        intros Hq. apply Hz in Hin. simpl. congruence.
      + destruct (home !! u) as [q|] eqn:Eq.
        * apply map_lookup_filter_Some. rewrite lookup_insert_ne by done. split; [done |]. simpl.
          intros ->. by apply Hin, Hz.
        * apply map_lookup_filter_None. left. by rewrite lookup_insert_ne. }
  split.
  2:{ split; [by rewrite Ha |]. exists x'. by rewrite Hr. }
  pose proof (proj2 (i_placed _ _ _ I (PReady me)) next) as Hq.
  eapply (inv_step (Some me) None home _ s s' me x x' (Base None) tn'); try done; try (by left); try (by right).
  - by rewrite Ha.
  - rewrite Et'. by rewrite decide_True.
  - destruct Hsu as (S1 & S2 & S3 & S4). destruct Ok as (_ & _ & Hcpu & _). unfold x', tn'.
    split; simpl; try done; try lia.
    + split; [| done]. destruct (t_context tn); [done | simpl; lia | simpl; lia].
    + intros Htrap. destruct (t_context tn) as [| | spl]; [done | done |].
      destruct S4 as [_ [? | [-> ->]]]; done.
  - intros c _. by rewrite Ha.
  - by rewrite Ha.
  - rewrite Hl. apply (length_at_cpu s).
  - intros c y' Hne. rewrite Ec2, decide_False by done. intros Ey. by exists y'.
  - intros u. rewrite Hhome, Et'. destruct (decide (u = next)) as [-> |]; [split; by eexists |].
    destruct (decide (u ∈ c_zombies x)); [by split; intros [] |]. apply (i_dom _ _ _ I).
  - set (L1 := λ p, if decide (p = PZombie me) then c_zombies x else pl s' p).
    apply (placed_clear _ L1).
    + apply (placed_move home (pl s) L1 next (PReady me)); [apply (i_placed _ _ _ I) | done | | |]; unfold L1; simpl.
      * rewrite Ex, Ex'. simpl. by rewrite Hr.
      * rewrite Ex, Ex', Hi. done.
      * intros p N1 N2. destruct (decide (p = PZombie me)) as [-> |]; [simpl; by rewrite Ex |].
        destruct p as [c | c | w | c | c]; simpl; rewrite ?Ec2, ?Hw, ?Ha; try done;
          rewrite decide_False by congruence; done.
    + simpl. by rewrite Ex'.
    + intros p Hp. unfold L1. by rewrite decide_False.
  - intros u tu p. rewrite Hhome, Et'. destruct (decide (u = next)) as [-> |].
    + intros [= <-] [= <-]. destruct Ok as (G & _ & O2 & O3). split; [| done]. split_and!; try done. by left.
    + destruct (decide (u ∈ c_zombies x)); [done |]. apply (i_thr _ _ _ I).
  - intros u tu Hu. rewrite Et'. simpl in Hu. rewrite decide_False by done.
    destruct (decide (u ∈ c_zombies x)); [done |]. intros Eu. right. left. by exists tu.
  - intros c y th0 Hne Ey E0. exists th0. split; [| done]. rewrite Et'.
    destruct (i_cpu _ _ _ I c y Ey) as (a0 & t0 & _ & E0' & K0). rewrite E0 in E0'. injection E0' as <-.
    pose proof (ck_cpu _ _ _ _ _ K0) as Hc0. rewrite !decide_False; [done | |].
    + intros Hin. apply Hz in Hin. destruct (i_thr _ _ _ I _ _ _ E0 Hin) as [(_ & _ & Hc1 & _) _]. congruence.
    + intros Heq. rewrite Heq, En in E0. injection E0 as <-. destruct Ok as (_ & _ & Hc1 & _). congruence.
  - intros Hne th1. rewrite Et'. rewrite decide_False by (intros E0; by apply Hne).
    destruct (decide (c_curthread x ∈ c_zombies x)); [done |]. intros E0.
    change (threads s1) with (threads s) in E0. congruence.
  - intros c u tu Hne Hp. rewrite Et'. rewrite decide_False by congruence.
    destruct (decide (u ∈ c_zombies x)); [done |]. intros Eu. by exists tu.
  - intros lk c. rewrite Hk, Ha. apply (i_lock _ _ _ I).
Qed.

Lemma idle_round_ok home s me x th :
  inv (Some me) home s → cpus s !! me = Some x → acts s !! me = Some (Base None) →
  threads s !! c_curthread x = Some th →
  ∃ s' home', idle_round me s = Done tt s' ∧ inv None home' s' ∧ dispatched x me s'.
Proof.
  intros I Ex Ea Et. destruct (c_runqueue x) as [|next rest] eqn:Hr; [| by eapply idle_some_ok].
  destruct (idle_none_ok home s me x th) as (s' & ?); try done. by exists s', home.
Qed.

(** ** Leaving the current thread *)

(** The thread [cur] goes to the place [q] and the CPU enters the idle loop. *)
Lemma mid_intro home s s1 me x th x1 th1 q a :
  inv None home s → cpus s !! me = Some x → threads s !! c_curthread x = Some th →
  acts s !! me = Some a → c_isidle x = false → hand a = [] →
  (∀ u, threads s1 !! u = if decide (c_curthread x = u) then Some th1 else threads s !! u) →
  (∀ c, cpus s1 !! c = if decide (me = c) then Some x1 else cpus s !! c) →
  (∀ c, acts s1 !! c = if decide (me = c) then Some (Base None) else acts s !! c) →
  length (cpus s1) = length (cpus s) → length (acts s1) = length (acts s) →
  c_curthread x1 = c_curthread x → c_isidle x1 = true → q ≠ PRun me →
  pl s1 q ≡ₚ c_curthread x :: pl s q → (∀ r, r ≠ PRun me → r ≠ q → pl s1 r ≡ₚ pl s r) →
  thr_ok th1 q → t_cpu th1 = t_cpu th → cpu_ok true me x1 (Base None) th1 →
  (∀ lk c, locks s1 !! lk = Some c ↔ ∃ a, acts s1 !! c = Some a ∧ held a = Some lk) →
  inv (Some me) (<[c_curthread x := q]> home) s1.
Proof.
  intros I Ex Et Ea Hi Hh Et1 Ec1 Ea1 Hlc Hla Hc Hi1 Hq Hplq Hplr Ok Hcpu K Hlk.
  assert (Ex1 : cpus s1 !! me = Some x1) by (by rewrite Ec1, decide_True).
  assert (Hrun : home !! c_curthread x = Some (PRun me)).
  { apply (i_placed _ _ _ I (PRun me)). simpl. rewrite Ex, Hi. set_solver. }
  eapply (inv_step None (Some me) home _ s s1 me x x1 (Base None) th1); try done; try (by left); try (by right).
  - by rewrite Ea1, decide_True.
  - by rewrite Hc, Et1, decide_True.
  - by rewrite bool_decide_eq_true_2.
  - intros c Hne. by rewrite Ea1, decide_False.
  - intros c y' Hne. rewrite Ec1, decide_False by done. intros Ey. by exists y'.
  - intros u. rewrite Et1. destruct (decide (c_curthread x = u)) as [<- |].
    + rewrite lookup_insert_eq. split; by eexists.
    + rewrite lookup_insert_ne by done. apply (i_dom _ _ _ I).
  - apply (placed_move home (pl s) (pl s1) _ (PRun me)); try done; [apply (i_placed _ _ _ I) |].
    simpl. by rewrite Ex, Ex1, Hi, Hi1.
  - intros u tu p. rewrite Et1. destruct (decide (c_curthread x = u)) as [<- |].
    + rewrite lookup_insert_eq. intros [= <-] [= <-]. split; [done |]. rewrite Hcpu. by eapply (i_thr _ _ _ I).
    + rewrite lookup_insert_ne by done. apply (i_thr _ _ _ I).
  - intros u tu Hu. rewrite Et1. destruct (decide (c_curthread x = u)); [by left |]. intros Eu. right. left. by exists tu.
  - intros c y th0 Hne Ey E0. exists th0. split; [| done]. rewrite Et1, decide_False; [done |].
    intros E. by apply Hne, (cur_inj _ _ _ c me y x I).
  - intros c u tu Hne Hp. rewrite Et1, decide_False by congruence. intros Eu. by exists tu.
Qed.

Definition outgoing (ns : threadstate) (spl : Z) (name : option string) (n : Z) (th : thread) : thread :=
  with_context (InSwitch spl) (with_state ns (with_wchan_name name (with_spl 1 n th))).

Lemma checkstack_run s t th :
  threads s !! t = Some th → guard_ok th → thread_checkstack t s = Done tt s.
Proof.
  intros E G. unfold thread_checkstack, mbind, M_bind. rewrite (get_thread_run s t th) by done.
  destruct (Z.eqb_spec (t_stack th) 0); [done |]. by rewrite kassert_ok by (by apply bool_decide_eq_true_2, G).
Qed.

(** [thread_switch] up to the choice of what to do with the current thread. *)
Definition locked (me : nat) (x : cpu) : cpu := with_rqlock (Some me) (spin_up x).
Definition raised (th : thread) : thread := spl_up (spl_set 1 th).
Definition entered (me : nat) (x : cpu) (s : sched) : sched :=
  at_cpu me (locked me) (at_thread (c_curthread x) raised s).

Lemma thread_switch_enter s me x th ns wc lk :
  cpus s !! me = Some x → threads s !! c_curthread x = Some th → c_isidle x = false → guard_ok th →
  c_runqueue_lock x = None → 0 <= t_curspl th <= 1 → (ns = S_READY → c_runqueue x ≠ []) →
  thread_switch me ns wc lk s =
  (switch_place me (c_curthread x) ns wc lk ;;
   upd_thread (c_curthread x) (with_state ns) ;;
   upd_cpu me (with_idle true) ;;
   upd_thread (c_curthread x) (with_context (InSwitch (t_curspl th))) ;;
   idle_round me) (entered me x s).
Proof.
  intros Ex Et Hi G Hl Hs Hne. unfold thread_switch, splhigh. unfold mbind at 1, M_bind at 1.
  rewrite (splx_run s me x th) by (done || (unfold IPL_HIGH; lia)).
  change IPL_HIGH with 1. set (s1 := at_thread _ _ s). unfold mbind at 1, M_bind at 1.
  rewrite (get_cpu_run s1 me x) by done. rewrite Hi. unfold mbind at 1, M_bind at 1.
  assert (Et1 : threads s1 !! c_curthread x = Some (spl_set 1 th)) by (unfold s1; by rewrite threads_at_thread, decide_True, Et).
  rewrite (checkstack_run s1 _ (spl_set 1 th)) by done. unfold mbind at 1, M_bind at 1.
  rewrite (rq_acquire_run s1 me me x x (spl_set 1 th)) by done.
  assert (bool_decide (ns = S_READY) && bool_decide (c_runqueue x = []) = false) as ->.
  { case_bool_decide; [| done]. simpl. apply bool_decide_eq_false_2. by apply Hne. }
  unfold entered, s1. rewrite at_cpu_cpu.
  by rewrite at_thread_thread.
Qed.
Lemma entered_cpu s me x : cpus s !! me = Some x → cpus (entered me x s) !! me = Some (locked me x).
Proof. intros Ex. unfold entered. autorewrite with sched. by rewrite decide_True, Ex. Qed.
Lemma entered_thread s me x th :
  threads s !! c_curthread x = Some th → threads (entered me x s) !! c_curthread x = Some (raised th).
Proof. intros Et. unfold entered. autorewrite with sched. by rewrite decide_True, Et. Qed.

(** The end of the way out, common to all. *)
Lemma switch_tail s me x y ns spl :
  cpus s !! me = Some x → threads s !! c_curthread x = Some y →
  (upd_thread (c_curthread x) (with_state ns) ;;
   upd_cpu me (with_idle true) ;;
   upd_thread (c_curthread x) (with_context (InSwitch spl)) ;;
   idle_round me) s =
  idle_round me (at_cpu me (with_idle true)
    (at_thread (c_curthread x) (with_context (InSwitch spl) ∘ with_state ns) s)).
Proof.
  intros Ex Ey. unfold mbind, M_bind. rewrite (upd_thread_run s _ y) by done.
  rewrite (upd_cpu_run _ me x) by done.
  rewrite (upd_thread_run _ _ (with_state ns y)) by (autorewrite with sched; by rewrite decide_True, Ey).
  by rewrite <- at_thread_thread.
Qed.

Lemma yield_switch s me x th :
  cpus s !! me = Some x → threads s !! c_curthread x = Some th → c_isidle x = false → guard_ok th →
  c_runqueue_lock x = None → 0 <= t_curspl th <= 1 → c_runqueue x ≠ [] → t_cpu th = me →
  ∃ s1, thread_yield me s = idle_round me s1 ∧
    (∀ u, threads s1 !! u = if decide (c_curthread x = u)
       then Some (with_context (InSwitch (t_curspl th)) (with_state S_READY (raised th))) else threads s !! u) ∧
    (∀ c, cpus s1 !! c = if decide (me = c)
       then Some (with_idle true (with_runqueue (c_runqueue x ++ [c_curthread x]) (locked me x))) else cpus s !! c) ∧
    length (cpus s1) = length (cpus s) ∧ wchans s1 = wchans s ∧ locks s1 = locks s ∧ acts s1 = acts s.
Proof.
  intros Ex Et Hi G Hl Hs Hr Hc. unfold thread_yield.
  rewrite (thread_switch_enter s me x th) by done. set (cur := c_curthread x). set (s0 := entered me x s).
  pose proof (entered_cpu s me x Ex) as Ex0. pose proof (entered_thread s me x th Et) as Et0. fold s0 in Ex0, Et0. fold cur in Et0.
  unfold mbind at 1, M_bind at 1. unfold switch_place, thread_make_runnable. unfold mbind, M_bind.
  rewrite (get_thread_run s0 cur (raised th)) by done. change (t_cpu (raised th)) with (t_cpu th). rewrite Hc.
  rewrite (get_cpu_run s0 me (locked me x)), kassert_ok by (done || (by apply bool_decide_eq_true_2)).
  rewrite (upd_thread_run s0 cur (raised th)) by done. set (s1 := at_thread cur _ s0).
  rewrite (upd_cpu_run s1 me (locked me x)) by done. set (s2 := at_cpu me _ s1).
  set (x2 := with_runqueue (c_runqueue x ++ [cur]) (locked me x)).
  assert (Ex2 : cpus s2 !! me = Some x2) by (unfold s2, s1; autorewrite with sched; by rewrite decide_True, Ex0).
  rewrite (get_cpu_run s2 me x2) by done. change (c_isidle x2) with (c_isidle x). rewrite Hi.
  cbv [mret M_ret]. cbn [andb]. cbv beta iota.
  pose proof (switch_tail s2 me x2 (with_state S_READY (raised th)) S_READY (t_curspl th) Ex2) as T.
  unfold mbind, M_bind in T. change (c_curthread x2) with cur in T. rewrite T; clear T.
  2:{ unfold s2, s1. autorewrite with sched. by rewrite decide_True, Et0. }
  eexists. split; [reflexivity |]. split_and!; try done.
  - intros u. unfold s2, s1, s0, entered. autorewrite with sched. fold cur. destruct (decide (cur = u)) as [<- |]; [| done].
    unfold cur. rewrite Et. done.
  - intros c. unfold s2, s1, s0, entered. autorewrite with sched. destruct (decide (me = c)) as [<- |]; [| done]. by rewrite Ex.
  - unfold s2, s1, s0, entered. simpl. by rewrite !length_alter.
Qed.
(** The CPU and the thread in the idle loop, after any of the ways out. *)
Lemma leaving_ok ns spl me x x1 a th th1 :
  cpu_ok false me x a th → c_isidle x = false →
  c_curthread x1 = c_curthread x → c_isidle x1 = true → c_runqueue_lock x1 = Some me → c_spinlocks x1 = 1 →
  (t_trap th = None ∨ c_runqueue x1 ≠ []) →
  t_cpu th1 = t_cpu th → t_curspl th1 = 1 → t_iplhigh_count th1 = 2 →
  t_in_interrupt th1 = t_in_interrupt th → t_trap th1 = t_trap th → t_context th1 = InSwitch spl →
  0 <= spl <= 1 → (t_trap th ≠ None → spl = 1) →
  t_state th1 = ns → cpu_ok true me x1 (Base None) th1.
Proof.
  intros [H1 H2 H3 H4 H5 H6 H7 H8 H9] Hi Hc Hi1 Hl Hk Hr F1 F2 F3 F4 F5 F6 F7 F8 F9. rewrite Hi in H6.
  assert (Hs : suspended th1).
  { unfold suspended. rewrite F2, F3, F4, F5, F6. split_and!; try done; try lia.
    destruct (t_trap th) as [tf|] eqn:Et; [right | by left].
    destruct (H8 eq_refl ltac:(done)) as [H8a H8b]. rewrite Hi in H8b. split; [done |]. by apply F8. }
  split; rewrite ?F1, ?F2, ?F3, ?F4, ?F5, ?F6, ?Hi1, ?Hk; try done. split; [done |]. by eexists.
Qed.

(** *** [thread_yield] *)

Definition yielded (x : cpu) (me : nat) (s s' : sched) : Prop :=
  (c_isidle x = true ∨ c_runqueue x = []) ∧ s' = s ∨
  c_isidle x = false ∧ acts s' !! me = Some (Base None) ∧
    ∃ x', cpus s' !! me = Some x' ∧ c_isidle x' = false ∧
      c_curthread x' :: c_runqueue x' = c_runqueue x ++ [c_curthread x].

Lemma yield_same s me x th :
  cpus s !! me = Some x → threads s !! c_curthread x = Some th → guard_ok th →
  c_runqueue_lock x = None → 0 <= c_spinlocks x → 0 <= t_curspl th <= 1 →
  c_isidle x = true ∨ c_runqueue x = [] → thread_yield me s = Done tt s.
Proof.
  intros Ex Et G Hl Hk Hs Hor. unfold thread_yield, thread_switch, splhigh, mbind, M_bind.
  rewrite (splx_run s me x th) by (done || (unfold IPL_HIGH; lia)). change IPL_HIGH with 1.
  set (s1 := at_thread _ _ s). rewrite (get_cpu_run s1 me x) by done.
  assert (Et1 : threads s1 !! c_curthread x = Some (spl_set 1 th)) by (unfold s1; by rewrite threads_at_thread, decide_True, Et).
  assert (Hid : ∀ t, threads t !! c_curthread x = Some th → at_thread (c_curthread x) (spl_set (t_curspl th) ∘ spl_set 1) t = t).
  { intros t E. apply (at_thread_id t _ th); [done |]. destruct th; unfold compose, spl_set, with_spl; simpl. f_equal. lia. }
  assert (Hsx : ∀ t, cpus t !! me = Some x → threads t !! c_curthread x = Some (spl_set 1 th) →
    splx me (t_curspl th) t = Done 1 (at_thread (c_curthread x) (spl_set (t_curspl th)) t)).
  { intros t E1 E2. rewrite (splx_run t me x (spl_set 1 th)); [done | done | done | simpl; lia | done]. }
  destruct (c_isidle x) eqn:Hi.
  - rewrite (Hsx s1) by done. unfold s1. by rewrite at_thread_thread, Hid.
  - destruct Hor as [? | Hr]; [done |]. rewrite (checkstack_run s1 _ (spl_set 1 th)) by done.
    rewrite (rq_acquire_run s1 me me x x (spl_set 1 th)) by done.
    rewrite bool_decide_eq_true_2, Hr, bool_decide_eq_true_2 by done. cbn [andb].
    rewrite at_cpu_cpu. set (s2 := at_cpu me _ _).
    assert (Ex2 : cpus s2 !! me = Some (locked me x)) by (unfold s2, s1; autorewrite with sched; by rewrite decide_True, Ex).
    assert (Et2 : threads s2 !! c_curthread x = Some (raised th)).
    { unfold s2, s1. autorewrite with sched.
      by rewrite !decide_True, Et. }
    rewrite (rq_release_run s2 me me (locked me x) (locked me x) (raised th)); try done; [| simpl; lia].
    set (s3 := at_cpu me _ _).
    assert (s3 = s1) as ->.
    { apply sched_ext; try done.
      - intros u. unfold s3, s2, s1. autorewrite with sched. simpl c_curthread.
        destruct (decide (c_curthread x = u)) as [<- |]; [| done]. rewrite Et. simpl. f_equal.
        destruct th; unfold spl_down, spl_up, spl_set, with_spl; simpl. f_equal. lia.
      - intros c. unfold s3, s2, s1. autorewrite with sched. destruct (decide (me = c)) as [<- |]; [| done].
        rewrite Ex. simpl. f_equal. destruct x. simpl in Hl. subst.
        unfold spin_down, spin_up, with_rqlock, with_spinlocks. simpl. f_equal. lia. }
    rewrite (Hsx s1) by done. unfold s1. by rewrite at_thread_thread, Hid.
Qed.

Lemma yield_ok home s me x th :
  inv None home s → cpus s !! me = Some x → acts s !! me = Some (Base None) →
  threads s !! c_curthread x = Some th →
  ∃ s' home', thread_yield me s = Done tt s' ∧ inv None home' s' ∧ yielded x me s s'.
Proof.
  intros I Ex Ea Et. destruct (inv_act _ _ _ _ _ I Ea) as (x0 & th0 & Ex0 & Et0 & K).
  rewrite Ex in Ex0. injection Ex0 as <-. rewrite Et in Et0. injection Et0 as <-. simpl in K.
  assert (Hspl : 0 <= t_curspl th <= 1).
  { pose proof (ck_spl _ _ _ _ _ K) as H. destruct (c_isidle x); [lia | apply H]. }
  assert (G : guard_ok th).
  { destruct (proj2 (i_dom _ _ _ I (c_curthread x))) as (p & Hp); [by eexists |].
    destruct (i_thr _ _ _ I _ _ _ Et Hp) as [(G & _) _]. exact G. }
  assert (Hor : (c_isidle x = true ∨ c_runqueue x = []) ∨ (c_isidle x = false ∧ c_runqueue x ≠ [])).
  { destruct (c_isidle x); [by left; left |]. destruct (c_runqueue x); [by left; right | by right]. }
  destruct Hor as [Hor | [Hi Hr]].
  { exists s, home. split; [| split; [done | by left]].
    eapply yield_same; try done; [by eapply inv_rqlock | by eapply spinlocks_nonneg]. }
  pose proof K as K0. destruct K as [H1 H2 H3 H4 H5 H6 H7 H8 H9]. rewrite Hi in H6. simpl in H4.
  destruct (yield_switch s me x th) as (s1 & E & Et1 & Ec1 & Hl & Hw & Hk & Ha); try done.
  set (x1 := with_idle true _) in Ec1. set (th1 := with_context _ _) in Et1.
  assert (Hrun : home !! c_curthread x = Some (PRun me)).
  { apply (i_placed _ _ _ I (PRun me)). simpl. rewrite Ex, Hi. set_solver. }
  destruct (i_thr _ _ _ I _ _ _ Et Hrun) as [(_ & _ & _ & Hproc) _].
  assert (Ex1 : cpus s1 !! me = Some x1) by (by rewrite Ec1, decide_True).
  assert (Hc : raised th = with_spl 1 2 th).
  { destruct th; unfold raised, spl_up, spl_set, with_spl in *; simpl in *. f_equal. lia. }
  assert (I1 : inv (Some me) (<[c_curthread x := PReady me]> home) s1).
  { eapply (mid_intro home s s1 me x th x1 th1 (PReady me) (Base None)); try done; rewrite ?Ha, ?Hk; try done.
    - intros c. by destruct (decide (me = c)) as [<- |].
    - simpl. rewrite Ex, Ex1. simpl. by rewrite <- Permutation_cons_append.
    - intros q N1 N2. destruct q as [c | c | w | c | c]; simpl; rewrite ?Hw, ?Ha, ?Ec1; try done;
        try (rewrite decide_False by congruence; done).
      destruct (decide (me = c)) as [<- |]; [by rewrite Ex | done].
    - eapply (leaving_ok S_READY (t_curspl th) me x x1 _ th th1 K0); unfold th1; rewrite ?Hc; try done; [simpl; lia | |].
      + right. simpl. by destruct (c_runqueue x).
      + intros Htr. by apply H8.
    - apply (i_lock _ _ _ I). }
  destruct (idle_round_ok _ s1 me x1 th1 I1 Ex1) as (s' & home' & E' & I' & D); [by rewrite Ha | by rewrite Et1, decide_True |].
  exists s', home'. rewrite E. split_and!; try done. right. split; [done |].
  destruct D as (Ha' & x' & Ex' & D). split; [exact Ha' |]. exists x'. split; [done |]. change (c_runqueue x1) with (c_runqueue x ++ [c_curthread x]) in D.
  destruct (c_runqueue x ++ [c_curthread x]) eqn:Erq; [by apply app_eq_nil in Erq as [_ ?] |].
  destruct D as (D1 & D2 & D3). by rewrite D1, D2, D3.
Qed.
(** *** [thread_exit] *)

Lemma exit_switch s me x th :
  cpus s !! me = Some x → threads s !! c_curthread x = Some th → c_isidle x = false → guard_ok th →
  c_runqueue_lock x = None → 0 <= t_curspl th <= 1 → t_proc th ≠ 0 →
  ∃ s1, thread_exit me s = idle_round me s1 ∧
    (∀ u, threads s1 !! u = if decide (c_curthread x = u)
       then Some (with_context (InSwitch 1) (with_state S_ZOMBIE (with_wchan_name (Some "ZOMBIE")
              (raised (spl_set 1 (with_proc 0 th)))))) else threads s !! u) ∧
    (∀ c, cpus s1 !! c = if decide (me = c)
       then Some (with_idle true (with_zombies (c_zombies x ++ [c_curthread x]) (locked me x))) else cpus s !! c) ∧
    length (cpus s1) = length (cpus s) ∧ wchans s1 = wchans s ∧ locks s1 = locks s ∧ acts s1 = acts s.
Proof.
  intros Ex Et Hi G Hl Hs Hp. set (cur := c_curthread x). unfold thread_exit, proc_remthread, mbind, M_bind.
  rewrite (curthread_run s me x) by done. fold cur. fold cur in Et. rewrite (get_thread_run s cur th) by done.
  rewrite kassert_ok by (by apply negb_true_iff, Z.eqb_neq). rewrite (upd_thread_run s cur th) by done.
  set (s0 := at_thread cur _ s).
  assert (Et0 : threads s0 !! cur = Some (with_proc 0 th)) by (unfold s0; by rewrite threads_at_thread, decide_True, Et).
  rewrite (get_thread_run s0 cur _ Et0), kassert_ok, (checkstack_run s0 cur _ Et0) by done.
  unfold splhigh. rewrite (splx_run s0 me x _ _ Ex Et0) by (simpl; unfold IPL_HIGH; lia).
  fold cur. change IPL_HIGH with 1. unfold s0. rewrite at_thread_thread. set (s1 := at_thread cur _ s).
  set (th1 := spl_set 1 (with_proc 0 th)).
  assert (Et1 : threads s1 !! cur = Some th1) by (unfold s1; by rewrite threads_at_thread, decide_True, Et).
  rewrite (thread_switch_enter s1 me x th1); try done. fold cur.
  set (s2 := entered me x s1).
  pose proof (entered_cpu s1 me x Ex) as Ex2. pose proof (entered_thread s1 me x th1 Et1) as Et2.
  fold s2 in Ex2, Et2. fold cur in Et2. unfold switch_place, mbind, M_bind.
  rewrite (upd_thread_run s2 cur _ _ Et2). rewrite (upd_cpu_run _ me (locked me x)) by done.
  set (s3 := at_cpu me _ _). set (x3 := with_zombies (c_zombies x ++ [cur]) (locked me x)).
  assert (Ex3 : cpus s3 !! me = Some x3) by (unfold s3; autorewrite with sched; by rewrite decide_True, Ex2).
  assert (Et3 : threads s3 !! cur = Some (with_wchan_name (Some "ZOMBIE") (raised th1))).
  { unfold s3. autorewrite with sched. by rewrite decide_True, Et2. }
  pose proof (switch_tail s3 me x3 _ S_ZOMBIE (t_curspl th1) Ex3 Et3) as T.
  unfold mbind, M_bind in T. change (c_curthread x3) with cur in T. rewrite T; clear T.
  eexists. split; [reflexivity |]. split_and!; try done.
  - intros u. unfold s3, s2, s1, entered. autorewrite with sched. fold cur.
    destruct (decide (cur = u)) as [<- |]; [| done]. rewrite Et. done.
  - intros c. unfold s3, s2, s1, entered. autorewrite with sched. destruct (decide (me = c)) as [<- |]; [| done]. by rewrite Ex.
  - unfold s3, s2, s1, entered. simpl. by rewrite !length_alter.
Qed.

Lemma exit_ok home s me x th :
  inv None home s → cpus s !! me = Some x → acts s !! me = Some (Base None) →
  threads s !! c_curthread x = Some th → c_isidle x = false → t_trap th = None →
  ∃ s' home', run_op me OExit s = Done tt s' ∧ inv None home' s'.
Proof.
  intros I Ex Ea Et Hi Htr. destruct (inv_act _ _ _ _ _ I Ea) as (x0 & th0 & Ex0 & Et0 & K).
  rewrite Ex in Ex0. injection Ex0 as <-. rewrite Et in Et0. injection Et0 as <-. simpl in K.
  assert (Hrun : home !! c_curthread x = Some (PRun me)).
  { apply (i_placed _ _ _ I (PRun me)). simpl. rewrite Ex, Hi. set_solver. }
  destruct (i_thr _ _ _ I _ _ _ Et Hrun) as [(G & _ & Hcpu & Hproc) _].
  pose proof K as K0. destruct K as [H1 H2 H3 H4 H5 H6 H7 H8 H9]. rewrite Hi in H6. simpl in H4.
  destruct (exit_switch s me x th) as (s1 & E & Et1 & Ec1 & Hl & Hw & Hk & Ha); try done; [apply H6 |].
  set (x1 := with_idle true _) in Ec1. set (th1 := with_context _ _) in Et1.
  assert (Ex1 : cpus s1 !! me = Some x1) by (by rewrite Ec1, decide_True).
  assert (I1 : inv (Some me) (<[c_curthread x := PZombie me]> home) s1).
  { eapply (mid_intro home s s1 me x th x1 th1 (PZombie me) (Base None)); try done; rewrite ?Ha, ?Hk; try done.
    - intros c. by destruct (decide (me = c)) as [<- |].
    - simpl. rewrite Ex, Ex1. simpl. by rewrite <- Permutation_cons_append.
    - intros q N1 N2. destruct q as [c | c | w | c | c]; simpl; rewrite ?Hw, ?Ha, ?Ec1; try done;
        try (rewrite decide_False by congruence; done).
      destruct (decide (me = c)) as [<- |]; [by rewrite Ex | done].
    - eapply (leaving_ok S_ZOMBIE 1 me x x1 _ th th1 K0); try done; try (simpl; lia). by left.
    - apply (i_lock _ _ _ I). }
  destruct (idle_round_ok _ s1 me x1 th1 I1 Ex1) as (s' & home' & E' & I' & _); [by rewrite Ha | by rewrite Et1, decide_True |].
  exists s', home'. split; [| done]. unfold run_op, mbind, M_bind, deref. rewrite Ea. by rewrite E.
Qed.
(** *** [wchan_sleep] *)

Lemma sleep_switch s me x th wc w lk a :
  cpus s !! me = Some x → threads s !! c_curthread x = Some th → c_isidle x = false → guard_ok th →
  c_runqueue_lock x = None → 0 <= t_curspl th <= 1 → wchans s !! wc = Some w →
  locks s !! lk = Some me → acts s !! me = Some a → c_spinlocks x = 1 → t_in_interrupt th = false →
  ∃ s1, wchan_sleep me wc lk s = idle_round me s1 ∧
    (∀ u, threads s1 !! u = if decide (c_curthread x = u)
       then Some (with_context (InSwitch (t_curspl th)) (with_state S_SLEEP
              (spl_down (with_wchan_name (Some (wc_name w)) (raised th))))) else threads s !! u) ∧
    (∀ c, cpus s1 !! c = if decide (me = c)
       then Some (with_idle true (spin_down (locked me x))) else cpus s !! c) ∧
    length (cpus s1) = length (cpus s) ∧
    wchans s1 = <[wc := mkWchan (wc_name w) (wc_threads w ++ [c_curthread x])]> (wchans s) ∧
    locks s1 = delete lk (locks s) ∧ acts s1 = <[me := Base None]> (acts s).
Proof.
  intros Ex Et Hi G Hl Hs Ew El Ea Hk Hint. set (cur := c_curthread x).
  unfold wchan_sleep, lk_do_i_hold, lock_holder, gets, mbind, M_bind.
  rewrite (curthread_run s me x), (get_thread_run s _ th) by done. rewrite Hint, kassert_ok by done.
  rewrite El. cbv [mret M_ret]. cbv beta iota. rewrite bool_decide_eq_true_2, kassert_ok by done.
  rewrite (get_cpu_run s me x), Hk, kassert_ok by done. unfold set_act, modify. set (s0 := with_acts _ s).
  rewrite (thread_switch_enter s0 me x th) by done. set (s2 := entered me x s0).
  pose proof (entered_cpu s0 me x Ex) as Ex2. pose proof (entered_thread s0 me x th Et) as Et2.
  fold s2 in Ex2, Et2. fold cur in Et2 |- *. unfold switch_place, mbind, M_bind, get_wchan, deref.
  change (wchans s2) with (wchans s). rewrite Ew. rewrite (upd_thread_run s2 cur _ _ Et2).
  unfold set_wchan, modify. set (s3 := with_wchans _ _).
  assert (Et3 : threads s3 !! cur = Some (with_wchan_name (Some (wc_name w)) (raised th))).
  { unfold s3. change (threads (at_thread cur (with_wchan_name (Some (wc_name w))) s2) !! cur = Some (with_wchan_name (Some (wc_name w)) (raised th))).
    by rewrite threads_at_thread, decide_True, Et2. }
  unfold lk_release, lock_holder, gets, mbind, M_bind. change (locks s3) with (locks s). rewrite El.
  rewrite (release_run s3 me (locked me x) _ Ex2 Et3) by (simpl; lia). change (c_curthread (locked me x)) with cur.
  unfold modify. set (s4 := with_locks _ _).
  assert (Ex4 : cpus s4 !! me = Some (spin_down (locked me x))).
  { change (cpus (at_cpu me spin_down s3) !! me = Some (spin_down (locked me x))).
    rewrite cpus_at_cpu, decide_True by done. change (cpus s3) with (cpus s2). by rewrite Ex2. }
  assert (Et4 : threads s4 !! cur = Some (spl_down (with_wchan_name (Some (wc_name w)) (raised th)))).
  { change (threads (at_thread cur spl_down s3) !! cur = Some (spl_down (with_wchan_name (Some (wc_name w)) (raised th)))).
    by rewrite threads_at_thread, decide_True, Et3. }
  pose proof (switch_tail s4 me _ _ S_SLEEP (t_curspl th) Ex4 Et4) as T.
  unfold mbind, M_bind in T. change (c_curthread (spin_down (locked me x))) with cur in T. rewrite T; clear T.
  eexists. split; [reflexivity |]. split_and!; try done.
  - intros u. autorewrite with sched. destruct (decide (cur = u)) as [<- | Hu]; [by rewrite Et4 |].
    change (threads s4) with (alter spl_down cur (alter (with_wchan_name (Some (wc_name w))) cur (alter raised cur (threads s)))).
    by rewrite !lookup_alter_ne.
  - intros c. autorewrite with sched. destruct (decide (me = c)) as [<- | Hc]; [by rewrite Ex4 |].
    change (cpus s4) with (alter spin_down me (alter (locked me) me (cpus s))). by rewrite !list_lookup_alter_ne.
  - simpl. by rewrite !length_alter.
Qed.

Lemma sleep_ok home s me x th wc lk :
  inv None home s → cpus s !! me = Some x → acts s !! me = Some (Base (Some lk)) →
  threads s !! c_curthread x = Some th → c_isidle x = false → t_trap th = None → is_Some (wchans s !! wc) →
  ∃ s' home', run_op me (OSleep wc lk) s = Done tt s' ∧ inv None home' s'.
Proof.
  intros I Ex Ea Et Hi Htr (w & Ew). destruct (inv_act _ _ _ _ _ I Ea) as (x0 & th0 & Ex0 & Et0 & K).
  rewrite Ex in Ex0. injection Ex0 as <-. rewrite Et in Et0. injection Et0 as <-. simpl in K.
  assert (Hrun : home !! c_curthread x = Some (PRun me)).
  { apply (i_placed _ _ _ I (PRun me)). simpl. rewrite Ex, Hi. set_solver. }
  destruct (i_thr _ _ _ I _ _ _ Et Hrun) as [(G & _ & Hcpu & Hproc) _].
  assert (El : locks s !! lk = Some me) by (apply (i_lock _ _ _ I); by eexists).
  pose proof K as K0. destruct K as [H1 H2 H3 H4 H5 H6 H7 H8 H9]. rewrite Hi in H6. simpl in H4.
  rewrite Htr in H7. simpl in H7.
  destruct (sleep_switch s me x th wc w lk (Base (Some lk))) as (s1 & E & Et1 & Ec1 & Hl & Hw & Hk & Ha);
    try done; [apply H6 |].
  set (x1 := with_idle true _) in Ec1. set (th1 := with_context _ _) in Et1.
  assert (Ex1 : cpus s1 !! me = Some x1) by (by rewrite Ec1, decide_True).
  assert (Ea1 : ∀ c, acts s1 !! c = if decide (me = c) then Some (Base None) else acts s !! c)
    by (intros c; rewrite Ha; apply (acts_put_act s me _ _ c Ea)).
  assert (I1 : inv (Some me) (<[c_curthread x := PSleep wc]> home) s1).
  { eapply (mid_intro home s s1 me x th x1 th1 (PSleep wc) (Base (Some lk))); try done.
    - rewrite Ha. apply length_insert.
    - simpl. rewrite Hw, lookup_insert_eq, Ew. simpl. by rewrite <- Permutation_cons_append.
    - intros q N1 N2. destruct q as [c | c | v | c | c]; simpl; rewrite ?Ea1, ?Ec1; try done.
      + rewrite decide_False by congruence. done.
      + destruct (decide (me = c)) as [<- |]; [by rewrite Ex | done].
      + rewrite Hw, lookup_insert_ne by congruence. done.
      + destruct (decide (me = c)) as [<- |]; [by rewrite Ex | done].
      + destruct (decide (me = c)) as [<- |]; [by rewrite Ea | done].
    - eapply (leaving_ok S_SLEEP (t_curspl th) me x x1 _ th th1 K0); try done; try (simpl; lia); try apply H6. by left.
    - intros lk' c. rewrite Hk, Ea1. destruct (decide (lk' = lk)) as [-> | Hne].
      + rewrite lookup_delete_eq. destruct (decide (me = c)) as [<- | Hc]; [split; [done | by intros (b & [= <-] & ?)] |].
        split; [done |]. intros H. apply (i_lock _ _ _ I) in H. congruence.
      + rewrite lookup_delete_ne by done. rewrite (i_lock _ _ _ I). destruct (decide (me = c)) as [<- | Hc]; [| done].
        rewrite Ea. split; intros (b & [= <-] & Hb); simpl in Hb; congruence. }
  destruct (idle_round_ok _ s1 me x1 th1 I1 Ex1) as (s' & home' & E' & I' & _);
    [by rewrite Ea1, decide_True | by rewrite Et1, decide_True |].
  exists s', home'. split; [| done]. unfold run_op, mbind, M_bind, deref. rewrite Ea. by rewrite E.
Qed.

(** *** The idle CPU looks again *)

Lemma idle_loop_ok home s me x th :
  inv None home s → cpus s !! me = Some x → acts s !! me = Some (Base None) →
  threads s !! c_curthread x = Some th → c_isidle x = true → t_trap th = None →
  ∃ s' home', idle_loop me s = Done tt s' ∧ inv None home' s' ∧ dispatched x me s'.
Proof.
  intros I Ex Ea Et Hi Htr. destruct (inv_act _ _ _ _ _ I Ea) as (x0 & th0 & Ex0 & Et0 & K).
  rewrite Ex in Ex0. injection Ex0 as <-. rewrite Et in Et0. injection Et0 as <-. simpl in K.
  destruct K as [H1 H2 H3 H4 H5 H6 H7 H8 H9]. rewrite Hi in H6. simpl in H4.
  unfold idle_loop, mbind, M_bind. rewrite (rq_acquire_run s me me x x th) by done. rewrite at_cpu_cpu.
  set (s1 := at_cpu me _ _). set (x1 := locked me x).
  assert (Ec1 : ∀ c, cpus s1 !! c = if decide (me = c) then Some x1 else cpus s !! c).
  { intros c. unfold s1. autorewrite with sched. destruct (decide (me = c)) as [<- |]; [by rewrite Ex | done]. }
  assert (Et1 : ∀ u, threads s1 !! u = if decide (c_curthread x = u) then Some (spl_up th) else threads s !! u)
    by (intros u; by apply at_thread_lookup).
  assert (I1 : inv (Some me) home s1).
  { eapply (local_step None (Some me) home s s1 me x th x1 (spl_up th) (Base None) (Base None)); try done;
      try (by left); try (by right).
    - intros c. change (acts s1) with (acts s). by destruct (decide (me = c)) as [<- |].
    - unfold s1. simpl. by rewrite !length_alter.
    - rewrite bool_decide_eq_true_2 by done. destruct H6 as (H6 & spl & Hc & Hsp).
      assert (Hs : suspended (spl_up th)).
      { unfold suspended. simpl. rewrite Hc, H7, Htr. split_and!; try done; try lia; by left. }
      split; simpl; try done; try lia.
      + intros _. split_and!; try done. by left.
      + rewrite Hi. split; [done |]. by eexists.
    - apply (i_lock _ _ _ I). }
  destruct (idle_round_ok home s1 me x1 (spl_up th) I1) as (s' & home' & E & I' & D); try done.
  - by rewrite Ec1, decide_True.
  - change (c_curthread x1) with (c_curthread x). by rewrite Et1, decide_True.
  - by exists s', home'.
Qed.

(** The end of [hardclock]. *)
Lemma hardclock_end_ok home s me x th :
  inv None home s → cpus s !! me = Some x → acts s !! me = Some Tick →
  threads s !! c_curthread x = Some th →
  ∃ s' home', hardclock_end me s = Done tt s' ∧ inv None home' s'.
Proof.
  intros I Ex Ea Et. destruct (inv_act _ _ _ _ _ I Ea) as (x0 & th0 & Ex0 & Et0 & K).
  rewrite Ex in Ex0. injection Ex0 as <-. rewrite Et in Et0. injection Et0 as <-. simpl in K.
  unfold hardclock_end, mbind, M_bind, set_act, modify, schedule. fold (put_act me (Base None) s).
  rewrite (get_cpu_run (put_act me (Base None) s) me x) by done. cbv beta iota.
  assert (∀ b : bool, (if b then mret tt else mret tt : T unit) (put_act me (Base None) s) = Done tt (put_act me (Base None) s))
    as -> by (by intros []).
  destruct (yield_ok home (put_act me (Base None) s) me x th) as (s' & home' & E & I' & _); try done.
  - eapply (local_step' home s _ me x th id id Tick (Base None)); try done.
    + by rewrite at_cpu_idf, (at_thread_id s _ th).
    + destruct K as [H1 H2 H3 H4 H5 H6 H7 H8 H9]. by split.
  - rewrite (acts_put_act s me _ _ me Ea). by rewrite decide_True.
  - by exists s', home'.
Qed.
End switch.
End ThreadSwitch.
