(* ===== verification/ThreadMigrate.v ===== *)
(** * Migration preserves the scheduler's invariant; every step does *)

From stdpp Require Import base list gmap numbers strings.
From Stdlib Require Import ZArith Lia.
From S2P Require Import Prelude Thread ThreadInv ThreadOps ThreadSwitch.
Import Thread ThreadInv ThreadOps ThreadSwitch.

#[local] Open Scope Z_scope.

Module ThreadMigrate.

(** The victims are the end of the queue, in order. *)
Lemma grab_spec n : ∀ rq v, (n <= length rq)%nat →
  grab n rq v = Some (take (length rq - n) rq, drop (length rq - n) rq ++ v).
Proof.
  induction n as [|n IH]; intros rq v Hn; cbn [grab].
  { by rewrite Nat.sub_0_r, take_ge, drop_ge by lia. }
  destruct rq as [|t0 rq0 _] using rev_ind; [simpl in Hn; lia |]. rewrite last_snoc.
  rewrite length_app in *. simpl length in *. replace (length rq0 + 1 - 1)%nat with (length rq0) by lia.
  rewrite take_app_length, IH by lia. replace (length rq0 + 1 - S n)%nat with (length rq0 - n)%nat by lia.
  rewrite take_app_le, drop_app_le by lia. by rewrite <- app_assoc.
Qed.

Section migrate.
Implicit Types s : sched.

(** *** A critical section on the queue of CPU [c] *)

Definition held_cpu (me : nat) (d : nat) (z : cpu) : cpu := if decide (me = d) then spin_up z else z.

Lemma rq_enter s me c x y th :
  cpus s !! me = Some x → cpus s !! c = Some y → c_runqueue_lock y = None → threads s !! c_curthread x = Some th →
  ∃ s1, rq_acquire me c s = Done tt s1 ∧
    (∀ u, threads s1 !! u = if decide (c_curthread x = u) then Some (spl_up th) else threads s !! u) ∧
    (∀ d, cpus s1 !! d = if decide (c = d) then Some (with_rqlock (Some me) (held_cpu me c y))
                         else held_cpu me d <$> cpus s !! d) ∧
    length (cpus s1) = length (cpus s) ∧ wchans s1 = wchans s ∧ locks s1 = locks s ∧ acts s1 = acts s.
Proof.
  intros Ex Ey Hl Et. rewrite (rq_acquire_run s me c x y th) by done. eexists. split; [reflexivity |]. split_and!; try done.
  - intros u. autorewrite with sched. destruct (decide (c_curthread x = u)) as [<- |]; [by rewrite Et | done].
  - intros d. autorewrite with sched. unfold held_cpu. destruct (decide (c = d)) as [<- |].
    + rewrite Ey. by destruct (decide (me = c)).
    + destruct (decide (me = d)); [done |]. by destruct (cpus s !! d).
  - simpl. by rewrite !length_alter.
Qed.

(** Leaving it: [g] and [h] are what the section has left. *)
Lemma rq_leave s1 me c cur th h (G : nat → option cpu) :
  (∀ d, cpus s1 !! d = if decide (c = d) then Some (with_rqlock (Some me) (held_cpu me c h))
                       else held_cpu me d <$> G d) →
  G c = Some h → c_runqueue_lock h = None → (∀ z, G me = Some z → c_curthread z = cur ∧ 0 <= c_spinlocks z) →
  is_Some (G me) → threads s1 !! cur = Some (spl_up th) →
  ∃ s2, rq_release me c s1 = Done tt s2 ∧
    (∀ u, threads s2 !! u = if decide (cur = u) then Some th else threads s1 !! u) ∧
    (∀ d, cpus s2 !! d = G d) ∧
    length (cpus s2) = length (cpus s1) ∧ wchans s2 = wchans s1 ∧ locks s2 = locks s1 ∧ acts s2 = acts s1.
Proof.
  intros Ec Hh Hl Hme (z & Hz) Et. destruct (Hme z Hz) as [Hcur Hk].
  assert (∃ x1, cpus s1 !! me = Some x1 ∧ c_curthread x1 = cur ∧ 0 < c_spinlocks x1) as (x1 & Ex1 & Hc1 & Hk1).
  { rewrite Ec. unfold held_cpu. destruct (decide (c = me)) as [-> | Hne].
    - rewrite Hh in Hz. injection Hz as ->. rewrite decide_True by done. eexists. split; [done |]. simpl. split; [done | lia].
    - rewrite Hz. simpl. rewrite decide_True by done. eexists. split; [done |]. simpl. split; [done | lia]. }
  rewrite (rq_release_run s1 me c x1 (with_rqlock (Some me) (held_cpu me c h)) (spl_up th)); try done.
  2: by rewrite Ec, decide_True.
  2: by rewrite Hc1.
  rewrite Hc1. eexists. split; [reflexivity |]. split_and!; try done.
  - intros u. autorewrite with sched. destruct (decide (cur = u)) as [<- |]; [| done]. rewrite Et. simpl. f_equal.
    destruct th. unfold spl_down, spl_up, with_spl. simpl. f_equal. lia.
  - intros d. autorewrite with sched. rewrite Ec. unfold held_cpu. destruct (decide (c = d)) as [<- | Hcd].
    + rewrite Hh. destruct (decide (me = c)) as [<- |]; simpl; f_equal; destruct h; simpl in Hl; subst;
        unfold spin_down, spin_up, with_spinlocks, with_rqlock; simpl; f_equal; lia.
    + destruct (decide (me = d)) as [<- |].
      * destruct (G me) as [z'|]; [| done]. simpl. f_equal. destruct z'. unfold spin_down, spin_up, with_spinlocks. simpl. f_equal. lia.
      * by destruct (G d).
  - simpl. by rewrite !length_alter.
Qed.
(** *** Counting *)

Lemma count_ok home s me x th i my total :
  inv None home s → cpus s !! me = Some x → acts s !! me = Some (Migrating (MCount i my total)) →
  threads s !! c_curthread x = Some th →
  ∃ s', migrate_step me (MCount i my total) s = Done tt s' ∧ inv None home s'.
Proof.
  intros I Ex Ea Et. destruct (inv_act _ _ _ _ _ I Ea) as (x0 & th0 & Ex0 & Et0 & K).
  rewrite Ex in Ex0. injection Ex0 as <-. rewrite Et in Et0. injection Et0 as <-. simpl in K.
  assert (Hstep : ∀ a', hand a' = [] → held a' = None → act_ok a' x th → inv None home (put_act me a' s)).
  { intros a' Hh Hd Hok. eapply (local_step' home s _ me x th id id _ a' I Ex Et Ea); try done.
    - by rewrite at_cpu_idf, (at_thread_id s _ th).
    - destruct K as [H1 H2 H3 H4 H5 H6 H7 H8 H9]. split; try done. by rewrite Hd. }
  pose proof (ck_act _ _ _ _ _ K) as [Htr [Hmy Htot]].
  unfold migrate_step, mbind, M_bind, gets. destruct (Nat.ltb_spec i (length (cpus s))) as [Hi | Hi].
  - destruct (lookup_lt_is_Some_2 (cpus s) i Hi) as (y & Ey).
    pose proof (inv_rqlock _ _ _ _ I Ey) as Hly.
    destruct (rq_enter s me i x y th) as (s1 & E1 & Et1 & Ec1 & Hl1 & Hw1 & Hk1 & Ha1); try done. rewrite E1.
    rewrite (get_cpu_run s1 i (with_rqlock (Some me) (held_cpu me i y))) by (by rewrite Ec1, decide_True).
    unfold set_act, modify. set (a' := Migrating _).
    destruct (rq_leave (with_acts (<[me := a']> (acts s1)) s1) me i (c_curthread x) th y (λ d, cpus s !! d))
      as (s2 & E2 & Et2 & Ec2 & Hl2 & Hw2 & Hk2 & Ha2); try done.
    { intros z Ez. rewrite Ex in Ez. injection Ez as <-. split; [done |]. by eapply spinlocks_nonneg. }
    { simpl. by rewrite Et1, decide_True. }
    exists s2. split; [exact E2 |].
    assert (s2 = put_act me a' s) as ->.
    { apply sched_ext.
      - intros u. rewrite Et2. simpl. rewrite Et1. by destruct (decide (c_curthread x = u)) as [<- |].
      - intros d. apply Ec2.
      - rewrite Hw2. exact Hw1.
      - rewrite Hk2. exact Hk1.
      - rewrite Ha2. simpl. by rewrite Ha1. }
    apply Hstep; try done. split; [done |]. simpl.
    assert (Hlen : c_runqueue (held_cpu me i y) = c_runqueue y) by (unfold held_cpu; by case_decide).
    rewrite Hlen. split; [| unfold u32, wrap; apply Z.mod_pos_bound; lia].
    destruct (Nat.eqb_spec i me) as [-> |]; [| done]. rewrite Ex in Ey. injection Ey as <-. lia.
  - assert (0 < length (cpus s))%nat by (apply lookup_lt_Some in Ex; lia).
    assert (Hs : 0 <= DIVROUNDUP total (Z.of_nat (length (cpus s)))) by (unfold DIVROUNDUP; apply Z.div_pos; lia).
    destruct (Z.ltb_spec my (DIVROUNDUP total (Z.of_nat (length (cpus s))))); unfold set_act, modify;
      (eexists; split; [reflexivity |]); apply Hstep; try done. split; [done |]. simpl. lia.
Qed.

(** *** Taking victims from the own queue, and putting them back *)

Lemma own_move home home' s s' me x rq th a a' ts p q :
  inv None home s → cpus s !! me = Some x → threads s !! c_curthread x = Some th → acts s !! me = Some a →
  (∀ u, threads s' !! u = threads s !! u) →
  (∀ d, cpus s' !! d = if decide (me = d) then Some (with_runqueue rq x) else cpus s !! d) →
  (∀ c, acts s' !! c = if decide (me = c) then Some a' else acts s !! c) →
  length (cpus s') = length (cpus s) → length (acts s') = length (acts s) → wchans s' = wchans s → locks s' = locks s →
  held a = None → held a' = None → p ≠ q → (∀ c, p ≠ PRun c) → (∀ c, q ≠ PRun c) →
  pl s p ≡ₚ ts ++ pl s' p → pl s' q ≡ₚ ts ++ pl s q → (∀ r, r ≠ p → r ≠ q → pl s' r ≡ₚ pl s r) →
  (∀ u, home' !! u = if decide (u ∈ ts) then Some q else home !! u) →
  act_ok a' (with_runqueue rq x) th →
  (∀ u tu, u ∈ ts → threads s !! u = Some tu → thr_ok tu q) →
  (∀ u tu, u ∈ hand a' → threads s !! u = Some tu → t_cpu tu = me ∧ t_state tu = S_READY) →
  inv None home' s'.
Proof.
  intros I Ex Et Ea Et' Ec' Ea' Hlc Hla Hw Hk Hh Hh' Hpq Hp Hq P1 P2 P3 Hhome Hact Hthr Hhand.
  destruct (inv_act _ _ _ _ _ I Ea) as (x0 & th0 & Ex0 & Et0 & K).
  rewrite Ex in Ex0. injection Ex0 as <-. rewrite Et in Et0. injection Et0 as <-. simpl in K.
  assert (Hts : ∀ u, u ∈ ts → home !! u = Some p).
  { intros u Hu. apply (i_placed _ _ _ I p). rewrite P1. set_solver. }
  eapply (inv_step None None home home' s s' me x (with_runqueue rq x) a' th); try done; try (by left).
  - by rewrite Ec', decide_True.
  - by rewrite Ea', decide_True.
  - by rewrite Et'.
  - destruct K as [H1 H2 H3 H4 H5 H6 H7 H8 H9]. split; try done. simpl. by rewrite H4, Hh, Hh'.
  - intros c Hne. by rewrite Ea', decide_False.
  - intros c y' Hne. rewrite Ec', decide_False by done. intros E. by exists y'.
  - intros u. rewrite Hhome, Et'. destruct (decide (u ∈ ts)) as [Hu |]; [| apply (i_dom _ _ _ I)].
    rewrite <- (i_dom _ _ _ I), (Hts u Hu). split; by eexists.
  - by eapply (placed_move_list home home' (pl s) (pl s') ts p q); [apply (i_placed _ _ _ I) | ..].
  - intros u tu r. rewrite Hhome, Et'. destruct (decide (u ∈ ts)) as [Hu |]; [| apply (i_thr _ _ _ I)].
    intros Eu [= <-]. split; [by eapply Hthr |]. by eapply (i_thr _ _ _ I _ _ _ Eu (Hts u Hu)).
  - intros u tu _. rewrite Et'. intros E. right. left. by exists tu.
  - intros c y th0 _ Ey E0. exists th0. by rewrite Et'.
  - intros m u tu Em Hu. rewrite Et'. by apply Hhand.
  - intros c u tu _ _. rewrite Et'. intros E. by exists tu.
  - intros lk c. rewrite Hk, (i_lock _ _ _ I), Ea'. destruct (decide (me = c)) as [<- |]; [| done].
    rewrite Ea. split; intros (b & [= <-] & Hb); congruence.
Qed.
Definition rehome (ts : list Z) (q : place) (home : gmap Z place) : gmap Z place :=
  foldr (λ t h, <[t := q]> h) home ts.
Lemma rehome_lookup ts q home u : rehome ts q home !! u = if decide (u ∈ ts) then Some q else home !! u.
Proof.
  induction ts as [|t ts IH]; cbn [rehome foldr].
  { destruct (decide (u ∈ [])) as [H | H]; [by apply elem_of_nil in H | done]. }
  destruct (decide (t = u)) as [<- | Hne].
  - rewrite lookup_insert_eq, decide_True by set_solver. done.
  - rewrite lookup_insert_ne by done. unfold rehome in IH. rewrite IH.
    destruct (decide (u ∈ ts)); [rewrite decide_True by set_solver | rewrite decide_False by set_solver]; done.
Qed.

Lemma grab_ok home s me x th my share :
  inv None home s → cpus s !! me = Some x → acts s !! me = Some (Migrating (MGrab my share)) →
  threads s !! c_curthread x = Some th →
  ∃ s' home', migrate_step me (MGrab my share) s = Done tt s' ∧ inv None home' s'.
Proof.
  intros I Ex Ea Et. destruct (inv_act _ _ _ _ _ I Ea) as (x0 & th0 & Ex0 & Et0 & K).
  rewrite Ex in Ex0. injection Ex0 as <-. rewrite Et in Et0. injection Et0 as <-. simpl in K.
  pose proof (ck_act _ _ _ _ _ K) as [Htr [Hsh Hmy]]. pose proof (inv_rqlock _ _ _ _ I Ex) as Hly.
  unfold migrate_step, mbind, M_bind, gets.
  destruct (rq_enter s me me x x th) as (s1 & E1 & Et1 & Ec1 & Hl1 & Hw1 & Hk1 & Ha1); try done. rewrite E1.
  assert (Ex1 : cpus s1 !! me = Some (with_rqlock (Some me) (held_cpu me me x))) by (by rewrite Ec1, decide_True).
  rewrite (get_cpu_run s1 me _ Ex1). set (k := Z.to_nat (my - share)). set (r := c_runqueue x) in *.
  assert (c_runqueue (with_rqlock (Some me) (held_cpu me me x)) = r) as -> by (unfold held_cpu; by case_decide).
  rewrite grab_spec by lia. rewrite app_nil_r. set (n := (length r - k)%nat). set (ts := drop n r).
  rewrite (upd_cpu_run s1 me _ _ Ex1). unfold set_act, modify.
  set (a' := Migrating (MSend 0 (my - share) share ts)). set (s2 := with_acts _ _).
  set (x' := with_runqueue (take n r) x).
  destruct (rq_leave s2 me me (c_curthread x) th x' (λ d, if decide (me = d) then Some x' else cpus s !! d))
    as (s3 & E3 & Et3 & Ec3 & Hl3 & Hw3 & Hk3 & Ha3); try done.
  { intros d. change (cpus s2) with (cpus (at_cpu me (with_runqueue (take n r)) s1)). rewrite cpus_at_cpu, Ec1.
    unfold held_cpu. rewrite !(decide_True (P := me = me)) by done. by destruct (decide (me = d)). }
  { by rewrite decide_True. }
  { intros z. rewrite decide_True by done. intros [= <-]. split; [done |]. apply (spinlocks_nonneg _ _ _ _ _ K). }
  { rewrite decide_True by done. by eexists. }
  { change (threads s2) with (threads s1). by rewrite Et1, decide_True. }
  assert (Ha' : ∀ c, acts s3 !! c = if decide (me = c) then Some a' else acts s !! c).
  { intros c. rewrite Ha3. change (acts s2) with (<[me := a']> (acts s1)). rewrite Ha1. apply (acts_put_act s me _ _ c Ea). }
  assert (Hts : ∀ u, u ∈ ts → u ∈ r) by (intros u Hu; rewrite <- (take_drop n r); apply elem_of_app; by right).
  assert (Hok : ∀ u tu, u ∈ r → threads s !! u = Some tu → thr_ok tu (PReady me)).
  { intros u tu Hu Eu. eapply (i_thr _ _ _ I u tu _ Eu). apply (i_placed _ _ _ I (PReady me)). simpl. by rewrite Ex. }
  exists s3, (rehome ts (PHand me) home). split; [exact E3 |].
  eapply (own_move home _ s s3 me x (take n r) th (Migrating (MGrab my share)) a' ts (PReady me) (PHand me)); try done.
  - intros u. rewrite Et3. change (threads s2) with (threads s1). rewrite Et1.
    by destruct (decide (c_curthread x = u)) as [<- |].
  - rewrite Hl3. change (length (cpus (at_cpu me (with_runqueue (take n r)) s1)) = length (cpus s)). by rewrite length_at_cpu.
  - rewrite Ha3. change (acts s2) with (<[me := a']> (acts s1)). by rewrite length_insert, Ha1.
  - rewrite Hw3. exact Hw1.
  - rewrite Hk3. exact Hk1.
  - simpl. rewrite Ex, Ec3, decide_True by done. simpl. fold r. unfold ts. rewrite Permutation_app_comm. by rewrite take_drop.
  - simpl. rewrite Ea, Ha', decide_True by done. simpl. by rewrite app_nil_r.
  - intros q N1 N2. destruct q as [c | c | w | c | c]; simpl; rewrite ?Ha', ?Ec3, ?Hw3, ?Hw1; try done.
    + destruct (decide (me = c)) as [<- |]; [by rewrite Ex | done].
    + rewrite decide_False by congruence. done.
    + change (wchans s2) with (wchans s1). by rewrite Hw1.
    + destruct (decide (me = c)) as [<- |]; [by rewrite Ex | done].
    + rewrite decide_False by congruence. done.
  - intros u. apply rehome_lookup.
  - split; [done |]. simpl. unfold ts. rewrite length_drop. fold r in Hmy. lia.
  - intros u tu Hu Eu. destruct (Hok u tu (Hts u Hu) Eu) as (G & S1 & S2 & S3). split; [done |]. split; [by right | done].
  - intros u tu Hu Eu. destruct (Hok u tu (Hts u Hu) Eu) as (G & S1 & S2 & S3). done.
Qed.

Lemma back_ok home s me x th v :
  inv None home s → cpus s !! me = Some x → acts s !! me = Some (Migrating (MBack v)) →
  threads s !! c_curthread x = Some th →
  ∃ s' home', migrate_step me (MBack v) s = Done tt s' ∧ inv None home' s'.
Proof.
  intros I Ex Ea Et. destruct (inv_act _ _ _ _ _ I Ea) as (x0 & th0 & Ex0 & Et0 & K).
  rewrite Ex in Ex0. injection Ex0 as <-. rewrite Et in Et0. injection Et0 as <-. simpl in K.
  pose proof (ck_act _ _ _ _ _ K) as [Htr _]. pose proof (inv_rqlock _ _ _ _ I Ex) as Hly.
  unfold migrate_step, mbind, M_bind, gets. destruct (decide (v = [])) as [-> | Hne].
  { rewrite bool_decide_eq_true_2 by done. cbv [mret M_ret]. cbv beta iota. exists (put_act me Tick s), home. split; [reflexivity |].
    eapply (local_step' home s _ me x th id id _ Tick I Ex Et Ea); try done.
    - by rewrite at_cpu_idf, (at_thread_id s _ th).
    - destruct K as [H1 H2 H3 H4 H5 H6 H7 H8 H9]. by split. }
  rewrite bool_decide_eq_false_2 by done.
  destruct (rq_enter s me me x x th) as (s1 & E1 & Et1 & Ec1 & Hl1 & Hw1 & Hk1 & Ha1); try done. rewrite E1.
  assert (Ex1 : cpus s1 !! me = Some (with_rqlock (Some me) (held_cpu me me x))) by (by rewrite Ec1, decide_True).
  rewrite (upd_cpu_run s1 me _ _ Ex1). set (f := λ x, with_runqueue _ x). set (s2 := at_cpu me f s1).
  set (x' := with_runqueue (c_runqueue x ++ v) x).
  destruct (rq_leave s2 me me (c_curthread x) th x' (λ d, if decide (me = d) then Some x' else cpus s !! d))
    as (s3 & E3 & Et3 & Ec3 & Hl3 & Hw3 & Hk3 & Ha3); try done.
  { intros d. unfold s2. rewrite cpus_at_cpu, Ec1. unfold f, held_cpu.
    rewrite !(decide_True (P := me = me)) by done. by destruct (decide (me = d)). }
  { by rewrite decide_True. }
  { intros z. rewrite decide_True by done. intros [= <-]. split; [done |]. apply (spinlocks_nonneg _ _ _ _ _ K). }
  { rewrite decide_True by done. by eexists. }
  { change (threads s2) with (threads s1). by rewrite Et1, decide_True. }
  rewrite E3. unfold set_act, modify. exists (put_act me Tick s3), (rehome v (PReady me) home). split; [reflexivity |].
  assert (Ha3' : acts s3 = acts s) by (rewrite Ha3; exact Ha1).
  assert (Ha' : ∀ c, acts (put_act me Tick s3) !! c = if decide (me = c) then Some Tick else acts s !! c).
  { intros c. rewrite (acts_put_act s3 me _ (Migrating (MBack v))) by (by rewrite Ha3'). by rewrite Ha3'. }
  eapply (own_move home _ s _ me x (c_runqueue x ++ v) th (Migrating (MBack v)) Tick v (PHand me) (PReady me)); try done.
  - intros u. change (threads (put_act me Tick s3)) with (threads s3). rewrite Et3. change (threads s2) with (threads s1).
    rewrite Et1. by destruct (decide (c_curthread x = u)) as [<- |].
  - change (cpus (put_act me Tick s3)) with (cpus s3). rewrite Hl3. unfold s2. by rewrite length_at_cpu.
  - rewrite length_put_act. by rewrite Ha3'.
  - change (wchans s3 = wchans s). rewrite Hw3. exact Hw1.
  - change (locks s3 = locks s). rewrite Hk3. exact Hk1.
  - change (from_option hand [] (acts s !! me) ≡ₚ v ++ from_option hand [] (acts (put_act me Tick s3) !! me)).
    rewrite Ea, Ha', decide_True by done. simpl. by rewrite app_nil_r.
  - simpl. rewrite Ex, Ec3, decide_True by done. simpl. by rewrite Permutation_app_comm.
  - intros q N1 N2. destruct q as [c | c | w | c | c]; simpl; rewrite ?Ec3; try done.
    + destruct (decide (me = c)) as [<- |]; [by rewrite Ex | done].
    + rewrite decide_False by congruence. done.
    + rewrite Hw3. change (wchans s2) with (wchans s1). by rewrite Hw1.
    + destruct (decide (me = c)) as [<- |]; [by rewrite Ex | done].
    + rewrite Ha3', list_lookup_insert_ne by congruence. done.
  - intros u. apply rehome_lookup.
  - intros u tu Hu Eu. pose proof (in_hand _ _ _ _ _ u I Ea Hu) as Hh.
    destruct (i_thr _ _ _ I _ _ _ Eu Hh) as [(G & _ & P) _].
    destruct (i_mig _ _ _ I me _ u tu Ea Hu Eu) as [M1 M2]. by split_and!.
  - by intros u tu ?%elem_of_nil.
Qed.
(** *** Handing victims to another CPU *)

(** The queue has grown by [ts]; only it and the pending interrupts differ. *)
Definition filled (ts : list Z) (y y2 : cpu) : Prop :=
  c_runqueue y2 = c_runqueue y ++ ts ∧ c_curthread y2 = c_curthread y ∧ c_zombies y2 = c_zombies y ∧
  c_spinlocks y2 = c_spinlocks y ∧ c_isidle y2 = c_isidle y ∧ c_runqueue_lock y2 = c_runqueue_lock y.

Lemma send_loop_spec me c cur : c ≠ me → ∀ fuel to_send share victims s1 x y,
  cpus s1 !! me = Some x → c_curthread x = cur → cpus s1 !! c = Some y →
  0 <= to_send <= Z.of_nat (length victims) → (Z.to_nat to_send < fuel)%nat →
  (∀ t, t ∈ victims → is_Some (threads s1 !! t)) → NoDup victims →
  ∃ to_send' victims' ts s2 y2, send_loop fuel me c to_send share victims s1 = Done (to_send', victims') s2 ∧
    victims ≡ₚ ts ++ victims' ∧ (cur ∉ ts) ∧ 0 <= to_send' <= Z.of_nat (length victims') ∧
    (∀ u, threads s2 !! u = if decide (u ∈ ts) then with_t_cpu c <$> threads s1 !! u else threads s1 !! u) ∧
    (∀ d, cpus s2 !! d = if decide (c = d) then Some y2 else cpus s1 !! d) ∧ filled ts y y2 ∧
    length (cpus s2) = length (cpus s1) ∧ wchans s2 = wchans s1 ∧ locks s2 = locks s1 ∧ acts s2 = acts s1.
Proof.
  intros Hne fuel. induction fuel as [|fuel IH]; intros to_send share victims s1 x y Ex Hcur Ey Hts Hf Hv Hnd; [lia |].
  assert (Hstop : ∃ to_send' victims' ts s2 y2, ((mret (to_send, victims) : T (Z * list Z)) s1) = Done (to_send', victims') s2 ∧
    victims ≡ₚ ts ++ victims' ∧ (cur ∉ ts) ∧ 0 <= to_send' <= Z.of_nat (length victims') ∧
    (∀ u, threads s2 !! u = if decide (u ∈ ts) then with_t_cpu c <$> threads s1 !! u else threads s1 !! u) ∧
    (∀ d, cpus s2 !! d = if decide (c = d) then Some y2 else cpus s1 !! d) ∧ filled ts y y2 ∧
    length (cpus s2) = length (cpus s1) ∧ wchans s2 = wchans s1 ∧ locks s2 = locks s1 ∧ acts s2 = acts s1).
  { exists to_send, victims, [], s1, y. split_and!; try done; try lia.
    - apply not_elem_of_nil.
    - intros d. destruct (decide (c = d)) as [<- |]; [exact Ey | done].
    - unfold filled. rewrite app_nil_r. by split_and!. }
  cbn [send_loop]. unfold mbind, M_bind. rewrite (get_cpu_run s1 c y) by done.
  destruct (Z.ltb_spec (Z.of_nat (length (c_runqueue y))) share); [| exact Hstop].
  destruct (Z.ltb_spec 0 to_send) as [Hpos |]; [| exact Hstop]. clear Hstop. cbn [andb].
  destruct victims as [|t v]; [simpl in Hts; lia |]. rewrite (curthread_run s1 me x) by done. rewrite Hcur.
  apply NoDup_cons in Hnd as [Htv Hnd]. simpl length in Hts.
  destruct (Z.eqb_spec t cur) as [-> | Hct].
  - destruct (IH (to_send - 1) share (v ++ [cur]) s1 x y) as (ts' & v' & ts & s2 & y2 & E & Hp & Hrest); try done.
    + rewrite length_app. simpl. lia.
    + lia.
    + intros u Hu. apply Hv. set_solver.
    + apply NoDup_app. split_and!; [done | set_solver | apply NoDup_singleton].
    + exists ts', v', ts, s2, y2. split; [done |]. split; [| done]. rewrite <- Hp. by rewrite <- Permutation_cons_append.
  - destruct (Hv t) as (tt0 & Ett); [set_solver |]. rewrite (upd_thread_run s1 t tt0) by done.
    set (s2 := at_thread t _ s1). rewrite (upd_cpu_run s2 c y) by done. set (s3 := at_cpu c _ s2).
    set (y3 := with_runqueue (c_runqueue y ++ [t]) y).
    assert (Ey3 : cpus s3 !! c = Some y3) by (unfold s3, s2; autorewrite with sched; by rewrite decide_True, Ey).
    assert (∃ s4 y4, (if c_isidle y then ipi_send c IPI_UNIDLE else mret tt) s3 = Done tt s4 ∧
      threads s4 = threads s3 ∧ (∀ d, cpus s4 !! d = if decide (c = d) then Some y4 else cpus s3 !! d) ∧
      filled [] y3 y4 ∧ length (cpus s4) = length (cpus s3) ∧ wchans s4 = wchans s3 ∧ locks s4 = locks s3 ∧ acts s4 = acts s3)
      as (s4 & y4 & E4 & Et4 & Ec4 & F4 & Hl4 & Hw4 & Hk4 & Ha4).
    { destruct (c_isidle y).
      - unfold ipi_send, mbind, M_bind. rewrite kassert_ok by done. rewrite (upd_cpu_run s3 c y3) by done.
        eexists _, _. split; [reflexivity |]. split_and!; try done.
        + intros d. rewrite cpus_at_cpu. destruct (decide (c = d)) as [<- |]; [| done]. rewrite Ey3. reflexivity.
        + unfold filled. simpl. rewrite app_nil_r. by split_and!.
        + apply length_at_cpu.
      - exists s3, y3. split_and!; try done.
        + intros d. by destruct (decide (c = d)) as [<- |].
        + unfold filled. rewrite app_nil_r. by split_and!. }
    rewrite E4. assert (Ex4 : cpus s4 !! me = Some x).
    { rewrite Ec4, decide_False by done. unfold s3, s2. autorewrite with sched. by rewrite decide_False. }
    destruct (IH (to_send - 1) share v s4 x y4) as (ts' & v' & ts & s5 & y5 & E & Hp & Hc5 & Hn5 & Et5 & Ec5 & F5 & Hl5 & Hw5 & Hk5 & Ha5); try done.
    + by rewrite Ec4, decide_True.
    + lia.
    + lia.
    + intros u Hu. rewrite Et4. unfold s3, s2. autorewrite with sched.
      destruct (decide (t = u)) as [<- |]; [set_solver |]. apply Hv. set_solver.
    + exists ts', v', (t :: ts), s5, y5. split; [done |]. split_and!; try done; try lia.
      * by rewrite Hp.
      * set_solver.
      * intros u. rewrite Et5, Et4. unfold s3, s2. autorewrite with sched. destruct (decide (t = u)) as [<- | Htu].
        -- rewrite (decide_True (P := t ∈ t :: ts)) by set_solver. rewrite decide_False; [done |].
           intros Hin. apply Htv. rewrite Hp. set_solver.
        -- destruct (decide (u ∈ ts)); [rewrite decide_True by set_solver | rewrite decide_False by set_solver]; done.
      * intros d. rewrite Ec5, Ec4. unfold s3, s2. autorewrite with sched. by destruct (decide (c = d)).
      * destruct F4 as (A1 & A2 & A3 & A4 & A5 & A6). destruct F5 as (B1 & B2 & B3 & B4 & B5 & B6).
        unfold filled. rewrite B1, B2, B3, B4, B5, B6, A1, A2, A3, A4, A5, A6. simpl. rewrite app_nil_r.
        split_and!; try done. by rewrite <- app_assoc.
      * rewrite Hl5, Hl4. unfold s3. by rewrite length_at_cpu.
      * by rewrite Hw5, Hw4.
      * by rewrite Hk5, Hk4.
      * by rewrite Ha5, Ha4.
Qed.

(** A step of the migration that only moves on. *)
Lemma advance_ok home s me x th m m' :
  inv None home s → cpus s !! me = Some x → threads s !! c_curthread x = Some th →
  acts s !! me = Some (Migrating m) → hand (Migrating m') = hand (Migrating m) →
  mig_ok (Z.of_nat (length (c_runqueue x))) m' → inv None home (put_act me (Migrating m') s).
Proof.
  intros I Ex Et Ea Hh Hm. destruct (inv_act _ _ _ _ _ I Ea) as (x0 & th0 & Ex0 & Et0 & K).
  rewrite Ex in Ex0. injection Ex0 as <-. rewrite Et in Et0. injection Et0 as <-. simpl in K.
  pose proof (ck_act _ _ _ _ _ K) as [Htr _].
  eapply (own_move home home s _ me x (c_runqueue x) th (Migrating m) _ [] (PHand me) (PReady me)); try done.
  - intros d. destruct (decide (me = d)) as [<- |]; [| done]. simpl. rewrite Ex. by destruct x.
  - intros c. apply (acts_put_act s me _ _ c Ea).
  - apply length_put_act.
  - by destruct m'.
  - change (from_option hand [] (acts s !! me) ≡ₚ from_option hand [] (acts (put_act me (Migrating m') s) !! me)).
    rewrite (acts_put_act s me _ _ me Ea), Ea, decide_True by done.
    change (hand (Migrating m) ≡ₚ hand (Migrating m')). by rewrite Hh.
  - intros r N1 N2. destruct r as [c | c | w | c | c]; try done. simpl. by rewrite list_lookup_insert_ne by congruence.
  - by split.
  - by intros u tu ?%elem_of_nil.
  - intros u tu Hu. rewrite Hh in Hu. by eapply (i_mig _ _ _ I).
Qed.

(** Threads [ts] have gone from the hand of CPU [me] to the queue of CPU [i]. *)
Lemma sent_ok home s s' me i x y h th j to_send share v ts to_send' v' :
  inv None home s → cpus s !! me = Some x → threads s !! c_curthread x = Some th →
  acts s !! me = Some (Migrating (MSend j to_send share v)) → i ≠ me → cpus s !! i = Some y → filled ts y h →
  v ≡ₚ ts ++ v' → c_curthread x ∉ ts → 0 <= to_send' <= Z.of_nat (length v') →
  (∀ u, threads s' !! u = if decide (u ∈ ts) then with_t_cpu i <$> threads s !! u else threads s !! u) →
  (∀ d, cpus s' !! d = if decide (i = d) then Some h else cpus s !! d) →
  (∀ c, acts s' !! c = if decide (me = c) then Some (Migrating (MSend (S j) to_send' share v')) else acts s !! c) →
  length (cpus s') = length (cpus s) → length (acts s') = length (acts s) → wchans s' = wchans s → locks s' = locks s →
  inv None (rehome ts (PReady i) home) s'.
Proof.
  intros I Ex Et Ea Hne Ey F Hp Hcur Hts Et' Ec' Ea' Hlc Hla Hw Hk.
  destruct (inv_act _ _ _ _ _ I Ea) as (x0 & th0 & Ex0 & Et0 & K).
  rewrite Ex in Ex0. injection Ex0 as <-. rewrite Et in Et0. injection Et0 as <-. simpl in K.
  destruct F as (F1 & F2 & F3 & F4 & F5 & F6).
  assert (Hv : ∀ u, u ∈ ts → u ∈ v) by (intros u Hu; rewrite Hp; set_solver).
  assert (Hhome : ∀ u, u ∈ v → home !! u = Some (PHand me)) by (intros u Hu; by eapply (in_hand _ _ _ _ _ u I Ea)).
  assert (Hnd : NoDup (ts ++ v')).
  { pose proof (i_placed _ _ _ I (PHand me)) as [Hnd _]. simpl in Hnd. rewrite Ea in Hnd. by rewrite <- Hp. }
  assert (Hmig : ∀ u tu, u ∈ v → threads s !! u = Some tu → t_cpu tu = me ∧ t_state tu = S_READY)
    by (intros u tu Hu Eu; by eapply (i_mig _ _ _ I me)).
  assert (Hnc : ∀ c z, cpus s !! c = Some z → c_curthread z ∉ ts).
  { intros c z Ez Hin. destruct (i_cpu _ _ _ I c z Ez) as (b & tz & _ & Etz & Kz).
    destruct (Hmig _ _ (Hv _ Hin) Etz) as [Hcpu _]. rewrite (ck_cpu _ _ _ _ _ Kz) in Hcpu. subst c.
    rewrite Ex in Ez. by injection Ez as <-. }
  eapply (inv_step None None home _ s s' me x x (Migrating (MSend (S j) to_send' share v')) th); try done; try (by left).
  - by rewrite Ec', decide_False.
  - by rewrite Ea', decide_True.
  - by rewrite Et', decide_False by done.
  - destruct K as [H1 H2 H3 H4 H5 H6 H7 H8 H9]. split; try done. split; [apply H9 | done].
  - intros c Hc. by rewrite Ea', decide_False.
  - intros c y' Hc. rewrite Ec'. destruct (decide (i = c)) as [<- |]; [| intros E; by exists y'].
    intros [= <-]. exists y. split; [done |]. unfold le_cpu. rewrite F1, length_app. split_and!; try done. lia.
  - intros u. rewrite rehome_lookup, Et'. destruct (decide (u ∈ ts)) as [Hu |]; [| apply (i_dom _ _ _ I)].
    rewrite fmap_is_Some, <- (i_dom _ _ _ I), (Hhome u) by auto. split; by eexists.
  - eapply (placed_move_list home _ (pl s) (pl s') ts (PHand me) (PReady i)); [apply (i_placed _ _ _ I) | done | ..].
    + simpl. rewrite Ea, Ea', decide_True by done. done.
    + simpl. rewrite Ey, Ec', decide_True by done. simpl. by rewrite F1, Permutation_app_comm.
    + intros r N1 N2. destruct r as [c | c | w | c | c]; simpl; rewrite ?Ec', ?Ea', ?Hw; try done.
      * destruct (decide (i = c)) as [<- |]; [| done]. by rewrite Ey, F2, F5.
      * by rewrite decide_False by congruence.
      * destruct (decide (i = c)) as [<- |]; [| done]. rewrite Ey. simpl. by rewrite F3.
      * by rewrite decide_False by congruence.
    + intros u. apply rehome_lookup.
  - intros u tu p. rewrite rehome_lookup, Et'. destruct (decide (u ∈ ts)) as [Hu |]; [| apply (i_thr _ _ _ I)].
    destruct (threads s !! u) as [t0|] eqn:E0; [| done]. intros [= <-] [= <-].
    destruct (i_thr _ _ _ I _ _ _ E0 (Hhome u (Hv u Hu))) as [(G & _ & P) _]. destruct (Hmig u t0 (Hv u Hu) E0) as [_ M2].
    split; [by split_and! |]. by eapply lookup_lt_Some.
  - intros u tu _. rewrite Et'. destruct (decide (u ∈ ts)) as [Hu |].
    + destruct (threads s !! u) as [t0|] eqn:E0; [| done]. intros [= <-]. right. right.
      assert (suspended t0) as Hs; [| exact Hs]. eapply (i_susp _ _ _ I _ _ E0). intros c z Ez <-. by apply (Hnc c z Ez).
    + intros E. right. left. by exists tu.
  - intros c z t0 _ Ez E0. exists t0. by rewrite Et', decide_False by (by eapply Hnc).
  - intros m u tu _ Hu. rewrite Et'. simpl in Hu. rewrite decide_False.
    + apply Hmig. rewrite Hp. set_solver.
    + intros Hin. apply NoDup_app in Hnd as (_ & Hnd & _). by apply (Hnd u).
  - intros c u tu Hc Hu. rewrite Et'. rewrite decide_False; [intros E; by exists tu |].
    intros Hin. rewrite (Hhome u (Hv u Hin)) in Hu. congruence.
  - intros lk c. rewrite Hk, (i_lock _ _ _ I), Ea'. destruct (decide (me = c)) as [<- |]; [| done].
    rewrite Ea. split; intros (b & [= <-] & Hb); done.
Qed.

Lemma send_ok home s me x th i to_send share v :
  inv None home s → cpus s !! me = Some x → acts s !! me = Some (Migrating (MSend i to_send share v)) →
  threads s !! c_curthread x = Some th →
  ∃ s' home', migrate_step me (MSend i to_send share v) s = Done tt s' ∧ inv None home' s'.
Proof.
  intros I Ex Ea Et. destruct (inv_act _ _ _ _ _ I Ea) as (x0 & th0 & Ex0 & Et0 & K).
  rewrite Ex in Ex0. injection Ex0 as <-. rewrite Et in Et0. injection Et0 as <-. simpl in K.
  pose proof (ck_act _ _ _ _ _ K) as [Htr Hts]. simpl in Hts.
  unfold migrate_step, mbind, M_bind, gets. destruct (Nat.ltb_spec i (length (cpus s))) as [Hi | Hi]; cbn [andb].
  2: { eexists _, home. split; [reflexivity |]. by eapply advance_ok. }
  destruct (Z.ltb_spec 0 to_send) as [Hpos | Hpos].
  2: { eexists _, home. split; [reflexivity |]. by eapply advance_ok. }
  destruct (Nat.eqb_spec i me) as [-> | Hne].
  { eexists _, home. split; [reflexivity |]. by eapply advance_ok. }
  destruct (lookup_lt_is_Some_2 (cpus s) i Hi) as (y & Ey). pose proof (inv_rqlock _ _ _ _ I Ey) as Hly.
  assert (Hhome : ∀ u, u ∈ v → home !! u = Some (PHand me)) by (intros u Hu; by eapply (in_hand _ _ _ _ _ u I Ea)).
  destruct (rq_enter s me i x y th) as (s1 & E1 & Et1 & Ec1 & Hl1 & Hw1 & Hk1 & Ha1); try done. rewrite E1.
  destruct (send_loop_spec me i (c_curthread x) Hne (S (Z.to_nat to_send)) to_send share v s1 (spin_up x)
              (with_rqlock (Some me) (held_cpu me i y)))
    as (to_send' & v' & ts & s2 & y2 & E2 & Hp & Hcur & Hts' & Et2 & Ec2 & F2 & Hl2 & Hw2 & Hk2 & Ha2); try done; try lia.
  { rewrite Ec1, decide_False by done. rewrite Ex. simpl. unfold held_cpu. by rewrite decide_True. }
  { by rewrite Ec1, decide_True. }
  { intros u Hu. rewrite Et1. destruct (decide _); [done |]. rewrite <- (i_dom _ _ _ I), Hhome by done. done. }
  { pose proof (i_placed _ _ _ I (PHand me)) as [Hnd _]. simpl in Hnd. by rewrite Ea in Hnd. }
  rewrite E2. unfold set_act, modify. set (a' := Migrating _). set (h := with_rqlock None y2).
  destruct (rq_leave (put_act me a' s2) me i (c_curthread x) th h (λ d, if decide (i = d) then Some h else cpus s !! d))
    as (s3 & E3 & Et3 & Ec3 & Hl3 & Hw3 & Hk3 & Ha3); try done.
  { intros d. change (cpus (put_act me a' s2)) with (cpus s2). rewrite Ec2, Ec1. destruct (decide (i = d)) as [<- |]; [| done].
    f_equal. unfold held_cpu, h. rewrite decide_False by done. destruct F2 as (_ & _ & _ & _ & _ & F2).
    destruct y2. simpl in F2. by subst. }
  { by rewrite decide_True. }
  { intros z. rewrite decide_False by done. rewrite Ex. intros [= <-]. split; [done |]. apply (spinlocks_nonneg _ _ _ _ _ K). }
  { rewrite decide_False by done. by eexists. }
  { change (threads (put_act me a' s2)) with (threads s2). by rewrite Et2, decide_False, Et1, decide_True. }
  exists s3, (rehome ts (PReady i) home). split; [exact E3 |].
  eapply (sent_ok home s s3 me i x y h th i to_send share v ts to_send' v'); try done.
  - destruct F2 as (F1 & F2 & F3 & F4 & F5 & F6). unfold held_cpu in *. rewrite decide_False in * by done. by split_and!.
  - intros u. rewrite Et3. change (threads (put_act me a' s2)) with (threads s2). rewrite Et2, Et1.
    destruct (decide (c_curthread x = u)) as [<- |]; [by rewrite decide_False | done].
  - intros c. rewrite Ha3. rewrite (acts_put_act s2 me _ (Migrating (MSend i to_send share v))) by (by rewrite Ha2, Ha1).
    by rewrite Ha2, Ha1.
  - rewrite Hl3. change (length (cpus s2) = length (cpus s)). congruence.
  - rewrite Ha3, length_put_act. congruence.
  - rewrite Hw3. change (wchans s2 = wchans s). congruence.
  - rewrite Hk3. change (locks s2 = locks s). congruence.
Qed.
End migrate.
End ThreadMigrate.
