(* ===== verification/ThreadProps.v ===== *)
(** * The scheduler as a whole: boot, every step, and what follows

    [cpu_create] builds the state the kernel starts in; every operation that is
    allowed in a state with the invariant returns and keeps it; so in every state the
    CPUs can reach, however their steps interleave, each thread is in one place and
    no CPU panics. *)

From stdpp Require Import base list gmap numbers strings.
From Stdlib Require Import ZArith Lia.
From S2P Require Import Prelude Thread ThreadInv ThreadOps ThreadSwitch ThreadMigrate.
Import Thread ThreadInv ThreadOps ThreadSwitch ThreadMigrate.

#[local] Open Scope Z_scope.

Module ThreadProps.

Definition MAXCPUS : nat := 32.

(** [cpu], [thread], [name] and [stack] are the blocks [kmalloc] gave (0: none), [full]
    is the result of [cpuarray_add].  The new thread's registers are those of the CPU
    it belongs to: it counts as running there. *)
Definition cpu_create (kproc cpu thread name stack full : Z) : T unit :=
  if cpu =? 0 then panic "cpu_create: Out of memory"
  else if negb (full =? 0) then panic "cpu_create: array_add"
  else
    number ← gets (λ s, length (cpus s));
    t ← thread_create thread name;
    if t =? 0 then panic "cpu_create: thread_create failed"
    else
      modify (λ s, mkSched (threads s) (cpus s ++ [mkCpu t [] 0 0 false [] None 0 []])
                     (wchans s) (locks s) (acts s ++ [Base None])) ;;
      upd_thread t (with_t_cpu number) ;;
      (if Nat.eqb number 0 then mret tt
       else if stack =? 0 then panic "cpu_create: couldn't allocate stack"
       else upd_thread t (λ x, with_stack stack (t_guard x) x) ;; thread_checkstack_init t) ;;
      result ← proc_addthread kproc t;
      if negb (result =? 0) then panic "cpu_create: proc_addthread"
      else kassert (Nat.ltb number MAXCPUS) "c->c_number < MAXCPUS".

(** Before [thread_bootstrap] there is nothing. *)
Definition nothing : sched := mkSched ∅ [] ∅ ∅ [].

Definition thread_bootstrap (kproc cpu thread name : Z) : T unit :=
  cpu_create kproc cpu thread name 0 0 ;;
  t ← curthread 0;
  x ← get_thread t;
  kassert (negb (t_proc x =? 0)) "curthread->t_proc != NULL" ;;
  kassert (t_proc x =? kproc) "curthread->t_proc == kproc".

(** The operations of a thread that calls [timerclock], [clocksleep] or [cpu_hatch]:
    [wchan_sleep] takes the lock again when the thread continues; [V] is the wake-up of
    Synch.v. *)
Definition timerclock (lbolt lbolt_lock : Z) : list op :=
  [OLock lbolt_lock; OWakeall lbolt lbolt_lock; OUnlock lbolt_lock].
Definition clocksleep (lbolt lbolt_lock num_secs : Z) : list op :=
  OLock lbolt_lock ::
  concat (replicate (Z.to_nat num_secs) [OSleep lbolt lbolt_lock; OLock lbolt_lock]) ++
  [OUnlock lbolt_lock].
Definition cpu_hatch (startup startup_lock : Z) : list op :=
  [OSplx IPL_NONE; OLock startup_lock; OWakeone startup startup_lock; OUnlock startup_lock; OExit].

Section props.
Implicit Types s : sched.

(** ** Every step *)

Lemma migrate_ok home s me x th m :
  inv None home s → cpus s !! me = Some x → acts s !! me = Some (Migrating m) →
  threads s !! c_curthread x = Some th →
  ∃ s' home', migrate_step me m s = Done tt s' ∧ inv None home' s'.
Proof.
  intros I Ex Ea Et. destruct m.
  - destruct (count_ok home s me x th i my_count total_count) as (s' & ? & ?); try done. by exists s', home.
  - by eapply grab_ok.
  - by eapply send_ok.
  - by eapply back_ok.
Qed.

Lemma woken_ok home s me x th h :
  inv None home s → cpus s !! me = Some x → acts s !! me = Some (Waking h []) →
  threads s !! c_curthread x = Some th →
  ∃ s', wake_step me h [] s = Done tt s' ∧ inv None home s'.
Proof.
  intros I Ex Ea Et. destruct (inv_act _ _ _ _ _ I Ea) as (x0 & th0 & Ex0 & Et0 & K).
  rewrite Ex in Ex0. injection Ex0 as <-. rewrite Et in Et0. injection Et0 as <-. simpl in K.
  eexists. split; [reflexivity |].
  eapply (local_step' home s _ me x th id id (Waking h []) (Base h)); try done.
  - by rewrite at_cpu_idf, (at_thread_id s _ th).
  - destruct K as [H1 H2 H3 H4 H5 H6 H7 H8 H9]. by split.
Qed.

(** Wait channels nobody sleeps on come and go. *)
Lemma wchans_ok home s W :
  inv None home s → (∀ w, from_option wc_threads [] (W !! w) = from_option wc_threads [] (wchans s !! w)) →
  inv None home (with_wchans W s).
Proof.
  intros [H1 H2 H3 H4 H5 H6 H7 H8] HW. split; try done.
  intros p. assert (pl (with_wchans W s) p = pl s p) as -> by (destruct p; simpl; done). apply H3.
Qed.

(** No TLB shootdowns are queued: nobody calls [ipi_tlbshootdown], and nothing else
    changes these lists. *)
Definition shootdowns s : list (list Z) := c_shootdown <$> cpus s.
Definition quiet s : Prop := ∀ c x, cpus s !! c = Some x → c_shootdown x = [].

Lemma keeps_upd_cpu c f : (∀ x, c_shootdown (f x) = c_shootdown x) → keeps shootdowns (upd_cpu c f).
Proof.
  intros Hf. unfold upd_cpu, get_cpu. apply keeps_bind; [apply keeps_deref |]. intros _. apply keeps_modify. intros s.
  unfold shootdowns. simpl. apply list_eq. intros i. rewrite !list_lookup_fmap.
  destruct (decide (i = c)) as [-> |]; [| by rewrite list_lookup_alter_ne].
  rewrite list_lookup_alter_eq. destruct (cpus s !! c); simpl; [by rewrite Hf | done].
Qed.
#[local] Hint Extern 1 (keeps shootdowns (upd_cpu _ _)) => apply keeps_upd_cpu; reflexivity : keeps.
#[local] Hint Extern 1 (keeps shootdowns (modify _)) => apply keeps_modify; reflexivity : keeps.

Lemma keeps_get_cpu c : keeps shootdowns (get_cpu c).
Proof. apply keeps_deref. Qed.
Lemma keeps_get_thread t : keeps shootdowns (get_thread t).
Proof. apply keeps_deref. Qed.
Lemma keeps_get_wchan w : keeps shootdowns (get_wchan w).
Proof. apply keeps_deref. Qed.
Lemma keeps_curthread me : keeps shootdowns (curthread me).
Proof. unfold curthread. apply keeps_bind; [apply keeps_deref | intros ?; apply keeps_ret]. Qed.
#[local] Hint Resolve keeps_get_cpu keeps_get_thread keeps_get_wchan keeps_curthread : keeps.

Ltac kops := repeat progress
  unfold run_op, lk_acquire, lk_release, lk_do_i_hold, lock_holder, splx, splhigh, spl0, thread_fork, thread_create, thread_yield,
    wchan_sleep, thread_exit, wchan_wakeone, wchan_wakeall, wchan_create, wchan_destroy, trap_enter, trap_leave,
    hardclock, hardclock_end, idle_loop, wake_step, thread_make_runnable, proc_addthread, proc_remthread, exorcise,
    thread_checkstack, thread_checkstack_init, thread_destroy, idle_round, switch_in, switch_place, schedule,
    rq_acquire, rq_release, acquire, release, count_lock, splraise, spllower, ipi_send,
    upd_thread, set_thread, set_wchan, set_act.

Lemma keeps_exorcise me zs : keeps shootdowns (exorcise_loop me zs).
Proof. induction zs as [|z zs IH]; cbn [exorcise_loop]; kops; keeps_auto. Qed.
#[local] Hint Resolve keeps_exorcise : keeps.
Lemma keeps_switch me ns wc lk : keeps shootdowns (thread_switch me ns wc lk).
Proof. unfold thread_switch. kops. keeps_auto. Qed.
Lemma keeps_send fuel me c : ∀ n share vs, keeps shootdowns (send_loop fuel me c n share vs).
Proof. induction fuel as [|f IH]; intros n share vs; cbn [send_loop]; kops; keeps_auto; apply IH. Qed.
#[local] Hint Resolve keeps_switch keeps_send : keeps.
Lemma keeps_migrate me m : keeps shootdowns (migrate_step me m).
Proof. unfold migrate_step. kops. keeps_auto. Qed.
#[local] Hint Resolve keeps_migrate : keeps.

Lemma keeps_others me o : o ≠ OIpi → keeps shootdowns (run_op me o).
Proof. intros Ho. destruct o; try done; kops; keeps_auto. Qed.

Lemma quiet_keeps s s' : shootdowns s' = shootdowns s → quiet s → quiet s'.
Proof.
  intros E Q c x Ex. assert (shootdowns s' !! c = Some (c_shootdown x)) as H.
  { unfold shootdowns. by rewrite list_lookup_fmap, Ex. }
  rewrite E in H. apply list_lookup_fmap_Some in H as (y & -> & Ey). by eapply Q.
Qed.

Lemma keeps_quiet {A} (m : T A) : keeps shootdowns m → preserves quiet m.
Proof.
  intros Hm s Q. eapply wlp_mono; [| | apply Hm]; simpl; [intros _ |]; intros s' E; by eapply quiet_keeps.
Qed.

Lemma emptied_quiet me : preserves quiet (upd_cpu me (λ x, with_ipi (c_ipi_pending x) [] x)).
Proof.
  intros s Q. unfold upd_cpu, get_cpu. do 3 wstep. intros c y. simpl.
  destruct (decide (c = me)) as [-> |]; [| rewrite list_lookup_alter_ne by done; apply Q].
  rewrite list_lookup_alter_eq. destruct (cpus s !! me); simpl; [by intros [= <-] | done].
Qed.

Lemma ipi_quiet me : preserves quiet (interprocessor_interrupt me).
Proof.
  unfold interprocessor_interrupt. apply preserves_bind; [apply keeps_quiet; kops; keeps_auto |]. intros _.
  apply preserves_bind; [apply keeps_quiet; keeps_auto |]. intros x. cbv zeta.
  destruct (Z.testbit _ IPI_PANIC); [apply keeps_quiet; kops; keeps_auto |].
  destruct (Z.testbit _ IPI_OFFLINE); [apply keeps_quiet; kops; keeps_auto |].
  apply preserves_bind; [| intros _; apply keeps_quiet; kops; keeps_auto].
  destruct (Z.testbit _ IPI_TLBSHOOTDOWN); [| apply preserves_ret].
  apply preserves_bind; [apply keeps_quiet; by destruct (c_shootdown x) |]. intros _. apply emptied_quiet.
Qed.

Lemma run_op_quiet me o s s' : quiet s → run_op me o s = Done tt s' → quiet s'.
Proof.
  intros Q E. assert (preserves quiet (run_op me o)) as H; [| by eapply preserves_done].
  destruct o; try (apply keeps_quiet, keeps_others; done).
  unfold run_op. apply preserves_bind; [apply keeps_quiet; keeps_auto |]. intros _. apply ipi_quiet.
Qed.

Lemma run_op_ok home s me x a th o :
  inv None home s → quiet s → cpus s !! me = Some x → acts s !! me = Some a →
  threads s !! c_curthread x = Some th → enabled s x a th o →
  (∃ s' home', run_op me o s = Done tt s' ∧ inv None home' s') ∨
  (run_op me o s = NoFuel ∧ ∃ lk c, o = OLock lk ∧ c ≠ me ∧ locks s !! lk = Some c).
Proof.
  intros I Q Ex Ea Et En. destruct o; simpl in En; destruct_and?; subst.
  - destruct (lock_ok home s me x th lk) as [(s' & ? & ?) | (E & c & ? & ?)]; try done; [left | right].
    + by exists s', home.
    + split; [done |]. by exists lk, c.
  - left. destruct (unlock_ok home s me x th lk) as (s' & ? & ?); try done. by exists s', home.
  - left. destruct (splx_ok home s me x th spl) as (s' & ? & ?); try done. by exists s', home.
  - left. by eapply fork_ok.
  - left. destruct (yield_ok home s me x th) as (s' & home' & E & I' & _); try done.
    exists s', home'. split; [| done]. unfold run_op, mbind, M_bind, deref. by rewrite Ea.
  - left. by eapply sleep_ok.
  - left. by eapply exit_ok.
  - left. by eapply wakeone_ok.
  - left. by eapply wakeall_ok.
  - left. unfold run_op, mbind, M_bind, deref. rewrite Ea. unfold wchan_create.
    destruct (wc =? 0); [by exists s, home |]. eexists _, home. split; [reflexivity |].
    apply wchans_ok; [done |]. intros w. destruct (decide (wc = w)) as [<- |]; [| by rewrite lookup_insert_ne].
    rewrite lookup_insert_eq. by destruct (wchans s !! wc).
  - left. match goal with H : ∃ _, _ |- _ => destruct H as (name & Ew) end. unfold run_op, mbind, M_bind, deref. rewrite Ea. unfold wchan_destroy, mbind, M_bind.
    unfold get_wchan, deref. rewrite Ew. eexists _, home. split; [reflexivity |].
    apply wchans_ok; [done |]. intros w. destruct (decide (wc = w)) as [<- |]; [| by rewrite lookup_delete_ne].
    by rewrite lookup_delete_eq, Ew.
  - left. destruct (trap_ok home s me x th) as (s' & ? & ?); try done. by exists s', home.
  - left. destruct (iret_ok home s me x th) as (s' & ? & ?); try done. by exists s', home.
  - left. destruct (hardclock_ok home s me x th) as (s' & ? & ?); try done. by exists s', home.
  - left. destruct (ipi_ok home s me x th) as (s' & ? & ?); try done; [by eapply Q |]. by exists s', home.
  - left. unfold run_op, mbind, M_bind, deref. rewrite Ea. destruct a as [h | h ts | m | |].
    + destruct En as (-> & Hi & Htr). destruct (idle_loop_ok home s me x th) as (s' & home' & E & I' & _); try done.
      by exists s', home'.
    + destruct ts as [|t ts]; [| by eapply wake_step_ok].
      destruct (woken_ok home s me x th h) as (s' & ? & ?); try done. by exists s', home.
    + by eapply migrate_ok.
    + by eapply hardclock_end_ok.
    + by exists s, home.
Qed.

Definition good s : Prop := ∃ home, inv None home s.

Definition sound s : Prop := good s ∧ quiet s.

Lemma step_sound s s' : sound s → step s s' → sound s'.
Proof.
  intros [(home & I) Q] Hst. destruct Hst as [t t' me x a th o Ex Ea Et En E]. split; [| by eapply run_op_quiet].
  destruct (run_op_ok home t me x a th o) as [(s'' & home' & E' & I') | (E' & _)]; try done; rewrite E in E'; [| done].
  injection E' as <-. by exists home'.
Qed.
Lemma steps_sound s s' : sound s → rtc step s s' → sound s'.
Proof. intros G Hs. induction Hs as [|t u v Hs _ IH]; [done |]. by eapply IH, step_sound. Qed.

(** ** Boot *)

Definition boot_cpu (t : Z) : cpu := mkCpu t [] 0 0 false [] None 0 [].
Definition boot_thread (n : nat) (stack kproc : Z) : thread :=
  mkThread (Some "NEW") S_READY (if Nat.eqb n 0 then 0 else stack)
    (if Nat.eqb n 0 then [] else stack_guard) Running n kproc false IPL_HIGH 1 None.
Definition with_boot (t : Z) (th : thread) s : sched :=
  mkSched (<[t := th]> (threads s)) (cpus s ++ [boot_cpu t]) (wchans s) (locks s) (acts s ++ [Base None]).

Lemma cpu_create_run s kproc c t n st :
  kproc ≠ 0 → c ≠ 0 → t ≠ 0 → n ≠ 0 → (cpus s ≠ [] → st ≠ 0) → (length (cpus s) < MAXCPUS)%nat →
  cpu_create kproc c t n st 0 s = Done tt (with_boot t (boot_thread (length (cpus s)) st kproc) s).
Proof.
  intros Hk Hc Ht Hn Hst Hm. unfold cpu_create, mbind, M_bind, gets.
  rewrite (proj2 (Z.eqb_neq _ _) Hc). cbn [negb Z.eqb]. unfold thread_create.
  rewrite (proj2 (Z.eqb_neq _ _) Ht), (proj2 (Z.eqb_neq _ _) Hn).
  cbv [set_thread modify mbind M_bind mret M_ret]. cbv beta iota. rewrite (proj2 (Z.eqb_neq _ _) Ht).
  set (s1 := mkSched _ _ _ _ _).
  assert (s1 = put_thread t new_thread (mkSched (threads s) (cpus s ++ [boot_cpu t]) (wchans s) (locks s) (acts s ++ [Base None])))
    as -> by done.
  rewrite upd_put_thread. set (s0 := mkSched (threads s) _ _ _ _).
  assert (∀ y, t_proc y = 0 → proc_addthread kproc t (put_thread t y s0) = Done 0 (put_thread t (with_proc kproc y) s0)) as Hpa.
  { intros y Hy. unfold proc_addthread, mbind, M_bind. rewrite (get_thread_run _ t y) by apply lookup_insert_eq.
    rewrite kassert_ok by (by apply Z.eqb_eq). by rewrite upd_put_thread. }
  unfold boot_thread. destruct (Nat.eqb_spec (length (cpus s)) 0) as [H0 | H0].
  - rewrite Hpa by done. cbn [negb Z.eqb]. rewrite kassert_ok by (by apply Nat.ltb_lt). done.
  - rewrite (proj2 (Z.eqb_neq st 0)) by (apply Hst; by intros E; rewrite E in H0).
    rewrite upd_put_thread. unfold thread_checkstack_init. rewrite upd_put_thread, Hpa by done.
    cbn [negb Z.eqb]. rewrite kassert_ok by (by apply Nat.ltb_lt). done.
Qed.

Lemma snoc_default {A B} (f : A → list B) (l : list A) y i :
  f y = [] → from_option f [] ((l ++ [y]) !! i) = from_option f [] (l !! i).
Proof.
  intros Hy. destruct (lt_eq_lt_dec i (length l)) as [[? | ->] | ?].
  - by rewrite lookup_app_l.
  - rewrite lookup_app_r, Nat.sub_diag, (lookup_ge_None_2 l) by lia. done.
  - rewrite !lookup_ge_None_2; [done | lia |]. rewrite length_app. simpl. lia.
Qed.

Lemma cpu_create_ok home s kproc t st :
  inv None home s → kproc ≠ 0 → threads s !! t = None →
  inv None (<[t := PRun (length (cpus s))]> home) (with_boot t (boot_thread (length (cpus s)) st kproc) s).
Proof.
  intros I Hk Ht. set (n := length (cpus s)). set (b := boot_thread n st kproc).
  assert (Hn : home !! t = None).
  { destruct (home !! t) eqn:E; [| done]. assert (is_Some (threads s !! t)) as (? & ?) by (apply (i_dom _ _ _ I); by eexists). congruence. }
  assert (Hold : ∀ c x, cpus s !! c = Some x → c_curthread x ≠ t).
  { intros c x Ex <-. destruct (i_cpu _ _ _ I c x Ex) as (a & th & _ & Et & _). congruence. }
  split.
  - intros u. simpl. destruct (decide (t = u)) as [<- |]; [rewrite !lookup_insert_eq; split; by eexists |].
    rewrite !lookup_insert_ne by done. apply (i_dom _ _ _ I).
  - simpl. rewrite !length_app, (i_len _ _ _ I). done.
  - eapply placed_new; [apply (i_placed _ _ _ I) | done | |].
    + simpl. fold n. rewrite lookup_app_r, Nat.sub_diag by (unfold n; lia). simpl.
      rewrite (lookup_ge_None_2 (cpus s) n) by (unfold n; lia). done.
    + intros r Hr. destruct r as [c | c | w | c | c]; simpl; try by rewrite ?snoc_default.
      destruct (decide (c < n)%nat) as [? | ?]; [by rewrite lookup_app_l |].
      rewrite !lookup_ge_None_2; [done | unfold n in *; lia |]. rewrite length_app. simpl.
      assert (c ≠ n) by congruence. unfold n in *. lia.
  - intros c x. simpl. rewrite lookup_snoc_Some. intros [[_ Ex] | [-> <-]].
    + destruct (i_cpu _ _ _ I c x Ex) as (a & th & Ea & Et & K). exists a, th.
      split; [by apply lookup_app_l_Some |]. split; [| done]. rewrite lookup_insert_ne; [done |].
      apply not_eq_sym. by eapply Hold.
    + exists (Base None), b. split; [rewrite <- (i_len _ _ _ I); by apply lookup_snoc_Some; right |].
      split; [apply lookup_insert_eq |]. simpl. split; try done.
  - intros u th p. simpl. rewrite length_app. destruct (decide (t = u)) as [<- |].
    + rewrite !lookup_insert_eq. intros [= <-] [= <-]. simpl. split; [| fold n; lia]. split; [| by split_and!; [right | |]].
      unfold guard_ok, b, boot_thread. by destruct (Nat.eqb n 0).
    + rewrite !lookup_insert_ne by done. intros Eu Hp. destruct (i_thr _ _ _ I _ _ _ Eu Hp). split; [done | lia].
  - intros u th. simpl. destruct (decide (t = u)) as [<- |].
    + intros _ Hno. exfalso. eapply (Hno n (boot_cpu t)); [by apply lookup_snoc_Some; right | done].
    + rewrite lookup_insert_ne by done. intros Eu Hno. eapply (i_susp _ _ _ I _ _ Eu). intros c x Ex.
      eapply (Hno c). by apply lookup_app_l_Some.
  - intros c m u th. simpl. rewrite lookup_snoc_Some. intros [[_ Ea] | [_ ?]]; [| done]. intros Hu.
    destruct (decide (t = u)) as [<- |].
    + rewrite (in_hand _ _ _ _ _ t I Ea Hu) in Hn. done.
    + rewrite lookup_insert_ne by done. by eapply (i_mig _ _ _ I).
  - intros lk c. simpl. rewrite (i_lock _ _ _ I). split; intros (a & Ea & Hh); exists a; (split; [| done]).
    + by apply lookup_app_l_Some.
    + apply lookup_snoc_Some in Ea as [[_ ?] | [_ <-]]; done.
Qed.

Lemma nothing_ok : inv None ∅ nothing.
Proof.
  split; try done.
  - intros t. simpl. rewrite !lookup_empty. done.
  - intros p. assert (pl nothing p = []) as -> by (by destruct p; simpl; rewrite ?lookup_nil, ?lookup_empty).
    split; [constructor |]. intros t. rewrite lookup_empty. split; [by intros ?%elem_of_nil | done].
  - intros lk c. simpl. rewrite lookup_empty, lookup_nil. split; [done | by intros (? & ? & ?)].
Qed.

(** What [lamebus_find_cpus] and [thread_bootstrap] create: a CPU block, a thread, its
    name and its stack for each CPU. *)
Fixpoint boot (kproc : Z) (l : list (Z * Z * Z * Z)) : T unit :=
  match l with
  | [] => mret tt
  | (c, t, n, st) :: l' => cpu_create kproc c t n st 0 ;; boot kproc l'
  end.
Definition bootable (kproc : Z) (l : list (Z * Z * Z * Z)) : bool :=
  bool_decide (kproc ≠ 0) && bool_decide (length l ≤ MAXCPUS)%nat &&
  bool_decide (NoDup ((λ b, b.1.1.2) <$> l)) &&
  forallb (λ '(c, t, n, st), negb (c =? 0) && negb (t =? 0) && negb (n =? 0) && negb (st =? 0)) l.

Lemma boot_cpus_ok kproc l : kproc ≠ 0 → ∀ s,
  sound s → (length (cpus s) + length l ≤ MAXCPUS)%nat → NoDup ((λ b, b.1.1.2) <$> l) →
  (∀ b, b ∈ l → threads s !! b.1.1.2 = None) →
  forallb (λ '(c, t, n, st), negb (c =? 0) && negb (t =? 0) && negb (n =? 0) && negb (st =? 0)) l = true →
  ∃ s', boot kproc l s = Done tt s' ∧ sound s'.
Proof.
  intros Hk. induction l as [|[[[c t] n] st] l IH]; intros s G Hl Hnd Hf Hall; [by exists s |].
  cbn [forallb] in Hall. rewrite !andb_true_iff, !negb_true_iff, !Z.eqb_neq in Hall.
  destruct Hall as [[[[Hc Ht] Hn] Hst] Hall]. rewrite fmap_cons in Hnd. apply NoDup_cons in Hnd as [Hin Hnd].
  simpl length in Hl. cbn [boot]. unfold mbind, M_bind. rewrite cpu_create_run by (done || lia).
  destruct G as [(home & I) Q]. apply IH; try done.
  - split; [eexists; apply cpu_create_ok; [done | done |]; apply (Hf (c, t, n, st)); set_solver |].
    intros d y. simpl. rewrite lookup_snoc_Some. intros [[_ Ey] | [_ <-]]; [by eapply Q | done].
  - simpl. rewrite length_app. simpl. lia.
  - intros b Hb. simpl. rewrite lookup_insert_ne; [apply Hf; set_solver |].
    intros ->. apply Hin. apply list_elem_of_fmap. by exists b.
Qed.

Lemma boot_good kproc l : bootable kproc l = true → ∃ s0, boot kproc l nothing = Done tt s0 ∧ sound s0.
Proof.
  unfold bootable. rewrite !andb_true_iff, !bool_decide_eq_true. intros [[[Hk Hl] Hnd] Hall].
  apply boot_cpus_ok; try done. split; [by exists ∅; apply nothing_ok |]. intros c x Ex. done.
Qed.

(** C9: However the CPUs' steps interleave after boot (forks, yields, sleeps, wake-ups,
    exits, interrupts, clock ticks, migrations), every thread is in exactly one place:
    running on one CPU, on one run queue, on one wait channel, among one CPU's
    zombies or in the hand of one CPU that is moving it; no list holds a thread
    twice or a thread that has been destroyed; and no two CPUs have the same
    current thread. *)
Theorem sched_one_place kproc l : bootable kproc l = true →
  ∃ s0, boot kproc l nothing = Done tt s0 ∧ ∀ s, rtc step s0 s →
    (∀ t, is_Some (threads s !! t) → ∃ p, t ∈ pl s p ∧ ∀ q, t ∈ pl s q → q = p) ∧
    (∀ p, NoDup (pl s p) ∧ ∀ t, t ∈ pl s p → is_Some (threads s !! t)) ∧
    (∀ c d x y, cpus s !! c = Some x → cpus s !! d = Some y → c_curthread x = c_curthread y → c = d).
Proof.
  intros B. destruct (boot_good kproc l B) as (s0 & E & G). exists s0. split; [done |]. intros s Hs.
  destruct (steps_sound s0 s G Hs) as [(home & I) _]. split_and!.
  - intros t Ht. apply (i_dom _ _ _ I) in Ht as (p & Hp). exists p.
    split; [by apply (i_placed _ _ _ I p) |]. intros q Hq. apply (i_placed _ _ _ I q) in Hq. congruence.
  - intros p. split; [apply (i_placed _ _ _ I p) |]. intros t Ht. apply (i_placed _ _ _ I p) in Ht.
    apply (i_dom _ _ _ I). by eexists.
  - intros c d x y Ex Ey Ec. by eapply cur_inj.
Qed.

(** C10: In every state the CPUs can reach after boot, each operation that the rules for
    callers allow on a CPU returns: no assertion fails, no freed thread is used, no
    run-queue lock is found taken.  The only operation that may have to wait is taking
    a spinlock that another CPU holds. *)
Theorem sched_no_panic kproc l : bootable kproc l = true →
  ∃ s0, boot kproc l nothing = Done tt s0 ∧ ∀ s, rtc step s0 s →
    ∀ me x a th o, cpus s !! me = Some x → acts s !! me = Some a → threads s !! c_curthread x = Some th →
      enabled s x a th o →
      (∃ s', run_op me o s = Done tt s') ∨
      (run_op me o s = NoFuel ∧ ∃ lk c, o = OLock lk ∧ c ≠ me ∧ locks s !! lk = Some c).
Proof.
  intros B. destruct (boot_good kproc l B) as (s0 & E & G). exists s0. split; [done |]. intros s Hs me x a th o Ex Ea Et En.
  destruct (steps_sound s0 s G Hs) as [(home & I) Q].
  destruct (run_op_ok home s me x a th o I Q Ex Ea Et En) as [(s' & _ & E' & _) | ?]; [left; by exists s' | by right].
Qed.

(** ** Turns *)

(** What the other CPUs, and the CPU's own threads without giving it up, may do to it
    meanwhile: its queue grows at the end. *)
Definition undisturbed (me : nat) s s' : Prop :=
  good s' ∧ acts s' !! me = Some (Base None) ∧ ∃ x x' more,
    cpus s !! me = Some x ∧ cpus s' !! me = Some x' ∧ c_isidle x' = c_isidle x ∧
    c_curthread x' = c_curthread x ∧ c_runqueue x' = c_runqueue x ++ more.

(** CPU [me] yields [n] times. *)
Inductive turns (me : nat) : nat → sched → sched → Prop :=
| turns_end s : turns me 0 s s
| turns_other n s s1 s2 : undisturbed me s s1 → turns me n s1 s2 → turns me n s s2
| turns_yield n s s1 s2 : thread_yield me s = Done tt s1 → turns me n s1 s2 → turns me (S n) s s2.

(** Another CPU that makes threads runnable disturbs nobody. *)
Lemma wake_undisturbed s c me h t ts x :
  good s → c ≠ me → acts s !! c = Some (Waking h (t :: ts)) → acts s !! me = Some (Base None) →
  cpus s !! me = Some x → ∃ s', wake_step c h (t :: ts) s = Done tt s' ∧ undisturbed me s s'.
Proof.
  intros (home & I) Hne Ea Eme Ex. destruct (wake_step_ok home s c h t ts I Ea) as (s' & home' & E & I').
  exists s'. split; [done |]. split; [by exists home' |].
  destruct (inv_act _ _ _ _ _ I Ea) as (y & th & Ey & Et & K).
  destruct (inv_home _ _ _ _ _ I (in_hand _ _ _ _ _ t I Ea ltac:(simpl; set_solver))) as (tg & Eg & _ & Hc).
  destruct (lookup_lt_is_Some_2 (cpus s) _ Hc) as (z & Ez).
  unfold wake_step, mbind, M_bind, set_act, modify in E. fold (put_act c (Waking h ts) s) in E.
  rewrite (make_runnable_run (put_act c (Waking h ts) s) c y th t tg z) in E; try done.
  2: by eapply spinlocks_nonneg.
  2: exact (inv_rqlock _ _ _ _ I Ez).
  injection E as <-. split.
  { change (acts (put_act c (Waking h ts) s) !! me = Some (Base None)). by rewrite (acts_put_act s c _ _ me Ea), decide_False. }
  rewrite cpus_at_cpu. destruct (decide (t_cpu tg = me)) as [Hq | Hq].
  - subst me. rewrite Ex in Ez. injection Ez as <-. eexists x, _, [t]. simpl. rewrite Ex. by split_and!.
  - exists x, x, []. simpl. rewrite app_nil_r. by split_and!.
Qed.

Lemma yield_turn s me x k t :
  good s → acts s !! me = Some (Base None) → cpus s !! me = Some x → c_isidle x = false →
  c_runqueue x !! k = Some t →
  ∃ s' x', thread_yield me s = Done tt s' ∧ good s' ∧ acts s' !! me = Some (Base None) ∧
    cpus s' !! me = Some x' ∧ c_isidle x' = false ∧
    match k with O => c_curthread x' = t | S j => c_runqueue x' !! j = Some t end.
Proof.
  intros (home & I) Ea Ex Hi Hk. destruct (i_cpu _ _ _ I me x Ex) as (a & th & _ & Et & _).
  destruct (yield_ok home s me x th I Ex Ea Et) as (s' & home' & E & I' & [[[? | Hn] _] | (_ & Ha & x' & Ex' & Hi' & Hq)]).
  - congruence.
  - by rewrite Hn, lookup_nil in Hk.
  - exists s', x'. split_and!; try done; [by exists home' |].
    assert ((c_curthread x' :: c_runqueue x') !! k = Some t) as Hk'.
    { rewrite Hq. by apply lookup_app_l_Some. }
    destruct k; simpl in Hk'; congruence.
Qed.

Lemma turns_current me s s' x t :
  turns me 0 s s' → cpus s !! me = Some x → c_isidle x = false → c_curthread x = t →
  ∃ x', cpus s' !! me = Some x' ∧ c_isidle x' = false ∧ c_curthread x' = t.
Proof.
  intros T. remember 0%nat as m eqn:Em. revert x. induction T as [s|n s s1 s2 U T IH|]; intros x Ex Hi Hc; [by exists x | | done].
  destruct U as (_ & _ & x0 & x1 & more & Ex0 & Ex1 & Hi1 & Hc1 & _). rewrite Ex in Ex0. injection Ex0 as <-.
  eapply (IH Em x1); congruence.
Qed.

(** C11: A ready thread gets its turn: with [k] threads before it on the CPU's run
    queue, [k + 1] yields can be made, and after them it runs, whatever is put on
    the queue in between. *)
Theorem sched_fifo_turn me k t s x :
  good s → acts s !! me = Some (Base None) → cpus s !! me = Some x → c_isidle x = false →
  c_runqueue x !! k = Some t →
  (∃ s', turns me (S k) s s') ∧
  ∀ s', turns me (S k) s s' → ∃ x', cpus s' !! me = Some x' ∧ c_isidle x' = false ∧ c_curthread x' = t.
Proof.
  intros G Ea Ex Hi Hk. split.
  - revert s x t G Ea Ex Hi Hk. induction k as [|k IH]; intros s x t G Ea Ex Hi Hk;
      destruct (yield_turn s me x _ t G Ea Ex Hi Hk) as (s1 & x1 & E & G1 & Ea1 & Ex1 & Hi1 & Hq).
    + exists s1. eapply turns_yield; [done | constructor].
    + destruct (IH s1 x1 t) as (s2 & T); try done. exists s2. by eapply turns_yield.
  - intros s' T. remember (S k) as m eqn:Em. revert k x Ea Ex Hi Hk Em G.
    induction T as [|n s s1 s2 U T IH|n s s1 s2 E T IH]; intros k x Ea Ex Hi Hk Em G; [done | |].
    + destruct U as (G1 & Ea1 & x0 & x1 & more & Ex0 & Ex1 & Hi1 & Hc1 & Hr1).
      rewrite Ex in Ex0. injection Ex0 as <-. eapply (IH k x1); try done; [congruence |].
      rewrite Hr1. by apply lookup_app_l_Some.
    + injection Em as ->. destruct (yield_turn s me x _ t G Ea Ex Hi Hk) as (s3 & x1 & E1 & G1 & Ea1 & Ex1 & Hi1 & Hq).
      rewrite E in E1. injection E1 as <-. destruct k as [|k].
      * by eapply (turns_current me s1 s2 x1 t).
      * by eapply (IH k x1).
Qed.
End props.

(** ** Two CPUs that boot; the first one's thread forks another *)

Definition w_boot : list (Z * Z * Z * Z) := [(1, 2, 3, 4); (5, 6, 7, 8)].
Definition w_run (m : T unit) (s : sched) : sched := match m s with Done _ s' => s' | _ => s end.
Definition w0 : sched := w_run (boot 9 w_boot) nothing.
Definition w1 : sched := w_run (run_op 0 (OFork 20 21 22 0)) w0.
Definition w2 : sched := w_run (run_op 0 OContinue) w1.
Definition w3 : sched := w_run (run_op 0 OContinue) w2.

Lemma w0_sound : sound w0.
Proof.
  destruct (boot_good 9 w_boot) as (s0 & E & G); [vm_compute; reflexivity |].
  assert (w0 = s0) as -> by (unfold w0, w_run; by rewrite E). done.
Qed.
Lemma w3_good : good w3.
Proof.
  apply (steps_sound w0); [apply w0_sound |].
  eapply (rtc_l _ _ w1); [| eapply (rtc_l _ _ w2); [| eapply (rtc_l _ _ w3); [| apply rtc_refl]]].
  - eapply (step_op _ _ 0 _ _ _ (OFork 20 21 22 0)); [vm_compute; reflexivity .. | |]; vm_compute; repeat split.
  - eapply (step_op _ _ 0 _ _ _ OContinue); [vm_compute; reflexivity .. | |]; vm_compute; repeat split.
  - eapply (step_op _ _ 0 _ _ _ OContinue); [vm_compute; reflexivity .. | |]; vm_compute; repeat split.
Qed.

Lemma sched_one_place_witness : bootable 9 w_boot = true ∧
  ∃ s0, boot 9 w_boot nothing = Done tt s0 ∧ ∀ s, rtc step s0 s →
    (∀ t, is_Some (threads s !! t) → ∃ p, t ∈ pl s p ∧ ∀ q, t ∈ pl s q → q = p) ∧
    (∀ p, NoDup (pl s p) ∧ ∀ t, t ∈ pl s p → is_Some (threads s !! t)) ∧
    (∀ c d x y, cpus s !! c = Some x → cpus s !! d = Some y → c_curthread x = c_curthread y → c = d).
Proof. split; [| apply (sched_one_place 9 w_boot)]; vm_compute; reflexivity. Defined.

Lemma sched_no_panic_witness : bootable 9 w_boot = true ∧
  ∃ s0, boot 9 w_boot nothing = Done tt s0 ∧ ∀ s, rtc step s0 s →
    ∀ me x a th o, cpus s !! me = Some x → acts s !! me = Some a → threads s !! c_curthread x = Some th →
      enabled s x a th o →
      (∃ s', run_op me o s = Done tt s') ∨
      (run_op me o s = NoFuel ∧ ∃ lk c, o = OLock lk ∧ c ≠ me ∧ locks s !! lk = Some c).
Proof. split; [| apply (sched_no_panic 9 w_boot)]; vm_compute; reflexivity. Defined.

(** The new thread runs after one yield. *)
Lemma sched_fifo_turn_witness : (∃ s', turns 0 1 w3 s') ∧
  ∀ s', turns 0 1 w3 s' → ∃ x', cpus s' !! 0%nat = Some x' ∧ c_isidle x' = false ∧ c_curthread x' = 20.
Proof.
  eapply (sched_fifo_turn 0 0 20 w3); [exact w3_good | vm_compute; reflexivity ..].
Defined.
End ThreadProps.
