(* ===== verification/Segments.v ===== *)
(** * Address spaces and segment tests (include/addrspace.h, vm/segments.c)

    The [struct addrspace] of the paging build and the three range tests that
    classify a faulting address.  The page counts are 16-bit fields; the byte
    length of a segment is [npages << 12] and the sums are 32-bit. *)

From stdpp Require Import base numbers.
From Stdlib Require Import ZArith Lia.
From S2P Require Import Prelude.

#[local] Open Scope Z_scope.

Module Segments.

Record addrspace := mkAs {
  as_vbase_code : Z;
  as_npages_code : Z;
  as_npages_code_loaded : Z;
  as_vbase_data : Z;
  as_npages_data : Z;
  as_npages_data_loaded : Z;
  as_vbase_bss : Z;
  as_vbase_stack : Z;
  as_npages_stack : Z
}.

Definition MAX_PAGES_PER_PROCESS : Z := 120.
Definition MAX_CODE_SEGMENT_PAGES : Z := 16.
Definition MAX_DATA_SEGMENT_PAGES : Z := 100.
Definition MAX_STACK_SEGMENT_PAGES : Z := 16.
Definition MAX_PAGES_ALLOC : Z := 10.

(** [vaddr <= vbase + (npages << 12) && vaddr >= vbase] *)
Definition in_segment (vaddr vbase npages : Z) : bool :=
  let offset := u32 (Z.shiftl npages 12) in
  (vaddr <=? u32 (vbase + offset)) && (vbase <=? vaddr).

Definition is_codeSegment (vaddr : Z) (a : addrspace) : bool :=
  in_segment vaddr (as_vbase_code a) (as_npages_code a).

Definition is_dataSegment (vaddr : Z) (a : addrspace) : bool :=
  in_segment vaddr (as_vbase_data a) (as_npages_data a).

(** The length used for the bss test is the one of the data segment. *)
Definition is_bssSegment (vaddr : Z) (a : addrspace) : bool :=
  in_segment vaddr (as_vbase_bss a) (as_npages_data a).

(** The field types of the structure. *)
Record as_wf (a : addrspace) : Prop := {
  wf_code : fits 32 (as_vbase_code a);
  wf_ncode : fits 16 (as_npages_code a);
  wf_data : fits 32 (as_vbase_data a);
  wf_ndata : fits 16 (as_npages_data a);
  wf_bss : fits 32 (as_vbase_bss a);
  wf_stack : fits 32 (as_vbase_stack a)
}.

(** ** Lemmas and properties *)

(** When the segment does not wrap around the address space the test is the
    closed interval [vbase, vbase + 4096*npages]: one byte more than the pages
    of the segment. *)
Lemma in_segment_spec vaddr vbase npages :
  fits 16 npages → 0 <= vbase → vbase + npages * PAGE_SIZE < 2 ^ 32 →
  in_segment vaddr vbase npages = true ↔
  vbase <= vaddr <= vbase + npages * PAGE_SIZE.
Proof.
  intros Hn Hb Hs. unfold in_segment, fits, PAGE_SIZE in *.
  rewrite Z.shiftl_mul_pow2 by lia. change (2 ^ 12) with 4096.
  rewrite (u32_small (npages * 4096)), u32_small by lia.
  rewrite andb_true_iff, !Z.leb_le. lia.
Qed.

(** Every address of the segment's pages is accepted. *)
Theorem is_dataSegment_complete a vaddr :
  as_wf a →
  as_vbase_data a + as_npages_data a * PAGE_SIZE < 2 ^ 32 →
  as_vbase_data a <= vaddr < as_vbase_data a + as_npages_data a * PAGE_SIZE →
  is_dataSegment vaddr a = true.
Proof.
  intros Hwf Hs Hv. destruct Hwf. unfold is_dataSegment.
  apply in_segment_spec; zlia.
Qed.

Lemma is_dataSegment_complete_witness :
  is_dataSegment 0x10001234 (mkAs 0x400000 2 2 0x10000000 3 3 0 0x10003000 0) = true.
Proof.
  apply is_dataSegment_complete; [split; cbn; zlia | done | cbn; zlia].
Defined.

(** The first address past the data pages (where [as_prepare_load] puts the
    stack page) is also classified as data; the next one is not. *)
Theorem is_dataSegment_boundary a :
  as_wf a →
  as_vbase_data a + as_npages_data a * PAGE_SIZE + 1 < 2 ^ 32 →
  let fin := as_vbase_data a + as_npages_data a * PAGE_SIZE in
  is_dataSegment fin a = true ∧ is_dataSegment (fin + 1) a = false.
Proof.
  intros Hwf Hs fin. destruct Hwf. unfold is_dataSegment. split.
  - apply in_segment_spec; zlia.
  - apply not_true_iff_false. rewrite in_segment_spec by zlia. lia.
Qed.

Lemma is_dataSegment_boundary_witness :
  let a := mkAs 0x400000 2 2 0x10000000 3 3 0 0x10003000 0 in
  is_dataSegment 0x10003000 a = true ∧ is_dataSegment 0x10003001 a = false.
Proof.
  apply (is_dataSegment_boundary (mkAs 0x400000 2 2 0x10000000 3 3 0 0x10003000 0));
    [split; cbn; zlia | done].
Defined.

(** Disjoint, non-adjacent segments give exclusive tests. *)
Theorem code_data_exclusive a vaddr :
  as_wf a →
  as_vbase_code a + as_npages_code a * PAGE_SIZE < as_vbase_data a →
  as_vbase_data a + as_npages_data a * PAGE_SIZE < 2 ^ 32 →
  ¬ (is_codeSegment vaddr a = true ∧ is_dataSegment vaddr a = true).
Proof.
  intros Hwf Hcd Hs [Hc Hd]. destruct Hwf.
  unfold is_codeSegment, is_dataSegment in *.
  apply in_segment_spec in Hc; [| zlia..].
  apply in_segment_spec in Hd; [| zlia..].
  lia.
Qed.

Lemma code_data_exclusive_witness :
  let a := mkAs 0x400000 2 2 0x10000000 3 3 0 0x10003000 0 in
  ¬ (is_codeSegment 0x400010 a = true ∧ is_dataSegment 0x400010 a = true).
Proof.
  apply code_data_exclusive; [split; cbn; zlia | cbn; zlia | cbn; zlia].
Defined.

End Segments.
