(* ===== verification/Tlb.v ===== *)
(** * The TLB and its management (vm/vm_tlb.c, arch/mips/include/tlb.h)

    The 64-entry hardware TLB as a list of (EntryHi, EntryLo) words with the
    access functions of tlb.h, the inverted page table entries [addTLB] reads
    (include/pt.h), and the five routines of vm_tlb.c.  Interrupt masking
    (splhigh/splx) has no effect on one CPU's sequence of TLB operations and is
    not represented. *)

From stdpp Require Import base list numbers strings.
From Stdlib Require Import ZArith Lia.
From S2P Require Import Prelude.

#[local] Open Scope Z_scope.

Module Tlb.

(** [struct invertedPT] of include/pt.h *)
Record invertedPT := mkPT {
  Dirty : bool;
  Valid : bool;
  pid : Z;
  page_number : Z;
  victim_counter : Z
}.

Definition noEntryFound : Z := -1.

Definition TLBHI_VPAGE : Z := 0xfffff000.
Definition TLBLO_PPAGE : Z := 0xfffff000.
Definition TLBLO_DIRTY : Z := 0x00000400.
Definition TLBLO_VALID : Z := 0x00000200.
Definition TLBHI_INVALID (entryno : Z) : Z := u32 (Z.shiftl (0x80000 + entryno) 12).
Definition TLBLO_INVALID : Z := 0.
Definition NUM_TLB : Z := 64.

(** Entries, the count of unused ones kept by the kernel, the last victim, the
    static counter of [tlb_get_rr_victim], and the flush statistic. *)
Record tlb_state := mkTlb {
  entries : list (Z * Z);
  freeTLBEntries : Z;
  TLB_victim : Z;
  next_victim : Z;
  TLB_Invalidations : Z
}.

(** ** Hardware access *)

Definition tlb_write (ehi elo index : Z) (t : tlb_state) : tlb_state :=
  mkTlb (<[Z.to_nat index := (ehi, elo)]> (entries t)) (freeTLBEntries t)
    (TLB_victim t) (next_victim t) (TLB_Invalidations t).

Definition tlb_read (index : Z) (t : tlb_state) : Z * Z :=
  default (0, 0) (entries t !! Z.to_nat index).

(** Matching ignores the valid bit; the address space id is never used. *)
Definition tlb_match (ehi : Z) (e : Z * Z) : bool :=
  Z.land (fst e) TLBHI_VPAGE =? Z.land ehi TLBHI_VPAGE.

Definition tlb_probe (ehi elo : Z) (t : tlb_state) : Z :=
  match first_index (tlb_match ehi) (entries t) with
  | Some i => Z.of_nat i
  | None => -1
  end.

Definition set_free (n : Z) (t : tlb_state) : tlb_state :=
  mkTlb (entries t) n (TLB_victim t) (next_victim t) (TLB_Invalidations t).
Definition set_victim (vi nx : Z) (t : tlb_state) : tlb_state :=
  mkTlb (entries t) (freeTLBEntries t) vi nx (TLB_Invalidations t).
Definition set_invalidations (n : Z) (t : tlb_state) : tlb_state :=
  mkTlb (entries t) (freeTLBEntries t) (TLB_victim t) (next_victim t) n.

Definition entry_valid (e : Z * Z) : bool := negb (Z.land (snd e) TLBLO_VALID =? 0).

(** ** vm_tlb.c *)

Definition tlb_get_rr_victim : M tlb_state Z :=
  victim ← gets next_victim;
  modify (λ t, set_victim (TLB_victim t) ((next_victim t + 1) mod NUM_TLB) t) ;;
  mret victim.

(** The page-table entry [addTLB] looks for: valid, same page, same process. *)
Definition pt_matches (page_index pid' : Z) (e : invertedPT) : bool :=
  Valid e && (page_number e =? page_index) && (pid e =? pid').

(** [addTLB(vaddr, pid)]; [pg] is the inverted page table. *)
Definition addTLB (pg : list invertedPT) (vaddr pid' : Z) : M tlb_state Z :=
  let page_index := vaddr / PAGE_SIZE in
  match first_index (pt_matches page_index pid') pg with
  | None => panic "Error in addTLB from pageSearch"
  | Some n =>
      let paddr := u32 (Z.of_nat n * PAGE_SIZE + MIPS_KSEG0) in
      let pa := u32 (paddr - MIPS_KSEG0) in
      let elo :=
        if default false (Dirty <$> pg !! n)
        then Z.lor (Z.lor pa TLBLO_VALID) TLBLO_DIRTY
        else Z.lor pa TLBLO_VALID in
      let ehi := Z.land vaddr PAGE_FRAME in
      probe ← gets (tlb_probe ehi elo);
      if 0 <? probe then panic "TLB Error: duplicate TLB entries"
      else
        free ← gets (λ t, first_index (λ e, negb (entry_valid e)) (entries t));
        match free with
        | Some i =>
            modify (tlb_write ehi elo (Z.of_nat i)) ;;
            probe' ← gets (tlb_probe ehi elo);
            if probe' <? 0 then panic "Generic TLB Error"
            else
              modify (λ t, set_free (u32 (freeTLBEntries t - 1)) t) ;;
              mret 0
        | None =>
            (* round-robin replacement *)
            let elo := Z.lor (Z.lor pa TLBLO_VALID) TLBLO_DIRTY in
            victim ← tlb_get_rr_victim;
            modify (λ t, set_victim victim (next_victim t) t) ;;
            modify (tlb_write ehi elo victim) ;;
            probe' ← gets (tlb_probe ehi elo);
            if probe' <? 0 then panic "Generic TLB Error" else mret 0
        end
  end.

Definition removeTLB (vaddr : Z) : M tlb_state Z :=
  let vaddr := Z.land vaddr PAGE_FRAME in
  hit ← gets (λ t, first_index (λ e, fst e =? vaddr) (entries t));
  match hit with
  | Some i =>
      modify (λ t, set_free (u32 (freeTLBEntries t + 1)) t) ;;
      modify (tlb_write (TLBHI_INVALID (Z.of_nat i)) TLBLO_INVALID (Z.of_nat i)) ;;
      mret 0
  | None => mret 0
  end.

Definition removeTLBv1 (vaddr : Z) : M tlb_state Z :=
  let vaddr := Z.land vaddr PAGE_FRAME in
  probe ← gets (tlb_probe vaddr 0);
  if probe =? noEntryFound then mret 0
  else
    modify (tlb_write (TLBHI_INVALID probe) TLBLO_INVALID probe) ;;
    modify (λ t, set_free (u32 (freeTLBEntries t + 1)) t) ;;
    mret 0.

(** The invalid entry written into slot [i]. *)
Definition invalid_entry (i : Z) : Z * Z := (TLBHI_INVALID i, TLBLO_INVALID).

(** The loop shared by [invalidate_TLB] and [vm_bootstrap]. *)
Definition tlb_invalid_fill : M tlb_state unit :=
  for_loop (Z.to_nat NUM_TLB) 0
    (λ i, modify (tlb_write (TLBHI_INVALID i) TLBLO_INVALID i)).

Definition invalidate_TLB : M tlb_state unit :=
  modify (λ t, set_invalidations (u32 (TLB_Invalidations t + 1)) t) ;;
  tlb_invalid_fill ;;
  modify (set_free NUM_TLB).

(** ** Well-formed TLB contents

    Slot [i] holds either the invalid entry written for slot [i] or a valid
    entry for a page of user space, no page is mapped twice, and the kernel's
    count of free entries is right. *)

Definition user_page (hi : Z) : Prop := 0 <= hi < MIPS_KSEG0 ∧ hi mod PAGE_SIZE = 0.

Record tlb_ok (t : tlb_state) : Prop := {
  ok_len : length (entries t) = 64%nat;
  ok_slot : ∀ i e, entries t !! i = Some e →
    e = invalid_entry (Z.of_nat i) ∨ (entry_valid e = true ∧ user_page (fst e));
  ok_uniq : ∀ i j e e', entries t !! i = Some e → entries t !! j = Some e' →
    entry_valid e = true → entry_valid e' = true → fst e = fst e' → i = j;
  ok_free : freeTLBEntries t = countb (λ e, negb (entry_valid e)) (entries t);
  ok_next : 0 <= next_victim t < NUM_TLB
}.

(** The abstract view: a finite partial map from user pages to EntryLo words. *)
Definition translate (t : tlb_state) (vpage : Z) : option Z :=
  match first_index (λ e, entry_valid e && (fst e =? vpage)) (entries t) with
  | Some i => snd <$> entries t !! i
  | None => None
  end.

Lemma translate_Some t vpage lo :
  tlb_ok t →
  translate t vpage = Some lo ↔
  ∃ i, entries t !! i = Some (vpage, lo) ∧ entry_valid (vpage, lo) = true.
Proof.
  intros Hok. unfold translate. split.
  - destruct (first_index _ _) as [i|] eqn:E; [| done].
    apply first_index_lookup in E as ([hi lo'] & Hi & Hp).
    rewrite Hi. simpl. intros [= ->]. apply andb_prop in Hp as [Hv He].
    simpl in He. apply Z.eqb_eq in He as ->. eauto.
  - intros (i & Hi & Hv).
    destruct (first_index_exists (λ e, entry_valid e && (fst e =? vpage))
                (entries t)) as [j Hj].
    { exists (vpage, lo). split; [by eapply list_elem_of_lookup_2 |].
      simpl. by rewrite Hv, Z.eqb_refl. }
    rewrite Hj. apply first_index_lookup in Hj as (e & He & Hp).
    apply andb_prop in Hp as [Hv' Heq]. apply Z.eqb_eq in Heq.
    assert (j = i) as -> by (eapply (ok_uniq t Hok); eauto).
    by rewrite Hi.
Qed.

Lemma translate_None t vpage :
  translate t vpage = None ↔
  ∀ i e, entries t !! i = Some e → entry_valid e = true → fst e ≠ vpage.
Proof.
  unfold translate. split.
  - destruct (first_index _ _) as [i|] eqn:E.
    + apply first_index_lookup in E as (e & -> & _). done.
    + intros _ i e Hi Hv Hf. rewrite first_index_None in E.
      specialize (E e (list_elem_of_lookup_2 _ _ _ Hi)).
      rewrite Hv, Hf, Z.eqb_refl in E. done.
  - intros H. destruct (first_index _ _) as [i|] eqn:E; [| done].
    apply first_index_lookup in E as (e & Hi & Hp). apply andb_prop in Hp as [Hv Hp].
    apply Z.eqb_eq in Hp. exfalso. by apply (H i e).
Qed.

Lemma translate_ext t t' :
  tlb_ok t → tlb_ok t' →
  (∀ vp lo, translate t vp = Some lo ↔ translate t' vp = Some lo) →
  ∀ vp, translate t vp = translate t' vp.
Proof.
  intros _ _ H vp. destruct (translate t vp) eqn:E.
  - symmetry. by apply H.
  - destruct (translate t' vp) eqn:E'; [| done]. apply H in E'. congruence.
Qed.

(** *** Words of TLB entries *)

Lemma invalid_entry_invalid i : entry_valid (invalid_entry i) = false.
Proof. done. Qed.

Lemma invalid_hi i : 0 <= i < NUM_TLB → TLBHI_INVALID i = MIPS_KSEG0 + i * PAGE_SIZE.
Proof.
  unfold NUM_TLB, TLBHI_INVALID. intros Hi. rewrite Z.shiftl_mul_pow2 by lia.
  change (2 ^ 12) with 4096. rewrite u32_small; zlia.
Qed.

Lemma page_frame_user vaddr :
  0 <= vaddr < MIPS_KSEG0 → user_page (Z.land vaddr PAGE_FRAME).
Proof.
  intros Hv. rewrite land_PAGE_FRAME by zlia. split.
  - pose proof (Z.mod_pos_bound vaddr PAGE_SIZE).
    pose proof (Z.mod_le vaddr PAGE_SIZE). zlia.
  - rewrite <- Zminus_mod_idemp_l, Z.sub_diag. done.
Qed.

Lemma user_page_frame hi : user_page hi → Z.land hi PAGE_FRAME = hi.
Proof. intros [Hr Hm]. apply land_PAGE_FRAME_aligned; [zlia | done]. Qed.

Lemma slot_range t i e : tlb_ok t → entries t !! i = Some e → 0 <= Z.of_nat i < NUM_TLB.
Proof.
  intros Hok Hi. apply lookup_lt_Some in Hi. rewrite ok_len in Hi by done.
  unfold NUM_TLB. lia.
Qed.

(** Against a well-formed TLB, probing a user page finds its valid entry. *)
Lemma tlb_match_user t i e hi :
  tlb_ok t → user_page hi → entries t !! i = Some e →
  tlb_match hi e = entry_valid e && (fst e =? hi).
Proof.
  intros Hok Hhi Hi. unfold tlb_match. change TLBHI_VPAGE with PAGE_FRAME.
  rewrite (user_page_frame hi) by done. pose proof (slot_range _ _ _ Hok Hi) as Hs.
  destruct (ok_slot t Hok i e Hi) as [-> | [Hv Hu]].
  - rewrite invalid_entry_invalid. simpl. rewrite invalid_hi by done.
    apply Z.eqb_neq. destruct Hhi. unfold NUM_TLB in Hs.
    rewrite land_PAGE_FRAME_aligned; [zlia | zlia |].
    rewrite Z.mod_add by done. done.
  - rewrite Hv, user_page_frame by done. done.
Qed.

Lemma first_index_ext {A} (p q : A → bool) l :
  (∀ i x, l !! i = Some x → p x = q x) → first_index p l = first_index q l.
Proof.
  induction l as [|a l IH]; intros H; [done |]. simpl.
  rewrite (H O a) by done. destruct (q a); [done |]. f_equal. apply IH.
  intros i x Hx. by apply (H (S i)).
Qed.

Lemma probe_translate t hi lo :
  tlb_ok t → user_page hi →
  tlb_probe hi lo t =
  match first_index (λ e, entry_valid e && (fst e =? hi)) (entries t) with
  | Some i => Z.of_nat i | None => -1 end.
Proof.
  intros Hok Hhi. unfold tlb_probe.
  rewrite (first_index_ext _ (λ e, entry_valid e && (fst e =? hi))); [done |].
  intros i x Hx. by eapply tlb_match_user.
Qed.

(** *** Writing one slot *)

(** [t'] is [t] with slot [i] replaced by [e] and the counters recomputed. *)
Definition slot_written (t t' : tlb_state) (i : nat) (e : Z * Z) : Prop :=
  entries t' = <[i := e]> (entries t) ∧
  freeTLBEntries t' = countb (λ e, negb (entry_valid e)) (entries t') ∧
  0 <= next_victim t' < NUM_TLB.

Lemma lookup_insert_cases {A} (l : list A) i j x y :
  <[i := x]> l !! j = Some y → (i = j ∧ y = x) ∨ (i ≠ j ∧ l !! j = Some y).
Proof.
  destruct (decide (i = j)) as [<- | Hne].
  - intros H. left. split; [done |].
    assert (i < length l)%nat.
    { apply lookup_lt_Some in H. by rewrite length_insert in H. }
    rewrite list_lookup_insert_eq in H by done. congruence.
  - intros H. rewrite list_lookup_insert_ne in H by done. by right.
Qed.

Lemma write_valid_ok t t' i hi lo :
  tlb_ok t → slot_written t t' i (hi, lo) → (i < 64)%nat →
  entry_valid (hi, lo) = true → user_page hi →
  (∀ j e, j ≠ i → entries t !! j = Some e → entry_valid e = true → fst e ≠ hi) →
  tlb_ok t'.
Proof.
  intros Hok (He & Hf & Hn) Hi Hv Hu Hd. split; [| | | done | done].
  - rewrite He, length_insert. apply Hok.
  - intros j e. rewrite He. intros [[<- ->] | [_ Hj]]%lookup_insert_cases.
    + by right.
    + by apply Hok.
  - intros j k e e'. rewrite He.
    intros [[<- ->] | [Hij Hj]]%lookup_insert_cases
      [[<- ->] | [Hik Hk]]%lookup_insert_cases Hve Hve' Hfst; [done | | |].
    + exfalso. by apply (Hd k e').
    + exfalso. by apply (Hd j e).
    + by eapply (ok_uniq t Hok).
Qed.

Lemma write_invalid_ok t t' i :
  tlb_ok t → slot_written t t' i (invalid_entry (Z.of_nat i)) → tlb_ok t'.
Proof.
  intros Hok (He & Hf & Hn). split; [| | | done | done].
  - rewrite He, length_insert. apply Hok.
  - intros j e. rewrite He. intros [[<- ->] | [_ Hj]]%lookup_insert_cases.
    + by left.
    + by apply Hok.
  - intros j k e e'. rewrite He.
    intros [[<- ->] | [Hij Hj]]%lookup_insert_cases
      [[<- ->] | [Hik Hk]]%lookup_insert_cases Hve Hve' Hfst; try done.
    by eapply (ok_uniq t Hok).
Qed.

Lemma translate_write_valid t t' i e0 hi lo :
  tlb_ok t → tlb_ok t' → slot_written t t' i (hi, lo) →
  entries t !! i = Some e0 → entry_valid (hi, lo) = true →
  ∀ vp, translate t' vp =
    if vp =? hi then Some lo
    else if entry_valid e0 && (fst e0 =? vp) then None else translate t vp.
Proof.
  intros Hok Hok' (He & _ & _) Hi Hv vp.
  assert (i < length (entries t))%nat as Hlt by (by apply lookup_lt_Some in Hi).
  destruct (Z.eqb_spec vp hi) as [-> | Hne].
  { apply translate_Some; [done |]. exists i. rewrite He.
    by rewrite list_lookup_insert_eq. }
  destruct (entry_valid e0 && (fst e0 =? vp)) eqn:E0.
  - apply andb_prop in E0 as [Hv0 Hf0]. apply Z.eqb_eq in Hf0.
    apply translate_None. intros j e. rewrite He.
    intros [[<- ->] | [Hij Hj]]%lookup_insert_cases Hve Hf; [simpl in Hf; congruence |].
    apply Hij. eapply (ok_uniq t Hok); eauto. congruence.
  - destruct (translate t vp) as [lo'|] eqn:Et.
    + apply translate_Some in Et as (j & Hj & Hvj); [| done].
      apply translate_Some; [done |]. exists j. split; [| done]. rewrite He.
      destruct (decide (i = j)) as [<- | Hij].
      * rewrite Hi in Hj. injection Hj as ->. simpl in E0.
        rewrite Hvj, Z.eqb_refl in E0. done.
      * by rewrite list_lookup_insert_ne.
    + rewrite translate_None in Et. apply translate_None. intros j e. rewrite He.
      intros [[<- ->] | [Hij Hj]]%lookup_insert_cases Hve Hf; [simpl in Hf; congruence |].
      by apply (Et j e).
Qed.

Lemma translate_write_invalid t t' i hi lo :
  tlb_ok t → tlb_ok t' → slot_written t t' i (invalid_entry (Z.of_nat i)) →
  entries t !! i = Some (hi, lo) → entry_valid (hi, lo) = true →
  ∀ vp, translate t' vp = if vp =? hi then None else translate t vp.
Proof.
  intros Hok Hok' (He & _ & _) Hi Hv vp.
  destruct (Z.eqb_spec vp hi) as [-> | Hne].
  - apply translate_None. intros j e. rewrite He.
    intros [[<- ->] | [Hij Hj]]%lookup_insert_cases Hve Hf; [done |].
    apply Hij. eapply (ok_uniq t Hok); eauto.
  - destruct (translate t vp) as [lo'|] eqn:Et.
    + apply translate_Some in Et as (j & Hj & Hvj); [| done].
      apply translate_Some; [done |]. exists j. split; [| done]. rewrite He.
      destruct (decide (i = j)) as [<- | Hij]; [congruence |].
      by rewrite list_lookup_insert_ne.
    + rewrite translate_None in Et. apply translate_None. intros j e. rewrite He.
      intros [[<- ->] | [Hij Hj]]%lookup_insert_cases Hve Hf; [done |].
      by apply (Et j e).
Qed.

(** ** Removal *)

(** The state left by removing the entry in slot [i]. *)
Definition removed (t : tlb_state) (i : nat) : tlb_state :=
  mkTlb (<[i := invalid_entry (Z.of_nat i)]> (entries t))
    (u32 (freeTLBEntries t + 1)) (TLB_victim t) (next_victim t) (TLB_Invalidations t).

Lemma removed_written t i hi lo :
  tlb_ok t → entries t !! i = Some (hi, lo) → entry_valid (hi, lo) = true →
  slot_written t (removed t i) i (invalid_entry (Z.of_nat i)).
Proof.
  intros Hok Hi Hv. split; [done |]. split; [| apply Hok]. simpl.
  rewrite (countb_insert _ _ _ _ (hi, lo)), ok_free by done.
  rewrite invalid_entry_invalid, Hv. unfold b2z. simpl.
  pose proof (countb_range (λ e, negb (entry_valid e)) (entries t)) as Hr.
  rewrite ok_len in Hr by done. rewrite u32_small; lia.
Qed.

(** The slot both removal routines act on: the valid entry for the page. *)
Definition hit_slot (t : tlb_state) (hi : Z) : option nat :=
  first_index (λ e, entry_valid e && (fst e =? hi)) (entries t).

Definition remove_result (t : tlb_state) (hi : Z) : tlb_state :=
  match hit_slot t hi with Some i => removed t i | None => t end.

Lemma removeTLBv1_eq t vaddr :
  tlb_ok t → 0 <= vaddr < MIPS_KSEG0 →
  removeTLBv1 vaddr t = Done 0 (remove_result t (Z.land vaddr PAGE_FRAME)).
Proof.
  intros Hok Hv. unfold removeTLBv1, gets, modify, mbind, M_bind.
  rewrite probe_translate by (done || by apply page_frame_user).
  unfold remove_result, hit_slot. destruct (first_index _ _) as [i|] eqn:E; [| done].
  unfold noEntryFound. rewrite (proj2 (Z.eqb_neq _ _)) by lia.
  unfold mret, M_ret, removed, set_free, tlb_write. simpl. by rewrite Nat2Z.id.
Qed.

Lemma removeTLB_eq t vaddr :
  tlb_ok t → 0 <= vaddr < MIPS_KSEG0 →
  removeTLB vaddr t = Done 0 (remove_result t (Z.land vaddr PAGE_FRAME)).
Proof.
  intros Hok Hv. unfold removeTLB, gets, modify, mbind, M_bind.
  rewrite (first_index_ext _ (λ e, entry_valid e && (fst e =? Z.land vaddr PAGE_FRAME))).
  - unfold remove_result, hit_slot. destruct (first_index _ _) as [i|]; [| done].
    unfold mret, M_ret, removed, set_free, tlb_write. simpl. by rewrite Nat2Z.id.
  - intros i e Hi. rewrite <- (tlb_match_user t i e) by (done || by apply page_frame_user).
    unfold tlb_match. change TLBHI_VPAGE with PAGE_FRAME.
    rewrite (user_page_frame (Z.land vaddr PAGE_FRAME)) by by apply page_frame_user.
    destruct (ok_slot t Hok i e Hi) as [-> | [_ Hu]].
    + simpl. pose proof (slot_range _ _ _ Hok Hi) as Hs. rewrite invalid_hi by done.
      rewrite (land_PAGE_FRAME_aligned (_ + _));
        [done | unfold NUM_TLB in *; zlia | by rewrite Z.mod_add by done].
    + by rewrite (user_page_frame (fst e)).
Qed.

(** The two removal routines agree: the probe-based [removeTLBv1] is
    equivalent to the scanning [removeTLB] on every well-formed TLB. *)
Theorem removeTLB_equiv t vaddr :
  tlb_ok t → 0 <= vaddr < MIPS_KSEG0 → removeTLBv1 vaddr t = removeTLB vaddr t.
Proof. intros Hok Hv. by rewrite removeTLBv1_eq, removeTLB_eq. Qed.

Lemma remove_result_ok t hi : tlb_ok t → tlb_ok (remove_result t hi).
Proof.
  intros Hok. unfold remove_result, hit_slot.
  destruct (first_index _ _) as [i|] eqn:E; [| done].
  apply first_index_lookup in E as ([h lo] & Hi & Hp). apply andb_prop in Hp as [Hv _].
  eapply write_invalid_ok; [done |]. by eapply removed_written.
Qed.

Lemma remove_result_translate t hi vp :
  tlb_ok t → translate (remove_result t hi) vp = if vp =? hi then None else translate t vp.
Proof.
  intros Hok. pose proof (remove_result_ok t hi Hok) as Hok'. revert Hok'.
  unfold remove_result, hit_slot. destruct (first_index _ _) as [i|] eqn:E.
  - apply first_index_lookup in E as ([h lo] & Hi & Hp).
    apply andb_prop in Hp as [Hv Hh]. apply Z.eqb_eq in Hh. simpl in Hh. subst h.
    intros Hok'. eapply translate_write_invalid; [done | done | | done | done].
    by eapply removed_written.
  - intros _. destruct (Z.eqb_spec vp hi) as [-> |]; [| done].
    apply translate_None. intros i e Hi Hv Hf. rewrite first_index_None in E.
    specialize (E e (list_elem_of_lookup_2 _ _ _ Hi)). cbn in E.
    rewrite Hv, Hf, Z.eqb_refl in E. done.
Qed.

(** Removal succeeds, keeps the TLB well-formed, deletes the translation of
    the page and leaves every other one. *)
Theorem removeTLBv1_spec t vaddr :
  tlb_ok t → 0 <= vaddr < MIPS_KSEG0 →
  ∃ t', removeTLBv1 vaddr t = Done 0 t' ∧ tlb_ok t' ∧
    ∀ vp, translate t' vp =
      if vp =? Z.land vaddr PAGE_FRAME then None else translate t vp.
Proof.
  intros Hok Hv. eexists. split; [by apply removeTLBv1_eq |].
  split; [by apply remove_result_ok |]. intros vp. by apply remove_result_translate.
Qed.

(** ** Insertion *)

(** The EntryLo word of frame [n]: frame address, valid, and the
    write-permission bit if [d]. *)
Definition frame_elo (n : Z) (d : bool) : Z :=
  let pa := n * PAGE_SIZE in
  if d then Z.lor (Z.lor pa TLBLO_VALID) TLBLO_DIRTY else Z.lor pa TLBLO_VALID.

(** Physical memory is at most 512 MB: frame numbers are below 2^17. *)
Definition frame_ok (n : Z) : Prop := 0 <= n < 2 ^ 17.

Lemma frame_pa n :
  frame_ok n → u32 (u32 (n * PAGE_SIZE + MIPS_KSEG0) - MIPS_KSEG0) = n * PAGE_SIZE.
Proof.
  unfold frame_ok. intros Hn. rewrite (u32_small (n * PAGE_SIZE + _)) by zlia.
  rewrite u32_small; zlia.
Qed.

Lemma frame_elo_bit n d i :
  0 <= i → Z.testbit (frame_elo n d) i =
    Z.testbit (n * PAGE_SIZE) i || (i =? 9) || (d && (i =? 10)).
Proof.
  intros Hi. unfold frame_elo. change TLBLO_VALID with (2 ^ 9).
  change TLBLO_DIRTY with (2 ^ 10).
  destruct d; rewrite ?Z.lor_spec, ?Z.pow2_bits_eqb by lia;
    rewrite (Z.eqb_sym i 9), ?(Z.eqb_sym i 10); simpl; by rewrite ?orb_false_r.
Qed.

Lemma frame_elo_valid hi n d : entry_valid (hi, frame_elo n d) = true.
Proof.
  unfold entry_valid. simpl. apply negb_true_iff, Z.eqb_neq. intros H.
  assert (Z.testbit (Z.land (frame_elo n d) TLBLO_VALID) 9 = false) as Hb
    by (rewrite H; apply Z.bits_0).
  rewrite Z.land_spec, frame_elo_bit in Hb by lia.
  change TLBLO_VALID with (2 ^ 9) in Hb. rewrite Z.pow2_bits_true in Hb by lia.
  rewrite Z.eqb_refl, orb_true_r in Hb. done.
Qed.

(** The frame number can be read back from the entry, and the permission. *)
Lemma frame_elo_frame n d : 0 <= n → Z.shiftr (frame_elo n d) 12 = n.
Proof.
  intros Hn. apply Z.bits_inj'. intros i Hi.
  rewrite Z.shiftr_spec, frame_elo_bit by lia.
  rewrite (proj2 (Z.eqb_neq (i + 12) 9)), (proj2 (Z.eqb_neq (i + 12) 10)) by lia.
  rewrite andb_false_r, !orb_false_r. unfold PAGE_SIZE. change 4096 with (2 ^ 12).
  rewrite Z.mul_pow2_bits by lia. f_equal. lia.
Qed.

Lemma frame_elo_dirty n d :
  0 <= n → negb (Z.land (frame_elo n d) TLBLO_DIRTY =? 0) = d.
Proof.
  intros Hn. assert (Z.land (frame_elo n d) TLBLO_DIRTY = if d then TLBLO_DIRTY else 0) as ->.
  { apply Z.bits_inj'. intros i Hi. rewrite Z.land_spec, frame_elo_bit by lia.
    change TLBLO_DIRTY with (2 ^ 10). unfold PAGE_SIZE. change 4096 with (2 ^ 12).
    rewrite Z.pow2_bits_eqb by lia.
    destruct (Z.eqb_spec 10 i) as [<- | Hne].
    - rewrite Z.mul_pow2_bits_low by lia. destruct d; reflexivity.
    - rewrite andb_false_r. destruct d; [| by rewrite Z.bits_0].
      rewrite Z.pow2_bits_false; lia. }
  by destruct d.
Qed.

(** What [addTLB] writes, and where. *)
Definition free_slot (t : tlb_state) : option nat :=
  first_index (λ e, negb (entry_valid e)) (entries t).

Definition added (t : tlb_state) (hi n : Z) (d : bool) : tlb_state :=
  match free_slot t with
  | Some i =>
      mkTlb (<[i := (hi, frame_elo n d)]> (entries t))
        (u32 (freeTLBEntries t - 1)) (TLB_victim t) (next_victim t)
        (TLB_Invalidations t)
  | None =>
      mkTlb (<[Z.to_nat (next_victim t) := (hi, frame_elo n true)]> (entries t))
        (freeTLBEntries t) (next_victim t) ((next_victim t + 1) mod NUM_TLB)
        (TLB_Invalidations t)
  end.

Lemma free_slot_zero t : tlb_ok t → free_slot t = None ↔ freeTLBEntries t = 0.
Proof.
  intros Hok. rewrite ok_free by done. unfold free_slot.
  by rewrite first_index_None, countb_zero.
Qed.

Lemma probe_after_write t i hi lo :
  (i < length (entries t))%nat → user_page hi →
  (match first_index (tlb_match hi) (<[i := (hi, lo)]> (entries t)) with
   | Some j => Z.of_nat j | None => -1 end <? 0) = false.
Proof.
  intros Hi Hu. destruct (first_index_exists (tlb_match hi)
    (<[i := (hi, lo)]> (entries t))) as [j ->].
  - exists (hi, lo). split; [| by unfold tlb_match; rewrite Z.eqb_refl].
    eapply (list_elem_of_lookup_2 _ i). by apply list_lookup_insert_eq.
  - apply Z.ltb_ge. lia.
Qed.

Lemma translate_no_probe t hi lo :
  tlb_ok t → user_page hi → translate t hi = None → tlb_probe hi lo t = -1.
Proof.
  intros Hok Hu Ht. rewrite probe_translate by done.
  destruct (first_index _ _) as [i|] eqn:E; [| done].
  apply first_index_lookup in E as (e & Hi & Hp). apply andb_prop in Hp as [Hv Hp].
  rewrite translate_None in Ht. apply Z.eqb_eq in Hp. exfalso. by eapply Ht.
Qed.

(** [addTLB] on an unmapped page of the table: it returns 0 and writes the
    entry of the first page-table frame of that page and process. *)
Lemma addTLB_eq t pg vaddr pid' n e :
  tlb_ok t → 0 <= vaddr < MIPS_KSEG0 → Z.of_nat (length pg) <= 2 ^ 17 →
  translate t (Z.land vaddr PAGE_FRAME) = None →
  first_index (pt_matches (vaddr / PAGE_SIZE) pid') pg = Some n →
  pg !! n = Some e →
  addTLB pg vaddr pid' t =
    Done 0 (added t (Z.land vaddr PAGE_FRAME) (Z.of_nat n) (Dirty e)).
Proof.
  intros Hok Hv Hpg Ht Hn He. pose proof (page_frame_user vaddr Hv) as Hu.
  unfold addTLB. rewrite Hn, He. simpl.
  assert (frame_ok (Z.of_nat n)) as Hfr.
  { apply lookup_lt_Some in He. unfold frame_ok. lia. }
  rewrite frame_pa by done. fold (frame_elo (Z.of_nat n) (Dirty e)).
  unfold gets, modify, mbind, M_bind, mret, M_ret.
  rewrite translate_no_probe by done. simpl.
  unfold added, free_slot. destruct (first_index _ (entries t)) as [i|] eqn:E.
  - unfold tlb_probe, tlb_write. simpl. rewrite Nat2Z.id, probe_after_write; [done | | done].
    by eapply first_index_lt.
  - unfold tlb_get_rr_victim, gets, modify, mbind, M_bind, mret, M_ret.
    unfold tlb_probe, tlb_write. simpl.
    fold (frame_elo (Z.of_nat n) true).
    rewrite probe_after_write; [done | simpl | done].
    rewrite ok_len by done. destruct (ok_next t Hok). unfold NUM_TLB in *. lia.
Qed.

Lemma added_written t hi n d i :
  tlb_ok t → free_slot t = Some i → slot_written t (added t hi n d) i (hi, frame_elo n d).
Proof.
  intros Hok Hs. unfold added. rewrite Hs. split; [done |]. split; [| apply Hok].
  apply first_index_lookup in Hs as (e & He & Hp). simpl.
  rewrite (countb_insert _ _ _ _ e), ok_free by done.
  rewrite frame_elo_valid, Hp. unfold b2z. simpl.
  pose proof (countb_range (λ e, negb (entry_valid e)) (entries t)) as Hr.
  assert (countb (λ e, negb (entry_valid e)) (entries t) ≠ 0) as Hnz.
  { intros H0. rewrite countb_zero in H0. rewrite (H0 e) in Hp; [done |].
    by eapply list_elem_of_lookup_2. }
  rewrite ok_len in Hr by done. rewrite u32_small; lia.
Qed.

Lemma replaced_written t hi n d :
  tlb_ok t → free_slot t = None →
  slot_written t (added t hi n d) (Z.to_nat (next_victim t)) (hi, frame_elo n true).
Proof.
  intros Hok Hs. pose proof (proj1 (free_slot_zero t Hok) Hs) as Hf0.
  unfold added. rewrite Hs. split; [done |].
  split; [| by apply Z.mod_pos_bound]. simpl. rewrite Hf0. symmetry.
  apply countb_zero. intros x Hx. apply list_elem_of_lookup in Hx as [j Hj].
  apply lookup_insert_cases in Hj as [[_ ->] | [_ Hj]].
  - apply negb_false_iff. apply (frame_elo_valid hi n true).
  - unfold free_slot in Hs. rewrite first_index_None in Hs. apply Hs.
    by eapply list_elem_of_lookup_2.
Qed.

(** Adding a page that is not in the TLB keeps it well-formed. *)
Lemma added_ok t hi n d :
  tlb_ok t → user_page hi → translate t hi = None → tlb_ok (added t hi n d).
Proof.
  intros Hok Hu Ht. rewrite translate_None in Ht.
  destruct (free_slot t) as [i|] eqn:Hs.
  - eapply write_valid_ok; [done | by apply added_written | | apply frame_elo_valid | done |].
    + apply first_index_lt in Hs. by rewrite ok_len in Hs.
    + intros j e _ Hj Hv. by eapply Ht.
  - eapply write_valid_ok; [done | by apply replaced_written | | apply frame_elo_valid | done |].
    + destruct (ok_next t Hok). unfold NUM_TLB in *. lia.
    + intros j e _ Hj Hv. by eapply Ht.
Qed.

(** With a free slot, [addTLB] of a resident page of the process returns 0,
    keeps the TLB well-formed, maps the page to its frame with the page's
    write permission, and leaves every other translation. *)
Theorem addTLB_free t pg vaddr pid' n e :
  tlb_ok t → 0 <= vaddr < MIPS_KSEG0 → Z.of_nat (length pg) <= 2 ^ 17 →
  translate t (Z.land vaddr PAGE_FRAME) = None → 0 < freeTLBEntries t →
  first_index (pt_matches (vaddr / PAGE_SIZE) pid') pg = Some n → pg !! n = Some e →
  ∃ t', addTLB pg vaddr pid' t = Done 0 t' ∧ tlb_ok t' ∧
    freeTLBEntries t' = freeTLBEntries t - 1 ∧
    ∀ vp, translate t' vp =
      if vp =? Z.land vaddr PAGE_FRAME then Some (frame_elo (Z.of_nat n) (Dirty e))
      else translate t vp.
Proof.
  intros Hok Hv Hpg Ht Hf Hn He. pose proof (page_frame_user vaddr Hv) as Hu.
  eexists. split; [by eapply addTLB_eq |].
  pose proof (added_ok t _ (Z.of_nat n) (Dirty e) Hok Hu Ht) as Hok'.
  destruct (free_slot t) as [i|] eqn:Hs; [| apply free_slot_zero in Hs; [lia | done]].
  pose proof (added_written t (Z.land vaddr PAGE_FRAME) (Z.of_nat n) (Dirty e) i Hok Hs) as Hw.
  pose proof Hs as Hs'. apply first_index_lookup in Hs' as (e0 & He0 & Hinv).
  apply negb_true_iff in Hinv.
  split; [done |]. split.
  - unfold added. rewrite Hs. simpl.
    pose proof (countb_range (λ e, negb (entry_valid e)) (entries t)) as Hr.
    rewrite ok_len, <- ok_free in Hr by done. rewrite u32_small; lia.
  - intros vp. rewrite (translate_write_valid t _ i e0 _ _ Hok Hok' Hw He0) by
      apply frame_elo_valid. by rewrite Hinv.
Qed.

(** A concrete, fully invalid TLB: the state [invalidate_TLB] leaves. *)
Definition empty_tlb : tlb_state :=
  mkTlb (map (λ i, invalid_entry (Z.of_nat i)) (seq 0 64)) 64 0 0 0.

Lemma empty_entries i e :
  entries empty_tlb !! i = Some e → e = invalid_entry (Z.of_nat i).
Proof.
  intros Hi. unfold empty_tlb in Hi. cbn [entries] in Hi.
  apply list_lookup_fmap_Some in Hi as (j & -> & Hj).
  apply lookup_seq in Hj as [-> _]. done.
Qed.

Lemma empty_tlb_ok : tlb_ok empty_tlb.
Proof.
  split; [reflexivity | | | reflexivity | done].
  - intros i e Hi. left. by apply empty_entries.
  - intros i j e e' Hi _ Hv. apply empty_entries in Hi as ->. done.
Qed.

Lemma addTLB_free_witness :
  ∃ t', addTLB [mkPT false true 0 0 0; mkPT true true 3 0x400 1] 0x400010 3 empty_tlb
        = Done 0 t' ∧ tlb_ok t' ∧ freeTLBEntries t' = 63 ∧
    ∀ vp, translate t' vp =
      if vp =? 0x400000 then Some (frame_elo 1 true) else translate empty_tlb vp.
Proof.
  apply (addTLB_free empty_tlb [mkPT false true 0 0 0; mkPT true true 3 0x400 1]
           0x400010 3 1 (mkPT true true 3 0x400 1));
    [apply empty_tlb_ok | zlia | simpl; lia | vm_compute; reflexivity
    | vm_compute; reflexivity | reflexivity | reflexivity].
Defined.

(** On a full TLB the round-robin victim is replaced.  The entry written
    then carries the write-permission bit whatever the page table says: a
    read-only page becomes writable. *)
Theorem addTLB_replace t pg vaddr pid' n e :
  tlb_ok t → 0 <= vaddr < MIPS_KSEG0 → Z.of_nat (length pg) <= 2 ^ 17 →
  translate t (Z.land vaddr PAGE_FRAME) = None → freeTLBEntries t = 0 →
  first_index (pt_matches (vaddr / PAGE_SIZE) pid') pg = Some n → pg !! n = Some e →
  ∃ t' hi lo, addTLB pg vaddr pid' t = Done 0 t' ∧ tlb_ok t' ∧
    freeTLBEntries t' = 0 ∧
    next_victim t' = (next_victim t + 1) mod NUM_TLB ∧
    entries t !! Z.to_nat (next_victim t) = Some (hi, lo) ∧
    ∀ vp, translate t' vp =
      if vp =? Z.land vaddr PAGE_FRAME then Some (frame_elo (Z.of_nat n) true)
      else if vp =? hi then None else translate t vp.
Proof.
  intros Hok Hv Hpg Ht Hf Hn He. pose proof (page_frame_user vaddr Hv) as Hu.
  pose proof (added_ok t _ (Z.of_nat n) (Dirty e) Hok Hu Ht) as Hok'.
  assert (free_slot t = None) as Hs by (by apply free_slot_zero).
  pose proof (replaced_written t (Z.land vaddr PAGE_FRAME) (Z.of_nat n) (Dirty e) Hok Hs) as Hw.
  destruct (lookup_lt_is_Some_2 (entries t) (Z.to_nat (next_victim t))) as [[hi lo] He0].
  { rewrite ok_len by done. destruct (ok_next t Hok). unfold NUM_TLB in *. lia. }
  assert (entry_valid (hi, lo) = true) as Hv0.
  { apply negb_false_iff. unfold free_slot in Hs. rewrite first_index_None in Hs.
    apply (Hs (hi, lo)). by eapply list_elem_of_lookup_2. }
  eexists _, hi, lo. split; [by eapply addTLB_eq |]. split; [done |].
  split; [unfold added; by rewrite Hs |]. split; [unfold added; by rewrite Hs |].
  split; [done |]. intros vp.
  rewrite (translate_write_valid t _ _ _ _ _ Hok Hok' Hw He0) by apply frame_elo_valid.
  simpl. rewrite Hv0. simpl. by rewrite (Z.eqb_sym hi vp).
Qed.

(** ** Invalidation and the replacement order *)

Lemma tlb_invalid_fill_spec n from t :
  length (entries t) = 64%nat → 0 <= from → from + Z.of_nat n <= 64 →
  ∃ t', for_loop n from (λ i, modify (tlb_write (TLBHI_INVALID i) TLBLO_INVALID i)) t
        = Done tt t' ∧
    (∀ i, (i < 64)%nat → entries t' !! i =
       if (from <=? Z.of_nat i) && (Z.of_nat i <? from + Z.of_nat n)
       then Some (invalid_entry (Z.of_nat i)) else entries t !! i) ∧
    length (entries t') = 64%nat ∧ freeTLBEntries t' = freeTLBEntries t ∧
    next_victim t' = next_victim t ∧ TLB_victim t' = TLB_victim t ∧
    TLB_Invalidations t' = TLB_Invalidations t.
Proof.
  revert from t. induction n as [|n IH]; intros from t Hl Hf Hn.
  - exists t. split; [done |]. repeat split; [| done]. intros i Hi.
    destruct (Z.leb_spec from (Z.of_nat i)), (Z.ltb_spec (Z.of_nat i) (from + Z.of_nat 0));
      simpl; (done || lia).
  - set (t1 := tlb_write (TLBHI_INVALID from) TLBLO_INVALID from t).
    destruct (IH (from + 1) t1) as (t' & Ht' & He & Hl' & H1 & H2 & H3 & H4);
      [by unfold t1; simpl; rewrite length_insert | lia | lia |].
    exists t'. split; [exact Ht' |]. repeat split; try done. intros i Hi.
    rewrite He by done. unfold t1, tlb_write. simpl.
    destruct (decide (Z.of_nat i = from)) as [E | E].
    + rewrite (proj2 (Z.leb_gt (from + 1) _)) by lia. simpl.
      replace (Z.to_nat from) with i by lia.
      rewrite list_lookup_insert_eq by lia.
      rewrite (proj2 (Z.leb_le from _)), (proj2 (Z.ltb_lt _ _)) by lia. by subst from.
    + rewrite list_lookup_insert_ne by lia.
      destruct (Z.leb_spec (from + 1) (Z.of_nat i)), (Z.leb_spec from (Z.of_nat i)),
        (Z.ltb_spec (Z.of_nat i) (from + 1 + Z.of_nat n)),
        (Z.ltb_spec (Z.of_nat i) (from + Z.of_nat (S n))); simpl; (done || lia).
Qed.

Lemma invalidate_TLB_ok t :
  length (entries t) = 64%nat → 0 <= next_victim t < NUM_TLB →
  ∃ t', invalidate_TLB t = Done tt t' ∧ tlb_ok t' ∧
    entries t' = entries empty_tlb ∧ freeTLBEntries t' = NUM_TLB ∧
    TLB_Invalidations t' = u32 (TLB_Invalidations t + 1) ∧
    ∀ vp, translate t' vp = None.
Proof.
  intros Hl Hn. unfold invalidate_TLB, tlb_invalid_fill, mbind, M_bind.
  change (Z.to_nat NUM_TLB) with 64%nat. unfold modify at 1.
  destruct (tlb_invalid_fill_spec 64 0
    (set_invalidations (u32 (TLB_Invalidations t + 1)) t))
    as (t' & -> & He & Hl' & _ & Hnx & _ & Hi); [done | lia | lia |].
  assert (entries t' = entries empty_tlb) as E.
  { apply list_eq_same_length with 64%nat; [reflexivity | done |].
    intros i x y Hi64 Hx Hy. rewrite He in Hx by done.
    rewrite (proj2 (Z.leb_le _ _)), (proj2 (Z.ltb_lt _ _)) in Hx by lia.
    injection Hx as <-. symmetry. by apply empty_entries. }
  exists (set_free NUM_TLB t'). split; [done |].
  assert (∀ i e, entries t' !! i = Some e → e = invalid_entry (Z.of_nat i)) as Hinv.
  { intros i e. rewrite E. apply empty_entries. }
  split; [split; simpl | repeat split; [done.. |]].
  - done.
  - intros i e Hi'. left. by apply Hinv.
  - intros i j e e' Hi' _ Hv. apply Hinv in Hi' as ->. done.
  - by rewrite E.
  - by rewrite Hnx.
  - intros vp. apply translate_None. simpl. intros i e Hi' Hv.
    apply Hinv in Hi' as ->. done.
Qed.

(** After [invalidate_TLB] no page is mapped, all 64 slots are counted free,
    and the contents do not depend on the previous state. *)
Theorem invalidate_TLB_spec t :
  length (entries t) = 64%nat → 0 <= next_victim t < NUM_TLB →
  ∃ t', invalidate_TLB t = Done tt t' ∧ tlb_ok t' ∧
    entries t' = entries empty_tlb ∧ freeTLBEntries t' = NUM_TLB ∧
    TLB_Invalidations t' = u32 (TLB_Invalidations t + 1) ∧
    ∀ vp, translate t' vp = None.
Proof. apply invalidate_TLB_ok. Qed.

Lemma invalidate_TLB_spec_witness :
  ∃ t', invalidate_TLB (added empty_tlb 0x400000 7 true) = Done tt t' ∧ tlb_ok t' ∧
    entries t' = entries empty_tlb ∧ freeTLBEntries t' = NUM_TLB ∧
    TLB_Invalidations t' = 1 ∧ ∀ vp, translate t' vp = None.
Proof. apply invalidate_TLB_spec; [reflexivity | done]. Defined.

(** The [k]-th victim chosen from now on. *)
Fixpoint rr_sequence (k : nat) (t : tlb_state) : list Z :=
  match k with
  | O => []
  | S k' => match tlb_get_rr_victim t with
            | Done i t' => i :: rr_sequence k' t'
            | _ => []
            end
  end.

(** Round robin is fair: the slots are taken in cyclic order, so any 64
    consecutive replacements hit every slot exactly once. *)
Theorem rr_cyclic k t :
  0 <= next_victim t < NUM_TLB →
  rr_sequence k t = map (λ i, (next_victim t + Z.of_nat i) mod NUM_TLB) (seq 0 k).
Proof.
  unfold NUM_TLB. revert t. induction k as [|k IH]; intros t Hn; [done |].
  set (t' := set_victim (TLB_victim t) ((next_victim t + 1) mod NUM_TLB) t).
  transitivity (next_victim t :: rr_sequence k t'); [done |].
  rewrite IH by (apply Z.mod_pos_bound; lia).
  cbn [seq map]. rewrite Z.add_0_r, (Z.mod_small (next_victim t)) by lia. f_equal.
  rewrite <- (seq_shift k 0), map_map. apply map_ext. intros i.
  unfold t', set_victim, NUM_TLB. cbn [next_victim].
  rewrite Zplus_mod_idemp_l. f_equal. lia.
Qed.

Lemma rr_cyclic_witness :
  rr_sequence 3 (set_victim 0 62 empty_tlb) = [62; 63; 0].
Proof. rewrite rr_cyclic by done. reflexivity. Defined.

(** ** Concrete TLBs *)

Definition one_tlb : tlb_state := added empty_tlb 0x400000 7 true.

Lemma one_tlb_ok : tlb_ok one_tlb.
Proof.
  apply added_ok; [exact empty_tlb_ok | split; [zlia | reflexivity] | vm_compute; reflexivity].
Qed.

Lemma removeTLBv1_spec_witness :
  ∃ t', removeTLBv1 0x400abc one_tlb = Done 0 t' ∧ tlb_ok t' ∧
    ∀ vp, translate t' vp = if vp =? 0x400000 then None else translate one_tlb vp.
Proof. apply (removeTLBv1_spec one_tlb 0x400abc); [exact one_tlb_ok | zlia]. Defined.

Lemma removeTLB_equiv_witness : removeTLBv1 0x400abc one_tlb = removeTLB 0x400abc one_tlb.
Proof. apply (removeTLB_equiv one_tlb 0x400abc); [exact one_tlb_ok | zlia]. Defined.

(** All 64 slots in use: slot [i] maps page [i]. *)
Definition full_tlb : tlb_state :=
  mkTlb (map (λ i, (Z.of_nat i * PAGE_SIZE, frame_elo (Z.of_nat i) false)) (seq 0 64)) 0 0 5 0.

Lemma full_entries i e :
  entries full_tlb !! i = Some e →
  (i < 64)%nat ∧ e = (Z.of_nat i * PAGE_SIZE, frame_elo (Z.of_nat i) false).
Proof.
  intros Hi. unfold full_tlb in Hi. cbn [entries] in Hi.
  apply list_lookup_fmap_Some in Hi as (j & -> & Hj). by apply lookup_seq in Hj as [-> ?].
Qed.

Lemma full_tlb_ok : tlb_ok full_tlb.
Proof.
  split; [reflexivity | | | reflexivity | done].
  - intros i e [Hi ->]%full_entries. right. split; [apply frame_elo_valid |].
    split; [simpl; zlia | simpl; by rewrite Z.mod_mul].
  - intros i j e e' [_ ->]%full_entries [_ ->]%full_entries _ _. simpl. unfold PAGE_SIZE. lia.
Qed.

Lemma addTLB_replace_witness :
  ∃ t' hi lo, addTLB [mkPT false true 0 0 0; mkPT false true 3 0x400 1] 0x400010 3 full_tlb
        = Done 0 t' ∧ tlb_ok t' ∧ freeTLBEntries t' = 0 ∧ next_victim t' = 6 ∧
    entries full_tlb !! 5%nat = Some (hi, lo) ∧
    ∀ vp, translate t' vp =
      if vp =? 0x400000 then Some (frame_elo 1 true)
      else if vp =? hi then None else translate full_tlb vp.
Proof.
  apply (addTLB_replace full_tlb [mkPT false true 0 0 0; mkPT false true 3 0x400 1]
           0x400010 3 1 (mkPT false true 3 0x400 1));
    [apply full_tlb_ok | zlia | simpl; lia | vm_compute; reflexivity
    | reflexivity | reflexivity | reflexivity].
Defined.

End Tlb.
