(* ===== verification/PageTable.v ===== *)
(** * The inverted page table (vm/pt.c)

    [main_PG] has one entry per physical frame.  Before a frame is handed to a
    process it is marked valid with [pid] and [page_number] zero ("kernel");
    [addPT] then records the process and page.  The elapsed-time statistics of
    [pageSearch] are not represented. *)

From stdpp Require Import base list numbers strings.
From Stdlib Require Import ZArith Lia.
From S2P Require Import Prelude Segments Tlb.
Import Segments Tlb.

#[local] Open Scope Z_scope.

Module PageTable.

(** The loop returns the first valid entry with the page number of [addr],
    whatever process it belongs to. *)
Definition pageSearch (pg : list invertedPT) (addr : Z) : Z :=
  match first_index (λ e, Valid e && (page_number e =? addr / PAGE_SIZE)) pg with
  | Some i => Z.of_nat i
  | None => noEntryFound
  end.

Definition addPT (frame_index vaddr pid' : Z) (dirty : bool) : M (list invertedPT) Z :=
  let vaddr := Z.land vaddr PAGE_FRAME in
  let vaddr := vaddr / PAGE_SIZE in
  e ← deref (λ pg, pg !! Z.to_nat frame_index) "main_PG index out of range";
  (if Valid e then
     if (page_number e =? 0) && (pid e =? 0) then mret tt
     else panic "addPT() error: You cannot add this page table"
   else mret tt) ;;
  modify (λ pg, <[Z.to_nat frame_index :=
                    mkPT dirty true (u8 pid') vaddr (victim_counter e)]> pg) ;;
  mret 0.

(** The loop state of [victim_pageSearch]: [first] and [min_value] together
    ([None] while [first] is true), and [victim_page]. *)
Definition victim_step (cand : invertedPT → bool)
    (acc : option Z * Z) (ie : nat * invertedPT) : option Z * Z :=
  let '(min_value, victim_page) := acc in
  let '(i, e) := ie in
  if cand e then
    match min_value with
    | None => (Some (victim_counter e), Z.of_nat i)
    | Some m => if victim_counter e <? m
                then (Some (victim_counter e), Z.of_nat i)
                else (min_value, victim_page)
    end
  else acc.

(** A page of the current process lying in the code ([type] false) or data
    ([type] true) segment. *)
Definition victim_candidate (type : bool) (curpid : Z) (a : addrspace)
    (e : invertedPT) : bool :=
  (pid e =? curpid) &&
  (if type then is_dataSegment (u32 (page_number e * PAGE_SIZE)) a
   else is_codeSegment (u32 (page_number e * PAGE_SIZE)) a).

Definition victim_pageSearch (pg : list invertedPT) (type : bool) (curpid : Z)
    (a : addrspace) : Z :=
  snd (foldl (victim_step (victim_candidate type curpid a))
         (None, noEntryFound) (zip (seq 0 (length pg)) pg)).

(** ** Properties *)

(** The search returns the least index of a valid entry for the page, and
    [noEntryFound] exactly when there is none. *)
Theorem pageSearch_spec pg addr :
  (∃ i e, pageSearch pg addr = Z.of_nat i ∧ pg !! i = Some e ∧ Valid e = true ∧
     page_number e = addr / PAGE_SIZE ∧
     ∀ j e', (j < i)%nat → pg !! j = Some e' → Valid e' = true →
       page_number e' ≠ addr / PAGE_SIZE) ∨
  (pageSearch pg addr = noEntryFound ∧
   ∀ e, e ∈ pg → Valid e = true → page_number e ≠ addr / PAGE_SIZE).
Proof.
  unfold pageSearch. destruct (first_index _ pg) as [i|] eqn:E.
  - left. apply first_index_Some in E as (e & Hi & Hp & Hmin).
    apply andb_prop in Hp as [Hv Hp]. apply Z.eqb_eq in Hp.
    exists i, e. repeat split; [done.. |]. intros j e' Hj He' Hv' Heq.
    specialize (Hmin j e' Hj He'). cbn in Hmin.
    rewrite Hv', Heq, Z.eqb_refl in Hmin. done.
  - right. split; [done |]. rewrite first_index_None in E. intros e He Hv Heq.
    specialize (E e He). cbn in E. rewrite Hv, Heq, Z.eqb_refl in E. done.
Qed.

Lemma page_of_frame vaddr :
  fits 32 vaddr → Z.land vaddr PAGE_FRAME / PAGE_SIZE = vaddr / PAGE_SIZE.
Proof.
  intros Hv. rewrite land_PAGE_FRAME by done.
  pose proof (Z.div_mod vaddr PAGE_SIZE ltac:(done)) as E.
  replace (vaddr - vaddr mod PAGE_SIZE) with (vaddr / PAGE_SIZE * PAGE_SIZE) by lia.
  by rewrite Z.div_mul.
Qed.

(** The entry [addPT] leaves in the table. *)
Definition added_entry (e : invertedPT) (vaddr pid' : Z) (dirty : bool) : invertedPT :=
  mkPT dirty true (u8 pid') (vaddr / PAGE_SIZE) (victim_counter e).

Lemma addPT_ok pg i e vaddr pid' dirty :
  fits 32 vaddr → pg !! i = Some e →
  (Valid e = true → page_number e = 0 ∧ pid e = 0) →
  addPT (Z.of_nat i) vaddr pid' dirty pg =
    Done 0 (<[i := added_entry e vaddr pid' dirty]> pg).
Proof.
  intros Hv Hi Hfree. unfold addPT, deref, modify, mbind, M_bind, mret, M_ret.
  rewrite Nat2Z.id, Hi, page_of_frame by done.
  destruct (Valid e) eqn:Ev; [| done].
  destruct (Hfree eq_refl) as [-> ->]. done.
Qed.

(** [addPT] refuses to overwrite an entry that belongs to a process, and on a
    free or kernel entry it records exactly the page, process and permission:
    the page is then found, and no other frame's entry changes. *)
Theorem addPT_spec pg i e vaddr pid' dirty :
  fits 32 vaddr → pg !! i = Some e →
  if Valid e && negb ((page_number e =? 0) && (pid e =? 0))
  then addPT (Z.of_nat i) vaddr pid' dirty pg
       = Panic "addPT() error: You cannot add this page table"
  else ∃ pg', addPT (Z.of_nat i) vaddr pid' dirty pg = Done 0 pg' ∧
       length pg' = length pg ∧
       (∀ j, pg' !! j = if decide (j = i)
                        then Some (added_entry e vaddr pid' dirty) else pg !! j) ∧
       pageSearch pg' vaddr ≠ noEntryFound.
Proof.
  intros Hv Hi. destruct (Valid e && negb ((page_number e =? 0) && (pid e =? 0))) eqn:E.
  - apply andb_prop in E as [Ev En]. apply negb_true_iff in En.
    unfold addPT, deref, mbind, M_bind. by rewrite Nat2Z.id, Hi, Ev, En.
  - eexists. split.
    { apply addPT_ok; [done | done |]. intros Ev. rewrite Ev in E. cbn in E.
      apply negb_false_iff in E. by zbool. }
    assert (i < length pg)%nat by (by apply lookup_lt_Some in Hi).
    split; [apply length_insert |]. split.
    + intros j. destruct (decide (j = i)) as [-> |].
      * by rewrite list_lookup_insert_eq.
      * by rewrite list_lookup_insert_ne.
    + intros Hnone.
      destruct (pageSearch_spec (<[i := added_entry e vaddr pid' dirty]> pg) vaddr)
        as [(k & ? & Hk & _) | [_ Hall]].
      * rewrite Hk in Hnone. unfold noEntryFound in Hnone. lia.
      * apply (Hall (added_entry e vaddr pid' dirty)); [| done | done].
        eapply (list_elem_of_lookup_2 _ i). by apply list_lookup_insert_eq.
Qed.

Lemma addPT_spec_witness :
  ∃ pg', addPT 1 0x10000010 3 true [mkPT false true 0 0 0; mkPT false true 0 0 5]
         = Done 0 pg' ∧ length pg' = 2%nat ∧
    (∀ j, pg' !! j = if decide (j = 1%nat)
       then Some (added_entry (mkPT false true 0 0 5) 0x10000010 3 true)
       else [mkPT false true 0 0 0; mkPT false true 0 0 5] !! j) ∧
    pageSearch pg' 0x10000010 ≠ noEntryFound.
Proof.
  apply (addPT_spec [mkPT false true 0 0 0; mkPT false true 0 0 5] 1
           (mkPT false true 0 0 5)); [zlia | reflexivity].
Defined.

(** *** Victim selection *)

Section victim.
Context (cand : invertedPT → bool).

(** What the loop knows after the entries [l]: the running minimum. *)
Definition victim_inv (l : list invertedPT) (acc : option Z * Z) : Prop :=
  match fst acc with
  | None => snd acc = noEntryFound ∧ ∀ e, e ∈ l → cand e = false
  | Some m => ∃ i e, snd acc = Z.of_nat i ∧ l !! i = Some e ∧ cand e = true ∧
      victim_counter e = m ∧
      (∀ j e', l !! j = Some e' → cand e' = true → m <= victim_counter e') ∧
      (∀ j e', (j < i)%nat → l !! j = Some e' → cand e' = true →
         m < victim_counter e')
  end.

Lemma victim_inv_step l e acc :
  victim_inv l acc → victim_inv (l ++ [e]) (victim_step cand acc (length l, e)).
Proof.
  destruct acc as [[m|] vp]; unfold victim_inv; cbn [fst snd victim_step].
  - intros (i & e0 & Hvp & Hi & Hc & Hm & Hmin & Hfst).
    pose proof (lookup_lt_Some _ _ _ Hi).
    destruct (cand e) eqn:Hce; [destruct (Z.ltb_spec (victim_counter e) m) |]; cbn [fst snd].
    + exists (length l), e. repeat split; [by apply list_lookup_middle | done | |].
      * intros j e' Hj Hc'. apply lookup_app_Some in Hj as [Hj | [_ Hj]].
        -- specialize (Hmin j e' Hj Hc'). lia.
        -- apply list_lookup_singleton_Some in Hj as [_ <-]. lia.
      * intros j e' Hj He' Hc'. rewrite lookup_app_l in He' by done.
        specialize (Hmin j e' He' Hc'). lia.
    + exists i, e0. repeat split; [done | by apply lookup_app_l_Some | done | done | |].
      * intros j e' Hj Hc'. apply lookup_app_Some in Hj as [Hj | [_ Hj]].
        -- by apply (Hmin j).
        -- apply list_lookup_singleton_Some in Hj as [_ <-]. lia.
      * intros j e' Hj He'. rewrite lookup_app_l in He' by lia. by apply (Hfst j).
    + exists i, e0. repeat split; [done | by apply lookup_app_l_Some | done | done | |].
      * intros j e' Hj Hc'. apply lookup_app_Some in Hj as [Hj | [_ Hj]].
        -- by apply (Hmin j).
        -- apply list_lookup_singleton_Some in Hj as [_ <-]. congruence.
      * intros j e' Hj He'. rewrite lookup_app_l in He' by lia. by apply (Hfst j).
  - intros [-> Hno]. destruct (cand e) eqn:Hce; cbn [fst snd].
    + exists (length l), e. repeat split; [by apply list_lookup_middle | done | |].
      * intros j e' Hj Hc'. apply lookup_app_Some in Hj as [Hj | [_ Hj]].
        -- rewrite (Hno e') in Hc'; [done | by eapply list_elem_of_lookup_2].
        -- apply list_lookup_singleton_Some in Hj as [_ <-]. lia.
      * intros j e' Hj He' Hc'. rewrite lookup_app_l in He' by done.
        rewrite (Hno e') in Hc'; [done | by eapply list_elem_of_lookup_2].
    + split; [done |]. intros e' [He' | He']%elem_of_app; [by apply Hno |].
      apply list_elem_of_singleton in He' as ->. done.
Qed.

Lemma victim_fold l :
  victim_inv l (foldl (victim_step cand) (None, noEntryFound)
                  (zip (seq 0 (length l)) l)).
Proof.
  induction l as [|e l IH] using rev_ind.
  - split; [done |]. intros e He. by apply elem_of_nil in He.
  - rewrite length_app. cbn [length]. rewrite seq_app. cbn [seq].
    rewrite zip_with_app by apply length_seq.
    rewrite foldl_app. cbn [zip_with foldl]. by apply victim_inv_step.
Qed.
End victim.

(** The victim is a page of the current process in the requested segment with
    the smallest allocation stamp (the oldest, and the first of equals);
    [noEntryFound] means the process has no page in that segment. *)
Theorem victim_pageSearch_spec pg type curpid a :
  let cand := victim_candidate type curpid a in
  (∃ i e, victim_pageSearch pg type curpid a = Z.of_nat i ∧ pg !! i = Some e ∧
     cand e = true ∧
     (∀ j e', pg !! j = Some e' → cand e' = true →
        victim_counter e <= victim_counter e') ∧
     (∀ j e', (j < i)%nat → pg !! j = Some e' → cand e' = true →
        victim_counter e < victim_counter e')) ∨
  (victim_pageSearch pg type curpid a = noEntryFound ∧
   ∀ e, e ∈ pg → cand e = false).
Proof.
  intros cand. pose proof (victim_fold cand pg) as H. unfold victim_inv in H.
  unfold victim_pageSearch. fold cand.
  destruct (foldl _ _ _) as [[m|] vp]; cbn [fst snd] in *.
  - left. destruct H as (i & e & -> & Hi & Hc & <- & Hmin & Hfst).
    exists i, e. repeat split; done.
  - by right.
Qed.

End PageTable.
