(* ===== verification/VmState.v ===== *)
(** * The state of the memory system

    One record per group of kernel globals, and [kstate], the state the memory
    code of vm/, lib/list.c, proc/ and syscall/ runs on:

    - [ram_state]: [firstpaddr], [lastpaddr] of arch/mips/vm/ram.c;
    - [pt_state]: [VM_Started] (vm.c), [main_PG], [pt_counter], [frame_list]
      (pt.c).  [PAGETABLE_ENTRY] is the length of the table;
    - [heap_state]: [kmalloc_spinlock], [kheaproots], [sizebases], [allbase] and
      the pageref structures of kmalloc.c;
    - the TLB state of [Tlb];
    - [swap_state]: [sf_list] of swapfile.c;
    - [stats]: the counters of vmstats.c (the flush counter is in the TLB state);
    - [proc_state]: the process table, [curproc], address spaces.

    [k_mem] is physical memory seen through kseg0: the 32-bit word at each
    word address.  Block contents the kernel reads back through pointers (free
    list links, frame list nodes) and page contents live there; pagerefs,
    address spaces and process structures are kept as typed objects by address.
    [k_fs] is the state of the file layer, abstract here. *)

From stdpp Require Import base list gmap numbers strings.
From Stdlib Require Import ZArith Lia.
From S2P Require Import Prelude Segments Tlb.
Import Segments Tlb.

#[local] Open Scope Z_scope.

Module VmState.

Record ram_state := mkRam {
  firstpaddr : Z;
  lastpaddr : Z
}.

Definition with_firstpaddr (x : Z) (r : ram_state) : ram_state :=
  mkRam x (lastpaddr r).
Definition with_lastpaddr (x : Z) (r : ram_state) : ram_state :=
  mkRam (firstpaddr r) x.

Record pt_state := mkPtState {
  VM_Started : bool;
  main_PG_addr : Z;
  main_PG : list invertedPT;
  pt_counter : Z;
  frame_list : Z
}.

Definition with_VM_Started (x : bool) (r : pt_state) : pt_state :=
  mkPtState x (main_PG_addr r) (main_PG r) (pt_counter r) (frame_list r).
Definition with_main_PG_addr (x : Z) (r : pt_state) : pt_state :=
  mkPtState (VM_Started r) x (main_PG r) (pt_counter r) (frame_list r).
Definition with_main_PG (x : list invertedPT) (r : pt_state) : pt_state :=
  mkPtState (VM_Started r) (main_PG_addr r) x (pt_counter r) (frame_list r).
Definition with_pt_counter (x : Z) (r : pt_state) : pt_state :=
  mkPtState (VM_Started r) (main_PG_addr r) (main_PG r) x (frame_list r).
Definition with_frame_list (x : Z) (r : pt_state) : pt_state :=
  mkPtState (VM_Started r) (main_PG_addr r) (main_PG r) (pt_counter r) x.

(** [struct pageref] of kmalloc.c *)
Record pageref := mkPageref {
  next_samesize : Z;
  next_all : Z;
  pageaddr_and_blocktype : Z;
  freelist_offset : Z;
  nfree : Z
}.

Definition with_next_samesize (x : Z) (r : pageref) : pageref :=
  mkPageref x (next_all r) (pageaddr_and_blocktype r) (freelist_offset r) (nfree r).
Definition with_next_all (x : Z) (r : pageref) : pageref :=
  mkPageref (next_samesize r) x (pageaddr_and_blocktype r) (freelist_offset r) (nfree r).
Definition with_pageaddr_and_blocktype (x : Z) (r : pageref) : pageref :=
  mkPageref (next_samesize r) (next_all r) x (freelist_offset r) (nfree r).
Definition with_freelist_offset (x : Z) (r : pageref) : pageref :=
  mkPageref (next_samesize r) (next_all r) (pageaddr_and_blocktype r) x (nfree r).
Definition with_nfree (x : Z) (r : pageref) : pageref :=
  mkPageref (next_samesize r) (next_all r) (pageaddr_and_blocktype r) (freelist_offset r) x.

(** [struct kheap_root] of kmalloc.c *)
Record kheap_root := mkRoot {
  root_page : Z;
  pagerefs_inuse : list Z;
  numinuse : Z
}.

Definition with_root_page (x : Z) (r : kheap_root) : kheap_root :=
  mkRoot x (pagerefs_inuse r) (numinuse r).
Definition with_pagerefs_inuse (x : list Z) (r : kheap_root) : kheap_root :=
  mkRoot (root_page r) x (numinuse r).
Definition with_numinuse (x : Z) (r : kheap_root) : kheap_root :=
  mkRoot (root_page r) (pagerefs_inuse r) x.

Record heap_state := mkHeap {
  kmalloc_spinlock : bool;
  kheaproots : list kheap_root;
  sizebases : list Z;
  allbase : Z;
  pagerefs : gmap Z pageref
}.

Definition with_kmalloc_spinlock (x : bool) (r : heap_state) : heap_state :=
  mkHeap x (kheaproots r) (sizebases r) (allbase r) (pagerefs r).
Definition with_kheaproots (x : list kheap_root) (r : heap_state) : heap_state :=
  mkHeap (kmalloc_spinlock r) x (sizebases r) (allbase r) (pagerefs r).
Definition with_sizebases (x : list Z) (r : heap_state) : heap_state :=
  mkHeap (kmalloc_spinlock r) (kheaproots r) x (allbase r) (pagerefs r).
Definition with_allbase (x : Z) (r : heap_state) : heap_state :=
  mkHeap (kmalloc_spinlock r) (kheaproots r) (sizebases r) x (pagerefs r).
Definition with_pagerefs (x : gmap Z pageref) (r : heap_state) : heap_state :=
  mkHeap (kmalloc_spinlock r) (kheaproots r) (sizebases r) (allbase r) x.

(** [struct list_param] of include/swapfile.h *)
Record list_param := mkSf {
  p_number : Z;
  p_pid : Z;
  p_offset : Z;
  sf_Dirty : bool
}.

Definition with_p_number (x : Z) (r : list_param) : list_param :=
  mkSf x (p_pid r) (p_offset r) (sf_Dirty r).
Definition with_p_pid (x : Z) (r : list_param) : list_param :=
  mkSf (p_number r) x (p_offset r) (sf_Dirty r).
Definition with_p_offset (x : Z) (r : list_param) : list_param :=
  mkSf (p_number r) (p_pid r) x (sf_Dirty r).
Definition with_sf_Dirty (x : bool) (r : list_param) : list_param :=
  mkSf (p_number r) (p_pid r) (p_offset r) x.

(** vmstats.c *)
Record stats := mkStats {
  TLB_Faults : Z;
  TLB_Faults_wFree : Z;
  TLB_Faults_wReplace : Z;
  TLB_Reloads : Z;
  PF_Zeroed : Z;
  PF_Disk : Z;
  PF_ELF : Z;
  PF_Swapfile : Z;
  SF_Writes : Z
}.

Definition with_TLB_Faults (x : Z) (r : stats) : stats :=
  mkStats x (TLB_Faults_wFree r) (TLB_Faults_wReplace r) (TLB_Reloads r) (PF_Zeroed r) (PF_Disk r) (PF_ELF r) (PF_Swapfile r) (SF_Writes r).
Definition with_TLB_Faults_wFree (x : Z) (r : stats) : stats :=
  mkStats (TLB_Faults r) x (TLB_Faults_wReplace r) (TLB_Reloads r) (PF_Zeroed r) (PF_Disk r) (PF_ELF r) (PF_Swapfile r) (SF_Writes r).
Definition with_TLB_Faults_wReplace (x : Z) (r : stats) : stats :=
  mkStats (TLB_Faults r) (TLB_Faults_wFree r) x (TLB_Reloads r) (PF_Zeroed r) (PF_Disk r) (PF_ELF r) (PF_Swapfile r) (SF_Writes r).
Definition with_TLB_Reloads (x : Z) (r : stats) : stats :=
  mkStats (TLB_Faults r) (TLB_Faults_wFree r) (TLB_Faults_wReplace r) x (PF_Zeroed r) (PF_Disk r) (PF_ELF r) (PF_Swapfile r) (SF_Writes r).
Definition with_PF_Zeroed (x : Z) (r : stats) : stats :=
  mkStats (TLB_Faults r) (TLB_Faults_wFree r) (TLB_Faults_wReplace r) (TLB_Reloads r) x (PF_Disk r) (PF_ELF r) (PF_Swapfile r) (SF_Writes r).
Definition with_PF_Disk (x : Z) (r : stats) : stats :=
  mkStats (TLB_Faults r) (TLB_Faults_wFree r) (TLB_Faults_wReplace r) (TLB_Reloads r) (PF_Zeroed r) x (PF_ELF r) (PF_Swapfile r) (SF_Writes r).
Definition with_PF_ELF (x : Z) (r : stats) : stats :=
  mkStats (TLB_Faults r) (TLB_Faults_wFree r) (TLB_Faults_wReplace r) (TLB_Reloads r) (PF_Zeroed r) (PF_Disk r) x (PF_Swapfile r) (SF_Writes r).
Definition with_PF_Swapfile (x : Z) (r : stats) : stats :=
  mkStats (TLB_Faults r) (TLB_Faults_wFree r) (TLB_Faults_wReplace r) (TLB_Reloads r) (PF_Zeroed r) (PF_Disk r) (PF_ELF r) x (SF_Writes r).
Definition with_SF_Writes (x : Z) (r : stats) : stats :=
  mkStats (TLB_Faults r) (TLB_Faults_wFree r) (TLB_Faults_wReplace r) (TLB_Reloads r) (PF_Zeroed r) (PF_Disk r) (PF_ELF r) (PF_Swapfile r) x.

(** [struct proc] of include/proc.h; [p_name] is the address of the name and [p_namestr] the characters it points to *)
Record proc := mkProc {
  p_name : Z;
  p_namestr : string;
  p_numthreads : Z;
  p_addrspace : Z;
  p_cwd : Z;
  exit_status : Z;
  p_id : Z
}.

Definition with_p_name (x : Z) (r : proc) : proc :=
  mkProc x (p_namestr r) (p_numthreads r) (p_addrspace r) (p_cwd r) (exit_status r) (p_id r).
Definition with_p_namestr (x : string) (r : proc) : proc :=
  mkProc (p_name r) x (p_numthreads r) (p_addrspace r) (p_cwd r) (exit_status r) (p_id r).
Definition with_p_numthreads (x : Z) (r : proc) : proc :=
  mkProc (p_name r) (p_namestr r) x (p_addrspace r) (p_cwd r) (exit_status r) (p_id r).
Definition with_p_addrspace (x : Z) (r : proc) : proc :=
  mkProc (p_name r) (p_namestr r) (p_numthreads r) x (p_cwd r) (exit_status r) (p_id r).
Definition with_p_cwd (x : Z) (r : proc) : proc :=
  mkProc (p_name r) (p_namestr r) (p_numthreads r) (p_addrspace r) x (exit_status r) (p_id r).
Definition with_exit_status (x : Z) (r : proc) : proc :=
  mkProc (p_name r) (p_namestr r) (p_numthreads r) (p_addrspace r) (p_cwd r) x (p_id r).
Definition with_p_id (x : Z) (r : proc) : proc :=
  mkProc (p_name r) (p_namestr r) (p_numthreads r) (p_addrspace r) (p_cwd r) (exit_status r) x.

(** Process structures by address, the current and the kernel process, the pid
    counter of proc.c, address spaces by address, the [static _Bool TLB_PID] of
    addrspace.c and the reference counts of the vnodes the processes hold *)
Record proc_state := mkProcState {
  procs : gmap Z proc;
  curproc : Z;
  kproc : Z;
  next_free_pid : Z;
  addrspaces : gmap Z addrspace;
  TLB_PID : bool;
  vnode_refs : gmap Z Z
}.

Definition with_procs (x : gmap Z proc) (r : proc_state) : proc_state :=
  mkProcState x (curproc r) (kproc r) (next_free_pid r) (addrspaces r) (TLB_PID r) (vnode_refs r).
Definition with_curproc (x : Z) (r : proc_state) : proc_state :=
  mkProcState (procs r) x (kproc r) (next_free_pid r) (addrspaces r) (TLB_PID r) (vnode_refs r).
Definition with_kproc (x : Z) (r : proc_state) : proc_state :=
  mkProcState (procs r) (curproc r) x (next_free_pid r) (addrspaces r) (TLB_PID r) (vnode_refs r).
Definition with_next_free_pid (x : Z) (r : proc_state) : proc_state :=
  mkProcState (procs r) (curproc r) (kproc r) x (addrspaces r) (TLB_PID r) (vnode_refs r).
Definition with_addrspaces (x : gmap Z addrspace) (r : proc_state) : proc_state :=
  mkProcState (procs r) (curproc r) (kproc r) (next_free_pid r) x (TLB_PID r) (vnode_refs r).
Definition with_TLB_PID (x : bool) (r : proc_state) : proc_state :=
  mkProcState (procs r) (curproc r) (kproc r) (next_free_pid r) (addrspaces r) x (vnode_refs r).
Definition with_vnode_refs (x : gmap Z Z) (r : proc_state) : proc_state :=
  mkProcState (procs r) (curproc r) (kproc r) (next_free_pid r) (addrspaces r) (TLB_PID r) x.

Record kstate (FS : Type) := mkK {
  k_mem : Z → Z;
  k_ram : ram_state;
  k_pt : pt_state;
  k_heap : heap_state;
  k_tlb : tlb_state;
  k_swap : list list_param;
  k_stats : stats;
  k_proc : proc_state;
  k_fs : FS
}.
Arguments mkK {_}.
Arguments k_mem {_} _.
Arguments k_ram {_} _.
Arguments k_pt {_} _.
Arguments k_heap {_} _.
Arguments k_tlb {_} _.
Arguments k_swap {_} _.
Arguments k_stats {_} _.
Arguments k_proc {_} _.
Arguments k_fs {_} _.

Definition with_k_mem {FS : Type} (x : Z → Z) (r : kstate FS) : kstate FS :=
  mkK x (k_ram r) (k_pt r) (k_heap r) (k_tlb r) (k_swap r) (k_stats r) (k_proc r) (k_fs r).
Definition with_k_ram {FS : Type} (x : ram_state) (r : kstate FS) : kstate FS :=
  mkK (k_mem r) x (k_pt r) (k_heap r) (k_tlb r) (k_swap r) (k_stats r) (k_proc r) (k_fs r).
Definition with_k_pt {FS : Type} (x : pt_state) (r : kstate FS) : kstate FS :=
  mkK (k_mem r) (k_ram r) x (k_heap r) (k_tlb r) (k_swap r) (k_stats r) (k_proc r) (k_fs r).
Definition with_k_heap {FS : Type} (x : heap_state) (r : kstate FS) : kstate FS :=
  mkK (k_mem r) (k_ram r) (k_pt r) x (k_tlb r) (k_swap r) (k_stats r) (k_proc r) (k_fs r).
Definition with_k_tlb {FS : Type} (x : tlb_state) (r : kstate FS) : kstate FS :=
  mkK (k_mem r) (k_ram r) (k_pt r) (k_heap r) x (k_swap r) (k_stats r) (k_proc r) (k_fs r).
Definition with_k_swap {FS : Type} (x : list list_param) (r : kstate FS) : kstate FS :=
  mkK (k_mem r) (k_ram r) (k_pt r) (k_heap r) (k_tlb r) x (k_stats r) (k_proc r) (k_fs r).
Definition with_k_stats {FS : Type} (x : stats) (r : kstate FS) : kstate FS :=
  mkK (k_mem r) (k_ram r) (k_pt r) (k_heap r) (k_tlb r) (k_swap r) x (k_proc r) (k_fs r).
Definition with_k_proc {FS : Type} (x : proc_state) (r : kstate FS) : kstate FS :=
  mkK (k_mem r) (k_ram r) (k_pt r) (k_heap r) (k_tlb r) (k_swap r) (k_stats r) x (k_fs r).
Definition with_k_fs {FS : Type} (x : FS) (r : kstate FS) : kstate FS :=
  mkK (k_mem r) (k_ram r) (k_pt r) (k_heap r) (k_tlb r) (k_swap r) (k_stats r) (k_proc r) x.


Section access.
Context {FS : Type}.
Implicit Types s : kstate FS.

Definition PAGETABLE_ENTRY (p : pt_state) : Z := Z.of_nat (length (main_PG p)).

(** Apply a change to one group of globals. *)
Definition upd_ram (f : ram_state → ram_state) s := with_k_ram (f (k_ram s)) s.
Definition upd_pt (f : pt_state → pt_state) s := with_k_pt (f (k_pt s)) s.
Definition upd_heap (f : heap_state → heap_state) s := with_k_heap (f (k_heap s)) s.
Definition upd_stats (f : stats → stats) s := with_k_stats (f (k_stats s)) s.
Definition upd_proc (f : proc_state → proc_state) s := with_k_proc (f (k_proc s)) s.

Definition on_tlb {A} (m : M tlb_state A) : M (kstate FS) A := zoom k_tlb with_k_tlb m.

(** Access to [main_PG] as an array. *)
Definition on_PG {A} (m : M (list invertedPT) A) : M (kstate FS) A :=
  zoom (λ s, main_PG (k_pt s)) (λ l, upd_pt (with_main_PG l)) m.

(** Kernel loads and stores: addresses outside kseg0 fault. *)
Definition kseg0_ok (a : Z) : bool := (MIPS_KSEG0 <=? a) && (a <? MIPS_KSEG1).

Definition load (a : Z) : M (kstate FS) Z := λ s,
  if kseg0_ok a then Done (k_mem s a) s else Panic "fatal exception in kernel mode".

Definition mem_upd (m : Z → Z) (a w : Z) : Z → Z := λ b, if b =? a then w else m b.

Definition store (a w : Z) : M (kstate FS) unit := λ s,
  if kseg0_ok a then Done tt (with_k_mem (mem_upd (k_mem s) a w) s)
  else Panic "fatal exception in kernel mode".

(** The words of [base, base + len), all set to [w]: what the word loops of
    [fill_deadbeef] and [memset] leave behind. *)
Definition mem_fill (m : Z → Z) (base len w : Z) : Z → Z :=
  λ b, if (base <=? b) && (b <? base + len) then w else m b.

Definition fill (base len w : Z) : M (kstate FS) unit := λ s,
  if kseg0_ok base then Done tt (with_k_mem (mem_fill (k_mem s) base len w) s)
  else Panic "fatal exception in kernel mode".
End access.

#[export] Hint Unfold upd_ram upd_pt upd_heap upd_stats upd_proc : kernel.

End VmState.
