(* ===== verification/Ram.v ===== *)
(** * Boot-time physical memory (arch/mips/vm/ram.c)

    The bump allocator used before the VM system starts, and the hand-over of
    the remaining memory.  [firstfree] is set by start.S and [ramsize] read from
    the bus controller: both are arguments of [ram_bootstrap]. *)

From stdpp Require Import base list numbers strings.
From Stdlib Require Import ZArith Lia.
From S2P Require Import Prelude Segments Tlb VmState.
Import VmState.

#[local] Open Scope Z_scope.

Module Ram.

Definition ram_bootstrap (ramsize firstfree : Z) : M ram_state unit :=
  let ramsize := if 512 * 1024 * 1024 <? ramsize then 512 * 1024 * 1024 else ramsize in
  modify (with_lastpaddr ramsize) ;;
  modify (with_firstpaddr (u32 (firstfree - MIPS_KSEG0))).

Definition ram_stealmem (npages : Z) : M ram_state Z :=
  let size := u32 (npages * PAGE_SIZE) in
  first ← gets firstpaddr;
  last ← gets lastpaddr;
  if last <? u32 (first + size) then mret 0
  else
    modify (with_firstpaddr (u32 (first + size))) ;;
    mret first.

Definition ram_getsize : M ram_state Z := gets lastpaddr.

Definition ram_getfirstfree : M ram_state Z :=
  ret ← gets firstpaddr;
  modify (λ r, with_firstpaddr 0 (with_lastpaddr 0 r)) ;;
  mret ret.

(** Physical memory lies below 512 MB and the free part is page aligned. *)
Definition ram_ok (r : ram_state) : Prop :=
  0 <= firstpaddr r <= lastpaddr r ∧ lastpaddr r <= 2 ^ 29 ∧
  firstpaddr r mod PAGE_SIZE = 0.

Lemma ram_bootstrap_ok ramsize firstfree r :
  MIPS_KSEG0 <= firstfree → firstfree mod PAGE_SIZE = 0 →
  firstfree - MIPS_KSEG0 <= ramsize → firstfree - MIPS_KSEG0 <= 2 ^ 29 →
  ∃ r', ram_bootstrap ramsize firstfree r = Done tt r' ∧ ram_ok r' ∧
        lastpaddr r' = Z.min ramsize (2 ^ 29).
Proof.
  intros Hf Ha Hr H29. eexists. split; [reflexivity |].
  unfold ram_ok. cbn [firstpaddr lastpaddr with_firstpaddr with_lastpaddr].
  rewrite u32_small by zlia.
  destruct (Z.ltb_spec (512 * 1024 * 1024) ramsize); (split; [| lia]);
    (split; [lia |]; split; [lia |]);
    rewrite Zminus_mod, Ha; reflexivity.
Qed.

Lemma steal_eq n r :
  ram_ok r → 0 <= n < 2 ^ 17 →
  ram_stealmem n r =
    if lastpaddr r <? firstpaddr r + n * PAGE_SIZE then Done 0 r
    else Done (firstpaddr r) (with_firstpaddr (firstpaddr r + n * PAGE_SIZE) r).
Proof.
  intros (Hr & Hl & _) Hn. unfold ram_stealmem, gets, modify, mbind, M_bind.
  rewrite (u32_small (n * PAGE_SIZE)), u32_small by zlia. by case_if.
Qed.

(** Pages taken before VM start are inside memory and pairwise disjoint: a
    later grant begins at or after the end of every earlier one.  Exhaustion
    is reported as 0 and takes nothing. *)
Theorem ram_stealmem_disjoint r n1 p1 r1 n2 p2 r2 :
  ram_ok r → 0 < n1 < 2 ^ 17 → 0 < n2 < 2 ^ 17 →
  ram_stealmem n1 r = Done p1 r1 → ram_stealmem n2 r1 = Done p2 r2 →
  p1 ≠ 0 → p2 ≠ 0 →
  p1 + n1 * PAGE_SIZE <= p2 ∧ p2 + n2 * PAGE_SIZE <= lastpaddr r ∧
  p1 mod PAGE_SIZE = 0 ∧ p2 mod PAGE_SIZE = 0 ∧ ram_ok r2.
Proof.
  intros Hok H1 H2 E1 E2 Hp1 Hp2. rewrite steal_eq in E1 by (done || lia).
  destruct Hok as (Hr & Hl & Ha).
  destruct (Z.ltb_spec (lastpaddr r) (firstpaddr r + n1 * PAGE_SIZE));
    [by injection E1; intros _ <- |].
  injection E1 as <- <-.
  assert ((firstpaddr r + n1 * PAGE_SIZE) mod PAGE_SIZE = 0) as Ha1
    by (by rewrite Z.mod_add).
  rewrite steal_eq in E2;
    [| unfold ram_ok; cbn [firstpaddr lastpaddr with_firstpaddr];
       repeat split; (done || zlia) | lia].
  cbn [firstpaddr lastpaddr with_firstpaddr] in E2.
  destruct (Z.ltb_spec (lastpaddr r) (firstpaddr r + n1 * PAGE_SIZE + n2 * PAGE_SIZE));
    [by injection E2; intros _ <- |].
  injection E2 as <- <-. unfold ram_ok. cbn [firstpaddr lastpaddr with_firstpaddr].
  repeat split; try done; try zlia. by rewrite Z.mod_add.
Qed.

Lemma ram_stealmem_disjoint_witness :
  0x20000 + 2 * PAGE_SIZE <= 0x22000 ∧ 0x22000 + 1 * PAGE_SIZE <= 0x80000 ∧
  0x20000 mod PAGE_SIZE = 0 ∧ 0x22000 mod PAGE_SIZE = 0 ∧
  ram_ok (mkRam 0x23000 0x80000).
Proof.
  apply (ram_stealmem_disjoint (mkRam 0x20000 0x80000) 2 0x20000 (mkRam 0x22000 0x80000)
           1 0x22000 (mkRam 0x23000 0x80000));
    [unfold ram_ok; cbn [firstpaddr lastpaddr]; repeat split; (reflexivity || lia)
    | lia | lia | reflexivity | reflexivity | done | done].
Defined.

End Ram.
