(* ===== verification/Kmalloc.v ===== *)
(** * Kernel heap and frame allocator (vm/kmalloc.c, lib/list.c, vm/coremap.c)

    The subpage allocator of kmalloc.c, the frame list of lib/list.c and the
    page allocator at the end of kmalloc.c.  The three are mutually recursive:
    the nodes of the frame list are 8-byte objects obtained from [kmalloc], so
    [free_kpages] calls [addToFrameList], which calls [kmalloc], which may call
    [alloc_kpages], which calls [kfree] on the node it pops, which may release a
    whole heap page with [free_kpages].  The subpage allocator is therefore
    written over the two page functions ([Section Subpage]) and the knot is tied
    with a recursion bound ([alloc_kpages], [free_kpages]).

    Debugging modes (SLOW, SLOWER, GUARDS, LABELS, CHECKBEEF, CHECKGUARDS) are
    undefined in the source, so the code they guard is absent, checksubpage and
    checksubpages are empty, and GUARD_OVERHEAD and LABEL_OVERHEAD are 0. *)

From stdpp Require Import base list gmap numbers strings.
From Stdlib Require Import ZArith Lia.
From S2P Require Import Prelude Segments Tlb PageTable VmState Ram.
Import Segments Tlb PageTable VmState Ram.

#[local] Open Scope Z_scope.

Module Kmalloc.

Definition NSIZES : Z := 8.
Definition sizes : list Z := [16; 32; 64; 128; 256; 512; 1024; 2048].
Definition LARGEST_SUBPAGE_SIZE : Z := 2048.
Definition size_of (blktype : Z) : Z := default 0 (sizes !! Z.to_nat blktype).

Definition INVALID_OFFSET : Z := 0xffff.
Definition SIZEOF_PAGEREF : Z := 16.
Definition NPAGEREFS_PER_PAGE : Z := PAGE_SIZE / SIZEOF_PAGEREF.
Definition INUSE_WORDS : Z := NPAGEREFS_PER_PAGE / 32.
Definition NUM_PAGEREFPAGES : Z := 16.
Definition DEADBEEF : Z := 0xdeadbeef.

Definition PR_PAGEADDR (pr : pageref) : Z := Z.land (pageaddr_and_blocktype pr) PAGE_FRAME.
Definition PR_BLOCKTYPE (pr : pageref) : Z :=
  Z.land (pageaddr_and_blocktype pr) (notw 32 PAGE_FRAME).
Definition MKPAB (pa blk : Z) : Z :=
  Z.lor (Z.land pa PAGE_FRAME) (Z.land blk (notw 32 PAGE_FRAME)).

Inductive positionList := addTOP | addBOTTOM | removeTOP | removeBOTTOM.

Section Kernel.
Context {FS : Type}.
Abbreviation K := (M (kstate FS)).

(** ** Spinlock and field access *)

(** Acquiring a spinlock this CPU already holds is a deadlock panic. *)
Definition lock_kmalloc : K unit :=
  held ← gets (λ s, kmalloc_spinlock (k_heap s));
  if held : bool then panic "Deadlock on spinlock"
  else modify (upd_heap (with_kmalloc_spinlock true)).

Definition unlock_kmalloc : K unit :=
  held ← gets (λ s, kmalloc_spinlock (k_heap s));
  kassert held "spinlock_release" ;;
  modify (upd_heap (with_kmalloc_spinlock false)).

Definition get_pr (p : Z) : K pageref :=
  deref (λ s, pagerefs (k_heap s) !! p) "fatal exception in kernel mode".

Definition set_pr (p : Z) (pr : pageref) : K unit :=
  modify (upd_heap (λ h, with_pagerefs (<[p := pr]> (pagerefs h)) h)).

Definition get_root (i : Z) : K kheap_root :=
  deref (λ s, kheaproots (k_heap s) !! Z.to_nat i) "kheaproots index out of range".

Definition set_root (i : Z) (r : kheap_root) : K unit :=
  modify (upd_heap (λ h, with_kheaproots (<[Z.to_nat i := r]> (kheaproots h)) h)).

Definition get_sizebase (t : Z) : K Z :=
  gets (λ s, default 0 (sizebases (k_heap s) !! Z.to_nat t)).

Definition set_sizebase (t p : Z) : K unit :=
  modify (upd_heap (λ h, with_sizebases (<[Z.to_nat t := p]> (sizebases h)) h)).

(** Bound for walks along the pageref lists: an acyclic list has at most as
    many nodes as there are pagerefs. *)
Definition pr_fuel (s : kstate FS) : nat := S (size (pagerefs (k_heap s))).

Definition fill_deadbeef (vptr len : Z) : K unit := fill vptr len DEADBEEF.

(** ** The subpage allocator, over the page functions *)

Section Subpage.
Variable alloc_kpages : Z → K Z.
Variable free_kpages : Z → K unit.

Definition allocpagerefpage (whichroot : Z) : K unit :=
  root ← get_root whichroot;
  kassert (root_page root =? 0) "root->page == NULL" ;;
  unlock_kmalloc ;;
  va ← alloc_kpages 1;
  lock_kmalloc ;;
  if va =? 0 then mret tt
  else
    kassert (va mod PAGE_SIZE =? 0) "va % PAGE_SIZE == 0" ;;
    root ← get_root whichroot;
    if negb (root_page root =? 0) then
      unlock_kmalloc ;;
      free_kpages va ;;
      lock_kmalloc ;;
      root ← get_root whichroot;
      kassert (negb (root_page root =? 0)) "root->page != NULL"
    else set_root whichroot (with_root_page va root).

(** The first root with room: the outer loops of [allocpageref] skip a root
    that is counted full and one whose words are all full. *)
Definition root_has_room (r : kheap_root) : bool :=
  (numinuse r <? NPAGEREFS_PER_PAGE) &&
  existsb (λ w, negb (w =? 0xffffffff)) (pagerefs_inuse r).

Definition allocpageref : K Z :=
  roots ← gets (λ s, kheaproots (k_heap s));
  match first_index root_has_room roots with
  | None => mret 0
  | Some w =>
      let whichroot := Z.of_nat w in
      root ← get_root whichroot;
      match first_index (λ x, negb (x =? 0xffffffff)) (pagerefs_inuse root) with
      | None => panic "unreachable"
      | Some i =>
          let word := default 0 (pagerefs_inuse root !! i) in
          match first_index (λ j, Z.land word (Z.shiftl 1 j) =? 0) (seqZ 0 32) with
          | None => panic "KASSERT(0)"
          | Some j =>
              let k := Z.shiftl 1 (Z.of_nat j) in
              set_root whichroot
                (with_numinuse (u32 (numinuse root + 1))
                   (with_pagerefs_inuse
                      (<[i := Z.lor word k]> (pagerefs_inuse root)) root)) ;;
              (if root_page root =? 0 then allocpagerefpage whichroot else mret tt) ;;
              root ← get_root whichroot;
              if root_page root =? 0 then mret 0
              else mret (root_page root
                         + SIZEOF_PAGEREF * (Z.of_nat i * 32 + Z.of_nat j))
          end
      end
  end.

(** The loop of [freepageref] from root [whichroot] on, [n] roots left. *)
Fixpoint freepageref_from (n : nat) (whichroot p : Z) : K unit :=
  match n with
  | O => panic "KASSERT(0)"
  | S n' =>
      root ← get_root whichroot;
      if root_page root =? 0 then
        kassert (numinuse root =? 0) "root->numinuse == 0" ;;
        freepageref_from n' (whichroot + 1) p
      else
        let j := u32 ((p - root_page root) / SIZEOF_PAGEREF) in
        if j <? NPAGEREFS_PER_PAGE then
          let i := j / 32 in
          let k := Z.shiftl 1 (j mod 32) in
          let word := default 0 (pagerefs_inuse root !! Z.to_nat i) in
          kassert (negb (Z.land word k =? 0)) "(root->pagerefs_inuse[i] & k) != 0" ;;
          kassert (0 <? numinuse root) "root->numinuse > 0" ;;
          set_root whichroot
            (with_numinuse (numinuse root - 1)
               (with_pagerefs_inuse
                  (<[Z.to_nat i := Z.land word (notw 32 k)]> (pagerefs_inuse root)) root))
        else freepageref_from n' (whichroot + 1) p
  end.

Definition freepageref (p : Z) : K unit :=
  freepageref_from (Z.to_nat NUM_PAGEREFPAGES) 0 p.

(** The pointer-to-pointer loop past the head: [g] is a list element whose link
    field is examined, [next] that field and [set_next] its update. *)
Fixpoint unlink_from (n : nat) (next : pageref → Z) (set_next : Z → pageref → pageref)
    (g p : Z) : K unit :=
  match n with
  | O => nofuel
  | S n' =>
      gr ← get_pr g;
      if next gr =? 0 then mret tt
      else if next gr =? p then
        pr ← get_pr p;
        set_pr g (set_next (next pr) gr)
      else unlink_from n' next set_next (next gr) p
  end.

Definition remove_lists (p blktype : Z) : K unit :=
  kassert ((0 <=? blktype) && (blktype <? NSIZES)) "blktype>=0 && blktype<NSIZES" ;;
  fuel ← gets pr_fuel;
  head ← get_sizebase blktype;
  (if head =? 0 then mret tt
   else if head =? p then pr ← get_pr p; set_sizebase blktype (next_samesize pr)
   else unlink_from fuel next_samesize with_next_samesize head p) ;;
  head ← gets (λ s, allbase (k_heap s));
  (if head =? 0 then mret tt
   else if head =? p then pr ← get_pr p; modify (upd_heap (with_allbase (next_all pr)))
   else unlink_from fuel next_all with_next_all head p).

Definition blocktype (clientsz : Z) : K Z :=
  match first_index (λ sz, clientsz <=? sz) sizes with
  | Some i => mret (Z.of_nat i)
  | None => panic "Subpage allocator cannot handle allocation of this size"
  end.

(** The code at label [doalloc]: take the first block of the page's list. *)
Definition doalloc (p : Z) : K Z :=
  pr ← get_pr p;
  kassert (freelist_offset pr <? PAGE_SIZE) "pr->freelist_offset < PAGE_SIZE" ;;
  let prpage := PR_PAGEADDR pr in
  let fla := prpage + freelist_offset pr in
  fl ← load fla;
  let nf := u16 (nfree pr - 1) in
  (if negb (fl =? 0) then
     kassert (0 <? nf) "pr->nfree > 0" ;;
     kassert (u32 (fl - prpage) <? PAGE_SIZE) "fla - prpage < PAGE_SIZE" ;;
     set_pr p (with_freelist_offset (u16 (fl - prpage)) (with_nfree nf pr))
   else
     kassert (nf =? 0) "pr->nfree == 0" ;;
     set_pr p (with_freelist_offset INVALID_OFFSET (with_nfree nf pr))) ;;
  unlock_kmalloc ;;
  mret fla.

(** The search of [subpage_kmalloc] along [sizebases[blktype]]: the first page
    with a free block, or 0. *)
Fixpoint find_page (n : nat) (blktype p : Z) : K Z :=
  match n with
  | O => nofuel
  | S n' =>
      if p =? 0 then mret 0
      else
        pr ← get_pr p;
        kassert (PR_BLOCKTYPE pr =? blktype) "PR_BLOCKTYPE(pr) == blktype" ;;
        if 0 <? nfree pr then mret p else find_page n' blktype (next_samesize pr)
  end.

(** Chain the blocks [1 .. n] of a fresh page, block [i] to block [i-1]. *)
Definition init_freelist (prpage blksz n : Z) : K unit :=
  store prpage 0 ;;
  for_loop (Z.to_nat (n - 1)) 1
    (λ i, store (prpage + i * blksz) (prpage + (i - 1) * blksz)).

Definition subpage_kmalloc (sz : Z) : K Z :=
  blktype ← blocktype sz;
  lock_kmalloc ;;
  fuel ← gets pr_fuel;
  head ← get_sizebase blktype;
  p ← find_page fuel blktype head;
  if negb (p =? 0) then doalloc p
  else
    unlock_kmalloc ;;
    prpage ← alloc_kpages 1;
    if prpage =? 0 then mret 0
    else
      kassert (prpage mod PAGE_SIZE =? 0) "prpage % PAGE_SIZE == 0" ;;
      lock_kmalloc ;;
      p ← allocpageref;
      if p =? 0 then
        unlock_kmalloc ;;
        free_kpages prpage ;;
        mret 0
      else
        let n := PAGE_SIZE / size_of blktype in
        init_freelist prpage (size_of blktype) n ;;
        head ← get_sizebase blktype;
        all ← gets (λ s, allbase (k_heap s));
        set_pr p (mkPageref head all (MKPAB prpage blktype)
                    ((n - 1) * size_of blktype) n) ;;
        set_sizebase blktype p ;;
        modify (upd_heap (with_allbase p)) ;;
        doalloc p.

(** The search of [subpage_kfree]: the pageref of the page holding [ptraddr],
    or 0. *)
Fixpoint find_owner (n : nat) (ptraddr p : Z) : K Z :=
  match n with
  | O => nofuel
  | S n' =>
      if p =? 0 then mret 0
      else
        pr ← get_pr p;
        kassert ((0 <=? PR_BLOCKTYPE pr) && (PR_BLOCKTYPE pr <? NSIZES))
          "blktype>=0 && blktype<NSIZES" ;;
        if (PR_PAGEADDR pr <=? ptraddr) && (ptraddr <? u32 (PR_PAGEADDR pr + PAGE_SIZE))
        then mret p
        else find_owner n' ptraddr (next_all pr)
  end.

Definition subpage_kfree (ptraddr : Z) : K Z :=
  lock_kmalloc ;;
  fuel ← gets pr_fuel;
  head ← gets (λ s, allbase (k_heap s));
  p ← find_owner fuel ptraddr head;
  if p =? 0 then unlock_kmalloc ;; mret (-1)
  else
    pr ← get_pr p;
    let prpage := PR_PAGEADDR pr in
    let blktype := PR_BLOCKTYPE pr in
    let offset := ptraddr - prpage in
    if (PAGE_SIZE <=? offset) || negb (offset mod size_of blktype =? 0)
    then panic "kfree: subpage free of invalid addr"
    else
      fill_deadbeef ptraddr (size_of blktype) ;;
      let fla := prpage + offset in
      (if freelist_offset pr =? INVALID_OFFSET then store fla 0
       else
         store fla (prpage + freelist_offset pr) ;;
         kassert (negb (fla =? prpage + freelist_offset pr)) "fl != fl->next") ;;
      let nf := u16 (nfree pr + 1) in
      set_pr p (with_freelist_offset offset (with_nfree nf pr)) ;;
      kassert (nf <=? PAGE_SIZE / size_of blktype)
        "pr->nfree <= PAGE_SIZE / sizes[blktype]" ;;
      if nf =? PAGE_SIZE / size_of blktype then
        remove_lists p blktype ;;
        freepageref p ;;
        unlock_kmalloc ;;
        free_kpages prpage ;;
        mret 0
      else
        unlock_kmalloc ;;
        mret 0.

Definition kmalloc_ (sz : Z) : K Z :=
  let checksz := sz in
  if LARGEST_SUBPAGE_SIZE <=? checksz then
    let npages := u32 (sz + PAGE_SIZE - 1) / PAGE_SIZE in
    address ← alloc_kpages npages;
    if address =? 0 then mret 0
    else
      kassert (address mod PAGE_SIZE =? 0) "address % PAGE_SIZE == 0" ;;
      mret address
  else subpage_kmalloc sz.

Definition kfree_ (ptr : Z) : K unit :=
  if ptr =? 0 then mret tt
  else
    r ← subpage_kfree ptr;
    if negb (r =? 0) then
      kassert (ptr mod PAGE_SIZE =? 0) "(vaddr_t)ptr%PAGE_SIZE==0" ;;
      free_kpages ptr
    else mret tt.

End Subpage.

(** ** The frame list (lib/list.c), over [kmalloc] *)

Section FrameList.
Variable kmalloc : Z → K Z.

Definition SIZEOF_FRAME_NODE : Z := 8.

(** Walk to the node whose link is NULL or the filler word. *)
Fixpoint last_node (n : nat) (p : Z) : K Z :=
  match n with
  | O => nofuel
  | S n' =>
      next ← load (p + 4);
      if negb (next =? 0) && negb (next =? DEADBEEF) then last_node n' next
      else mret p
  end.

(** The allocation and the first part of [addToFrameList]. *)
Definition new_frame_node (value : Z) : K Z :=
  currentFrame ← kmalloc SIZEOF_FRAME_NODE;
  if currentFrame =? 0 then panic "Error kmalloc in addToList()"
  else if currentFrame =? 0xdeadeef then panic "1"
  else
    store currentFrame value ;;
    entries ← gets (λ s, PAGETABLE_ENTRY (k_pt s));
    kassert (value <=? entries) "value <= PAGETABLE_ENTRY" ;;
    mret currentFrame.

Definition push_frame (currentFrame : Z) : K Z :=
  head ← gets (λ s, frame_list (k_pt s));
  store (currentFrame + 4) head ;;
  modify (upd_pt (with_frame_list currentFrame)) ;;
  mret 0.

(** On [addBOTTOM] with an empty list the function calls itself, which
    allocates a second node; the walk is bounded by the number of frames. *)
Definition addToFrameList_ (value : Z) (position : positionList) : K Z :=
  currentFrame ← new_frame_node value;
  match position with
  | addTOP => push_frame currentFrame
  | addBOTTOM =>
      head ← gets (λ s, frame_list (k_pt s));
      if head =? 0 then
        currentFrame' ← new_frame_node value;
        push_frame currentFrame'
      else
        entries ← gets (λ s, PAGETABLE_ENTRY (k_pt s));
        bufferFrame ← last_node (S (Z.to_nat entries)) head;
        store (bufferFrame + 4) currentFrame ;;
        mret 0
  | removeTOP | removeBOTTOM => mret 1
  end.
End FrameList.

Definition removeFromList : Z := 1.

(** vm/coremap.c: the loop tests the same node every time. *)
Fixpoint check_loop (n : nat) (currentFrame FIFOSize : Z) : K Z :=
  match n with
  | O => mret FIFOSize
  | S n' =>
      next ← load (currentFrame + 4);
      if next =? 0 then mret FIFOSize
      else check_loop n' currentFrame (u32 (FIFOSize + 1))
  end.

Definition check_free_frame (npages : Z) : K Z :=
  currentFrame ← gets (λ s, frame_list (k_pt s));
  if currentFrame =? 0 then mret 0
  else check_loop (Z.to_nat (npages - 1)) currentFrame 1.

(** ** Page allocation (end of kmalloc.c), over [kfree] and [addToFrameList] *)

Section Pages.
Variable kfree : Z → K unit.
Variable addToFrameList : Z → positionList → K Z.

(** One iteration of the loop of [alloc_kpages]; returns the new [addr]. *)
Definition take_frame (addr : Z) : K Z :=
  currentFrame ← gets (λ s, frame_list (k_pt s));
  index ← load currentFrame;
  n ← gets (λ s, PAGETABLE_ENTRY (k_pt s));
  kassert (index <? n) "index < PAGETABLE_ENTRY" ;;
  e ← deref (λ s, main_PG (k_pt s) !! Z.to_nat index) "main_PG index out of range";
  (if Valid e then panic "This should not happen" else mret tt) ;;
  modify (upd_pt (λ p, with_pt_counter (u32 (pt_counter p + 1)) p)) ;;
  cnt ← gets (λ s, pt_counter (k_pt s));
  modify (upd_pt (λ p, with_main_PG
    (<[Z.to_nat index := mkPT (Dirty e) true 0 0 (u16 cnt)]> (main_PG p)) p)) ;;
  addr' ←
    (if addr =? 0 then
       let a := u32 (index * 4096) in
       base ← gets (λ s, main_PG_addr (k_pt s));
       if u32 (base - MIPS_KSEG0) <=? a then panic "You're trying to write over the PG"
       else if a =? 0 then panic "Error in alloc_kpages"
       else mret a
     else mret addr);
  next ← load (currentFrame + 4);
  modify (upd_pt (with_frame_list next)) ;;
  unlock_kmalloc ;;
  kfree currentFrame ;;
  lock_kmalloc ;;
  mret addr'.

Fixpoint take_frames (n : nat) (addr : Z) : K Z :=
  match n with
  | O => mret addr
  | S n' => addr' ← take_frame addr; take_frames n' addr'
  end.

Definition alloc_kpages_ (npages : Z) : K Z :=
  lock_kmalloc ;;
  kassert (npages <? MAX_PAGES_ALLOC) "npages < MAX_PAGES_ALLOC" ;;
  started ← gets (λ s, VM_Started (k_pt s));
  if negb started then
    addr ← zoom k_ram with_k_ram (ram_stealmem npages);
    if addr =? 0 then unlock_kmalloc ;; panic "Error in alloc_kpages: Not enough RAM"
    else unlock_kmalloc ;; mret (PADDR_TO_KVADDR addr)
  else
    sz ← check_free_frame npages;
    let FIFOSize := u8 sz in
    if FIFOSize =? 0 then unlock_kmalloc ;; mret 0
    else if FIFOSize =? npages then
      addr ← take_frames (Z.to_nat npages) 0;
      unlock_kmalloc ;;
      fill (PADDR_TO_KVADDR addr) PAGE_SIZE 0 ;;
      mret (PADDR_TO_KVADDR addr)
    else panic "Error in alloc_kpages".

Definition free_kpages_ (paddr : Z) : K unit :=
  lock_kmalloc ;;
  started ← gets (λ s, VM_Started (k_pt s));
  if negb started then unlock_kmalloc
  else
    let paddr_align := Z.land paddr PAGE_FRAME in
    let frame_index := u32 (paddr_align - MIPS_KSEG0) / PAGE_SIZE in
    n ← gets (λ s, PAGETABLE_ENTRY (k_pt s));
    kassert (frame_index <? n) "frame_index < PAGETABLE_ENTRY" ;;
    e ← deref (λ s, main_PG (k_pt s) !! Z.to_nat frame_index) "main_PG index out of range";
    (if negb (Valid e)
     then panic "You're trying to free an already empty memory region" else mret tt) ;;
    (if negb (pid e =? 0) then
       r ← on_tlb (removeTLBv1 (u32 (page_number e * 4096)));
       if negb (r =? 0) then panic "Error in free_kpages during removeTLB()" else mret tt
     else mret tt) ;;
    modify (upd_pt (λ p, with_main_PG
      (<[Z.to_nat frame_index := mkPT (Dirty e) false 0 0 (victim_counter e)]>
         (main_PG p)) p)) ;;
    fill paddr PAGE_SIZE 0 ;;
    unlock_kmalloc ;;
    addToFrameList frame_index addTOP ;;
    mret tt.
End Pages.

(** ** Tying the knot *)

Fixpoint alloc_kpages (fuel : nat) (npages : Z) {struct fuel} : K Z :=
  match fuel with
  | O => nofuel
  | S n => alloc_kpages_ (kfree_ (free_kpages n)) npages
  end
with free_kpages (fuel : nat) (paddr : Z) {struct fuel} : K unit :=
  match fuel with
  | O => nofuel
  | S n =>
      free_kpages_
        (addToFrameList_ (kmalloc_ (alloc_kpages n) (free_kpages n))) paddr
  end.

Definition kmalloc (fuel : nat) : Z → K Z :=
  kmalloc_ (alloc_kpages fuel) (free_kpages fuel).
Definition kfree (fuel : nat) : Z → K unit := kfree_ (free_kpages fuel).
Definition addToFrameList (fuel : nat) : Z → positionList → K Z :=
  addToFrameList_ (kmalloc fuel).
Definition page_replacement (fuel : nat) (page_num : Z) : K Z :=
  free_kpages fuel (u32 (page_num * PAGE_SIZE + MIPS_KSEG0)) ;; mret 0.

End Kernel.
End Kmalloc.
