(* ===== verification/KFrame.v ===== *)
(** * What the allocators leave alone

    The allocators of kmalloc.c, list.c and coremap.c change the memory words,
    the RAM bounds, the page table, the heap and the TLB.  Every other part of
    the kernel state, and so every view [v] that depends only on the others,
    is kept. *)

From stdpp Require Import base list gmap numbers strings.
From Stdlib Require Import ZArith Lia.
From S2P Require Import Prelude Segments Tlb PageTable VmState Ram Kmalloc.
Import Segments Tlb PageTable VmState Ram Kmalloc.

#[local] Open Scope Z_scope.

Module KFrame.

Section frame.
Context {FS B : Type} (v : kstate FS → B).

(** [v] does not look at what the allocators change. *)
Record outside : Prop := {
  out_mem : ∀ x s, v (with_k_mem x s) = v s;
  out_ram : ∀ x s, v (with_k_ram x s) = v s;
  out_pt : ∀ x s, v (with_k_pt x s) = v s;
  out_heap : ∀ x s, v (with_k_heap x s) = v s;
  out_tlb : ∀ x s, v (with_k_tlb x s) = v s
}.
Context (Hv : outside).

Lemma keeps_load a : keeps v (load a).
Proof using. intros s. unfold wlp, load. by destruct (kseg0_ok a). Qed.
Lemma keeps_store a w : keeps v (store a w).
Proof using Hv. intros s. unfold wlp, store. destruct (kseg0_ok a); [apply Hv | done]. Qed.
Lemma keeps_fill a n w : keeps v (fill a n w).
Proof using Hv. intros s. unfold wlp, fill. destruct (kseg0_ok a); [apply Hv | done]. Qed.
Lemma keeps_upd_heap f : keeps v (modify (upd_heap f)).
Proof using Hv. apply keeps_modify. intros s. apply Hv. Qed.
Lemma keeps_upd_pt f : keeps v (modify (upd_pt f)).
Proof using Hv. apply keeps_modify. intros s. apply Hv. Qed.
Lemma keeps_on_tlb {A} (m : M tlb_state A) : keeps v (on_tlb m).
Proof using Hv. apply keeps_zoom. intros t s. apply Hv. Qed.
Lemma keeps_on_PG {A} (m : M (list invertedPT) A) : keeps v (on_PG m).
Proof using Hv. apply keeps_zoom. intros t s. apply Hv. Qed.
Lemma keeps_ram {A} (m : M ram_state A) : keeps v (zoom k_ram with_k_ram m).
Proof using Hv. apply keeps_zoom. intros t s. apply Hv. Qed.

#[local] Hint Resolve keeps_load keeps_store keeps_fill keeps_upd_heap keeps_upd_pt
  keeps_on_tlb keeps_on_PG keeps_ram : keeps.

Ltac kauto f := unfold f, lock_kmalloc, unlock_kmalloc, get_pr, set_pr, get_root, set_root,
  get_sizebase, set_sizebase, fill_deadbeef; keeps_auto.

Section calls.
Context (ak : Z → M (kstate FS) Z) (fk : Z → M (kstate FS) unit).
Context (Hak : ∀ n, keeps v (ak n)) (Hfk : ∀ p, keeps v (fk p)).
#[local] Hint Resolve Hak Hfk : keeps.

Lemma keeps_allocpagerefpage w : keeps v (allocpagerefpage ak fk w).
Proof using Hv Hak Hfk. kauto @allocpagerefpage. Qed.
#[local] Hint Resolve keeps_allocpagerefpage : keeps.

Lemma keeps_allocpageref : keeps v (allocpageref ak fk).
Proof using Hv Hak Hfk. kauto @allocpageref. Qed.
#[local] Hint Resolve keeps_allocpageref : keeps.

Lemma keeps_freepageref_from n w p : keeps v (freepageref_from n w p).
Proof using Hv. revert w. induction n as [|n IH]; intros w; simpl; kauto @get_root. Qed.

Lemma keeps_unlink_from n next set_next g p : keeps v (unlink_from n next set_next g p).
Proof using Hv. revert g. induction n as [|n IH]; intros g; simpl; kauto @get_pr. Qed.
#[local] Hint Resolve keeps_freepageref_from keeps_unlink_from : keeps.

Lemma keeps_find_page n t p : keeps v (find_page n t p).
Proof using. revert p. induction n as [|n IH]; intros p; simpl; kauto @get_pr. Qed.

Lemma keeps_find_owner n a p : keeps v (find_owner n a p).
Proof using. revert p. induction n as [|n IH]; intros p; simpl; kauto @get_pr. Qed.

Lemma keeps_doalloc p : keeps v (doalloc p).
Proof using Hv. kauto @doalloc. Qed.
#[local] Hint Resolve keeps_find_page keeps_find_owner keeps_doalloc : keeps.

Lemma keeps_kmalloc_ sz : keeps v (kmalloc_ ak fk sz).
Proof using Hv Hak Hfk.
  unfold kmalloc_, subpage_kmalloc, blocktype, init_freelist. kauto @get_sizebase.
Qed.

Lemma keeps_kfree_ p : keeps v (kfree_ fk p).
Proof using Hv Hfk.
  unfold kfree_, subpage_kfree, remove_lists, freepageref. kauto @get_sizebase.
Qed.
End calls.
#[local] Hint Resolve keeps_kmalloc_ keeps_kfree_ : keeps.

Section pages.
Context (km : Z → M (kstate FS) Z) (Hkm : ∀ n, keeps v (km n)).
#[local] Hint Resolve Hkm : keeps.

Lemma keeps_last_node n p : keeps v (last_node n p).
Proof using. revert p. induction n as [|n IH]; intros p; simpl; kauto @get_pr. Qed.
#[local] Hint Resolve keeps_last_node : keeps.

Lemma keeps_addToFrameList_ x pos : keeps v (addToFrameList_ km x pos).
Proof using Hv Hkm. unfold addToFrameList_, new_frame_node, push_frame. kauto @get_pr. Qed.
End pages.
#[local] Hint Resolve keeps_addToFrameList_ : keeps.

Lemma keeps_check_loop n c f : keeps v (check_loop n c f).
Proof using. revert f. induction n as [|n IH]; intros f; simpl; keeps_auto. Qed.
#[local] Hint Resolve keeps_check_loop : keeps.

Lemma keeps_take_frames kf n a :
  (∀ p, keeps v (kf p)) → keeps v (take_frames kf n a).
Proof using Hv.
  intros Hkf. revert a. induction n as [|n IH]; intros a; simpl; [auto with keeps |].
  unfold take_frame. kauto @get_pr.
Qed.
#[local] Hint Resolve keeps_take_frames : keeps.

(** The page allocator, and with it the whole heap, at every recursion bound. *)
Lemma keeps_pages fuel :
  (∀ n, keeps v (alloc_kpages fuel n)) ∧ (∀ p, keeps v (free_kpages fuel p)).
Proof using Hv.
  induction fuel as [|fuel [IHa IHf]]; simpl; split; intros x; [done | done | |].
  - unfold alloc_kpages_, check_free_frame. kauto @get_pr.
  - unfold free_kpages_. kauto @get_pr.
Qed.

Lemma keeps_alloc_kpages fuel n : keeps v (alloc_kpages fuel n).
Proof using Hv. apply keeps_pages. Qed.
Lemma keeps_free_kpages fuel p : keeps v (free_kpages fuel p).
Proof using Hv. apply keeps_pages. Qed.
Lemma keeps_kmalloc fuel n : keeps v (kmalloc fuel n).
Proof using Hv. apply keeps_kmalloc_; [apply keeps_alloc_kpages | apply keeps_free_kpages]. Qed.
Lemma keeps_kfree fuel p : keeps v (kfree fuel p).
Proof using Hv. apply keeps_kfree_, keeps_free_kpages. Qed.
Lemma keeps_addToFrameList fuel x pos : keeps v (addToFrameList fuel x pos).
Proof using Hv. apply keeps_addToFrameList_, keeps_kmalloc. Qed.
End frame.

Lemma outside_proc {FS} : outside (FS:=FS) k_proc.
Proof. done. Qed.
Lemma outside_stats {FS} : outside (FS:=FS) k_stats.
Proof. done. Qed.
Lemma outside_swap {FS} : outside (FS:=FS) k_swap.
Proof. done. Qed.
Lemma outside_fs {FS} : outside (FS:=FS) k_fs.
Proof. done. Qed.

#[export] Hint Resolve keeps_load keeps_store keeps_fill keeps_upd_heap keeps_upd_pt
  keeps_on_tlb keeps_on_PG keeps_alloc_kpages keeps_free_kpages keeps_kmalloc keeps_kfree
  keeps_addToFrameList outside_proc outside_stats outside_swap outside_fs : keeps.
End KFrame.
