(* ===== verification/HeapInv.v ===== *)
(** * The allocation invariant (vm/kmalloc.c, lib/list.c)

    The subpage heap, the pageref pool and the frame list share one invariant,
    [heap_inv], because the three allocators call each other.  It is stated
    over ghost data: the list [L] of pagerefs in use, the free list [FL q] of
    each of their pages, the nodes [N] of the frame list, and what the clients
    own ([ghost]).  This file holds the definitions and the lemmas on chains,
    blocks and masks; [HeapProof] shows that every operation preserves it. *)

From stdpp Require Import base list gmap numbers strings sets.
From Stdlib Require Import ZArith Lia.
From S2P Require Import Prelude Segments Tlb PageTable VmState Ram Kmalloc.
Import Segments Tlb PageTable VmState Kmalloc.

#[local] Open Scope Z_scope.

Module HeapInv.

(** ** Linked structures *)

(** NULL-terminated list through the link word at offset [off] of each node. *)
Fixpoint mchain (m : Z → Z) (off a : Z) (l : list Z) : Prop :=
  match l with
  | [] => a = 0
  | b :: l' => a = b ∧ b ≠ 0 ∧ mchain m off (m (b + off)) l'
  end.

(** NULL-terminated list through a link field of the pageref structures. *)
Fixpoint pchain (prs : gmap Z pageref) (next : pageref → Z) (a : Z) (l : list Z) : Prop :=
  match l with
  | [] => a = 0
  | q :: l' => a = q ∧ q ≠ 0 ∧ ∃ pr, prs !! q = Some pr ∧ pchain prs next (next pr) l'
  end.

Definition pageof (prs : gmap Z pageref) (q : Z) : Z :=
  match prs !! q with Some pr => PR_PAGEADDR pr | None => 0 end.
Definition btof (prs : gmap Z pageref) (q : Z) : Z :=
  match prs !! q with Some pr => PR_BLOCKTYPE pr | None => -1 end.

(** ** Frames and blocks *)

(** The kseg0 address of physical frame [f]. *)
Definition addr (f : Z) : Z := MIPS_KSEG0 + f * PAGE_SIZE.

(** [b] is the address of a block of type [t] in the page at [P]. *)
Definition block_in (P t b : Z) : Prop :=
  P <= b < P + PAGE_SIZE ∧ (b - P) mod size_of t = 0.

(** A heap page with its free list. *)
Record page_ok (m : Z → Z) (pr : pageref) (fl : list Z) : Prop := {
  pk_type : 0 <= PR_BLOCKTYPE pr < NSIZES;
  pk_nfree : nfree pr = Z.of_nat (length fl);
  pk_head : freelist_offset pr =
    match fl with [] => INVALID_OFFSET | b :: _ => b - PR_PAGEADDR pr end;
  pk_chain : mchain m 0 (hd 0 fl) fl;
  pk_blocks : Forall (block_in (PR_PAGEADDR pr) (PR_BLOCKTYPE pr)) fl;
  pk_nodup : NoDup fl
}.

Definition slot_used (root : kheap_root) (i : Z) : Prop :=
  Z.testbit (default 0 (pagerefs_inuse root !! Z.to_nat (i / 32))) (i mod 32) = true.

(** What the callers of the allocators hold: frames with their page-table
    entry ([gX]), heap blocks with their type ([gB]), pageref slots being set up
    ([gR]) and frames taken out of use but not yet on the frame list ([gW]). *)
Record ghost := mkGhost {
  gX : gmap Z invertedPT;
  gB : gmap Z Z;
  gR : gset (Z * Z);
  gW : gset Z
}.

(** [b] is an allocated block of type [t] on some heap page. *)
Definition live (prs : gmap Z pageref) (L : list Z) (FL : Z → list Z) (t b : Z) : Prop :=
  ∃ q, q ∈ L ∧ btof prs q = t ∧ block_in (pageof prs q) t b ∧ b ∉ FL q.

(** Frame [f] is in use by the kernel itself. *)
Definition kernel_frame (pg : list invertedPT) (P : Z) : Prop :=
  ∃ f e, 0 <= f < Z.of_nat (length pg) ∧ P = addr f ∧ pg !! Z.to_nat f = Some e ∧
         Valid e = true ∧ pid e = 0 ∧ page_number e = 0.

Definition frame_invalid (pg : list invertedPT) (f : Z) : Prop :=
  0 <= f < Z.of_nat (length pg) ∧ ∃ e, pg !! Z.to_nat f = Some e ∧ Valid e = false.

Definition frame_valid (pg : list invertedPT) (f : Z) (e : invertedPT) : Prop :=
  0 <= f < Z.of_nat (length pg) ∧ pg !! Z.to_nat f = Some e ∧ Valid e = true.

Record heap_inv (L : list Z) (FL : Z → list Z) (N : list (Z * Z)) (g : ghost)
    (m : Z → Z) (pg : list invertedPT) (fhead : Z) (h : heap_state) : Prop := {
  (* the two pageref lists *)
  hi_nodup : NoDup L;
  hi_all : pchain (pagerefs h) next_all (allbase h) L;
  hi_same : ∀ t, 0 <= t < NSIZES →
    pchain (pagerefs h) next_samesize (default 0 (sizebases h !! Z.to_nat t))
      (filter (λ q, btof (pagerefs h) q = t) L);
  hi_sizes : length (sizebases h) = 8%nat;
  (* heap pages *)
  hi_page : ∀ q pr, q ∈ L → pagerefs h !! q = Some pr → page_ok m pr (FL q);
  hi_inj : ∀ q q', q ∈ L → q' ∈ L →
    pageof (pagerefs h) q = pageof (pagerefs h) q' → q = q';
  hi_kernel : ∀ q, q ∈ L → kernel_frame pg (pageof (pagerefs h) q);
  (* the pageref pool *)
  hi_roots : length (kheaproots h) = 16%nat;
  hi_words : ∀ r root, kheaproots h !! r = Some root → length (pagerefs_inuse root) = 8%nat;
  hi_rootpage : ∀ r root, kheaproots h !! r = Some root →
    root_page root ≠ 0 → kernel_frame pg (root_page root);
  hi_rootinj : ∀ r r' root root', kheaproots h !! r = Some root →
    kheaproots h !! r' = Some root' → root_page root ≠ 0 →
    root_page root = root_page root' → r = r';
  hi_rootheap : ∀ r root q, kheaproots h !! r = Some root → root_page root ≠ 0 →
    q ∈ L → pageof (pagerefs h) q ≠ root_page root;
  hi_slot : ∀ q, q ∈ L → ∃ r i root, kheaproots h !! r = Some root ∧
    root_page root ≠ 0 ∧ 0 <= i < NPAGEREFS_PER_PAGE ∧
    q = root_page root + SIZEOF_PAGEREF * i ∧ slot_used root i ∧ (Z.of_nat r, i) ∉ gR g;
  hi_reserved : ∀ r i, (r, i) ∈ gR g → 0 <= i < NPAGEREFS_PER_PAGE ∧ 0 <= r ∧
    ∃ root, kheaproots h !! Z.to_nat r = Some root ∧ slot_used root i;
  (* the frame list *)
  hi_frames : mchain m 4 fhead (map fst N);
  hi_Nnodup : NoDup (map fst N);
  hi_Fnodup : NoDup (map snd N);
  hi_node : ∀ a f, (a, f) ∈ N → m a = f ∧ frame_invalid pg f ∧
    live (pagerefs h) L FL 0 a ∧ gB g !! a = None ∧ f ∉ gW g;
  (* what clients own *)
  hi_X : ∀ f e, gX g !! f = Some e → frame_valid pg f e ∧
    (∀ q, q ∈ L → pageof (pagerefs h) q ≠ addr f) ∧
    (∀ r root, kheaproots h !! r = Some root → root_page root ≠ addr f);
  hi_B : ∀ b t, gB g !! b = Some t → live (pagerefs h) L FL t b;
  hi_W : ∀ f, f ∈ gW g → frame_invalid pg f;
  (* physical memory fits in kseg0 *)
  hi_ram : Z.of_nat (length pg) <= 2 ^ 17
}.

(** The invariant of the running memory system. *)
Definition Inv {FS} (g : ghost) (s : kstate FS) : Prop :=
  VM_Started (k_pt s) = true ∧
  ∃ L FL N, heap_inv L FL N g (k_mem s) (main_PG (k_pt s)) (frame_list (k_pt s)) (k_heap s).

(** ** Chains *)

Lemma mchain_ext m m' off a l :
  (∀ b, b ∈ l → m' (b + off) = m (b + off)) → mchain m off a l → mchain m' off a l.
Proof.
  revert a. induction l as [|b l IH]; intros a H; simpl; [done |].
  intros (-> & Hb & Hc). repeat split; [done |]. rewrite (H b) by left.
  apply IH; [| done]. intros x Hx. apply H. by right.
Qed.

Lemma pchain_elem prs next a l q :
  pchain prs next a l → q ∈ l → q ≠ 0 ∧ is_Some (prs !! q).
Proof.
  revert a. induction l as [|x l IH]; intros a; simpl.
  { intros _ H. by apply elem_of_nil in H. }
  intros (-> & Hx & pr & Hpr & Hc) [-> | Hq]%elem_of_cons; eauto.
Qed.

(** Changing structures off the chain, or keeping the link field, keeps it. *)
Lemma pchain_ext prs prs' next a l :
  (∀ q pr, q ∈ l → prs !! q = Some pr →
     ∃ pr', prs' !! q = Some pr' ∧ next pr' = next pr) →
  pchain prs next a l → pchain prs' next a l.
Proof.
  revert a. induction l as [|x l IH]; intros a H; simpl; [done |].
  intros (-> & Hx & pr & Hpr & Hc). repeat split; [done |].
  destruct (H x pr) as (pr' & Hpr' & Hn); [left | done |].
  exists pr'. split; [done |]. rewrite Hn. apply IH; [| done].
  intros q pr0 Hq. apply H. by right.
Qed.

Lemma pchain_det prs next a l l' :
  pchain prs next a l → pchain prs next a l' → l = l'.
Proof.
  revert a l'. induction l as [|x l IH]; intros a l' H H'; destruct l' as [|y l'];
    simpl in *; [done | naive_solver | naive_solver |].
  destruct H as (-> & Hx & pr & Hpr & Hc), H' as (-> & Hy & pr' & Hpr' & Hc').
  rewrite Hpr in Hpr'. injection Hpr' as <-. f_equal. eauto.
Qed.

(** ** Block sizes *)

Lemma size_cases t :
  0 <= t < NSIZES → ∃ k, 4 <= k <= 11 ∧ size_of t = 2 ^ k.
Proof.
  unfold NSIZES. intros Ht. exists (t + 4). split; [lia |].
  assert (t = 0 ∨ t = 1 ∨ t = 2 ∨ t = 3 ∨ t = 4 ∨ t = 5 ∨ t = 6 ∨ t = 7) as H by lia.
  by destruct H as [-> | [-> | [-> | [-> | [-> | [-> | [-> | ->]]]]]]].
Qed.

Lemma size_bounds t : 0 <= t < NSIZES → 16 <= size_of t <= 2048.
Proof.
  unfold NSIZES. intros Ht.
  assert (t = 0 ∨ t = 1 ∨ t = 2 ∨ t = 3 ∨ t = 4 ∨ t = 5 ∨ t = 6 ∨ t = 7) as H by lia.
  destruct H as [-> | [-> | [-> | [-> | [-> | [-> | [-> | ->]]]]]]];
    vm_compute; split; discriminate.
Qed.

Lemma size_page t : 0 <= t < NSIZES → PAGE_SIZE = size_of t * (PAGE_SIZE / size_of t).
Proof.
  unfold NSIZES. intros Ht.
  assert (t = 0 ∨ t = 1 ∨ t = 2 ∨ t = 3 ∨ t = 4 ∨ t = 5 ∨ t = 6 ∨ t = 7) as H by lia.
  by destruct H as [-> | [-> | [-> | [-> | [-> | [-> | [-> | ->]]]]]]].
Qed.

(** Blocks of one page are equal or disjoint. *)
Lemma block_disjoint P t b b' :
  0 <= t < NSIZES → block_in P t b → block_in P t b' → b ≠ b' →
  b + size_of t <= b' ∨ b' + size_of t <= b.
Proof.
  intros Ht [Hb Hm] [Hb' Hm'] Hne. pose proof (size_bounds t Ht).
  apply Z.mod_divide in Hm as [x Hx]; [| lia].
  apply Z.mod_divide in Hm' as [y Hy]; [| lia].
  assert (x ≠ y) by (intros ->; lia).
  destruct (Z.lt_total x y) as [Hlt | [-> | Hgt]]; [left | done | right].
  - assert (x + 1 <= y) by lia. nia.
  - assert (y + 1 <= x) by lia. nia.
Qed.

Lemma block_end P t b :
  0 <= t < NSIZES → block_in P t b → b + size_of t <= P + PAGE_SIZE.
Proof.
  intros Ht [Hb Hm]. pose proof (size_bounds t Ht). pose proof (size_page t Ht) as Hp.
  apply Z.mod_divide in Hm as [x Hx]; [| lia].
  set (n := PAGE_SIZE / size_of t) in *. assert (x < n) by nia.
  assert (x + 1 <= n) by lia. nia.
Qed.

(** ** The type tag of a pageref *)

Lemma MKPAB_page P t :
  0 <= P < 2 ^ 32 → P mod PAGE_SIZE = 0 → 0 <= t < NSIZES →
  Z.land (MKPAB P t) PAGE_FRAME = P ∧ Z.land (MKPAB P t) (notw 32 PAGE_FRAME) = t.
Proof.
  intros HP Ha Ht. unfold MKPAB. rewrite !Z.land_lor_distr_l, <- !Z.land_assoc.
  change (Z.land PAGE_FRAME PAGE_FRAME) with PAGE_FRAME.
  change (Z.land (notw 32 PAGE_FRAME) PAGE_FRAME) with 0.
  change (Z.land PAGE_FRAME (notw 32 PAGE_FRAME)) with 0.
  change (Z.land (notw 32 PAGE_FRAME) (notw 32 PAGE_FRAME)) with (notw 32 PAGE_FRAME).
  rewrite !Z.land_0_r, Z.lor_0_r, Z.lor_0_l, land_PAGE_FRAME_aligned by done.
  split; [done |]. change (notw 32 PAGE_FRAME) with (Z.ones 12).
  rewrite Z.land_ones by lia. apply Z.mod_small. unfold NSIZES in Ht. lia.
Qed.

(** ** Frame addresses *)

Lemma addr_inj f f' : addr f = addr f' → f = f'.
Proof. unfold addr. zlia. Qed.

Lemma addr_frame f n :
  0 <= f < n → n <= 2 ^ 17 →
  Z.land (addr f) PAGE_FRAME = addr f ∧
  u32 (addr f - MIPS_KSEG0) / PAGE_SIZE = f ∧ addr f mod PAGE_SIZE = 0 ∧
  0 <= addr f < 2 ^ 32.
Proof.
  intros Hf Hn. assert (0 <= addr f < 2 ^ 32) as Hr by (unfold addr; zlia).
  assert (addr f mod PAGE_SIZE = 0) as Ha by (unfold addr; by rewrite Z.mod_add).
  repeat split; try done; try lia.
  - by apply land_PAGE_FRAME_aligned.
  - unfold addr. rewrite Z.add_simpl_l, u32_small by zlia. by rewrite Z.div_mul.
Qed.

(** Different frames have disjoint pages. *)
Lemma addr_disjoint f f' a a' :
  f ≠ f' → addr f <= a < addr f + PAGE_SIZE → addr f' <= a' < addr f' + PAGE_SIZE → a ≠ a'.
Proof. unfold addr. zlia. Qed.

End HeapInv.
