(* ===== verification/HeapProof.v ===== *)
(** * Preservation of the allocation invariant

    First the state transitions of the allocators as lemmas on [heap_inv], then
    one rule per function of kmalloc.c and list.c, then the induction on the
    recursion bound. *)

From stdpp Require Import base list gmap numbers strings sets.
From Stdlib Require Import ZArith Lia.
From S2P Require Import Prelude Segments Tlb PageTable VmState Ram Kmalloc HeapInv.
Import Segments Tlb PageTable VmState Kmalloc HeapInv.

#[local] Open Scope Z_scope.

Module HeapProof.

Definition fn_upd (FL : Z → list Z) (q : Z) (l : list Z) : Z → list Z :=
  λ x, if decide (x = q) then l else FL x.

Definition drop_B (b : Z) (g : ghost) := mkGhost (gX g) (delete b (gB g)) (gR g) (gW g).
Definition add_B (b t : Z) (g : ghost) := mkGhost (gX g) (<[b := t]> (gB g)) (gR g) (gW g).
Definition add_X (f : Z) (e : invertedPT) (g : ghost) :=
  mkGhost (<[f := e]> (gX g)) (gB g) (gR g) (gW g).
Definition drop_X (f : Z) (g : ghost) := mkGhost (delete f (gX g)) (gB g) (gR g) (gW g).
Definition add_W (f : Z) (g : ghost) := mkGhost (gX g) (gB g) (gR g) ({[f]} ∪ gW g).
Definition drop_W (f : Z) (g : ghost) := mkGhost (gX g) (gB g) (gR g) (gW g ∖ {[f]}).
Definition add_R (x : Z * Z) (g : ghost) := mkGhost (gX g) (gB g) ({[x]} ∪ gR g) (gW g).
Definition drop_R (x : Z * Z) (g : ghost) := mkGhost (gX g) (gB g) (gR g ∖ {[x]}) (gW g).

(** ** Basic facts *)

Section facts.
Context {L : list Z} {FL : Z → list Z} {N : list (Z * Z)} {g : ghost}.
Context {m : Z → Z} {pg : list invertedPT} {fh : Z} {h : heap_state}.
Context (H : heap_inv L FL N g m pg fh h).

Lemma hi_lookup q :
  q ∈ L → ∃ pr, pagerefs h !! q = Some pr ∧ page_ok m pr (FL q) ∧
    pageof (pagerefs h) q = PR_PAGEADDR pr ∧ btof (pagerefs h) q = PR_BLOCKTYPE pr.
Proof using H.
  intros Hq. destruct (pchain_elem _ _ _ _ q (hi_all _ _ _ _ _ _ _ _ H) Hq) as [_ [pr Hpr]].
  exists pr. unfold pageof, btof. rewrite Hpr. split; [done |].
  split; [by eapply hi_page |]. done.
Qed.

Lemma hi_bt q : q ∈ L → 0 <= btof (pagerefs h) q < NSIZES.
Proof using H.
  intros Hq. destruct (hi_lookup q Hq) as (pr & _ & Hok & _ & ->). apply Hok.
Qed.

(** The page of a pageref in use is the page of a frame. *)
Lemma hi_pageframe q :
  q ∈ L → ∃ f, 0 <= f < Z.of_nat (length pg) ∧ pageof (pagerefs h) q = addr f.
Proof using H.
  intros Hq. destruct (hi_kernel _ _ _ _ _ _ _ _ H q Hq) as (f & e & Hf & -> & _). eauto.
Qed.

(** Addresses on the pages of two different pagerefs differ. *)
Lemma hi_page_disjoint q q' a a' :
  q ∈ L → q' ∈ L → q ≠ q' →
  pageof (pagerefs h) q <= a < pageof (pagerefs h) q + PAGE_SIZE →
  pageof (pagerefs h) q' <= a' < pageof (pagerefs h) q' + PAGE_SIZE → a ≠ a'.
Proof using H.
  intros Hq Hq' Hne Ha Ha'.
  destruct (hi_pageframe q Hq) as (f & _ & Ef), (hi_pageframe q' Hq') as (f' & _ & Ef').
  rewrite Ef in Ha. rewrite Ef' in Ha'. eapply addr_disjoint; [| done | done].
  intros ->. apply Hne. eapply (hi_inj _ _ _ _ _ _ _ _ H); congruence.
Qed.

Lemma live_owner t b q :
  live (pagerefs h) L FL t b → q ∈ L →
  pageof (pagerefs h) q <= b < pageof (pagerefs h) q + PAGE_SIZE →
  btof (pagerefs h) q = t ∧ block_in (pageof (pagerefs h) q) t b ∧ b ∉ FL q.
Proof using H.
  intros (q' & Hq' & Ht & Hb & Hfl) Hq Hin.
  destruct (decide (q = q')) as [-> | Hne]; [done |].
  destruct (hi_page_disjoint q q' b b); [done | done | done | done | apply Hb | done].
Qed.

(** Two live blocks overlap only if they are the same block. *)
Lemma live_disjoint t t' b b' x x' :
  live (pagerefs h) L FL t b → live (pagerefs h) L FL t' b' → b ≠ b' →
  b <= x < b + size_of t → b' <= x' < b' + size_of t' → x ≠ x'.
Proof using H.
  intros (q & Hq & Ht & Hb & _) (q' & Hq' & Ht' & Hb' & _) Hne Hx Hx'.
  pose proof (hi_bt q Hq). pose proof (hi_bt q' Hq').
  assert (0 <= t < NSIZES) as Rt by (by subst t).
  assert (0 <= t' < NSIZES) as Rt' by (by subst t').
  pose proof (block_end _ _ _ Rt Hb). pose proof (block_end _ _ _ Rt' Hb').
  destruct (decide (q = q')) as [<- | Hqq].
  - subst t'. rewrite Ht in Hb', Hx'.
    destruct (block_disjoint _ _ _ _ Rt Hb Hb' Hne); lia.
  - destruct Hb as [Hb _], Hb' as [Hb' _].
    eapply (hi_page_disjoint q q'); [done | done | done | lia | lia].
Qed.

(** A free block and an address inside a live block differ. *)
Lemma free_live_disjoint t b x q b' :
  live (pagerefs h) L FL t b → b <= x < b + size_of t → q ∈ L → b' ∈ FL q → x ≠ b'.
Proof using H.
  intros Hl Hx Hq Hb'. destruct (hi_lookup q Hq) as (pr & Hpr & Hok & Ep & Et).
  assert (block_in (pageof (pagerefs h) q) (btof (pagerefs h) q) b') as Hin.
  { rewrite Ep, Et. eapply Forall_forall; [apply Hok |]. done. }
  pose proof (hi_bt q Hq) as Hbt. pose proof Hl as (q' & Hq' & Ht & Hb & Hfl).
  assert (0 <= t < NSIZES) as Rt by (rewrite <- Ht; by apply hi_bt).
  pose proof (block_end _ _ _ Rt Hb).
  destruct (decide (q = q')) as [<- | Hne].
  - rewrite Ht in Hin. destruct (decide (b = b')) as [-> | Hbb]; [done |].
    pose proof (size_bounds t Rt).
    destruct (block_disjoint _ _ _ _ Rt Hb Hin Hbb); lia.
  - destruct Hb as [Hb _], Hin as [Hin _].
    eapply (hi_page_disjoint q' q); [done | done | congruence | lia | lia].
Qed.

End facts.

(** Writing inside a live block disturbs neither the free lists nor the other
    nodes of the frame list. *)
Lemma page_ok_ext m m' pr fl :
  (∀ b, b ∈ fl → m' b = m b) → page_ok m pr fl → page_ok m' pr fl.
Proof.
  intros Hm [Ht Hn Hh Hc Hb Hd]. split; try done.
  eapply mchain_ext; [| done]. intros b Hin. rewrite Z.add_0_r. by apply Hm.
Qed.

(** *** Updating the counters of one pageref *)

Definition same_links (pr pr' : pageref) : Prop :=
  next_samesize pr' = next_samesize pr ∧ next_all pr' = next_all pr ∧
  pageaddr_and_blocktype pr' = pageaddr_and_blocktype pr.

Section pr_update.
Context (prs : gmap Z pageref) (q : Z) (pr pr' : pageref).
Context (Hq : prs !! q = Some pr) (Hs : same_links pr pr').

Lemma upd_pageof x : pageof (<[q := pr']> prs) x = pageof prs x.
Proof using Hq Hs.
  unfold pageof. destruct (decide (q = x)) as [<- | Hne].
  - rewrite lookup_insert_eq, Hq. unfold PR_PAGEADDR. destruct Hs as (_ & _ & ->). done.
  - by rewrite lookup_insert_ne.
Qed.

Lemma upd_btof x : btof (<[q := pr']> prs) x = btof prs x.
Proof using Hq Hs.
  unfold btof. destruct (decide (q = x)) as [<- | Hne].
  - rewrite lookup_insert_eq, Hq. unfold PR_BLOCKTYPE. destruct Hs as (_ & _ & ->). done.
  - by rewrite lookup_insert_ne.
Qed.

Lemma upd_filter t (l : list Z) :
  filter (λ x, btof (<[q := pr']> prs) x = t) l = filter (λ x, btof prs x = t) l.
Proof using Hq Hs. apply list_filter_iff. intros x. by rewrite upd_btof. Qed.

Lemma upd_chain next a l :
  (next = next_all ∨ next = next_samesize) →
  pchain prs next a l → pchain (<[q := pr']> prs) next a l.
Proof using Hq Hs.
  intros Hn. apply pchain_ext. intros x px Hx Hpx.
  destruct (decide (q = x)) as [<- | Hne].
  - exists pr'. rewrite lookup_insert_eq. split; [done |].
    rewrite Hq in Hpx. injection Hpx as <-. destruct Hs as (Ha & Hb & _).
    by destruct Hn as [-> | ->].
  - exists px. by rewrite lookup_insert_ne.
Qed.
End pr_update.

(** The fields of the invariant that do not mention pagerefs contents are kept
    by any change that keeps the links, given the changed free list is good and
    allocated blocks stay allocated. *)
Lemma inv_update_page L FL N g g' m m' pg fh h q pr pr' fl' :
  heap_inv L FL N g m pg fh h → q ∈ L → pagerefs h !! q = Some pr → same_links pr pr' →
  page_ok m' pr' fl' →
  (∀ x b, x ∈ L → x ≠ q → b ∈ FL x → m' b = m b) →
  (∀ a f, (a, f) ∈ N → (a ∉ fl') ∧ m' a = m a ∧ m' (a + 4) = m (a + 4) ∧ gB g' !! a = None) →
  (∀ b t, gB g' !! b = Some t →
     live (pagerefs h) L (fn_upd FL q fl') t b) →
  gX g' = gX g → gR g' = gR g → gW g' = gW g →
  heap_inv L (fn_upd FL q fl') N g' m' pg fh
    (with_pagerefs (<[q := pr']> (pagerefs h)) h).
Proof.
  intros H Hq Hpr Hs Hok Hm HN HB EX ER EW. pose proof H as [].
  assert (∀ t b, live (pagerefs h) L (fn_upd FL q fl') t b →
    live (<[q := pr']> (pagerefs h)) L (fn_upd FL q fl') t b) as Hlive.
  { intros t b (x & Hx & Ht & Hb & Hf). exists x.
    rewrite (upd_btof _ q pr), (upd_pageof _ q pr) by done. done. }
  split; simpl; try done.
  - by eapply upd_chain; [| | by left |].
  - intros t Ht. rewrite (upd_filter _ q pr) by done.
    by eapply upd_chain; [| | by right | apply hi_same0].
  - intros x px Hx. unfold fn_upd. destruct (decide (x = q)) as [-> | Hne].
    + rewrite lookup_insert_eq. intros [= <-]. done.
    + rewrite lookup_insert_ne by done. intros Hpx.
      eapply page_ok_ext; [| by eapply hi_page0]. intros b Hb. by apply (Hm x).
  - intros x x' Hx Hx'. rewrite !(upd_pageof _ q pr) by done. by apply hi_inj0.
  - intros x Hx. rewrite (upd_pageof _ q pr) by done. by apply hi_kernel0.
  - intros r root x Hr H0 Hx. rewrite (upd_pageof _ q pr) by done. by eapply hi_rootheap0.
  - intros x Hx. rewrite ER. by apply hi_slot0.
  - intros r i. rewrite ER. apply hi_reserved0.
  - eapply mchain_ext; [| done]. intros a Ha.
    apply list_elem_of_fmap in Ha as ([a' f] & -> & Ha). by apply (HN a' f).
  - intros a f Ha. destruct (hi_node0 a f Ha) as (Hma & Hinv & Hl & Hb & Hw).
    destruct (HN a f Ha) as (Hfl & Hm1 & _ & HB').
    rewrite Hm1, EW. split_and!; try done. apply Hlive.
    destruct Hl as (x & Hx & Ht & Hb' & Hf). exists x. split_and!; try done.
    unfold fn_upd. by destruct (decide (x = q)) as [-> |].
  - intros f e. rewrite EX. intros Hf. destruct (hi_X0 f e Hf) as (Hv & Hp & Hr).
    split; [done |]. split; [| done]. intros x Hx. rewrite (upd_pageof _ q pr) by done.
    by apply Hp.
  - intros b t Hb. by apply Hlive, HB.
  - intros f. rewrite EW. apply hi_W0.
Qed.

(** Taking the first block of a page's free list. *)
Lemma inv_alloc_block L FL N g m pg fh h q pr b fl :
  heap_inv L FL N g m pg fh h → q ∈ L → pagerefs h !! q = Some pr → FL q = b :: fl →
  heap_inv L (fn_upd FL q fl) N (add_B b (PR_BLOCKTYPE pr) g) m pg fh
    (with_pagerefs (<[q := mkPageref (next_samesize pr) (next_all pr)
       (pageaddr_and_blocktype pr)
       (match fl with [] => INVALID_OFFSET | b' :: _ => b' - PR_PAGEADDR pr end)
       (Z.of_nat (length fl))]> (pagerefs h)) h).
Proof.
  intros H Hq Hpr Hfl. pose proof (hi_page _ _ _ _ _ _ _ _ H q pr Hq Hpr) as Hok.
  rewrite Hfl in Hok. pose proof Hok as [Ht Hn Hh Hc Hb Hd].
  apply Forall_cons in Hb as [Hb Hbs]. apply NoDup_cons in Hd as [Hbf Hd].
  assert (pageof (pagerefs h) q = PR_PAGEADDR pr) as Ep by (unfold pageof; by rewrite Hpr).
  assert (btof (pagerefs h) q = PR_BLOCKTYPE pr) as Et by (unfold btof; by rewrite Hpr).
  eapply inv_update_page with (m := m); try done.
  - split; simpl; try done. destruct fl as [|b' fl]; [done |]. simpl in *.
    by destruct Hc as (_ & _ & _ & Hb'0 & Hc).
  - intros a f Ha. destruct (hi_node _ _ _ _ _ _ _ _ H a f Ha) as (_ & _ & Hl & HB & _).
    repeat split; try done.
    + intros Hin. destruct (live_owner H 0 a q Hl Hq) as (_ & _ & Hnot).
      { rewrite Ep. by eapply Forall_forall in Hbs as [? _]; [| exact Hin]. }
      apply Hnot. rewrite Hfl. by right.
    + simpl. rewrite lookup_insert_ne; [done |]. intros ->.
      destruct (live_owner H 0 a q Hl Hq) as (_ & _ & Hnot); [rewrite Ep; apply Hb |].
      apply Hnot. rewrite Hfl. left.
  - simpl. intros b0 t. rewrite lookup_insert. case_decide as E.
    + subst b0. intros [= <-]. exists q. rewrite Ep, Et. unfold fn_upd.
      rewrite decide_True by done. done.
    + intros Hb0. destruct (hi_B _ _ _ _ _ _ _ _ H b0 t Hb0) as (x & Hx & Hxt & Hxb & Hxf).
      exists x. split_and!; try done. unfold fn_upd.
      destruct (decide (x = q)) as [-> |]; [| done]. rewrite Hfl in Hxf.
      intros Hin. apply Hxf. by right.
Qed.

(** Returning an allocated block to the free list of its page: the block is
    overwritten and its first word links it to the old list. *)
Lemma inv_free_block L FL N g m m' pg fh h q pr b t :
  heap_inv L FL N g m pg fh h → q ∈ L → pagerefs h !! q = Some pr →
  gB g !! b = Some t → PR_PAGEADDR pr <= b < PR_PAGEADDR pr + PAGE_SIZE →
  (∀ x, ¬ (b <= x < b + size_of t) → m' x = m x) →
  m' b = hd 0 (FL q) → b ≠ 0 →
  heap_inv L (fn_upd FL q (b :: FL q)) N (drop_B b g) m' pg fh
    (with_pagerefs (<[q := mkPageref (next_samesize pr) (next_all pr)
       (pageaddr_and_blocktype pr) (b - PR_PAGEADDR pr)
       (Z.of_nat (S (length (FL q))))]> (pagerefs h)) h).
Proof.
  intros H Hq Hpr HBb Hin Hm Hmb Hb0.
  pose proof (hi_page _ _ _ _ _ _ _ _ H q pr Hq Hpr) as Hok.
  pose proof Hok as [Ht Hn Hh Hc Hbs Hd].
  assert (pageof (pagerefs h) q = PR_PAGEADDR pr) as Ep by (unfold pageof; by rewrite Hpr).
  pose proof (hi_B _ _ _ _ _ _ _ _ H b t HBb) as Hl.
  destruct (live_owner H t b q Hl Hq) as (Et & Hbk & Hnf); [by rewrite Ep |].
  assert (btof (pagerefs h) q = PR_BLOCKTYPE pr) as Et' by (unfold btof; by rewrite Hpr).
  assert (∀ x b', x ∈ L → b' ∈ FL x → m' b' = m b') as Hfree.
  { intros x b' Hx Hb'. apply Hm. intros Hr.
    by apply (free_live_disjoint H t b b' x b' Hl Hr Hx Hb'). }
  eapply inv_update_page with (m := m); try done.
  - split; simpl; try done.
    + rewrite Z.add_0_r, Hmb. repeat split; [done |]. eapply mchain_ext; [| exact Hc].
      intros b' Hb'. rewrite Z.add_0_r. by apply (Hfree q).
    + constructor; [| done]. change (block_in (PR_PAGEADDR pr) (PR_BLOCKTYPE pr) b).
      rewrite <- Ep, <- Et', Et. done.
    + by constructor.
  - intros x b' Hx _ Hb'. by apply (Hfree x).
  - intros a f Ha. destruct (hi_node _ _ _ _ _ _ _ _ H a f Ha) as (_ & _ & Hla & HB & _).
    assert (a ≠ b) as Hab by (intros ->; congruence).
    assert (∀ o, 0 <= o < 16 → m' (a + o) = m (a + o)) as Hw.
    { intros o Ho. apply Hm. intros Hr.
      apply (live_disjoint H 0 t a b (a + o) (a + o) Hla Hl Hab); [| done | done].
      change (size_of 0) with 16. lia. }
    repeat split.
    + intros [-> | Hf]%elem_of_cons; [done |].
      destruct (live_owner H 0 a q Hla Hq) as (_ & _ & Hnot); [| done].
      rewrite Ep. by eapply Forall_forall in Hbs as [? _]; [| exact Hf].
    + rewrite <- (Z.add_0_r a). apply Hw. lia.
    + apply Hw. lia.
    + simpl. rewrite lookup_delete_ne by done. done.
  - simpl. intros b0 t0. rewrite lookup_delete. case_decide as E; [done |].
    intros Hb0'. destruct (hi_B _ _ _ _ _ _ _ _ H b0 t0 Hb0') as (x & Hx & Hxt & Hxb & Hxf).
    exists x. split_and!; try done. unfold fn_upd.
    destruct (decide (x = q)) as [-> |]; [| done].
    intros [-> | Hf]%elem_of_cons; [done | done].
Qed.

End HeapProof.
