(* ===== verification/HeapOps.v ===== *)
(** * The subpage allocator on its allocation invariant

    [kmalloc] from a page with a free block and [kfree] to a page that stays in
    use: both return, with the block added to or taken from what the caller
    owns, and the invariant of [HeapInv] kept. *)

From stdpp Require Import base list gmap numbers strings sets.
From Stdlib Require Import ZArith Lia.
From S2P Require Import Prelude Segments Tlb PageTable VmState Ram Kmalloc HeapInv HeapProof.
Import Segments Tlb PageTable VmState Kmalloc HeapInv HeapProof.

#[local] Open Scope Z_scope.

Module HeapOps.

(** ** Bounds *)

(** A page holds at most [PAGE_SIZE / size] distinct blocks. *)
Lemma blocks_bound P t l :
  0 <= t < NSIZES → Forall (block_in P t) l → NoDup l →
  Z.of_nat (length l) <= PAGE_SIZE / size_of t.
Proof.
  intros Ht Hl Hd. pose proof (size_bounds t Ht) as Hs. pose proof (size_page t Ht) as Hp.
  set (n := PAGE_SIZE / size_of t) in *.
  assert (0 <= n) by (apply Z.div_pos; zlia).
  rewrite <- (length_fmap (λ b, (b - P) / size_of t)).
  transitivity (Z.of_nat (length (seqZ 0 n))); [| rewrite length_seqZ; lia].
  apply inj_le, NoDup_incl_length.
  - apply NoDup_ListNoDup, NoDup_fmap_2_strong; [| done]. intros x y Hx Hy E.
    rewrite Forall_forall in Hl. destruct (Hl x Hx) as [_ Mx], (Hl y Hy) as [_ My].
    apply Z.mod_divide in Mx as [i Ei]; [| lia]. apply Z.mod_divide in My as [j Ej]; [| lia].
    rewrite Ei, Ej, !Z.div_mul in E by lia. subst j. lia.
  - intros i Hi. apply list_elem_of_In in Hi. apply list_elem_of_In.
    apply list_elem_of_fmap in Hi as (b & -> & Hb). apply elem_of_seqZ.
    rewrite Forall_forall in Hl. destruct (Hl b Hb) as [Rb _].
    split; [apply Z.div_pos; lia |]. apply Z.div_lt_upper_bound; lia.
Qed.

Lemma blocks_per_page t : 0 <= t < NSIZES → 2 <= PAGE_SIZE / size_of t <= 256.
Proof.
  intros Ht. pose proof (size_bounds t Ht). pose proof (size_page t Ht).
  unfold PAGE_SIZE in *. split; [apply Z.div_le_lower_bound; lia |].
  apply Z.div_le_upper_bound; lia.
Qed.

(** A list of distinct pagerefs is no longer than the walk bound. *)
Lemma walk_bound (prs : gmap Z pageref) next a l :
  pchain prs next a l → NoDup l → (length l <= size prs)%nat.
Proof.
  intros Hc Hd. rewrite <- size_dom, <- (size_list_to_set (C := gset Z)) by done.
  apply subseteq_size. intros q Hq. apply elem_of_list_to_set in Hq.
  apply elem_of_dom. by eapply pchain_elem.
Qed.

Section ops.
Context {FS : Type}.
Implicit Types s : kstate FS.
Context {L : list Z} {FL : Z → list Z} {N : list (Z * Z)} {g : ghost}.

Abbreviation HI s := (heap_inv L FL N g (k_mem s) (main_PG (k_pt s))
                        (frame_list (k_pt s)) (k_heap s)).

(** ** Walks *)

Lemma find_page_ok s t a l n :
  pchain (pagerefs (k_heap s)) next_samesize a l → (length l < n)%nat →
  (∀ q, q ∈ l → ∃ pr, pagerefs (k_heap s) !! q = Some pr ∧ PR_BLOCKTYPE pr = t ∧
     nfree pr = Z.of_nat (length (FL q))) →
  (∃ q, q ∈ l ∧ FL q ≠ []) →
  ∃ q, find_page n t a s = Done q s ∧ q ∈ l ∧ FL q ≠ [].
Proof using.
  revert a n. induction l as [|x l IH]; intros a n Hc Hn Hall (q & Hq & Hne).
  { by apply elem_of_nil in Hq. }
  destruct n as [|n]; [simpl in Hn; lia |]. simpl in Hc.
  destruct Hc as (-> & Hx & pr & Hpr & Hc). cbn [find_page].
  apply Z.eqb_neq in Hx. rewrite Hx. unfold get_pr. mrun. rewrite Hpr.
  destruct (Hall x) as (pr' & Hpr' & Ht & Hf); [left |]. rewrite Hpr in Hpr'.
  injection Hpr' as <-. rewrite Ht, Z.eqb_refl, Hf.
  destruct (Z.ltb_spec 0 (Z.of_nat (length (FL x)))) as [Hlt | Hge].
  - exists x. split; [done |]. split; [left |]. intros E. rewrite E in Hlt. simpl in Hlt. lia.
  - destruct (IH (next_samesize pr) n) as (y & Ey & Hy & Hyn); [done | simpl in Hn; lia | | |].
    + intros y Hy. apply Hall. by right.
    + apply elem_of_cons in Hq as [-> | Hq]; [| by exists q].
      destruct (FL x); [done | simpl in Hge; lia].
    + exists y. split; [done |]. split; [by right | done].
Qed.

Lemma find_owner_ok s b a l n q :
  pchain (pagerefs (k_heap s)) next_all a l → (length l < n)%nat →
  (∀ x, x ∈ l → ∃ pr, pagerefs (k_heap s) !! x = Some pr ∧ 0 <= PR_BLOCKTYPE pr < NSIZES ∧
     0 <= PR_PAGEADDR pr ∧ PR_PAGEADDR pr + PAGE_SIZE < 2 ^ 32 ∧
     (PR_PAGEADDR pr <= b < PR_PAGEADDR pr + PAGE_SIZE ↔ x = q)) →
  q ∈ l → find_owner n b a s = Done q s.
Proof using.
  revert a n. induction l as [|x l IH]; intros a n Hc Hn Hall Hq.
  { by apply elem_of_nil in Hq. }
  destruct n as [|n]; [simpl in Hn; lia |]. simpl in Hc.
  destruct Hc as (-> & Hx & pr & Hpr & Hc). cbn [find_owner].
  apply Z.eqb_neq in Hx. rewrite Hx. unfold get_pr. mrun. rewrite Hpr.
  destruct (Hall x) as (pr' & Hpr' & Ht & H0 & H1 & Hiff); [left |]. rewrite Hpr in Hpr'.
  injection Hpr' as <-.
  rewrite (proj2 (Z.leb_le _ _)), (proj2 (Z.ltb_lt _ NSIZES)) by lia. cbn [andb].
  rewrite (u32_small (PR_PAGEADDR pr + PAGE_SIZE)) by zlia.
  destruct (Z.leb_spec (PR_PAGEADDR pr) b), (Z.ltb_spec b (PR_PAGEADDR pr + PAGE_SIZE)); simpl.
  1: { by destruct Hiff as [-> _]. }
  all: apply IH; [done | simpl in Hn; lia | intros y Hy; apply Hall; by right |].
  all: apply elem_of_cons in Hq as [-> | Hq]; [| done]; destruct Hiff as [_ Hiff];
    specialize (Hiff eq_refl); lia.
Qed.

(** ** Taking a block *)

(** The pageref with its free list replaced. *)
Definition set_list (pr : pageref) (fl : list Z) : pageref :=
  mkPageref (next_samesize pr) (next_all pr) (pageaddr_and_blocktype pr)
    (match fl with [] => INVALID_OFFSET | b :: _ => b - PR_PAGEADDR pr end)
    (Z.of_nat (length fl)).

(** Replacing the list twice; putting back the list a page has. *)
Lemma set_list_id pr fl' fl :
  nfree pr = Z.of_nat (length fl) →
  freelist_offset pr = match fl with [] => INVALID_OFFSET | b :: _ => b - PR_PAGEADDR pr end →
  set_list (set_list pr fl') fl = pr.
Proof using.
  intros Hn Hh. unfold set_list at 1.
  change (PR_PAGEADDR (set_list pr fl')) with (PR_PAGEADDR pr). rewrite <- Hn, <- Hh.
  by destruct pr.
Qed.

Definition with_list q pr fl s : kstate FS :=
  upd_heap (λ h, with_kmalloc_spinlock false
                   (with_pagerefs (<[q := set_list pr fl]> (pagerefs h)) h)) s.

(** A word of a heap page can be read and written. *)
Lemma page_word_ok s q pr b :
  HI s → q ∈ L → pagerefs (k_heap s) !! q = Some pr →
  PR_PAGEADDR pr <= b < PR_PAGEADDR pr + PAGE_SIZE →
  kseg0_ok b = true ∧ MIPS_KSEG0 <= PR_PAGEADDR pr ∧ PR_PAGEADDR pr + PAGE_SIZE <= MIPS_KSEG1.
Proof using.
  intros H Hq Hpr Hb. destruct (hi_pageframe H q Hq) as (f & Hf & Ef).
  unfold pageof in Ef. rewrite Hpr in Ef. pose proof (hi_ram _ _ _ _ _ _ _ _ H) as Hr.
  unfold kseg0_ok. rewrite Ef in *. unfold addr in *.
  rewrite andb_true_iff, Z.leb_le, Z.ltb_lt. zlia.
Qed.

Lemma doalloc_ok s q pr b fl :
  HI s → q ∈ L → pagerefs (k_heap s) !! q = Some pr → FL q = b :: fl →
  kmalloc_spinlock (k_heap s) = true →
  doalloc q s = Done b (with_list q pr fl s).
Proof using.
  intros H Hq Hpr Hfl Hl. pose proof (hi_page _ _ _ _ _ _ _ _ H q pr Hq Hpr) as Hok.
  rewrite Hfl in Hok. destruct Hok as [Ht Hn Hh Hc Hb Hd].
  pose proof (blocks_bound _ _ _ Ht Hb Hd) as Hlen. pose proof (blocks_per_page _ Ht) as Hpp.
  pose proof (Forall_inv Hb) as [Rb _].
  destruct (page_word_ok s q pr b H Hq Hpr Rb) as (Hk & Hlo & Hhi).
  unfold doalloc, get_pr, set_pr, unlock_kmalloc. mrun. rewrite Hpr, Hh.
  rewrite (proj2 (Z.ltb_lt (b - PR_PAGEADDR pr) PAGE_SIZE)) by lia.
  replace (PR_PAGEADDR pr + (b - PR_PAGEADDR pr)) with b by lia.
  unfold load. rewrite Hk. simpl in Hc. destruct Hc as (_ & _ & Hc). rewrite Z.add_0_r in Hc.
  rewrite Hn. cbn [length] in *.
  assert (u16 (Z.of_nat (S (length fl)) - 1) = Z.of_nat (length fl)) as Hnf.
  { unfold u16, wrap. rewrite Z.mod_small; lia. }
  rewrite Hnf. destruct fl as [|b' fl]; simpl in Hc.
  - rewrite Hc. simpl. rewrite Hl. done.
  - destruct Hc as (Hb' & Hb'0 & _). rewrite Hb'.
    apply Forall_inv_tail in Hb. pose proof (Forall_inv Hb) as [Rb' _].
    apply Z.eqb_neq in Hb'0. rewrite Hb'0. cbn [negb].
    rewrite (proj2 (Z.ltb_lt 0 _)) by (cbn [length]; lia).
    rewrite (u32_small (b' - PR_PAGEADDR pr)) by zlia.
    rewrite (proj2 (Z.ltb_lt (b' - PR_PAGEADDR pr) PAGE_SIZE)) by lia. cbn [negb].
    assert (u16 (b' - PR_PAGEADDR pr) = b' - PR_PAGEADDR pr) as ->.
    { unfold u16, wrap. rewrite Z.mod_small; zlia. }
    simpl. rewrite Hl. done.
Qed.

Lemma heap_inv_lock L' FL' N' g' m pg fh h b :
  heap_inv L' FL' N' g' m pg fh h → heap_inv L' FL' N' g' m pg fh (with_kmalloc_spinlock b h).
Proof using. intros []. split; done. Qed.

Lemma with_list_inv s q pr b fl :
  HI s → q ∈ L → pagerefs (k_heap s) !! q = Some pr → FL q = b :: fl →
  heap_inv L (fn_upd FL q fl) N (add_B b (PR_BLOCKTYPE pr) g) (k_mem s) (main_PG (k_pt s))
    (frame_list (k_pt s)) (k_heap (with_list q pr fl s)).
Proof using.
  intros H Hq Hpr Hfl. apply heap_inv_lock. by eapply inv_alloc_block.
Qed.

(** A block on a free list is nobody's. *)
Lemma free_not_owned s q b : HI s → q ∈ L → b ∈ FL q → gB g !! b = None.
Proof using.
  intros H Hq Hb. destruct (gB g !! b) as [t|] eqn:E; [| done]. exfalso.
  pose proof (hi_B _ _ _ _ _ _ _ _ H b t E) as Hlive.
  destruct (hi_lookup H q Hq) as (pr & Hpr & Hok & Ep & _).
  destruct (live_owner H t b q Hlive Hq) as (_ & _ & Hn); [| done].
  rewrite Ep. pose proof (pk_blocks _ _ _ Hok) as Hbs. rewrite Forall_forall in Hbs.
  apply (Hbs b Hb).
Qed.

(** A request of [sz] bytes when a page of its size class has a free block:
    [kmalloc] returns, without touching memory, an aligned block of at least
    [sz] bytes that was free and overlaps no block owned before; the heap is
    well-formed with the block among the owned ones. *)
Lemma kmalloc_block_ok fuel s sz i :
  HI s → kmalloc_spinlock (k_heap s) = false → sz < LARGEST_SUBPAGE_SIZE →
  first_index (λ x, sz <=? x) sizes = Some i →
  (∃ q, q ∈ L ∧ btof (pagerefs (k_heap s)) q = Z.of_nat i ∧ FL q ≠ []) →
  ∃ b q pr fl, kmalloc fuel sz s = Done b (with_list q pr fl s) ∧
    q ∈ L ∧ pagerefs (k_heap s) !! q = Some pr ∧ PR_BLOCKTYPE pr = Z.of_nat i ∧
    FL q = b :: fl ∧
    heap_inv L (fn_upd FL q fl) N (add_B b (Z.of_nat i) g) (k_mem s) (main_PG (k_pt s))
      (frame_list (k_pt s)) (k_heap (with_list q pr fl s)).
Proof using.
  intros H Hl Hsz Hi (q0 & Hq0 & Ht0 & Hne0).
  assert (0 <= Z.of_nat i < NSIZES) as Ht.
  { apply first_index_lt in Hi. unfold sizes, NSIZES in *. simpl in Hi. lia. }
  unfold kmalloc, kmalloc_. rewrite (proj2 (Z.leb_gt _ _)) by done.
  unfold subpage_kmalloc, blocktype, lock_kmalloc, get_sizebase. mrun. rewrite Hi, Hl.
  set (s1 := upd_heap (with_kmalloc_spinlock true) s).
  assert (HI s1) as H1 by (by apply heap_inv_lock).
  assert (NoDup (filter (λ q, btof (pagerefs (k_heap s1)) q = Z.of_nat i) L)) as Hd.
  { apply NoDup_filter, (hi_nodup _ _ _ _ _ _ _ _ H). }
  pose proof (hi_same _ _ _ _ _ _ _ _ H1 _ Ht) as Hc.
  pose proof (walk_bound _ _ _ _ Hc Hd) as Hw.
  destruct (find_page_ok s1 (Z.of_nat i) _ _ (pr_fuel s1) Hc) as (q & Ef & Hq & Hne).
  - unfold pr_fuel. lia.
  - intros x [Hx1 Hx2]%list_elem_of_filter. destruct (hi_lookup H1 x Hx2) as (pr & Hpr & Hok & _ & Eb).
    exists pr. rewrite <- Eb. split; [done |]. split; [done |]. apply Hok.
  - exists q0. split; [by apply list_elem_of_filter | done].
  - rewrite Nat2Z.id in *. unfold id in Ef. rewrite Ef. apply list_elem_of_filter in Hq as [Hqt Hq].
    destruct (hi_lookup H1 q Hq) as (pr & Hpr & Hok & _ & Eb).
    pose proof (pchain_elem _ _ _ _ q (hi_all _ _ _ _ _ _ _ _ H1) Hq) as [Hq0' _].
    apply Z.eqb_neq in Hq0'. rewrite Hq0'. cbn [negb].
    destruct (FL q) as [|b fl] eqn:Hfl; [done |]. exists b, q, pr, fl.
    rewrite (doalloc_ok s1 q pr b fl) by done. rewrite <- Hqt, Eb.
    split; [done |]. split; [done |]. split; [done |]. split; [done |]. split; [done |].
    by apply with_list_inv.
Qed.

(** ** Returning a block *)

(** The memory [kfree] leaves: the block filled with 0xdeadbeef, its first word
    the link to the rest of the free list. *)
Definition freed_mem (m : Z → Z) (b t next : Z) : Z → Z :=
  mem_upd (mem_fill m b (size_of t) DEADBEEF) b next.

Lemma freed_mem_outside m b t next x :
  0 <= t < NSIZES → ¬ (b <= x < b + size_of t) → freed_mem m b t next x = m x.
Proof using.
  intros Ht Hx. pose proof (size_bounds t Ht). unfold freed_mem, mem_upd, mem_fill.
  destruct (Z.eqb_spec x b), (Z.leb_spec b x), (Z.ltb_spec x (b + size_of t));
    simpl; done || lia.
Qed.

(** The owner of an allocated block, and the block in its page. *)
Lemma owner_ok s b t :
  HI s → gB g !! b = Some t →
  ∃ q pr, q ∈ L ∧ pagerefs (k_heap s) !! q = Some pr ∧ PR_BLOCKTYPE pr = t ∧
    0 <= t < NSIZES ∧ block_in (PR_PAGEADDR pr) t b ∧ b ∉ FL q.
Proof using.
  intros H Hb. destruct (hi_B _ _ _ _ _ _ _ _ H b t Hb) as (q & Hq & Ht & Hin & Hn).
  destruct (hi_lookup H q Hq) as (pr & Hpr & Hok & Ep & Eb). exists q, pr.
  rewrite Ep in Hin. split; [done |]. split; [done |]. split; [congruence |].
  split; [| done]. rewrite <- Ht. by apply (hi_bt H).
Qed.

Lemma find_owner_block s b q pr :
  HI s → q ∈ L → pagerefs (k_heap s) !! q = Some pr →
  PR_PAGEADDR pr <= b < PR_PAGEADDR pr + PAGE_SIZE →
  find_owner (pr_fuel s) b (allbase (k_heap s)) s = Done q s.
Proof using.
  intros H Hq Hpr Hb. pose proof (hi_all _ _ _ _ _ _ _ _ H) as Hc.
  pose proof (walk_bound _ _ _ _ Hc (hi_nodup _ _ _ _ _ _ _ _ H)) as Hw.
  eapply find_owner_ok; [exact Hc | unfold pr_fuel; lia | | done].
  intros x Hx. destruct (hi_lookup H x Hx) as (px & Hpx & Hok & Ep & _). exists px.
  destruct (page_word_ok s x px (PR_PAGEADDR px) H Hx Hpx) as (_ & Hlo & Hhi); [zlia |].
  split; [done |]. split; [apply Hok |]. split; [zlia |]. split; [zlia |]. split.
  - intros Hbx. destruct (decide (x = q)) as [| Hne]; [done |]. exfalso.
    apply (hi_page_disjoint H x q b b Hx Hq Hne); [by rewrite Ep | | done].
    unfold pageof. by rewrite Hpr.
  - intros ->. rewrite Hpr in Hpx. injection Hpx as <-. done.
Qed.

(** Freeing an owned block of a page that keeps other blocks in use: [kfree]
    returns with the block at the head of the page's free list and no longer
    owned, and no memory outside the block is changed. *)
Lemma kfree_block_ok fuel s b t q pr :
  HI s → kmalloc_spinlock (k_heap s) = false → gB g !! b = Some t →
  q ∈ L → pagerefs (k_heap s) !! q = Some pr →
  PR_PAGEADDR pr <= b < PR_PAGEADDR pr + PAGE_SIZE →
  Z.of_nat (S (length (FL q))) ≠ PAGE_SIZE / size_of t →
  let s' := with_list q pr (b :: FL q)
              (with_k_mem (freed_mem (k_mem s) b t (hd 0 (FL q))) s) in
  kfree fuel b s = Done tt s' ∧
  heap_inv L (fn_upd FL q (b :: FL q)) N (drop_B b g) (k_mem s') (main_PG (k_pt s'))
    (frame_list (k_pt s')) (k_heap s').
Proof using.
  intros H Hl Hb Hq Hpr Hin Hnfull s'.
  destruct (owner_ok s b t H Hb) as (q' & pr' & Hq' & Hpr' & Ht' & Rt & Hblk & Hnf).
  assert (q' = q) as ->.
  { destruct (decide (q' = q)) as [| Hne]; [done |]. exfalso.
    apply (hi_page_disjoint H q' q b b Hq' Hq Hne); unfold pageof;
      [rewrite Hpr'; apply Hblk | by rewrite Hpr | done]. }
  rewrite Hpr in Hpr'. injection Hpr' as <-.
  destruct (page_word_ok s q pr b H Hq Hpr Hin) as (Hk & Hlo & Hhi).
  pose proof (hi_page _ _ _ _ _ _ _ _ H q pr Hq Hpr) as [_ Hn Hh _ Hbs Hd].
  pose proof (size_bounds t Rt) as Hsz. pose proof (blocks_per_page t Rt) as Hpp.
  assert (Z.of_nat (S (length (FL q))) <= PAGE_SIZE / size_of t) as Hle.
  { rewrite Ht' in Hbs. apply (blocks_bound (PR_PAGEADDR pr) t (b :: FL q)); [done | | by constructor].
    by constructor. }
  assert (u16 (nfree pr + 1) = Z.of_nat (S (length (FL q)))) as Hnf1.
  { rewrite Hn. unfold u16, wrap. rewrite Z.mod_small; lia. }
  assert (b ≠ 0) as Hb0 by zlia.
  split.
  - unfold kfree, kfree_, subpage_kfree, lock_kmalloc, unlock_kmalloc, get_pr, set_pr.
    apply Z.eqb_neq in Hb0. rewrite Hb0. mrun. rewrite Hl.
    set (s1 := upd_heap (with_kmalloc_spinlock true) s).
    assert (HI s1) as H1 by (by apply heap_inv_lock).
    rewrite (find_owner_block s1 b q pr H1 Hq Hpr Hin).
    pose proof (pchain_elem _ _ _ _ q (hi_all _ _ _ _ _ _ _ _ H) Hq) as [Hq0 _].
    apply Z.eqb_neq in Hq0. rewrite Hq0.
    change (pagerefs (k_heap s1)) with (pagerefs (k_heap s)). rewrite Hpr, Ht', Hnf1.
    rewrite (proj2 (Z.leb_gt PAGE_SIZE _)) by lia.
    rewrite (proj2 Hblk), Z.eqb_refl. cbn [negb orb].
    unfold fill_deadbeef, fill. rewrite Hk.
    replace (PR_PAGEADDR pr + (b - PR_PAGEADDR pr)) with b by lia.
    destruct (FL q) as [|b' fl] eqn:Efl.
    + rewrite Hh. cbn [Z.eqb INVALID_OFFSET Pos.eqb]. unfold store. rewrite Hk. cbn [length] in *.
      rewrite (proj2 (Z.leb_le (Z.of_nat 1) _)) by lia.
      rewrite (proj2 (Z.eqb_neq (Z.of_nat 1) _)) by done. done.
    + apply Forall_inv in Hbs as [Rb' _]. rewrite Hh.
      rewrite (proj2 (Z.eqb_neq (b' - PR_PAGEADDR pr) INVALID_OFFSET)) by
        (unfold INVALID_OFFSET; zlia).
      replace (PR_PAGEADDR pr + (b' - PR_PAGEADDR pr)) with b' by lia.
      unfold store. rewrite Hk.
      rewrite (proj2 (Z.eqb_neq b b')) by (intros ->; apply Hnf; left). cbn [negb].
      rewrite (proj2 (Z.leb_le (Z.of_nat _) _)) by done.
      rewrite (proj2 (Z.eqb_neq (Z.of_nat _) _)) by done. done.
  - apply heap_inv_lock. eapply inv_free_block; [done | done | done | done | done | | | done].
    + intros x Hx. by apply freed_mem_outside.
    + simpl. unfold freed_mem, mem_upd. by rewrite Z.eqb_refl.
Qed.

(** ** Allocation and release as seen by a client *)

Lemma block_aligned P t b :
  0 <= t < NSIZES → P mod PAGE_SIZE = 0 → block_in P t b → b mod size_of t = 0.
Proof using.
  intros Ht HP [_ Hm]. pose proof (size_bounds t Ht). pose proof (size_page t Ht) as Hs.
  apply Z.mod_divide in HP as [x Hx]; [| done]. apply Z.mod_divide in Hm as [y Hy]; [| lia].
  replace b with ((y + x * (PAGE_SIZE / size_of t)) * size_of t) by lia.
  by rewrite Z.mod_mul by lia.
Qed.

Lemma intervals_apart a n b k :
  0 < n → 0 < k → (∀ x x', a <= x < a + n → b <= x' < b + k → x ≠ x') →
  a + n <= b ∨ b + k <= a.
Proof using.
  intros Hn Hk H. destruct (Z.le_gt_cases (a + n) b) as [| H1]; [by left |].
  destruct (Z.le_gt_cases (b + k) a) as [| H2]; [by right |]. exfalso.
  apply (H (Z.max a b) (Z.max a b)); lia.
Qed.

(** A request of [sz] bytes when a page of its size class has a free block:
    [kmalloc] returns, leaving memory alone, an aligned block of at least [sz]
    bytes that was not owned and overlaps no owned block; the heap is well-formed
    with the block among the owned ones, and the lock is free. *)
Theorem kmalloc_block fuel s sz i :
  HI s → kmalloc_spinlock (k_heap s) = false → sz < LARGEST_SUBPAGE_SIZE →
  first_index (λ x, sz <=? x) sizes = Some i →
  (∃ q, q ∈ L ∧ btof (pagerefs (k_heap s)) q = Z.of_nat i ∧ FL q ≠ []) →
  ∃ b s', kmalloc fuel sz s = Done b s' ∧ k_mem s' = k_mem s ∧
    sz <= size_of (Z.of_nat i) ∧ b mod size_of (Z.of_nat i) = 0 ∧ gB g !! b = None ∧
    (∀ b' t', gB g !! b' = Some t' →
       b + size_of (Z.of_nat i) <= b' ∨ b' + size_of t' <= b) ∧
    kmalloc_spinlock (k_heap s') = false ∧
    ∃ FL', heap_inv L FL' N (add_B b (Z.of_nat i) g) (k_mem s') (main_PG (k_pt s'))
             (frame_list (k_pt s')) (k_heap s').
Proof using.
  intros H Hl Hsz Hi Hex.
  destruct (kmalloc_block_ok fuel s sz i H Hl Hsz Hi Hex)
    as (b & q & pr & fl & E & Hq & Hpr & Ht & Hfl & H').
  exists b, (with_list q pr fl s). split; [done |]. split; [done |].
  assert (gB g !! b = None) as HB by (apply (free_not_owned s q); [done | done | rewrite Hfl; left]).
  assert (gB (add_B b (Z.of_nat i) g) !! b = Some (Z.of_nat i)) as HBb by apply lookup_insert_eq.
  pose proof (hi_B _ _ _ _ _ _ _ _ H' _ _ HBb) as Hlive.
  pose proof (hi_page _ _ _ _ _ _ _ _ H q pr Hq Hpr) as [Rt _ _ _ Hbs _].
  rewrite Ht in Rt, Hbs. rewrite Hfl in Hbs. apply Forall_inv in Hbs.
  destruct (hi_pageframe H q Hq) as (f & Hf & Ef). unfold pageof in Ef. rewrite Hpr in Ef.
  split.
  { apply first_index_lookup in Hi as (x & Hx & Hle). unfold size_of.
    rewrite Nat2Z.id, Hx. simpl. by apply Z.leb_le. }
  split; [eapply block_aligned; [done | | done];
          rewrite Ef; eapply addr_frame; [done | apply H] |].
  split; [done |]. split; [| split; [done | by exists (fn_upd FL q fl)]].
  intros b' t' Hb'. assert (b' ≠ b) as Hne by congruence.
  assert (gB (add_B b (Z.of_nat i) g) !! b' = Some t') as HBb' by (simpl; by rewrite lookup_insert_ne).
  pose proof (hi_B _ _ _ _ _ _ _ _ H' _ _ HBb') as Hlive'.
  destruct (owner_ok s b' t' H Hb') as (_ & _ & _ & _ & _ & Rt' & _).
  pose proof (size_bounds _ Rt). pose proof (size_bounds _ Rt').
  apply intervals_apart; [lia | lia |]. intros x x' Hx Hx'.
  by apply (live_disjoint H' _ _ _ _ _ _ Hlive Hlive').
Qed.

(** Freeing an owned block on a page with other blocks in use: [kfree] returns
    with the block no longer owned, a well-formed heap and a free lock, and no
    memory outside the block changed. *)
Theorem kfree_block fuel s b t :
  HI s → kmalloc_spinlock (k_heap s) = false → gB g !! b = Some t →
  (∀ q, q ∈ L → Z.of_nat (S (length (FL q))) < PAGE_SIZE / size_of (btof (pagerefs (k_heap s)) q)) →
  ∃ s', kfree fuel b s = Done tt s' ∧ kmalloc_spinlock (k_heap s') = false ∧
    (∀ x, ¬ (b <= x < b + size_of t) → k_mem s' x = k_mem s x) ∧
    ∃ FL', heap_inv L FL' N (drop_B b g) (k_mem s') (main_PG (k_pt s'))
             (frame_list (k_pt s')) (k_heap s').
Proof using.
  intros H Hl Hb Hroom.
  destruct (owner_ok s b t H Hb) as (q & pr & Hq & Hpr & Ht & Rt & [Hin _] & _).
  destruct (hi_lookup H q Hq) as (pr' & Hpr' & _ & _ & Eb). rewrite Hpr in Hpr'.
  injection Hpr' as <-. specialize (Hroom q Hq). rewrite Eb, Ht in Hroom.
  destruct (kfree_block_ok fuel s b t q pr H Hl Hb Hq Hpr Hin) as [E H']; [lia |].
  eexists. split; [exact E |]. split; [done |]. split.
  - intros x Hx. by apply freed_mem_outside.
  - by eexists.
Qed.

End ops.

Section roundtrip.
Context {FS : Type} {L : list Z} {FL : Z → list Z} {N : list (Z * Z)} {g : ghost}.
Implicit Types s : kstate FS.
Abbreviation HI s := (heap_inv L FL N g (k_mem s) (main_PG (k_pt s))
                        (frame_list (k_pt s)) (k_heap s)).

End roundtrip.

(** ** A small heap *)

(** One heap page of 16-byte blocks in frame 2, its pageref in the pool page in
    frame 1; the blocks at offsets 32 and 16 are free, the one at 0 is owned. *)
Definition w_q : Z := 0x80001000.
Definition w_pr : pageref := mkPageref 0 0 (MKPAB 0x80002000 0) 32 2.
Definition w_mem (a : Z) : Z := if a =? 0x80002020 then 0x80002010 else 0.
Definition w_pg : list invertedPT := replicate 4 (mkPT false true 0 0 0).
Definition w_root : kheap_root := mkRoot 0x80001000 [1; 0; 0; 0; 0; 0; 0; 0] 1.
Definition w_none : kheap_root := mkRoot 0 (replicate 8 0) 0.
Definition w_heap : heap_state :=
  mkHeap false (w_root :: replicate 15 w_none) (w_q :: replicate 7 0) w_q {[ w_q := w_pr ]}.
Definition w_ghost : ghost := mkGhost ∅ {[ 0x80002000 := 0 ]} ∅ ∅.
Definition w_FL (q : Z) : list Z := [0x80002020; 0x80002010].

Lemma w_lookup q pr : pagerefs w_heap !! q = Some pr → q = w_q ∧ pr = w_pr.
Proof. unfold w_heap. simpl. intros [<- <-]%lookup_singleton_Some. done. Qed.

Lemma w_roots r root : kheaproots w_heap !! r = Some root →
  (r = 0%nat ∧ root = w_root) ∨ root = w_none.
Proof.
  destruct r as [|r]; [intros [= <-]; by left |].
  change (kheaproots w_heap !! S r) with (replicate 15 w_none !! r).
  intros H. right. by apply lookup_replicate in H as [-> _].
Qed.

Lemma w_block b : b = 0x80002020 ∨ b = 0x80002010 ∨ b = 0x80002000 →
  block_in (PR_PAGEADDR w_pr) (PR_BLOCKTYPE w_pr) b.
Proof.
  intros [-> | [-> | ->]]; vm_compute; (split; [split; [discriminate | reflexivity] | reflexivity]).
Qed.

Lemma w_page_ok : page_ok w_mem w_pr (w_FL w_q).
Proof.
  split.
  - vm_compute. split; [discriminate | reflexivity].
  - reflexivity.
  - reflexivity.
  - vm_compute. repeat split; discriminate.
  - constructor; [apply w_block; by left |]. constructor; [apply w_block; by right; left | constructor].
  - apply NoDup_cons. split; [| apply NoDup_singleton]. by intros ?%list_elem_of_singleton.
Qed.

Lemma w_heap_inv : heap_inv [w_q] w_FL [] w_ghost w_mem w_pg 0 w_heap.
Proof.
  assert (∀ f, 0 <= f < 4 → kernel_frame w_pg (addr f)) as Hk.
  { intros f Hf. exists f, (mkPT false true 0 0 0). split; [simpl; lia |].
    split; [done |]. split; [| done]. apply lookup_replicate. split; [done | lia]. }
  split; try done.
  - apply NoDup_singleton.
  - split; [done |]. split; [done |]. by exists w_pr.
  - intros t Ht. rewrite filter_cons. change (btof (pagerefs w_heap) w_q) with 0.
    unfold NSIZES in Ht. destruct (decide (0 = t)) as [<- | Hne].
    + split; [done |]. split; [done |]. by exists w_pr.
    + destruct (Z.to_nat t) as [|n] eqn:E; [lia |].
      change (sizebases w_heap !! S n) with (replicate 7 0 !! n).
      rewrite lookup_replicate_2 by lia. done.
  - intros q pr _ [-> ->]%w_lookup. apply w_page_ok.
  - intros q q' ->%list_elem_of_singleton ->%list_elem_of_singleton _. done.
  - intros q ->%list_elem_of_singleton. by apply (Hk 2).
  - intros r root [[_ ->] | ->]%w_roots; done.
  - intros r root [[_ ->] | ->]%w_roots; [intros _; by apply (Hk 1) | done].
  - intros r r' root root' [[-> ->] | ->]%w_roots [[-> ->] | ->]%w_roots; done.
  - intros r root q [[_ ->] | ->]%w_roots; [| done]. intros _ ->%list_elem_of_singleton. done.
  - intros q ->%list_elem_of_singleton. exists 0%nat, 0, w_root.
    split; [done |]. split; [done |]. split; [done |]. split; [done |]. split; [done |]. set_solver.
  - apply NoDup_nil_2.
  - apply NoDup_nil_2.
  - intros a f Ha. by apply elem_of_nil in Ha.
  - intros b t. simpl. intros [<- <-]%lookup_singleton_Some. exists w_q.
    split; [left |]. split; [reflexivity |]. split; [by apply w_block; right; right |].
    intros [E | [E | E%elem_of_nil]%elem_of_cons]%elem_of_cons; done.
Qed.

Definition w_state : kstate unit :=
  mkK w_mem (mkRam 0 0) (mkPtState true 0 w_pg 0 0) w_heap
    (mkTlb [] 0 0 0 0) [] (mkStats 0 0 0 0 0 0 0 0 0)
    (mkProcState ∅ 0 0 0 ∅ false ∅) tt.

Lemma w_class : ∃ q, q ∈ [w_q] ∧ btof (pagerefs (k_heap w_state)) q = Z.of_nat 0 ∧ w_FL q ≠ [].
Proof. exists w_q. split; [left |]. done. Qed.

Lemma kmalloc_block_witness :
  ∃ b s', kmalloc 1 12 w_state = Done b s' ∧ k_mem s' = w_mem ∧ 12 <= 16 ∧
    b mod 16 = 0 ∧ gB w_ghost !! b = None ∧
    (∀ b' t', gB w_ghost !! b' = Some t' → b + 16 <= b' ∨ b' + size_of t' <= b) ∧
    kmalloc_spinlock (k_heap s') = false ∧
    ∃ FL', heap_inv [w_q] FL' [] (add_B b 0 w_ghost) (k_mem s') (main_PG (k_pt s'))
             (frame_list (k_pt s')) (k_heap s').
Proof.
  apply (kmalloc_block (L := [w_q]) (FL := w_FL) (N := []) (g := w_ghost) 1 w_state 12 0);
    [exact w_heap_inv | reflexivity | reflexivity | reflexivity | exact w_class].
Defined.

Lemma kfree_block_witness :
  ∃ s', kfree 1 0x80002000 w_state = Done tt s' ∧ kmalloc_spinlock (k_heap s') = false ∧
    (∀ x, ¬ (0x80002000 <= x < 0x80002000 + 16) → k_mem s' x = w_mem x) ∧
    ∃ FL', heap_inv [w_q] FL' [] (drop_B 0x80002000 w_ghost) (k_mem s') (main_PG (k_pt s'))
             (frame_list (k_pt s')) (k_heap s').
Proof.
  apply (kfree_block (L := [w_q]) (FL := w_FL) (N := []) (g := w_ghost) 1 w_state 0x80002000 0);
    [exact w_heap_inv | reflexivity | reflexivity |].
  intros q ->%list_elem_of_singleton. vm_compute. reflexivity.
Defined.

End HeapOps.
