(* ===== verification/HeapTrans.v ===== *)
(** * The remaining transitions of the allocation invariant

    One lemma on [heap_inv] for each way the allocators change their state:
    forgetting ownership, writing to owned memory, changing a page-table entry,
    taking a frame off the list, releasing one, pushing a list node, reserving
    and freeing a pageref slot, adding a pool page, adding and removing a heap
    page. *)

From stdpp Require Import base list gmap numbers strings sets.
From Stdlib Require Import ZArith Lia.
From S2P Require Import Prelude Segments Tlb PageTable VmState Ram Kmalloc HeapInv HeapProof HeapOps.
Import Segments Tlb PageTable VmState Kmalloc HeapInv HeapProof HeapOps.

#[local] Open Scope Z_scope.

Module HeapTrans.

(** ** Bits of the slot words *)

Lemma notw_testbit k j :
  0 <= k < 32 → 0 <= j < 32 → Z.testbit (notw 32 (Z.shiftl 1 k)) j = negb (j =? k).
Proof.
  intros Hk Hj. rewrite Z.shiftl_1_l.
  assert (0 < 2 ^ k < 2 ^ 32) by (split; [apply Z.pow_pos_nonneg | apply Z.pow_lt_mono_r]; lia).
  replace (notw 32 (2 ^ k)) with (Z.lnot (2 ^ k) mod 2 ^ 32).
  - rewrite Z.mod_pow2_bits_low, Z.lnot_spec, Z.pow2_bits_eqb by lia. by rewrite Z.eqb_sym.
  - unfold notw, Z.lnot. symmetry. apply (Z.mod_unique _ _ (-1)); lia.
Qed.

(** A root with the word that holds slot [32 w + j] replaced. *)
Definition set_inuse (root : kheap_root) (w : nat) (x n : Z) : kheap_root :=
  with_numinuse n (with_pagerefs_inuse (<[w := x]> (pagerefs_inuse root)) root).

Section slots.
Context (root : kheap_root) (w : nat) (j n : Z).
Context (Hlen : length (pagerefs_inuse root) = 8%nat) (Hw : (w < 8)%nat) (Hj : 0 <= j < 32).
Abbreviation word := (default 0 (pagerefs_inuse root !! w)).

Lemma slot_set_spec x v :
  0 <= x < NPAGEREFS_PER_PAGE →
  slot_used (set_inuse root w v n) x ↔
  if x / 32 =? Z.of_nat w then Z.testbit v (x mod 32) = true else slot_used root x.
Proof using Hlen Hw.
  intros Hx. unfold slot_used, set_inuse. simpl.
  destruct (Z.eqb_spec (x / 32) (Z.of_nat w)) as [-> | Hne].
  - by rewrite Nat2Z.id, list_lookup_insert_eq by lia.
  - assert (0 <= x / 32) by (apply Z.div_pos; lia). by rewrite list_lookup_insert_ne by lia.
Qed.

Lemma slot_in_word x : x / 32 = Z.of_nat w → slot_used root x ↔ Z.testbit word (x mod 32) = true.
Proof using. intros E. unfold slot_used. by rewrite E, Nat2Z.id. Qed.

Lemma slot_mark x :
  0 <= x < NPAGEREFS_PER_PAGE →
  slot_used (set_inuse root w (Z.lor word (Z.shiftl 1 j)) n) x ↔
  slot_used root x ∨ x = Z.of_nat w * 32 + j.
Proof using Hlen Hw Hj.
  intros Hx. rewrite slot_set_spec by done. pose proof (Z.div_mod x 32 ltac:(lia)) as E.
  pose proof (Z.mod_pos_bound x 32 ltac:(lia)).
  destruct (Z.eqb_spec (x / 32) (Z.of_nat w)) as [Ew | Hne].
  - rewrite slot_in_word by done. rewrite Z.lor_spec, orb_true_iff, Z.shiftl_1_l.
    rewrite Z.pow2_bits_eqb, Z.eqb_eq by lia. rewrite Ew in E. split; (intros [? | ?]; [by left | right; lia]).
  - split; [by left |]. intros [? | ->]; [done |]. exfalso. apply Hne.
    rewrite Z.div_add_l, Z.div_small by lia. lia.
Qed.

Lemma slot_clear x :
  0 <= x < NPAGEREFS_PER_PAGE →
  slot_used (set_inuse root w (Z.land word (notw 32 (Z.shiftl 1 j))) n) x ↔
  slot_used root x ∧ x ≠ Z.of_nat w * 32 + j.
Proof using Hlen Hw Hj.
  intros Hx. rewrite slot_set_spec by done. pose proof (Z.div_mod x 32 ltac:(lia)) as E.
  pose proof (Z.mod_pos_bound x 32 ltac:(lia)).
  destruct (Z.eqb_spec (x / 32) (Z.of_nat w)) as [Ew | Hne].
  - rewrite slot_in_word by done. rewrite Z.land_spec, andb_true_iff, notw_testbit by lia.
    rewrite negb_true_iff, Z.eqb_neq, Ew in *. split; (intros [? ?]; split; [done | lia]).
  - split; [| naive_solver]. intros ?. split; [done |]. intros ->. apply Hne.
    rewrite Z.div_add_l, Z.div_small by lia. lia.
Qed.
End slots.

Section trans.
Context {L : list Z} {FL : Z → list Z} {N : list (Z * Z)} {g : ghost}.
Context {m : Z → Z} {pg : list invertedPT} {fh : Z} {h : heap_state}.
Context (H : heap_inv L FL N g m pg fh h).

(** ** Ownership *)

(** What is owned may be forgotten. *)
Lemma inv_weaken g' :
  gX g' ⊆ gX g → gB g' ⊆ gB g → gR g' ⊆ gR g → gW g' ⊆ gW g →
  heap_inv L FL N g' m pg fh h.
Proof using H.
  intros HX HB HR HW. destruct H. split; try done.
  - intros q Hq. destruct (hi_slot0 q Hq) as (r & i & root & ? & ? & ? & ? & ? & Hn).
    exists r, i, root. set_solver.
  - intros r i Hr. apply hi_reserved0. set_solver.
  - intros a f Ha. destruct (hi_node0 a f Ha) as (? & ? & ? & Hb & Hw). split_and!; try done.
    + destruct (gB g' !! a) eqn:E; [| done].
      rewrite (lookup_weaken _ _ _ _ E HB) in Hb. done.
    + set_solver.
  - intros f e Hf. apply hi_X0. by eapply lookup_weaken.
  - intros b t Hb. apply hi_B0. by eapply lookup_weaken.
  - intros f Hf. apply hi_W0. set_solver.
Qed.

(** ** Memory *)

Lemma inv_mem m' :
  (∀ q b, q ∈ L → b ∈ FL q → m' b = m b) →
  (∀ a f, (a, f) ∈ N → m' a = m a ∧ m' (a + 4) = m (a + 4)) →
  heap_inv L FL N g m' pg fh h.
Proof using H.
  intros Hfree Hnode. destruct H. split; try done.
  - intros q pr Hq Hpr. eapply page_ok_ext; [| by apply hi_page0]. intros b Hb. by apply (Hfree q).
  - eapply mchain_ext; [| done]. intros a Ha.
    apply list_elem_of_fmap in Ha as ([a' f] & -> & Ha). by apply (Hnode a' f).
  - intros a f Ha. destruct (hi_node0 a f Ha) as (E & ?). by rewrite (proj1 (Hnode a f Ha)).
Qed.

(** Writing into an owned block. *)
Lemma inv_write_block m' b t :
  gB g !! b = Some t → (∀ x, ¬ (b <= x < b + size_of t) → m' x = m x) →
  heap_inv L FL N g m' pg fh h.
Proof using H.
  intros Hb Hm. pose proof (hi_B _ _ _ _ _ _ _ _ H b t Hb) as Hl. apply inv_mem.
  - intros q b' Hq Hb'. apply Hm. intros Hr.
    by apply (free_live_disjoint H t b b' q b' Hl Hr Hq Hb').
  - intros a f Ha. destruct (hi_node _ _ _ _ _ _ _ _ H a f Ha) as (_ & _ & Hla & HB & _).
    assert (a ≠ b) as Hab by congruence.
    assert (∀ o, 0 <= o < 16 → m' (a + o) = m (a + o)) as Hw.
    { intros o Ho. apply Hm. intros Hr.
      apply (live_disjoint H 0 t a b (a + o) (a + o) Hla Hl Hab); [| done | done].
      change (size_of 0) with 16. lia. }
    split; [rewrite <- (Z.add_0_r a) |]; apply Hw; lia.
Qed.

(** Writing into the page of a frame that is no heap page. *)
Lemma inv_write_page m' f :
  (∀ q, q ∈ L → pageof (pagerefs h) q ≠ addr f) →
  (∀ x, ¬ (addr f <= x < addr f + PAGE_SIZE) → m' x = m x) →
  heap_inv L FL N g m' pg fh h.
Proof using H.
  intros Hp Hm.
  assert (∀ q x, q ∈ L → pageof (pagerefs h) q <= x < pageof (pagerefs h) q + PAGE_SIZE →
    m' x = m x) as Hx.
  { intros q x Hq Hx. apply Hm. intros Hr. destruct (hi_pageframe H q Hq) as (f' & _ & E).
    specialize (Hp q Hq). rewrite E in *.
    apply (addr_disjoint f f' x x); [congruence | done | done | done]. }
  apply inv_mem.
  - intros q b Hq Hb. apply (Hx q); [done |].
    destruct (hi_lookup H q Hq) as (pr & _ & Hok & -> & _).
    pose proof (pk_blocks _ _ _ Hok) as Hbs. rewrite Forall_forall in Hbs. by apply Hbs.
  - intros a f' Ha. destruct (hi_node _ _ _ _ _ _ _ _ H a f' Ha) as (_ & _ & Hl & _).
    destruct Hl as (q & Hq & Ht & Hb & _).
    pose proof (block_end _ _ _ ltac:(done) Hb) as He. change (size_of 0) with 16 in He.
    destruct Hb as [Hb _]. split; apply (Hx q); done || lia.
Qed.

(** ** Page-table entries *)

Lemma kernel_frame_insert f e P :
  0 <= f → kernel_frame pg P → P ≠ addr f → kernel_frame (<[Z.to_nat f := e]> pg) P.
Proof using.
  intros Hf (f' & e' & Hf' & -> & Hl & Hv) Hne. exists f', e'. rewrite length_insert.
  split; [done |]. split; [done |]. split; [| done].
  rewrite list_lookup_insert_ne; [done |]. intros E. apply Hne. f_equal. lia.
Qed.

Lemma frame_insert_ne f f' e e' :
  0 <= f → 0 <= f' → f ≠ f' → pg !! Z.to_nat f' = Some e' →
  <[Z.to_nat f := e]> pg !! Z.to_nat f' = Some e'.
Proof using. intros. rewrite list_lookup_insert_ne; [done | lia]. Qed.

(** A change of the entry of a frame that belongs to neither the heap nor the
    pageref pool; the conditions say what becomes of the other frames. *)
Lemma inv_entry f e g' N' fh' :
  0 <= f →
  (∀ q, q ∈ L → pageof (pagerefs h) q ≠ addr f) →
  (∀ r root, kheaproots h !! r = Some root → root_page root ≠ addr f) →
  let pg' := <[Z.to_nat f := e]> pg in
  mchain m 4 fh' (map fst N') → NoDup (map fst N') → NoDup (map snd N') →
  (∀ a x, (a, x) ∈ N' → m a = x ∧ frame_invalid pg' x ∧ live (pagerefs h) L FL 0 a ∧
     gB g' !! a = None ∧ x ∉ gW g') →
  (∀ x y, gX g' !! x = Some y → frame_valid pg' x y ∧
     (∀ q, q ∈ L → pageof (pagerefs h) q ≠ addr x) ∧
     (∀ r root, kheaproots h !! r = Some root → root_page root ≠ addr x)) →
  (∀ b t, gB g' !! b = Some t → live (pagerefs h) L FL t b) →
  gR g' = gR g → (∀ x, x ∈ gW g' → frame_invalid pg' x) →
  heap_inv L FL N' g' m pg' fh' h.
Proof using H.
  intros Hf Hp Hr pg' Hc Hd1 Hd2 HN HX HB ER HW. destruct H. split; try done.
  - intros q Hq. apply kernel_frame_insert; [done | by apply hi_kernel0 | by apply Hp].
  - intros r root Hroot H0. apply kernel_frame_insert; [done | by eapply hi_rootpage0 | by eapply Hr].
  - intros q Hq. rewrite ER. by apply hi_slot0.
  - intros r i. rewrite ER. apply hi_reserved0.
  - unfold pg'. by rewrite length_insert.
Qed.

Lemma frame_invalid_ne f e x :
  0 <= f → f ≠ x → frame_invalid pg x → frame_invalid (<[Z.to_nat f := e]> pg) x.
Proof using.
  intros Hf Hne (Hx & y & Hy & Hv). split; [by rewrite length_insert |].
  exists y. split; [| done]. apply frame_insert_ne; lia || done.
Qed.

Lemma frame_valid_ne f e x y :
  0 <= f → f ≠ x → frame_valid pg x y → frame_valid (<[Z.to_nat f := e]> pg) x y.
Proof using.
  intros Hf Hne (Hx & Hy & Hv). split; [by rewrite length_insert |].
  split; [| done]. apply frame_insert_ne; lia || done.
Qed.

(** Another entry for an owned frame. *)
Lemma inv_set_entry f e e' :
  gX g !! f = Some e → Valid e' = true →
  heap_inv L FL N (add_X f e' g) m (<[Z.to_nat f := e']> pg) fh h.
Proof using H.
  intros Hf Hv'. destruct (hi_X _ _ _ _ _ _ _ _ H f e Hf) as ((Rf & Hl & Hv) & Hp & Hr).
  apply (inv_entry f e');
    [lia | done | done | apply H | apply H | apply H | | | apply H | done |].
  - intros a x Ha. destruct (hi_node _ _ _ _ _ _ _ _ H a x Ha) as (? & Hi & ? & ? & ?).
    split_and!; try done. apply frame_invalid_ne; [lia | | done]. intros ->.
    destruct Hi as (_ & y & Hy & Hvy). congruence.
  - intros x y. simpl. rewrite lookup_insert. case_decide as E.
    + subst x. intros [= <-]. split; [| done]. split; [by rewrite length_insert |].
      split; [| done]. apply list_lookup_insert_eq. by apply lookup_lt_Some in Hl.
    + intros Hx. destruct (hi_X _ _ _ _ _ _ _ _ H x y Hx) as (Hval & ?). split; [| done].
      apply frame_valid_ne; [lia | done | done].
  - intros x Hx. apply frame_invalid_ne; [lia | | by apply H]. intros ->.
    destruct (hi_W _ _ _ _ _ _ _ _ H x Hx) as (_ & y & Hy & Hvy). congruence.
Qed.

(** Marking an owned frame free: it is then in nobody's hands. *)
Lemma inv_release f e e' :
  gX g !! f = Some e → Valid e' = false →
  heap_inv L FL N (add_W f (drop_X f g)) m (<[Z.to_nat f := e']> pg) fh h.
Proof using H.
  intros Hf Hv'. destruct (hi_X _ _ _ _ _ _ _ _ H f e Hf) as ((Rf & Hl & Hv) & Hp & Hr).
  assert (∀ x, frame_invalid pg x → x ≠ f) as Hne.
  { intros x (_ & y & Hy & Hvy) ->. congruence. }
  apply (inv_entry f e');
    [lia | done | done | apply H | apply H | apply H | | | apply H | done |].
  - intros a x Ha. destruct (hi_node _ _ _ _ _ _ _ _ H a x Ha) as (? & Hi & ? & ? & ?).
    pose proof (Hne x Hi). split_and!; try done; [| simpl; set_solver].
    apply frame_invalid_ne; [lia | done | done].
  - intros x y. simpl. rewrite lookup_delete_Some. intros [Hxf Hx].
    destruct (hi_X _ _ _ _ _ _ _ _ H x y Hx) as (Hval & ?). split; [| done].
    apply frame_valid_ne; [lia | done | done].
  - intros x [->%elem_of_singleton | Hx]%elem_of_union.
    + split; [by rewrite length_insert |]. exists e'. split; [| done].
      apply list_lookup_insert_eq. by apply lookup_lt_Some in Hl.
    + pose proof (hi_W _ _ _ _ _ _ _ _ H x Hx) as Hi. apply frame_invalid_ne; [lia | | done].
      intros ->. by eapply Hne.
Qed.

(** ** The frame list *)

Lemma live_pos t b : live (pagerefs h) L FL t b → MIPS_KSEG0 <= b.
Proof using H.
  intros (q & Hq & _ & [Hb _] & _). destruct (hi_pageframe H q Hq) as (f & Hf & E).
  rewrite E in Hb. unfold addr in Hb. zlia.
Qed.

(** Taking the first frame off the list: the caller gets the frame and the
    list node that held it. *)
Lemma inv_pop a f N' e :
  N = (a, f) :: N' → Valid e = true →
  heap_inv L FL N' (add_B a 0 (add_X f e g)) m (<[Z.to_nat f := e]> pg) (m (a + 4)) h.
Proof using H.
  intros EN Hv. pose proof H as [_ _ _ _ _ _ Hker _ _ Hrp _ _ _ _ Hc Hd1 Hd2 Hnode HX HB HW _].
  rewrite EN in Hc, Hd1, Hd2. simpl in Hc, Hd1, Hd2.
  apply NoDup_cons in Hd1 as [Hn1 Hd1]. apply NoDup_cons in Hd2 as [Hn2 Hd2].
  destruct (Hnode a f) as (_ & Hinv & Hlive & _ & HnW); [rewrite EN; left |].
  pose proof Hinv as ([Rf Rf'] & y & Hy & Hvy).
  assert (∀ P, kernel_frame pg P → P ≠ addr f) as Hkf.
  { intros P (f' & e' & Hf' & -> & Hl & Hv' & _) E%addr_inj. subst f'. congruence. }
  apply (inv_entry f e);
    [done | intros q Hq; by apply Hkf, Hker | | apply Hc | done | done | | | | done |].
  - intros r root Hr. destruct (decide (root_page root = 0)) as [-> |]; [unfold addr; zlia |].
    apply Hkf. by eapply Hrp.
  - intros a' x Ha'. destruct (Hnode a' x) as (? & Hi & ? & Hb & ?); [rewrite EN; by right |].
    assert (a' ≠ a) by (intros ->; apply Hn1, list_elem_of_fmap; by exists (a, x)).
    assert (x ≠ f) by (intros ->; apply Hn2, list_elem_of_fmap; by exists (a', f)).
    split_and!; try done; [by apply frame_invalid_ne |]. simpl. by rewrite lookup_insert_ne.
  - intros x z. simpl. rewrite lookup_insert. case_decide as E.
    + subst x. intros [= <-]. split; [| split].
      * split; [by rewrite length_insert |]. split; [| done]. apply list_lookup_insert_eq.
        by apply lookup_lt_Some in Hy.
      * intros q Hq. by apply Hkf, Hker.
      * intros r root Hr. destruct (decide (root_page root = 0)) as [-> |]; [unfold addr; zlia |].
        apply Hkf. by eapply Hrp.
    + intros Hx. destruct (HX x z Hx) as (Hval & ?). split; [| done]. by apply frame_valid_ne.
  - intros b t. simpl. rewrite lookup_insert. case_decide as E; [| apply HB].
    subst b. intros [= <-]. done.
  - intros x Hx. apply frame_invalid_ne; [done | | by apply HW]. intros ->. done.
Qed.

(** Putting a frame on the list, in a node its caller owns. *)
Lemma inv_push b f :
  gB g !! b = Some 0 → f ∈ gW g → m b = f → m (b + 4) = fh →
  heap_inv L FL ((b, f) :: N) (drop_B b (drop_W f g)) m pg b h.
Proof using H.
  intros Hb Hf Hmb Hmn. pose proof H as [].
  pose proof (hi_B0 b 0 Hb) as Hl. pose proof (live_pos 0 b Hl) as Hpos.
  split; try done.
  - simpl. split; [done |]. split; [zlia |]. by rewrite Hmn.
  - simpl. apply NoDup_cons. split; [| done]. intros ([a x] & -> & Ha)%list_elem_of_fmap.
    destruct (hi_node0 a x Ha) as (_ & _ & _ & HB & _). simpl in Hb. congruence.
  - simpl. apply NoDup_cons. split; [| done]. intros ([a x] & -> & Ha)%list_elem_of_fmap.
    destruct (hi_node0 a x Ha) as (_ & _ & _ & _ & HW). done.
  - intros a x [[= -> ->] | Ha]%elem_of_cons.
    + split_and!; [done | by apply hi_W0 | done | apply lookup_delete_eq | simpl; set_solver].
    + destruct (hi_node0 a x Ha) as (? & ? & ? & HB & HW). split_and!; try done; [| simpl; set_solver].
      simpl. rewrite lookup_delete_None. by right.
  - intros b' t. simpl. rewrite lookup_delete_Some. intros [_ Hb']. by apply hi_B0.
  - intros x. simpl. intros [Hx _]%elem_of_difference. by apply hi_W0.
Qed.

(** ** The pageref pool *)

(** The frame number of a pool page, and the root a slot address belongs to. *)
Lemma root_frame r root :
  kheaproots h !! r = Some root → root_page root ≠ 0 →
  ∃ f, 0 <= f < Z.of_nat (length pg) ∧ root_page root = addr f.
Proof using H.
  intros Hr H0. destruct (hi_rootpage _ _ _ _ _ _ _ _ H r root Hr H0) as (f & e & Hf & E & _). eauto.
Qed.

Lemma slot_root r r' root root' i i' :
  kheaproots h !! r = Some root → kheaproots h !! r' = Some root' →
  root_page root ≠ 0 → root_page root' ≠ 0 →
  0 <= i < NPAGEREFS_PER_PAGE → 0 <= i' < NPAGEREFS_PER_PAGE →
  root_page root + SIZEOF_PAGEREF * i = root_page root' + SIZEOF_PAGEREF * i' → r = r' ∧ i = i'.
Proof using H.
  intros Hr Hr' H0 H0' Hi Hi' E.
  destruct (root_frame r root Hr H0) as (f & _ & Ef), (root_frame r' root' Hr' H0') as (f' & _ & Ef').
  unfold NPAGEREFS_PER_PAGE, SIZEOF_PAGEREF in *. change (PAGE_SIZE / 16) with 256 in *.
  rewrite Ef, Ef' in E. unfold addr in E.
  assert (f = f') as -> by zlia. split; [| lia].
  eapply (hi_rootinj _ _ _ _ _ _ _ _ H); [done | done | done | congruence].
Qed.

(** A change of the slot words of one root. *)
Lemma inv_slots r root root' g' :
  kheaproots h !! r = Some root → root_page root' = root_page root →
  length (pagerefs_inuse root') = 8%nat →
  gX g' = gX g → gB g' = gB g → gW g' = gW g →
  (∀ i, root_page root ≠ 0 → 0 <= i < NPAGEREFS_PER_PAGE →
     root_page root + SIZEOF_PAGEREF * i ∈ L → slot_used root i →
     (Z.of_nat r, i) ∉ gR g → slot_used root' i ∧ (Z.of_nat r, i) ∉ gR g') →
  (∀ r' i, r' ≠ Z.of_nat r → (r', i) ∈ gR g' ↔ (r', i) ∈ gR g) →
  (∀ i, (Z.of_nat r, i) ∈ gR g' → 0 <= i < NPAGEREFS_PER_PAGE ∧ slot_used root' i) →
  heap_inv L FL N g' m pg fh (with_kheaproots (<[r := root']> (kheaproots h)) h).
Proof using H.
  intros Hr Hpage Hlen EX EB EW Hkeep Hother Hres. pose proof H as [].
  assert (r < length (kheaproots h))%nat as Hlt by (by apply lookup_lt_Some in Hr).
  assert (∀ r0 root0, <[r := root']> (kheaproots h) !! r0 = Some root0 →
    ∃ root1, kheaproots h !! r0 = Some root1 ∧ root_page root0 = root_page root1) as Hold.
  { intros r0 root0 [[<- ->] | [_ H0]]%lookup_insert_cases; [by exists root | by exists root0]. }
  split; simpl; try done.
  - by rewrite length_insert.
  - intros r0 root0 [[<- ->] | [_ H0]]%lookup_insert_cases; [done | by eapply hi_words0].
  - intros r0 root0 (root1 & H1 & ->)%Hold. by eapply hi_rootpage0.
  - intros r0 r1 root0 root1 (x & Hx & ->)%Hold (y & Hy & ->)%Hold. by eapply hi_rootinj0.
  - intros r0 root0 q (x & Hx & ->)%Hold. by eapply hi_rootheap0.
  - intros q Hq. destruct (hi_slot0 q Hq) as (r0 & i & root0 & H0 & Hn0 & Hi & E & Hu & HnR).
    destruct (decide (r0 = r)) as [-> | Hne].
    + rewrite Hr in H0. injection H0 as <-. rewrite E in Hq.
      destruct (Hkeep i Hn0 Hi Hq Hu HnR) as [Hu' HnR'].
      exists r, i, root'. rewrite Hpage. split; [by apply list_lookup_insert_eq |]. done.
    + exists r0, i, root0. rewrite list_lookup_insert_ne by done.
      do 5 (split; [done |]). intros Hin. apply HnR. apply Hother; [lia | done].
  - intros r0 i Hin. destruct (decide (r0 = Z.of_nat r)) as [-> | Hne].
    + destruct (Hres i Hin) as [Hi Hu]. split; [done |]. split; [lia |]. exists root'.
      rewrite Nat2Z.id. split; [by apply list_lookup_insert_eq | done].
    + apply Hother in Hin; [| done]. destruct (hi_reserved0 r0 i Hin) as (Hi & H0 & x & Hx & Hu).
      split; [done |]. split; [done |]. exists x. rewrite list_lookup_insert_ne by lia. done.
  - intros a f Ha. rewrite EB, EW. by apply hi_node0.
  - intros f e. rewrite EX. intros Hf. destruct (hi_X0 f e Hf) as (? & ? & Hroots).
    split_and!; try done. intros r0 root0 (x & Hx & ->)%Hold. by eapply Hroots.
  - intros b t. rewrite EB. apply hi_B0.
  - intros f. rewrite EW. apply hi_W0.
Qed.

Lemma inv_reserve r root w j n :
  kheaproots h !! r = Some root → (w < 8)%nat → 0 <= j < 32 →
  ¬ slot_used root (Z.of_nat w * 32 + j) →
  heap_inv L FL N (add_R (Z.of_nat r, Z.of_nat w * 32 + j) g) m pg fh
    (with_kheaproots (<[r := set_inuse root w
       (Z.lor (default 0 (pagerefs_inuse root !! w)) (Z.shiftl 1 j)) n]> (kheaproots h)) h).
Proof using H.
  intros Hr Hw Hj Hfree. pose proof (hi_words _ _ _ _ _ _ _ _ H r root Hr) as Hlen.
  assert (0 <= Z.of_nat w * 32 + j < NPAGEREFS_PER_PAGE) as Hx.
  { change NPAGEREFS_PER_PAGE with 256. lia. }
  eapply inv_slots; try done.
  - simpl. by rewrite length_insert.
  - intros i _ Hi _ Hu HnR. split; [apply slot_mark; [done | done | done | done | by left] |].
    simpl. intros [[= ->]%elem_of_singleton | ?]%elem_of_union; done.
  - intros r' i Hne. simpl. set_solver.
  - intros i [[= ->]%elem_of_singleton | Hin]%elem_of_union.
    + split; [done |]. apply slot_mark; [done.. | by right].
    + destruct (hi_reserved _ _ _ _ _ _ _ _ H _ _ Hin) as (Hi & _ & x & Hx' & Hu).
      rewrite Nat2Z.id, Hr in Hx'. injection Hx' as <-. split; [done |].
      apply slot_mark; [done.. | by left].
Qed.

Lemma inv_free_slot r root w j n :
  kheaproots h !! r = Some root → (w < 8)%nat → 0 <= j < 32 →
  (Z.of_nat r, Z.of_nat w * 32 + j) ∉ gR g →
  root_page root + SIZEOF_PAGEREF * (Z.of_nat w * 32 + j) ∉ L →
  heap_inv L FL N g m pg fh
    (with_kheaproots (<[r := set_inuse root w
       (Z.land (default 0 (pagerefs_inuse root !! w)) (notw 32 (Z.shiftl 1 j))) n]>
       (kheaproots h)) h).
Proof using H.
  intros Hr Hw Hj HnR HnL. pose proof (hi_words _ _ _ _ _ _ _ _ H r root Hr) as Hlen.
  eapply inv_slots; try done.
  - simpl. by rewrite length_insert.
  - intros i _ Hi HL Hu HnR'. split; [| done]. apply slot_clear; [done.. |].
    split; [done |]. intros ->. done.
  - intros i Hin. destruct (hi_reserved _ _ _ _ _ _ _ _ H _ _ Hin) as (Hi & _ & x & Hx' & Hu).
    rewrite Nat2Z.id, Hr in Hx'. injection Hx' as <-. split; [done |].
    apply slot_clear; [done.. |]. split; [done |]. intros ->. done.
Qed.

Definition kernel_owned (e : invertedPT) : Prop :=
  Valid e = true ∧ pid e = 0 ∧ page_number e = 0.

(** An owned frame becomes a page of the pageref pool. *)
Lemma inv_pool_page r root f e :
  kheaproots h !! r = Some root → root_page root = 0 →
  gX g !! f = Some e → kernel_owned e →
  heap_inv L FL N (drop_X f g) m pg fh
    (with_kheaproots (<[r := with_root_page (addr f) root]> (kheaproots h)) h).
Proof using H.
  intros Hr H0 Hf (Hv & Hpid & Hpn). pose proof H as [].
  destruct (hi_X0 f e Hf) as ((Rf & Hl & _) & Hnp & Hnr).
  assert (r < length (kheaproots h))%nat as Hlt by (by apply lookup_lt_Some in Hr).
  split; simpl; try done.
  - by rewrite length_insert.
  - intros r0 root0 [[<- ->] | [_ Hx]]%lookup_insert_cases; simpl; [| by eapply hi_words0].
    by eapply hi_words0.
  - intros r0 root0 [[<- ->] | [_ Hx]]%lookup_insert_cases; simpl; [| by eapply hi_rootpage0].
    intros _. by exists f, e.
  - intros r0 r1 root0 root1 [[<- ->] | [Hne0 Hx]]%lookup_insert_cases
      [[<- ->] | [Hne1 Hy]]%lookup_insert_cases; simpl; try done.
    + intros _ E. exfalso. by eapply (Hnr r1).
    + intros _ E. exfalso. by eapply (Hnr r0).
    + by eapply hi_rootinj0.
  - intros r0 root0 q [[<- ->] | [_ Hx]]%lookup_insert_cases; simpl; [| by eapply hi_rootheap0].
    intros _ Hq. by apply Hnp.
  - intros q Hq. destruct (hi_slot0 q Hq) as (r0 & i & root0 & Hx & Hn0 & Hrest).
    exists r0, i, root0. rewrite list_lookup_insert_ne; [done |]. intros <-.
    rewrite Hr in Hx. injection Hx as <-. done.
  - intros r0 i Hin. destruct (hi_reserved0 r0 i Hin) as (Hi & Hr0 & x & Hx & Hu).
    split; [done |]. split; [done |].
    destruct (decide (Z.to_nat r0 = r)) as [E | Hne].
    + subst r. rewrite Hr in Hx. injection Hx as <-.
      exists (with_root_page (addr f) root). split; [by apply list_lookup_insert_eq | done].
    + exists x. by rewrite list_lookup_insert_ne.
  - intros f' e'. simpl. rewrite lookup_delete_Some. intros [Hne Hf'].
    destruct (hi_X0 f' e' Hf') as (? & ? & Hroots). split_and!; try done.
    intros r0 root0 [[<- ->] | [_ Hx]]%lookup_insert_cases; simpl; [| by eapply Hroots].
    intros E%addr_inj. done.
Qed.
End trans.

(** ** Heap pages *)

(** A free list as long as the page has blocks holds all of them. *)
Lemma full_list P t l b :
  0 <= t < NSIZES → Forall (block_in P t) l → NoDup l →
  Z.of_nat (length l) = PAGE_SIZE / size_of t → block_in P t b → b ∈ l.
Proof.
  intros Ht Hl Hd Hn Hb. destruct (decide (b ∈ l)) as [| Hnot]; [done |]. exfalso.
  assert (Z.of_nat (length (b :: l)) <= PAGE_SIZE / size_of t) as Hle.
  { by apply (blocks_bound P t); [| constructor | constructor]. }
  simpl in Hle. lia.
Qed.

(** Structures that differ in their links only. *)
Definition same_data (pr pr' : pageref) : Prop :=
  pageaddr_and_blocktype pr' = pageaddr_and_blocktype pr ∧
  freelist_offset pr' = freelist_offset pr ∧ nfree pr' = nfree pr.

Definition relinked (prs prs' : gmap Z pageref) : Prop :=
  ∀ x pr, prs !! x = Some pr → ∃ pr', prs' !! x = Some pr' ∧ same_data pr pr'.

Lemma relinked_refl prs : relinked prs prs.
Proof. intros x pr Hx. by exists pr. Qed.

Lemma relinked_trans p1 p2 p3 : relinked p1 p2 → relinked p2 p3 → relinked p1 p3.
Proof.
  intros H1 H2 x pr Hx. destruct (H1 x pr Hx) as (pr' & Hx' & ? & ? & ?).
  destruct (H2 x pr' Hx') as (pr'' & Hx'' & ? & ? & ?). exists pr''.
  split; [done |]. split_and!; congruence.
Qed.

Section relinked.
Context (prs prs' : gmap Z pageref) (Hrel : relinked prs prs').

Lemma relinked_page x : is_Some (prs !! x) → pageof prs' x = pageof prs x ∧ btof prs' x = btof prs x.
Proof using Hrel.
  intros [pr Hx]. destruct (Hrel x pr Hx) as (pr' & Hx' & E & _ & _).
  unfold pageof, btof, PR_PAGEADDR, PR_BLOCKTYPE. rewrite Hx, Hx', E. done.
Qed.

Lemma relinked_live L FL t b :
  (∀ x, x ∈ L → is_Some (prs !! x)) → live prs L FL t b → live prs' L FL t b.
Proof using Hrel.
  intros Hdom (q & Hq & Ht & Hb & Hn). exists q.
  destruct (relinked_page q (Hdom q Hq)) as [-> ->]. done.
Qed.

Lemma relinked_page_ok m x pr pr' fl :
  prs !! x = Some pr → prs' !! x = Some pr' → page_ok m pr fl → page_ok m pr' fl.
Proof using Hrel.
  intros Hx Hx' []. destruct (Hrel x pr Hx) as (pr0 & Hx0 & E1 & E2 & E3).
  rewrite Hx' in Hx0. injection Hx0 as <-.
  unfold PR_BLOCKTYPE, PR_PAGEADDR in *. split; unfold PR_BLOCKTYPE, PR_PAGEADDR;
    rewrite ?E1, ?E2, ?E3; done.
Qed.

Lemma relinked_filter (L : list Z) t :
  (∀ x, x ∈ L → is_Some (prs !! x)) →
  filter (λ q, btof prs' q = t) L = filter (λ q, btof prs q = t) L.
Proof using Hrel.
  intros Hdom. induction L as [|x L IH]; [done |]. rewrite !filter_cons.
  destruct (relinked_page x) as [_ E]; [apply Hdom; left |].
  rewrite IH by (intros y Hy; apply Hdom; by right). rewrite E. done.
Qed.
End relinked.

(** Taking a heap page whose blocks are all free off the lists: its frame is
    then owned by the caller. *)
Lemma inv_remove_page L1 L2 q pr FL N g m pg fh h h' :
  heap_inv (L1 ++ q :: L2) FL N g m pg fh h →
  pagerefs h !! q = Some pr →
  Z.of_nat (length (FL q)) = PAGE_SIZE / size_of (PR_BLOCKTYPE pr) →
  kheaproots h' = kheaproots h → length (sizebases h') = 8%nat →
  relinked (pagerefs h) (pagerefs h') →
  pchain (pagerefs h') next_all (allbase h') (L1 ++ L2) →
  (∀ t, 0 <= t < NSIZES →
     pchain (pagerefs h') next_samesize (default 0 (sizebases h' !! Z.to_nat t))
       (filter (λ x, btof (pagerefs h) x = t) (L1 ++ L2))) →
  ∃ f e, PR_PAGEADDR pr = addr f ∧ kernel_owned e ∧ gX g !! f = None ∧
    heap_inv (L1 ++ L2) FL N (add_X f e g) m pg fh h'.
Proof.
  intros H Hpr Hfull Er Esz Hrel Hall Hsame. pose proof H as [].
  set (L := L1 ++ q :: L2) in *.
  assert (q ∈ L) as Hq by (unfold L; set_solver).
  assert (∀ x, x ∈ L1 ++ L2 → x ∈ L) as Hsub by (unfold L; set_solver).
  assert (∀ x, x ∈ L → is_Some (pagerefs h !! x)) as Hdom.
  { intros x Hx. by eapply pchain_elem in hi_all0 as [_ ?]. }
  assert (NoDup (L1 ++ L2) ∧ q ∉ L1 ++ L2) as [Hnd Hqn].
  { unfold L in hi_nodup0. rewrite <- Permutation_middle in hi_nodup0.
    apply NoDup_cons in hi_nodup0. naive_solver. }
  assert (pageof (pagerefs h) q = PR_PAGEADDR pr) as Ep by (unfold pageof; by rewrite Hpr).
  destruct (hi_kernel0 q Hq) as (f & e & Hf & Ef & Hl & Hv & Hpid & Hpn). rewrite Ep in Ef.
  assert (∀ t b, live (pagerefs h) L FL t b → live (pagerefs h') (L1 ++ L2) FL t b) as Hlive.
  { intros t b (x & Hx & Ht & Hb & Hnf). destruct (relinked_page _ _ Hrel x (Hdom x Hx)) as [E1 E2].
    destruct (decide (x = q)) as [-> | Hne].
    - exfalso. apply Hnf. destruct (hi_page0 q pr Hq Hpr) as [Rt _ _ _ Hbs Hd].
      assert (btof (pagerefs h) q = PR_BLOCKTYPE pr) as Et by (unfold btof; by rewrite Hpr).
      eapply (full_list (PR_PAGEADDR pr) (PR_BLOCKTYPE pr)); [done | done | done | done |].
      by rewrite <- Ep, <- Et, Ht.
    - exists x. rewrite E1, E2. split_and!; try done. unfold L in Hx. set_solver. }
  assert (gX g !! f = None) as HXf.
  { destruct (gX g !! f) as [e'|] eqn:E; [| done]. exfalso.
    destruct (hi_X0 f e' E) as (_ & Hp & _). by apply (Hp q Hq); rewrite Ep. }
  assert (∀ x, x ∈ L1 ++ L2 → pageof (pagerefs h') x = pageof (pagerefs h) x) as Hpg.
  { intros x Hx. by apply (relinked_page _ _ Hrel), Hdom, Hsub. }
  exists f, e. split; [done |]. split; [done |]. split; [done |]. split; try done.
  - intros t Ht. rewrite (relinked_filter _ _ Hrel); [by apply Hsame |].
    intros x Hx. by apply Hdom, Hsub.
  - intros x px Hx Hpx. destruct (Hdom x (Hsub x Hx)) as [p0 Hp0].
    eapply relinked_page_ok; [done | done | done | by apply hi_page0; [apply Hsub |]].
  - intros x y Hx Hy. rewrite !Hpg by done. apply hi_inj0; by apply Hsub.
  - intros x Hx. rewrite Hpg by done. by apply hi_kernel0, Hsub.
  - by rewrite Er.
  - rewrite Er. apply hi_words0.
  - rewrite Er. apply hi_rootpage0.
  - rewrite Er. apply hi_rootinj0.
  - rewrite Er. intros r root x Hr H0 Hx. rewrite Hpg by done. eapply hi_rootheap0; [done | done | by apply Hsub].
  - rewrite Er. intros x Hx. by apply hi_slot0, Hsub.
  - rewrite Er. apply hi_reserved0.
  - intros a x Ha. destruct (hi_node0 a x Ha) as (? & ? & ? & ? & ?). split_and!; try done. by apply Hlive.
  - rewrite Er. intros x y. simpl. rewrite lookup_insert. case_decide as E.
    + subst x. intros [= <-]. split; [done |]. split.
      * intros x Hx. rewrite Hpg, <- Ef, <- Ep by done. intros E%hi_inj0; [| by apply Hsub | done].
        by subst x.
      * intros r root Hr E. apply (hi_rootheap0 r root q Hr); [| done | congruence].
        rewrite E. unfold addr. zlia.
    + intros Hx. destruct (hi_X0 x y Hx) as (? & Hp & ?). split_and!; try done.
      intros z Hz. rewrite Hpg by done. by apply Hp, Hsub.
  - intros b t Hb. by apply Hlive, hi_B0.
Qed.
End HeapTrans.
