(* ===== verification/HeapSafe.v ===== *)
(** * Every heap operation preserves the allocation invariant

    One rule per function of kmalloc.c and list.c, on the invariant of [HeapInv]: what
    the callers own stays owned and disjoint, through the calls the page allocator and
    the block allocator make to each other, at every recursion bound.  The rules are for
    single pages: the callers of [alloc_kpages] inside the heap ask for no more. *)

From stdpp Require Import base list gmap numbers strings sets.
From Stdlib Require Import ZArith Lia.
From S2P Require Import Prelude Segments Tlb PageTable VmState Ram Kmalloc HeapInv HeapProof HeapOps HeapTrans.
Import Segments Tlb PageTable VmState Kmalloc HeapInv HeapProof HeapOps HeapTrans.

#[local] Open Scope Z_scope.

Module HeapSafe.

(** ** A new heap page *)

Section add_page.
Context {L : list Z} {FL : Z → list Z} {N : list (Z * Z)} {g : ghost}.
Context {m : Z → Z} {pg : list invertedPT} {fh : Z} {h : heap_state}.
Context (H : heap_inv L FL N g m pg fh h).

(** The pageref of a reserved slot is in no list. *)
Lemma reserved_fresh r i root :
  (Z.of_nat r, i) ∈ gR g → kheaproots h !! r = Some root → root_page root ≠ 0 →
  ((root_page root + SIZEOF_PAGEREF * i) ∉ L) ∧ 0 <= i < NPAGEREFS_PER_PAGE ∧
  root_page root + SIZEOF_PAGEREF * i ≠ 0.
Proof using H.
  intros HR Hr H0. destruct (hi_reserved _ _ _ _ _ _ _ _ H _ _ HR) as (Hi & _ & _).
  split; [| split; [done |]].
  - intros Hq. destruct (hi_slot _ _ _ _ _ _ _ _ H _ Hq) as (r' & i' & root' & Hr' & H0' & Hi' & E & _ & Hn).
    destruct (slot_root H r r' root root' i i' Hr Hr' H0 H0' Hi Hi' E) as [-> ->]. done.
  - destruct (root_frame H r root Hr H0) as (f & Hf & ->). unfold addr, SIZEOF_PAGEREF. zlia.
Qed.

Lemma inv_add_page r i root f e t pr fl :
  (Z.of_nat r, i) ∈ gR g → kheaproots h !! r = Some root → root_page root ≠ 0 →
  gX g !! f = Some e → kernel_owned e → 0 <= t < NSIZES →
  next_samesize pr = default 0 (sizebases h !! Z.to_nat t) → next_all pr = allbase h →
  PR_PAGEADDR pr = addr f → PR_BLOCKTYPE pr = t → page_ok m pr fl →
  let p := root_page root + SIZEOF_PAGEREF * i in
  heap_inv (p :: L) (fn_upd FL p fl) N (drop_X f (drop_R (Z.of_nat r, i) g)) m pg fh
    (with_allbase p (with_sizebases (<[Z.to_nat t := p]> (sizebases h))
      (with_pagerefs (<[p := pr]> (pagerefs h)) h))).
Proof using H.
  intros HR Hr H0 HX Hker Ht Hns Hna Hpa Hbt Hok p.
  destruct (reserved_fresh r i root HR Hr H0) as (Hfresh & Hi & Hp0). fold p in Hfresh, Hp0.
  pose proof (hi_X _ _ _ _ _ _ _ _ H f e HX) as ((Rf & Hl & Hv) & Hnp & Hnr).
  assert (∀ x, x ∈ L → <[p := pr]> (pagerefs h) !! x = pagerefs h !! x) as Hne.
  { intros x Hx. apply lookup_insert_ne. intros <-. done. }
  assert (∀ x, x ∈ L → pageof (<[p := pr]> (pagerefs h)) x = pageof (pagerefs h) x ∧
    btof (<[p := pr]> (pagerefs h)) x = btof (pagerefs h) x) as Hsame.
  { intros x Hx. unfold pageof, btof. by rewrite Hne. }
  assert (pageof (<[p := pr]> (pagerefs h)) p = addr f ∧ btof (<[p := pr]> (pagerefs h)) p = t) as [Epp Etp].
  { unfold pageof, btof. by rewrite lookup_insert_eq. }
  assert (∀ next a l, (∀ x, x ∈ l → x ∈ L) → pchain (pagerefs h) next a l →
    pchain (<[p := pr]> (pagerefs h)) next a l) as Hchain.
  { intros next a l Hsub. apply pchain_ext. intros x px Hx Hpx. exists px. by rewrite Hne by auto. }
  assert (∀ t' b, live (pagerefs h) L FL t' b →
    live (<[p := pr]> (pagerefs h)) (p :: L) (fn_upd FL p fl) t' b) as Hlive.
  { intros t' b (x & Hx & Ex & Hb & Hf). exists x. destruct (Hsame x Hx) as [-> ->].
    split; [by right |]. split_and!; try done. unfold fn_upd. rewrite decide_False; [done |].
    intros ->. done. }
  pose proof H as []. split; cbn [allbase sizebases pagerefs kheaproots with_allbase with_sizebases with_pagerefs gX gB gR gW drop_X drop_R]; try done.
  - by constructor.
  - simpl. split; [done |]. split; [done |]. exists pr. rewrite lookup_insert_eq. split; [done |].
    rewrite Hna. by apply Hchain.
  - intros t' Ht'. rewrite filter_cons, Etp.
    assert (filter (λ q, btof (<[p := pr]> (pagerefs h)) q = t') L = filter (λ q, btof (pagerefs h) q = t') L) as Ef.
    { clear -Hsame. induction L as [|x l IH]; [done |]. rewrite !filter_cons.
      destruct (Hsame x) as [_ ->]; [left |]. rewrite IH; [done |]. intros y Hy. apply Hsame. by right. }
    destruct (decide (t = t')) as [<- | Hne'].
    + rewrite list_lookup_insert_eq by (unfold NSIZES in Ht; rewrite hi_sizes0; lia). cbn [default from_option id pchain].
      split; [done |]. split; [done |]. exists pr. rewrite lookup_insert_eq. split; [done |].
      rewrite Ef, Hns. apply Hchain; [by intros x [_ ?]%list_elem_of_filter | by apply hi_same0].
    + rewrite list_lookup_insert_ne by lia. rewrite Ef.
      apply Hchain; [by intros x [_ ?]%list_elem_of_filter | by apply hi_same0].
  - by rewrite length_insert.
  - intros x px [-> | Hx]%elem_of_cons.
    + rewrite lookup_insert_eq. intros [= <-]. unfold fn_upd. by rewrite decide_True.
    + rewrite Hne by done. intros Hpx. unfold fn_upd. rewrite decide_False by (by intros ->). by apply hi_page0.
  - intros x y [-> | Hx]%elem_of_cons [-> | Hy]%elem_of_cons; [done | | |].
    + destruct (Hsame y Hy) as [-> _]. rewrite Epp. intros E. exfalso. by eapply Hnp.
    + destruct (Hsame x Hx) as [-> _]. rewrite Epp. intros E. exfalso. by eapply Hnp.
    + destruct (Hsame x Hx) as [-> _], (Hsame y Hy) as [-> _]. by apply hi_inj0.
  - intros x [-> | Hx]%elem_of_cons; [| destruct (Hsame x Hx) as [-> _]; by apply hi_kernel0].
    rewrite Epp. exists f, e. destruct Hker as (? & ? & ?). done.
  - intros r' root' x Hr' H0' [-> | Hx]%elem_of_cons.
    + rewrite Epp. intros E. by eapply Hnr.
    + destruct (Hsame x Hx) as [-> _]. by eapply hi_rootheap0.
  - intros x [-> | Hx]%elem_of_cons.
    + destruct (hi_reserved0 _ _ HR) as (_ & _ & root' & Hr' & Hu). rewrite Nat2Z.id in Hr'. simplify_eq.
      exists r, i, root. do 5 (split; [done |]). set_solver.
    + destruct (hi_slot0 x Hx) as (r' & i' & root' & ? & ? & ? & ? & ? & Hn).
      exists r', i', root'. do 5 (split; [done |]). set_solver.
  - intros r' i' Hin. apply hi_reserved0. set_solver.
  - intros a x Ha. destruct (hi_node0 a x Ha) as (? & ? & ? & ? & ?). split_and!; try done. by apply Hlive.
  - intros x y [Hxf Hx]%lookup_delete_Some. destruct (hi_X0 x y Hx) as (? & Hq & ?). split_and!; try done.
    intros z [-> | Hz]%elem_of_cons.
    + rewrite Epp. by intros ?%addr_inj.
    + destruct (Hsame z Hz) as [-> _]. by apply Hq.
  - intros b t' Hb. by apply Hlive, hi_B0.
Qed.
End add_page.

(** ** Owned memory *)

(** Address [x] lies in a block or frame that is owned. *)
Definition owned (g : ghost) (x : Z) : Prop :=
  (∃ b t, gB g !! b = Some t ∧ b <= x < b + size_of t) ∨
  (∃ f e, gX g !! f = Some e ∧ addr f <= x < addr f + PAGE_SIZE).

Lemma owned_add_B b t g x : gB g !! b = None → owned g x → owned (add_B b t g) x.
Proof.
  intros Hn [(b' & t' & Hb & Hx) | Hf]; [left | by right]. exists b', t'. split; [| done].
  simpl. rewrite lookup_insert_ne; [done |]. intros ->. congruence.
Qed.
Lemma owned_add_X f e g x : gX g !! f = None → owned g x → owned (add_X f e g) x.
Proof.
  intros Hn [Hb | (f' & e' & Hf & Hx)]; [by left | right]. exists f', e'. split; [| done].
  simpl. rewrite lookup_insert_ne; [done |]. intros ->. congruence.
Qed.

Lemma drop_add_X f e g : gX g !! f = None → drop_X f (add_X f e g) = g.
Proof. intros Hn. unfold drop_X, add_X. simpl. rewrite delete_insert_id by done. by destruct g. Qed.
Lemma drop_add_B b t g : gB g !! b = None → drop_B b (add_B b t g) = g.
Proof. intros Hn. unfold drop_B, add_B. simpl. rewrite delete_insert_id by done. by destruct g. Qed.
Lemma drop_add_R x g : x ∉ gR g → drop_R x (add_R x g) = g.
Proof.
  intros Hn. unfold drop_R, add_R. simpl.
  replace (({[x]} ∪ gR g) ∖ {[x]}) with (gR g) by set_solver. by destruct g.
Qed.
Lemma drop_add_W f g : f ∉ gW g → drop_W f (add_W f g) = g.
Proof.
  intros Hn. unfold drop_W, add_W. simpl.
  replace (({[f]} ∪ gW g) ∖ {[f]}) with (gW g) by set_solver. by destruct g.
Qed.

Section apart.
Context {L : list Z} {FL : Z → list Z} {N : list (Z * Z)} {g : ghost}.
Context {m : Z → Z} {pg : list invertedPT} {fh : Z} {h : heap_state}.

(** Memory owned without frame [f] is outside the frame. *)
Lemma owned_off_frame f e x :
  heap_inv L FL N (add_X f e g) m pg fh h → gX g !! f = None → owned g x →
  ¬ (addr f <= x < addr f + PAGE_SIZE).
Proof using.
  intros H Hn [(b & t & Hb & Hx) | (f' & e' & Hf & Hx)] Hr.
  - destruct (hi_B _ _ _ _ _ _ _ _ H b t Hb) as (q & Hq & Ht & Hbk & _).
    destruct (hi_X _ _ _ _ _ _ _ _ H f e (lookup_insert_eq _ _ _)) as (_ & Hp & _).
    pose proof (hi_bt H q Hq) as Rt. rewrite Ht in Rt.
    pose proof (block_end _ _ _ Rt Hbk) as He. destruct Hbk as [Hbk _].
    destruct (hi_pageframe H q Hq) as (f' & _ & E). specialize (Hp q Hq). rewrite E in *.
    apply (addr_disjoint f f' x x); [congruence | done | lia | done].
  - apply (addr_disjoint f f' x x); [| done | done | done]. intros ->. congruence.
Qed.

(** Memory owned without block [b] is outside the block. *)
Lemma owned_off_block b t x :
  heap_inv L FL N (add_B b t g) m pg fh h → gB g !! b = None → owned g x →
  ¬ (b <= x < b + size_of t).
Proof using.
  intros H Hn Hown Hr. pose proof (hi_B _ _ _ _ _ _ _ _ H b t (lookup_insert_eq _ _ _)) as Hl.
  destruct Hown as [(b' & t' & Hb & Hx) | (f & e & Hf & Hx)].
  - assert (b ≠ b') as Hne by congruence.
    assert (gB (add_B b t g) !! b' = Some t') as Hb' by (simpl; by rewrite lookup_insert_ne).
    by apply (live_disjoint H t t' b b' x x Hl (hi_B _ _ _ _ _ _ _ _ H b' t' Hb') Hne).
  - destruct (hi_X _ _ _ _ _ _ _ _ H f e Hf) as (_ & Hp & _). destruct Hl as (q & Hq & Ht & Hbk & _).
    pose proof (hi_bt H q Hq) as Rt. rewrite Ht in Rt.
    pose proof (block_end _ _ _ Rt Hbk) as He. destruct Hbk as [Hbk _].
    destruct (hi_pageframe H q Hq) as (f' & _ & E). specialize (Hp q Hq). rewrite E in *.
    apply (addr_disjoint f f' x x); [congruence | done | lia | done].
Qed.
End apart.

Section safe.
Context {FS : Type}.
Implicit Types (s : kstate FS) (g : ghost) (FL : Z → list Z) (L : list Z) (N : list (Z * Z)).

Abbreviation K := (M (kstate FS)).
Abbreviation HI L FL N g s := (heap_inv L FL N g (k_mem s) (main_PG (k_pt s)) (frame_list (k_pt s)) (k_heap s)).
(** Heap code does not end the thread. *)
Abbreviation W m Q s := (wlp m Q (λ _, False) s).

(** A set of owned addresses and their contents, which no operation may change. *)
Context (P : Z → Prop) (m0 : Z → Z).

Definition covers g : Prop := ∀ x, P x → owned g x.

(** The invariant with the state of the lock and the contents of [P]. *)
Definition Ok (lk : bool) g s : Prop :=
  Inv g s ∧ kmalloc_spinlock (k_heap s) = lk ∧ covers g ∧ ∀ x, P x → k_mem s x = m0 x.

Lemma W_mono {A} (m : K A) (Q Q' : A → kstate FS → Prop) s :
  W m Q s → (∀ a s', Q a s' → Q' a s') → W m Q' s.
Proof using. intros Hm HQ. eapply wlp_mono; [exact HQ | intros s1 H1; exact H1 | exact Hm]. Qed.

Lemma W_store a w (Q : unit → kstate FS → Prop) s :
  (kseg0_ok a = true → Q tt (with_k_mem (mem_upd (k_mem s) a w) s)) → W (store a w) Q s.
Proof using. unfold wlp, store. destruct (kseg0_ok a); auto. Qed.
Lemma W_fill a n w (Q : unit → kstate FS → Prop) s :
  (kseg0_ok a = true → Q tt (with_k_mem (mem_fill (k_mem s) a n w) s)) → W (fill a n w) Q s.
Proof using. unfold wlp, fill. destruct (kseg0_ok a); auto. Qed.
Lemma W_load a (Q : Z → kstate FS → Prop) s :
  (kseg0_ok a = true → Q (k_mem s a) s) → W (load a) Q s.
Proof using. unfold wlp, load. destruct (kseg0_ok a); auto. Qed.

(** What a change of state must respect to keep [Ok]. *)
Lemma ok_step lk lk' g g' s s' L FL N :
  Ok lk g s → VM_Started (k_pt s') = VM_Started (k_pt s) → kmalloc_spinlock (k_heap s') = lk' →
  HI L FL N g' s' → covers g' → (∀ x, P x → k_mem s' x = k_mem s x) → Ok lk' g' s'.
Proof using.
  intros ((Hst & _) & _ & _ & Hm) E1 E2 H Hc Hm'. split_and!; [| done | done |].
  - split; [congruence |]. by exists L, FL, N.
  - intros x Hx. rewrite Hm' by done. by apply Hm.
Qed.

Lemma kheap_lock_ok g s : Ok false g s → W lock_kmalloc (λ _, Ok true g) s.
Proof using.
  intros Hok. pose proof Hok as ((_ & L & FL & N & H) & Hl & Hc & _). unfold lock_kmalloc. wsteps. rewrite Hl. wsteps.
  eapply ok_step; [exact Hok | done | done | by apply heap_inv_lock | done | done].
Qed.
Lemma kheap_unlock_ok g s : Ok true g s → W unlock_kmalloc (λ _, Ok false g) s.
Proof using.
  intros Hok. pose proof Hok as ((_ & L & FL & N & H) & Hl & Hc & _). unfold unlock_kmalloc. wsteps.
  eapply ok_step; [exact Hok | done | done | by apply heap_inv_lock | done | done].
Qed.

(** ** Walks *)

Lemma find_page_wlp n t a l FL s :
  pchain (pagerefs (k_heap s)) next_samesize a l →
  (∀ q pr, q ∈ l → pagerefs (k_heap s) !! q = Some pr → nfree pr = Z.of_nat (length (FL q))) →
  W (find_page n t a) (λ p s', s' = s ∧ (p = 0 ∨ p ∈ l ∧ FL p ≠ [])) s.
Proof using.
  revert a l. induction n as [|n IH]; intros a l Hc Hn; simpl; [done |].
  destruct l as [|x l]; simpl in Hc; [subst a; rewrite Z.eqb_refl; wstep; auto |].
  destruct Hc as (-> & Hx & pr & Hpr & Hc). rewrite (proj2 (Z.eqb_neq x 0)) by done.
  unfold get_pr. wsteps. simplify_eq. destruct (Z.ltb_spec 0 (nfree pr)) as [Hlt | Hge].
  - wstep. split; [done |]. right. split; [left |]. intros E.
    rewrite (Hn x pr ltac:(left) Hpr), E in Hlt. simpl in Hlt. lia.
  - eapply W_mono; [eapply (IH _ l); [done |] |].
    + intros q p Hq. apply Hn. by right.
    + cbn beta. intros p s' [-> [-> | [Hp Hf]]]; [auto |]. split; [done |]. right. split; [by right | done].
Qed.

Lemma find_owner_wlp n b a l s :
  pchain (pagerefs (k_heap s)) next_all a l →
  W (find_owner n b a) (λ p s', s' = s ∧ (p = 0 ∧ (∀ q pr, q ∈ l → pagerefs (k_heap s) !! q = Some pr →
        ¬ (PR_PAGEADDR pr <= b < u32 (PR_PAGEADDR pr + PAGE_SIZE))) ∨
     p ∈ l ∧ ∃ pr, pagerefs (k_heap s) !! p = Some pr ∧ PR_PAGEADDR pr <= b < u32 (PR_PAGEADDR pr + PAGE_SIZE))) s.
Proof using.
  revert a l. induction n as [|n IH]; intros a l Hc; simpl; [done |].
  destruct l as [|x l]; simpl in Hc.
  { subst a. rewrite Z.eqb_refl. wstep. split; [done |]. left. split; [done |]. intros q pr Hq. by apply elem_of_nil in Hq. }
  destruct Hc as (-> & Hx & pr & Hpr & Hc). rewrite (proj2 (Z.eqb_neq x 0)) by done.
  unfold get_pr. wsteps. simplify_eq.
  destruct ((PR_PAGEADDR pr <=? b) && (b <? u32 (PR_PAGEADDR pr + PAGE_SIZE))) eqn:E.
  - wstep. split; [done |]. right. split; [left |]. exists pr. zbool. done.
  - eapply W_mono; [by apply (IH _ l) |]. cbn beta. intros p s' [-> Hp]. split; [done |].
    destruct Hp as [[-> Hno] | [Hp Hpr']]; [left | right; split; [by right | done]].
    split; [done |]. intros q pq [-> | Hq]%elem_of_cons Hpq; [| by eapply Hno].
    simplify_eq. intros [? ?]. apply andb_false_iff in E as [? | ?]; zbool; lia.
Qed.

(** ** Taking a block *)

Lemma doalloc_safe L FL N g s q pr b fl :
  Ok true g s → HI L FL N g s → q ∈ L → pagerefs (k_heap s) !! q = Some pr → FL q = b :: fl →
  W (doalloc q) (λ a s', a = b ∧ gB g !! b = None ∧ Ok false (add_B b (PR_BLOCKTYPE pr) g) s') s.
Proof using.
  intros Hok H Hq Hpr Hfl. pose proof Hok as (_ & Hl & Hc & _).
  unfold wlp. rewrite (doalloc_ok s q pr b fl H Hq Hpr Hfl Hl).
  assert (gB g !! b = None) as Hn by (apply (free_not_owned s q b H Hq); rewrite Hfl; left).
  split; [done |]. split; [done |].
  eapply ok_step; [exact Hok | done | done | exact (with_list_inv s q pr b fl H Hq Hpr Hfl) | | done].
  intros x Hx. apply owned_add_B; [done | by apply Hc].
Qed.

(** ** The free list of a fresh page *)

Fixpoint block_list (P0 z : Z) (n : nat) : list Z :=
  match n with O => [] | S n' => (P0 + Z.of_nat n' * z) :: block_list P0 z n' end.

Lemma block_list_elem P0 z n b :
  b ∈ block_list P0 z n ↔ ∃ i, 0 <= i < Z.of_nat n ∧ b = P0 + i * z.
Proof using.
  induction n as [|n IH]; cbn [block_list].
  - rewrite elem_of_nil. split; [done |]. intros (i & Hi & _). lia.
  - rewrite elem_of_cons, IH. split.
    + intros [-> | (i & Hi & ->)]; [exists (Z.of_nat n) | exists i]; split; lia.
    + intros (i & Hi & ->). destruct (decide (i = Z.of_nat n)) as [-> |]; [by left |].
      right. exists i. split; lia.
Qed.

Lemma block_list_length P0 z n : length (block_list P0 z n) = n.
Proof using. induction n as [|n IH]; simpl; [done | by rewrite IH]. Qed.

Lemma block_list_nodup P0 z n : 0 < z → NoDup (block_list P0 z n).
Proof using.
  intros Hz. induction n as [|n IH]; cbn [block_list]; [constructor |]. constructor; [| done].
  rewrite block_list_elem. intros (i & Hi & E). nia.
Qed.

Lemma block_list_chain m P0 z n :
  0 < P0 → 0 < z → m P0 = 0 → (∀ i, 1 <= i < Z.of_nat n → m (P0 + i * z) = P0 + (i - 1) * z) →
  mchain m 0 (hd 0 (block_list P0 z n)) (block_list P0 z n).
Proof using.
  intros HP Hz H0 Hm. induction n as [|n IH]; [done |]. cbn [block_list mchain hd].
  split; [done |]. split; [nia |]. rewrite Z.add_0_r. destruct n as [|n].
  - cbn [block_list mchain]. by rewrite Z.mul_0_l, Z.add_0_r.
  - rewrite Hm by lia. replace (Z.of_nat (S n) - 1) with (Z.of_nat n) by lia.
    apply IH. intros i Hi. apply Hm. lia.
Qed.

Lemma init_freelist_safe P0 z n s :
  0 < z → 1 <= n → n * z <= PAGE_SIZE →
  W (init_freelist P0 z n) (λ _ s', ∃ m', s' = with_k_mem m' s ∧
      (∀ x, ¬ (P0 <= x < P0 + PAGE_SIZE) → m' x = k_mem s x) ∧ m' P0 = 0 ∧
      (∀ i, 1 <= i < n → m' (P0 + i * z) = P0 + (i - 1) * z)) s.
Proof using.
  intros Hz Hn Hsz. unfold init_freelist. wstep. apply W_store. intros _.
  pose (I := λ (i : Z) s', ∃ m', s' = with_k_mem m' s ∧
      (∀ x, ¬ (P0 <= x < P0 + PAGE_SIZE) → m' x = k_mem s x) ∧ m' P0 = 0 ∧
      (∀ j, 1 <= j < i → m' (P0 + j * z) = P0 + (j - 1) * z)).
  eapply W_mono; [apply (wlp_for_loop I) |].
  - eexists. split; [done |]. unfold mem_upd. split_and!.
    + intros x Hx. destruct (Z.eqb_spec x P0); [zlia | done].
    + by rewrite Z.eqb_refl.
    + intros j Hj. lia.
  - intros i s1 Hi (m1 & -> & Hout & H0 & Hin). apply W_store. intros _.
    eexists. split; [destruct s; reflexivity |]. unfold mem_upd. cbn [k_mem with_k_mem].
    split_and!.
    + intros x Hx. destruct (Z.eqb_spec x (P0 + i * z)) as [-> |]; [| by apply Hout].
      exfalso. apply Hx. nia.
    + destruct (Z.eqb_spec P0 (P0 + i * z)); [nia | done].
    + intros j Hj. destruct (Z.eqb_spec (P0 + j * z) (P0 + i * z)) as [E |].
      * assert (j = i) as -> by nia. done.
      * apply Hin. assert (j ≠ i) by (intros ->; done). lia.
  - cbn beta. intros _ s' (m' & -> & Hout & H0 & Hin). exists m'. split_and!; try done.
    intros i Hi. apply Hin. lia.
Qed.

(** The pageref and free list [subpage_kmalloc] sets up for a fresh page. *)
Lemma fresh_page_ok m f t ns na :
  0 <= f < 2 ^ 17 → 0 <= t < NSIZES → let n := PAGE_SIZE / size_of t in
  m (addr f) = 0 → (∀ i, 1 <= i < n → m (addr f + i * size_of t) = addr f + (i - 1) * size_of t) →
  let pr := mkPageref ns na (MKPAB (addr f) t) ((n - 1) * size_of t) n in
  PR_PAGEADDR pr = addr f ∧ PR_BLOCKTYPE pr = t ∧
  page_ok m pr (block_list (addr f) (size_of t) (Z.to_nat n)).
Proof using.
  intros Hf Ht n H0 Hm pr. destruct (addr_frame f (2 ^ 17) Hf ltac:(lia)) as (_ & _ & Ha & Hr).
  destruct (MKPAB_page (addr f) t Hr Ha Ht) as [E1 E2].
  pose proof (size_bounds t Ht) as Hz. pose proof (blocks_per_page t Ht) as Hn. fold n in Hn.
  pose proof (size_page t Ht) as Hsz. fold n in Hsz.
  split; [done |]. split; [done |]. unfold pr. split; unfold PR_PAGEADDR, PR_BLOCKTYPE; cbn [pageaddr_and_blocktype nfree freelist_offset];
    rewrite ?E1, ?E2; [done | | | | |].
  - rewrite block_list_length. lia.
  - destruct (Z.to_nat n) as [|k] eqn:E; [lia |]. cbn [block_list]. replace (Z.of_nat k) with (n - 1) by lia. lia.
  - apply block_list_chain; [unfold addr; zlia | lia | done |]. intros i Hi. apply Hm. lia.
  - apply Forall_forall. intros b (i & Hi & ->)%block_list_elem. split; [nia |].
    replace (addr f + i * size_of t - addr f) with (i * size_of t) by lia. apply Z.mod_mul. lia.
  - apply block_list_nodup. lia.
Qed.

(** ** What the block allocator needs of the page allocator *)

Definition allocs (A : Z → K Z) : Prop := ∀ g s, Ok false g s →
  W (A 1) (λ a s', (a = 0 ∧ Ok false g s') ∨
    ∃ f e, a = addr f ∧ kernel_owned e ∧ gX g !! f = None ∧ Ok false (add_X f e g) s') s.

Definition frees (F : Z → K unit) : Prop := ∀ g f e s,
  gX g !! f = None → covers g → Ok false (add_X f e g) s → W (F (addr f)) (λ _, Ok false g) s.

Lemma addr_nonzero f g e s lk : gX g !! f = Some e → Ok lk g s → addr f ≠ 0 ∧ addr f mod PAGE_SIZE = 0 ∧ 0 <= f < 2 ^ 17.
Proof using.
  intros Hf ((_ & L & FL & N & H) & _). destruct (hi_X _ _ _ _ _ _ _ _ H f e Hf) as ((Rf & _) & _).
  pose proof (hi_ram _ _ _ _ _ _ _ _ H). destruct (addr_frame f (2 ^ 17)) as (_ & _ & ? & _); [lia | lia |].
  split; [unfold addr; zlia |]. split; [done | lia].
Qed.

Ltac wcall H := apply wlp_bind; eapply W_mono; [eapply H |]; cbn beta.

Lemma ok_drop_R lk x g s : Ok lk (add_R x g) s → Ok lk g s.
Proof using.
  intros Hok. pose proof Hok as ((_ & L & FL & N & H) & Hl & Hc & _).
  eapply ok_step; [exact Hok | done | done | | exact Hc | done].
  apply (inv_weaken H); simpl; set_solver.
Qed.

Section subpage.
Context (A : Z → K Z) (F : Z → K unit) (HA : allocs A) (HF : frees F).

(** The slot reserved for the pageref stays reserved. *)
Lemma allocpagerefpage_safe r g s :
  Ok true g s → W (allocpagerefpage A F (Z.of_nat r)) (λ _, Ok true g) s.
Proof using HA HF.
  intros Hok. unfold allocpagerefpage, get_root. wsteps.
  eapply W_mono; [by apply kheap_unlock_ok |]. cbn beta. intros _ s1 Hok1. wcall HA; [done |].
  intros va s2 Hva. apply wlp_bind. destruct Hva as [[-> Hok2] | (f & e & -> & Hker & Hn & Hok2)].
  { eapply W_mono; [by apply kheap_lock_ok |]. cbn beta. intros _ s3 Hok3. rewrite Z.eqb_refl. by wstep. }
  destruct (addr_nonzero f _ e _ _ (lookup_insert_eq _ _ _) Hok2) as (Hnz & Ha & _).
  eapply W_mono; [by apply kheap_lock_ok |]. cbn beta. intros _ s3 Hok3. rewrite (proj2 (Z.eqb_neq _ _)) by done. wsteps.
  match goal with Hr : kheaproots (k_heap s3) !! _ = Some ?rt |- _ => rename rt into root; rename Hr into Hroot end.
  destruct (Z.eqb_spec (root_page root) 0) as [Er | Er]; cbn [negb].
  - pose proof Hok3 as ((_ & L & FL & N & Hinv) & Hl & _). unfold set_root. wsteps. rewrite Nat2Z.id in *.
    pose proof Hok1 as (_ & _ & Hc & _).
    eapply ok_step; [exact Hok3 | done | done | | done | done].
    pose proof (inv_pool_page Hinv r root f e Hroot Er (lookup_insert_eq _ _ _) Hker) as H'.
    rewrite drop_add_X in H' by done. exact H'.
  - wcall kheap_unlock_ok; [done |]. intros _ s4 Hok4. wcall HF; [done | | done |].
    { by destruct Hok1 as (_ & _ & Hc & _). }
    intros _ s5 Hok5. wcall kheap_lock_ok; [done |]. intros _ s6 Hok6. by wsteps.
Qed.

(** A fresh pageref comes with its slot reserved. *)
Definition new_slot g (p : Z) s : Prop := ∃ r i root,
  kheaproots (k_heap s) !! r = Some root ∧ root_page root ≠ 0 ∧
  p = root_page root + SIZEOF_PAGEREF * i ∧ ((Z.of_nat r, i) ∉ gR g) ∧ Ok true (add_R (Z.of_nat r, i) g) s.

Lemma allocpageref_safe g s :
  Ok true g s → W (allocpageref A F) (λ p s', (p = 0 ∧ Ok true g s') ∨ (p ≠ 0 ∧ new_slot g p s')) s.
Proof using HA HF.
  intros Hok. pose proof Hok as ((_ & L & FL & N & H) & Hl & Hc & _).
  unfold allocpageref. wstep. wstep.
  destruct (first_index root_has_room _) as [r|] eqn:Er; [| wstep; by left].
  unfold get_root. wsteps. rewrite Nat2Z.id in *.
  match goal with Hr : kheaproots (k_heap s) !! _ = Some ?rt |- _ => rename rt into root; rename Hr into Hroot end.
  destruct (first_index _ (pagerefs_inuse root)) as [w|] eqn:Ew; [| wstep].
  destruct (first_index _ (seqZ 0 32)) as [j|] eqn:Ej; [| wstep].
  apply first_index_lt in Ew. rewrite (hi_words _ _ _ _ _ _ _ _ H r root Hroot) in Ew.
  apply first_index_lookup in Ej as (j' & Hj & Hbit). apply lookup_seqZ in Hj as [-> Hj]. zbool.
  set (i := Z.of_nat w * 32 + Z.of_nat j).
  assert (¬ slot_used root i) as Hfree.
  { unfold slot_used, i. rewrite Z.div_add_l, Z.div_small, Z.add_0_r, Nat2Z.id by lia.
    rewrite (Z.add_comm _ (Z.of_nat j)), Z.mod_add, Z.mod_small by lia. intros Ht.
    assert (Z.testbit (Z.land (default 0 (pagerefs_inuse root !! w)) (Z.shiftl 1 (0 + Z.of_nat j))) (Z.of_nat j) = true) as Hb.
    { rewrite Z.land_spec, Ht, Z.shiftl_1_l, Z.pow2_bits_eqb, Z.add_0_l, Z.eqb_refl by lia. done. }
    rewrite Hbit, Z.bits_0 in Hb. done. }
  assert ((Z.of_nat r, i) ∉ gR g) as HnR.
  { intros HR. destruct (hi_reserved _ _ _ _ _ _ _ _ H _ _ HR) as (_ & _ & root' & Hr' & Hu).
    rewrite Nat2Z.id in Hr'. simplify_eq. done. }
  unfold set_root. wsteps.
  assert (∀ n, Ok true (add_R (Z.of_nat r, i) g) (upd_heap (λ h, with_kheaproots (<[Z.to_nat (Z.of_nat r) :=
      set_inuse root w (Z.lor (default 0 (pagerefs_inuse root !! w)) (Z.shiftl 1 (Z.of_nat j))) n]> (kheaproots h)) h) s)) as Hok1.
  { intros n. eapply ok_step; [exact Hok | done | done | | done | done]. rewrite Nat2Z.id.
    apply (inv_reserve H r root w (Z.of_nat j) n Hroot Ew); [lia | done]. }
  eapply W_mono with (Q := λ _, Ok true (add_R (Z.of_nat r, i) g)).
  { destruct (root_page root =? 0); [apply allocpagerefpage_safe; apply Hok1 | wstep; apply Hok1]. }
  cbn beta. intros _ s2 Hok2. wsteps. rewrite Nat2Z.id in *.
  match goal with Hr : kheaproots (k_heap s2) !! _ = Some ?rt |- _ => rename rt into root2; rename Hr into Hroot2 end.
  destruct (Z.eqb_spec (root_page root2) 0) as [E0 | E0]; wstep.
  - left. split; [done |]. by eapply ok_drop_R.
  - right. pose proof Hok2 as ((_ & L2 & FL2 & N2 & H2) & _).
    destruct (reserved_fresh H2 r i root2) as (_ & _ & Hnz); [simpl; set_solver | done | done |].
    split; [done |]. exists r, i, root2. done.
Qed.

Lemma subpage_kmalloc_safe sz g s :
  Ok false g s →
  W (subpage_kmalloc A F sz) (λ a s', (a = 0 ∧ Ok false g s') ∨
    ∃ t, first_index (λ x, sz <=? x) sizes = Some t ∧ gB g !! a = None ∧
      Ok false (add_B a (Z.of_nat t) g) s') s.
Proof using HA HF.
  intros Hok. unfold subpage_kmalloc, blocktype. destruct (first_index _ sizes) as [t|] eqn:Et; [| by wsteps].
  assert (0 <= Z.of_nat t < NSIZES) as Ht.
  { apply first_index_lt in Et. unfold NSIZES. change (length sizes) with 8%nat in Et. lia. }
  wsteps. eapply W_mono; [by apply kheap_lock_ok |]. cbn beta. intros _ s1 Hok1. unfold get_sizebase. wsteps.
  pose proof Hok1 as ((_ & L & FL & N & H) & _).
  eapply W_mono.
  { eapply (find_page_wlp _ _ _ _ FL); [apply (hi_same _ _ _ _ _ _ _ _ H (Z.of_nat t) Ht) |].
    intros q pr [_ Hq]%list_elem_of_filter Hpr. by apply (hi_page _ _ _ _ _ _ _ _ H q pr Hq Hpr). }
  cbn beta. intros p s' [-> Hp]. destruct (Z.eqb_spec p 0) as [-> | Hp0]; cbn [negb].
  2: { destruct Hp as [-> | [[Hbt Hq]%list_elem_of_filter Hfl]]; [done |].
    destruct (hi_lookup H p Hq) as (pr & Hpr & _ & _ & Eb). destruct (FL p) as [|b fl] eqn:Efl; [done |].
    eapply W_mono; [by eapply doalloc_safe |]. cbn beta. intros a s2 (-> & Hn & Hok2). right. exists t.
    split; [done |]. split; [done |]. by rewrite <- Hbt, Eb. }
  wcall kheap_unlock_ok; [done |]. intros _ s2 Hok2. wcall HA; [done |]. intros a s3 Ha.
  destruct Ha as [[-> Hok3] | (f & e & -> & Hker & Hn & Hok3)]; [rewrite Z.eqb_refl; wstep; by left |].
  destruct (addr_nonzero f _ e _ _ (lookup_insert_eq _ _ _) Hok3) as (Hnz & Ha & Rf).
  rewrite (proj2 (Z.eqb_neq _ _)) by done. wsteps. eapply W_mono; [by apply kheap_lock_ok |]. cbn beta. intros _ s4 Hok4.
  wcall allocpageref_safe; [done |]. intros p s5 [[-> Hok5] | (Hp0 & r & i & root & Hroot & Hrp & Ep & HnR & Hok5)].
  { rewrite Z.eqb_refl. wcall kheap_unlock_ok; [done |]. intros _ s6 Hok6. wcall HF; [done | | done |].
    - by destruct Hok2 as (_ & _ & Hc & _).
    - intros _ s7 Hok7. wstep. by left. }
  rewrite (proj2 (Z.eqb_neq _ _)) by done.
  pose proof (size_bounds _ Ht) as Hz. pose proof (blocks_per_page _ Ht) as Hn2. pose proof (size_page _ Ht) as Hsz.
  wcall init_freelist_safe; [lia | lia | lia |]. intros _ s6 (m' & -> & Hout & Hm0 & Hm).
  unfold get_sizebase, set_pr, set_sizebase. wsteps. cbn [with_k_mem upd_heap k_heap].
  pose proof Hok2 as (_ & _ & Hc & _).
  clear Hp L FL N H. pose proof Hok5 as ((Hst & L & FL & N & H) & Hl5 & Hc5 & Hm5).
  assert (heap_inv L FL N (add_R (Z.of_nat r, i) (add_X f e g)) m' (main_PG (k_pt s5)) (frame_list (k_pt s5)) (k_heap s5)) as H'.
  { apply (inv_write_page H m' f); [| done].
    destruct (hi_X _ _ _ _ _ _ _ _ H f e (lookup_insert_eq _ _ _)) as (_ & ? & _). done. }
  set (pr := mkPageref _ _ _ _ _).
  destruct (fresh_page_ok m' f (Z.of_nat t) (default 0 (sizebases (k_heap s5) !! Z.to_nat (Z.of_nat t))) (allbase (k_heap s5)) Rf Ht Hm0 Hm)
    as (E1 & E2 & Hpok). fold pr in E1, E2, Hpok.
  pose proof (inv_add_page H' r i root f e (Z.of_nat t) pr _ ltac:(simpl; set_solver) Hroot Hrp
    (lookup_insert_eq _ _ _) Hker Ht eq_refl eq_refl E1 E2 Hpok) as H2. cbn zeta in H2.
  rewrite drop_add_R, drop_add_X in H2 by done. rewrite <- Ep in H2.
  assert (∀ x, P x → m' x = k_mem s5 x) as HmP.
  { destruct (ok_drop_R _ _ _ _ Hok5) as ((_ & ? & ? & ? & Hd) & _).
    intros a Hx. apply Hout. eapply (owned_off_frame f e); [exact Hd | done | by apply Hc]. }
  match goal with |- wlp (doalloc p) _ _ ?st => set (sn := st) end.
  assert (Ok true g sn) as Hok6 by (eapply ok_step; [exact Hok5 | done | done | exact H2 | done | done]).
  destruct (Z.to_nat (PAGE_SIZE / size_of (Z.of_nat t))) as [|k] eqn:Ek; [lia |].
  eapply W_mono; [eapply (doalloc_safe _ _ _ g sn p pr); [exact Hok6 | exact H2 | left | |] |].
  - simpl. apply lookup_insert_eq.
  - unfold fn_upd. rewrite decide_True by done. reflexivity.
  - cbn beta. rewrite E2. intros a s7 (-> & HnB & Hok7). right. exists t. done.
Qed.
End subpage.

(** ** Taking a page off the lists *)

Lemma nodup_mid (l1 l2 : list Z) q : NoDup (l1 ++ q :: l2) → (q ∉ l1) ∧ (q ∉ l2).
Proof using.
  rewrite <- Permutation_middle. intros [Hn _]%NoDup_cons.
  split; intros Hq; apply Hn, elem_of_app; [by left | by right].
Qed.

Section unlink.
Context (next : pageref → Z) (set_next : Z → pageref → pageref).
Context (Hnext : ∀ v pr, next (set_next v pr) = v).

Lemma unlink_from_wlp n a p l1 l2 s :
  let prs := pagerefs (k_heap s) in
  pchain prs next a (a :: l1 ++ p :: l2) → NoDup (a :: l1 ++ p :: l2) →
  W (unlink_from n next set_next a p) (λ _ s', ∃ x px v, x ∈ a :: l1 ∧ prs !! x = Some px ∧
      s' = upd_heap (with_pagerefs (<[x := set_next v px]> prs)) s ∧
      pchain (<[x := set_next v px]> prs) next a (a :: l1 ++ l2)) s.
Proof using Hnext.
  intros prs. subst prs. revert a l1. induction n as [|n IH]; intros a l1 Hc Hd; [done |].
  cbn [pchain] in Hc. destruct Hc as (_ & Ha & pa & Hpa & Hc). apply NoDup_cons in Hd as [Han Hd].
  cbn [unlink_from]. unfold get_pr, set_pr. wsteps.  simplify_eq.
  assert (next pa ≠ 0) as Hn0 by (destruct l1; cbn [app pchain] in Hc; destruct Hc as (-> & ? & _); done).
  rewrite (proj2 (Z.eqb_neq _ _)) by done. destruct (Z.eqb_spec (next pa) p) as [E | Hne].
  - destruct l1 as [|y l1].
    2: { exfalso. cbn [app pchain] in Hc. destruct Hc as (E' & _). assert (y = p) as -> by congruence.
      cbn [app] in Hd. apply NoDup_cons in Hd as [Hd _]. apply Hd, elem_of_app. right. left. }
    cbn [app pchain] in *. destruct Hc as (_ & Hp & pp & Hpp & Hc). wsteps.  simplify_eq.
    exists a, pa, (next pp). split; [left |]. split; [done |]. split; [done |].
    split; [done |]. split; [done |]. exists (set_next (next pp) pa). rewrite lookup_insert_eq, Hnext.
    split; [done |]. eapply pchain_ext; [| exact Hc]. intros z pz Hz Hpz. exists pz.
    rewrite lookup_insert_ne; [done |]. intros <-. apply Han. by right.
  - destruct l1 as [|y l1]; cbn [app] in *; [destruct Hc as (E & _); done |].
    assert (next pa = y) as E by apply Hc. rewrite E in *.
    eapply W_mono; [by apply IH |]. cbn beta. intros _ s' (x & px & v & Hx & Hpx & -> & Hc').
    assert (x ≠ a). { intros ->. apply Han. rewrite app_comm_cons. apply elem_of_app. by left. }
    exists x, px, v. split; [by right |]. split; [done |]. split; [done |].
    split; [done |]. split; [done |]. exists pa. rewrite lookup_insert_ne by done. by rewrite E.
Qed.
End unlink.

(** [prs'] has the pagerefs of [prs] with the field [fld] unchanged. *)
Definition keeps_field (fld : pageref → Z) (prs prs' : gmap Z pageref) : Prop :=
  ∀ x pr, prs !! x = Some pr → ∃ pr', prs' !! x = Some pr' ∧ fld pr' = fld pr.

Lemma keeps_insert fld (prs : gmap Z pageref) x px px' :
  prs !! x = Some px → fld px' = fld px → keeps_field fld prs (<[x := px']> prs).
Proof using.
  intros Hx E y py Hy. destruct (decide (x = y)) as [<- | Hne].
  - exists px'. rewrite lookup_insert_eq. by simplify_eq.
  - exists py. by rewrite lookup_insert_ne.
Qed.

Lemma relinked_insert (prs : gmap Z pageref) x px px' :
  prs !! x = Some px → same_data px px' → relinked prs (<[x := px']> prs).
Proof using.
  intros Hx E y py Hy. destruct (decide (x = y)) as [<- | Hne].
  - exists px'. rewrite lookup_insert_eq. by simplify_eq.
  - exists py. by rewrite lookup_insert_ne.
Qed.

(** The pagerefs in [l] of block type [t]. *)
Definition of_type (prs : gmap Z pageref) (t : Z) (l : list Z) : list Z :=
  filter (λ x, btof prs x = t) l.

Lemma of_type_mid prs p l1 l2 t :
  of_type prs t (l1 ++ p :: l2) =
  if decide (btof prs p = t) then of_type prs t l1 ++ p :: of_type prs t l2 else of_type prs t (l1 ++ l2).
Proof using.
  unfold of_type. rewrite !filter_app, filter_cons. by destruct (decide (btof prs p = t)).
Qed.

Lemma of_type_elem prs t x l : x ∈ of_type prs t l ↔ btof prs x = t ∧ x ∈ l.
Proof using. unfold of_type. by rewrite list_elem_of_filter. Qed.

(** The first loop of [remove_lists], on the list of the page's size. *)
Lemma unlink_samesize n L1 L2 p pr s :
  let h := k_heap s in let prs := pagerefs h in let t0 := PR_BLOCKTYPE pr in
  NoDup (L1 ++ p :: L2) → length (sizebases h) = 8%nat → prs !! p = Some pr → 0 <= t0 < NSIZES →
  (∀ t, 0 <= t < NSIZES → pchain prs next_samesize (default 0 (sizebases h !! Z.to_nat t))
     (of_type prs t (L1 ++ p :: L2))) →
  let head := default 0 (sizebases h !! Z.to_nat t0) in
  W (if head =? 0 then mret tt
     else if head =? p then pr ← get_pr p; set_sizebase t0 (next_samesize pr)
     else unlink_from n next_samesize with_next_samesize head p)
    (λ _ s1, ∃ prs1 sb1, s1 = upd_heap (λ h, with_pagerefs prs1 (with_sizebases sb1 h)) s ∧
       length sb1 = 8%nat ∧ relinked prs prs1 ∧ keeps_field next_all prs prs1 ∧
       ∀ t, 0 <= t < NSIZES → pchain prs1 next_samesize (default 0 (sb1 !! Z.to_nat t)) (of_type prs t (L1 ++ L2))) s.
Proof using.
  intros h prs t0 Hd Hsz Hpr Rt Hsame head. pose proof (Hsame t0 Rt) as Hc. fold head in Hc.
  assert (btof prs p = t0) as Ebt by (unfold btof; by rewrite Hpr).
  assert (Z.to_nat t0 < 8)%nat as Rt' by (unfold NSIZES in Rt; lia).
  rewrite of_type_mid, decide_True in Hc by done.
  assert (NoDup (of_type prs t0 L1 ++ p :: of_type prs t0 L2)) as Hd'.
  { pose proof (NoDup_filter (λ x, btof prs x = t0) _ Hd) as Hf.
    change (NoDup (of_type prs t0 (L1 ++ p :: L2))) in Hf. by rewrite of_type_mid, decide_True in Hf. }
  assert (of_type prs t0 (L1 ++ L2) = of_type prs t0 L1 ++ of_type prs t0 L2) as Eapp by apply filter_app.
  assert (∀ t, t ≠ t0 → 0 <= t < NSIZES → pchain prs next_samesize (default 0 (sizebases h !! Z.to_nat t))
    (of_type prs t (L1 ++ L2))) as Hother.
  { intros t Hne Ht. specialize (Hsame t Ht). by rewrite of_type_mid, decide_False in Hsame by congruence. }
  destruct (of_type prs t0 L1) as [|a l1] eqn:E1; cbn [app] in *.
  - cbn [pchain] in Hc. destruct Hc as (Eh & Hp0 & pr' & Hpr' & Hc). rewrite Hpr in Hpr'. injection Hpr' as <-. rewrite Eh.
    rewrite (proj2 (Z.eqb_neq _ _)), Z.eqb_refl by done. unfold get_pr, set_sizebase. wsteps.
    exists prs, (<[Z.to_nat t0 := next_samesize pr]> (sizebases h)).
    match goal with Hx : pagerefs (k_heap s) !! p = Some ?y |- _ =>
      assert (y = pr) as -> by (unfold prs, h in Hpr; congruence) end.
    split; [destruct s as [? ? ? []]; reflexivity |]. split; [by rewrite length_insert |].
    split; [apply relinked_refl |]. split; [by intros x px Hx; exists px |]. intros t Ht.
    destruct (decide (t = t0)) as [-> | Hne].
    + rewrite list_lookup_insert_eq by lia. by rewrite Eapp.
    + rewrite list_lookup_insert_ne by lia. by apply Hother.
  - assert (head = a) as Eh by apply Hc. assert (a ≠ 0) as Ha0 by apply Hc. rewrite Eh in *.
    assert (a ≠ p) as Hap. { intros ->. apply NoDup_cons in Hd' as [Hn _]. apply Hn, elem_of_app. right. left. }
    rewrite !(proj2 (Z.eqb_neq _ _)) by done.
    eapply W_mono; [apply (unlink_from_wlp _ with_next_samesize); [done | exact Hc | exact Hd'] |].
    cbn beta. intros _ s' (x & px & v & Hx & Hpx & -> & Hc').
    eexists _, (sizebases h). split; [destruct s as [? ? ? []]; reflexivity |]. split; [done |].
    split; [by eapply relinked_insert |]. split; [by eapply keeps_insert |]. intros t Ht.
    destruct (decide (t = t0)) as [-> | Hne]; [fold head; by rewrite Eh, Eapp |].
    eapply pchain_ext; [| by apply Hother]. intros y py Hy Hpy. exists py.
    rewrite lookup_insert_ne; [done |]. intros <-. rewrite <- E1 in Hx.
    apply of_type_elem in Hx as [Hx _], Hy as [Hy _]. congruence.
Qed.

(** The second loop, on the list of all pages. *)
Lemma unlink_all n L1 L2 p s :
  let h := k_heap s in let prs := pagerefs h in
  NoDup (L1 ++ p :: L2) → pchain prs next_all (allbase h) (L1 ++ p :: L2) →
  W (if allbase h =? 0 then mret tt
     else if allbase h =? p then pr ← get_pr p; modify (upd_heap (with_allbase (next_all pr)))
     else unlink_from n next_all with_next_all (allbase h) p)
    (λ _ s1, ∃ prs1 ab, s1 = upd_heap (λ h, with_pagerefs prs1 (with_allbase ab h)) s ∧
       relinked prs prs1 ∧ keeps_field next_samesize prs prs1 ∧ pchain prs1 next_all ab (L1 ++ L2)) s.
Proof using.
  intros h prs Hd Hc. destruct L1 as [|a l1]; cbn [app] in *.
  - cbn [pchain] in Hc. destruct Hc as (Eh & Hp0 & pr & Hpr & Hc). rewrite Eh.
    rewrite (proj2 (Z.eqb_neq _ _)), Z.eqb_refl by done. unfold get_pr. wsteps.
    match goal with Hx : pagerefs (k_heap s) !! p = Some ?y |- _ =>
      assert (y = pr) as -> by (unfold prs, h in Hpr; congruence) end.
    exists prs, (next_all pr). split; [destruct s as [? ? ? []]; reflexivity |].
    split; [apply relinked_refl |]. split; [by intros x px Hx; exists px | done].
  - assert (allbase h = a) as Eh by apply Hc. assert (a ≠ 0) as Ha0 by apply Hc. rewrite Eh in *.
    assert (a ≠ p) as Hap. { intros ->. apply NoDup_cons in Hd as [Hn _]. apply Hn, elem_of_app. right. left. }
    rewrite !(proj2 (Z.eqb_neq _ _)) by done.
    eapply W_mono; [apply (unlink_from_wlp _ with_next_all); [done | exact Hc | exact Hd] |].
    cbn beta. intros _ s' (x & px & v & Hx & Hpx & -> & Hc').
    eexists _, (allbase h). split; [destruct s as [? ? ? []]; reflexivity |].
    split; [by eapply relinked_insert |]. split; [by eapply keeps_insert |]. by rewrite Eh.
Qed.

Lemma keeps_chain fld prs prs' a l : keeps_field fld prs prs' → pchain prs fld a l → pchain prs' fld a l.
Proof using. intros Hk. apply pchain_ext. intros q pr _ Hq. by apply Hk. Qed.

Lemma remove_lists_wlp L1 L2 p pr FL N g s :
  let h := k_heap s in
  HI (L1 ++ p :: L2) FL N g s → pagerefs h !! p = Some pr →
  W (remove_lists p (PR_BLOCKTYPE pr)) (λ _ s', ∃ h', s' = upd_heap (λ _, h') s ∧
      kheaproots h' = kheaproots h ∧ kmalloc_spinlock h' = kmalloc_spinlock h ∧
      length (sizebases h') = 8%nat ∧ relinked (pagerefs h) (pagerefs h') ∧
      pchain (pagerefs h') next_all (allbase h') (L1 ++ L2) ∧
      ∀ t, 0 <= t < NSIZES →
        pchain (pagerefs h') next_samesize (default 0 (sizebases h' !! Z.to_nat t))
          (of_type (pagerefs h) t (L1 ++ L2))) s.
Proof using.
  intros h H Hpr.
  assert (0 <= PR_BLOCKTYPE pr < NSIZES) as Rt.
  { apply (pk_type _ _ _ (hi_page _ _ _ _ _ _ _ _ H p pr ltac:(apply elem_of_app; right; left) Hpr)). }
  unfold remove_lists, get_sizebase. wsteps.
  eapply W_mono; [eapply (unlink_samesize _ L1 L2 p pr s); [apply H | apply H | done | done | apply H] |].
  cbn beta. intros _ s1 (prs1 & sb1 & -> & Hsb & Hrel1 & Hk1 & Hs1). wsteps.
  eapply W_mono; [eapply unlink_all; [apply H | eapply keeps_chain; [exact Hk1 | apply H]] |].
  cbn beta. intros _ s2 (prs2 & ab & -> & Hrel2 & Hk2 & Hc2).
  exists (with_pagerefs prs2 (with_allbase ab (with_pagerefs prs1 (with_sizebases sb1 h)))).
  split; [done |]. split; [done |]. split; [done |]. split; [done |]. cbn.
  split; [by eapply relinked_trans |]. split; [done |]. intros t Ht. eapply keeps_chain; [exact Hk2 | by apply Hs1].
Qed.

(** ** Freeing a pageref *)

Lemma freepageref_wlp L FL N g s p r i root k n :
  HI L FL N g s → kheaproots (k_heap s) !! r = Some root → root_page root ≠ 0 →
  0 <= i < NPAGEREFS_PER_PAGE → p = root_page root + SIZEOF_PAGEREF * i →
  (Z.of_nat r, i) ∉ gR g → p ∉ L → 0 <= k <= Z.of_nat r →
  W (freepageref_from n k p) (λ _ s', ∃ h', s' = upd_heap (λ _, h') s ∧
      kmalloc_spinlock h' = kmalloc_spinlock (k_heap s) ∧
      heap_inv L FL N g (k_mem s) (main_PG (k_pt s)) (frame_list (k_pt s)) h') s.
Proof using.
  intros H Hr H0 Hi Ep HnR HnL. revert k. induction n as [|n IH]; intros k Hk; [done |].
  cbn [freepageref_from]. unfold get_root. wsteps.
  match goal with Hx : kheaproots (k_heap s) !! _ = Some ?y |- _ => rename y into rk; rename Hx into Hrk end.
  destruct (root_page rk =? 0) eqn:E0; zbool.
  { wsteps. apply IH. assert (k ≠ Z.of_nat r); [| lia]. intros ->. rewrite Nat2Z.id in Hrk. congruence. }
  destruct (root_frame H r root Hr H0) as (f & Hf & Ef), (root_frame H _ rk Hrk E0) as (f' & Hf' & Ef').
  pose proof (hi_ram _ _ _ _ _ _ _ _ H) as Hram.
  change NPAGEREFS_PER_PAGE with 256 in *. unfold SIZEOF_PAGEREF in *.
  assert ((p - root_page rk) / 16 = (f - f') * 256 + i) as Ej.
  { rewrite Ep, Ef, Ef'. unfold addr, PAGE_SIZE. symmetry. apply Z.div_unique with 0; lia. }
  rewrite Ej. destruct (Z.ltb_spec (u32 ((f - f') * 256 + i)) 256) as [Hlt | Hge].
  - assert (f = f') as <-.
    { destruct (Z.lt_trichotomy f f') as [Hl | [Hl | Hl]]; [| done |]; exfalso; unfold u32, wrap in Hlt.
      - rewrite <- (Z.mod_unique ((f - f') * 256 + i) (2 ^ 32) (-1) ((f - f') * 256 + i + 2 ^ 32)) in Hlt; lia.
      - rewrite Z.mod_small in Hlt; lia. }
    assert (Z.to_nat k = r) as Ek.
    { eapply (hi_rootinj _ _ _ _ _ _ _ _ H); [done | done | done | congruence]. }
    rewrite Ek, Hr in Hrk. injection Hrk as <-. rewrite Z.sub_diag, Z.mul_0_l, Z.add_0_l in *.
    rewrite (u32_small i) by (unfold fits; lia). unfold set_root. wsteps.
    eexists. split; [reflexivity |]. split; [done |].
    assert (i / 32 < 8) by (apply Z.div_lt_upper_bound; lia). assert (0 <= i / 32) by (apply Z.div_pos; lia).
    assert (Z.of_nat (Z.to_nat (i / 32)) * 32 + i mod 32 = i) as Ei.
    { rewrite Z2Nat.id by done. pose proof (Z.div_mod i 32). lia. }
    rewrite Ek. apply (inv_free_slot H r root (Z.to_nat (i / 32)) (i mod 32)); [done | lia | apply Z.mod_pos_bound; lia | |];
      rewrite Ei; [done |]. unfold SIZEOF_PAGEREF. by rewrite <- Ep.
  - apply IH. assert (k ≠ Z.of_nat r); [| lia]. intros ->. rewrite Nat2Z.id in Hrk. simplify_eq.
    rewrite Ef' in Ef. apply addr_inj in Ef. subst f'. rewrite Z.sub_diag in Hge.
    rewrite u32_small in Hge by (unfold fits; lia). lia.
Qed.

(** ** Releasing a block *)

Section release.
Context (F : Z → K unit) (HF : frees F).

(** A page all of whose blocks are free goes back to the page allocator. *)
Lemma release_page_safe L FL N g s q pr :
  Ok true g s → HI L FL N g s → q ∈ L → pagerefs (k_heap s) !! q = Some pr →
  Z.of_nat (length (FL q)) = PAGE_SIZE / size_of (PR_BLOCKTYPE pr) →
  W (remove_lists q (PR_BLOCKTYPE pr) ;; freepageref q ;; unlock_kmalloc ;; F (PR_PAGEADDR pr) ;; mret 0)
    (λ r s', r = 0 ∧ Ok false g s') s.
Proof using HF.
  intros Hok H Hq Hpr Hfull. pose proof Hok as (_ & Hl & Hc & _).
  destruct (hi_slot _ _ _ _ _ _ _ _ H q Hq) as (r & i & root & Hr & H0 & Hi & Eq & _ & HnR).
  apply list_elem_of_split in Hq as (L1 & L2 & ->).
  destruct (nodup_mid _ _ _ (hi_nodup _ _ _ _ _ _ _ _ H)) as [Hn1 Hn2].
  wcall remove_lists_wlp; [exact H | done |].
  intros _ s1 (h' & -> & Er & El & Esz & Hrel & Hall & Hsame).
  destruct (inv_remove_page L1 L2 q pr FL N g _ _ _ _ h' H Hpr Hfull Er Esz Hrel Hall Hsame)
    as (f & e & Ef & Hker & HnX & H'). rewrite Ef.
  unfold freepageref. wcall freepageref_wlp.
  { exact H'. } { cbn. rewrite Er. exact Hr. } { done. } { done. } { done. } { done. }
  { intros Hin%elem_of_app. naive_solver. } { lia. }
  intros _ s2 (h2 & -> & El2 & H2). cbn in El2, H2.
  assert (Ok true (add_X f e g) (upd_heap (λ _, h2) (upd_heap (λ _, h') s))) as Hok2.
  { eapply ok_step; [exact Hok | done | cbn; congruence | exact H2 | | done].
    intros x Hx. apply owned_add_X; [done | by apply Hc]. }
  wcall kheap_unlock_ok; [exact Hok2 |]. intros _ s3 Hok3. wcall HF; [done | done | exact Hok3 |].
  intros _ s4 Hok4. wstep. done.
Qed.

Lemma subpage_kfree_safe g b t s :
  gB g !! b = None → covers g → Ok false (add_B b t g) s →
  W (subpage_kfree F b) (λ r s', r = 0 ∧ Ok false g s') s.
Proof using HF.
  intros HnB Hcov Hok. unfold subpage_kfree. wcall kheap_lock_ok; [done |]. intros _ s1 Hok1. wstep. wstep. wstep. wstep. wstep.
  pose proof Hok1 as ((_ & L & FL & N & H) & Hl & _).
  destruct (owner_ok s1 b t H (lookup_insert_eq _ _ _)) as (q & pr & Hq & Hpr & Ht & Rt & Hblk & Hnf).
  pose proof (proj1 Hblk) as Hin.
  unfold wlp at 1. rewrite (find_owner_block s1 b q pr H Hq Hpr Hin).
  pose proof (pchain_elem _ _ _ _ q (hi_all _ _ _ _ _ _ _ _ H) Hq) as [Hq0 _].
  rewrite (proj2 (Z.eqb_neq q 0)) by done. unfold get_pr. wsteps. simplify_eq.
  destruct (_ || _) eqn:Eg; [wstep |]. clear Eg.
  pose proof (hi_page _ _ _ _ _ _ _ _ H q pr Hq Hpr) as [_ Hnfree Hh _ Hbs Hd].
  set (m' := freed_mem (k_mem s1) b (PR_BLOCKTYPE pr) (hd 0 (FL q))).
  destruct (page_word_ok s1 q pr b H Hq Hpr Hin) as (_ & Hlo & _).
  assert (b ≠ 0) as Hb0 by zlia.
  pose proof (size_bounds _ Rt) as Hsz. pose proof (blocks_per_page _ Rt) as Hpp.
  assert (Z.of_nat (S (length (FL q))) <= PAGE_SIZE / size_of (PR_BLOCKTYPE pr)) as Hle.
  { apply (blocks_bound (PR_PAGEADDR pr) _ (b :: FL q)); [done | | by constructor]. by constructor. }
  assert (u16 (nfree pr + 1) = Z.of_nat (S (length (FL q)))) as Hnf1.
  { rewrite Hnfree. unfold u16, wrap. rewrite Z.mod_small; lia. }
  unfold fill_deadbeef. wstep. apply W_fill. intros _. wstep.
  replace (PR_PAGEADDR pr + (b - PR_PAGEADDR pr)) with b by lia. rewrite Hnf1.
  eapply W_mono with (Q := λ _ s2, s2 = with_k_mem m' s1).
  { unfold m', freed_mem. destruct (FL q) as [|b' fl] eqn:Efl.
    - rewrite Hh, Z.eqb_refl. apply W_store. done.
    - apply Forall_inv in Hbs as [Rb' _]. rewrite Hh, (proj2 (Z.eqb_neq _ _)) by (unfold INVALID_OFFSET; zlia).
      replace (PR_PAGEADDR pr + (b' - PR_PAGEADDR pr)) with b' by lia. wstep. apply W_store. intros _. by wstep. }
  cbn beta. intros _ s2 ->. unfold set_pr. wsteps.
  set (sn := upd_heap _ _).
  pose proof (inv_free_block _ _ _ _ _ m' _ _ _ q pr b (PR_BLOCKTYPE pr) H Hq Hpr (lookup_insert_eq _ _ _) Hin) as H2.
  rewrite drop_add_B in H2 by done.
  assert (heap_inv L (fn_upd FL q (b :: FL q)) N g m' (main_PG (k_pt s1)) (frame_list (k_pt s1)) (k_heap sn)) as H3.
  { apply H2; [| | done].
    - intros x Hx. by apply freed_mem_outside.
    - unfold m', freed_mem, mem_upd. by rewrite Z.eqb_refl. }
  assert (Ok true g sn) as Hok3.
  { eapply ok_step; [exact Hok1 | done | done | exact H3 | done |]. intros x Hx. apply freed_mem_outside; [done |].
    eapply owned_off_block; [exact H | done | by apply Hcov]. }
  destruct (Z.eqb_spec (Z.of_nat (S (length (FL q)))) (PAGE_SIZE / size_of (PR_BLOCKTYPE pr))) as [E | E].
  - assert (pagerefs (k_heap sn) !! q = Some (set_list pr (b :: FL q))) as Hpr2 by (simpl; apply lookup_insert_eq).
    apply (release_page_safe _ _ _ g sn q _ Hok3 H3 Hq Hpr2).
    unfold fn_upd. rewrite decide_True by done. exact E.
  - wcall kheap_unlock_ok; [exact Hok3 |]. intros _ s4 Hok4. by wstep.
Qed.

(** Freeing an owned block. *)
Lemma kfree_block_safe g b t s :
  gB g !! b = None → covers g → Ok false (add_B b t g) s → W (kfree_ F b) (λ _, Ok false g) s.
Proof using HF.
  intros HnB Hcov Hok. unfold kfree_.
  pose proof Hok as ((_ & L & FL & N & H) & _).
  assert ((b =? 0) = false) as ->.
  { apply Z.eqb_neq. pose proof (live_pos H t b (hi_B _ _ _ _ _ _ _ _ H b t (lookup_insert_eq _ _ _))). zlia. }
  wcall subpage_kfree_safe; [done | done | exact Hok |]. intros r s1 [-> Hok1]. cbn [Z.eqb negb]. by wstep.
Qed.

(** Freeing an owned frame. *)
Lemma kfree_frame_safe g f e s :
  gX g !! f = None → covers g → Ok false (add_X f e g) s → W (kfree_ F (addr f)) (λ _, Ok false g) s.
Proof using HF.
  intros HnX Hcov Hok. unfold kfree_.
  destruct (addr_nonzero f _ e _ _ (lookup_insert_eq _ _ _) Hok) as (Hnz & Ha & _).
  rewrite (proj2 (Z.eqb_neq _ _)) by done. wstep.
  eapply W_mono with (Q := λ r s', r = -1 ∧ Ok false (add_X f e g) s').
  { unfold subpage_kfree. wcall kheap_lock_ok; [done |]. intros _ s1 Hok1. wstep. wstep. wstep. wstep. wstep.
    pose proof Hok1 as ((_ & L & FL & N & H) & _).
    eapply W_mono; [eapply find_owner_wlp, (hi_all _ _ _ _ _ _ _ _ H) |]. cbn beta.
    intros p s2 [-> [[-> _] | (Hp & pr & Hpr & Hin)]].
    - rewrite Z.eqb_refl. wcall kheap_unlock_ok; [done |]. intros _ s3 Hok3. by wstep.
    - exfalso. destruct (hi_X _ _ _ _ _ _ _ _ H f e (lookup_insert_eq _ _ _)) as (_ & Hno & _).
      destruct (hi_pageframe H p Hp) as (f' & Hf' & E). apply (Hno p Hp). rewrite E.
      unfold pageof in E. rewrite Hpr in E. rewrite E in Hin. pose proof (hi_ram _ _ _ _ _ _ _ _ H).
      rewrite u32_small in Hin by (unfold addr; zlia). unfold addr in *. f_equal. zlia. }
  cbn beta. intros r s1 [-> Hok1]. cbn [Z.eqb negb]. wsteps. by eapply HF.
Qed.
End release.

(** ** The block allocator *)

Lemma kmalloc_safe_ A F sz g s :
  allocs A → frees F → 0 <= sz <= PAGE_SIZE → Ok false g s →
  W (kmalloc_ A F sz) (λ a s', (a = 0 ∧ Ok false g s') ∨
    (∃ t, sz < LARGEST_SUBPAGE_SIZE ∧ first_index (λ x, sz <=? x) sizes = Some t ∧
       gB g !! a = None ∧ Ok false (add_B a (Z.of_nat t) g) s') ∨
    (∃ f e, LARGEST_SUBPAGE_SIZE <= sz ∧ a = addr f ∧ kernel_owned e ∧ gX g !! f = None ∧
       Ok false (add_X f e g) s')) s.
Proof using.
  intros HA HF Hsz Hok. unfold kmalloc_. destruct (Z.leb_spec LARGEST_SUBPAGE_SIZE sz) as [Hbig | Hsmall].
  - assert (u32 (sz + PAGE_SIZE - 1) / PAGE_SIZE = 1) as ->.
    { unfold LARGEST_SUBPAGE_SIZE in Hbig. rewrite u32_small by zlia. symmetry.
      apply Z.div_unique with (sz - 1); zlia. }
    wcall HA; [done |]. intros a s1 [[-> Hok1] | (f & e & -> & Hker & Hn & Hok1)].
    + rewrite Z.eqb_refl. wstep. by left.
    + destruct (addr_nonzero f _ e _ _ (lookup_insert_eq _ _ _) Hok1) as (Hnz & _).
      rewrite (proj2 (Z.eqb_neq _ _)) by done. wsteps. right. right. exists f, e. done.
  - eapply W_mono; [by apply subpage_kmalloc_safe |]. cbn beta. intros a s1 [? | (t & ? & ? & ?)]; [by left |].
    right. left. exists t. done.
Qed.

(** Putting a frame on the frame list. *)
Definition pushes (T : Z → positionList → K Z) : Prop := ∀ g f s,
  f ∉ gW g → Ok false (add_W f g) s → W (T f addTOP) (λ _, Ok false g) s.

Lemma write_block_safe lk g b t a w s :
  gB g !! b = None → covers g → Ok lk (add_B b t g) s → b <= a < b + size_of t →
  Ok lk (add_B b t g) (with_k_mem (mem_upd (k_mem s) a w) s).
Proof using.
  intros Hn Hcov Hok Ha. pose proof Hok as ((_ & L & FL & N & H) & Hl & Hc & _).
  eapply ok_step; [exact Hok | done | done | | done |].
  - eapply (inv_write_block H); [apply lookup_insert_eq |]. intros x Hx. cbn. unfold mem_upd.
    destruct (Z.eqb_spec x a); [lia | done].
  - intros x Hx. cbn. unfold mem_upd. destruct (Z.eqb_spec x a) as [-> |]; [| done]. exfalso.
    by eapply owned_off_block; [exact H | done | apply Hcov |].
Qed.

Lemma addToFrameList_safe A F :
  allocs A → frees F → pushes (addToFrameList_ (kmalloc_ A F)).
Proof using.
  intros HA HF g f s Hn Hok. unfold addToFrameList_, new_frame_node, push_frame.
  pose proof Hok as (_ & _ & Hcov & _). change (covers g) in Hcov.
  wstep. wcall kmalloc_safe_; [exact HA | exact HF | unfold SIZEOF_FRAME_NODE; zlia | done |].
  intros a s1 [[-> _] | [(t & _ & Et & HnB & Hok1) | (f' & e & Hbig & _)]]; [rewrite Z.eqb_refl; wstep | | done].
  assert (t = 0%nat) as -> by (vm_compute in Et; congruence).
  pose proof Hok1 as ((_ & L1 & FL1 & N1 & H1) & _).
  pose proof (live_pos H1 0 a (hi_B _ _ _ _ _ _ _ _ H1 a 0 (lookup_insert_eq _ _ _))) as Hpos.
  rewrite (proj2 (Z.eqb_neq a 0)) by zlia. destruct (a =? 0xdeadeef) eqn:Ea; [wstep |].
  wstep. apply W_store. intros _. wsteps. apply W_store. intros _. wsteps.
  change (covers (add_W f g)) in Hcov. change (size_of (Z.of_nat 0)) with 16 in *.
  pose proof (write_block_safe _ _ a 0 a f _ HnB Hcov Hok1 ltac:(change (size_of 0) with 16; lia)) as Hok2.
  pose proof (write_block_safe _ _ a 0 (a + 4) (frame_list (k_pt s1)) _ HnB Hcov Hok2 ltac:(change (size_of 0) with 16; lia)) as Hok3.
  pose proof Hok3 as ((_ & L & FL & N & Hi3) & Hl & _).
  eapply ok_step; [exact Hok3 | done | done | | done | done].
  assert (drop_B a (drop_W f (add_B a 0 (add_W f g))) = g) as <-.
  { change (drop_W f (add_B a 0 (add_W f g))) with (add_B a 0 (drop_W f (add_W f g))).
    rewrite drop_add_W, drop_add_B by done. done. }
  apply (inv_push Hi3); [apply lookup_insert_eq | simpl; set_solver | |]; cbn; unfold mem_upd.
  - rewrite (proj2 (Z.eqb_neq a (a + 4))), Z.eqb_refl by lia. done.
  - by rewrite Z.eqb_refl.
Qed.

(** ** The page allocator *)

Lemma take_frame_safe F g s :
  frees F → Ok true g s → frame_list (k_pt s) ≠ 0 →
  W (take_frame (kfree_ F) 0) (λ a s', ∃ f e, a = f * PAGE_SIZE ∧ 0 <= f < 2 ^ 17 ∧ kernel_owned e ∧
      gX g !! f = None ∧ Ok true (add_X f e g) s') s.
Proof using.
  intros HF Hok Hne. pose proof Hok as ((_ & L & FL & N & H) & Hl & Hc & _).
  destruct N as [|[a f] N'].
  { pose proof (hi_frames _ _ _ _ _ _ _ _ H) as E. done. }
  pose proof (hi_frames _ _ _ _ _ _ _ _ H) as (Ea & _).
  destruct (hi_node _ _ _ _ _ _ _ _ H a f ltac:(left)) as (Emf & ((Rf & Rf') & e0 & He0 & Hv0) & _ & HnB & _).
  assert (gX g !! f = None) as HnX.
  { destruct (gX g !! f) as [e|] eqn:E; [| done]. exfalso.
    destruct (hi_X _ _ _ _ _ _ _ _ H f e E) as ((_ & ? & ?) & _). congruence. }
  pose proof (hi_ram _ _ _ _ _ _ _ _ H) as Hram.
  unfold take_frame. rewrite Z.eqb_refl. wsteps. rewrite Ea. apply W_load. intros _. cbn [fst]. rewrite Emf. wsteps.
  match goal with Hx : main_PG (k_pt s) !! _ = Some ?y |- _ => assert (y = e0) as -> by congruence end.
  rewrite Hv0. wsteps.
  rewrite (u32_small (f * 4096)) by zlia.
  case_if; [wstep |]. case_if; [wstep |]. wsteps. apply W_load. intros _. wsteps.
  set (e := mkPT _ _ _ _ _). set (sn := upd_pt _ _).
  assert (Ok true (add_B a 0 (add_X f e g)) sn) as Hok1.
  { eapply ok_step; [exact Hok | done | done | exact (inv_pop H a f N' e eq_refl eq_refl) | | done].
    intros x Hx. apply owned_add_B; [done |]. apply owned_add_X; [done | by apply Hc]. }
  eapply W_mono; [apply kheap_unlock_ok, Hok1 |]. cbn beta. intros _ s2 Hok2.
  wcall (kfree_block_safe F HF (add_X f e g)); [done | | exact Hok2 |].
  { intros x Hx. apply owned_add_X; [done | by apply Hc]. }
  intros _ s3 Hok3. wcall kheap_lock_ok; [done |]. intros _ s4 Hok4. wstep. exists f, e. split; [done |]. split; [lia |]. done.
Qed.

Lemma alloc_kpages_safe F : frees F → allocs (alloc_kpages_ (kfree_ F)).
Proof using.
  intros HF g s Hok. unfold alloc_kpages_. wcall kheap_lock_ok; [done |]. intros _ s1 Hok1. wsteps.
  pose proof Hok1 as ((Hst & _) & _ & Hc & _). rewrite Hst. cbn [negb].
  unfold check_free_frame. wsteps. destruct (Z.eqb_spec (frame_list (k_pt s1)) 0) as [E0 | E0].
  { wstep. cbn [u8 wrap]. change (u8 0 =? 0) with true. cbn iota. wcall kheap_unlock_ok; [done |].
    intros _ s2 Hok2. wstep. by left. }
  change (Z.to_nat (1 - 1)) with 0%nat. cbn [check_loop]. wstep.
  change (u8 1 =? 0) with false. change (u8 1 =? 1) with true. cbn iota.
  change (Z.to_nat 1) with 1%nat. cbn [take_frames]. wstep. wcall take_frame_safe; [exact HF | exact Hok1 | done |].
  intros a s2 (f & e & -> & Rf & Hker & HnX & Hok2). wstep.
  assert (PADDR_TO_KVADDR (f * PAGE_SIZE) = addr f) as ->.
  { unfold PADDR_TO_KVADDR, addr. rewrite u32_small by zlia. lia. }
  wcall kheap_unlock_ok; [done |]. intros _ s3 Hok3. wstep. apply W_fill. intros _. wstep. right. exists f, e.
  split; [done |]. split; [done |]. split; [done |].
  pose proof Hok3 as ((_ & L & FL & N & Hi3) & Hl & Hc3 & _).
  assert (∀ x, ¬ (addr f <= x < addr f + PAGE_SIZE) → mem_fill (k_mem s3) (addr f) PAGE_SIZE 0 x = k_mem s3 x) as Hout.
  { intros x Hx. unfold mem_fill. destruct (Z.leb_spec (addr f) x), (Z.ltb_spec x (addr f + PAGE_SIZE)); cbn; done || lia. }
  eapply ok_step; [exact Hok3 | done | done | | done |].
  - apply (inv_write_page Hi3 _ f); [| done].
    by destruct (hi_X _ _ _ _ _ _ _ _ Hi3 f e (lookup_insert_eq _ _ _)) as (_ & ? & _).
  - intros x Hx. apply Hout. eapply owned_off_frame; [exact Hi3 | done | by apply Hc].
Qed.

Lemma removeTLB_other va s :
  W (on_tlb (removeTLBv1 va)) (λ r s', r = 0 ∧ ∃ t, s' = with_k_tlb t s) s.
Proof using.
  unfold wlp, on_tlb, zoom, removeTLBv1. mrun.
  destruct (tlb_probe _ 0 (k_tlb s) =? noEntryFound); eauto.
Qed.

Lemma free_kpages_safe T : pushes T → frees (free_kpages_ T).
Proof using.
  intros HT g f e s HnX Hcov Hok. unfold free_kpages_. wcall kheap_lock_ok; [done |]. intros _ s1 Hok1. wsteps.
  pose proof Hok1 as ((Hst & L & FL & N & Hi3) & _ & _ & _). rewrite Hst. cbn [negb].
  destruct (hi_X _ _ _ _ _ _ _ _ Hi3 f e (lookup_insert_eq _ _ _)) as ((Rf & He & Hv) & Hnp & _).
  destruct (addr_frame f _ Rf (hi_ram _ _ _ _ _ _ _ _ Hi3)) as (E1 & E2 & _). rewrite E1, E2. wsteps.
  match goal with Hx : main_PG (k_pt s1) !! _ = Some ?y |- _ => assert (y = e) as -> by congruence end.
  rewrite Hv. cbn [negb]. wsteps.
  eapply W_mono with (Q := λ _ s2, ∃ t, s2 = with_k_tlb t s1).
  { destruct (pid e =? 0); cbn [negb]; [wstep; exists (k_tlb s1); by destruct s1 |].
    wstep. eapply W_mono; [apply removeTLB_other |]. cbn beta. intros r s2 [-> Ht]. cbn [Z.eqb negb]. by wstep. }
  cbn beta. intros _ s2 [t ->]. wsteps. apply W_fill. intros _. wstep.
  set (e' := mkPT _ _ _ _ _). set (sn := with_k_mem _ _).
  assert (∀ x, ¬ (addr f <= x < addr f + PAGE_SIZE) → k_mem sn x = k_mem s1 x) as Hout.
  { intros x Hx. cbn. unfold mem_fill. destruct (Z.leb_spec (addr f) x), (Z.ltb_spec x (addr f + PAGE_SIZE)); cbn; done || lia. }
  assert (f ∉ gW g) as HnW.
  { intros HW. destruct (hi_W _ _ _ _ _ _ _ _ Hi3 f HW) as (_ & y & Hy & Hvy). congruence. }
  assert (Ok true (add_W f g) sn) as Hok2.
  { eapply ok_step; [exact Hok1 | done | | | exact Hcov |].
    - apply Hok1.
    - pose proof (inv_release Hi3 f e e' (lookup_insert_eq _ _ _) eq_refl) as H2. rewrite drop_add_X in H2 by done.
      apply (inv_write_page H2 _ f); [done | exact Hout].
    - intros x Hx. apply Hout. eapply owned_off_frame; [exact Hi3 | done | by apply Hcov]. }
  eapply W_mono; [apply kheap_unlock_ok, Hok2 |]. cbn beta. intros _ s3 Hok3. wcall HT; [done | exact Hok3 |]. intros r s4 Hok4. by wstep.
Qed.

(** ** The two together, at every recursion bound *)

Lemma kpages_safe n : allocs (alloc_kpages n) ∧ frees (free_kpages n).
Proof using.
  induction n as [|n [HA HF]]; [split; done |]. split; cbn [alloc_kpages free_kpages].
  - by apply alloc_kpages_safe.
  - by apply free_kpages_safe, addToFrameList_safe.
Qed.
End safe.

(** ** Clients *)

Section client.
Context {FS : Type}.
Implicit Types (s : kstate FS) (g : ghost).

(** What a request of [sz] bytes that returned [a] adds to what the clients own:
    nothing, a block of its size class, or a frame. *)
Definition got (sz a : Z) s g : ghost :=
  if a =? 0 then g
  else if sz <? LARGEST_SUBPAGE_SIZE then
    add_B a (Z.of_nat (default 0%nat (first_index (λ x, sz <=? x) sizes))) g
  else
    let f := (a - MIPS_KSEG0) / PAGE_SIZE in
    add_X f (default (mkPT false false 0 0 0) (main_PG (k_pt s) !! Z.to_nat f)) g.

(** One call of a client of the allocators, or one store of a client to memory it
    owns; the label is the address stored to. *)
Inductive heap_step (fuel : nat) : option Z → ghost * kstate FS → ghost * kstate FS → Prop :=
| step_kmalloc g s sz a s' :
    0 <= sz <= PAGE_SIZE → kmalloc fuel sz s = Done a s' →
    heap_step fuel None (g, s) (got sz a s' g, s')
| step_alloc_kpages g s a s' :
    alloc_kpages fuel 1 s = Done a s' → heap_step fuel None (g, s) (got PAGE_SIZE a s' g, s')
| step_kfree_block g s b t s' :
    gB g !! b = Some t → kfree fuel b s = Done tt s' → heap_step fuel None (g, s) (drop_B b g, s')
| step_kfree_frame g s f e s' :
    gX g !! f = Some e → kfree fuel (addr f) s = Done tt s' →
    heap_step fuel None (g, s) (drop_X f g, s')
| step_free_kpages g s f e s' :
    gX g !! f = Some e → free_kpages fuel (addr f) s = Done tt s' →
    heap_step fuel None (g, s) (drop_X f g, s')
| step_store g s x w :
    owned g x → heap_step fuel (Some x) (g, s) (g, with_k_mem (mem_upd (k_mem s) x w) s).

Lemma got_frame P m0 f e s g sz :
  LARGEST_SUBPAGE_SIZE <= sz → Ok P m0 false (add_X f e g) s → got sz (addr f) s g = add_X f e g.
Proof using.
  intros Hsz Hok. destruct (addr_nonzero _ _ f _ e _ _ (lookup_insert_eq _ _ _) Hok) as (Hnz & _).
  destruct Hok as ((_ & L & FL & N & H) & _). destruct (hi_X _ _ _ _ _ _ _ _ H f e (lookup_insert_eq _ _ _)) as ((_ & He & _) & _).
  unfold got. rewrite (proj2 (Z.eqb_neq _ _)), (proj2 (Z.ltb_ge _ _)) by done.
  replace (addr f - MIPS_KSEG0) with (f * PAGE_SIZE) by (unfold addr; lia). rewrite Z.div_mul by done. by rewrite He.
Qed.

Lemma add_drop_B b t g : gB g !! b = Some t → add_B b t (drop_B b g) = g.
Proof using. intros Hb. unfold add_B, drop_B. simpl. rewrite insert_delete_id by done. by destruct g. Qed.
Lemma add_drop_X f e g : gX g !! f = Some e → add_X f e (drop_X f g) = g.
Proof using. intros Hb. unfold add_X, drop_X. simpl. rewrite insert_delete_id by done. by destruct g. Qed.

(** Every step keeps the invariant, and the contents of a set of addresses that
    are owned before and after and not stored to. *)
Lemma heap_step_ok P m0 fuel l c c' :
  heap_step fuel l c c' → Ok P m0 false c.1 c.2 → covers P c'.1 → (∀ x, l = Some x → ¬ P x) →
  Ok P m0 false c'.1 c'.2.
Proof using.
  intros Hstep Hok Hcov Hst. destruct (kpages_safe (FS := FS) P m0 fuel) as [HA HF].
  destruct Hstep as [g s sz a s' Hsz E | g s a s' E | g s b t s' Hb E | g s f e s' Hf E | g s f e s' Hf E | g s x w Hx];
    cbn [fst snd] in *.
  - pose proof (kmalloc_safe_ P m0 _ _ sz g s HA HF Hsz Hok) as HW. apply (wlp_done _ _ _ _ _ _ E) in HW.
    destruct HW as [[-> Hok2] | [(t & Hlt & Et & Hn & Hok2) | (f & e & Hbig & -> & _ & _ & Hok2)]]; [done | |].
    + pose proof Hok2 as ((_ & L & FL & N & H) & _).
      pose proof (live_pos H _ a (hi_B _ _ _ _ _ _ _ _ H a _ (lookup_insert_eq _ _ _))) as Hpos.
      unfold got. rewrite (proj2 (Z.eqb_neq _ _)), (proj2 (Z.ltb_lt _ _)), Et by (done || zlia). done.
    + by erewrite got_frame.
  - pose proof (HA g s Hok) as HW. apply (wlp_done _ _ _ _ _ _ E) in HW.
    destruct HW as [[-> Hok2] | (f & e & -> & _ & _ & Hok2)]; [done |]. by erewrite got_frame.
  - rewrite <- (add_drop_B b t g Hb) in Hok.
    pose proof (kfree_block_safe P m0 _ HF _ b t s (lookup_delete_eq _ _) Hcov Hok) as HW. by apply (wlp_done _ _ _ _ _ _ E) in HW.
  - rewrite <- (add_drop_X f e g Hf) in Hok.
    pose proof (kfree_frame_safe P m0 _ HF _ f e s (lookup_delete_eq _ _) Hcov Hok) as HW. by apply (wlp_done _ _ _ _ _ _ E) in HW.
  - rewrite <- (add_drop_X f e g Hf) in Hok.
    pose proof (HF _ f e s (lookup_delete_eq _ _) Hcov Hok) as HW. by apply (wlp_done _ _ _ _ _ _ E) in HW.
  - pose proof Hok as ((_ & L & FL & N & H) & Hl & _).
    eapply ok_step; [exact Hok | done | done | | done |].
    + destruct Hx as [(b & t & Hb & Hr) | (f & e & Hf & Hr)].
      * apply (inv_write_block H _ b t Hb). intros y Hy. cbn. unfold mem_upd. destruct (Z.eqb_spec y x); [lia | done].
      * apply (inv_write_page H _ f); [by destruct (hi_X _ _ _ _ _ _ _ _ H f e Hf) as (_ & ? & _) |].
        intros y Hy. cbn. unfold mem_upd. destruct (Z.eqb_spec y x); [lia | done].
    + intros y Hy. cbn. unfold mem_upd. destruct (Z.eqb_spec y x) as [-> |]; [| done]. by destruct (Hst x eq_refl).
Qed.

(** The memory of the clients, as pieces. *)
Definition piece g (b n : Z) : Prop :=
  (∃ t, gB g !! b = Some t ∧ n = size_of t) ∨ (∃ f e, gX g !! f = Some e ∧ b = addr f ∧ n = PAGE_SIZE).

(** Pieces are aligned to their size, lie in physical memory and do not overlap. *)
Definition well_owned g s : Prop :=
  (∀ b n, piece g b n → 0 < n ∧ b mod n = 0 ∧ MIPS_KSEG0 <= b ∧
     b + n <= MIPS_KSEG0 + PAGE_SIZE * Z.of_nat (length (main_PG (k_pt s)))) ∧
  (∀ b n b' n', piece g b n → piece g b' n' → (b = b' ∧ n = n') ∨ b + n <= b' ∨ b' + n' <= b).

Lemma live_bounds L FL N g s b t :
  heap_inv L FL N g (k_mem s) (main_PG (k_pt s)) (frame_list (k_pt s)) (k_heap s) →
  live (pagerefs (k_heap s)) L FL t b →
  ∃ f, 0 <= f < Z.of_nat (length (main_PG (k_pt s))) ∧ 0 <= t < NSIZES ∧ block_in (addr f) t b ∧
    (∀ e, gX g !! f ≠ Some e).
Proof using.
  intros H (q & Hq & Ht & Hb & _). destruct (hi_pageframe H q Hq) as (f & Hf & E). exists f.
  rewrite <- E. split; [done |]. split; [rewrite <- Ht; by apply (hi_bt H) |]. split; [done |].
  intros e He. destruct (hi_X _ _ _ _ _ _ _ _ H f e He) as (_ & Hno & _). by apply (Hno q).
Qed.

Lemma inv_well_owned g s : Inv g s → well_owned g s.
Proof using.
  intros (_ & L & FL & N & H). pose proof (hi_ram _ _ _ _ _ _ _ _ H) as Hram. split.
  - intros b n [(t & Hb & ->) | (f & e & Hf & -> & ->)].
    + destruct (live_bounds L FL N g s b t H (hi_B _ _ _ _ _ _ _ _ H b t Hb)) as (f & Hf & Ht & Hin & _).
      destruct (addr_frame f _ Hf Hram) as (_ & _ & Ha & _).
      pose proof (size_bounds t Ht). pose proof (block_end _ _ _ Ht Hin).
      split; [lia |]. split; [by eapply block_aligned |]. destruct Hin as [Hin _]. unfold addr in *. zlia.
    + destruct (hi_X _ _ _ _ _ _ _ _ H f e Hf) as ((Rf & _) & _).
      destruct (addr_frame f _ Rf Hram) as (_ & _ & Ha & _). unfold addr in *. zlia.
  - intros b n b' n' Hp Hp'.
    destruct Hp as [(t & Hb & ->) | (f & e & Hf & -> & ->)], Hp' as [(t' & Hb' & ->) | (f' & e' & Hf' & -> & ->)].
    + destruct (decide (b = b')) as [<- | Hne]; [left; naive_solver | right].
      pose proof (hi_B _ _ _ _ _ _ _ _ H b t Hb) as Hl. pose proof (hi_B _ _ _ _ _ _ _ _ H b' t' Hb') as Hl'.
      destruct (live_bounds L FL N g s b t H Hl) as (_ & _ & Ht & _), (live_bounds L FL N g s b' t' H Hl') as (_ & _ & Ht' & _).
      pose proof (size_bounds t Ht). pose proof (size_bounds t' Ht').
      apply intervals_apart; [lia | lia |]. intros x x' Hx Hx'. by apply (live_disjoint H t t' b b').
    + destruct (live_bounds L FL N g s b t H (hi_B _ _ _ _ _ _ _ _ H b t Hb)) as (f & _ & Ht & Hin & Hno).
      assert (f ≠ f') as Hne by (intros ->; by apply (Hno e')).
      pose proof (block_end _ _ _ Ht Hin). destruct Hin as [Hin _]. unfold addr in *. zlia.
    + destruct (live_bounds L FL N g s b' t' H (hi_B _ _ _ _ _ _ _ _ H b' t' Hb')) as (f' & _ & Ht & Hin & Hno).
      assert (f ≠ f') as Hne by (intros ->; by apply (Hno e)).
      pose proof (block_end _ _ _ Ht Hin). destruct Hin as [Hin _]. unfold addr in *. zlia.
    + destruct (decide (f = f')) as [-> | Hne]; [by left |]. unfold addr. zlia.
Qed.

(** C2: Whatever sequence of calls the clients make of [kmalloc] and [kfree], for
    blocks up to a page, and of [alloc_kpages] and [free_kpages], for single pages,
    with stores to memory they own in between: the pieces of memory they then own
    are aligned to their size, lie in physical memory and are pairwise disjoint, and
    the allocators are consistent and unlocked.  This includes the calls that page
    and block allocator make to each other, at every recursion bound. *)
Theorem heap_pieces_disjoint fuel g s g' s' :
  Inv g s → kmalloc_spinlock (k_heap s) = false →
  rtc (λ c c', ∃ l, heap_step fuel l c c') (g, s) (g', s') →
  Inv g' s' ∧ kmalloc_spinlock (k_heap s') = false ∧ well_owned g' s'.
Proof using.
  intros Hinv Hl Hrun.
  assert (Ok (λ _, False) (k_mem s') false g s) as Hok by (split; [done |]; split; [done |]; split; [intros ? [] | intros ? []]).
  enough (Ok (λ _, False) (k_mem s') false (g', s').1 (g', s').2) as (Hi & Hu & _).
  { split; [done |]. split; [done |]. by apply inv_well_owned. }
  change g with (g, s).1 in Hok. change s with (g, s).2 in Hok at 2.
  generalize dependent (k_mem s'). intros m0 Hok. clear Hinv Hl. revert Hok.
  induction Hrun as [c | c c1 c' [l Hstep] _ IH]; intros Hok; [done |].
  apply IH. eapply heap_step_ok; [exact Hstep | exact Hok | intros ? [] | by intros x _ []].
Qed.

(** C3: The contents of an owned address survive every sequence of calls during which
    the address stays owned and its owner does not store to it: the allocators write
    to no memory but what is free, being freed, or their own. *)
Theorem heap_contents fuel x g s g' s' :
  Inv g s → kmalloc_spinlock (k_heap s) = false → owned g x →
  rtc (λ c c', ∃ l, heap_step fuel l c c' ∧ l ≠ Some x ∧ owned c'.1 x) (g, s) (g', s') →
  k_mem s' x = k_mem s x.
Proof using.
  intros Hinv Hl Hx Hrun.
  assert (Ok (λ y, y = x) (k_mem s) false (g, s).1 (g, s).2) as Hok.
  { split; [done |]. split; [done |]. split; [by intros ? -> | done]. }
  enough (Ok (λ y, y = x) (k_mem s) false (g', s').1 (g', s').2) as (_ & _ & _ & Hm) by (by apply Hm).
  generalize dependent (k_mem s). intros m0 Hok. clear Hinv Hl Hx. revert Hok.
  induction Hrun as [c | c c1 c' (l & Hstep & Hne & Hx) _ IH]; intros Hok; [done |].
  apply IH. eapply heap_step_ok; [exact Hstep | exact Hok | by intros ? -> | by intros y -> ->].
Qed.
End client.
End HeapSafe.
