(* ===== verification/Swap.v ===== *)
(** * The swap file (vm/swapfile.c)

    [sf_list] maps each slot of the swap file to the page stored there; a slot
    with page and process number zero is free.  The file itself is reached
    through the VFS: [FileOps] is the interface of the calls the memory system
    makes ([vfs_open], [vfs_close], [VOP_READ] and [VOP_WRITE] on kernel
    buffers).  Elapsed-time statistics are not represented. *)

From stdpp Require Import base list gmap numbers strings.
From Stdlib Require Import ZArith Lia.
From S2P Require Import Prelude Segments Tlb PageTable VmState Ram Kmalloc.
Import Segments Tlb PageTable VmState Kmalloc.

#[local] Open Scope Z_scope.

(** The file layer.  [vfs_open] gives an error code (0 for success) and a vnode
    handle (0 for NULL); [vop_read v off n] gives an error code and the words
    transferred, at most [n]; [vop_write v off ws] writes whole words. *)
Class FileOps (FS : Type) := {
  vfs_open : string → Z → FS → (Z * Z) * FS;
  vfs_close : Z → FS → FS;
  vop_read : Z → Z → Z → FS → (Z * list Z) * FS;
  vop_write : Z → Z → list Z → FS → Z * FS
}.

Module Swap.

Definition SWAPFILE_SIZE : Z := 9 * 1024 * 1024 / 4096.
Definition O_RDONLY : Z := 0.
Definition O_RDWR : Z := 2.
Definition O_CREAT : Z := 4.
Definition filename : string := "swapfile".

(** The 1024 words of the page at [base], and their replacement. *)
Definition PAGE_WORDS : Z := PAGE_SIZE / 4.
Definition page_words (m : Z → Z) (base : Z) : list Z :=
  map (λ i, m (base + 4 * i)) (seqZ 0 PAGE_WORDS).
Definition mem_write (m : Z → Z) (base : Z) (ws : list Z) : Z → Z := λ b,
  if (base <=? b) && (b <? base + 4 * Z.of_nat (length ws)) && ((b - base) mod 4 =? 0)
  then default 0 (ws !! Z.to_nat ((b - base) / 4))
  else m b.

Section Swap.
Context {FS : Type} {fops : FileOps FS}.
Abbreviation K := (M (kstate FS)).

(** Calls into the file layer. *)
Definition k_vfs_open (name : string) (flags : Z) : K (Z * Z) := λ s,
  let '(r, fs) := vfs_open name flags (k_fs s) in Done r (with_k_fs fs s).
Definition k_vfs_close (v : Z) : K unit := λ s,
  Done tt (with_k_fs (vfs_close v (k_fs s)) s).
Definition k_vop_read (v off n : Z) : K (Z * list Z) := λ s,
  let '(r, fs) := vop_read v off n (k_fs s) in Done r (with_k_fs fs s).
Definition k_vop_write (v off : Z) (ws : list Z) : K Z := λ s,
  let '(r, fs) := vop_write v off ws (k_fs s) in Done r (with_k_fs fs s).

Definition set_sf (i : Z) (e : list_param) : K unit :=
  modify (λ s, with_k_swap (<[Z.to_nat i := e]> (k_swap s)) s).
Definition get_sf (i : Z) : K list_param :=
  deref (λ s, k_swap s !! Z.to_nat i) "sf_list index out of range".

Definition swapfile_init : K Z :=
  '(result, swapfile) ← k_vfs_open filename (Z.lor O_CREAT O_RDWR);
  kassert (negb (swapfile =? 0)) "swapfile != NULL" ;;
  (if negb (result =? 0) then panic "Something has gone wrong with swapfile creation"
   else mret tt) ;;
  for_loop (Z.to_nat SWAPFILE_SIZE) 0 (λ i, set_sf i (mkSf 0 0 i false)) ;;
  mret 0.

Definition sf_pageSearch (l : list list_param) (page_num pid' : Z) : Z :=
  match first_index (λ e, (page_num =? p_number e) && (pid' =? p_pid e)) l with
  | Some i => Z.of_nat i
  | None => noEntryFound
  end.

Definition swapfile_checkv1 (l : list list_param) (page_num pid' : Z) : Z :=
  let index := sf_pageSearch l page_num pid' in
  if index <? 0 then noEntryFound
  else if 0 <=? index then index
  else noEntryFound.

Definition sf_freeSearch (l : list list_param) : Z :=
  match first_index (λ e, (p_number e =? 0) && (p_pid e =? 0)) l with
  | Some i => Z.of_nat i
  | None => noEntryFound
  end.

Definition swapIn (fuel : nat) (index : Z) : K Z :=
  RAM_address ← alloc_kpages fuel 1;
  if RAM_address =? 0 then panic "swapIn not allowed!"
  else
    e ← get_sf index;
    let pt_index := u32 (RAM_address - MIPS_KSEG0) / PAGE_SIZE in
    let vaddress := u32 (p_number e * PAGE_SIZE) in
    r ← on_PG (addPT pt_index vaddress (p_pid e) (sf_Dirty e));
    if negb (r =? 0) then mret EINVAL
    else
      pg ← gets (λ s, main_PG (k_pt s));
      r ← on_tlb (addTLB pg vaddress (p_pid e));
      if negb (r =? 0) then mret EINVAL
      else
        let offset := u32 (p_offset e * PAGE_SIZE) in
        '(result, v) ← k_vfs_open filename O_RDWR;
        if 0 <? result then panic "ERROR in SWAPFILE opening operation"
        else
          '(err, ws) ← k_vop_read v offset PAGE_WORDS;
          modify (λ s, with_k_mem (mem_write (k_mem s) RAM_address ws) s) ;;
          k_vfs_close v ;;
          if negb (err =? 0) then mret (-1)
          else
            set_sf index (mkSf 0 0 (p_offset e) false) ;;
            mret 0.

Definition swapOut (fuel : nat) (RAM_address : Z) : K Z :=
  index ← gets (λ s, sf_freeSearch (k_swap s));
  if index =? noEntryFound then panic "ERROR: Out of swap space!!"
  else
    e ← get_sf index;
    let offset := u32 (p_offset e * PAGE_SIZE) in
    '(result, v) ← k_vfs_open filename O_RDWR;
    if 0 <? result then panic "ERROR in SWAPFILE opening operation"
    else
      ws ← gets (λ s, page_words (k_mem s) RAM_address);
      err ← k_vop_write v offset ws;
      k_vfs_close v ;;
      if negb (err =? 0) then mret (-1)
      else
        let pt_index := u32 (RAM_address - MIPS_KSEG0) / PAGE_SIZE in
        pe ← deref (λ s, main_PG (k_pt s) !! Z.to_nat pt_index) "main_PG index out of range";
        set_sf index (mkSf (page_number pe) (pid pe) (p_offset e) (Dirty pe)) ;;
        free_kpages fuel RAM_address ;;
        mret 0.

End Swap.
End Swap.
