(* ===== verification/AddrSpace.v ===== *)
(** * Address spaces (vm/addrspace.c, alloc_pages of vm/vm.c, the address
      space accessors of proc/proc.c)

    Address spaces are typed objects at the addresses [kmalloc] returned.  The
    fields [as_create] does not set keep what the block held. *)

From stdpp Require Import base list gmap numbers strings.
From Stdlib Require Import ZArith Lia.
From S2P Require Import Prelude Segments Tlb PageTable VmState Ram Kmalloc.
Import Segments Tlb PageTable VmState Kmalloc.

#[local] Open Scope Z_scope.

Module AddrSpace.

Definition SIZEOF_ADDRSPACE : Z := 28.

Definition set_code (vb n nl : Z) (a : addrspace) : addrspace :=
  mkAs vb n nl (as_vbase_data a) (as_npages_data a) (as_npages_data_loaded a)
    (as_vbase_bss a) (as_vbase_stack a) (as_npages_stack a).
Definition set_data (vb n nl : Z) (a : addrspace) : addrspace :=
  mkAs (as_vbase_code a) (as_npages_code a) (as_npages_code_loaded a) vb n nl
    (as_vbase_bss a) (as_vbase_stack a) (as_npages_stack a).
Definition set_bss (vb : Z) (a : addrspace) : addrspace :=
  mkAs (as_vbase_code a) (as_npages_code a) (as_npages_code_loaded a)
    (as_vbase_data a) (as_npages_data a) (as_npages_data_loaded a)
    vb (as_vbase_stack a) (as_npages_stack a).
Definition set_stack (vb : Z) (a : addrspace) : addrspace :=
  mkAs (as_vbase_code a) (as_npages_code a) (as_npages_code_loaded a)
    (as_vbase_data a) (as_npages_data a) (as_npages_data_loaded a)
    (as_vbase_bss a) vb (as_npages_stack a).

Section AddrSpace.
Context {FS : Type}.
Abbreviation K := (M (kstate FS)).

(** ** The current process (proc.c) *)

Definition cur_proc : K proc :=
  deref (λ s, procs (k_proc s) !! curproc (k_proc s)) "curproc is NULL".

Definition set_cur_proc (p : proc) : K unit :=
  modify (upd_proc (λ q, with_procs (<[curproc q := p]> (procs q)) q)).

Definition proc_getas : K Z :=
  c ← gets (λ s, curproc (k_proc s));
  if c =? 0 then mret 0
  else p ← cur_proc; mret (p_addrspace p).

Definition proc_setas (newas : Z) : K Z :=
  c ← gets (λ s, curproc (k_proc s));
  kassert (negb (c =? 0)) "proc != NULL" ;;
  p ← cur_proc;
  set_cur_proc (with_p_addrspace newas p) ;;
  mret (p_addrspace p).

Definition get_as (a : Z) : K addrspace :=
  deref (λ s, addrspaces (k_proc s) !! a) "dangling address space".
Definition set_as (a : Z) (x : addrspace) : K unit :=
  modify (upd_proc (λ q, with_addrspaces (<[a := x]> (addrspaces q)) q)).

(** ** vm.c: alloc_pages *)

Definition alloc_pages (fuel : nat) (npages vaddr : Z) (dirty : bool) : K Z :=
  p ← cur_proc;
  started ← gets (λ s, VM_Started (k_pt s));
  kassert started "VM_Started" ;;
  for_loop (Z.to_nat (u8 npages)) 0 (λ _,
    paddr ← alloc_kpages fuel 1;
    if paddr =? 0 then panic "Error in alloc_pages() during kmalloc()"
    else
      let frame_index := u32 (paddr - MIPS_KSEG0) / PAGE_SIZE in
      on_PG (addPT frame_index vaddr (u32 (p_id p)) dirty) ;;
      mret tt) ;;
  mret 0.

(** ** addrspace.c *)

Definition as_create (fuel : nat) : K Z :=
  a ← kmalloc fuel SIZEOF_ADDRSPACE;
  if a =? 0 then panic "Error while kmalloc in as_create()"
  else
    m ← gets k_mem;
    set_as a (mkAs 0 0 (u16 (m (a + 4))) 0 0 (u16 (m (a + 12))) 0 0
                (u16 (Z.shiftr (m (a + 24)) 16))) ;;
    mret a.

(** Returns the error code and the new address space. *)
Definition as_copy (fuel : nat) (old : Z) : K (Z * Z) :=
  newas ← as_create fuel;
  if newas =? 0 then mret (ENOMEM, 0) else mret (0, newas).

(** The loop of [as_destroy]: free every valid frame of the current process. *)
Definition free_process_frames (fuel : nat) (curpid : Z) : K unit :=
  n ← gets (λ s, length (main_PG (k_pt s)));
  for_loop n 0 (λ i,
    e ← deref (λ s, main_PG (k_pt s) !! Z.to_nat i) "main_PG index out of range";
    if (pid e =? curpid) && Valid e
    then free_kpages fuel (u32 (i * 4096 + MIPS_KSEG0))
    else mret tt).

Definition as_destroy (fuel : nat) (a : Z) : K unit :=
  kfree fuel a ;;
  modify (upd_proc (λ q, with_addrspaces (delete a (addrspaces q)) q)) ;;
  p ← cur_proc;
  free_process_frames fuel (p_id p) ;;
  on_tlb invalidate_TLB.

(** [TLB_PID] is a [_Bool]: the comparison promotes it to 0 or 1 and the
    assignment converts the pid to true or false. *)
Definition as_activate : K unit :=
  a ← proc_getas;
  if a =? 0 then mret tt
  else
    p ← cur_proc;
    t ← gets (λ s, TLB_PID (k_proc s));
    if negb (p_id p =? b2z t) then
      on_tlb invalidate_TLB ;;
      modify (upd_proc (with_TLB_PID (c_bool (p_id p))))
    else mret tt.

Definition as_deactivate : K unit := mret tt.

(** The page-mapping loop of both branches of [as_define_region]. *)
Definition map_region (fuel : nat) (vbase n : Z) : K unit :=
  for_loop (Z.to_nat n) 0 (λ i,
    r ← alloc_pages fuel 1 (u32 (vbase + i * PAGE_SIZE)) true;
    (if negb (r =? 0) then panic "Error during memory allocation" else mret tt) ;;
    free ← gets (λ s, freeTLBEntries (k_tlb s));
    if c_bool free then
      p ← cur_proc;
      pg ← gets (λ s, main_PG (k_pt s));
      on_tlb (addTLB pg (u32 (vbase + i * PAGE_SIZE)) (p_id p)) ;;
      mret tt
    else mret tt).

(** The number of pages of a segment and of those loaded at once; all the
    fields are 16 bits wide. *)
Definition npages_of (memsize : Z) : Z := u16 (memsize / PAGE_SIZE + 1).
Definition code_loaded (n : Z) : Z :=
  if MAX_CODE_SEGMENT_PAGES <? n then MAX_CODE_SEGMENT_PAGES else n.
Definition data_loaded (n codeloaded : Z) : Z :=
  if MAX_DATA_SEGMENT_PAGES <? n
  then u16 (MAX_PAGES_PER_PROCESS - (codeloaded - MAX_STACK_SEGMENT_PAGES))
  else n.

Definition as_define_region (fuel : nat) (a vaddr memsize : Z)
    (readable writeable executable : bool) : K Z :=
  if executable then
    x ← get_as a;
    let n := npages_of memsize in
    let nl := code_loaded n in
    set_as a (set_code vaddr n nl x) ;;
    map_region fuel vaddr nl ;;
    mret 0
  else
    (if negb writeable then panic "Function not developed yet" else mret tt) ;;
    (if negb readable then panic "Function not developed yet" else mret tt) ;;
    if writeable && readable then
      x ← get_as a;
      let n := npages_of memsize in
      let nl := data_loaded n (as_npages_code_loaded x) in
      set_as a (set_data vaddr n nl x) ;;
      map_region fuel vaddr nl ;;
      mret 0
    else mret ENOSYS.

Definition as_prepare_load (fuel : nat) (a : Z) : K Z :=
  x ← get_as a;
  let vstack := u32 (as_vbase_data x + PAGE_SIZE * as_npages_data x) in
  set_as a (set_stack vstack x) ;;
  addr ← alloc_pages fuel 1 vstack true;
  if negb (addr =? 0) then panic "Error while as_prepare_load()" else mret 0.

Definition as_complete_load (a : Z) : K Z := mret 0.

(** Returns the error code and the initial stack pointer. *)
Definition as_define_stack (a : Z) : K (Z * Z) :=
  x ← get_as a;
  kassert (negb (as_vbase_stack x =? 0)) "as->as_vbase_stack != 0" ;;
  mret (0, as_vbase_stack x).

End AddrSpace.
End AddrSpace.
