(* ===== verification/Proc.v ===== *)
(** * Processes (proc/proc.c)

    Process structures are typed objects at the addresses [kmalloc] returned.
    The characters of [p_name] are kept with the structure, not in the word
    memory; the block that would hold them is allocated and freed.  A thread's
    [t_proc] field is passed in and returned by the two functions that set
    it. *)

From stdpp Require Import base list gmap numbers strings.
From Stdlib Require Import ZArith Lia.
From S2P Require Import Prelude Segments Tlb PageTable VmState Ram Kmalloc KFrame AddrSpace.
Import Segments Tlb PageTable VmState Kmalloc KFrame AddrSpace.

#[local] Open Scope Z_scope.

Module Proc.

Definition SIZEOF_PROC : Z := 32.

Section Proc.
Context {FS : Type}.
Abbreviation K := (M (kstate FS)).

Definition get_proc (p : Z) : K proc :=
  deref (λ s, procs (k_proc s) !! p) "dangling process".
Definition set_proc (p : Z) (x : proc) : K unit :=
  modify (upd_proc (λ q, with_procs (<[p := x]> (procs q)) q)).

(** lib/misc.c: [kmalloc(strlen(s)+1)] and a copy. *)
Definition kstrdup (fuel : nat) (s : string) : K Z :=
  kmalloc fuel (Z.of_nat (String.length s) + 1).

Definition proc_create (fuel : nat) (name : string) : K Z :=
  p ← kmalloc fuel SIZEOF_PROC;
  if p =? 0 then mret 0
  else
    n ← kstrdup fuel name;
    if n =? 0 then kfree fuel p ;; mret 0
    else
      pid ← gets (λ s, next_free_pid (k_proc s));
      modify (upd_proc (λ q, with_next_free_pid (u8 (pid + 1)) q)) ;;
      set_proc p (mkProc n name 0 0 0 0 pid) ;;
      mret p.

(** [VOP_INCREF] and [VOP_DECREF] on the counts of the vnodes in use. *)
Definition VOP_INCREF (v : Z) : K unit :=
  modify (upd_proc (λ q, with_vnode_refs
    (<[v := default 0 (vnode_refs q !! v) + 1]> (vnode_refs q)) q)).
Definition VOP_DECREF (v : Z) : K unit :=
  n ← deref (λ s, vnode_refs (k_proc s) !! v) "dangling vnode";
  kassert (0 <? n) "vn->vn_refcount > 0" ;;
  modify (upd_proc (λ q, with_vnode_refs
    (if 1 <? n then <[v := n - 1]> (vnode_refs q) else delete v (vnode_refs q)) q)).

(** The address space taken from the process, or 0. *)
Definition take_addrspace (proc : Z) : K Z :=
  p ← get_proc proc;
  if p_addrspace p =? 0 then mret 0
  else
    cur ← gets (λ s, curproc (k_proc s));
    if proc =? cur then
      a ← proc_setas 0;
      as_deactivate ;;
      mret a
    else
      set_proc proc (with_p_addrspace 0 p) ;;
      mret (p_addrspace p).

Definition proc_destroy (fuel : nat) (proc : Z) : K unit :=
  kassert (negb (proc =? 0)) "proc != NULL" ;;
  kp ← gets (λ s, kproc (k_proc s));
  kassert (negb (proc =? kp)) "proc != kproc" ;;
  p ← get_proc proc;
  (if negb (p_cwd p =? 0) then
     VOP_DECREF (p_cwd p) ;;
     set_proc proc (with_p_cwd 0 p)
   else mret tt) ;;
  a ← take_addrspace proc;
  (if negb (a =? 0) then as_destroy fuel a else mret tt) ;;
  p ← get_proc proc;
  kassert (p_numthreads p =? 0) "proc->p_numthreads == 0" ;;
  kfree fuel (p_name p) ;;
  kfree fuel proc ;;
  modify (upd_proc (λ q, with_procs (delete proc (procs q)) q)).

Definition proc_bootstrap (fuel : nat) : K unit :=
  p ← proc_create fuel "[kernel]";
  modify (upd_proc (with_kproc p)) ;;
  if p =? 0 then panic "proc_create for kproc failed" else mret tt.

Definition proc_create_runprogram (fuel : nat) (name : string) : K Z :=
  newproc ← proc_create fuel name;
  if newproc =? 0 then mret 0
  else
    np ← get_proc newproc;
    set_proc newproc (with_p_addrspace 0 np) ;;
    c ← cur_proc;
    (if negb (p_cwd c =? 0) then
       VOP_INCREF (p_cwd c) ;;
       np ← get_proc newproc;
       set_proc newproc (with_p_cwd (p_cwd c) np)
     else mret tt) ;;
    mret newproc.

(** The result and the new [t->t_proc]. *)
Definition proc_addthread (proc t_proc : Z) : K (Z * Z) :=
  kassert (t_proc =? 0) "t->t_proc == NULL" ;;
  p ← get_proc proc;
  set_proc proc (with_p_numthreads (u32 (p_numthreads p + 1)) p) ;;
  mret (0, proc).

(** The new [t->t_proc]. *)
Definition proc_remthread (t_proc : Z) : K Z :=
  let proc := t_proc in
  kassert (negb (proc =? 0)) "proc != NULL" ;;
  p ← get_proc proc;
  kassert (0 <? p_numthreads p) "proc->p_numthreads > 0" ;;
  set_proc proc (with_p_numthreads (u32 (p_numthreads p - 1)) p) ;;
  mret 0.

(** ** Process identifiers *)

(** A successful [proc_create] takes the next pid and advances the 8-bit
    counter; a failed one leaves the counter alone. *)
Definition pid_step (s s' : kstate FS) (p : Z) : Prop :=
  if p =? 0 then next_free_pid (k_proc s') = next_free_pid (k_proc s)
  else ∃ x, procs (k_proc s') !! p = Some x ∧ p_id x = next_free_pid (k_proc s) ∧
         p_numthreads x = 0 ∧ p_addrspace x = 0 ∧
         next_free_pid (k_proc s') = u8 (next_free_pid (k_proc s) + 1).

Lemma proc_create_pid fuel name s p s' :
  proc_create fuel name s = Done p s' → pid_step s s' p.
Proof.
  intros (p1 & s1 & E1 & E)%bind_done_inv.
  pose proof (keeps_done _ _ _ _ _ (keeps_kmalloc _ outside_proc fuel _) E1) as K1.
  unfold pid_step. destruct (Z.eqb_spec p1 0) as [-> | Hp1].
  { injection E as <- <-. simpl. by rewrite K1. }
  apply bind_done_inv in E as (n & s2 & E2 & E).
  pose proof (keeps_done _ _ _ _ _ (keeps_kmalloc _ outside_proc fuel _) E2) as K2.
  destruct (Z.eqb_spec n 0) as [-> | Hn].
  - apply bind_done_inv in E as ([] & s3 & E3 & [= <- <-]).
    pose proof (keeps_done _ _ _ _ _ (keeps_kfree _ outside_proc fuel _) E3) as K3.
    simpl. congruence.
  - injection E as <- <-. apply Z.eqb_neq in Hp1. rewrite Hp1. simpl.
    eexists. rewrite lookup_insert_eq. split; [done |]. simpl. rewrite K2, K1. done.
Qed.

(** Creating processes one after the other. *)
Fixpoint create_procs (fuel : nat) (names : list string) : K (list Z) :=
  match names with
  | [] => mret []
  | n :: names' => p ← proc_create fuel n; ps ← create_procs fuel names'; mret (p :: ps)
  end.

(** The pid counter is 8 bits wide and never checked: after [k] successful
    creations it stands at [k] modulo 256, so the 256th process after boot is
    given pid 0, the pid that marks the frames of the kernel itself. *)
Theorem pid_wraps fuel names ps s s' :
  create_procs fuel names s = Done ps s' → Forall (λ p, p ≠ 0) ps →
  fits 8 (next_free_pid (k_proc s)) →
  next_free_pid (k_proc s') =
    u8 (next_free_pid (k_proc s) + Z.of_nat (length names)).
Proof.
  revert s ps. induction names as [|nm names IH]; intros s ps E Hps Hfit; simpl in E.
  { injection E as <- <-. rewrite Z.add_0_r. symmetry. by apply u8_small. }
  apply bind_done_inv in E as (p & s1 & E1 & E). apply bind_done_inv in E as (qs & s2 & E2 & E).
  injection E as <- <-. apply Forall_cons in Hps as [Hp Hqs].
  apply proc_create_pid in E1. unfold pid_step in E1. apply Z.eqb_neq in Hp. rewrite Hp in E1.
  destruct E1 as (_ & _ & _ & _ & _ & En).
  rewrite (IH _ _ E2 Hqs) by (rewrite En; apply wrap_fits; lia).
  rewrite En. unfold u8, wrap. rewrite Zplus_mod_idemp_l. f_equal. simpl length. lia.
Qed.

(** Attaching and detaching a thread are inverse on the process structure. *)
Theorem addthread_remthread s proc p :
  proc ≠ 0 → procs (k_proc s) !! proc = Some p → 0 <= p_numthreads p < 2 ^ 32 - 1 →
  ∃ s1, proc_addthread proc 0 s = Done (0, proc) s1 ∧
    ∃ s2, proc_remthread proc s1 = Done 0 s2 ∧ procs (k_proc s2) = procs (k_proc s).
Proof.
  intros Hp Hl Hn. unfold proc_addthread, proc_remthread, get_proc, set_proc. mrun.
  simpl. rewrite Hl. simpl. eexists. split; [reflexivity |]. simpl.
  apply Z.eqb_neq in Hp as ->. simpl. rewrite lookup_insert_eq. simpl.
  rewrite (u32_small (p_numthreads p + 1)) by lia.
  destruct (Z.ltb_spec 0 (p_numthreads p + 1)); [| lia]. simpl.
  eexists. split; [reflexivity |]. simpl. rewrite insert_insert_eq.
  apply insert_id. rewrite Hl. f_equal. unfold with_p_numthreads. simpl.
  replace (p_numthreads p + 1 - 1) with (p_numthreads p) by lia.
  rewrite u32_small by lia. by destruct p.
Qed.

End Proc.

(** A machine whose VM has not started, with the pid counter near its end. *)
Definition wit_boot : kstate unit :=
  mkK (λ _, 0) (mkRam 0x8000 0x40000) (mkPtState false 0 [] 0 0)
    (mkHeap false (replicate 16 (mkRoot 0 (replicate 8 0) 0)) (replicate 8 0) 0 ∅)
    empty_tlb [] (mkStats 0 0 0 0 0 0 0 0 0) (mkProcState ∅ 0 0 254 ∅ false ∅) tt.
Definition wit_names : list string := ["a"; "b"; "c"]%string.
Definition wit_procs : list Z :=
  match create_procs 10 wit_names wit_boot with Done ps _ => ps | _ => [] end.
Definition wit_done : kstate unit := after (create_procs 10 wit_names wit_boot) wit_boot.

Lemma pid_wraps_witness : next_free_pid (k_proc wit_done) = 1.
Proof.
  apply (pid_wraps 10 wit_names wit_procs wit_boot wit_done).
  - apply after_done. vm_compute. reflexivity.
  - vm_compute. repeat constructor; discriminate.
  - vm_compute. split; [discriminate | reflexivity].
Defined.

End Proc.
