(* ===== verification/LoadElf.v ===== *)
(** * Loading executables (syscall/loadelf.c, syscall/runprogram.c)

    The ELF headers are parsed from the big-endian words read from the file.
    [VOP_READ] into user space goes through the MMU and may itself take page
    faults: it is the interface [UserIO]. *)

From stdpp Require Import base list gmap numbers strings.
From Stdlib Require Import ZArith Lia.
From S2P Require Import Prelude Segments Tlb PageTable VmState Ram Kmalloc Swap AddrSpace.
Import Segments Tlb PageTable VmState Kmalloc Swap AddrSpace.

#[local] Open Scope Z_scope.

(** [vop_read_user v offset vaddr memsize filesize exec]: read [filesize] bytes
    at [offset] into the user buffer of [memsize] bytes at [vaddr]; gives the
    error code and the residual count. *)
Class UserIO (FS : Type) := {
  vop_read_user : Z → Z → Z → Z → Z → bool → M (kstate FS) (Z * Z)
}.

Module LoadElf.

Record Elf_Ehdr := mkEhdr {
  e_ident : list Z;
  e_type : Z; e_machine : Z; e_version : Z; e_entry : Z; e_phoff : Z;
  e_phentsize : Z; e_phnum : Z
}.

Record Elf_Phdr := mkPhdr {
  p_type : Z; ph_offset : Z; p_vaddr : Z; p_filesz : Z; p_memsz : Z; p_flags : Z
}.

Definition EHDR_WORDS : Z := 13.
Definition PHDR_WORDS : Z := 8.
Definition PT_NULL : Z := 0.
Definition PT_LOAD : Z := 1.
Definition PT_PHDR : Z := 6.
Definition PT_MIPS_REGINFO : Z := 0x70000000.
Definition PF_X : Z := 1.
Definition PF_W : Z := 2.
Definition PF_R : Z := 4.
Definition ET_EXEC : Z := 2.
Definition EM_MIPS : Z := 8.
Definition EV_CURRENT : Z := 1.

(** Bytes and halfwords of a big-endian word. *)
Definition word_bytes (w : Z) : list Z :=
  map (λ i, Z.land (Z.shiftr w (24 - 8 * i)) 0xff) [0; 1; 2; 3].
Definition hi16 (w : Z) : Z := Z.shiftr w 16.
Definition lo16 (w : Z) : Z := Z.land w 0xffff.

Definition parse_ehdr (ws : list Z) : Elf_Ehdr :=
  let w i := default 0 (ws !! i) in
  mkEhdr (concat (map word_bytes (take 4 ws)))
    (hi16 (w 4%nat)) (lo16 (w 4%nat)) (w 5%nat) (w 6%nat) (w 7%nat)
    (lo16 (w 10%nat)) (hi16 (w 11%nat)).

Definition parse_phdr (ws : list Z) : Elf_Phdr :=
  let w i := default 0 (ws !! i) in
  mkPhdr (w 0%nat) (w 1%nat) (w 2%nat) (w 4%nat) (w 5%nat) (w 6%nat).

Definition ident_is (eh : Elf_Ehdr) (i : nat) (b : Z) : bool :=
  default 0 (e_ident eh !! i) =? b.

(** The negation of the test that makes [load_elf] return [ENOEXEC]. *)
Definition ehdr_ok (eh : Elf_Ehdr) : bool :=
  ident_is eh 0 0x7f && ident_is eh 1 0x45 && ident_is eh 2 0x4c && ident_is eh 3 0x46 &&
  ident_is eh 4 1 && ident_is eh 5 2 && ident_is eh 6 EV_CURRENT &&
  (e_version eh =? EV_CURRENT) && (e_type eh =? ET_EXEC) && (e_machine eh =? EM_MIPS).

Definition has_flag (flags f : Z) : bool := c_bool (Z.land flags f).

(** Outcome of one loop iteration: continue, or return a code. *)
Inductive ctl := Continue | Return (r : Z).

Section LoadElf.
Context {FS : Type} {fops : FileOps FS} {uio : UserIO FS}.
Abbreviation K := (M (kstate FS)).

(** Kernel-space read of [n] words: an error code, or [ENOEXEC] when short. *)
Definition read_words (v off n : Z) : K (Z * list Z) :=
  '(err, ws) ← k_vop_read v off n;
  if negb (err =? 0) then mret (err, [])
  else if negb (Z.of_nat (length ws) =? n) then mret (ENOEXEC, [])
  else mret (0, ws).

Definition load_segment (a v offset vaddr memsize filesize : Z) (exec : bool) : K Z :=
  let filesize := if memsize <? filesize then memsize else filesize in
  x ← get_as a;
  (if is_dataSegment vaddr x then
     if as_vbase_bss x =? 0
     then set_as a (set_bss (u32 (as_vbase_data x + filesize / PAGE_SIZE + 1)) x)
     else mret tt
   else mret tt) ;;
  '(result, resid) ← vop_read_user v offset vaddr memsize filesize exec;
  if negb (result =? 0) then mret result
  else
    on_tlb (removeTLBv1 vaddr) ;;
    x ← get_as a;
    (if is_codeSegment vaddr x then
       pg ← gets (λ s, main_PG (k_pt s));
       let r := pageSearch pg vaddr in
       if negb (r =? noEntryFound) then
         e ← deref (λ s, main_PG (k_pt s) !! Z.to_nat r) "main_PG index out of range";
         modify (upd_pt (λ p, with_main_PG
           (<[Z.to_nat r := mkPT false (Valid e) (pid e) (page_number e)
                              (victim_counter e)]> (main_PG p)) p))
       else mret tt
     else mret tt) ;;
    p ← cur_proc;
    pg ← gets (λ s, main_PG (k_pt s));
    on_tlb (addTLB pg vaddr (p_id p)) ;;
    if negb (resid =? 0) then mret ENOEXEC else mret 0.

(** Read program header [i] and classify it: [inl] ends or skips the
    iteration, [inr] is a loadable segment. *)
Definition read_phdr (v : Z) (eh : Elf_Ehdr) (i : Z) : K (ctl + Elf_Phdr) :=
  let offset := u32 (e_phoff eh + i * e_phentsize eh) in
  '(err, ws) ← read_words v offset PHDR_WORDS;
  if negb (err =? 0) then mret (inl (Return err))
  else
    let ph := parse_phdr ws in
    if (p_type ph =? PT_NULL) || (p_type ph =? PT_PHDR) || (p_type ph =? PT_MIPS_REGINFO)
    then mret (inl Continue)
    else if p_type ph =? PT_LOAD then mret (inr ph)
    else mret (inl (Return ENOEXEC)).

(** First pass: define the regions (only for a whole load, [start = 0]). *)
Fixpoint define_regions (fuel n : nat) (a v : Z) (eh : Elf_Ehdr) (start i : Z) : K Z :=
  match n with
  | O => mret 0
  | S n' =>
      r ← read_phdr v eh i;
      match r with
      | inl (Return e) => mret e
      | inl Continue => define_regions fuel n' a v eh start (i + 1)
      | inr ph =>
          if start =? 0 then
            result ← as_define_region fuel a (p_vaddr ph) (p_memsz ph)
              (has_flag (p_flags ph) PF_R) (has_flag (p_flags ph) PF_W)
              (has_flag (p_flags ph) PF_X);
            if negb (result =? 0) then mret result
            else define_regions fuel n' a v eh start (i + 1)
          else define_regions fuel n' a v eh start (i + 1)
      end
  end.

(** The size actually loaded on a whole load. *)
Definition limit_memsz (x : addrspace) (ph : Elf_Phdr) : Z :=
  if p_vaddr ph =? as_vbase_code x then
    if MAX_CODE_SEGMENT_PAGES <? p_filesz ph / PAGE_SIZE
    then as_npages_code_loaded x * PAGE_SIZE else p_memsz ph
  else if p_vaddr ph =? as_vbase_data x then
    if MAX_DATA_SEGMENT_PAGES <? p_filesz ph / PAGE_SIZE
    then as_npages_data_loaded x * PAGE_SIZE else p_memsz ph
  else p_memsz ph.

(** The body of the second pass on a loadable segment. *)
Definition load_one (a v start npages : Z) (ph : Elf_Phdr) : K Z :=
  x ← get_as a;
  let exec := has_flag (p_flags ph) PF_X in
  let part := load_segment a v (u32 (ph_offset ph + u32 (start - p_vaddr ph))) start
                (u32 (npages * PAGE_SIZE)) (u32 (npages * PAGE_SIZE)) exec in
  if start =? 0 then
    load_segment a v (ph_offset ph) (p_vaddr ph) (limit_memsz x ph) (p_filesz ph) exec
  else if is_codeSegment start x then
    if is_codeSegment (p_vaddr ph) x then part else mret 0
  else if is_dataSegment start x then
    if is_dataSegment (p_vaddr ph) x then
      if negb (is_bssSegment start x) then part else mret 0
    else mret 0
  else mret 0.

(** Second pass: load the segments, or one page range of them. *)
Fixpoint load_segments (n : nat) (a v : Z) (eh : Elf_Ehdr) (start npages i : Z) : K Z :=
  match n with
  | O => mret 0
  | S n' =>
      r ← read_phdr v eh i;
      match r with
      | inl (Return e) => mret e
      | inl Continue => load_segments n' a v eh start npages (i + 1)
      | inr ph =>
          result ← load_one a v start npages ph;
          if negb (result =? 0) then mret result
          else load_segments n' a v eh start npages (i + 1)
      end
  end.

(** Returns the error code and the entry point. *)
Definition load_elf (fuel : nat) (v start npages : Z) : K (Z * Z) :=
  a ← proc_getas;
  '(err, ws) ← read_words v 0 EHDR_WORDS;
  if negb (err =? 0) then mret (err, 0)
  else
    let eh := parse_ehdr ws in
    if negb (ehdr_ok eh) then mret (ENOEXEC, 0)
    else
      let n := Z.to_nat (e_phnum eh) in
      result ← define_regions fuel n a v eh start 0;
      if negb (result =? 0) then mret (result, 0)
      else
        result ← (if start =? 0 then as_prepare_load fuel a else mret 0);
        if negb (result =? 0) then mret (result, 0)
        else
          result ← load_segments n a v eh start npages 0;
          if negb (result =? 0) then mret (result, 0)
          else
            result ← (if start =? 0 then as_complete_load a else mret 0);
            if negb (result =? 0) then mret (result, 0)
            else mret (0, e_entry eh).

(** syscall/runprogram.c.  On success control passes to user mode at
    (entry point, stack pointer) and does not come back: [inr]. *)
Definition runprogram (fuel : nat) (progname : string) : K (Z + Z * Z) :=
  '(result, v) ← k_vfs_open progname O_RDONLY;
  if negb (result =? 0) then mret (inl result)
  else
    old ← proc_getas;
    kassert (old =? 0) "proc_getas() == NULL" ;;
    a ← as_create fuel;
    if a =? 0 then k_vfs_close v ;; mret (inl ENOMEM)
    else
      proc_setas a ;;
      as_activate ;;
      '(result, entrypoint) ← load_elf fuel v 0 0;
      if negb (result =? 0) then k_vfs_close v ;; mret (inl result)
      else
        k_vfs_close v ;;
        '(result, stackptr) ← as_define_stack a;
        if negb (result =? 0) then mret (inl result)
        else mret (inr (entrypoint, stackptr)).

End LoadElf.
End LoadElf.
