(* ===== verification/VmFault.v ===== *)
(** * Page faults, VM start-up and statistics (vm/vm.c, vm/vmstats.c,
      sys__exit of main/main.c)

    [vm_fault] with its three fault types, [vm_bootstrap], and the consistency
    tests [print_vm_stat] reports; and, on top of it, the reads of load_segment into
    user memory (module [UserRead]).  Console output and elapsed times are not
    represented.  [thread_exit] ends the calling thread: outcome [Exited]. *)

From stdpp Require Import base list gmap numbers strings.
From Stdlib Require Import ZArith Lia.
From S2P Require Import Prelude CopyInOut Segments Tlb PageTable VmState Ram Kmalloc Swap AddrSpace LoadElf.
Import Segments Tlb PageTable VmState Ram Kmalloc Swap AddrSpace LoadElf.

#[local] Open Scope Z_scope.

Module VmFault.

Definition VM_FAULT_READ : Z := 0.
Definition VM_FAULT_WRITE : Z := 1.
Definition VM_FAULT_READONLY : Z := 2.
Definition SIZEOF_invertedPT : Z := 12.

Section VmFault.
Context {FS : Type} {fops : FileOps FS} {uio : UserIO FS}.
Abbreviation K := (M (kstate FS)).

(** ** Statistics *)

Definition inc_TLB_Faults (x : stats) := with_TLB_Faults (u32 (TLB_Faults x + 1)) x.
Definition inc_wFree (x : stats) := with_TLB_Faults_wFree (u32 (TLB_Faults_wFree x + 1)) x.
Definition inc_wReplace (x : stats) :=
  with_TLB_Faults_wReplace (u32 (TLB_Faults_wReplace x + 1)) x.
Definition dec_TLB_Faults (x : stats) := with_TLB_Faults (u32 (TLB_Faults x - 1)) x.
Definition dec_wFree (x : stats) := with_TLB_Faults_wFree (u32 (TLB_Faults_wFree x - 1)) x.
Definition dec_wReplace (x : stats) :=
  with_TLB_Faults_wReplace (u32 (TLB_Faults_wReplace x - 1)) x.
Definition inc_Reloads (x : stats) := with_TLB_Reloads (u32 (TLB_Reloads x + 1)) x.
Definition inc_PF_Disk (x : stats) := with_PF_Disk (u32 (PF_Disk x + 1)) x.
Definition inc_PF_ELF (x : stats) := with_PF_ELF (u32 (PF_ELF x + 1)) x.
Definition inc_PF_Swapfile (x : stats) := with_PF_Swapfile (u32 (PF_Swapfile x + 1)) x.
Definition inc_SF_Writes (x : stats) := with_SF_Writes (u32 (SF_Writes x + 1)) x.

Definition stat (f : stats → stats) : K unit := modify (upd_stats f).

(** The three sums [print_vm_stat] checks. *)
Definition print_vm_stat (x : stats) : bool * bool * bool :=
  (u32 (TLB_Faults_wFree x + TLB_Faults_wReplace x) =? TLB_Faults x,
   u32 (u32 (TLB_Reloads x + PF_Disk x) + PF_Zeroed x) =? TLB_Faults x,
   u32 (PF_ELF x + PF_Swapfile x) =? PF_Disk x).

(** ** main.c: sys__exit *)

Definition thread_exit : K Z := λ s, Exited s.

Definition sys__exit (fuel : nat) (status : Z) : K Z :=
  p ← cur_proc;
  set_cur_proc (with_exit_status status p) ;;
  as_destroy fuel (p_addrspace p) ;;
  thread_exit.

(** ** vm_fault *)

(** [frame*PAGE_SIZE + MIPS_KSEG0] of a victim index ([int] arithmetic). *)
Definition victim_paddr (victim_page : Z) : Z := u32 (victim_page * PAGE_SIZE + MIPS_KSEG0).

Definition find_victim (type : bool) : K Z :=
  p ← cur_proc;
  a ← proc_getas;
  x ← get_as a;
  gets (λ s, victim_pageSearch (main_PG (k_pt s)) type (p_id p) x).

(** The tail shared by the three first-load paths: enter the page in the table
    and load it from the executable. *)
Definition load_page (fuel : nat) (frame faultaddress : Z) : K Z :=
  p ← cur_proc;
  on_PG (addPT (u32 (frame - MIPS_KSEG0) / PAGE_SIZE) (Z.land faultaddress PAGE_FRAME)
           (p_id p) true) ;;
  '(result, v) ← k_vfs_open (p_namestr p) O_RDONLY;
  if negb (result =? 0) then mret result
  else
    '(result, _) ← load_elf fuel v faultaddress 1;
    if negb (result =? 0) then k_vfs_close v ;; mret result
    else
      k_vfs_close v ;;
      stat inc_PF_Disk ;;
      stat inc_PF_ELF ;;
      mret 0.

(** Code page not resident: take a free frame, or that of a code victim. *)
Definition fault_load_code (fuel : nat) (faultaddress : Z) : K Z :=
  result ← alloc_kpages fuel 1;
  result ← (if result =? 0 then
              victim_page ← find_victim false;
              (if victim_page =? noEntryFound then panic "No victim found." else mret tt) ;;
              free_kpages fuel (victim_paddr victim_page) ;;
              alloc_kpages fuel 1
            else mret result);
  load_page fuel result faultaddress.

(** Data page never loaded; [checked] tells whether the missing victim is
    tested for (it is on a write fault only). *)
Definition fault_load_data (fuel : nat) (checked : bool) (faultaddress : Z) : K Z :=
  result ← alloc_kpages fuel 1;
  result ← (if result =? 0 then
              victim_page ← find_victim true;
              (if checked && (victim_page =? noEntryFound) then panic " " else mret tt) ;;
              swapOut fuel (victim_paddr victim_page) ;;
              stat inc_SF_Writes ;;
              alloc_kpages fuel 1
            else mret result);
  load_page fuel result faultaddress.

Definition vm_fault_read (fuel : nat) (faultaddress a : Z) : K Z :=
  p ← cur_proc;
  pg ← gets (λ s, main_PG (k_pt s));
  let p_num := faultaddress / PAGE_SIZE in
  let ret := pageSearch pg faultaddress in
  if 0 <? ret then
    r ← on_tlb (addTLB pg (Z.land faultaddress PAGE_FRAME) (p_id p));
    if negb (r =? 0) then mret EINVAL
    else stat inc_Reloads ;; mret 0
  else
    x ← get_as a;
    if is_codeSegment faultaddress x then
      fault_load_code fuel (Z.land faultaddress PAGE_FRAME)
    else if is_dataSegment faultaddress x then
      index ← gets (λ s, swapfile_checkv1 (k_swap s) p_num (p_id p));
      if index =? noEntryFound then
        fault_load_data fuel false (Z.land faultaddress PAGE_FRAME)
      else
        victim_page ← find_victim true;
        r ← swapOut fuel (victim_paddr victim_page);
        if negb (r =? 0) then mret 1
        else
          stat inc_SF_Writes ;;
          swapIn fuel index ;;
          stat inc_PF_Swapfile ;;
          stat inc_PF_Disk ;;
          mret 0
    else mret EINVAL.

Definition vm_fault_write (fuel : nat) (faultaddress a : Z) : K Z :=
  p ← cur_proc;
  pg ← gets (λ s, main_PG (k_pt s));
  let p_num := faultaddress / PAGE_SIZE in
  let ret := pageSearch pg faultaddress in
  if ret <? 0 then
    x ← get_as a;
    (if is_codeSegment faultaddress x then panic "You cannot write, is a code segment."
     else mret tt) ;;
    if is_dataSegment faultaddress x then
      index ← gets (λ s, swapfile_checkv1 (k_swap s) p_num (p_id p));
      if index =? noEntryFound then
        fault_load_data fuel true (Z.land faultaddress PAGE_FRAME)
      else
        victim_page ← find_victim true;
        r ← swapOut fuel (victim_paddr victim_page);
        (if r =? 0 then
           stat inc_SF_Writes ;;
           swapIn fuel index ;;
           stat inc_PF_Disk ;;
           stat inc_PF_Swapfile
         else mret tt) ;;
        mret 0
    else mret 1
  else
    r ← on_tlb (addTLB pg faultaddress (p_id p));
    if negb (r =? 0) then mret 1
    else stat inc_Reloads ;; mret 0.

Definition vm_fault_readonly (fuel : nat) : K Z :=
  stat dec_TLB_Faults ;;
  free ← gets (λ s, freeTLBEntries (k_tlb s));
  stat (if c_bool free then dec_wFree else dec_wReplace) ;;
  sys__exit fuel 0 ;;
  mret EFAULT.

Definition vm_fault (fuel : nat) (faulttype faultaddress : Z) : K Z :=
  a ← proc_getas;
  if a =? 0 then mret EFAULT
  else
    stat inc_TLB_Faults ;;
    free ← gets (λ s, freeTLBEntries (k_tlb s));
    stat (if c_bool free then inc_wFree else inc_wReplace) ;;
    if faulttype =? VM_FAULT_READONLY then vm_fault_readonly fuel
    else if faulttype =? VM_FAULT_READ then vm_fault_read fuel faultaddress a
    else if faulttype =? VM_FAULT_WRITE then vm_fault_write fuel faultaddress a
    else mret EINVAL.

Definition vm_tlbshootdown : K unit := panic "Someone tried to shutdown the TLB".

(** ** vm_bootstrap *)

(** A frame owned by the kernel or by the page table itself. *)
Definition kernel_entry (e : invertedPT) : invertedPT :=
  mkPT (Dirty e) true 0 0 (victim_counter e).

Definition mark_kernel (i : Z) : K unit :=
  e ← deref (λ s, main_PG (k_pt s) !! Z.to_nat i) "main_PG index out of range";
  modify (upd_pt (λ p, with_main_PG (<[Z.to_nat i := kernel_entry e]> (main_PG p)) p)).

Definition vm_bootstrap (fuel : nat) : K unit :=
  RAM_Size ← zoom k_ram with_k_ram ram_getsize;
  RAM_FirstFree ← zoom k_ram with_k_ram ram_getfirstfree;
  let n := RAM_Size / PAGE_SIZE in
  let PT_Size := u32 (n * SIZEOF_invertedPT) in
  let location := Z.land (u32 (RAM_Size - PT_Size)) PAGE_FRAME in
  modify (upd_pt (λ p, with_main_PG (replicate (Z.to_nat n) (mkPT false false 0 0 0))
                         (with_main_PG_addr (PADDR_TO_KVADDR location) p))) ;;
  let first := RAM_FirstFree / PAGE_SIZE in
  let nvm := u32 (RAM_Size - location) / PAGE_SIZE in
  for_loop (Z.to_nat first) 0 mark_kernel ;;
  for_loop (Z.to_nat nvm) 0 (λ i, mark_kernel (n - 1 - i)) ;;
  on_tlb tlb_invalid_fill ;;
  on_tlb (modify (set_free NUM_TLB)) ;;
  swapfile_init ;;
  modify (upd_pt (with_VM_Started true)) ;;
  for_loop (Z.to_nat (n - nvm - first)) first (λ i,
    r ← addToFrameList fuel i addBOTTOM;
    if negb (r =? 0) then panic "Error in addToList()" else mret tt).

End VmFault.
End VmFault.

(** * Reading a file into user memory (VOP_READ in load_segment of syscall/loadelf.c)

    [load_segment] reads from the executable straight into the address space of the
    process: the file layer moves its data with [uiomove], which copies with [copyout],
    whose stores go through the TLB.  A store to a page without a translation traps and
    calls [vm_fault], which may load a page of the executable and so read into user
    memory again.  [user_io] is that recursion, to any depth; it is an implementation of
    the interface [UserIO] of [LoadElf]. *)

Import VmFault.

Module UserRead.

(** What the file layer does on one [VOP_READ]: steps on its own state (which it goes on
    from as the state before the step tells), calls of [uiomove] with bytes it has read,
    whose result it sees, and a result. *)
Inductive reading (FS : Type) :=
| Returns (err : Z)
| Step (f : FS → FS) (k : FS → reading FS)
| Uiomove (bytes : list Z) (k : Z → reading FS).
Arguments Returns {FS} err.
Arguments Step {FS} f k.
Arguments Uiomove {FS} bytes k.

(** The request of load_segment, as [uiomove] moves it along: one iovec and uio_resid. *)
Record request := mkReq { iov_ubase : Z; iov_len : Z; uio_resid : Z }.

Definition advance (n : Z) (r : request) : request :=
  mkReq (u32 (iov_ubase r + n)) (u32 (iov_len r - n)) (u32 (uio_resid r - n)).

(** Byte [i] of a big-endian word replaced. *)
Definition put_byte (w i c : Z) : Z :=
  Z.lor (Z.land w (Z.lxor 0xffffffff (Z.shiftl 0xff (24 - 8 * i)))) (Z.shiftl (Z.land c 0xff) (24 - 8 * i)).

Definition put_phys {FS} (pa c : Z) (s : kstate FS) : kstate FS :=
  let a := MIPS_KSEG0 + (pa - pa mod 4) in
  with_k_mem (λ x, if x =? a then put_byte (k_mem s a) (pa mod 4) c else k_mem s x) s.

Section read.
Context {FS : Type} {fops : FileOps FS}.
Abbreviation K := (M (kstate FS)).

(** ** Stores by copyout *)

Section store.
(** The read that a page fault may start. *)
Context (inner : UserIO FS) (fuel : nat).

(** A store to a user address with [copyfail] installed: [None] when vm_fault refuses.
    [n] bounds the attempts. *)
Fixpoint user_store (n : nat) (va c : Z) : K (option unit) :=
  match n with
  | O => nofuel
  | S n' =>
      t ← gets (λ s, translate (k_tlb s) (Z.land va PAGE_FRAME));
      let retry ft :=
        r ← vm_fault (uio := inner) fuel ft va;
        if r =? 0 then user_store n' va c else mret None in
      match t with
      | Some lo =>
          if c_bool (Z.land lo TLBLO_DIRTY)
          then modify (put_phys (Z.shiftr lo 12 * PAGE_SIZE + va mod PAGE_SIZE) c) ;; mret (Some tt)
          else retry VM_FAULT_READONLY
      | None => retry VM_FAULT_WRITE
      end
  end.

(** The bytes in order; [EFAULT] from the first store that is refused.  (When a page
    fault of an earlier byte has run a copy of its own, that one has removed the handler,
    and the kernel panics on the refused store instead.) *)
Fixpoint user_copy (va : Z) (bytes : list Z) : K Z :=
  match bytes with
  | [] => mret 0
  | c :: rest =>
      r ← user_store fuel va c;
      match r with
      | None => mret EFAULT
      | Some _ => user_copy (va + 1) rest
      end
  end.

Definition copyout (bytes : list Z) (userdest : Z) : K Z :=
  let len := Z.of_nat (length bytes) in
  let '(result, stoplen) := CopyInOut.copycheck userdest len in
  if negb (result =? 0) then mret result
  else if negb (stoplen =? len) then mret EFAULT
  else user_copy userdest bytes.

(** [uiomove] on the one iovec of the request ([uio_space] is the address space that
    [proc_getas] gave load_segment). *)
Definition uiomove (bytes : list Z) (r : request) : K (Z * request) :=
  if (Z.of_nat (length bytes) =? 0) || (uio_resid r =? 0) then mret (0, r)
  else
    let size := Z.min (iov_len r) (Z.of_nat (length bytes)) in
    if size =? 0 then panic "uiomove: ran out of buffers"
    else
      result ← copyout (take (Z.to_nat size) bytes) (iov_ubase r);
      if negb (result =? 0) then mret (result, r)
      else
        let r' := advance size r in
        if (Z.of_nat (length bytes) =? size) || (uio_resid r' =? 0) then mret (0, r')
        else panic "uiomove: ran out of buffers".

(** The file layer's read on the request: the error code and the residual count. *)
Fixpoint run (p : reading FS) (r : request) : K (Z * Z) :=
  match p with
  | Returns err => mret (err, uio_resid r)
  | Step f k =>
      fs ← gets k_fs;
      modify (with_k_fs (f fs)) ;;
      run (k fs) r
  | Uiomove bytes k =>
      '(result, r') ← uiomove bytes r;
      run (k result) r'
  end.
End store.

(** ** Reads that take page faults that read *)

(** What the file layer does when asked for so many bytes of a vnode from an offset. *)
Context (file_read : Z → Z → Z → reading FS).

(** [d] is the depth of page faults within reads: the load of a page for a store of the
    outer read stores into that page, which is then resident but not in the TLB, so that
    its fault is a reload. *)
Fixpoint user_io (fuel d : nat) : UserIO FS :=
  {| vop_read_user v off va msz fsz _ :=
       match d with
       | O => nofuel
       | S d' => run (user_io fuel d') fuel (file_read v off fsz) (mkReq va (u32 msz) (u32 fsz))
       end |}.
End read.
End UserRead.
