(* ===== verification/Machine.v ===== *)
(** * A booted machine

    A concrete state of the memory system, used to evaluate the model: 224 KB
    of memory with the kernel in the first 32 KB, a page store as the file
    layer, and the VM started by [vm_bootstrap]. *)

From stdpp Require Import base list gmap numbers strings.
From Stdlib Require Import ZArith Lia.
From S2P Require Import Prelude Segments Tlb PageTable VmState Ram Kmalloc Swap AddrSpace LoadElf VmFault.
Import Segments Tlb PageTable VmState Kmalloc Swap AddrSpace LoadElf VmFault.

#[local] Open Scope Z_scope.

Module Machine.

(** A file layer that holds whole pages of one file: every open succeeds. *)
Definition pagestore : Type := Z → list Z.

#[export] Instance pagestore_ops : FileOps pagestore := {|
  vfs_open := λ _ _ fs, ((0, 1), fs);
  vfs_close := λ _ fs, fs;
  vop_read := λ _ off n fs, ((0, resize (Z.to_nat n) 0 (fs off)), fs);
  vop_write := λ _ off ws fs, (0, λ o, if o =? off then ws else fs o)
|}.

Definition M0 : Type := kstate pagestore.

Definition stats0 : stats := mkStats 0 0 0 0 0 0 0 0 0.

(** The state the kernel starts in: globals zeroed, nothing allocated; one
    process with pid 1, its address space, and the swap table. *)
Definition as0 : addrspace := mkAs 0x400000 2 2 0x10000000 4 4 0 0x10004000 1.
Definition proc0 (pid' asaddr : Z) : proc := mkProc 0 "prog" 1 asaddr 0 0 pid'.

Definition cold : M0 :=
  mkK (λ _, 0) (mkRam 0x8000 0x40000) (mkPtState false 0 [] 0 0)
    (mkHeap false (replicate 16 (mkRoot 0 (replicate 8 0) 0)) (replicate 8 0) 0 ∅)
    empty_tlb (replicate (Z.to_nat SWAPFILE_SIZE) (mkSf 0 0 0 false)) stats0
    (mkProcState {[ 0x80001000 := proc0 1 0x80001200; 0x80001100 := proc0 2 0x80001200 ]}
       0x80001000 0 3 {[ 0x80001200 := as0 ]} false ∅)
    (λ _, []).

Definition booted : M0 := after ((kmalloc 10 12 ;; vm_bootstrap 10) cold) cold.

(** The user read of [load_segment]: the file page goes to the frame the TLB maps
    the address to; an unmapped address is an error. *)
#[export] Instance pagestore_user : UserIO pagestore := {|
  vop_read_user := λ _ off va _ fsz _ s,
    match translate (k_tlb s) (Z.land va PAGE_FRAME) with
    | Some lo =>
        let base := MIPS_KSEG0 + Z.land lo PAGE_FRAME in
        Done (0, 0) (with_k_mem (mem_write (k_mem s) base
                       (resize (Z.to_nat PAGE_WORDS) 0 (k_fs s off))) s)
    | None => Done (EFAULT, fsz) s
    end
|}.

(** Process 1 owns the page at 0x10001000, in frame 10, with a word written. *)
Definition w_page : M0 :=
  after ((alloc_pages 10 1 0x10001000 true ;; store 0x8000a008 77) booted) booted.

(** The same machine with process 2 running. *)
Definition w_other : M0 := upd_proc (with_curproc 0x80001100) w_page.

End Machine.
