(* ===== verification/HeapBoot.v ===== *)
(** * The invariant of the allocators on the booted machine

    The state [Machine.booted], which [vm_bootstrap] leaves, satisfies the invariant
    of [HeapInv]: so the theorems of [HeapSafe] hold of everything the kernel
    allocates from there on. *)

From stdpp Require Import base list gmap numbers strings sets.
From Stdlib Require Import ZArith Lia.
From S2P Require Import Prelude Segments Tlb PageTable VmState Ram Kmalloc HeapInv HeapProof HeapOps HeapTrans HeapSafe Machine.
Import Segments Tlb PageTable VmState Kmalloc HeapInv HeapProof HeapOps HeapTrans HeapSafe Machine.

#[local] Open Scope Z_scope.

Module HeapBoot.

(** The nodes of a list in memory. *)
Fixpoint walk (m : Z → Z) (off : Z) (n : nat) (a : Z) : list Z :=
  match n with
  | O => []
  | S n' => if a =? 0 then [] else a :: walk m off n' (m (a + off))
  end.

(** What the heap of the booted machine consists of: one page of 16-byte blocks with
    its pageref, and the list of free frames. *)
Definition b_q : Z := 0x80009000.
Definition b_pr : pageref := default (mkPageref 0 0 0 0 0) (pagerefs (k_heap booted) !! b_q).
Definition b_free : list Z := walk (k_mem booted) 0 256 (PR_PAGEADDR b_pr + freelist_offset b_pr).
Definition b_N : list (Z * Z) :=
  map (λ a, (a, k_mem booted a)) (walk (k_mem booted) 4 64 (frame_list (k_pt booted))).

(** The block the kernel had allocated before is still owned. *)
Definition b_ghost : ghost := mkGhost ∅ {[ 0x80008ff0 := 0 ]} ∅ ∅.

Lemma mchain_walk m off n a z :
  last (walk m off n a) = Some z → m (z + off) = 0 → mchain m off a (walk m off n a).
Proof.
  intros Hl Hz. revert a Hl. induction n as [|n IH]; intros a; cbn [walk]; [done |].
  destruct (Z.eqb_spec a 0) as [-> | Hne]; [done |]. intros Hl. cbn [mchain]. split; [done |]. split; [done |].
  rewrite last_cons in Hl. destruct (last (walk m off n (m (a + off)))) as [b|] eqn:E.
  - apply IH. congruence.
  - apply last_None in E. rewrite E. cbn [mchain]. congruence.
Qed.

Ltac compute_all := apply (bool_decide_unpack _); vm_cast_no_check I.

Lemma b_chain : mchain (k_mem booted) 0 (hd 0 b_free) b_free.
Proof.
  assert (hd 0 b_free = PR_PAGEADDR b_pr + freelist_offset b_pr) as -> by (vm_compute; reflexivity).
  apply (mchain_walk _ _ _ _ 0x80008000); vm_compute; reflexivity.
Qed.

Lemma b_page_ok : page_ok (k_mem booted) b_pr b_free.
Proof.
  split.
  - vm_compute. split; [discriminate | reflexivity].
  - vm_compute. reflexivity.
  - vm_compute. reflexivity.
  - exact b_chain.
  - unfold block_in. compute_all.
  - compute_all.
Qed.

(** The globals of the heap. *)
Definition b_root : kheap_root := mkRoot b_q [1; 0; 0; 0; 0; 0; 0; 0] 1.
Definition b_none : kheap_root := mkRoot 0 (replicate 8 0) 0.

Lemma b_heap : k_heap booted =
  mkHeap false (b_root :: replicate 15 b_none) (b_q :: replicate 7 0) b_q {[ b_q := b_pr ]}.
Proof. vm_compute. reflexivity. Qed.

Lemma b_roots r root :
  (b_root :: replicate 15 b_none) !! r = Some root → (r = 0%nat ∧ root = b_root) ∨ root = b_none.
Proof.
  destruct r as [|r]; [intros [= <-]; by left |]. cbn [lookup]. intros H. right.
  by apply lookup_replicate in H as [-> _].
Qed.

(** The page and the pageref pool are in kernel frames. *)
Lemma b_kernel : kernel_frame (main_PG (k_pt booted)) (PR_PAGEADDR b_pr) ∧ kernel_frame (main_PG (k_pt booted)) b_q.
Proof.
  split; [exists 8, (mkPT false true 0 0 0) | exists 9, (mkPT false true 0 0 0)]; vm_compute;
    (split; [split; [discriminate | reflexivity] |]); repeat split.
Qed.

(** The nodes of the frame list are allocated blocks and hold the numbers of frames
    that are not in use. *)
Definition node_ok (p : Z * Z) : Prop :=
  k_mem booted p.1 = p.2 ∧ 0 <= p.2 < Z.of_nat (length (main_PG (k_pt booted))) ∧
  Valid <$> (main_PG (k_pt booted) !! Z.to_nat p.2) = Some false ∧
  block_in (PR_PAGEADDR b_pr) 0 p.1 ∧ (p.1 ∉ b_free) ∧ p.1 ≠ 0x80008ff0.

Lemma b_nodes : Forall node_ok b_N.
Proof. unfold node_ok, block_in. compute_all. Qed.

Lemma b_live b : block_in (PR_PAGEADDR b_pr) 0 b → b ∉ b_free → live {[ b_q := b_pr ]} [b_q] (λ _, b_free) 0 b.
Proof.
  intros Hb Hn. exists b_q. unfold btof, pageof. rewrite lookup_singleton_eq. split; [left |].
  split; [vm_compute; reflexivity |]. done.
Qed.

Lemma booted_heap_inv :
  heap_inv [b_q] (λ _, b_free) b_N b_ghost (k_mem booted) (main_PG (k_pt booted))
    (frame_list (k_pt booted)) (k_heap booted).
Proof.
  rewrite b_heap. split; cbn [pagerefs kheaproots sizebases allbase].
  - apply NoDup_singleton.
  - split; [done |]. split; [done |]. exists b_pr. rewrite lookup_singleton_eq. split; [done |]. vm_compute. reflexivity.
  - intros t Ht. unfold NSIZES in Ht. rewrite filter_cons, filter_nil.
    replace (btof {[b_q := b_pr]} b_q) with 0 by (unfold btof; rewrite lookup_singleton_eq; vm_compute; reflexivity).
    destruct (decide (0 = t)) as [<- | Hne].
    + split; [done |]. split; [done |]. exists b_pr. rewrite lookup_singleton_eq. split; [done |]. vm_compute. reflexivity.
    + destruct (Z.to_nat t) as [|n] eqn:E; [lia |].
      change ((b_q :: replicate 7 0) !! S n) with (replicate 7 0 !! n).
      rewrite lookup_replicate_2 by lia. done.
  - done.
  - intros q pr ->%list_elem_of_singleton. rewrite lookup_singleton_eq. intros E.
    apply (inj Some) in E. rewrite <- E. exact b_page_ok.
  - intros q q' ->%list_elem_of_singleton ->%list_elem_of_singleton. done.
  - intros q ->%list_elem_of_singleton. unfold pageof. rewrite lookup_singleton_eq. apply b_kernel.
  - done.
  - intros r root [[_ ->] | ->]%b_roots; done.
  - intros r root [[_ ->] | ->]%b_roots; [intros _; apply b_kernel | done].
  - intros r r' root root' [[-> ->] | ->]%b_roots [[-> ->] | ->]%b_roots; done.
  - intros r root q [[_ ->] | ->]%b_roots; [| done]. intros _ ->%list_elem_of_singleton.
    unfold pageof. rewrite lookup_singleton_eq. vm_compute. discriminate.
  - intros q ->%list_elem_of_singleton. exists 0%nat, 0, b_root.
    split; [done |]. split; [done |]. split; [done |]. split; [done |]. split; [done |]. apply not_elem_of_empty.
  - intros r i []%elem_of_empty.
  - replace (map fst b_N) with (walk (k_mem booted) 4 64 (frame_list (k_pt booted))) by (vm_compute; reflexivity).
    apply (mchain_walk _ _ _ _ 0x80008c90); vm_compute; reflexivity.
  - compute_all.
  - compute_all.
  - intros a f Ha. pose proof b_nodes as Hall. rewrite Forall_forall in Hall.
    destruct (Hall _ Ha) as (Hm & Hf & Hv & Hb & Hn & Hne). cbn [fst snd] in *.
    split; [done |]. split.
    { split; [done |]. destruct (main_PG (k_pt booted) !! Z.to_nat f) as [e|]; [| done]. exists e.
      split; [done |]. cbn in Hv. congruence. }
    split; [by apply b_live |]. split; [| apply not_elem_of_empty].
    unfold b_ghost. cbn [gB]. by rewrite lookup_singleton_ne.
  - intros f e. unfold b_ghost. cbn [gX]. by rewrite lookup_empty.
  - intros b t. unfold b_ghost. cbn [gB]. rewrite lookup_singleton_Some. intros [<- <-]. apply b_live.
    + unfold block_in. compute_all.
    + compute_all.
  - intros f []%elem_of_empty.
  - vm_compute. discriminate.
Qed.

Lemma booted_inv : Inv b_ghost booted ∧ kmalloc_spinlock (k_heap booted) = false.
Proof.
  split; [| by rewrite b_heap]. split; [vm_compute; reflexivity |].
  exists [b_q], (λ _, b_free), b_N. exact booted_heap_inv.
Qed.

(** ** A client of the booted machine

    It gets a block and a frame, stores to the block, and gives the frame back. *)

Definition c1 : M0 := after (kmalloc 10 100 booted) booted.
Definition c2 : M0 := after (alloc_kpages 10 1 c1) c1.
Definition c3 : M0 := with_k_mem (mem_upd (k_mem c2) 0x8000af84 42) c2.
Definition c4 : M0 := after (free_kpages 10 0x8000b000 c3) c3.

Definition g1 : ghost := got 100 0x8000af80 c1 b_ghost.
Definition g2 : ghost := got PAGE_SIZE 0x8000b000 c2 g1.
Definition g4 : ghost := drop_X 11 g2.

Lemma c_kmalloc : heap_step 10 None (b_ghost, booted) (g1, c1).
Proof.
  apply step_kmalloc; [vm_compute; split; discriminate |]. apply after_done. vm_compute. reflexivity.
Qed.
Lemma c_alloc : heap_step 10 None (g1, c1) (g2, c2).
Proof. apply step_alloc_kpages, after_done. vm_compute. reflexivity. Qed.
Lemma c_store : heap_step 10 (Some 0x8000af84) (g2, c2) (g2, c3).
Proof.
  apply step_store. left. exists 0x8000af80, 3. split; [vm_compute; reflexivity |].
  vm_compute. split; [discriminate | reflexivity].
Qed.
Lemma c_free : heap_step 10 None (g2, c3) (g4, c4).
Proof.
  apply (step_free_kpages 10 g2 c3 11 (default (mkPT false false 0 0 0) (gX g2 !! 11)));
    [vm_compute; reflexivity |].
  apply after_done. vm_compute. reflexivity.
Qed.

Lemma heap_pieces_disjoint_witness :
  Inv g4 c4 ∧ kmalloc_spinlock (k_heap c4) = false ∧ well_owned g4 c4.
Proof.
  apply (heap_pieces_disjoint 10 b_ghost booted g4 c4); [apply booted_inv | apply booted_inv |].
  eapply rtc_l; [exists None; exact c_kmalloc |].
  eapply rtc_l; [exists None; exact c_alloc |].
  eapply rtc_l; [eexists; exact c_store |].
  eapply rtc_l; [exists None; exact c_free | apply rtc_refl].
Defined.

(** The first block is owned all along, and by the end the second is too. *)
Lemma c_owned : Forall (λ g, owned g 0x80008ff4) [b_ghost; g1; g2; g4].
Proof.
  rewrite !Forall_cons. split_and!; [| | | | by constructor]; left; exists 0x80008ff0, 0; (split; [vm_compute; reflexivity |]);
    vm_compute; (split; [discriminate | reflexivity]).
Qed.

Lemma heap_contents_witness : k_mem c4 0x80008ff4 = k_mem booted 0x80008ff4.
Proof.
  pose proof c_owned as Ho. rewrite !Forall_cons in Ho. destruct Ho as (H0 & H1 & H2 & H4 & _).
  apply (heap_contents 10 0x80008ff4 b_ghost booted g4 c4); [apply booted_inv | apply booted_inv | exact H0 |].
  eapply rtc_l; [exists None; split; [exact c_kmalloc | split; [discriminate | exact H1]] |].
  eapply rtc_l; [exists None; split; [exact c_alloc | split; [discriminate | exact H2]] |].
  eapply rtc_l; [eexists; split; [exact c_store | split; [discriminate | exact H2]] |].
  eapply rtc_l; [exists None; split; [exact c_free | split; [discriminate | exact H4]] | apply rtc_refl].
Defined.
End HeapBoot.
