(* ===== verification/VmProps.v ===== *)
(** * Properties of the virtual memory system

    Swapping, fault statistics, the faults that crash the kernel, and the
    arithmetic of address spaces. *)

From stdpp Require Import base list gmap numbers strings.
From Stdlib Require Import ZArith Lia.
From S2P Require Import Prelude Segments Tlb PageTable VmState Ram Kmalloc KFrame Swap AddrSpace LoadElf VmFault Machine.
Import Segments Tlb PageTable VmState Kmalloc KFrame Swap AddrSpace LoadElf VmFault Machine.

#[local] Open Scope Z_scope.

Module VmProps.

(** ** Swapping *)

(** What the swap code relies on of the file layer: [fcontent fs off] are the words
    of the swap file in the page at [off], fewer than 1024 where the file ends.  A
    successful read gives the words there are; a write changes no other whole page,
    whether it succeeds or not (it may fill a gap before the page). *)
Class SwapFile (FS : Type) `{!FileOps FS} := {
  fcontent : FS → Z → list Z;
  open_law fs flags r fs' :
    vfs_open filename flags fs = (r, fs') → ∀ off, fcontent fs' off = fcontent fs off;
  close_law v fs : ∀ off, fcontent (vfs_close v fs) off = fcontent fs off;
  write_law v off ws fs fs' :
    vop_write v off ws fs = (0, fs') → Z.of_nat (length ws) = PAGE_WORDS → fcontent fs' off = ws;
  write_other v off ws fs err fs' :
    vop_write v off ws fs = (err, fs') → Z.of_nat (length ws) = PAGE_WORDS → off mod PAGE_SIZE = 0 →
    ∀ off', off' mod PAGE_SIZE = 0 → off' ≠ off → Z.of_nat (length (fcontent fs off')) = PAGE_WORDS →
      fcontent fs' off' = fcontent fs off';
  read_law v off ws fs fs' :
    vop_read v off PAGE_WORDS fs = ((0, ws), fs') → ws = fcontent fs off;
  read_keeps v off fs r fs' :
    vop_read v off PAGE_WORDS fs = (r, fs') → ∀ off', fcontent fs' off' = fcontent fs off'
}.

Section swap.
Context {FS : Type} {fops : FileOps FS} `{!SwapFile FS}.
Implicit Types s : kstate FS.

Definition page_at s (off : Z) : list Z := fcontent (k_fs s) off.

Lemma length_page_words m base : Z.of_nat (length (page_words m base)) = PAGE_WORDS.
Proof using. unfold page_words. rewrite length_map, length_seqZ. done. Qed.

Lemma page_words_lookup m base i :
  0 <= i < PAGE_WORDS → page_words m base !! Z.to_nat i = Some (m (base + 4 * i)).
Proof using.
  intros Hi. unfold page_words. rewrite list_lookup_fmap, lookup_seqZ_lt by lia. simpl.
  do 3 f_equal. lia.
Qed.

(** Writing a page and reading its words back. *)
Lemma page_words_write m base ws :
  Z.of_nat (length ws) = PAGE_WORDS → page_words (mem_write m base ws) base = ws.
Proof using.
  intros Hl. apply list_eq. intros i.
  destruct (decide (Z.of_nat i < PAGE_WORDS)) as [Hi | Hi].
  - rewrite <- (Nat2Z.id i) at 1. rewrite page_words_lookup by lia. unfold mem_write.
    rewrite (proj2 (Z.leb_le base (base + 4 * Z.of_nat i))) by lia.
    rewrite (proj2 (Z.ltb_lt (base + 4 * Z.of_nat i) _)) by lia.
    replace (base + 4 * Z.of_nat i - base) with (Z.of_nat i * 4) by lia.
    rewrite Z.mod_mul, Z.div_mul, Nat2Z.id by done. simpl.
    destruct (lookup_lt_is_Some_2 ws i) as [x Hx]; [lia |]. by rewrite Hx.
  - rewrite !lookup_ge_None_2; [done | lia |]. pose proof (length_page_words (mem_write m base ws) base). lia.
Qed.

Lemma offset_aligned n : u32 (n * PAGE_SIZE) mod PAGE_SIZE = 0.
Proof using.
  unfold u32, wrap. change (2 ^ 32) with (PAGE_SIZE * 2 ^ 20).
  rewrite Z.mod_mod_divide; [by rewrite Z.mod_mul | by exists (2 ^ 20)].
Qed.

(** A successful [swapOut] stores the page in the first free slot of the swap
    file, records whose page it is, and leaves the other slots alone. *)
Lemma swapOut_ok fuel P s s' :
  swapOut fuel P s = Done 0 s' →
  ∃ i e pe, sf_freeSearch (k_swap s) = Z.of_nat i ∧ k_swap s !! i = Some e ∧
    main_PG (k_pt s) !! Z.to_nat (u32 (P - MIPS_KSEG0) / PAGE_SIZE) = Some pe ∧
    k_swap s' = <[i := mkSf (page_number pe) (pid pe) (p_offset e) (Dirty pe)]> (k_swap s) ∧
    page_at s' (u32 (p_offset e * PAGE_SIZE)) = page_words (k_mem s) P.
Proof using Type*.
  unfold swapOut, gets, mbind, M_bind. unfold sf_freeSearch.
  destruct (first_index _ (k_swap s)) as [i|] eqn:Ei; [| done].
  destruct (first_index_lookup _ _ _ Ei) as (e & He & _).
  destruct (Z.eqb_spec (Z.of_nat i) noEntryFound) as [Hn |]; [unfold noEntryFound in Hn; lia |].
  unfold get_sf, deref. rewrite Nat2Z.id, He. unfold k_vfs_open.
  destruct (vfs_open filename O_RDWR (k_fs s)) as [[r v] fs1] eqn:E1.
  destruct (0 <? r); [done |]. cbn beta iota. unfold k_vop_write. cbn [k_mem k_fs with_k_fs].
  destruct (vop_write v (u32 (p_offset e * PAGE_SIZE)) _ fs1) as [err fs2] eqn:E2.
  unfold k_vfs_close. cbn beta iota. destruct (Z.eqb_spec err 0) as [-> | Herr]; [| done].
  cbn [negb k_pt with_k_fs]. destruct (main_PG (k_pt s) !! _) as [pe|] eqn:Epe; [| done].
  unfold set_sf, modify. cbn beta iota. set (s1 := with_k_swap _ _).
  destruct (free_kpages fuel P s1) as [[] s2 | | |] eqn:E3; [| done | done | done].
  intros [= <-]. exists i, e, pe. split; [done |]. split; [done |]. split; [done |].
  pose proof (keeps_done _ _ _ _ _ (keeps_free_kpages _ outside_swap fuel P) E3) as Ks.
  pose proof (keeps_done _ _ _ _ _ (keeps_free_kpages _ outside_fs fuel P) E3) as Kf.
  split; [by rewrite Ks; simpl; rewrite Nat2Z.id |].
  unfold page_at. rewrite Kf. simpl. rewrite close_law.
  rewrite (write_law _ _ _ _ _ E2) by (apply length_page_words). done.
Qed.

(** The fault handler finds the page again: after a successful [swapOut] the
    lookup by page and process gives the slot it took, if the page was in no
    other slot before; all other pages are where they were. *)
Theorem swapOut_found fuel P s s' pe :
  swapOut fuel P s = Done 0 s' →
  main_PG (k_pt s) !! Z.to_nat (u32 (P - MIPS_KSEG0) / PAGE_SIZE) = Some pe →
  swapfile_checkv1 (k_swap s) (page_number pe) (pid pe) = noEntryFound →
  swapfile_checkv1 (k_swap s') (page_number pe) (pid pe) = sf_freeSearch (k_swap s) ∧
  ∀ j e, Z.of_nat j ≠ sf_freeSearch (k_swap s) → k_swap s !! j = Some e → k_swap s' !! j = Some e.
Proof using Type*.
  intros H Hpe Hnone. destruct (swapOut_ok _ _ _ _ H) as (i & e & pe' & Hi & He & Hpe' & Hsw & _).
  rewrite Hpe in Hpe'. injection Hpe' as <-. rewrite Hi, Hsw. split.
  - revert Hnone. unfold swapfile_checkv1, sf_pageSearch.
    destruct (first_index _ (k_swap s)) as [k|] eqn:Ek; [| intros _].
    { rewrite (proj2 (Z.ltb_ge _ _)), (proj2 (Z.leb_le _ _)) by lia.
      unfold noEntryFound. lia. }
    rewrite first_index_None in Ek.
    rewrite (proj2 (first_index_Some _ _ i)).
    + rewrite (proj2 (Z.ltb_ge _ _)), (proj2 (Z.leb_le _ _)) by lia. done.
    + eexists. split; [apply list_lookup_insert_eq; by apply lookup_lt_Some in He |].
      split; [by rewrite !Z.eqb_refl |]. intros j y Hj Hy.
      rewrite list_lookup_insert_ne in Hy by lia. apply Ek.
      by eapply list_elem_of_lookup_2.
  - intros j e' Hj He'. rewrite list_lookup_insert_ne by lia. done.
Qed.

Lemma addPT_done i vaddr pid' d pg r pg' :
  addPT i vaddr pid' d pg = Done r pg' →
  ∃ e, pg !! Z.to_nat i = Some e ∧ r = 0 ∧
    pg' = <[Z.to_nat i := mkPT d true (u8 pid') (Z.land vaddr PAGE_FRAME / PAGE_SIZE)
                            (victim_counter e)]> pg.
Proof using.
  unfold addPT. mrun. destruct (pg !! Z.to_nat i) as [e|] eqn:E; [| done].
  intros H. exists e. split; [done |]. repeat case_match; by simplify_eq.
Qed.

(** The frame a kernel address belongs to. *)
Definition frame_of (addr : Z) : nat := Z.to_nat (u32 (addr - MIPS_KSEG0) / PAGE_SIZE).

(** Slot [i] holds entry [e], and its page is in the file with the words [ws]. *)
Definition stored (i : nat) (e : list_param) (ws : list Z) s : Prop :=
  k_swap s !! i = Some e ∧ page_at s (u32 (p_offset e * PAGE_SIZE)) = ws.

(** The slots have places of their own in the file, as [swapfile_init] gives them. *)
Definition places_ok s : Prop :=
  ∀ i e, k_swap s !! i = Some e → p_offset e = Z.of_nat i ∧ Z.of_nat i < 2 ^ 20.

Lemma place_ne i j : (i ≠ j)%nat → Z.of_nat i < 2 ^ 20 → Z.of_nat j < 2 ^ 20 →
  u32 (Z.of_nat j * PAGE_SIZE) ≠ u32 (Z.of_nat i * PAGE_SIZE).
Proof using. intros. rewrite !u32_small by zlia. zlia. Qed.

Lemma places_insert s s' i e e' :
  places_ok s → k_swap s !! i = Some e → p_offset e' = p_offset e → k_swap s' = <[i := e']> (k_swap s) →
  places_ok s'.
Proof using.
  intros Hp He Ho E j x. rewrite E. intros [[-> ->] | [_ Hj]]%lookup_insert_cases; [| by apply Hp].
  rewrite Ho. by apply Hp.
Qed.

(** Another [swapOut], whether it succeeds or not, leaves a slot in use and its page
    alone. *)
Lemma swapOut_keeps fuel P r s s' i e ws :
  swapOut fuel P s = Done r s' → places_ok s → stored i e ws s → p_pid e ≠ 0 →
  Z.of_nat (length ws) = PAGE_WORDS → places_ok s' ∧ stored i e ws s'.
Proof using Type*.
  intros H Hp [Hi Hw] Hpid Hl. revert H. unfold swapOut, gets, mbind, M_bind, sf_freeSearch.
  destruct (first_index _ (k_swap s)) as [k|] eqn:Ek; [| done].
  destruct (first_index_lookup _ _ _ Ek) as (x & Hx & Hfree). zbool.
  destruct (Z.eqb_spec (Z.of_nat k) noEntryFound) as [Hn |]; [unfold noEntryFound in Hn; lia |].
  assert (k ≠ i) as Hki by (intros ->; rewrite Hi in Hx; congruence).
  unfold get_sf, deref. rewrite Nat2Z.id, Hx. unfold k_vfs_open.
  destruct (vfs_open filename O_RDWR (k_fs s)) as [[r0 v] fs1] eqn:E1.
  destruct (0 <? r0); [done |]. cbn beta iota. unfold k_vop_write. cbn [k_mem k_fs with_k_fs].
  destruct (vop_write v (u32 (p_offset x * PAGE_SIZE)) _ fs1) as [err fs2] eqn:E2.
  unfold k_vfs_close. cbn beta iota.
  destruct (Hp _ _ Hi) as [Hoi Hi20]. destruct (Hp _ _ Hx) as [Hok Hk20].
  assert (fcontent (vfs_close v fs2) (u32 (p_offset e * PAGE_SIZE)) = ws) as Hws.
  { rewrite close_law. rewrite <- Hw. unfold page_at.
    rewrite <- (open_law _ _ _ _ E1), (write_other _ _ _ _ _ _ E2); [done | apply length_page_words
      | apply offset_aligned | apply offset_aligned | rewrite Hoi, Hok; by apply place_ne |].
    rewrite (open_law _ _ _ _ E1). change (fcontent (k_fs s)) with (page_at s). by rewrite Hw. }
  destruct (negb (err =? 0)).
  { intros [= _ <-]. split; [exact Hp |]. split; [exact Hi | exact Hws]. }
  cbn [k_pt with_k_fs]. destruct (main_PG (k_pt s) !! _) as [pe|] eqn:Epe; [| done].
  unfold set_sf, modify. cbn beta iota. set (s1 := with_k_swap _ _).
  destruct (free_kpages fuel P s1) as [[] s2 | | |] eqn:E3; [| done | done | done].
  intros [= _ <-].
  pose proof (keeps_done _ _ _ _ _ (keeps_free_kpages _ outside_swap fuel P) E3) as Ks.
  pose proof (keeps_done _ _ _ _ _ (keeps_free_kpages _ outside_fs fuel P) E3) as Kf.
  assert (k_swap s2 = <[k := mkSf (page_number pe) (pid pe) (p_offset x) (Dirty pe)]> (k_swap s)) as Es
    by (rewrite Ks; simpl; by rewrite Nat2Z.id).
  split; [refine (places_insert s s2 k x _ Hp Hx _ Es); done |]. split.
  - rewrite Es, list_lookup_insert_ne by done. done.
  - unfold page_at. rewrite Kf. exact Hws.
Qed.

(** So does a [swapIn] of another slot. *)
Lemma swapIn_keeps fuel j r s s' i e ws :
  swapIn fuel (Z.of_nat j) s = Done r s' → j ≠ i → places_ok s → stored i e ws s →
  places_ok s' ∧ stored i e ws s'.
Proof using Type*.
  intros H Hji Hp [Hi Hw].
  assert (wlp (swapIn fuel (Z.of_nat j)) (λ _ s', places_ok s' ∧ stored i e ws s') (λ _, True) s) as W;
    [| by apply (wlp_done _ _ _ _ _ _ H W)].
  unfold swapIn. wstep.
  assert (∀ s0, k_swap s0 = k_swap s → k_fs s0 = k_fs s → places_ok s0 ∧ stored i e ws s0) as Hsame.
  { intros s0 E1 E2. unfold places_ok, stored, page_at. by rewrite E1, E2. }
  eapply wlp_mono; [| | apply (keeps_alloc_kpages (λ s, (k_swap s, k_fs s)))]; [| done | done].
  cbn beta. intros ra s1 [= K1 K2]. destruct (ra =? 0); [exact I |]. wstep. unfold get_sf. wstep.
  rewrite Nat2Z.id, K1 in *. wstep.
  unfold wlp at 1, on_PG, zoom. destruct (addPT _ _ _ _ _) as [r1 pg1 | | |]; try done.
  destruct (negb (r1 =? 0)); [wstep; apply Hsame; done |]. wstep. wstep. wstep.
  unfold wlp at 1, on_tlb, zoom. destruct (addTLB _ _ _ _) as [r2 t1 | | |]; try done.
  destruct (negb (r2 =? 0)); [wstep; apply Hsame; done |]. wstep.
  unfold wlp at 1, k_vfs_open. cbn [k_fs with_k_tlb upd_pt with_k_pt]. rewrite K2.
  destruct (vfs_open filename O_RDWR (k_fs s)) as [[r3 v] fs1] eqn:E1.
  destruct (0 <? r3); [done |]. wstep.
  unfold wlp at 1, k_vop_read. cbn [k_fs with_k_fs].
  destruct (vop_read v _ PAGE_WORDS fs1) as [[err ws'] fs2] eqn:E2. wstep. wstep. wstep.
  unfold wlp at 1, k_vfs_close. cbn [k_fs with_k_fs with_k_mem].
  assert (∀ off, fcontent (vfs_close v fs2) off = page_at s off) as Hf.
  { intros off. rewrite close_law, (read_keeps _ _ _ _ _ E2). apply (open_law _ _ _ _ E1). }
  destruct (negb (err =? 0)).
  { wstep. split; [unfold places_ok; cbn; by rewrite K1 |]. split; cbn; [by rewrite K1 |].
    unfold page_at. cbn. by rewrite Hf. }
  wstep. unfold set_sf. wstep. wstep. split.
  - refine (places_insert s _ j a (mkSf 0 0 (p_offset a) false) Hp _ eq_refl _); [done |]. cbn. by rewrite Nat2Z.id, K1.
  - split; cbn.
    + by rewrite Nat2Z.id, K1, list_lookup_insert_ne.
    + unfold page_at. cbn. by rewrite Hf.
Qed.

(** What may happen while a page is in slot [i]: other pages are swapped out and in, and
    anything else that leaves the swap table and the page in the file alone. *)
Inductive meanwhile (i : nat) : kstate FS → kstate FS → Prop :=
| mw_end s : meanwhile i s s
| mw_out fuel P r s s1 s2 : swapOut fuel P s = Done r s1 → meanwhile i s1 s2 → meanwhile i s s2
| mw_in fuel j r s s1 s2 :
    j ≠ i → swapIn fuel (Z.of_nat j) s = Done r s1 → meanwhile i s1 s2 → meanwhile i s s2
| mw_other s s1 s2 :
    k_swap s1 = k_swap s →
    (∀ e, k_swap s !! i = Some e →
       page_at s1 (u32 (p_offset e * PAGE_SIZE)) = page_at s (u32 (p_offset e * PAGE_SIZE))) →
    meanwhile i s1 s2 → meanwhile i s s2.

Lemma meanwhile_keeps i s s' e ws :
  meanwhile i s s' → places_ok s → stored i e ws s → p_pid e ≠ 0 →
  Z.of_nat (length ws) = PAGE_WORDS → stored i e ws s'.
Proof using Type*.
  intros H. induction H as [s | fuel P r s s1 s2 E H IH | fuel j r s s1 s2 Hj E H IH | s s1 s2 Es Ep H IH];
    intros Hp Hs Hpid Hl.
  - done.
  - destruct (swapOut_keeps _ _ _ _ _ _ _ _ E Hp Hs Hpid Hl). by apply IH.
  - destruct (swapIn_keeps _ _ _ _ _ _ _ _ E Hj Hp Hs). by apply IH.
  - apply IH; [unfold places_ok; by rewrite Es | | done | done]. destruct Hs as [Hi Hw].
    split; [by rewrite Es | by rewrite Ep].
Qed.

(** A successful [swapIn] frees the slot, enters the page in the table with the
    process and permission the slot recorded, and fills the frame with the page
    stored in the file. *)
Lemma swapIn_ok fuel i s s' :
  swapIn fuel (Z.of_nat i) s = Done 0 s' →
  ∃ P e c, k_swap s !! i = Some e ∧
    k_swap s' = <[i := mkSf 0 0 (p_offset e) false]> (k_swap s) ∧
    main_PG (k_pt s') !! frame_of P =
      Some (mkPT (sf_Dirty e) true (u8 (p_pid e))
              (Z.land (u32 (p_number e * PAGE_SIZE)) PAGE_FRAME / PAGE_SIZE) c) ∧
    (Z.of_nat (length (page_at s (u32 (p_offset e * PAGE_SIZE)))) = PAGE_WORDS →
       page_words (k_mem s') P = page_at s (u32 (p_offset e * PAGE_SIZE))).
Proof using Type*.
  unfold swapIn. intros H. apply bind_done_inv in H as (P & s1 & E1 & H).
  pose proof (keeps_done _ _ _ _ _ (keeps_alloc_kpages _ outside_swap fuel 1) E1) as Ks.
  pose proof (keeps_done _ _ _ _ _ (keeps_alloc_kpages _ outside_fs fuel 1) E1) as Kf.
  destruct (P =? 0); [done |].
  apply bind_done_inv in H as (e & s1' & E2 & H). unfold get_sf, deref in E2.
  rewrite Nat2Z.id, Ks in E2. destruct (k_swap s !! i) as [e'|] eqn:Ei; [| done].
  injection E2 as -> <-.
  apply bind_done_inv in H as (r & s2 & E3 & H). unfold on_PG, zoom in E3.
  destruct (addPT _ _ _ _ _) as [r' pg' | | |] eqn:E4; [| done | done | done].
  injection E3 as -> <-. apply addPT_done in E4 as (pe & Hpe & -> & ->).
  cbn [negb Z.eqb] in H. apply bind_done_inv in H as (pg & s3 & E5 & H).
  injection E5 as _ <-. apply bind_done_inv in H as (r & s4 & E6 & H).
  unfold on_tlb, zoom in E6. destruct (addTLB _ _ _ _) as [r' t' | | |]; try done.
  injection E6 as -> <-. destruct (negb (r =? 0)); [done |].
  revert H. unfold k_vfs_open, k_vop_read, k_vfs_close, set_sf. mrun. simpl.
  destruct (vfs_open filename O_RDWR _) as [[r1 v] fs1] eqn:E7.
  destruct (0 <? r1); [done |]. simpl.
  destruct (vop_read v _ _ fs1) as [[err ws] fs2] eqn:E8. simpl.
  destruct (Z.eqb_spec err 0) as [-> | _]; [| done]. intros [= <-]. simpl.
  apply read_law in E8 as ->. exists P, e, (victim_counter pe).
  split; [done |]. split; [by rewrite Nat2Z.id, Ks |]. split.
  - unfold frame_of. rewrite list_lookup_insert_eq; [done |].
    by apply lookup_lt_Some in Hpe.
  - unfold page_at. rewrite (open_law _ _ _ _ E7). simpl. rewrite Kf. intros Hl.
    by rewrite page_words_write.
Qed.

Lemma page_number_roundtrip n :
  0 <= n < 2 ^ 20 → Z.land (u32 (n * PAGE_SIZE)) PAGE_FRAME / PAGE_SIZE = n.
Proof using.
  intros Hn. assert (fits 32 (n * PAGE_SIZE)) as Hf by zlia.
  unfold u32, wrap. rewrite Z.mod_small by apply Hf. rewrite page_of_frame by done.
  by apply Z.div_mul.
Qed.

(** C4: What [swapOut] stores, [swapIn] brings back: the page gets a frame with the
    same words, entered in the page table for the same process, page and
    permission, and the slot is free again.  Between the two any number of other pages
    may be swapped out and in, successfully or not, and anything else may happen that
    leaves the swap table and this page in the file alone. *)
Theorem swap_roundtrip fuel fuel' P s s1 s2 s3 pe i :
  places_ok s → swapOut fuel P s = Done 0 s1 →
  main_PG (k_pt s) !! frame_of P = Some pe →
  0 <= page_number pe < 2 ^ 20 → 0 < pid pe < 2 ^ 8 →
  sf_freeSearch (k_swap s) = Z.of_nat i →
  meanwhile i s1 s2 →
  swapIn fuel' (Z.of_nat i) s2 = Done 0 s3 →
  ∃ P' c, page_words (k_mem s3) P' = page_words (k_mem s) P ∧
    main_PG (k_pt s3) !! frame_of P' =
      Some (mkPT (Dirty pe) true (pid pe) (page_number pe) c) ∧
    ∃ e, k_swap s3 !! i = Some e ∧ p_number e = 0 ∧ p_pid e = 0.
Proof using Type*.
  intros Hpl Hout Hpe Hn Hp Hi Hmw Hin.
  destruct (swapOut_ok _ _ _ _ Hout) as (i' & e & pe' & Hi' & He & Hpe' & Hsw & Hpg).
  assert (i' = i) as -> by lia. unfold frame_of in Hpe. rewrite Hpe in Hpe'.
  injection Hpe' as <-. pose proof (lookup_lt_Some _ _ _ He) as Hlt.
  destruct (meanwhile_keeps i s1 s2 (mkSf (page_number pe) (pid pe) (p_offset e) (Dirty pe))
    (page_words (k_mem s) P) Hmw) as [He2' Hpg2].
  { refine (places_insert s s1 i e _ Hpl He _ Hsw). done. }
  { split; [by rewrite Hsw, list_lookup_insert_eq | exact Hpg]. }
  { simpl. lia. }
  { apply length_page_words. }
  destruct (swapIn_ok _ _ _ _ Hin) as (P' & e2 & c & He2 & Hsw3 & Hpt & Hw).
  rewrite He2' in He2. injection He2 as <-. simpl in *. exists P', c. split; [| split].
  - rewrite Hw; rewrite Hpg2; [done | apply length_page_words].
  - rewrite Hpt, page_number_roundtrip by done. unfold u8, wrap. by rewrite (Z.mod_small (pid pe)) by lia.
  - rewrite Hsw3. eexists (mkSf 0 0 (p_offset e) false). split; [| done]. apply list_lookup_insert_eq.
    by eapply lookup_lt_Some.
Qed.
End swap.

#[export] Instance pagestore_swap : SwapFile pagestore.
Proof.
  refine {| fcontent := λ fs off, resize (Z.to_nat PAGE_WORDS) 0 (fs off) |}.
  - by intros fs flags r fs' [= _ <-].
  - done.
  - intros v off ws fs fs' [= <-] Hl. rewrite Z.eqb_refl. apply resize_all_alt. lia.
  - intros v off ws fs err fs' [= _ <-] Hl _ off' _ Hne _. by rewrite (proj2 (Z.eqb_neq _ _) Hne).
  - by intros v off ws fs fs' [= <- _].
  - by intros v off fs r fs' [= _ <-].
Defined.

(** The page of process 1 is swapped out; then one of process 2 goes out as well and
    comes back, and so does the first. *)
Definition w_out : M0 := after (swapOut 10 0x8000a000 w_page) w_page.
Definition w_mid : M0 := upd_proc (with_curproc 0x80001100) w_out.
Definition w_mid1 : M0 := after (alloc_pages 10 1 0x10003000 true w_mid) w_mid.
Definition w_mid2 : M0 := after (swapOut 10 0x8000a000 w_mid1) w_mid1.
Definition w_mid3 : M0 := after (swapIn 10 1 w_mid2) w_mid2.
Definition w_in : M0 := after (swapIn 10 0 w_mid3) w_mid3.

Lemma w_places : places_ok w_page.
Proof.
  intros i e H. assert (Forall2 (λ (j : nat) x, p_offset x = Z.of_nat j) (seq 0 (length (k_swap w_page))) (k_swap w_page)) as HF.
  { apply (bool_decide_unpack _). vm_compute. exact I. }
  pose proof (lookup_lt_Some _ _ _ H) as Hlt. replace (length (k_swap w_page)) with 2304%nat in * by (vm_compute; reflexivity).
  split; [| lia]. apply (Forall2_lookup_lr _ _ _ i i e HF); [| done].
  apply lookup_seq. split; [lia | done].
Qed.

Lemma swap_roundtrip_witness :
  ∃ P' c, page_words (k_mem w_in) P' = page_words (k_mem w_page) 0x8000a000 ∧
    main_PG (k_pt w_in) !! frame_of P' = Some (mkPT true true 1 0x10001 c) ∧
    ∃ e, k_swap w_in !! 0%nat = Some e ∧ p_number e = 0 ∧ p_pid e = 0.
Proof.
  apply (swap_roundtrip 10 10 0x8000a000 w_page w_out w_mid3 w_in
           (mkPT true true 1 0x10001 1) 0).
  - exact w_places.
  - apply after_done. vm_compute. reflexivity.
  - vm_compute. reflexivity.
  - simpl. lia.
  - simpl. lia.
  - vm_compute. reflexivity.
  - apply (mw_other 0 w_out w_mid1); [vm_compute; reflexivity | |].
    { intros e _. unfold page_at. replace (k_fs w_mid1) with (k_fs w_out); [reflexivity |].
      vm_compute. reflexivity. }
    apply (mw_out 0 10 0x8000a000 0 w_mid1 w_mid2); [apply after_done; vm_compute; reflexivity |].
    apply (mw_in 0 10 1 0 w_mid2 w_mid3); [lia | apply after_done; vm_compute; reflexivity |].
    apply mw_end.
  - apply after_done. vm_compute. reflexivity.
Defined.

Lemma swapOut_found_witness :
  swapfile_checkv1 (k_swap w_out) 0x10001 1 = 0.
Proof.
  destruct (swapOut_found 10 0x8000a000 w_page w_out (mkPT true true 1 0x10001 1)) as [H _].
  - apply after_done. vm_compute. reflexivity.
  - vm_compute. reflexivity.
  - vm_compute. reflexivity.
  - etransitivity; [exact H |]. vm_compute. reflexivity.
Defined.
End VmProps.
