(* ===== verification/FaultProps.v ===== *)
(** * Properties of page faults and address spaces

    The reload path of [vm_fault], the faults that stop the kernel, the
    statistics, process kill on a read-only fault, TLB flushing on context
    switch, and the arithmetic of [as_define_region] and [load_elf]. *)

From stdpp Require Import base list gmap numbers strings.
From Stdlib Require Import ZArith Lia.
From S2P Require Import Prelude Segments Tlb PageTable VmState Ram Kmalloc KFrame Swap AddrSpace LoadElf VmFault Machine.
Import Segments Tlb PageTable VmState Kmalloc KFrame Swap AddrSpace LoadElf VmFault Machine.

#[local] Open Scope Z_scope.

Module FaultProps.

(** [addTLB] on a page the TLB does not map, called with any address of the page
    or with its first one. *)
Lemma addTLB_maps t pg va pid' n e :
  tlb_ok t → 0 <= va < MIPS_KSEG0 → Z.of_nat (length pg) <= 2 ^ 17 →
  translate t (Z.land va PAGE_FRAME) = None →
  first_index (pt_matches (va / PAGE_SIZE) pid') pg = Some n → pg !! n = Some e →
  ∃ t', addTLB pg va pid' t = Done 0 t' ∧
    addTLB pg (Z.land va PAGE_FRAME) pid' t = Done 0 t' ∧ tlb_ok t' ∧
    (∃ w, translate t' (Z.land va PAGE_FRAME) = Some (frame_elo (Z.of_nat n) w) ∧
          (Dirty e = true → w = true)) ∧
    ∀ vp lo, vp ≠ Z.land va PAGE_FRAME → translate t' vp = Some lo → translate t vp = Some lo.
Proof.
  intros Hok Hv Hl Ht Hn He. pose proof (page_frame_user va Hv) as Hu.
  set (hi := Z.land va PAGE_FRAME) in *.
  exists (added t hi (Z.of_nat n) (Dirty e)).
  split; [by apply addTLB_eq |]. split.
  { rewrite (addTLB_eq t pg hi pid' n e); [| done | apply Hu | done | | | done];
      rewrite ?(user_page_frame hi Hu); [done.. |].
    unfold hi. rewrite page_of_frame by zlia. done. }
  pose proof (added_ok t hi (Z.of_nat n) (Dirty e) Hok Hu Ht) as Hok'. split; [done |].
  assert (∃ i e0 w, slot_written t (added t hi (Z.of_nat n) (Dirty e)) i (hi, frame_elo (Z.of_nat n) w) ∧
    entries t !! i = Some e0 ∧ (Dirty e = true → w = true)) as (i & e0 & w & Hw & He0 & Hd).
  { destruct (free_slot t) as [i|] eqn:Hs.
    - pose proof (added_written t hi (Z.of_nat n) (Dirty e) i Hok Hs) as Hw.
      apply first_index_lookup in Hs as (e0 & He0 & _). by exists i, e0, (Dirty e).
    - pose proof (replaced_written t hi (Z.of_nat n) (Dirty e) Hok Hs) as Hw.
      destruct (lookup_lt_is_Some_2 (entries t) (Z.to_nat (next_victim t))) as [e0 He0].
      { rewrite ok_len by done. destruct (ok_next t Hok). unfold NUM_TLB in *. lia. }
      by exists (Z.to_nat (next_victim t)), e0, true. }
  pose proof (translate_write_valid t _ i e0 _ _ Hok Hok' Hw He0 (frame_elo_valid hi (Z.of_nat n) w)) as Htr.
  split.
  - exists w. split; [| done]. by rewrite Htr, Z.eqb_refl.
  - intros vp lo Hne. rewrite Htr, (proj2 (Z.eqb_neq _ _) Hne). by case_if.
Qed.

Section faults.
Context {FS : Type} {fops : FileOps FS} {uio : UserIO FS}.
Implicit Types s : kstate FS.

(** The running process [p], with an address space. *)
Record running s (p : proc) : Prop := {
  run_cur : curproc (k_proc s) ≠ 0;
  run_proc : procs (k_proc s) !! curproc (k_proc s) = Some p;
  run_as : p_addrspace p ≠ 0
}.

Lemma cur_proc_eq s p : running s p → cur_proc s = Done p s.
Proof using. intros [? H ?]. unfold cur_proc, deref. by rewrite H. Qed.

Lemma proc_getas_eq s p : running s p → proc_getas s = Done (p_addrspace p) s.
Proof using.
  intros H. unfold proc_getas. mrun.
  destruct (Z.eqb_spec (curproc (k_proc s)) 0) as [E | _]; [by destruct H |].
  by rewrite (cur_proc_eq _ _ H).
Qed.

(** The statistics every fault starts with. *)
Definition counted (s : kstate FS) : kstate FS :=
  upd_stats (if c_bool (freeTLBEntries (k_tlb s)) then inc_wFree else inc_wReplace)
    (upd_stats inc_TLB_Faults s).

Lemma vm_fault_eq fuel ft va s p :
  running s p →
  vm_fault fuel ft va s =
    (if ft =? VM_FAULT_READONLY then vm_fault_readonly fuel
     else if ft =? VM_FAULT_READ then vm_fault_read fuel va (p_addrspace p)
     else if ft =? VM_FAULT_WRITE then vm_fault_write fuel va (p_addrspace p)
     else mret EINVAL) (counted s).
Proof using.
  intros H. unfold vm_fault. mrun. rewrite (proc_getas_eq _ _ H).
  destruct (Z.eqb_spec (p_addrspace p) 0) as [E | _]; [by destruct H |].
  unfold stat, modify. cbn [mbind M_bind]. done.
Qed.

Lemma counted_running s p : running s p → running (counted s) p.
Proof using. by intros []. Qed.

(** ** Reloading the TLB *)

(** Some process has the page of [va] in the table: what [pageSearch] looks for. *)
Definition listed (pg : list invertedPT) (va : Z) : Prop :=
  ∃ e, e ∈ pg ∧ Valid e = true ∧ page_number e = va / PAGE_SIZE.
(** Frame 0 belongs to the kernel. *)
Definition frame0_kernel (pg : list invertedPT) : Prop := ∀ e, pg !! 0%nat = Some e → page_number e = 0.

Lemma pageSearch_listed pg va :
  frame0_kernel pg → PAGE_SIZE <= va → listed pg va → 0 < pageSearch pg va.
Proof using.
  intros H0 Hva (e & He & Hv & Hn). unfold pageSearch.
  destruct (first_index _ pg) as [m|] eqn:Em.
  - destruct m as [|m]; [| lia]. apply first_index_lookup in Em as (e0 & He0 & Hz). zbool.
    rewrite (H0 _ He0) in *. pose proof (Z.div_le_mono PAGE_SIZE va PAGE_SIZE eq_refl Hva) as Hd.
    rewrite Z.div_same in Hd by done. lia.
  - rewrite first_index_None in Em. specialize (Em _ He). rewrite Hv, Hn, Z.eqb_refl in Em. done.
Qed.

(** A fault on a page that is in the table: [addTLB] decides. *)
Lemma vm_fault_listed fuel ft va s p :
  (ft = VM_FAULT_READ ∨ ft = VM_FAULT_WRITE) → running s p → 0 < pageSearch (main_PG (k_pt s)) va →
  vm_fault fuel ft va s =
    (r ← on_tlb (addTLB (main_PG (k_pt s)) (if ft =? VM_FAULT_READ then Z.land va PAGE_FRAME else va) (p_id p));
     if negb (r =? 0) then mret (if ft =? VM_FAULT_READ then EINVAL else 1)
     else stat inc_Reloads ;; mret 0) (counted s).
Proof using.
  intros Hft Hrun Hs. rewrite (vm_fault_eq _ _ _ _ _ Hrun). set (c := counted s).
  pose proof (cur_proc_eq _ _ (counted_running _ _ Hrun)) as Hcur. fold c in Hcur.
  destruct Hft as [-> | ->]; cbn -[vm_fault_read vm_fault_write].
  - unfold vm_fault_read. mrun. rewrite Hcur. change (main_PG (k_pt c)) with (main_PG (k_pt s)).
    by rewrite (proj2 (Z.ltb_lt 0 _)).
  - unfold vm_fault_write. mrun. rewrite Hcur. change (main_PG (k_pt c)) with (main_PG (k_pt s)).
    by rewrite (proj2 (Z.ltb_ge _ 0)) by lia.
Qed.

(** A fault on a page the running process has in memory. *)
Lemma vm_fault_resident fuel ft va s p n :
  (ft = VM_FAULT_READ ∨ ft = VM_FAULT_WRITE) →
  running s p → tlb_ok (k_tlb s) → PAGE_SIZE <= va < MIPS_KSEG0 →
  Z.of_nat (length (main_PG (k_pt s))) <= 2 ^ 17 → frame0_kernel (main_PG (k_pt s)) →
  listed (main_PG (k_pt s)) va → translate (k_tlb s) (Z.land va PAGE_FRAME) = None →
  first_index (pt_matches (va / PAGE_SIZE) (p_id p)) (main_PG (k_pt s)) = Some n →
  ∃ t e, vm_fault fuel ft va s = Done 0 (upd_stats inc_Reloads (with_k_tlb t (counted s))) ∧
    tlb_ok t ∧ main_PG (k_pt s) !! n = Some e ∧
    (∃ w, translate t (Z.land va PAGE_FRAME) = Some (frame_elo (Z.of_nat n) w) ∧ (Dirty e = true → w = true)) ∧
    ∀ vp lo, vp ≠ Z.land va PAGE_FRAME → translate t vp = Some lo → translate (k_tlb s) vp = Some lo.
Proof using.
  intros Hft Hrun Hok Hva Hlen H0 Hl Ht Hm.
  rewrite (vm_fault_listed fuel ft va s p Hft Hrun) by (apply pageSearch_listed; done || lia).
  destruct (first_index_lookup _ _ _ Hm) as (e & He & _).
  destruct (addTLB_maps (k_tlb s) (main_PG (k_pt s)) va (p_id p) n e) as
    (t & Ew & Er & Hok' & Hw & Ho); [done | zlia | done.. |].
  exists t, e. split; [| done]. unfold mbind, M_bind, on_tlb, zoom. change (k_tlb (counted s)) with (k_tlb s).
  destruct Hft as [-> | ->]; cbn [Z.eqb VM_FAULT_READ VM_FAULT_WRITE]; by rewrite ?Er, ?Ew.
Qed.

(** C6: A read or write fault of the running process on a page above page 0 that the page
    table lists and the TLB does not map.  When the process itself has the page, in frame
    [n], the fault returns 0 with the page mapped to that frame, whether other processes
    have a page of the same number or not; page table, memory and files are untouched and
    one fault and one reload are counted.  When only other processes have it, the search
    finds theirs and the kernel panics. *)
Theorem vm_fault_reload fuel ft va s p :
  (ft = VM_FAULT_READ ∨ ft = VM_FAULT_WRITE) →
  running s p → tlb_ok (k_tlb s) → PAGE_SIZE <= va < MIPS_KSEG0 →
  Z.of_nat (length (main_PG (k_pt s))) <= 2 ^ 17 → frame0_kernel (main_PG (k_pt s)) →
  listed (main_PG (k_pt s)) va →
  translate (k_tlb s) (Z.land va PAGE_FRAME) = None →
  match first_index (pt_matches (va / PAGE_SIZE) (p_id p)) (main_PG (k_pt s)) with
  | Some n =>
      ∃ t e, vm_fault fuel ft va s =
             Done 0 (upd_stats inc_Reloads (with_k_tlb t (counted s))) ∧
        tlb_ok t ∧ main_PG (k_pt s) !! n = Some e ∧
        ∃ w, translate t (Z.land va PAGE_FRAME) = Some (frame_elo (Z.of_nat n) w) ∧
             (Dirty e = true → w = true)
  | None => vm_fault fuel ft va s = Panic "Error in addTLB from pageSearch"
  end.
Proof using.
  intros Hft Hrun Hok Hva Hlen H0 Hl Ht.
  destruct (first_index _ _) as [n|] eqn:Hm.
  - destruct (vm_fault_resident fuel ft va s p n) as (t & e & E & Hok' & He & Hw & _); try done. by exists t, e.
  - rewrite (vm_fault_listed fuel ft va s p Hft Hrun) by (apply pageSearch_listed; done || lia).
    unfold mbind, M_bind, on_tlb, zoom, addTLB. destruct Hft as [-> | ->]; cbn [Z.eqb VM_FAULT_READ VM_FAULT_WRITE];
      rewrite ?page_of_frame by zlia; by rewrite Hm.
Qed.

(** ** Faults that stop the kernel *)

(** Page 0 is no exception: a write to it by a process without it panics, because the
    frames of the kernel are listed with page number 0. *)
Theorem foreign_page_panics fuel va s p n :
  running s p → 0 <= va < MIPS_KSEG0 →
  first_index (λ e, Valid e && (page_number e =? va / PAGE_SIZE)) (main_PG (k_pt s)) = Some n →
  first_index (pt_matches (va / PAGE_SIZE) (p_id p)) (main_PG (k_pt s)) = None →
  vm_fault fuel VM_FAULT_WRITE va s = Panic "Error in addTLB from pageSearch".
Proof using.
  intros Hrun Hva Hs Hm. rewrite (vm_fault_eq _ _ _ _ _ Hrun). set (c := counted s).
  pose proof (cur_proc_eq _ _ (counted_running _ _ Hrun)) as Hcur. fold c in Hcur.
  cbn -[vm_fault_write]. unfold vm_fault_write. mrun. rewrite Hcur.
  change (main_PG (k_pt c)) with (main_PG (k_pt s)).
  unfold pageSearch. rewrite Hs, (proj2 (Z.ltb_ge (Z.of_nat n) 0)) by lia.
  unfold on_tlb, zoom, addTLB. by rewrite Hm.
Qed.

(** ** Statistics *)

(** The first and the third of the sums [print_vm_stat] checks. *)
Definition stats_ok (x : stats) : Prop :=
  u32 (TLB_Faults_wFree x + TLB_Faults_wReplace x) = TLB_Faults x ∧
  u32 (PF_ELF x + PF_Swapfile x) = PF_Disk x.

Lemma stats_ok_print x :
  stats_ok x ↔ fst (fst (print_vm_stat x)) = true ∧ snd (print_vm_stat x) = true.
Proof using. unfold stats_ok, print_vm_stat. simpl. by rewrite !Z.eqb_eq. Qed.

Lemma u32_add_r a b : u32 (a + u32 b) = u32 (a + b).
Proof using. unfold u32, wrap. apply Zplus_mod_idemp_r. Qed.
Lemma u32_add_l a b : u32 (u32 a + b) = u32 (a + b).
Proof using. unfold u32, wrap. apply Zplus_mod_idemp_l. Qed.

Ltac stats_solve :=
  let H1 := fresh in let H2 := fresh in
  intros x [H1 H2]; split; simpl; rewrite <- ?H1, <- ?H2, ?u32_add_l, ?u32_add_r; 
  unfold Z.sub; rewrite ?u32_add_l, ?u32_add_r; f_equal; lia.

Lemma stats_ok_fault (b : bool) x :
  stats_ok x → stats_ok ((if b then inc_wFree else inc_wReplace) (inc_TLB_Faults x)).
Proof using. revert x. destruct b; stats_solve. Qed.
Lemma stats_ok_unfault (b : bool) x :
  stats_ok x → stats_ok ((if b then dec_wFree else dec_wReplace) (dec_TLB_Faults x)).
Proof using. revert x. destruct b; stats_solve. Qed.
Lemma stats_ok_elf x : stats_ok x → stats_ok (inc_PF_ELF (inc_PF_Disk x)).
Proof using. revert x. stats_solve. Qed.
Lemma stats_ok_swap x : stats_ok x → stats_ok (inc_PF_Swapfile (inc_PF_Disk x)).
Proof using. revert x. stats_solve. Qed.
Lemma stats_ok_swap' x : stats_ok x → stats_ok (inc_PF_Disk (inc_PF_Swapfile x)).
Proof using. revert x. stats_solve. Qed.

(** Code that does not touch the statistics. *)
Abbreviation quiet := (keeps (k_stats (FS:=FS))).

Lemma quiet_modify f : (∀ s, k_stats (f s) = k_stats s) → quiet (modify f).
Proof using. apply keeps_modify. Qed.
Lemma quiet_file {A} (m : FS → A * FS) :
  quiet (λ s, let '(r, fs) := m (k_fs s) in Done r (with_k_fs fs s)).
Proof using. intros s. unfold wlp. by destruct (m (k_fs s)). Qed.
Lemma quiet_close v : quiet (k_vfs_close v).
Proof using. done. Qed.
Lemma quiet_exit : quiet thread_exit.
Proof using. done. Qed.
#[local] Hint Resolve quiet_file quiet_close quiet_exit : keeps.
#[local] Hint Extern 1 (keeps _ (k_vfs_open _ _)) => apply quiet_file : keeps.
#[local] Hint Extern 1 (keeps _ (k_vop_read _ _ _)) => apply quiet_file : keeps.
#[local] Hint Extern 1 (keeps _ (k_vop_write _ _ _)) => apply quiet_file : keeps.
#[local] Hint Extern 1 (keeps _ (modify _)) => apply quiet_modify; reflexivity : keeps.

Ltac quiet :=
  repeat (keeps_step || solve [auto with keeps] ||
    (progress (unfold get_sf, set_sf, get_as, set_as, cur_proc, set_cur_proc, proc_getas,
       find_victim, read_words))).

Lemma quiet_swapOut fuel P : quiet (swapOut fuel P).
Proof using. unfold swapOut. quiet. Qed.
Lemma quiet_swapIn fuel i : quiet (swapIn fuel i).
Proof using. unfold swapIn. quiet. Qed.
Lemma quiet_alloc_pages fuel n va d : quiet (alloc_pages fuel n va d).
Proof using. unfold alloc_pages. quiet. Qed.
#[local] Hint Resolve quiet_swapOut quiet_swapIn quiet_alloc_pages : keeps.
Lemma quiet_define_region fuel a va m r w x : quiet (as_define_region fuel a va m r w x).
Proof using. unfold as_define_region, map_region. quiet. Qed.
Lemma quiet_prepare_load fuel a : quiet (as_prepare_load fuel a).
Proof using. unfold as_prepare_load. quiet. Qed.
Lemma quiet_destroy fuel a : quiet (as_destroy fuel a).
Proof using. unfold as_destroy, free_process_frames. quiet. Qed.
Lemma quiet_read_phdr v eh i : quiet (read_phdr v eh i).
Proof using. unfold read_phdr. quiet. Qed.
#[local] Hint Resolve quiet_define_region quiet_prepare_load quiet_destroy
  quiet_read_phdr : keeps.
Lemma quiet_define_regions fuel n a v eh st i : quiet (define_regions fuel n a v eh st i).
Proof using. revert i. induction n as [|n IH]; intros i; simpl; quiet. Qed.
#[local] Hint Resolve quiet_define_regions : keeps.

Abbreviation SI := (λ s, stats_ok (k_stats s)).

Lemma quiet_SI {A} (m : M (kstate FS) A) : quiet m → preserves SI m.
Proof using. apply (keeps_preserves k_stats stats_ok). Qed.

(** Two counters that move together. *)
Lemma SI_pair {A} f g (k : M (kstate FS) A) :
  (∀ x, stats_ok x → stats_ok (g (f x))) → preserves SI k →
  preserves SI (stat f ;; stat g ;; k).
Proof using. intros H Hk s Hs. apply Hk. by apply H. Qed.
Lemma SI_pair_end f g :
  (∀ x, stats_ok x → stats_ok (g (f x))) → preserves SI (stat f ;; stat g).
Proof using. intros H s Hs. by apply H. Qed.
Lemma SI_count {A} f (g : bool → stats → stats) (k : M (kstate FS) A) :
  (∀ b x, stats_ok x → stats_ok (g b (f x))) → preserves SI k →
  preserves SI (stat f ;; free ← gets (λ s, freeTLBEntries (k_tlb s));
                stat (g (c_bool free)) ;; k).
Proof using. intros H Hk s Hs. apply Hk. by apply H. Qed.
Lemma SI_other f :
  (∀ x, stats_ok x → stats_ok (f x)) → preserves SI (stat f).
Proof using. intros H s Hs. by apply H. Qed.

Lemma SI_reloads : preserves SI (stat inc_Reloads).
Proof using. by apply SI_other. Qed.
Lemma SI_writes : preserves SI (stat inc_SF_Writes).
Proof using. by apply SI_other. Qed.

Section user_read.
(** Reading into user space may take page faults of its own. *)
Hypothesis user_read : ∀ v off va msz fsz ex,
  preserves SI (vop_read_user v off va msz fsz ex).
#[local] Hint Resolve user_read SI_reloads SI_writes : preserves.

Ltac SI :=
  repeat (solve [auto with preserves] || solve [apply quiet_SI; quiet] ||
    (apply SI_pair; [apply stats_ok_elf || apply stats_ok_swap || apply stats_ok_swap' |]) ||
    (apply SI_pair_end; apply stats_ok_swap) || preserves_step).

Lemma SI_load_segment a v o va m f x : preserves SI (load_segment a v o va m f x).
Proof using user_read. unfold load_segment. SI. Qed.
#[local] Hint Resolve SI_load_segment : preserves.
Lemma SI_load_one a v st np ph : preserves SI (load_one a v st np ph).
Proof using user_read. unfold load_one. SI. Qed.
#[local] Hint Resolve SI_load_one : preserves.
Lemma SI_load_segments n a v eh st np i : preserves SI (load_segments n a v eh st np i).
Proof using user_read. revert i. induction n as [|n IH]; intros i; simpl; SI. Qed.
#[local] Hint Resolve SI_load_segments : preserves.
Lemma SI_load_elf fuel v st np : preserves SI (load_elf fuel v st np).
Proof using user_read. unfold load_elf. SI. Qed.
#[local] Hint Resolve SI_load_elf : preserves.
Lemma SI_load_page fuel fr va : preserves SI (load_page fuel fr va).
Proof using user_read. unfold load_page. SI. Qed.
#[local] Hint Resolve SI_load_page : preserves.
Lemma SI_read fuel va a : preserves SI (vm_fault_read fuel va a).
Proof using user_read. unfold vm_fault_read, fault_load_code, fault_load_data. SI. Qed.
Lemma SI_write fuel va a : preserves SI (vm_fault_write fuel va a).
Proof using user_read. unfold vm_fault_write, fault_load_data. SI. Qed.
Lemma SI_readonly fuel : preserves SI (vm_fault_readonly fuel).
Proof using.
  unfold vm_fault_readonly.
  apply (SI_count dec_TLB_Faults (λ b, if b then dec_wFree else dec_wReplace));
    [apply stats_ok_unfault |]. unfold sys__exit. SI.
Qed.
#[local] Hint Resolve SI_read SI_write SI_readonly : preserves.

(** Every fault, of whatever type and however it ends, preserves the two sums
    the statistics report: faults with a free plus faults with a replaced TLB
    entry are the TLB faults, and pages read from executables plus pages read
    from the swap file are the page faults served from disk. *)
Theorem vm_fault_stats fuel ft va :
  preserves (λ s, stats_ok (k_stats s)) (vm_fault fuel ft va).
Proof using user_read.
  unfold vm_fault. apply preserves_bind; [apply quiet_SI; quiet | intros a].
  destruct (a =? 0); [SI |].
  apply (SI_count inc_TLB_Faults (λ b, if b then inc_wFree else inc_wReplace));
    [apply stats_ok_fault |]. SI.
Qed.
End user_read.

(** ** Writes to read-only pages *)

Lemma stats_unfault x b :
  fits 32 (TLB_Faults x) → fits 32 (TLB_Faults_wFree x) → fits 32 (TLB_Faults_wReplace x) →
  (if b : bool then dec_wFree else dec_wReplace)
    (dec_TLB_Faults ((if b then inc_wFree else inc_wReplace) (inc_TLB_Faults x))) = x.
Proof using.
  intros H1 H2 H3. destruct x. simpl in *.
  assert (∀ y, fits 32 y → u32 (u32 (y + 1) - 1) = y) as E.
  { intros y Hy. unfold Z.sub. rewrite u32_add_l, u32_small by zlia. lia. }
  unfold dec_wFree, dec_wReplace, dec_TLB_Faults, inc_wFree, inc_wReplace, inc_TLB_Faults.
  destruct b; unfold with_TLB_Faults, with_TLB_Faults_wFree, with_TLB_Faults_wReplace; simpl;
    by rewrite !E.
Qed.

Definition proc_view s : gmap Z proc * Z := (procs (k_proc s), curproc (k_proc s)).
Lemma outside_proc_view : outside proc_view.
Proof using. done. Qed.

Lemma destroy_keeps {C} (v : kstate FS → C) fuel a :
  outside v → (∀ f s, v (upd_proc (λ q, with_addrspaces (f q) q) s) = v s) →
  keeps v (as_destroy fuel a).
Proof using.
  intros Hv Hp. unfold as_destroy, free_process_frames, cur_proc.
  repeat (keeps_step || solve [auto with keeps] || (apply keeps_modify; intros ?; apply Hp)).
Qed.

Definition uncounted s : kstate FS :=
  upd_stats (if c_bool (freeTLBEntries (k_tlb s)) then dec_wFree else dec_wReplace)
    (upd_stats dec_TLB_Faults (counted s)).

(** A write to a read-only page ends the process: control never returns to the
    program; the process has exit status 0 and the statistics are those from
    before the fault. *)
Theorem readonly_fault_kills fuel va s p :
  running s p → fits 32 (TLB_Faults (k_stats s)) →
  fits 32 (TLB_Faults_wFree (k_stats s)) → fits 32 (TLB_Faults_wReplace (k_stats s)) →
  wlp (vm_fault fuel VM_FAULT_READONLY va) (λ _ _, False)
    (λ s', k_stats s' = k_stats s ∧ curproc (k_proc s') = curproc (k_proc s) ∧
       procs (k_proc s') !! curproc (k_proc s) = Some (with_exit_status 0 p)) s.
Proof using.
  intros Hrun H1 H2 H3. unfold wlp. rewrite (vm_fault_eq _ _ _ _ _ Hrun).
  cbn [Z.eqb VM_FAULT_READONLY Pos.eqb].
  change (vm_fault_readonly fuel (counted s)) with
    ((sys__exit fuel 0 ;; mret EFAULT : M (kstate FS) Z) (uncounted s)).
  set (c := uncounted s).
  assert (k_stats c = k_stats s) as Hst by (by apply stats_unfault).
  assert (running c p) as Hrunc by (by destruct Hrun).
  assert (k_proc c = k_proc s) as Hpr by done. clearbody c.
  fold (wlp (sys__exit fuel 0 ;; mret EFAULT) (λ _ _, False)
    (λ s', k_stats s' = k_stats s ∧ curproc (k_proc s') = curproc (k_proc s) ∧
       procs (k_proc s') !! curproc (k_proc s) = Some (with_exit_status 0 p)) c).
  unfold sys__exit. apply wlp_bind, wlp_bind. unfold wlp at 1.
  rewrite (cur_proc_eq _ _ Hrunc). unfold set_cur_proc. wsteps.
  set (c1 := upd_proc _ c).
  pose proof (destroy_keeps (λ s, (k_stats s, proc_view s)) fuel (p_addrspace p)
    ltac:(done) ltac:(done) c1) as Hk.
  assert (∀ s', (k_stats s', proc_view s') = (k_stats c1, proc_view c1) →
    k_stats s' = k_stats s ∧ curproc (k_proc s') = curproc (k_proc s) ∧
    procs (k_proc s') !! curproc (k_proc s) = Some (with_exit_status 0 p)) as Hend.
  { intros s' [= -> -> ->]. simpl. rewrite Hst, Hpr. split; [done |]. split; [done |].
    apply lookup_insert_eq. }
  eapply wlp_mono; [| | exact Hk]; [| apply Hend]. intros [] s'. apply Hend.
Qed.

(** ** Switching address spaces *)

(** [as_activate] compares the pid with a truth value, so the switch to process
    1 after any other process has run does not flush: the TLB it leaves is the one
    the other process filled, whatever it holds. *)
Theorem as_activate_stale s s1 p q c t :
  running s p → p_id p ≠ 0 → as_activate s = Done tt s1 →
  c ≠ 0 → procs (k_proc s1) !! c = Some q → p_id q = 1 → p_addrspace q ≠ 0 →
  let s2 := with_k_tlb t (upd_proc (with_curproc c) s1) in
  as_activate s2 = Done tt s2.
Proof using.
  intros Hrun Hp E Hc Hq Hq1 Hqa s2.
  assert (TLB_PID (k_proc s1) = true) as Ht.
  { revert E. unfold as_activate. mrun. rewrite (proc_getas_eq _ _ Hrun).
    destruct (Z.eqb_spec (p_addrspace p) 0) as [Ha | _]; [by destruct Hrun |].
    rewrite (cur_proc_eq _ _ Hrun).
    destruct (Z.eqb_spec (p_id p) (b2z (TLB_PID (k_proc s)))) as [Hb | _]; cbn [negb].
    - intros [= <-]. destruct (TLB_PID (k_proc s)); [done |]. by simpl in Hb.
    - unfold on_tlb, zoom. destruct (invalidate_TLB (k_tlb s)) as [[] t' | | |];
      cbn beta iota; intros E; [| discriminate E ..]. injection E as <-.
      simpl. unfold c_bool. by rewrite (proj2 (Z.eqb_neq _ _) Hp). }
  assert (running s2 q) as Hrun2 by (by split).
  unfold as_activate. mrun. rewrite (proc_getas_eq _ _ Hrun2).
  destruct (Z.eqb_spec (p_addrspace q) 0) as [| _]; [done |].
  rewrite (cur_proc_eq _ _ Hrun2).
  change (TLB_PID (k_proc s2)) with (TLB_PID (k_proc s1)). by rewrite Ht, Hq1.
Qed.

(** Switching to any process other than number 1 leaves no translation of
    another process behind. *)
Theorem as_activate_flushes s p :
  running s p → 2 <= p_id p → length (entries (k_tlb s)) = 64%nat →
  0 <= next_victim (k_tlb s) < NUM_TLB →
  ∃ s', as_activate s = Done tt s' ∧ tlb_ok (k_tlb s') ∧
    (∀ vp, translate (k_tlb s') vp = None) ∧ TLB_PID (k_proc s') = true ∧
    main_PG (k_pt s') = main_PG (k_pt s).
Proof using.
  intros Hrun Hp Hl Hn. unfold as_activate. mrun.
  rewrite (proc_getas_eq _ _ Hrun).
  destruct (Z.eqb_spec (p_addrspace p) 0) as [Ha | _]; [by destruct Hrun |].
  rewrite (cur_proc_eq _ _ Hrun).
  destruct (Z.eqb_spec (p_id p) (b2z (TLB_PID (k_proc s)))) as [Hb | _];
    [destruct (TLB_PID (k_proc s)); simpl in Hb; lia |]. cbn [negb].
  destruct (invalidate_TLB_ok (k_tlb s) Hl Hn) as (t & Et & Hok & _ & _ & _ & Htr).
  unfold on_tlb, zoom. rewrite Et. eexists. split; [done |]. simpl.
  split; [done |]. split; [done |]. split; [| done].
  unfold c_bool. by rewrite (proj2 (Z.eqb_neq _ _)) by lia.
Qed.
End faults.

(** ** Region arithmetic *)

(** The pages [as_define_region] maps at once.  Code is limited to 16 pages; data
    of at most 100 pages is mapped whole, but a larger segment is given
    [120 - (code - 16)] pages, so that code and data together take 136 frames:
    more than the 120 a process may have, and, for data of 101 to 119 pages,
    more than the segment itself. *)
Theorem region_budget memsz_code memsz_data :
  0 <= memsz_code < 0xffff000 → 0 <= memsz_data < 0xffff000 →
  let c := code_loaded (npages_of memsz_code) in
  let n := npages_of memsz_data in
  let d := data_loaded n c in
  1 <= c <= MAX_CODE_SEGMENT_PAGES ∧
  (n <= MAX_DATA_SEGMENT_PAGES → d = n) ∧
  (MAX_DATA_SEGMENT_PAGES < n → c + d = MAX_PAGES_PER_PROCESS + MAX_STACK_SEGMENT_PAGES) ∧
  (MAX_DATA_SEGMENT_PAGES < n < MAX_PAGES_PER_PROCESS → n < d).
Proof.
  intros Hc Hd c n d.
  assert (∀ m, 0 <= m < 0xffff000 → 1 <= npages_of m < 2 ^ 16) as Hnp.
  { intros m Hm. unfold npages_of, u16, wrap, PAGE_SIZE.
    rewrite Z.mod_small by (Z.to_euclidean_division_equations; lia).
    Z.to_euclidean_division_equations; lia. }
  pose proof (Hnp _ Hc) as Hnc. pose proof (Hnp _ Hd) as Hnd. fold n in Hnd.
  assert (1 <= c <= MAX_CODE_SEGMENT_PAGES) as Hcb.
  { unfold c, code_loaded, MAX_CODE_SEGMENT_PAGES in *.
    destruct (Z.ltb_spec 16 (npages_of memsz_code)); lia. }
  split; [done |]. unfold d, data_loaded.
  unfold MAX_CODE_SEGMENT_PAGES, MAX_DATA_SEGMENT_PAGES, MAX_PAGES_PER_PROCESS,
    MAX_STACK_SEGMENT_PAGES in *.
  destruct (Z.ltb_spec 100 n); unfold u16, wrap; rewrite ?Z.mod_small by lia;
    repeat split; lia.
Qed.

Section load.
Context {FS : Type} {fops : FileOps FS} {uio : UserIO FS}.
Implicit Types s : kstate FS.

(** The bss base [load_segment] records counts pages as bytes: every page of the
    data segment after the first lies above it, so a demand load of such a page
    reads nothing from the executable, although the page may be in the file. *)
Theorem data_page_not_loaded s a v x ph k fsz :
  addrspaces (k_proc s) !! a = Some x → as_wf x →
  as_vbase_bss x = u32 (as_vbase_data x + fsz / PAGE_SIZE + 1) →
  0 <= fsz < 4095 * PAGE_SIZE → 0 < as_vbase_data x →
  as_vbase_data x + (as_npages_data x + 1) * PAGE_SIZE < 2 ^ 32 →
  is_codeSegment (as_vbase_data x + k * PAGE_SIZE) x = false →
  1 <= k < as_npages_data x →
  load_one a v (as_vbase_data x + k * PAGE_SIZE) 1 ph s = Done 0 s.
Proof using.
  intros Hx Hwf Hbss Hf Hpos Hend Hcode Hk. unfold load_one, get_as. mrun. rewrite Hx.
  set (start := as_vbase_data x + k * PAGE_SIZE) in *.
  assert (0 <= fsz / PAGE_SIZE < 4095) as Hq.
  { unfold PAGE_SIZE in *. Z.to_euclidean_division_equations; lia. }
  destruct Hwf as [_ _ Hd Hn _ _]. unfold fits in Hd, Hn.
  rewrite u32_small in Hbss by zlia.
  assert (is_bssSegment start x = true) as Hb.
  { unfold is_bssSegment. apply in_segment_spec; unfold start; zlia. }
  assert (is_dataSegment start x = true) as Hds.
  { unfold is_dataSegment. apply in_segment_spec; unfold start; zlia. }
  destruct (Z.eqb_spec start 0) as [E | _]; [unfold start in E; zlia |].
  rewrite Hcode, Hds, Hb. by destruct (is_dataSegment (p_vaddr ph) x).
Qed.

(** A file whose header is not that of a big-endian 32-bit MIPS executable is
    rejected before anything but the file layer is touched. *)
Theorem load_elf_rejects fuel s p v start npages ws fs :
  running s p → vop_read v 0 EHDR_WORDS (k_fs s) = ((0, ws), fs) →
  Z.of_nat (length ws) < EHDR_WORDS ∨ 
    (Z.of_nat (length ws) = EHDR_WORDS ∧ ehdr_ok (parse_ehdr ws) = false) →
  load_elf fuel v start npages s = Done (ENOEXEC, 0) (with_k_fs fs s).
Proof using.
  intros Hrun Hr Hbad. unfold load_elf, read_words, k_vop_read. mrun.
  rewrite (proc_getas_eq _ _ Hrun), Hr. cbn [negb Z.eqb].
  destruct Hbad as [Hs | [Hl Hb]].
  - by rewrite (proj2 (Z.eqb_neq _ _)) by lia.
  - rewrite Hl, Z.eqb_refl. cbn [negb Z.eqb]. by rewrite Hb.
Qed.

(** ** Counting free frames *)

(** [check_free_frame] follows no link: as soon as two frames are free it reports
    as many as were asked for. *)
Theorem check_free_frame_overcounts s n :
  kseg0_ok (frame_list (k_pt s) + 4) = true → frame_list (k_pt s) ≠ 0 →
  k_mem s (frame_list (k_pt s) + 4) ≠ 0 → 1 <= n < 2 ^ 32 →
  check_free_frame n s = Done n s.
Proof using.
  intros Hok Hh Hnext Hn. unfold check_free_frame. mrun.
  rewrite (proj2 (Z.eqb_neq _ _) Hh). set (h := frame_list (k_pt s)) in *.
  enough (∀ m f, 0 <= f → f + Z.of_nat m < 2 ^ 32 →
    check_loop m h f s = Done (f + Z.of_nat m) s) as H.
  { rewrite H by lia. f_equal. lia. }
  induction m as [|m IH]; intros f Hf Hm; simpl.
  - mrun. f_equal. lia.
  - mrun. unfold load. rewrite Hok, (proj2 (Z.eqb_neq _ _) Hnext).
    rewrite IH; rewrite u32_small by lia; [f_equal; lia | lia | lia].
Qed.

(** ** Contents of fresh frames *)

Lemma mem_fill_page m base w :
  page_words (mem_fill m base PAGE_SIZE w) base = replicate (Z.to_nat PAGE_WORDS) w.
Proof using.
  apply list_eq_same_length with (Z.to_nat PAGE_WORDS).
  - apply length_replicate.
  - unfold page_words. by rewrite length_map, length_seqZ.
  - intros i x y Hi Hx Hy. apply lookup_replicate in Hy as [-> _]. unfold page_words in Hx.
    apply list_lookup_fmap_Some in Hx as (j & -> & Hj). apply lookup_seqZ in Hj as [-> Hj].
    unfold mem_fill. change PAGE_WORDS with 1024 in *.
    rewrite (proj2 (Z.leb_le _ _)), (proj2 (Z.ltb_lt _ _)) by zlia. done.
Qed.

(** A frame handed out once the VM runs is a page of zeros: nothing of its
    previous owner is left in it. *)
Theorem alloc_kpages_zeroed fuel n P s s' :
  VM_Started (k_pt s) = true → alloc_kpages fuel n s = Done P s' → P ≠ 0 →
  page_words (k_mem s') P = replicate (Z.to_nat PAGE_WORDS) 0.
Proof using.
  intros Hvm H HP. destruct fuel as [|fuel]; [done |]. simpl in H.
  unfold alloc_kpages_ in H.
  apply bind_done_inv in H as ([] & s1 & E1 & H).
  assert (VM_Started (k_pt s1) = true) as Hvm1.
  { revert E1. unfold lock_kmalloc. mrun. destruct (kmalloc_spinlock (k_heap s)); [done |].
    by intros [= <-]. }
  apply bind_done_inv in H as ([] & s2 & E2 & H).
  assert (s2 = s1) as ->.
  { revert E2. unfold kassert. destruct (n <? MAX_PAGES_ALLOC); [by intros [= <-] | done]. }
  apply bind_done_inv in H as (st & s3 & [= <- <-] & H). rewrite Hvm1 in H. cbn [negb] in H.
  apply bind_done_inv in H as (sz & s4 & _ & H).
  destruct (u8 sz =? 0).
  { apply bind_done_inv in H as (? & ? & _ & [= <- <-]). done. }
  destruct (u8 sz =? n); [| done].
  apply bind_done_inv in H as (a & s5 & _ & H). apply bind_done_inv in H as ([] & s6 & _ & H).
  apply bind_done_inv in H as ([] & s7 & E7 & [= <- <-]).
  revert E7. unfold fill. destruct (kseg0_ok _); [| done]. intros [= <-].
  apply mem_fill_page.
Qed.
End load.

(** ** Witnesses *)

Lemma w_tlb : k_tlb w_page = empty_tlb.
Proof. vm_compute. reflexivity. Qed.

Lemma w_running : running w_page (proc0 1 0x80001200).
Proof. split; vm_compute; congruence. Qed.

Lemma w_other_running : running w_other (proc0 2 0x80001200).
Proof. split; vm_compute; congruence. Qed.

(** Process 2 gets a page of the same number as process 1 has, in frame 11. *)
Definition w_both : M0 := after (alloc_pages 10 1 0x10001000 true w_other) w_other.

Lemma vm_fault_reload_witness :
  (∃ t e, vm_fault 10 VM_FAULT_READ 0x10001234 w_both =
         Done 0 (upd_stats inc_Reloads (with_k_tlb t (counted w_both))) ∧
    tlb_ok t ∧ main_PG (k_pt w_both) !! 11%nat = Some e ∧
    ∃ w, translate t 0x10001000 = Some (frame_elo 11 w) ∧ (Dirty e = true → w = true)) ∧
  vm_fault 10 VM_FAULT_WRITE 0x10001234 w_other = Panic "Error in addTLB from pageSearch".
Proof.
  split.
  - assert (first_index (pt_matches (0x10001234 / PAGE_SIZE) (p_id (proc0 2 0x80001200))) (main_PG (k_pt w_both))
      = Some 11%nat) as E by (vm_compute; reflexivity).
    pose proof (vm_fault_reload 10 VM_FAULT_READ 0x10001234 w_both (proc0 2 0x80001200)) as H.
    rewrite E in H. apply H; clear H E.
    + by left.
    + split; vm_compute; [discriminate | reflexivity | discriminate].
    + replace (k_tlb w_both) with empty_tlb; [apply empty_tlb_ok | vm_compute; reflexivity].
    + zlia.
    + vm_compute. discriminate.
    + intros e. vm_compute. by intros [= <-].
    + exists (mkPT true true 1 0x10001 1). split; [| by vm_compute].
      apply list_elem_of_lookup. exists 10%nat. vm_compute. reflexivity.
    + vm_compute. reflexivity.
  - assert (first_index (pt_matches (0x10001234 / PAGE_SIZE) (p_id (proc0 2 0x80001200))) (main_PG (k_pt w_other))
      = None) as E by (vm_compute; reflexivity).
    pose proof (vm_fault_reload 10 VM_FAULT_WRITE 0x10001234 w_other (proc0 2 0x80001200)) as H.
    rewrite E in H. apply H; clear H E.
    + by right.
    + apply w_other_running.
    + replace (k_tlb w_other) with empty_tlb; [apply empty_tlb_ok | vm_compute; reflexivity].
    + zlia.
    + vm_compute. discriminate.
    + intros e. vm_compute. by intros [= <-].
    + exists (mkPT true true 1 0x10001 1). split; [| by vm_compute].
      apply list_elem_of_lookup. exists 10%nat. vm_compute. reflexivity.
    + vm_compute. reflexivity.
Defined.

(** A write to address 0. *)
Lemma foreign_page_panics_witness :
  vm_fault 10 VM_FAULT_WRITE 0 w_other = Panic "Error in addTLB from pageSearch".
Proof.
  apply (foreign_page_panics 10 0 w_other (proc0 2 0x80001200) 0);
    [apply w_other_running | zlia | vm_compute; reflexivity | vm_compute; reflexivity].
Defined.

(** A demand load of the page at 0x10001000 by the write fault of process 1. *)
Definition w_loaded : M0 := after (vm_fault 10 VM_FAULT_WRITE 0x10002000 w_page) w_page.

Lemma vm_fault_stats_witness : stats_ok (k_stats w_loaded).
Proof.
  apply (preserves_done (λ s : M0, stats_ok (k_stats s))
    (vm_fault 10 VM_FAULT_WRITE 0x10002000) w_page ENOEXEC w_loaded).
  - apply vm_fault_stats. intros v off va msz fsz ex s Hs. unfold wlp. simpl.
    destruct (translate _ _); exact Hs.
  - split; vm_compute; reflexivity.
  - apply after_done. vm_compute. reflexivity.
Defined.

(** Process 1 with an address space from the kernel heap. *)
Definition w_exit : M0 :=
  after ((a ← as_create 10; proc_setas a ;; mret a) w_page) w_page.
Definition w_exit_as : Z :=
  default 0 (p_addrspace <$> procs (k_proc w_exit) !! 0x80001000).
Definition w_dead : M0 := after (vm_fault 10 VM_FAULT_READONLY 0x400000 w_exit) w_exit.

Lemma readonly_fault_kills_witness :
  k_stats w_dead = k_stats w_exit ∧
  procs (k_proc w_dead) !! 0x80001000 = Some (with_exit_status 0 (proc0 1 w_exit_as)).
Proof.
  assert (vm_fault 10 VM_FAULT_READONLY 0x400000 w_exit = Exited w_dead) as E.
  { apply after_exited. vm_compute. exact I. }
  destruct (wlp_exited _ _ _ _ _ E (readonly_fault_kills 10 0x400000 w_exit
    (proc0 1 w_exit_as) ltac:(split; vm_compute; congruence)
    ltac:(vm_compute; split; congruence) ltac:(vm_compute; split; congruence)
    ltac:(vm_compute; split; congruence))) as (H1 & _ & H3).
  split; [exact H1 |]. rewrite <- H3. f_equal.
Defined.

(** Process 2 runs, fills a TLB entry, and process 1 is switched to. *)
Definition w_two : M0 := after (as_activate w_other) w_other.
Definition w_stale : tlb_state := added empty_tlb 0x10001000 10 true.

Lemma as_activate_stale_witness :
  let s2 := with_k_tlb w_stale (upd_proc (with_curproc 0x80001000) w_two) in
  as_activate s2 = Done tt s2 ∧ translate (k_tlb s2) 0x10001000 = Some (frame_elo 10 true).
Proof.
  split.
  - apply (as_activate_stale w_other w_two (proc0 2 0x80001200) (proc0 1 0x80001200)
             0x80001000 w_stale);
      [apply w_other_running | done | apply after_done; vm_compute; reflexivity | done
      | vm_compute; reflexivity | reflexivity | done].
  - vm_compute. reflexivity.
Defined.

Lemma as_activate_flushes_witness :
  ∃ s', as_activate w_other = Done tt s' ∧ tlb_ok (k_tlb s') ∧
    (∀ vp, translate (k_tlb s') vp = None) ∧ TLB_PID (k_proc s') = true ∧
    main_PG (k_pt s') = main_PG (k_pt w_other).
Proof.
  apply (as_activate_flushes w_other (proc0 2 0x80001200));
    [apply w_other_running | vm_compute; congruence | vm_compute; reflexivity
    | vm_compute; split; congruence].
Defined.

Lemma region_budget_witness :
  npages_of 0x65000 < data_loaded (npages_of 0x65000) (code_loaded (npages_of 0x2000)).
Proof.
  destruct (region_budget 0x2000 0x65000 ltac:(lia) ltac:(lia)) as (_ & _ & _ & H).
  apply H. vm_compute. split; reflexivity.
Defined.

Definition w_bss : M0 :=
  after (set_as 0x80001200 (set_bss (0x10000000 + 2 + 1) as0) w_page) w_page.

Lemma data_page_not_loaded_witness :
  load_one 0x80001200 1 0x10001000 1 (mkPhdr PT_LOAD 0x2000 0x10000000 0x2000 0x3000 6) w_bss
  = Done 0 w_bss.
Proof.
  apply (data_page_not_loaded w_bss 0x80001200 1 (set_bss (0x10000000 + 2 + 1) as0)
           (mkPhdr PT_LOAD 0x2000 0x10000000 0x2000 0x3000 6) 1 0x2000);
    [vm_compute; reflexivity | split; zlia || (simpl; zlia) | reflexivity | zlia
    | simpl; lia | simpl; zlia | vm_compute; reflexivity | simpl; lia].
Defined.

Lemma load_elf_rejects_witness :
  load_elf 10 1 0 0 w_page = Done (ENOEXEC, 0) (with_k_fs (k_fs w_page) w_page).
Proof.
  apply (load_elf_rejects 10 w_page (proc0 1 0x80001200) 1 0 0 (replicate 13 0));
    [apply w_running | vm_compute; reflexivity | right; vm_compute; split; reflexivity].
Defined.

Lemma check_free_frame_overcounts_witness : check_free_frame 9 booted = Done 9 booted.
Proof.
  apply check_free_frame_overcounts;
    [vm_compute; reflexivity | vm_compute; congruence | vm_compute; congruence | lia].
Defined.

Definition w_fresh : M0 := after (alloc_kpages 10 1 booted) booted.

Lemma alloc_kpages_zeroed_witness :
  page_words (k_mem w_fresh) 0x8000a000 = replicate (Z.to_nat PAGE_WORDS) 0.
Proof.
  apply (alloc_kpages_zeroed 10 1 0x8000a000 booted w_fresh);
    [vm_compute; reflexivity | apply after_done; vm_compute; reflexivity | done].
Defined.
End FaultProps.
