(* ===== verification/Isolation.v ===== *)
(** * No translation leads outside of the running process

    The TLB is what user code sees of memory.  In every state the memory system
    reaches after boot, each valid entry leads to a frame that the page table holds for
    the page of that address and for the one process whose pages the TLB holds: never
    to a free frame, a frame of the kernel, or one of another process. *)

From stdpp Require Import base list gmap numbers strings.
From Stdlib Require Import ZArith Lia.
From S2P Require Import Prelude CopyInOut Segments Tlb PageTable VmState Ram Kmalloc KFrame Swap AddrSpace LoadElf VmFault Machine.
Import Segments Tlb PageTable VmState Ram Kmalloc KFrame Swap AddrSpace LoadElf VmFault Machine UserRead.

#[local] Open Scope Z_scope.

Module Isolation.

(** ** The invariant *)

Abbreviation page va := (Z.land va PAGE_FRAME).

(** An EntryLo word leads to a frame held for the page and for process [q]. *)
Definition leads (q : Z) (pg : list invertedPT) (vp lo : Z) : Prop :=
  ∃ e, pg !! Z.to_nat (Z.shiftr lo 12) = Some e ∧ Valid e = true ∧ pid e = q ∧
    page_number e = vp / PAGE_SIZE.

(** [q] is the process whose pages the TLB holds; the pages in [absent] have no entry. *)
Record iso (q : Z) (absent : Z → Prop) (t : tlb_state) (pg : list invertedPT) : Prop := {
  iso_tlb : tlb_ok t;
  iso_len : Z.of_nat (length pg) <= 2 ^ 17;
  iso_user : ∀ i e, pg !! i = Some e → pid e ≠ 0 → 0 <= page_number e < 2 ^ 19;
  iso_leads : ∀ vp lo, translate t vp = Some lo → leads q pg vp lo;
  iso_absent : ∀ vp, absent vp → translate t vp = None
}.
Definition nothing (vp : Z) : Prop := False.

Lemma iso_weaken q (A B : Z → Prop) t pg : (∀ vp, B vp → A vp) → iso q A t pg → iso q B t pg.
Proof. intros H [? ? ? ? Ha]. split; try done. auto. Qed.

(** A TLB without entries is right for every process. *)
Lemma iso_empty q A t pg :
  tlb_ok t → Z.of_nat (length pg) <= 2 ^ 17 →
  (∀ i e, pg !! i = Some e → pid e ≠ 0 → 0 <= page_number e < 2 ^ 19) →
  (∀ vp, translate t vp = None) → iso q A t pg.
Proof. intros Ht Hl Hu Hn. split; try done. intros vp lo H. by rewrite Hn in H. Qed.

Lemma page_frame_lt va : 0 <= va < MIPS_KSEG0 → 0 <= page va < MIPS_KSEG0.
Proof. apply page_frame_user. Qed.

Section frames.
Context (q : Z) (Hq : 0 < q < 256).
Implicit Types (A : Z → Prop) (t : tlb_state) (pg : list invertedPT).

(** Rewriting the entry of a frame no translation leads to. *)
Lemma iso_insert A t pg i e e' :
  iso q A t pg → pg !! i = Some e → ¬ (Valid e = true ∧ pid e = q) →
  (pid e' ≠ 0 → 0 <= page_number e' < 2 ^ 19) → iso q A t (<[i := e']> pg).
Proof.
  intros [Ht Hl Hu Hm Ha] Hi Hfree He'. split; [done | by rewrite length_insert | | | done].
  - intros j x [[_ ->] | [_ Hj]]%lookup_insert_cases; [done | by eapply Hu].
  - intros vp lo Hlo. destruct (Hm vp lo Hlo) as (x & Hx & Hv & Hp & Hn). exists x.
    rewrite list_lookup_insert_ne; [done |]. intros ->. simplify_eq. auto.
Qed.

Lemma translate_user t vp lo : tlb_ok t → translate t vp = Some lo → user_page vp.
Proof.
  intros Ht Hlo. apply translate_Some in Hlo as (i & Hi & Hv); [| done].
  destruct (ok_slot t Ht i _ Hi) as [E | [_ Hu]]; [| done]. rewrite E in Hv. done.
Qed.

(** Releasing a frame whose page is absent from the TLB. *)
Lemma iso_release A t pg i e d c :
  iso q A t pg → pg !! i = Some e → A (page_number e * PAGE_SIZE) →
  iso q A t (<[i := mkPT d false 0 0 c]> pg).
Proof.
  intros [Ht Hl Hu Hm Ha] Hi Hab. split; [done | by rewrite length_insert | | | done].
  - intros j x [[_ ->] | [_ Hj]]%lookup_insert_cases; [done | by eapply Hu].
  - intros vp lo Hlo. destruct (Hm vp lo Hlo) as (x & Hx & Hv & Hp & Hn). exists x.
    rewrite list_lookup_insert_ne; [done |]. intros E. rewrite <- E in Hx. simplify_eq.
    destruct (translate_user t vp lo Ht Hlo) as [Hr Hal].
    rewrite Hn in Hab. replace (vp / PAGE_SIZE * PAGE_SIZE) with vp in Hab.
    + by rewrite (Ha vp Hab) in Hlo.
    + pose proof (Z.div_mod vp PAGE_SIZE). zlia.
Qed.

(** A change of the permission only. *)
Lemma iso_dirty A t pg i e d :
  iso q A t pg → pg !! i = Some e →
  iso q A t (<[i := mkPT d (Valid e) (pid e) (page_number e) (victim_counter e)]> pg).
Proof.
  intros [Ht Hl Hu Hm Ha] Hi. split; [done | by rewrite length_insert | | | done].
  - intros j x [[_ ->] | [_ Hj]]%lookup_insert_cases; [exact (Hu i e Hi) | by eapply Hu].
  - intros vp lo Hlo. destruct (Hm vp lo Hlo) as (x & Hx & Hv & Hp & Hn).
    destruct (decide (Z.to_nat (Z.shiftr lo 12) = i)) as [E | E].
    + eexists. rewrite E, list_lookup_insert_eq by (by eapply lookup_lt_Some). split; [done |].
      simplify_eq. done.
    + exists x. by rewrite list_lookup_insert_ne by done.
Qed.

(** Removing a page from the TLB: the page is absent afterwards. *)
Lemma iso_remove A t pg va :
  iso q A t pg → 0 <= va < MIPS_KSEG0 →
  ∃ t', removeTLBv1 va t = Done 0 t' ∧ iso q (λ vp, A vp ∨ vp = page va) t' pg.
Proof.
  intros [Ht Hl Hu Hm Ha] Hva. eexists. split; [by apply removeTLBv1_eq |].
  split; [by apply remove_result_ok | done | done | |].
  - intros vp lo. rewrite remove_result_translate by done. destruct (vp =? _); [done | apply Hm].
  - intros vp Hvp. rewrite remove_result_translate by done.
    destruct (Z.eqb_spec vp (page va)); [done |]. destruct Hvp; [auto | done].
Qed.

(** Adding the translation of an absent page. *)
Lemma iso_add A t pg va :
  iso q A t pg → 0 <= va < MIPS_KSEG0 → A (page va) →
  match addTLB pg va q t with
  | Done _ t' => iso q (λ vp, A vp ∧ vp ≠ page va) t' pg
  | Exited _ => False
  | _ => True
  end.
Proof.
  intros [Ht Hl Hu Hm Ha] Hva Hab. pose proof (Ha _ Hab) as Hn.
  destruct (first_index (pt_matches (va / PAGE_SIZE) q) pg) as [n|] eqn:E;
    [| unfold addTLB; by rewrite E].
  destruct (first_index_lookup _ _ _ E) as (e & He & Hp).
  rewrite (addTLB_eq t pg va q n e) by done.
  unfold pt_matches in Hp. zbool. pose proof (page_frame_user va Hva) as Hup.
  pose proof (added_ok t _ (Z.of_nat n) (Dirty e) Ht Hup Hn) as Hok'.
  assert (∀ vp lo, translate (added t (page va) (Z.of_nat n) (Dirty e)) vp = Some lo →
    (vp = page va ∧ Z.shiftr lo 12 = Z.of_nat n) ∨ (vp ≠ page va ∧ translate t vp = Some lo)) as Htr.
  { intros vp lo Hlo. apply translate_Some in Hlo as (i & Hi & Hv); [| done].
    assert (∃ j d, entries (added t (page va) (Z.of_nat n) (Dirty e)) =
              <[j := (page va, frame_elo (Z.of_nat n) d)]> (entries t)) as (j & d & Ee).
    { unfold added. destruct (free_slot t); eauto. }
    rewrite Ee in Hi. apply lookup_insert_cases in Hi as [[_ [= -> ->]] | [_ Hi]].
    - left. split; [done |]. apply frame_elo_frame. lia.
    - right. split; [| by apply translate_Some; eauto].
      intros ->. rewrite translate_None in Hn. by eapply Hn. }
  split; [done | done | done | |].
  - intros vp lo [[-> Hfr] | [_ Hlo]]%Htr; [| by apply Hm].
    exists e. rewrite Hfr, Nat2Z.id. split_and!; try done.
    rewrite page_of_frame; [done |]. unfold fits. zlia.
  - intros vp [Hvp Hne]. destruct (translate _ vp) as [lo|] eqn:Hlo; [| done].
    apply Htr in Hlo as [[-> _] | [_ Hlo]]; [done |]. rewrite (Ha vp Hvp) in Hlo. done.
Qed.

(** Entering a page of the process in the table, in the frame of a free or kernel entry. *)
Lemma iso_addPT A t pg i va d :
  iso q A t pg → 0 <= va < MIPS_KSEG0 →
  match addPT i va q d pg with
  | Done _ pg' => iso q A t pg'
  | Exited _ => False
  | _ => True
  end.
Proof.
  intros HI Hva. unfold addPT, deref, mbind, M_bind. destruct (pg !! Z.to_nat i) as [e|] eqn:He; [| done].
  assert (¬ (Valid e = true ∧ pid e = q) →
    iso q A t (<[Z.to_nat i := mkPT d true (u8 q) (page va / PAGE_SIZE) (victim_counter e)]> pg)) as H.
  { intros Hf. eapply iso_insert; [done | done | done |]. intros _. cbn.
    rewrite page_of_frame by (unfold fits; zlia). zify. unfold PAGE_SIZE, MIPS_KSEG0 in *.
    pose proof (Z.div_pos va 4096). pose proof (Z.div_lt_upper_bound va 4096 (2 ^ 19)). lia. }
  destruct (Valid e) eqn:Ev.
  - destruct ((page_number e =? 0) && (pid e =? 0)) eqn:E0; [| done]. zbool. apply H. lia.
  - apply H. by intros [? _].
Qed.
End frames.

(** ** The allocators

    The heap changes neither the TLB nor the page table; taking a frame changes an entry
    that is not valid, and freeing one removes its translation first. *)

Section kernel.
Context {FS : Type} (q : Z) (Hq : 0 < q < 256) (A : Z → Prop).
Implicit Types s : kstate FS.

Definition view s : tlb_state * list invertedPT := (k_tlb s, main_PG (k_pt s)).
Definition isolated s : Prop := iso q A (k_tlb s) (main_PG (k_pt s)).

Lemma keeps_isolated {B} (m : M (kstate FS) B) : keeps view m → preserves isolated m.
Proof. apply (keeps_preserves view (λ v, iso q A v.1 v.2)). Qed.

Lemma view_load a : keeps view (load a).
Proof. intros s. unfold wlp, load. by destruct (kseg0_ok a). Qed.
Lemma view_store a w : keeps view (store a w).
Proof. intros s. unfold wlp, store. by destruct (kseg0_ok a). Qed.
Lemma view_fill a n w : keeps view (fill a n w).
Proof. intros s. unfold wlp, fill. by destruct (kseg0_ok a). Qed.
Lemma view_heap f : keeps view (modify (upd_heap f)).
Proof. by apply keeps_modify. Qed.
Lemma view_proc f : keeps view (modify (upd_proc f)).
Proof. by apply keeps_modify. Qed.
Lemma view_list n : keeps view (modify (upd_pt (with_frame_list n))).
Proof. by apply keeps_modify. Qed.
Lemma view_counter f : keeps view (modify (upd_pt (λ p, with_pt_counter (f p) p))).
Proof. by apply keeps_modify. Qed.
Lemma view_ram {B} (m : M ram_state B) : keeps view (zoom k_ram with_k_ram m).
Proof. by apply keeps_zoom. Qed.
#[local] Hint Resolve view_load view_store view_fill view_heap view_proc view_list view_counter
  view_ram : keeps.
#[local] Hint Extern 1 (preserves isolated _) => apply keeps_isolated; solve [auto with keeps] : preserves.

Ltac iso_auto f := unfold f, lock_kmalloc, unlock_kmalloc, get_pr, set_pr, get_root, set_root,
  get_sizebase, set_sizebase, fill_deadbeef;
  repeat (solve [auto with preserves] || preserves_step).

Section calls.
Context (ak : Z → M (kstate FS) Z) (fk : Z → M (kstate FS) unit).
Context (Hak : ∀ n, preserves isolated (ak n)) (Hfk : ∀ p, preserves isolated (fk p)).
#[local] Hint Resolve Hak Hfk : preserves.

Lemma iso_allocpageref : preserves isolated (allocpageref ak fk).
Proof. unfold allocpageref. iso_auto @allocpagerefpage. Qed.
Lemma iso_freepageref_from n w p : preserves isolated (freepageref_from n w p).
Proof. revert w. induction n as [|n IH]; intros w; simpl; iso_auto @get_root. Qed.
Lemma iso_unlink_from n next set_next g p : preserves isolated (unlink_from n next set_next g p).
Proof. revert g. induction n as [|n IH]; intros g; simpl; iso_auto @get_pr. Qed.
Lemma iso_find_page n t p : preserves isolated (find_page n t p).
Proof. revert p. induction n as [|n IH]; intros p; simpl; iso_auto @get_pr. Qed.
Lemma iso_find_owner n a p : preserves isolated (find_owner n a p).
Proof. revert p. induction n as [|n IH]; intros p; simpl; iso_auto @get_pr. Qed.
#[local] Hint Resolve iso_allocpageref iso_freepageref_from iso_unlink_from iso_find_page iso_find_owner : preserves.

Lemma iso_kmalloc_ sz : preserves isolated (kmalloc_ ak fk sz).
Proof. unfold kmalloc_, subpage_kmalloc, blocktype, init_freelist. iso_auto @doalloc. Qed.
Lemma iso_kfree_ p : preserves isolated (kfree_ fk p).
Proof. unfold kfree_, subpage_kfree, remove_lists, freepageref. iso_auto @get_sizebase. Qed.
End calls.
#[local] Hint Resolve iso_kmalloc_ iso_kfree_ : preserves.

Lemma iso_last_node n p : preserves isolated (last_node n p).
Proof. revert p. induction n as [|n IH]; intros p; simpl; iso_auto @get_pr. Qed.
#[local] Hint Resolve iso_last_node : preserves.
Lemma iso_addToFrameList_ km x pos :
  (∀ n, preserves isolated (km n)) → preserves isolated (addToFrameList_ km x pos).
Proof. intros Hkm. unfold addToFrameList_, new_frame_node, push_frame. iso_auto @get_pr. Qed.
Lemma iso_check_loop n c f : preserves isolated (check_loop n c f).
Proof. revert f. induction n as [|n IH]; intros f; simpl; iso_auto @get_pr. Qed.
#[local] Hint Resolve iso_addToFrameList_ iso_check_loop : preserves.

(** A frame whose entry is not valid becomes the kernel's. *)
Lemma iso_take {B} i (k : M (kstate FS) B) :
  preserves isolated k →
  preserves isolated
    (e ← deref (λ s, main_PG (k_pt s) !! Z.to_nat i) "main_PG index out of range";
     (if Valid e then panic "This should not happen" else mret tt) ;;
     modify (upd_pt (λ p, with_pt_counter (u32 (pt_counter p + 1)) p)) ;;
     cnt ← gets (λ s, pt_counter (k_pt s));
     modify (upd_pt (λ p, with_main_PG
       (<[Z.to_nat i := mkPT (Dirty e) true 0 0 (u16 cnt)]> (main_PG p)) p)) ;; k).
Proof.
  intros Hk s HI. do 2 wstep. wstep. destruct (Valid a) eqn:Ev; [by wsteps |].
  do 7 wstep. apply Hk. unfold isolated. cbn. eapply iso_insert; [done | done | done | | done].
  intros [? _]. congruence.
Qed.

Lemma iso_take_frames kf n a :
  (∀ p, preserves isolated (kf p)) → preserves isolated (take_frames kf n a).
Proof.
  intros Hkf. revert a. induction n as [|n IH]; intros a; simpl; [auto with preserves |].
  apply preserves_bind; [| done]. unfold take_frame.
  do 3 (apply preserves_bind; [auto with preserves | intros ?]).
  apply preserves_bind; [auto with preserves | intros _]. apply iso_take.
  iso_auto @get_pr.
Qed.

(** The translation goes before the frame does. *)
Lemma iso_free {B} i (k : M (kstate FS) B) :
  preserves isolated k →
  preserves isolated
    (e ← deref (λ s, main_PG (k_pt s) !! Z.to_nat i) "main_PG index out of range";
     (if negb (Valid e)
      then panic "You're trying to free an already empty memory region" else mret tt) ;;
     (if negb (pid e =? 0) then
        r ← on_tlb (removeTLBv1 (u32 (page_number e * 4096)));
        if negb (r =? 0) then panic "Error in free_kpages during removeTLB()" else mret tt
      else mret tt) ;;
     modify (upd_pt (λ p, with_main_PG
       (<[Z.to_nat i := mkPT (Dirty e) false 0 0 (victim_counter e)]> (main_PG p)) p)) ;; k).
Proof.
  intros Hk s HI. do 2 wstep. wstep. destruct (Valid a) eqn:Ev; [| by wsteps]. cbn [negb]. wstep.
  wstep. destruct (Z.eqb_spec (pid a) 0) as [Hp | Hp]; cbn [negb].
  - do 3 wstep. apply Hk. unfold isolated. cbn.
    eapply iso_insert; [done | done | done | lia | done].
  - pose proof (iso_user _ _ _ _ HI _ _ H Hp) as Hu.
    assert (u32 (page_number a * 4096) = page_number a * PAGE_SIZE) as Eu by (apply u32_small; zlia).
    destruct (iso_remove q A (k_tlb s) (main_PG (k_pt s)) (u32 (page_number a * 4096)) HI) as (t' & E & HI').
    { rewrite Eu. zlia. }
    wstep. unfold wlp at 1, on_tlb, zoom. rewrite E. cbn [Z.eqb negb]. do 3 wstep. apply Hk.
    unfold isolated. cbn. eapply iso_weaken; [| eapply iso_release; [exact Hq | exact HI' | exact H |]]; [by left |].
    right. rewrite Eu. symmetry. apply land_PAGE_FRAME_aligned; [zlia |]. apply Z.mod_mul. done.
Qed.

(** The page functions, at every recursion bound. *)
Lemma iso_pages fuel :
  (∀ n, preserves isolated (alloc_kpages fuel n)) ∧ (∀ p, preserves isolated (free_kpages fuel p)).
Proof.
  induction fuel as [|fuel [IHa IHf]]; simpl; split; intros x; [done | done | |].
  - pose proof iso_take_frames. unfold alloc_kpages_, check_free_frame. iso_auto @get_pr.
  - unfold free_kpages_. apply preserves_bind; [iso_auto @get_pr | intros _].
    apply preserves_bind; [auto with preserves | intros b]. destruct (negb b); [iso_auto @get_pr |].
    apply preserves_bind; [auto with preserves | intros n].
    apply preserves_bind; [auto with preserves | intros _].
    apply iso_free. iso_auto @get_pr.
Qed.
Lemma iso_alloc_kpages fuel n : preserves isolated (alloc_kpages fuel n).
Proof. apply iso_pages. Qed.
Lemma iso_free_kpages fuel p : preserves isolated (free_kpages fuel p).
Proof. apply iso_pages. Qed.
Lemma iso_kmalloc fuel n : preserves isolated (kmalloc fuel n).
Proof. apply iso_kmalloc_; [apply iso_alloc_kpages | apply iso_free_kpages]. Qed.
Lemma iso_kfree fuel p : preserves isolated (kfree fuel p).
Proof. apply iso_kfree_, iso_free_kpages. Qed.
Lemma iso_addToFrameList fuel x pos : preserves isolated (addToFrameList fuel x pos).
Proof. apply iso_addToFrameList_, iso_kmalloc. Qed.

End kernel.

(** ** Code that runs for the current process *)

Section process.
Context {FS : Type} {fops : FileOps FS} {uio : UserIO FS} (q : Z) (Hq : 0 < q < 256).
Implicit Types (A : Z → Prop) (s : kstate FS).

(** The pid of the current process. *)
Definition curpid s : option Z := p_id <$> procs (k_proc s) !! curproc (k_proc s).
Definition runs s : Prop := ∀ x, curpid s = Some x → x = q.
Definition inv A s : Prop := isolated q A s ∧ runs s.

Lemma iso_inv_weaken A (B : Z → Prop) s : (∀ vp, B vp → A vp) → inv A s → inv B s.
Proof. intros H [HI HR]. split; [by eapply iso_weaken | done]. Qed.

Lemma inv_nothing A s : inv A s → inv nothing s.
Proof. by apply iso_inv_weaken. Qed.

Lemma inv_and {B} A (m : M (kstate FS) B) :
  preserves (isolated q A) m → keeps curpid m → preserves (inv A) m.
Proof.
  intros Hm Hk s [HI HR]. specialize (Hm s HI). specialize (Hk s). unfold wlp in *.
  destruct (m s); try done; (split; [done |]; unfold runs in *; by rewrite Hk).
Qed.
Lemma inv_keeps {B} A (m : M (kstate FS) B) : keeps view m → keeps curpid m → preserves (inv A) m.
Proof. intros. by apply inv_and; [apply keeps_isolated |]. Qed.

Lemma outside_curpid : outside curpid.
Proof. done. Qed.
#[local] Hint Resolve outside_curpid : keeps.

Lemma inv_alloc_kpages A fuel n : preserves (inv A) (alloc_kpages fuel n).
Proof. apply inv_and; [by apply iso_alloc_kpages | auto with keeps]. Qed.
Lemma inv_free_kpages A fuel p : preserves (inv A) (free_kpages fuel p).
Proof. apply inv_and; [by apply iso_free_kpages | auto with keeps]. Qed.
Lemma inv_kmalloc A fuel n : preserves (inv A) (kmalloc fuel n).
Proof. apply inv_and; [by apply iso_kmalloc | auto with keeps]. Qed.
Lemma inv_kfree A fuel p : preserves (inv A) (kfree fuel p).
Proof. apply inv_and; [by apply iso_kfree | auto with keeps]. Qed.

(** File operations, statistics and the like keep what does not look at them. *)
Section others.
Context {C : Type} (v : kstate FS → C).
Lemma keeps_open n f : (∀ x s, v (with_k_fs x s) = v s) → keeps v (k_vfs_open n f).
Proof. intros H s. unfold wlp, k_vfs_open. destruct (vfs_open n f (k_fs s)). apply H. Qed.
Lemma keeps_close x : (∀ x s, v (with_k_fs x s) = v s) → keeps v (k_vfs_close x).
Proof. intros H s. apply H. Qed.
Lemma keeps_read x o n : (∀ x s, v (with_k_fs x s) = v s) → keeps v (k_vop_read x o n).
Proof. intros H s. unfold wlp, k_vop_read. destruct (vop_read x o n (k_fs s)). apply H. Qed.
Lemma keeps_write x o ws : (∀ x s, v (with_k_fs x s) = v s) → keeps v (k_vop_write x o ws).
Proof. intros H s. unfold wlp, k_vop_write. destruct (vop_write x o ws (k_fs s)). apply H. Qed.
Lemma keeps_sf i e : (∀ x s, v (with_k_swap x s) = v s) → keeps v (set_sf i e).
Proof. intros H. apply keeps_modify. intros s. apply H. Qed.
Lemma keeps_set_as a x : (∀ f s, v (upd_proc (λ q, with_addrspaces (f q) q) s) = v s) → keeps v (set_as a x).
Proof. intros H. apply keeps_modify. intros s. apply H. Qed.
Lemma keeps_stat f : (∀ x s, v (with_k_stats x s) = v s) → keeps v (stat f).
Proof. intros H. apply keeps_modify. intros s. apply H. Qed.
Lemma keeps_mem f : (∀ x s, v (with_k_mem x s) = v s) → keeps v (modify (λ s, with_k_mem (f s) s)).
Proof. intros H. apply keeps_modify. intros s. apply H. Qed.
End others.
#[local] Hint Resolve keeps_open keeps_close keeps_read keeps_write keeps_sf keeps_set_as keeps_stat
  keeps_mem : keeps.
#[local] Hint Extern 0 (_ = _) => reflexivity : keeps.
#[local] Hint Resolve inv_alloc_kpages inv_free_kpages inv_kmalloc inv_kfree : preserves.
#[local] Hint Extern 1 (preserves (inv _) _) => apply inv_keeps; solve [auto with keeps] : preserves.

Ltac inv_auto := repeat (solve [auto with preserves] || preserves_step).

Lemma inv_wlp {B} A (m : M (kstate FS) B) (Q : B → kstate FS → Prop) s :
  preserves (inv A) m → inv A s → (∀ b s', inv A s' → Q b s') → wlp m Q (inv nothing) s.
Proof.
  intros Hm HI HQ. eapply wlp_mono; [| | apply (Hm s HI)]; [auto |].
  intros s'. by apply iso_inv_weaken.
Qed.

Lemma wlp_cur_proc A (Q : proc → kstate FS → Prop) X s :
  inv A s → (∀ p, p_id p = q → Q p s) → wlp cur_proc Q X s.
Proof.
  intros [_ HR] HQ. apply wlp_deref. intros p Hp. apply HQ, HR. unfold curpid. by rewrite Hp.
Qed.

Lemma inv_addPT A i va d s : inv A s → 0 <= va < MIPS_KSEG0 →
  wlp (on_PG (addPT i va q d)) (λ _, inv A) (inv A) s.
Proof.
  intros [HI HR] Hva. pose proof (iso_addPT q Hq A _ _ i va d HI Hva) as H.
  unfold wlp, on_PG, zoom. destruct (addPT _ _ _ _ _); done.
Qed.

Lemma inv_addTLB_but A va s : inv A s → 0 <= va < MIPS_KSEG0 → A (page va) →
  wlp (on_tlb (addTLB (main_PG (k_pt s)) va q)) (λ _, inv (λ vp, A vp ∧ vp ≠ page va)) (inv nothing) s.
Proof.
  intros [HI HR] Hva HA. pose proof (iso_add q A _ _ va HI Hva HA) as H.
  unfold wlp, on_tlb, zoom. by destruct (addTLB _ _ _ _).
Qed.
Lemma inv_addTLB A va s : inv A s → 0 <= va < MIPS_KSEG0 → A (page va) →
  wlp (on_tlb (addTLB (main_PG (k_pt s)) va q)) (λ _, inv nothing) (inv nothing) s.
Proof.
  intros HI Hva HA. eapply wlp_mono; [| | by eapply inv_addTLB_but]; [| done].
  intros ? s'. apply inv_nothing.
Qed.

Lemma inv_removeTLB A va s : inv A s → 0 <= va < MIPS_KSEG0 →
  wlp (on_tlb (removeTLBv1 va)) (λ _, inv (λ vp, vp = page va)) (inv nothing) s.
Proof.
  intros [HI HR] Hva. destruct (iso_remove q A _ _ va HI Hva) as (t' & E & H).
  unfold wlp, on_tlb, zoom. rewrite E. split; [| done]. eapply iso_weaken; [| exact H]. by right.
Qed.

Lemma proc_getas_keeps {B} (v : kstate FS → B) : keeps v proc_getas.
Proof. unfold proc_getas, cur_proc. keeps_auto. Qed.
Lemma inv_getas A : preserves (inv A) proc_getas.
Proof. apply inv_keeps; apply proc_getas_keeps. Qed.
Lemma inv_get_as A a : preserves (inv A) (get_as a).
Proof. apply inv_keeps; apply keeps_deref. Qed.
Lemma inv_cur_proc A : preserves (inv A) cur_proc.
Proof. apply inv_keeps; apply keeps_deref. Qed.
Lemma inv_find_victim A b : preserves (inv A) (find_victim b).
Proof. unfold find_victim. pose proof inv_getas. pose proof inv_get_as. pose proof inv_cur_proc. inv_auto. Qed.
#[local] Hint Resolve inv_getas inv_get_as inv_cur_proc inv_find_victim : preserves.

(** *** Loading from the executable *)

Section load.
(** Reads into user memory above page 0. *)
Hypothesis user_read : ∀ v off va msz fsz ex, PAGE_SIZE <= va < MIPS_KSEG0 →
  preserves (inv nothing) (vop_read_user v off va msz fsz ex).

(** Clearing the permission of a resident page. *)
Lemma inv_clear A r : preserves (inv A)
  (e ← deref (λ s : kstate FS, main_PG (k_pt s) !! Z.to_nat r) "main_PG index out of range";
   modify (upd_pt (λ p, with_main_PG
     (<[Z.to_nat r := mkPT false (Valid e) (pid e) (page_number e) (victim_counter e)]> (main_PG p)) p))).
Proof.
  intros s [HI HR]. wsteps. split; [| done]. unfold isolated. cbn. by apply iso_dirty.
Qed.

Lemma inv_load_segment a v off va m f x :
  PAGE_SIZE <= va < MIPS_KSEG0 → preserves (inv nothing) (load_segment a v off va m f x).
Proof.
  intros Hva. unfold load_segment.
  assert (∀ fsz, preserves (inv nothing) (vop_read_user v off va m fsz x)) by auto.
  assert (0 <= va < MIPS_KSEG0) as Hva' by zlia. do 3 (apply preserves_bind; [inv_auto | intros ?]).
  destruct a2 as [r resid]. destruct (negb (r =? 0)); [inv_auto |].
  intros s HI. wstep. eapply wlp_mono; [| | by eapply inv_removeTLB]; [| done].
  intros ? s1 HI1. wstep. eapply inv_wlp; [auto with preserves | exact HI1 |].
  intros y s2 HI2. wstep. eapply (inv_wlp (λ vp, vp = page va)); [| exact HI2 |].
  { pose proof inv_clear. inv_auto. }
  intros ? s3 HI3. wstep. eapply wlp_cur_proc; [exact HI3 |]. intros p Hp.
  do 3 wstep. rewrite Hp.
  eapply wlp_mono; [| | by eapply inv_addTLB]; [| done].
  intros ? s4 HI4. by destruct (negb (resid =? 0)); wstep.
Qed.

Lemma inv_read_words A v o n : preserves (inv A) (read_words v o n).
Proof. unfold read_words. inv_auto. Qed.
#[local] Hint Resolve inv_read_words : preserves.
Lemma inv_read_phdr A v eh i : preserves (inv A) (read_phdr v eh i).
Proof. unfold read_phdr. inv_auto. Qed.
#[local] Hint Resolve inv_read_phdr : preserves.

Lemma inv_load_segments n a v eh start np i :
  PAGE_SIZE <= start < MIPS_KSEG0 → preserves (inv nothing) (load_segments n a v eh start np i).
Proof.
  intros Hst. revert i. induction n as [|n IH]; intros i; simpl; [inv_auto |].
  apply preserves_bind; [inv_auto | intros [[| e] | ph]]; [done | inv_auto |].
  apply preserves_bind; [| intros r; destruct (negb (r =? 0)); [inv_auto | done]].
  unfold load_one. rewrite (proj2 (Z.eqb_neq start 0)) by zlia.
  assert (∀ a v o m f x, preserves (inv nothing) (load_segment a v o start m f x)) as Hseg.
  { intros. by apply inv_load_segment. }
  inv_auto.
Qed.

Lemma define_regions_skip A fuel n a v eh start i :
  start ≠ 0 → preserves (inv A) (define_regions fuel n a v eh start i).
Proof.
  intros Hst. revert i. induction n as [|n IH]; intros i; simpl; [inv_auto |].
  rewrite (proj2 (Z.eqb_neq start 0)) by done. inv_auto.
Qed.

Lemma inv_load_elf fuel v start np :
  PAGE_SIZE <= start < MIPS_KSEG0 → preserves (inv nothing) (load_elf fuel v start np).
Proof.
  intros Hst. unfold load_elf. pose proof define_regions_skip. pose proof inv_load_segments.
  rewrite (proj2 (Z.eqb_neq start 0)) by zlia.
  assert (∀ fuel n a v eh i, preserves (inv nothing) (define_regions fuel n a v eh start i)) as Hd.
  { intros. apply define_regions_skip. zlia. }
  inv_auto.
Qed.

Lemma inv_load_page fuel fr va :
  PAGE_SIZE <= va < MIPS_KSEG0 → preserves (inv nothing) (load_page fuel fr va).
Proof.
  intros Hva s HI. unfold load_page. wstep. eapply wlp_cur_proc; [exact HI |]. intros p Hp.
  wstep. rewrite Hp. eapply wlp_mono; [| | eapply inv_addPT; [exact HI |]];
    [| done | apply page_frame_lt; zlia].
  cbn beta. intros _. change (preserves (inv nothing)
    ('(result, v) ← k_vfs_open (p_namestr p) O_RDONLY;
     if negb (result =? 0) then mret result
     else
       '(result, _) ← load_elf fuel v va 1;
       if negb (result =? 0) then k_vfs_close v ;; mret result
       else k_vfs_close v ;; stat inc_PF_Disk ;; stat inc_PF_ELF ;; mret 0)).
  pose proof (inv_load_elf fuel). inv_auto.
Qed.

(** *** Swapping *)

Lemma preserves_and {B} (I J : kstate FS → Prop) (m : M (kstate FS) B) :
  preserves I m → preserves J m → preserves (λ s, I s ∧ J s) m.
Proof.
  intros Hi Hj s [HI HJ]. specialize (Hi s HI). specialize (Hj s HJ). unfold wlp in *. by destruct (m s).
Qed.

(** A slot of the swap file in use. *)
Definition slot (i : nat) (e : list_param) s : Prop := k_swap s !! i = Some e.
Lemma keeps_slot {B} i e (m : M (kstate FS) B) : keeps k_swap m → preserves (slot i e) m.
Proof. apply (keeps_preserves k_swap (λ l, l !! i = Some e)). Qed.

Lemma inv_swapOut A fuel a : preserves (inv A) (swapOut fuel a).
Proof. unfold swapOut, get_sf. inv_auto. Qed.

(** Only a free slot is written. *)
Lemma slot_swapOut i e fuel a : p_pid e ≠ 0 → preserves (slot i e) (swapOut fuel a).
Proof.
  intros Hp s HS. unfold swapOut. do 2 wstep. unfold sf_freeSearch.
  destruct (first_index _ (k_swap s)) as [k|] eqn:F; [| exact I].
  assert (k ≠ i) as Hne.
  { apply first_index_lookup in F as (x & Hx & Hz). intros ->. rewrite HS in Hx. simplify_eq.
    cbn in Hz. zbool. done. }
  rewrite (proj2 (Z.eqb_neq (Z.of_nat k) noEntryFound)) by (unfold noEntryFound; lia). clear F.
  revert s HS. match goal with |- ∀ s, _ → wlp ?m _ _ s => change (preserves (slot i e) m) end.
  assert (∀ y, preserves (slot i e) (modify (λ s, with_k_swap (<[Z.to_nat (Z.of_nat k) := y]> (k_swap s)) s))) as Hset.
  { intros y. apply preserves_modify. intros s HS. unfold slot. cbn.
    by rewrite Nat2Z.id, list_lookup_insert_ne. }
  unfold set_sf, get_sf.
  repeat (solve [auto with preserves] || solve [apply keeps_slot; auto with keeps] || preserves_step).
Qed.

(** The page comes back to the page it was taken from. *)
Lemma inv_swapIn A fuel index va e s :
  inv A s → A (page va) → 0 <= va < MIPS_KSEG0 → slot (Z.to_nat index) e s →
  p_number e = va / PAGE_SIZE → p_pid e = q →
  wlp (swapIn fuel index) (λ _, inv nothing) (inv nothing) s.
Proof.
  intros HI HA Hva HS Hn Hp. unfold swapIn. wstep.
  eapply wlp_mono; [| | apply (preserves_and (inv A) (slot (Z.to_nat index) e) (alloc_kpages fuel 1))];
    [| intros s' [H _]; by eapply inv_nothing | auto with preserves
     | apply keeps_slot; auto with keeps | done].
  cbn beta. intros ra s1 [HI1 HS1]. destruct (ra =? 0); [by wstep |].
  wstep. unfold get_sf. wstep. unfold slot in HS1. simplify_eq.
  assert (u32 (p_number e * PAGE_SIZE) = page va) as ->.
  { rewrite Hn, land_PAGE_FRAME by zlia. pose proof (Z.div_mod va PAGE_SIZE).
    pose proof (Z.mod_pos_bound va PAGE_SIZE). rewrite u32_small; zlia. }
  pose proof (page_frame_lt va Hva) as Hlt. rewrite Hp. wstep.
  eapply wlp_mono; [| | by eapply inv_addPT]; [| intros s'; apply inv_nothing].
  cbn beta. intros r s2 HI2. destruct (negb (r =? 0)); [wstep; by eapply inv_nothing |].
  do 3 wstep. eapply wlp_mono; [| | eapply inv_addTLB; [exact HI2 | done |]]; [| done |].
  2: { by rewrite (user_page_frame (page va)) by by apply page_frame_user. }
  cbn beta. intros r2 s3 HI3. revert s3 HI3.
  match goal with |- ∀ s, _ → wlp ?m _ _ s => change (preserves (inv nothing) m) end.
  inv_auto.
Qed.

(** *** Faults *)

Lemma page_pos va : PAGE_SIZE <= va < MIPS_KSEG0 → PAGE_SIZE <= page va < MIPS_KSEG0.
Proof.
  intros H. destruct (page_frame_user va) as [Hr _]; [zlia |]. split; [| lia].
  rewrite land_PAGE_FRAME by zlia. unfold PAGE_SIZE in *. pose proof (Z.div_mod va 4096).
  pose proof (Z.div_le_lower_bound va 4096 1). lia.
Qed.

(** The address belongs to a segment of address space [a], which is where a page that
    is not resident can be loaded from. *)
Definition in_segments a va s : Prop :=
  ∃ x, addrspaces (k_proc s) !! a = Some x ∧ (is_codeSegment va x = true ∨ is_dataSegment va x = true).

Lemma inv_load_code fuel va :
  PAGE_SIZE <= va < MIPS_KSEG0 → preserves (inv nothing) (fault_load_code fuel va).
Proof. intros H. unfold fault_load_code. pose proof (inv_load_page fuel). inv_auto. Qed.
Lemma inv_load_data fuel b va :
  PAGE_SIZE <= va < MIPS_KSEG0 → preserves (inv nothing) (fault_load_data fuel b va).
Proof.
  intros H. unfold fault_load_data. pose proof (inv_load_page fuel). pose proof inv_swapOut. inv_auto.
Qed.

Lemma swap_found l n i :
  swapfile_checkv1 l n q = i → i ≠ noEntryFound →
  ∃ e, l !! Z.to_nat i = Some e ∧ p_number e = n ∧ p_pid e = q.
Proof.
  unfold swapfile_checkv1, sf_pageSearch. destruct (first_index _ l) as [k|] eqn:F; [| by intros <-].
  rewrite (proj2 (Z.ltb_ge (Z.of_nat k) 0)), (proj2 (Z.leb_le 0 (Z.of_nat k))) by lia.
  intros <- _. apply first_index_lookup in F as (e & He & Hp). rewrite Nat2Z.id. exists e.
  zbool. done.
Qed.

(** The exchange of a resident page for the faulting one. *)
Lemma inv_exchange {B} fuel va e index (k : Z → M (kstate FS) B) s :
  inv (λ vp, vp = page va) s → 0 <= va < MIPS_KSEG0 → slot (Z.to_nat index) e s →
  p_number e = va / PAGE_SIZE → p_pid e = q →
  (∀ r s', inv (λ vp, vp = page va) s' → slot (Z.to_nat index) e s' →
     wlp (k r) (λ _, inv nothing) (inv nothing) s') →
  wlp (victim_page ← find_victim true; r ← swapOut fuel (victim_paddr victim_page); k r)
    (λ _, inv nothing) (inv nothing) s.
Proof.
  intros HI Hva HS Hn Hp Hk.
  assert (∀ m, preserves (inv (λ vp, vp = page va)) m → preserves (slot (Z.to_nat index) e) m → ∀ s (Q : Z → _),
    inv (λ vp, vp = page va) s → slot (Z.to_nat index) e s →
    (∀ r s', inv (λ vp, vp = page va) s' → slot (Z.to_nat index) e s' → Q r s') →
    wlp m Q (inv nothing) s) as Hstep.
  { intros m H1 H2 s0 Q H3 H4 HQ. eapply wlp_mono; [| | by apply (preserves_and _ _ m H1 H2)].
    - intros r s' []. by apply HQ.
    - intros s' [H _]. by eapply inv_nothing. }
  wstep. apply Hstep; [auto with preserves | apply keeps_slot; unfold find_victim, cur_proc, get_as | done | done |].
  { pose proof (proc_getas_keeps k_swap). keeps_auto. }
  intros vpg s1 HI1 HS1. wstep. apply Hstep; [apply inv_swapOut | apply slot_swapOut; lia | done | done | done].
Qed.

Lemma inv_fault_read fuel va a s :
  inv (λ vp, vp = page va) s → 0 <= va < MIPS_KSEG0 → (in_segments a va s → PAGE_SIZE <= va) →
  wlp (vm_fault_read fuel va a) (λ _, inv nothing) (inv nothing) s.
Proof.
  intros HI Hva Hseg. pose proof (page_pos va) as Hpp. unfold vm_fault_read. wstep.
  eapply wlp_cur_proc; [exact HI |]. intros p Hp. do 2 wstep. rewrite Hp.
  destruct (0 <? _).
  - wstep. eapply wlp_mono; [| | eapply inv_addTLB; [exact HI | by apply page_frame_lt |]]; [| done |].
    + cbn beta. intros r s1 HI1. revert s1 HI1.
      match goal with |- ∀ s, _ → wlp ?m _ _ s => change (preserves (inv nothing) m) end. inv_auto.
    + by rewrite (user_page_frame (page va)) by (apply page_frame_user; zlia).
  - wstep. apply wlp_deref. intros x Hx. pose proof (inv_nothing _ _ HI) as HN.
    destruct (is_codeSegment va x) eqn:Ec.
    { apply inv_load_code; [| done]. apply Hpp. split; [apply Hseg; exists x; auto | lia]. }
    destruct (is_dataSegment va x) eqn:Ed; [| by wstep]. do 2 wstep.
    assert (PAGE_SIZE <= va < MIPS_KSEG0) as Hva' by (split; [apply Hseg; exists x; auto | lia]).
    destruct (Z.eqb_spec (swapfile_checkv1 (k_swap s) (va / PAGE_SIZE) q) noEntryFound) as [E | E];
      [by apply inv_load_data; [apply Hpp |] |].
    destruct (swap_found _ _ _ eq_refl E) as (e & He & Hn & Hpe).
    eapply inv_exchange; [exact HI | zlia | exact He | done | done |].
    intros r s2 HI2 HS2. destruct (negb (r =? 0)); [wstep; by eapply inv_nothing |].
    wstep. unfold stat at 1. do 2 wstep. eapply wlp_mono; [| | eapply (inv_swapIn (λ vp, vp = page va)); [exact HI2 | done | zlia | exact HS2 | done | done]];
      [| done].
    cbn beta. intros r2 s3 HI3. revert s3 HI3.
    match goal with |- ∀ s, _ → wlp ?m _ _ s => change (preserves (inv nothing) m) end. inv_auto.
Qed.

Lemma inv_fault_write fuel va a s :
  inv (λ vp, vp = page va) s → 0 <= va < MIPS_KSEG0 → (in_segments a va s → PAGE_SIZE <= va) →
  wlp (vm_fault_write fuel va a) (λ _, inv nothing) (inv nothing) s.
Proof.
  intros HI Hva Hseg. pose proof (page_pos va) as Hpp. unfold vm_fault_write. wstep.
  eapply wlp_cur_proc; [exact HI |]. intros p Hp. do 2 wstep. rewrite Hp.
  destruct (_ <? 0).
  - wstep. apply wlp_deref. intros x Hx. pose proof (inv_nothing _ _ HI) as HN. wstep.
    destruct (is_codeSegment va x); [by wstep | wstep].
    destruct (is_dataSegment va x) eqn:Ed; [| by wstep]. do 2 wstep.
    assert (PAGE_SIZE <= va < MIPS_KSEG0) as Hva' by (split; [apply Hseg; exists x; auto | lia]).
    destruct (Z.eqb_spec (swapfile_checkv1 (k_swap s) (va / PAGE_SIZE) q) noEntryFound) as [E | E];
      [by apply inv_load_data; [apply Hpp |] |].
    destruct (swap_found _ _ _ eq_refl E) as (e & He & Hn & Hpe).
    eapply inv_exchange; [exact HI | zlia | exact He | done | done |].
    intros r s2 HI2 HS2. wstep.
    destruct (r =? 0); [| do 2 wstep; by eapply inv_nothing].
    wstep. unfold stat at 1. do 2 wstep. eapply wlp_mono; [| | eapply (inv_swapIn (λ vp, vp = page va)); [exact HI2 | done | zlia | exact HS2 | done | done]];
      [| done].
    cbn beta. intros r2 s3 HI3. unfold stat. wsteps. exact HI3.
  - wstep. eapply wlp_mono; [| | eapply inv_addTLB; [exact HI | zlia |]]; [| done | done].
    cbn beta. intros r s1 HI1. revert s1 HI1.
    match goal with |- ∀ s, _ → wlp ?m _ _ s => change (preserves (inv nothing) m) end. inv_auto.
Qed.

End load.

(** *** Address spaces and processes *)

Lemma iso_invalidate A s :
  isolated q nothing s → wlp (on_tlb invalidate_TLB) (λ _, isolated q A) (isolated q nothing) s.
Proof.
  intros [Ht Hl Hu Hm Ha].
  destruct (invalidate_TLB_ok (k_tlb s)) as (t' & E & Hok & _ & _ & _ & Hn); [apply Ht | apply Ht |].
  unfold wlp, on_tlb, zoom. rewrite E. by apply iso_empty.
Qed.

Lemma iso_as_destroy fuel a : preserves (isolated q nothing) (as_destroy fuel a : M (kstate FS) unit).
Proof.
  unfold as_destroy. apply preserves_bind; [by apply iso_kfree | intros _].
  apply preserves_bind; [apply keeps_isolated; by apply keeps_modify | intros _].
  apply preserves_bind; [apply keeps_isolated, keeps_deref | intros p].
  apply preserves_bind; [| intros _; exact (iso_invalidate nothing)].
  unfold free_process_frames. apply preserves_bind; [apply keeps_isolated, keeps_gets | intros n].
  apply preserves_for. intros i. apply preserves_bind; [apply keeps_isolated, keeps_deref | intros e].
  destruct (_ && _); [by apply iso_free_kpages | apply keeps_isolated, keeps_ret].
Qed.

Lemma inv_as_destroy fuel a : preserves (inv nothing) (as_destroy fuel a).
Proof.
  apply inv_and; [apply iso_as_destroy |]. unfold as_destroy, free_process_frames, cur_proc.
  keeps_auto. by apply keeps_modify.
Qed.

Lemma inv_sys__exit fuel st : preserves (inv nothing) (sys__exit fuel st).
Proof.
  intros s HI. unfold sys__exit. wstep. apply wlp_deref. intros p Hp. wstep. unfold set_cur_proc. wstep.
  match goal with |- wlp _ _ _ ?s' => assert (inv nothing s') as HI1; [| generalize s' HI1] end.
  - destruct HI as [HI HR]. split; [done |]. intros x. unfold curpid. cbn.
    rewrite lookup_insert_eq. cbn. intros [= <-]. apply HR. unfold curpid. by rewrite Hp.
  - intros s1 HI2. wstep. eapply wlp_mono; [| | by apply inv_as_destroy]; done.
Qed.

Lemma inv_alloc_pages A fuel n va d :
  0 <= va < MIPS_KSEG0 → preserves (inv A) (alloc_pages fuel n va d).
Proof.
  intros Hva s HI. unfold alloc_pages. wstep. eapply wlp_cur_proc; [exact HI |]. intros p Hp.
  rewrite Hp. revert s HI. match goal with |- ∀ s, _ → wlp ?m _ _ s => change (preserves (inv A) m) end.
  rewrite u32_small by lia.
  assert (∀ i, preserves (inv A) (on_PG (addPT i va q d))) as H.
  { intros i s HI. by apply inv_addPT. }
  inv_auto.
Qed.

(** The pages of a region from the [i]-th on. *)
Definition region (vbase : Z) (i n vp : Z) : Prop :=
  ∃ j, i <= j < n ∧ vp = page (u32 (vbase + j * PAGE_SIZE)).

Lemma region_page vbase i n : 0 <= vbase → vbase + n * PAGE_SIZE <= MIPS_KSEG0 → 0 <= i < n →
  u32 (vbase + i * PAGE_SIZE) = vbase + i * PAGE_SIZE ∧ 0 <= vbase + i * PAGE_SIZE < MIPS_KSEG0.
Proof. intros H1 H2 H3. rewrite u32_small; zlia. Qed.

Lemma region_next vbase i n vp : 0 <= vbase → vbase + n * PAGE_SIZE <= MIPS_KSEG0 → 0 <= i →
  region vbase (i + 1) n vp → region vbase i n vp ∧ vp ≠ page (u32 (vbase + i * PAGE_SIZE)).
Proof.
  intros Hb Hn Hi (j & Hj & ->). split; [exists j; split; [lia | done] |].
  destruct (region_page vbase i n Hb Hn) as [Ei ?]; [lia |].
  destruct (region_page vbase j n Hb Hn) as [Ej ?]; [lia |]. rewrite Ei, Ej.
  rewrite !land_PAGE_FRAME by zlia. intros E.
  rewrite !Z_mod_plus_full in E. zlia.
Qed.

Lemma inv_map_region fuel vbase n s :
  0 <= vbase → vbase + n * PAGE_SIZE <= MIPS_KSEG0 → 0 <= n → inv (region vbase 0 n) s →
  wlp (map_region fuel vbase n) (λ _, inv nothing) (inv nothing) s.
Proof.
  intros Hb Hn H0 HI. unfold map_region. 
  eapply wlp_mono; [| | apply (wlp_for_loop (λ i, inv (region vbase i n)) (inv nothing))];
    [intros ? s'; apply inv_nothing | done | exact HI |].
  intros i s1 Hi HI1. destruct (region_page vbase i n Hb Hn) as [Eu Hu]; [lia |].
  assert (region vbase i n (page (u32 (vbase + i * PAGE_SIZE)))) as HA.
  { exists i. split; [lia | done]. }
  assert (∀ s', inv (region vbase i n) s' → inv (region vbase (i + 1) n) s') as Hnext.
  { intros s'. apply iso_inv_weaken. intros vp H. eapply region_next; [done | done | lia | done]. }
  wstep. eapply inv_wlp; [apply inv_alloc_pages; by rewrite Eu | exact HI1 |].
  intros r s2 HI2. wstep. destruct (negb (r =? 0)); [by wstep | wstep]. do 2 wstep.
  destruct (c_bool _); [| wstep; by apply Hnext].
  wstep. eapply wlp_cur_proc; [exact HI2 |]. intros p Hp. do 3 wstep. rewrite Hp.
  eapply wlp_mono; [| | eapply inv_addTLB_but; [exact HI2 | by rewrite Eu | exact HA]]; [| done].
  cbn beta. intros ? s3 HI3. wstep. eapply iso_inv_weaken; [| exact HI3]. intros vp H.
  eapply region_next; [done | done | lia | done].
Qed.

(** [a] is the address space of the current process. *)
Definition current s (a : Z) : Prop :=
  curproc (k_proc s) ≠ 0 ∧ p_addrspace <$> procs (k_proc s) !! curproc (k_proc s) = Some a.
Definition cur_segments va s : Prop := ∃ a, current s a ∧ in_segments a va s.

Lemma wlp_getas (Q : Z → kstate FS → Prop) X s :
  (∀ a, a = 0 ∨ current s a → Q a s) → wlp proc_getas Q X s.
Proof.
  intros HQ. unfold proc_getas, cur_proc. do 2 wstep. destruct (Z.eqb_spec (curproc (k_proc s)) 0).
  - wstep. auto.
  - wstep. apply wlp_deref. intros p Hp. wstep. apply HQ. right. split; [done |]. by rewrite Hp.
Qed.

(** Pages absent from the TLB, as part of the invariant. *)
Lemma inv_absent A s : inv nothing s → (∀ vp, A vp → translate (k_tlb s) vp = None) → inv A s.
Proof. intros [[Ht Hl Hu Hm _] HR] HA. split; [by split | done]. Qed.

(** A fault: the processor has no translation for the page, unless it is a write to a
    page without permission.  A page that is loaded is not page 0, which load_elf takes
    for the request to load the whole program. *)
Theorem vm_fault_isolated fuel ft va s :
  (∀ v off va msz fsz ex, PAGE_SIZE <= va < MIPS_KSEG0 →
     preserves (inv nothing) (vop_read_user v off va msz fsz ex)) →
  inv nothing s → 0 <= va < MIPS_KSEG0 → (cur_segments va s → PAGE_SIZE <= va) →
  (ft ≠ VM_FAULT_READONLY → translate (k_tlb s) (page va) = None) →
  wlp (vm_fault fuel ft va) (λ _, inv nothing) (inv nothing) s.
Proof.
  intros Hur HI Hva Hseg Hmiss. unfold vm_fault. wstep. apply wlp_getas. intros a Ha.
  destruct (Z.eqb_spec a 0) as [_ | Hne]; [by wstep |]. destruct Ha as [? | Ha]; [done |].
  assert (in_segments a va s → PAGE_SIZE <= va) as Hseg'.
  { intros H. apply Hseg. by exists a. }
  wstep. unfold stat at 1. wstep. do 2 wstep. wstep. unfold stat at 1. wstep.
  destruct (Z.eqb_spec ft VM_FAULT_READONLY) as [E | E].
  { unfold vm_fault_readonly. wstep. unfold stat at 1. wstep. do 2 wstep. wstep. unfold stat at 1. wstep.
    wstep. eapply wlp_mono; [| | apply inv_sys__exit; exact HI]; [| done]. intros r s' H. wstep. exact H. }
  assert (inv (λ vp, vp = page va) s) as HA.
  { apply inv_absent; [done |]. intros vp ->. auto. }
  destruct (ft =? VM_FAULT_READ); [by apply inv_fault_read; [| exact HA | |] |].
  destruct (ft =? VM_FAULT_WRITE); [by apply inv_fault_write; [| exact HA | |] |]. wstep. exact HI.
Qed.

(** The number of pages as_define_region maps. *)
Definition region_pages (executable : bool) (memsize : Z) (x : addrspace) : Z :=
  if executable then code_loaded (npages_of memsize)
  else data_loaded (npages_of memsize) (as_npages_code_loaded x).

Lemma region_pages_pos ex memsize x : 0 <= region_pages ex memsize x.
Proof.
  assert (∀ y, 0 <= u16 y < 65536) as H16 by (intros y; apply (wrap_fits 16); lia).
  pose proof (H16 (memsize / PAGE_SIZE + 1)).
  unfold region_pages, code_loaded, data_loaded, npages_of, MAX_CODE_SEGMENT_PAGES.
  repeat case_if; zbool; try apply H16; lia.
Qed.

Lemma inv_region fuel a vaddr memsize r w ex s :
  0 <= vaddr → inv nothing s →
  (∀ x, addrspaces (k_proc s) !! a = Some x →
     vaddr + region_pages ex memsize x * PAGE_SIZE <= MIPS_KSEG0 ∧
     ∀ vp, region vaddr 0 (region_pages ex memsize x) vp → translate (k_tlb s) vp = None) →
  wlp (as_define_region fuel a vaddr memsize r w ex) (λ _, inv nothing) (inv nothing) s.
Proof.
  intros Hva HI Hx.
  assert (∀ x y, addrspaces (k_proc s) !! a = Some x →
    wlp (set_as a y ;; map_region fuel vaddr (region_pages ex memsize x) ;; mret 0)
      (λ _, inv nothing) (inv nothing) s) as Hmap.
  { intros x y Ex. destruct (Hx x Ex) as [Htop Habs]. pose proof (inv_absent _ s HI Habs) as HA.
    pose proof (region_pages_pos ex memsize x). wstep.
    eapply inv_wlp; [apply inv_keeps; auto with keeps | exact HA |]. intros ? s1 HI1. wstep.
    eapply wlp_mono; [| | apply inv_map_region; [done | done | done | exact HI1]]; [| done].
    intros ? s' H'. wstep. exact H'. }
  unfold as_define_region. destruct ex.
  - wstep. apply wlp_deref. intros x Ex. by apply (Hmap x).
  - destruct w, r; [| exact I..]. cbn [negb andb]. do 4 wstep. wstep. apply wlp_deref. intros x Ex.
    by apply (Hmap x).
Qed.

Lemma inv_prepare fuel a s :
  inv nothing s →
  (∀ x, addrspaces (k_proc s) !! a = Some x → u32 (as_vbase_data x + PAGE_SIZE * as_npages_data x) < MIPS_KSEG0) →
  wlp (as_prepare_load fuel a) (λ _, inv nothing) (inv nothing) s.
Proof.
  intros HI Hst. unfold as_prepare_load. wstep. apply wlp_deref. intros x Hx. specialize (Hst x Hx).
  wstep. eapply inv_wlp; [apply inv_keeps; auto with keeps | exact HI |]. intros ? s1 HI1. wstep.
  eapply inv_wlp; [apply inv_alloc_pages | exact HI1 |].
  { split; [apply (wrap_fits 32); lia | exact Hst]. }
  intros r s2 HI2. destruct (negb (r =? 0)); [done | by wstep].
Qed.

End process.

(** ** Reads into user memory *)

Section reads.
Context {FS : Type} {fops : FileOps FS} (q : Z) (Hq : 0 < q < 256).
Implicit Types s : kstate FS.

Definition reads_ok (u : UserIO FS) : Prop :=
  ∀ v off va msz fsz ex, PAGE_SIZE <= va < MIPS_KSEG0 →
    preserves (inv q nothing) (vop_read_user (UserIO := u) v off va msz fsz ex).

Section within.
Context (u : UserIO FS) (Hu : reads_ok u) (fuel : nat).

Lemma inv_user_store n va c :
  PAGE_SIZE <= va < MIPS_KSEG0 → preserves (inv q nothing) (user_store u fuel n va c).
Proof.
  intros Hva. induction n as [|n IH]; simpl; [by intros s HI |]. intros s HI. do 2 wstep. cbv zeta.
  assert (∀ ft, (ft ≠ VM_FAULT_READONLY → translate (k_tlb s) (page va) = None) →
    wlp (r ← vm_fault (uio := u) fuel ft va; if r =? 0 then user_store u fuel n va c else mret None)
      (λ _, inv q nothing) (inv q nothing) s) as Hretry.
  { intros ft Hft. wstep.
    eapply wlp_mono; [| | apply (vm_fault_isolated q Hq (uio := u)); [exact Hu | exact HI | zlia | lia | exact Hft]];
      [| done].
    intros r s1 HI1. cbn beta. destruct (r =? 0); [by apply IH | by wstep]. }
  destruct (translate _ _) as [lo|]; [| by apply Hretry].
  destruct (c_bool _); [| by apply Hretry]. wsteps. exact HI.
Qed.

Lemma inv_user_copy bytes va :
  PAGE_SIZE <= va → va + Z.of_nat (length bytes) <= MIPS_KSEG0 →
  preserves (inv q nothing) (user_copy u fuel va bytes).
Proof.
  revert va. induction bytes as [|c bytes IH]; intros va Hl Hh; simpl; [apply preserves_ret |].
  simpl in Hh. apply preserves_bind; [apply inv_user_store; zlia |].
  intros [[]|]; [apply IH; zlia | apply preserves_ret].
Qed.

Lemma inv_copyout bytes va s :
  PAGE_SIZE <= va < 2 ^ 32 → 0 < Z.of_nat (length bytes) < 2 ^ 32 → inv q nothing s →
  wlp (UserRead.copyout u fuel bytes va)
    (λ r s', inv q nothing s' ∧ (r = 0 → va + Z.of_nat (length bytes) <= MIPS_KSEG0)) (inv q nothing) s.
Proof.
  intros Hva Hl HI. unfold UserRead.copyout.
  rewrite CopyInOut.copycheck_spec by (unfold fits; zlia). unfold CopyInOut.USERSPACETOP.
  destruct (Z.ltb_spec va MIPS_KSEG0), (Z.leb_spec (va + Z.of_nat (length bytes)) (2 ^ 32));
    cbn [andb]; try (change (negb (EFAULT =? 0)) with true; cbv iota; wstep; by split).
  change (negb (0 =? 0)) with false. cbv iota.
  destruct (Z.eqb_spec (Z.min (Z.of_nat (length bytes)) (MIPS_KSEG0 - va)) (Z.of_nat (length bytes)));
    cbn [negb]; [| wstep; split; [done | done]].
  eapply wlp_mono; [| | apply inv_user_copy; [..| exact HI]]; [| done | lia | lia].
  intros r s' H'. split; [done | lia].
Qed.

(** The request stays above page 0 as uiomove moves it along. *)
Definition req_ok (r : request) : Prop := PAGE_SIZE <= iov_ubase r < 2 ^ 32 ∧ fits 32 (iov_len r).

Lemma inv_uiomove bytes r s :
  req_ok r → inv q nothing s →
  wlp (UserRead.uiomove u fuel bytes r) (λ x s', inv q nothing s' ∧ req_ok x.2) (inv q nothing) s.
Proof.
  intros [Hb Hl] HI. unfold UserRead.uiomove, fits in *. case_if; [by wstep |]. zbool.
  destruct (Z.eqb_spec (Z.min (iov_len r) (Z.of_nat (length bytes))) 0); [by wstep |].
  set (size := Z.min _ _) in *.
  assert (Z.of_nat (length (take (Z.to_nat size) bytes)) = size) as Hs.
  { rewrite length_take. lia. }
  wstep. eapply wlp_mono; [| | apply inv_copyout; [exact Hb | lia | exact HI]]; [| done].
  intros x s1 [HI1 Hx]. cbn beta. destruct (Z.eqb_spec x 0) as [-> |]; cbn [negb]; [| by wstep].
  specialize (Hx eq_refl). case_if; wstep. split; [done |]. split; cbn [iov_ubase iov_len advance snd].
  - rewrite u32_small; zlia.
  - apply (wrap_fits 32). lia.
Qed.

Lemma inv_run p r s :
  req_ok r → inv q nothing s → wlp (run u fuel p r) (λ _, inv q nothing) (inv q nothing) s.
Proof.
  revert r s. induction p as [err | f k IH | bytes k IH]; intros r s Hr HI; simpl.
  - by wstep.
  - do 4 wstep. by apply IH.
  - wstep. eapply wlp_mono; [| | by apply inv_uiomove]; [| done].
    intros [e r'] s1 [HI1 Hr1]. by apply IH.
Qed.
End within.

(** Reads keep the invariant, at every depth of page faults. *)
Lemma user_io_ok file_read fuel d : reads_ok (user_io file_read fuel d).
Proof.
  induction d as [|d IH]; intros v off va msz fsz ex Hva s HI; [done |]. simpl.
  apply inv_run; [exact IH | | done]. split; cbn; [zlia | apply (wrap_fits 32); lia].
Qed.
End reads.

(** ** Boot and change of process *)

Section system.
Context {FS : Type} {fops : FileOps FS} {uio : UserIO FS}.
Implicit Types s : kstate FS.

(** Before the TLB is filled: memory of at most 512 MB, and no frame of a process. *)
Definition booting s : Prop :=
  length (entries (k_tlb s)) = 64%nat ∧ 0 <= next_victim (k_tlb s) < NUM_TLB ∧
  Z.of_nat (length (main_PG (k_pt s))) <= 2 ^ 17 ∧ Forall (λ e, pid e = 0) (main_PG (k_pt s)).

Lemma booting_mark i : preserves booting (mark_kernel i).
Proof.
  intros s (H1 & H2 & H3 & H4). unfold mark_kernel. wsteps. unfold booting. cbn.
  rewrite length_insert. do 3 (split; [done |]). by apply Forall_insert.
Qed.

Lemma booting_fill q s :
  booting s → twp (on_tlb tlb_invalid_fill ;; on_tlb (modify (set_free NUM_TLB))) (λ _, isolated q nothing) s.
Proof.
  intros (H1 & H2 & H3 & H4). unfold twp, on_tlb, zoom, mbind, M_bind.
  destruct (tlb_invalid_fill_spec 64 0 (k_tlb s)) as (t1 & E1 & He & Hl & _ & Hnx & _); [done | lia | lia |].
  unfold tlb_invalid_fill. change (Z.to_nat NUM_TLB) with 64%nat. rewrite E1. cbn.
  assert (∀ i e, entries t1 !! i = Some e → e = invalid_entry (Z.of_nat i)) as Hinv.
  { intros i e Hi. pose proof (lookup_lt_Some _ _ _ Hi) as Hlt. rewrite Hl in Hlt. rewrite He in Hi by done.
    rewrite (proj2 (Z.leb_le _ _)), (proj2 (Z.ltb_lt _ _)) in Hi by lia. by injection Hi as <-. }
  assert (entries t1 = entries empty_tlb) as Ee.
  { apply list_eq_same_length with 64%nat; [reflexivity | done |]. intros i x y _ Hx Hy.
    rewrite (Hinv i x Hx). symmetry. by apply empty_entries. }
  unfold isolated. cbn. apply iso_empty; [split; cbn | done | |].
  - done.
  - intros i e Hi. left. by apply Hinv.
  - intros i j e e' Hi _ Hv. by rewrite (Hinv i e Hi) in Hv.
  - by rewrite Ee.
  - by rewrite Hnx.
  - intros i e Hi Hp. rewrite Forall_lookup in H4. by apply H4 in Hi.
  - intros vp. apply translate_None. intros i e Hi Hv. cbn in Hi. by rewrite (Hinv i e Hi) in Hv.
Qed.

Lemma boot_isolated q fuel s s' :
  0 < q < 256 → length (entries (k_tlb s)) = 64%nat → 0 <= next_victim (k_tlb s) < NUM_TLB →
  0 <= lastpaddr (k_ram s) <= 2 ^ 29 → vm_bootstrap fuel s = Done tt s' → isolated q nothing s'.
Proof.
  intros Hq Hl Hn Hr E.
  assert (wlp (vm_bootstrap fuel) (λ _, isolated q nothing) (λ _, True) s) as Hw.
  2: { unfold wlp in Hw. by rewrite E in Hw. }
  assert (∀ B (f : ram_state → B) r (Q : B → kstate FS → Prop) s0,
    Q (f (k_ram s0)) (with_k_ram (r (k_ram s0)) s0) →
    wlp (zoom k_ram with_k_ram (λ x, Done (f x) (r x))) Q (λ _, True) s0) as Hram by done.
  unfold vm_bootstrap. wstep. apply (Hram _ lastpaddr id). wstep.
  apply (Hram _ firstpaddr (λ r, with_firstpaddr 0 (with_lastpaddr 0 r))). do 2 wstep.
  match goal with |- wlp _ _ _ ?s1 => assert (booting s1) as HB; [| revert HB; generalize s1] end.
  { unfold booting. cbn. do 2 (split; [done |]). rewrite length_replicate. split.
    - pose proof (Z.div_pos (lastpaddr (k_ram s)) PAGE_SIZE).
      pose proof (Z.div_le_upper_bound (lastpaddr (k_ram s)) PAGE_SIZE (2 ^ 17)). zlia.
    - by apply Forall_replicate. }
  intros s1 HB. cbn zeta.
  assert (∀ n from g s0 (Q : unit → _), booting s0 → (∀ s2, booting s2 → Q tt s2) →
    wlp (for_loop n from (λ i, mark_kernel (g i))) Q (λ _, True) s0) as Hmark.
  { intros n from g s0 Q H0 HQ. eapply wlp_mono; [| | apply preserves_for; [| exact H0]]; [| done |].
    - intros [] s2. apply HQ.
    - intros i. apply booting_mark. }
  wstep. apply (Hmark _ _ id); [done |]. intros s2 HB2. wstep. apply Hmark; [done |]. intros s3 HB3.
  pose proof (booting_fill q s3 HB3) as Hf. unfold twp in Hf.
  apply (wlp_bind (on_tlb tlb_invalid_fill)). unfold mbind at 1, M_bind in Hf. unfold wlp at 1.
  destruct (on_tlb tlb_invalid_fill s3) as [[] s4| | |]; try done.
  apply (wlp_bind (on_tlb _)). unfold wlp at 1.
  destruct (on_tlb (modify (set_free NUM_TLB)) s4) as [[] s5| | |]; try done.
  eapply wlp_mono with (Q := λ _, isolated q nothing) (X := isolated q nothing); [done | done |].
  revert s5 Hf. match goal with |- ∀ s, _ → wlp ?m _ _ s => change (preserves (isolated q nothing) m) end.
  apply preserves_bind; [apply keeps_isolated; unfold swapfile_init, set_sf | intros _].
  { keeps_auto; [by apply keeps_open | by apply keeps_modify]. }
  apply preserves_bind; [apply keeps_isolated; by apply keeps_modify | intros _].
  apply preserves_for. intros i. apply preserves_bind; [by apply iso_addToFrameList | intros r].
  destruct (negb (r =? 0)); apply keeps_isolated; auto with keeps.
Qed.

(** Making process [p] current: the TLB is emptied when the pid is not what TLB_PID, a
    single bit, says; when it is, the TLB must be that of [p] already. *)
Definition switches q s (p : proc) : Prop :=
  p_addrspace p ≠ 0 → 0 < p_id p < 256 ∧ (p_id p ≠ b2z (TLB_PID (k_proc s)) ∨ p_id p = q).

Lemma activate_isolated q s s' p :
  isolated q nothing s → curproc (k_proc s) ≠ 0 → procs (k_proc s) !! curproc (k_proc s) = Some p →
  switches q s p → as_activate s = Done tt s' →
  isolated (if p_addrspace p =? 0 then q else p_id p) nothing s'.
Proof.
  intros HI Hc Hp Hsw E. unfold as_activate, proc_getas, cur_proc, gets, deref, mbind, M_bind in E.
  rewrite (proj2 (Z.eqb_neq _ 0)), Hp in E by done. cbn in E.
  destruct (Z.eqb_spec (p_addrspace p) 0) as [| Hne]; [by injection E as <- |]. rewrite Hp in E.
  destruct (Hsw Hne) as [_ Hsame].
  destruct (Z.eqb_spec (p_id p) (b2z (TLB_PID (k_proc s)))); cbn [negb] in E.
  { injection E as <-. by destruct Hsame as [? | ->]. }
  destruct HI as [Ht Hl Hu Hm Ha].
  destruct (invalidate_TLB_ok (k_tlb s)) as (t' & E' & Hok & _ & _ & _ & Hn); [apply Ht | apply Ht |].
  unfold on_tlb, zoom in E. rewrite E' in E. injection E as <-. by apply iso_empty.
Qed.

(** ** Every reachable state *)

(** [m] ends in [s'], by returning or by ending the thread. *)
Definition ends {B} (m : M (kstate FS) B) s s' : Prop :=
  match m s with Done _ x | Exited x => x = s' | _ => False end.

(** The memory system from boot on, with the process whose pages the TLB holds.
    Everything that touches neither TLB nor page table (user code, files, other kernel
    code, the choice of the current process) is one kind of step. *)
Inductive reach : Z → kstate FS → Prop :=
| reach_boot fuel q s s' :
    0 < q < 256 → length (entries (k_tlb s)) = 64%nat → 0 <= next_victim (k_tlb s) < NUM_TLB →
    0 <= lastpaddr (k_ram s) <= 2 ^ 29 → vm_bootstrap fuel s = Done tt s' → reach q s'
| reach_other q s s' :
    reach q s → k_tlb s' = k_tlb s → k_pt s' = k_pt s → reach q s'
| reach_alloc_kpages fuel n q s s' : reach q s → ends (alloc_kpages fuel n) s s' → reach q s'
| reach_free_kpages fuel a q s s' : reach q s → ends (free_kpages fuel a) s s' → reach q s'
| reach_kmalloc fuel n q s s' : reach q s → ends (kmalloc fuel n) s s' → reach q s'
| reach_kfree fuel a q s s' : reach q s → ends (kfree fuel a) s s' → reach q s'
| reach_as_destroy fuel a q s s' : reach q s → ends (as_destroy fuel a) s s' → reach q s'
| reach_activate q s s' p :
    reach q s → curproc (k_proc s) ≠ 0 → procs (k_proc s) !! curproc (k_proc s) = Some p →
    switches q s p → as_activate s = Done tt s' →
    reach (if p_addrspace p =? 0 then q else p_id p) s'
| reach_region fuel a vaddr memsize r w x q s s' :
    reach q s → runs q s → 0 <= vaddr →
    (∀ y, addrspaces (k_proc s) !! a = Some y →
       vaddr + region_pages x memsize y * PAGE_SIZE <= MIPS_KSEG0 ∧
       ∀ vp, region vaddr 0 (region_pages x memsize y) vp → translate (k_tlb s) vp = None) →
    ends (as_define_region fuel a vaddr memsize r w x) s s' → reach q s'
| reach_prepare fuel a q s s' :
    reach q s → runs q s →
    (∀ x, addrspaces (k_proc s) !! a = Some x →
       u32 (as_vbase_data x + PAGE_SIZE * as_npages_data x) < MIPS_KSEG0) →
    ends (as_prepare_load fuel a) s s' → reach q s'
| reach_segment a v off va m f x q s s' :
    reach q s → runs q s → PAGE_SIZE <= va < MIPS_KSEG0 →
    ends (load_segment a v off va m f x) s s' → reach q s'
| reach_exit fuel st q s s' : reach q s → runs q s → ends (sys__exit fuel st) s s' → reach q s'
| reach_fault fuel ft va q s s' :
    reach q s → runs q s → 0 <= va < MIPS_KSEG0 → (cur_segments va s → PAGE_SIZE <= va) →
    (ft ≠ VM_FAULT_READONLY → translate (k_tlb s) (page va) = None) →
    ends (vm_fault fuel ft va) s s' → reach q s'.

Lemma ends_wlp {B} (m : M (kstate FS) B) (I : kstate FS → Prop) s s' :
  wlp m (λ _, I) I s → ends m s s' → I s'.
Proof. unfold wlp, ends. destruct (m s); by (intros ? <- || done). Qed.
Lemma ends_inv {B} q (m : M (kstate FS) B) s s' :
  wlp m (λ _, inv q nothing) (inv q nothing) s → ends m s s' → isolated q nothing s'.
Proof. intros Hm E. apply (ends_wlp m (inv q nothing) s s' Hm E). Qed.

Section isolation.
Context (Hu : ∀ q, 0 < q < 256 → reads_ok q uio).

Lemma reach_isolated q s : reach q s → 0 < q < 256 ∧ isolated q nothing s.
Proof.
  induction 1 as [| ? ? ? ? [Hq HI] Et Ep | ? ? ? ? ? ? [Hq HI] | ? ? ? ? ? ? [Hq HI] | ? ? ? ? ? ? [Hq HI]
    | ? ? ? ? ? ? [Hq HI] | ? ? ? ? ? ? [Hq HI] | ? ? ? ? ? [Hq HI] | ? ? ? ? ? ? ? ? ? ? ? [Hq HI]
    | ? ? ? ? ? ? [Hq HI] | ? ? ? ? ? ? ? ? ? ? ? [Hq HI] | ? ? ? ? ? ? [Hq HI] | ? ? ? ? ? ? ? [Hq HI]].
  - split; [done |]. by eapply boot_isolated.
  - split; [done |]. unfold isolated. by rewrite Et, Ep.
  - split; [done |]. eapply ends_wlp; [by apply iso_alloc_kpages | done].
  - split; [done |]. eapply ends_wlp; [by apply iso_free_kpages | done].
  - split; [done |]. eapply ends_wlp; [by apply iso_kmalloc | done].
  - split; [done |]. eapply ends_wlp; [by apply iso_kfree | done].
  - split; [done |]. eapply ends_wlp; [by apply iso_as_destroy | done].
  - split; [| by eapply activate_isolated]. destruct (Z.eqb_spec (p_addrspace p) 0); [done |].
    by destruct H2.
  - split; [done |]. eapply ends_inv; [by eapply inv_region | done].
  - split; [done |]. eapply ends_inv; [by eapply inv_prepare | done].
  - split; [done |]. eapply ends_inv; [eapply inv_load_segment; [done | by apply Hu | done | done] | done].
  - split; [done |]. eapply ends_inv; [by eapply inv_sys__exit | done].
  - split; [done |]. eapply ends_inv; [eapply vm_fault_isolated; [done | by apply Hu | done..] | done].
Qed.

End isolation.
End system.

(** C1: In every state the memory system reaches after boot by page faults, loads of
    segments (with the page faults their reads take), allocations, releases, exits and
    changes of process, the TLB has at most one entry for a page, and every entry for an
    address leads to a frame that the page table holds as valid, for the page of that
    address, and for the process made current last: never to a free frame, to memory of
    the kernel or to memory of another process.  The steps of [reach] leave out what
    breaks this in the code: making a process with an address space current whose pid
    equals the bit TLB_PID while the TLB is another's ([as_activate_stale]) or is not in
    1..255; defining a region, or a stack page, that is not within user space, or whose pages are in the TLB
    already ([addTLB_slot0]); and loading a page for an address below PAGE_SIZE, which
    load_elf takes for the request to load the whole program. *)
Theorem tlb_isolation {FS : Type} {fops : FileOps FS} file_read n d q (s : kstate FS) va lo :
  reach (uio := user_io file_read n d) q s →
  0 <= va < MIPS_KSEG0 → translate (k_tlb s) (page va) = Some lo →
  tlb_ok (k_tlb s) ∧ 0 < q < 256 ∧
  ∃ e, main_PG (k_pt s) !! Z.to_nat (Z.shiftr lo 12) = Some e ∧
    Valid e = true ∧ pid e = q ∧ page_number e = va / PAGE_SIZE.
Proof.
  intros Hr Hva Hlo.
  destruct (reach_isolated (λ q Hq, user_io_ok q Hq file_read n d) q s Hr) as [Hq HI].
  split; [apply HI |]. split; [done |].
  destruct (iso_leads _ _ _ _ HI _ _ Hlo) as (e & He & Hv & Hp & Hn).
  exists e. split_and!; try done. rewrite Hn. apply page_of_frame. unfold fits. zlia.
Qed.

(** ** On the booted machine *)

(** An executable with a data segment of four pages at 0x10000000, and the file layer
    that reads it with one call of uiomove. *)
Definition w_prog : pagestore := λ off,
  if off =? 0 then [0x7f454c46; 0x01020100; 0; 0; 0x00020008; 1; 0x400000; 52; 0; 0; 32; 0x00010000; 0]
  else if off =? 52 then [1; 0x1000; 0x10000000; 0; 0x4000; 0x4000; 6; 0]
  else replicate 1024 0x01020304.
Definition w_read (v off n : Z) : reading pagestore :=
  Step id (λ fs, Uiomove (take (Z.to_nat n) (concat (map word_bytes (fs off)))) Returns).
#[local] Instance w_uio : UserIO pagestore := user_io w_read 10 3.

Definition w_cold : M0 := with_k_fs w_prog (after (kmalloc 10 12 cold) cold).
Definition w_boot : M0 := after (vm_bootstrap 10 w_cold) w_cold.
Definition w_proc : M0 := upd_proc (with_curproc 0x80001100) w_boot.
Definition w_active : M0 := after (as_activate w_proc) w_proc.
Definition w_code : M0 :=
  after (as_define_region 10 0x80001200 0x400000 0x800 true false true w_active) w_active.
Definition w_fault : M0 := after (vm_fault 10 VM_FAULT_WRITE 0x10000008 w_code) w_code.

Lemma all_invalid t :
  forallb (λ e, negb (entry_valid e)) (entries t) = true → ∀ vp, translate t vp = None.
Proof.
  intros H vp. apply translate_None. intros i e Hi Hv.
  rewrite forallb_forall in H. specialize (H e). rewrite Hv in H.
  apply list_elem_of_lookup_2, list_elem_of_In in Hi. by apply H in Hi.
Qed.

Lemma ends_after {FS B} (m : M (kstate FS) B) s :
  match m s with Done _ _ | Exited _ => True | _ => False end → ends m s (after (m s) s).
Proof. unfold ends. by destruct (m s). Qed.

Lemma reach_curproc {FS} {fops : FileOps FS} {uio : UserIO FS} q (s : kstate FS) c :
  reach q s → reach q (upd_proc (with_curproc c) s).
Proof. intros H. by eapply reach_other. Qed.

Lemma w_code_reach : reach 2 w_code.
Proof.
  apply (reach_region 10 0x80001200 0x400000 0x800 true false true 2 w_active); [| | lia | |].
  - apply (reach_activate 2 w_proc w_active (proc0 2 0x80001200));
      [| vm_compute; congruence | vm_compute; reflexivity | intros _; split; [cbn; lia | left; vm_compute; congruence]
       | apply after_done; vm_compute; reflexivity].
    refine (reach_curproc 2 w_boot 0x80001100 _).
    apply (reach_boot 10 2 w_cold); [lia | vm_compute; reflexivity | vm_compute; split; congruence
      | vm_compute; split; congruence | apply after_done; vm_compute; reflexivity].
  - intros x. vm_compute. by intros [= <-].
  - intros y Hy. split; [vm_compute; congruence |].
    intros vp _. revert vp. apply all_invalid. vm_compute. reflexivity.
  - unfold w_code. refine (ends_after (as_define_region 10 0x80001200 0x400000 0x800 true false true) w_active _).
    vm_compute. exact I.
Qed.

(** A page fault whose read takes another page fault. *)
Lemma w_fault_reach : reach 2 w_fault.
Proof.
  apply (reach_fault 10 VM_FAULT_WRITE 0x10000008 2 w_code); [exact w_code_reach | | zlia | | |].
  - intros x. vm_compute. by intros [= <-].
  - zlia.
  - intros _. vm_compute. reflexivity.
  - unfold w_fault. refine (ends_after (vm_fault 10 VM_FAULT_WRITE 0x10000008) w_code _).
    vm_compute. exact I.
Qed.

Lemma tlb_isolation_witness :
  tlb_ok (k_tlb w_fault) ∧ 0 < 2 < 256 ∧
  ∃ e, main_PG (k_pt w_fault) !! 11%nat = Some e ∧ Valid e = true ∧ pid e = 2 ∧ page_number e = 0x10000.
Proof.
  apply (tlb_isolation w_read 10 3) with (va := 0x10000123) (lo := 0xb600);
    [exact w_fault_reach | zlia | vm_compute; reflexivity].
Defined.

Example w_fault_loaded :
  vm_fault 10 VM_FAULT_WRITE 0x10000008 w_code = Done 0 w_fault ∧ k_mem w_fault 0x8000b008 = 0x01020304.
Proof. split; [apply after_done; vm_compute; reflexivity | vm_compute; reflexivity]. Qed.

(** addTLB does not notice an entry for the page in slot 0: with a free slot [i] it
    writes a second one there. *)
Lemma addTLB_slot0 t pg va q n lo i :
  first_index (pt_matches (va / PAGE_SIZE) q) pg = Some n →
  entries t !! 0%nat = Some (page va, lo) → entry_valid (page va, lo) = true →
  first_index (λ e, negb (entry_valid e)) (entries t) = Some i → i ≠ 0%nat →
  ∃ t' lo', addTLB pg va q t = Done 0 t' ∧ entries t' !! 0%nat = Some (page va, lo) ∧
    entries t' !! i = Some (page va, lo').
Proof.
  intros Hn H0 Hv Hi Hne. unfold addTLB. rewrite Hn. cbv zeta.
  match goal with |- context [tlb_probe _ ?x] => generalize x; intros elo end.
  assert (∀ l : list (Z * Z), l !! 0%nat = Some (page va, lo) →
    first_index (tlb_match (page va)) l = Some 0%nat) as Hp.
  { intros [|x l] Hl; simplify_eq/=. unfold tlb_match. cbn [fst]. by rewrite Z.eqb_refl. }
  assert (entries (tlb_write (page va) elo (Z.of_nat i) t) !! 0%nat = Some (page va, lo)) as H0'.
  { cbn. rewrite Nat2Z.id. by rewrite list_lookup_insert_ne. }
  eexists _, elo. split.
  - mrun. unfold tlb_probe at 1. rewrite (Hp _ H0). change (0 <? Z.of_nat 0) with false. cbv iota beta.
    rewrite Hi. unfold tlb_probe. rewrite (Hp _ H0'). done.
  - split; [exact H0' |]. cbn. rewrite Nat2Z.id. apply list_lookup_insert_eq.
    destruct (first_index_lookup _ _ _ Hi) as (e & He & _). by eapply lookup_lt_Some.
Qed.

(** Two segments of an executable at the same address: the first page of the process is
    in slot 0, where addTLB does not notice it, so the page gets a second entry.  When
    its frame is freed only one of them goes: the kernel is given a page that the process
    can still write. *)
Example overlap_leaks_kernel_memory :
  ∃ s1 s2 s3, as_define_region 10 0x80001200 0x400000 0x800 true true false w_code = Done 0 s1 ∧
    free_kpages 10 0x8000a000 s1 = Done tt s2 ∧ alloc_kpages 10 1 s2 = Done 0x8000a000 s3 ∧
    translate (k_tlb s3) 0x400000 = Some (frame_elo 10 true).
Proof.
  exists (after (as_define_region 10 0x80001200 0x400000 0x800 true true false w_code) w_code).
  eexists _, _. split; [apply after_done; vm_compute; reflexivity |].
  split; [eapply after_done; vm_compute; reflexivity |].
  split; [eapply after_done; vm_compute; reflexivity |]. vm_compute. reflexivity.
  Unshelve. all: exact w_code.
Qed.

End Isolation.
