(* ===== verification/Lamebus.v ===== *)
(** * The system bus (dev/lamebus/lamebus.c) and its registers
      (lamebus_map_area, lamebus_read_register and lamebus_write_register of
      arch/sys161/dev/lamebus_machdep.c)

    The bus controller and the devices are hardware: their registers are
    read and written at an address of the uncached segment, through the
    operations of class [Hw].  The interrupt handlers of the device drivers
    are called through the pointers they register, so they are the argument
    [irqfunc] of the dispatcher.  The lock is the spinlock of one CPU: taking it
    twice is the deadlock panic of spinlock_acquire. *)

From stdpp Require Import base list numbers strings.
From Stdlib Require Import ZArith Lia.
From S2P Require Import Prelude.

#[local] Open Scope Z_scope.

Module Lamebus.

Definition LB_VENDOR_CS161 : Z := 1.
Definition LBCS161_UPBUSCTL : Z := 1.
Definition LB_CONTROLLER_SLOT : Z := 31.
Definition LB_NSLOTS : Z := 32.
Definition LB_CONFIG_SIZE : Z := 1024.
Definition LB_CTLCPU_SIZE : Z := 1024.
Definition LB_CTLCPU_OFFSET : Z := 32768.
Definition LB_SLOT_SIZE : Z := 65536.
Definition LB_BASEADDR : Z := MIPS_KSEG1 + 0x1fe00000.

Definition CFGREG_VID : Z := 0.
Definition CFGREG_DID : Z := 4.
Definition CFGREG_DRL : Z := 8.
Definition CTLREG_RAMSZ : Z := 0x200.
Definition CTLREG_IRQS : Z := 0x204.
Definition CTLREG_PWR : Z := 0x208.
Definition CTLREG_IRQE : Z := 0x20c.
Definition CTLREG_CPUS : Z := 0x210.
Definition CTLREG_CPUE : Z := 0x214.
Definition CTLREG_SELF : Z := 0x218.
Definition CTLCPU_CIRQE : Z := 0x000.
Definition CTLCPU_CIPI : Z := 0x004.
Definition CTLCPU_CRAM : Z := 0x300.

(** struct lamebus_softc; a NULL handler is 0. *)
Record softc := mkSc {
  ls_lock : bool;
  ls_slotsinuse : Z;
  ls_devdata : list Z;
  ls_irqfuncs : list Z;
  ls_uniprocessor : Z
}.
Definition with_lock b x := mkSc b (ls_slotsinuse x) (ls_devdata x) (ls_irqfuncs x) (ls_uniprocessor x).
Definition with_inuse n x := mkSc (ls_lock x) n (ls_devdata x) (ls_irqfuncs x) (ls_uniprocessor x).
Definition with_handler d f x := mkSc (ls_lock x) (ls_slotsinuse x) d f (ls_uniprocessor x).
Definition with_uniprocessor n x :=
  mkSc (ls_lock x) (ls_slotsinuse x) (ls_devdata x) (ls_irqfuncs x) n.

(** The bus pointer of the system, the static counter of the dispatcher, the
    hardware numbers of the CPUs created so far (entry [i] is that of CPU [i],
    CPU 0 is the one that boots) and the hardware. *)
Record bus (H : Type) := mkBus {
  lamebus : option softc;
  duds : Z;
  c_hardware_number : list Z;
  hw : H
}.
Arguments mkBus {H}. Arguments lamebus {H}. Arguments duds {H}.
Arguments c_hardware_number {H}. Arguments hw {H}.

(** A load or store at an I/O address; a load may change a device as well. *)
Class Hw (H : Type) := {
  hw_load : Z → H → Z * H;
  hw_store : Z → Z → H → H
}.

Section lamebus.
Context {H : Type} `{!Hw H}.
Abbreviation B := (M (bus H)).

Definition with_sc x (s : bus H) := mkBus x (duds s) (c_hardware_number s) (hw s).
Definition with_duds x (s : bus H) := mkBus (lamebus s) x (c_hardware_number s) (hw s).
Definition with_cpus x (s : bus H) := mkBus (lamebus s) (duds s) x (hw s).
Definition with_hw (x : H) (s : bus H) := mkBus (lamebus s) (duds s) (c_hardware_number s) x.

Definition get_sc : B softc := deref lamebus "NULL lamebus_softc".
Definition upd_sc (f : softc → softc) : B unit :=
  x ← get_sc; modify (with_sc (Some (f x))).

Definition spinlock_acquire : B unit :=
  x ← get_sc;
  (if ls_lock x then panic "Deadlock on spinlock" else mret tt) ;;
  upd_sc (with_lock true).
Definition spinlock_release : B unit :=
  x ← get_sc;
  kassert (ls_lock x) "spinlock not held" ;;
  upd_sc (with_lock false).

(** ** Registers *)

Definition lamebus_map_area (slot offset : Z) : B Z :=
  kassert ((0 <=? slot) && (slot <? LB_NSLOTS)) "slot >= 0 && slot < LB_NSLOTS" ;;
  mret (u32 (LB_BASEADDR + slot * LB_SLOT_SIZE + offset)).

Definition load_word (ptr : Z) : B Z :=
  v ← gets (λ s, hw_load ptr (hw s));
  modify (with_hw v.2) ;; mret v.1.
Definition store_word (ptr val : Z) : B unit :=
  modify (λ s, with_hw (hw_store ptr val (hw s)) s).

Definition lamebus_read_register (slot offset : Z) : B Z :=
  ptr ← lamebus_map_area slot offset; load_word ptr.
Definition lamebus_write_register (slot offset val : Z) : B unit :=
  ptr ← lamebus_map_area slot offset; store_word ptr val.

Definition read_cfg_register (slot offset : Z) : B Z :=
  lamebus_read_register LB_CONTROLLER_SLOT (u32 (offset + LB_CONFIG_SIZE * slot)).
Definition write_cfg_register (slot offset val : Z) : B unit :=
  lamebus_write_register LB_CONTROLLER_SLOT (u32 (offset + LB_CONFIG_SIZE * slot)) val.
Definition read_ctl_register (offset : Z) : B Z := read_cfg_register LB_CONTROLLER_SLOT offset.
Definition write_ctl_register (offset val : Z) : B unit :=
  write_cfg_register LB_CONTROLLER_SLOT offset val.
Definition write_ctlcpu_register (hw_cpunum offset val : Z) : B unit :=
  lamebus_write_register LB_CONTROLLER_SLOT
    (u32 (offset + LB_CTLCPU_OFFSET + hw_cpunum * LB_CTLCPU_SIZE)) val.

(** ** CPUs *)

(** [cpu_create] as far as the bus is concerned: the new CPU is the last of [allcpus]. *)
Definition cpu_create (hardware_number : Z) : B unit :=
  modify (λ s, with_cpus (c_hardware_number s ++ [hardware_number]) s).

Definition bit (i : Z) : Z := u32 (Z.shiftl 1 i).

(** The scan of the CPU mask: [hwnum] and [bootcpu]; [curcpu] is CPU 0. *)
Fixpoint scan_cpus (n : nat) (i cpumask self : Z) (hwnum : list Z) (bootcpu : nat) : B (list Z * nat) :=
  match n with
  | O => mret (hwnum, bootcpu)
  | S n' =>
      if negb (Z.land cpumask (bit i) =? 0) then
        boot ← (if negb (Z.land self (bit i) =? 0) then
                  modify (λ s, with_cpus (<[0%nat := i]> (c_hardware_number s)) s) ;;
                  mret (length hwnum)
                else mret bootcpu);
        scan_cpus n' (i + 1) cpumask self (hwnum ++ [i]) boot
      else scan_cpus n' (i + 1) cpumask self hwnum bootcpu
  end.

Fixpoint each_cpu (i : nat) (hwnum : list Z) (body : nat → Z → B unit) : B unit :=
  match hwnum with
  | [] => mret tt
  | h :: r => body i h ;; each_cpu (S i) r body
  end.

Definition lamebus_find_cpus : B unit :=
  mainboard_vid ← read_cfg_register LB_CONTROLLER_SLOT CFGREG_VID;
  mainboard_did ← read_cfg_register LB_CONTROLLER_SLOT CFGREG_DID;
  if (mainboard_vid =? LB_VENDOR_CS161) && (mainboard_did =? LBCS161_UPBUSCTL) then
    upd_sc (with_uniprocessor 1)
  else
    cpumask ← read_ctl_register CTLREG_CPUS;
    self ← read_ctl_register CTLREG_SELF;
    '(hwnum, bootcpu) ← scan_cpus 32 0 cpumask self [] 0;
    each_cpu 0 hwnum (λ i h, if Nat.eqb i bootcpu then mret tt else cpu_create h) ;;
    each_cpu 0 hwnum (λ i h,
      write_ctlcpu_register h CTLCPU_CIRQE (if Nat.eqb i bootcpu then 0xffffffff else 0)).

(** [start]: the address of cpu_start_secondary. *)
Fixpoint poke_cpus (n : nat) (i cpumask self start cpunum : Z) : B unit :=
  match n with
  | O => mret tt
  | S n' =>
      if negb (Z.land cpumask (bit i) =? 0) && (Z.land self (bit i) =? 0) then
        cram ← lamebus_map_area LB_CONTROLLER_SLOT
                 (u32 (LB_CTLCPU_OFFSET + i * LB_CTLCPU_SIZE + CTLCPU_CRAM));
        store_word cram start ;;
        store_word (u32 (cram + 4)) cpunum ;;
        poke_cpus n' (i + 1) cpumask self start (cpunum + 1)
      else poke_cpus n' (i + 1) cpumask self start cpunum
  end.

Definition lamebus_start_cpus (start : Z) : B unit :=
  x ← get_sc;
  if c_bool (ls_uniprocessor x) then mret tt
  else
    cpumask ← read_ctl_register CTLREG_CPUS;
    self ← read_ctl_register CTLREG_SELF;
    poke_cpus 32 0 cpumask self start 1 ;;
    write_ctl_register CTLREG_CPUE cpumask.

(** ** Slots *)

(** The loop of lamebus_probe from [slot], [n] slots left; the slot found and the
    revision stored through [version_ret]. *)
Fixpoint probe_loop (n : nat) (slot vendorid deviceid lowver : Z) : B (option (Z * Z)) :=
  match n with
  | O => mret None
  | S n' =>
      let next := probe_loop n' (slot + 1) vendorid deviceid lowver in
      x ← get_sc;
      if negb (Z.land (ls_slotsinuse x) (bit slot) =? 0) then next
      else
        val ← read_cfg_register slot CFGREG_VID;
        if negb (val =? vendorid) then next
        else
          val ← read_cfg_register slot CFGREG_DID;
          if negb (val =? deviceid) then next
          else
            val ← read_cfg_register slot CFGREG_DRL;
            if val <? lowver then next else mret (Some (slot, val))
  end.

Definition lamebus_probe (vendorid deviceid lowver : Z) : B (Z * option Z) :=
  spinlock_acquire ;;
  r ← probe_loop (Z.to_nat LB_NSLOTS) 0 vendorid deviceid lowver;
  match r with
  | Some (slot, version) => spinlock_release ;; mret (slot, Some version)
  | None => spinlock_release ;; mret (-1, None)
  end.

Definition slot_ok (slot : Z) : B unit :=
  kassert ((0 <=? slot) && (slot <? LB_NSLOTS)) "slot>=0 && slot < LB_NSLOTS".

Definition lamebus_mark (slot : Z) : B unit :=
  slot_ok slot ;;
  spinlock_acquire ;;
  x ← get_sc;
  (if negb (Z.land (ls_slotsinuse x) (bit slot) =? 0)
   then panic "lamebus_mark: slot already in use" else mret tt) ;;
  upd_sc (with_inuse (Z.lor (ls_slotsinuse x) (bit slot))) ;;
  spinlock_release.

Definition lamebus_unmark (slot : Z) : B unit :=
  slot_ok slot ;;
  spinlock_acquire ;;
  x ← get_sc;
  (if Z.land (ls_slotsinuse x) (bit slot) =? 0
   then panic "lamebus_mark: slot not marked in use" else mret tt) ;;
  upd_sc (with_inuse (Z.land (ls_slotsinuse x) (notw 32 (bit slot)))) ;;
  spinlock_release.

Definition devdata_at (x : softc) (slot : Z) : Z := nth (Z.to_nat slot) (ls_devdata x) 0.
Definition irqfunc_at (x : softc) (slot : Z) : Z := nth (Z.to_nat slot) (ls_irqfuncs x) 0.
Definition set_handler (slot devdata irqfunc : Z) (x : softc) : softc :=
  with_handler (<[Z.to_nat slot := devdata]> (ls_devdata x))
               (<[Z.to_nat slot := irqfunc]> (ls_irqfuncs x)) x.

Definition lamebus_attach_interrupt (slot devdata irqfunc : Z) : B unit :=
  slot_ok slot ;;
  spinlock_acquire ;;
  x ← get_sc;
  (if Z.land (ls_slotsinuse x) (bit slot) =? 0
   then panic "lamebus_attach_interrupt: slot not marked in use" else mret tt) ;;
  kassert (devdata_at x slot =? 0) "sc->ls_devdata[slot]==NULL" ;;
  kassert (irqfunc_at x slot =? 0) "sc->ls_irqfuncs[slot]==NULL" ;;
  upd_sc (set_handler slot devdata irqfunc) ;;
  spinlock_release.

Definition lamebus_detach_interrupt (slot : Z) : B unit :=
  slot_ok slot ;;
  spinlock_acquire ;;
  x ← get_sc;
  (if Z.land (ls_slotsinuse x) (bit slot) =? 0
   then panic "lamebus_detach_interrupt: slot not marked in use" else mret tt) ;;
  kassert (negb (irqfunc_at x slot =? 0)) "sc->ls_irqfuncs[slot]!=NULL" ;;
  upd_sc (set_handler slot 0 0) ;;
  spinlock_release.

Definition lamebus_mask_interrupt (slot : Z) : B unit :=
  slot_ok slot ;;
  spinlock_acquire ;;
  bits ← read_ctl_register CTLREG_IRQE;
  write_ctl_register CTLREG_IRQE (Z.land bits (notw 32 (bit slot))) ;;
  spinlock_release.

Definition lamebus_unmask_interrupt (slot : Z) : B unit :=
  slot_ok slot ;;
  spinlock_acquire ;;
  bits ← read_ctl_register CTLREG_IRQE;
  write_ctl_register CTLREG_IRQE (Z.lor bits (bit slot)) ;;
  spinlock_release.

(** ** Interrupts *)

Definition count_dud : B unit := modify (λ s, with_duds (duds s + 1) s).

(** The loop of lamebus_interrupt from [slot]; [mask] is [bit slot].  The result is
    [duds_this_time]. *)
Fixpoint irq_loop (irqfunc : Z → Z → B unit) (n : nat) (slot irqs duds_this_time : Z) : B Z :=
  match n with
  | O => mret duds_this_time
  | S n' =>
      let mask := bit slot in
      if Z.land irqs mask =? 0 then irq_loop irqfunc n' (slot + 1) irqs duds_this_time
      else
        x ← get_sc;
        if Z.land (ls_slotsinuse x) mask =? 0 then
          count_dud ;; irq_loop irqfunc n' (slot + 1) irqs (duds_this_time + 1)
        else if irqfunc_at x slot =? 0 then
          count_dud ;; irq_loop irqfunc n' (slot + 1) irqs (duds_this_time + 1)
        else
          spinlock_release ;;
          irqfunc (irqfunc_at x slot) (devdata_at x slot) ;;
          spinlock_acquire ;;
          irqs ← read_ctl_register CTLREG_IRQS;
          irq_loop irqfunc n' (slot + 1) irqs duds_this_time
  end.

Definition lamebus_interrupt (irqfunc : Z → Z → B unit) : B unit :=
  _ ← get_sc;
  spinlock_acquire ;;
  irqs ← read_ctl_register CTLREG_IRQS;
  duds_this_time ← (if irqs =? 0 then count_dud ;; mret 1 else mret 0);
  duds_this_time ← irq_loop irqfunc (Z.to_nat LB_NSLOTS) 0 irqs duds_this_time;
  d ← gets duds;
  (if (duds_this_time =? 0) && (0 <? d) then modify (with_duds 0) else mret tt) ;;
  d ← gets duds;
  (if 10000 <? d then panic "lamebus: too many dud interrupts" else mret tt) ;;
  spinlock_release.

(** ** Power, memory size, interprocessor interrupts *)

(** cpu_halt turns interrupts off and waits for ever: outcome [Exited]. *)
Definition cpu_halt {A} : B A := λ s, Exited s.

Definition lamebus_poweroff : B unit := write_ctl_register CTLREG_PWR 0 ;; cpu_halt.

Definition lamebus_ramsize : B Z := read_ctl_register CTLREG_RAMSZ.

Definition ipi_line (target : nat) (val : Z) : B unit :=
  x ← get_sc;
  if c_bool (ls_uniprocessor x) then mret tt
  else
    h ← deref (λ s, c_hardware_number s !! target) "bad cpu";
    write_ctlcpu_register h CTLCPU_CIPI val.
Definition lamebus_assert_ipi (target : nat) : B unit := ipi_line target 1.
Definition lamebus_clear_ipi (target : nat) : B unit := ipi_line target 0.

(** [ptr]: the result of kmalloc. *)
Definition lamebus_init (ptr : Z) : B unit :=
  if ptr =? 0 then panic "lamebus_init: Out of memory"
  else
    modify (with_sc (Some (mkSc false (bit LB_CONTROLLER_SLOT)
                             (replicate (Z.to_nat LB_NSLOTS) 0)
                             (replicate (Z.to_nat LB_NSLOTS) 0) 0))).

End lamebus.
End Lamebus.
