(* ===== verification/LamebusProps.v ===== *)
(** * What the system bus does

    The interrupt dispatcher runs the handlers of the asserted slots, each once
    and in slot order, and a line nobody serves ends in a panic instead of a hang;
    a probe finds the first free slot that matches; the CPU numbers the kernel
    assigns are those the secondary CPUs are told. *)

From stdpp Require Import base list numbers strings.
From Stdlib Require Import ZArith Lia.
From S2P Require Import Prelude Lamebus.
Import Lamebus.

#[local] Open Scope Z_scope.

Module LamebusProps.

(** ** Bits and addresses *)

Lemma land_bit m i : 0 <= i < 32 → (Z.land m (bit i) =? 0) = negb (Z.testbit m i).
Proof.
  intros Hi. unfold bit. rewrite Z.shiftl_1_l.
  rewrite u32_small by (split; [lia | apply Z.pow_lt_mono_r; lia]).
  destruct (Z.testbit m i) eqn:Hb; simpl; [apply Z.eqb_neq | apply Z.eqb_eq].
  - intros Hz. apply (f_equal (λ z, Z.testbit z i)) in Hz.
    by rewrite Z.land_spec, Z.pow2_bits_true, Z.bits_0, Hb in Hz by lia.
  - apply Z.bits_inj_iff'. intros n Hn. rewrite Z.land_spec, Z.bits_0.
    destruct (decide (n = i)) as [-> | Hne]; [by rewrite Hb |].
    rewrite Z.pow2_bits_false by lia. by rewrite andb_false_r.
Qed.

(** The slots from [from] on whose bit is set, in order. *)
Definition lines (n : nat) (from irqs : Z) : list Z := filter (λ i, Z.testbit irqs i) (seqZ from (Z.of_nat n)).

Lemma lines_S n from irqs :
  lines (S n) from irqs =
    if Z.testbit irqs from then from :: lines n (from + 1) irqs else lines n (from + 1) irqs.
Proof.
  unfold lines. rewrite (seqZ_cons from (Z.of_nat (S n))) by lia.
  replace (Z.pred (Z.of_nat (S n))) with (Z.of_nat n) by lia. rewrite <- (Z.add_1_r from), filter_cons.
  by destruct (Z.testbit irqs from); case_decide.
Qed.

Lemma lines_elem n from irqs i :
  i ∈ lines n from irqs ↔ from <= i < from + Z.of_nat n ∧ Z.testbit irqs i = true.
Proof.
  unfold lines. rewrite list_elem_of_filter, elem_of_seqZ.
  destruct (Z.testbit irqs i); naive_solver.
Qed.

Lemma lines_ext n from a b :
  (∀ j, from <= j < from + Z.of_nat n → Z.testbit a j = Z.testbit b j) → lines n from a = lines n from b.
Proof.
  revert from. induction n as [|n IH]; intros from E; [done |].
  rewrite !lines_S, (E from) by lia.
  rewrite (IH (from + 1)); [done |]. intros j Hj. apply E. lia.
Qed.

Lemma lines_nonempty n irqs :
  0 <= irqs < 2 ^ Z.of_nat n → irqs ≠ 0 → lines n 0 irqs ≠ [].
Proof.
  intros Hr Hn He. apply Hn, Z.bits_inj_iff'. intros i Hi. rewrite Z.bits_0.
  destruct (Z_lt_dec i (Z.of_nat n)).
  - destruct (Z.testbit irqs i) eqn:E; [| done].
    assert (i ∈ lines n 0 irqs) as Hin by (apply lines_elem; split; [lia | done]).
    rewrite He in Hin. by apply not_elem_of_nil in Hin.
  - apply Z.testbit_false; [done |].
    rewrite Z.div_small; [done |]. split; [lia |].
    eapply Z.lt_le_trans; [apply Hr |]. apply Z.pow_le_mono_r; lia.
Qed.

Definition ctl_addr (offset : Z) : Z := u32 (LB_BASEADDR + 31 * LB_SLOT_SIZE + u32 offset).
Definition ctlreg (offset : Z) : Z := ctl_addr (offset + LB_CONFIG_SIZE * 31).

Lemma read_ctl_run {H} `{!Hw H} offset (s : bus H) :
  read_ctl_register offset s =
    Done (hw_load (ctlreg offset) (hw s)).1 (with_hw (hw_load (ctlreg offset) (hw s)).2 s).
Proof. reflexivity. Qed.
#[local] Opaque read_ctl_register.

Section dispatch.
Context {H : Type} `{!Hw H} (irqfunc : Z → Z → M (bus H) unit) (pend : H → Z).
Implicit Types s : bus H.

(** The interrupt status register can be read at any time, and has 32 bits. *)
Definition irqs_register : Prop :=
  ∀ h, hw_load (ctlreg CTLREG_IRQS) h = (pend h, h) ∧ fits 32 (pend h).

(** A driver has marked the slot and attached a handler. *)
Definition driven (x : softc) (i : Z) : bool :=
  Z.testbit (ls_slotsinuse x) i && negb (irqfunc_at x i =? 0).

(** A handler returns, whatever it does to the hardware; the bus's own record and the
    count of dud interrupts are not its business. *)
Definition handlers_ok (x : softc) : Prop :=
  ∀ s i, lamebus s = Some x → 0 <= i < 32 → driven x i = true →
    ∃ s', irqfunc (irqfunc_at x i) (devdata_at x i) s = Done tt s' ∧
      lamebus s' = Some x ∧ duds s' = duds s.

(** A reading of the interrupt status register: the machine after it, and the lines. *)
Definition irqs_read s : bus H * Z :=
  let r := hw_load (ctlreg CTLREG_IRQS) (hw s) in (with_hw r.2 s, r.1).

(** An interrupt nobody serves. *)
Definition dud s : bus H := with_duds (duds s + 1) s.

(** The turn of slot [i], from and to a machine with the lines last read there.  Its line
    asserted, with a driver its handler runs (with the bus lock free) and the lines are
    read anew, and without one a dud is counted; otherwise nothing happens. *)
Definition turn (x : softc) (i : Z) (p p' : bus H * Z) : Prop :=
  if Z.testbit p.2 i then
    if driven x i
    then ∃ s1, irqfunc (irqfunc_at x i) (devdata_at x i) p.1 = Done tt s1 ∧ p' = irqs_read s1
    else p' = (dud p.1, p.2)
  else p' = p.

Definition lock_sc (b : bool) s := with_sc (with_lock b <$> lamebus s) s.

Lemma lb_acquire_run s x :
  lamebus s = Some x → ls_lock x = false → spinlock_acquire s = Done tt (lock_sc true s).
Proof.
  intros Hs Hx. unfold spinlock_acquire, upd_sc, get_sc, deref, mbind, M_bind.
  rewrite Hs, Hx. cbn. rewrite Hs. unfold lock_sc. by rewrite Hs.
Qed.

Lemma lb_release_run s x :
  lamebus s = Some x → ls_lock x = false →
  spinlock_release (lock_sc true s) = Done tt s.
Proof.
  intros Hs Hx. destruct s, x; simpl in *. by subst.
Qed.

Lemma read_irqs_run s : read_ctl_register CTLREG_IRQS s = Done (irqs_read s).2 (irqs_read s).1.
Proof. apply read_ctl_run. Qed.

Lemma with_duds_same s : with_duds (duds s) s = s.
Proof. by destruct s. Qed.

Lemma irqs_read_lock b s : irqs_read (lock_sc b s) = (lock_sc b (irqs_read s).1, (irqs_read s).2).
Proof. done. Qed.

(** A sequence of turns begun one slot earlier. *)
Lemma turns_cons x n slot p (f : Z → bus H * Z) :
  turn x slot p (f (slot + 1)) →
  (∀ i, slot + 1 <= i < slot + 1 + Z.of_nat n → turn x i (f i) (f (i + 1))) →
  ∃ g : Z → bus H * Z, g slot = p ∧ g (slot + Z.of_nat (S n)) = f (slot + 1 + Z.of_nat n) ∧
    ∀ i, slot <= i < slot + Z.of_nat (S n) → turn x i (g i) (g (i + 1)).
Proof.
  intros Ht Hf. set (g := λ i, if i =? slot then p else f i). exists g. assert (g slot = p) as Eg by (unfold g; by rewrite Z.eqb_refl).
  assert (∀ i, slot < i → g i = f i) as Eg' by (intros i Hi; unfold g; by rewrite (proj2 (Z.eqb_neq i slot)) by lia).
  split_and!; [done | rewrite Eg' by lia; f_equal; lia |].
  intros i Hi. destruct (Z.eq_dec i slot) as [-> |]; [rewrite Eg, Eg' by lia; exact Ht |].
  rewrite !Eg' by lia. apply Hf. lia.
Qed.

(** One slot of the loop: its turn, and the rest of the loop from there. *)
Lemma irq_loop_turn x n slot d s irqs :
  handlers_ok x → ls_lock x = false → 0 <= slot < 32 → lamebus s = Some x →
  ∃ p, turn x slot (s, irqs) p ∧ lamebus p.1 = Some x ∧ duds s <= duds p.1 ∧
    irq_loop irqfunc (S n) slot irqs d (lock_sc true s) =
    irq_loop irqfunc n (slot + 1) p.2 (d + (duds p.1 - duds s)) (lock_sc true p.1).
Proof.
  intros Hh Hx Hslot Hs. unfold turn. cbn [irq_loop fst snd]. rewrite land_bit by lia.
  destruct (Z.testbit irqs slot); cbn [negb].
  2: { exists (s, irqs). split_and!; try done. cbn [fst snd]. by rewrite Z.sub_diag, Z.add_0_r. }
  destruct (driven x slot) eqn:Hdr.
  - destruct (Hh s slot Hs ltac:(lia) Hdr) as (s1 & E1 & Hs1 & Hd1). exists (irqs_read s1).
    split_and!; [by exists s1 | done | cbn; lia |].
    apply andb_true_iff in Hdr as [Hu Hf]. apply negb_true_iff in Hf.
    unfold get_sc, deref, mbind, M_bind. unfold lock_sc at 1. cbn [lamebus with_sc]. rewrite Hs.
    cbn [fmap option_fmap option_map with_lock ls_slotsinuse]. rewrite land_bit, Hu by lia.
    change (irqfunc_at (with_lock true x) slot) with (irqfunc_at x slot).
    change (devdata_at (with_lock true x) slot) with (devdata_at x slot).
    cbn [negb]. rewrite Hf, (lb_release_run s x), E1, (lb_acquire_run s1 x) by done.
    rewrite read_irqs_run. cbn [duds irqs_read with_hw fst]. rewrite Hd1, Z.sub_diag, Z.add_0_r.
    by rewrite irqs_read_lock.
  - exists (dud s, irqs). split_and!; [done | done | cbn; lia |].
    cbn [fst snd dud duds with_duds]. replace (d + (duds s + 1 - duds s)) with (d + 1) by lia.
    unfold get_sc, deref, mbind, M_bind. unfold lock_sc at 1 3. cbn [lamebus with_sc]. rewrite Hs.
    cbn [fmap option_fmap option_map with_lock ls_slotsinuse]. rewrite land_bit by lia.
    change (irqfunc_at (with_lock true x) slot) with (irqfunc_at x slot).
    unfold driven in Hdr. destruct (Z.testbit (ls_slotsinuse x) slot); cbn [negb andb] in *; [| done].
    apply negb_false_iff in Hdr. by rewrite Hdr.
Qed.

Lemma irq_loop_turns x (Hh : handlers_ok x) (Hx : ls_lock x = false) n : ∀ slot d s irqs,
  0 <= slot → slot + Z.of_nat n = 32 → lamebus s = Some x →
  ∃ at_ : Z → bus H * Z, at_ slot = (s, irqs) ∧
    (∀ i, slot <= i < slot + Z.of_nat n → turn x i (at_ i) (at_ (i + 1))) ∧
    let s' := (at_ (slot + Z.of_nat n)).1 in
    lamebus s' = Some x ∧ duds s <= duds s' ∧
    irq_loop irqfunc n slot irqs d (lock_sc true s) = Done (d + (duds s' - duds s)) (lock_sc true s').
Proof.
  induction n as [|n IH]; intros slot d s irqs H0 Hn Hs.
  { exists (λ _, (s, irqs)). cbn. split_and!; try done; [lia |]. by rewrite Z.sub_diag, Z.add_0_r. }
  destruct (irq_loop_turn x n slot d s irqs Hh Hx ltac:(lia) Hs) as ([s1 irqs1] & Ht & Hs1 & Hle & ->).
  destruct (IH (slot + 1) (d + (duds s1 - duds s)) s1 irqs1 ltac:(lia) ltac:(lia) Hs1) as (f & Ef & Hf & Hs' & Hle' & E).
  destruct (turns_cons x n slot (s, irqs) f) as (g & Eg & Ee & Hg); [by rewrite Ef | done |].
  exists g. split; [done |]. split; [done |]. cbn zeta. rewrite Ee. cbn [fst snd] in *.
  split; [done |]. split; [lia |]. rewrite E. f_equal. lia.
Qed.

(** Nobody serves the pending lines: each is counted. *)
Lemma irq_loop_duds n : ∀ slot irqs d s x,
  0 <= slot → slot + Z.of_nat n = 32 →
  lamebus s = Some x →
  (∀ i, i ∈ lines n slot irqs → driven x i = false) →
  irq_loop irqfunc n slot irqs d s =
    Done (d + Z.of_nat (length (lines n slot irqs)))
         (with_duds (duds s + Z.of_nat (length (lines n slot irqs))) s).
Proof.
  induction n as [|n IH]; intros slot irqs d s x H0 Hn Hs Hd.
  { simpl. rewrite !Z.add_0_r. by destruct s. }
  cbn [irq_loop]. rewrite land_bit, lines_S in * by lia.
  destruct (Z.testbit irqs slot) eqn:Hb; cbn [negb].
  2: { by apply (IH _ _ _ _ x); [lia | lia | |]. }
  assert (driven x slot = false) as Hdr by (apply Hd; left).
  assert (∀ s0, s0 = with_duds (duds s + 1) s →
            irq_loop irqfunc n (slot + 1) irqs (d + 1) s0 =
            Done (d + Z.of_nat (length (slot :: lines n (slot + 1) irqs)))
                 (with_duds (duds s + Z.of_nat (length (slot :: lines n (slot + 1) irqs))) s)) as E.
  { intros s0 ->. rewrite (IH _ _ _ _ x); [| lia | lia | done |].
    2: { intros i Hi. apply Hd. by right. }
    simpl length. rewrite Nat2Z.inj_succ. f_equal; [lia |]. destruct s; simpl. unfold with_duds; simpl.
    f_equal. lia. }
  unfold get_sc, deref, mbind, M_bind. rewrite Hs, land_bit by lia.
  unfold driven in Hdr. apply andb_false_iff in Hdr as [Hu | Hf].
  - rewrite Hu. cbn. by apply E.
  - apply negb_false_iff in Hf. destruct (Z.testbit (ls_slotsinuse x) slot); cbn [negb]; [rewrite Hf |]; cbn; by apply E.
Qed.

(** The bus exists, its lock is free, and the dud counter is below its limit. *)
Definition idle s x : Prop :=
  lamebus s = Some x ∧ ls_lock x = false ∧ 0 <= duds s <= 10000.

(** C25: Whatever the handlers do to the interrupt lines, and whatever lines are found at
    each reading of the status register, lamebus_interrupt gives the 32 slots their turns
    in order: the handler of a slot runs, once and with the bus lock free, exactly if the
    slot has a driver and its line was asserted at the last reading, which is made anew
    after each handler.  Interrupts nobody serves (an asserted line without a driver, or
    no line at all) are counted: one with no such interrupt clears the count, and one that
    takes it beyond 10000 panics. *)
Theorem lamebus_dispatch s x :
  handlers_ok x → idle s x →
  ∃ at_ : Z → bus H * Z,
    (let p := irqs_read s in at_ 0 = if p.2 =? 0 then (dud p.1, p.2) else p) ∧
    (∀ i, 0 <= i < 32 → turn x i (at_ i) (at_ (i + 1))) ∧
    let s' := (at_ 32).1 in
    lamebus_interrupt irqfunc s =
      if duds s' =? duds s then Done tt (with_duds 0 s')
      else if 10000 <? duds s' then Panic "lamebus: too many dud interrupts"
      else Done tt s'.
Proof.
  intros Hh (Hs & Hx & Hd). set (p := irqs_read s). cbn zeta.
  set (p0 := if p.2 =? 0 then (dud p.1, p.2) else p).
  assert (lamebus p0.1 = Some x ∧ p0.2 = p.2 ∧ duds p0.1 = duds s + (if p.2 =? 0 then 1 else 0)) as (Hs0 & Ep & Hd0).
  { unfold p0. destruct (p.2 =? 0); cbn; split_and!; try done; lia. }
  destruct (irq_loop_turns x Hh Hx 32 0 (if p.2 =? 0 then 1 else 0) p0.1 p.2) as (f & Ef & Ht & Hs' & Hle & E);
    [done | done | done |].
  exists f. split; [rewrite Ef, <- Ep; by destruct p0 |]. split; [exact Ht |].
  change (0 + Z.of_nat 32) with 32 in *. set (s' := (f 32).1) in *.
  unfold lamebus_interrupt. unfold get_sc at 1, deref, mbind, M_bind. rewrite Hs.
  rewrite (lb_acquire_run s x), read_irqs_run, irqs_read_lock by done. cbn [fst snd]. fold p.
  assert ((if p.2 =? 0 then count_dud ;; mret 1 else mret 0) (lock_sc true p.1) =
            Done (if p.2 =? 0 then 1 else 0) (lock_sc true p0.1)) as E0 by
    (unfold p0; by destruct (p.2 =? 0)).
  unfold mbind, M_bind in E0. rewrite E0. change (Z.to_nat LB_NSLOTS) with 32%nat. rewrite E.
  replace ((if p.2 =? 0 then 1 else 0) + (duds s' - duds p0.1)) with (duds s' - duds s) by lia.
  unfold gets. cbn [duds lock_sc with_sc].
  destruct (Z.eqb_spec (duds s') (duds s)) as [Ed | Ed].
  - rewrite Ed, Z.sub_diag. cbn [Z.eqb andb]. destruct (Z.ltb_spec 0 (duds s)) as [Hp | Hp].
    + cbn. change (with_duds 0 (lock_sc true s')) with (lock_sc true (with_duds 0 s')).
      by rewrite (lb_release_run _ x).
    + cbn. rewrite Ed. rewrite (proj2 (Z.ltb_ge 10000 (duds s))) by lia.
      cbn [mret M_ret]. rewrite (lb_release_run _ x) by done.
      f_equal. symmetry. replace 0 with (duds s') by lia. apply with_duds_same.
  - rewrite (proj2 (Z.eqb_neq (duds s' - duds s) 0)) by lia. cbn.
    destruct (10000 <? duds s'); [done |]. cbn. by rewrite (lb_release_run _ x).
Qed.

Context (Hirqs : irqs_register).

Lemma read_irqs s :
  read_ctl_register CTLREG_IRQS s = Done (pend (hw s)) s.
Proof.
  rewrite read_ctl_run, (proj1 (Hirqs (hw s))). by destruct s.
Qed.

(** One interrupt nobody serves. *)
Lemma dud_step s x :
  idle s x → (∀ i, 0 <= i < 32 → Z.testbit (pend (hw s)) i = true → driven x i = false) →
  ∃ k, 0 < k ∧ lamebus_interrupt irqfunc s =
    if 10000 <? duds s + k then Panic "lamebus: too many dud interrupts"
    else Done tt (with_duds (duds s + k) s).
Proof.
  intros (Hs & Hx & Hd) Hdr.
  set (p := pend (hw s)) in *.
  set (c := Z.of_nat (length (lines 32 0 p))).
  exists (if p =? 0 then 1 + c else c).
  assert (0 < (if p =? 0 then 1 + c else c)) as Hk.
  { destruct (Z.eqb_spec p 0) as [| Hne]; [lia |].
    assert (lines 32 0 p ≠ []) as Hl by (apply lines_nonempty; [apply (proj2 (Hirqs _)) | done]).
    unfold c. destruct (lines 32 0 p); [done | simpl; lia]. }
  split; [done |].
  unfold lamebus_interrupt. unfold get_sc at 1, deref, mbind, M_bind. rewrite Hs.
  rewrite (lb_acquire_run s x), read_irqs by done. cbn [hw lock_sc with_sc]. fold p.
  set (k := if p =? 0 then 1 + c else c) in *.
  assert (∃ d0, (if p =? 0 then count_dud ;; mret 1 else mret 0) (lock_sc true s) =
            Done d0 (with_duds (duds s + d0) (lock_sc true s)) ∧ d0 + c = k ∧ 0 <= d0) as (d0 & E & Ek & Hd0).
  { unfold k. clear -p. destruct (p =? 0); [exists 1 | exists 0]; (split; [| lia]); [done |].
    rewrite Z.add_0_r. by destruct s. }
  unfold mbind, M_bind in E. rewrite E.
  change (Z.to_nat LB_NSLOTS) with 32%nat.
  rewrite (irq_loop_duds 32 0 p d0 _ (with_lock true x)); [| lia | lia | by cbn; rewrite Hs |].
  2: { intros i [Hi Hb]%lines_elem. apply Hdr; [lia | done]. }
  fold c. unfold gets. cbn [duds with_duds].
  rewrite Ek, (proj2 (Z.eqb_neq k 0)) by lia. cbn [andb mret M_ret duds].
  replace (duds s + d0 + c) with (duds s + k) by lia.
  cbn [duds with_duds]. destruct (10000 <? duds s + k); [done |].
  cbn [mret M_ret].
  change (with_duds _ (with_duds _ (lock_sc true s))) with (lock_sc true (with_duds (duds s + k) s)).
  by rewrite (lb_release_run _ x).
Qed.

Lemma storm_ends n : ∀ from s x,
  idle s x → (∀ i, 0 <= i < 32 → Z.testbit (pend (hw s)) i = true → driven x i = false) →
  10000 - duds s < Z.of_nat n →
  for_loop n from (λ _, lamebus_interrupt irqfunc) s = Panic "lamebus: too many dud interrupts".
Proof.
  induction n as [|n IH]; intros from s x Hi Hdr Hn; [destruct Hi as (_ & _ & ?); lia |].
  cbn [for_loop]. unfold mbind, M_bind.
  destruct (dud_step s x Hi Hdr) as (k & Hk & ->).
  destruct Hi as (Hs & Hx & Hd).
  destruct (Z.ltb_spec 10000 (duds s + k)) as [| Hle]; [done |].
  apply (IH _ _ x); [| done | cbn; lia]. split; [done | split; [done | cbn; lia]].
Qed.

(** An interrupt nobody serves (a stray one, a slot without a driver, or a driver
    without a handler) cannot keep the kernel busy for ever: at the latest the 10001st
    dispatch in a row panics. *)
Theorem lamebus_storm_panics s x :
  idle s x → (∀ i, 0 <= i < 32 → Z.testbit (pend (hw s)) i = true → driven x i = false) →
  for_loop (Z.to_nat 10001) 0 (λ _, lamebus_interrupt irqfunc) s
    = Panic "lamebus: too many dud interrupts".
Proof. intros Hi Hdr. apply (storm_ends _ _ s x Hi Hdr). destruct Hi as (_ & _ & ?). lia. Qed.

End dispatch.
(** ** Probing *)

Section probe.
Context {H : Type} `{!Hw H} (cfg : H → Z → Z → Z).
Implicit Types s : bus H.

(** The configuration words of the slots can be read at any time. *)
Definition cfg_registers : Prop :=
  ∀ h slot r, 0 <= slot < 32 → r = CFGREG_VID ∨ r = CFGREG_DID ∨ r = CFGREG_DRL →
    hw_load (ctl_addr (r + LB_CONFIG_SIZE * slot)) h = (cfg h slot r, h).

(** Slot [i] is free and holds the device asked for, at a revision high enough. *)
Definition candidate (x : softc) (h : H) (vendorid deviceid lowver i : Z) : bool :=
  negb (Z.testbit (ls_slotsinuse x) i) && (cfg h i CFGREG_VID =? vendorid) &&
  (cfg h i CFGREG_DID =? deviceid) && (lowver <=? cfg h i CFGREG_DRL).

Context (Hcfg : cfg_registers).

Lemma read_cfg_run slot r s :
  0 <= slot < 32 → r = CFGREG_VID ∨ r = CFGREG_DID ∨ r = CFGREG_DRL →
  read_cfg_register slot r s = Done (cfg (hw s) slot r) s.
Proof.
  intros Hs Hr. pose proof (Hcfg (hw s) slot r Hs Hr) as E.
  transitivity (Done (hw_load (ctl_addr (r + LB_CONFIG_SIZE * slot)) (hw s)).1
    (with_hw (hw_load (ctl_addr (r + LB_CONFIG_SIZE * slot)) (hw s)).2 s)); [reflexivity |].
  rewrite E. by destruct s.
Qed.

Lemma probe_loop_run vendorid deviceid lowver s x n : ∀ slot,
  lamebus s = Some x → 0 <= slot → slot + Z.of_nat n = 32 →
  probe_loop n slot vendorid deviceid lowver s =
    Done (match first_index (candidate x (hw s) vendorid deviceid lowver) (seqZ slot (Z.of_nat n)) with
          | Some k => Some (slot + Z.of_nat k, cfg (hw s) (slot + Z.of_nat k) CFGREG_DRL)
          | None => None
          end) s.
Proof.
  intros slot Hs. revert slot. induction n as [|n IH]; intros slot H0 Hn; [done |].
  rewrite (seqZ_cons slot) by lia. replace (Z.pred (Z.of_nat (S n))) with (Z.of_nat n) by lia.
  rewrite <- (Z.add_1_r slot). cbn [probe_loop first_index].
  unfold get_sc, deref, mbind, M_bind. rewrite Hs, land_bit by lia. rewrite negb_involutive.
  specialize (IH (slot + 1)). unfold candidate at 1.
  assert (∀ b, b = false →
    probe_loop n (slot + 1) vendorid deviceid lowver s =
      Done (match (if (b : bool) then Some 0%nat
                   else S <$> first_index (candidate x (hw s) vendorid deviceid lowver)
                                (seqZ (slot + 1) (Z.of_nat n))) with
            | Some k => Some (slot + Z.of_nat k, cfg (hw s) (slot + Z.of_nat k) CFGREG_DRL)
            | None => None
            end) s) as next.
  { intros b ->. rewrite IH by lia. destruct (first_index _ _) as [k |]; [| done]. simpl.
    rewrite Nat2Z.inj_succ. by replace (slot + 1 + Z.of_nat k) with (slot + Z.succ (Z.of_nat k)) by lia. }
  destruct (Z.testbit (ls_slotsinuse x) slot); [by apply next |].
  rewrite !(read_cfg_run slot) by (lia || auto).
  destruct (cfg (hw s) slot CFGREG_VID =? vendorid); [| exact (next false eq_refl)]. cbn [negb].
  rewrite !(read_cfg_run slot) by (lia || auto).
  destruct (cfg (hw s) slot CFGREG_DID =? deviceid); [| exact (next false eq_refl)]. cbn [negb].
  rewrite !(read_cfg_run slot) by (lia || auto).
  rewrite Z.ltb_antisym. destruct (lowver <=? cfg (hw s) slot CFGREG_DRL); cbn [negb andb]; [| exact (next false eq_refl)].
  by rewrite Z.add_0_r.
Qed.

(** lamebus_probe returns the first slot that is not in use and whose vendor,
    device and revision fit, with the revision found there, and -1 exactly when there is
    none; it changes nothing. *)
Theorem lamebus_probe_first vendorid deviceid lowver s x :
  lamebus s = Some x → ls_lock x = false →
  lamebus_probe vendorid deviceid lowver s =
    Done (match first_index (candidate x (hw s) vendorid deviceid lowver) (seqZ 0 32) with
          | Some k => (Z.of_nat k, Some (cfg (hw s) (Z.of_nat k) CFGREG_DRL))
          | None => (-1, None)
          end) s.
Proof.
  intros Hs Hx. unfold lamebus_probe, mbind, M_bind. rewrite (lb_acquire_run s x) by done.
  change (Z.to_nat LB_NSLOTS) with 32%nat.
  rewrite (probe_loop_run _ _ _ _ (with_lock true x)); [| by cbn; rewrite Hs | lia | lia].
  change (candidate (with_lock true x)) with (candidate x).
  change (hw (lock_sc true s)) with (hw s).
  destruct (first_index _ _) as [k |]; by rewrite (lb_release_run s x).
Qed.
End probe.

(** ** CPU numbers *)

Section cpus.
Context {H : Type} `{!Hw H} (reg : H → Z → Z).
Implicit Types s : bus H.

(** The controller registers hold what was last stored in them. *)
Record controller : Prop := {
  load_reg h r : r = CFGREG_VID ∨ r = CFGREG_DID ∨ r = CTLREG_CPUS ∨ r = CTLREG_SELF →
    hw_load (ctlreg r) h = (reg h (ctlreg r), h);
  store_reg a v h b : reg (hw_store a v h) b = if b =? a then v else reg h b
}.
Context (Hc : controller).

Lemma read_reg r s :
  r = CFGREG_VID ∨ r = CFGREG_DID ∨ r = CTLREG_CPUS ∨ r = CTLREG_SELF →
  read_ctl_register r s = Done (reg (hw s) (ctlreg r)) s.
Proof. intros Hr. rewrite read_ctl_run, (load_reg Hc) by done. by destruct s. Qed.

(** The hardware numbers of the CPUs, and of those that do not boot. *)
Definition cpus_of (cpumask : Z) : list Z := lines 32 0 cpumask.
Definition others (n : nat) (from cpumask b : Z) : list Z :=
  filter (λ i, i ≠ b) (lines n from cpumask).

(** The registers of a CPU in the controller's region. *)
Definition cpu_reg (h offset : Z) : Z :=
  LB_BASEADDR + 31 * LB_SLOT_SIZE + LB_CTLCPU_OFFSET + h * LB_CTLCPU_SIZE + offset.

Lemma map_area_cpu h o z s :
  0 <= h < 32 → 0 <= o < 1024 → z = LB_CTLCPU_OFFSET + h * LB_CTLCPU_SIZE + o →
  lamebus_map_area LB_CONTROLLER_SLOT (u32 z) s = Done (cpu_reg h o) s.
Proof.
  intros Hh Ho ->.
  transitivity (Done (u32 (LB_BASEADDR + LB_CONTROLLER_SLOT * LB_SLOT_SIZE +
    u32 (LB_CTLCPU_OFFSET + h * LB_CTLCPU_SIZE + o))) s); [done |]. f_equal.
  unfold cpu_reg, LB_BASEADDR, MIPS_KSEG1, LB_CONTROLLER_SLOT, LB_SLOT_SIZE,
    LB_CTLCPU_OFFSET, LB_CTLCPU_SIZE. rewrite (u32_small (_ + o)) by lia. rewrite u32_small; lia.
Qed.

Lemma cpu_reg_inj h o h' o' :
  0 <= o < 1024 → 0 <= o' < 1024 → cpu_reg h o = cpu_reg h' o' → h = h' ∧ o = o'.
Proof. unfold cpu_reg, LB_CTLCPU_SIZE. lia. Qed.

Lemma cpu_reg_ctl h o r : 0 <= h < 32 → 0 <= o < 1024 → 0 <= r < 1024 → cpu_reg h o ≠ ctlreg r.
Proof.
  intros Hh Ho Hr. unfold cpu_reg, ctlreg, ctl_addr, LB_BASEADDR, MIPS_KSEG1, LB_SLOT_SIZE,
    LB_CTLCPU_OFFSET, LB_CTLCPU_SIZE, LB_CONFIG_SIZE.
  rewrite (u32_small (r + _)) by lia. rewrite u32_small; lia.
Qed.

Lemma testbit_bit b i : 0 <= b < 32 → 0 <= i < 32 → Z.testbit (bit b) i = (i =? b).
Proof.
  intros Hb Hi. unfold bit. rewrite Z.shiftl_1_l.
  rewrite u32_small by (split; [lia | apply Z.pow_lt_mono_r; lia]).
  rewrite Z.pow2_bits_eqb by lia. apply Z.eqb_sym.
Qed.

(** The scan of a board whose booting CPU is [b]. *)
Lemma scan_cpus_run cpumask b n : ∀ i hwnum boot s,
  0 <= i → i + Z.of_nat n = 32 → 0 <= b < 32 →
  ∃ boot', scan_cpus n i cpumask (bit b) hwnum boot s =
    Done (hwnum ++ lines n i cpumask, boot')
      (if decide (b ∈ lines n i cpumask)
       then with_cpus (<[0%nat := b]> (c_hardware_number s)) s else s) ∧
    (b ∉ lines n i cpumask → boot' = boot) ∧
    (b ∈ lines n i cpumask → (hwnum ++ lines n i cpumask) !! boot' = Some b).
Proof.
  induction n as [|n IH]; intros i hwnum boot s H0 Hn Hb.
  { exists boot. cbn. rewrite app_nil_r. split_and!; [done.. |]. by intros ?%not_elem_of_nil. }
  cbn [scan_cpus]. rewrite !land_bit, lines_S, testbit_bit by lia.
  destruct (Z.testbit cpumask i) eqn:Hm; cbn [negb]; [| apply IH; lia].
  rewrite negb_involutive.
  destruct (Z.eqb_spec i b) as [-> | Hne].
  - destruct (IH (b + 1) (hwnum ++ [b]) (length hwnum)
               (with_cpus (<[0%nat := b]> (c_hardware_number s)) s)) as (boot' & E & E1 & _); [lia.. |].
    assert (b ∉ lines n (b + 1) cpumask) as Hnot by (rewrite lines_elem; lia).
    exists boot'. rewrite (E1 Hnot) in *. rewrite decide_False in E by done.
    unfold mbind, M_bind. cbn. rewrite E, decide_True by left.
    rewrite <- app_assoc. split_and!; [done | |].
    + intros []. left.
    + intros _. by rewrite list_lookup_middle.
  - destruct (IH (i + 1) (hwnum ++ [i]) boot s) as (boot' & E & E1 & E2); [lia.. |].
    exists boot'. unfold mbind, M_bind. cbn. rewrite E, <- app_assoc. cbn [app].
    rewrite <- app_assoc in E2. cbn [app] in E2.
    assert (b ∈ i :: lines n (i + 1) cpumask ↔ b ∈ lines n (i + 1) cpumask) as Hi.
    { rewrite elem_of_cons. naive_solver. }
    split_and!; [| naive_solver | naive_solver].
    f_equal. by repeat case_decide; naive_solver.
Qed.

Lemma create_run b boot l : ∀ i s,
  (∀ j h, l !! j = Some h → (i + j)%nat = boot ↔ h = b) →
  each_cpu i l (λ j h, if Nat.eqb j boot then mret tt else cpu_create h) s =
    Done tt (with_cpus (c_hardware_number s ++ filter (λ h, h ≠ b) l) s).
Proof.
  induction l as [|h l IH]; intros i s Hl.
  { cbn. rewrite app_nil_r. by destruct s. }
  cbn [each_cpu]. rewrite filter_cons. unfold mbind, M_bind.
  assert (∀ j h', l !! j = Some h' → (S i + j)%nat = boot ↔ h' = b) as Hl'.
  { intros j h' Hj. rewrite <- (Hl (S j) h' Hj). lia. }
  specialize (Hl 0%nat h eq_refl). rewrite Nat.add_0_r in Hl.
  destruct (Nat.eqb_spec i boot) as [Hi | Hi].
  - rewrite decide_False by naive_solver. cbn. by rewrite IH.
  - rewrite decide_True by naive_solver. cbn. rewrite IH by done. cbn. by rewrite <- app_assoc.
Qed.

(** The same kernel data on hardware that differs only in the registers [offs] of
    the CPUs [l]. *)
Definition only (l offs : list Z) (s s' : bus H) : Prop :=
  s' = with_hw (hw s') s ∧
  ∀ a, (∀ c o, c ∈ l → o ∈ offs → a ≠ cpu_reg c o) → reg (hw s') a = reg (hw s) a.

Lemma lb_store_run a v s :
  ∃ s', store_word a v s = Done tt s' ∧ s' = with_hw (hw s') s ∧
    ∀ b, reg (hw s') b = if b =? a then v else reg (hw s) b.
Proof. eexists. split; [reflexivity |]. split; [done |]. intros b. apply (store_reg Hc). Qed.

Lemma route_run b boot l : ∀ i s,
  Forall (λ h, 0 <= h < 32) l →
  (∀ j h, l !! j = Some h → (i + j)%nat = boot ↔ h = b) →
  ∃ s', each_cpu i l (λ j h,
          write_ctlcpu_register h CTLCPU_CIRQE (if Nat.eqb j boot then 0xffffffff else 0)) s
        = Done tt s' ∧ only l [CTLCPU_CIRQE] s s' ∧
    ∀ h, h ∈ l → reg (hw s') (cpu_reg h CTLCPU_CIRQE) = if h =? b then 0xffffffff else 0.
Proof.
  induction l as [|h l IH]; intros i s Hr Hl.
  { exists s. split; [done |]. split; [split; [by destruct s | done] |]. by intros h ?%not_elem_of_nil. }
  apply Forall_cons in Hr as [Hh Hr]. cbn [each_cpu].
  assert (∀ j h', l !! j = Some h' → (S i + j)%nat = boot ↔ h' = b) as Hl'.
  { intros j h' Hj. rewrite <- (Hl (S j) h' Hj). lia. }
  specialize (Hl 0%nat h eq_refl). rewrite Nat.add_0_r in Hl.
  assert ((if Nat.eqb i boot then 0xffffffff else 0) = (if h =? b then 0xffffffff else 0)) as Ev.
  { destruct (Nat.eqb_spec i boot), (Z.eqb_spec h b); naive_solver. }
  destruct (lb_store_run (cpu_reg h CTLCPU_CIRQE) (if h =? b then 0xffffffff else 0) s)
    as (s1 & E1 & Hs1 & Hr1).
  destruct (IH (S i) s1 Hr Hl') as (s2 & E2 & [Hs2 Ho2] & Hr2).
  exists s2. unfold mbind, M_bind.
  replace (write_ctlcpu_register h CTLCPU_CIRQE _ s) with
    (@Done (bus H) unit tt s1).
  2: { rewrite <- E1, Ev. unfold write_ctlcpu_register, lamebus_write_register, mbind, M_bind.
       by rewrite (map_area_cpu h CTLCPU_CIRQE) by (unfold CTLCPU_CIRQE; lia). }
  split; [done |]. split.
  - split; [rewrite Hs2, Hs1; by destruct s |]. intros a Ha.
    rewrite Ho2, Hr1 by (intros c o Hin; apply Ha; by right).
    rewrite (proj2 (Z.eqb_neq a _)); [done |]. apply Ha; left.
  - intros h' Hin. destruct (decide (h' ∈ l)) as [| Hn]; [by apply Hr2 |].
    assert (h' = h) as -> by (by apply elem_of_cons in Hin as []).
    rewrite Ho2, Hr1, Z.eqb_refl; [done |].
    intros c o Hc' ->%list_elem_of_singleton E%cpu_reg_inj; [naive_solver | done | done].
Qed.

Lemma others_S n i cpumask b :
  others (S n) i cpumask b =
    if Z.testbit cpumask i && negb (i =? b) then i :: others n (i + 1) cpumask b
    else others n (i + 1) cpumask b.
Proof.
  unfold others. rewrite lines_S. destruct (Z.testbit cpumask i); [| done]. rewrite filter_cons.
  by destruct (Z.eqb_spec i b); case_decide.
Qed.

Lemma others_elem n i cpumask b h :
  h ∈ others n i cpumask b → i <= h < i + Z.of_nat n.
Proof. unfold others. rewrite list_elem_of_filter, lines_elem. naive_solver. Qed.

Definition CRAM1 : Z := CTLCPU_CRAM + 4.

(** The secondary CPUs are numbered from [num] on, in the order of [others]. *)
Lemma poke_run cpumask b start n : ∀ i num s,
  0 <= i → i + Z.of_nat n = 32 → 0 <= b < 32 →
  ∃ s', poke_cpus n i cpumask (bit b) start num s = Done tt s' ∧
    only (others n i cpumask b) [CTLCPU_CRAM; CRAM1] s s' ∧
    ∀ k h, others n i cpumask b !! k = Some h →
      reg (hw s') (cpu_reg h CTLCPU_CRAM) = start ∧
      reg (hw s') (cpu_reg h CRAM1) = num + Z.of_nat k.
Proof.
  induction n as [|n IH]; intros i num s H0 Hn Hb.
  { exists s. split; [done |]. split; [split; [by destruct s | done] | done]. }
  cbn [poke_cpus]. rewrite !land_bit, others_S, testbit_bit, negb_involutive by lia.
  destruct (Z.testbit cpumask i && negb (i =? b)); [| apply IH; lia].
  unfold mbind, M_bind. rewrite (map_area_cpu i CTLCPU_CRAM) by (unfold CTLCPU_CRAM; lia).
  assert (u32 (cpu_reg i CTLCPU_CRAM + 4) = cpu_reg i CRAM1) as ->.
  { unfold cpu_reg, CRAM1, LB_BASEADDR, MIPS_KSEG1, LB_SLOT_SIZE, LB_CTLCPU_OFFSET, LB_CTLCPU_SIZE,
      CTLCPU_CRAM. rewrite u32_small; lia. }
  destruct (lb_store_run (cpu_reg i CTLCPU_CRAM) start s) as (s1 & -> & Hs1 & Hr1).
  destruct (lb_store_run (cpu_reg i CRAM1) num s1) as (s2 & -> & Hs2 & Hr2).
  destruct (IH (i + 1) (num + 1) s2) as (s3 & -> & [Hs3 Ho3] & Hr3); [lia.. |].
  exists s3. split; [done |]. split.
  - split; [rewrite Hs3, Hs2, Hs1; by destruct s |]. intros a Ha.
    rewrite Ho3 by (intros c o Hin; apply Ha; by right).
    rewrite Hr2, Hr1, !(proj2 (Z.eqb_neq a _)); [done |..]; apply Ha; try left; by right; left.
  - intros [|k] h Hk; simpl in Hk; simplify_eq.
    + assert (∀ o, o = CTLCPU_CRAM ∨ o = CRAM1 → reg (hw s3) (cpu_reg h o) = reg (hw s2) (cpu_reg h o))
        as Hkeep.
      { intros o Ho. apply Ho3. intros c o' Hin%others_elem Ho'.
        rewrite !elem_of_cons in Ho'. unfold CRAM1, CTLCPU_CRAM in *.
        intros [E _]%cpu_reg_inj; [lia | lia |].
        destruct Ho' as [-> | [-> | []%not_elem_of_nil]]; lia. }
      rewrite !Hkeep, !Hr2, !Hr1, !Z.eqb_refl, Z.add_0_r by auto.
      rewrite (proj2 (Z.eqb_neq _ _)); [done |]. by intros [_ E]%cpu_reg_inj.
    + destruct (Hr3 k h Hk) as [-> ->]. split; [done | lia].
Qed.

Lemma only_ctl l offs s s' r :
  only l offs s s' → Forall (λ h, 0 <= h < 32) l → Forall (λ o, 0 <= o < 1024) offs →
  0 <= r < 1024 → reg (hw s') (ctlreg r) = reg (hw s) (ctlreg r).
Proof.
  intros [_ Ho] Hl Hf Hr. apply Ho. intros c o Hc' Ho' E.
  rewrite Forall_forall in Hl, Hf. exact (cpu_reg_ctl c o r (Hl c Hc') (Hf o Ho') Hr (eq_sym E)).
Qed.

(** A multiprocessor board with the CPUs [cpumask], started on CPU [b]. *)
Record board (s : bus H) (cpumask b : Z) : Prop := {
  bd_sc : ∃ x, lamebus s = Some x ∧ ls_uniprocessor x = 0;
  bd_boot : length (c_hardware_number s) = 1%nat;
  bd_mp : (reg (hw s) (ctlreg CFGREG_VID) =? LB_VENDOR_CS161) &&
          (reg (hw s) (ctlreg CFGREG_DID) =? LBCS161_UPBUSCTL) = false;
  bd_cpus : reg (hw s) (ctlreg CTLREG_CPUS) = cpumask;
  bd_self : reg (hw s) (ctlreg CTLREG_SELF) = bit b;
  bd_in : 0 <= b < 32 ∧ Z.testbit cpumask b = true
}.

Lemma find_cpus_run s cpumask b :
  board s cpumask b →
  ∃ s', lamebus_find_cpus s = Done tt s' ∧
    lamebus s' = lamebus s ∧ c_hardware_number s' = b :: others 32 0 cpumask b ∧
    (∀ r, 0 <= r < 1024 → reg (hw s') (ctlreg r) = reg (hw s) (ctlreg r)) ∧
    ∀ h, h ∈ cpus_of cpumask →
      reg (hw s') (cpu_reg h CTLCPU_CIRQE) = if h =? b then 0xffffffff else 0.
Proof.
  intros [_ Hb1 Hmp Hcpus Hself [Hb Hin]].
  unfold lamebus_find_cpus, mbind, M_bind.
  change (read_cfg_register LB_CONTROLLER_SLOT) with (read_ctl_register (H:=H)).
  rewrite !read_reg by auto. rewrite Hmp, !read_reg by auto. rewrite Hcpus, Hself.
  destruct (scan_cpus_run cpumask b 32 0 [] 0 s) as (boot & E & _ & Hboot); [lia.. |].
  cbn [app] in *. rewrite E. clear E.
  assert (b ∈ lines 32 0 cpumask) as Hbl by (apply lines_elem; split; [lia | done]).
  rewrite decide_True by done. specialize (Hboot Hbl).
  assert (∀ j h, lines 32 0 cpumask !! j = Some h → (0 + j)%nat = boot ↔ h = b) as Hidx.
  { intros j h Hj. split; [intros <-; rewrite Nat.add_0_l in Hboot; naive_solver |].
    intros ->. eapply NoDup_lookup; [| done | done]. apply NoDup_filter, NoDup_seqZ. }
  rewrite (create_run b boot) by done.
  assert (Forall (λ h, 0 <= h < 32) (lines 32 0 cpumask)) as Hf.
  { apply Forall_forall. intros h [Hh _]%lines_elem. lia. }
  edestruct (route_run b boot (lines 32 0 cpumask) 0) as (s' & -> & Ho & Hr); [done | done |].
  exists s'. split; [done |].
  split_and!; [by rewrite (proj1 Ho) | | | done].
  - rewrite (proj1 Ho). cbn. destruct (c_hardware_number s) as [|c [|]]; done.
  - intros r Hr'. rewrite (only_ctl _ _ _ _ r Ho); [done | done | | done].
    repeat constructor; done.
Qed.

(** After lamebus_find_cpus and lamebus_start_cpus on a multiprocessor board, the
    CPUs are the booting one, numbered 0, and the others of the CPU mask in ascending
    order of hardware number; every other CPU finds in its start-up memory the entry
    point and exactly the number the kernel gave it; all interrupts are routed to the
    booting CPU only; and all CPUs are enabled. *)
Theorem lamebus_cpu_numbers s cpumask b start :
  board s cpumask b →
  ∃ s', (lamebus_find_cpus ;; lamebus_start_cpus start) s = Done tt s' ∧
    c_hardware_number s' = b :: others 32 0 cpumask b ∧
    (∀ k h, c_hardware_number s' !! S k = Some h →
       reg (hw s') (cpu_reg h CTLCPU_CRAM) = start ∧
       reg (hw s') (cpu_reg h CRAM1) = Z.of_nat (S k)) ∧
    (∀ h, h ∈ cpus_of cpumask →
       reg (hw s') (cpu_reg h CTLCPU_CIRQE) = if h =? b then 0xffffffff else 0) ∧
    reg (hw s') (ctlreg CTLREG_CPUE) = cpumask.
Proof.
  intros Hbd. destruct (find_cpus_run s cpumask b Hbd) as (s1 & E1 & Hl1 & Hc1 & Hk1 & Hr1).
  destruct Hbd as [(x & Hx & Hup) _ _ Hcpus Hself [Hb _]].
  unfold mbind, M_bind. rewrite E1. unfold lamebus_start_cpus, get_sc, deref, mbind, M_bind.
  rewrite Hl1, Hx, Hup. cbn [c_bool negb Z.eqb]. rewrite !read_reg by auto. rewrite !Hk1, Hcpus, Hself by done.
  destruct (poke_run cpumask b start 32 0 1 s1) as (s2 & -> & [Hs2 Ho2] & Hr2); [lia.. |].
  destruct (lb_store_run (ctlreg CTLREG_CPUE) cpumask s2) as (s3 & E3 & Hs3 & Hr3).
  exists s3. split; [exact E3 |].
  assert (∀ h o, 0 <= h < 32 → 0 <= o < 1024 → reg (hw s3) (cpu_reg h o) = reg (hw s2) (cpu_reg h o)) as Hkeep.
  { intros h o Hh Ho. rewrite Hr3, (proj2 (Z.eqb_neq _ _)); [done |]. by apply cpu_reg_ctl. }
  assert (c_hardware_number s3 = b :: others 32 0 cpumask b) as Hc3 by (rewrite Hs3, Hs2; done).
  split_and!; [done | | |].
  - intros k h Hk. rewrite Hc3 in Hk. simpl in Hk. destruct (Hr2 k h Hk) as [Ea Eb].
    apply list_elem_of_lookup_2, others_elem in Hk.
    rewrite !Hkeep, Ea, Eb by (unfold CRAM1, CTLCPU_CRAM; lia). split; [done | lia].
  - intros h Hh. pose proof Hh as [Hh' _]%lines_elem.
    rewrite Hkeep by (unfold CTLCPU_CIRQE; lia). rewrite Ho2; [by apply Hr1 |].
    intros c o _ Ho [_ E]%cpu_reg_inj; [| done |];
      rewrite !elem_of_cons in Ho; unfold CRAM1, CTLCPU_CRAM in Ho;
      destruct Ho as [-> | [-> | []%not_elem_of_nil]]; done.
  - by rewrite Hr3, Z.eqb_refl.
Qed.

End cpus.

(** ** Concrete boards

    A register file, and a board whose only register is the interrupt status. *)
#[export] Instance reg_hw : Hw (Z → Z) := {
  hw_load a h := (h a, h);
  hw_store a v h := λ b, if b =? a then v else h b
}.
#[export] Instance irq_hw : Hw Z := { hw_load _ h := (u32 h, h); hw_store _ _ h := h }.

Definition wit_board : Z → Z := λ a,
  if a =? ctlreg CTLREG_CPUS then 0x2d else if a =? ctlreg CTLREG_SELF then 4
  else if a =? ctlreg CFGREG_DID then 10 else if a =? ctlreg CFGREG_VID then 1
  else if a =? ctl_addr (CFGREG_VID + LB_CONFIG_SIZE * 3) then 1
  else if a =? ctl_addr (CFGREG_DID + LB_CONFIG_SIZE * 3) then 4
  else if a =? ctl_addr (CFGREG_DRL + LB_CONFIG_SIZE * 3) then 2 else 0.

(** Slots 1 and 2 have drivers. *)
Definition wit_softc : softc :=
  mkSc false 0x80000006 (<[1%nat := 1]> (<[2%nat := 2]> (replicate 32 0)))
    (<[1%nat := 77]> (<[2%nat := 77]> (replicate 32 0))) 0.
Definition wit_bus {H} (h : H) : bus H := mkBus (Some wit_softc) 3 [0] h.

(** A handler that clears the line its data names. *)
Definition wit_irqfunc (f d : Z) : M (bus Z) unit :=
  modify (λ s, with_hw (Z.clearbit (hw s) d) s).

Lemma wit_irqs : irqs_register u32.
Proof. intros h. split; [done | apply u32_fits]. Qed.

Lemma u32_testbit x j : 0 <= j < 32 → Z.testbit (u32 x) j = Z.testbit x j.
Proof. intros Hj. unfold u32, wrap. by rewrite Z.mod_pow2_bits_low by lia. Qed.

(** A fact about the 32 slots, by trying them all. *)
Lemma all_slots (p : Z → bool) : forallb p (seqZ 0 32) = true → ∀ i, 0 <= i < 32 → p i = true.
Proof.
  rewrite forallb_forall. intros Hp i Hi. apply Hp, list_elem_of_In, elem_of_seqZ. lia.
Qed.

Lemma wit_driven i : 0 <= i < 32 → driven wit_softc i = true → i = 1 ∨ i = 2.
Proof.
  intros Hi Hd.
  pose proof (all_slots (λ i, negb (driven wit_softc i) || (i =? 1) || (i =? 2)) eq_refl i Hi) as E.
  cbn beta in E. rewrite Hd in E. cbn in E. apply orb_true_iff in E. lia.
Qed.

(** Serving slot 1 raises the line of slot 2; line 5, which has no driver, stays. *)
Definition wit_chain (f d : Z) : M (bus Z) unit :=
  modify (λ s, with_hw (if d =? 1 then 0x24 else 0x20) s).

Lemma wit_handlers : handlers_ok wit_chain wit_softc.
Proof. intros s i Hs Hi Hd. eexists. by split. Qed.

(** The turn of a slot, computed. *)
Definition next_turn (x : softc) (i : Z) (p : bus Z * Z) : bus Z * Z :=
  if Z.testbit p.2 i then
    if driven x i then
      match wit_chain (irqfunc_at x i) (devdata_at x i) p.1 with Done _ s1 => irqs_read s1 | _ => p end
    else (dud p.1, p.2)
  else p.

Lemma turn_next x i p p' : turn wit_chain x i p p' → p' = next_turn x i p.
Proof.
  unfold turn, next_turn. destruct (Z.testbit p.2 i), (driven x i); try done. by intros (s1 & -> & ->).
Qed.

Lemma lamebus_dispatch_witness :
  lamebus_interrupt wit_chain (wit_bus 0x22) = Done tt (with_duds 4 (wit_bus 0x20)).
Proof.
  destruct (lamebus_dispatch wit_chain (wit_bus 0x22) wit_softc wit_handlers) as (f & E & Ht & ->); [done |].
  vm_compute in E.
  do 32 (match type of E with f ?i = _ =>
    let H := fresh in
    pose proof (turn_next _ _ _ _ (Ht i ltac:(lia))) as H; rewrite E in H; clear E; vm_compute in H; rename H into E
  end).
  rewrite E. reflexivity.
Defined.

Lemma lamebus_storm_panics_witness :
  for_loop (Z.to_nat 10001) 0 (λ _, lamebus_interrupt wit_irqfunc) (wit_bus 8)
    = Panic "lamebus: too many dud interrupts".
Proof.
  apply (lamebus_storm_panics wit_irqfunc u32 wit_irqs (wit_bus 8) wit_softc).
  - done.
  - intros i Hi Hb. destruct (driven wit_softc i) eqn:Ed; [| done].
    destruct (wit_driven i Hi Ed) as [-> | ->]; done.
Defined.

Definition wit_slot (h : Z → Z) (slot r : Z) : Z := h (ctl_addr (r + LB_CONFIG_SIZE * slot)).
Lemma wit_cfg : cfg_registers wit_slot.
Proof. by intros h slot r _ _. Qed.

Lemma lamebus_probe_first_witness :
  lamebus_probe 1 4 1 (wit_bus wit_board) = Done (3, Some 2) (wit_bus wit_board).
Proof.
  rewrite (lamebus_probe_first wit_slot
             wit_cfg 1 4 1 (wit_bus wit_board) wit_softc); done.
Defined.

Lemma lamebus_cpu_numbers_witness :
  ∃ s', (lamebus_find_cpus ;; lamebus_start_cpus 0x80001234) (wit_bus wit_board) = Done tt s' ∧
    c_hardware_number s' = [2; 0; 3; 5] ∧ hw s' (cpu_reg 5 CRAM1) = 3.
Proof.
  destruct (lamebus_cpu_numbers (λ h a, h a) ltac:(by split) (wit_bus wit_board) 0x2d 2 0x80001234)
    as (s' & E & Hn & Hk & _); [by split; [eexists | ..] |].
  exists s'. split; [exact E |]. rewrite Hn in *. split; [reflexivity |]. by apply (Hk 2%nat 5).
Defined.

End LamebusProps.
