(* ===== verification/Attach.v ===== *)
(** * Attaching the drivers to the bus (dev/lamebus/*_att.c, ltrace.c, lnet.c)

    Each attach function asks the bus for a free slot with its device, allocates the
    driver's record, marks the slot and registers the interrupt handler.  The function
    that calls them in turn is generated from conf/GENERIC when the kernel is
    configured, so the theorem is about any sequence of calls. *)

From stdpp Require Import base list numbers strings.
From Stdlib Require Import ZArith Lia.
From S2P Require Import Prelude Lamebus LamebusProps.
Import Lamebus LamebusProps.

#[local] Open Scope Z_scope.

Module Attach.

Definition LBCS161_TIMER : Z := 2.
Definition LBCS161_DISK : Z := 3.
Definition LBCS161_SERIAL : Z := 4.
Definition LBCS161_SCREEN : Z := 5.
Definition LBCS161_NET : Z := 6.
Definition LBCS161_EMUFS : Z := 7.
Definition LBCS161_TRACE : Z := 8.
Definition LBCS161_RANDOM : Z := 9.

(** The addresses of the interrupt handlers. *)
Record handlers := mkHandlers {
  lhd_irq : Z;
  lser_irq : Z;
  ltimer_irq : Z;
  emu_irq : Z;
  lscreen_irq : Z
}.

(** What a driver records of its device: where its record is, the slot, the unit number
    where it kept it, and for ltrace lt_canstop and lt_canprof. *)
Record dev := mkDev {
  d_addr : Z;
  d_buspos : Z;
  d_unit : option Z;
  d_can : option (bool * bool)
}.

Section attach.
Context {H : Type} `{!Hw H} (hs : handlers).
Abbreviation B := (M (bus H)).

(** The store of the revision through [version_ret]; an unaligned address traps. *)
Definition version_store (version_ret : Z) (version : option Z) : B unit :=
  match version with
  | Some _ => if (version_ret =? 0) || (version_ret mod 4 =? 0) then mret tt
              else panic "Fatal exception 5 (Address error on store) in kernel mode"
  | None => mret tt
  end.

(** [mem] is the result of kmalloc. *)
Definition attach_lhd_to_lamebus (lhdno mem : Z) : B (option dev) :=
  '(slot, _) ← lamebus_probe LB_VENDOR_CS161 LBCS161_DISK 2;
  if slot <? 0 then mret None
  else if mem =? 0 then mret None
  else
    lamebus_mark slot ;;
    lamebus_attach_interrupt slot mem (lhd_irq hs) ;;
    mret (Some (mkDev mem slot (Some lhdno) None)).

Definition attach_lser_to_lamebus (lserno mem : Z) : B (option dev) :=
  '(slot, _) ← lamebus_probe LB_VENDOR_CS161 LBCS161_SERIAL 1;
  if slot <? 0 then mret None
  else if mem =? 0 then mret None
  else
    lamebus_mark slot ;;
    lamebus_attach_interrupt slot mem (lser_irq hs) ;;
    mret (Some (mkDev mem slot None None)).

Definition attach_ltimer_to_lamebus (ltimerno mem : Z) : B (option dev) :=
  '(slot, _) ← lamebus_probe LB_VENDOR_CS161 LBCS161_TIMER 1;
  if slot <? 0 then mret None
  else if mem =? 0 then mret None
  else
    lamebus_mark slot ;;
    lamebus_attach_interrupt slot mem (ltimer_irq hs) ;;
    mret (Some (mkDev mem slot None None)).

Definition attach_emu_to_lamebus (emuno mem : Z) : B (option dev) :=
  '(slot, _) ← lamebus_probe LB_VENDOR_CS161 LBCS161_EMUFS 1;
  if slot <? 0 then mret None
  else if mem =? 0 then mret None
  else
    lamebus_mark slot ;;
    lamebus_attach_interrupt slot mem (emu_irq hs) ;;
    mret (Some (mkDev mem slot (Some emuno) None)).

Definition attach_lrandom_to_lamebus (lrandomno mem : Z) : B (option dev) :=
  '(slot, _) ← lamebus_probe LB_VENDOR_CS161 LBCS161_RANDOM 1;
  if slot <? 0 then mret None
  else if mem =? 0 then mret None
  else
    lamebus_mark slot ;;
    mret (Some (mkDev mem slot None None)).

(** [drl] is stored only when a device is found, and then read. *)
Definition attach_ltrace_to_lamebus (ltraceno mem : Z) : B (option dev) :=
  '(slot, drl) ← lamebus_probe LB_VENDOR_CS161 LBCS161_TRACE 1;
  if slot <? 0 then mret None
  else if mem =? 0 then mret None
  else
    let drl := default 0 drl in
    lamebus_mark slot ;;
    mret (Some (mkDev mem slot None (Some (2 <=? drl, 3 <=? drl)))).

(** HIGH_VERSION is passed for the address the revision is stored to. *)
Definition attach_lscreen_to_lamebus (lscreenno mem : Z) : B (option dev) :=
  '(slot, version) ← lamebus_probe LB_VENDOR_CS161 LBCS161_SCREEN 1;
  version_store 1 version ;;
  if slot <? 0 then mret None
  else if mem =? 0 then mret None
  else
    lamebus_mark slot ;;
    lamebus_attach_interrupt slot mem (lscreen_irq hs) ;;
    mret (Some (mkDev mem slot None None)).

Definition attach_lnet_to_lamebus (lnetno : Z) : B (option dev) :=
  '(slot, version) ← lamebus_probe LB_VENDOR_CS161 LBCS161_NET 1;
  version_store 1 version ;;
  mret None.

Definition config_lnet (lnetno : Z) : B Z := mret ENODEV.

(** ** ltrace.c; [the_trace] is its static variable. *)

Definition LTRACE_REG_TRON : Z := 0.
Definition LTRACE_REG_TROFF : Z := 4.
Definition LTRACE_REG_DEBUG : Z := 8.
Definition LTRACE_REG_DUMP : Z := 12.
Definition LTRACE_REG_STOP : Z := 16.
Definition LTRACE_REG_PROFEN : Z := 20.
Definition LTRACE_REG_PROFCL : Z := 24.

Definition lt_canstop (d : dev) : bool := default false (fst <$> d_can d).
Definition lt_canprof (d : dev) : bool := default false (snd <$> d_can d).

Definition ltrace_wreg (the_trace : option dev) (ok : dev → bool) (reg val : Z) : B unit :=
  match the_trace with
  | Some d => if ok d then lamebus_write_register (d_buspos d) reg val else mret tt
  | None => mret tt
  end.
Definition ltrace_on the_trace code := ltrace_wreg the_trace (λ _, true) LTRACE_REG_TRON code.
Definition ltrace_off the_trace code := ltrace_wreg the_trace (λ _, true) LTRACE_REG_TROFF code.
Definition ltrace_debug the_trace code := ltrace_wreg the_trace (λ _, true) LTRACE_REG_DEBUG code.
Definition ltrace_dump the_trace code := ltrace_wreg the_trace (λ _, true) LTRACE_REG_DUMP code.
Definition ltrace_stop the_trace code := ltrace_wreg the_trace lt_canstop LTRACE_REG_STOP code.
Definition ltrace_setprof the_trace onoff := ltrace_wreg the_trace lt_canprof LTRACE_REG_PROFEN onoff.
Definition ltrace_eraseprof the_trace := ltrace_wreg the_trace lt_canprof LTRACE_REG_PROFCL 1.
Definition config_ltrace (sc : dev) (ltraceno : Z) : option dev * Z := (Some sc, 0).

(** ** The drivers of conf/GENERIC, attached in any order *)

Inductive driver := Emu | Ltrace | Ltimer | Lrandom | Lhd | Lser.
#[global] Instance driver_dec : EqDecision driver.
Proof. solve_decision. Defined.

Record request := mkReq { r_driver : driver; r_unit : Z; r_mem : Z }.

Definition attach (r : request) : B (option dev) :=
  match r_driver r with
  | Emu => attach_emu_to_lamebus
  | Ltrace => attach_ltrace_to_lamebus
  | Ltimer => attach_ltimer_to_lamebus
  | Lrandom => attach_lrandom_to_lamebus
  | Lhd => attach_lhd_to_lamebus
  | Lser => attach_lser_to_lamebus
  end (r_unit r) (r_mem r).

Fixpoint attach_all (l : list request) : B (list (option dev)) :=
  match l with
  | [] => mret []
  | r :: l => x ← attach r; xs ← attach_all l; mret (x :: xs)
  end.

Definition deviceid (d : driver) : Z :=
  match d with
  | Emu => LBCS161_EMUFS | Ltrace => LBCS161_TRACE | Ltimer => LBCS161_TIMER
  | Lrandom => LBCS161_RANDOM | Lhd => LBCS161_DISK | Lser => LBCS161_SERIAL
  end.
Definition low_version (d : driver) : Z := match d with Lhd => 2 | _ => 1 end.
Definition handler (d : driver) : option Z :=
  match d with
  | Emu => Some (emu_irq hs) | Ltimer => Some (ltimer_irq hs) | Lhd => Some (lhd_irq hs)
  | Lser => Some (lser_irq hs) | Ltrace | Lrandom => None
  end.

(** *** The specification: every driver has the queue of its devices, in slot order, and
    each request that gets memory takes the next one. *)

Fixpoint assign (queue : driver → list Z) (l : list request) : list (option Z) :=
  match l with
  | [] => []
  | r :: l =>
      match queue (r_driver r) with
      | slot :: rest =>
          if r_mem r =? 0 then None :: assign queue l
          else Some slot :: assign (λ d, if decide (d = r_driver r) then rest else queue d) l
      | [] => None :: assign queue l
      end
  end.

Context (cfg : H → Z → Z → Z).

Definition is_device (d : driver) (h : H) (slot : Z) : bool :=
  (cfg h slot CFGREG_VID =? LB_VENDOR_CS161) && (cfg h slot CFGREG_DID =? deviceid d) &&
  (low_version d <=? cfg h slot CFGREG_DRL).

(** The devices of a driver; slot 31 is the bus controller's. *)
Definition devices (h : H) (d : driver) : list Z := List.filter (is_device d h) (seqZ 0 31).

Definition slots (rs : list (option dev)) : list (option Z) := map (option_map d_buspos) rs.

(** A request's result and the bus agree. *)
Definition claimed (h : H) (x : softc) (r : request) (res : option dev) : Prop :=
  match res with
  | Some d =>
      d_addr d = r_mem r ∧ 0 <= d_buspos d < 31 ∧ is_device (r_driver r) h (d_buspos d) = true ∧
      Z.testbit (ls_slotsinuse x) (d_buspos d) = true ∧
      irqfunc_at x (d_buspos d) = default 0 (handler (r_driver r)) ∧
      devdata_at x (d_buspos d) = (if handler (r_driver r) is Some _ then r_mem r else 0)
  | None => True
  end.

Context (Hcfg : cfg_registers cfg).

Definition unclaimed (x : softc) (d : driver) (h : H) (i : Z) : bool :=
  negb (Z.testbit (ls_slotsinuse x) i) && is_device d h i.

Record ready (h : H) (queue : driver → list Z) (x : softc) : Prop := {
  rd_lock : ls_lock x = false;
  rd_31 : Z.testbit (ls_slotsinuse x) 31 = true;
  rd_len : length (ls_devdata x) = 32%nat ∧ length (ls_irqfuncs x) = 32%nat;
  rd_free i : 0 <= i < 32 → Z.testbit (ls_slotsinuse x) i = false → devdata_at x i = 0 ∧ irqfunc_at x i = 0;
  rd_queue d : queue d = List.filter (unclaimed x d h) (seqZ 0 31)
}.

Lemma first_index_head {A} (p : A → bool) l :
  match List.filter p l with
  | a :: _ => ∃ k, first_index p l = Some k ∧ l !! k = Some a
  | [] => first_index p l = None
  end.
Proof.
  induction l as [|a l IH]; [done |]. cbn. destruct (p a); [by exists 0%nat |].
  destruct (List.filter p l); [by rewrite IH |]. destruct IH as (k & -> & E). by exists (S k).
Qed.

Lemma probe_queue queue d s x :
  lamebus s = Some x → ready (hw s) queue x →
  lamebus_probe LB_VENDOR_CS161 (deviceid d) (low_version d) s =
    Done (match queue d with
          | slot :: _ => (slot, Some (cfg (hw s) slot CFGREG_DRL))
          | [] => (-1, None)
          end) s.
Proof.
  intros Hs Hr. rewrite (lamebus_probe_first cfg Hcfg _ _ _ s x) by (done || apply Hr).
  set (p := candidate _ _ _ _ _ _).
  assert (List.filter p (seqZ 0 32) = queue d) as E.
  { change 32 with (31 + 1). rewrite seqZ_app by lia. cbn [app]. rewrite List.filter_app.
    assert (List.filter p (seqZ (0 + 31) 1) = []) as ->.
    { change (seqZ (0 + 31) 1) with [31]. cbn [List.filter]. unfold p at 1, candidate.
      by rewrite (rd_31 _ _ _ Hr). }
    rewrite app_nil_r, (rd_queue _ _ _ Hr). apply List.filter_ext. intros i. unfold p, candidate, unclaimed, is_device.
    by rewrite <- !andb_assoc. }
  pose proof (first_index_head p (seqZ 0 32)) as Hh. rewrite E in Hh.
  destruct (queue d) as [|slot rest]; [by rewrite Hh |]. destruct Hh as (k & -> & Hk).
  apply lookup_seqZ in Hk as [Hk _]. replace (Z.of_nat k) with slot by lia. done.
Qed.

(** The bus after a slot is marked and, for some drivers, a handler attached. *)
Definition claim (slot mem : Z) (f : option Z) (x : softc) : softc :=
  let x := with_inuse (Z.lor (ls_slotsinuse x) (bit slot)) x in
  match f with Some f => set_handler slot mem f x | None => x end.

Lemma mark_run slot (s : bus H) x :
  lamebus s = Some x → ls_lock x = false → 0 <= slot < 32 → Z.testbit (ls_slotsinuse x) slot = false →
  lamebus_mark slot s = Done tt (with_sc (Some (claim slot 0 None x)) s).
Proof.
  intros Hs Hl Hr Hf. unfold lamebus_mark, slot_ok. unfold LB_NSLOTS.
  rewrite (proj2 (Z.leb_le 0 slot)), (proj2 (Z.ltb_lt slot 32)) by lia.
  unfold kassert, mbind at 1, M_bind at 1. cbn [andb].
  unfold spinlock_acquire, spinlock_release, upd_sc, get_sc, deref, modify, mbind, M_bind, mret, M_ret.
  rewrite Hs, Hl. cbn. rewrite Hs. cbn. rewrite land_bit, Hf by done. cbn. destruct s, x; cbn in *. by subst.
Qed.

Lemma hook_run slot mem f (s : bus H) x :
  lamebus s = Some x → ls_lock x = false → 0 <= slot < 32 → Z.testbit (ls_slotsinuse x) slot = true →
  devdata_at x slot = 0 → irqfunc_at x slot = 0 →
  lamebus_attach_interrupt slot mem f s = Done tt (with_sc (Some (set_handler slot mem f x)) s).
Proof.
  intros Hs Hl Hr Hf Hd Hi. unfold lamebus_attach_interrupt, slot_ok. unfold LB_NSLOTS.
  rewrite (proj2 (Z.leb_le 0 slot)), (proj2 (Z.ltb_lt slot 32)) by lia.
  unfold kassert at 1, mbind at 1, M_bind at 1. cbn [andb].
  unfold spinlock_acquire, spinlock_release, upd_sc, get_sc, deref, modify, kassert, mbind, M_bind, mret, M_ret.
  rewrite Hs, Hl. cbn. rewrite Hs. cbn. rewrite land_bit, Hf by done. cbn.
  unfold devdata_at, irqfunc_at in *. cbn. rewrite Hd. cbn. rewrite Hi. cbn.
  destruct s, x; cbn in *. by subst.
Qed.

Lemma claim_testbit slot mem f x i :
  0 <= slot < 32 → 0 <= i < 32 →
  Z.testbit (ls_slotsinuse (claim slot mem f x)) i = Z.testbit (ls_slotsinuse x) i || (i =? slot).
Proof.
  intros Hs Hi. transitivity (Z.testbit (Z.lor (ls_slotsinuse x) (bit slot)) i); [by destruct f |].
  by rewrite Z.lor_spec, testbit_bit.
Qed.

Lemma claim_handler slot mem f x i :
  0 <= slot < 32 → 0 <= i < 32 → length (ls_devdata x) = 32%nat → length (ls_irqfuncs x) = 32%nat →
  devdata_at x slot = 0 → irqfunc_at x slot = 0 →
  devdata_at (claim slot mem f x) i = (if i =? slot then if f is Some _ then mem else 0 else devdata_at x i) ∧
  irqfunc_at (claim slot mem f x) i = (if i =? slot then default 0 f else irqfunc_at x i).
Proof.
  intros Hs Hi Hd Hf E1 E2. destruct f as [f|]; cbn.
  - unfold devdata_at, irqfunc_at. cbn. rewrite !nth_lookup. destruct (Z.eqb_spec i slot) as [-> |].
    + by rewrite !list_lookup_insert_eq by lia.
    + by rewrite !list_lookup_insert_ne by lia.
  - change (devdata_at _ i) with (devdata_at x i). change (irqfunc_at _ i) with (irqfunc_at x i).
    destruct (Z.eqb_spec i slot) as [-> |]; auto.
Qed.

Lemma filter_taken {A} (p q : A → bool) a l rest :
  NoDup l → List.filter p l = a :: rest → q a = false → (∀ x, x ≠ a → q x = true) →
  List.filter (λ x, q x && p x) l = rest.
Proof.
  intros Hnd. revert rest. induction Hnd as [|b l Hb Hl IH]; [done |]. cbn. intros rest.
  destruct (p b) eqn:Ep.
  - intros [= -> <-] Hqa Hq. rewrite Hqa. cbn. apply List.filter_ext_in. intros x Hx%list_elem_of_In.
    rewrite Hq; [done |]. by intros ->.
  - rewrite andb_false_r. apply IH.
Qed.

Lemma deviceid_inj d d' : deviceid d = deviceid d' → d = d'.
Proof. by destruct d, d'. Qed.

Lemma claim_ready h queue x d slot rest mem f :
  ready h queue x → queue d = slot :: rest →
  ready h (λ d', if decide (d' = d) then rest else queue d') (claim slot mem f x).
Proof.
  intros Hr Hq. pose proof (rd_queue _ _ _ Hr d) as Eq. rewrite Hq in Eq.
  assert (slot ∈ List.filter (unclaimed x d h) (seqZ 0 31)) as Hin by (rewrite <- Eq; constructor).
  apply list_elem_of_In, List.filter_In in Hin as [Hin%list_elem_of_In%elem_of_seqZ Hu].
  apply andb_prop in Hu as [Hfree Hdev]. apply negb_true_iff in Hfree.
  destruct (rd_free _ _ _ Hr slot ltac:(lia) Hfree) as [Hd0 Hi0]. destruct (rd_len _ _ _ Hr) as [Ld Li].
  assert (∀ d' i, 0 <= i < 31 → unclaimed (claim slot mem f x) d' h i = negb (i =? slot) && unclaimed x d' h i) as Eu.
  { intros d' i Hi. unfold unclaimed. rewrite claim_testbit by lia. rewrite negb_orb.
    destruct (i =? slot); cbn; by rewrite ?andb_true_r, ?andb_false_r. }
  split.
  - destruct f; apply Hr.
  - rewrite claim_testbit by lia. by rewrite (rd_31 _ _ _ Hr).
  - destruct f; cbn; rewrite ?length_insert; done.
  - intros i Hi. rewrite claim_testbit by lia. intros [E1 E2]%orb_false_iff.
    destruct (claim_handler slot mem f x i) as [-> ->]; [lia | done.. |]. rewrite E2. by apply Hr.
  - intros d'. transitivity (List.filter (λ i, negb (i =? slot) && unclaimed x d' h i) (seqZ 0 31)).
    2: { apply List.filter_ext_in. intros i Hi%list_elem_of_In%elem_of_seqZ. rewrite Eu; [done | lia]. }
    destruct (decide (d' = d)) as [-> | Hne].
    + symmetry. apply (filter_taken _ _ slot); [apply NoDup_seqZ | done | by rewrite Z.eqb_refl |].
      intros y Hy. by rewrite (proj2 (Z.eqb_neq _ _) Hy).
    + rewrite (rd_queue _ _ _ Hr). apply List.filter_ext. intros i. destruct (Z.eqb_spec i slot) as [-> |]; [| done].
      unfold unclaimed, is_device in *. apply andb_prop in Hdev as [[_ Hid%Z.eqb_eq]%andb_prop _].
      rewrite Hid. destruct (Z.eqb_spec (deviceid d) (deviceid d')) as [E%deviceid_inj |]; [by subst |].
      by rewrite !andb_false_r.
Qed.

Lemma claim_hook slot mem f x : set_handler slot mem f (claim slot 0 None x) = claim slot mem (Some f) x.
Proof. done. Qed.

(** One request: with a device waiting and memory, the slot is claimed; otherwise nothing
    changes. *)
Lemma attach_run queue r s x :
  lamebus s = Some x → ready (hw s) queue x →
  match queue (r_driver r) with
  | slot :: _ =>
      if r_mem r =? 0 then attach r s = Done None s
      else ∃ unit can, attach r s =
        Done (Some (mkDev (r_mem r) slot unit can))
          (with_sc (Some (claim slot (r_mem r) (handler (r_driver r)) x)) s)
  | [] => attach r s = Done None s
  end.
Proof.
  intros Hs Hr. pose proof (probe_queue queue (r_driver r) s x Hs Hr) as Hp.
  pose proof (rd_queue _ _ _ Hr (r_driver r)) as Eq. destruct r as [d unit mem]. cbn [r_driver r_mem] in *.
  destruct (queue d) as [|slot rest].
  { destruct d; cbn in Hp; unfold attach, attach_emu_to_lamebus, attach_ltrace_to_lamebus, attach_ltimer_to_lamebus,
      attach_lrandom_to_lamebus, attach_lhd_to_lamebus, attach_lser_to_lamebus, mbind, M_bind; cbn [r_driver];
      by rewrite Hp. }
  assert (slot ∈ List.filter (unclaimed x d (hw s)) (seqZ 0 31)) as Hin by (rewrite <- Eq; constructor).
  apply list_elem_of_In, List.filter_In in Hin as [Hin%list_elem_of_In%elem_of_seqZ [Hfree%negb_true_iff _]%andb_prop].
  destruct (rd_free _ _ _ Hr slot ltac:(lia) Hfree) as [Hd0 Hi0].
  assert (lamebus_mark slot s = Done tt (with_sc (Some (claim slot 0 None x)) s)) as Hm
    by (apply mark_run; [done | apply Hr | lia | done]).
  assert (∀ f, lamebus_attach_interrupt slot mem f (with_sc (Some (claim slot 0 None x)) s) =
    Done tt (with_sc (Some (claim slot mem (Some f) x)) s)) as Ha.
  { intros f. rewrite (hook_run slot mem f _ (claim slot 0 None x)); [done | done | apply Hr | lia | | done | done].
    rewrite claim_testbit by lia. by rewrite Z.eqb_refl, orb_true_r. }
  assert ((slot <? 0) = false) as Hneg by lia.
  destruct (mem =? 0) eqn:Em; [| destruct d; do 2 eexists];
    try destruct d; cbn in Hp; unfold attach, attach_emu_to_lamebus, attach_ltrace_to_lamebus, attach_ltimer_to_lamebus,
      attach_lrandom_to_lamebus, attach_lhd_to_lamebus, attach_lser_to_lamebus, mbind, M_bind;
    cbn [r_driver r_unit r_mem handler]; rewrite Hp, Hneg, Em; rewrite ?Hm, ?Ha; reflexivity.
Qed.

(** What is in use stays so, with its handler. *)
Definition kept (x x' : softc) : Prop :=
  ∀ i, 0 <= i < 32 → Z.testbit (ls_slotsinuse x) i = true →
    Z.testbit (ls_slotsinuse x') i = true ∧ devdata_at x' i = devdata_at x i ∧ irqfunc_at x' i = irqfunc_at x i.

Lemma claimed_keeps h x x' r res : kept x x' → claimed h x r res → claimed h x' r res.
Proof.
  intros Hk. destruct res as [d|]; [| done]. intros (? & ? & ? & Hu & Hf & Hd).
  destruct (Hk (d_buspos d) ltac:(lia) Hu) as (? & E1 & E2). cbn. by rewrite E1, E2.
Qed.

Lemma attach_all_run l : ∀ queue s x,
  lamebus s = Some x → ready (hw s) queue x →
  ∃ rs x', attach_all l s = Done rs (with_sc (Some x') s) ∧ slots rs = assign queue l ∧
    Forall2 (claimed (hw s) x') l rs ∧ kept x x' ∧ NoDup (omap (M:=list) id (assign queue l)) ∧
    ∀ slot, Some slot ∈ assign queue l → 0 <= slot < 31 ∧ Z.testbit (ls_slotsinuse x) slot = false.
Proof.
  induction l as [|r l IH]; intros queue s x Hs Hr.
  { exists [], x. split_and!; [cbn; by destruct s; cbn in *; subst | done | constructor | by intros i | constructor |].
    intros slot []%not_elem_of_nil. }
  pose proof (attach_run queue r s x Hs Hr) as Ha. cbn [attach_all assign].
  destruct (queue (r_driver r)) as [|slot rest] eqn:Eq; [| destruct (r_mem r =? 0) eqn:Em].
  1, 2: destruct (IH queue s x Hs Hr) as (rs & x' & E & Es & Hc & Hk & Hn & Hb); exists (None :: rs), x';
    unfold mbind, M_bind; rewrite Ha, E; cbn; split_and!; try done; [by rewrite <- Es | by constructor |];
    intros slot' [[=] | Hin]%elem_of_cons; by apply Hb.
  destruct Ha as (unit & can & Ha). set (x1 := claim slot _ _ x) in *.
  destruct (IH (λ d, if decide (d = r_driver r) then rest else queue d) (with_sc (Some x1) s) x1)
    as (rs & x' & E & Es & Hc & Hk & Hn & Hb); [done | by apply claim_ready |].
  pose proof (rd_queue _ _ _ Hr (r_driver r)) as Eu. rewrite Eq in Eu.
  assert (slot ∈ List.filter (unclaimed x (r_driver r) (hw s)) (seqZ 0 31)) as Hin by (rewrite <- Eu; constructor).
  apply list_elem_of_In, List.filter_In in Hin as [Hin%list_elem_of_In%elem_of_seqZ [Hfree%negb_true_iff Hdev]%andb_prop].
  destruct (rd_free _ _ _ Hr slot ltac:(lia) Hfree) as [Hd0 Hi0]. destruct (rd_len _ _ _ Hr) as [Ld Li].
  assert (∀ i, 0 <= i < 32 → Z.testbit (ls_slotsinuse x1) i = Z.testbit (ls_slotsinuse x) i || (i =? slot)) as Et
    by (intros i Hi; apply claim_testbit; lia).
  assert (∀ i, 0 <= i < 32 → _) as Eh
    by (intros i Hi; exact (claim_handler slot (r_mem r) (handler (r_driver r)) x i ltac:(lia) Hi Ld Li Hd0 Hi0)).
  fold x1 in Eh.
  exists (Some (mkDev (r_mem r) slot unit can) :: rs), x'.
  unfold mbind, M_bind. rewrite Ha, E. cbn. split_and!; try done; [by rewrite <- Es | | | |].
  - constructor; [| done]. apply (claimed_keeps _ x1); [done |]. cbn. destruct (Eh slot ltac:(lia)) as [-> ->].
    rewrite Z.eqb_refl, Et, Z.eqb_refl, orb_true_r by lia. split_and!; done || lia.
  - intros i Hi Hu. destruct (Eh i Hi) as [E1 E2]. destruct (Hk i Hi) as (? & -> & ->); [by rewrite Et, Hu by lia |].
    rewrite E1, E2. destruct (Z.eqb_spec i slot) as [-> |]; [congruence | done].
  - constructor; [| done]. intros (y & Hin' & Ey)%list_elem_of_omap. cbn in Ey. subst y. destruct (Hb slot Hin') as [_ Hf'].
    rewrite Et, Z.eqb_refl, orb_true_r in Hf' by lia. done.
  - intros slot' [[= ->] | Hin']%elem_of_cons; [split; [lia | done] |]. destruct (Hb slot' Hin') as [? Hf'].
    split; [done |]. rewrite Et in Hf' by lia. by apply orb_false_iff in Hf' as [].
Qed.

(** C26: Once the bus has been initialised, attaching the drivers in any order and any
    number of times returns, and every driver is given its own devices in slot order: a
    request is answered with the next device of its driver, or with NULL when there is
    none left or no memory.  No slot is given out twice, and in the end the interrupt
    line of every slot given out has the handler and the record of the driver that got
    it. *)
Theorem attach_in_order l ptr s0 s :
  lamebus_init ptr s0 = Done tt s →
  ∃ rs x, attach_all l s = Done rs (with_sc (Some x) s) ∧
    slots rs = assign (devices (hw s)) l ∧
    NoDup (omap (M:=list) id (assign (devices (hw s)) l)) ∧
    Forall2 (claimed (hw s) x) l rs.
Proof using Hcfg.
  unfold lamebus_init. destruct (ptr =? 0); [done |]. intros E.
  pose (x0 := mkSc false (bit 31) (replicate 32 0) (replicate 32 0) 0).
  assert (s = with_sc (Some x0) s0) as -> by (by injection E). clear E.
  destruct (attach_all_run l (devices (hw s0)) (with_sc (Some x0) s0) x0) as (rs & x & E & Es & Hc & _ & Hn & _).
  - reflexivity.
  - split; [done | done | done | |].
    + intros i Hi _. unfold devdata_at, irqfunc_at. rewrite !nth_lookup. unfold x0, ls_devdata, ls_irqfuncs.
      by rewrite !lookup_replicate_2 by lia.
    + intros d'. apply List.filter_ext_in. intros i Hi%list_elem_of_In%elem_of_seqZ. unfold unclaimed, x0, ls_slotsinuse.
      rewrite testbit_bit by lia. by rewrite (proj2 (Z.eqb_neq _ _)) by lia.
  - exists rs, x. by split_and!.
Qed.

(** With a screen or a network card on the bus the attach function of its driver does not
    return: it stores the revision to address 1. *)
Theorem attach_lscreen_traps s unit mem slot v :
  lamebus_probe LB_VENDOR_CS161 LBCS161_SCREEN 1 s = Done (slot, Some v) s →
  attach_lscreen_to_lamebus unit mem s = Panic "Fatal exception 5 (Address error on store) in kernel mode".
Proof. intros E. unfold attach_lscreen_to_lamebus, mbind, M_bind. by rewrite E. Qed.
End attach.

(** ** A board with a disk in slots 2 and 5, a serial port in slot 4, a timer in slot 7 *)

Definition w_board : Z → Z := λ a,
  let slot := (a - ctl_addr 0) / LB_CONFIG_SIZE in
  let r := (a - ctl_addr 0) mod LB_CONFIG_SIZE in
  if r =? CFGREG_VID then 1
  else if r =? CFGREG_DID then
    if slot =? 2 then 3 else if slot =? 4 then 4 else if slot =? 5 then 3 else if slot =? 7 then 2 else 10
  else if r =? CFGREG_DRL then 2 else 0.
Definition w_handlers := mkHandlers 1001 1002 1003 1004 1005.
Definition w_bus : bus (Z → Z) := mkBus None 0 [0] w_board.
Definition w_requests : list request :=
  [mkReq Lhd 0 100; mkReq Lser 0 200; mkReq Lhd 1 0; mkReq Lhd 1 300; mkReq Lhd 2 400; mkReq Ltimer 0 500].

Lemma attach_in_order_witness :
  ∃ rs x s, lamebus_init 4096 w_bus = Done tt s ∧ attach_all w_handlers w_requests s = Done rs (with_sc (Some x) s) ∧
    slots rs = [Some 2; Some 4; None; Some 5; None; Some 7] ∧
    Forall2 (claimed w_handlers wit_slot w_board x) w_requests rs.
Proof.
  destruct (attach_in_order w_handlers wit_slot wit_cfg w_requests 4096 w_bus _ eq_refl) as (rs & x & E & Es & _ & Hc).
  eexists rs, x, _. split; [reflexivity |]. split; [exact E |]. split; [| exact Hc]. rewrite Es. vm_compute. reflexivity.
Defined.

End Attach.
