(* ===== verification/Trap.v ===== *)
(** * Traps and system calls (arch/mips/locore/trap.c, arch/mips/syscall/syscall.c,
      syscall/time_syscalls.c, the interrupt dispatcher and power functions of
      arch/sys161/dev/lamebus_machdep.c, sys_reboot of main/main.c,
      dev/generic/rtclock.c, arch/mips/thread/cpu.c)

    One CPU, seen from the thread that takes the trap: the data of the components a
    trap can reach, the thread's interrupt state, and the tables the assembly code
    loads the kernel stack from.  The trap frame is a value handed through the
    handlers, with the address it is stored at.  Memory is seen twice: through the VM
    data ([m_k]: TLB, page table, physical memory), which the loads of write() go
    through, page faults included; and, for the copies of time(), by bytes in the view of
    copyinout.c ([m_user]), where what becomes of an access is given and the effect of
    faults on the VM data is not represented.  Only characters printed for programs are
    kept as console output; diagnostics are not represented. *)

From stdpp Require Import base list gmap numbers strings.
From Stdlib Require Import ZArith Lia.
From S2P Require Import Prelude CopyInOut Uio Vnode VfsList VfsPath Spinlock Segments Tlb VmState Swap LoadElf VmFault Lamebus.

#[local] Open Scope Z_scope.

Import CopyInOut Vnode VfsList VfsPath Spinlock Tlb VmState LoadElf VmFault Lamebus.

Module Trap.

Definition STACK_SIZE : Z := 4096.
Definition STACK_MASK : Z := 0xfffff000.
Definition SAME_STACK (p1 p2 : Z) : bool := Z.land p1 STACK_MASK =? Z.land p2 STACK_MASK.

Definition CST_IEp : Z := 0x4.
Definition CST_KUp : Z := 0x8.
Definition CST_IRQMASK : Z := 0xff00.
Definition CCA_CODE : Z := 0x3c.
Definition CCA_IRQS : Z := 0xff00.
Definition CCA_CODESHIFT : Z := 2.
Definition LAMEBUS_IRQ_BIT : Z := 0x400.
Definition LAMEBUS_IPI_BIT : Z := 0x800.
Definition MIPS_TIMER_BIT : Z := 0x8000.

Definition EX_IRQ : Z := 0.
Definition EX_MOD : Z := 1.
Definition EX_TLBL : Z := 2.
Definition EX_TLBS : Z := 3.
Definition EX_ADEL : Z := 4.
Definition EX_ADES : Z := 5.
Definition EX_IBE : Z := 6.
Definition EX_DBE : Z := 7.
Definition EX_SYS : Z := 8.
Definition EX_BP : Z := 9.
Definition EX_RI : Z := 10.
Definition EX_CPU : Z := 11.
Definition EX_OVF : Z := 12.
Definition NTRAPCODES : Z := 13.

Definition SYS__exit : Z := 3.
Definition SYS_read : Z := 50.
Definition SYS_write : Z := 55.
Definition SYS___time : Z := 113.
Definition SYS_reboot : Z := 119.
Definition STDOUT_FILENO : Z := 1.
Definition STDERR_FILENO : Z := 2.
Definition RB_REBOOT : Z := 0.
Definition RB_HALT : Z := 1.
Definition RB_POWEROFF : Z := 2.
Definition MAXRAM : Z := 508 * 1024 * 1024.
Definition CPU_FREQUENCY : Z := 25000000.
Definition HZ : Z := 100.

Record trapframe := mkTf {
  tf_vaddr : Z; tf_status : Z; tf_cause : Z; tf_lo : Z; tf_hi : Z; tf_ra : Z; tf_at : Z;
  tf_v0 : Z; tf_v1 : Z; tf_a0 : Z; tf_a1 : Z; tf_a2 : Z; tf_a3 : Z; tf_t0 : Z;
  tf_t1 : Z; tf_t2 : Z; tf_t3 : Z; tf_t4 : Z; tf_t5 : Z; tf_t6 : Z; tf_t7 : Z;
  tf_s0 : Z; tf_s1 : Z; tf_s2 : Z; tf_s3 : Z; tf_s4 : Z; tf_s5 : Z; tf_s6 : Z;
  tf_s7 : Z; tf_t8 : Z; tf_t9 : Z; tf_gp : Z; tf_sp : Z; tf_s8 : Z; tf_epc : Z
}.

(** What syscall and mips_trap store into the frame. *)
Definition with_result (v0 a3 epc : Z) (f : trapframe) : trapframe :=
  mkTf (tf_vaddr f) (tf_status f) (tf_cause f) (tf_lo f) (tf_hi f) (tf_ra f) (tf_at f) v0
    (tf_v1 f) (tf_a0 f) (tf_a1 f) (tf_a2 f) a3 (tf_t0 f) (tf_t1 f) (tf_t2 f) (tf_t3 f)
    (tf_t4 f) (tf_t5 f) (tf_t6 f) (tf_t7 f) (tf_s0 f) (tf_s1 f) (tf_s2 f) (tf_s3 f) (tf_s4
    f) (tf_s5 f) (tf_s6 f) (tf_s7 f) (tf_t8 f) (tf_t9 f) (tf_gp f) (tf_sp f) (tf_s8 f) epc.
Definition with_epc (epc : Z) (f : trapframe) : trapframe :=
  mkTf (tf_vaddr f) (tf_status f) (tf_cause f) (tf_lo f) (tf_hi f) (tf_ra f) (tf_at f)
    (tf_v0 f) (tf_v1 f) (tf_a0 f) (tf_a1 f) (tf_a2 f) (tf_a3 f) (tf_t0 f) (tf_t1 f) (tf_t2
    f) (tf_t3 f) (tf_t4 f) (tf_t5 f) (tf_t6 f) (tf_t7 f) (tf_s0 f) (tf_s1 f) (tf_s2 f)
    (tf_s3 f) (tf_s4 f) (tf_s5 f) (tf_s6 f) (tf_s7 f) (tf_t8 f) (tf_t9 f) (tf_gp f) (tf_sp
    f) (tf_s8 f) epc.

(** [bzero] of a frame and the stores of enter_new_process. *)
Definition user_frame (status epc a0 a1 a2 sp : Z) : trapframe :=
  mkTf 0 status 0 0 0 0 0 0 0 a0 a1 a2 0 0 0 0 0 0 0 0 0 0 0 0 0 0 0 0 0 0 0 0 sp 0 epc.

Record machine (FS W H : Type) := mkMachine {
  m_k : kstate FS;                      (* VM system and processes *)
  m_vfs : vfs W;
  m_bus : bus H;
  m_cpu : Spinlock.cpu;                 (* interrupt state of the CPU and its thread *)
  m_user : cstate;                      (* bytes, and tm_badfaultfunc of the thread *)
  curthread : Z;
  t_stack : Z;                          (* 0: the boot thread *)
  t_in_interrupt : bool;
  c_number : nat;
  cputhreads : list Z;
  cpustacks : list Z;
  timer : Z;                            (* c0_compare *)
  console : list Z;
  the_clock : option Z                  (* rtclock_softc *)
}.
Arguments mkMachine {FS W H}. Arguments m_k {FS W H}. Arguments m_vfs {FS W H}.
Arguments m_bus {FS W H}. Arguments m_cpu {FS W H}. Arguments m_user {FS W H}.
Arguments curthread {FS W H}. Arguments t_stack {FS W H}. Arguments t_in_interrupt {FS W H}.
Arguments c_number {FS W H}. Arguments cputhreads {FS W H}. Arguments cpustacks {FS W H}.
Arguments timer {FS W H}. Arguments console {FS W H}. Arguments the_clock {FS W H}.

Section fields.
Context {FS W H : Type}.
Implicit Types s : machine FS W H.
Definition with_k x s : machine FS W H :=
  mkMachine x (m_vfs s) (m_bus s) (m_cpu s) (m_user s) (curthread s) (t_stack s)
    (t_in_interrupt s) (c_number s) (cputhreads s) (cpustacks s) (timer s) (console s)
    (the_clock s).
Definition with_vfs x s : machine FS W H :=
  mkMachine (m_k s) x (m_bus s) (m_cpu s) (m_user s) (curthread s) (t_stack s)
    (t_in_interrupt s) (c_number s) (cputhreads s) (cpustacks s) (timer s) (console s)
    (the_clock s).
Definition with_bus x s : machine FS W H :=
  mkMachine (m_k s) (m_vfs s) x (m_cpu s) (m_user s) (curthread s) (t_stack s)
    (t_in_interrupt s) (c_number s) (cputhreads s) (cpustacks s) (timer s) (console s)
    (the_clock s).
Definition with_cpu x s : machine FS W H :=
  mkMachine (m_k s) (m_vfs s) (m_bus s) x (m_user s) (curthread s) (t_stack s)
    (t_in_interrupt s) (c_number s) (cputhreads s) (cpustacks s) (timer s) (console s)
    (the_clock s).
Definition with_user x s : machine FS W H :=
  mkMachine (m_k s) (m_vfs s) (m_bus s) (m_cpu s) x (curthread s) (t_stack s)
    (t_in_interrupt s) (c_number s) (cputhreads s) (cpustacks s) (timer s) (console s)
    (the_clock s).
Definition with_in_interrupt x s : machine FS W H :=
  mkMachine (m_k s) (m_vfs s) (m_bus s) (m_cpu s) (m_user s) (curthread s) (t_stack s) x
    (c_number s) (cputhreads s) (cpustacks s) (timer s) (console s) (the_clock s).
Definition with_timer x s : machine FS W H :=
  mkMachine (m_k s) (m_vfs s) (m_bus s) (m_cpu s) (m_user s) (curthread s) (t_stack s)
    (t_in_interrupt s) (c_number s) (cputhreads s) (cpustacks s) x (console s) (the_clock s).
Definition with_console x s : machine FS W H :=
  mkMachine (m_k s) (m_vfs s) (m_bus s) (m_cpu s) (m_user s) (curthread s) (t_stack s)
    (t_in_interrupt s) (c_number s) (cputhreads s) (cpustacks s) (timer s) x (the_clock s).
Definition with_clock x s : machine FS W H :=
  mkMachine (m_k s) (m_vfs s) (m_bus s) (m_cpu s) (m_user s) (curthread s) (t_stack s)
    (t_in_interrupt s) (c_number s) (cputhreads s) (cpustacks s) (timer s) (console s) x.
Definition with_tables x y s : machine FS W H :=
  mkMachine (m_k s) (m_vfs s) (m_bus s) (m_cpu s) (m_user s) (curthread s) (t_stack s)
    (t_in_interrupt s) (c_number s) x y (timer s) (console s) (the_clock s).
End fields.

(** What the scheduler (thread.c, clock.c; Thread.v) does for the trap code: the
    calls as the calling thread sees them, from the call until it runs again. *)
Class Scheduler (FS W H : Type) := {
  hardclock : M (machine FS W H) unit;
  interprocessor_interrupt : M (machine FS W H) unit;
  thread_shutdown : M (machine FS W H) unit
}.

(** What is on the bus outside of RAM: the byte a load from a physical address gives, if
    there is something (a device, the boot ROM), or a bus error. *)
Class PhysIO (H : Type) := { phys_load : Z → M (bus H) (option Z) }.

Section trap.
Context {FS : Type} {fops : FileOps FS} {uio : UserIO FS}.
Context {W : Type} `{!Kernel W, !FileSystem W}.
Context {H : Type} `{!Hw H} `{!PhysIO H} `{!Scheduler FS W H}.
(** Interrupt handlers of the drivers, the time a clock reports (seconds and
    nanoseconds), the address of copyfail, and the recursion bound of the VM code. *)
Context (irqfunc : Z → Z → M (bus H) unit).
Context (rtc_gettime : Z → Z * Z).
Context (copyfail : Z) (fuel : nat).
Abbreviation T := (M (machine FS W H)).

Definition on_cpu {A} (m : M Spinlock.cpu A) : T A := zoom m_cpu with_cpu m.
Definition on_k {A} (m : M (kstate FS) A) : T A := zoom m_k with_k m.
Definition on_vfs {A} (m : M (vfs W) A) : T A := zoom m_vfs with_vfs m.
Definition on_bus {A} (m : M (bus H) A) : T A := zoom m_bus with_bus m.
Definition on_user {A} (m : M cstate A) : T A := zoom m_user with_user m.

Definition t_curspl : T Z := gets (λ s, Spinlock.t_curspl (m_cpu s)).
Definition t_iplhigh_count : T Z := gets (λ s, Spinlock.t_iplhigh_count (m_cpu s)).
Definition spl_is_low : T unit :=
  spl ← t_curspl; n ← t_iplhigh_count;
  kassert (spl =? 0) "curthread->t_curspl == 0" ;;
  kassert (n =? 0) "curthread->t_iplhigh_count == 0".

(** ** cpu.c *)

Definition cpu_irqon : T unit := on_cpu (modify (with_irqs true)).
Definition cpu_irqoff : T unit := on_cpu (modify (with_irqs false)).
(** Waits for ever with interrupts off. *)
Definition hang {A} : T A := λ s, Exited s.
Definition cpu_halt : T unit := cpu_irqoff ;; hang.

(** The new CPU [c] with its first thread. *)
Definition cpu_machdep_init (c : nat) (c_curthread stack : Z) : T unit :=
  kassert (Nat.ltb c 32) "c->c_number < MAXCPUS" ;;
  if stack =? 0 then mret tt
  else
    modify (λ s, with_tables (<[c := c_curthread]> (cputhreads s))
                             (<[c := u32 (stack + STACK_SIZE)]> (cpustacks s)) s).

(** ** lamebus_machdep.c *)

Definition mips_timer_set (count : Z) : T unit := modify (with_timer count).

Definition mainbus_bootstrap (ptr : Z) (autoconf_lamebus : T unit) : T unit :=
  spl ← t_curspl;
  kassert (0 <? spl) "curthread->t_curspl > 0" ;;
  on_bus (lamebus_init ptr) ;;
  on_bus lamebus_find_cpus ;;
  on_cpu spl0 ;;
  autoconf_lamebus ;;
  mips_timer_set (CPU_FREQUENCY / HZ).

Definition mainbus_start_cpus (start : Z) : T unit := on_bus (lamebus_start_cpus start).
Definition mainbus_send_ipi (target : nat) : T unit := on_bus (lamebus_assert_ipi target).

Definition mainbus_ramsize : T Z :=
  ramsize ← on_bus lamebus_ramsize;
  mret (if MAXRAM <? ramsize then MAXRAM else ramsize).

Definition mainbus_poweroff : T unit := cpu_irqoff ;; on_bus lamebus_poweroff.
Definition mainbus_reboot : T unit := mainbus_poweroff.
Definition mainbus_halt : T unit := cpu_halt.
Definition mainbus_panic : T unit := mainbus_poweroff.

Definition mainbus_interrupt (cause : Z) : T unit :=
  spl ← t_curspl;
  kassert (0 <? spl) "curthread->t_curspl > 0" ;;
  let irq := negb (Z.land cause LAMEBUS_IRQ_BIT =? 0) in
  let ipi := negb (Z.land cause LAMEBUS_IPI_BIT =? 0) in
  let tick := negb (Z.land cause MIPS_TIMER_BIT =? 0) in
  (if irq then on_bus (lamebus_interrupt irqfunc) else mret tt) ;;
  (if ipi then
     interprocessor_interrupt ;;
     me ← gets c_number;
     on_bus (lamebus_clear_ipi me)
   else mret tt) ;;
  (if tick then
     mips_timer_set (CPU_FREQUENCY / HZ) ;;
     hardclock
   else mret tt) ;;
  if irq || ipi || tick then mret tt
  else if Z.land cause CCA_IRQS =? 0 then mret tt
  else panic "Unknown interrupt".

(** ** rtclock.c *)

Definition config_rtclock (rtc unit_ : Z) : T Z :=
  if negb (unit_ =? 0) then mret ENODEV
  else
    c ← gets the_clock;
    kassert (bool_decide (c = None)) "the_clock==NULL" ;;
    modify (with_clock (Some rtc)) ;;
    mret 0.

Definition gettime : T (Z * Z) :=
  c ← gets the_clock;
  match c with
  | None => panic "the_clock!=NULL"
  | Some rtc => mret (rtc_gettime rtc)
  end.

(** ** System calls *)

(** The [n] bytes of a big-endian integer at an address. *)
Definition poke_be (a n v : Z) (m : Z → Z) : Z → Z := λ x,
  if (a <=? x) && (x <? a + n) then u8 (Z.shiftr v (8 * (n - 1 - (x - a)))) else m x.

(** [ts]: the address of the local struct timespec on the kernel stack. *)
Definition sys___time (ts user_seconds_ptr user_nanoseconds_ptr : Z) : T Z :=
  '(tv_sec, tv_nsec) ← gettime;
  modify (λ s, with_user (CopyInOut.with_mem
    (poke_be (ts + 8) 4 tv_nsec (poke_be ts 8 tv_sec (mem (m_user s)))) (m_user s)) s) ;;
  result ← on_user (copyout ts user_seconds_ptr 8);
  if negb (result =? 0) then mret result
  else
    result ← on_user (copyout (ts + 8) user_nanoseconds_ptr 4);
    if negb (result =? 0) then mret result else mret 0.

(** main.c *)
Definition shutdown : T unit :=
  on_vfs vfs_clearbootfs ;;
  on_vfs vfs_clearcurdir ;;
  on_vfs vfs_unmountall ;;
  thread_shutdown ;;
  on_cpu splhigh ;;
  mret tt.

Definition sys_reboot (code : Z) : T Z :=
  if negb ((code =? RB_REBOOT) || (code =? RB_HALT) || (code =? RB_POWEROFF)) then mret EINVAL
  else
    shutdown ;;
    (if code =? RB_HALT then mainbus_halt
     else if code =? RB_REBOOT then mainbus_reboot
     else mainbus_poweroff) ;;
    panic "reboot operation failed".

(** A byte of physical memory, big-endian in its word.  RAM is what the page table
    describes. *)
Definition ram_byte (k : kstate FS) (pa : Z) : Z :=
  nth (Z.to_nat (pa mod 4)) (word_bytes (k_mem k (MIPS_KSEG0 + (pa - pa mod 4)))) 0.
Definition ram_size (k : kstate FS) : Z := Z.of_nat (length (main_PG (k_pt k))) * PAGE_SIZE.

Definition phys_byte (pa : Z) : T Z :=
  k ← gets m_k;
  if pa <? ram_size k then mret (ram_byte k pa)
  else
    r ← on_bus (phys_load pa);
    match r with Some c => mret c | None => panic "Bus error exception" end.

(** A load by the kernel from a virtual address, with no handler for a fault.  kseg0 and
    kseg1 are physical memory; elsewhere the TLB translates, and when it does not, the
    trap goes to vm_fault and comes back to the load, or panics ([trap_fault] from the
    kernel).  [n] bounds the attempts. *)
Definition MIPS_KSEG2 : Z := 0xc0000000.
Definition in_direct (a : Z) : bool := (MIPS_KSEG0 <=? a) && (a <? MIPS_KSEG2).
Fixpoint load_byte (n : nat) (a : Z) : T Z :=
  if in_direct a then phys_byte (a mod 0x20000000)
  else
    t ← gets (λ s, translate (k_tlb (m_k s)) (Z.land a PAGE_FRAME));
    match t with
    | Some lo => phys_byte (Z.shiftr lo 12 * PAGE_SIZE + a mod PAGE_SIZE)
    | None =>
        match n with
        | O => nofuel
        | S n' =>
            r ← on_k (vm_fault fuel VM_FAULT_READ a);
            if r =? 0 then load_byte n' a
            else
              bad ← gets (λ s, CopyInOut.tm_badfaultfunc (m_user s));
              if (bad : bool) then panic "copyfail outside of a copy function"
              else panic "I can't handle this... I think I'll just die now..."
        end
    end.

(** Character [i] of the buffer and kprintf of it: the kernel reads the address it was
    given. *)
Fixpoint write_loop (n : nat) (a : Z) : T unit :=
  match n with
  | O => mret tt
  | S n' =>
      c ← load_byte (S fuel) (u32 a);
      modify (λ s, with_console (console s ++ [c]) s) ;; write_loop n' (a + 1)
  end.

(** The call of number [callno]: [err] and [retval]. *)
Definition dispatch (ts callno : Z) (f : trapframe) : T (Z * Z) :=
  if callno =? SYS_reboot then err ← sys_reboot (s32 (tf_a0 f)); mret (err, 0)
  else if callno =? SYS___time then err ← sys___time ts (tf_a0 f) (tf_a1 f); mret (err, 0)
  else if callno =? SYS__exit then err ← on_k (sys__exit fuel (s32 (tf_a0 f))); mret (err, 0)
  else if callno =? SYS_write then
    (if (tf_a0 f =? STDOUT_FILENO) || c_bool STDERR_FILENO then
       write_loop (Z.to_nat (tf_a2 f)) (tf_a1 f)
     else mret tt) ;;
    mret (0, s32 (tf_a2 f))
  else if callno =? SYS_read then mret (0, s32 (tf_a2 f))
  else mret (1, 0).

Definition syscall (ts : Z) (f : trapframe) : T trapframe :=
  cur ← gets curthread;
  kassert (negb (cur =? 0)) "curthread != NULL" ;;
  spl_is_low ;;
  '(err, retval) ← dispatch ts (s32 (tf_v0 f)) f;
  let f := if c_bool err then with_result (u32 err) 1 (u32 (tf_epc f + 4)) f
           else with_result (u32 retval) 0 (u32 (tf_epc f + 4)) f in
  spl_is_low ;;
  mret f.

Definition enter_forked_process (f : trapframe) : T unit := mret tt.

(** ** trap.c *)

(** Ends in a panic for every code. *)
Definition kill_curthread (code : Z) : T unit :=
  kassert (code <? NTRAPCODES) "code < NTRAPCODES" ;;
  (if (code =? EX_IRQ) || (code =? EX_IBE) || (code =? EX_DBE) || (code =? EX_SYS)
   then panic "0" else mret tt) ;;
  panic "I don't know how to handle this".

(** Before a return to user mode: where the next trap finds this thread. *)
Definition set_tables : T unit :=
  modify (λ s, with_tables (<[c_number s := curthread s]> (cputhreads s))
                 (<[c_number s := u32 (t_stack s + STACK_SIZE)]> (cpustacks s)) s).
Definition check_stack (tf : Z) : T unit :=
  top ← deref (λ s, cpustacks s !! c_number s) "cpustacks";
  kassert (SAME_STACK (u32 (top - 1)) tf) "SAME_STACK".

Definition trap_done2 (tf : Z) (f : trapframe) : T trapframe :=
  stack ← gets t_stack;
  if stack =? 0 then mret f
  else set_tables ;; check_stack tf ;; mret f.

Definition trap_done (tf : Z) (f : trapframe) : T trapframe := cpu_irqoff ;; trap_done2 tf f.

Definition trap_irq (tf : Z) (f : trapframe) : T trapframe :=
  old_in ← gets t_in_interrupt;
  modify (with_in_interrupt true) ;;
  spl ← t_curspl;
  doadjust ← (if spl =? 0 then
                spl_is_low ;;
                on_cpu (modify (λ c, with_t_curspl IPL_HIGH (with_count (Spinlock.t_iplhigh_count c + 1) c))) ;;
                mret true
              else mret false);
  mainbus_interrupt (tf_cause f) ;;
  (if (doadjust : bool) then
     spl ← t_curspl;
     kassert (spl =? IPL_HIGH) "curthread->t_curspl == IPL_HIGH" ;;
     n ← t_iplhigh_count;
     kassert (n =? 1) "curthread->t_iplhigh_count == 1" ;;
     on_cpu (modify (λ c, with_t_curspl 0 (with_count (Spinlock.t_iplhigh_count c - 1) c)))
   else mret tt) ;;
  modify (with_in_interrupt old_in) ;;
  trap_done2 tf f.

(** The fault was not handled. *)
Definition trap_fatal (tf code : Z) (iskern : bool) (f : trapframe) : T trapframe :=
  if negb iskern then kill_curthread code ;; trap_done tf f
  else
    bad ← gets (λ s, CopyInOut.tm_badfaultfunc (m_user s));
    if (bad : bool) then trap_done tf (with_epc copyfail f)
    else panic "I can't handle this... I think I'll just die now...".

(** The TLB exceptions go to vm_fault, bus errors panic. *)
Definition trap_fault (tf code : Z) (iskern : bool) (f : trapframe) : T trapframe :=
  if (code =? EX_MOD) || (code =? EX_TLBL) || (code =? EX_TLBS) then
    let type := if code =? EX_MOD then VM_FAULT_READONLY
                else if code =? EX_TLBL then VM_FAULT_READ else VM_FAULT_WRITE in
    r ← on_k (vm_fault fuel type (tf_vaddr f));
    if r =? 0 then trap_done tf f else trap_fatal tf code iskern f
  else if (code =? EX_IBE) || (code =? EX_DBE) then panic "Bus error exception"
  else trap_fatal tf code iskern f.

Definition trap_code (f : trapframe) : Z := Z.shiftr (Z.land (tf_cause f) CCA_CODE) CCA_CODESHIFT.
Definition from_kernel (f : trapframe) : bool := Z.land (tf_status f) CST_KUp =? 0.

(** [tf]: the address of the frame; [ts]: the address of sys___time's local. *)
Definition mips_trap (tf ts : Z) (f : trapframe) : T trapframe :=
  let code := trap_code f in
  let iskern := from_kernel f in
  kassert (code <? NTRAPCODES) "code < NTRAPCODES" ;;
  stack ← gets t_stack;
  (if negb (stack =? 0) then
     kassert (stack <? tf) "tf > curthread->t_stack" ;;
     kassert (tf <? u32 (stack + STACK_SIZE)) "tf < curthread->t_stack + STACK_SIZE"
   else mret tt) ;;
  if code =? EX_IRQ then trap_irq tf f
  else
    spl ← on_cpu splhigh;
    on_cpu (splx spl) ;;
    if code =? EX_SYS then
      spl_is_low ;;
      f ← syscall ts f;
      trap_done tf f
    else trap_fault tf code iskern f.

(** asm_usermode does not return: the frame it loads is the result. *)
Definition mips_usermode (tf : Z) (f : trapframe) : T trapframe :=
  on_cpu spl0 ;;
  cpu_irqoff ;;
  set_tables ;;
  check_stack tf ;;
  mret f.

Definition enter_new_process (tf argc argv env stack entry : Z) : T trapframe :=
  mips_usermode tf (user_frame (Z.lor (Z.lor CST_IRQMASK CST_IEp) CST_KUp) entry (u32 argc) argv env stack).

End trap.
End Trap.
