(* ===== verification/TrapProps.v ===== *)
(** * What a trap does to the interrupted program

    A trap that returns leaves the thread's interrupt state and every register the
    cause does not name as they were; a page fault is resolved exactly as vm_fault
    says; the system calls follow the register convention; write() touches the user's
    buffer without protection, time() with it. *)

From stdpp Require Import base list gmap numbers strings.
From Stdlib Require Import ZArith Lia.
From S2P Require Import Prelude CopyInOut Uio Vnode VfsList VfsPath Spinlock Segments Tlb PageTable VmState Swap AddrSpace LoadElf VmFault Machine FaultProps VfsAdd Lamebus LamebusProps Trap.
Import CopyInOut Vnode Spinlock Segments Tlb PageTable VmState LoadElf VmFault Machine FaultProps Lamebus Trap.

#[local] Open Scope Z_scope.

Module TrapProps.

Section props.
Context {FS : Type} {fops : FileOps FS} {uio : UserIO FS}.
Context {W : Type} `{!Kernel W, !FileSystem W}.
Context {H : Type} `{!Hw H} `{!PhysIO H} `{!Scheduler FS W H}.
Context (irqfunc : Z → Z → M (bus H) unit).
Context (rtc_gettime : Z → Z * Z).
Context (copyfail : Z) (fuel : nat).
Implicit Types (s : machine FS W H) (f : trapframe).

Abbreviation trap := (mips_trap irqfunc rtc_gettime copyfail fuel).
Abbreviation call := (syscall rtc_gettime fuel).

(** ** What stays the same *)

(** The thread, its stack, its interrupt state, and the size of the two tables. *)
Definition own s : Z * Z * bool * Spinlock.cpu * (nat * nat) :=
  (curthread s, t_stack s, t_in_interrupt s, m_cpu s, (length (cputhreads s), length (cpustacks s))).

(** [m], when it returns, has kept them. *)
Definition stays {A} (m : M (machine FS W H) A) : Prop :=
  ∀ s, wlp m (λ _ s', own s' = own s) (λ _, True) s.

(** What the scheduler promises a thread whose trap calls it: it comes back to the
    thread as it was, perhaps on another CPU. *)
Class SchedulerLaws : Prop := {
  hardclock_stays : stays hardclock;
  ipi_stays : stays interprocessor_interrupt
}.

Lemma stays_bind {A B} (m : M (machine FS W H) A) (k : A → M (machine FS W H) B) :
  stays m → (∀ a, stays (k a)) → stays (m ≫= k).
Proof.
  intros Hm Hk s. apply wlp_bind. eapply wlp_mono; [| done | apply Hm].
  simpl. intros a s' <-. apply Hk.
Qed.
Lemma stays_ret {A} (a : A) : stays (mret a).
Proof. done. Qed.
Lemma stays_gets {A} (g : machine FS W H → A) : stays (gets g).
Proof. done. Qed.
Lemma stays_panic {A} w : stays (panic w : M _ A).
Proof. done. Qed.
Lemma stays_nofuel {A} : stays (nofuel : M _ A).
Proof. done. Qed.
Lemma stays_kassert b w : stays (kassert b w).
Proof. by destruct b. Qed.
Lemma stays_modify g : (∀ s, own (g s) = own s) → stays (modify g).
Proof. intros Hg s. apply Hg. Qed.
Lemma stays_zoom {T A} (get : machine FS W H → T) set (m : M T A) :
  (∀ t s, own (set t s) = own s) → stays (zoom get set m).
Proof. intros Hs s. unfold wlp, zoom. destruct (m (get s)); done || apply Hs. Qed.
Lemma never_stays {A} (m : M (machine FS W H) A) :
  (∀ s, wlp m (λ _ _, False) (λ _, True) s) → stays m.
Proof. intros Hm s. eapply wlp_mono; [| done | apply Hm]. done. Qed.

Lemma stays_k {A} (m : M (kstate FS) A) : stays (on_k m).
Proof. by apply stays_zoom. Qed.
Lemma stays_bus {A} (m : M (bus H) A) : stays (on_bus m).
Proof. by apply stays_zoom. Qed.
Lemma stays_user {A} (m : M cstate A) : stays (on_user m).
Proof. by apply stays_zoom. Qed.

Create HintDb stays discriminated.
Hint Resolve stays_ret stays_gets stays_panic stays_nofuel stays_kassert stays_k stays_bus stays_user : stays.
Ltac stays_step :=
  match goal with
  | |- stays (mbind _ _) => apply stays_bind; [| intros ?]
  | |- stays (modify _) => apply stays_modify; done
  | |- stays (if ?b then _ else _) => destruct b
  | |- stays (match ?x with _ => _ end) => destruct x
  end.
Ltac stays_auto := repeat (stays_step || solve [auto with stays]).

Lemma stays_low : stays spl_is_low.
Proof. unfold spl_is_low, Trap.t_curspl, Trap.t_iplhigh_count. stays_auto. Qed.

Lemma stays_reboot code : stays (sys_reboot code).
Proof.
  unfold sys_reboot. destruct (negb _); [stays_auto |]. apply never_stays. intros s.
  apply wlp_bind. unfold wlp at 1. destruct (shutdown s); try done.
  apply wlp_bind. unfold wlp at 1. match goal with |- match ?o with _ => _ end => by destruct o end.
Qed.

Lemma stays_load n : ∀ a, stays (load_byte fuel n a).
Proof. induction n as [|n IH]; intros a; cbn [load_byte]; unfold phys_byte; stays_auto. Qed.

Lemma stays_write n : ∀ a, stays (write_loop fuel n a).
Proof. induction n as [|n IH]; intros a; cbn [write_loop]; repeat (stays_step || solve [auto using stays_load with stays]). Qed.

Lemma stays_time ts a b : stays (sys___time rtc_gettime ts a b).
Proof. unfold sys___time, gettime. stays_auto. Qed.

Lemma stays_dispatch ts callno f : stays (dispatch rtc_gettime fuel ts callno f).
Proof.
  unfold dispatch.
  repeat (stays_step || solve [auto using stays_reboot, stays_time, stays_write with stays]).
Qed.

Lemma stays_interrupt `{!SchedulerLaws} cause : stays (mainbus_interrupt irqfunc cause).
Proof.
  unfold mainbus_interrupt, Trap.t_curspl, mips_timer_set.
  repeat (stays_step || solve [auto using hardclock_stays, ipi_stays with stays]).
Qed.

(** ** The frame a trap returns to *)

(** What a trap of this cause may do to the frame. *)
Definition resumes f f' : Prop :=
  f' = f ∨
  trap_code f = EX_SYS ∧ (∃ v0 a3, fits 32 v0 ∧ (a3 = 0 ∨ a3 = 1) ∧ f' = with_result v0 a3 (u32 (tf_epc f + 4)) f) ∨
  from_kernel f = true ∧ f' = with_epc copyfail f.

(** The thread [s'] goes on as the one that was in [s]: same thread and stack, same
    interrupt level, interrupts off on the processor, and the tables lead the next
    trap from user mode to this thread's stack. *)
Definition back s s' : Prop :=
  curthread s' = curthread s ∧ t_stack s' = t_stack s ∧ t_in_interrupt s' = t_in_interrupt s ∧
  Spinlock.t_curspl (m_cpu s') = Spinlock.t_curspl (m_cpu s) ∧
  Spinlock.t_iplhigh_count (m_cpu s') = Spinlock.t_iplhigh_count (m_cpu s) ∧
  irqs_on (m_cpu s') = false ∧
  (t_stack s ≠ 0 → cputhreads s' !! c_number s' = Some (curthread s) ∧
                   cpustacks s' !! c_number s' = Some (u32 (t_stack s + STACK_SIZE))).

Lemma done2_wlp tf f s :
  length (cputhreads s) = length (cpustacks s) → irqs_on (m_cpu s) = false →
  wlp (trap_done2 tf f) (λ f' s', f' = f ∧ back s s') (λ _, True) s.
Proof.
  intros Hlen Hirq. unfold trap_done2. wsteps. destruct (Z.eqb_spec (t_stack s) 0) as [Hz | Hz].
  - wsteps. split; [done |]. repeat split; naive_solver.
  - unfold set_tables, check_stack. wsteps. cbn in *. split; [done |].
    repeat split; cbn; try done.
    all: rewrite ?list_lookup_insert_eq; try done.
    all: match goal with E : <[_ := _]> _ !! _ = Some _ |- _ =>
           apply lookup_lt_Some in E; rewrite length_insert in E end; congruence.
Qed.

Lemma done_wlp tf f s :
  length (cputhreads s) = length (cpustacks s) →
  wlp (trap_done tf f) (λ f' s', f' = f ∧ back s s') (λ _, True) s.
Proof.
  intros Hlen. unfold trap_done, cpu_irqoff, on_cpu. wsteps.
  unfold wlp at 1. cbn.
  eapply wlp_mono; [| done | by apply (done2_wlp tf f (with_cpu (with_irqs false (m_cpu s)) s))].
  intros f' s' [Hf Hb]. split; [done | exact Hb].
Qed.

Lemma back_own s s1 s' : own s1 = own s → back s1 s' → back s s'.
Proof. unfold own, back. intros [= -> -> -> -> _ _]. done. Qed.

Lemma fatal_wlp tf code f s :
  length (cputhreads s) = length (cpustacks s) →
  wlp (trap_fatal copyfail tf code (from_kernel f) f) (λ f' s', resumes f f' ∧ back s s') (λ _, True) s.
Proof.
  intros Hlen. unfold trap_fatal, kill_curthread. destruct (from_kernel f) eqn:Hk; simpl.
  - wsteps. destruct (CopyInOut.tm_badfaultfunc _); [| done].
    eapply wlp_mono; [| done | by apply done_wlp]. intros f' s' [-> Hb]. split; [| done]. by right; right.
  - wsteps. destruct (_ || _); wsteps.
Qed.

Lemma own_len s s' : own s' = own s → length (cputhreads s) = length (cpustacks s) →
  length (cputhreads s') = length (cpustacks s').
Proof. unfold own. by intros [= _ _ _ _ -> ->]. Qed.

Lemma fault_wlp tf code f s :
  length (cputhreads s) = length (cpustacks s) →
  wlp (trap_fault copyfail fuel tf code (from_kernel f) f) (λ f' s', resumes f f' ∧ back s s') (λ _, True) s.
Proof.
  intros Hlen. unfold trap_fault. destruct (_ || _ || _).
  - apply wlp_bind. eapply wlp_mono; [| done | apply stays_k]. simpl. intros r s1 Hown.
    pose proof (own_len _ _ Hown Hlen).
    destruct (r =? 0).
    + eapply wlp_mono; [| done | by apply done_wlp]. intros f' s' [-> Hb].
      split; [by left | by eapply back_own].
    + eapply wlp_mono; [| done | by apply fatal_wlp]. intros f' s' [Hr Hb].
      split; [done | by eapply back_own].
  - destruct (_ || _); [done | by apply fatal_wlp].
Qed.

Lemma low_wlp s :
  wlp spl_is_low (λ _ s', s' = s ∧ Spinlock.t_curspl (m_cpu s) = 0 ∧
                          Spinlock.t_iplhigh_count (m_cpu s) = 0) (λ _, True) s.
Proof. unfold spl_is_low, Trap.t_curspl, Trap.t_iplhigh_count. wsteps. zbool. done. Qed.

Lemma syscall_wlp ts f s :
  wlp (call ts f) (λ f' s', (∃ v0 a3, fits 32 v0 ∧ (a3 = 0 ∨ a3 = 1) ∧
    f' = with_result v0 a3 (u32 (tf_epc f + 4)) f) ∧ own s' = own s) (λ _, True) s.
Proof.
  unfold syscall. wsteps. eapply wlp_mono; [| done | apply low_wlp]. simpl. intros _ s' [-> _].
  wsteps. eapply wlp_mono; [| done | apply stays_dispatch]. simpl. intros [err retval] s1 Hown.
  wsteps. eapply wlp_mono; [| done | apply low_wlp]. simpl. intros _ s' [-> _].
  wsteps. split; [| done]. destruct (c_bool err); eexists _, _;
    (split; [apply u32_fits |]); eauto.
Qed.

Lemma irq_wlp `{!SchedulerLaws} tf f s :
  length (cputhreads s) = length (cpustacks s) → irqs_on (m_cpu s) = false →
  wlp (trap_irq irqfunc tf f) (λ f' s', f' = f ∧ back s s') (λ _, True) s.
Proof.
  intros Hlen Hirq. unfold trap_irq, Trap.t_curspl, Trap.t_iplhigh_count. wsteps. cbn.
  destruct (Z.eqb_spec (Spinlock.t_curspl (m_cpu s)) 0) as [Hz | Hz].
  - wsteps. eapply wlp_mono; [| done | apply low_wlp]. simpl. intros _ s' (-> & _ & Hn).
    wsteps. unfold on_cpu at 1, wlp at 1. cbn. wsteps.
    eapply wlp_mono; [| done | by apply stays_interrupt]. simpl. intros _ s1 Hown.
    wsteps. unfold on_cpu, wlp at 1. cbn. wsteps.
    eapply wlp_mono; [| done | apply done2_wlp].
    + intros f' s' [-> Hb]. split; [done |]. unfold own in Hown. cbn in Hown.
      injection Hown as E1 E2 E3 E4 E5 E6. unfold back in *. cbn in *.
      rewrite E1, E2 in Hb. rewrite E4 in Hb. cbn in Hb. rewrite Hz, Hn in *.
      destruct Hb as (? & ? & ? & ? & ? & ? & ?). repeat split; try done; try congruence; naive_solver.
    + cbn. unfold own in Hown. cbn in Hown. congruence.
    + cbn. unfold own in Hown. cbn in Hown. injection Hown as E1 E2 E3 E4 E5 E6. by rewrite E4.
  - wsteps. eapply wlp_mono; [| done | by apply stays_interrupt]. simpl. intros _ s1 Hown.
    wsteps. unfold own in Hown. cbn in Hown. injection Hown as E1 E2 E3 E4 E5 E6.
    eapply wlp_mono; [| done | apply done2_wlp]; cbn; [| congruence | by rewrite E4].
    intros f' s' [-> Hb]. split; [done |]. unfold back in *. cbn in *.
    rewrite E1, E2, E4 in Hb. done.
Qed.

Lemma resync_wlp s :
  wlp (on_cpu splhigh ≫= λ spl, on_cpu (splx spl))
    (λ _ s', ∃ c, s' = with_cpu c s ∧ Spinlock.t_curspl c = Spinlock.t_curspl (m_cpu s) ∧
       Spinlock.t_iplhigh_count c = Spinlock.t_iplhigh_count (m_cpu s)) (λ _, True) s.
Proof.
  unfold on_cpu, wlp, zoom, mbind, M_bind, splhigh.
  destruct s as [k v b [ex l spl n irq] u cur st ii cn ct cs tm co cl]. cbn -[splx].
  unfold splx, splraise, spllower, mbind, M_bind, gets, modify, kassert, mret, M_ret, panic, id. cbn.
  repeat (case_if; zbool; cbn in *; subst; try done; try (eexists; split; [reflexivity | cbn; lia])).
Qed.

(** The frame and the thread a trap comes back to. *)
Lemma trap_resumes `{!SchedulerLaws} tf ts f s f' s' :
  length (cputhreads s) = length (cpustacks s) → irqs_on (m_cpu s) = false →
  trap tf ts f s = Done f' s' → resumes f f' ∧ back s s'.
Proof.
  intros Hlen Hirq E. eapply (wlp_done _ (λ f' s', resumes f f' ∧ back s s') (λ _, True)); [exact E |].
  clear E f' s'. unfold mips_trap. wsteps.
  eapply wlp_mono with (Q := λ _ s', s' = s) (X := λ _, True); [| done |].
  2: { destruct (negb _); wsteps; done. }
  simpl. intros _ ? ->.
  destruct (Z.eqb_spec (trap_code f) EX_IRQ) as [Hc | Hc].
  { eapply wlp_mono; [| done | by apply irq_wlp]. intros f1 s1 [-> Hb]. split; [by left | done]. }
  pose proof (resync_wlp s) as Hre. apply wlp_bind.
  unfold wlp at 1. unfold wlp, mbind, M_bind in Hre.
  destruct (on_cpu splhigh s) as [spl s1 | | |]; [| done..].
  apply wlp_bind. unfold wlp at 1. destruct (on_cpu (splx spl) s1) as [u s2 | | |]; [| done..].
  destruct Hre as (c & -> & Ec & En).
  assert (∀ s', back (with_cpu c s) s' → back s s') as Hback.
  { unfold back. cbn. rewrite Ec, En. done. }
  destruct (Z.eqb_spec (trap_code f) EX_SYS) as [Hs | Hs].
  - apply wlp_bind. eapply wlp_mono; [| done | apply low_wlp]. simpl. intros _ ? [-> _].
    wsteps. eapply wlp_mono; [| done | apply syscall_wlp]. simpl. intros f1 s3 [Hf1 Hown].
    eapply wlp_mono; [| done | apply done_wlp; exact (own_len _ _ Hown Hlen)].
    intros f2 s4 [-> Hb]. split; [by right; left | by eapply Hback, back_own].
  - eapply wlp_mono; [| done | by apply fault_wlp]. intros f1 s3 [Hr Hb]. split; [done | by apply Hback].
Qed.

(** C7: A trap that returns gives the thread back as it was: same thread, stack and
    interrupt level, interrupts off on the processor for the return, the tables pointing
    the next trap at this thread's own stack; and the frame it returns to is the one
    it came with, except that a system call stores v0 and a3 (0 or 1) and steps over the
    instruction, and a failed kernel access resumes in copyfail. *)
Theorem trap_transparent `{!SchedulerLaws} tf ts f s f' s' :
  length (cputhreads s) = length (cpustacks s) → irqs_on (m_cpu s) = false →
  trap tf ts f s = Done f' s' → resumes f f' ∧ back s s'.
Proof. apply trap_resumes. Qed.

(** ** Exact results *)

(** A thread with a stack of its own, interrupts enabled in software (as they are in
    user mode and in most kernel code), and the frame on that stack. *)
Record ready s (tf : Z) : Prop := {
  rd_cpu : ∃ n irq, m_cpu s = mkCpu true n 0 0 irq;
  rd_cur : curthread s ≠ 0;
  rd_stack : 0 < t_stack s ∧ t_stack s mod STACK_SIZE = 0 ∧ t_stack s + STACK_SIZE < 2 ^ 32;
  rd_tf : t_stack s < tf < t_stack s + STACK_SIZE;
  rd_number : (c_number s < length (cpustacks s))%nat
}.

(** After splhigh and splx, and on the way back. *)
Definition lowered s := with_cpu (with_irqs true (m_cpu s)) s.
Definition returned s :=
  with_tables (<[c_number s := curthread s]> (cputhreads s))
    (<[c_number s := t_stack s + STACK_SIZE]> (cpustacks s)) (with_cpu (with_irqs false (m_cpu s)) s).

Lemma done_run tf f s : ready s tf → trap_done tf f s = Done f (returned s).
Proof.
  intros [(n & irq & Hcpu) Hcur (Hs0 & Hs1 & Hs2) Htf Hn].
  unfold trap_done, trap_done2, cpu_irqoff, on_cpu, zoom, set_tables, check_stack, mbind, M_bind, modify,
    gets, deref.
  cbn. rewrite (proj2 (Z.eqb_neq (t_stack s) 0)) by lia. cbn.
  rewrite list_lookup_insert_eq by done.
  unfold STACK_SIZE in *. rewrite (u32_small (t_stack s + 4096)) by lia.
  rewrite (u32_small (t_stack s + 4096 - 1)) by lia.
  replace (SAME_STACK (t_stack s + 4096 - 1) tf) with true; [done |].
  symmetry. unfold SAME_STACK. apply Z.eqb_eq. change STACK_MASK with PAGE_FRAME.
  rewrite !land_PAGE_FRAME by lia.
  unfold PAGE_SIZE.
  assert (∀ o, 0 <= o < 4096 → (t_stack s + o) mod 4096 = o) as Hm.
  { intros o Ho. rewrite <- Z.add_mod_idemp_l, Hs1 by done. by apply Z.mod_small. }
  replace (t_stack s + 4096 - 1) with (t_stack s + 4095) by lia.
  replace tf with (t_stack s + (tf - t_stack s)) by lia. rewrite !Hm by lia. lia.
Qed.

Lemma ready_lowered s tf : ready s tf → ready (lowered s) tf.
Proof. intros [(n & irq & E) ? ? ? ?]. split; try done. exists n, true. cbn. by rewrite E. Qed.

Lemma ready_k k s tf : ready s tf → ready (with_k k s) tf.
Proof. by intros []. Qed.

(** The common entry of the traps other than interrupts. *)
Lemma trap_enter_run tf ts f s :
  ready s tf → trap_code f ≠ EX_IRQ → trap_code f < NTRAPCODES →
  trap tf ts f s =
    (if trap_code f =? EX_SYS then
       f ← call ts f; trap_done tf f
     else trap_fault copyfail fuel tf (trap_code f) (from_kernel f) f) (lowered s).
Proof.
  intros Hr Hc Hn. pose proof (rd_cpu s tf Hr) as (n & irq & Hcpu).
  destruct Hr as [_ Hcur (Hs0 & Hs1 & Hs2) Htf _].
  unfold mips_trap, mbind at 1, M_bind. apply Z.ltb_lt in Hn. rewrite Hn. cbn [kassert mret M_ret].
  unfold mbind at 1, M_bind, gets. rewrite (proj2 (Z.eqb_neq (t_stack s) 0)) by lia. cbn [negb].
  unfold mbind at 1, M_bind. unfold mbind at 1, M_bind.
  rewrite (proj2 (Z.ltb_lt (t_stack s) tf)) by lia. cbn [kassert mret M_ret].
  rewrite (proj2 (Z.ltb_lt tf _)) by (unfold STACK_SIZE in *; rewrite u32_small; lia).
  cbn [kassert mret M_ret]. rewrite (proj2 (Z.eqb_neq _ _) Hc).
  unfold mbind at 1, M_bind, on_cpu at 1, zoom. rewrite Hcpu.
  unfold splhigh. rewrite splx_eq by auto. cbn.
  unfold mbind at 1, M_bind, on_cpu at 1, zoom. cbn [m_cpu with_cpu].
  rewrite splx_eq by auto. cbn.
  match goal with |- _ (with_cpu ?c ?s1) = _ =>
    replace (with_cpu c s1) with (lowered s) by (unfold lowered; by rewrite Hcpu) end.
  destruct (trap_code f =? EX_SYS); [| done].
  unfold mbind at 1, M_bind, spl_is_low, Trap.t_curspl, Trap.t_iplhigh_count, gets, mbind, M_bind. cbn.
  rewrite Hcpu. done.
Qed.

(** C8: A page fault returns to the faulting instruction, with every register
    unchanged, exactly when vm_fault resolves it.  When vm_fault fails, a fault from
    user mode panics, and a fault from the kernel resumes in copyfail if a copy function
    has installed it and panics otherwise.  When vm_fault ends the process or the kernel,
    so does the trap. *)
Theorem trap_fault_exact tf ts f s type :
  ready s tf →
  (trap_code f, type) ∈ [(EX_MOD, VM_FAULT_READONLY); (EX_TLBL, VM_FAULT_READ); (EX_TLBS, VM_FAULT_WRITE)] →
  trap tf ts f s =
    match vm_fault fuel type (tf_vaddr f) (m_k s) with
    | Done r k =>
        if r =? 0 then Done f (returned (with_k k (lowered s)))
        else if from_kernel f then
          if CopyInOut.tm_badfaultfunc (m_user s)
          then Done (with_epc copyfail f) (returned (with_k k (lowered s)))
          else Panic "I can't handle this... I think I'll just die now..."
        else Panic "I don't know how to handle this"
    | Exited k => Exited (with_k k (lowered s))
    | Panic w => Panic w
    | NoFuel => NoFuel
    end.
Proof.
  intros Hr Hc. rewrite trap_enter_run; [| done |..].
  2-3: rewrite !elem_of_cons in Hc; destruct Hc as [[= -> _] | [[= -> _] | [[= -> _] | []%not_elem_of_nil]]]; done.
  assert ((trap_code f =? EX_SYS) = false ∧
    ∀ iskern, trap_fault copyfail fuel tf (trap_code f) iskern f =
    (r ← on_k (vm_fault fuel type (tf_vaddr f));
     if r =? 0 then trap_done tf f else trap_fatal copyfail tf (trap_code f) iskern f)) as [-> ->].
  { rewrite !elem_of_cons in Hc. destruct Hc as [[= -> ->] | [[= -> ->] | [[= -> ->] | []%not_elem_of_nil]]]; done. }
  unfold mbind, M_bind, on_k, zoom. cbn [m_k lowered with_cpu].
  destruct (vm_fault fuel type (tf_vaddr f) (m_k s)) as [r k | k | w |]; [| done..].
  assert (ready (with_k k (lowered s)) tf) as Hr' by (by apply ready_k, ready_lowered).
  destruct (r =? 0); [by apply done_run |].
  unfold trap_fatal. destruct (from_kernel f); cbn [negb].
  - unfold mbind, M_bind, gets. cbn [m_user with_k lowered with_cpu].
    destruct (CopyInOut.tm_badfaultfunc _); [| done]. by apply done_run.
  - unfold kill_curthread. rewrite !elem_of_cons in Hc.
    destruct Hc as [[= -> _] | [[= -> _] | [[= -> _] | []%not_elem_of_nil]]]; done.
Qed.

(** ** System calls *)

Definition low s : Prop :=
  Spinlock.t_curspl (m_cpu s) = 0 ∧ Spinlock.t_iplhigh_count (m_cpu s) = 0.

Lemma rd_low s tf : ready s tf → low s.
Proof. intros [(n & irq & E) _ _ _ _]. unfold low. by rewrite E. Qed.

Lemma ready_console x s tf : ready s tf → ready (with_console x s) tf.
Proof. by intros []. Qed.

Lemma low_run s : low s → spl_is_low s = Done tt s.
Proof.
  intros [E1 E2]. unfold spl_is_low, Trap.t_curspl, Trap.t_iplhigh_count, gets, mbind, M_bind.
  by rewrite E1, E2.
Qed.

Lemma syscall_enter ts f s :
  curthread s ≠ 0 → low s →
  call ts f s =
    ('(err, retval) ← dispatch rtc_gettime fuel ts (s32 (tf_v0 f)) f;
     spl_is_low ;;
     mret (if c_bool err then with_result (u32 err) 1 (u32 (tf_epc f + 4)) f
           else with_result (u32 retval) 0 (u32 (tf_epc f + 4)) f)) s.
Proof.
  intros Hc Hl. unfold syscall, gets, mbind, M_bind. rewrite (proj2 (Z.eqb_neq _ _) Hc).
  cbn [negb kassert mret M_ret]. by rewrite (low_run s Hl).
Qed.

(** The register convention: an error code with a3 = 1, a value with a3 = 0, and the next
    instruction. *)
Lemma syscall_run ts f s err retval s1 :
  curthread s ≠ 0 → low s → dispatch rtc_gettime fuel ts (s32 (tf_v0 f)) f s = Done (err, retval) s1 →
  low s1 →
  call ts f s = Done (if c_bool err then with_result (u32 err) 1 (u32 (tf_epc f + 4)) f
                      else with_result (u32 retval) 0 (u32 (tf_epc f + 4)) f) s1.
Proof.
  intros Hc Hl E Hl1. rewrite syscall_enter by done. unfold mbind, M_bind. by rewrite E, (low_run s1 Hl1).
Qed.

Lemma syscall_panic ts f s w :
  curthread s ≠ 0 → low s → dispatch rtc_gettime fuel ts (s32 (tf_v0 f)) f s = Panic w →
  call ts f s = Panic w.
Proof. intros Hc Hl E. rewrite syscall_enter by done. unfold mbind, M_bind. by rewrite E. Qed.


(** The memory the running process [p] finds in RAM without the help of a disk: a byte at
    a direct-mapped address, or of a page above page 0 that [p] has in memory. *)
Definition byte_at (k : kstate FS) (p : proc) (a : Z) : option Z :=
  if in_direct a then
    if a mod 0x20000000 <? ram_size k then Some (ram_byte k (a mod 0x20000000)) else None
  else if (PAGE_SIZE <=? a) && (a <? MIPS_KSEG0) then
    match first_index (pt_matches (a / PAGE_SIZE) (p_id p)) (main_PG (k_pt k)) with
    | Some n => Some (ram_byte k (Z.of_nat n * PAGE_SIZE + a mod PAGE_SIZE))
    | None => None
    end
  else None.

(** Addresses at which nothing can be found: there is no RAM and nothing on the bus
    answers; or no process has a page of this number, and the address is in neither
    segment of [p]. *)
Definition wild (k : kstate FS) (p : proc) (a : Z) : Prop :=
  if in_direct a then
    ram_size k <= a mod 0x20000000 ∧ ∀ b, ∃ b', phys_load (H := H) (a mod 0x20000000) b = Done None b'
  else
    first_index (λ e, Valid e && (page_number e =? a / PAGE_SIZE)) (main_PG (k_pt k)) = None ∧
    ∃ x, addrspaces (k_proc k) !! p_addrspace p = Some x ∧
      is_codeSegment a x = false ∧ is_dataSegment a x = false.

(** The running process, and a TLB that agrees with the page table about its pages. *)
Definition agrees (k : kstate FS) (p : proc) (t : tlb_state) : Prop :=
  tlb_ok t ∧ ∀ vp lo, translate t vp = Some lo →
    ∃ n, first_index (pt_matches (vp / PAGE_SIZE) (p_id p)) (main_PG (k_pt k)) = Some n ∧ Z.shiftr lo 12 = Z.of_nat n.
Record in_process (k : kstate FS) (p : proc) : Prop := {
  ip_run : running k p;
  ip_tlb : agrees k p (k_tlb k);
  ip_len : Z.of_nat (length (main_PG (k_pt k))) <= 2 ^ 17;
  ip_frame0 : frame0_kernel (main_PG (k_pt k))
}.

(** Only the TLB and the statistics differ. *)
Definition reloaded (k k' : kstate FS) : Prop := ∃ t st, k' = with_k_tlb t (with_k_stats st k).

Lemma reloaded_refl k : reloaded k k.
Proof. exists (k_tlb k), (k_stats k). by destruct k. Qed.
Lemma reloaded_trans k k1 k2 : reloaded k k1 → reloaded k1 k2 → reloaded k k2.
Proof. intros (t & st & ->) (t' & st' & ->). by exists t', st'. Qed.
Lemma reloaded_byte k k' p a : reloaded k k' → byte_at k' p a = byte_at k p a.
Proof. by intros (t & st & ->). Qed.
Lemma with_k_same s : with_k (m_k s) s = s.
Proof. by destruct s. Qed.

Lemma frame_in_ram (k : kstate FS) (p : proc) vn n a :
  first_index (pt_matches vn (p_id p)) (main_PG (k_pt k)) = Some n →
  Z.of_nat n * PAGE_SIZE + a mod PAGE_SIZE < ram_size k.
Proof.
  intros (e & He & _)%first_index_lookup. apply lookup_lt_Some in He. unfold ram_size.
  pose proof (Z.mod_pos_bound a PAGE_SIZE eq_refl). unfold PAGE_SIZE in *. lia.
Qed.

Lemma phys_byte_ram pa s : pa < ram_size (m_k s) → phys_byte pa s = Done (ram_byte (m_k s) pa) s.
Proof. intros Hp. unfold phys_byte, gets, mbind, M_bind. by rewrite (proj2 (Z.ltb_lt _ _) Hp). Qed.

(** A load finds the byte, with at most one page fault. *)
Lemma load_byte_run n a s p c :
  in_process (m_k s) p → byte_at (m_k s) p a = Some c → fits 32 a →
  ∃ k', load_byte fuel (S n) a s = Done c (with_k k' s) ∧ reloaded (m_k s) k' ∧ in_process k' p.
Proof.
  intros Hp Hb Ha. unfold byte_at in Hb. cbn [load_byte]. destruct (in_direct a) eqn:Hd.
  { destruct (Z.ltb_spec (a mod 0x20000000) (ram_size (m_k s))) as [Hr |]; [| done]. injection Hb as <-.
    exists (m_k s). rewrite phys_byte_ram, with_k_same by done. split; [done |]. split; [apply reloaded_refl | done]. }
  destruct ((PAGE_SIZE <=? a) && (a <? MIPS_KSEG0)) eqn:Hu; [| done]. zbool.
  destruct (first_index _ _) as [m|] eqn:Hm; [| done]. injection Hb as <-.
  assert (Z.land a PAGE_FRAME / PAGE_SIZE = a / PAGE_SIZE) as Hpg by (apply page_of_frame; zlia).
  assert (∀ k' : kstate FS, main_PG (k_pt k') = main_PG (k_pt (m_k s)) →
    Z.of_nat m * PAGE_SIZE + a mod PAGE_SIZE < ram_size k') as Hin.
  { intros k' E. eapply (frame_in_ram k' p). rewrite E. exact Hm. }
  unfold gets, mbind, M_bind. destruct (translate (k_tlb (m_k s)) (Z.land a PAGE_FRAME)) as [lo|] eqn:Et.
  { destruct (proj2 (ip_tlb _ _ Hp) _ _ Et) as (m' & Hm' & ->). rewrite Hpg, Hm in Hm'. injection Hm' as <-.
    exists (m_k s). rewrite phys_byte_ram, with_k_same by (by apply Hin). split; [done |]. split; [apply reloaded_refl | done]. }
  assert (listed (main_PG (k_pt (m_k s))) a) as Hl.
  { destruct (first_index_lookup _ _ _ Hm) as (e & He & Hmt). unfold pt_matches in Hmt. zbool.
    exists e. split; [by eapply list_elem_of_lookup_2 | by split]. }
  destruct (vm_fault_resident fuel VM_FAULT_READ a (m_k s) p m) as (t & e & E & Hok & He & (w & Hw & _) & Ho);
    [by left | by apply Hp | by apply Hp | lia | by apply Hp | by apply Hp | done | done | done |].
  unfold on_k, zoom. rewrite E. set (k' := upd_stats _ _). cbn [Z.eqb].
  assert (load_byte fuel n a (with_k k' s) =
    phys_byte (Z.shiftr (frame_elo (Z.of_nat m) w) 12 * PAGE_SIZE + a mod PAGE_SIZE) (with_k k' s)) as ->.
  { destruct n; cbn [load_byte]; rewrite Hd; unfold gets, mbind, M_bind; cbn [m_k with_k];
      change (k_tlb k') with t; by rewrite Hw. }
  rewrite frame_elo_frame by lia. exists k'. rewrite phys_byte_ram by (by apply Hin). split; [done |].
  assert (reloaded (m_k s) k') as Hre by (by exists t, (k_stats k')).
  split; [done |]. destruct Hp as [[] [_ Hag] ? ?]. split; try done. split; [done |].
  intros vp lo Hv. destruct (decide (vp = Z.land a PAGE_FRAME)) as [-> | Hne].
  - change (k_tlb k') with t in Hv. rewrite Hw in Hv. injection Hv as <-. exists m. rewrite Hpg, frame_elo_frame by lia. done.
  - apply (Hag vp lo). by apply Ho.
Qed.

Lemma load_byte_wild n a s p :
  in_process (m_k s) p → wild (m_k s) p a → fits 32 a → CopyInOut.tm_badfaultfunc (m_user s) = false →
  ∃ w, load_byte fuel (S n) a s = Panic w.
Proof.
  intros Hp Hw Ha Hb. unfold wild in Hw. cbn [load_byte]. destruct (in_direct a).
  - destruct Hw as [Hr Hl]. unfold phys_byte, gets, mbind, M_bind. rewrite (proj2 (Z.ltb_ge _ _)) by lia.
    unfold on_bus, zoom. destruct (Hl (m_bus s)) as (b' & ->). by eexists.
  - destruct Hw as (Hs & x & Hx & Hc & Hd). unfold gets, mbind, M_bind.
    destruct (translate (k_tlb (m_k s)) (Z.land a PAGE_FRAME)) as [lo|] eqn:Et.
    { destruct (proj2 (ip_tlb _ _ Hp) _ _ Et) as (m & (e & He & Hm)%first_index_lookup & _).
      rewrite page_of_frame in Hm by done. unfold pt_matches in Hm. apply andb_prop in Hm as [Hm _].
      rewrite first_index_None in Hs. rewrite (Hs e) in Hm by (by eapply list_elem_of_lookup_2). done. }
    unfold on_k, zoom. rewrite (vm_fault_eq _ _ _ _ _ (ip_run _ _ Hp)). set (c := counted (m_k s)).
    pose proof (cur_proc_eq _ _ (counted_running _ _ (ip_run _ _ Hp))) as Hcur. fold c in Hcur.
    cbn -[vm_fault_read]. unfold vm_fault_read. mrun. rewrite Hcur.
    change (main_PG (k_pt c)) with (main_PG (k_pt (m_k s))). unfold pageSearch. rewrite Hs. cbn.
    unfold AddrSpace.get_as, deref. change (addrspaces (k_proc c)) with (addrspaces (k_proc (m_k s))). rewrite Hx, Hc, Hd.
    cbn. rewrite Hb. by eexists.
Qed.

(** The bytes of a buffer that can all be found. *)
Definition bytes_at (k : kstate FS) (p : proc) (a : Z) (n : nat) : option (list Z) :=
  mapM (byte_at k p) (seqZ a (Z.of_nat n)).

Lemma bytes_at_S k p a n :
  bytes_at k p a (S n) = (c ← byte_at k p a; l ← bytes_at k p (a + 1) n; Some (c :: l)).
Proof.
  unfold bytes_at. rewrite (seqZ_cons a) by lia. replace (Z.pred (Z.of_nat (S n))) with (Z.of_nat n) by lia.
  by rewrite <- (Z.add_1_r a).
Qed.

Lemma bytes_at_reloaded k k' p a n : reloaded k k' → bytes_at k' p a n = bytes_at k p a n.
Proof. by intros (t & st & ->). Qed.

Lemma write_run n : ∀ a s p l,
  0 <= a → a + Z.of_nat n <= 2 ^ 32 → in_process (m_k s) p → bytes_at (m_k s) p a n = Some l →
  ∃ k', write_loop fuel n a s = Done tt (with_console (console s ++ l) (with_k k' s)) ∧
    reloaded (m_k s) k' ∧ in_process k' p.
Proof.
  induction n as [|n IH]; intros a s p l Ha Hn Hp Hl.
  { injection Hl as <-. exists (m_k s). rewrite app_nil_r, with_k_same. split; [by destruct s |].
    split; [apply reloaded_refl | done]. }
  rewrite bytes_at_S in Hl. destruct (byte_at (m_k s) p a) as [c|] eqn:Hc; [| done].
  destruct (bytes_at (m_k s) p (a + 1) n) as [l'|] eqn:Hl'; [| done]. injection Hl as <-.
  destruct (load_byte_run fuel a s p c Hp Hc) as (k1 & E1 & Hr1 & Hp1); [unfold fits; lia |].
  cbn [write_loop]. rewrite u32_small by lia. unfold mbind, M_bind. rewrite E1. unfold modify.
  destruct (IH (a + 1) (with_console (console s ++ [c]) (with_k k1 s)) p l') as (k2 & E2 & Hr2 & Hp2);
    [lia | lia | done | cbn [m_k with_console with_k]; by rewrite (bytes_at_reloaded _ _ _ _ _ Hr1) |].
  exists k2. cbn [console with_k]. rewrite E2. cbn [console with_console with_k]. rewrite <- app_assoc. split; [done |].
  split; [by eapply reloaded_trans | done].
Qed.

Lemma write_wild n : ∀ a s p j l,
  0 <= a → a + Z.of_nat n <= 2 ^ 32 → in_process (m_k s) p → CopyInOut.tm_badfaultfunc (m_user s) = false →
  (j < n)%nat → bytes_at (m_k s) p a j = Some l → wild (m_k s) p (a + Z.of_nat j) →
  ∃ w, write_loop fuel n a s = Panic w.
Proof.
  induction n as [|n IH]; intros a s p j l Ha Hn Hp Hb Hj Hl Hw; [lia |].
  cbn [write_loop]. rewrite u32_small by lia. unfold mbind, M_bind. destruct j as [|j].
  { rewrite Z.add_0_r in Hw. destruct (load_byte_wild fuel a s p Hp Hw) as (w & ->); [unfold fits; lia | done | by eexists]. }
  rewrite bytes_at_S in Hl. destruct (byte_at (m_k s) p a) as [c|] eqn:Hc; [| done].
  destruct (bytes_at (m_k s) p (a + 1) j) as [l'|] eqn:Hl'; [| done].
  destruct (load_byte_run fuel a s p c Hp Hc) as (k1 & E1 & Hr1 & Hp1); [unfold fits; lia |].
  rewrite E1. unfold modify. eapply (IH (a + 1) _ p j l'); [lia | lia | done | done | lia | |].
  - cbn [m_k with_console with_k]. by rewrite (bytes_at_reloaded _ _ _ _ _ Hr1).
  - replace (a + 1 + Z.of_nat j) with (a + Z.of_nat (S j)) by lia. cbn [m_k with_console with_k].
    by destruct Hr1 as (t & st & ->).
Qed.

Lemma u32_s32 x : fits 32 x → u32 (s32 x) = x.
Proof.
  intros Hx. unfold s32, u32, wrap, fits in *. rewrite (Z.mod_small x) by lia.
  destruct (_ <? _); [by apply Z.mod_small |].
  symmetry. apply Z.mod_unique with (-1); lia.
Qed.

(** C37: A write system call of a process whose TLB agrees with the page table, whatever
    the file descriptor.  When every byte of the buffer is in RAM, on pages the process
    has in memory above page 0 or at kernel addresses, the a2 bytes at address a1 are
    printed, kernel memory included, and it returns a2 with a3 = 0 at the next
    instruction, all other registers unchanged; page faults on the way change nothing but
    the TLB and the statistics of the VM system.  When the bytes before some byte are there
    and nothing can be found at its address (no process has the page and it is in no
    segment, or no RAM and no device is there), the kernel panics instead of returning an
    error. *)
Theorem trap_write_exact tf ts f s p :
  ready s tf → trap_code f = EX_SYS → tf_v0 f = SYS_write →
  fits 32 (tf_a1 f) → fits 32 (tf_a2 f) → tf_a1 f + tf_a2 f <= 2 ^ 32 →
  CopyInOut.tm_badfaultfunc (m_user s) = false → in_process (m_k s) p →
  (∀ l, bytes_at (m_k s) p (tf_a1 f) (Z.to_nat (tf_a2 f)) = Some l →
     ∃ k', trap tf ts f s =
         Done (with_result (tf_a2 f) 0 (u32 (tf_epc f + 4)) f)
           (returned (with_console (console s ++ l) (with_k k' (lowered s)))) ∧
       reloaded (m_k s) k' ∧ in_process k' p) ∧
  (∀ j l, Z.of_nat j < tf_a2 f → bytes_at (m_k s) p (tf_a1 f) j = Some l →
     wild (m_k s) p (tf_a1 f + Z.of_nat j) → ∃ w, trap tf ts f s = Panic w).
Proof.
  intros Hr Hc Hv H1 H2 H3 Hb Hp. rewrite trap_enter_run by (try done; rewrite Hc; done).
  rewrite Hc. change (EX_SYS =? EX_SYS) with true. cbn iota.
  pose proof (rd_low _ _ (ready_lowered _ _ Hr)) as Hlow.
  pose proof (rd_cur _ _ (ready_lowered _ _ Hr)) as Hcur.
  assert (dispatch rtc_gettime fuel ts (s32 (tf_v0 f)) f (lowered s) =
    (write_loop fuel (Z.to_nat (tf_a2 f)) (tf_a1 f) ;; mret (0, s32 (tf_a2 f))) (lowered s)) as Ed.
  { rewrite Hv. unfold dispatch, STDERR_FILENO. by rewrite orb_true_r. }
  unfold mbind at 1, M_bind in Ed. unfold fits in *. split.
  - intros l Hl. destruct (write_run (Z.to_nat (tf_a2 f)) (tf_a1 f) (lowered s) p l) as (k' & E & Hre & Hp');
      [lia | lia | done | done |].
    rewrite E in Ed. exists k'. split; [| done]. unfold mbind at 1, M_bind.
    assert (low (with_console (console (lowered s) ++ l) (with_k k' (lowered s)))) as Hlow' by done.
    rewrite (syscall_run _ _ _ _ _ _ Hcur Hlow Ed Hlow'). cbn [c_bool negb Z.eqb].
    rewrite u32_s32 by done. apply done_run. by apply ready_console, ready_k, ready_lowered.
  - intros j l Hj Hl Hw. destruct (write_wild (Z.to_nat (tf_a2 f)) (tf_a1 f) (lowered s) p j l) as (w & E);
      try done; try lia. rewrite E in Ed. exists w. unfold mbind at 1, M_bind. by rewrite (syscall_panic _ _ _ _ Hcur Hlow Ed).
Qed.

(** ** time *)

Lemma poke_be_in a n v m i : 0 <= i < n → poke_be a n v m (a + i) = u8 (Z.shiftr v (8 * (n - 1 - i))).
Proof.
  intros Hi. unfold poke_be. rewrite (proj2 (Z.leb_le _ _)), (proj2 (Z.ltb_lt _ _)) by lia. cbn.
  by replace (a + i - a) with i by lia.
Qed.
Lemma poke_be_out a n v m x : ¬ (a <= x < a + n) → poke_be a n v m x = m x.
Proof. intros Hx. unfold poke_be. destruct (Z.leb_spec a x), (Z.ltb_spec x (a + n)); done || lia. Qed.

(** The bytes at [a .. a+n-1] are those of [v], most significant first. *)
Definition holds (m : Z → Z) (a n v : Z) : Prop :=
  ∀ i, 0 <= i < n → m (a + i) = u8 (Z.shiftr v (8 * (n - 1 - i))).

(** The user can be given [n] bytes at [a]. *)
Definition writable (c : cstate) (a n : Z) : Prop :=
  a + n <= USERSPACETOP ∧ accessible c true a n.

(** The kernel's buffer of 12 bytes at [ts] is there, and stores to user memory are
    satisfied or refused. *)
Definition mild (c : cstate) (ts : Z) : Prop :=
  accessible c false ts 12 ∧ ∀ x, x < USERSPACETOP → acc c true x = Satisfied ∨ acc c true x = Refused.

Lemma verdict_mild c l :
  (∀ p, p ∈ l → acc c p.1 p.2 = Satisfied ∨ acc c p.1 p.2 = Refused) → verdict c l = Satisfied ∨ verdict c l = Refused.
Proof.
  induction l as [|[st a] l IH]; intros Hl; [by left |]. cbn [verdict].
  destruct (Hl (st, a) (list_elem_of_here _ _)) as [E | E]; cbn in E; rewrite E; [| by right].
  apply IH. intros p Hp. apply Hl. by right.
Qed.

Lemma copyout_mild (c : cstate) ts src a n :
  mild c ts → ts <= src → src + n <= ts + 12 → USERSPACETOP <= ts → ts + 12 <= 2 ^ 32 → fits 32 a → 0 < n →
  tm_badfaultfunc c = false →
  ∃ r m', copyout src a n c = Done r (mkC m' (acc c) false) ∧
    (∀ x, USERSPACETOP <= x → m' x = mem c x) ∧ (∀ x, ¬ (a <= x < a + n) → m' x = mem c x) ∧
    (r = 0 ∧ writable c a n ∧ copied (mem c) m' a src n ∨ r = EFAULT ∧ ¬ writable c a n).
Proof.
  intros [Hk Hu] H1 H2 H3 H4 Ha Hn Hb.
  destruct (copyout_law c src a n Ha ltac:(lia) ltac:(lia) ltac:(lia) Hb) as (m' & Hm1 & Hm2 & Hr).
  case_decide as Hd.
  2: { destruct Hr as [-> E]. exists EFAULT, (mem c). split; [rewrite E; f_equal; destruct c; cbn in *; by subst |].
       split; [done |]. split; [done |]. right. split; [done |]. intros [? _]. lia. }
  destruct Hr as [E Hc]. pose proof (verdict_ok c a src n) as Hv.
  destruct (verdict_mild c (accesses a src n)) as [Ev | Ev].
  { intros p (i & Hp & Hi)%list_elem_of_bind. apply elem_of_seqZ in Hi. rewrite !elem_of_cons in Hp.
    destruct Hp as [-> | [-> | []%not_elem_of_nil]]; cbn; [left; apply Hk; lia | apply Hu; lia]. }
  - exists 0, m'. rewrite E, Ev. split; [done |]. split; [done |]. split; [done |]. left. split; [done |].
    split; [split; [lia | by apply Hv] | by apply Hc].
  - exists EFAULT, m'. rewrite E, Ev. split; [done |]. split; [done |]. split; [done |]. right. split; [done |].
    intros [_ Hw]. assert (verdict c (accesses a src n) = Satisfied) as Ev'; [| congruence].
    apply Hv. split; [done |]. intros x Hx. apply Hk. lia.
Qed.

Lemma time_run ts a b s rtc sec nsec :
  the_clock s = Some rtc → rtc_gettime rtc = (sec, nsec) → mild (m_user s) ts →
  USERSPACETOP <= ts → ts + 12 <= 2 ^ 32 → fits 32 a → fits 32 b →
  CopyInOut.tm_badfaultfunc (m_user s) = false →
  ∃ r m', sys___time rtc_gettime ts a b s = Done r (with_user (mkC m' (acc (m_user s)) false) s) ∧
    (∀ x, ¬ (a <= x < a + 8) → ¬ (b <= x < b + 4) → ¬ (ts <= x < ts + 12) → m' x = mem (m_user s) x) ∧
    (r = 0 ∧ writable (m_user s) a 8 ∧ writable (m_user s) b 4 ∧ holds m' b 4 nsec ∧
       (a + 8 <= b ∨ b + 4 <= a → holds m' a 8 sec) ∨
     r = EFAULT ∧ ¬ (writable (m_user s) a 8 ∧ writable (m_user s) b 4)).
Proof.
  intros Hck Hg Hmi H1 H2 Ha Hb Hbf. unfold sys___time, gettime, gets, mbind, M_bind. rewrite Hck. cbn.
  rewrite Hg. cbn.
  set (m0 := poke_be (ts + 8) 4 nsec (poke_be ts 8 sec (mem (m_user s)))).
  assert (holds m0 ts 8 sec ∧ holds m0 (ts + 8) 4 nsec) as [Hs0 Hn0].
  { split; intros i Hi; unfold m0; [| by rewrite poke_be_in].
    rewrite poke_be_out by lia. by rewrite poke_be_in. }
  assert (∀ x, ¬ (ts <= x < ts + 12) → m0 x = mem (m_user s) x) as Ho0.
  { intros x Hx. unfold m0. rewrite !poke_be_out by lia. done. }
  unfold on_user, zoom. cbn [m_user with_user].
  destruct (copyout_mild (CopyInOut.with_mem m0 (m_user s)) ts ts a 8) as (r1 & m1 & E1 & Hk1 & Ho1 & C1);
    [done | lia | lia | done | done | done | lia | done |].
  cbn [acc CopyInOut.with_mem mem] in *. rewrite E1.
  destruct C1 as [(-> & Hw1 & Hc1 & _) | (-> & Hno)].
  2: { exists EFAULT, m1. cbn. split; [done |]. split.
       - intros x Hxa Hxb Hxt. rewrite Ho1 by done. by apply Ho0.
       - right. split; [done |]. by intros [Hw _]. }
  cbn [negb Z.eqb m_user with_user].
  destruct (copyout_mild (mkC m1 (acc (m_user s)) false) ts (ts + 8) b 4) as (r2 & m2 & E2 & Hk2 & Ho2 & C2);
    [done | lia | lia | done | done | done | lia | done |].
  cbn [acc mem] in *. rewrite E2.
  destruct C2 as [(-> & Hw2 & Hc2 & _) | (-> & Hno)].
  - exists 0, m2. cbn. split; [done |]. split.
    + intros x Hxa Hxb Hxt. rewrite Ho2, Ho1 by done. by apply Ho0.
    + left. split_and!; [done | done | done | |].
      * intros i Hi. rewrite Hc2, Hk1 by lia. by apply Hn0.
      * intros Hdis i Hi. rewrite Ho2 by lia. rewrite Hc1 by done. by apply Hs0.
  - exists EFAULT, m2. cbn. split; [done |]. split.
    + intros x Hxa Hxb Hxt. rewrite Ho2, Ho1 by done. by apply Ho0.
    + right. split; [done |]. by intros [_ Hw].
Qed.

Lemma ready_user u s tf : ready s tf → ready (with_user u s) tf.
Proof. by intros []. Qed.

(** A time system call stores the seconds (8 bytes, big-endian) at a0 and the
    nanoseconds (4 bytes) at a1 and returns 0, exactly when both regions lie in user space
    and can be stored to; otherwise (no store there ends the process or dies) it returns EFAULT with a3 = 1, and the kernel goes
    on.  Either way nothing but the two regions and the kernel's own buffer has
    changed in memory, and the program continues at the next instruction. *)
Theorem trap_time tf ts f s rtc sec nsec :
  ready s tf → trap_code f = EX_SYS → tf_v0 f = SYS___time →
  the_clock s = Some rtc → rtc_gettime rtc = (sec, nsec) → mild (m_user s) ts →
  USERSPACETOP <= ts → ts + 12 <= 2 ^ 32 → fits 32 (tf_a0 f) → fits 32 (tf_a1 f) →
  CopyInOut.tm_badfaultfunc (m_user s) = false →
  ∃ r m', trap tf ts f s =
      Done (with_result r (if r =? 0 then 0 else 1) (u32 (tf_epc f + 4)) f)
           (returned (with_user (mkC m' (acc (m_user s)) false) (lowered s))) ∧
    (∀ x, ¬ (tf_a0 f <= x < tf_a0 f + 8) → ¬ (tf_a1 f <= x < tf_a1 f + 4) →
          ¬ (ts <= x < ts + 12) → m' x = mem (m_user s) x) ∧
    (r = 0 ∧ writable (m_user s) (tf_a0 f) 8 ∧ writable (m_user s) (tf_a1 f) 4 ∧
       holds m' (tf_a1 f) 4 nsec ∧
       (tf_a0 f + 8 <= tf_a1 f ∨ tf_a1 f + 4 <= tf_a0 f → holds m' (tf_a0 f) 8 sec) ∨
     r = EFAULT ∧ ¬ (writable (m_user s) (tf_a0 f) 8 ∧ writable (m_user s) (tf_a1 f) 4)).
Proof.
  intros Hr Hc Hv Hck Hg Hmi H1 H2 H3 H4 Hb. rewrite trap_enter_run by (try done; rewrite Hc; done).
  rewrite Hc. change (EX_SYS =? EX_SYS) with true. cbn iota.
  pose proof (rd_low _ _ (ready_lowered _ _ Hr)) as Hlow.
  destruct (time_run ts (tf_a0 f) (tf_a1 f) (lowered s) rtc sec nsec) as (r & m' & E & Ho & C); try done.
  exists r, m'. split; [| split; [exact Ho | exact C]].
  assert (dispatch rtc_gettime fuel ts (s32 (tf_v0 f)) f (lowered s) =
    Done (r, 0) (with_user (mkC m' (acc (m_user s)) false) (lowered s))) as Ed.
  { rewrite Hv. transitivity ((err ← sys___time rtc_gettime ts (tf_a0 f) (tf_a1 f); mret (err, 0)) (lowered s));
      [done |].
    unfold mbind, M_bind. by rewrite E. }
  unfold mbind at 1, M_bind.
  rewrite (syscall_run _ _ _ _ _ _ (rd_cur _ _ (ready_lowered _ _ Hr)) Hlow Ed Hlow).
  rewrite done_run by (by apply ready_user, ready_lowered).
  by destruct C as [(-> & _) | (-> & _)].
Qed.

End props.

(** ** A concrete machine *)

Import Machine VfsAdd LamebusProps.

#[export] Instance wit_scheduler : Scheduler pagestore gheap Z := {|
  hardclock := mret tt; interprocessor_interrupt := mret tt; thread_shutdown := mret tt
|}.
#[export] Instance wit_laws : SchedulerLaws (FS := pagestore) (W := gheap) (H := Z).
Proof. by split. Qed.

(** Process 1 of [w_page] on CPU 1, its thread's stack at 0x80007000, with one page of its
    memory to copy to, at 0x10001000. *)
Definition wit_user : cstate :=
  mkC (λ a, a mod 256)
    (λ _ a, if (0x10001000 <=? a) && (a <? 0x10002000) || (MIPS_KSEG0 <=? a) then Satisfied else Refused) false.
(** Nothing but RAM on the bus. *)
#[export] Instance wit_phys : PhysIO Z := {| phys_load := λ _, mret None |}.
Definition wit_machine : machine pagestore gheap Z :=
  mkMachine w_page w_empty (wit_bus 6) (mkCpu true 0 0 0 false) wit_user 0x80006000 0x80007000 false 1
    [0; 0] [0; 0] 0 [] (Some 9).
Definition wit_trap := mips_trap (FS := pagestore) (W := gheap) wit_irqfunc (λ _, (5, 6)) 0x80001111 10.

(** A frame from user mode at 0x400100 with this cause, address and registers. *)
Definition wit_frame (code vaddr v0 a0 a1 a2 : Z) : trapframe :=
  mkTf vaddr 0xff0c (Z.shiftl code 2) 0 0 0 0 v0 0 a0 a1 a2 0 0 0 0 0 0 0 0 0 0 0 0 0 0 0 0 0 0 0 0
    0x7fff0000 0 0x400100.

Lemma wit_ready : ready wit_machine 0x80007f00.
Proof. split; [by eexists _, _ | done | done | done | cbn; lia]. Qed.

Lemma trap_fault_exact_witness :
  ∃ k, wit_trap 0x80007f00 0 (wit_frame 3 0x10001234 0 0 0 0) wit_machine =
    Done (wit_frame 3 0x10001234 0 0 0 0) (returned (with_k k (lowered wit_machine))).
Proof.
  unfold wit_trap.
  rewrite (trap_fault_exact wit_irqfunc (λ _, (5, 6)) 0x80001111 10 0x80007f00 0
    (wit_frame 3 0x10001234 0 0 0 0) wit_machine VM_FAULT_WRITE wit_ready) by (right; right; left).
  change (tf_vaddr _) with 0x10001234. change (m_k wit_machine) with w_page.
  rewrite (after_done (vm_fault 10 VM_FAULT_WRITE 0x10001234 w_page) w_page 0)
    by (vm_compute; reflexivity).
  by eexists.
Defined.

Lemma empty_translate vp : translate empty_tlb vp = None.
Proof.
  apply translate_None. intros i e ->%empty_entries Hv. by rewrite invalid_entry_invalid in Hv.
Qed.

Lemma wit_process : in_process w_page (proc0 1 0x80001200).
Proof.
  split; [apply w_running | | vm_compute; discriminate | intros e; vm_compute; by intros [= <-]].
  rewrite w_tlb. split; [apply empty_tlb_ok |]. intros vp lo. by rewrite empty_translate.
Qed.

(** Four bytes of the process's page, one of kernel memory, and an address in kseg2. *)
Lemma trap_write_exact_witness :
  (∃ k', wit_trap 0x80007f00 0 (wit_frame 8 0 55 1 0x10001008 4) wit_machine =
     Done (with_result 4 0 0x400104 (wit_frame 8 0 55 1 0x10001008 4))
       (returned (with_console [0; 0; 0; 77] (with_k k' (lowered wit_machine))))) ∧
  (∃ k', wit_trap 0x80007f00 0 (wit_frame 8 0 55 1 0x8000a00b 1) wit_machine =
     Done (with_result 1 0 0x400104 (wit_frame 8 0 55 1 0x8000a00b 1))
       (returned (with_console [77] (with_k k' (lowered wit_machine))))) ∧
  (∃ w, wit_trap 0x80007f00 0 (wit_frame 8 0 55 1 0xc0001000 1) wit_machine = Panic w).
Proof.
  unfold wit_trap. split; [| split].
  - destruct (trap_write_exact wit_irqfunc (λ _, (5, 6)) 0x80001111 10 0x80007f00 0
      (wit_frame 8 0 55 1 0x10001008 4) wit_machine (proc0 1 0x80001200) wit_ready) as [Hw _];
      [reflexivity | reflexivity | by vm_compute | by vm_compute | by vm_compute | reflexivity | apply wit_process |].
    destruct (Hw [0; 0; 0; 77]) as (k' & E & _); [vm_compute; reflexivity |]. exists k'. exact E.
  - destruct (trap_write_exact wit_irqfunc (λ _, (5, 6)) 0x80001111 10 0x80007f00 0
      (wit_frame 8 0 55 1 0x8000a00b 1) wit_machine (proc0 1 0x80001200) wit_ready) as [Hw _];
      [reflexivity | reflexivity | by vm_compute | by vm_compute | by vm_compute | reflexivity | apply wit_process |].
    destruct (Hw [77]) as (k' & E & _); [vm_compute; reflexivity |]. exists k'. exact E.
  - destruct (trap_write_exact wit_irqfunc (λ _, (5, 6)) 0x80001111 10 0x80007f00 0
      (wit_frame 8 0 55 1 0xc0001000 1) wit_machine (proc0 1 0x80001200) wit_ready) as [_ Hw];
      [reflexivity | reflexivity | by vm_compute | by vm_compute | by vm_compute | reflexivity | apply wit_process |].
    apply (Hw O []); [by vm_compute | reflexivity |]. split; [vm_compute; reflexivity |].
    eexists. split; [vm_compute; reflexivity |]. split; vm_compute; reflexivity.
Defined.

Lemma trap_time_witness :
  ∃ m', wit_trap 0x80007f00 0x80007e00 (wit_frame 8 0 113 0x10001000 0x10001010 0) wit_machine =
      Done (with_result 0 0 0x400104 (wit_frame 8 0 113 0x10001000 0x10001010 0))
        (returned (with_user (mkC m' (acc wit_user) false) (lowered wit_machine))) ∧
    holds m' 0x10001000 8 5 ∧ holds m' 0x10001010 4 6.
Proof.
  destruct (trap_time wit_irqfunc (λ _, (5, 6)) 0x80001111 10 0x80007f00 0x80007e00
    (wit_frame 8 0 113 0x10001000 0x10001010 0) wit_machine 9 5 6 wit_ready)
    as (r & m' & E & _ & C); [reflexivity | reflexivity | reflexivity | reflexivity | | by vm_compute | by vm_compute
      | by vm_compute | by vm_compute | reflexivity |].
  { split.
    - intros x Hx. cbn. rewrite (proj2 (Z.leb_le MIPS_KSEG0 x)) by zlia. by rewrite orb_true_r.
    - intros x Hx. cbn. destruct (_ || _); [by left | by right]. }
  destruct C as [(-> & _ & _ & Hn & Hs) | (_ & Hno)].
  - exists m'. split; [exact E |]. split; [apply Hs; left; cbn; lia | exact Hn].
  - exfalso. apply Hno. cbn. split; (split; [unfold USERSPACETOP, MIPS_KSEG0; lia |]);
      intros x Hx; cbn; rewrite (proj2 (Z.leb_le 0x10001000 x)), (proj2 (Z.ltb_lt x _)) by lia; done.
Defined.

Lemma trap_transparent_witness :
  ∃ s', wit_trap 0x80007f00 0 (wit_frame 8 0 77 0 0 0) wit_machine =
      Done (with_result 1 1 0x400104 (wit_frame 8 0 77 0 0 0)) s' ∧
    back wit_machine s' ∧ cpustacks s' !! 1%nat = Some 0x80008000.
Proof.
  eexists. split; [reflexivity |].
  edestruct (trap_transparent wit_irqfunc (λ _, (5, 6)) 0x80001111 10 0x80007f00 0
    (wit_frame 8 0 77 0 0 0) wit_machine) as [_ Hb]; [done | done | reflexivity |].
  split; [exact Hb |]. by apply Hb.
Defined.

End TrapProps.
