(* ===== verification/Console.v ===== *)
(** * The console (dev/generic/console.c, dev/generic/beep.c, lib/kgets.c, console_send
      of lib/kprintf.c)

    Characters are their codes.  The device is seen through what it is sent, how many of
    the characters it was given to send it has not reported done, and whether it reports
    them at all.  A thread that sleeps in [P] goes on when an interrupt has given it a
    unit: a sleeping writer when the device reports a character done ([con_wdone]), a
    sleeping reader when the next character of [incoming], the input that has not arrived
    yet, arrives.  When no such interrupt can come the thread sleeps for ever ([NoFuel]). *)

From stdpp Require Import base list numbers strings.
From Stdlib Require Import ZArith Lia.
From S2P Require Import Prelude.

#[local] Open Scope Z_scope.

Module Console.

Definition DELAYBUFSIZE : Z := 1024.
Definition CONSOLE_INPUT_BUFFER_SIZE : Z := 32.
Definition CR : Z := 13.
Definition NL : Z := 10.

Record con := mkCon {
  the_console : bool;                (* config_con has run *)
  delayed_outbuf : list Z;           (* its length is delayed_outbuf_pos *)
  cs_gotchars : list Z;
  cs_gotchars_head : Z;
  cs_gotchars_tail : Z;
  cs_rsem : Z;                       (* the counts of the semaphores *)
  cs_wsem : Z;
  sent : list Z;                     (* what the device was sent *)
  cs_busy : Z;                       (* how many of these it has yet to report done *)
  cs_starts : bool;                  (* the device calls con_start to report *)
  incoming : list Z;
  t_in_interrupt : bool;
  t_curspl : Z;
  t_iplhigh_count : Z;
  c_spinlocks : Z;
  beeps : Z
}.
Abbreviation N := (M con).

Definition with_attached x s :=
  mkCon x (delayed_outbuf s) (cs_gotchars s) (cs_gotchars_head s) (cs_gotchars_tail s)
    (cs_rsem s) (cs_wsem s) (sent s) (cs_busy s) (cs_starts s) (incoming s) (t_in_interrupt
    s) (t_curspl s) (t_iplhigh_count s) (c_spinlocks s) (beeps s).
Definition with_delayed x s :=
  mkCon (the_console s) x (cs_gotchars s) (cs_gotchars_head s) (cs_gotchars_tail s) (cs_rsem
    s) (cs_wsem s) (sent s) (cs_busy s) (cs_starts s) (incoming s) (t_in_interrupt s)
    (t_curspl s) (t_iplhigh_count s) (c_spinlocks s) (beeps s).
Definition with_ring b h t s :=
  mkCon (the_console s) (delayed_outbuf s) b h t (cs_rsem s) (cs_wsem s) (sent s) (cs_busy
    s) (cs_starts s) (incoming s) (t_in_interrupt s) (t_curspl s) (t_iplhigh_count s)
    (c_spinlocks s) (beeps s).
Definition with_rsem x s :=
  mkCon (the_console s) (delayed_outbuf s) (cs_gotchars s) (cs_gotchars_head s)
    (cs_gotchars_tail s) x (cs_wsem s) (sent s) (cs_busy s) (cs_starts s) (incoming s)
    (t_in_interrupt s) (t_curspl s) (t_iplhigh_count s) (c_spinlocks s) (beeps s).
Definition with_wsem x s :=
  mkCon (the_console s) (delayed_outbuf s) (cs_gotchars s) (cs_gotchars_head s)
    (cs_gotchars_tail s) (cs_rsem s) x (sent s) (cs_busy s) (cs_starts s) (incoming s)
    (t_in_interrupt s) (t_curspl s) (t_iplhigh_count s) (c_spinlocks s) (beeps s).
Definition with_sent x s :=
  mkCon (the_console s) (delayed_outbuf s) (cs_gotchars s) (cs_gotchars_head s)
    (cs_gotchars_tail s) (cs_rsem s) (cs_wsem s) x (cs_busy s) (cs_starts s) (incoming s)
    (t_in_interrupt s) (t_curspl s) (t_iplhigh_count s) (c_spinlocks s) (beeps s).
Definition with_incoming x s :=
  mkCon (the_console s) (delayed_outbuf s) (cs_gotchars s) (cs_gotchars_head s)
    (cs_gotchars_tail s) (cs_rsem s) (cs_wsem s) (sent s) (cs_busy s) (cs_starts s) x
    (t_in_interrupt s) (t_curspl s) (t_iplhigh_count s) (c_spinlocks s) (beeps s).
Definition with_beeps x s :=
  mkCon (the_console s) (delayed_outbuf s) (cs_gotchars s) (cs_gotchars_head s)
    (cs_gotchars_tail s) (cs_rsem s) (cs_wsem s) (sent s) (cs_busy s) (cs_starts s)
    (incoming s) (t_in_interrupt s) (t_curspl s) (t_iplhigh_count s) (c_spinlocks s) x.
Definition with_busy x s :=
  mkCon (the_console s) (delayed_outbuf s) (cs_gotchars s) (cs_gotchars_head s)
    (cs_gotchars_tail s) (cs_rsem s) (cs_wsem s) (sent s) x (cs_starts s) (incoming s)
    (t_in_interrupt s) (t_curspl s) (t_iplhigh_count s) (c_spinlocks s) (beeps s).

(** ** Interrupts from the device *)

Definition con_input (ch : Z) : N unit :=
  s ← gets id;
  let nexthead := (cs_gotchars_head s + 1) mod CONSOLE_INPUT_BUFFER_SIZE in
  if nexthead =? cs_gotchars_tail s then mret tt
  else
    modify (with_ring (<[Z.to_nat (cs_gotchars_head s) := u8 ch]> (cs_gotchars s)) nexthead
              (cs_gotchars_tail s)) ;;
    modify (λ s, with_rsem (u32 (cs_rsem s + 1)) s).

Definition con_start : N unit := modify (λ s, with_wsem (u32 (cs_wsem s + 1)) s).

(** The device reports that it has sent a character. *)
Definition con_wdone : N unit := modify (λ s, with_busy (cs_busy s - 1) s) ;; con_start.

(** ** Output *)

Definition putch_delayed (ch : Z) : N unit :=
  s ← gets id;
  kassert (Z.of_nat (length (delayed_outbuf s)) <? DELAYBUFSIZE)
    "delayed_outbuf_pos < sizeof(delayed_outbuf)" ;;
  modify (with_delayed (delayed_outbuf s ++ [u8 ch])).

Definition putch_polled (ch : Z) : N unit := modify (λ s, with_sent (sent s ++ [u8 ch]) s).

(** [P(cs->cs_wsem)]: at 0 the thread sleeps until the device reports a character done. *)
Definition P_wsem : N unit :=
  s ← gets id;
  (if cs_wsem s =? 0 then
     if cs_starts s && (0 <? cs_busy s) then con_wdone else nofuel
   else mret tt) ;;
  modify (λ s, with_wsem (cs_wsem s - 1) s).

Definition putch_intr (ch : Z) : N unit :=
  P_wsem ;;
  modify (λ s, with_busy (cs_busy s + 1) (with_sent (sent s ++ [u8 ch]) s)).

Definition putch (ch : Z) : N unit :=
  s ← gets id;
  if negb (the_console s) then putch_delayed ch
  else if t_in_interrupt s || (0 <? t_curspl s) || (0 <? c_spinlocks s) then putch_polled ch
  else putch_intr ch.

(** kprintf.c: the backend of the printing functions. *)
Fixpoint console_send (data : list Z) : N unit :=
  match data with
  | [] => mret tt
  | c :: r => putch c ;; console_send r
  end.

Definition flush_delay_buf : N unit :=
  buf ← gets delayed_outbuf;
  console_send buf ;;
  modify (with_delayed []).

(** ** Input *)

(** [P(cs->cs_rsem)]: [n] bounds the characters that may arrive in the meantime. *)
Fixpoint P_rsem (n : nat) : N unit :=
  r ← gets cs_rsem;
  if negb (r =? 0) then modify (λ s, with_rsem (cs_rsem s - 1) s)
  else
    match n with
    | O => nofuel
    | S n' =>
        l ← gets incoming;
        match l with
        | [] => nofuel
        | ch :: rest => modify (with_incoming rest) ;; con_input ch ;; P_rsem n'
        end
    end.

Definition take_char : N Z :=
  s ← gets id;
  ret ← deref (λ s, cs_gotchars s !! Z.to_nat (cs_gotchars_tail s)) "cs_gotchars_tail";
  modify (with_ring (cs_gotchars s) (cs_gotchars_head s)
            ((cs_gotchars_tail s + 1) mod CONSOLE_INPUT_BUFFER_SIZE)) ;;
  mret ret.

Definition getch_intr : N Z :=
  n ← gets (λ s, length (incoming s));
  P_rsem n ;;
  take_char.

Definition getch : N Z :=
  s ← gets id;
  kassert (the_console s) "cs != NULL" ;;
  kassert (negb (t_in_interrupt s) && (t_iplhigh_count s =? 0))
    "!curthread->t_in_interrupt && curthread->t_iplhigh_count == 0" ;;
  getch_intr.

(** beep.c, with a beep device. *)
Definition beep : N unit := modify (λ s, with_beeps (beeps s + 1) s).

(** ** Attaching *)

(** The results of the two sem_create and two lock_create calls (0: out of memory), of the
    kmalloc of the device and of vfs_adddev.  The result: the error code and the objects
    destroyed again. *)
Definition config_con (unit_ rsem wsem rlk wlk dev added : Z) : N (Z * list Z) :=
  s ← gets id;
  if 0 <? unit_ then
    kassert (the_console s) "the_console!=NULL" ;; mret (ENODEV, [])
  else
    kassert (negb (the_console s)) "the_console==NULL" ;;
    if rsem =? 0 then mret (ENOMEM, [])
    else if wsem =? 0 then mret (ENOMEM, [rsem])
    else if rlk =? 0 then mret (ENOMEM, [rsem; wsem])
    else if wlk =? 0 then mret (ENOMEM, [rlk; rsem; wsem])
    else
      modify (with_rsem 0) ;;
      modify (with_wsem 1) ;;
      s ← gets id;
      modify (with_ring (cs_gotchars s) 0 0) ;;
      modify (with_attached true) ;;
      flush_delay_buf ;;
      if dev =? 0 then mret (ENOMEM, [])
      else if negb (added =? 0) then mret (added, [dev])
      else mret (0, []).

(** ** The device in the file system *)

(** One byte moved by uiomove, to the caller (the error) or from it (the error and the byte). *)
Class ByteIO (S : Type) := {
  bio_resid : S → Z;
  bio_put : Z → M S Z;
  bio_get : M S (Z * Z)
}.

Section con_io.
Context {S : Type} `{!ByteIO S}.

Definition on_con {A} (m : N A) : M (con * S) A := zoom fst (λ c s, (c, snd s)) m.
Definition on_uio {A} (m : M S A) : M (con * S) A := zoom snd (λ u s, (fst s, u)) m.

(** The loop of con_io; every turn moves a byte or stops. *)
Fixpoint con_io_loop (fuel : nat) (is_read : bool) : M (con * S) Z :=
  match fuel with
  | O => nofuel
  | Datatypes.S fuel' =>
      resid ← gets (λ s, bio_resid (snd s));
      if resid <=? 0 then mret 0
      else if is_read then
        ch ← on_con getch;
        let ch := if ch =? CR then NL else ch in
        result ← on_uio (bio_put ch);
        if negb (result =? 0) then mret result
        else if ch =? NL then mret 0
        else con_io_loop fuel' is_read
      else
        '(result, ch) ← on_uio bio_get;
        if negb (result =? 0) then mret result
        else
          (if ch =? NL then on_con (putch CR) else mret tt) ;;
          on_con (putch ch) ;;
          con_io_loop fuel' is_read
  end.

Definition con_io (is_read : bool) : M (con * S) Z :=
  n ← gets (λ s, Z.to_nat (bio_resid (snd s)));
  con_io_loop (Datatypes.S n) is_read.

Definition con_eachopen (openflags : Z) : M (con * S) Z := mret 0.
Definition con_ioctl (op : Z) : M (con * S) Z := mret EINVAL.
End con_io.

(** ** kgets *)

(** What kgets needs of the terminal. *)
Class Tty (S : Type) := {
  tty_getch : M S Z;
  tty_putch : Z → M S unit;
  tty_beep : M S unit
}.
#[export] Instance con_tty : Tty con := {| tty_getch := getch; tty_putch := putch; tty_beep := beep |}.

Section kgets.
Context {S : Type} `{!Tty S}.

Definition BS : Z := 8.
Definition DEL : Z := 127.
Definition SPACE : Z := 32.

Definition backsp : M S unit := tty_putch BS ;; tty_putch SPACE ;; tty_putch BS.

Fixpoint tty_puts (l : list Z) : M S unit :=
  match l with [] => mret tt | c :: r => tty_putch c ;; tty_puts r end.

(** [buf[i] = c]; a store outside of the buffer is an overrun. *)
Definition store_char (buf : list Z) (i : nat) (c : Z) : M S (list Z) :=
  if Nat.ltb i (length buf) then mret (<[i := c]> buf) else panic "buffer overrun".

(** The characters of a C string. *)
Fixpoint cstring (buf : list Z) : list Z :=
  match buf with [] => [] | c :: r => if c =? 0 then [] else c :: cstring r end.

(** [while (pos > 0 && p(buf[pos-1])) { backsp(); pos--; }] *)
Fixpoint erase_while (p : Z → bool) (buf : list Z) (pos : nat) : M S nat :=
  match pos with
  | O => mret O
  | Datatypes.S pos' =>
      if p (nth pos' buf 0) then backsp ;; erase_while p buf pos' else mret pos
  end.

Fixpoint kgets_loop (fuel : nat) (maxlen : Z) (buf : list Z) (pos : nat) : M S (list Z * nat) :=
  match fuel with
  | O => nofuel
  | Datatypes.S fuel' =>
      ch ← tty_getch;
      if (ch =? NL) || (ch =? CR) then tty_putch NL ;; mret (buf, pos)
      else if (32 <=? ch) && (ch <? 127) && (Z.of_nat pos <? u32 (maxlen - 1)) then
        tty_putch ch ;;
        buf ← store_char buf pos ch;
        kgets_loop fuel' maxlen buf (pos + 1)
      else if ((ch =? BS) || (ch =? DEL)) && Nat.ltb 0 pos then
        backsp ;; kgets_loop fuel' maxlen buf (pos - 1)
      else if ch =? 3 then
        tty_putch 94 ;; tty_putch 67 ;; tty_putch NL ;; mret (buf, O)
      else if ch =? 18 then
        buf ← store_char buf pos 0;
        tty_puts ([94; 82; NL] ++ cstring buf) ;;
        kgets_loop fuel' maxlen buf pos
      else if ch =? 21 then
        pos ← erase_while (λ _, true) buf pos;
        kgets_loop fuel' maxlen buf pos
      else if ch =? 23 then
        pos ← erase_while (λ c, c =? SPACE) buf pos;
        pos ← erase_while (λ c, negb (c =? SPACE)) buf pos;
        kgets_loop fuel' maxlen buf pos
      else
        tty_beep ;; kgets_loop fuel' maxlen buf pos
  end.

(** The buffer afterwards. *)
Definition kgets (fuel : nat) (maxlen : Z) (buf : list Z) : M S (list Z) :=
  '(buf, pos) ← kgets_loop fuel maxlen buf 0;
  store_char buf pos 0.
End kgets.

End Console.
