(* ===== verification/ConsoleProps.v ===== *)
(** * What the console does

    The input ring is a queue of at most 31 characters; output reaches the device in
    the order it was printed, whatever the mode and also from before the console was
    attached; kgets returns the line the keys describe, stays inside its buffer and
    shows on the screen what it will return. *)

From stdpp Require Import base list numbers strings.
From Stdlib Require Import ZArith Lia.
From S2P Require Import Prelude Console.
Import Console.

#[local] Open Scope Z_scope.

Module ConsoleProps.

(** ** The input ring *)

(** A character arrives, or a thread tries to read one. *)
Inductive event := Key (ch : Z) | Read.

(** A read of an empty ring sleeps: the trace then has no result for it. *)
Definition con_event (e : event) : M con (list Z) :=
  match e with
  | Key ch => con_input ch ;; mret []
  | Read =>
      r ← gets cs_rsem;
      if r =? 0 then mret [] else c ← getch; mret [c]
  end.
Fixpoint con_events (l : list event) : M con (list Z) :=
  match l with
  | [] => mret []
  | e :: l' => a ← con_event e; b ← con_events l'; mret (a ++ b)
  end.

(** The specification: a queue that holds 31 characters and drops what does not fit. *)
Definition queue_event (e : event) (q : list Z) : list Z * list Z :=
  match e with
  | Key ch => if Nat.ltb (length q) 31 then (q ++ [u8 ch], []) else (q, [])
  | Read => match q with [] => ([], []) | c :: q' => (q', [c]) end
  end.
Fixpoint queue_events (l : list event) (q : list Z) : list Z * list Z :=
  match l with
  | [] => (q, [])
  | e :: l' => let '(q1, a) := queue_event e q in
               let '(q2, b) := queue_events l' q1 in (q2, a ++ b)
  end.

(** The ring of [s] holds the queue [q], and a thread may read it. *)
Record ring (s : con) (q : list Z) : Prop := {
  rg_len : length (cs_gotchars s) = 32%nat;
  rg_tail : 0 <= cs_gotchars_tail s < 32;
  rg_cap : (length q <= 31)%nat;
  rg_head : cs_gotchars_head s = (cs_gotchars_tail s + Z.of_nat (length q)) mod 32;
  rg_sem : cs_rsem s = Z.of_nat (length q);
  rg_chars : ∀ i c, q !! i = Some c →
    cs_gotchars s !! Z.to_nat ((cs_gotchars_tail s + Z.of_nat i) mod 32) = Some c;
  rg_con : the_console s = true;
  rg_thread : t_in_interrupt s = false ∧ t_iplhigh_count s = 0
}.

Lemma mod32_inj t i j :
  0 <= i < 32 → 0 <= j < 32 → (t + i) mod 32 = (t + j) mod 32 → i = j.
Proof.
  intros Hi Hj E. pose proof (Z.div_mod (t + i) 32). pose proof (Z.div_mod (t + j) 32).
  assert (i - j = 32 * ((t + i) / 32 - (t + j) / 32)) by lia. lia.
Qed.

Lemma ring_key s q ch :
  ring s q → ∃ s', con_event (Key ch) s = Done [] s' ∧ ring s' (queue_event (Key ch) q).1.
Proof.
  intros [Hl Ht Hc Hh Hs Hq Ha Hth]. unfold con_event, con_input, gets, mbind, M_bind, id.
  unfold CONSOLE_INPUT_BUFFER_SIZE. rewrite Hh, Z.add_mod_idemp_l by done.
  rewrite <- Z.add_assoc.
  assert (((cs_gotchars_tail s + (Z.of_nat (length q) + 1)) mod 32 =? cs_gotchars_tail s)
          = negb (Nat.ltb (length q) 31)) as ->.
  { destruct (Nat.ltb_spec (length q) 31) as [Hlt | Hge]; simpl.
    - apply Z.eqb_neq. intros E. rewrite <- (Z.mod_small (cs_gotchars_tail s) 32) in E at 2 by lia.
      rewrite <- (Z.add_0_r (cs_gotchars_tail s)) in E at 2. apply mod32_inj in E; lia.
    - apply Z.eqb_eq. replace (Z.of_nat (length q) + 1) with 32 by lia.
      rewrite <- Z.add_mod_idemp_r, Z_mod_same_full, Z.add_0_r by done. by apply Z.mod_small. }
  unfold queue_event. destruct (Nat.ltb_spec (length q) 31) as [Hlt | Hge]; cbn [negb]; [| by exists s].
  eexists. split; [reflexivity |].
  split; cbn; rewrite ?length_app, ?length_insert; cbn; try done; try lia.
  - rewrite Hs, u32_small; lia.
  - intros i c Hi. apply lookup_snoc_Some in Hi as [[Hi Hqi] | [-> <-]].
    + rewrite list_lookup_insert_ne; [by apply Hq |].
      intros E%Z2Nat.inj; [| by apply Z.mod_pos_bound..]. apply mod32_inj in E; lia.
    + rewrite list_lookup_insert_eq; [done |].
      pose proof (Z.mod_pos_bound (cs_gotchars_tail s + Z.of_nat (length q)) 32). lia.
Qed.

Lemma P_rsem_run n s : cs_rsem s ≠ 0 → P_rsem n s = Done tt (with_rsem (cs_rsem s - 1) s).
Proof.
  intros Hn. apply Z.eqb_neq in Hn.
  destruct n; cbn [P_rsem]; unfold gets, mbind, M_bind; by rewrite Hn.
Qed.

Lemma ring_read s q :
  ring s q → ∃ s', con_event Read s = Done (queue_event Read q).2 s' ∧ ring s' (queue_event Read q).1.
Proof.
  intros Hr. pose proof Hr as [Hl Ht Hc Hh Hs Hq Ha [Hin Hip]].
  unfold con_event, gets, mbind, M_bind. rewrite Hs.
  destruct q as [|c q]; [by exists s |]. rewrite (proj2 (Z.eqb_neq _ 0)) by (simpl; lia).
  assert (getch s = take_char (with_rsem (cs_rsem s - 1) s)) as E.
  { unfold getch, getch_intr, gets, mbind, M_bind, id. cbn. rewrite Ha, Hin, Hip. cbn.
    rewrite P_rsem_run; [done |]. rewrite Hs. done. }
  rewrite E. unfold take_char, deref, gets, mbind, M_bind, id. cbn.
  pose proof (Hq 0%nat c eq_refl) as H0. rewrite Z.add_0_r, Z.mod_small in H0 by lia. rewrite H0. cbn.
  eexists. split; [reflexivity |]. simpl in Hc, Hh, Hs.
  split; cbn; try done; try lia.
  - apply Z.mod_pos_bound. done.
  - rewrite Hh. unfold CONSOLE_INPUT_BUFFER_SIZE. rewrite Z.add_mod_idemp_l by done. f_equal. lia.
  - intros i c' Hi. rewrite <- (Hq (S i) c' Hi). unfold CONSOLE_INPUT_BUFFER_SIZE.
    rewrite Z.add_mod_idemp_l by done. do 3 f_equal. lia.
Qed.

Lemma ring_event s q e :
  ring s q → ∃ s', con_event e s = Done (queue_event e q).2 s' ∧ ring s' (queue_event e q).1.
Proof.
  intros Hr. destruct e as [ch |]; [| by apply ring_read].
  destruct (ring_key s q ch Hr) as (s' & E & Hr'). exists s'. split; [| done].
  rewrite E. unfold queue_event. by destruct (Nat.ltb (length q) 31).
Qed.

(** C24: Whatever the order in which characters arrive and are read, the console's input
    buffer behaves as a first-in first-out queue of 31 characters: reads return the
    characters in the order of arrival, a character is dropped exactly when 31 are
    waiting, and a reader sleeps exactly when none is. *)
Theorem console_ring_refines l s q :
  ring s q →
  ∃ s', con_events l s = Done (queue_events l q).2 s' ∧ ring s' (queue_events l q).1.
Proof.
  revert s q. induction l as [|e l IH]; intros s q Hr; [by exists s |]. cbn.
  destruct (ring_event s q e Hr) as (s1 & E1 & Hr1).
  destruct (queue_event e q) as [q1 a]. cbn in E1, Hr1.
  destruct (IH s1 q1 Hr1) as (s2 & E2 & Hr2).
  destruct (queue_events l q1) as [q2 b]. cbn in *.
  exists s2. unfold mbind, M_bind. by rewrite E1, E2.
Qed.

(** ** Output *)

(** The console before, and after, it is attached to a device that reports characters
    done; [d] is left in the early buffer.  Attached, the one unit of cs_wsem is there
    exactly if the device has nothing to report. *)
Definition early (s : con) : Prop :=
  the_console s = false ∧ sent s = [] ∧ cs_starts s = true ∧ cs_busy s = 0.
Definition attached (d : list Z) (s : con) : Prop :=
  the_console s = true ∧ delayed_outbuf s = d ∧ cs_starts s = true ∧
  0 <= cs_wsem s ∧ 0 <= cs_busy s ∧ cs_wsem s + cs_busy s = 1.

Lemma putch_early ch s :
  early s → Z.of_nat (length (delayed_outbuf s)) < DELAYBUFSIZE →
  ∃ s', putch ch s = Done tt s' ∧ early s' ∧ delayed_outbuf s' = delayed_outbuf s ++ [u8 ch].
Proof.
  intros (Ha & He) Hl. apply Z.ltb_lt in Hl.
  unfold putch, gets, mbind, M_bind, id. rewrite Ha. cbn [negb].
  unfold putch_delayed, gets, mbind, M_bind, id. rewrite Hl. cbn [kassert mret M_ret modify].
  by eexists.
Qed.

(** Also when the device is busy, in an interrupt handler, or with a spinlock held. *)
Lemma putch_attached d ch s :
  attached d s → ∃ s', putch ch s = Done tt s' ∧ attached d s' ∧ sent s' = sent s ++ [u8 ch].
Proof.
  intros (Ha & He & Hst & Hw & Hb & Hu). unfold putch, gets, mbind, M_bind, id. rewrite Ha. cbn [negb].
  destruct (_ || _ || _); [by eexists |].
  unfold putch_intr, P_wsem, con_wdone, con_start, gets, mbind, M_bind, attached, id.
  destruct (Z.eqb_spec (cs_wsem s) 0) as [Hz | Hz].
  - rewrite Hst, (proj2 (Z.ltb_lt 0 (cs_busy s))) by lia. cbn. rewrite Hz. eexists. split; [reflexivity |].
    cbn. change (u32 (0 + 1)) with 1. split_and!; done || lia.
  - eexists. split; [reflexivity |]. cbn. split_and!; done || lia.
Qed.

(** On a device that reports nothing the second character a thread prints with interrupts
    enabled is never sent. *)
Lemma putch_unreported ch s :
  the_console s = true → t_in_interrupt s = false → t_curspl s <= 0 → c_spinlocks s <= 0 →
  cs_starts s = false → cs_wsem s = 0 → putch ch s = NoFuel.
Proof.
  intros H1 H2 H3 H4 H5 H6. unfold putch, gets, mbind, M_bind, id. rewrite H1, H2.
  rewrite !(proj2 (Z.ltb_ge 0 _)) by done. cbn [negb orb].
  unfold putch_intr, P_wsem, gets, mbind, M_bind, id. rewrite H6, H5. done.
Qed.

(** Printing a string, given what printing a character does to the output [out]. *)
Lemma send_with (ok : con → Prop) (room : nat → con → Prop) (out : con → list Z) :
  (∀ ch s n, ok s → room (S n) s →
     ∃ s', putch ch s = Done tt s' ∧ ok s' ∧ room n s' ∧ out s' = out s ++ [u8 ch]) →
  ∀ data s, ok s → room (length data) s →
  ∃ s', console_send data s = Done tt s' ∧ ok s' ∧ out s' = out s ++ map u8 data.
Proof.
  intros Hstep. induction data as [|c data IH]; intros s Hok Hf.
  { exists s. cbn. by rewrite app_nil_r. }
  destruct (Hstep c s (length data) Hok Hf) as (s1 & E1 & Hok1 & Hf1 & Hp1).
  destruct (IH s1 Hok1 Hf1) as (s2 & E2 & Hok2 & Hp2).
  exists s2. cbn. unfold mbind, M_bind. rewrite E1, E2, Hp2, Hp1, <- app_assoc. done.
Qed.

Lemma send_early data s :
  early s → Z.of_nat (length (delayed_outbuf s) + length data) <= DELAYBUFSIZE →
  ∃ s', console_send data s = Done tt s' ∧ early s' ∧
    delayed_outbuf s' = delayed_outbuf s ++ map u8 data.
Proof.
  apply (send_with early (λ n s, Z.of_nat (length (delayed_outbuf s) + n) <= DELAYBUFSIZE)).
  intros ch s0 n H0 Hn. destruct (putch_early ch s0 H0) as (s1 & E1 & H1 & Hp); [lia |].
  exists s1. split_and!; [done | done | | done]. rewrite Hp, length_app. simpl. lia.
Qed.

Lemma send_attached d data s :
  attached d s →
  ∃ s', console_send data s = Done tt s' ∧ attached d s' ∧ sent s' = sent s ++ map u8 data.
Proof.
  intros Ha. apply (send_with (attached d) (λ _ _, True)); [| done | done].
  intros ch s0 n H0 _. destruct (putch_attached d ch s0 H0) as (s1 & ? & ? & ?). by exists s1.
Qed.

Lemma map_u8_idemp l : map u8 (map u8 l) = map u8 l.
Proof.
  rewrite map_map. apply map_ext. intros a. apply u8_small. unfold u8, wrap.
  apply Z.mod_pos_bound. lia.
Qed.

(** What may happen on an attached console: a character is printed, the device reports a
    character done if it has one to report, and the printing code is in an interrupt
    handler, at a raised interrupt level or in possession of spinlocks, or no longer so. *)
Inductive out := Char (ch : Z) | WriteDone | Setting (in_interrupt : bool) (spl spinlocks : Z).

Definition with_setting i l n s :=
  mkCon (the_console s) (delayed_outbuf s) (cs_gotchars s) (cs_gotchars_head s) (cs_gotchars_tail s)
    (cs_rsem s) (cs_wsem s) (sent s) (cs_busy s) (cs_starts s) (incoming s) i l (t_iplhigh_count s) n (beeps s).

Definition out_step (e : out) : N unit :=
  match e with
  | Char ch => putch ch
  | WriteDone => s ← gets id; if cs_starts s && (0 <? cs_busy s) then con_wdone else mret tt
  | Setting i l n => modify (with_setting i l n)
  end.
Fixpoint out_steps (l : list out) : N unit :=
  match l with [] => mret tt | e :: r => out_step e ;; out_steps r end.
Definition printed (l : list out) : list Z := l ≫= λ e, match e with Char ch => [u8 ch] | _ => [] end.

Lemma out_steps_attached l : ∀ s,
  attached [] s → ∃ s', out_steps l s = Done tt s' ∧ attached [] s' ∧ sent s' = sent s ++ printed l.
Proof.
  induction l as [|e l IH]; intros s Ha. { exists s. cbn. by rewrite app_nil_r. }
  assert (∃ s1, out_step e s = Done tt s1 ∧ attached [] s1 ∧ sent s1 = sent s ++ printed [e]) as (s1 & E1 & Ha1 & Hs1).
  { destruct e as [ch | | i k n]; cbn.
    - apply (putch_attached [] ch s Ha).
    - unfold gets, id, mbind, M_bind. destruct Ha as (H1 & H2 & H3 & H4 & H5 & H6). rewrite H3. cbn [andb].
      destruct (Z.ltb_spec 0 (cs_busy s)).
      + unfold con_wdone, con_start, mbind, M_bind. cbn. eexists. split; [reflexivity |]. rewrite app_nil_r.
        split; [| done]. unfold attached. cbn. rewrite u32_small by lia. split_and!; done || lia.
      + exists s. rewrite app_nil_r. done.
    - eexists. split; [reflexivity |]. rewrite app_nil_r. done. }
  destruct (IH s1 Ha1) as (s2 & E2 & Ha2 & Hs2). exists s2. cbn [out_steps]. unfold mbind, M_bind. rewrite E1.
  split; [done |]. split; [done |]. rewrite Hs2, Hs1, <- app_assoc. f_equal. cbn. by rewrite app_nil_r.
Qed.

(** C35: On a device that reports characters done, what the kernel prints reaches the
    device completely and in the order it was printed: up to 1024 characters from before
    the console is attached first, then the rest, whenever the device reports, and
    whichever characters are sent with interrupts and which by polling.  No printing
    thread sleeps for ever. *)
Theorem console_output_order s before after rsem wsem rlk wlk dev :
  early s → delayed_outbuf s = [] → Z.of_nat (length before) <= DELAYBUFSIZE →
  rsem ≠ 0 → wsem ≠ 0 → rlk ≠ 0 → wlk ≠ 0 → dev ≠ 0 →
  ∃ s', (console_send before ;; config_con 0 rsem wsem rlk wlk dev 0 ;; out_steps after) s = Done tt s' ∧
    attached [] s' ∧ sent s' = map u8 before ++ printed after.
Proof.
  intros He Hd Hl H1 H2 H3 H4 H5.
  destruct (send_early before s He) as (s1 & E1 & (Hc1 & Hsent1 & Hst1 & Hb1) & Hp1); [by rewrite Hd |].
  rewrite Hd in Hp1. cbn in Hp1. unfold mbind, M_bind. rewrite E1.
  unfold config_con, gets, mbind, M_bind, id. cbn [Z.ltb Z.compare]. rewrite Hc1. cbn [negb kassert mret M_ret].
  rewrite !(proj2 (Z.eqb_neq _ _)) by done. cbn [modify].
  unfold flush_delay_buf, gets, mbind, M_bind.
  set (s2 := with_attached true _).
  destruct (send_attached (map u8 before) (map u8 before) s2) as (s3 & E3 & (Ha3 & _ & Hw3) & Hs3).
  { split; [done |]. split; [exact Hp1 |]. split; [done |]. cbn. rewrite Hb1. lia. }
  replace (delayed_outbuf s2) with (map u8 before) by (symmetry; exact Hp1). rewrite E3. cbn [modify Z.eqb negb].
  destruct (out_steps_attached after (with_delayed [] s3)) as (s4 & E4 & Ha4 & Hs4); [done |].
  exists s4. split; [exact E4 |]. split; [done |].
  rewrite Hs4. cbn. rewrite Hs3, map_u8_idemp. change (sent s2) with (sent s1).
  by rewrite Hsent1.
Qed.

(** ** Witnesses *)

Definition wit_con : con := mkCon false [] (replicate 32 0) 0 0 0 0 [] 0 true [] false 0 0 0 0.
Definition wit_ring : con := mkCon true [] (replicate 32 0) 30 30 0 1 [] 0 true [] false 0 0 0 0.

Lemma console_ring_refines_witness :
  ∃ s', con_events [Key 97; Read; Read; Key 98; Key 99; Read] wit_ring = Done [97; 98] s' ∧ ring s' [99].
Proof.
  apply (console_ring_refines [Key 97; Read; Read; Key 98; Key 99; Read] wit_ring []).
  split; cbn; try done; lia.
Defined.

Definition w_out : list out :=
  [Char 33; Char 34; Setting true 0 0; Char 35; WriteDone; Setting false 0 0; Char 36; Char 37].

Lemma console_output_order_witness :
  ∃ s', (console_send [104; 105] ;; config_con 0 1 2 3 4 5 0 ;; out_steps w_out) wit_con = Done tt s' ∧
    attached [] s' ∧ sent s' = [104; 105; 33; 34; 35; 36; 37].
Proof. apply (console_output_order wit_con [104; 105] w_out 1 2 3 4 5); done. Defined.

End ConsoleProps.
