(* ===== verification/Panic.v ===== *)
(** * Panics (kprintf, panic and badassert of lib/kprintf.c)

    A panic does six things, any of which may go wrong and panic again; the static
    variable [evil] makes the nested call go on with the next one.  What the six things
    do is an argument [act], so that the theorem holds however they behave: panic makes
    one attempt at each, in order, and stops.  The lock of kprintf is that of the CPU
    that panics: taking it twice is the deadlock panic of spinlock_acquire.  A step that
    neither comes back nor panics (a lock another CPU never releases) is outside the
    model; powering off in mainbus_panic counts as coming back. *)

From stdpp Require Import base sets list numbers.
From Stdlib Require Import ZArith Lia.
From S2P Require Import Prelude.

#[local] Open Scope Z_scope.

Module Panic.

Inductive action := Splhigh | Thread_panic | Prefix | Message | Ltrace_stop | Vfs_sync | Mainbus_panic.
#[global] Instance action_dec : EqDecision action.
Proof. solve_decision. Defined.

(** A step of the rest of the system comes back or calls panic. *)
Inductive result (S : Type) := Returns (s : S) | Panics (s : S).
Arguments Returns {S}. Arguments Panics {S}.

(** [kprintf_lock] and [kprintf_spinlock] are the two locks (whether the first exists, and
    whether this CPU holds the second), [acts] the actions begun so far. *)
Record pstate (S : Type) := mkP {
  evil : Z;
  kprintf_lock : bool;
  kprintf_spinlock : bool;
  sys : S;
  acts : list action
}.
Arguments mkP {S}. Arguments evil {S}. Arguments kprintf_lock {S}. Arguments kprintf_spinlock {S}.
Arguments sys {S}. Arguments acts {S}.

Section panic.
(** An action is run knowing whether this CPU holds kprintf_spinlock; the flag it panics
    with says whether it panicked inside a kprintf of its own, which is then not left. *)
Context {S : Type} (act : action → bool → S → result (bool * S)).
Implicit Types p : pstate S.

Definition with_evil n (p : pstate S) := mkP n (kprintf_lock p) (kprintf_spinlock p) (sys p) (acts p).
Definition with_spin b (p : pstate S) := mkP (evil p) (kprintf_lock p) b (sys p) (acts p).

Definition run (a : action) (p : pstate S) : result (pstate S) :=
  match act a (kprintf_spinlock p) (sys p) with
  | Returns (_, s) => Returns (mkP (evil p) (kprintf_lock p) (kprintf_spinlock p) s (acts p ++ [a]))
  | Panics (inside, s) => Panics (mkP (evil p) (kprintf_lock p) (kprintf_spinlock p || inside) s (acts p ++ [a]))
  end.

Definition and_then (r : result (pstate S)) (k : pstate S → result (pstate S)) : result (pstate S) :=
  match r with Returns p => k p | Panics p => Panics p end.

(** [lock]: whether lock_create gets memory. *)
Definition kprintf_bootstrap (lock : bool) (p : pstate S) : result (pstate S) :=
  if kprintf_lock p then Panics p
  else if lock then Returns (mkP (evil p) true false (sys p) (acts p))
  else Panics p.

(** dolock is 0; the action [a] prints the text. *)
Definition kprintf (a : action) (p : pstate S) : result (pstate S) :=
  if kprintf_spinlock p then Panics p
  else and_then (run a (with_spin true p)) (λ p, Returns (with_spin false p)).

(** What is done when [evil] is [n]. *)
Definition body (n : Z) (p : pstate S) : result (pstate S) :=
  if n =? 0 then run Splhigh p
  else if n =? 1 then run Thread_panic p
  else if n =? 2 then and_then (kprintf Prefix p) (run Message)
  else if n =? 3 then run Ltrace_stop p
  else if n =? 4 then run Vfs_sync p
  else run Mainbus_panic p.

(** One [if] of panic; [nested] is the panic the body may fall into, [k] the rest. *)
Definition stage (nested : pstate S → option (pstate S)) (n : Z) (k : pstate S → option (pstate S))
    (p : pstate S) : option (pstate S) :=
  if evil p =? n then
    match body n (with_evil (n + 1) p) with Returns p => k p | Panics p => nested p end
  else k p.

(** [fuel] bounds the nesting; the result is the state in which the machine has been
    turned off or the last loop is entered. *)
Fixpoint panic (fuel : nat) (p : pstate S) : option (pstate S) :=
  match fuel with
  | O => None
  | Datatypes.S fuel' =>
      let st := stage (panic fuel') in
      st 0 (st 1 (st 2 (st 3 (st 4 (st 5 Some))))) p
  end.

Definition badassert (fuel : nat) (p : pstate S) : option (pstate S) := panic fuel p.

(** ** Nested panics *)

(** The actions of stage [n]: printing may stop half-way. *)
Definition stage_acts (n : Z) (l : list action) : Prop :=
  if n =? 0 then l = [Splhigh] else if n =? 1 then l = [Thread_panic]
  else if n =? 2 then l = [] ∨ l = [Prefix] ∨ l = [Prefix; Message]
  else if n =? 3 then l = [Ltrace_stop] else if n =? 4 then l = [Vfs_sync] else l = [Mainbus_panic].

(** The actions of [k] stages from [n] on. *)
Fixpoint stages (k : nat) (n : Z) (l : list action) : Prop :=
  match k with
  | O => l = []
  | Datatypes.S k' => ∃ l1 l2, stage_acts n l1 ∧ stages k' (n + 1) l2 ∧ l = l1 ++ l2
  end.

(** [l] is what was done between [p] and [p']; a held lock stays held and mutes panic. *)
Definition did (p p' : pstate S) (l : list action) : Prop :=
  acts p' = acts p ++ l ∧
  (kprintf_spinlock p = true → kprintf_spinlock p' = true ∧ ¬ (Prefix ∈ l ∨ Message ∈ l)).

Definition outcome (r : result (pstate S)) : pstate S := match r with Returns p | Panics p => p end.

Lemma run_did a p : evil (outcome (run a p)) = evil p ∧ acts (outcome (run a p)) = acts p ++ [a] ∧
  (kprintf_spinlock p = true → kprintf_spinlock (outcome (run a p)) = true).
Proof.
  unfold run. destruct (act a (kprintf_spinlock p) (sys p)) as [[? s]|[? s]]; cbn; split_and!; try done.
  by intros ->.
Qed.

Lemma single_did a p : a ≠ Prefix → a ≠ Message → did p (outcome (run a p)) [a].
Proof.
  intros H1 H2. destruct (run_did a p) as (_ & E & Hl). split; [done|]. intros Hp. split; [auto|].
  set_solver.
Qed.

Lemma print_did p : let r := and_then (kprintf Prefix p) (run Message) in
  evil (outcome r) = evil p ∧
  ∃ l, did p (outcome r) l ∧ (l = [] ∨ l = [Prefix] ∨ l = [Prefix; Message]).
Proof.
  cbn zeta. unfold kprintf. destruct (kprintf_spinlock p) eqn:Hp.
  - split; [done|]. exists []. split; [|by left]. split; cbn; [by rewrite app_nil_r|]. set_solver.
  - destruct (run_did Prefix (with_spin true p)) as (E1 & E2 & _).
    destruct (run Prefix (with_spin true p)) as [q|q]; cbn in E1, E2 |- *.
    + destruct (run_did Message (with_spin false q)) as (F1 & F2 & _).
      split; [by rewrite F1|]. exists [Prefix; Message]. split; [|auto].
      split; [|congruence]. rewrite F2. cbn. rewrite E2, <- app_assoc. done.
    + split; [done|]. exists [Prefix]. split; [|auto]. by split; [|congruence].
Qed.

Lemma body_did n p : 0 <= n < 6 → evil (outcome (body n p)) = evil p ∧
  ∃ l, did p (outcome (body n p)) l ∧ stage_acts n l.
Proof.
  intros Hn. unfold body, stage_acts.
  repeat case_match; try (split; [apply run_did|eexists; split; [by apply single_did|done]]).
  apply print_did.
Qed.

Lemma did_trans p1 p2 p3 l1 l2 : did p1 p2 l1 → did p2 p3 l2 → did p1 p3 (l1 ++ l2).
Proof.
  intros [E1 H1] [E2 H2]. split; [by rewrite E2, E1, app_assoc|].
  intros Hp. destruct (H1 Hp) as [Hp2 N1]. destruct (H2 Hp2) as [Hp3 N2]. set_solver.
Qed.

(** From any stage not before [lo], [f] makes the remaining attempts and ends. *)
Definition ends (f : pstate S → option (pstate S)) (lo : Z) : Prop :=
  ∀ p, lo <= evil p <= 6 → ∃ p' l, f p = Some p' ∧ evil p' = 6 ∧ did p p' l ∧
    stages (Z.to_nat (6 - evil p)) (evil p) l.

Lemma stage_ends nested n k lo : 0 <= n < 6 → 0 <= lo → ends nested (lo + 1) → ends k (Z.max (n + 1) lo) →
  ends (stage nested n k) (Z.max n lo).
Proof.
  intros Hn Hlo Hnest Hk p Hp. unfold stage. destruct (Z.eqb_spec (evil p) n) as [En|En].
  2: { apply Hk. lia. }
  destruct (body_did n (with_evil (n + 1) p) Hn) as (He & l1 & Hd1 & Hs1). cbn in He.
  assert (∃ p' l2, match body n (with_evil (n + 1) p) with Returns p => k p | Panics p => nested p end = Some p'
    ∧ evil p' = 6 ∧ did (outcome (body n (with_evil (n + 1) p))) p' l2 ∧
      stages (Z.to_nat (6 - (n + 1))) (n + 1) l2) as (p' & l2 & Hr & E6 & Hd2 & Hs2).
  { destruct (body n (with_evil (n + 1) p)) as [q|q]; cbn in He |- *; rewrite <- He; [apply Hk|apply Hnest]; lia. }
  exists p', (l1 ++ l2). split_and!; try done.
  - eapply did_trans; [|done]. done.
  - rewrite En. replace (Z.to_nat (6 - n)) with (Datatypes.S (Z.to_nat (6 - (n + 1)))) by lia. by exists l1, l2.
Qed.

Lemma panic_ends fuel lo : 0 <= lo <= 6 → 6 - lo < Z.of_nat fuel → ends (panic fuel) lo.
Proof.
  revert lo. induction fuel as [|fuel IH]; intros lo Hlo Hf; [lia|]. cbn.
  destruct (decide (lo = 6)) as [->|Hne].
  - intros p Hp. unfold stage. replace (evil p) with 6 by lia. cbn.
    exists p, []. split_and!; [done|lia| |done]. split; [by rewrite app_nil_r|set_solver].
  - assert (Hnest : ends (panic fuel) (lo + 1)) by (apply IH; lia).
    rewrite <- (Z.max_r 0 lo) by lia. do 6 (apply stage_ends; [lia..|done|]).
    intros p Hp. replace (evil p) with 6 by lia.
    exists p, []. split_and!; [done|lia| |done]. split; [by rewrite app_nil_r|set_solver].
Qed.

(** Nothing goes wrong. *)
Definition all_return : Prop := ∀ a b s, ∃ r, act a b s = Returns r.

Lemma run_quiet a p : all_return → ∃ s,
  run a p = Returns (mkP (evil p) (kprintf_lock p) (kprintf_spinlock p) s (acts p ++ [a])).
Proof. intros H. unfold run. destruct (H a (kprintf_spinlock p) (sys p)) as [[? s] ->]. by exists s. Qed.

Lemma panic_quiet (H : all_return) fuel p : evil p = 0 → kprintf_spinlock p = false →
  ∃ p', panic (Datatypes.S fuel) p = Some p' ∧
    acts p' = acts p ++ [Splhigh; Thread_panic; Prefix; Message; Ltrace_stop; Vfs_sync; Mainbus_panic].
Proof.
  destruct p as [ev kl ks s0 l0]. cbn [evil kprintf_spinlock acts]. intros -> ->. cbn [panic].
  unfold stage, body, and_then, kprintf, with_evil, with_spin.
  repeat (cbn -[run app]; match goal with
    |- context [run ?a ?q] => destruct (run_quiet a q H) as [? ->] end).
  cbn -[app]. eexists. split; [done|]. cbn -[app]. by rewrite <- !app_assoc.
Qed.

(** C36: whatever the six things panic does turn into - each may come back or panic in turn,
    inside a kprintf or not - panic ends after at most one attempt at each stage, in order,
    from the stage it was at; and when this CPU panicked inside kprintf, holding its
    spinlock, neither the prefix nor the message of the panic is printed.  When nothing
    goes wrong all of it is done, the prefix and the message included. *)
Theorem panic_stages fuel p : 0 <= evil p <= 6 → 6 - evil p < Z.of_nat fuel →
  ∃ p' l, panic fuel p = Some p' ∧ evil p' = 6 ∧ acts p' = acts p ++ l ∧
    stages (Z.to_nat (6 - evil p)) (evil p) l ∧
    (kprintf_spinlock p = true → ¬ (Prefix ∈ l ∨ Message ∈ l)) ∧
    (evil p = 0 → kprintf_spinlock p = false → all_return →
      l = [Splhigh; Thread_panic; Prefix; Message; Ltrace_stop; Vfs_sync; Mainbus_panic]).
Proof.
  intros Hp Hf. destruct (panic_ends fuel (evil p) Hp Hf p) as (p' & l & Hr & E & [Ha Hm] & Hs); [lia|].
  exists p', l. split_and!; try done; [intros Hl; by apply Hm|].
  intros H0 Hl Hall. destruct fuel as [|fuel]; [lia|].
  destruct (panic_quiet Hall fuel p H0 Hl) as (q & Hq & Hqa). rewrite Hr in Hq. simplify_eq.
  rewrite Ha in Hqa. by apply app_inv_head in Hqa.
Qed.
End panic.

(** A machine on which thread_panic and printing the prefix panic. *)
Definition shaky (a : action) (held : bool) (s : list bool) : result (bool * list bool) :=
  if decide (a = Thread_panic) then Panics (false, held :: s)
  else if decide (a = Prefix) then Panics (false, held :: s) else Returns (false, held :: s).

Lemma panic_stages_witness :
  (∃ p', panic shaky 7 (mkP 0 true false [] []) = Some p' ∧ evil p' = 6) ∧
  panic shaky 7 (mkP 0 true false [] []) =
    Some (mkP 6 true true [true; true; true; true; false; false]
           [Splhigh; Thread_panic; Prefix; Ltrace_stop; Vfs_sync; Mainbus_panic]) ∧
  panic shaky 7 (mkP 0 true true [] []) =
    Some (mkP 6 true true [true; true; true; true; true]
           [Splhigh; Thread_panic; Ltrace_stop; Vfs_sync; Mainbus_panic]).
Proof.
  split; [|split; vm_compute; reflexivity].
  destruct (panic_stages shaky 7 (mkP 0 true false [] [])) as (p' & l & Hr & E & _); [by split|done|].
  exists p'. split; [exact Hr|exact E].
Defined.
End Panic.
