(* ===== verification/Lhd.v ===== *)
(** * The disk driver (dev/lamebus/lhd.c)

    Any number of threads in [lhd_io], the interrupt handler and the disk take their
    steps in any order.  A thread's call is broken at the points where it touches what
    others touch: the two semaphores, the registers and the buffer of the card.  [P] on
    a semaphore is enabled when the count is positive, which is what [Synch] shows of
    it.  The disk is hardware: class [LhdHw] has its registers and buffer, and
    [LhdHwLaws] states how it behaves. *)

From stdpp Require Import base list gmap numbers.
From Stdlib Require Import ZArith Lia.
From S2P Require Import Prelude.

#[local] Open Scope Z_scope.

Module Lhd.

Definition LHD_REG_NSECT : Z := 0.
Definition LHD_REG_STAT : Z := 4.
Definition LHD_REG_SECT : Z := 8.
Definition LHD_IDLE : Z := 0.
Definition LHD_WORKING : Z := 1.
Definition LHD_OK : Z := 4.
Definition LHD_INVSECT : Z := 12.
Definition LHD_MEDIA : Z := 20.
Definition LHD_ISWRITE : Z := 2.
Definition LHD_STATEMASK : Z := 0x1d.
Definition LHD_SECTSIZE : Z := 512.
Definition EAGAIN : Z := 4.
Definition EIOCTL : Z := 31.
Definition EIO : Z := 32.

(** The card: its registers, its buffer, and what is on the disk; [hw_moves] is what
    the card does by itself. *)
Class LhdHw (D : Type) := {
  hw_rdreg : Z → D → Z;
  hw_wreg : Z → Z → D → D;
  hw_buf : D → list Z;
  hw_setbuf : list Z → D → D;
  hw_sector : D → Z → list Z;
  hw_moves : D → D → Prop
}.

(** [lh_clear] and [lh_done] are the counts of the semaphores. *)
Record lhd (D : Type) := mkLhd {
  lh_hw : D;
  lh_result : Z;
  lh_clear : Z;
  lh_done : Z;
  d_blocks : Z
}.
Arguments mkLhd {D}. Arguments lh_hw {D}. Arguments lh_result {D}. Arguments lh_clear {D}.
Arguments lh_done {D}. Arguments d_blocks {D}.

Section driver.
Context {D : Type} `{!LhdHw D}.
Abbreviation H := (M (lhd D)).

Definition with_hw (x : D) (h : lhd D) := mkLhd x (lh_result h) (lh_clear h) (lh_done h) (d_blocks h).
Definition with_result x (h : lhd D) := mkLhd (lh_hw h) x (lh_clear h) (lh_done h) (d_blocks h).
Definition with_clear x (h : lhd D) := mkLhd (lh_hw h) (lh_result h) x (lh_done h) (d_blocks h).
Definition with_done x (h : lhd D) := mkLhd (lh_hw h) (lh_result h) (lh_clear h) x (d_blocks h).

Definition lhd_rdreg (reg : Z) : H Z := gets (λ h, hw_rdreg reg (lh_hw h)).
Definition lhd_wreg (reg val : Z) : H unit := modify (λ h, with_hw (hw_wreg reg val (lh_hw h)) h).

Definition lhd_code_to_errno (code : Z) : Z :=
  let c := Z.land code LHD_STATEMASK in
  if c =? LHD_OK then 0
  else if c =? LHD_INVSECT then EINVAL
  else if c =? LHD_MEDIA then EIO
  else EAGAIN.

Definition lhd_iodone (err : Z) : H unit :=
  modify (with_result err) ;; modify (λ h, with_done (u32 (lh_done h + 1)) h).

Definition lhd_irq : H unit :=
  val ← lhd_rdreg LHD_REG_STAT;
  let st := Z.land val LHD_STATEMASK in
  if (st =? LHD_OK) || (st =? LHD_INVSECT) || (st =? LHD_MEDIA) then
    lhd_wreg LHD_REG_STAT 0 ;; lhd_iodone (lhd_code_to_errno val)
  else mret tt.

Definition lhd_eachopen (openflags : Z) : H Z := mret 0.
Definition lhd_ioctl (op : Z) : H Z := mret EIOCTL.

(** ** lhd_io *)

(** A request: its direction, offset and length; the data of its i-th sector, for a
    write; and the result of its i-th uiomove. *)
Record request := mkRq {
  uio_write : bool;
  uio_offset : Z;
  uio_resid : Z;
  rq_data : nat → list Z;
  rq_move : nat → Z
}.

(** Where a call is: before its i-th turn of the loop; with the device to itself; with
    the buffer filled; with the sector set; asleep; awake with the result; about to let
    others in; returned. *)
Inductive pc :=
| Top (i : nat) | Clear (i : nat) | Filled (i : nat) | Seeked (i : nat) | Waiting (i : nat)
| Woken (i : nat) | Leaving (i : nat) (result : Z) | Returned (result : Z).

(** A call; [t_got] is what a read has delivered. *)
Record call := mkCall {
  t_rq : request;
  t_sector : Z;
  t_len : nat;
  t_pc : pc;
  t_got : list (list Z)
}.
Definition goto (p : pc) (t : call) := mkCall (t_rq t) (t_sector t) (t_len t) p (t_got t).
Definition deliver (l : list Z) (t : call) := mkCall (t_rq t) (t_sector t) (t_len t) (t_pc t) (t_got t ++ [l]).

(** The part before the loop. *)
Definition lhd_io_begin (rq : request) (h : lhd D) : call :=
  let sector := u32 (uio_offset rq / LHD_SECTSIZE) in
  let sectoff := uio_offset rq mod LHD_SECTSIZE in
  let len := u32 (uio_resid rq / LHD_SECTSIZE) in
  let lenoff := uio_resid rq mod LHD_SECTSIZE in
  let start := mkCall rq sector (Z.to_nat len) in
  if negb (sectoff =? 0) || negb (lenoff =? 0) then start (Returned EINVAL) []
  else if d_blocks h <? u32 (sector + len) then start (Returned EINVAL) []
  else start (Top 0) [].

Definition statval (rq : request) : Z :=
  if uio_write rq then Z.lor LHD_WORKING LHD_ISWRITE else LHD_WORKING.

(** One step of a call; [None] while it must wait, or has returned. *)
Definition lhd_io_step (t : call) (h : lhd D) : option (call * lhd D) :=
  let rq := t_rq t in
  match t_pc t with
  | Top i =>
      if Nat.ltb i (t_len t) then
        if 0 <? lh_clear h then Some (goto (Clear i) t, with_clear (lh_clear h - 1) h) else None
      else Some (goto (Returned 0) t, h)
  | Clear i =>
      if uio_write rq then
        let h := with_hw (hw_setbuf (rq_data rq i) (lh_hw h)) h in
        if negb (rq_move rq i =? 0)
        then Some (goto (Returned (rq_move rq i)) t, with_clear (u32 (lh_clear h + 1)) h)
        else Some (goto (Filled i) t, h)
      else Some (goto (Filled i) t, h)
  | Filled i =>
      Some (goto (Seeked i) t,
            with_hw (hw_wreg LHD_REG_SECT (u32 (t_sector t + Z.of_nat i)) (lh_hw h)) h)
  | Seeked i =>
      Some (goto (Waiting i) t, with_hw (hw_wreg LHD_REG_STAT (statval rq) (lh_hw h)) h)
  | Waiting i =>
      if 0 <? lh_done h then Some (goto (Woken i) t, with_done (lh_done h - 1) h) else None
  | Woken i =>
      let result := lh_result h in
      if (result =? 0) && negb (uio_write rq) then
        if rq_move rq i =? 0
        then Some (goto (Leaving i 0) (deliver (hw_buf (lh_hw h)) t), h)
        else Some (goto (Leaving i (rq_move rq i)) t, h)
      else Some (goto (Leaving i result) t, h)
  | Leaving i result =>
      Some (goto (if negb (result =? 0) then Returned result else Top (i + 1)) t,
            with_clear (u32 (lh_clear h + 1)) h)
  | Returned _ => None
  end.

(** config_lhd: the addresses of the semaphores (0: out of memory) and the result of
    vfs_adddev; the result and the semaphores destroyed again. *)
Definition config_lhd (clear done added : Z) : H (Z * list Z) :=
  if clear =? 0 then mret (ENOMEM, [])
  else
    modify (with_clear 1) ;;
    if done =? 0 then mret (ENOMEM, [clear])
    else
      modify (with_done 0) ;;
      modify (λ h, mkLhd (lh_hw h) (lh_result h) (lh_clear h) (lh_done h) (hw_rdreg LHD_REG_NSECT (lh_hw h))) ;;
      mret (added, []).

(** ** Everybody together *)

(** A sector operation the disk has done for a call. *)
Record sector_op := mkOp {
  op_call : Z;
  op_write : bool;
  op_ok : bool;
  op_sector : Z;
  op_data : list Z
}.

Record sys := mkSys {
  s_lhd : lhd D;
  s_calls : gmap Z call;
  s_log : list sector_op
}.

(** What the move of the card from [d] to [d'] did, for the call that waits. *)
Definition moved (tid : Z) (t : call) (d d' : D) : sector_op :=
  let x := hw_rdreg LHD_REG_SECT d in
  let ok := Z.land (hw_rdreg LHD_REG_STAT d') LHD_STATEMASK =? LHD_OK in
  mkOp tid (uio_write (t_rq t)) ok x
    (if uio_write (t_rq t) then hw_sector d' x else hw_buf d').

Inductive step : sys → sys → Prop :=
| step_begin s tid rq :
    s_calls s !! tid = None →
    step s (mkSys (s_lhd s) (<[tid := lhd_io_begin rq (s_lhd s)]> (s_calls s)) (s_log s))
| step_call s tid t t' h' :
    s_calls s !! tid = Some t → lhd_io_step t (s_lhd s) = Some (t', h') →
    step s (mkSys h' (<[tid := t']> (s_calls s)) (s_log s))
| step_irq s h' :
    lhd_irq (s_lhd s) = Done tt h' → step s (mkSys h' (s_calls s) (s_log s))
| step_hw s tid t i d' :
    hw_moves (lh_hw (s_lhd s)) d' → s_calls s !! tid = Some t → t_pc t = Waiting i →
    step s (mkSys (with_hw d' (s_lhd s)) (s_calls s)
              (s_log s ++ [moved tid t (lh_hw (s_lhd s)) d']))
| step_hw_alone s d' :
    hw_moves (lh_hw (s_lhd s)) d' →
    (∀ tid t i, s_calls s !! tid = Some t → t_pc t ≠ Waiting i) →
    step s (mkSys (with_hw d' (s_lhd s)) (s_calls s) (s_log s)).
End driver.
Arguments sys : clear implicits.

(** How the card behaves.  Registers keep what is stored; the card moves only when it
    has been told to work, and then reports success or failure in the status register,
    having copied the buffer to the sector or the sector to the buffer on success. *)
Class LhdHwLaws (D : Type) `{!LhdHw D} := {
  wsect_sect v d : hw_rdreg LHD_REG_SECT (hw_wreg LHD_REG_SECT v d) = v;
  wsect_stat v d : hw_rdreg LHD_REG_STAT (hw_wreg LHD_REG_SECT v d) = hw_rdreg LHD_REG_STAT d;
  wstat_sect v d : hw_rdreg LHD_REG_SECT (hw_wreg LHD_REG_STAT v d) = hw_rdreg LHD_REG_SECT d;
  wstat_stat v d : hw_rdreg LHD_REG_STAT (hw_wreg LHD_REG_STAT v d) = v;
  wreg_buf r v d : hw_buf (hw_wreg r v d) = hw_buf d;
  wreg_sector r v d x : hw_sector (hw_wreg r v d) x = hw_sector d x;
  setbuf_reg r l d : hw_rdreg r (hw_setbuf l d) = hw_rdreg r d;
  setbuf_buf l d : hw_buf (hw_setbuf l d) = l;
  setbuf_sector l d x : hw_sector (hw_setbuf l d) x = hw_sector d x;
  moves_working d d' : hw_moves d d' →
    hw_rdreg LHD_REG_STAT d = LHD_WORKING ∨ hw_rdreg LHD_REG_STAT d = Z.lor LHD_WORKING LHD_ISWRITE;
  moves_status d d' : hw_moves d d' → ∃ code, (code = LHD_OK ∨ code = LHD_INVSECT ∨ code = LHD_MEDIA) ∧
    hw_rdreg LHD_REG_STAT d' = Z.lor code (Z.land (hw_rdreg LHD_REG_STAT d) LHD_ISWRITE);
  moves_sect d d' : hw_moves d d' → hw_rdreg LHD_REG_SECT d' = hw_rdreg LHD_REG_SECT d;
  moves_other d d' x : hw_moves d d' → x ≠ hw_rdreg LHD_REG_SECT d → hw_sector d' x = hw_sector d x;
  moves_write d d' : hw_moves d d' → hw_rdreg LHD_REG_STAT d' = Z.lor LHD_OK LHD_ISWRITE →
    hw_sector d' (hw_rdreg LHD_REG_SECT d) = hw_buf d;
  moves_read d d' x : hw_moves d d' → hw_rdreg LHD_REG_STAT d = LHD_WORKING →
    hw_sector d' x = hw_sector d x;
  moves_read_ok d d' : hw_moves d d' → hw_rdreg LHD_REG_STAT d' = LHD_OK →
    hw_buf d' = hw_sector d (hw_rdreg LHD_REG_SECT d)
}.

End Lhd.
