(* ===== verification/LhdProps.v ===== *)
(** * Calls of lhd_io are sequences of atomic sector operations

    The invariant of the system of [Lhd]: who has the device, what state the card is in
    for it, and what the log of sector operations holds for each call. *)

From stdpp Require Import base list gmap numbers.
From Stdlib Require Import ZArith Lia.
From S2P Require Import Prelude Lhd.
Import Lhd.

#[local] Open Scope Z_scope.

Module LhdProps.

Section props.
Context {D : Type} `{!LhdHw D} `{!LhdHwLaws D}.
Implicit Types (t : call) (h : lhd D) (s : sys D) (l log : list sector_op).

Abbreviation STAT h := (hw_rdreg LHD_REG_STAT (lh_hw h)).
Abbreviation SECT h := (hw_rdreg LHD_REG_SECT (lh_hw h)).
Abbreviation w t := (uio_write (t_rq t)).

(** The contents of the disk after the operations of a log. *)
Definition replay (init : Z → list Z) log : Z → list Z :=
  foldl (λ f o, if op_write o then λ x, if x =? op_sector o then op_data o else f x else f) init log.

(** A read that succeeds gets what is on the disk at that point of the log. *)
Definition reads_ok (init : Z → list Z) log : Prop := ∀ pre o post,
  log = pre ++ o :: post → op_write o = false → op_ok o = true →
  op_data o = replay init pre (op_sector o).

Definition ops (tid : Z) log : list sector_op := filter (λ o, op_call o = tid) log.

(** The first [n] sector operations of a call, all successful. *)
Definition evs (tid : Z) t (n : nat) : list sector_op :=
  (λ j : nat, mkOp tid (w t) true (u32 (t_sector t + Z.of_nat j))
     (if w t then rq_data (t_rq t) j else default [] (t_got t !! j))) <$> seq 0 n.

Definition idle h : Prop := STAT h = 0 ∧ lh_done h = 0.
Definition ended (code : Z) : Prop := code = LHD_OK ∨ code = LHD_INVSECT ∨ code = LHD_MEDIA.
Definition tag t : Z := if w t then LHD_ISWRITE else 0.
Definition got t (n : nat) : Prop := w t = false → length (t_got t) = n.
Definition filled t (i : nat) h : Prop := w t = true → hw_buf (lh_hw h) = rq_data (t_rq t) i.

(** The operation on sector [i] has been done, with status [code]. *)
Definition did (tid : Z) t (i : nat) h l (code : Z) : Prop := ended code ∧ ∃ d,
  l = evs tid t i ++ [mkOp tid (w t) (code =? LHD_OK) (u32 (t_sector t + Z.of_nat i)) d] ∧
  (code = LHD_OK → if w t then d = rq_data (t_rq t) i else hw_buf (lh_hw h) = d).

(** What holds while a call has the device. *)
Definition own (tid : Z) t h l : Prop :=
  match t_pc t with
  | Clear i => (i < t_len t)%nat ∧ got t i ∧ idle h ∧ l = evs tid t i
  | Filled i => (i < t_len t)%nat ∧ got t i ∧ idle h ∧ l = evs tid t i ∧ filled t i h
  | Seeked i => (i < t_len t)%nat ∧ got t i ∧ idle h ∧ l = evs tid t i ∧ filled t i h ∧
                SECT h = u32 (t_sector t + Z.of_nat i)
  | Waiting i => (i < t_len t)%nat ∧ got t i ∧
      ((lh_done h = 0 ∧ STAT h = Z.lor LHD_WORKING (tag t) ∧ l = evs tid t i ∧ filled t i h ∧
        SECT h = u32 (t_sector t + Z.of_nat i)) ∨
       ∃ code, did tid t i h l code ∧
         ((lh_done h = 0 ∧ STAT h = Z.lor code (tag t)) ∨
          (lh_done h = 1 ∧ STAT h = 0 ∧ lh_result h = lhd_code_to_errno code)))
  | Woken i => (i < t_len t)%nat ∧ got t i ∧ idle h ∧
      ∃ code, did tid t i h l code ∧ lh_result h = lhd_code_to_errno code
  | Leaving i r => (i < t_len t)%nat ∧ idle h ∧
      ((r = 0 ∧ l = evs tid t (i + 1) ∧ got t (i + 1)) ∨ (r ≠ 0 ∧ ∃ o, l = evs tid t i ++ [o]))
  | Top _ | Returned _ => False
  end.

Definition inside t : bool :=
  match t_pc t with Top _ | Returned _ => false | _ => true end.

(** What holds of the other calls. *)
Definition rest (tid : Z) t l : Prop :=
  match t_pc t with
  | Top i => (i <= t_len t)%nat ∧ got t i ∧ l = evs tid t i
  | Returned r => (r = 0 → got t (t_len t) ∧ l = evs tid t (t_len t)) ∧
      ∃ i extra, (i <= t_len t)%nat ∧ l = evs tid t i ++ extra ∧ (length extra <= 1)%nat
  | _ => True
  end.

Record inv (init : Z → list Z) s : Prop := {
  i_disk x : hw_sector (lh_hw (s_lhd s)) x = replay init (s_log s) x;
  i_reads : reads_ok init (s_log s);
  i_log o : o ∈ s_log s → is_Some (s_calls s !! op_call o);
  i_owner : ∃ o, lh_clear (s_lhd s) = (if o is Some _ then 0 else 1) ∧
    (o = None → idle (s_lhd s)) ∧
    (∀ tid t, s_calls s !! tid = Some t → inside t = true ↔ o = Some tid) ∧
    (∀ tid, o = Some tid → ∃ t, s_calls s !! tid = Some t ∧ own tid t (s_lhd s) (ops tid (s_log s)));
  i_rest tid t : s_calls s !! tid = Some t → rest tid t (ops tid (s_log s))
}.

(** ** Lemmas *)

Lemma evs_S tid t n :
  evs tid t (n + 1) = evs tid t n ++ [mkOp tid (w t) true (u32 (t_sector t + Z.of_nat n))
    (if w t then rq_data (t_rq t) n else default [] (t_got t !! n))].
Proof using. unfold evs. by rewrite seq_app, fmap_app. Qed.

Lemma evs_deliver tid t n d : (n <= length (t_got t))%nat ∨ w t = true → evs tid (deliver d t) n = evs tid t n.
Proof using.
  intros Hn. unfold evs. apply list_fmap_ext. intros i j Hi. apply lookup_seq in Hi as [-> Hi].
  cbn. destruct (uio_write (t_rq t)) eqn:E; [done |]. destruct Hn as [Hn | Hn]; [| done].
  by rewrite lookup_app_l by lia.
Qed.

Lemma ops_app tid l1 l2 : ops tid (l1 ++ l2) = ops tid l1 ++ ops tid l2.
Proof using. unfold ops. apply list.filter_app. Qed.

Lemma ops_one tid o : ops tid [o] = if decide (op_call o = tid) then [o] else [].
Proof using. unfold ops. rewrite filter_cons. by destruct (decide (op_call o = tid)). Qed.

Lemma replay_app init l o x :
  replay init (l ++ [o]) x =
  if op_write o && (x =? op_sector o) then op_data o else replay init l x.
Proof using. unfold replay. rewrite foldl_snoc. destruct (op_write o); cbn; [| done]. by destruct (x =? op_sector o). Qed.

Lemma reads_ok_app init l o :
  reads_ok init l → (op_write o = false → op_ok o = true → op_data o = replay init l (op_sector o)) →
  reads_ok init (l ++ [o]).
Proof using.
  intros Hl Ho pre p post E Hw Hok. destruct (decide (post = [])) as [-> | Hne].
  - apply app_inj_tail in E as [-> ->]. by apply Ho.
  - destruct (exists_last Hne) as (post' & y & ->).
    rewrite app_comm_cons, app_assoc in E. apply app_inj_tail in E as [-> _]. by eapply Hl.
Qed.

(** The status the card leaves. *)
Lemma status_masked code t : ended code →
  Z.land (Z.lor code (tag t)) LHD_STATEMASK = code ∧ Z.lor code (tag t) ≠ 0 ∧
  lhd_code_to_errno (Z.lor code (tag t)) = lhd_code_to_errno code ∧
  (lhd_code_to_errno code = 0 ↔ code = LHD_OK).
Proof using.
  unfold tag. intros [-> | [-> | ->]]; destruct (w t); vm_compute; (split_and!; try done).
Qed.

Lemma working_not_ended code t t' : ended code → Z.lor LHD_WORKING (tag t) ≠ Z.lor code (tag t').
Proof using. unfold tag. intros [-> | [-> | ->]]; destruct (w t), (w t'); vm_compute; discriminate. Qed.

(** ** Preservation *)

(** A step that changes one call and not the log. *)
Lemma inv_call init s tid t t' h' o o' :
  inv init s → s_calls s !! tid = Some t →
  (∀ x, hw_sector (lh_hw h') x = hw_sector (lh_hw (s_lhd s)) x) →
  (∀ tid t, s_calls s !! tid = Some t → inside t = true ↔ o = Some tid) →
  lh_clear h' = (if o' is Some _ then 0 else 1) → (o' = None → idle h') →
  (inside t' = true → o' = Some tid ∧ own tid t' h' (ops tid (s_log s))) →
  (inside t' = false → o' = None ∧ rest tid t' (ops tid (s_log s))) →
  (o = None ∨ o = Some tid) →
  inv init (mkSys h' (<[tid := t']> (s_calls s)) (s_log s)).
Proof using.
  intros Hinv Ht Hsec Ho Hc Hidle Hin Hout Hoo. pose proof Hinv as [].
  split; cbn [s_lhd s_calls s_log].
  - intros x. by rewrite Hsec.
  - done.
  - intros p Hp. apply lookup_insert_is_Some'. right. by apply i_log0.
  - exists o'. split; [done |]. split; [done |]. split.
    + intros tid2 t2. rewrite lookup_insert. case_decide as E.
      * subst tid2. intros [= <-]. destruct (inside t') eqn:Ei; [naive_solver |].
        destruct (Hout eq_refl) as [-> _]. done.
      * intros H2. specialize (Ho _ _ H2). split.
        -- intros Hi. apply Ho in Hi. destruct Hoo as [-> | ->]; naive_solver.
        -- intros ->. destruct (inside t') eqn:Ei; [destruct (Hin eq_refl); naive_solver |].
           by destruct (Hout eq_refl).
    + intros tid2 E. destruct (inside t') eqn:Ei.
      * destruct (Hin eq_refl) as [E2 Hown]. rewrite E2 in E. injection E as <-. exists t'.
        by rewrite lookup_insert_eq.
      * destruct (Hout eq_refl) as [E2 _]. by rewrite E2 in E.
  - intros tid2 t2. rewrite lookup_insert. case_decide as E; [| by apply i_rest0].
    subst tid2. intros [= <-]. destruct (inside t') eqn:Ei; [| by apply Hout].
    unfold inside in Ei. unfold rest. destruct (t_pc t'); done.
Qed.

(** A step that changes the driver only. *)
Lemma inv_driver init s h' :
  inv init s → (∀ x, hw_sector (lh_hw h') x = hw_sector (lh_hw (s_lhd s)) x) →
  lh_clear h' = lh_clear (s_lhd s) → (idle (s_lhd s) → idle h') →
  (∀ tid t, s_calls s !! tid = Some t → own tid t (s_lhd s) (ops tid (s_log s)) →
     own tid t h' (ops tid (s_log s))) →
  inv init (mkSys h' (s_calls s) (s_log s)).
Proof using.
  intros [] Hsec Hc Hid Hown. split; cbn [s_lhd s_calls s_log]; try done.
  - intros x. by rewrite Hsec.
  - destruct i_owner0 as (o & H1 & H2 & H3 & H4). exists o. split; [congruence |]. split; [auto |].
    split; [done |]. intros tid E. destruct (H4 tid E) as (t & Ht & Ho). exists t. auto.
Qed.

Lemma step_begin_inv init s tid rq :
  inv init s → s_calls s !! tid = None →
  inv init (mkSys (s_lhd s) (<[tid := lhd_io_begin rq (s_lhd s)]> (s_calls s)) (s_log s)).
Proof using.
  intros [] Hn. set (t := lhd_io_begin rq (s_lhd s)).
  assert (ops tid (s_log s) = []) as E.
  { destruct (ops tid (s_log s)) as [|o l] eqn:E; [done |]. exfalso.
    assert (o ∈ ops tid (s_log s)) as Ho by (rewrite E; left).
    apply list_elem_of_filter in Ho as [<- Ho]. apply i_log0 in Ho. rewrite Hn in Ho. by destruct Ho. }
  assert (inside t = false ∧ rest tid t []) as [Hi Hr].
  { unfold t, lhd_io_begin. destruct (_ || _); [| destruct (_ <? _)]; (split; [done |]); cbn.
    - split; [done |]. exists 0%nat, []. cbn. split_and!; [lia | done | lia].
    - split; [done |]. exists 0%nat, []. cbn. split_and!; [lia | done | lia].
    - split; [lia |]. done. }
  split; cbn [s_lhd s_calls s_log]; try done.
  - intros o Ho. apply lookup_insert_is_Some'. right. by apply i_log0.
  - destruct i_owner0 as (o & H1 & H2 & H3 & H4). exists o. split; [done |]. split; [done |]. split.
    + intros tid2 t2. rewrite lookup_insert. case_decide as E2; [| by apply H3].
      subst tid2. intros [= <-]. rewrite Hi. split; [done |]. intros ->.
      destruct (H4 tid eq_refl) as (t' & Ht' & _). congruence.
    + intros tid2 E2. destruct (H4 tid2 E2) as (t2 & Ht2 & Ho). exists t2. split; [| done].
      rewrite lookup_insert_ne; [done |]. intros ->. congruence.
  - intros tid2 t2. rewrite lookup_insert. case_decide as E2; [| by apply i_rest0].
    subst tid2. intros [= <-]. by rewrite E.
Qed.

(** A call that returns without touching the device. *)
Lemma inv_call_out init s tid t t' :
  inv init s → s_calls s !! tid = Some t → inside t = false → inside t' = false →
  rest tid t' (ops tid (s_log s)) → inv init (mkSys (s_lhd s) (<[tid := t']> (s_calls s)) (s_log s)).
Proof using.
  intros [] Ht Hi Hi' Hr. split; cbn [s_lhd s_calls s_log]; try done.
  - intros o Ho. apply lookup_insert_is_Some'. right. by apply i_log0.
  - destruct i_owner0 as (o & H1 & H2 & H3 & H4). exists o. split; [done |]. split; [done |]. split.
    + intros tid2 t2. rewrite lookup_insert. case_decide as E2; [| by apply H3].
      subst tid2. intros [= <-]. rewrite Hi', <- (H3 tid t Ht), Hi. done.
    + intros tid2 E2. destruct (H4 tid2 E2) as (t2 & Ht2 & Ho). exists t2. split; [| done].
      rewrite lookup_insert_ne; [done |]. intros ->.
      assert (t2 = t) as -> by congruence. apply (H3 _ _ Ht) in E2. congruence.
  - intros tid2 t2. rewrite lookup_insert. case_decide as E2; [| by apply i_rest0].
    subst tid2. by intros [= <-].
Qed.

Lemma step_call_inv init s tid t t' h' :
  inv init s → s_calls s !! tid = Some t → lhd_io_step t (s_lhd s) = Some (t', h') →
  inv init (mkSys h' (<[tid := t']> (s_calls s)) (s_log s)).
Proof using LhdHwLaws0.
  intros Hinv Ht Hs. pose proof Hinv as [_ _ _ (o & Hc & Hid & Ho & Hown) Hrest].
  specialize (Hrest tid t Ht). pose proof (Ho tid t Ht) as Hin.
  assert (inside t = true → own tid t (s_lhd s) (ops tid (s_log s)) ∧ o = Some tid) as Hmine.
  { intros Hi. apply Hin in Hi. destruct (Hown tid Hi) as (t0 & Ht0 & Hx). simplify_eq. done. }
  unfold lhd_io_step in Hs. unfold inside in Hmine. unfold own in Hmine. unfold rest in Hrest.
  destruct (t_pc t) as [i | i | i | i | i | i | i r | r] eqn:Epc; try (destruct (Hmine eq_refl) as [Hm Hmo]; clear Hrest).
  - destruct Hrest as (Hle & Hg & Hl). destruct (Nat.ltb_spec i (t_len t)) as [Hlt | Hge].
    + destruct (Z.ltb_spec 0 (lh_clear (s_lhd s))) as [Hpos | ?]; [| done]. injection Hs as <- <-.
      assert (o = None) as -> by (destruct o; [lia | done]).
      eapply (inv_call _ _ _ _ _ _ None (Some tid)); try done; [cbn; lia | | by left].
      intros _. split; [done |]. cbn. split_and!; try done; by apply Hid.
    + injection Hs as <- <-. assert (i = t_len t) as -> by lia.
      eapply inv_call_out; [done | done | by unfold inside; rewrite Epc | done |]. cbn.
      split; [done |]. exists (t_len t), []. rewrite app_nil_r. split_and!; [lia | done | cbn; lia].
  - destruct Hm as (Hlt & Hg & (Hst & Hd) & Hl). destruct (uio_write (t_rq t)) eqn:Ew.
    + destruct (rq_move (t_rq t) i =? 0) eqn:Em; cbn [negb] in Hs; injection Hs as <- <-; zbool.
      * eapply (inv_call _ _ _ _ _ _ o (Some tid)); try done; [intros x; apply setbuf_sector | cbn; by rewrite Hc, Hmo | | by right].
        intros _. split; [done |]. cbn. unfold idle, filled. cbn. rewrite setbuf_reg, setbuf_buf. done.
      * eapply (inv_call _ _ _ _ _ _ o None); try done; [intros x; apply setbuf_sector | | | | by right].
        { cbn; by rewrite Hc, Hmo. } { intros _. split; [| done]. cbn. by rewrite setbuf_reg. }
        intros _. split; [done |]. cbn. split; [done |]. exists i, []. rewrite app_nil_r. split_and!; [lia | done | cbn; lia].
    + injection Hs as <- <-.
      eapply (inv_call _ _ _ _ _ _ o (Some tid)); try done; [cbn; by rewrite Hc, Hmo | | by right].
      intros _. split; [done |]. cbn. split_and!; try done. unfold filled. cbn. by rewrite Ew.
  - destruct Hm as (Hlt & Hg & (Hst & Hd) & Hl & Hf). injection Hs as <- <-.
    eapply (inv_call _ _ _ _ _ _ o (Some tid)); try done; [intros x; apply wreg_sector | cbn; by rewrite Hc, Hmo | | by right].
    intros _. split; [done |]. cbn. unfold idle, filled. cbn. by rewrite wsect_stat, wreg_buf, wsect_sect.
  - destruct Hm as (Hlt & Hg & (Hst & Hd) & Hl & Hf & Hse). injection Hs as <- <-.
    eapply (inv_call _ _ _ _ _ _ o (Some tid)); try done; [intros x; apply wreg_sector | cbn; by rewrite Hc, Hmo | | by right].
    intros _. split; [done |]. cbn. split; [done |]. split; [done |]. left. unfold filled. cbn.
    rewrite wstat_stat, wreg_buf, wstat_sect. split_and!; try done. unfold statval, tag. cbn. by destruct (w t).
  - destruct (Z.ltb_spec 0 (lh_done (s_lhd s))) as [Hpos | ?]; [| done]. injection Hs as <- <-.
    destruct Hm as (Hlt & Hg & [(Hd & _) | (code & Hdid & [(Hd & _) | (Hd & Hst & Hres)])]); [lia | lia |].
    eapply (inv_call _ _ _ _ _ _ o (Some tid)); try done; [cbn; by rewrite Hc, Hmo | | by right].
    intros _. split; [done |]. cbn. split; [done |]. split; [done |]. unfold idle. cbn. rewrite Hd.
    split; [done |]. exists code. done.
  - destruct Hm as (Hlt & Hg & Hidl & code & Hdid & Hres). rewrite Hres in Hs.
    destruct (status_masked code t (proj1 Hdid)) as (_ & _ & _ & Hok). pose proof Hdid as (_ & d & Hl & Hdat).
    destruct ((lhd_code_to_errno code =? 0) && negb (w t)) eqn:Er.
    + zbool. apply Hok in H as ->. rewrite H0 in Hdat. specialize (Hdat eq_refl).
      destruct (Z.eqb_spec (rq_move (t_rq t) i) 0) as [Em | Em]; injection Hs as <- <-.
      * eapply (inv_call _ _ _ _ _ _ o (Some tid)); try done; [cbn; by rewrite Hc, Hmo | | by right].
        intros _. split; [done |]. cbn. split; [done |]. split; [done |]. left. split; [done |].
        specialize (Hg H0). split.
        -- change (evs tid (goto (Leaving i 0) (deliver (hw_buf (lh_hw (s_lhd s))) t))) with (evs tid (deliver (hw_buf (lh_hw (s_lhd s))) t)).
           rewrite evs_S, evs_deliver, Hl by (left; lia). cbn. rewrite H0. do 3 f_equal.
           by rewrite lookup_app_r, Hg, Nat.sub_diag by lia.
        -- intros _. cbn. rewrite length_app, Hg. done.
      * eapply (inv_call _ _ _ _ _ _ o (Some tid)); try done; [cbn; by rewrite Hc, Hmo | | by right].
        intros _. split; [done |]. cbn. split; [done |]. split; [done |]. right. split; [done |]. by eexists.
    + injection Hs as <- <-.
      eapply (inv_call _ _ _ _ _ _ o (Some tid)); try done; [cbn; by rewrite Hc, Hmo | | by right].
      intros _. split; [done |]. cbn. split; [done |]. split; [done |].
      destruct (Z.eqb_spec (lhd_code_to_errno code) 0) as [E0 | E0]; [left | right; split; [done | by eexists]].
      split; [done |]. apply Hok in E0 as ->. cbn in Er. apply negb_false_iff in Er. rewrite Er in Hdat.
      split; [| by unfold got; cbn; rewrite Er].
      change (evs tid (goto (Leaving i (lhd_code_to_errno LHD_OK)) t)) with (evs tid t).
      rewrite evs_S, Hl, Er. by rewrite Hdat.
  - destruct Hm as (Hlt & Hidl & Hcase). injection Hs as <- <-.
    eapply (inv_call _ _ _ _ _ _ o None); try done; [by cbn; rewrite Hc, Hmo | | | by right].
    + intros Hi. exfalso. by destruct (r =? 0) in Hi.
    + intros _. split; [done |]. destruct Hcase as [(-> & Hl & Hg) | (Hr & p & Hl)].
      * cbn. split_and!; [lia | done | done].
      * rewrite (proj2 (Z.eqb_neq r 0)) by done. cbn. split; [done |]. exists i, [p]. split_and!; [lia | done | cbn; lia].
  - done.
Qed.

Lemma lhd_step_irq_inv init s h' :
  inv init s → lhd_irq (s_lhd s) = Done tt h' → inv init (mkSys h' (s_calls s) (s_log s)).
Proof using LhdHwLaws0.
  intros Hinv. unfold lhd_irq, lhd_rdreg, lhd_wreg, lhd_iodone. mrun.
  destruct (_ || _) eqn:Est; intros E; injection E as <-.
  2: { by apply inv_driver. }
  apply inv_driver; [done | intros x; apply wreg_sector | done | |].
  - intros [H0 _]. by rewrite H0 in Est.
  - intros tid t Ht. unfold own.
    destruct (t_pc t) as [i | i | i | i | i | i | i r | r]; try done;
      try (by intros (_ & _ & [H0 _] & _); rewrite H0 in Est).
    + intros (Hlt & Hg & Hcase). split; [done |]. split; [done |].
      destruct Hcase as [(_ & Hst & _) | (code & Hdid & [(Hd & Hst) | (_ & Hst & _)])].
      * rewrite Hst in Est. unfold tag in Est. by destruct (w t) in Est.
      * right. exists code. split.
        { destruct Hdid as (He & d & Hl & Hdat). split; [done |]. exists d. split; [done |]. cbn. by rewrite wreg_buf. }
        right. cbn. rewrite wstat_stat, Hd, Hst. split; [done |]. split; [done |].
        by apply status_masked, Hdid.
      * by rewrite Hst in Est.
    + by intros (_ & [H0 _] & _); rewrite H0 in Est.
Qed.

(** A move of the card serves the call that has the device. *)
Lemma working_owner init s d' :
  inv init s → hw_moves (lh_hw (s_lhd s)) d' →
  ∃ tid t i, s_calls s !! tid = Some t ∧ t_pc t = Waiting i ∧ (i < t_len t)%nat ∧ got t i ∧
    lh_done (s_lhd s) = 0 ∧ STAT (s_lhd s) = Z.lor LHD_WORKING (tag t) ∧
    ops tid (s_log s) = evs tid t i ∧ filled t i (s_lhd s) ∧ SECT (s_lhd s) = u32 (t_sector t + Z.of_nat i) ∧
    (∀ tid2 t2, s_calls s !! tid2 = Some t2 → inside t2 = true → tid2 = tid).
Proof using LhdHwLaws0.
  intros [_ _ _ (o & Hc & Hid & Ho & Hown) Hrest] Hmv. apply moves_working in Hmv as Hwk.
  assert (STAT (s_lhd s) ≠ 0) as Hnz by (destruct Hwk as [-> | ->]; vm_compute; discriminate).
  destruct o as [tid|]; [| by destruct (Hid eq_refl)].
  destruct (Hown tid eq_refl) as (t & Ht & Hx). unfold own in Hx.
  destruct (t_pc t) as [i | i | i | i | i | i | i r | r] eqn:Epc; try done;
    try (by destruct Hx as (_ & _ & [H0 _] & _)); [| by destruct Hx as (_ & [H0 _] & _)].
  destruct Hx as (Hlt & Hg & [(Hd & Hst & Hl & Hf & Hse) | (code & [He _] & [(_ & Hst) | (_ & Hst & _)])]); [| | done].
  - exists tid, t, i. split_and!; try done. intros tid2 t2 H2 Hi2. apply (Ho _ _ H2) in Hi2. congruence.
  - exfalso. destruct Hwk as [E | E]; rewrite Hst in E.
    + by destruct He as [-> | [-> | ->]]; unfold tag in E; destruct (w t).
    + by destruct He as [-> | [-> | ->]]; unfold tag in E; destruct (w t).
Qed.

Lemma lhd_step_hw_inv init s tid t i d' :
  inv init s → hw_moves (lh_hw (s_lhd s)) d' → s_calls s !! tid = Some t → t_pc t = Waiting i →
  inv init (mkSys (with_hw d' (s_lhd s)) (s_calls s) (s_log s ++ [moved tid t (lh_hw (s_lhd s)) d'])).
Proof using LhdHwLaws0.
  intros Hinv Hmv Ht Epc.
  destruct (working_owner init s d' Hinv Hmv) as (tid' & t' & i' & Ht' & Epc' & Hlt & Hg & Hd & Hst & Hl & Hf & Hse & Huniq).
  assert (tid = tid') as <- by (apply (Huniq tid t Ht); unfold inside; by rewrite Epc). simplify_eq.
  assert (i' = i) as -> by congruence. clear Epc'.
  destruct (moves_status _ _ Hmv) as (code & He & Hst').
  assert (Z.land (STAT (s_lhd s)) LHD_ISWRITE = tag t) as Etag.
  { rewrite Hst. unfold tag. by destruct (w t). }
  rewrite Etag in Hst'. destruct (status_masked code t He) as (Hmask & _ & _ & _).
  set (op := moved tid t (lh_hw (s_lhd s)) d').
  assert (op = mkOp tid (w t) (code =? LHD_OK) (u32 (t_sector t + Z.of_nat i)) (op_data op)) as Eop.
  { unfold op, moved. cbn [op_data]. rewrite Hst', Hmask. f_equal. exact Hse. }
  assert (w t = false → ∀ x, hw_sector d' x = hw_sector (lh_hw (s_lhd s)) x) as Hrd.
  { intros Ew x. apply (moves_read _ _ _ Hmv). rewrite Hst. unfold tag. by rewrite Ew. }
  pose proof Hinv as [Hdisk Hreads Hlog (o & Hc & Hid & Ho & Hown) Hrest].
  assert (o = Some tid) as -> by (apply (Ho tid t Ht); unfold inside; by rewrite Epc).
  split; cbn [s_lhd s_calls s_log].
  - intros x. cbn [lh_hw with_hw]. rewrite replay_app. rewrite Eop. cbn [op_write op_sector].
    destruct (w t) eqn:Ew; cbn [andb].
    + destruct (Z.eqb_spec x (u32 (t_sector t + Z.of_nat i))) as [-> | Hne].
      * unfold op, moved. cbn [op_data]. rewrite Ew. by rewrite Hse.
      * rewrite <- Hdisk. apply moves_other; [done | by rewrite Hse].
    + rewrite <- Hdisk. by apply Hrd.
  - apply reads_ok_app; [done |]. unfold op, moved. cbn. intros Ew Hok. rewrite Ew, <- Hdisk.
    apply moves_read_ok; [done |]. rewrite Hst' in Hok |- *. rewrite Hmask in Hok. zbool. subst code.
    unfold tag. by rewrite Ew.
  - intros p [Hp | ->%list_elem_of_singleton]%elem_of_app; [by apply Hlog |]. rewrite Eop. by exists t.
  - exists (Some tid). split; [done |]. split; [done |]. split; [done |]. intros tid2 [= <-]. exists t. split; [done |].
    rewrite ops_app, ops_one, decide_True by (by rewrite Eop). unfold own. rewrite Epc. split; [done |]. split; [done |].
    right. exists code. split.
    + split; [done |]. exists (op_data op). rewrite Hl, <- Eop. split; [done |]. intros ->.
      unfold op, moved. cbn [op_data lh_hw with_hw]. destruct (w t) eqn:Ew; [| done].
      rewrite (moves_write _ _ Hmv); [by apply Hf |]. rewrite Hst'. unfold tag. by rewrite Ew.
    + left. done.
  - intros tid2 t2 H2. rewrite ops_app, ops_one. destruct (decide (op_call op = tid2)) as [E | E].
    + rewrite Eop in E. cbn in E. subst tid2. simplify_eq. unfold rest. by rewrite Epc.
    + rewrite app_nil_r. by apply Hrest.
Qed.

Lemma lhd_step_inv init s s' : inv init s → step s s' → inv init s'.
Proof using LhdHwLaws0.
  intros Hinv Hstep. destruct Hstep as [s0 tid rq Hn | s0 tid t t' h' Ht Hs | s0 h' Hi | s0 tid t i d' Hm Ht Hp | s0 d' Hm Hno].
  - by apply step_begin_inv.
  - by eapply step_call_inv.
  - by apply lhd_step_irq_inv.
  - by eapply lhd_step_hw_inv.
  - destruct (working_owner init s0 d' Hinv Hm) as (tid & t & i & Ht & Ep & _). by destruct (Hno tid t i Ht).
Qed.

(** The driver as config_lhd leaves it, with the card idle. *)
Definition configured h : Prop := lh_clear h = 1 ∧ idle h.

Lemma inv_start h : configured h → inv (hw_sector (lh_hw h)) (mkSys h ∅ []).
Proof using.
  intros [Hc Hi]. split; cbn [s_lhd s_calls s_log]; try done.
  - intros [|? ?] ? ? E; done.
  - intros o Ho. by apply elem_of_nil in Ho.
  - exists None. done.
Qed.

Lemma lhd_reach_inv h s : configured h → rtc step (mkSys h ∅ []) s → inv (hw_sector (lh_hw h)) s.
Proof using LhdHwLaws0.
  intros Hcfg Hrun. pose proof (inv_start h Hcfg) as Hinv. revert Hinv.
  generalize (hw_sector (lh_hw h)). intros init.
  induction Hrun as [| s0 s1 s2 Hs _ IH]; [done |]. intros Hinv. apply IH. by eapply lhd_step_inv.
Qed.

(** C12: However the calls of lhd_io of any number of threads, the interrupts and the
    disk interleave, the disk holds what the sector operations of the log wrote, in
    order, and each read got what was on the disk at its place in the log.  A call that
    has returned 0 has had exactly its sectors done, in order, each once and
    successfully, with its data; one that returned an error, its first sectors and at
    most one more. *)
Theorem lhd_atomic h s :
  configured h → rtc step (mkSys h ∅ []) s →
  (∀ x, hw_sector (lh_hw (s_lhd s)) x = replay (hw_sector (lh_hw h)) (s_log s) x) ∧
  reads_ok (hw_sector (lh_hw h)) (s_log s) ∧
  (∀ tid t r, s_calls s !! tid = Some t → t_pc t = Returned r →
     (r = 0 → ops tid (s_log s) = evs tid t (t_len t) ∧ (w t = false → length (t_got t) = t_len t)) ∧
     ∃ i extra, (i <= t_len t)%nat ∧ ops tid (s_log s) = evs tid t i ++ extra ∧ (length extra <= 1)%nat).
Proof using LhdHwLaws0.
  intros Hcfg Hrun. assert (inv (hw_sector (lh_hw h)) s) as [Hd Hr _ _ Hrest] by (by eapply lhd_reach_inv).
  split; [done |]. split; [done |]. intros tid t r Ht Ep. specialize (Hrest tid t Ht). unfold rest in Hrest.
  rewrite Ep in Hrest. destruct Hrest as [H0 Hex]. split; [| done]. intros ->. destruct (H0 eq_refl) as [Hg Hl]. done.
Qed.

(** C13: No deadlock: while a call has not returned, some call can take a step, or the
    interrupt handler has something to report, or the card is at work. *)
Theorem lhd_progress h s tid t :
  configured h → rtc step (mkSys h ∅ []) s → s_calls s !! tid = Some t → (∀ r, t_pc t ≠ Returned r) →
  (∃ tid' t' t'' h', s_calls s !! tid' = Some t' ∧ lhd_io_step t' (s_lhd s) = Some (t'', h')) ∨
  (∃ h', lhd_irq (s_lhd s) = Done tt h' ∧ 0 < lh_done h') ∨
  (STAT (s_lhd s) = LHD_WORKING ∨ STAT (s_lhd s) = Z.lor LHD_WORKING LHD_ISWRITE).
Proof using LhdHwLaws0.
  intros Hcfg Hrun Ht Hnr. assert (inv (hw_sector (lh_hw h)) s) as [_ _ _ (o & Hc & Hid & Ho & Hown) _] by (by eapply lhd_reach_inv).
  destruct o as [tid'|].
  - destruct (Hown tid' eq_refl) as (t' & Ht' & Hx).
    destruct (lhd_io_step t' (s_lhd s)) as [[t'' h']|] eqn:Es; [left; naive_solver |]. right.
    unfold lhd_io_step in Es. unfold own in Hx. destruct (t_pc t') as [i | i | i | i | i | i | i r | r]; try done.
    + by destruct (uio_write (t_rq t')); [destruct (negb _) |].
    + destruct Hx as (_ & _ & [(_ & Hst & _) | (code & [He _] & [(Hd & Hst) | (Hd & _)])]).
      * right. rewrite Hst. unfold tag. destruct (w t'); auto.
      * left. unfold lhd_irq, lhd_rdreg, lhd_wreg, lhd_iodone. mrun. rewrite Hst.
        destruct (status_masked code t' He) as (-> & _). destruct He as [-> | [-> | ->]]; cbn; rewrite Hd; eexists; done.
      * rewrite Hd in Es. done.
    + by destruct ((_ =? 0) && _); [destruct (rq_move _ _ =? 0) |].
  - left. exists tid, t. assert (inside t = false) as Hi.
    { destruct (inside t) eqn:Ei; [| done]. by apply (Ho tid t Ht) in Ei. }
    unfold inside in Hi. unfold lhd_io_step. destruct (t_pc t) as [i | i | i | i | i | i | i r | r] eqn:Ep; try done.
    + destruct (Nat.ltb i (t_len t)); [rewrite Hc; cbn |]; eexists _, _; done.
    + by destruct (Hnr r).
Qed.
End props.

(** ** A card

    A disk of [c_nsect] sectors that finishes what it is told to do and reports sectors
    it does not have. *)

Record card := mkCard { c_nsect : Z; c_stat : Z; c_sect : Z; c_buf : list Z; c_disk : Z → list Z }.

Definition card_finish (d : card) : card :=
  let wr := Z.land (c_stat d) LHD_ISWRITE in
  if c_nsect d <=? c_sect d then
    mkCard (c_nsect d) (Z.lor LHD_INVSECT wr) (c_sect d) (c_buf d) (c_disk d)
  else if wr =? 0 then
    mkCard (c_nsect d) LHD_OK (c_sect d) (c_disk d (c_sect d)) (c_disk d)
  else
    mkCard (c_nsect d) (Z.lor LHD_OK wr) (c_sect d) (c_buf d)
      (λ x, if x =? c_sect d then c_buf d else c_disk d x).

Definition card_working (d : card) : bool :=
  (c_stat d =? LHD_WORKING) || (c_stat d =? Z.lor LHD_WORKING LHD_ISWRITE).

#[export] Instance card_hw : LhdHw card := {|
  hw_rdreg := λ r d, if r =? LHD_REG_STAT then c_stat d else if r =? LHD_REG_SECT then c_sect d
                     else if r =? LHD_REG_NSECT then c_nsect d else 0;
  hw_wreg := λ r v d, if r =? LHD_REG_STAT then mkCard (c_nsect d) v (c_sect d) (c_buf d) (c_disk d)
                      else if r =? LHD_REG_SECT then mkCard (c_nsect d) (c_stat d) v (c_buf d) (c_disk d)
                      else d;
  hw_buf := c_buf;
  hw_setbuf := λ l d, mkCard (c_nsect d) (c_stat d) (c_sect d) l (c_disk d);
  hw_sector := c_disk;
  hw_moves := λ d d', card_working d = true ∧ d' = card_finish d
|}.

#[export] Instance card_laws : LhdHwLaws card.
Proof.
  assert (∀ d, card_working d = true → c_stat d = 1 ∨ c_stat d = 3) as Hw.
  { intros d. unfold card_working. rewrite orb_true_iff, !Z.eqb_eq. done. }
  split; cbn; intros; try done.
  - by destruct (r =? LHD_REG_STAT); [| destruct (r =? LHD_REG_SECT)].
  - by destruct (r =? LHD_REG_STAT); [| destruct (r =? LHD_REG_SECT)].
  - destruct H as [H _]. by apply Hw in H.
  - destruct H as [H ->]. unfold card_finish. destruct (_ <=? _); [exists LHD_INVSECT; by auto |].
    exists LHD_OK. split; [by left |]. destruct (Z.eqb_spec (Z.land (c_stat d) LHD_ISWRITE) 0) as [E | E]; [by rewrite E | done].
  - destruct H as [H ->]. unfold card_finish. destruct (_ <=? _); [done |]. by destruct (_ =? 0).
  - destruct H as [H ->]. unfold card_finish. destruct (_ <=? _); [done |]. destruct (_ =? 0); [done |]. cbn.
    by rewrite (proj2 (Z.eqb_neq _ _)).
  - destruct H as [H ->]. revert H0. unfold card_finish. apply Hw in H. destruct (_ <=? _); [by destruct H as [-> | ->] |].
    destruct (_ =? 0); [done |]. cbn. by rewrite Z.eqb_refl.
  - destruct H as [H ->]. unfold card_finish. rewrite H0. by destruct (_ <=? _).
  - destruct H as [H ->]. revert H0. unfold card_finish. apply Hw in H. destruct (_ <=? _); [by destruct H as [-> | ->] |].
    destruct H as [E | E]; rewrite E; done.
Qed.

(** ** A run: a call that writes two sectors and one that reads the second of them. *)

Inductive action := ABegin (tid : Z) (rq : request) | ACall (tid : Z) | AIrq | AHw (tid : Z).

Definition act (a : action) (s : sys card) : option (sys card) :=
  match a with
  | ABegin tid rq =>
      match s_calls s !! tid with
      | None => Some (mkSys (s_lhd s) (<[tid := lhd_io_begin rq (s_lhd s)]> (s_calls s)) (s_log s))
      | Some _ => None
      end
  | ACall tid =>
      t ← s_calls s !! tid;
      '(t', h') ← lhd_io_step t (s_lhd s);
      Some (mkSys h' (<[tid := t']> (s_calls s)) (s_log s))
  | AIrq => match lhd_irq (s_lhd s) with Done _ h' => Some (mkSys h' (s_calls s) (s_log s)) | _ => None end
  | AHw tid =>
      t ← s_calls s !! tid;
      let d := lh_hw (s_lhd s) in
      match t_pc t with
      | Waiting _ =>
          if card_working d
          then Some (mkSys (with_hw (card_finish d) (s_lhd s)) (s_calls s) (s_log s ++ [moved tid t d (card_finish d)]))
          else None
      | _ => None
      end
  end.

Fixpoint run (l : list action) (s : sys card) : option (sys card) :=
  match l with [] => Some s | a :: r => s' ← act a s; run r s' end.

Lemma lhd_act_step a s s' : act a s = Some s' → step s s'.
Proof.
  destruct a as [tid rq | tid | | tid]; cbn.
  - destruct (s_calls s !! tid) eqn:E; [done |]. intros [= <-]. by constructor.
  - destruct (s_calls s !! tid) as [t|] eqn:E; [| done]. cbn.
    destruct (lhd_io_step t (s_lhd s)) as [[t' h']|] eqn:E2; [| done]. intros [= <-]. by econstructor.
  - destruct (lhd_irq (s_lhd s)) as [[] h' | | |] eqn:E; try done. intros [= <-]. by constructor.
  - destruct (s_calls s !! tid) as [t|] eqn:E; [| done]. cbn. destruct (t_pc t) eqn:Ep; try done.
    destruct (card_working _) eqn:Ew; [| done]. intros [= <-]. by econstructor.
Qed.

Lemma lhd_run_steps l s s' : run l s = Some s' → rtc step s s'.
Proof.
  revert s. induction l as [|a l IH]; intros s; cbn; [intros [= ->]; apply rtc_refl |].
  destruct (act a s) as [s1|] eqn:E; [| done]. cbn. intros Hr. eapply rtc_l; [by apply lhd_act_step in E | by apply IH].
Qed.

Definition w_lhd : lhd card := mkLhd (mkCard 16 0 0 [] (λ _, [])) 0 1 0 16.
Definition w_write : request := mkRq true 1024 1024 (λ i, [Z.of_nat i + 7]) (λ _, 0).
Definition w_read : request := mkRq false 1536 512 (λ _, []) (λ _, 0).
Definition w_acts : list action :=
  [ABegin 1 w_write; ABegin 2 w_read; ACall 1; ACall 1; ACall 1; ACall 1; AIrq; AHw 1; AIrq; ACall 1;
   ACall 1; ACall 1; ACall 1; ACall 1; ACall 1; ACall 1; AHw 1; AIrq; ACall 1; ACall 1; ACall 1; ACall 2;
   ACall 1; ACall 2; ACall 2; ACall 2; AHw 2; AIrq; ACall 2; ACall 2; ACall 2; ACall 2].
Definition w_end : sys card := default (mkSys w_lhd ∅ []) (run w_acts (mkSys w_lhd ∅ [])).
Definition w_call (tid : Z) : call := default (lhd_io_begin w_read w_lhd) (s_calls w_end !! tid).

Lemma w_reach : rtc step (mkSys w_lhd ∅ []) w_end.
Proof. apply (lhd_run_steps w_acts). vm_compute. reflexivity. Qed.

Lemma lhd_atomic_witness :
  t_got (w_call 2) = [[8]] ∧ ops 1 (s_log w_end) = evs 1 (w_call 1) 2 ∧
  ops 2 (s_log w_end) = evs 2 (w_call 2) 1.
Proof.
  destruct (lhd_atomic w_lhd w_end) as (_ & _ & Hret); [done | exact w_reach |].
  split; [vm_compute; reflexivity |]. split.
  - apply (Hret 1 (w_call 1) 0); vm_compute; reflexivity.
  - apply (Hret 2 (w_call 2) 0); vm_compute; reflexivity.
Defined.

(** The state in which the first call waits for the card. *)
Definition w_mid : sys card := default (mkSys w_lhd ∅ []) (run (take 6 w_acts) (mkSys w_lhd ∅ [])).

Lemma lhd_progress_witness :
  (∃ tid' t' t'' h', s_calls w_mid !! tid' = Some t' ∧ lhd_io_step t' (s_lhd w_mid) = Some (t'', h')) ∨
  (∃ h', lhd_irq (s_lhd w_mid) = Done tt h' ∧ 0 < lh_done h') ∨
  (hw_rdreg LHD_REG_STAT (lh_hw (s_lhd w_mid)) = LHD_WORKING ∨
   hw_rdreg LHD_REG_STAT (lh_hw (s_lhd w_mid)) = Z.lor LHD_WORKING LHD_ISWRITE).
Proof.
  apply (lhd_progress w_lhd w_mid 1 (default (lhd_io_begin w_read w_lhd) (s_calls w_mid !! 1))).
  - done.
  - apply (lhd_run_steps (take 6 w_acts)). vm_compute. reflexivity.
  - vm_compute. reflexivity.
  - vm_compute. discriminate.
Defined.
End LhdProps.
