(* ===== verification/Serial.v ===== *)
(** * The serial console (dev/lamebus/lser.c, con_lser.c, and console.c on it)

    The driver of the serial port with the console attached to it.  Threads that print
    and sleep, threads that print by polling, the interrupt handler and the port take
    their steps in any order.  What runs under the driver's spinlock is one step, except
    that a thread that polls keeps the lock while the port goes on.  The port is
    hardware: class [SerHw] has its registers, [SerHwLaws] how it behaves.  Interrupts
    of the bus go to one CPU, so there is one handler at a time. *)

From stdpp Require Import base list gmap numbers strings.
From Stdlib Require Import ZArith Lia.
From S2P Require Import Prelude Console.
Import Console.

#[local] Open Scope Z_scope.

Module Serial.

Definition LSER_REG_CHAR : Z := 0.
Definition LSER_REG_WIRQ : Z := 4.
Definition LSER_REG_RIRQ : Z := 8.
Definition LSER_IRQ_ENABLE : Z := 1.
Definition LSER_IRQ_ACTIVE : Z := 2.
Definition LSER_IRQ_FORCE : Z := 4.

(** The port; [ser_moves] is what it does by itself. *)
Class SerHw (D : Type) := {
  ser_read : Z → D → Z;
  ser_write : Z → Z → D → D;
  ser_moves : D → D → Prop
}.

Record lser (D : Type) := mkLser {
  ls_lock : bool;
  ls_wbusy : bool;
  ls_hw : D
}.
Arguments mkLser {D}. Arguments ls_lock {D}. Arguments ls_wbusy {D}. Arguments ls_hw {D}.

Section driver.
Context {D : Type} `{!SerHw D}.
Abbreviation L := (M (lser D)).

Definition with_wbusy b (x : lser D) := mkLser (ls_lock x) b (ls_hw x).
Definition with_port (d : D) (x : lser D) := mkLser (ls_lock x) (ls_wbusy x) d.

Definition spinlock_acquire : L unit :=
  held ← gets ls_lock;
  if held : bool then panic "Deadlock on spinlock" else modify (λ x, mkLser true (ls_wbusy x) (ls_hw x)).
Definition spinlock_release : L unit :=
  held ← gets ls_lock;
  kassert held "spinlock_release" ;; modify (λ x, mkLser false (ls_wbusy x) (ls_hw x)).

Definition bus_read_register (reg : Z) : L Z := gets (λ x, ser_read reg (ls_hw x)).
Definition bus_write_register (reg val : Z) : L unit :=
  modify (λ x, with_port (ser_write reg val (ls_hw x)) x).

Definition is_active (x : Z) : bool := negb (Z.land x LSER_IRQ_ACTIVE =? 0).

(** The part of lser_irq under the lock: whether the port is clear to write, and the
    character that came in. *)
Definition lser_irq : L (bool * option Z) :=
  spinlock_acquire ;;
  x ← bus_read_register LSER_REG_WIRQ;
  clear_to_write ←
    (if is_active x then
       modify (with_wbusy false) ;; bus_write_register LSER_REG_WIRQ LSER_IRQ_ENABLE ;; mret true
     else mret false);
  x ← bus_read_register LSER_REG_RIRQ;
  got_a_read ←
    (if is_active x then
       ch ← bus_read_register LSER_REG_CHAR;
       bus_write_register LSER_REG_RIRQ LSER_IRQ_ENABLE ;; mret (Some ch)
     else mret None);
  spinlock_release ;;
  mret (clear_to_write, got_a_read).

Definition lser_write (ch : Z) : L unit :=
  spinlock_acquire ;;
  busy ← gets ls_wbusy;
  if busy : bool then panic "lser: Not clear to write"
  else
    modify (with_wbusy true) ;;
    bus_write_register LSER_REG_CHAR ch ;;
    spinlock_release.

(** One turn of the loop of lser_poll_until_write: whether it ends. *)
Definition lser_poll_until_write : L bool :=
  held ← gets ls_lock;
  kassert held "spinlock_do_i_hold(&sc->ls_lock)" ;;
  val ← bus_read_register LSER_REG_WIRQ;
  mret (is_active val).

(** lser_writepolled up to the first loop, if any (whether an interrupt is pending), after
    it, and after the second. *)
Definition polled_begin (ch : Z) : L bool :=
  spinlock_acquire ;;
  irqpending ← gets ls_wbusy;
  if irqpending : bool then mret true
  else
    bus_write_register LSER_REG_WIRQ 0 ;;
    bus_write_register LSER_REG_CHAR ch ;;
    mret false.
Definition polled_send (ch : Z) : L unit :=
  bus_write_register LSER_REG_WIRQ (Z.lor LSER_IRQ_FORCE LSER_IRQ_ENABLE) ;;
  bus_write_register LSER_REG_CHAR ch.
Definition polled_end (irqpending : bool) : L unit :=
  (if irqpending then mret tt else bus_write_register LSER_REG_WIRQ LSER_IRQ_ENABLE) ;;
  spinlock_release.

Definition config_lser : L Z :=
  modify (λ x, mkLser false false (ls_hw x)) ;;
  bus_write_register LSER_REG_RIRQ LSER_IRQ_ENABLE ;;
  bus_write_register LSER_REG_WIRQ LSER_IRQ_ENABLE ;;
  mret 0.

(** ** Everybody together *)

(** A thread that prints a character: in [putch_intr], before P(cs_wsem) and before
    lser_write; or in [putch_polled]: before lser_writepolled, in its first loop, in its
    second. *)
Inductive pc :=
| AtP (ch : Z) | Go (ch : Z) | Start (ch : Z) | Poll1 (ch : Z) | Poll2 (irqpending : bool) | Finished.

(** [s_irq]: what the interrupt handler still has to do after its locked part.
    [s_sent]: the characters stored to the port, in order.  [s_inputs]: the characters
    given to the console, in order. *)
Record sys := mkSys {
  s_con : con;
  s_lser : lser D;
  s_threads : gmap Z pc;
  s_irq : option (bool * option Z);
  s_sent : list Z;
  s_inputs : list Z
}.

Definition P_wsem_step (c : con) : option con :=
  if 0 <? cs_wsem c then Some (with_wsem (cs_wsem c - 1) c) else None.

Inductive step : sys → sys → Prop :=
| step_print s tid p :
    s_threads s !! tid = None → (∃ ch, p = AtP ch ∨ p = Start ch) →
    step s (mkSys (s_con s) (s_lser s) (<[tid := p]> (s_threads s)) (s_irq s) (s_sent s) (s_inputs s))
| step_P s tid ch c' :
    s_threads s !! tid = Some (AtP ch) → P_wsem_step (s_con s) = Some c' →
    step s (mkSys c' (s_lser s) (<[tid := Go ch]> (s_threads s)) (s_irq s) (s_sent s) (s_inputs s))
| step_write s tid ch x' :
    s_threads s !! tid = Some (Go ch) → ls_lock (s_lser s) = false →
    lser_write ch (s_lser s) = Done tt x' →
    step s (mkSys (s_con s) x' (<[tid := Finished]> (s_threads s)) (s_irq s) (s_sent s ++ [u8 ch]) (s_inputs s))
| step_polled s tid ch pend x' :
    s_threads s !! tid = Some (Start ch) → ls_lock (s_lser s) = false →
    polled_begin ch (s_lser s) = Done pend x' →
    step s (mkSys (s_con s) x' (<[tid := if pend then Poll1 ch else Poll2 false]> (s_threads s)) (s_irq s)
              (if pend then s_sent s else s_sent s ++ [u8 ch]) (s_inputs s))
| step_poll1 s tid ch x1 x' :
    s_threads s !! tid = Some (Poll1 ch) → lser_poll_until_write (s_lser s) = Done true x1 →
    polled_send ch x1 = Done tt x' →
    step s (mkSys (s_con s) x' (<[tid := Poll2 true]> (s_threads s)) (s_irq s) (s_sent s ++ [u8 ch]) (s_inputs s))
| step_poll2 s tid pend x1 x' :
    s_threads s !! tid = Some (Poll2 pend) → lser_poll_until_write (s_lser s) = Done true x1 →
    polled_end pend x1 = Done tt x' →
    step s (mkSys (s_con s) x' (<[tid := Finished]> (s_threads s)) (s_irq s) (s_sent s) (s_inputs s))
| step_irq s r x' :
    s_irq s = None → ls_lock (s_lser s) = false → lser_irq (s_lser s) = Done r x' →
    step s (mkSys (s_con s) x' (s_threads s) (Some r) (s_sent s) (s_inputs s))
| step_start s got c' :
    s_irq s = Some (true, got) → con_start (s_con s) = Done tt c' →
    step s (mkSys c' (s_lser s) (s_threads s) (Some (false, got)) (s_sent s) (s_inputs s))
| step_input s ch c' :
    s_irq s = Some (false, Some ch) → con_input ch (s_con s) = Done tt c' →
    step s (mkSys c' (s_lser s) (s_threads s) None (s_sent s) (s_inputs s ++ [ch]))
| step_getch s ch c' :
    0 < cs_rsem (s_con s) → take_char (with_rsem (cs_rsem (s_con s) - 1) (s_con s)) = Done ch c' →
    step s (mkSys c' (s_lser s) (s_threads s) (s_irq s) (s_sent s) (s_inputs s))
| step_irq_end s :
    s_irq s = Some (false, None) →
    step s (mkSys (s_con s) (s_lser s) (s_threads s) None (s_sent s) (s_inputs s))
| step_hw s d' :
    ser_moves (ls_hw (s_lser s)) d' →
    step s (mkSys (s_con s) (with_port d' (s_lser s)) (s_threads s) (s_irq s) (s_sent s) (s_inputs s)).
End driver.
Arguments sys : clear implicits.

(** How the port behaves, in terms of the character it is sending, what has gone out on
    the line and what has come in.  A store to the character register starts sending, if
    the port is not sending; the end of it sets the ready bit of WIRQ.  A character that
    comes in sets the ready bit of RIRQ, and the next comes in when that has been
    cleared.  Stores to WIRQ and RIRQ are kept. *)
Class SerHwLaws (D : Type) `{!SerHw D} := {
  sending : D → option Z;
  line_out : D → list Z;
  line_in : D → list Z;
  wchar_sending c d : sending d = None → sending (ser_write LSER_REG_CHAR c d) = Some (u8 c);
  wchar_out c d : line_out (ser_write LSER_REG_CHAR c d) = line_out d;
  wchar_wirq c d : ser_read LSER_REG_WIRQ (ser_write LSER_REG_CHAR c d) = ser_read LSER_REG_WIRQ d;
  wwirq_sending v d : sending (ser_write LSER_REG_WIRQ v d) = sending d;
  wwirq_out v d : line_out (ser_write LSER_REG_WIRQ v d) = line_out d;
  wwirq_wirq v d : ser_read LSER_REG_WIRQ (ser_write LSER_REG_WIRQ v d) = v;
  wrirq_sending v d : sending (ser_write LSER_REG_RIRQ v d) = sending d;
  wrirq_out v d : line_out (ser_write LSER_REG_RIRQ v d) = line_out d;
  wrirq_wirq v d : ser_read LSER_REG_WIRQ (ser_write LSER_REG_RIRQ v d) = ser_read LSER_REG_WIRQ d;
  wrirq_rirq v d : ser_read LSER_REG_RIRQ (ser_write LSER_REG_RIRQ v d) = v;
  write_in r v d : line_in (ser_write r v d) = line_in d;
  write_rirq r v d : r ≠ LSER_REG_RIRQ → ser_read LSER_REG_RIRQ (ser_write r v d) = ser_read LSER_REG_RIRQ d;
  write_char r v d : ser_read LSER_REG_CHAR (ser_write r v d) = ser_read LSER_REG_CHAR d;
  moves_cases d d' : ser_moves d d' →
    (∃ c, sending d = Some c ∧ sending d' = None ∧ line_out d' = line_out d ++ [c] ∧
       ser_read LSER_REG_WIRQ d' = Z.lor (ser_read LSER_REG_WIRQ d) LSER_IRQ_ACTIVE ∧
       ser_read LSER_REG_RIRQ d' = ser_read LSER_REG_RIRQ d ∧
       ser_read LSER_REG_CHAR d' = ser_read LSER_REG_CHAR d ∧ line_in d' = line_in d) ∨
    (is_active (ser_read LSER_REG_RIRQ d) = false ∧ sending d' = sending d ∧ line_out d' = line_out d ∧
       ser_read LSER_REG_WIRQ d' = ser_read LSER_REG_WIRQ d ∧
       ser_read LSER_REG_RIRQ d' = Z.lor (ser_read LSER_REG_RIRQ d) LSER_IRQ_ACTIVE ∧
       line_in d' = line_in d ++ [ser_read LSER_REG_CHAR d'])
}.

End Serial.
