(* ===== verification/SerialProps.v ===== *)
(** * Printing through the serial port

    The right to write to the port is a token: it is in the semaphore [cs_wsem], with a
    thread that has passed [P], in the port while it sends, or with the interrupt
    handler on its way back to the semaphore. *)

From stdpp Require Import base list gmap numbers strings.
From Stdlib Require Import ZArith Lia.
From S2P Require Import Prelude Console Serial.
Import Console Serial.

#[local] Open Scope Z_scope.

Module SerialProps.

Inductive token := InSem | InPort | AtThread (tid : Z) | AtHandler.

Section props.
Context {D : Type} `{!SerHw D} `{!SerHwLaws D}.
Implicit Types (s : sys D) (d : D).

Abbreviation WIRQ d := (ser_read LSER_REG_WIRQ d).
Abbreviation RIRQ d := (ser_read LSER_REG_RIRQ d).

(** Sending, or done with the ready bit set. *)
Definition sends (v : Z) d : Prop :=
  (is_Some (sending d) ∧ WIRQ d = v) ∨ (sending d = None ∧ WIRQ d = Z.lor v LSER_IRQ_ACTIVE).

(** The port while the driver's lock is free, and while a thread polls. *)
Definition port_free (busy : bool) d : Prop :=
  if busy then sends LSER_IRQ_ENABLE d ∨ (sending d = None ∧ WIRQ d = 7)
  else sending d = None ∧ WIRQ d = LSER_IRQ_ENABLE.
Definition polls (p : pc) : bool := match p with Poll1 _ | Poll2 _ => true | _ => false end.
Definition port_polled (p : pc) (busy : bool) d : Prop :=
  match p with
  | Poll1 _ => busy = true ∧ port_free true d
  | Poll2 pend => busy = pend ∧ sends (if pend then Z.lor LSER_IRQ_FORCE LSER_IRQ_ENABLE else 0) d
  | _ => False
  end.

Definition pending_in (i : option (bool * option Z)) : list Z :=
  match i with Some (_, Some ch) => [ch] | _ => [] end.
Definition arriving d : list Z := if is_active (RIRQ d) then [ser_read LSER_REG_CHAR d] else [].

Record inv s : Prop := {
  v_out : line_out (ls_hw (s_lser s)) ++ option_list (sending (ls_hw (s_lser s))) = s_sent s;
  v_in : s_inputs s ++ pending_in (s_irq s) ++ arriving (ls_hw (s_lser s)) = line_in (ls_hw (s_lser s));
  v_token : ∃ k,
    cs_wsem (s_con s) = (if k is InSem then 1 else 0) ∧
    (ls_wbusy (s_lser s) = true ↔ k = InPort) ∧
    (∀ tid ch, s_threads s !! tid = Some (Go ch) → k = AtThread tid) ∧
    (∀ tid, k = AtThread tid → ∃ ch, s_threads s !! tid = Some (Go ch)) ∧
    ((∃ got, s_irq s = Some (true, got)) ↔ k = AtHandler);
  v_lock : if ls_lock (s_lser s)
    then ∃ tid p, s_threads s !! tid = Some p ∧ port_polled p (ls_wbusy (s_lser s)) (ls_hw (s_lser s)) ∧
           ∀ tid' p', s_threads s !! tid' = Some p' → polls p' = true → tid' = tid
    else port_free (ls_wbusy (s_lser s)) (ls_hw (s_lser s)) ∧
           ∀ tid' p', s_threads s !! tid' = Some p' → polls p' = true → False
}.

(** ** The functions of the driver *)

Lemma lser_write_run ch (x : lser D) :
  ls_lock x = false → ls_wbusy x = false →
  lser_write ch x = Done tt (mkLser false true (ser_write LSER_REG_CHAR ch (ls_hw x))).
Proof using SerHwLaws0.
  intros Hl Hb. unfold lser_write, spinlock_acquire, spinlock_release, bus_write_register. mrun.
  rewrite Hl. cbn. rewrite Hb. done.
Qed.

Lemma polled_begin_run ch (x : lser D) :
  ls_lock x = false →
  polled_begin ch x = Done (ls_wbusy x) (mkLser true (ls_wbusy x)
    (if ls_wbusy x then ls_hw x else ser_write LSER_REG_CHAR ch (ser_write LSER_REG_WIRQ 0 (ls_hw x)))).
Proof using SerHwLaws0.
  intros Hl. unfold polled_begin, spinlock_acquire, bus_write_register. mrun. rewrite Hl. cbn.
  by destruct (ls_wbusy x) eqn:E.
Qed.

(** The registers after the locked part of the interrupt handler. *)
Definition irq_port d : D :=
  let d1 := if is_active (WIRQ d) then ser_write LSER_REG_WIRQ LSER_IRQ_ENABLE d else d in
  if is_active (RIRQ d) then ser_write LSER_REG_RIRQ LSER_IRQ_ENABLE d1 else d1.

Lemma lser_irq_run (x : lser D) :
  ls_lock x = false → let d := ls_hw x in
  lser_irq x = Done (is_active (WIRQ d), if is_active (RIRQ d) then Some (ser_read LSER_REG_CHAR d) else None)
    (mkLser false (if is_active (WIRQ d) then false else ls_wbusy x) (irq_port d)).
Proof using SerHwLaws0.
  intros Hl d. unfold lser_irq, spinlock_acquire, spinlock_release, bus_write_register, bus_read_register, irq_port. mrun.
  rewrite Hl. cbn. fold d. destruct (is_active (WIRQ d)) eqn:Ew; cbn.
  - rewrite write_rirq by done. destruct (is_active (RIRQ d)) eqn:Er; cbn; [| done]. by rewrite write_char.
  - fold d. by destruct (is_active (RIRQ d)) eqn:Er.
Qed.

Lemma irq_port_spec d :
  sending (irq_port d) = sending d ∧ line_out (irq_port d) = line_out d ∧ line_in (irq_port d) = line_in d ∧
  WIRQ (irq_port d) = (if is_active (WIRQ d) then LSER_IRQ_ENABLE else WIRQ d) ∧ arriving (irq_port d) = [].
Proof using SerHwLaws0.
  unfold irq_port, arriving. destruct (is_active (WIRQ d)) eqn:Ew, (is_active (RIRQ d)) eqn:Er;
    rewrite ?wrirq_sending, ?wwirq_sending, ?wrirq_out, ?wwirq_out, ?write_in, ?wrirq_wirq, ?wwirq_wirq, ?wrirq_rirq; try done.
  - by rewrite write_rirq, Er.
  - by rewrite Er.
Qed.

Lemma poll_run (x x' : lser D) b :
  lser_poll_until_write x = Done b x' → x' = x ∧ ls_lock x = true ∧ b = is_active (WIRQ (ls_hw x)).
Proof using SerHwLaws0.
  unfold lser_poll_until_write, bus_read_register. mrun. destruct (ls_lock x) eqn:E; [| done]. by intros [= <- <-].
Qed.

Lemma polled_end_run pend (x : lser D) :
  ls_lock x = true →
  polled_end pend x = Done tt (mkLser false (ls_wbusy x)
    (if pend then ls_hw x else ser_write LSER_REG_WIRQ LSER_IRQ_ENABLE (ls_hw x))).
Proof using SerHwLaws0.
  intros Hl. unfold polled_end, spinlock_release, bus_write_register. mrun. destruct pend; cbn; by rewrite Hl.
Qed.

Lemma wchar_arriving c d : arriving (ser_write LSER_REG_CHAR c d) = arriving d.
Proof using SerHwLaws0. unfold arriving. by rewrite write_rirq, write_char. Qed.
Lemma wwirq_arriving v d : arriving (ser_write LSER_REG_WIRQ v d) = arriving d.
Proof using SerHwLaws0. unfold arriving. by rewrite write_rirq, write_char. Qed.

Lemma sends_ready v d : sends v d → is_active v = false → is_active (WIRQ d) = true → sending d = None ∧ WIRQ d = Z.lor v LSER_IRQ_ACTIVE.
Proof using. intros [[_ ->] | H] Hv Ha; [congruence | done]. Qed.

Lemma port_free_ready d :
  port_free true d → is_active (WIRQ d) = true → sending d = None.
Proof using SerHwLaws0.
  intros [Hs | [Hs _]] Ha; [| done]. by apply (sends_ready _ _ Hs).
Qed.

(** The threads map after a thread with neither token nor lock has changed. *)
Lemma go_insert (m : gmap Z pc) tid p k :
  (∀ tid ch, m !! tid = Some (Go ch) → k = AtThread tid) → (∀ ch, p ≠ Go ch) →
  ∀ tid' ch, <[tid := p]> m !! tid' = Some (Go ch) → k = AtThread tid'.
Proof using. intros Hg Hp tid' ch. rewrite lookup_insert. case_decide; [naive_solver | apply Hg]. Qed.

Lemma go_insert' (m : gmap Z pc) tid p k :
  (∀ tid, k = AtThread tid → ∃ ch, m !! tid = Some (Go ch)) → k ≠ AtThread tid →
  ∀ tid', k = AtThread tid' → ∃ ch, <[tid := p]> m !! tid' = Some (Go ch).
Proof using SerHwLaws0.
  intros Hg Hp tid' E. destruct (Hg tid' E) as [ch Hch]. exists ch. rewrite lookup_insert_ne; [done |]. congruence.
Qed.

Lemma polls_insert (m : gmap Z pc) tid p (R : Z → Prop) :
  (∀ tid' p', m !! tid' = Some p' → polls p' = true → R tid') → (polls p = true → R tid) →
  ∀ tid' p', <[tid := p]> m !! tid' = Some p' → polls p' = true → R tid'.
Proof using. intros Hm Hp tid' p'. rewrite lookup_insert. case_decide; [naive_solver | apply Hm]. Qed.

(** ** Preservation *)

(** A step of a thread that moves neither token nor lock. *)
Lemma inv_thread s tid p :
  inv s → (∀ ch, p ≠ Go ch) → polls p = false →
  (∀ q, s_threads s !! tid = Some q → polls q = false ∧ ∀ ch, q ≠ Go ch) →
  inv (mkSys (s_con s) (s_lser s) (<[tid := p]> (s_threads s)) (s_irq s) (s_sent s) (s_inputs s)).
Proof using SerHwLaws0.
  intros [Hout Hin (k & Hw & Hb & Hgo & Hgo' & Hirq) Hlk] Hp Hpp Hold. split; cbn [s_con s_lser s_threads s_irq s_sent s_inputs]; try done.
  - exists k. split_and!; try done; [by apply go_insert |]. apply go_insert'; [done |]. intros E.
    destruct (Hgo' tid E) as [ch Hch]. by destruct (Hold _ Hch) as [_ Hc]; destruct (Hc ch).
  - destruct (ls_lock (s_lser s)).
    + destruct Hlk as (tid2 & q & Hq & Hport & Hall). exists tid2, q. split; [| split; [done |]].
      * rewrite lookup_insert_ne; [done |]. intros ->. destruct (Hold _ Hq) as [Hn _]. by destruct q.
      * apply polls_insert; [done | congruence].
    + destruct Hlk as [Hport Hall]. split; [done |]. apply (polls_insert _ _ _ (λ _, False)); [done | congruence].
Qed.

Lemma step_P_inv s tid ch c' :
  inv s → s_threads s !! tid = Some (AtP ch) → P_wsem_step (s_con s) = Some c' →
  inv (mkSys c' (s_lser s) (<[tid := Go ch]> (s_threads s)) (s_irq s) (s_sent s) (s_inputs s)).
Proof using SerHwLaws0.
  intros [Hout Hin (k & Hw & Hb & Hgo & Hgo' & Hirq) Hlk] Ht. unfold P_wsem_step.
  destruct (Z.ltb_spec 0 (cs_wsem (s_con s))) as [Hpos |]; [| done]. intros [= <-].
  assert (k = InSem) as -> by (destruct k; [done | lia..]).
  split; cbn [s_con s_lser s_threads s_irq s_sent s_inputs]; try done.
  - exists (AtThread tid). split_and!; try done.
    + cbn. lia.
    + split; [| done]. intros E. apply Hb in E. done.
    + intros tid' ch'. rewrite lookup_insert. case_decide as E; [naive_solver |]. intros H. by apply Hgo in H.
    + intros tid' [= <-]. exists ch. by rewrite lookup_insert_eq.
    + split; [| done]. intros E. apply Hirq in E. done.
  - destruct (ls_lock (s_lser s)).
    + destruct Hlk as (tid2 & q & Hq & Hport & Hall). exists tid2, q. split; [| split; [done |]].
      * rewrite lookup_insert_ne; [done |]. intros ->. rewrite Ht in Hq. by injection Hq as <-.
      * apply polls_insert; [done | done].
    + destruct Hlk as [Hport Hall]. split; [done |]. apply (polls_insert _ _ _ (λ _, False)); done.
Qed.

(** The thread that has the token finds the port clear. *)
Lemma go_clear s tid ch : inv s → s_threads s !! tid = Some (Go ch) → ls_wbusy (s_lser s) = false.
Proof using SerHwLaws0.
  intros [_ _ (k & _ & Hb & Hgo & _) _] Ht. apply Hgo in Ht. destruct (ls_wbusy (s_lser s)); [| done].
  destruct Hb as [Hb _]. specialize (Hb eq_refl). congruence.
Qed.

Lemma step_write_inv s tid ch x' :
  inv s → s_threads s !! tid = Some (Go ch) → ls_lock (s_lser s) = false →
  lser_write ch (s_lser s) = Done tt x' →
  inv (mkSys (s_con s) x' (<[tid := Finished]> (s_threads s)) (s_irq s) (s_sent s ++ [u8 ch]) (s_inputs s)).
Proof using SerHwLaws0.
  intros Hinv Ht Hl. pose proof (go_clear s tid ch Hinv Ht) as Hbusy. rewrite lser_write_run by done. intros [= <-].
  pose proof Hinv as [Hout Hin (k & Hw & Hb & Hgo & Hgo' & Hirq) Hlk]. rewrite Hl, Hbusy in Hlk.
  destruct Hlk as [[Hs Hwq] Hall]. assert (k = AtThread tid) as -> by (by eapply Hgo).
  split; cbn [s_con s_lser s_threads s_irq s_sent s_inputs ls_hw ls_lock ls_wbusy].
  - rewrite wchar_sending, wchar_out by done. rewrite Hs in Hout. cbn in Hout. rewrite app_nil_r in Hout. by rewrite Hout.
  - rewrite wchar_arriving, write_in. done.
  - exists InPort. split_and!; try done.
    + intros tid' ch'. rewrite lookup_insert. case_decide as E; [done |]. intros H. apply Hgo in H. congruence.
    + split; [| done]. intros E. apply Hirq in E. done.
  - split; [| apply (polls_insert _ _ _ (λ _, False)); done]. left. left. rewrite wchar_sending, wchar_wirq by done. by split; [eexists |].
Qed.

Lemma step_polled_inv s tid ch pend x' :
  inv s → s_threads s !! tid = Some (Start ch) → ls_lock (s_lser s) = false →
  polled_begin ch (s_lser s) = Done pend x' →
  inv (mkSys (s_con s) x' (<[tid := if pend then Poll1 ch else Poll2 false]> (s_threads s)) (s_irq s)
         (if pend then s_sent s else s_sent s ++ [u8 ch]) (s_inputs s)).
Proof using SerHwLaws0.
  intros [Hout Hin (k & Hw & Hb & Hgo & Hgo' & Hirq) Hlk] Ht Hl. rewrite polled_begin_run by done. intros [= <- <-].
  rewrite Hl in Hlk. destruct Hlk as [Hport Hall].
  split; cbn [s_con s_lser s_threads s_irq s_sent s_inputs ls_hw ls_lock ls_wbusy].
  - destruct (ls_wbusy (s_lser s)); [done |]. destruct Hport as [Hs _].
    rewrite wchar_sending, wchar_out, wwirq_out by (by rewrite wwirq_sending).
    rewrite Hs in Hout. cbn in Hout. rewrite app_nil_r in Hout. by rewrite Hout.
  - destruct (ls_wbusy (s_lser s)); [done |]. by rewrite wchar_arriving, wwirq_arriving, !write_in.
  - exists k. split_and!; try done; [apply go_insert; [done | by destruct (ls_wbusy _)] |].
    apply go_insert'; [done |]. intros E. destruct (Hgo' tid E) as [c Hc]. congruence.
  - exists tid. eexists. rewrite lookup_insert_eq. split; [done |]. split.
    + destruct (ls_wbusy (s_lser s)); [done |]. destruct Hport as [Hs _]. split; [done |]. left.
      rewrite wchar_sending, wchar_wirq, wwirq_wirq by (by rewrite wwirq_sending). by split; [eexists |].
    + intros tid' p'. rewrite lookup_insert. case_decide as E; [done |]. intros H Hp. by destruct (Hall _ _ H).
Qed.

Lemma step_poll1_inv s tid ch x1 x' :
  inv s → s_threads s !! tid = Some (Poll1 ch) → lser_poll_until_write (s_lser s) = Done true x1 →
  polled_send ch x1 = Done tt x' →
  inv (mkSys (s_con s) x' (<[tid := Poll2 true]> (s_threads s)) (s_irq s) (s_sent s ++ [u8 ch]) (s_inputs s)).
Proof using SerHwLaws0.
  intros [Hout Hin (k & Hw & Hb & Hgo & Hgo' & Hirq) Hlk] Ht (-> & Hl & Hact)%poll_run.
  unfold polled_send, bus_write_register. mrun. intros [= <-].
  rewrite Hl in Hlk. destruct Hlk as (tid2 & q & Hq & Hport & Hall).
  assert (tid = tid2) as <- by (by eapply Hall). simplify_eq. destruct Hport as [Hbusy Hport].
  apply port_free_ready in Hport as Hs; [| done].
  split; cbn [s_con s_lser s_threads s_irq s_sent s_inputs ls_hw ls_lock ls_wbusy with_port].
  - rewrite wchar_sending, wchar_out, wwirq_out by (by rewrite wwirq_sending).
    rewrite Hs in Hout. cbn in Hout. rewrite app_nil_r in Hout. by rewrite Hout.
  - by rewrite wchar_arriving, wwirq_arriving, !write_in.
  - exists k. split_and!; try done; [by apply go_insert |].
    apply go_insert'; [done |]. intros E. destruct (Hgo' tid E) as [c Hc]. congruence.
  - rewrite Hl. exists tid, (Poll2 true). rewrite lookup_insert_eq. split; [done |]. split.
    + split; [done |]. left. rewrite wchar_sending, wchar_wirq, wwirq_wirq by (by rewrite wwirq_sending). by split; [eexists |].
    + intros tid' p'. rewrite lookup_insert. case_decide as E; [done |]. by apply Hall.
Qed.

Lemma step_poll2_inv s tid pend x1 x' :
  inv s → s_threads s !! tid = Some (Poll2 pend) → lser_poll_until_write (s_lser s) = Done true x1 →
  polled_end pend x1 = Done tt x' →
  inv (mkSys (s_con s) x' (<[tid := Finished]> (s_threads s)) (s_irq s) (s_sent s) (s_inputs s)).
Proof using SerHwLaws0.
  intros [Hout Hin (k & Hw & Hb & Hgo & Hgo' & Hirq) Hlk] Ht (-> & Hl & Hact)%poll_run.
  rewrite polled_end_run by done. intros [= <-].
  rewrite Hl in Hlk. destruct Hlk as (tid2 & q & Hq & Hport & Hall).
  assert (tid = tid2) as <- by (by eapply Hall). simplify_eq. destruct Hport as [Hbusy Hport].
  destruct (sends_ready _ _ Hport) as [Hs Hwq]; [by destruct pend | done |].
  split; cbn [s_con s_lser s_threads s_irq s_sent s_inputs ls_hw ls_lock ls_wbusy].
  - destruct pend; [done |]. by rewrite wwirq_sending, wwirq_out.
  - destruct pend; [done |]. by rewrite wwirq_arriving, write_in.
  - exists k. split_and!; try done; [by apply go_insert |].
    apply go_insert'; [done |]. intros E. destruct (Hgo' tid E) as [c Hc]. congruence.
  - split.
    + rewrite Hbusy. destruct pend; [right; by split |]. split; [by rewrite wwirq_sending | by rewrite wwirq_wirq].
    + intros tid' p'. rewrite lookup_insert. case_decide as E; [naive_solver |]. intros H Hp. by pose proof (Hall _ _ H Hp).
Qed.

Lemma lser_step_irq_inv s r x' :
  inv s → s_irq s = None → ls_lock (s_lser s) = false → lser_irq (s_lser s) = Done r x' →
  inv (mkSys (s_con s) x' (s_threads s) (Some r) (s_sent s) (s_inputs s)).
Proof using SerHwLaws0.
  intros [Hout Hin (k & Hw & Hb & Hgo & Hgo' & Hirq) Hlk] Hn Hl. rewrite lser_irq_run by done. intros [= <- <-].
  rewrite Hl in Hlk. destruct Hlk as [Hport Hall]. rewrite Hn in Hirq, Hin.
  set (d := ls_hw (s_lser s)) in *. destruct (irq_port_spec d) as (E1 & E2 & E3 & E4 & E5).
  assert (k ≠ AtHandler) as Hnk. { intros E. apply Hirq in E as [? ?]. done. }
  assert (is_active (WIRQ d) = true → ls_wbusy (s_lser s) = true ∧ sending d = None) as Hact.
  { intros Ha. destruct (ls_wbusy (s_lser s)).
    - split; [done |]. by apply port_free_ready.
    - destruct Hport as [_ E]. rewrite E in Ha. done. }
  split; cbn [s_con s_lser s_threads s_irq s_sent s_inputs ls_hw ls_lock ls_wbusy].
  - by rewrite E1, E2.
  - rewrite E3, E5, app_nil_r, <- Hin. unfold arriving, pending_in. cbn. by destruct (is_active (RIRQ d)).
  - destruct (is_active (WIRQ d)) eqn:Ea.
    + destruct (Hact eq_refl) as [Hbusy _]. apply Hb in Hbusy as ->. exists AtHandler. split_and!; try done.
      * intros tid ch H. by apply Hgo in H.
      * split; [done |]. intros _. by eexists.
    + exists k. split_and!; try done. split; [| done]. by intros [? [=]].
  - split; [| done]. destruct (is_active (WIRQ d)) eqn:Ea.
    + destruct (Hact eq_refl) as [_ Hs]. split; [by rewrite E1 | done].
    + unfold port_free, sends. by rewrite E1, E4.
Qed.

Lemma lser_step_hw_inv s d' :
  inv s → ser_moves (ls_hw (s_lser s)) d' →
  inv (mkSys (s_con s) (with_port d' (s_lser s)) (s_threads s) (s_irq s) (s_sent s) (s_inputs s)).
Proof using SerHwLaws0.
  intros [Hout Hin (k & Hw & Hb & Hgo & Hgo' & Hirq) Hlk] Hm. set (d := ls_hw (s_lser s)) in *.
  destruct (moves_cases _ _ Hm) as [(c & Hs & Hs' & Ho & Hwq & Hrq & Hch & Hli) | (Hna & Hs & Ho & Hwq & Hrq & Hli)].
  - assert (∀ v, is_active v = false → sends v d → sends v d') as Hsend.
    { intros v Hv [[_ E] | [E _]]; [| congruence]. right. by rewrite Hwq, E. }
    assert (port_free true d → port_free true d') as Hpf.
    { intros [H | [H _]]; [left; by apply Hsend | congruence]. }
    split; cbn [s_con s_lser s_threads s_irq s_sent s_inputs ls_hw ls_lock ls_wbusy with_port].
    + rewrite Hs', Ho. cbn. rewrite app_nil_r, <- Hout, Hs. done.
    + rewrite Hli, <- Hin. unfold arriving. by rewrite Hrq, Hch.
    + exists k. done.
    + destruct (ls_lock (s_lser s)).
      * destruct Hlk as (tid2 & q & Hq & Hport & Hall). exists tid2, q. split; [done |]. split; [| done].
        destruct q; try done; cbn in *; destruct Hport as [? Hport]; (split; [done |]); [by apply Hpf |].
        apply Hsend; [by destruct irqpending | done].
      * destruct Hlk as [Hport Hall]. split; [| done]. destruct (ls_wbusy (s_lser s)); [by apply Hpf |].
        destruct Hport; congruence.
  - split; cbn [s_con s_lser s_threads s_irq s_sent s_inputs ls_hw ls_lock ls_wbusy with_port].
    + by rewrite Hs, Ho.
    + rewrite Hli, <- Hin. unfold arriving. rewrite Hna, Hrq. fold d.
      assert (is_active (Z.lor (RIRQ d) LSER_IRQ_ACTIVE) = true) as ->.
      { unfold is_active. apply negb_true_iff, Z.eqb_neq. rewrite Z.land_lor_distr_l. change (Z.land LSER_IRQ_ACTIVE LSER_IRQ_ACTIVE) with 2.
        intros E. apply (f_equal (λ x, Z.testbit x 1)) in E. rewrite Z.lor_spec, orb_true_r in E. done. }
      by rewrite app_nil_r, app_assoc.
    + exists k. done.
    + unfold port_polled, port_free, sends in *. by rewrite Hs, Hwq.
Qed.

Lemma step_con_inv s c' irq' inputs' :
  inv s → cs_wsem c' = cs_wsem (s_con s) → (∀ got, s_irq s ≠ Some (true, got)) → (∀ got, irq' ≠ Some (true, got)) →
  inputs' ++ pending_in irq' = s_inputs s ++ pending_in (s_irq s) →
  inv (mkSys c' (s_lser s) (s_threads s) irq' (s_sent s) inputs').
Proof using SerHwLaws0.
  intros [Hout Hin (k & Hw & Hb & Hgo & Hgo' & Hirq) Hlk] Ec Hn Hn' Ein.
  split; cbn [s_con s_lser s_threads s_irq s_sent s_inputs]; try done.
  - by rewrite app_assoc, Ein, <- app_assoc.
  - exists k. split_and!; try done; [congruence |]. split; [naive_solver |]. intros E. apply Hirq in E as [? ?]. naive_solver.
Qed.

Lemma con_input_wsem ch (c c' : con) : con_input ch c = Done tt c' → cs_wsem c' = cs_wsem c.
Proof using.
  unfold con_input. mrun. destruct (_ =? cs_gotchars_tail c); by intros [= <-].
Qed.
Lemma take_char_wsem ch (c c' : con) : take_char c = Done ch c' → cs_wsem c' = cs_wsem c.
Proof using. unfold take_char. mrun. destruct (cs_gotchars c !! _); by intros [= _ <-]. Qed.

Lemma step_getch_inv s c' :
  inv s → cs_wsem c' = cs_wsem (s_con s) →
  inv (mkSys c' (s_lser s) (s_threads s) (s_irq s) (s_sent s) (s_inputs s)).
Proof using SerHwLaws0.
  intros [Hout Hin (k & Hw & Hb & Hgo & Hgo' & Hirq) Hlk] Ec.
  split; cbn [s_con s_lser s_threads s_irq s_sent s_inputs]; try done. exists k. split_and!; try done. congruence.
Qed.

Lemma step_start_inv s got c' :
  inv s → s_irq s = Some (true, got) → con_start (s_con s) = Done tt c' →
  inv (mkSys c' (s_lser s) (s_threads s) (Some (false, got)) (s_sent s) (s_inputs s)).
Proof using SerHwLaws0.
  intros [Hout Hin (k & Hw & Hb & Hgo & Hgo' & Hirq) Hlk] Hi. unfold con_start. mrun. intros [= <-].
  assert (k = AtHandler) as -> by (apply Hirq; by eexists). rewrite Hi in Hin.
  split; cbn [s_con s_lser s_threads s_irq s_sent s_inputs]; try done.
  exists InSem. split_and!; try done.
  - cbn. by rewrite Hw.
  - split; [| done]. intros E. apply Hb in E. done.
  - intros tid ch H. apply Hgo in H. done.
  - split; [| done]. by intros [? [=]].
Qed.

Lemma lser_step_inv s s' : inv s → step s s' → inv s'.
Proof using SerHwLaws0.
  intros Hinv Hs. destruct Hs as [s tid p Hn Hp | s tid ch c' Ht Hc | s tid ch x' Ht Hl Hx | s tid ch pend x' Ht Hl Hx
    | s tid ch x1 x' Ht Hp Hx | s tid pend x1 x' Ht Hp Hx | s r x' Hn Hl Hx | s got c' Hi Hc | s ch c' Hi Hc
    | s ch c' Hr Hc | s Hi | s d' Hm].
  - apply inv_thread; [done | | | congruence]; by destruct Hp as (ch & [-> | ->]).
  - by eapply step_P_inv.
  - by eapply step_write_inv.
  - by eapply step_polled_inv.
  - by eapply step_poll1_inv.
  - by eapply step_poll2_inv.
  - by eapply lser_step_irq_inv.
  - by eapply step_start_inv.
  - apply step_con_inv; [done | by eapply con_input_wsem | congruence | congruence |]. rewrite Hi. cbn. by rewrite app_nil_r.
  - apply step_getch_inv; [done |]. by apply take_char_wsem in Hc.
  - apply step_con_inv; [done | done | congruence | congruence |]. by rewrite Hi.
  - by eapply lser_step_hw_inv.
Qed.

(** The console just attached to a port that config_lser has set up. *)
Record configured s : Prop := {
  cf_sem : cs_wsem (s_con s) = 1;
  cf_lser : ls_lock (s_lser s) = false ∧ ls_wbusy (s_lser s) = false;
  cf_port : let d := ls_hw (s_lser s) in
    sending d = None ∧ WIRQ d = LSER_IRQ_ENABLE ∧ is_active (RIRQ d) = false ∧ line_out d = [] ∧ line_in d = [];
  cf_none : s_threads s = ∅ ∧ s_irq s = None ∧ s_sent s = [] ∧ s_inputs s = []
}.

Lemma configured_inv s : configured s → inv s.
Proof using.
  intros [Hw [Hl Hb] (H1 & H2 & H3 & H4 & H5) (E1 & E2 & E3 & E4)]. split.
  - by rewrite H4, H1, E3.
  - unfold arriving. by rewrite E4, E2, H3, H5.
  - exists InSem. rewrite Hw, Hb, E1, E2. split_and!; try done. split; [| done]. by intros [? ?].
  - rewrite Hl, Hb, E1. done.
Qed.

Lemma lser_reach_inv s0 s : configured s0 → rtc step s0 s → inv s.
Proof using SerHwLaws0.
  intros Hc Hr. apply configured_inv in Hc. revert Hc.
  induction Hr as [| s0 s1 s2 Hs _ IH]; [done |]. intros Hi. apply IH. by eapply lser_step_inv.
Qed.

(** C14: However printing threads, polled or not, the interrupt handler, readers and the
    port interleave: the characters go out on the line in the order they are stored to
    the port, none lost or overwritten while it is sent; the characters that come in
    reach the console in order, all but those still in the port or the handler; and the
    driver never finds the port not clear to write. *)
Theorem serial_console_order s0 s :
  configured s0 → rtc step s0 s →
  let d := ls_hw (s_lser s) in
  line_out d ++ option_list (sending d) = s_sent s ∧
  s_inputs s ++ pending_in (s_irq s) ++ arriving d = line_in d ∧
  (∀ tid ch, s_threads s !! tid = Some (Go ch) → ls_lock (s_lser s) = false →
     ∃ x', lser_write ch (s_lser s) = Done tt x').
Proof using SerHwLaws0.
  intros Hc Hr d. pose proof (lser_reach_inv s0 s Hc Hr) as Hinv. split; [apply Hinv |]. split; [apply Hinv |].
  intros tid ch Ht Hl. eexists. apply lser_write_run; [done |]. by eapply go_clear.
Qed.

(** Whether a thread can go on. *)
Definition can_go (p : pc) s : bool :=
  match p with
  | AtP _ => 0 <? cs_wsem (s_con s)
  | Go _ | Start _ => negb (ls_lock (s_lser s))
  | Poll1 _ | Poll2 _ => is_active (WIRQ (ls_hw (s_lser s)))
  | Finished => false
  end.

(** C15: No thread waits for ever: while one has not finished, some thread can go on, or
    the interrupt handler has work to do, or the port is sending, or the port asks for
    an interrupt that nothing keeps from being served. *)
Theorem serial_no_lost_wakeup s0 s tid p :
  configured s0 → rtc step s0 s → s_threads s !! tid = Some p → p ≠ Finished →
  (∃ tid' p', s_threads s !! tid' = Some p' ∧ can_go p' s = true) ∨ s_irq s ≠ None ∨
  is_Some (sending (ls_hw (s_lser s))) ∨
  (ls_lock (s_lser s) = false ∧ is_active (WIRQ (ls_hw (s_lser s))) = true ∧
   Z.testbit (WIRQ (ls_hw (s_lser s))) 0 = true).
Proof using SerHwLaws0.
  intros Hc Hr Ht Hp. destruct (lser_reach_inv s0 s Hc Hr) as [_ _ (k & Hw & Hb & Hgo & Hgo' & Hirq) Hlk].
  destruct (ls_lock (s_lser s)) eqn:El.
  - destruct Hlk as (tid2 & q & Hq & Hport & _).
    assert (is_Some (sending (ls_hw (s_lser s))) ∨ can_go q s = true) as [? | ?]; [| by auto | left; by eauto].
    destruct q; try done; cbn in Hport |- *; destruct Hport as [_ Hport].
    + destruct Hport as [[[? _] | [_ ->]] | [_ ->]]; auto.
    + destruct Hport as [[? _] | [_ ->]]; [by left | right; by destruct irqpending].
  - destruct Hlk as [Hport Hnp].
    assert ((∃ ch, p = AtP ch) ∨ can_go p s = true) as [[ch ->] | ?]; [| | left; by eauto].
    { destruct p; try done; try (right; cbn; by rewrite El); [by eauto | |]; by destruct (Hnp _ _ Ht). }
    destruct k as [| | tid2 |].
    + left. exists tid, (AtP ch). split; [done |]. cbn. by rewrite Hw.
    + assert (ls_wbusy (s_lser s) = true) as Hbusy by (by apply Hb). rewrite Hbusy in Hport.
      destruct Hport as [[[? _] | [_ ->]] | [_ ->]]; [by auto | |]; by (right; right; right).
    + left. destruct (Hgo' tid2 eq_refl) as [c Hcg]. exists tid2, (Go c). split; [done |]. cbn. by rewrite El.
    + right. left. destruct (proj2 Hirq eq_refl) as [? ->]. done.
Qed.
End props.

(** ** A port

    [p_keys] are the characters still to come in. *)

Record port := mkPort {
  p_wirq : Z; p_rirq : Z; p_char : Z; p_sending : option Z; p_out : list Z; p_in : list Z; p_keys : list Z
}.

Definition port_write (r v : Z) (d : port) : port :=
  if r =? LSER_REG_CHAR then mkPort (p_wirq d) (p_rirq d) (p_char d) (Some (u8 v)) (p_out d) (p_in d) (p_keys d)
  else if r =? LSER_REG_WIRQ then mkPort v (p_rirq d) (p_char d) (p_sending d) (p_out d) (p_in d) (p_keys d)
  else if r =? LSER_REG_RIRQ then mkPort (p_wirq d) v (p_char d) (p_sending d) (p_out d) (p_in d) (p_keys d)
  else d.

Definition port_finish (d : port) : option port :=
  c ← p_sending d;
  Some (mkPort (Z.lor (p_wirq d) LSER_IRQ_ACTIVE) (p_rirq d) (p_char d) None (p_out d ++ [c]) (p_in d) (p_keys d)).

Definition port_input (d : port) : option port :=
  if is_active (p_rirq d) then None
  else c ← head (p_keys d);
       Some (mkPort (p_wirq d) (Z.lor (p_rirq d) LSER_IRQ_ACTIVE) c (p_sending d) (p_out d) (p_in d ++ [c]) (tail (p_keys d))).

#[export] Instance port_hw : SerHw port := {|
  ser_read := λ r d, if r =? LSER_REG_CHAR then p_char d else if r =? LSER_REG_WIRQ then p_wirq d
                     else if r =? LSER_REG_RIRQ then p_rirq d else 0;
  ser_write := port_write;
  ser_moves := λ d d', port_finish d = Some d' ∨ port_input d = Some d'
|}.

#[export] Instance port_laws : SerHwLaws port.
Proof.
  refine {| sending := p_sending; line_out := p_out; line_in := p_in |}; cbn; try done.
  - intros r v d. unfold port_write. by destruct (r =? LSER_REG_CHAR), (r =? LSER_REG_WIRQ), (r =? LSER_REG_RIRQ).
  - intros r v d Hr. unfold port_write. rewrite (proj2 (Z.eqb_neq r LSER_REG_RIRQ)) by done.
    by destruct (r =? LSER_REG_CHAR), (r =? LSER_REG_WIRQ).
  - intros r v d. unfold port_write. by destruct (r =? LSER_REG_CHAR), (r =? LSER_REG_WIRQ), (r =? LSER_REG_RIRQ).
  - intros d d' [H | H].
    + left. unfold port_finish in H. destruct (p_sending d) as [c|] eqn:E; [| done]. injection H as <-. by exists c.
    + right. unfold port_input in H. destruct (is_active (p_rirq d)); [done |].
      destruct (p_keys d) as [|c r]; [done |]. injection H as <-. done.
Defined.

(** ** A run: one thread prints a character and sleeps, another prints by polling while
    the first character is being sent, and a key is pressed. *)

Inductive action :=
| APrint (tid : Z) (p : pc) | AThread (tid : Z) | AIrq | AHandler | AFinish | AInput.

Definition put (s : sys port) (tid : Z) (p : pc) (x : lser port) (sent : list Z) : sys port := mkSys (s_con s) x (<[tid := p]> (s_threads s)) (s_irq s) sent (s_inputs s).

Definition act (a : action) (s : sys port) : option (sys port) :=
  match a with
  | APrint tid p =>
      match s_threads s !! tid, p with
      | None, AtP _ | None, Start _ => Some (put s tid p (s_lser s) (s_sent s))
      | _, _ => None
      end
  | AThread tid =>
      p ← s_threads s !! tid;
      match p with
      | AtP ch =>
          c' ← P_wsem_step (s_con s);
          Some (mkSys c' (s_lser s) (<[tid := Go ch]> (s_threads s)) (s_irq s) (s_sent s) (s_inputs s))
      | Go ch =>
          if ls_lock (s_lser s) then None else
          match lser_write ch (s_lser s) with Done _ x' => Some (put s tid Finished x' (s_sent s ++ [u8 ch])) | _ => None end
      | Start ch =>
          if ls_lock (s_lser s) then None else
          match polled_begin ch (s_lser s) with
          | Done pend x' => Some (put s tid (if pend then Poll1 ch else Poll2 false) x'
                                    (if pend then s_sent s else s_sent s ++ [u8 ch]))
          | _ => None
          end
      | Poll1 ch =>
          match lser_poll_until_write (s_lser s) with
          | Done true x1 => match polled_send ch x1 with Done _ x' => Some (put s tid (Poll2 true) x' (s_sent s ++ [u8 ch])) | _ => None end
          | _ => None
          end
      | Poll2 pend =>
          match lser_poll_until_write (s_lser s) with
          | Done true x1 => match polled_end pend x1 with Done _ x' => Some (put s tid Finished x' (s_sent s)) | _ => None end
          | _ => None
          end
      | Finished => None
      end
  | AIrq =>
      match s_irq s, ls_lock (s_lser s), lser_irq (s_lser s) with
      | None, false, Done r x' => Some (mkSys (s_con s) x' (s_threads s) (Some r) (s_sent s) (s_inputs s))
      | _, _, _ => None
      end
  | AHandler =>
      match s_irq s with
      | Some (true, got) =>
          match con_start (s_con s) with
          | Done _ c' => Some (mkSys c' (s_lser s) (s_threads s) (Some (false, got)) (s_sent s) (s_inputs s))
          | _ => None
          end
      | Some (false, Some ch) =>
          match con_input ch (s_con s) with
          | Done _ c' => Some (mkSys c' (s_lser s) (s_threads s) None (s_sent s) (s_inputs s ++ [ch]))
          | _ => None
          end
      | Some (false, None) => Some (mkSys (s_con s) (s_lser s) (s_threads s) None (s_sent s) (s_inputs s))
      | None => None
      end
  | AFinish | AInput =>
      d' ← (if a is AFinish then port_finish else port_input) (ls_hw (s_lser s));
      Some (mkSys (s_con s) (with_port d' (s_lser s)) (s_threads s) (s_irq s) (s_sent s) (s_inputs s))
  end.

Lemma lser_act_step a s s' : act a s = Some s' → step s s'.
Proof.
  destruct a as [tid p | tid | | | |]; cbn.
  - destruct (s_threads s !! tid) eqn:E; [done |]. destruct p; try done; intros [= <-]; apply step_print; eauto.
  - destruct (s_threads s !! tid) as [p|] eqn:E; [| done]. cbn. destruct p; try done.
    + destruct (P_wsem_step (s_con s)) eqn:Ec; [| done]. intros [= <-]. by eapply step_P.
    + destruct (ls_lock (s_lser s)) eqn:El; [done |]. destruct (lser_write ch (s_lser s)) as [[] x' | | |] eqn:Ex; try done.
      intros [= <-]. by eapply step_write.
    + destruct (ls_lock (s_lser s)) eqn:El; [done |]. destruct (polled_begin ch (s_lser s)) as [pend x' | | |] eqn:Ex; try done.
      intros [= <-]. by eapply step_polled.
    + destruct (lser_poll_until_write (s_lser s)) as [[] x1 | | |] eqn:Ep; try done.
      destruct (polled_send ch x1) as [[] x' | | |] eqn:Ex; try done. intros [= <-]. by eapply step_poll1.
    + destruct (lser_poll_until_write (s_lser s)) as [[] x1 | | |] eqn:Ep; try done.
      destruct (polled_end irqpending x1) as [[] x' | | |] eqn:Ex; try done. intros [= <-]. by eapply step_poll2.
  - destruct (s_irq s) eqn:Ei; [done |]. destruct (ls_lock (s_lser s)) eqn:El; [done |].
    destruct (lser_irq (s_lser s)) as [r x' | | |] eqn:Ex; try done. intros [= <-]. by eapply step_irq.
  - destruct (s_irq s) as [[[] got]|] eqn:Ei; [| | done].
    + destruct (con_start (s_con s)) as [[] c' | | |] eqn:Ec; try done. intros [= <-]. by eapply step_start.
    + destruct got as [ch|].
      * destruct (con_input ch (s_con s)) as [[] c' | | |] eqn:Ec; try done. intros [= <-]. by eapply step_input.
      * intros [= <-]. by eapply step_irq_end.
  - destruct (port_finish _) eqn:E; [| done]. intros [= <-]. apply step_hw. by left.
  - destruct (port_input _) eqn:E; [| done]. intros [= <-]. apply step_hw. by right.
Qed.

Fixpoint run (l : list action) (s : sys port) : option (sys port) :=
  match l with [] => Some s | a :: r => s' ← act a s; run r s' end.

Lemma lser_run_steps l s s' : run l s = Some s' → rtc step s s'.
Proof.
  revert s. induction l as [|a l IH]; intros s; cbn; [intros [= ->]; apply rtc_refl |].
  destruct (act a s) as [s1|] eqn:E; [| done]. cbn. intros Hr. eapply rtc_l; [by apply lser_act_step in E | by apply IH].
Qed.

Definition w_con : con := mkCon true [] (replicate 32 0) 0 0 0 1 [] 0 true [] false 0 0 0 0.
Definition w_start : sys port :=
  mkSys w_con (mkLser false false (mkPort 1 1 0 None [] [] [120])) ∅ None [] [].
Definition w_acts : list action :=
  [APrint 1 (AtP 65); AThread 1; AThread 1; APrint 2 (Start 66); APrint 3 (AtP 67); AThread 2; AInput; AFinish;
   AThread 2; AFinish; AThread 2; AIrq; AHandler; AHandler; AThread 3; AThread 3].
Definition w_end : sys port := default w_start (run w_acts w_start).

Lemma w_configured : configured w_start.
Proof. split; done. Qed.

Lemma serial_console_order_witness :
  p_out (ls_hw (s_lser w_end)) ++ option_list (p_sending (ls_hw (s_lser w_end))) = [65; 66; 67] ∧
  s_inputs w_end ++ pending_in (s_irq w_end) ++ arriving (ls_hw (s_lser w_end)) = p_in (ls_hw (s_lser w_end)).
Proof.
  destruct (serial_console_order w_start w_end w_configured) as (H1 & H2 & _).
  - apply (lser_run_steps w_acts). vm_compute. reflexivity.
  - split; [| exact H2]. etransitivity; [exact H1 |]. vm_compute. reflexivity.
Defined.

(** The third thread waits while the second polls. *)
Definition w_mid : sys port := default w_start (run (take 6 w_acts) w_start).

Lemma serial_no_lost_wakeup_witness :
  (∃ tid' p', s_threads w_mid !! tid' = Some p' ∧ can_go p' w_mid = true) ∨ s_irq w_mid ≠ None ∨
  is_Some (p_sending (ls_hw (s_lser w_mid))) ∨
  (ls_lock (s_lser w_mid) = false ∧ is_active (ser_read LSER_REG_WIRQ (ls_hw (s_lser w_mid))) = true ∧
   Z.testbit (ser_read LSER_REG_WIRQ (ls_hw (s_lser w_mid))) 0 = true).
Proof.
  apply (serial_no_lost_wakeup w_start w_mid 3 (AtP 67) w_configured).
  - apply (lser_run_steps (take 6 w_acts)). vm_compute. reflexivity.
  - vm_compute. reflexivity.
  - discriminate.
Defined.
End SerialProps.
