(* ===== verification/Screen.v ===== *)
(** * The full-screen console (dev/lamebus/lscreen.c, con_lscreen.c)

    The screen memory is a list of bytes, row after row.  What the driver draws is
    compared with a reference terminal that keeps the text as lines. *)

From stdpp Require Import base list numbers strings.
From Stdlib Require Import ZArith Lia.
From S2P Require Import Prelude Console.
Import Console.

#[local] Open Scope Z_scope.

Module Screen.

Definition LSCR_REG_POSN : Z := 0.
Definition LSCR_REG_SIZE : Z := 4.
Definition LSCR_REG_CHAR : Z := 8.
Definition LSCR_REG_RIRQ : Z := 12.
Definition LSCR_IRQ_ENABLE : Z := 1.
Definition LSCR_IRQ_ACTIVE : Z := 2.

(** The registers of the card. *)
Class ScrHw (D : Type) := {
  scr_read : Z → D → Z;
  scr_write : Z → Z → D → D
}.

Definition splitxy (xy : Z) : Z * Z := (Z.shiftr xy 16, Z.land xy 0xffff).
Definition mergexy (x y : Z) : Z := Z.lor (u32 (Z.shiftl x 16)) y.

Record lscreen (D : Type) := mkScr {
  ls_lock : bool;
  ls_width : Z;
  ls_height : Z;
  ls_cx : Z;
  ls_cy : Z;
  ls_screen : list Z;
  ls_hw : D
}.
Arguments mkScr {D}. Arguments ls_lock {D}. Arguments ls_width {D}. Arguments ls_height {D}.
Arguments ls_cx {D}. Arguments ls_cy {D}. Arguments ls_screen {D}. Arguments ls_hw {D}.

Section driver.
Context {D : Type} `{!ScrHw D}.
Abbreviation L := (M (lscreen D)).

Definition with_lock b (s : lscreen D) := mkScr b (ls_width s) (ls_height s) (ls_cx s) (ls_cy s) (ls_screen s) (ls_hw s).
Definition with_size w h (s : lscreen D) := mkScr (ls_lock s) w h (ls_cx s) (ls_cy s) (ls_screen s) (ls_hw s).
Definition with_cursor x y (s : lscreen D) := mkScr (ls_lock s) (ls_width s) (ls_height s) x y (ls_screen s) (ls_hw s).
Definition with_screen l (s : lscreen D) := mkScr (ls_lock s) (ls_width s) (ls_height s) (ls_cx s) (ls_cy s) l (ls_hw s).
Definition with_card (d : D) (s : lscreen D) := mkScr (ls_lock s) (ls_width s) (ls_height s) (ls_cx s) (ls_cy s) (ls_screen s) d.

Definition spinlock_acquire : L unit :=
  held ← gets ls_lock;
  if held : bool then panic "Deadlock on spinlock" else modify (with_lock true).
Definition spinlock_release : L unit :=
  held ← gets ls_lock;
  kassert held "spinlock_release" ;; modify (with_lock false).

Definition rdreg (reg : Z) : L Z := gets (λ s, scr_read reg (ls_hw s)).
Definition wreg (reg val : Z) : L unit := modify (λ s, with_card (scr_write reg val (ls_hw s)) s).

(** The character for ls_input, if one came in. *)
Definition lscreen_irq : L (option Z) :=
  spinlock_acquire ;;
  x ← rdreg LSCR_REG_RIRQ;
  if negb (Z.land x LSCR_IRQ_ACTIVE =? 0) then
    ch ← rdreg LSCR_REG_CHAR;
    wreg LSCR_REG_RIRQ LSCR_IRQ_ENABLE ;;
    spinlock_release ;;
    mret (Some ch)
  else
    spinlock_release ;;
    mret None.

(** memmove of all rows but the first, one row up, and bzero of the last row. *)
Definition scroll (width height : Z) (scr : list Z) : list Z :=
  let n := Z.to_nat (width * (height - 1)) in
  let moved := take n (drop (Z.to_nat width) scr) ++ drop n scr in
  take n moved ++ replicate (Z.to_nat width) 0 ++ drop (n + Z.to_nat width) moved.

Definition lscreen_newline : L unit :=
  s ← gets id;
  (if u32 (ls_height s - 1) <=? ls_cy s then
     modify (λ s, with_screen (scroll (ls_width s) (ls_height s) (ls_screen s)) s)
   else modify (λ s, with_cursor (ls_cx s) (u32 (ls_cy s + 1)) s)) ;;
  modify (λ s, with_cursor 0 (ls_cy s) s).

Definition lscreen_char (ch : Z) : L unit :=
  s ← gets id;
  (if ls_width s <=? ls_cx s then lscreen_newline else mret tt) ;;
  s ← gets id;
  let i := Z.to_nat (u32 (u32 (ls_cy s * ls_width s) + ls_cx s)) in
  kassert (Nat.ltb i (length (ls_screen s))) "store outside of the screen" ;;
  modify (with_screen (<[i := u8 ch]> (ls_screen s))) ;;
  modify (λ s, with_cursor (u32 (ls_cx s + 1)) (ls_cy s) s).

Definition lscreen_write (ch : Z) : L unit :=
  spinlock_acquire ;;
  (if ch =? NL then lscreen_newline else lscreen_char ch) ;;
  s ← gets id;
  let ccx := if ls_cx s =? ls_width s then ls_cx s - 1 else ls_cx s in
  wreg LSCR_REG_POSN (mergexy ccx (ls_cy s)) ;;
  spinlock_release.

Definition config_lscreen : L Z :=
  modify (with_lock false) ;;
  wreg LSCR_REG_RIRQ LSCR_IRQ_ENABLE ;;
  val ← rdreg LSCR_REG_SIZE;
  modify (with_size (fst (splitxy val)) (snd (splitxy val))) ;;
  val ← rdreg LSCR_REG_POSN;
  modify (with_cursor (fst (splitxy val)) (snd (splitxy val))) ;;
  mret 0.

Fixpoint write_all (text : list Z) : L unit :=
  match text with [] => mret tt | c :: r => lscreen_write c ;; write_all r end.

(** ** The reference terminal

    The text as lines of at most [width] characters, the current one first. *)

Definition term_put (width : nat) (lines : list (list Z)) (ch : Z) : list (list Z) :=
  match lines with
  | [] => []
  | cur :: old =>
      if ch =? NL then [] :: cur :: old
      else if Nat.leb width (length cur) then [u8 ch] :: cur :: old
      else (cur ++ [u8 ch]) :: old
  end.

Definition terminal (width : nat) (text : list Z) : list (list Z) := foldl (term_put width) [[]] text.

(** What a screen of [height] rows shows of it: the last lines, filled up with blanks. *)
Definition row (width : nat) (l : list Z) : list Z := l ++ replicate (width - length l) 0.
Definition shown (width height : nat) (lines : list (list Z)) : list Z :=
  concat (row width <$> rev (take height lines)) ++
  replicate ((height - length (take height lines)) * width) 0.

Section draw.
Context (w h : nat) (Hw : (0 < w)%nat) (Hh : (0 < h)%nat).
Context (Hfit : Z.of_nat w * Z.of_nat h < 2 ^ 32).

(** The screen shows [lines], with the cursor after the last character. *)
Record draws (lines : list (list Z)) (s : lscreen D) : Prop := {
  dr_lock : ls_lock s = false;
  dr_size : ls_width s = Z.of_nat w ∧ ls_height s = Z.of_nat h;
  dr_screen : ls_screen s = shown w h lines;
  dr_cy : ls_cy s = Z.of_nat (Nat.min (length lines) h - 1);
  dr_cx : ls_cx s = Z.of_nat (length (hd [] lines));
  dr_lines : lines ≠ [] ∧ Forall (λ l, (length l <= w)%nat) lines
}.

Lemma row_length l : (length l <= w)%nat → length (row w l) = w.
Proof using Hw Hh Hfit. intros Hl. unfold row. rewrite length_app, length_replicate. lia. Qed.

Lemma rows_length ls : Forall (λ l, (length l <= w)%nat) ls → length (concat (row w <$> ls)) = (length ls * w)%nat.
Proof using Hw Hh Hfit.
  induction 1 as [|l ls Hl _ IH]; [done |]. cbn. rewrite length_app, row_length, IH by done. lia.
Qed.

Lemma shown_cons cur old :
  shown w h (cur :: old) =
  concat (row w <$> rev (take (h - 1) old)) ++ row w cur ++ replicate ((h - 1 - length (take (h - 1) old)) * w) 0.
Proof using Hw Hh Hfit.
  unfold shown. replace (take h (cur :: old)) with (cur :: take (h - 1) old) by (by destruct h; [lia |]; cbn; rewrite Nat.sub_0_r).
  cbn [rev length]. rewrite fmap_app, concat_app. cbn. rewrite app_nil_r, <- app_assoc. do 3 f_equal. lia.
Qed.

Lemma shown_length lines : lines ≠ [] → Forall (λ l, (length l <= w)%nat) lines → length (shown w h lines) = (w * h)%nat.
Proof using Hw Hh Hfit.
  intros Hne Hl. unfold shown. rewrite length_app, length_replicate, rows_length, length_rev.
  - rewrite length_take. nia.
  - apply Forall_rev, Forall_take. done.
Qed.

(** Putting a character on the current line. *)
Lemma shown_put cur old c :
  (length cur < w)%nat → Forall (λ l, (length l <= w)%nat) old →
  shown w h ((cur ++ [c]) :: old) =
  <[((Nat.min (S (length old)) h - 1) * w + length cur)%nat := c]> (shown w h (cur :: old)).
Proof using Hw Hh Hfit.
  intros Hc Hold. rewrite !shown_cons. set (A := concat _). set (pad := replicate _ _).
  assert (length A = ((Nat.min (S (length old)) h - 1) * w)%nat) as HA.
  { unfold A. rewrite rows_length by (by apply Forall_rev, Forall_take). rewrite length_rev, length_take. f_equal. lia. }
  rewrite <- HA, insert_app_r. f_equal. rewrite insert_app_l by (rewrite row_length; lia). f_equal.
  unfold row. rewrite length_app. cbn. replace (length cur) with (length cur + 0)%nat at 2 by lia.
  rewrite insert_app_r, <- app_assoc. f_equal. destruct (w - length cur)%nat as [|n] eqn:E; [lia |]. cbn.
  f_equal. f_equal. lia.
Qed.

(** A new line while there is room. *)
Lemma shown_room lines :
  lines ≠ [] → (length lines < h)%nat → shown w h ([] :: lines) = shown w h lines.
Proof using Hw Hh Hfit.
  intros Hne Hl. rewrite shown_cons. unfold shown. rewrite (take_ge lines (h - 1)), (take_ge lines h) by lia.
  f_equal. unfold row. cbn [app length]. rewrite Nat.sub_0_r, <- replicate_add. f_equal. nia.
Qed.

(** A new line at the bottom. *)
Lemma shown_scroll lines :
  lines ≠ [] → (h <= length lines)%nat → Forall (λ l, (length l <= w)%nat) lines →
  shown w h ([] :: lines) = scroll (Z.of_nat w) (Z.of_nat h) (shown w h lines).
Proof using Hw Hh Hfit.
  intros Hne Hl Hall. pose proof (shown_length lines Hne Hall) as Hlen.
  unfold scroll. replace (Z.to_nat (Z.of_nat w * (Z.of_nat h - 1))) with (w * (h - 1))%nat by nia. rewrite Nat2Z.id.
  rewrite (take_ge (drop w (shown w h lines))) by (rewrite length_drop, Hlen; nia).
  rewrite take_app_length' by (rewrite length_drop, Hlen; nia).
  rewrite (drop_ge (_ ++ _)) by (rewrite length_app, !length_drop, Hlen; nia). rewrite app_nil_r.
  rewrite shown_cons. rewrite length_take, Nat.min_l, Nat.sub_diag by lia. cbn [Nat.mul replicate]. rewrite app_nil_r.
  unfold row at 2. cbn [app length]. rewrite Nat.sub_0_r. f_equal.
  unfold shown. destruct (lookup_lt_is_Some_2 lines (h - 1)) as [x Hx]; [lia |].
  replace (take h lines) with (take (h - 1) lines ++ [x]).
  2: { rewrite <- (take_S_r _ _ _ Hx). f_equal. lia. }
  rewrite rev_app_distr. cbn. rewrite length_app, length_take. cbn.
  replace (h - (Nat.min (h - 1) (length lines) + 1))%nat with 0%nat by lia. cbn. rewrite app_nil_r.
  rewrite drop_app_length'; [done |]. symmetry. apply row_length. exact (Forall_lookup_1 _ _ _ _ Hall Hx).
Qed.

Lemma newline_draws lines s :
  draws lines s ∨ (draws lines (with_lock false s) ∧ ls_lock s = true) →
  twp lscreen_newline (λ _ s', ls_lock s' = ls_lock s ∧ ls_hw s' = ls_hw s ∧ draws ([] :: lines) (with_lock false s')) s.
Proof using Hw Hh Hfit.
  intros Hd.
  assert (draws lines (with_lock false s)) as [_ [Ew Eh] Escr Ecy Ecx [Hne Hall]].
  { destruct Hd as [Hd | [Hd _]]; [| done]. destruct Hd. by split. }
  cbn in Ew, Eh, Escr, Ecy, Ecx. unfold twp, lscreen_newline. mrun.
  assert (Z.of_nat h < 2 ^ 32) by nia.
  rewrite Eh, (u32_small (Z.of_nat h - 1)) by (unfold fits; lia). rewrite Ecy.
  assert (length lines ≠ 0)%nat by (by destruct lines).
  destruct (Z.leb_spec (Z.of_nat h - 1) (Z.of_nat (Nat.min (length lines) h - 1))) as [Hle | Hlt]; cbn.
  - assert (Z.of_nat (Nat.min (length lines) h - 1) = Z.of_nat (Nat.min (length ([] :: lines)) h - 1)) as Em by (cbn [length]; lia).
    split; [done |]. split; [done |]. split; cbn -[Nat.min]; try done.
    + rewrite Ew, Eh, Escr. symmetry. apply shown_scroll; [done | lia | done].
    + rewrite Ecy. exact Em.
    + split; [done |]. constructor; [cbn; lia | done].
  - split; [done |]. split; [done |]. split; cbn -[Nat.min]; try done.
    + rewrite Escr. symmetry. apply shown_room; [done | lia].
    + rewrite Ecy, u32_small by (unfold fits; lia). lia.
    + split; [done |]. constructor; [cbn; lia | done].
Qed.

Lemma char_draws lines s ch :
  draws lines (with_lock false s) → ch ≠ NL →
  twp (lscreen_char ch) (λ _ s', ls_lock s' = ls_lock s ∧ ls_hw s' = ls_hw s ∧
    draws (term_put w lines ch) (with_lock false s')) s.
Proof using Hw Hh Hfit.
  intros Hd Hch. pose proof Hd as [_ [Ew Eh] _ _ Ecx [Hne Hall]]. cbn in Ew, Eh, Ecx.
  assert (∃ cur old s1, (if ls_width s <=? ls_cx s then lscreen_newline else mret tt) s = Done tt s1 ∧
    ls_lock s1 = ls_lock s ∧ ls_hw s1 = ls_hw s ∧ draws (cur :: old) (with_lock false s1) ∧ (length cur < w)%nat ∧
    term_put w lines ch = (cur ++ [u8 ch]) :: old) as (cur & old & s1 & E1 & El & Eh1 & Hd1 & Hlt & Eput).
  { destruct lines as [|cur old]; [done |]. unfold term_put. rewrite (proj2 (Z.eqb_neq ch NL)) by done.
    rewrite Ew, Ecx. cbn [hd]. destruct (Z.leb_spec (Z.of_nat w) (Z.of_nat (length cur))) as [Hle | Hlt].
    - rewrite (proj2 (Nat.leb_le _ _)) by lia. pose proof (newline_draws (cur :: old) s) as Hn.
      apply twp_ex in Hn as ([] & s1 & E & El & Eh1 & Hd1).
      + exists [], (cur :: old), s1. split_and!; try done.
      + destruct (ls_lock s) eqn:E; [by right |]. left. destruct Hd. by split.
    - rewrite (proj2 (Nat.leb_gt _ _)) by lia. exists cur, old, s. split_and!; try done. lia. }
  destruct Hd1 as [_ [Ew1 Eh1'] Escr Ecy Ecx1 [_ Hall1]]. cbn -[Nat.min] in Ew1, Eh1', Escr, Ecy, Ecx1.
  apply Forall_cons in Hall1 as [Hcur Hold].
  assert (length (shown w h (cur :: old)) = (w * h)%nat) as Hlen by (apply shown_length; [done | by constructor]).
  set (i := ((Nat.min (S (length old)) h - 1) * w + length cur)%nat).
  assert (i < w * h)%nat as Hi by (unfold i; nia).
  assert (Z.to_nat (u32 (u32 (ls_cy s1 * ls_width s1) + ls_cx s1)) = i) as Ei.
  { rewrite Ecy, Ew1, Ecx1. cbn [length hd].
    assert (Z.of_nat i = Z.of_nat (Nat.min (S (length old)) h - 1) * Z.of_nat w + Z.of_nat (length cur)) as Ei by (unfold i; lia).
    assert (0 <= Z.of_nat (Nat.min (S (length old)) h - 1) * Z.of_nat w) by (apply Z.mul_nonneg_nonneg; lia).
    assert (Z.of_nat i < Z.of_nat w * Z.of_nat h) by (rewrite <- Nat2Z.inj_mul; lia).
    rewrite (u32_small (_ * _)) by (unfold fits; lia). rewrite u32_small by (unfold fits; lia). lia. }
  unfold twp, lscreen_char. unfold mbind, M_bind, gets, id. rewrite E1. rewrite Ei.
  unfold kassert, modify, mret, M_ret. rewrite Escr, Hlen, (proj2 (Nat.ltb_lt _ _)) by done. cbn.
  split; [done |]. split; [done |]. rewrite Eput. split; cbn -[Nat.min]; try done.
  - rewrite shown_put by (done || lia). done.
  - rewrite length_app. cbn. rewrite Ecx1, u32_small by (unfold fits; nia). lia.
  - split; [done |]. constructor; [rewrite length_app; cbn; lia | done].
Qed.

Lemma write_draws lines s ch :
  draws lines s →
  twp (lscreen_write ch) (λ _ s', draws (term_put w lines ch) s' ∧
    ∃ x y, 0 <= x < Z.of_nat w ∧ 0 <= y < Z.of_nat h ∧ ls_hw s' = scr_write LSCR_REG_POSN (mergexy x y) (ls_hw s)) s.
Proof using Hw Hh Hfit.
  intros Hd. pose proof Hd as [Hl _ _ _ _ [Hne _]].
  assert (draws lines (with_lock false (with_lock true s))) as Hd1 by (destruct Hd; by split).
  assert (twp (if ch =? NL then lscreen_newline else lscreen_char ch) (λ _ s', ls_lock s' = ls_lock (with_lock true s) ∧
    ls_hw s' = ls_hw (with_lock true s) ∧ draws (term_put w lines ch) (with_lock false s')) (with_lock true s)) as Hb.
  { destruct (Z.eqb_spec ch NL) as [-> | Hne'].
    - destruct lines as [|cur old]; [done |]. apply (newline_draws (cur :: old)). by right.
    - by apply char_draws. }
  apply twp_ex in Hb as ([] & s1 & E & El & Ehw & Hd2). pose proof Hd2 as [_ [Ew Eh] _ Ecy Ecx [Hne2 Hall]].
  cbn -[Nat.min] in Ew, Eh, Ecy, Ecx, El, Ehw. unfold twp, lscreen_write, spinlock_acquire, spinlock_release, wreg, gets, modify, kassert, mret, M_ret, id, mbind, M_bind.
  rewrite Hl, E. cbn. rewrite El. split; [destruct Hd2; by split |].
  eexists _, _. split; [| split; [| by rewrite Ehw]].
  - rewrite Ew, Ecx. assert (length (hd [] (term_put w lines ch)) <= w)%nat by (destruct Hall; cbn; lia).
    destruct (Z.eqb_spec (Z.of_nat (length (hd [] (term_put w lines ch)))) (Z.of_nat w)); lia.
  - rewrite Ecy. lia.
Qed.

(** C31: Writing any text to a cleared screen returns, and leaves the screen showing what
    the reference terminal shows: the last lines of the text, broken at the width of the
    screen, with the cursor after the last character. *)
Theorem lscreen_terminal s text :
  draws [[]] s → ∃ s', write_all text s = Done tt s' ∧ draws (terminal w text) s'.
Proof using Hw Hh Hfit.
  unfold terminal. generalize ([[]] : list (list Z)). revert s. induction text as [|c r IH]; intros s lines Hd.
  - by exists s.
  - cbn [write_all foldl]. pose proof (write_draws lines s c Hd) as Hx. apply twp_ex in Hx as ([] & s1 & E & Hd1 & _).
    destruct (IH s1 _ Hd1) as (s' & E' & Hd'). exists s'. split; [| done]. unfold mbind, M_bind. by rewrite E.
Qed.
End draw.

(** ** The console on the screen

    attach_con_to_lscreen makes [lscreen_write] the routine for sleeping and for polled
    output, and the handler calls [con_input] alone. *)

Inductive event := Print (ch : Z) | Interrupt.

Definition con_event (e : event) (s : con * lscreen D) : option (con * lscreen D) :=
  match e with
  | Print ch =>
      if 0 <? cs_wsem (fst s) then
        match lscreen_write ch (snd s) with
        | Done _ x => Some (with_wsem (cs_wsem (fst s) - 1) (fst s), x)
        | _ => None
        end
      else None
  | Interrupt =>
      match lscreen_irq (snd s) with
      | Done (Some ch) x =>
          match con_input ch (fst s) with Done _ c => Some (c, x) | _ => None end
      | Done None x => Some (fst s, x)
      | _ => None
      end
  end.

Fixpoint con_events (l : list event) (s : con * lscreen D) : option (con * lscreen D) :=
  match l with [] => Some s | e :: r => s' ← con_event e s; con_events r s' end.

Definition is_print (e : event) : bool := match e with Print _ => true | _ => false end.

(** Nothing ever gives the unit of cs_wsem back, which the first character takes: a second
    character that is not printed by polling is never printed. *)
Theorem screen_console_sticks l s s' :
  cs_wsem (fst s) = 1 → con_events l s = Some s' → (length (filter is_print l) <= 1)%nat.
Proof using.
  assert (∀ l s s', 0 <= cs_wsem (fst s) → con_events l s = Some s' →
    Z.of_nat (length (filter is_print l)) <= cs_wsem (fst s)) as Hgen.
  { clear. induction l as [|e r IH]; intros s s' H0; [cbn; lia |]. cbn [con_events].
    destruct (con_event e s) as [s1|] eqn:E; [| done].
    intros Hr. change (con_events r s1 = Some s') in Hr. rewrite filter_cons. destruct e as [ch|]; cbn in E.
    - rewrite decide_True by done. destruct (Z.ltb_spec 0 (cs_wsem (fst s))) as [Hp |]; [| done].
      destruct (lscreen_write ch (snd s)); try done. injection E as <-. apply IH in Hr; cbn in *; lia.
    - rewrite decide_False by (intros Hf; exact Hf). assert (cs_wsem (fst s1) = cs_wsem (fst s)) as Ew.
      { destruct (lscreen_irq (snd s)) as [[ch|] x | | |]; try done; [| by injection E as <-].
        unfold con_input, gets, modify, mbind, M_bind, mret, M_ret, id in E. destruct (_ =? cs_gotchars_tail _); by injection E as <-. }
      rewrite <- Ew in *. by eapply IH. }
  intros H1 Hr. apply Hgen in Hr; lia.
Qed.
End driver.

(** ** A small screen *)

#[export] Instance no_card : ScrHw (list Z) := {| scr_read := λ _ _, 0; scr_write := λ _ v d, d ++ [v] |}.

Definition w_screen : lscreen (list Z) := mkScr false 3 2 0 0 (replicate 6 0) [].

Lemma lscreen_terminal_witness :
  ∃ s', write_all [65; 66; 67; 68; 10; 69] w_screen = Done tt s' ∧ draws 3 2 (terminal 3 [65; 66; 67; 68; 10; 69]) s'.
Proof.
  apply (lscreen_terminal 3 2 ltac:(lia) ltac:(lia) ltac:(lia) w_screen).
  split; try done. split; [done |]. constructor; [cbn; lia | constructor].
Defined.

End Screen.
