(* ===== verification/Kgets.v ===== *)
(** * The line editor kgets (lib/kgets.c)

    kgets against a specification of the editing keys on a line, and its echo against
    a terminal: at every moment the screen shows the line typed so far. *)

From stdpp Require Import base list numbers strings.
From Stdlib Require Import ZArith Lia.
From S2P Require Import Prelude Console.
Import Console.

#[local] Open Scope Z_scope.

Module Kgets.

(** A terminal as kgets sees it: keys still to come, what was printed, beeps. *)
Record tty := mkTty { t_in : list Z; t_out : list Z; t_beeps : Z }.
#[export] Instance pure_tty : Tty tty := {|
  tty_getch := λ s, match t_in s with
                    | [] => NoFuel
                    | c :: r => Done c (mkTty r (t_out s) (t_beeps s))
                    end;
  tty_putch c := modify (λ s, mkTty (t_in s) (t_out s ++ [c]) (t_beeps s));
  tty_beep := modify (λ s, mkTty (t_in s) (t_out s) (t_beeps s + 1))
|}.

(** ** The specification *)

Fixpoint drop_while (p : Z → bool) (l : list Z) : list Z :=
  match l with [] => [] | c :: r => if p c then drop_while p r else l end.
(** Without the longest tail of characters in [p]. *)
Definition trim (p : Z → bool) (l : list Z) : list Z := reverse (drop_while p (reverse l)).

Definition printable (c : Z) : bool := (32 <=? c) && (c <? 127).
Definition ends (c : Z) : bool := (c =? NL) || (c =? CR) || (c =? 3).

(** A key on a line of at most [cap] characters. *)
Definition edit (cap : nat) (line : list Z) (ch : Z) : list Z :=
  if printable ch && Nat.ltb (length line) cap then line ++ [ch]
  else if (ch =? BS) || (ch =? DEL) then removelast line
  else if ch =? 21 then []
  else if ch =? 23 then trim (λ c, negb (c =? SPACE)) (trim (λ c, c =? SPACE) line)
  else line.

(** A terminal line with its cursor: backspace moves left, newline starts an empty line,
    another character replaces the one under the cursor. *)
Definition screen : Type := list Z * nat.
Definition show1 (scr : screen) (c : Z) : screen :=
  let '(cells, cur) := scr in
  if c =? BS then (cells, (cur - 1)%nat)
  else if c =? NL then ([], 0%nat)
  else (if Nat.ltb cur (length cells) then <[cur := c]> cells else cells ++ [c], S cur).
Definition show (scr : screen) (out : list Z) : screen := foldl show1 scr out.

(** The screen shows [line], the cursor behind it, and blanks after that. *)
Definition shows (line : list Z) (scr : screen) : Prop :=
  ∃ k, scr = (line ++ replicate k SPACE, length line).

(** ** Trimming *)

Lemma trim_snoc p l c : trim p (l ++ [c]) = if p c then trim p l else l ++ [c].
Proof.
  unfold trim. rewrite reverse_snoc. cbn [drop_while]. destruct (p c); [done |].
  by rewrite reverse_cons, reverse_involutive.
Qed.
Lemma trim_prefix p l : trim p l `prefix_of` l.
Proof.
  induction l as [|c l IH] using rev_ind; [done |]. rewrite trim_snoc.
  destruct (p c); [| done]. etrans; [exact IH |]. by apply prefix_app_r.
Qed.
Lemma trim_all p l : (∀ c, p c = true) → trim p l = [].
Proof. intros Hp. induction l as [|c l IH] using rev_ind; [done |]. by rewrite trim_snoc, Hp. Qed.

(** ** The screen *)

Definition BACKSP : list Z := [BS; SPACE; BS].

Lemma show_app scr a b : show scr (a ++ b) = show (show scr a) b.
Proof. apply foldl_app. Qed.

Lemma show_backsp cells n :
  (n < length cells)%nat → show (cells, S n) BACKSP = (<[n := SPACE]> cells, n).
Proof.
  intros Hn. apply Nat.ltb_lt in Hn.
  transitivity (show1 (if Nat.ltb (S n - 1) (length cells) then <[(S n - 1)%nat := SPACE]> cells
                       else cells ++ [SPACE], S (S n - 1)) BS); [done |].
  replace (S n - 1)%nat with n by lia. rewrite Hn. cbn. f_equal. lia.
Qed.

Lemma shows_backsp line c scr : shows (line ++ [c]) scr → shows line (show scr BACKSP).
Proof.
  intros [k ->]. exists (S k). rewrite length_app, Nat.add_comm. cbn [length Nat.add].
  rewrite show_backsp by (rewrite !length_app; simpl; lia).
  by rewrite <- app_assoc, insert_app_r_alt, Nat.sub_diag by lia.
Qed.

Lemma shows_char line c scr :
  printable c = true → shows line scr → shows (line ++ [c]) (show scr [c]).
Proof.
  unfold printable. intros Hc [k ->].
  assert (∀ cells cur, show (cells, cur) [c] =
    (if Nat.ltb cur (length cells) then <[cur := c]> cells else cells ++ [c], S cur)) as ->.
  { intros cells cur. unfold show. cbn [foldl show1].
    by rewrite !(proj2 (Z.eqb_neq c _)) by (unfold BS, NL; lia). }
  destruct k as [|k].
  - exists 0%nat. rewrite !app_nil_r, (proj2 (Nat.ltb_ge _ _)), length_app by lia.
    f_equal. simpl. lia.
  - exists k. rewrite (proj2 (Nat.ltb_lt _ _)) by (rewrite length_app; simpl; lia).
    rewrite insert_app_r_alt, Nat.sub_diag, <- app_assoc, length_app by lia. simpl. f_equal. lia.
Qed.

Lemma shows_line line l scr :
  Forall (λ c, printable c = true) l → shows line scr → shows (line ++ l) (show scr l).
Proof.
  revert line scr. induction l as [|c l IH]; intros line scr Hl Hs; [by rewrite app_nil_r |].
  apply Forall_cons in Hl as [Hc Hl].
  change (show scr (c :: l)) with (show (show scr [c]) l).
  replace (line ++ c :: l) with ((line ++ [c]) ++ l) by (by rewrite <- app_assoc).
  apply IH; [done |]. by apply shows_char.
Qed.

(** ** One key *)

(** The first [length line] characters of the buffer are the line, which has room for a
    terminator. *)
Record holds (maxlen : Z) (buf line : list Z) : Prop := {
  hd_len : Z.of_nat (length buf) = maxlen;
  hd_max : maxlen < 2 ^ 32;
  hd_room : Z.of_nat (length line) < maxlen;
  hd_line : take (length line) buf = line;
  hd_chars : Forall (λ c, printable c = true) line
}.

Lemma holds_prefix maxlen buf line line' :
  holds maxlen buf line → line' `prefix_of` line → holds maxlen buf line'.
Proof.
  intros [H1 H2 H3 H4 H5] [l ->]. rewrite length_app in *. split; try done; try lia.
  - rewrite <- (take_app_length line' l) at 2. rewrite <- H4, take_take. f_equal. lia.
  - by apply Forall_app in H5 as [].
Qed.

Lemma putch_run c s : tty_putch c s = Done tt (mkTty (t_in s) (t_out s ++ [c]) (t_beeps s)).
Proof. done. Qed.

Lemma puts_run l : ∀ s, tty_puts l s = Done tt (mkTty (t_in s) (t_out s ++ l) (t_beeps s)).
Proof.
  induction l as [|c l IH]; intros s; [by destruct s; cbn; rewrite app_nil_r |].
  cbn. unfold mbind, M_bind. cbn. rewrite IH. cbn. by rewrite <- app_assoc.
Qed.

Lemma backsp_run s : backsp s = Done tt (mkTty (t_in s) (t_out s ++ BACKSP) (t_beeps s)).
Proof. unfold backsp, mbind, M_bind, BACKSP. rewrite !putch_run. cbn [t_in t_out t_beeps]. by rewrite <- !app_assoc. Qed.

Lemma erase_run p maxlen buf line :
  holds maxlen buf line →
  ∃ o, (∀ s, erase_while p buf (length line) s =
      Done (length (trim p line)) (mkTty (t_in s) (t_out s ++ o) (t_beeps s))) ∧
    ∀ scr, shows line scr → shows (trim p line) (show scr o).
Proof.
  induction line as [|c line IH] using rev_ind; intros Hh.
  { exists []. split; [| done]. intros s. rewrite app_nil_r. by destruct s. }
  rewrite length_app, Nat.add_comm. cbn [length Nat.add erase_while]. rewrite trim_snoc.
  assert (nth (length line) buf 0 = c) as ->.
  { apply nth_lookup_Some.
    assert (take (length (line ++ [c])) buf !! length line = Some c) as E.
    { rewrite (hd_line _ _ _ Hh). by apply list_lookup_middle. }
    apply lookup_take_Some in E as [E _]. done. }
  destruct (p c).
  - destruct IH as (o & E & Ho). { eapply holds_prefix; [exact Hh |]. by exists [c]. }
    exists (BACKSP ++ o). split.
    + intros s. unfold mbind, M_bind. rewrite backsp_run, E. cbn [t_in t_out t_beeps].
      by rewrite <- app_assoc.
    + intros scr Hs. rewrite show_app. apply Ho. by eapply shows_backsp.
  - exists []. split; [| done]. intros s. rewrite app_nil_r, length_app, Nat.add_comm. by destruct s.
Qed.

Lemma cstring_prefix line rest :
  Forall (λ c, printable c = true) line → cstring (line ++ 0 :: rest) = line.
Proof.
  induction 1 as [|c l Hc Hl IH]; [done |]. cbn.
  rewrite (proj2 (Z.eqb_neq c 0)), IH; [done |]. unfold printable in Hc. intros ->. done.
Qed.

Lemma kgets_store_run buf i c (s : tty) :
  (i < length buf)%nat → store_char buf i c s = Done (<[i := c]> buf) s.
Proof. intros Hi. apply Nat.ltb_lt in Hi. unfold store_char. by rewrite Hi. Qed.

Lemma holds_insert maxlen buf line i c :
  holds maxlen buf line → (length line <= i)%nat → holds maxlen (<[i := c]> buf) line.
Proof.
  intros [H1 H2 H3 H4 H5] Hi. split; try done; [by rewrite length_insert |].
  by rewrite take_insert_ge.
Qed.

Lemma holds_snoc maxlen buf line c :
  holds maxlen buf line → Z.of_nat (length line) < maxlen - 1 → printable c = true →
  holds maxlen (<[length line := c]> buf) (line ++ [c]).
Proof.
  intros [H1 H2 H3 H4 H5] Hl Hc. split; try done.
  - by rewrite length_insert.
  - rewrite length_app. simpl. lia.
  - rewrite length_app, Nat.add_comm. simpl.
    rewrite (take_S_r _ _ c); [by rewrite take_insert_ge, H4 |]. apply list_lookup_insert_eq. lia.
  - apply Forall_app. split; [done | by apply Forall_singleton].
Qed.

Lemma removelast_snoc {A} (l : list A) c : removelast (l ++ [c]) = l.
Proof. rewrite removelast_app by done. simpl. apply app_nil_r. Qed.

(** What a turn of the loop does with a key [ch] that does not end the line. *)
Definition turn (maxlen : Z) (buf line line' : list Z) (ch : Z) : Prop :=
  ∃ buf' o d, holds maxlen buf' line' ∧
    (∀ fuel rest out b,
       kgets_loop (S fuel) maxlen buf (length line) (mkTty (ch :: rest) out b) =
       kgets_loop fuel maxlen buf' (length line') (mkTty rest (out ++ o) (b + d))) ∧
    ∀ scr, shows line scr → shows line' (show scr o).

Lemma turn_key maxlen buf line ch :
  holds maxlen buf line → ends ch = false →
  turn maxlen buf line (edit (Z.to_nat (maxlen - 1)) line ch) ch.
Proof.
  intros Hh He. unfold ends in He. apply orb_false_iff in He as [He H3].
  pose proof (hd_room _ _ _ Hh) as Hroom. pose proof (hd_max _ _ _ Hh) as Hmax.
  pose proof (hd_len _ _ _ Hh) as Hlen.
  assert (∀ fuel rest out b, kgets_loop (S fuel) maxlen buf (length line) (mkTty (ch :: rest) out b) =
    (if printable ch && Nat.ltb (length line) (Z.to_nat (maxlen - 1)) then
        tty_putch ch ;; buf ← store_char buf (length line) ch;
        kgets_loop fuel maxlen buf (length line + 1)
      else if ((ch =? BS) || (ch =? DEL)) && Nat.ltb 0 (length line) then
        backsp ;; kgets_loop fuel maxlen buf (length line - 1)
      else if ch =? 18 then
        buf ← store_char buf (length line) 0;
        tty_puts ([94; 82; NL] ++ cstring buf) ;;
        kgets_loop fuel maxlen buf (length line)
      else if ch =? 21 then
        pos ← erase_while (λ _, true) buf (length line); kgets_loop fuel maxlen buf pos
      else if ch =? 23 then
        pos ← erase_while (λ c, c =? SPACE) buf (length line);
        pos ← erase_while (λ c, negb (c =? SPACE)) buf pos;
        kgets_loop fuel maxlen buf pos
      else tty_beep ;; kgets_loop fuel maxlen buf (length line)) (mkTty rest out b)) as Hloop.
  { intros. cbn [kgets_loop]. unfold mbind at 1, M_bind. cbn [tty_getch pure_tty t_in].
    rewrite He, H3. unfold printable.
    replace (Z.of_nat (length line) <? u32 (maxlen - 1))
      with (Nat.ltb (length line) (Z.to_nat (maxlen - 1))); [done |].
    rewrite u32_small by lia. apply eq_iff_eq_true. rewrite Nat.ltb_lt, Z.ltb_lt. lia. }
  unfold turn, edit. setoid_rewrite Hloop. clear Hloop.
  destruct (printable ch && _) eqn:Hp.
  { apply andb_true_iff in Hp as [Hp Hl]. apply Nat.ltb_lt in Hl.
    exists (<[length line := ch]> buf), [ch], 0. split; [apply holds_snoc; [done | lia | done] |].
    split; [| intros scr; by apply shows_char]. intros. unfold mbind, M_bind.
    rewrite putch_run, kgets_store_run by lia. cbn [t_in t_out t_beeps].
    by rewrite length_app, Z.add_0_r. }
  destruct ((ch =? BS) || (ch =? DEL)) eqn:Hb; cbn [andb].
  { destruct line as [|c line _] using rev_ind.
    - apply orb_true_iff in Hb as [->%Z.eqb_eq | ->%Z.eqb_eq]; cbn;
        (exists buf, [], 1; split; [done |]; split; [| done]); intros; by rewrite app_nil_r.
    - rewrite (proj2 (Nat.ltb_lt _ _)) by (rewrite length_app; simpl; lia). rewrite removelast_snoc.
      exists buf, BACKSP, 0. split; [eapply holds_prefix; [exact Hh | by exists [c]] |].
      split; [| intros scr; apply shows_backsp]. intros. unfold mbind, M_bind.
      rewrite backsp_run, Z.add_0_r, length_app. cbn. do 2 f_equal. lia. }
  destruct (Z.eqb_spec ch 18) as [-> |].
  { cbn [Z.eqb Pos.eqb]. exists (<[length line := 0]> buf), ([94; 82; NL] ++ line), 0.
    split; [by apply holds_insert |]. split.
    - intros. unfold mbind, M_bind. rewrite kgets_store_run by lia.
      assert (cstring (<[length line := 0]> buf) = line) as ->.
      { rewrite <- (take_drop_middle (<[length line := 0]> buf) (length line) 0)
          by (apply list_lookup_insert_eq; lia).
        rewrite take_insert_ge, (hd_line _ _ _ Hh) by lia. apply cstring_prefix. apply Hh. }
      rewrite puts_run, Z.add_0_r. done.
    - intros scr _. rewrite show_app. apply (shows_line []); [apply Hh |]. destruct scr. by exists 0%nat. }
  destruct (Z.eqb_spec ch 21) as [-> |].
  { cbn. destruct (erase_run (λ _, true) maxlen buf line Hh) as (o & E & Ho).
    rewrite trim_all in E, Ho by done. exists buf, o, 0.
    split; [eapply holds_prefix; [exact Hh | apply prefix_nil] |]. split; [| done].
    intros. unfold mbind, M_bind. rewrite E, Z.add_0_r. done. }
  destruct (Z.eqb_spec ch 23) as [-> |].
  { cbn. destruct (erase_run (λ c, c =? SPACE) maxlen buf line Hh) as (o1 & E1 & Ho1).
    assert (holds maxlen buf (trim (λ c, c =? SPACE) line)) as Hh1.
    { eapply holds_prefix; [exact Hh | apply trim_prefix]. }
    destruct (erase_run (λ c, negb (c =? SPACE)) maxlen buf _ Hh1) as (o2 & E2 & Ho2).
    exists buf, (o1 ++ o2), 0. split; [eapply holds_prefix; [exact Hh1 | apply trim_prefix] |].
    split; [| intros scr Hs; rewrite show_app; by apply Ho2, Ho1].
    intros. unfold mbind, M_bind. rewrite E1, E2, Z.add_0_r. cbn [t_in t_out t_beeps].
    by rewrite <- app_assoc. }
  exists buf, [], 1. split; [done |]. split; [| done]. intros. by rewrite app_nil_r.
Qed.

(** All keys up to the end of the line. *)
Lemma turn_keys maxlen keys : ∀ buf line,
  holds maxlen buf line → Forall (λ c, ends c = false) keys →
  ∃ buf' o d, holds maxlen buf' (foldl (edit (Z.to_nat (maxlen - 1))) line keys) ∧
    (∀ fuel rest out b,
       kgets_loop (length keys + fuel) maxlen buf (length line) (mkTty (keys ++ rest) out b) =
       kgets_loop fuel maxlen buf' (length (foldl (edit (Z.to_nat (maxlen - 1))) line keys))
         (mkTty rest (out ++ o) (b + d))) ∧
    ∀ scr, shows line scr → shows (foldl (edit (Z.to_nat (maxlen - 1))) line keys) (show scr o).
Proof.
  induction keys as [|ch keys IH]; intros buf line Hh Hk.
  { exists buf, [], 0. split; [done |]. split; [| done]. intros. by rewrite app_nil_r, Z.add_0_r. }
  apply Forall_cons in Hk as [Hc Hk].
  destruct (turn_key maxlen buf line ch Hh Hc) as (buf1 & o1 & d1 & Hh1 & E1 & Hs1).
  destruct (IH buf1 _ Hh1 Hk) as (buf2 & o2 & d2 & Hh2 & E2 & Hs2).
  exists buf2, (o1 ++ o2), (d1 + d2). split; [done |]. split.
  - intros. cbn [length Nat.add app]. rewrite E1, E2, <- app_assoc, Z.add_assoc. done.
  - intros scr Hs. rewrite show_app. by apply Hs2, Hs1.
Qed.

(** C27: kgets with a buffer of [maxlen] characters returns, on the keys up to a newline or
    carriage return, exactly the line those keys edit (at most [maxlen - 1] printable
    characters; backspace, erase-line and erase-word keys; everything else only echoes or
    beeps), terminated inside the buffer and without a store outside of it; the rest
    of the input is left; and the terminal shows that line when the key that ends it is
    pressed. *)
Theorem kgets_line maxlen buf keys nl rest out b fuel :
  Z.of_nat (length buf) = maxlen → 0 < maxlen < 2 ^ 32 →
  Forall (λ c, ends c = false) keys → nl = NL ∨ nl = CR → (length keys < fuel)%nat →
  let line := foldl (edit (Z.to_nat (maxlen - 1))) [] keys in
  ∃ buf' o b', kgets fuel maxlen buf (mkTty (keys ++ nl :: rest) out b) =
      Done buf' (mkTty rest (out ++ o ++ [NL]) b') ∧
    length buf' = length buf ∧ cstring buf' = line ∧ Z.of_nat (length line) < maxlen ∧
    shows line (show ([], 0%nat) o).
Proof.
  intros Hl Hm Hk Hnl Hf line.
  assert (holds maxlen buf []) as Hh by (split; simpl; try done; lia).
  destruct (turn_keys maxlen keys buf [] Hh Hk) as (buf1 & o & d & Hh1 & E & Hs).
  replace fuel with (length keys + S (fuel - length keys - 1))%nat by lia.
  exists (<[length line := 0]> buf1), o, (b + d).
  pose proof (hd_len _ _ _ Hh1). pose proof (hd_room _ _ _ Hh1). fold line in Hh1, Hs, E.
  split_and!.
  - unfold kgets, mbind, M_bind. simpl length in E. rewrite E.
    assert (kgets_loop (S (fuel - length keys - 1)) maxlen buf1 (length line)
      (mkTty (nl :: rest) (out ++ o) (b + d)) = Done (buf1, length line) (mkTty rest ((out ++ o) ++ [NL]) (b + d))) as ->.
    { cbn [kgets_loop]. unfold mbind, M_bind. cbn [tty_getch pure_tty t_in].
      by destruct Hnl as [-> | ->]. }
    rewrite kgets_store_run by (subst line; lia). by rewrite <- app_assoc.
  - rewrite length_insert. lia.
  - rewrite <- (take_drop_middle (<[length line := 0]> buf1) (length line) 0)
      by (apply list_lookup_insert_eq; subst line; lia).
    rewrite take_insert_ge, (hd_line _ _ _ Hh1) by lia. apply cstring_prefix. apply Hh1.
  - done.
  - apply Hs. by exists 0%nat.
Qed.

(** "ab", backspace, "c d", erase word, "e", newline in a buffer of 8. *)
Lemma kgets_line_witness :
  ∃ buf' s', kgets 20 8 (replicate 8 1) (mkTty [97; 98; 8; 99; 32; 100; 23; 101; 10; 7] [] 0) =
      Done buf' s' ∧ cstring buf' = [97; 99; 32; 101] ∧ t_in s' = [7].
Proof.
  destruct (kgets_line 8 (replicate 8 1) [97; 98; 8; 99; 32; 100; 23; 101] 10 [7] [] 0 20)
    as (buf' & o & b' & E & _ & Hc & _); [done | done | | by left | simpl; lia |].
  - repeat constructor.
  - exists buf', (mkTty [7] ([] ++ o ++ [NL]) b'). split; [exact E |]. split; [exact Hc | done].
Defined.

End Kgets.
