(* ===== verification/Menu.v ===== *)
(** * The kernel menu (main/menu.c)

    Command lines are strings; strtok_r, which cuts the line in place, is the function
    from what is left of the line to the next word and the rest.  The commands run on the
    machine of Trap.v.  What they call elsewhere in the kernel is called there where
    that component works on this machine (the VFS layer, processes, power-off), and is an
    operation of class [MenuOps] otherwise; the in-kernel tests are one such operation.
    Messages are not represented. *)

From stdpp Require Import base list gmap numbers strings.
From Stdlib Require Import ZArith Lia Ascii.
From S2P Require Import Prelude CopyInOut Uio Vnode VfsList VfsPath Spinlock VmState Swap LoadElf VmFault Proc Lamebus Trap.
Import Uio Vnode VfsList VfsPath VmState LoadElf VmFault Proc Lamebus Trap.

#[local] Open Scope Z_scope.

Module Menu.

Definition MAXMENUARGS : nat := 16.
Definition PATH_SHELL : string := "/bin/sh".
Definition PATH_MAX : Z := 1024.
Definition E2BIG : Z := 14.

(** ** strtok_r *)

Fixpoint skip_delims (p : ascii → bool) (s : string) : string :=
  match s with
  | EmptyString => EmptyString
  | String c r => if p c then skip_delims p r else s
  end.

(** The word at the start of [s], and what follows its delimiter. *)
Fixpoint cut_word (p : ascii → bool) (s : string) : string * string :=
  match s with
  | EmptyString => (EmptyString, EmptyString)
  | String c r =>
      if p c then (EmptyString, r)
      else let '(w, rest) := cut_word p r in (String c w, rest)
  end.

Definition strtok_r (p : ascii → bool) (s : string) : option (string * string) :=
  match skip_delims p s with
  | EmptyString => None
  | s' => Some (cut_word p s')
  end.

Definition is_blank (c : ascii) : bool := Ascii.eqb c " " || Ascii.eqb c "009".
Definition is_semi (c : ascii) : bool := Ascii.eqb c ";".

(** ** The command table *)

Inductive command :=
| cmd_mainmenu | cmd_opsmenu | cmd_testmenu
| cmd_shell | cmd_prog | cmd_mount | cmd_unmount | cmd_bootfs | printfile | cmd_chdir
| cmd_pwd | cmd_sync | cmd_debug | cmd_panic | cmd_deadlock | cmd_quit
| cmd_kheapstats | cmd_kheapgeneration | cmd_kheapdump
| test (name : string).

(** The names of the tests are those of their functions. *)
Definition cmdtable : list (string * command) :=
  [("?", cmd_mainmenu); ("h", cmd_mainmenu); ("help", cmd_mainmenu);
   ("?o", cmd_opsmenu); ("?t", cmd_testmenu);
   ("s", cmd_shell); ("p", cmd_prog); ("mount", cmd_mount); ("unmount", cmd_unmount);
   ("bootfs", cmd_bootfs); ("pf", printfile); ("cd", cmd_chdir); ("pwd", cmd_pwd);
   ("sync", cmd_sync); ("debug", cmd_debug); ("panic", cmd_panic);
   ("deadlock", cmd_deadlock); ("q", cmd_quit); ("exit", cmd_quit); ("halt", cmd_quit);
   ("kh", cmd_kheapstats); ("khgen", cmd_kheapgeneration); ("khdump", cmd_kheapdump);
   ("at", test "arraytest"); ("at2", test "arraytest2"); ("bt", test "bitmaptest");
   ("tlt", test "threadlisttest"); ("km1", test "kmalloctest"); ("km2", test "kmallocstress");
   ("km3", test "kmalloctest3"); ("km4", test "kmalloctest4");
   ("tt1", test "threadtest"); ("tt2", test "threadtest2"); ("tt3", test "threadtest3");
   ("sy1", test "semtest"); ("sy2", test "locktest"); ("sy3", test "cvtest");
   ("sy4", test "cvtest2");
   ("semu1", test "semu1"); ("semu2", test "semu2"); ("semu3", test "semu3");
   ("semu4", test "semu4"); ("semu5", test "semu5"); ("semu6", test "semu6");
   ("semu7", test "semu7"); ("semu8", test "semu8"); ("semu9", test "semu9");
   ("semu10", test "semu10"); ("semu11", test "semu11"); ("semu12", test "semu12");
   ("semu13", test "semu13"); ("semu14", test "semu14"); ("semu15", test "semu15");
   ("semu16", test "semu16"); ("semu17", test "semu17"); ("semu18", test "semu18");
   ("semu19", test "semu19"); ("semu20", test "semu20"); ("semu21", test "semu21");
   ("semu22", test "semu22");
   ("fs1", test "fstest"); ("fs2", test "readstress"); ("fs3", test "writestress");
   ("fs4", test "writestress2"); ("fs5", test "longstress"); ("fs6", test "createstress")]%string.

(** What the commands use of the rest of the kernel: a new thread that runs
    cmd_progthread in a process, or cmd_deadlockthread; mounting an SFS volume; the
    debugger; the in-kernel tests and printfile; and a line typed at the prompt. *)
Class MenuOps (FS W H : Type) := {
  fork_program : string → Z → list string → M (machine FS W H) Z;
  fork_deadlock : M (machine FS W H) Z;
  sfs_mount : string → M (machine FS W H) Z;
  mainbus_debugger : M (machine FS W H) unit;
  run_test : string → list string → M (machine FS W H) Z;
  kgets_line : M (machine FS W H) string
}.

Section menu.
Context {FS : Type} {fops : FileOps FS} {uio : UserIO FS}.
Context {W : Type} `{!Kernel W, !FileSystem W}.
Context {H : Type} `{!Hw H} `{!Scheduler FS W H} `{!MenuOps FS W H}.
Context (rtc_gettime : Z → Z * Z) (fuel : nat).
Abbreviation T := (M (machine FS W H)).

(** ** Programs *)

(** The thread of a program: [inl] the error runprogram returned (and the thread ends),
    [inr] the entry point and stack pointer control passes to. *)
Definition cmd_progthread (args : list string) : T (Z + Z * Z) :=
  kassert (Nat.leb 1 (length args)) "nargs >= 1" ;;
  gettime rtc_gettime ;;
  let progname := nth 0 args EmptyString in
  kassert (Nat.ltb (String.length progname) 128) "strlen(args[0]) < sizeof(progname)" ;;
  on_k (runprogram fuel progname).

Definition common_prog (args : list string) : T Z :=
  let name := nth 0 args EmptyString in
  proc ← on_k (proc_create_runprogram fuel name);
  if proc =? 0 then mret ENOMEM
  else
    result ← fork_program name proc args;
    if negb (result =? 0) then on_k (proc_destroy fuel proc) ;; mret result
    else mret 0.

Definition do_prog (args : list string) : T Z :=
  if Nat.ltb (length args) 2 then mret EINVAL else common_prog (tail args).

Definition do_shell (args : list string) : T Z :=
  if negb (Nat.eqb (length args) 1) then mret EINVAL
  else common_prog (<[0%nat := PATH_SHELL]> args).

(** ** File systems *)

Definition do_chdir (args : list string) : T Z :=
  if negb (Nat.eqb (length args) 2) then mret EINVAL
  else on_vfs (vfs_chdir (nth 1 args EmptyString)).

(** [buf]: the address of the local buffer. *)
Definition do_pwd (buf : Z) : T Z :=
  '(result, _) ← on_vfs (vfs_getcwd (uio_kinit buf PATH_MAX 0 UIO_READ));
  mret result.

Definition do_sync : T Z := on_vfs vfs_sync ;; mret 0.

Definition mounttable : list (string * (string → T Z)) := [("sfs"%string, sfs_mount)].

Definition do_mount (args : list string) : T Z :=
  if negb (Nat.eqb (length args) 3) then mret EINVAL
  else
    let fstype := nth 1 args EmptyString in
    let device := strip_colon (nth 2 args EmptyString) in
    match first_index (λ e, String.eqb (fst e) fstype) mounttable with
    | Some i => (nth i (map snd mounttable) (λ _, mret EINVAL)) device
    | None => mret EINVAL
    end.

Definition do_unmount (args : list string) : T Z :=
  if negb (Nat.eqb (length args) 2) then mret EINVAL
  else on_vfs (vfs_unmount (strip_colon (nth 1 args EmptyString))).

Definition do_bootfs (args : list string) : T Z :=
  if negb (Nat.eqb (length args) 2) then mret EINVAL
  else on_vfs (vfs_setbootfs (strip_colon (nth 1 args EmptyString))).

(** ** The rest *)

(** The locks of this kernel do not block, so the two threads run for ever. *)
Definition do_deadlock : T Z :=
  lock1 ← on_vfs (lock_create "deadlock1");
  match lock1 with
  | None => mret ENOMEM
  | Some l1 =>
      lock2 ← on_vfs (lock_create "deadlock2");
      match lock2 with
      | None => on_vfs (lock_destroy l1) ;; mret ENOMEM
      | Some l2 =>
          result ← fork_deadlock;
          if negb (result =? 0) then
            on_vfs (lock_release l1) ;; on_vfs (lock_destroy l2) ;; on_vfs (lock_destroy l1) ;;
            mret result
          else hang
      end
  end.

Definition do_quit : T Z :=
  on_vfs vfs_sync ;;
  sys_reboot RB_POWEROFF ;;
  hang.

Definition run_command (pwdbuf : Z) (c : command) (args : list string) : T Z :=
  match c with
  | cmd_mainmenu | cmd_opsmenu | cmd_testmenu => mret 0
  | cmd_shell => do_shell args
  | cmd_prog => do_prog args
  | cmd_mount => do_mount args
  | cmd_unmount => do_unmount args
  | cmd_bootfs => do_bootfs args
  | printfile => run_test "printfile" args
  | cmd_chdir => do_chdir args
  | cmd_pwd => do_pwd pwdbuf
  | cmd_sync => do_sync
  | cmd_debug => mainbus_debugger ;; mret 0
  | cmd_panic => panic "User requested panic"
  | cmd_deadlock => do_deadlock
  | cmd_quit => do_quit
  | cmd_kheapstats | cmd_kheapgeneration | cmd_kheapdump => mret 0
  | test name => run_test name args
  end.

(** ** Dispatch *)

(** The words of a command; [None]: too many.  Every turn cuts at least a character off. *)
Fixpoint split_args (n : nat) (cmd : string) (args : list string) : option (list string) :=
  match strtok_r is_blank cmd with
  | None => Some args
  | Some (word, rest) =>
      if Nat.leb MAXMENUARGS (length args) then None
      else
        match n with
        | O => None
        | S n' => split_args n' rest (args ++ [word])
        end
  end.

(** The loop over the table. *)
Fixpoint find_command (table : list (string * command)) (name : string) : option command :=
  match table with
  | [] => None
  | (n, c) :: r =>
      if negb (String.eqb n EmptyString) && String.eqb name n then Some c else find_command r name
  end.

Definition cmd_dispatch (pwdbuf : Z) (cmd : string) : T Z :=
  match split_args (S (String.length cmd)) cmd [] with
  | None => mret E2BIG
  | Some [] => mret 0
  | Some args =>
      match find_command cmdtable (nth 0 args EmptyString) with
      | None => mret EINVAL
      | Some c =>
          gettime rtc_gettime ;;
          result ← run_command pwdbuf c args;
          gettime rtc_gettime ;;
          mret result
      end
  end.

Fixpoint execute_loop (n : nat) (pwdbuf : Z) (line : string) (isargs : bool) : T unit :=
  match strtok_r is_semi line with
  | None => mret tt
  | Some (command, rest) =>
      match n with
      | O => nofuel
      | S n' =>
          result ← cmd_dispatch pwdbuf command;
          (if negb (result =? 0) && isargs then panic "Failure processing kernel arguments"
           else mret tt) ;;
          execute_loop n' pwdbuf rest isargs
      end
  end.

Definition menu_execute (pwdbuf : Z) (line : string) (isargs : bool) : T unit :=
  execute_loop (S (String.length line)) pwdbuf line isargs.

(** The boot arguments, then [n] turns of the prompt (which has no end). *)
Fixpoint prompt (n : nat) (pwdbuf : Z) : T unit :=
  match n with
  | O => mret tt
  | S n' => line ← kgets_line; menu_execute pwdbuf line false ;; prompt n' pwdbuf
  end.
Definition menu (n : nat) (pwdbuf : Z) (args : string) : T unit :=
  menu_execute pwdbuf args true ;; prompt n pwdbuf.

End menu.
End Menu.
