(* ===== verification/MenuProps.v ===== *)
(** * What a command line means

    Every string is a list of words set apart by delimiters, in one way; the menu runs
    the commands of a line in order, each with its words. *)

From stdpp Require Import base list gmap numbers strings.
From Stdlib Require Import ZArith Lia Ascii.
From S2P Require Import Prelude CopyInOut Uio Vnode VfsList VfsPath VfsAdd Spinlock VmState Swap LoadElf VmFault Machine Proc Lamebus LamebusProps Trap TrapProps Menu.
Import Vnode VmState LoadElf VmFault Lamebus Trap Menu.

#[local] Open Scope Z_scope.

Module MenuProps.

(** ** Words of a string *)

Fixpoint all_chars (p : ascii → bool) (s : string) : bool :=
  match s with EmptyString => true | String c r => p c && all_chars p r end.

(** [s] is the words [ws], each followed by a delimiter or the end, with any number of
    delimiters before each of them and at the end. *)
Inductive written (p : ascii → bool) : list string → string → Prop :=
| written_nil sep : all_chars p sep = true → written p [] sep
| written_last sep w :
    all_chars p sep = true → w ≠ EmptyString → all_chars (λ c, negb (p c)) w = true →
    written p [w] (sep +:+ w)
| written_cons sep w d rest ws :
    all_chars p sep = true → w ≠ EmptyString → all_chars (λ c, negb (p c)) w = true →
    p d = true → written p ws rest → written p (w :: ws) (sep +:+ w +:+ String d rest).

Lemma app_String c (a b : string) : String c a +:+ b = String c (a +:+ b).
Proof. done. Qed.
Lemma app_nil_string (a : string) : a +:+ EmptyString = a.
Proof. induction a as [|c a IH]; [done |]. by rewrite app_String, IH. Qed.
Lemma app_string_length (a b : string) :
  String.length (a +:+ b) = (String.length a + String.length b)%nat.
Proof. induction a as [|c a IH]; [done |]. rewrite app_String. cbn. by rewrite IH. Qed.

Lemma skip_delims_app p sep s :
  all_chars p sep = true → skip_delims p (sep +:+ s) = skip_delims p s.
Proof.
  induction sep as [|c sep IH]; [done |]. rewrite app_String. cbn.
  intros [Hc Hs]%andb_true_iff. rewrite Hc. by apply IH.
Qed.

Lemma skip_delims_word p w s :
  w ≠ EmptyString → all_chars (λ c, negb (p c)) w = true →
  skip_delims p (w +:+ s) = w +:+ s ∧ w +:+ s ≠ EmptyString.
Proof.
  destruct w as [|c w]; [done |]. rewrite app_String. cbn. intros _ [Hc _]%andb_true_iff.
  apply negb_true_iff in Hc. by rewrite Hc.
Qed.

Lemma cut_word_end p w : all_chars (λ c, negb (p c)) w = true → cut_word p w = (w, EmptyString).
Proof.
  induction w as [|c w IH]; cbn; [done |]. intros [Hc Hw]%andb_true_iff.
  apply negb_true_iff in Hc. by rewrite Hc, IH.
Qed.
Lemma cut_word_delim p w d rest :
  all_chars (λ c, negb (p c)) w = true → p d = true → cut_word p (w +:+ String d rest) = (w, rest).
Proof.
  intros Hw Hd. induction w as [|c w IH]; [by change (EmptyString +:+ String d rest) with (String d rest); cbn; rewrite Hd |]. rewrite app_String. cbn.
  cbn in Hw. apply andb_true_iff in Hw as [Hc Hw]. apply negb_true_iff in Hc. by rewrite Hc, IH.
Qed.

Lemma strtok_some p s s' : skip_delims p s = s' → s' ≠ EmptyString → strtok_r p s = Some (cut_word p s').
Proof. intros <- Hn. unfold strtok_r. by destruct (skip_delims p s). Qed.

Lemma strtok_none p s : strtok_r p s = None ↔ skip_delims p s = EmptyString.
Proof. unfold strtok_r. by destruct (skip_delims p s). Qed.

Lemma written_strtok p ws s :
  written p ws s →
  match ws with
  | [] => strtok_r p s = None
  | w :: ws' => ∃ rest, strtok_r p s = Some (w, rest) ∧ written p ws' rest ∧
                  (String.length rest < String.length s)%nat
  end.
Proof.
  destruct 1 as [sep Hs | sep w Hs Hn Hw | sep w d rest ws Hs Hn Hw Hd Hr].
  - apply strtok_none. induction sep as [|c sep IH]; [done |]. cbn in *.
    apply andb_true_iff in Hs as [-> Hs]. by apply IH.
  - exists EmptyString. destruct (skip_delims_word p w EmptyString Hn Hw) as [E Hne].
    rewrite app_nil_string in E, Hne.
    split; [| split; [by constructor |]].
    + erewrite strtok_some; [by rewrite cut_word_end | | done]. by rewrite skip_delims_app.
    + rewrite app_string_length. destruct w; [done |]. cbn. lia.
  - exists rest. destruct (skip_delims_word p w (String d rest) Hn Hw) as [E Hne].
    split; [| split; [done |]].
    + erewrite strtok_some; [by rewrite cut_word_delim | | done]. by rewrite skip_delims_app.
    + rewrite !app_string_length. cbn. lia.
Qed.

(** Every string is written in some words, and [strtok_r] finds them. *)
Lemma cut_word_spec p s w rest :
  cut_word p s = (w, rest) →
  all_chars (λ c, negb (p c)) w = true ∧
  (s = w ∧ rest = EmptyString ∨ ∃ d, p d = true ∧ s = w +:+ String d rest).
Proof.
  revert w. induction s as [|c s IH]; cbn; intros w E.
  { injection E as <- <-. split; [done | by left]. }
  destruct (p c) eqn:Hc.
  { injection E as <- <-. split; [done |]. right. by exists c. }
  destruct (cut_word p s) as [w' r'] eqn:Ew. injection E as <- <-.
  destruct (IH w' eq_refl) as [Hw Hs]. cbn. rewrite Hc, Hw. split; [done |].
  destruct Hs as [[-> ->] | (d & Hd & ->)]; [by left | right]. exists d. by rewrite app_String.
Qed.

Lemma skip_delims_spec p s :
  ∃ sep, all_chars p sep = true ∧ s = sep +:+ skip_delims p s.
Proof.
  induction s as [|c s (sep & Hs & E)]; [by exists EmptyString |]. cbn.
  destruct (p c) eqn:Hc; [| by exists EmptyString].
  exists (String c sep). cbn. rewrite Hc, app_String, <- E. done.
Qed.

Lemma skip_delims_head p s c r : skip_delims p s = String c r → p c = false.
Proof.
  induction s as [|c' s IH]; cbn; [done |]. destruct (p c') eqn:Hc; [done |]. by intros [= <- <-].
Qed.

Lemma written_total p s : ∃ ws, written p ws s.
Proof.
  remember (String.length s) as n eqn:Hn.
  revert s Hn. induction (lt_wf n) as [n _ IH]. intros s ->.
  destruct (skip_delims_spec p s) as (sep & Hsep & E).
  destruct (skip_delims p s) as [|c r] eqn:Es.
  { exists []. rewrite E, app_nil_string. by constructor. }
  destruct (cut_word p (String c r)) as [w rest] eqn:Ew.
  assert (w ≠ EmptyString) as Hne.
  { intros ->. cbn in Ew. rewrite (skip_delims_head _ _ _ _ Es) in Ew. by destruct (cut_word p r). }
  destruct (cut_word_spec _ _ _ _ Ew) as [Hw [[Ec ->] | (d & Hd & Ec)]]; rewrite E, Ec.
  - exists [w]. by constructor.
  - destruct (IH (String.length rest)) with (s := rest) as (ws & Hws); [| done |].
    { rewrite E, Ec, !app_string_length. cbn. lia. }
    exists (w :: ws). by constructor.
Qed.

(** ** The meaning of a command line *)

Section meaning.
Context {FS : Type} {fops : FileOps FS} {uio : UserIO FS}.
Context {W : Type} `{!Kernel W, !FileSystem W}.
Context {H : Type} `{!Hw H} `{!Scheduler FS W H} `{!MenuOps FS W H}.
Context (rtc_gettime : Z → Z * Z) (fuel : nat) (pwdbuf : Z).
Abbreviation T := (M (machine FS W H)).

(** A command given as its words. *)
Definition exec_words (ws : list string) : T Z :=
  if Nat.ltb MAXMENUARGS (length ws) then mret E2BIG
  else
    match ws with
    | [] => mret 0
    | name :: _ =>
        match find_command cmdtable name with
        | None => mret EINVAL
        | Some c =>
            gettime rtc_gettime ;;
            result ← run_command fuel pwdbuf c ws;
            gettime rtc_gettime ;;
            mret result
        end
    end.

(** The commands in order; a failure matters only for the boot arguments. *)
Fixpoint exec_all (isargs : bool) (cmds : list (list string)) : T unit :=
  match cmds with
  | [] => mret tt
  | ws :: r =>
      result ← exec_words ws;
      (if negb (result =? 0) && isargs then panic "Failure processing kernel arguments"
       else mret tt) ;;
      exec_all isargs r
  end.

Lemma split_args_run ws : ∀ n cmd args,
  written is_blank ws cmd → (String.length cmd < n)%nat →
  split_args n cmd args =
    if Nat.ltb MAXMENUARGS (length args + length ws) && negb (Nat.eqb (length ws) 0)
    then None else Some (args ++ ws).
Proof.
  induction ws as [|w ws IH]; intros n cmd args Hw Hn; apply written_strtok in Hw.
  { destruct n; cbn [split_args]; rewrite Hw, andb_false_r, app_nil_r; done. }
  destruct Hw as (rest & E & Hw & Hl). destruct n as [|n]; [lia |]. cbn [split_args]. rewrite E.
  destruct (Nat.leb_spec MAXMENUARGS (length args)) as [Hle | Hlt].
  { cbn [length Nat.eqb negb]. rewrite andb_true_r, (proj2 (Nat.ltb_lt _ _)); [done | lia]. }
  rewrite IH by (done || lia). rewrite length_app, <- app_assoc. cbn [length app Nat.eqb negb].
  rewrite andb_true_r. replace (length args + 1 + length ws)%nat with (length args + S (length ws))%nat by lia.
  destruct ws as [|w' ws]; cbn [length Nat.eqb negb]; [| by rewrite andb_true_r].
  rewrite andb_false_r, (proj2 (Nat.ltb_ge _ _)); [done | lia].
Qed.

Lemma cmd_dispatch_words ws cmd s :
  written is_blank ws cmd → cmd_dispatch rtc_gettime fuel pwdbuf cmd s = exec_words ws s.
Proof.
  intros Hw. unfold cmd_dispatch, exec_words. rewrite (split_args_run ws) by (done || lia). cbn [length Nat.add app].
  destruct ws as [|w ws]; [done |]. cbn [length Nat.eqb negb]. rewrite andb_true_r.
  by destruct (Nat.ltb _ _).
Qed.

Lemma execute_loop_words isargs cmds : ∀ strs line n s,
  written is_semi strs line → Forall2 (written is_blank) cmds strs → (String.length line < n)%nat →
  execute_loop rtc_gettime fuel n pwdbuf line isargs s = exec_all isargs cmds s.
Proof.
  induction cmds as [|ws cmds IH]; intros strs line n s Hl Hf Hn; inversion Hf as [| ? c ? strs' Hc Hf']; subst;
    apply written_strtok in Hl.
  { destruct n; cbn [execute_loop]; by rewrite Hl. }
  destruct Hl as (rest & E & Hl & Hlt). destruct n as [|n]; [lia |]. cbn [execute_loop exec_all]. rewrite E.
  unfold mbind, M_bind. rewrite (cmd_dispatch_words ws) by done.
  destruct (exec_words ws s) as [r s1 | | |]; [| done..].
  destruct (negb (r =? 0) && isargs); [done |]. cbn [mret M_ret]. by apply (IH strs'); [| | lia].
Qed.

(** C29: A line of commands set apart by semicolons, each of words set apart by blanks and
    tabs, with any extra delimiters, runs exactly these commands with these words in
    this order; a command of no words does nothing, one of more than 16 is refused with E2BIG
    and an unknown one with EINVAL, neither having run anything; a failed command is passed
    over at the prompt and panics when it is a boot argument.  Every line is of this form. *)
Theorem menu_execute_words line isargs s :
  (∃ strs cmds, written is_semi strs line ∧ Forall2 (written is_blank) cmds strs) ∧
  ∀ strs cmds, written is_semi strs line → Forall2 (written is_blank) cmds strs →
    menu_execute rtc_gettime fuel pwdbuf line isargs s = exec_all isargs cmds s.
Proof.
  split.
  - destruct (written_total is_semi line) as [strs Hs]. exists strs.
    assert (∃ cmds, Forall2 (written is_blank) cmds strs) as [cmds Hc]; [| by exists cmds].
    clear Hs. induction strs as [|c strs (cmds & Hf)]; [by exists [] |].
    destruct (written_total is_blank c) as [ws Hw]. exists (ws :: cmds). by constructor.
  - intros strs cmds Hs Hc. by apply (execute_loop_words isargs cmds strs); [| | lia].
Qed.

End meaning.

(** ** A concrete line *)

Import Machine VfsAdd LamebusProps TrapProps.

#[export] Instance wit_menu : MenuOps pagestore gheap Z := {|
  fork_program _ _ _ := mret 0; fork_deadlock := mret 0; sfs_mount _ := mret 0;
  mainbus_debugger := mret tt; run_test _ _ := mret 0; kgets_line := mret EmptyString
|}.

(** A command that is not known, and the menu. *)
Lemma menu_execute_words_witness :
  menu_execute (λ _, (5, 6)) 10 0x80007000 " x y; ?" false wit_machine = Done tt wit_machine.
Proof.
  destruct (menu_execute_words (λ _, (5, 6)) 10 0x80007000 " x y; ?" false wit_machine) as [_ Hall].
  rewrite (Hall [" x y"; " ?"]%string [["x"; "y"]; ["?"]]%string).
  - reflexivity.
  - apply (written_cons is_semi "" " x y" ";" " ?" [" ?"%string]); [done | done | done | done |].
    by apply (written_last is_semi "" " ?").
  - constructor; [| constructor; [| constructor]].
    + apply (written_cons is_blank " " "x" " " "y" ["y"%string]); [done | done | done | done |].
      by apply (written_last is_blank "" "y").
    + by apply (written_last is_blank " " "?").
Defined.

End MenuProps.
