(* ===== verification/Emu.v ===== *)
(** * The emulator file system (dev/lamebus/emu.c)

    Files of the host, reached through a device with five registers and a buffer.  The
    device is hardware: its registers and buffer are read and written through the
    operations of class [EmuHw], and a store to REG_OPER performs the operation.  A
    completed operation interrupts; the thread that waits for it has then received the
    result.  File vnodes are kept in [ef_vnodes], with the handle of each.  The sleep locks
    of this kernel do not block and do not appear; the big lock of the VFS layer does. *)

From stdpp Require Import base list gmap numbers strings.
From Stdlib Require Import ZArith Lia Ascii.
From S2P Require Import Prelude Uio Vnode VfsList VfsPath.
Import Uio Vnode VfsList VfsPath.

#[local] Open Scope Z_scope.

Module Emu.

Definition REG_HANDLE : Z := 0.
Definition REG_OFFSET : Z := 4.
Definition REG_IOLEN : Z := 8.
Definition REG_OPER : Z := 12.
Definition REG_RESULT : Z := 16.
Definition EMU_BUFFER : Z := 32768.
Definition EMU_MAXIO : Z := 16384.
Definition EMU_ROOTHANDLE : Z := 0.

Definition EMU_OP_OPEN : Z := 1.
Definition EMU_OP_CREATE : Z := 2.
Definition EMU_OP_EXCLCREATE : Z := 3.
Definition EMU_OP_CLOSE : Z := 4.
Definition EMU_OP_READ : Z := 5.
Definition EMU_OP_READDIR : Z := 6.
Definition EMU_OP_WRITE : Z := 7.
Definition EMU_OP_GETSIZE : Z := 8.
Definition EMU_OP_TRUNC : Z := 9.

Definition EMU_RES_SUCCESS : Z := 1.
Definition EMU_RES_BADHANDLE : Z := 2.
Definition EMU_RES_BADOP : Z := 3.
Definition EMU_RES_BADPATH : Z := 4.
Definition EMU_RES_BADSIZE : Z := 5.
Definition EMU_RES_EXISTS : Z := 6.
Definition EMU_RES_ISDIR : Z := 7.
Definition EMU_RES_MEDIA : Z := 8.
Definition EMU_RES_NOHANDLES : Z := 9.
Definition EMU_RES_NOSPACE : Z := 10.
Definition EMU_RES_NOTDIR : Z := 11.
Definition EMU_RES_UNKNOWN : Z := 12.
Definition EMU_RES_UNSUPP : Z := 13.

Definition EAGAIN : Z := 4.
Definition ENFILE : Z := 29.
Definition EIO : Z := 32.
Definition S_IFREG : Z := 0x1000.
Definition SIZEOF_EMUFS_VNODE : Z := 32.
Definition SIZEOF_EMUFS_FS : Z := 20.

Class EmuHw (D : Type) := {
  hw_rreg : Z → D → Z;
  hw_wreg : Z → Z → D → D;
  hw_buf : D → list Z;
  hw_setbuf : list Z → D → D
}.

(** The driver and the file system on it: [e_result] and the count of [e_sem]; the root,
    the table of loaded vnodes with its block and capacity, and the handle of each vnode
    (ev_handle, by the address of the emufs_vnode, which starts with the vnode). *)
Record emu (D : Type) := mkEmu {
  e_hw : D;
  e_result : Z;
  e_sem : Z;
  ef_root : Z;
  ef_vnodes : list Z;
  ef_block : Z;
  ef_max : Z;
  ev_handle : gmap Z Z
}.
Arguments mkEmu {D}. Arguments e_hw {D}. Arguments e_result {D}. Arguments e_sem {D}.
Arguments ef_root {D}. Arguments ef_vnodes {D}. Arguments ef_block {D}. Arguments ef_max {D}.
Arguments ev_handle {D}.

(** The world has an emu device; bytes are taken from a request with [uiomove_from] (the
    other direction is the [uiomove] of class [Kernel]). *)
Class HasEmu (W D : Type) := {
  get_emu : W → emu D;
  set_emu : emu D → W → W;
  uiomove_from : Z → uio → M (vfs W) (Z * list Z * uio)
}.

Section fields.
Context {D : Type}.
Implicit Types e : emu D.
Definition with_hw (x : D) e := mkEmu x (e_result e) (e_sem e) (ef_root e) (ef_vnodes e) (ef_block e) (ef_max e) (ev_handle e).
Definition with_irq r n e := mkEmu (e_hw e) r n (ef_root e) (ef_vnodes e) (ef_block e) (ef_max e) (ev_handle e).
Definition with_root x e := mkEmu (e_hw e) (e_result e) (e_sem e) x (ef_vnodes e) (ef_block e) (ef_max e) (ev_handle e).
Definition with_vns x e := mkEmu (e_hw e) (e_result e) (e_sem e) (ef_root e) x (ef_block e) (ef_max e) (ev_handle e).
Definition with_block b m e := mkEmu (e_hw e) (e_result e) (e_sem e) (ef_root e) (ef_vnodes e) b m (ev_handle e).
Definition with_handles x e := mkEmu (e_hw e) (e_result e) (e_sem e) (ef_root e) (ef_vnodes e) (ef_block e) (ef_max e) x.
End fields.

Section emu.
Context {W D : Type} `{!Kernel W, !EmuHw D, !HasEmu W D}.
Abbreviation V := (M (vfs W)).

Definition the_emu : V (emu D) := gets (λ s, get_emu (world s)).
Definition upd_emu (f : emu D → emu D) : V unit :=
  modify (λ s, with_world (set_emu (f (get_emu (world s))) (world s)) s).

(** ** The device *)

Definition emu_rreg (reg : Z) : V Z := e ← the_emu; mret (hw_rreg reg (e_hw e)).
Definition emu_wreg (reg val : Z) : V unit :=
  upd_emu (λ e, with_hw (hw_wreg reg (u32 val) (e_hw e)) e).

Definition emu_irq : V unit :=
  r ← emu_rreg REG_RESULT;
  upd_emu (λ e, with_irq r (e_sem e) e) ;;
  emu_wreg REG_RESULT 0 ;;
  upd_emu (λ e, with_irq (e_result e) (u32 (e_sem e + 1)) e).

Definition translate_err (code : Z) : V Z :=
  if code =? EMU_RES_SUCCESS then mret 0
  else if (code =? EMU_RES_BADHANDLE) || (code =? EMU_RES_BADOP) || (code =? EMU_RES_BADSIZE)
  then panic "emu: got fatal result code"
  else if code =? EMU_RES_BADPATH then mret ENOENT
  else if code =? EMU_RES_EXISTS then mret EEXIST
  else if code =? EMU_RES_ISDIR then mret EISDIR
  else if code =? EMU_RES_MEDIA then mret EIO
  else if code =? EMU_RES_NOHANDLES then mret ENFILE
  else if code =? EMU_RES_NOSPACE then mret ENOSPC
  else if code =? EMU_RES_NOTDIR then mret ENOTDIR
  else if code =? EMU_RES_UNKNOWN then mret EIO
  else if code =? EMU_RES_UNSUPP then mret ENOSYS
  else mret EAGAIN.

(** [P(sc->e_sem)] returns once the interrupt has come. *)
Definition emu_waitdone : V Z :=
  emu_irq ;;
  upd_emu (λ e, with_irq (e_result e) (e_sem e - 1) e) ;;
  e ← the_emu;
  translate_err (e_result e).


(** The error, the handle and whether it is a directory. *)
Definition emu_open (handle : Z) (name : string) (create excl : bool) (mode : Z) : V (Z * Z * bool) :=
  if EMU_MAXIO <? Z.of_nat (String.length name) + 1 then mret (ENAMETOOLONG, 0, false)
  else
    let op := if create && excl then EMU_OP_EXCLCREATE
              else if create then EMU_OP_CREATE else EMU_OP_OPEN in
    upd_emu (λ e, with_hw (hw_setbuf (bytes name ++ 0 :: drop (S (String.length name)) (hw_buf (e_hw e))) (e_hw e)) e) ;;
    emu_wreg REG_IOLEN (Z.of_nat (String.length name)) ;;
    emu_wreg REG_HANDLE handle ;;
    emu_wreg REG_OPER op ;;
    result ← emu_waitdone;
    if result =? 0 then
      newhandle ← emu_rreg REG_HANDLE;
      iolen ← emu_rreg REG_IOLEN;
      mret (0, newhandle, 0 <? iolen)
    else mret (result, 0, false).

Fixpoint close_loop (n : nat) (handle : Z) : V Z :=
  emu_wreg REG_HANDLE handle ;;
  emu_wreg REG_OPER EMU_OP_CLOSE ;;
  result ← emu_waitdone;
  match n with
  | S n' => if result =? EIO then close_loop n' handle else mret result
  | O => mret result
  end.
(** At most 10 retries. *)
Definition emu_close (handle : Z) : V Z := close_loop 10 handle.

Definition with_offset (o : Z) (u : uio) : uio :=
  mkUio (uio_iov u) (uio_iovcnt u) o (uio_resid u) (uio_segflg u) (uio_rw u) (uio_space u).

Definition emu_doread (handle len op : Z) (u : uio) : V (Z * uio) :=
  kassert (uio_rw u =? UIO_READ) "uio->uio_rw == UIO_READ" ;;
  if 0xffffffff <? uio_offset u then mret (0, u)
  else
    emu_wreg REG_HANDLE handle ;;
    emu_wreg REG_IOLEN len ;;
    emu_wreg REG_OFFSET (uio_offset u) ;;
    emu_wreg REG_OPER op ;;
    result ← emu_waitdone;
    if negb (result =? 0) then mret (result, u)
    else
      n ← emu_rreg REG_IOLEN;
      e ← the_emu;
      '(result, u) ← uiomove (take (Z.to_nat n) (hw_buf (e_hw e))) u;
      off ← emu_rreg REG_OFFSET;
      mret (result, with_offset off u).

Definition emu_read (handle len : Z) (u : uio) : V (Z * uio) := emu_doread handle len EMU_OP_READ u.
Definition emu_readdir (handle len : Z) (u : uio) : V (Z * uio) :=
  emu_doread handle len EMU_OP_READDIR u.

Definition emu_write (handle len : Z) (u : uio) : V (Z * uio) :=
  kassert (uio_rw u =? UIO_WRITE) "uio->uio_rw == UIO_WRITE" ;;
  if 0xffffffff <? uio_offset u then mret (EFBIG, u)
  else
    emu_wreg REG_HANDLE handle ;;
    emu_wreg REG_IOLEN len ;;
    emu_wreg REG_OFFSET (uio_offset u) ;;
    '(result, data, u) ← uiomove_from len u;
    upd_emu (λ e, with_hw (hw_setbuf (data ++ drop (length data) (hw_buf (e_hw e))) (e_hw e)) e) ;;
    if negb (result =? 0) then mret (result, u)
    else
      emu_wreg REG_OPER EMU_OP_WRITE ;;
      result ← emu_waitdone;
      mret (result, u).

Definition emu_getsize (handle : Z) : V (Z * Z) :=
  emu_wreg REG_HANDLE handle ;;
  emu_wreg REG_OPER EMU_OP_GETSIZE ;;
  result ← emu_waitdone;
  if result =? 0 then n ← emu_rreg REG_IOLEN; mret (0, n) else mret (result, 0).

Definition emu_trunc (handle len : Z) : V Z :=
  kassert (0 <=? len) "len >= 0" ;;
  emu_wreg REG_HANDLE handle ;;
  emu_wreg REG_IOLEN len ;;
  emu_wreg REG_OPER EMU_OP_TRUNC ;;
  emu_waitdone.

(** ** vnode operations *)

Definition emufs_fileops : vnode_ops := fs_vnode_ops 3.
Definition emufs_dirops : vnode_ops := fs_vnode_ops 4.

Definition handle_of (v : Z) : V Z :=
  vn ← get_vnode v;
  e ← the_emu;
  deref (λ _, ev_handle e !! vn_data vn) "bad emufs_vnode pointer".

Definition emufs_eachopen (v openflags : Z) : V Z := mret 0.
Definition emufs_eachopendir (v openflags : Z) : V Z :=
  if negb (Z.land openflags O_ACCMODE =? O_RDONLY) then mret EISDIR
  else if negb (Z.land openflags O_APPEND =? 0) then mret EISDIR
  else mret 0.

(** The first place of [v] in the table. *)
Definition find_vnode (v : Z) (l : list Z) : option nat := first_index (λ x, x =? v) l.

Definition emufs_reclaim (v : Z) : V Z :=
  vfs_biglock_acquire ;;
  vn ← get_vnode v;
  if 1 <? vn_refcount vn then
    set_vnode v (Vnode.with_refcount (vn_refcount vn - 1) vn) ;;
    vfs_biglock_release ;;
    mret EBUSY
  else
    kassert (vn_refcount vn =? 1) "ev->ev_v.vn_refcount == 1" ;;
    h ← handle_of v;
    result ← emu_close h;
    if negb (result =? 0) then vfs_biglock_release ;; mret result
    else
      e ← the_emu;
      match find_vnode v (ef_vnodes e) with
      | None => panic "emu: reclaim vnode not in vnode pool"
      | Some ix =>
          upd_emu (λ e, with_handles (delete (vn_data vn) (ev_handle e))
                          (with_vns (delete ix (ef_vnodes e)) e)) ;;
          vnode_cleanup v ;;
          vfs_biglock_release ;;
          kfree (vn_data vn) ;;
          mret 0
      end.

(** The loop of emufs_read and emufs_write: every turn moves something or stops. *)
Fixpoint io_loop (n : nat) (io : Z → uio → V (Z * uio)) (u : uio) : V (Z * uio) :=
  match n with
  | O => nofuel
  | S n' =>
      if uio_resid u <=? 0 then mret (0, u)
      else
        let amt := if EMU_MAXIO <? uio_resid u then EMU_MAXIO else uio_resid u in
        '(result, u') ← io amt u;
        if negb (result =? 0) then mret (result, u')
        else if uio_resid u' =? uio_resid u then mret (0, u')
        else io_loop n' io u'
  end.

Definition emufs_read (v : Z) (u : uio) : V (Z * uio) :=
  kassert (uio_rw u =? UIO_READ) "uio->uio_rw==UIO_READ" ;;
  h ← handle_of v;
  io_loop (S (Z.to_nat (uio_resid u))) (emu_read h) u.

Definition emufs_getdirentry (v : Z) (u : uio) : V (Z * uio) :=
  kassert (uio_rw u =? UIO_READ) "uio->uio_rw==UIO_READ" ;;
  h ← handle_of v;
  emu_readdir h (if EMU_MAXIO <? uio_resid u then EMU_MAXIO else uio_resid u) u.

Definition emufs_write (v : Z) (u : uio) : V (Z * uio) :=
  kassert (uio_rw u =? UIO_WRITE) "uio->uio_rw==UIO_WRITE" ;;
  h ← handle_of v;
  io_loop (S (Z.to_nat (uio_resid u))) (emu_write h) u.

Definition emufs_ioctl (v op data : Z) : V Z := mret EINVAL.
Definition emufs_file_gettype (v : Z) : V (Z * Z) := mret (0, S_IFREG).
Definition emufs_dir_gettype (v : Z) : V (Z * Z) := mret (0, S_IFDIR).

(** The two operation tables. *)
Definition dispatch {A} (v : Z) (dir file : V A) : V A :=
  vn ← get_vnode v;
  if decide (vn_ops vn = emufs_dirops) then dir
  else if decide (vn_ops vn = emufs_fileops) then file
  else panic "unknown vnode operations".
Definition emufs_gettype (v : Z) : V (Z * Z) := dispatch v (emufs_dir_gettype v) (emufs_file_gettype v).

(** The error, st_size and st_mode. *)
Definition emufs_stat (v : Z) : V (Z * Z * Z) :=
  h ← handle_of v;
  '(result, size) ← emu_getsize h;
  if negb (result =? 0) then mret (result, 0, 0)
  else
    '(result, mode) ← emufs_gettype v;
    if negb (result =? 0) then mret (result, size, 0)
    else mret (0, size, Z.lor mode 0x1a4).

Definition emufs_isseekable (v : Z) : V bool := mret true.
Definition emufs_fsync (v : Z) : V Z := mret 0.
Definition emufs_mmap (v : Z) : V Z := mret ENOSYS.

Definition emufs_truncate (v len : Z) : V Z := h ← handle_of v; emu_trunc h len.

(** [vnodearray_add]. *)
Definition vnodearray_add (v : Z) : V Z :=
  e ← the_emu;
  let num := Z.of_nat (length (ef_vnodes e)) in
  result ← (if ef_max e <? num + 1 then
              let newmax := if ef_max e =? 0 then 4 else u32 (ef_max e * 2) in
              p ← kmalloc (u32 (newmax * 4));
              if p =? 0 then mret ENOMEM
              else upd_emu (with_block p newmax) ;; kfree (ef_block e) ;; mret 0
            else mret 0);
  if negb (result =? 0) then mret result
  else upd_emu (λ e, with_vns (ef_vnodes e ++ [v]) e) ;; mret 0.

(** A loaded vnode with this handle. *)
Definition loaded (handle : Z) (e : emu D) : option Z :=
  match first_index (λ v, bool_decide (ev_handle e !! v = Some handle)) (ef_vnodes e) with
  | Some i => ef_vnodes e !! i
  | None => None
  end.

(** [fs]: the address of ef_fs.  When there is no memory for the vnode the big lock is
    not released. *)
Definition emufs_loadvnode (fs handle : Z) (isdir : bool) : V (Z * Z) :=
  vfs_biglock_acquire ;;
  e ← the_emu;
  match loaded handle e with
  | Some v => VOP_INCREF v ;; vfs_biglock_release ;; mret (0, v)
  | None =>
      ev ← kmalloc SIZEOF_EMUFS_VNODE;
      if ev =? 0 then mret (ENOMEM, 0)
      else
        upd_emu (λ e, with_handles (<[ev := handle]> (ev_handle e)) e) ;;
        result ← vnode_init ev (if isdir then emufs_dirops else emufs_fileops) fs ev;
        if negb (result =? 0) then
          upd_emu (λ e, with_handles (delete ev (ev_handle e)) e) ;;
          vfs_biglock_release ;; kfree ev ;; mret (result, 0)
        else
          result ← vnodearray_add ev;
          if negb (result =? 0) then
            vnode_cleanup ev ;;
            upd_emu (λ e, with_handles (delete ev (ev_handle e)) e) ;;
            vfs_biglock_release ;; kfree ev ;; mret (result, 0)
          else vfs_biglock_release ;; mret (0, ev)
  end.

(** Open by name below [dir], and load the vnode. *)
Definition open_and_load (dir : Z) (name : string) (create excl : bool) (mode : Z) : V (Z * Z) :=
  vn ← get_vnode dir;
  h ← handle_of dir;
  '(result, handle, isdir) ← emu_open h name create excl mode;
  if negb (result =? 0) then mret (result, 0)
  else
    '(result, newguy) ← emufs_loadvnode (vn_fs vn) handle isdir;
    if negb (result =? 0) then emu_close handle ;; mret (result, 0)
    else mret (0, newguy).

Definition emufs_creat (dir : Z) (name : string) (excl : bool) (mode : Z) : V (Z * Z) :=
  open_and_load dir name true excl mode.
Definition emufs_lookup (dir : Z) (pathname : string) : V (Z * Z) :=
  open_and_load dir pathname false false 0.

(** The part of a path up to its last slash, and the rest. *)
Fixpoint strrchr (s : string) : option (string * string) :=
  match s with
  | EmptyString => None
  | String c r =>
      match strrchr r with
      | Some (a, b) => Some (String c a, b)
      | None => if Ascii.eqb c "/"%char then Some (EmptyString, r) else None
      end
  end.

Definition emufs_lookparent (dir : Z) (pathname : string) (len : Z) : V (Z * Z * string) :=
  match strrchr pathname with
  | None =>
      if len <? Z.of_nat (String.length pathname) + 1 then mret (ENAMETOOLONG, 0, EmptyString)
      else VOP_INCREF dir ;; mret (0, dir, pathname)
  | Some (d, name) =>
      if len <? Z.of_nat (String.length name) + 1 then mret (ENAMETOOLONG, 0, EmptyString)
      else '(result, v) ← emufs_lookup dir d; mret (result, v, name)
  end.

Definition emufs_namefile (v : Z) (u : uio) : V (Z * uio) :=
  vn ← get_vnode v;
  e ← the_emu;
  if vn_data vn =? ef_root e then mret (0, u) else mret (ENOSYS, u).

Definition emufs_symlink (v : Z) (contents name : string) : V Z := mret ENOSYS.
Definition emufs_mkdir (v : Z) (name : string) (mode : Z) : V Z := mret ENOSYS.
Definition emufs_link (v : Z) (name : string) (target : Z) : V Z := mret ENOSYS.
Definition emufs_remove (v : Z) (name : string) : V Z := mret ENOSYS.
Definition emufs_rmdir (v : Z) (name : string) : V Z := mret ENOSYS.
Definition emufs_rename (v1 : Z) (n1 : string) (v2 : Z) (n2 : string) : V Z := mret ENOSYS.

Definition emufs_void_op_isdir (v : Z) : V Z := mret EISDIR.
Definition emufs_uio_op_isdir (v : Z) (u : uio) : V (Z * uio) := mret (EISDIR, u).
Definition emufs_uio_op_notdir (v : Z) (u : uio) : V (Z * uio) := mret (ENOTDIR, u).
Definition emufs_name_op_notdir (v : Z) (name : string) : V Z := mret ENOTDIR.
Definition emufs_readlink_notlink (v : Z) (u : uio) : V (Z * uio) := mret (EINVAL, u).
Definition emufs_creat_notdir (v : Z) (name : string) (excl : bool) (mode : Z) : V (Z * Z) :=
  mret (ENOTDIR, 0).
Definition emufs_symlink_notdir (v : Z) (contents name : string) : V Z := mret ENOTDIR.
Definition emufs_mkdir_notdir (v : Z) (name : string) (mode : Z) : V Z := mret ENOTDIR.
Definition emufs_link_notdir (v : Z) (name : string) (target : Z) : V Z := mret ENOTDIR.
Definition emufs_rename_notdir (v1 : Z) (n1 : string) (v2 : Z) (n2 : string) : V Z := mret ENOTDIR.
Definition emufs_lookup_notdir (v : Z) (pathname : string) : V (Z * Z) := mret (ENOTDIR, 0).
Definition emufs_lookparent_notdir (v : Z) (pathname : string) (len : Z) : V (Z * Z * string) :=
  mret (ENOTDIR, 0, EmptyString).
Definition emufs_truncate_isdir (v len : Z) : V Z := mret ENOTDIR.

(** ** The file system *)

Definition emufs_sync (fs : Z) : V Z := mret 0.
Definition emufs_getvolname (fs : Z) (s : vfs W) : option string := None.
Definition emufs_getroot (fs : Z) : V (Z * Z) :=
  kassert (negb (fs =? 0)) "fs != NULL" ;;
  e ← the_emu;
  kassert (negb (ef_root e =? 0)) "ef->ef_root != NULL" ;;
  VOP_INCREF (ef_root e) ;;
  mret (0, ef_root e).
Definition emufs_unmount (fs : Z) : V Z := mret EBUSY.

#[export] Instance emufs_filesystem : FileSystem W := {|
  fs_eachopen v flags := dispatch v (emufs_eachopendir v flags) (emufs_eachopen v flags);
  fs_reclaim := emufs_reclaim;
  fs_readlink v u := dispatch v (emufs_uio_op_isdir v u) (emufs_readlink_notlink v u);
  fs_namefile v u := dispatch v (emufs_namefile v u) (emufs_uio_op_notdir v u);
  fs_gettype := emufs_gettype;
  fs_truncate v len := dispatch v (emufs_truncate_isdir v len) (emufs_truncate v len);
  fs_creat v name excl mode :=
    dispatch v (emufs_creat v name excl mode) (emufs_creat_notdir v name excl mode);
  fs_symlink v a b := dispatch v (emufs_symlink v a b) (emufs_symlink_notdir v a b);
  fs_mkdir v name mode := dispatch v (emufs_mkdir v name mode) (emufs_mkdir_notdir v name mode);
  fs_link v name t := dispatch v (emufs_link v name t) (emufs_link_notdir v name t);
  fs_remove v name := dispatch v (emufs_remove v name) (emufs_name_op_notdir v name);
  fs_rmdir v name := dispatch v (emufs_rmdir v name) (emufs_name_op_notdir v name);
  fs_rename v1 n1 v2 n2 := dispatch v1 (emufs_rename v1 n1 v2 n2) (emufs_rename_notdir v1 n1 v2 n2);
  fs_lookup v path := dispatch v (emufs_lookup v path) (emufs_lookup_notdir v path);
  fs_lookparent v path len :=
    dispatch v (emufs_lookparent v path len) (emufs_lookparent_notdir v path len);
  FSOP_SYNC := emufs_sync;
  FSOP_GETVOLNAME := emufs_getvolname;
  FSOP_GETROOT := emufs_getroot;
  FSOP_UNMOUNT := emufs_unmount;
  drv_eachopen d flags := panic "no such driver";
  drv_io d u := panic "no such driver";
  drv_ioctl d op data := panic "no such driver"
|}.

(** The array structure of [vnodearray_create] is 12 bytes. *)
Definition emufs_addtovfs (devname : string) : V Z :=
  ef ← kmalloc SIZEOF_EMUFS_FS;
  if ef =? 0 then mret ENOMEM
  else
    upd_emu (with_root 0) ;;
    vns ← kmalloc 12;
    if vns =? 0 then kfree ef ;; mret ENOMEM
    else
      upd_emu (λ e, with_block 0 0 (with_vns [] e)) ;;
      '(result, root) ← emufs_loadvnode ef EMU_ROOTHANDLE true;
      if negb (result =? 0) then kfree ef ;; mret result
      else
        upd_emu (with_root root) ;;
        kassert (negb (root =? 0)) "ef->ef_root!=NULL" ;;
        result ← vfs_addfs devname ef;
        if negb (result =? 0) then VOP_DECREF root ;; kfree ef ;; mret result
        else mret 0.

(** The results of lock_create and sem_create (0: out of memory). *)
Definition config_emu (e_lock e_sem' : Z) (name : string) : V Z :=
  if e_lock =? 0 then mret ENOMEM
  else if e_sem' =? 0 then mret ENOMEM
  else
    upd_emu (λ e, with_irq (e_result e) 0 e) ;;
    emufs_addtovfs name.

End emu.
End Emu.
