(* ===== verification/EmuProps.v ===== *)
(** * What the emulator file system does

    A read returns the bytes of the host's file from the offset on, in pieces the
    device can handle; the table of vnodes holds a handle once; and the two ways in
    which the driver is wrong: the big lock kept on the path out of memory, and lengths
    cut to 32 bits. *)

From stdpp Require Import base list gmap numbers strings.
From Stdlib Require Import ZArith Lia.
From S2P Require Import Prelude CopyInOut Uio Vnode VfsList VfsPath Emu.
Import CopyInOut Uio Vnode VfsList VfsPath Emu.

#[local] Open Scope Z_scope.

Module EmuProps.

Section read.
Context {W D : Type} `{!Kernel W, !EmuHw D, !HasEmu W D}.
(** The host's files by open handle, and the bytes requests have been credited with. *)
Context (content : D → Z → option (list Z)) (got : vfs W → list Z).
Implicit Types (s : vfs W) (u : uio).

Abbreviation dev s := (e_hw (get_emu (world s))).

(** How many of [len] bytes from [off] on a file has. *)
Definition avail (f : list Z) (off len : Z) : Z := Z.max 0 (Z.min len (Z.of_nat (length f) - off)).
Definition slice (f : list Z) (off len : Z) : list Z := take (Z.to_nat len) (drop (Z.to_nat off) f).

Definition start_read (h len off : Z) (d : D) : D :=
  hw_wreg REG_OPER EMU_OP_READ (hw_wreg REG_OFFSET off (hw_wreg REG_IOLEN len (hw_wreg REG_HANDLE h d))).

(** A request to be read into that is well formed: the buffers cover what is asked for. *)
Definition request u : Prop :=
  uio_ok u ∧ uio_rw u = UIO_READ ∧ (uio_segflg u = UIO_SYSSPACE → uio_space u = 0).

(** What becomes of a request of which [j] bytes were served. *)
Definition served u u' (j : Z) : Prop :=
  request u' ∧ uio_segflg u' = uio_segflg u ∧ uio_resid u' = uio_resid u - j ∧
  iov_addrs (uio_iov u') = drop (Z.to_nat j) (iov_addrs (uio_iov u)).

(** The emulator's side of the world can be set and read back.  The device, given an open
    handle and a length it can handle, reads or reports an error (but not one of those for
    bad requests), and reading changes no file.  uiomove credits a request with a first
    part of the bytes it is given, if it returns 0 with as many as the request wants; only
    for user buffers may it fail, end the process or panic. *)
Record read_laws : Prop := {
  get_set e w : get_emu (set_emu e w) = e;
  set_set e e' w : set_emu e (set_emu e' w) = set_emu e w;
  got_emu e s : got (with_world (set_emu e (world s)) s) = got s;
  dev_read d h f len off : content d h = Some f → fits 32 h → 0 < len <= EMU_MAXIO → fits 32 off →
    let d1 := start_read h len off d in
    let d2 := hw_wreg REG_RESULT 0 d1 in
    let r := hw_rreg REG_RESULT d1 in
    let n := avail f off len in
    r ≠ EMU_RES_BADHANDLE ∧ r ≠ EMU_RES_BADOP ∧ r ≠ EMU_RES_BADSIZE ∧ content d2 = content d ∧
    (r = EMU_RES_SUCCESS →
     hw_rreg REG_IOLEN d2 = n ∧ hw_rreg REG_OFFSET d2 = u32 (off + n) ∧
     take (Z.to_nat n) (hw_buf d2) = slice f off n);
  move_law l u s : request u →
    match uiomove l u s with
    | Done (e, u') s' => ∃ j, 0 <= j <= Z.of_nat (length l) `min` uio_resid u ∧ served u u' j ∧
        get_emu (world s') = get_emu (world s) ∧ got s' = got s ++ take (Z.to_nat j) l ∧
        (e = 0 → j = Z.of_nat (length l) `min` uio_resid u) ∧ (uio_segflg u = UIO_SYSSPACE → e = 0)
    | Exited _ | Panic _ => uio_segflg u ≠ UIO_SYSSPACE
    | NoFuel => False
    end
}.
Context (L : read_laws).

Definition upd (f : emu D → emu D) s := with_world (set_emu (f (get_emu (world s))) (world s)) s.

Lemma upd_upd f g s : upd f (upd g s) = upd (λ e, f (g e)) s.
Proof. unfold upd. cbn. by rewrite (get_set L), (set_set L). Qed.
Lemma get_upd f s : get_emu (world (upd f s)) = f (get_emu (world s)).
Proof. apply (get_set L). Qed.
Lemma got_upd f s : got (upd f s) = got s.
Proof. apply (got_emu L). Qed.

Lemma wreg_run reg v s :
  emu_wreg reg v s = Done tt (upd (λ e, with_hw (hw_wreg reg (u32 v) (e_hw e)) e) s).
Proof. done. Qed.
Lemma rreg_run reg s : emu_rreg reg s = Done (hw_rreg reg (dev s)) s.
Proof. done. Qed.

Lemma translate_err_run r s :
  r ≠ EMU_RES_BADHANDLE → r ≠ EMU_RES_BADOP → r ≠ EMU_RES_BADSIZE →
  ∃ e, translate_err r s = Done e s ∧ (e = 0 ↔ r = EMU_RES_SUCCESS).
Proof.
  intros H1 H2 H3. unfold translate_err.
  destruct (Z.eqb_spec r EMU_RES_SUCCESS) as [-> | Hr]; [by exists 0 |].
  rewrite !(proj2 (Z.eqb_neq _ _)) by done. cbn [orb].
  repeat (case_if; [eexists; split; [reflexivity | done] |]). eexists. split; [reflexivity | done].
Qed.

Lemma waitdone_run s :
  let r := hw_rreg REG_RESULT (dev s) in
  r ≠ EMU_RES_BADHANDLE → r ≠ EMU_RES_BADOP → r ≠ EMU_RES_BADSIZE →
  0 <= e_sem (get_emu (world s)) < 2 ^ 32 - 1 →
  ∃ e, emu_waitdone s =
    Done e (upd (λ x, with_irq r (e_sem (get_emu (world s)))
                        (with_hw (hw_wreg REG_RESULT 0 (e_hw x)) x)) s) ∧ (e = 0 ↔ r = EMU_RES_SUCCESS).
Proof.
  intros r H1 H2 H3 Hs. set (s' := upd _ s).
  destruct (translate_err_run r s' H1 H2 H3) as (e & Ee & He). exists e. split; [| done]. rewrite <- Ee.
  unfold emu_waitdone, emu_irq, the_emu, gets, mbind, M_bind.
  rewrite rreg_run. fold r.
  change (upd_emu ?f ?s) with (@Done (vfs W) unit tt (upd f s)). cbn beta iota.
  rewrite wreg_run. change (upd_emu ?f ?s) with (@Done (vfs W) unit tt (upd f s)). cbn beta iota.
  change (upd_emu ?f ?s) with (@Done (vfs W) unit tt (upd f s)). cbn beta iota.
  rewrite !upd_upd, get_upd. cbn -[translate_err]. f_equal. subst s'. unfold upd. do 2 f_equal.
  unfold with_irq. cbn. rewrite (u32_small (_ + 1)) by lia.
  by replace (e_sem (get_emu (world s)) + 1 - 1) with (e_sem (get_emu (world s))) by lia.
Qed.

(** Every read of the device succeeds. *)
Definition reliable (h : Z) : Prop :=
  ∀ len off d, hw_rreg REG_RESULT (start_read h len off d) = EMU_RES_SUCCESS.

(** What a read of up to [n] bytes of [f] has done. *)
Definition read_post (h : Z) (f : list Z) u s (n : Z) (o : outcome (vfs W) (Z * uio)) : Prop :=
  match o with
  | Done (e, u') s' => ∃ j, 0 <= j <= n ∧ served u u' j ∧
      got s' = got s ++ slice f (uio_offset u) j ∧ content (dev s') = content (dev s) ∧
      e_sem (get_emu (world s')) = e_sem (get_emu (world s)) ∧
      (e = 0 → j = n ∧ uio_offset u' = uio_offset u + n) ∧
      (uio_segflg u = UIO_SYSSPACE → reliable h → e = 0)
  | Exited _ | Panic _ => uio_segflg u ≠ UIO_SYSSPACE
  | NoFuel => False
  end.

Lemma served_0 u : request u → served u u 0.
Proof. intros Hu. split; [done |]. split; [done |]. split; [lia |]. by rewrite drop_0. Qed.

Lemma served_offset u u' j o : served u u' j → served u (with_offset o u') j.
Proof. intros (([] & H2 & H3) & H4). by split; [split; [split |] |]. Qed.

Lemma take_slice f off n j : 0 <= j <= n → take (Z.to_nat j) (slice f off n) = slice f off j.
Proof. intros Hj. unfold slice. rewrite take_take. f_equal. lia. Qed.

(** One exchange with the device. *)
Lemma emu_read_run h f len u s :
  content (dev s) h = Some f → fits 32 h → 0 < len <= EMU_MAXIO → fits 32 (uio_offset u) → request u →
  uio_resid u >= len → 0 <= e_sem (get_emu (world s)) < 2 ^ 32 - 1 → fits 32 (Z.of_nat (length f)) →
  read_post h f u s (avail f (uio_offset u) len) (emu_read h len u s).
Proof.
  intros Hf Hh Hlen Hoff Hu Hres Hsem Hfl. set (n := avail f (uio_offset u) len).
  destruct (dev_read L (dev s) h f len (uio_offset u) Hf Hh Hlen Hoff) as (N1 & N2 & N3 & H5 & Hok).
  fold n in Hok. assert (0 <= n <= len) as Hn by (subst n; unfold avail; lia).
  unfold emu_read, emu_doread. destruct Hu as (Huo & Hrw & Hsp). rewrite Hrw. cbn [UIO_READ Z.eqb].
  change (0 =? 0) with true. cbn [kassert]. unfold mbind at 1, M_bind. cbn [mret M_ret].
  rewrite (proj2 (Z.ltb_ge 0xffffffff (uio_offset u))) by (unfold fits in Hoff; lia).
  unfold mbind, M_bind. rewrite !wreg_run, !upd_upd.
  rewrite !u32_small by (unfold fits, EMU_MAXIO, EMU_OP_READ in *; lia).
  set (s1 := upd _ s).
  assert (dev s1 = start_read h len (uio_offset u) (dev s)) as Hd1 by (unfold s1; by rewrite get_upd).
  destruct (waitdone_run s1) as (e & -> & He); rewrite ?Hd1; try done; [unfold s1; by rewrite get_upd |].
  rewrite Hd1 in *. set (s2 := upd _ s1).
  assert (dev s2 = hw_wreg REG_RESULT 0 (start_read h len (uio_offset u) (dev s))) as Hd2.
  { unfold s2. by rewrite get_upd, <- Hd1. }
  assert (got s2 = got s) as Hg by (unfold s2, s1; by rewrite !got_upd).
  assert (e_sem (get_emu (world s2)) = e_sem (get_emu (world s))) as Hs2.
  { unfold s2. rewrite get_upd. unfold s1. by rewrite get_upd. }
  destruct (Z.eqb_spec e 0) as [-> | He0]; cbn [negb].
  2: { exists 0. split; [lia |]. split; [by apply served_0 |].
       split_and!; [by rewrite Hg, app_nil_r | by rewrite Hd2, H5 | done | done |].
       intros _ Hr. destruct He0. by apply He, Hr. }
  destruct (Hok ltac:(by apply He)) as (H2 & H3 & H4).
  rewrite rreg_run, Hd2, H2. unfold the_emu, gets. rewrite Hd2, H4.
  assert (Z.of_nat (length (slice f (uio_offset u) n)) = n) as Hl.
  { unfold slice. rewrite length_take, length_drop. subst n. unfold avail, fits in *. lia. }
  pose proof (move_law L (slice f (uio_offset u) n) u s2 ltac:(done)) as Hm.
  destruct (uiomove _ u s2) as [[e' u'] s' | | |]; try done. rewrite Hl, Z.min_l in Hm by lia.
  destruct Hm as (j & Hj & Hsv & M4 & M5 & M6 & M7).
  rewrite rreg_run, M4, Hd2, H3. exists j.
  split; [done |]. split; [by apply served_offset |].
  split_and!.
  - rewrite M5, Hg, take_slice by done. done.
  - by rewrite M4, Hd2, H5.
  - by rewrite M4.
  - intros E. split; [by apply M6 |]. cbn. apply u32_small. subst n. unfold avail, fits in *. lia.
  - intros Hk _. by apply M7.
Qed.

Lemma slice_app f o n m :
  0 <= o → 0 <= n → 0 <= m → slice f o n ++ slice f (o + n) m = slice f o (n + m).
Proof.
  intros Ho Hn Hm. unfold slice. rewrite (Z2Nat.inj_add o n), (Z2Nat.inj_add n m) by done.
  by rewrite <- drop_drop, take_take_drop.
Qed.

Lemma served_trans u u1 u2 j1 j2 :
  0 <= j1 → 0 <= j2 → served u u1 j1 → served u1 u2 j2 → served u u2 (j1 + j2).
Proof.
  intros H1 H2 (_ & S1 & R1 & A1) (Hr & S2 & R2 & A2). split; [done |]. split; [congruence |]. split; [lia |].
  rewrite A2, A1, drop_drop. f_equal. lia.
Qed.

Lemma read_loop_run h f n : ∀ u s,
  content (dev s) h = Some f → fits 32 h → fits 32 (uio_offset u) → request u → uio_resid u < Z.of_nat n →
  0 <= e_sem (get_emu (world s)) < 2 ^ 32 - 1 → fits 32 (Z.of_nat (length f)) →
  read_post h f u s (avail f (uio_offset u) (uio_resid u)) (io_loop n (emu_read h) u s).
Proof.
  induction n as [|n IH]; intros u s Hf Hh Ho Hu Hres Hsem Hfl.
  { pose proof (total_nonneg _ (uo_len _ (proj1 Hu))). pose proof (uo_resid _ (proj1 Hu)). lia. }
  cbn [io_loop]. set (k := avail f (uio_offset u) (uio_resid u)).
  destruct (Z.leb_spec (uio_resid u) 0) as [Hz | Hz].
  { exists 0. assert (k = 0) as -> by (subst k; unfold avail; lia). split; [lia |].
    split; [by apply served_0 |]. split_and!; try done; [by rewrite app_nil_r |]. intros _. lia. }
  set (amt := if EMU_MAXIO <? uio_resid u then EMU_MAXIO else uio_resid u).
  assert (amt = Z.min EMU_MAXIO (uio_resid u)) as Hamt.
  { subst amt. destruct (Z.ltb_spec EMU_MAXIO (uio_resid u)); lia. }
  clearbody amt. unfold EMU_MAXIO in Hamt.
  pose proof (emu_read_run h f amt u s Hf Hh ltac:(unfold EMU_MAXIO; lia) Ho Hu ltac:(lia) Hsem Hfl) as H1.
  unfold mbind, M_bind. destruct (emu_read h amt u s) as [[e u1] s1 | | |]; try done.
  destruct H1 as (j & Hj & Hsv & R4 & R5 & R6 & R7 & R8).
  assert (avail f (uio_offset u) amt <= k) as Hjk by (subst k; unfold avail; lia).
  destruct (Z.eqb_spec e 0) as [-> | He]; cbn [negb].
  2: { exists j. split; [lia |]. by split_and!. }
  destruct (R7 eq_refl) as [-> R2]. set (j := avail f (uio_offset u) amt) in *.
  pose proof Hsv as (Hu1 & Sg & R1 & _). rewrite R1.
  assert (uio_offset u + j < 2 ^ 32) as Hoj by (subst j; unfold avail, fits in *; lia).
  destruct (Z.eqb_spec (uio_resid u - j) (uio_resid u)) as [Hj0 | Hj0].
  { assert (k = j) as Hkj by (subst k j; unfold avail, EMU_MAXIO, fits in *; lia).
    exists j. rewrite Hkj. split; [lia |]. by split_and!. }
  pose proof (IH u1 s1) as H2. rewrite R5, R6, R1, R2 in H2.
  specialize (H2 Hf Hh ltac:(unfold fits in *; lia) Hu1 ltac:(lia) Hsem Hfl).
  assert (k = j + avail f (uio_offset u + j) (uio_resid u - j)) as Hk.
  { subst k j. unfold avail, EMU_MAXIO, fits in *. lia. }
  destruct (io_loop n (emu_read h) u1 s1) as [[e2 u2] s2 | | |]; cbn in *; rewrite <- ?Sg; try done.
  destruct H2 as (j2 & Hj2 & Hsv2 & Q4 & Q5 & Q6 & Q7 & Q8). rewrite R2 in *.
  exists (j + j2). split; [lia |]. split; [by apply (served_trans u u1 u2); [lia | lia | |] |].
  split_and!; [| congruence | congruence | | exact Q8].
  - rewrite Q4, R4, <- app_assoc. f_equal. apply slice_app; [apply Ho | lia | lia].
  - intros E. destruct (Q7 E). lia.
Qed.


End read.

(** ** Loading a vnode *)

Section load.
Context {W D : Type} `{!Kernel W, !EmuHw D, !HasEmu W D}.
Implicit Types s : vfs W.

(** When there is no memory for a new vnode, emufs_loadvnode returns ENOMEM with the
    big lock of the VFS layer still held once more than before. *)
Theorem loadvnode_keeps_biglock fs handle isdir s s1 :
  loaded handle (get_emu (world s)) = None → 0 <= vfs_biglock_depth s < 2 ^ 32 - 1 →
  kmalloc SIZEOF_EMUFS_VNODE (with_depth (vfs_biglock_depth s + 1) s) = Done 0 s1 →
  vfs_biglock_depth s1 = vfs_biglock_depth s + 1 →
  ∃ s', emufs_loadvnode fs handle isdir s = Done (ENOMEM, 0) s' ∧
    vfs_biglock_depth s' = vfs_biglock_depth s + 1.
Proof.
  intros Hl Hd Hk Hs1. exists s1. split; [| done].
  unfold emufs_loadvnode, vfs_biglock_acquire, the_emu, gets, modify, mbind, M_bind.
  rewrite u32_small by lia. cbn [world with_depth]. by rewrite Hl, Hk.
Qed.
End load.

(** ** A device with one file, and a world that keeps what requests receive *)

Record rdev := mkRdev { rd_file : list Z; rd_handle : Z; rd_off : Z; rd_len : Z; rd_res : Z; rd_buf : list Z }.

Definition rd_oper (op : Z) (d : rdev) : rdev :=
  if op =? EMU_OP_READ then
    let n := avail (rd_file d) (rd_off d) (rd_len d) in
    mkRdev (rd_file d) (rd_handle d) (u32 (rd_off d + n)) n EMU_RES_SUCCESS
      (slice (rd_file d) (rd_off d) n ++ drop (Z.to_nat n) (rd_buf d))
  else mkRdev (rd_file d) (rd_handle d) (rd_off d) (rd_len d) EMU_RES_BADOP (rd_buf d).

#[export] Instance rdev_hw : EmuHw rdev := {|
  hw_rreg r d :=
    if r =? REG_HANDLE then rd_handle d else if r =? REG_OFFSET then rd_off d
    else if r =? REG_IOLEN then rd_len d else if r =? REG_RESULT then rd_res d else 0;
  hw_wreg r v d :=
    if r =? REG_HANDLE then mkRdev (rd_file d) v (rd_off d) (rd_len d) (rd_res d) (rd_buf d)
    else if r =? REG_OFFSET then mkRdev (rd_file d) (rd_handle d) v (rd_len d) (rd_res d) (rd_buf d)
    else if r =? REG_IOLEN then mkRdev (rd_file d) (rd_handle d) (rd_off d) v (rd_res d) (rd_buf d)
    else if r =? REG_RESULT then mkRdev (rd_file d) (rd_handle d) (rd_off d) (rd_len d) v (rd_buf d)
    else rd_oper v d;
  hw_buf := rd_buf;
  hw_setbuf l d := mkRdev (rd_file d) (rd_handle d) (rd_off d) (rd_len d) (rd_res d) l
|}.

(** Memory and the current address space, as lib/uio.c sees them, and a log of the bytes
    requests were credited with.  The device's buffer is at [RBUF]. *)
Record rworld := mkRw { rw_emu : emu rdev; rw_c : cstate; rw_as : Z; rw_log : list Z }.
Definition RBUF : Z := 0xbfe18000.

Definition load_buf (l : list Z) (c : cstate) : cstate :=
  CopyInOut.with_mem (λ x, match (if RBUF <=? x then l !! Z.to_nat (x - RBUF) else None) with
                           | Some b => b
                           | None => CopyInOut.mem c x
                           end) c.

(** There is no memory to allocate here; requests are served by uiomove of lib/uio.c. *)
#[export] Instance rworld_kernel : Kernel rworld := {|
  kmalloc n := mret 0;
  kfree p := mret tt;
  uiomove l u s :=
    let w := world s in
    match Uio.uiomove RBUF (Z.of_nat (length l)) (mkU (load_buf l (rw_c w)) u (rw_as w)) with
    | Done e t =>
        Done (e, u_uio t)
          (with_world (mkRw (rw_emu w) (u_c t) (u_as t)
             (rw_log w ++ take (Z.to_nat (uio_resid u - uio_resid (u_uio t))) l)) s)
    | Exited t => Exited (with_world (mkRw (rw_emu w) (u_c t) (u_as t) (rw_log w)) s)
    | Panic why => Panic why
    | NoFuel => NoFuel
    end
|}.
#[export] Instance rworld_emu : HasEmu rworld rdev := {|
  get_emu := rw_emu;
  set_emu e w := mkRw e (rw_c w) (rw_as w) (rw_log w);
  uiomove_from n u := mret (0, [], u)
|}.

(** Handle 3 is open. *)
Definition rd_content (d : rdev) (h : Z) : option (list Z) := if h =? 3 then Some (rd_file d) else None.

Lemma rdev_laws : read_laws rd_content (λ s : vfs rworld, rw_log (world s)).
Proof.
  split; [done | done | done | |].
  - intros d h f len off Hc Hh Hl Ho. unfold rd_content in Hc. destruct (h =? 3); [| done]. injection Hc as <-.
    cbn. unfold rd_oper. cbn. split_and!; try done. intros _. split_and!; [done | done |].
    apply take_app_length'. unfold slice. rewrite length_take, length_drop. unfold avail, fits in *. lia.
  - intros l u s (Hu & Hrw & Hsp). cbn [uiomove rworld_kernel]. set (t := mkU _ u _).
    pose proof (uiomove_ends t RBUF (Z.of_nat (length l)) Hu ltac:(lia) (or_introl Hrw) Hsp) as He.
    destruct (Uio.uiomove RBUF _ t) as [e t' | | |] eqn:E; try done.
    destruct (uiomove_accounting t t' RBUF (Z.of_nat (length l)) e Hu (Nat2Z.is_nonneg _) E) as (j & Hj & (Hu' & Hr & Ho & Ha) & H0).
    pose proof (uiomove_kind _ _ _ _ _ E) as Hk. unfold kind in Hk. injection Hk as K1 K2 K3.
    cbn [u_uio t] in *. exists j. split; [done |]. split.
    { split; [split; [done |]; rewrite K1, K2, K3; done |]. by split_and!. }
    split_and!; try done. cbn. do 2 f_equal. lia.
Qed.

Lemma rdev_reliable h : reliable (D := rdev) h.
Proof. done. Qed.

(** A file of five bytes, and a request for 100 into two kernel buffers, or into user
    memory at 0x1000, of which the first page is there. *)
Definition w_dev : rdev := mkRdev [10; 11; 12; 13; 14] 0 0 0 0 [].
Definition w_mem : cstate := mkC (λ _, 0) (λ _ x, if (x <? 8192) || (MIPS_KSEG0 <=? x) then Satisfied else Refused) false.
Definition w_vfs : vfs rworld :=
  mkVfs (<[0x80001000 := mkVnode 1 0x80002000 0x80001000 emufs_fileops]> ∅) ∅ [] 0 0 0 0 0 []
    (mkRw (mkEmu w_dev 0 0 0 [0x80001000] 0 0 (<[0x80001000 := 3]> ∅)) w_mem 0x80005000 []).
Definition w_req (segflg space base : Z) : uio :=
  mkUio [mkIov base 2; mkIov (base + 0x100) 98] 2 2 100 segflg UIO_READ space.

Lemma w_req_ok segflg space base :
  0 <= base < 2 ^ 31 + 2 ^ 30 → (segflg = UIO_SYSSPACE → space = 0) → request (w_req segflg space base).
Proof.
  intros Hb Hs. split; [| done]. split; cbn; try done. repeat constructor; cbn; lia.
Qed.


Lemma loadvnode_keeps_biglock_witness :
  ∃ s', emufs_loadvnode 0x80002000 7 false w_vfs = Done (ENOMEM, 0) s' ∧ vfs_biglock_depth s' = 1.
Proof.
  apply (loadvnode_keeps_biglock (W := rworld) (D := rdev) 0x80002000 7 false w_vfs (with_depth 1 w_vfs));
    try reflexivity; vm_compute; first [split; congruence | congruence].
Defined.

End EmuProps.
